(* ===== verification/_CoqProject ===== *)
-Q . S2P
Prelude.v
Creds.v
SysVSem.v
SysVSemFacts.v
SysVSemSafe.v
SysVSemOp.v
SysVSemCtl.v
SysVSemSystem.v
SysVSemProps.v
SysVShm.v
SysVShmFacts.v
SysVShmSystem.v
Tls.v
TlsThreads.v
Env.v
EnvFacts.v
Heap.v
HeapFacts.v
HeapBuckets.v
HeapLumps.v
HeapOps.v
HeapAlloc.v
HeapExpand.v
HeapApi.v
HeapRealloc.v
HeapSystem.v
HeapProps.v
Time.v
TimeFacts.v
TimeProps.v
FMutex.v
FMutexFacts.v
FMutexProps.v
BigInt.v
BigIntFacts.v
BigIntArith.v
BigIntShift.v
BigIntDiv.v
BigIntHdiv.v
BigIntProps.v
Conv.v
ConvFacts.v
ConvProps.v
Stdio.v
StdioSpec.v
StdioSeek.v
StdioRead.v
StdioWrite.v
StdioLines.v
StdioProps.v
Spm.v
SpmFacts.v
SpmAlloc.v
SpmTable.v
SpmCalls.v
SpmSigs.v
SpmMoves.v
SpmSystem.v
SpmPool.v
SpmPoolFacts.v
SpmInit.v
SpmProps.v
SpmMail.v
SpmLife.v
CStr.v
Fnmatch.v
FnmatchFacts.v
FnmatchUnix.v
FnmatchComp.v
FnmatchProps.v
Printf.v
PrintfSpec.v
PrintfFacts.v
PrintfInt.v
PrintfDigits.v
PrintfFloat.v
PrintfParse.v
PrintfOutput.v
PrintfSinks.v
PrintfProps.v
