(* ===== verification/Prelude.v ===== *)
(** A verification library for the own code of kLIBC, the C library for OS/2
    ([src/src/emx/src/lib]).

    * What the program is, and the parts modelled

    The library implements a Unix process environment on top of OS/2. State
    that processes share is in a shared memory block kept by the shared process
    manager; state of one process is in ordinary variables. The parts modelled
    are those with logic of their own above the system calls:

    - [Creds]: process credentials and the IPC permission check
      ([sys/sharedpm.c]). The System V back-ends call the check.
    - [Spm], [SpmPool] and the other files of that name: the shared process
      manager ([sys/sharedpm.c], with the few lines of [sys/__spawnve.c] and
      [sys/libcfork.c] that write into an embryo). [Spm] has the process table
      with its four lists, references, notices of death, signal queues and the
      allocation that frees what it can; [SpmPool] the pool of chunks below it.
      [SpmFacts], [SpmAlloc], [SpmTable], [SpmCalls], [SpmSigs], [SpmMoves]:
      the invariant and each function's effect; [SpmSystem]: processes that
      call it in any order; [SpmPoolFacts], [SpmInit]: the pool and a new
      memory; [SpmProps], [SpmMail], [SpmLife]: the properties.
    - [SysVSem], [SysVSemFacts], [SysVSemSafe], [SysVSemOp], [SysVSemCtl],
      [SysVSemSystem], [SysVSemProps]: System V semaphores
      ([sys/sysv_sem.c], [sys/safesems.c]): pool, undo lists, sleeping and
      waking [semop] calls, [semctl], [semget], the exit hook.
    - [SysVShm], [SysVShmFacts], [SysVShmSystem]: System V shared memory
      ([sys/sysv_shm.c]).
    - [Tls], [TlsThreads]: thread local storage ([process/tls.c]), one call at
      a time and with the atomic instructions of many threads interleaved.
    - [Env], [EnvFacts]: [getenv], [setenv], [putenv], [unsetenv] ([app/]).
    - [Heap], [HeapFacts], [HeapBuckets], [HeapLumps], [HeapOps], [HeapAlloc],
      [HeapExpand], [HeapApi], [HeapRealloc], [HeapSystem], [HeapProps]: the
      heap ([malloc/], [include/emx/umalloc.h]).
    - [Time], [TimeFacts], [TimeProps]: calendar time ([time/]): [gmtime],
      [mktime], [localtime], the tables of daylight saving and [tzset].
    - [FMutex], [FMutexFacts], [FMutexProps]: fast mutexes
      ([process/fmutex.c]), one step per atomic instruction or system call.
    - [BigInt], [BigIntFacts], [BigIntArith], [BigIntShift], [BigIntDiv],
      [BigIntHdiv], [BigIntProps]: the big integers behind the
      floating point conversions ([conv/bi*.c], [include/emx/bigint.h]).
    - [Conv], [ConvFacts], [ConvProps]: [strtol], [ltoa] and their variants
      ([conv/]).
    - [Stdio], [StdioSpec], [StdioSeek], [StdioRead], [StdioWrite],
      [StdioLines], [StdioProps]: the streams of [stdio.h] ([io/]).
    - [CStr]: strings as what is left of them. [Fnmatch], [FnmatchFacts],
      [FnmatchUnix], [FnmatchComp], [FnmatchProps]: path name matching
      ([misc/fnmatch.c]), the definitions, the relations of patterns and names,
      and the two styles.
    - [Printf] and the other files of that name: formatted output
      ([io/_output.c] for [char], [sprintf.c], [snprintf.c] and their variants).
      [PrintfSpec] has the formats, what they print, and what a stream
      promises; [PrintfFacts], [PrintfInt], [PrintfDigits], [PrintfFloat] show what each conversion prints,
      [PrintfParse] what is read of a conversion, [PrintfOutput] the loop;
      [PrintfSinks] has the two kinds of streams, [PrintfProps] the theorems.

    For each part the first file has the data and one definition per function
    of the code, under the name of the C function without its prefix
    ([__libc_Back_], [__libc_], [_um_] becomes [um_]); the other files have the
    theorems. The interfaces: [SysVSem] and [SysVShm] use the permission check
    of [Creds] and nothing else of each other; [Heap] is its own world, the
    callers see it through the abstract allocator of [HeapSystem]. The process
    table uses its pool through the class [SpmPool] of [Spm] and its laws
    [SpmPoolLaws], which [SpmPoolFacts] proves of the chunks. A stream
    calls its file handle through the class [Handle] of [Stdio] (its reads and
    writes repeat the interrupted ones of the system: [str_write_law]); what a handle
    on a disk file promises is the class [DiskFile] of [StdioSpec], against
    which the theorems are proved, with the instance [disk] for the examples.
    Formatted output writes to its stream through the class [Sink] of
    [Printf]; the laws are the class [SinkSpec] of [PrintfSpec], proved in
    [PrintfSinks] of the streams of [Stdio] on disk files and of the strings of
    [sprintf]. The floating point numbers are the class [LDouble], the locale
    the record [penv] with the laws [penv_ok] (for [Fnmatch]: [locale]).

    * Conventions

    Code that changes state is a function of the monad [M] of this file:
    [Done] with a result and the new state, [Err] with an [errno] value (the
    [goto done] and NULL exits that set one), or [Fault]: [Ub] for an access to
    an object that does not exist or a pointer that is not defined, [Panic] for
    an assertion of the strict build or an abort, [Hang] for a loop that runs
    out of fuel. The theorems show that no [Fault] is reached; so they show
    that the fuel is enough. C arrays are lists indexed by [Z] ([aget],
    [aset]); 16-, 32- and 64-bit words are integers with their wrap-around
    ([u16], [u32], [u64], [s16], [s32], [s64]). Pointers are indices into the table they point into
    (semaphores, shared memory), identities of string objects (environment) or
    32-bit addresses (heap); [FILE] keeps its pointer as an index into the
    buffer. Where the code leaves an array by one place (a big integer is read
    behind its last word, the digits of a floating point number are moved over
    the end of their array) the argument [past] is what may be accessed there:
    with nothing there the access is a fault. What OS/2 returns, and whether [malloc] succeeds
    for the environment, is an argument of the definitions that ask for it.

    In the heap each member of the lump and crumb headers has a map from the
    address of the header to the word; the unions of the C structures are
    written out (the [prev] member of a free crumb is its [size] word). A heap
    satisfies [heap_ok h L] when [L] lists the lumps that tile each segment,
    the headers and boundary tags in memory are those of [L], no two free lumps
    are neighbours, and each bucket is a doubly linked list of exactly the free
    lumps of its sizes. The proofs replace the lumps of one place ([ctx],
    [plug]) and treat memory in between owners as a gap.

    The process manager runs each call under its mutex, so a system step is one
    call. [Inv D W X s] says that each block of the pool has one owner (a
    process block, what hangs off one, or a free list), but for the blocks [X]
    the running function holds, that each process block but those of [D] is in
    the list of its state, and that each block but those of [W] fits its state.
    [TInv n t I] relates the table to the pointers the processes have: a
    reference count is at least the number of pointers, and at most [n], the
    number of steps. Files [SpmCalls] and [SpmMoves] split the calls into those
    that move no block ([calm]) and the six that do.

    A stream satisfies [sinv] when its counters fit the buffer, the bytes not
    yet read are those of the file behind the position, and the flags of the
    two modes exclude each other. [view] is the abstract stream it stands for:
    the bytes of the file with what is still to be written, the position and
    the bytes pushed back. [hist] says that the bytes in front of the pointer
    are in the file too, which only [fseek] needs.

    A format is a list of directives with a concrete syntax ([unparse]);
    [render] gives its text from the arguments, or nothing where C leaves the
    behaviour open, and the running function prints a text from a state
    ([prints]) if the stream has room for it and the count does not overflow.

    * The theorems

    - Safety of the systems: semaphore calls of any processes in any order,
      each from its start to its end or its sleep ([sem_system_safe]), shared
      memory calls of processes that do not fork ([shm_system_safe]) and all
      interleavings of the instructions of the TLS allocator
      ([tls_concurrent_unique]) keep the invariants and never fault;
      credentials do not escalate
      ([no_privilege_escalation]). No sequence of process manager calls from a
      new memory uses a freed block or frees one twice ([spm_system_safe]),
      and what allocation frees under pressure is in nobody's use
      ([alloc_disturbs_nobody]).
    - Processes: a program becomes the embryo made for it
      ([register_takes_embryo]), leaves zombies or free blocks
      ([process_ends]), and its parent is told how it died
      ([death_notice_delivered]); queued signals come out in order
      ([signal_arrives]), a group is signalled member by member
      ([group_signal_reaches]).
    - Fast mutexes: mutual exclusion, no lost wake-up, and a schedule to the
      mutex for every thread asleep, for all interleavings.
    - Functional behaviour: [semop] is atomic, removal of a set leaves the
      others as they are, [semget] returns live ids, the exit hook of shared
      memory detaches everything, TLS allocation is first fit and values
      persist, [setenv]/[getenv] round trip, [unsetenv] ends and removes,
      [free] merges, [umalloc] fails only without memory.
    - Refinement: the undo table, and the heap as an abstract allocator of
      blocks of more than 20 bytes ([heap_refines]); the pool of the process
      manager as an allocator of disjoint blocks ([spm_pool_refines]); streams as a file with a
      position ([stdio_refines], [stdio_simulates]), whose functions never
      leave the buffer ([stdio_well_formed]); [fgets] and [getdelim] on top;
      [_output] as the text of its format ([output_prints]).
    - Strings: [fnmatch] decides the matching relation in both styles and ends
      ([fnmatch_posix], [fnmatch_os2]); [snprintf] keeps to its buffer
      ([snprintf_bounded]); [strtoll] reads what [sprintf] prints
      ([sprintf_strtoll]).
    - Calendar and numbers: [gmtime], [localtime] and [mktime] are inverse to
      each other, day numbers are Gregorian, [tzset] ends; long division of
      big integers is division; [strtol] agrees with a reference without
      overflow and reads back what [ltoa] prints.
    - Faults of the code, each proved on the model: the wake-up count, the undo
      purge and the exit hook of the semaphores, the fork hook of shared
      memory, group 0 of a new process, the TLS destructors, [setenv] without
      memory, [_expand] and the heap's mutex, the weeks of a DST switch, three
      loops of the big integers that leave their arrays, and the streams: what
      follows a newline is lost by line buffering, [fseek] behind a big
      [fread] finds old bytes, [fflush] accepts a short write, [getdelim]
      hides an error; in the process manager a query that finds nobody, a
      signal quota that never refills and a lost tail of the pool; in
      [fnmatch] the backslash, the leading dot, what differs from POSIX.2
      (four lines of the tests in testfnm.c among them) and a character that
      is cut; a byte written behind the digits of a floating point number.

    * Bounds and fuel

    The loops over linked lists take fuel; a caller of the heap gives three
    more than the number of pages of its segments ([env_ok]), which bounds the
    number of lumps. [unsetenv] needs one more than the number of entries.
    [__libc_TLSAlloc] is modelled with the 32 tries of the code. The binary
    searches of the calendar have 10 steps for tables of less than 512
    entries, the loop over the years of a DST rule 161, the search for a month
    12. The estimate of a quotient digit is corrected at most 3 times. A
    number has at most 32 (64) digits. [strtol] looks at each byte of the
    string once, the loops of [fread] and [fwrite] at each byte of theirs.
    The loops of [_output] over the format have one more than its length,
    those of [fnmatch] the lengths of mask and name, the padding its width.

    The process manager's loops run over its lists. Its theorems allow fewer
    than 2^32 / 3 steps, since counts of references are 32-bit words that the
    leak of [__libc_spmQueryProcess] only ever raises. They leave out what the
    code gets wrong: a process that registers without an embryo while memory is
    short and others have inherit data, and a block taken from a zombie.

    * Conditions

    The calls of semaphores, shared memory and the process manager are steps as
    a whole: what processes do to each other within a call is not covered, and
    the semaphores have races there. No semaphore set gets the id of a former
    set that a call still sleeps on. Processes with shared memory do not fork
    (the hook of fork miscounts), and [DosFreeMem] works when they end. Requests
    of at most 20 bytes are modelled in [Heap] but no theorem is about crumbs
    and crates. The theorems on streams leave out what the code gets wrong:
    reads of more than [BUFSIZ] bytes on streams for reading only, writes to
    line-buffered streams for both directions, and short writes of the system.

    * Not modelled

    OS/2 itself (memory, semaphores, exceptions, file handles), assembly
    start-up code, [fork], signals, and the parts imported from other projects
    (BSD libc, gdtoa, msun, glibc, the GNU tools): they are thin layers over
    the system or not this project's code. The event semaphore of a fast mutex
    is a flag whose system calls succeed. Of the calendar: [strftime] and
    [strptime]. Of the big integers: [_bi_pow5], whose tables a program
    generates; the old floating point conversions. Of the streams: those
    of [sscanf], wide characters, locks, the table of streams, and [scanf]; the
    theorems are about binary files on disk. Of formatted output: the version
    for wide characters, the buffers [fprintf] gives an unbuffered stream for
    one call, and [vasprintf]; the digits of a floating point number come from
    an argument with the laws of [decimal], since the tables behind
    [__legacy_dtoa] are generated. Its theorems leave out conversions C does
    not define, and the cases in which the code goes wrong: a carry that makes
    22 digits, and a multibyte character that the end of the format cuts. Of the heap: [_uheapchk], [_uheapmin], [_uheapwalk],
    [_udestroy] and the theorems on crumbs. Of the process manager: sockets and
    load average, waiting for a child, the exception handler, the lists of
    modules, the checks of the debug build, and the locked calls the System V
    back-ends make. What could be added along the same lines: these parts,
    [scanf], [_abspath] and [strftime].

    This file: machine integers, the monad with its weakest preconditions, C
    arrays as lists, and the automation of the other files. *)

From Stdlib Require Export ZArith Lia.
From stdpp Require Export base tactics numbers option gmap list_basics list_relations list_misc list.

#[global] Set Default Goal Selector "!".
#[global] Open Scope Z_scope.

Declare Scope libc_scope.
Delimit Scope libc_scope with libc.
#[global] Open Scope libc_scope.

(** ** Machine integers *)

(** Conversion to [uint16_t], [uint32_t], [short] and [int]. *)
Definition u16 (z : Z) : Z := z mod 2 ^ 16.
Definition u32 (z : Z) : Z := z mod 2 ^ 32.
Definition s16 (z : Z) : Z := (z + 2 ^ 15) mod 2 ^ 16 - 2 ^ 15.
Definition s32 (z : Z) : Z := (z + 2 ^ 31) mod 2 ^ 32 - 2 ^ 31.

(** Conversion to [unsigned long long] and [long long]. *)
Definition u64 (z : Z) : Z := z mod 2 ^ 64.
Definition s64 (z : Z) : Z := (z + 2 ^ 63) mod 2 ^ 64 - 2 ^ 63.

(** [~x] on 32 bits, for an unsigned operand. *)
Definition not32 (z : Z) : Z := u32 (Z.lnot z).

(** [x & y] used as a truth value. *)
Definition has_bits (x y : Z) : bool := negb (Z.land x y =? 0).

Definition INT_MAX : Z := 2147483647.
Definition UINT_MAX : Z := 4294967295.

Lemma u16_range z : 0 <= u16 z < 2 ^ 16.
Proof. unfold u16. apply Z.mod_pos_bound. lia. Qed.

Lemma u32_range z : 0 <= u32 z < 2 ^ 32.
Proof. unfold u32. apply Z.mod_pos_bound. lia. Qed.

Lemma s16_range z : - 2 ^ 15 <= s16 z < 2 ^ 15.
Proof.
  unfold s16. pose proof (Z.mod_pos_bound (z + 2 ^ 15) (2 ^ 16)). lia.
Qed.

Lemma s32_range z : - 2 ^ 31 <= s32 z < 2 ^ 31.
Proof.
  unfold s32. pose proof (Z.mod_pos_bound (z + 2 ^ 31) (2 ^ 32)). lia.
Qed.

Lemma u16_small z : 0 <= z < 2 ^ 16 -> u16 z = z.
Proof. intros. unfold u16. by apply Z.mod_small. Qed.

Lemma u32_small z : 0 <= z < 2 ^ 32 -> u32 z = z.
Proof. intros. unfold u32. by apply Z.mod_small. Qed.

Lemma s16_small z : - 2 ^ 15 <= z < 2 ^ 15 -> s16 z = z.
Proof. intros. unfold s16. rewrite Z.mod_small; lia. Qed.

Lemma s32_small z : - 2 ^ 31 <= z < 2 ^ 31 -> s32 z = z.
Proof. intros. unfold s32. rewrite Z.mod_small; lia. Qed.

Lemma u64_small z : 0 <= z < 2 ^ 64 -> u64 z = z.
Proof. intros. unfold u64. by apply Z.mod_small. Qed.

Lemma s64_small z : - 2 ^ 63 <= z < 2 ^ 63 -> s64 z = z.
Proof. intros. unfold s64. rewrite Z.mod_small; lia. Qed.

(** 16-bit addition is a group: what was added can be taken back. *)
Lemma u16_add_sub a b : 0 <= a < 2 ^ 16 -> u16 (u16 (a + b) - b) = a.
Proof.
  intros Ha. unfold u16. rewrite Zminus_mod_idemp_l.
  replace (a + b - b) with a by lia. by apply Z.mod_small.
Qed.

Lemma u16_sub_sub a b c : u16 (u16 (a - b) - c) = u16 (a - b - c).
Proof. unfold u16. by rewrite Zminus_mod_idemp_l. Qed.

Lemma u16_add_l a b : u16 (u16 a + b) = u16 (a + b).
Proof. unfold u16. by rewrite Zplus_mod_idemp_l. Qed.

Lemma u16_sub_l a b : u16 (u16 a - b) = u16 (a - b).
Proof. unfold u16. by rewrite Zminus_mod_idemp_l. Qed.

(** A 32-bit number is one whose bits from 32 on are clear. *)
Lemma bits_range z : (forall n, 32 <= n -> Z.testbit z n = false) -> 0 <= z < 2 ^ 32.
Proof.
  intros Hz. replace z with (z mod 2 ^ 32); [apply Z.mod_pos_bound; lia|].
  apply Z.bits_inj_iff'. intros n Hn. destruct (Z_lt_ge_dec n 32).
  - by rewrite Z.mod_pow2_bits_low by lia.
  - rewrite Z.mod_pow2_bits_high, Hz by lia. done.
Qed.

Lemma range_bits z n : 0 <= z < 2 ^ 32 -> 32 <= n -> Z.testbit z n = false.
Proof.
  intros Hz Hn. rewrite <-(Z.mod_small z (2 ^ 32)) by lia.
  apply Z.mod_pow2_bits_high. lia.
Qed.

Lemma setbit_range w b : 0 <= w < 2 ^ 32 -> 0 <= b < 32 -> 0 <= Z.setbit w b < 2 ^ 32.
Proof.
  intros Hw Hb. apply bits_range. intros n Hn.
  rewrite Z.setbit_neq by lia. by apply range_bits.
Qed.

Lemma clearbit_range w b : 0 <= w < 2 ^ 32 -> 0 <= Z.clearbit w b < 2 ^ 32.
Proof.
  intros Hw. apply bits_range. intros n Hn.
  rewrite Z.clearbit_spec', Z.ldiff_spec, (range_bits w n Hw Hn). done.
Qed.

(** Rounding down to a multiple of a power of two with a mask. *)
Lemma land_not_mask x k :
  0 <= k <= 32 -> 0 <= x < 2 ^ 32 -> Z.land x (not32 (2 ^ k - 1)) = x / 2 ^ k * 2 ^ k.
Proof.
  intros Hk Hx. unfold not32, u32. rewrite <-Z.land_ones by lia.
  rewrite Z.land_assoc, Z.land_ones by lia.
  replace (2 ^ k - 1) with (Z.ones k) by (rewrite Z.ones_equiv; lia). rewrite <-Z.ldiff_land.
  rewrite Z.ldiff_ones_r, Z.shiftl_mul_pow2, Z.shiftr_div_pow2 by lia.
  apply Z.mod_small. assert (0 < 2 ^ k) by (apply Z.pow_pos_nonneg; lia).
  pose proof (Z.mul_div_le x (2 ^ k)). pose proof (Z.div_pos x (2 ^ k)). nia.
Qed.

Create Rewrite HintDb mach.
#[export] Hint Rewrite u16_small u32_small s16_small s32_small
  using lia : mach.

(** ** C arrays: lists indexed by [Z] *)

Section Arrays.
Context {A : Type}.
Implicit Types (l : list A) (i : Z) (a : A).

(** [l[i]]; [None] outside of the array, where C has no meaning. *)
Definition aget l i : option A := if 0 <=? i then l !! Z.to_nat i else None.

(** [l[i] = a], for an [i] inside of the array. *)
Definition aset l i a : list A := <[Z.to_nat i := a]> l.

Definition alen l : Z := Z.of_nat (length l).

(** Apply [f] to element [i]. *)
Definition aupd l i (f : A -> A) : list A := alter f (Z.to_nat i) l.

Lemma alen_nil : alen [] = 0.
Proof. done. Qed.

Lemma alen_cons a l : alen (a :: l) = alen l + 1.
Proof. unfold alen. cbn [length]. lia. Qed.

Lemma alen_app l k : alen (l ++ k) = alen l + alen k.
Proof. unfold alen. rewrite length_app. lia. Qed.

Lemma aget_Some_range l i a : aget l i = Some a -> 0 <= i < alen l.
Proof.
  unfold aget, alen. destruct (Z.leb_spec 0 i); [|done].
  intros Hl%lookup_lt_Some. lia.
Qed.

Lemma aget_is_Some l i : 0 <= i < alen l -> is_Some (aget l i).
Proof.
  unfold aget, alen. intros Hi. destruct (Z.leb_spec 0 i); [|lia].
  apply lookup_lt_is_Some. lia.
Qed.

Lemma aget_None l i : ~ (0 <= i < alen l) -> aget l i = None.
Proof.
  unfold aget, alen. intros Hi. destruct (Z.leb_spec 0 i); [|done].
  apply lookup_ge_None. lia.
Qed.

Lemma alen_aset l i a : alen (aset l i a) = alen l.
Proof. unfold alen, aset. by rewrite length_insert. Qed.

Lemma alen_aupd l i f : alen (aupd l i f) = alen l.
Proof. unfold alen, aupd. by rewrite length_alter. Qed.

Lemma alen_nonneg l : 0 <= alen l.
Proof. unfold alen. lia. Qed.

Lemma aget_aset_eq l i a : 0 <= i < alen l -> aget (aset l i a) i = Some a.
Proof.
  unfold aget, aset, alen. intros Hi. destruct (Z.leb_spec 0 i); [|lia].
  apply list_lookup_insert_eq. lia.
Qed.

Lemma aget_aset_ne l i j a : 0 <= i -> i <> j -> aget (aset l i a) j = aget l j.
Proof.
  unfold aget, aset. intros Hi Hne. destruct (Z.leb_spec 0 j); [|done].
  apply list_lookup_insert_ne. lia.
Qed.

Lemma aget_aset l i j a :
  0 <= i < alen l ->
  aget (aset l i a) j = if decide (i = j) then Some a else aget l j.
Proof.
  intros Hi. case_decide as Hd; subst.
  - by apply aget_aset_eq.
  - apply aget_aset_ne; lia.
Qed.

Lemma aget_aupd_eq l i f : aget (aupd l i f) i = f <$> aget l i.
Proof.
  unfold aget, aupd. destruct (Z.leb_spec 0 i); [|done].
  apply list_lookup_alter_eq.
Qed.

Lemma aget_aupd_ne l i j f : 0 <= i -> i <> j -> aget (aupd l i f) j = aget l j.
Proof.
  unfold aget, aupd. intros Hi Hne. destruct (Z.leb_spec 0 j); [|done].
  apply list_lookup_alter_ne. lia.
Qed.

Lemma aget_aupd l i j f :
  0 <= i ->
  aget (aupd l i f) j = if decide (i = j) then f <$> aget l j else aget l j.
Proof.
  intros Hi. case_decide as Hd; subst.
  - apply aget_aupd_eq.
  - by apply aget_aupd_ne.
Qed.

Lemma aset_id l i a : aget l i = Some a -> aset l i a = l.
Proof.
  unfold aget, aset. destruct (Z.leb_spec 0 i); [|done]. apply list_insert_id.
Qed.

Lemma aset_aset l i a b : aset (aset l i a) i b = aset l i b.
Proof. apply list_insert_insert_eq. Qed.

Lemma aget_ext l k :
  alen l = alen k -> (forall i, 0 <= i < alen l -> aget l i = aget k i) -> l = k.
Proof.
  unfold alen, aget. intros Hlen Hext. apply list_eq. intros i.
  destruct (decide (i < length l)%nat).
  - specialize (Hext (Z.of_nat i) ltac:(lia)).
    destruct (Z.leb_spec 0 (Z.of_nat i)); [|lia]. by rewrite Nat2Z.id in Hext.
  - rewrite !(proj2 (lookup_ge_None _ _)) by lia. done.
Qed.

Lemma aupd_aset l i a f : aget l i = Some a -> aupd l i f = aset l i (f a).
Proof.
  intros Hi. pose proof (aget_Some_range _ _ _ Hi).
  apply aget_ext; [by rewrite alen_aupd, alen_aset|]. intros j _.
  rewrite aget_aupd, aget_aset by lia. case_decide; subst; by rewrite ?Hi.
Qed.

Lemma aset_aupd l i a f : 0 <= i < alen l -> aset (aupd l i f) i a = aset l i a.
Proof.
  intros Hi. apply aget_ext; [by rewrite !alen_aset, alen_aupd|]. intros j _.
  rewrite !aget_aset by (rewrite ?alen_aupd; lia). case_decide; [done|].
  by apply aget_aupd_ne; [lia|].
Qed.
End Arrays.

Create Rewrite HintDb arr.

#[export] Hint Rewrite @alen_aset @alen_aupd : arr.

(** Sums, and arrays under maps and predicates. *)
Fixpoint sumZ (l : list Z) : Z := match l with [] => 0 | x :: l' => x + sumZ l' end.

Lemma sumZ_app l k : sumZ (l ++ k) = sumZ l + sumZ k.
Proof. induction l; cbn in *; lia. Qed.

Lemma sumZ_aset l i x y :
  aget l i = Some x -> sumZ (aset l i y) = sumZ l - x + y.
Proof.
  unfold aget, aset. destruct (Z.leb_spec 0 i); [|done].
  generalize (Z.to_nat i) as n. clear. intros n. revert n.
  induction l as [|a l IH]; intros [|n] Hn; simplify_eq/=; [lia|].
  apply IH in Hn. lia.
Qed.

Lemma fmap_aset {A B} (f : A -> B) l i x : f <$> aset l i x = aset (f <$> l) i (f x).
Proof. apply list_fmap_insert. Qed.

Lemma aget_fmap {A B} (f : A -> B) l i : aget (f <$> l) i = f <$> aget l i.
Proof. unfold aget. destruct (0 <=? i); [apply list_lookup_fmap|done]. Qed.

Lemma Forall_aset {A} (P : A -> Prop) l i x : Forall P l -> P x -> Forall P (aset l i x).
Proof. intros. by apply Forall_insert. Qed.

Lemma Forall_aget {A} (P : A -> Prop) l i x : Forall P l -> aget l i = Some x -> P x.
Proof. unfold aget. destruct (0 <=? i); [|done]. apply Forall_lookup_1. Qed.

Lemma sumZ_nonneg l : Forall (fun x => 0 <= x) l -> 0 <= sumZ l.
Proof. induction 1; cbn; lia. Qed.

Lemma sumZ_replicate n x : sumZ (replicate n x) = Z.of_nat n * x.
Proof. induction n as [|n IH]; cbn [replicate sumZ]; lia. Qed.

(** One summand is at most the sum. *)
Lemma sumZ_le l i x : Forall (fun x => 0 <= x) l -> aget l i = Some x -> x <= sumZ l.
Proof.
  unfold aget. destruct (0 <=? i); [|done]. intros Hl. revert i.
  assert (H : forall n, l !! n = Some x -> x <= sumZ l); [|by intros i; apply H].
  induction Hl as [|y l Hy Hl IH]; intros [|n] Hn; simplify_eq/=.
  - pose proof (sumZ_nonneg l Hl). lia.
  - specialize (IH n Hn). lia.
Qed.

Lemma aget_replicate {A} n (x y : A) i : aget (replicate n x) i = Some y -> y = x.
Proof. unfold aget. destruct (0 <=? i); [|done]. by intros [-> _]%lookup_replicate. Qed.

Lemma alen_replicate {A} n (x : A) : 0 <= n -> alen (replicate (Z.to_nat n) x) = n.
Proof. intros. unfold alen. rewrite length_replicate. lia. Qed.

(** [for (i = lo; i < lo + n; i++)] over the indices, in order. *)
Definition zrange (lo : Z) (n : nat) : list Z := (fun k => lo + Z.of_nat k) <$> seq 0 n.

Lemma elem_of_zrange lo n i : i ∈ zrange lo n <-> lo <= i < lo + Z.of_nat n.
Proof.
  unfold zrange. rewrite list_elem_of_fmap. split.
  - intros (k & -> & Hk%elem_of_seq). lia.
  - intros Hi. exists (Z.to_nat (i - lo)). rewrite elem_of_seq. lia.
Qed.

Lemma zrange_S lo n : zrange lo (S n) = lo :: zrange (lo + 1) n.
Proof.
  unfold zrange. cbn [seq]. rewrite fmap_cons. f_equal; [lia|].
  rewrite <-fmap_S_seq, <-list_fmap_compose. apply list_fmap_ext. intros; cbn; lia.
Qed.

Lemma length_zrange lo n : length (zrange lo n) = n.
Proof. unfold zrange. by rewrite length_fmap, length_seq. Qed.

Lemma aget_zrange n i : 0 <= i < Z.of_nat n -> aget (zrange 0 n) i = Some i.
Proof.
  intros Hi. unfold aget, zrange. destruct (Z.leb_spec 0 i); [|lia].
  rewrite list_lookup_fmap, lookup_seq_lt by lia.
  cbn. f_equal. lia.
Qed.

(** A sum over the indices after a change of one summand. *)
Lemma sumZ_update (f f' : Z -> Z) n i :
  0 <= i < Z.of_nat n -> (forall j, 0 <= j < Z.of_nat n -> j <> i -> f' j = f j) ->
  sumZ (f' <$> zrange 0 n) = sumZ (f <$> zrange 0 n) - f i + f' i.
Proof.
  intros Hi Hf. rewrite <-(sumZ_aset _ i (f i) (f' i)).
  - f_equal. apply aget_ext.
    + unfold alen, aset. by rewrite length_insert, !length_fmap.
    + intros j Hj. unfold alen in Hj. rewrite length_fmap, length_zrange in Hj.
      rewrite aget_aset by (unfold alen; rewrite length_fmap, length_zrange; lia).
      rewrite !aget_fmap, aget_zrange by lia. cbn. case_decide; [by subst|].
      rewrite Hf by (lia || congruence). done.
  - by rewrite aget_fmap, aget_zrange by lia.
Qed.

(** Counting the elements that satisfy [p]. *)
Lemma count_bounds {A} (p : A -> bool) l :
  0 <= sumZ ((fun x => Z.b2z (p x)) <$> l) <= alen l.
Proof.
  unfold alen. induction l as [|x l IH]; cbn [fmap list_fmap sumZ length]; [lia|].
  destruct (p x); cbn [Z.b2z]; lia.
Qed.

Lemma count_full {A} (p : A -> bool) l :
  sumZ ((fun x => Z.b2z (p x)) <$> l) = alen l <-> forall x, x ∈ l -> p x = true.
Proof.
  unfold alen. induction l as [|x l IH]; cbn [fmap list_fmap sumZ length].
  - split; [|done]. intros _ x Hx. by apply elem_of_nil in Hx.
  - pose proof (count_bounds p l) as Hb. unfold alen in Hb. split.
    + intros Hs y [->|Hy]%elem_of_cons; destruct (p x) eqn:Hx; cbn [Z.b2z] in Hs; try done; try lia.
      apply IH; [lia|done].
    + intros Hall. rewrite (Hall x) by left. cbn [Z.b2z].
      rewrite (proj2 IH); [lia|]. intros y Hy. apply Hall. by right.
Qed.

(** First index of [lo .. lo+n-1] satisfying [p]: the [for (...) if (p) break]
    idiom. *)
Fixpoint find_first (p : Z -> bool) (lo : Z) (n : nat) : option Z :=
  match n with
  | O => None
  | S n' => if p lo then Some lo else find_first p (lo + 1) n'
  end.

Lemma find_first_Some p lo n i :
  find_first p lo n = Some i ->
  lo <= i < lo + Z.of_nat n /\ p i = true /\ forall j, lo <= j < i -> p j = false.
Proof.
  revert lo. induction n as [|n IH]; intros lo; simpl; [done|].
  destruct (p lo) eqn:Hp.
  - intros [= <-]. split_and!; [lia|lia|done|]. intros; lia.
  - intros (H1 & H2 & H3)%IH. split_and!; [lia|lia|done|].
    intros j Hj. destruct (decide (j = lo)) as [->|]; [done|]. apply H3. lia.
Qed.

Lemma find_first_None p lo n :
  find_first p lo n = None -> forall j, lo <= j < lo + Z.of_nat n -> p j = false.
Proof.
  revert lo. induction n as [|n IH]; intros lo; simpl; [intros; lia|].
  destruct (p lo) eqn:Hp; [done|].
  intros H j Hj. destruct (decide (j = lo)) as [->|]; [done|]. apply (IH _ H). lia.
Qed.

(** ** The monad of the C functions

    A function that reads and writes a state of type [S] returns normally
    ([Done]), leaves through the error exit of the C function ([Err e], the
    [error = e; goto done] idiom) or goes wrong ([Fault]): [Ub] is an access
    outside of an object, [Panic] a call of [__libc_Back_panic] or a failed
    [LIBC_ASSERTM_FAILED], [Hang] a loop that uses up the fuel of its
    definition. *)
Inductive fault := Ub | Panic | Hang.

Inductive outcome (S A : Type) : Type :=
  | Done (a : A) (s : S)
  | Err (e : Z) (s : S)
  | Fault (f : fault).
Arguments Done {S A} a s.
Arguments Err {S A} e s.
Arguments Fault {S A} f.

Definition M (S A : Type) : Type := S -> outcome S A.

#[export] Instance M_ret S : MRet (M S) := fun A a s => Done a s.
#[export] Instance M_bind S : MBind (M S) := fun A B f m s =>
  match m s with
  | Done a s' => f a s'
  | Err e s' => Err e s'
  | Fault x => Fault x
  end.

Definition mget {S} : M S S := fun s => Done s s.
Definition mput {S} (s' : S) : M S unit := fun _ => Done () s'.
Definition mmod {S} (f : S -> S) : M S unit := fun s => Done () (f s).
Definition gets {S A} (f : S -> A) : M S A := fun s => Done (f s) s.
Definition mfail {S A} (x : fault) : M S A := fun _ => Fault x.
(** [error = e; goto done;] *)
Definition merr {S A} (e : Z) : M S A := fun s => Err e s.
(** [if (b) { error = e; goto done; }] *)
Definition err_if {S} (b : bool) (e : Z) : M S unit := if b then merr e else mret ().
Definition mwhen {S} (b : bool) (m : M S unit) : M S unit := if b then m else mret ().
(** Access of an object that must exist. *)
Definition deref {S A} (o : option A) : M S A :=
  match o with Some a => mret a | None => mfail Ub end.
(** The code at the [done:] label: it runs on the normal and the error exit. *)
Definition finally {S A} (m : M S A) (c : S -> outcome S unit) : M S A := fun s =>
  match m s with
  | Done a s' =>
      match c s' with Done _ s2 => Done a s2 | Err e s2 => Err e s2 | Fault x => Fault x end
  | Err e s' =>
      match c s' with Done _ s2 => Err e s2 | Err e2 s2 => Err e2 s2 | Fault x => Fault x end
  | Fault x => Fault x
  end.
(** [for (x in l) f(x);] *)
Fixpoint mfor {S A} (l : list A) (f : A -> M S unit) : M S unit :=
  match l with
  | [] => mret ()
  | x :: l' => _ ← f x; mfor l' f
  end.

(** A step of a computation whose first part is known to return. *)
Lemma run_bind {S A B} (m : M S A) (k : A -> M S B) s a s' :
  m s = Done a s' -> (m ≫= k) s = k a s'.
Proof. unfold mbind, M_bind. by intros ->. Qed.

(** ** Weakest preconditions *)

Section WP.
Context {S : Type}.

(** [m], started in [s], does not fault, returns normally in a state of [Q]
    or leaves with an error in a state of [E]. *)
Definition wp {A} (m : M S A) (Q : A -> S -> Prop) (E : Z -> S -> Prop) (s : S) : Prop :=
  match m s with
  | Done a s' => Q a s'
  | Err e s' => E e s'
  | Fault _ => False
  end.

Lemma wp_ret {A} (a : A) Q E s : Q a s -> wp (mret a) Q E s.
Proof. done. Qed.

Lemma wp_bind {A B} (m : M S A) (k : A -> M S B) Q E s :
  wp m (fun a s' => wp (k a) Q E s') E s -> wp (m ≫= k) Q E s.
Proof. unfold wp, mbind, M_bind. by destruct (m s). Qed.

Lemma wp_run_bind {A B} (m : M S A) (k : A -> M S B) Q E s a s' :
  m s = Done a s' -> wp (k a) Q E s' -> wp (m ≫= k) Q E s.
Proof. unfold wp. intros Hm. by rewrite (run_bind _ _ _ _ _ Hm). Qed.

Lemma wp_bind_inv {A B} (m : M S A) (k : A -> M S B) Q E s :
  wp (m ≫= k) Q E s -> wp m (fun a s' => wp (k a) Q E s') E s.
Proof. unfold wp, mbind, M_bind. by destruct (m s). Qed.

Lemma wp_conseq {A} (m : M S A) (Q Q' : A -> S -> Prop) (E E' : Z -> S -> Prop) s :
  wp m Q E s -> (forall a s', Q a s' -> Q' a s') -> (forall e s', E e s' -> E' e s') ->
  wp m Q' E' s.
Proof. unfold wp. destruct (m s); eauto. Qed.

Lemma wp_get (Q : S -> S -> Prop) E s : Q s s -> wp mget Q E s.
Proof. done. Qed.

Lemma wp_put s' (Q : unit -> S -> Prop) E s : Q () s' -> wp (mput s') Q E s.
Proof. done. Qed.

Lemma wp_mod f (Q : unit -> S -> Prop) E s : Q () (f s) -> wp (mmod f) Q E s.
Proof. done. Qed.

Lemma wp_gets {A} (f : S -> A) Q E s : Q (f s) s -> wp (gets f) Q E s.
Proof. done. Qed.

Lemma wp_err {A} e (Q : A -> S -> Prop) (E : Z -> S -> Prop) s : E e s -> wp (merr e) Q E s.
Proof. done. Qed.

Lemma wp_err_if b e (Q : unit -> S -> Prop) (E : Z -> S -> Prop) s :
  (b = true -> E e s) -> (b = false -> Q () s) -> wp (err_if b e) Q E s.
Proof. destruct b; cbn; eauto. Qed.

Lemma wp_when b m (Q : unit -> S -> Prop) E s :
  (b = true -> wp m Q E s) -> (b = false -> Q () s) -> wp (mwhen b m) Q E s.
Proof. destruct b; cbn; eauto. Qed.

Lemma wp_deref {A} (o : option A) Q E s :
  is_Some o -> (forall a, o = Some a -> Q a s) -> wp (deref o) Q E s.
Proof. intros [a ->]. cbn. eauto. Qed.

Lemma wp_finally {A} (m : M S A) c Q E s :
  wp m (fun a s' => wp c (fun _ s2 => Q a s2) E s')
       (fun e s' => wp c (fun _ s2 => E e s2) E s') s ->
  wp (finally m c) Q E s.
Proof. unfold wp, finally. destruct (m s) as [a s'|e s'|f]; try done; by destruct (c s'). Qed.

(** Loops keep an invariant. *)
Lemma wp_for {A} (l : list A) f (I : S -> Prop) (E : Z -> S -> Prop) s :
  I s -> (forall x s', x ∈ l -> I s' -> wp (f x) (fun _ => I) E s') ->
  wp (mfor l f) (fun _ => I) E s.
Proof.
  revert s. induction l as [|x l IH]; intros s HI Hf; simpl; [done|].
  apply wp_bind. eapply wp_conseq; [apply Hf; [left|done]| |done].
  intros u s' HI'. apply IH; [exact HI'|]. intros y s2 Hy HI2. apply Hf; [by right|exact HI2].
Qed.
End WP.

Create HintDb wp.
#[export] Hint Resolve wp_ret wp_get wp_put wp_mod wp_gets wp_err : wp.

(** One step of the calculus on a goal [wp m Q E s]. *)
Ltac wp_step :=
  lazymatch goal with
  | |- wp (mbind _ _) _ _ _ => apply wp_bind
  | |- wp (mret _) _ _ _ => apply wp_ret
  | |- wp mget _ _ _ => apply wp_get
  | |- wp (mput _) _ _ _ => apply wp_put
  | |- wp (mmod _) _ _ _ => apply wp_mod
  | |- wp (gets _) _ _ _ => apply wp_gets
  | |- wp (merr _) _ _ _ => apply wp_err
  | |- wp (err_if _ _) _ _ _ => apply wp_err_if; intros ?
  | |- wp (mwhen _ _) _ _ _ => apply wp_when; intros ?
  | |- wp (deref _) _ _ _ => apply wp_deref; [|intros ? ?]
  | |- wp (finally _ _) _ _ _ => apply wp_finally
  | |- wp (if ?b then _ else _) _ _ _ => destruct b eqn:?
  | |- wp (match ?o with Some _ => _ | None => _ end) _ _ _ => destruct o eqn:?
  | |- wp (let '(_, _) := ?p in _) _ _ _ => destruct p eqn:?
  end.

Ltac wp_steps := repeat (wp_step; cbn beta).

(** From boolean tests to propositions. *)
Ltac breflect :=
  repeat match goal with
  | H : (_ =? _) = true |- _ => apply Z.eqb_eq in H
  | H : (_ =? _) = false |- _ => apply Z.eqb_neq in H
  | H : (_ <? _) = true |- _ => apply Z.ltb_lt in H
  | H : (_ <? _) = false |- _ => apply Z.ltb_ge in H
  | H : (_ <=? _) = true |- _ => apply Z.leb_le in H
  | H : (_ <=? _) = false |- _ => apply Z.leb_gt in H
  | H : (_ >? _) = true |- _ => rewrite Z.gtb_ltb in H; apply Z.ltb_lt in H
  | H : (_ >? _) = false |- _ => rewrite Z.gtb_ltb in H; apply Z.ltb_ge in H
  | H : (_ >=? _) = true |- _ => rewrite Z.geb_leb in H; apply Z.leb_le in H
  | H : (_ >=? _) = false |- _ => rewrite Z.geb_leb in H; apply Z.leb_gt in H
  | H : negb _ = true |- _ => apply negb_true_iff in H
  | H : negb _ = false |- _ => apply negb_false_iff in H
  | H : (_ && _)%bool = true |- _ => apply andb_true_iff in H; destruct H
  | H : (_ || _)%bool = false |- _ => apply orb_false_iff in H; destruct H
  | H : bool_decide _ = true |- _ => apply bool_decide_eq_true in H
  | H : bool_decide _ = false |- _ => apply bool_decide_eq_false in H
  end.

(** Decide the integer tests of the goal that [lia] can decide. *)
Ltac zbool :=
  rewrite ?Z.gtb_ltb, ?Z.geb_leb;
  repeat match goal with
  | |- context [?a =? ?b] =>
      first [rewrite (proj2 (Z.eqb_eq a b)) by lia | rewrite (proj2 (Z.eqb_neq a b)) by lia]
  | |- context [?a <? ?b] =>
      first [rewrite (proj2 (Z.ltb_lt a b)) by lia | rewrite (proj2 (Z.ltb_ge a b)) by lia]
  | |- context [?a <=? ?b] =>
      first [rewrite (proj2 (Z.leb_le a b)) by lia | rewrite (proj2 (Z.leb_gt a b)) by lia]
  end;
  cbn [negb andb orb].

(** ** Errno values of sys/errno.h *)
Definition EPERM : Z := 1.
Definition ENOENT : Z := 2.
Definition EINTR : Z := 4.
Definition E2BIG : Z := 7.
Definition EDEADLK : Z := 11.
Definition ENOMEM : Z := 12.
Definition EEXIST : Z := 17.
Definition EINVAL : Z := 22.
Definition EMFILE : Z := 24.
Definition EFBIG : Z := 27.
Definition ENOSPC : Z := 28.
Definition ERANGE : Z := 34.
Definition EAGAIN : Z := 35.
Definition EOPNOTSUPP : Z := 45.
Definition EIDRM : Z := 82.
