(* ===== verification/Creds.v ===== *)
(** Process credentials of the shared process manager
    ([src/src/emx/src/lib/sys/sharedpm.c]): the ids of [gpSPMSelf], the
    functions that change them, and the System V IPC permission check that the
    semaphore and shared memory back-ends call. *)

From S2P Require Import Prelude.

(** Return value of a function that takes the SPM mutex first: [rc] is what
    [spmRequestMutex] returned (0, or a negative errno). *)

(** The credential fields of [struct __libc_SPMProcess]. *)
Record SPMPROCESS := mk_SPMPROCESS {
  pid : Z; pidParent : Z; sid : Z; pgrp : Z;
  uid : Z; euid : Z; svuid : Z;
  gid : Z; egid : Z; svgid : Z;
  agidGroups : list Z
}.

(** [struct ipc_perm] of sys/ipc.h. *)
Record ipc_perm := mk_ipc_perm {
  perm_cuid : Z; perm_cgid : Z; perm_uid : Z; perm_gid : Z;
  perm_mode : Z; perm_seq : Z; perm_key : Z
}.

(** Mode bits and commands of sys/ipc.h. *)
Definition IPC_R : Z := 0x100.
Definition IPC_W : Z := 0x80.
Definition IPC_M : Z := 0x1000.
Definition IPC_CREAT : Z := 0x200.
Definition IPC_EXCL : Z := 0x400.
Definition IPC_NOWAIT : Z := 0x800.
Definition IPC_PRIVATE : Z := 0.
Definition IPC_RMID : Z := 0.
Definition IPC_SET : Z := 1.
Definition IPC_STAT : Z := 2.
Definition IPC_INFO : Z := 3.

(** Conversions between ipc ids, array indices and sequence numbers. *)
Definition IPCID_TO_IX (id : Z) : Z := Z.land id 0xffff.
Definition IPCID_TO_SEQ (id : Z) : Z := Z.land (Z.shiftr id 16) 0xffff.
Definition IXSEQ_TO_IPCID (ix : Z) (perm : ipc_perm) : Z :=
  Z.lor (Z.shiftl (perm_seq perm) 16) (Z.land ix 0xffff).

(** [(uid_t)-1] *)
Definition ID_NONE : Z := 0xffffffff.

Definition set_uids (u e s : Z) (p : SPMPROCESS) : SPMPROCESS :=
  mk_SPMPROCESS (pid p) (pidParent p) (sid p) (pgrp p) u e s
    (gid p) (egid p) (svgid p) (agidGroups p).
Definition set_gids (g e s : Z) (p : SPMPROCESS) : SPMPROCESS :=
  mk_SPMPROCESS (pid p) (pidParent p) (sid p) (pgrp p) (uid p) (euid p) (svuid p)
    g e s (agidGroups p).

Definition spmIsSuperUser (self : SPMPROCESS) : Z :=
  if euid self =? 0 then 0 else - EPERM.

Definition spmCanModify (self target : SPMPROCESS) : Z :=
  if euid self =? 0 then 0
  else if (euid target =? euid self) || (euid target =? uid self) then 0
  else - EPERM.

Definition spmIsGroupMember (self : SPMPROCESS) (g : Z) : Z :=
  if egid self =? g then 0
  else if existsb (fun x => x =? g) (agidGroups self) then 0
  else - EPERM.

Definition spmCanIPC (self : SPMPROCESS) (pPerm : ipc_perm) (Mode : Z) : Z :=
  let check (Mode : Z) :=
    if negb (Z.land Mode (perm_mode pPerm) =? Mode) then spmIsSuperUser self else 0 in
  if negb (euid self =? perm_cuid pPerm) && negb (euid self =? perm_uid pPerm) then
    if has_bits Mode IPC_M then spmIsSuperUser self
    else
      let Mode := Z.shiftr Mode 3 in
      if negb (spmIsGroupMember self (perm_gid pPerm) =? 0)
         && negb (spmIsGroupMember self (perm_cgid pPerm) =? 0)
      then check (Z.shiftr Mode 3)
      else check Mode
  else if has_bits Mode IPC_M then 0
  else check Mode.

Inductive SPMID :=
  | SPMID_PID | SPMID_PPID | SPMID_SID | SPMID_PGRP | SPMID_UID | SPMID_EUID
  | SPMID_SVUID | SPMID_GID | SPMID_EGID | SPMID_SVGID.

Definition spmGetId (rc : Z) (self : SPMPROCESS) (enmId : SPMID) : Z :=
  if negb (rc =? 0) then -1
  else match enmId with
  | SPMID_PID => pid self
  | SPMID_PPID => pidParent self
  | SPMID_SID => sid self
  | SPMID_PGRP => pgrp self
  | SPMID_UID => uid self
  | SPMID_EUID => euid self
  | SPMID_SVUID => svuid self
  | SPMID_GID => gid self
  | SPMID_EGID => egid self
  | SPMID_SVGID => svgid self
  end.

Definition spmSetUid (rc : Z) (u : Z) (self : SPMPROCESS) : Z * SPMPROCESS :=
  if negb (rc =? 0) then (rc, self)
  else if euid self =? 0 then (0, set_uids u u u self)
  else if (u =? uid self) || (u =? svuid self)
  then (0, set_uids (uid self) u (svuid self) self)
  else (- EPERM, self).

Definition spmSetUidAll (rc : Z) (ruid euid' svuid' : Z) (self : SPMPROCESS) : Z * SPMPROCESS :=
  let may (x : Z) := (x =? ID_NONE) || (x =? uid self) || (x =? euid self) || (x =? svuid self) in
  if negb (rc =? 0) then (rc, self)
  else if (euid self =? 0) || (may ruid && may euid' && may svuid')
  then (0, set_uids (if ruid =? ID_NONE then uid self else ruid)
                    (if euid' =? ID_NONE then euid self else euid')
                    (if svuid' =? ID_NONE then svuid self else svuid') self)
  else (- EPERM, self).

Definition spmSetGid (rc : Z) (g : Z) (self : SPMPROCESS) : Z * SPMPROCESS :=
  if negb (rc =? 0) then (rc, self)
  else if euid self =? 0 then (0, set_gids g g g self)
  else if (g =? gid self) || (g =? svgid self)
  then (0, set_gids (gid self) g (svgid self) self)
  else (- EPERM, self).

Definition spmSetGidAll (rc : Z) (rgid egid' svgid' : Z) (self : SPMPROCESS) : Z * SPMPROCESS :=
  let may (x : Z) := (x =? ID_NONE) || (x =? gid self) || (x =? egid self) || (x =? svgid self) in
  if negb (rc =? 0) then (rc, self)
  else if (euid self =? 0) || (may rgid && may egid' && may svgid')
  then (0, set_gids (if rgid =? ID_NONE then gid self else rgid)
                    (if egid' =? ID_NONE then egid self else egid')
                    (if svgid' =? ID_NONE then svgid self else svgid') self)
  else (- EPERM, self).

(** ** Credential histories *)

(** One call of a credential-changing function, whatever it returns. *)
Inductive cred_call :=
  | CSetUid (u : Z) | CSetUidAll (r e s : Z) | CSetGid (g : Z) | CSetGidAll (r e s : Z).

Definition cred_step (rc : Z) (c : cred_call) (p : SPMPROCESS) : SPMPROCESS :=
  match c with
  | CSetUid u => snd (spmSetUid rc u p)
  | CSetUidAll r e s => snd (spmSetUidAll rc r e s p)
  | CSetGid g => snd (spmSetGid rc g p)
  | CSetGidAll r e s => snd (spmSetGidAll rc r e s p)
  end.

Inductive cred_reach (p : SPMPROCESS) : SPMPROCESS -> Prop :=
  | cred_refl : cred_reach p p
  | cred_next q rc c : cred_reach p q -> cred_reach p (cred_step rc c q).

(** The user ids a process can act as. *)
Definition uid_set (p : SPMPROCESS) : list Z := [uid p; euid p; svuid p].
Definition gid_set (p : SPMPROCESS) : list Z := [gid p; egid p; svgid p].

(** ** Proofs *)

(** [x] is one of the three ids of [l], or the "leave alone" value. *)
Lemma may_elem (x a b c : Z) :
  (x =? ID_NONE) || (x =? a) || (x =? b) || (x =? c) = true ->
  (if x =? ID_NONE then a else x) ∈ [a; b; c] /\
  (if x =? ID_NONE then b else x) ∈ [a; b; c] /\
  (if x =? ID_NONE then c else x) ∈ [a; b; c].
Proof.
  destruct (x =? ID_NONE); cbn; [set_solver|]. intros H.
  assert (x = a \/ x = b \/ x = c) as [->|[->| ->]] by lia; set_solver.
Qed.

Lemma three_subset (x y z : Z) (l : list Z) :
  x ∈ l -> y ∈ l -> z ∈ l -> [x; y; z] ⊆ l.
Proof. set_solver. Qed.

Lemma spmSetUid_set rc u p :
  euid p <> 0 -> uid_set (snd (spmSetUid rc u p)) ⊆ uid_set p.
Proof.
  intros He%Z.eqb_neq. unfold spmSetUid, uid_set. rewrite He.
  destruct (rc =? 0); cbn; [|done].
  destruct (Z.eqb_spec u (uid p)) as [->|]; cbn; [set_solver|].
  destruct (Z.eqb_spec u (svuid p)) as [->|]; cbn; set_solver.
Qed.

Lemma spmSetGid_set rc g p :
  euid p <> 0 -> gid_set (snd (spmSetGid rc g p)) ⊆ gid_set p.
Proof.
  intros He%Z.eqb_neq. unfold spmSetGid, gid_set. rewrite He.
  destruct (rc =? 0); cbn; [|done].
  destruct (Z.eqb_spec g (gid p)) as [->|]; cbn; [set_solver|].
  destruct (Z.eqb_spec g (svgid p)) as [->|]; cbn; set_solver.
Qed.

Lemma spmSetUidAll_set rc r e v p :
  euid p <> 0 -> uid_set (snd (spmSetUidAll rc r e v p)) ⊆ uid_set p.
Proof.
  intros He%Z.eqb_neq. unfold spmSetUidAll. rewrite He.
  destruct (rc =? 0); cbn [negb orb snd]; [|done].
  destruct (_ && _ && _)%bool eqn:Hm; [|done].
  apply andb_true_iff in Hm as [[Hr Hee]%andb_true_iff Hs].
  apply may_elem in Hr as (?&_&_), Hee as (_&?&_), Hs as (_&_&?).
  by apply three_subset.
Qed.

Lemma spmSetGidAll_set rc r e v p :
  euid p <> 0 -> gid_set (snd (spmSetGidAll rc r e v p)) ⊆ gid_set p.
Proof.
  intros He%Z.eqb_neq. unfold spmSetGidAll. rewrite He.
  destruct (rc =? 0); cbn [negb orb snd]; [|done].
  destruct (_ && _ && _)%bool eqn:Hm; [|done].
  apply andb_true_iff in Hm as [[Hr Hee]%andb_true_iff Hs].
  apply may_elem in Hr as (?&_&_), Hee as (_&?&_), Hs as (_&_&?).
  by apply three_subset.
Qed.

(** The user-id calls leave the group ids alone, and the other way round. *)
Lemma uid_calls_gid_set rc u r e v p :
  gid_set (snd (spmSetUid rc u p)) = gid_set p /\
  gid_set (snd (spmSetUidAll rc r e v p)) = gid_set p.
Proof. unfold spmSetUid, spmSetUidAll. split; repeat case_match; done. Qed.

Lemma gid_calls_uid_set rc g r e v p :
  uid_set (snd (spmSetGid rc g p)) = uid_set p /\
  uid_set (snd (spmSetGidAll rc r e v p)) = uid_set p.
Proof. unfold spmSetGid, spmSetGidAll. split; repeat case_match; done. Qed.

Lemma cred_step_sets rc c p :
  euid p <> 0 ->
  uid_set (cred_step rc c p) ⊆ uid_set p /\ gid_set (cred_step rc c p) ⊆ gid_set p.
Proof.
  intros He. destruct c as [u|r e s|g|r e s]; cbn.
  - split; [by apply spmSetUid_set|]. by rewrite (proj1 (uid_calls_gid_set rc u 0 0 0 p)).
  - split; [by apply spmSetUidAll_set|]. by rewrite (proj2 (uid_calls_gid_set rc 0 r e s p)).
  - split; [|by apply spmSetGid_set]. by rewrite (proj1 (gid_calls_uid_set rc g 0 0 0 p)).
  - split; [|by apply spmSetGidAll_set]. by rewrite (proj2 (gid_calls_uid_set rc 0 r e s p)).
Qed.

Lemma cred_reach_sets p q :
  0 ∉ uid_set p -> cred_reach p q -> uid_set q ⊆ uid_set p /\ gid_set q ⊆ gid_set p.
Proof.
  intros H0. induction 1 as [|q rc c Hq [IHu IHg]]; [done|].
  assert (euid q <> 0).
  { intros He. apply H0, IHu. rewrite <-He. unfold uid_set. set_solver. }
  destruct (cred_step_sets rc c q) as [Hu Hg]; [done|].
  split; [by rewrite Hu|by rewrite Hg].
Qed.

(** C17: a process none of whose three user ids is root can never act as root,
    nor as any user or group it did not start with, whatever sequence of
    setuid/setresuid/setgid/setresgid calls it makes. *)
Theorem no_privilege_escalation (p q : SPMPROCESS) :
  0 ∉ uid_set p -> cred_reach p q ->
  euid q <> 0 /\ uid_set q ⊆ uid_set p /\ gid_set q ⊆ gid_set p.
Proof.
  intros H0 Hr. destruct (cred_reach_sets p q H0 Hr) as [Hu Hg].
  split_and!; [|done|done].
  intros He. apply H0, Hu. rewrite <-He. unfold uid_set. set_solver.
Qed.

Lemma no_privilege_escalation_witness :
  let p := mk_SPMPROCESS 7 1 7 7 100 100 101 50 50 50 [] in
  let q := cred_step 0 (CSetUid 0) (cred_step 0 (CSetUid 101) p) in
  euid q <> 0 /\ uid_set q ⊆ uid_set p /\ gid_set q ⊆ gid_set p.
Proof.
  intros p q. apply no_privilege_escalation.
  - vm_compute. set_solver.
  - apply cred_next, cred_next, cred_refl.
Defined.

(** *** The permission check *)

(** How far the access mode is shifted: owner, group or other. *)
Definition ipc_class (self : SPMPROCESS) (perm : ipc_perm) : Z :=
  if (euid self =? perm_cuid perm) || (euid self =? perm_uid perm) then 0
  else if (spmIsGroupMember self (perm_gid perm) =? 0)
          || (spmIsGroupMember self (perm_cgid perm) =? 0) then 3
  else 6.

Lemma land_subset_bits x m :
  Z.land x m = x <-> forall k, 0 <= k -> Z.testbit x k = true -> Z.testbit m k = true.
Proof.
  split.
  - intros Hx k Hk Ht. rewrite <-Hx, Z.land_spec in Ht. by apply andb_true_iff in Ht as [??].
  - intros H. apply Z.bits_inj'. intros k Hk. rewrite Z.land_spec.
    destruct (Z.testbit x k) eqn:Ht; [|done]. by rewrite (H k).
Qed.

Lemma spmIsSuperUser_0 self : spmIsSuperUser self = 0 <-> euid self = 0.
Proof. unfold spmIsSuperUser, EPERM. destruct (Z.eqb_spec (euid self) 0); split; lia. Qed.

Lemma spmCanIPC_unfold self perm Mode :
  spmCanIPC self perm Mode =
  if has_bits Mode IPC_M
  then if ipc_class self perm =? 0 then 0 else spmIsSuperUser self
  else if Z.land (Z.shiftr Mode (ipc_class self perm)) (perm_mode perm)
          =? Z.shiftr Mode (ipc_class self perm)
       then 0 else spmIsSuperUser self.
Proof.
  unfold spmCanIPC, ipc_class.
  destruct (euid self =? perm_cuid perm); cbn [orb andb negb];
    [|destruct (euid self =? perm_uid perm); cbn [orb andb negb]].
  1,2: rewrite Z.shiftr_0_r; destruct (has_bits Mode IPC_M); [done|];
       by destruct (Z.land _ _ =? _).
  destruct (spmIsGroupMember self (perm_gid perm) =? 0); cbn [orb andb negb];
    [|destruct (spmIsGroupMember self (perm_cgid perm) =? 0); cbn [orb andb negb]].
  all: rewrite ?Z.shiftr_shiftr by lia; destruct (has_bits Mode IPC_M); [done|];
       by destruct (Z.land _ _ =? _).
Qed.

(** the System V access check is the Unix one. A request that asks for
    control (IPC_M) is granted exactly to the owner, the creator and root; any
    other request is granted exactly to root and to callers for whom every
    requested bit is set in the object's mode, in the owner, group or other
    position according to the caller's class; and a refusal is always EPERM. *)
Theorem spmCanIPC_spec (self : SPMPROCESS) (perm : ipc_perm) (Mode : Z) :
  (spmCanIPC self perm Mode = 0 <->
     euid self = 0 \/
     if has_bits Mode IPC_M then ipc_class self perm = 0
     else forall k, ipc_class self perm <= k -> Z.testbit Mode k = true ->
                    Z.testbit (perm_mode perm) (k - ipc_class self perm) = true) /\
  (spmCanIPC self perm Mode <> 0 -> spmCanIPC self perm Mode = - EPERM).
Proof.
  rewrite spmCanIPC_unfold. set (c := ipc_class self perm).
  assert (Hc : 0 <= c) by (unfold c, ipc_class; repeat case_match; lia).
  split.
  - destruct (has_bits Mode IPC_M).
    + destruct (Z.eqb_spec c 0); rewrite ?spmIsSuperUser_0; intuition lia.
    + set (t := Z.land _ _ =? _).
      assert (t = true <-> forall k, c <= k -> Z.testbit Mode k = true ->
                Z.testbit (perm_mode perm) (k - c) = true) as Ht.
      { unfold t. rewrite Z.eqb_eq, land_subset_bits. split.
        - intros H k Hk Hb. apply H; [lia|]. rewrite Z.shiftr_spec by lia.
          by replace (k - c + c) with k by lia.
        - intros H k Hk. rewrite Z.shiftr_spec by lia. intros Hb.
          replace k with (k + c - c) by lia. apply H; [lia|done]. }
      rewrite <-Ht. destruct t; rewrite ?spmIsSuperUser_0; intuition congruence.
  - unfold spmIsSuperUser. repeat case_match; done.
Qed.

(** The credentials [spmRegisterSelf] gives a process it did not know: the
    block is zero-filled by the pool allocator and only the process ids are
    assigned. *)
Definition spm_new_process (pid' pidParent' sid' : Z) : SPMPROCESS :=
  mk_SPMPROCESS pid' pidParent' sid' pid' 0 0 0 0 0 0 (replicate 16 0).

Lemma cred_step_groups rc c p : agidGroups (cred_step rc c p) = agidGroups p.
Proof.
  destruct c; cbn; unfold spmSetUid, spmSetUidAll, spmSetGid, spmSetGidAll;
    repeat case_match; done.
Qed.

(** a process that starts from a fresh block counts as a member of group 0
    for ever: no sequence of setuid/setgid calls, dropping every id included,
    takes that membership away. *)
Theorem group_0_membership_is_permanent (pid' ppid' sid' : Z) (q : SPMPROCESS) :
  cred_reach (spm_new_process pid' ppid' sid') q -> spmIsGroupMember q 0 = 0.
Proof.
  intros Hr. assert (agidGroups q = replicate 16 0) as Hg.
  { induction Hr as [|q rc c _ IH]; [done|]. by rewrite cred_step_groups. }
  unfold spmIsGroupMember. rewrite Hg. by destruct (egid q =? 0).
Qed.

Lemma group_0_membership_is_permanent_witness :
  let q := cred_step 0 (CSetUidAll 100 100 100)
             (cred_step 0 (CSetGidAll 50 50 50) (spm_new_process 7 1 7)) in
  (uid_set q, gid_set q) = ([100; 100; 100], [50; 50; 50]) /\ spmIsGroupMember q 0 = 0.
Proof.
  intros q. split; [vm_compute; reflexivity|].
  apply (group_0_membership_is_permanent 7 1 7 q), cred_next, cred_next, cred_refl.
Defined.

(** Ids round-trip through the index and the sequence number. *)
Lemma IXSEQ_roundtrip ix perm :
  0 <= ix < 2 ^ 16 -> 0 <= perm_seq perm < 2 ^ 15 ->
  IPCID_TO_IX (IXSEQ_TO_IPCID ix perm) = ix /\
  IPCID_TO_SEQ (IXSEQ_TO_IPCID ix perm) = perm_seq perm /\
  0 <= IXSEQ_TO_IPCID ix perm <= INT_MAX.
Proof.
  intros Hix Hseq. unfold IPCID_TO_IX, IPCID_TO_SEQ, IXSEQ_TO_IPCID, INT_MAX.
  change 0xffff with (Z.ones 16). rewrite (Z.land_ones ix), Z.mod_small by lia.
  assert (Hor : Z.lor (Z.shiftl (perm_seq perm) 16) ix = perm_seq perm * 2 ^ 16 + ix).
  { rewrite <-Z.add_lor_land, <-(Z.land_ones_low ix 16).
    - rewrite (Z.land_comm ix), Z.land_assoc, Z.land_ones, Z.shiftl_mul_pow2, Z.mod_mul by lia.
      rewrite Z.land_0_l. lia.
    - lia.
    - destruct (Z.eqb_spec ix 0) as [->|]; [done|]. apply Z.log2_lt_pow2; lia. }
  rewrite Hor. split_and!; [| |lia|lia].
  - rewrite Z.land_ones by lia. rewrite Z.add_comm, Z.mod_add by lia. by apply Z.mod_small.
  - rewrite Z.shiftr_div_pow2, Z.land_ones by lia. rewrite Z.add_comm, Z.div_add by lia.
    rewrite Z.div_small by lia. rewrite Z.add_0_l. apply Z.mod_small. lia.
Qed.
