(* ===== verification/SysVSem.v ===== *)
(** System V semaphores ([src/src/emx/src/lib/sys/sysv_sem.c]): the globals in
    the shared process manager heap, the undo lists, [semctl], [semget],
    [semop] and the exit hook.

    Pointers are array indices: [sem_base] is an index into the semaphore pool,
    an undo structure is an index into the undo pool and [semu_list] is the
    list of the active ones, head first.  A mutex is the nesting depth of the
    caller's ownership; releasing a mutex the caller does not own panics, as
    [__libc_Back_safesemMtxUnlock] does.  An event semaphore is the number of
    wake-ups posted to it.  [self] holds the caller's credentials and pid,
    [now] is [fibGetUnixSeconds()]. *)

From S2P Require Import Prelude.
From S2P Require Import Creds.

(** ** Constants of sys/sem.h *)
Definition GETNCNT : Z := 3.
Definition GETPID : Z := 4.
Definition GETVAL : Z := 5.
Definition GETALL : Z := 6.
Definition GETZCNT : Z := 7.
Definition SETVAL : Z := 8.
Definition SETALL : Z := 9.
Definition SEM_STAT : Z := 10.
Definition SEM_A : Z := IPC_W.
Definition SEM_R : Z := IPC_R.
Definition SEM_UNDO : Z := 0x1000.
Definition SEM_ALLOC : Z := 0x200.

(** ** Data *)

Record seminfo := mk_seminfo {
  semmap : Z; semmni : Z; semmns : Z; semmnu : Z; semmsl : Z; semopm : Z;
  semume : Z; semusz : Z; semvmx : Z; semaem : Z
}.

(** The compiled-in limits. *)
Definition default_seminfo : seminfo := mk_seminfo 30 10 60 30 60 100 10 92 32767 16384.

Record sem := mk_sem { semval : Z; sempid : Z; semncnt : Z; semzcnt : Z }.

Record semid_ds := mk_semid_ds {
  sem_perm : ipc_perm; sem_base : Z; sem_nsems : Z; sem_otime : Z; sem_ctime : Z
}.

Record semid_kernel := mk_semid_kernel { ku : semid_ds; kev : Z; kmtx : Z }.

Record undo := mk_undo { un_adjval : Z; un_num : Z; un_id : Z }.

(** [un_ent] has [semume] entries, the first [un_cnt] are in use. *)
Record sem_undo := mk_sem_undo { un_proc : Z; un_cnt : Z; un_ent : list undo }.

Record sysv_sem := mk_sysv_sem {
  uVersion : Z; cUsers : Z; semtot : Z;
  sema : list semid_kernel;
  spool : list sem;
  gmtx : Z;
  semu_list : list Z;
  semu : list sem_undo;
  info : seminfo
}.

Record sembuf := mk_sembuf { sem_num : Z; sem_op : Z; sem_flg : Z }.

(** ** Field updates *)

Definition set_semval (v : Z) (s : sem) := mk_sem v (sempid s) (semncnt s) (semzcnt s).
Definition set_sempid (p : Z) (s : sem) := mk_sem (semval s) p (semncnt s) (semzcnt s).
Definition set_semncnt (n : Z) (s : sem) := mk_sem (semval s) (sempid s) n (semzcnt s).
Definition set_semzcnt (n : Z) (s : sem) := mk_sem (semval s) (sempid s) (semncnt s) n.

Definition set_mode (m : Z) (p : ipc_perm) :=
  mk_ipc_perm (perm_cuid p) (perm_cgid p) (perm_uid p) (perm_gid p) m (perm_seq p) (perm_key p).
Definition set_owner (u g : Z) (p : ipc_perm) :=
  mk_ipc_perm (perm_cuid p) (perm_cgid p) u g (perm_mode p) (perm_seq p) (perm_key p).
Definition set_both_uids (u : Z) (p : ipc_perm) :=
  mk_ipc_perm u (perm_cgid p) u (perm_gid p) (perm_mode p) (perm_seq p) (perm_key p).

Definition set_perm (f : ipc_perm -> ipc_perm) (d : semid_ds) :=
  mk_semid_ds (f (sem_perm d)) (sem_base d) (sem_nsems d) (sem_otime d) (sem_ctime d).
Definition set_base (b : Z) (d : semid_ds) :=
  mk_semid_ds (sem_perm d) b (sem_nsems d) (sem_otime d) (sem_ctime d).
Definition set_otime (t : Z) (d : semid_ds) :=
  mk_semid_ds (sem_perm d) (sem_base d) (sem_nsems d) t (sem_ctime d).
Definition set_ctime (t : Z) (d : semid_ds) :=
  mk_semid_ds (sem_perm d) (sem_base d) (sem_nsems d) (sem_otime d) t.

Definition set_u (f : semid_ds -> semid_ds) (k : semid_kernel) :=
  mk_semid_kernel (f (ku k)) (kev k) (kmtx k).
Definition set_mtx (n : Z) (k : semid_kernel) := mk_semid_kernel (ku k) (kev k) n.

Definition set_semtot (n : Z) (g : sysv_sem) :=
  mk_sysv_sem (uVersion g) (cUsers g) n (sema g) (spool g) (gmtx g) (semu_list g) (semu g) (info g).
Definition set_sema (l : list semid_kernel) (g : sysv_sem) :=
  mk_sysv_sem (uVersion g) (cUsers g) (semtot g) l (spool g) (gmtx g) (semu_list g) (semu g) (info g).
Definition set_spool (l : list sem) (g : sysv_sem) :=
  mk_sysv_sem (uVersion g) (cUsers g) (semtot g) (sema g) l (gmtx g) (semu_list g) (semu g) (info g).
Definition set_gmtx (n : Z) (g : sysv_sem) :=
  mk_sysv_sem (uVersion g) (cUsers g) (semtot g) (sema g) (spool g) n (semu_list g) (semu g) (info g).
Definition set_semu_list (l : list Z) (g : sysv_sem) :=
  mk_sysv_sem (uVersion g) (cUsers g) (semtot g) (sema g) (spool g) (gmtx g) l (semu g) (info g).
Definition set_semu (l : list sem_undo) (g : sysv_sem) :=
  mk_sysv_sem (uVersion g) (cUsers g) (semtot g) (sema g) (spool g) (gmtx g) (semu_list g) l (info g).
Definition set_cUsers (n : Z) (g : sysv_sem) :=
  mk_sysv_sem (uVersion g) n (semtot g) (sema g) (spool g) (gmtx g) (semu_list g) (semu g) (info g).

Abbreviation G := (M sysv_sem).

(** ** Locking and array access *)

(** [__libc_Back_safesemMtxLock(&sema[ix].mtx)] *)
Definition mtx_lock (ix : Z) : G unit :=
  k ← gets (fun g => aget (sema g) ix); k ← deref k;
  mmod (fun g => set_sema (aset (sema g) ix (set_mtx (kmtx k + 1) k)) g).

(** [__libc_Back_safesemMtxUnlock(&sema[ix].mtx)] *)
Definition mtx_unlock (ix : Z) : G unit :=
  k ← gets (fun g => aget (sema g) ix); k ← deref k;
  if kmtx k <=? 0 then mfail Panic
  else mmod (fun g => set_sema (aset (sema g) ix (set_mtx (kmtx k - 1) k)) g).

(** [__libc_Back_safesemEvWakeup(&sema[ix].ev)] *)
Definition ev_wakeup (ix : Z) : G unit :=
  k ← gets (fun g => aget (sema g) ix); k ← deref k;
  mmod (fun g => set_sema (aset (sema g) ix (mk_semid_kernel (ku k) (kev k + 1) (kmtx k))) g).

(** [SEMUNDO_LOCK()] and [SEMUNDO_UNLOCK()] on [gpGlobals->mtx]. *)
Definition SEMUNDO_LOCK : G unit := mmod (fun g => set_gmtx (gmtx g + 1) g).
Definition SEMUNDO_UNLOCK : G unit :=
  n ← gets gmtx; if n <=? 0 then mfail Panic else mmod (set_gmtx (n - 1)).

Definition get_ds (ix : Z) : G semid_ds :=
  k ← gets (fun g => aget (sema g) ix); k ← deref k; mret (ku k).
Definition upd_ds (ix : Z) (f : semid_ds -> semid_ds) : G unit :=
  k ← gets (fun g => aget (sema g) ix); k ← deref k;
  mmod (fun g => set_sema (aset (sema g) ix (set_u f k)) g).
Definition get_sem (i : Z) : G sem :=
  s ← gets (fun g => aget (spool g) i); deref s.
Definition upd_sem (i : Z) (f : sem -> sem) : G unit :=
  s ← get_sem i; mmod (fun g => set_spool (aset (spool g) i (f s)) g).
Definition get_un (i : Z) : G sem_undo :=
  s ← gets (fun g => aget (semu g) i); deref s.
Definition put_un (i : Z) (s : sem_undo) : G unit :=
  _ ← get_un i; mmod (fun g => set_semu (aset (semu g) i s) g).

(** The body of a [semctl] command under [sema[ix].mtx], with the unlock at
    [done2:]. *)
Definition with_mtx {A} (ix : Z) (body : G A) : G A :=
  _ ← mtx_lock ix; finally body (mtx_unlock ix).
Definition with_undo {A} (body : G A) : G A :=
  _ ← SEMUNDO_LOCK; finally body SEMUNDO_UNLOCK.

(** ** Undo structures *)

Definition is_free_un (g : sysv_sem) (i : Z) : bool :=
  match aget (semu g) i with Some s => un_proc s =? 0 | None => false end.

(** The search for a free structure, and its initialisation. *)
Definition semu_take (self : SPMPROCESS) : G (option Z) :=
  g ← mget;
  match find_first (is_free_un g) 0 (Z.to_nat (semmnu (info g))) with
  | Some i =>
      s ← get_un i;
      _ ← mmod (fun g => set_semu_list (i :: semu_list g) g);
      _ ← put_un i (mk_sem_undo (pid self) 0 (un_ent s));
      mret (Some i)
  | None => mret None
  end.

Definition is_empty_un (g : sysv_sem) (i : Z) : bool :=
  match aget (semu g) i with Some s => un_cnt s =? 0 | None => false end.

(** Free the first active structure without entries. *)
Definition semu_purge : G bool :=
  g ← mget;
  match filter (fun i => is_empty_un g i = true) (semu_list g) with
  | i :: _ =>
      s ← get_un i;
      _ ← put_un i (mk_sem_undo 0 (un_cnt s) (un_ent s));
      _ ← mmod (fun g => set_semu_list (filter (fun j => j <> i) (semu_list g)) g);
      mret true
  | [] => mret false
  end.

Definition semu_alloc (self : SPMPROCESS) : G (option Z) :=
  r ← semu_take self;
  match r with
  | Some i => mret (Some i)
  | None =>
      did ← semu_purge;
      if did : bool then
        r ← semu_take self;
        match r with Some i => mret (Some i) | None => mfail Panic end
      else mret None
  end.

(** The caller's active undo structure. *)
Definition find_un (self : SPMPROCESS) : G (option Z) :=
  g ← mget;
  mret (head (filter (fun i => (un_proc <$> aget (semu g) i) = Some (pid self)) (semu_list g))).

Definition is_entry (semid semnum : Z) (s : sem_undo) (i : Z) : bool :=
  match aget (un_ent s) i with
  | Some e => (un_id e =? semid) && (un_num e =? semnum)
  | None => false
  end.

(** The second half of [semundo_adjust]: adjust, delete or create the entry. *)
Definition semundo_adjust_entry (si : seminfo) (semid semnum adjval : Z) (s : sem_undo)
    : option (Z * sem_undo) :=
  let bad (v : Z) := (v >? semaem si) || (v <? - semaem si) in
  match find_first (is_entry semid semnum s) 0 (Z.to_nat (un_cnt s)) with
  | Some i =>
      e ← aget (un_ent s) i;
      let v := if adjval =? 0 then 0 else adjval + un_adjval e in
      if negb (adjval =? 0) && bad v then Some (ERANGE, s)
      else
        let ent := aset (un_ent s) i (mk_undo (s16 v) (un_num e) (un_id e)) in
        if s16 v =? 0 then
          let cnt := s16 (un_cnt s - 1) in
          if i <? cnt then
            l ← aget ent cnt;
            Some (0, mk_sem_undo (un_proc s) cnt (aset ent i l))
          else Some (0, mk_sem_undo (un_proc s) cnt ent)
        else Some (0, mk_sem_undo (un_proc s) (un_cnt s) ent)
  | None =>
      if adjval =? 0 then Some (0, s)
      else if bad adjval then Some (ERANGE, s)
      else if negb (un_cnt s =? semume si) then
        _ ← aget (un_ent s) (un_cnt s);
        Some (0, mk_sem_undo (un_proc s) (s16 (un_cnt s + 1))
                   (aset (un_ent s) (un_cnt s) (mk_undo (s16 adjval) (s16 semnum) semid)))
      else Some (EINVAL, s)
  end.

(** Returns the error code and the new value of [*supptr]. *)
Definition semundo_adjust (self : SPMPROCESS) (supptr : option Z) (semid semnum adjval : Z)
    : G (Z * option Z) :=
  found ← (match supptr with Some i => mret (Some i) | None => find_un self end);
  g ← mget;
  let entry (i : Z) : G (Z * option Z) :=
    s ← get_un i;
    r ← deref (semundo_adjust_entry (info g) semid semnum adjval s);
    _ ← put_un i (snd r);
    mret (fst r, Some i) in
  match found with
  | Some i => entry i
  | None =>
      if adjval =? 0 then mret (0, None)
      else
        r ← semu_alloc self;
        match r with
        | None => mret (ENOSPC, None)
        | Some i => entry i
        end
  end.

(** The [while] loop of [semundo_clear] over one structure; every turn either
    drops an entry or advances, so [un_cnt] turns are enough. *)
Fixpoint semundo_clear_loop (fuel : nat) (semid semnum i : Z) (s : sem_undo) : option sem_undo :=
  match fuel with
  | O => Some s
  | S fuel' =>
      if negb (i <? un_cnt s) then Some s
      else
        e ← aget (un_ent s) i;
        if un_id e =? semid then
          if (semnum =? -1) || (un_num e =? semnum) then
            let cnt := s16 (un_cnt s - 1) in
            if i <? cnt then
              l ← aget (un_ent s) cnt;
              semundo_clear_loop fuel' semid semnum i
                (mk_sem_undo (un_proc s) cnt (aset (un_ent s) i l))
            else
              let s' := mk_sem_undo (un_proc s) cnt (un_ent s) in
              if negb (semnum =? -1) then Some s'
              else semundo_clear_loop fuel' semid semnum (i + 1) s'
          else
            if negb (semnum =? -1) then Some s
            else semundo_clear_loop fuel' semid semnum (i + 1) s
        else semundo_clear_loop fuel' semid semnum (i + 1) s
  end.

Definition semundo_clear (semid semnum : Z) : G unit :=
  l ← gets semu_list;
  mfor l (fun i =>
    s ← get_un i;
    s' ← deref (semundo_clear_loop (Z.to_nat (un_cnt s)) semid semnum 0 s);
    put_un i s').

(** ** semctl *)

Definition semvalid (semid : Z) (d : semid_ds) : Z :=
  if negb (has_bits (perm_mode (sem_perm d)) SEM_ALLOC)
     || negb (perm_seq (sem_perm d) =? IPCID_TO_SEQ semid)
  then EINVAL else 0.

(** [if ((error = semvalid(...)) != 0) goto done2;
    if ((error = -__libc_spmCanIPC(...))) goto done2;] *)
Definition check_sem (self : SPMPROCESS) (semid_in ix access : Z) : G semid_ds :=
  d ← get_ds ix;
  _ ← err_if (negb (semvalid semid_in d =? 0)) (semvalid semid_in d);
  let e := - spmCanIPC self (sem_perm d) access in
  _ ← err_if (negb (e =? 0)) e;
  mret d.

(** What a command hands back besides its return value. *)
Inductive semctl_out :=
  | OutNone
  | OutDs (d : semid_ds)
  | OutArray (a : list Z).

(** [union semun] *)
Inductive semun :=
  | ArgVal (v : Z)
  | ArgBuf (d : semid_ds)
  | ArgArray (a : list Z).

Definition semctl_SEM_STAT (self : SPMPROCESS) (semid : Z) : G (Z * semctl_out) :=
  si ← gets info;
  if (semid <? 0) || (semid >=? semmni si) then merr EINVAL
  else with_mtx semid (
    d ← get_ds semid;
    _ ← err_if (negb (has_bits (perm_mode (sem_perm d)) SEM_ALLOC)) EINVAL;
    let e := - spmCanIPC self (sem_perm d) IPC_R in
    _ ← err_if (negb (e =? 0)) e;
    mret (IXSEQ_TO_IPCID semid (sem_perm d), OutDs d)).

(** The compaction of the pool: [for (i = base; i < semtot; i++)
    sem[i] = sem[i + nsems];] *)
Definition semctl_compact (base nsems tot : Z) : G unit :=
  mfor (zrange base (Z.to_nat (tot - base))) (fun i =>
    s ← get_sem (i + nsems);
    mmod (fun g => set_spool (aset (spool g) i s) g)).

(** [for (i = 0; i < semmni; i++) if allocated and above: sem_base -= nsems] *)
Definition semctl_rebase (base nsems : Z) : G unit :=
  si ← gets info;
  mfor (zrange 0 (Z.to_nat (semmni si))) (fun i =>
    d ← get_ds i;
    mwhen (has_bits (perm_mode (sem_perm d)) SEM_ALLOC && (sem_base d >? base))
      (upd_ds i (set_base (sem_base d - nsems)))).

Definition semctl_IPC_RMID (self : SPMPROCESS) (semid_in ix : Z) : G (Z * semctl_out) :=
  with_mtx ix (
    _ ← check_sem self semid_in ix IPC_M;
    _ ← upd_ds ix (set_perm (set_both_uids (euid self)));
    d ← get_ds ix;
    _ ← mmod (fun g => set_semtot (semtot g - sem_nsems d) g);
    tot ← gets semtot;
    _ ← semctl_compact (sem_base d) (sem_nsems d) tot;
    _ ← semctl_rebase (sem_base d) (sem_nsems d);
    _ ← upd_ds ix (set_perm (set_mode 0));
    _ ← with_undo (semundo_clear ix (-1));
    _ ← ev_wakeup ix;
    mret (0, OutNone)).

Definition semctl_IPC_SET (self : SPMPROCESS) (now semid_in ix : Z) (sbuf : semid_ds)
    : G (Z * semctl_out) :=
  with_mtx ix (
    d ← check_sem self semid_in ix IPC_M;
    _ ← upd_ds ix (set_perm (set_owner (perm_uid (sem_perm sbuf)) (perm_gid (sem_perm sbuf))));
    _ ← upd_ds ix (set_perm (set_mode
          (Z.lor (Z.land (perm_mode (sem_perm d)) (Z.lnot 0x1ff))
                 (Z.land (perm_mode (sem_perm sbuf)) 0x1ff))));
    _ ← upd_ds ix (set_ctime now);
    mret (0, OutNone)).

Definition semctl_IPC_STAT (self : SPMPROCESS) (semid_in ix : Z) : G (Z * semctl_out) :=
  with_mtx ix (d ← check_sem self semid_in ix IPC_R; mret (0, OutDs d)).

(** GETNCNT, GETPID, GETVAL and GETZCNT differ in the field they return. *)
Definition semctl_get (self : SPMPROCESS) (semid_in ix semnum : Z) (field : sem -> Z)
    : G (Z * semctl_out) :=
  with_mtx ix (
    d ← check_sem self semid_in ix IPC_R;
    _ ← err_if ((semnum <? 0) || (semnum >=? sem_nsems d)) EINVAL;
    s ← get_sem (sem_base d + semnum);
    mret (field s, OutNone)).

Fixpoint read_semvals (l : list Z) : G (list Z) :=
  match l with
  | [] => mret []
  | i :: l' => s ← get_sem i; r ← read_semvals l'; mret (semval s :: r)
  end.

Definition semctl_GETALL (self : SPMPROCESS) (semid_in ix : Z) : G (Z * semctl_out) :=
  with_mtx ix (
    d ← check_sem self semid_in ix IPC_R;
    a ← read_semvals (zrange (sem_base d) (Z.to_nat (sem_nsems d)));
    mret (0, OutArray a)).

Definition semctl_SETVAL (self : SPMPROCESS) (semid_in ix semnum val : Z) : G (Z * semctl_out) :=
  with_mtx ix (
    d ← check_sem self semid_in ix IPC_W;
    si ← gets info;
    _ ← err_if ((semnum <? 0) || (semnum >=? sem_nsems d)) EINVAL;
    _ ← err_if ((val <? 0) || (val >? semvmx si)) ERANGE;
    _ ← upd_sem (sem_base d + semnum) (set_semval (u16 val));
    _ ← with_undo (semundo_clear ix semnum);
    _ ← ev_wakeup ix;
    mret (0, OutNone)).

(** Stores the values in order; stops at the first one above [semvmx]. *)
Fixpoint setall_loop (vmx base : Z) (vals : list Z) : G Z :=
  match vals with
  | [] => mret 0
  | v :: vals' =>
      if u16 v >? vmx then mret ERANGE
      else _ ← upd_sem base (set_semval (u16 v)); setall_loop vmx (base + 1) vals'
  end.

(** The size the caller's array is copied with was read under a previous
    locking of the same mutex; no step of another process lies between the two
    here, so the [raced:] branch is not taken. *)
Definition semctl_SETALL (self : SPMPROCESS) (semid_in ix : Z) (a : list Z) : G (Z * semctl_out) :=
  count ← with_mtx ix (
    d ← get_ds ix;
    _ ← err_if (negb (semvalid semid_in d =? 0)) (semvalid semid_in d);
    mret (sem_nsems d));
  with_mtx ix (
    d ← check_sem self semid_in ix IPC_W;
    vals ← deref (if Z.of_nat (length a) <? count then None else Some (take (Z.to_nat count) a));
    si ← gets info;
    error ← setall_loop (semvmx si) (sem_base d) vals;
    _ ← with_undo (semundo_clear ix (-1));
    _ ← ev_wakeup ix;
    _ ← err_if (negb (error =? 0)) error;
    mret (0, OutNone)).

(** [__libc_Back_sysvSemCtl]: the error exit returns the negated errno. *)
Definition sysvSemCtl (self : SPMPROCESS) (now semid semnum cmd : Z) (arg : semun)
    : G (Z * semctl_out) :=
  if cmd =? SEM_STAT then semctl_SEM_STAT self semid
  else
    let ix := IPCID_TO_IX semid in
    si ← gets info;
    if (ix <? 0) || (ix >=? semmni si) then merr EINVAL
    else if cmd =? IPC_RMID then semctl_IPC_RMID self semid ix
    else if cmd =? IPC_SET then
      match arg with ArgBuf d => semctl_IPC_SET self now semid ix d | _ => mfail Ub end
    else if cmd =? IPC_STAT then semctl_IPC_STAT self semid ix
    else if cmd =? GETNCNT then semctl_get self semid ix semnum semncnt
    else if cmd =? GETPID then semctl_get self semid ix semnum sempid
    else if cmd =? GETVAL then semctl_get self semid ix semnum semval
    else if cmd =? GETALL then semctl_GETALL self semid ix
    else if cmd =? GETZCNT then semctl_get self semid ix semnum semzcnt
    else if cmd =? SETVAL then
      match arg with ArgVal v => semctl_SETVAL self semid ix semnum v | _ => mfail Ub end
    else if cmd =? SETALL then
      match arg with ArgArray a => semctl_SETALL self semid ix a | _ => mfail Ub end
    else merr EINVAL.

(** ** semget *)

Definition is_allocated (g : sysv_sem) (i : Z) : bool :=
  match aget (sema g) i with
  | Some k => has_bits (perm_mode (sem_perm (ku k))) SEM_ALLOC
  | None => false
  end.

Definition has_key (g : sysv_sem) (key i : Z) : bool :=
  is_allocated g i &&
  match aget (sema g) i with Some k => perm_key (sem_perm (ku k)) =? key | None => false end.

(** The checks on a set that already has the key. *)
Definition semget_existing (self : SPMPROCESS) (semid nsems semflg : Z) : G Z :=
  d ← get_ds semid;
  let e := - spmCanIPC self (sem_perm d) (Z.land semflg 0x1c0) in
  _ ← err_if (negb (e =? 0)) e;
  _ ← err_if ((nsems >? 0) && (sem_nsems d <? nsems)) EINVAL;
  _ ← err_if (has_bits semflg IPC_CREAT && has_bits semflg IPC_EXCL) EEXIST;
  mret semid.

Definition semget_create (self : SPMPROCESS) (now key nsems semflg : Z) : G Z :=
  g ← mget;
  let si := info g in
  _ ← err_if ((nsems <=? 0) || (nsems >? semmsl si)) EINVAL;
  _ ← err_if (nsems >? semmns si - semtot g) ENOSPC;
  match find_first (fun i => negb (is_allocated g i)) 0 (Z.to_nat (semmni si)) with
  | None => merr ENOSPC
  | Some semid =>
      _ ← upd_ds semid (fun d =>
            mk_semid_ds
              (mk_ipc_perm (euid self) (egid self) (euid self) (egid self)
                 (Z.lor (Z.land semflg 0x1ff) SEM_ALLOC)
                 (Z.land (perm_seq (sem_perm d) + 1) 0x7fff) key)
              (semtot g) (u16 nsems) 0 now);
      _ ← mmod (set_semtot (semtot g + nsems));
      _ ← mfor (zrange (semtot g) (Z.to_nat nsems)) (fun i => upd_sem i (fun _ => mk_sem 0 0 0 0));
      mret semid
  end.

(** [rclk] is the result of locking [gpGlobals->mtx]. *)
Definition sysvSemGet (rclk : Z) (self : SPMPROCESS) (now key nsems semflg : Z) : G Z :=
  if negb (rclk =? 0) then merr (- rclk)
  else with_undo (
    g ← mget;
    let si := info g in
    found ← (match (if key =? IPC_PRIVATE then None
                    else find_first (has_key g key) 0 (Z.to_nat (semmni si))) with
             | Some semid => semget_existing self semid nsems semflg
             | None =>
                 if (key =? IPC_PRIVATE) || has_bits semflg IPC_CREAT
                 then semget_create self now key nsems semflg
                 else merr ENOENT
             end);
    d ← get_ds found;
    mret (IXSEQ_TO_IPCID found (sem_perm d))).

(** ** semop *)

(** The pass over the requests that collects the needed access and whether
    undo records are wanted. *)
Fixpoint semop_scan (nsems : Z) (sops : list sembuf) (j : Z) (do_undos : bool) : G (Z * bool) :=
  match sops with
  | [] => mret (j, do_undos)
  | sop :: sops' =>
      _ ← err_if (sem_num sop >=? nsems) EFBIG;
      semop_scan nsems sops'
        (Z.lor j (if sem_op sop =? 0 then SEM_R else SEM_A))
        (do_undos || (has_bits (sem_flg sop) SEM_UNDO && negb (sem_op sop =? 0)))
  end.

(** How one pass over the vector ended: all requests applied, or stopped
    before request [i] with [error] (0: it would have to wait). *)
Inductive pass_result :=
  | PassAll (do_wakeup : bool)
  | PassStop (i : Z) (error : Z).

Fixpoint semop_pass (si : seminfo) (base : Z) (sops : list sembuf) (i : Z) (do_wakeup : bool)
    : G pass_result :=
  match sops with
  | [] => mret (PassAll do_wakeup)
  | sop :: sops' =>
      s ← get_sem (base + sem_num sop);
      if sem_op sop <? 0 then
        if semval s + sem_op sop <? 0 then mret (PassStop i 0)
        else
          let v := u16 (semval s + sem_op sop) in
          _ ← upd_sem (base + sem_num sop) (set_semval v);
          semop_pass si base sops' (i + 1) (do_wakeup || ((v =? 0) && (semzcnt s >? 0)))
      else if sem_op sop =? 0 then
        if negb (semval s =? 0) then mret (PassStop i 0)
        else semop_pass si base sops' (i + 1) do_wakeup
      else if semval s + sem_op sop >? semvmx si then mret (PassStop i ERANGE)
      else
        _ ← upd_sem (base + sem_num sop) (set_semval (u16 (semval s + sem_op sop)));
        semop_pass si base sops' (i + 1) (do_wakeup || (semncnt s >? 0))
  end.

(** [semval -= sem_op] for each of the requests, in order. *)
Definition semop_rollback (base : Z) (sops : list sembuf) : G unit :=
  mfor sops (fun sop =>
    upd_sem (base + sem_num sop) (fun s => set_semval (u16 (semval s - sem_op sop)) s)).

(** The reverse adjustments of the first requests, last one first. *)
Fixpoint semop_undo_rollback (self : SPMPROCESS) (suptr : option Z) (semid : Z) (rsops : list sembuf)
    : G unit :=
  match rsops with
  | [] => mret ()
  | sop :: rest =>
      if has_bits (sem_flg sop) SEM_UNDO && negb (sem_op sop =? 0) then
        r ← semundo_adjust self suptr semid (sem_num sop) (sem_op sop);
        if negb (fst r =? 0) then mfail Panic
        else semop_undo_rollback self (snd r) semid rest
      else semop_undo_rollback self suptr semid rest
  end.

(** The SEM_UNDO requests; [done] are those already processed, last first. *)
Fixpoint semop_undos (self : SPMPROCESS) (suptr : option Z) (semid base : Z)
    (done sops : list sembuf) : G unit :=
  match sops with
  | [] => mret ()
  | sop :: rest =>
      if has_bits (sem_flg sop) SEM_UNDO && negb (sem_op sop =? 0) then
        r ← semundo_adjust self suptr semid (sem_num sop) (- sem_op sop);
        if fst r =? 0 then semop_undos self (snd r) semid base (sop :: done) rest
        else
          _ ← semop_undo_rollback self (snd r) semid done;
          _ ← semop_rollback base (reverse done ++ sop :: rest);
          merr (fst r)
      else semop_undos self suptr semid base (sop :: done) rest
  end.

(** The code at [done:]. *)
Definition semop_commit (self : SPMPROCESS) (now semid base : Z) (sops : list sembuf)
    (do_undos do_wakeup : bool) : G unit :=
  _ ← mwhen do_undos (with_undo (semop_undos self None semid base [] sops));
  _ ← mfor sops (fun sop => upd_sem (base + sem_num sop) (set_sempid (pid self)));
  _ ← upd_ds semid (set_otime now);
  mwhen do_wakeup (ev_wakeup semid).

(** A process asleep in [semop]: the request, and the counter it incremented. *)
Record sleeper := mk_sleeper {
  sl_semid_in : Z; sl_sops : list sembuf; sl_do_undos : bool;
  sl_idx : Z; sl_zcnt : bool
}.

Inductive semop_res :=
  | SemDone
  | SemSleep (sl : sleeper).

Definition counter_upd (zcnt : bool) (f : Z -> Z) (s : sem) : sem :=
  if zcnt then set_semzcnt (u16 (f (semzcnt s))) s else set_semncnt (u16 (f (semncnt s))) s.

(** One turn of the [for (;;)] loop and what follows it. *)
Definition semop_attempt (self : SPMPROCESS) (now semid_in : Z) (sops : list sembuf)
    (do_undos : bool) : G semop_res :=
  let semid := IPCID_TO_IX semid_in in
  si ← gets info;
  d ← get_ds semid;
  let base := sem_base d in
  r ← semop_pass si base sops 0 false;
  match r with
  | PassAll do_wakeup =>
      _ ← semop_commit self now semid base sops do_undos do_wakeup;
      mret SemDone
  | PassStop i error =>
      _ ← semop_rollback base (take (Z.to_nat i) sops);
      _ ← err_if (negb (error =? 0)) error;
      sop ← deref (aget sops i);
      _ ← err_if (has_bits (sem_flg sop) IPC_NOWAIT) EAGAIN;
      let idx := base + sem_num sop in
      let zcnt := sem_op sop =? 0 in
      _ ← upd_sem idx (counter_upd zcnt (fun n => n + 1));
      mret (SemSleep (mk_sleeper semid_in sops do_undos idx zcnt))
  end.

(** [semop] from its start to its return or its first sleep;
    [__libc_Back_safesemEvSleep] releases the mutex. *)
Definition semop_enter (rclk : Z) (self : SPMPROCESS) (now semid_in : Z) (sops : list sembuf)
    : G semop_res :=
  let semid := IPCID_TO_IX semid_in in
  let nsops := Z.of_nat (length sops) in
  si ← gets info;
  if (semid <? 0) || (semid >=? semmni si) then merr EINVAL
  else if negb (nsops <=? 8) && negb (nsops <=? u32 (semopm si)) then merr E2BIG
  else if negb (rclk =? 0) then merr (- rclk)
  else with_mtx semid (
    d ← get_ds semid;
    _ ← err_if (negb (has_bits (perm_mode (sem_perm d)) SEM_ALLOC)) EINVAL;
    _ ← err_if (negb (perm_seq (sem_perm d) =? IPCID_TO_SEQ semid_in)) EINVAL;
    r ← semop_scan (sem_nsems d) sops 0 false;
    let e := - spmCanIPC self (sem_perm d) (fst r) in
    _ ← err_if (negb (e =? 0)) e;
    semop_attempt self now semid_in sops (snd r)).

(** [SleepDone]; [Args.semid] holds the array index, not the id of the call. *)
Definition SleepDone (args_semid ix idx : Z) (zcnt : bool) : G unit :=
  d ← get_ds ix;
  if negb (has_bits (perm_mode (sem_perm d)) SEM_ALLOC)
     || negb (perm_seq (sem_perm d) =? IPCID_TO_SEQ args_semid)
  then mret ()
  else upd_sem idx (counter_upd zcnt (fun n => n - 1)).

(** From the wake-up to the return or the next sleep; [evrc] is the result of
    the sleep (0, or the negative errno of an interrupted wait). *)
Definition semop_resume (evrc : Z) (self : SPMPROCESS) (now : Z) (sl : sleeper) : G semop_res :=
  let semid := IPCID_TO_IX (sl_semid_in sl) in
  with_mtx semid (
    _ ← SleepDone semid semid (sl_idx sl) (sl_zcnt sl);
    d ← get_ds semid;
    _ ← err_if (negb (has_bits (perm_mode (sem_perm d)) SEM_ALLOC)
                || negb (perm_seq (sem_perm d) =? IPCID_TO_SEQ (sl_semid_in sl))) EIDRM;
    _ ← err_if (negb (evrc =? 0)) EINTR;
    semop_attempt self now (sl_semid_in sl) (sl_sops sl) (sl_do_undos sl)).

(** ** The exit hook *)

(** The adjustment of one semaphore at process exit. *)
Definition exit_adjust (adjval v : Z) : Z :=
  if adjval <? 0 then (if v <? - adjval then 0 else u16 (v + adjval)) else u16 (v + adjval).

(** One entry of the undo structure, under [SEMUNDO_LOCK] and what the hook
    does to the mutex of the set: it releases it twice. *)
Definition semexit_entry (e : undo) : G unit :=
  let semid := un_id e in
  _ ← SEMUNDO_LOCK;
  _ ← mtx_unlock semid;
  d ← get_ds semid;
  (if negb (has_bits (perm_mode (sem_perm d)) SEM_ALLOC) then mfail Panic
   else if un_num e >=? sem_nsems d then mfail Panic
   else
     _ ← upd_sem (sem_base d + un_num e) (fun s => set_semval (exit_adjust (un_adjval e) (semval s)) s);
     ev_wakeup semid);;
  _ ← mtx_unlock semid;
  SEMUNDO_UNLOCK.

(** [fDone] is the hook's once-only flag, [attached] is [gpGlobals != NULL]. *)
Definition semexit_myhook (self : SPMPROCESS) (attached fDone : bool) : G unit :=
  if negb attached || fDone then mret ()
  else
    f ← with_undo (find_un self);
    _ ← (match f with
         | None => mret ()
         | Some i =>
             s ← get_un i;
             _ ← mfor (take (Z.to_nat (un_cnt s)) (un_ent s)) semexit_entry;
             s ← get_un i;
             _ ← put_un i (mk_sem_undo 0 (un_cnt s) (un_ent s));
             mmod (fun g => set_semu_list (filter (fun j => j <> i) (semu_list g)) g)
         end);
    mmod (fun g => set_cUsers (u32 (cUsers g - 1)) g).

(** ** Initialisation *)

Definition zero_perm : ipc_perm := mk_ipc_perm 0 0 0 0 0 0 0.
Definition zero_semid : semid_kernel := mk_semid_kernel (mk_semid_ds zero_perm 0 0 0 0) 0 0.

(** The block [seminit] builds for the limits [si]: zero-filled arrays.
    [semu] has [semusz] bytes per structure, which holds [(semusz - 12) / 8]
    entries. *)
Definition fresh_globals (si : seminfo) : sysv_sem :=
  mk_sysv_sem 0x00020000 0 0
    (replicate (Z.to_nat (semmni si)) zero_semid)
    (replicate (Z.to_nat (semmns si)) (mk_sem 0 0 0 0))
    0 []
    (replicate (Z.to_nat (semmnu si))
       (mk_sem_undo 0 0 (replicate (Z.to_nat ((semusz si - 12) / 8)) (mk_undo 0 0 0))))
    si.

(** The per-process view: the pointer in the SPM header, whether [gpGlobals]
    is set, and the process's copy of the limits. *)
Record sem_proc := mk_sem_proc { pSysVSem : option sysv_sem; gpGlobals : bool; lseminfo : seminfo }.

(** [lock1], [lock2]: results of the two [__libc_spmLock] calls; [tune]: the
    environment overrides; [raced]: whether another process created the block
    while the SPM mutex was released to read the environment, in which case
    [pGlobals] stays NULL and is dereferenced; [alloc]: whether the SPM heap
    has room; [semrc]: 0, or what the first failure of creating or opening the
    semaphores is turned into. *)
Definition seminit (lock1 lock2 : Z) (tune : seminfo -> seminfo) (raced : option sysv_sem)
    (alloc : bool) (semrc : Z) (p : sem_proc) : outcome sem_proc Z :=
  let finish (g : sysv_sem) (p : sem_proc) :=
    let g := set_cUsers (u32 (cUsers g + 1)) g in
    Done semrc (mk_sem_proc (Some g) true (info g)) in
  if negb (lock1 =? 0) then Done lock1 p
  else if gpGlobals p then Done 0 p
  else match pSysVSem p with
  | Some g =>
      if negb (Z.shiftr (uVersion g) 16 =? Z.shiftr 0x00020000 16) then Fault Panic
      else finish g p
  | None =>
      if negb (lock2 =? 0) then Done lock2 p
      else match raced with
      | Some _ => Fault Ub
      | None =>
          if negb alloc then Done (- ENOMEM) p
          else finish (fresh_globals (tune (lseminfo p))) p
      end
  end.
