(* ===== verification/SysVSemFacts.v ===== *)
(** Properties of the System V semaphores: the invariant of the shared block,
    its preservation by every call, the atomicity of [semop], the undo
    accounting, and what goes wrong in the wake-up, the undo purge and the exit
    hook. *)

From S2P Require Import Prelude.
From S2P Require Import Creds.
From S2P Require Import SysVSem.

(** ** The invariant *)

Definition kalloc (k : semid_kernel) : bool := has_bits (perm_mode (sem_perm (ku k))) SEM_ALLOC.

(** Where an allocated set lies in the pool, and its sequence number. *)
Record rng := mk_rng { rbase : Z; rlen : Z; rseq : Z }.
Definition krange (k : semid_kernel) : option rng :=
  if kalloc k then Some (mk_rng (sem_base (ku k)) (sem_nsems (ku k)) (perm_seq (sem_perm (ku k))))
  else None.
Definition ranges (g : sysv_sem) : list (option rng) := krange <$> sema g.
Definition rsize (r : option rng) : Z := match r with Some r => rlen r | None => 0 end.

(** Sane limits: counters and values fit their 16-bit fields. *)
Record limits_ok (si : seminfo) : Prop := {
  lo_mni : 0 <= semmni si <= 2 ^ 16;
  lo_mns : 0 <= semmns si < 2 ^ 15;
  lo_mnu : 0 <= semmnu si;
  lo_msl : semmsl si < 2 ^ 15;
  lo_ume : 0 <= semume si < 2 ^ 15;
  lo_vmx : 0 <= semvmx si < 2 ^ 15;
  lo_aem : 0 <= semaem si < 2 ^ 15
}.

Record shape (g : sysv_sem) : Prop := {
  sh_lim : limits_ok (info g);
  sh_sema : alen (sema g) = semmni (info g);
  sh_pool : alen (spool g) = semmns (info g);
  sh_semu : alen (semu g) = semmnu (info g);
  sh_tot : 0 <= semtot g <= semmns (info g)
}.

(** The allocated sets tile the used part of the pool. *)
Record sets_ok (rs : list (option rng)) (tot : Z) : Prop := {
  so_in : forall i r, aget rs i = Some (Some r) -> 0 <= rbase r /\ 0 < rlen r /\ rbase r + rlen r <= tot;
  so_disj : forall i j r q, i <> j -> aget rs i = Some (Some r) -> aget rs j = Some (Some q) ->
    rbase r + rlen r <= rbase q \/ rbase q + rlen q <= rbase r;
  so_total : sumZ (rsize <$> rs) = tot;
  so_seq : forall i r, aget rs i = Some (Some r) -> 0 <= rseq r < 2 ^ 15
}.

Definition vals_ok (vmx : Z) (l : list sem) : Prop := Forall (fun s => 0 <= semval s <= vmx) l.

(** The entries in use of an undo structure. *)
Definition entries (s : sem_undo) : list undo := take (Z.to_nat (un_cnt s)) (un_ent s).
Definition ekey (e : undo) : Z * Z := (un_id e, un_num e).

Record un_ok (si : seminfo) (s : sem_undo) : Prop := {
  uo_cnt : 0 <= un_cnt s <= semume si;
  uo_room : semume si <= alen (un_ent s);
  uo_adj : Forall (fun e => un_adjval e <> 0 /\ - semaem si <= un_adjval e <= semaem si) (entries s);
  uo_keys : NoDup (ekey <$> entries s)
}.

Record undos_ok (si : seminfo) (ul : list Z) (u : list sem_undo) : Prop := {
  us_nodup : NoDup ul;
  us_active : forall i s, aget u i = Some s -> i ∈ ul <-> un_proc s <> 0;
  us_range : forall i, i ∈ ul -> 0 <= i < alen u;
  us_un : forall i s, aget u i = Some s -> un_ok si s;
  us_procs : forall i j s t, i ∈ ul -> j ∈ ul -> aget u i = Some s -> aget u j = Some t ->
    un_proc s = un_proc t -> i = j
}.

Definition lockst (g : sysv_sem) : list Z * Z := (kmtx <$> sema g, gmtx g).

(** The invariant of the block, for limits [si], with the caller holding the
    mutexes as [L] says and the sets where [rs] says. *)
Record inv (si : seminfo) (L : list Z * Z) (rs : list (option rng)) (g : sysv_sem) : Prop := {
  iv_info : info g = si;
  iv_shape : shape g;
  iv_ranges : ranges g = rs;
  iv_sets : sets_ok rs (semtot g);
  iv_vals : vals_ok (semvmx si) (spool g);
  iv_undos : undos_ok si (semu_list g) (semu g);
  iv_locks : lockst g = L;
  iv_nonneg : Forall (fun n => 0 <= n) L.1 /\ 0 <= L.2
}.

(** ** Undo tables *)

(** The table a list of entries stands for. *)
Definition emap (es : list undo) : gmap (Z * Z) Z :=
  list_to_map ((fun e => (ekey e, un_adjval e)) <$> es).
Definition undo_map (s : sem_undo) : gmap (Z * Z) Z := emap (entries s).

Lemma fst_pairs (es : list undo) : ((fun e => (ekey e, un_adjval e)) <$> es).*1 = ekey <$> es.
Proof. rewrite <-list_fmap_compose. by apply list_fmap_ext. Qed.

Lemma emap_perm es es' : NoDup (ekey <$> es) -> es ≡ₚ es' -> emap es = emap es'.
Proof.
  intros Hn Hp. unfold emap. apply list_to_map_proper; [by rewrite fst_pairs|].
  by apply Permutation_map.
Qed.

Lemma emap_cons e es : emap (e :: es) = <[ekey e := un_adjval e]> (emap es).
Proof. done. Qed.

Lemma emap_lookup_None es k : k ∉ ekey <$> es -> emap es !! k = None.
Proof. intros Hk. apply not_elem_of_list_to_map_1. by rewrite fst_pairs. Qed.

Lemma emap_lookup es e : NoDup (ekey <$> es) -> e ∈ es -> emap es !! ekey e = Some (un_adjval e).
Proof.
  intros Hn He. apply elem_of_list_to_map_1; [by rewrite fst_pairs|].
  apply list_elem_of_fmap. eauto.
Qed.

Lemma emap_size es : NoDup (ekey <$> es) -> size (emap es) = length es.
Proof.
  induction es as [|e es IH]; [done|]. rewrite fmap_cons. intros [Hni Hn]%NoDup_cons.
  rewrite emap_cons, map_size_insert_None by by apply emap_lookup_None.
  by rewrite IH.
Qed.

(** Deleting by moving the last element into the hole. *)
Lemma swap_delete_perm {A} (l : list A) (n i : nat) (e x : A) :
  l !! i = Some e -> l !! n = Some x -> (i < n)%nat ->
  take (S n) l ≡ₚ e :: take n (<[i:=x]> l).
Proof.
  intros He Hx Hi. rewrite (take_S_r l n x Hx), take_insert_lt by done.
  assert (Hl : take n l !! i = Some e) by (rewrite lookup_take_lt by done; done).
  rewrite (insert_take_drop (take n l) i x) by (eapply lookup_lt_Some; done).
  rewrite <-(take_drop_middle (take n l) i e Hl) at 1.
  generalize (take i (take n l)) (drop (S i) (take n l)). intros t1 t2.
  rewrite (Permutation_app_comm _ [x]). cbn [app].
  rewrite <-(Permutation_middle t1 t2 e), <-(Permutation_middle t1 t2 x). apply perm_swap.
Qed.

(** The same with the C indices. *)
Lemma entries_swap (ent : list undo) (cnt i : Z) (e l : undo) :
  aget ent i = Some e -> aget ent (cnt - 1) = Some l -> i < cnt - 1 ->
  take (Z.to_nat cnt) ent ≡ₚ e :: take (Z.to_nat (cnt - 1)) (aset ent i l).
Proof.
  intros He Hl Hi. pose proof (aget_Some_range _ _ _ He). pose proof (aget_Some_range _ _ _ Hl).
  unfold aget in He, Hl. destruct (Z.leb_spec 0 i); [|done].
  destruct (Z.leb_spec 0 (cnt - 1)); [|done].
  replace (Z.to_nat cnt) with (S (Z.to_nat (cnt - 1))) by lia.
  apply swap_delete_perm; [done|done|lia].
Qed.

Lemma entries_last (ent : list undo) (cnt : Z) (e : undo) :
  0 < cnt -> aget ent (cnt - 1) = Some e ->
  take (Z.to_nat cnt) ent ≡ₚ e :: take (Z.to_nat (cnt - 1)) ent.
Proof.
  intros Hc He. unfold aget in He. destruct (Z.leb_spec 0 (cnt - 1)); [|done].
  replace (Z.to_nat cnt) with (S (Z.to_nat (cnt - 1))) by lia.
  rewrite (take_S_r _ _ _ He). by rewrite Permutation_app_comm.
Qed.

(** An update in place of an entry in use. *)
Lemma entries_update (ent : list undo) (cnt i : Z) (e x : undo) :
  aget ent i = Some e -> i < cnt ->
  exists rest, take (Z.to_nat cnt) ent ≡ₚ e :: rest /\
               take (Z.to_nat cnt) (aset ent i x) ≡ₚ x :: rest.
Proof.
  intros He Hi. pose proof (aget_Some_range _ _ _ He).
  unfold aget, aset in *. destruct (Z.leb_spec 0 i); [|done].
  assert (Hl : take (Z.to_nat cnt) ent !! Z.to_nat i = Some e)
    by (rewrite lookup_take_lt by lia; done).
  exists (take (Z.to_nat i) (take (Z.to_nat cnt) ent) ++ drop (S (Z.to_nat i)) (take (Z.to_nat cnt) ent)).
  split.
  - rewrite <-(take_drop_middle _ _ _ Hl) at 1. by rewrite <-Permutation_middle.
  - rewrite take_insert_lt by lia.
    rewrite insert_take_drop by (eapply lookup_lt_Some; done). by rewrite <-Permutation_middle.
Qed.

Lemma entries_lookup s i e :
  0 <= un_cnt s -> aget (un_ent s) i = Some e -> i < un_cnt s -> e ∈ entries s.
Proof.
  intros Hc He Hi. pose proof (aget_Some_range _ _ _ He). unfold aget in He.
  destruct (Z.leb_spec 0 i); [|done]. apply list_elem_of_lookup. exists (Z.to_nat i).
  unfold entries. by rewrite lookup_take_lt by lia.
Qed.

Lemma entries_elem s e :
  0 <= un_cnt s -> e ∈ entries s -> exists i, 0 <= i < un_cnt s /\ aget (un_ent s) i = Some e.
Proof.
  intros Hc (i & Hi)%list_elem_of_lookup. unfold entries in Hi.
  apply lookup_take_Some in Hi as [Hi Hlt]. exists (Z.of_nat i).
  split; [lia|]. unfold aget. destruct (Z.leb_spec 0 (Z.of_nat i)); [|lia]. by rewrite Nat2Z.id.
Qed.

(** What [semundo_adjust] does to the table of a process: the new value of the
    entry is the sum; it is refused when it leaves [-semaem .. semaem], or when
    a new entry does not fit; a sum of zero deletes the entry. *)
Definition adjust_spec (si : seminfo) (m : gmap (Z * Z) Z) (k : Z * Z) (adj : Z)
    : Z * gmap (Z * Z) Z :=
  let v := adj + default 0 (m !! k) in
  if (v >? semaem si) || (v <? - semaem si) then (ERANGE, m)
  else if v =? 0 then (0, delete k m)
  else if bool_decide (m !! k = None) && (Z.of_nat (size m) =? semume si) then (EINVAL, m)
  else (0, <[k := v]> m).

Definition table_ok (si : seminfo) (m : gmap (Z * Z) Z) : Prop :=
  map_Forall (fun _ v => v <> 0 /\ - semaem si <= v <= semaem si) m /\
  Z.of_nat (size m) <= semume si.

(** Taking back an accepted adjustment is accepted, and restores the table. *)
Lemma adjust_spec_undo si m k adj m' :
  table_ok si m -> adj <> 0 -> adjust_spec si m k adj = (0, m') ->
  adjust_spec si m' k (- adj) = (0, m) /\ table_ok si m'.
Proof.
  intros [Hm Hsz] Ha. unfold adjust_spec. cbv zeta.
  set (v := adj + default 0 (m !! k)). intros H.
  destruct (_ || _)%bool eqn:Hbad; [done|]. apply orb_false_iff in Hbad as [Hb1 Hb2].
  breflect.
  assert (Hold : forall w, m !! k = Some w -> w <> 0 /\ - semaem si <= w <= semaem si)
    by (intros w Hw; apply (Hm k w Hw)).
  destruct (Z.eqb_spec v 0) as [Hv|Hv].
  - injection H as <-. rewrite lookup_delete_eq. cbn [default from_option id].
    destruct (m !! k) as [w|] eqn:Hk; unfold v in Hv; cbn in Hv; [|lia].
    destruct (Hold w eq_refl) as [Hw0 Hw].
    assert (Hsz' : size m = S (size (delete k m))).
    { rewrite <-(map_size_insert_None k w (delete k m)) by apply lookup_delete_eq.
      by rewrite insert_delete_id. }
    split; [|split; [by apply map_Forall_delete|lia]].
    replace (- adj + 0) with w by lia.
    zbool. rewrite andb_false_r. by rewrite insert_delete_id.
  - destruct (bool_decide _ && _)%bool eqn:Hfull; [done|]. injection H as <-.
    rewrite lookup_insert_eq. cbn [default from_option id]. unfold v.
    destruct (m !! k) as [w|] eqn:Hk; cbn [default from_option id] in *.
    + destruct (Hold w eq_refl) as [Hw0 Hw].
      replace (- adj + (adj + w)) with w by lia. zbool.
      rewrite bool_decide_eq_false_2 by done. cbn [andb].
      rewrite insert_insert_eq, insert_id by done. split; [done|]. split.
      * apply map_Forall_insert_2; [lia|done].
      * rewrite map_size_insert_Some by (rewrite Hk; eauto). lia.
    + replace (- adj + (adj + 0)) with 0 by lia. zbool.
      rewrite delete_insert_id by done. split; [done|]. split.
      * apply map_Forall_insert_2; [lia|done].
      * rewrite map_size_insert_None by done. rewrite bool_decide_eq_true_2 in Hfull by done.
        cbn in Hfull. breflect. lia.
Qed.

Lemma un_ok_table si s : un_ok si s -> limits_ok si ->
  table_ok si (undo_map s) /\ Z.of_nat (size (undo_map s)) = un_cnt s.
Proof.
  intros [Hc Hr Ha Hk] Hl.
  assert (Hsz : Z.of_nat (size (undo_map s)) = un_cnt s).
  { unfold undo_map. rewrite emap_size by done. unfold entries.
    unfold alen in Hr. rewrite length_take. lia. }
  split; [|done]. split; [|lia].
  intros k v Hkv. unfold undo_map, emap in Hkv.
  apply elem_of_list_to_map_2, list_elem_of_fmap in Hkv as (e & [= -> ->] & He).
  rewrite Forall_forall in Ha. by apply Ha.
Qed.
(** ** [semundo_adjust] implements [adjust_spec] *)

Lemma emap_remove es e rest :
  es ≡ₚ e :: rest -> NoDup (ekey <$> es) ->
  NoDup (ekey <$> rest) /\ ekey e ∉ ekey <$> rest /\
  emap es = <[ekey e := un_adjval e]> (emap rest) /\ emap rest = delete (ekey e) (emap es).
Proof.
  intros Hp Hn. assert (Hn' := Hn). rewrite Hp, fmap_cons in Hn'.
  apply NoDup_cons in Hn' as [Hni Hr].
  assert (He : emap es = <[ekey e := un_adjval e]> (emap rest)) by (rewrite <-emap_cons; by apply emap_perm).
  split_and!; [done..|]. rewrite He, delete_insert_id; [done|]. by apply emap_lookup_None.
Qed.

Definition adj_ok (si : seminfo) (e : undo) : Prop :=
  un_adjval e <> 0 /\ - semaem si <= un_adjval e <= semaem si.

Lemma un_ok_intro si s es :
  entries s ≡ₚ es -> 0 <= un_cnt s <= semume si -> semume si <= alen (un_ent s) ->
  Forall (adj_ok si) es -> NoDup (ekey <$> es) -> un_ok si s.
Proof.
  intros Hp Hc Hr Ha Hn. constructor; [done|done| |].
  - rewrite Hp. exact Ha.
  - by rewrite Hp.
Qed.

Lemma is_entry_true semid semnum s i :
  is_entry semid semnum s i = true ->
  exists e, aget (un_ent s) i = Some e /\ ekey e = (semid, semnum).
Proof.
  unfold is_entry, ekey. destruct (aget (un_ent s) i) as [e|]; [|done].
  intros H. breflect. exists e. split; [done|congruence].
Qed.

Lemma no_entry semid semnum s :
  0 <= un_cnt s ->
  find_first (is_entry semid semnum s) 0 (Z.to_nat (un_cnt s)) = None ->
  (semid, semnum) ∉ ekey <$> entries s.
Proof.
  intros Hc Hf (e & Hk & He)%list_elem_of_fmap.
  apply entries_elem in He as (i & Hi & He); [|done].
  pose proof (find_first_None _ _ _ Hf i ltac:(lia)) as Hno.
  unfold is_entry, ekey in *. rewrite He in Hno. injection Hk as -> ->.
  rewrite !Z.eqb_refl in Hno. done.
Qed.

(** What a refinement step of one structure has to establish. *)
Definition adjusts (si : seminfo) (k : Z * Z) (adj : Z) (s : sem_undo)
    (r : option (Z * sem_undo)) : Prop :=
  exists e s', r = Some (e, s') /\ un_ok si s' /\ un_proc s' = un_proc s /\
    alen (un_ent s') = alen (un_ent s) /\ adjust_spec si (undo_map s) k adj = (e, undo_map s').

(** The found entry is dropped. *)
Lemma entry_drop si s s' e k adj :
  un_ok si s -> un_adjval e + adj = 0 -> ekey e = k -> 0 <= semaem si ->
  entries s ≡ₚ e :: entries s' -> 0 <= un_cnt s' <= semume si ->
  un_proc s' = un_proc s -> alen (un_ent s') = alen (un_ent s) ->
  adjusts si k adj s (Some (0, s')).
Proof.
  intros [Hc Hr Ha Hn] Hv <- Haem Hp Hc' Hproc Hlen.
  destruct (emap_remove _ _ _ Hp Hn) as (Hn' & Hni & He & Hd).
  exists 0, s'. split_and!; [done| |done|done|].
  - apply (un_ok_intro _ _ (entries s')); [done|done|by rewrite Hlen| |done].
    rewrite Hp in Ha. by inversion Ha.
  - assert (Hl : undo_map s !! ekey e = Some (un_adjval e)) by (unfold undo_map; by rewrite He, lookup_insert_eq).
    unfold adjust_spec. rewrite Hl. cbn [default from_option id].
    replace (adj + un_adjval e) with 0 by lia. zbool. unfold undo_map. by rewrite <-Hd.
Qed.

(** The found entry gets a new value. *)
Lemma entry_change si s s' e x rest k adj :
  un_ok si s -> un_adjval x = adj + un_adjval e -> ekey e = k -> ekey x = k -> adj_ok si x ->
  entries s ≡ₚ e :: rest -> entries s' ≡ₚ x :: rest -> un_cnt s' = un_cnt s ->
  un_proc s' = un_proc s -> alen (un_ent s') = alen (un_ent s) ->
  adjusts si k adj s (Some (0, s')).
Proof.
  intros [Hc Hr Ha Hn] Hv <- Hkx [Hx0 Hx] Hp Hp' Hc' Hproc Hlen.
  destruct (emap_remove _ _ _ Hp Hn) as (Hn' & Hni & He & Hd).
  assert (Hnx : NoDup (ekey <$> x :: rest)) by (rewrite fmap_cons, Hkx; by apply NoDup_cons).
  exists 0, s'. split_and!; [done| |done|done|].
  - apply (un_ok_intro _ _ (x :: rest)); [done|lia|by rewrite Hlen| |done].
    rewrite Hp in Ha. inversion Ha; subst. constructor; done.
  - assert (Hl : undo_map s !! ekey e = Some (un_adjval e)) by (unfold undo_map; by rewrite He, lookup_insert_eq).
    unfold adjust_spec. rewrite Hl. cbn [default from_option id]. rewrite <-Hv. zbool.
    rewrite bool_decide_eq_false_2 by done. cbn [andb]. unfold undo_map.
    rewrite (emap_perm (entries s') (x :: rest)); [|by rewrite Hp'|done].
    by rewrite He, insert_insert_eq, emap_cons, Hkx.
Qed.

(** A new entry is appended. *)
Lemma entry_create si s s' x k adj :
  un_ok si s -> un_adjval x = adj -> ekey x = k -> adj_ok si x ->
  k ∉ ekey <$> entries s -> un_cnt s <> semume si ->
  entries s' ≡ₚ x :: entries s -> un_cnt s' = un_cnt s + 1 ->
  un_proc s' = un_proc s -> alen (un_ent s') = alen (un_ent s) ->
  adjusts si k adj s (Some (0, s')).
Proof.
  intros Hok <- <- [Hx0 Hx] Hni Hne Hp Hc' Hproc Hlen. destruct Hok as [Hc Hr Ha Hn].
  assert (Hnx : NoDup (ekey <$> x :: entries s)) by (rewrite fmap_cons; by apply NoDup_cons).
  exists 0, s'. split_and!; [done| |done|done|].
  - apply (un_ok_intro _ _ (x :: entries s)); [done|lia|by rewrite Hlen|by constructor|done].
  - assert (Hl : undo_map s !! ekey x = None) by (by apply emap_lookup_None).
    unfold adjust_spec. rewrite Hl. cbn [default from_option id]. rewrite Z.add_0_r. zbool.
    assert (Hsz : Z.of_nat (size (undo_map s)) <> semume si).
    { unfold undo_map. rewrite emap_size by done. unfold entries. rewrite length_take.
      unfold alen in Hr. lia. }
    zbool. rewrite andb_false_r. unfold undo_map.
    rewrite (emap_perm (entries s') (x :: entries s)); [done|by rewrite Hp|done].
Qed.

Lemma adjust_refused si s k adj e :
  un_ok si s -> adjust_spec si (undo_map s) k adj = (e, undo_map s) -> adjusts si k adj s (Some (e, s)).
Proof. intros Hs He. exists e, s. eauto. Qed.

(** The hit of the search loop. *)
Lemma adjust_entry_hit si semid semnum adj s i e :
  un_ok si s -> limits_ok si -> adj <> 0 ->
  0 <= i < un_cnt s -> aget (un_ent s) i = Some e -> ekey e = (semid, semnum) ->
  find_first (is_entry semid semnum s) 0 (Z.to_nat (un_cnt s)) = Some i ->
  adjusts si (semid, semnum) adj s (semundo_adjust_entry si semid semnum adj s).
Proof.
  intros Hok Hlim Ha Hi He Hk Hf. pose proof (lo_ume _ Hlim). pose proof (lo_aem _ Hlim).
  assert (Hc := uo_cnt _ _ Hok). pose proof (uo_room _ _ Hok) as Hroom.
  unfold semundo_adjust_entry. rewrite Hf. cbn [mbind option_bind]. rewrite He. cbn [mbind option_bind].
  destruct (Z.eqb_spec adj 0) as [|_]; [done|]. cbn [negb andb].
  set (v := adj + un_adjval e). assert (Hlk : undo_map s !! (semid, semnum) = Some (un_adjval e)).
  { rewrite <-Hk. apply emap_lookup; [apply Hok|]. eapply entries_lookup; [lia|done|lia]. }
  destruct ((v >? semaem si) || (v <? - semaem si))%bool eqn:Hbad.
  { apply adjust_refused; [done|]. unfold adjust_spec. rewrite Hlk. cbn [default from_option id].
    fold v. by rewrite Hbad. }
  breflect. autorewrite with mach. destruct (Z.eqb_spec v 0) as [Hv|Hv].
  - destruct (aget_is_Some (un_ent s) (un_cnt s - 1)) as [l Hl]; [lia|].
    destruct (Z.ltb_spec i (un_cnt s - 1)).
    + rewrite aget_aset_ne, Hl by lia. cbn [mbind option_bind]. rewrite aset_aset.
      apply (entry_drop _ _ _ e); [done|lia|done|lia|by apply entries_swap|cbn; lia|done|].
      cbn. by rewrite alen_aset.
    + replace i with (un_cnt s - 1) in * by lia.
      apply (entry_drop _ _ _ e); [done|lia|done|lia| |cbn; lia|done|cbn; by rewrite alen_aset].
      unfold entries. cbn. unfold aset. rewrite take_insert_ge by lia. by apply entries_last; [lia|].
  - destruct (entries_update (un_ent s) (un_cnt s) i e (mk_undo v (un_num e) (un_id e)))
      as (rest & Hr1 & Hr2); [done|lia|].
    apply (entry_change _ _ _ e (mk_undo v (un_num e) (un_id e)) rest); try done.
    cbn. by rewrite alen_aset.
Qed.

Lemma adjust_entry_miss si semid semnum adj s :
  un_ok si s -> limits_ok si -> adj <> 0 -> 0 <= semnum < 2 ^ 15 ->
  find_first (is_entry semid semnum s) 0 (Z.to_nat (un_cnt s)) = None ->
  adjusts si (semid, semnum) adj s (semundo_adjust_entry si semid semnum adj s).
Proof.
  intros Hok Hlim Ha Hnum Hf. pose proof (lo_ume _ Hlim). pose proof (lo_aem _ Hlim).
  assert (Hc := uo_cnt _ _ Hok). pose proof (uo_room _ _ Hok) as Hroom.
  pose proof (no_entry _ _ _ (proj1 Hc) Hf) as Hni.
  assert (Hlk : undo_map s !! (semid, semnum) = None) by by apply emap_lookup_None.
  unfold semundo_adjust_entry. rewrite Hf. destruct (Z.eqb_spec adj 0) as [|_]; [done|].
  destruct ((adj >? semaem si) || (adj <? - semaem si))%bool eqn:Hbad.
  { apply adjust_refused; [done|]. unfold adjust_spec. rewrite Hlk. cbn [default from_option id].
    by rewrite Z.add_0_r, Hbad. }
  assert (Hsz : Z.of_nat (size (undo_map s)) = un_cnt s) by apply (un_ok_table _ _ Hok Hlim).
  destruct (Z.eqb_spec (un_cnt s) (semume si)) as [Hfull|Hfull]; cbn [negb].
  { apply adjust_refused; [done|]. unfold adjust_spec. rewrite Hlk. cbn [default from_option id].
    rewrite Z.add_0_r, Hbad. breflect. zbool. by rewrite bool_decide_eq_true_2. }
  breflect. destruct (aget_is_Some (un_ent s) (un_cnt s)) as [x Hx]; [lia|].
  rewrite Hx. cbn [mbind option_bind]. autorewrite with mach.
  apply (entry_create _ _ _ (mk_undo adj semnum semid)); try done; [|cbn; by rewrite alen_aset].
  unfold entries. cbn [un_cnt un_ent].
  rewrite (entries_last _ (un_cnt s + 1) (mk_undo adj semnum semid));
    [|lia|rewrite Z.add_simpl_r; by apply aget_aset_eq; lia].
  rewrite Z.add_simpl_r. unfold aset. by rewrite take_insert_ge by lia.
Qed.

Lemma adjust_entry_refines si semid semnum adj s :
  un_ok si s -> limits_ok si -> adj <> 0 -> 0 <= semnum < 2 ^ 15 ->
  adjusts si (semid, semnum) adj s (semundo_adjust_entry si semid semnum adj s).
Proof.
  intros Hok Hlim Ha Hnum.
  destruct (find_first (is_entry semid semnum s) 0 (Z.to_nat (un_cnt s))) as [i|] eqn:Hf.
  - destruct (find_first_Some _ _ _ _ Hf) as (Hi & He & _).
    destruct (is_entry_true _ _ _ _ He) as (e & Hg & Hk).
    pose proof (uo_cnt _ _ Hok).
    eapply (adjust_entry_hit _ _ _ _ _ i); try done. lia.
  - by apply adjust_entry_miss.
Qed.

(** ** Preservation by the primitive updates *)

Lemma ranges_aset g i k k' :
  aget (sema g) i = Some k -> krange k' = krange k ->
  ranges (set_sema (aset (sema g) i k') g) = ranges g.
Proof.
  intros Hk Hr. unfold ranges. cbn. rewrite fmap_aset, Hr. apply aset_id. by rewrite aget_fmap, Hk.
Qed.

Section Primitives.
Context (si : seminfo) (L : list Z * Z) (rs : list (option rng)).

Lemma inv_sema_some g i : inv si L rs g -> 0 <= i < semmni si -> is_Some (aget (sema g) i).
Proof.
  intros Hi Hr. apply aget_is_Some. by rewrite (sh_sema _ (iv_shape _ _ _ _ Hi)), (iv_info _ _ _ _ Hi).
Qed.

Lemma inv_pool_some g i : inv si L rs g -> 0 <= i < semmns si -> is_Some (aget (spool g) i).
Proof.
  intros Hi Hr. apply aget_is_Some. by rewrite (sh_pool _ (iv_shape _ _ _ _ Hi)), (iv_info _ _ _ _ Hi).
Qed.

Lemma inv_pool_val g i s : inv si L rs g -> aget (spool g) i = Some s -> 0 <= semval s <= semvmx si.
Proof. intros Hi. apply (Forall_aget _ _ _ _ (iv_vals _ _ _ _ Hi)). Qed.

Lemma inv_lim g : inv si L rs g -> limits_ok si.
Proof. intros Hi. rewrite <-(iv_info _ _ _ _ Hi). apply Hi. Qed.

(** Replacing a set by one with the same range keeps the invariant, up to
    the ownership of its mutex. *)
Lemma inv_set_sema g i k k' :
  inv si L rs g -> aget (sema g) i = Some k -> krange k' = krange k -> 0 <= kmtx k' ->
  inv si (aset L.1 i (kmtx k'), L.2) rs (set_sema (aset (sema g) i k') g).
Proof.
  intros [Hinfo Hs Hrs Hsets Hv Hu Hl Hn] Hk Hr Hm. destruct Hs. constructor; try done.
  - constructor; try done. cbn. by rewrite alen_aset.
  - by rewrite (ranges_aset _ _ k).
  - rewrite <-Hl. unfold lockst. cbn [set_sema sema gmtx fst snd]. f_equal. apply fmap_aset.
  - cbn. split; [|apply Hn]. apply Forall_aset; [apply Hn|done].
Qed.

Lemma inv_lock_get g i k : inv si L rs g -> aget (sema g) i = Some k -> aget L.1 i = Some (kmtx k).
Proof. intros Hi Hk. rewrite <-(iv_locks _ _ _ _ Hi). cbn. by rewrite aget_fmap, Hk. Qed.

Lemma inv_set_sema_same g i k k' :
  inv si L rs g -> aget (sema g) i = Some k -> krange k' = krange k -> kmtx k' = kmtx k ->
  inv si L rs (set_sema (aset (sema g) i k') g).
Proof.
  intros Hi Hk Hr Hm. pose proof (inv_lock_get _ _ _ Hi Hk) as Hg.
  assert (0 <= kmtx k) by apply (Forall_aget _ _ _ _ (proj1 (iv_nonneg _ _ _ _ Hi)) Hg).
  pose proof (inv_set_sema g i k k' Hi Hk Hr ltac:(lia)) as H2.
  rewrite Hm, (aset_id _ _ _ Hg) in H2. by destruct L.
Qed.

Lemma inv_set_spool g i s :
  inv si L rs g -> 0 <= semval s <= semvmx si -> inv si L rs (set_spool (aset (spool g) i s) g).
Proof.
  intros [Hinfo Hs Hrs Hsets Hv Hu Hl Hn] Hval. destruct Hs. constructor; try done.
  - constructor; try done. cbn. by rewrite alen_aset.
  - by apply Forall_aset.
Qed.

Lemma inv_set_gmtx g n : inv si L rs g -> 0 <= n -> inv si (L.1, n) rs (set_gmtx n g).
Proof.
  intros [Hinfo Hs Hrs Hsets Hv Hu Hl Hn] Hn'. destruct Hs. constructor; try done.
  - rewrite <-Hl. done.
  - split; [apply Hn|done].
Qed.

(** Every semaphore of an allocated set lies in the pool. *)
Lemma inv_set_in g i r num :
  inv si L rs g -> aget rs i = Some (Some r) -> 0 <= num < rlen r -> 0 <= rbase r + num < semmns si.
Proof.
  intros Hi Hr Hn. destruct (so_in _ _ (iv_sets _ _ _ _ Hi) i r Hr) as (?&?&?).
  pose proof (sh_tot _ (iv_shape _ _ _ _ Hi)) as Ht. rewrite (iv_info _ _ _ _ Hi) in Ht. lia.
Qed.

Lemma inv_range g i k : inv si L rs g -> aget (sema g) i = Some k -> aget rs i = Some (krange k).
Proof. intros Hi Hk. rewrite <-(iv_ranges _ _ _ _ Hi). unfold ranges. by rewrite aget_fmap, Hk. Qed.
End Primitives.
