(* ===== verification/SysVSemSafe.v ===== *)
(** Safety of the System V semaphores: every call, from any state of the
    invariant, neither faults nor panics, gives back every mutex it took and
    re-establishes the invariant; hence so does every interleaving of calls. *)

From S2P Require Import Prelude.
From S2P Require Import Creds.
From S2P Require Import SysVSem.
From S2P Require Import SysVSemFacts.

(** ** Code that keeps the sets where they are *)

(** [m] keeps the invariant with the same mutexes and ranges on both exits,
    and its result satisfies [R]. *)
Definition safe {A} (si : seminfo) (L : list Z * Z) (rs : list (option rng)) (m : G A) (R : A -> Prop) : Prop :=
  forall g, inv si L rs g -> wp m (fun a g' => R a /\ inv si L rs g') (fun _ => inv si L rs) g.

Section Safe.
Context (si : seminfo) (L : list Z * Z) (rs : list (option rng)).
Notation safe m R := (safe si L rs m R).

Lemma wp_safe {A} (m : G A) (R : A -> Prop) (Q : A -> sysv_sem -> Prop) (E : Z -> sysv_sem -> Prop) g :
  inv si L rs g -> safe m R ->
  (forall a g', R a -> inv si L rs g' -> Q a g') -> (forall e g', inv si L rs g' -> E e g') ->
  wp m Q E g.
Proof. intros Hi Hm HQ HE. eapply wp_conseq; [by apply Hm|intros a g' [??]; eauto|eauto]. Qed.

Lemma safe_ret {A} (a : A) (R : A -> Prop) : R a -> safe (mret a) R.
Proof. intros Ha g Hg. by apply wp_ret. Qed.

Lemma safe_err {A} e (R : A -> Prop) : safe (merr e) R.
Proof. intros g Hg. by apply wp_err. Qed.

Lemma safe_bind {A B} (m : G A) (k : A -> G B) (R1 : A -> Prop) (R2 : B -> Prop) :
  safe m R1 -> (forall a, R1 a -> safe (k a) R2) -> safe (m ≫= k) R2.
Proof.
  intros Hm Hk g Hg. apply wp_bind. eapply wp_conseq; [by apply Hm| |done].
  intros a g' [Ha Hg']. by apply Hk.
Qed.

Lemma safe_weaken {A} (m : G A) (R R' : A -> Prop) : safe m R -> (forall a, R a -> R' a) -> safe m R'.
Proof. intros Hm HR g Hg. eapply wp_conseq; [by apply Hm| |done]. intros a g' [??]. eauto. Qed.

Lemma safe_err_if b e (R : unit -> Prop) : (b = false -> R ()) -> safe (err_if b e) R.
Proof. intros HR g Hg. apply wp_err_if; auto. Qed.

Lemma safe_when b (m : G unit) (R : unit -> Prop) :
  (b = true -> safe m R) -> (b = false -> R ()) -> safe (mwhen b m) R.
Proof. intros Hm HR g Hg. apply wp_when; [intros; by apply Hm|auto]. Qed.

Lemma safe_deref {A} (o : option A) (R : A -> Prop) :
  is_Some o -> (forall a, o = Some a -> R a) -> safe (deref o) R.
Proof. intros Ho HR g Hg. apply wp_deref; auto. Qed.

Lemma safe_for {A} (l : list A) (f : A -> G unit) :
  (forall x, x ∈ l -> safe (f x) (fun _ => True)) -> safe (mfor l f) (fun _ => True).
Proof.
  intros Hf g Hg. eapply wp_conseq; [apply (wp_for l f (inv si L rs) (fun _ => inv si L rs)); [done|]| |done].
  - intros x g' Hx Hg'. eapply wp_conseq; [by apply Hf|intros ? ? [??]; done|done].
  - done.
Qed.

(** *** The primitives *)

Lemma safe_info : safe (gets info) (fun i => i = si).
Proof. intros g Hg. apply wp_gets. split; [apply Hg|done]. Qed.

Lemma safe_get_ds ix :
  0 <= ix < semmni si ->
  safe (get_ds ix) (fun d => forall b n, aget rs ix = Some (krange (mk_semid_kernel d b n))).
Proof.
  intros Hix g Hg. unfold get_ds. wp_steps.
  - by apply (inv_sema_some _ _ _ _ _ Hg).
  - split; [|done]. intros. rewrite (inv_range _ _ _ _ _ _ Hg H). done.
Qed.

Lemma safe_upd_ds ix f :
  0 <= ix < semmni si -> (forall k, krange (set_u f k) = krange k) ->
  safe (upd_ds ix f) (fun _ => True).
Proof.
  intros Hix Hf g Hg. unfold upd_ds. wp_steps.
  - by apply (inv_sema_some _ _ _ _ _ Hg).
  - split; [done|]. by apply (inv_set_sema_same _ _ _ _ _ a).
Qed.

Lemma safe_ev_wakeup ix : 0 <= ix < semmni si -> safe (ev_wakeup ix) (fun _ => True).
Proof.
  intros Hix g Hg. unfold ev_wakeup. wp_steps.
  - by apply (inv_sema_some _ _ _ _ _ Hg).
  - split; [done|]. by apply (inv_set_sema_same _ _ _ _ _ a).
Qed.

Lemma safe_get_sem i :
  0 <= i < semmns si -> safe (get_sem i) (fun s => 0 <= semval s <= semvmx si).
Proof.
  intros Hi g Hg. unfold get_sem. wp_steps.
  - by apply (inv_pool_some _ _ _ _ _ Hg).
  - split; [|done]. by apply (inv_pool_val _ _ _ _ _ _ Hg H).
Qed.

Lemma safe_upd_sem i f :
  0 <= i < semmns si ->
  (forall s, 0 <= semval s <= semvmx si -> 0 <= semval (f s) <= semvmx si) ->
  safe (upd_sem i f) (fun _ => True).
Proof.
  intros Hi Hf g Hg. unfold upd_sem. apply wp_bind.
  eapply (wp_safe _ _ _ _ _ Hg); [by apply safe_get_sem| |done].
  intros s g' Hs Hg'. wp_steps. split; [done|]. apply inv_set_spool; auto.
Qed.

Lemma safe_get_un i :
  0 <= i < semmnu si -> safe (get_un i) (un_ok si).
Proof.
  intros Hi g Hg. unfold get_un. wp_steps.
  - apply aget_is_Some. by rewrite (sh_semu _ (iv_shape _ _ _ _ Hg)), (iv_info _ _ _ _ Hg).
  - split; [|done]. by apply (us_un _ _ _ (iv_undos _ _ _ _ Hg) i).
Qed.
End Safe.

(** ** The undo structures *)

Section Undos.
Context (si : seminfo).

Lemma undos_upd ul u i s s' :
  undos_ok si ul u -> aget u i = Some s -> un_ok si s' -> un_proc s' = un_proc s ->
  undos_ok si ul (aset u i s').
Proof.
  intros [H1 H2 H3 H4 H5] Hi Hs' Hp. pose proof (aget_Some_range _ _ _ Hi).
  constructor; [done| |intros j; rewrite alen_aset; auto| |].
  - intros j t. rewrite aget_aset by done. case_decide; [|apply H2]. subst j. intros [= <-].
    rewrite Hp. by apply H2.
  - intros j t. rewrite aget_aset by done. case_decide; [by intros [= <-]|apply H4].
  - intros j k t v Hj Hk. rewrite !aget_aset by done.
    repeat case_decide; subst; intros; simplify_eq; rewrite ?Hp in *; try done; eauto.
Qed.

(** No active structure belongs to process [p]. *)
Definition absent (ul : list Z) (u : list sem_undo) (p : Z) : Prop :=
  forall i s, i ∈ ul -> aget u i = Some s -> un_proc s <> p.

Lemma undos_take ul u i s s' :
  undos_ok si ul u -> aget u i = Some s -> un_proc s = 0 -> un_ok si s' -> un_proc s' <> 0 ->
  absent ul u (un_proc s') -> undos_ok si (i :: ul) (aset u i s').
Proof.
  intros [H1 H2 H3 H4 H5] Hi Hs Hs' Hp Habs. pose proof (aget_Some_range _ _ _ Hi).
  assert (i ∉ ul) by (rewrite (H2 i s Hi); lia).
  constructor; [by apply NoDup_cons| | | |].
  - intros j t. rewrite aget_aset by done. rewrite elem_of_cons.
    case_decide; [subst; intros [= <-]; naive_solver|]. intros Ht. rewrite (H2 j t Ht). naive_solver.
  - intros j. rewrite alen_aset, elem_of_cons. intros [->|Hj]; [lia|auto].
  - intros j t. rewrite aget_aset by done. case_decide; [by intros [= <-]|apply H4].
  - intros j k t v. rewrite !elem_of_cons, !aget_aset by done.
    intros [->|Hj] [->|Hk]; repeat case_decide; subst; intros; simplify_eq; try done; eauto.
    + by destruct (Habs k v).
    + by destruct (Habs j t).
Qed.

Lemma undos_free ul u i s s' :
  undos_ok si ul u -> aget u i = Some s -> un_ok si s' -> un_proc s' = 0 ->
  undos_ok si (filter (fun j => j <> i) ul) (aset u i s').
Proof.
  intros [H1 H2 H3 H4 H5] Hi Hs' Hp. pose proof (aget_Some_range _ _ _ Hi).
  constructor; [by apply NoDup_filter| | | |].
  - intros j t. rewrite aget_aset by done. rewrite list_elem_of_filter.
    case_decide; [subst; intros [= <-]; naive_solver|]. intros Ht. rewrite <-(H2 j t Ht). naive_solver.
  - intros j. rewrite alen_aset, list_elem_of_filter. intros [_ Hj]; auto.
  - intros j t. rewrite aget_aset by done. case_decide; [by intros [= <-]|apply H4].
  - intros j k t v. rewrite !list_elem_of_filter. intros [? Hj] [? Hk].
    rewrite !aget_aset by done. repeat case_decide; subst; try done. by apply H5.
Qed.

Lemma un_ok_empty s p : un_ok si s -> 0 <= semume si -> un_ok si (mk_sem_undo p 0 (un_ent s)).
Proof. intros [Hc Hr _ _] Hu. constructor; cbn; [lia|done|constructor|apply NoDup_nil_2]. Qed.
End Undos.

(** *** The undo table of a process *)

(** The active structure of process [p]: what [find_un] finds. *)
Definition owner (g : sysv_sem) (p : Z) : option Z :=
  head (filter (fun i => (un_proc <$> aget (semu g) i) = Some p) (semu_list g)).

Definition proc_undo (g : sysv_sem) (p : Z) : gmap (Z * Z) Z :=
  match owner g p ≫= aget (semu g) with Some s => undo_map s | None => ∅ end.

Section Owner.
Context (si : seminfo) (g : sysv_sem) (Hu : undos_ok si (semu_list g) (semu g)).

Lemma owner_Some p i :
  owner g p = Some i -> i ∈ semu_list g /\ exists s, aget (semu g) i = Some s /\ un_proc s = p.
Proof.
  unfold owner. intros [Hp Hi]%head_Some_elem_of%list_elem_of_filter. split; [done|].
  apply fmap_Some in Hp as (s & ? & ?). eauto.
Qed.

Lemma owner_None p : owner g p = None -> absent (semu_list g) (semu g) p.
Proof.
  unfold owner. intros Hn i s Hi Hs Hp. apply head_None in Hn.
  apply (not_elem_of_nil i). rewrite <-Hn. apply list_elem_of_filter. by rewrite Hs, <-Hp.
Qed.

Lemma owner_absent p : absent (semu_list g) (semu g) p -> owner g p = None.
Proof.
  intros Ha. destruct (owner g p) as [i|] eqn:Ho; [|done].
  apply owner_Some in Ho as (Hi & s & Hs & Hp). by destruct (Ha i s).
Qed.

Lemma owner_is p i s :
  i ∈ semu_list g -> aget (semu g) i = Some s -> un_proc s = p -> owner g p = Some i.
Proof.
  intros Hi Hs Hp. destruct (owner g p) as [j|] eqn:Ho.
  - apply owner_Some in Ho as (Hj & t & Ht & Hq). f_equal.
    apply (us_procs _ _ _ Hu j i t s); congruence.
  - by destruct (owner_None _ Ho i s).
Qed.

Lemma proc_undo_is p i s :
  i ∈ semu_list g -> aget (semu g) i = Some s -> un_proc s = p -> proc_undo g p = undo_map s.
Proof. intros Hi Hs Hp. unfold proc_undo. rewrite (owner_is p i s) by done. cbn. by rewrite Hs. Qed.

Lemma proc_undo_absent p : absent (semu_list g) (semu g) p -> proc_undo g p = ∅.
Proof. intros Ha. unfold proc_undo. by rewrite owner_absent. Qed.

(** Every process has a structure or is absent. *)
Lemma proc_undo_cases p :
  (exists i s, i ∈ semu_list g /\ aget (semu g) i = Some s /\ un_proc s = p /\ proc_undo g p = undo_map s)
  \/ (absent (semu_list g) (semu g) p /\ proc_undo g p = ∅).
Proof.
  destruct (owner g p) as [i|] eqn:Ho.
  - apply owner_Some in Ho as (Hi & s & Hs & Hp). left. exists i, s. split_and!; try done.
    by apply (proc_undo_is p i).
  - right. apply owner_None in Ho. split; [done|by apply proc_undo_absent].
Qed.
End Owner.

Lemma inv_new_undos si L rs g g' :
  inv si L rs g -> info g' = info g -> sema g' = sema g -> spool g' = spool g -> gmtx g' = gmtx g ->
  semtot g' = semtot g -> alen (semu g') = alen (semu g) -> undos_ok si (semu_list g') (semu g') ->
  inv si L rs g'.
Proof.
  intros [Hinfo Hs Hrs Hsets Hv Hu Hl Hn] E1 E2 E3 E4 E5 E6 Hu'. destruct Hs.
  constructor; [congruence| | | | |done| |done].
  - constructor; rewrite ?E1, ?E2, ?E3, ?E5, ?E6; done.
  - unfold ranges. by rewrite E2.
  - by rewrite E5.
  - by rewrite E3.
  - unfold lockst. by rewrite E2, E4.
Qed.

Section Undo_code.
Context (si : seminfo) (L : list Z * Z) (rs : list (option rng)).
Context (self : SPMPROCESS) (Hpid : pid self <> 0).
Notation safe m R := (safe si L rs m R).

Lemma inv_semu g i : inv si L rs g -> 0 <= i < semmnu si -> is_Some (aget (semu g) i).
Proof.
  intros Hg Hi. apply aget_is_Some. by rewrite (sh_semu _ (iv_shape _ _ _ _ Hg)), (iv_info _ _ _ _ Hg).
Qed.

(** Reading a structure, computing its new value and storing it. *)
Lemma safe_modify_un {A} i (f : sem_undo -> option (A * sem_undo)) (k : A -> G (A * option Z)) :
  0 <= i < semmnu si ->
  (forall s, un_ok si s -> exists x s', f s = Some (x, s') /\ un_ok si s' /\ un_proc s' = un_proc s) ->
  safe (s ← get_un i; r ← deref (f s); _ ← put_un i (snd r); mret (fst r, Some i))
    (fun r => snd r = Some i).
Proof.
  intros Hi Hf g Hg. unfold put_un, get_un. wp_steps; rewrite ?H.
  - by apply inv_semu.
  - destruct (Hf a) as (x & s' & -> & _); [|done]. by apply (us_un _ _ _ (iv_undos _ _ _ _ Hg) i).
  - done.
  - split; [done|]. destruct (Hf a) as (x & s' & Hr & Hs' & Hp);
      [by apply (us_un _ _ _ (iv_undos _ _ _ _ Hg) i)|].
    simplify_eq. apply (inv_new_undos _ _ _ _ _ Hg); try done; [apply alen_aset|].
    apply (undos_upd _ _ _ _ a); [apply Hg|done..].
Qed.

Definition un_res (r : option Z) : Prop := match r with Some i => 0 <= i < semmnu si | None => True end.

(** The structure [i] becomes the empty structure of the caller. *)
Definition fresh_for (g g' : sysv_sem) (i : Z) : Prop :=
  owner g' (pid self) = Some i /\ 0 <= i < semmnu si /\ spool g' = spool g /\
  forall p, proc_undo g' p = proc_undo g p \/ p = 0.

Lemma take_fresh g g' i s s' :
  undos_ok si (semu_list g) (semu g) -> undos_ok si (semu_list g') (semu g') ->
  absent (semu_list g) (semu g) (pid self) -> aget (semu g) i = Some s -> un_proc s = 0 ->
  semu_list g' = i :: semu_list g -> semu g' = aset (semu g) i s' ->
  un_proc s' = pid self -> un_cnt s' = 0 ->
  owner g' (pid self) = Some i /\ forall p, proc_undo g' p = proc_undo g p \/ p = 0.
Proof.
  intros Hu Hu' Habs Hi Hs El Es Hp Hc. pose proof (aget_Some_range _ _ _ Hi).
  assert (Hni : i ∉ semu_list g) by (rewrite (us_active _ _ _ Hu i s Hi); lia).
  assert (Hi' : aget (semu g') i = Some s') by (rewrite Es; by apply aget_aset_eq).
  assert (Hin : i ∈ semu_list g') by (rewrite El; left).
  split; [by apply (owner_is si _ Hu' _ i s')|]. intros p. left.
  destruct (proc_undo_cases si g Hu p) as [(j & t & Hj & Ht & Hq & ->)|[Ha ->]].
  - apply (proc_undo_is si g' Hu' _ j); [rewrite El; by right| |done].
    rewrite Es, aget_aset_ne; [done|lia|]. intros ->. done.
  - destruct (decide (p = pid self)) as [->|Hne].
    + rewrite (proc_undo_is si g' Hu' _ i s') by done. unfold undo_map, entries. by rewrite Hc.
    + apply proc_undo_absent. intros j t. rewrite El, elem_of_cons. intros [->|Hj].
      * intros Ht. simplify_eq. congruence.
      * rewrite Es, aget_aset_ne; [by apply Ha|lia|]. by intros ->.
Qed.

Lemma semu_take_wp g :
  inv si L rs g -> absent (semu_list g) (semu g) (pid self) ->
  wp (semu_take self) (fun r g' => inv si L rs g' /\
    match r with
    | Some i => fresh_for g g' i
    | None => g' = g /\ forall i s, aget (semu g) i = Some s -> un_proc s <> 0
    end) (fun _ _ => False) g.
Proof.
  intros Hg Habs. unfold semu_take. wp_steps.
  - unfold get_un, put_un, get_un. wp_steps.
    + pose proof (find_first_Some _ _ _ _ Heqo) as (Hz & Hf & _).
      apply (inv_semu g); [done|]. rewrite (iv_info _ _ _ _ Hg) in Hz. lia.
    + cbn. rewrite H. done.
    + pose proof (find_first_Some _ _ _ _ Heqo) as (Hz & Hf & _). unfold is_free_un in Hf.
      rewrite H in Hf. apply Z.eqb_eq in Hf.
      assert (un_ok si a) by by apply (us_un _ _ _ (iv_undos _ _ _ _ Hg) z).
      pose proof (lo_ume _ (inv_lim _ _ _ _ Hg)). rewrite (iv_info _ _ _ _ Hg) in Hz.
      match goal with |- inv _ _ _ ?x /\ _ => set (g' := x) end.
      assert (Hu' : undos_ok si (semu_list g') (semu g')).
      { apply (undos_take _ _ _ _ a); [apply Hg|done|done|apply un_ok_empty; [done|lia]|done..]. }
      split; [apply (inv_new_undos _ _ _ _ _ Hg); try done; apply alen_aset|].
      destruct (take_fresh g g' z a (mk_sem_undo (pid self) 0 (un_ent a))); try done; [apply Hg|].
      split_and!; try done; lia.
  - split_and!; [done|done|]. intros i s Hi.
    pose proof (aget_Some_range _ _ _ Hi) as Hr.
    rewrite (sh_semu _ (iv_shape _ _ _ _ Hg)) in Hr.
    pose proof (find_first_None _ _ _ Heqo i ltac:(lia)) as Hn. unfold is_free_un in Hn.
    rewrite Hi in Hn. by breflect.
Qed.

Lemma free_empty g g' i s s' :
  undos_ok si (semu_list g) (semu g) -> undos_ok si (semu_list g') (semu g') ->
  aget (semu g) i = Some s -> un_cnt s = 0 ->
  semu_list g' = filter (fun j => j <> i) (semu_list g) -> semu g' = aset (semu g) i s' ->
  (forall p, absent (semu_list g) (semu g) p -> absent (semu_list g') (semu g') p) /\
  forall p, proc_undo g' p = proc_undo g p.
Proof.
  intros Hu Hu' Hi Hc El Es. pose proof (aget_Some_range _ _ _ Hi).
  assert (Hother : forall j t, j ∈ semu_list g' -> aget (semu g') j = Some t ->
            j <> i /\ j ∈ semu_list g /\ aget (semu g) j = Some t).
  { intros j t. rewrite El, list_elem_of_filter. intros [Hne Hj].
    rewrite Es, aget_aset_ne; [done|lia|congruence]. }
  split.
  - intros p Ha j t Hj Ht. destruct (Hother j t Hj Ht) as (_&?&?). by apply (Ha j t).
  - intros p. destruct (proc_undo_cases si g Hu p) as [(j & t & Hj & Ht & Hq & ->)|[Ha ->]].
    + destruct (decide (j = i)) as [->|Hne].
      * rewrite proc_undo_absent; [simplify_eq; unfold undo_map, entries; by rewrite Hc|].
        intros k v Hk Hv Hp. destruct (Hother k v Hk Hv) as (Hne & Hk' & Hv').
        apply Hne, (us_procs _ _ _ Hu k i v t); congruence.
      * apply (proc_undo_is si g' Hu' _ j); [rewrite El; by apply list_elem_of_filter| |done].
        by rewrite Es, aget_aset_ne by (lia || congruence).
    + apply proc_undo_absent. intros j t Hj Ht. destruct (Hother j t Hj Ht) as (_&?&?). by apply (Ha j t).
Qed.

Lemma semu_purge_wp g :
  inv si L rs g ->
  wp semu_purge (fun did g' => inv si L rs g' /\ spool g' = spool g /\
    (forall p, absent (semu_list g) (semu g) p -> absent (semu_list g') (semu g') p) /\
    (forall p, proc_undo g' p = proc_undo g p) /\
    (did = true -> exists i s, aget (semu g') i = Some s /\ un_proc s = 0)) (fun _ _ => False) g.
Proof.
  intros Hg. unfold semu_purge. wp_step. wp_step. cbn beta.
  destruct (filter _ (semu_list g)) as [|i l] eqn:Hf; [wp_steps; by split_and!|].
  assert (Hi : i ∈ filter (fun i => is_empty_un g i = true) (semu_list g)) by (rewrite Hf; left).
  apply list_elem_of_filter in Hi as [He Hi].
  pose proof (us_range _ _ _ (iv_undos _ _ _ _ Hg) _ Hi) as Hr.
  unfold put_un, get_un. wp_steps; [by apply aget_is_Some|by rewrite H|].
  unfold is_empty_un in He. rewrite H in He. apply Z.eqb_eq in He.
  assert (un_ok si a) by by apply (us_un _ _ _ (iv_undos _ _ _ _ Hg) i).
  match goal with |- inv _ _ _ ?x /\ _ => set (g' := x) end.
  assert (Hu' : undos_ok si (semu_list g') (semu g')).
  { apply (undos_free _ _ _ _ a); [apply Hg|done| |done]. destruct H1. by constructor. }
  destruct (free_empty g g' i a (mk_sem_undo 0 (un_cnt a) (un_ent a))) as [Ha Hp]; try done; [apply Hg|].
  split_and!; try done.
  - apply (inv_new_undos _ _ _ _ _ Hg); try done. apply alen_aset.
  - intros _. exists i, (mk_sem_undo 0 (un_cnt a) (un_ent a)). split; [|done]. by apply aget_aset_eq.
Qed.

(** The panic of the second attempt is unreachable; without a free or empty
    structure nothing changes but the list. *)
Lemma semu_alloc_wp g :
  inv si L rs g -> absent (semu_list g) (semu g) (pid self) ->
  wp (semu_alloc self) (fun r g' => inv si L rs g' /\
    match r with
    | Some i => fresh_for g g' i
    | None => spool g' = spool g /\ forall p, proc_undo g' p = proc_undo g p
    end) (fun _ _ => False) g.
Proof.
  intros Hg Habs. unfold semu_alloc. apply wp_bind. eapply wp_conseq; [by apply semu_take_wp| |done].
  intros [i|] g1 (Hg1 & Hr); cbn beta iota; [by wp_steps|]. destruct Hr as [-> Hnone].
  apply wp_bind. eapply wp_conseq; [by apply semu_purge_wp| |done].
  intros [] g2 (Hg2 & Hsp & Habs2 & Hpu & Hfree); cbn beta iota; [|by wp_steps].
  apply wp_bind. eapply wp_conseq; [apply semu_take_wp; auto| |done].
  intros [i|] g3 (Hg3 & Hr3); cbn beta iota.
  - wp_steps. split; [done|]. destruct Hr3 as (?&?&?&Hq). split_and!; try done; try lia; [congruence|].
    intros p. rewrite <-Hpu. apply Hq.
  - destruct (Hfree eq_refl) as (i & s & Hi & Hs). destruct Hr3 as [_ Hr3]. by destruct (Hr3 i s Hi).
Qed.

Lemma owner_range g p i : inv si L rs g -> owner g p = Some i -> 0 <= i < semmnu si.
Proof.
  intros Hg (Hi & _)%owner_Some. pose proof (us_range _ _ _ (iv_undos _ _ _ _ Hg) _ Hi) as Hr.
  by rewrite (sh_semu _ (iv_shape _ _ _ _ Hg)), (iv_info _ _ _ _ Hg) in Hr.
Qed.
End Undo_code.

(** ** Taking and releasing the mutexes *)

(** The two states differ in the ownership of the mutexes only. *)
Record same_data (g g' : sysv_sem) : Prop := {
  sd_spool : spool g' = spool g;
  sd_list : semu_list g' = semu_list g;
  sd_semu : semu g' = semu g;
  sd_tot : semtot g' = semtot g;
  sd_ku : ku <$> sema g' = ku <$> sema g
}.

Lemma same_data_undo g g' p : same_data g g' -> proc_undo g' p = proc_undo g p.
Proof. intros [_ H1 H2 _ _]. unfold proc_undo, owner. by rewrite H1, H2. Qed.

Lemma same_data_trans g1 g2 g3 : same_data g1 g2 -> same_data g2 g3 -> same_data g1 g3.
Proof. intros [] []. constructor; congruence. Qed.

Lemma ku_aset l i k k' : aget l i = Some k -> ku k' = ku k -> ku <$> aset l i k' = ku <$> l.
Proof. intros Hk He. rewrite fmap_aset, He. apply aset_id. by rewrite aget_fmap, Hk. Qed.

Definition bump (ix : Z) (L : list Z * Z) : list Z * Z := (aupd L.1 ix (fun n => n + 1), L.2).

Section Locking.
Context (si : seminfo).

Lemma lock_run L rs g ix :
  inv si L rs g -> 0 <= ix < semmni si ->
  exists g1, mtx_lock ix g = Done () g1 /\ inv si (bump ix L) rs g1 /\ same_data g g1.
Proof.
  intros Hg Hix. destruct (inv_sema_some _ _ _ _ ix Hg Hix) as [k Hk].
  pose proof (inv_lock_get _ _ _ _ _ _ Hg Hk) as Hl.
  pose proof (Forall_aget _ _ _ _ (proj1 (iv_nonneg _ _ _ _ Hg)) Hl) as Hpos. cbn in Hpos.
  unfold mtx_lock, mbind, M_bind, gets. rewrite Hk. cbn. eexists. split_and!; [done| |].
  - pose proof (inv_set_sema _ _ _ _ _ _ (set_mtx (kmtx k + 1) k) Hg Hk eq_refl ltac:(cbn; lia)) as H.
    unfold bump. by rewrite (aupd_aset _ _ _ _ Hl).
  - constructor; try done. by apply (ku_aset _ _ k).
Qed.

Lemma unlock_run L rs g ix :
  inv si (bump ix L) rs g -> 0 <= ix < semmni si -> (forall n, aget L.1 ix = Some n -> 0 <= n) ->
  exists g1, mtx_unlock ix g = Done () g1 /\ inv si L rs g1 /\ same_data g g1.
Proof.
  intros Hg Hix Hpos. destruct (inv_sema_some _ _ _ _ ix Hg Hix) as [k Hk].
  pose proof (inv_lock_get _ _ _ _ _ _ Hg Hk) as Hl. unfold bump in Hl. cbn [fst] in Hl.
  rewrite aget_aupd_eq in Hl. apply fmap_Some in Hl as (n & Hn & Hkn). specialize (Hpos n Hn).
  unfold mtx_unlock, mbind, M_bind, gets. rewrite Hk. cbn. zbool. eexists. split_and!; [done| |].
  - pose proof (inv_set_sema _ _ _ _ _ _ (set_mtx (kmtx k - 1) k) Hg Hk eq_refl ltac:(cbn; lia)) as H.
    unfold bump in H. cbn [fst snd kmtx set_mtx] in H.
    rewrite aset_aupd in H by (by eapply aget_Some_range). rewrite Hkn, Z.add_simpl_r in *.
    rewrite (aset_id _ _ _ Hn) in H. by destruct L.
  - constructor; try done. by apply (ku_aset _ _ k).
Qed.

Lemma wp_with_mtx {A} L rs ix (body : G A) Q E g :
  inv si L rs g -> 0 <= ix < semmni si ->
  (forall g1, inv si (bump ix L) rs g1 -> same_data g g1 ->
    wp body
      (fun a g2 => exists rs', inv si (bump ix L) rs' g2 /\
         forall g3, inv si L rs' g3 -> same_data g2 g3 -> Q a g3)
      (fun e g2 => exists rs', inv si (bump ix L) rs' g2 /\
         forall g3, inv si L rs' g3 -> same_data g2 g3 -> E e g3) g1) ->
  wp (with_mtx ix body) Q E g.
Proof.
  intros Hg Hix Hbody. unfold with_mtx.
  assert (Hpos : forall n, aget L.1 ix = Some n -> 0 <= n).
  { intros n Hn. apply (Forall_aget _ _ _ _ (proj1 (iv_nonneg _ _ _ _ Hg)) Hn). }
  destruct (lock_run L rs g ix Hg Hix) as (g1 & Hr & Hg1 & Hsd).
  eapply wp_run_bind; [exact Hr|]. apply wp_finally. eapply wp_conseq; [by apply Hbody| |].
  all: intros ? g2 (rs' & Hg2 & HQ);
    destruct (unlock_run L rs' g2 ix Hg2 Hix Hpos) as (g3 & Hu & Hg3 & Hsd3);
    unfold wp; rewrite Hu; auto.
Qed.

Lemma safe_with_mtx {A} L rs ix (body : G A) (R : A -> Prop) :
  0 <= ix < semmni si -> safe si (bump ix L) rs body R -> safe si L rs (with_mtx ix body) R.
Proof.
  intros Hix Hb g Hg. apply (wp_with_mtx L rs); [done|done|]. intros g1 Hg1 _.
  eapply wp_conseq; [by apply Hb| |].
  - intros a g2 [Ha Hg2]. exists rs. eauto.
  - intros e g2 Hg2. exists rs. eauto.
Qed.

Lemma wp_with_undo {A} L rs (body : G A) Q E g :
  inv si L rs g ->
  (inv si (L.1, L.2 + 1) rs (set_gmtx (gmtx g + 1) g) ->
    wp body
      (fun a g2 => exists rs', inv si (L.1, L.2 + 1) rs' g2 /\
         (inv si L rs' (set_gmtx (gmtx g2 - 1) g2) -> Q a (set_gmtx (gmtx g2 - 1) g2)))
      (fun e g2 => exists rs', inv si (L.1, L.2 + 1) rs' g2 /\
         (inv si L rs' (set_gmtx (gmtx g2 - 1) g2) -> E e (set_gmtx (gmtx g2 - 1) g2)))
      (set_gmtx (gmtx g + 1) g)) ->
  wp (with_undo body) Q E g.
Proof.
  intros Hg Hbody. unfold with_undo, SEMUNDO_LOCK.
  assert (Hgm : gmtx g = L.2) by by rewrite <-(iv_locks _ _ _ _ Hg).
  pose proof (proj2 (iv_nonneg _ _ _ _ Hg)) as Hpos.
  eapply wp_run_bind; [done|]. apply wp_finally. eapply wp_conseq; [apply Hbody| |].
  { rewrite Hgm. apply (inv_set_gmtx _ _ _ _ _ Hg). lia. }
  all: intros a g2 (rs' & Hg2 & HQ);
    assert (Hgm2 : gmtx g2 = L.2 + 1) by exact (f_equal snd (iv_locks _ _ _ _ Hg2));
    unfold wp, SEMUNDO_UNLOCK, mbind, M_bind, gets;
    destruct (Z.leb_spec (gmtx g2) 0); [lia|]; cbn; apply HQ;
    pose proof (inv_set_gmtx _ _ _ _ (gmtx g2 - 1) Hg2 ltac:(lia)) as H2;
    cbn in H2; rewrite Hgm2, Z.add_simpl_r in H2; rewrite Hgm2, Z.add_simpl_r; by destruct L.
Qed.

Lemma safe_with_undo {A} L rs (body : G A) (R : A -> Prop) :
  safe si (L.1, L.2 + 1) rs body R -> safe si L rs (with_undo body) R.
Proof.
  intros Hb g Hg. apply (wp_with_undo L rs); [done|]. intros Hg1.
  eapply wp_conseq; [by apply Hb| |].
  - intros a g2 [Ha Hg2]. exists rs. eauto.
  - intros e g2 Hg2. exists rs. eauto.
Qed.
End Locking.
