(* ===== verification/SysVSemOp.v ===== *)
(** [semop]: what a pass over the request vector does to the pool, that every
    exit but success takes it back exactly, and the same for the undo table. *)

From S2P Require Import Prelude.
From S2P Require Import Creds.
From S2P Require Import SysVSem.
From S2P Require Import SysVSemFacts.
From S2P Require Import SysVSemSafe.

(** ** Shifted pools *)

(** The sum of the requests for semaphore [i]. *)
Fixpoint delta (base : Z) (sops : list sembuf) (i : Z) : Z :=
  match sops with
  | [] => 0
  | sop :: rest => (if base + sem_num sop =? i then sem_op sop else 0) + delta base rest i
  end.

(** [p'] is [p] with [d i] added to value [i], on 16 bits. *)
Record shifted (d : Z -> Z) (p p' : list sem) : Prop := {
  sf_len : alen p' = alen p;
  sf_at : forall i, aget p' i = (fun s => set_semval (u16 (semval s + d i)) s) <$> aget p i
}.

Definition vals16 (p : list sem) : Prop := Forall (fun s => 0 <= semval s < 2 ^ 16) p.

Lemma set_semval_id s : set_semval (semval s) s = s.
Proof. by destruct s. Qed.

Lemma shifted_id p d : vals16 p -> (forall i, d i = 0) -> shifted d p p.
Proof.
  intros Hp Hd. constructor; [done|]. intros i. rewrite Hd.
  destruct (aget p i) as [s|] eqn:Hs; [|done]. cbn. f_equal.
  pose proof (Forall_aget _ _ _ _ Hp Hs). rewrite Z.add_0_r, u16_small, set_semval_id by done. done.
Qed.

Lemma shifted_ext d d' p p' : (forall i, d i = d' i) -> shifted d p p' -> shifted d' p p'.
Proof. intros Hd [H1 H2]. constructor; [done|]. intros i. by rewrite H2, Hd. Qed.

Lemma shifted_step d p p' j s x :
  shifted d p p' -> aget p' j = Some s ->
  shifted (fun i => d i + (if j =? i then x else 0)) p (aset p' j (set_semval (u16 (semval s + x)) s)).
Proof.
  intros [H1 H2] Hj. pose proof (aget_Some_range _ _ _ Hj).
  constructor; [by rewrite alen_aset|]. intros i. rewrite aget_aset by done. case_decide.
  - subst i. rewrite Z.eqb_refl. rewrite H2 in Hj. apply fmap_Some in Hj as (t & Ht & ->).
    rewrite Ht. cbn. f_equal. unfold set_semval. cbn. by rewrite u16_add_l, Z.add_assoc.
  - rewrite (proj2 (Z.eqb_neq j i)) by done. by rewrite Z.add_0_r.
Qed.

Lemma shifted_back d d' p p1 p2 :
  vals16 p -> shifted d p p1 -> shifted d' p1 p2 -> (forall i, d i + d' i = 0) -> p2 = p.
Proof.
  intros Hp [A1 A2] [B1 B2] Hd. apply aget_ext; [congruence|]. intros i _.
  rewrite B2, A2. destruct (aget p i) as [s|] eqn:Hs; [|done]. cbn. f_equal.
  pose proof (Forall_aget _ _ _ _ Hp Hs). unfold set_semval. cbn.
  rewrite u16_add_l. replace (semval s + d i + d' i) with (semval s) by (specialize (Hd i); lia).
  rewrite u16_small by done. by destruct s.
Qed.

Lemma shifted_trans d d' p p1 p2 : shifted d p p1 -> shifted d' p1 p2 -> shifted (fun i => d i + d' i) p p2.
Proof.
  intros [A1 A2] [B1 B2]. constructor; [congruence|]. intros i. rewrite B2, A2.
  destruct (aget p i) as [s|]; [|done]. cbn. f_equal. unfold set_semval. cbn.
  by rewrite u16_add_l, Z.add_assoc.
Qed.

Lemma shifted_one p j s x :
  vals16 p -> aget p j = Some s ->
  shifted (fun i => if j =? i then x else 0) p (aset p j (set_semval (u16 (semval s + x)) s)).
Proof. intros Hp Hs. apply (shifted_step (fun _ => 0) p p); [by apply shifted_id|done]. Qed.

Lemma inv_vals16 si L rs g : inv si L rs g -> vals16 (spool g).
Proof.
  intros Hg. pose proof (lo_vmx _ (inv_lim _ _ _ _ Hg)).
  eapply Forall_impl; [apply Hg|]. cbn. intros; lia.
Qed.

Lemma delta_app base l1 l2 i : delta base (l1 ++ l2) i = delta base l1 i + delta base l2 i.
Proof. induction l1 as [|x l IH]; cbn; [done|]. rewrite IH. lia. Qed.

(** ** The pass and the rollback *)

Lemma get_sem_run g i s : aget (spool g) i = Some s -> get_sem i g = Done s g.
Proof. intros Hs. unfold get_sem. rewrite (run_bind _ _ _ (Some s) g); [done|]. unfold gets. by rewrite Hs. Qed.

Lemma upd_sem_run g i f s :
  aget (spool g) i = Some s -> upd_sem i f g = Done () (set_spool (aset (spool g) i (f s)) g).
Proof. intros Hs. unfold upd_sem. by rewrite (run_bind _ _ _ _ _ (get_sem_run g i s Hs)). Qed.

Lemma if_same {A} (b : bool) (x : A) : (if b then x else x) = x.
Proof. by destruct b. Qed.

Lemma set_spool_id g : set_spool (spool g) g = g.
Proof. by destruct g. Qed.

Section Vector.
Context (si : seminfo) (L : list Z * Z) (rs : list (option rng)) (base n : Z).
(** The semaphores [base .. base + n - 1] are in the pool. *)
Context (Hbase : 0 <= base) (Hn : base + n <= semmns si).

Definition nums_ok (sops : list sembuf) : Prop := Forall (fun sop => 0 <= sem_num sop < n) sops.

Lemma rollback_run sops p g d :
  alen (spool g) = semmns si -> nums_ok sops -> vals16 p -> shifted d p (spool g) ->
  exists p', semop_rollback base sops g = Done () (set_spool p' g) /\
    shifted (fun i => d i - delta base sops i) p p'.
Proof.
  intros Hlen Hnums Hp. revert g Hlen d. induction Hnums as [|sop sops Hx Hnums IH]; intros g Hlen d Hd.
  - exists (spool g). split; [by destruct g|]. eapply shifted_ext; [|done]. intros; cbn; lia.
  - destruct (aget_is_Some (spool g) (base + sem_num sop)) as [s Hs]; [lia|].
    pose proof (shifted_step _ _ _ _ _ (- sem_op sop) Hd Hs) as Hd1.
    set (p1 := aset _ _ _) in Hd1.
    destruct (IH (set_spool p1 g)) with
      (d := fun i => d i + (if base + sem_num sop =? i then - sem_op sop else 0)) as (p' & Hr & Hs').
    + unfold p1. cbn. by rewrite alen_aset.
    + exact Hd1.
    + exists p'. split; [|eapply shifted_ext; [|exact Hs']; intros i; cbn; destruct (_ =? i); lia].
      unfold semop_rollback. cbn [mfor]. rewrite (run_bind _ _ _ _ _ (upd_sem_run _ _ _ _ Hs)). exact Hr.
Qed.

(** Adding [d] does not leave the range of the values. *)
Definition in_range (d : Z -> Z) (p : list sem) : Prop :=
  forall i s, aget p i = Some s -> 0 <= semval s + d i <= semvmx si.

(** The outcome of one pass: what was applied; the value of every semaphore
    stays in range, so nothing wraps. *)
Definition pass_post (sops : list sembuf) (i : Z) (g : sysv_sem) (o : outcome sysv_sem pass_result) : Prop :=
  exists r p', o = Done r (set_spool p' g) /\ inv si L rs (set_spool p' g) /\
    match r with
    | PassAll _ => shifted (delta base sops) (spool g) p' /\ in_range (delta base sops) (spool g)
    | PassStop j e => i <= j < i + alen sops /\ (e = 0 \/ e = ERANGE) /\
        shifted (delta base (take (Z.to_nat (j - i)) sops)) (spool g) p'
    end.

Lemma pass_stop sops i g e :
  inv si L rs g -> sops <> [] -> e = 0 \/ e = ERANGE -> pass_post sops i g (Done (PassStop i e) g).
Proof.
  intros Hg Hne He. exists (PassStop i e), (spool g).
  split_and!; [by destruct g|by destruct g|lia| |done|].
  - destruct sops; [done|]. unfold alen. cbn. lia.
  - rewrite Z.sub_diag. apply shifted_id; [by eapply inv_vals16|done].
Qed.

Lemma pass_step sop sops i g p1 o :
  let d := fun j => if base + sem_num sop =? j then sem_op sop else 0 in
  limits_ok si -> shifted d (spool g) p1 -> in_range d (spool g) ->
  pass_post sops (i + 1) (set_spool p1 g) o -> pass_post (sop :: sops) i g o.
Proof.
  intros d Hlim Hp1 Hd (r & p' & Ho & Hi & Hr). pose proof (lo_vmx _ Hlim).
  exists r, p'. split_and!; [done|done|]. destruct r as [w|j e].
  - destruct Hr as [Hs Hin]. split.
    + eapply shifted_ext; [|apply (shifted_trans _ _ _ _ _ Hp1 Hs)]. done.
    + intros k s Hk. pose proof (Hd k s Hk). specialize (Hin k (set_semval (semval s + d k) s)).
      cbn [delta]. fold (d k). rewrite Z.add_assoc. apply Hin. cbn [spool set_spool].
      rewrite (sf_at _ _ _ Hp1), Hk. cbn. by rewrite u16_small by lia.
  - destruct Hr as (Hj & He & Hs). split_and!; [lia|unfold alen in *; cbn; lia|done|].
    replace (Z.to_nat (j - i)) with (S (Z.to_nat (j - (i + 1)))) by lia.
    eapply shifted_ext; [|apply (shifted_trans _ _ _ _ _ Hp1 Hs)]. done.
Qed.

Lemma pass_run sops g i w :
  inv si L rs g -> nums_ok sops -> pass_post sops i g (semop_pass si base sops i w g).
Proof.
  intros Hg Hnums. revert g i w Hg. induction Hnums as [|sop sops Hx Hnums IH]; intros g i w Hg.
  { exists (PassAll w), (spool g). split_and!; [by destruct g|by destruct g| |].
    - apply shifted_id; [by eapply inv_vals16|done].
    - intros j s Hs. cbn. rewrite Z.add_0_r. by apply (inv_pool_val _ _ _ _ _ _ Hg Hs). }
  destruct (inv_pool_some _ _ _ _ (base + sem_num sop) Hg) as [s Hs]; [lia|].
  pose proof (inv_pool_val _ _ _ _ _ _ Hg Hs) as Hval. pose proof (lo_vmx _ (inv_lim _ _ _ _ Hg)).
  pose proof (inv_vals16 _ _ _ _ Hg) as Hv16.
  cbn [semop_pass]. rewrite (run_bind _ _ _ _ _ (get_sem_run _ _ _ Hs)).
  assert (Hgo : forall w1, 0 <= semval s + sem_op sop <= semvmx si ->
    pass_post (sop :: sops) i g
      ((upd_sem (base + sem_num sop) (set_semval (u16 (semval s + sem_op sop)));;
        semop_pass si base sops (i + 1) w1) g)).
  { intros w1 Hr. rewrite (run_bind _ _ _ _ _ (upd_sem_run _ _ _ _ Hs)).
    eapply pass_step; [by eapply inv_lim|by apply shifted_one| |].
    - intros j t Ht. destruct (Z.eqb_spec (base + sem_num sop) j) as [<-|]; [by simplify_eq|].
      rewrite Z.add_0_r. by apply (inv_pool_val _ _ _ _ _ _ Hg Ht).
    - apply IH. apply inv_set_spool; [done|]. cbn. rewrite u16_small; lia. }
  destruct (Z.ltb_spec (sem_op sop) 0).
  - destruct (Z.ltb_spec (semval s + sem_op sop) 0); [apply pass_stop; auto|apply Hgo; lia].
  - destruct (Z.eqb_spec (sem_op sop) 0) as [Hz|].
    + destruct (Z.eqb_spec (semval s) 0); cbn [negb]; [|apply pass_stop; auto].
      eapply (pass_step _ _ _ _ (spool g)); [by eapply inv_lim| | |rewrite set_spool_id; by apply IH].
      { apply shifted_id; [done|]. intros j. rewrite Hz. by destruct (_ =? _). }
      intros j t Ht. rewrite Hz, (if_same (_ =? _)), Z.add_0_r. by apply (inv_pool_val _ _ _ _ _ _ Hg Ht).
    + rewrite Z.gtb_ltb. destruct (Z.ltb_spec (semvmx si) (semval s + sem_op sop)); [apply pass_stop; auto|].
      apply Hgo. lia.
Qed.
End Vector.

(** ** Undo adjustments *)

Section Undo_ops.
Context (si : seminfo) (L : list Z * Z) (rs : list (option rng)).
Context (self : SPMPROCESS) (Hpid : pid self <> 0).

(** Nothing but the undo table of the caller changes. *)
Definition frame (g g' : sysv_sem) : Prop :=
  inv si L rs g' /\ spool g' = spool g /\
  forall p, p <> pid self -> p <> 0 -> proc_undo g' p = proc_undo g p.

Lemma frame_refl g : inv si L rs g -> frame g g.
Proof. done. Qed.

Lemma frame_trans g1 g2 g3 : frame g1 g2 -> frame g2 g3 -> frame g1 g3.
Proof.
  intros (A1 & A2 & A3) (B1 & B2 & B3). split_and!; [done|congruence|].
  intros p Hp Hp0. rewrite B3, A3; done.
Qed.

(** The body of [semundo_adjust] once the structure is known. *)
Definition adjust_at (si : seminfo) (semid semnum adj i : Z) : G (Z * option Z) :=
  s ← get_un i;
  r ← deref (semundo_adjust_entry si semid semnum adj s);
  _ ← put_un i (snd r);
  mret (fst r, Some i).

Lemma run_adjust_at semid semnum adj i g s e s' :
  aget (semu g) i = Some s -> semundo_adjust_entry si semid semnum adj s = Some (e, s') ->
  adjust_at si semid semnum adj i g = Done (e, Some i) (set_semu (aset (semu g) i s') g).
Proof.
  intros Hs Hr. unfold adjust_at, put_un, get_un, mbind, M_bind, gets. by rewrite Hs; cbn; rewrite Hr; cbn; rewrite Hs.
Qed.

(** The result of an adjustment that found or made a structure. *)
Definition adjusted (semid semnum adj : Z) (g : sysv_sem) (r : Z * option Z) (g' : sysv_sem) : Prop :=
  frame g g' /\ snd r = owner g' (pid self) /\ owner g' (pid self) <> None /\
  adjust_spec si (proc_undo g (pid self)) (semid, semnum) adj = (fst r, proc_undo g' (pid self)).

Lemma adjust_at_wp g i semid semnum adj :
  inv si L rs g -> owner g (pid self) = Some i -> adj <> 0 -> 0 <= semnum < 2 ^ 15 ->
  wp (adjust_at si semid semnum adj i) (adjusted semid semnum adj g) (fun _ _ => False) g.
Proof.
  intros Hg Ho Ha Hnum.
  destruct (owner_Some _ _ _ Ho) as (Hi & s & Hs & Hp).
  pose proof (us_un _ _ _ (iv_undos _ _ _ _ Hg) i s Hs) as Hok.
  destruct (adjust_entry_refines si semid semnum adj s Hok (inv_lim _ _ _ _ Hg) Ha Hnum)
    as (e & s' & Hr & Hok' & Hp' & Hlen & Hspec).
  unfold wp. rewrite (run_adjust_at _ _ _ _ _ _ _ _ Hs Hr).
  pose proof (iv_undos _ _ _ _ Hg) as Hu.
  set (g' := set_semu (aset (semu g) i s') g).
  assert (Hu' : undos_ok si (semu_list g') (semu g')) by by apply (undos_upd _ _ _ _ s).
  assert (Hi' : aget (semu g') i = Some s') by (apply aget_aset_eq; by eapply aget_Some_range).
  assert (Hps : un_proc s' = pid self) by congruence.
  assert (Ho' : owner g' (pid self) = Some i) by by apply (owner_is si g' Hu' _ i s').
  split_and!; [|by cbn|congruence|].
  - split_and!; [by apply (inv_new_undos _ _ _ _ _ Hg); try done; apply alen_aset|done|].
    intros p Hpp Hp0. pose proof (aget_Some_range _ _ _ Hs).
    destruct (proc_undo_cases si g Hu p) as [(j & t & Hj & Ht & Hq & ->)|[Hab ->]].
    + apply (proc_undo_is si g' Hu' _ j); [done| |done]. cbn. rewrite aget_aset_ne; [done|lia|].
      intros ->. congruence.
    + apply proc_undo_absent. intros j t Hj Ht. cbn in Hj, Ht.
      rewrite aget_aset in Ht by done. case_decide; simplify_eq; [congruence|]. by apply (Hab j).
  - rewrite (proc_undo_is si g Hu _ i s), (proc_undo_is si g' Hu' _ i s') by done. exact Hspec.
Qed.

(** [semundo_adjust] with no structure given or with the right one. *)
Lemma semundo_adjust_wp g sup semid semnum adj :
  inv si L rs g -> sup = None \/ sup = owner g (pid self) -> adj <> 0 -> 0 <= semnum < 2 ^ 15 ->
  wp (semundo_adjust self sup semid semnum adj) (fun r g' =>
    adjusted semid semnum adj g r g' \/
    r = (ENOSPC, None) /\ frame g g' /\ owner g (pid self) = None /\
      proc_undo g' (pid self) = proc_undo g (pid self)) (fun _ _ => False) g.
Proof.
  intros Hg Hsup Ha Hnum. unfold semundo_adjust.
  apply (wp_run_bind _ _ _ _ _ (owner g (pid self)) g).
  { destruct Hsup as [->| ->]; [done|]. destruct (owner g (pid self)) eqn:Ho; [done|by rewrite <-Ho]. }
  apply (wp_run_bind _ _ _ _ _ g g); [done|]. rewrite (iv_info _ _ _ _ Hg).
  destruct (owner g (pid self)) as [i|] eqn:Ho.
  { eapply wp_conseq; [by apply adjust_at_wp|auto|done]. }
  zbool. apply wp_bind. eapply wp_conseq; [apply semu_alloc_wp; [done..|by apply owner_None]| |done].
  intros [i|] g1 (Hg1 & Hr); cbn beta iota.
  - destruct Hr as (Ho1 & _ & Hsp & Hpu).
    assert (Hf : frame g g1) by (split_and!; [done..|]; intros p Hp Hp0; by destruct (Hpu p)).
    assert (Hme : proc_undo g1 (pid self) = proc_undo g (pid self)) by by destruct (Hpu (pid self)).
    eapply wp_conseq; [by apply adjust_at_wp| |done].
    intros r g2 (Hf2 & Hsn & Hne & Hspec). left.
    split_and!; [by apply (frame_trans _ g1)|apply Hf2..|done|done|congruence].
  - destruct Hr as [Hsp Hpu]. wp_steps. right. split_and!; done.
Qed.

Definition wants_undo (sop : sembuf) : bool :=
  has_bits (sem_flg sop) SEM_UNDO && negb (sem_op sop =? 0).

(** The table after the requests [sops], or the error of the first one that
    is refused. *)
Fixpoint undo_all (semid : Z) (sops : list sembuf) (m : gmap (Z * Z) Z) : Z * gmap (Z * Z) Z :=
  match sops with
  | [] => (0, m)
  | sop :: rest =>
      if wants_undo sop then
        let r := adjust_spec si m (semid, sem_num sop) (- sem_op sop) in
        if fst r =? 0 then undo_all semid rest (snd r) else r
      else undo_all semid rest m
  end.

(** [done], last one first, was applied to [m0] and gave [m]. *)
Inductive applied (semid : Z) (m0 : gmap (Z * Z) Z) : list sembuf -> gmap (Z * Z) Z -> Prop :=
  | applied_nil : applied semid m0 [] m0
  | applied_skip sop done m : wants_undo sop = false -> applied semid m0 done m ->
      applied semid m0 (sop :: done) m
  | applied_adjust sop done m m' : wants_undo sop = true -> applied semid m0 done m ->
      adjust_spec si m (semid, sem_num sop) (- sem_op sop) = (0, m') ->
      applied semid m0 (sop :: done) m'.

Lemma wants_undo_nonzero sop : wants_undo sop = true -> sem_op sop <> 0.
Proof. unfold wants_undo. intros H. by breflect. Qed.

Lemma proc_undo_ok g p : inv si L rs g -> p <> 0 -> table_ok si (proc_undo g p).
Proof.
  intros Hg Hp. pose proof (inv_lim _ _ _ _ Hg) as Hlim. pose proof (lo_ume _ Hlim).
  destruct (proc_undo_cases si g (iv_undos _ _ _ _ Hg) p) as [(j & t & Hj & Ht & Hq & ->)|[Hab ->]].
  - apply un_ok_table; [|done]. by apply (us_un _ _ _ (iv_undos _ _ _ _ Hg) j).
  - split; [apply map_Forall_empty|]. rewrite map_size_empty. lia.
Qed.

Lemma applied_undoes semid m0 done m :
  applied semid m0 done m -> table_ok si m0 -> table_ok si m.
Proof.
  induction 1 as [|sop done m Hw Happ IH|sop done m m' Hw Happ IH Hspec]; auto.
  intros Hm0. eapply adjust_spec_undo; [by apply IH| |done].
  apply wants_undo_nonzero in Hw. lia.
Qed.

(** Rolling back is always accepted (no "can't undo undos" panic) and gives
    the first table back. *)
Lemma undo_rollback_wp semid m0 done g sup :
  inv si L rs g -> applied semid m0 done (proc_undo g (pid self)) -> table_ok si m0 ->
  Forall (fun sop => 0 <= sem_num sop < 2 ^ 15) done ->
  sup = None \/ sup = owner g (pid self) ->
  owner g (pid self) <> None \/ Forall (fun sop => wants_undo sop = false) done ->
  wp (semop_undo_rollback self sup semid done)
    (fun _ g' => frame g g' /\ proc_undo g' (pid self) = m0) (fun _ _ => False) g.
Proof.
  intros Hg Happ Hm0. remember (proc_undo g (pid self)) as m eqn:Hm. revert g sup Hg Hm.
  induction Happ as [|sop done m Hw Happ IH|sop done m m' Hw Happ IH Hspec];
    intros g sup Hg Hm Hnum Hsup Hown; cbn [semop_undo_rollback].
  - wp_steps. by split.
  - inversion Hnum; subst. fold (wants_undo sop). rewrite Hw. apply IH; try done.
    destruct Hown as [?|Hall]; [by left|right; by inversion Hall].
  - inversion Hnum; subst. fold (wants_undo sop). rewrite Hw.
    pose proof (wants_undo_nonzero _ Hw) as Hnz.
    destruct Hown as [Hown|Hall]; [|inversion Hall; congruence].
    destruct (adjust_spec_undo si m (semid, sem_num sop) (- sem_op sop) (proc_undo g (pid self)))
      as [Hback _]; [by eapply applied_undoes|lia|done|].
    rewrite Z.opp_involutive in Hback.
    apply wp_bind. eapply wp_conseq; [by apply semundo_adjust_wp| |done].
    intros r g1 [(Hf & Hsn & Hne & Hr)|(_ & _ & Hno & _)]; [|done].
    rewrite Hback in Hr. injection Hr as Hr1 Hr2. rewrite <-Hr1. zbool.
    eapply wp_conseq; [apply IH; [apply Hf|done|done|by right|by left]| |done].
    intros [] g2 [Hf2 Hp2]. split; [by apply (frame_trans _ g1)|done].
Qed.

(** The failure exit of the undo commit: the table is the first one, the pool
    has the whole vector taken off. *)
Definition undos_failed (m0 : gmap (Z * Z) Z) (base : Z) (sops : list sembuf) (g g' : sysv_sem) : Prop :=
  exists g1 p', frame g g1 /\ proc_undo g1 (pid self) = m0 /\ g' = set_spool p' g1 /\
    shifted (fun i => - delta base sops i) (spool g) p'.

Lemma undos_failed_frame m0 base sops g g1 g' :
  frame g g1 -> undos_failed m0 base sops g1 g' -> undos_failed m0 base sops g g'.
Proof.
  intros Hf (g3 & p' & Hf3 & Hp3 & -> & Hs). exists g3, p'.
  split_and!; [by apply (frame_trans _ g1)|done|done|]. destruct Hf as (_ & Hsp & _). by rewrite <-Hsp.
Qed.

Context (n base semid : Z) (m0 : gmap (Z * Z) Z).
Context (Hb : 0 <= base) (Hbn : base + n <= semmns si) (Hn : n <= 2 ^ 15) (Hm0 : table_ok si m0).

Lemma undos_fail_wp e done rest g sup :
  inv si L rs g -> applied semid m0 done (proc_undo g (pid self)) -> e <> 0 ->
  nums_ok n done -> nums_ok n rest ->
  sup = None \/ sup = owner g (pid self) ->
  owner g (pid self) <> None \/ Forall (fun sop => wants_undo sop = false) done ->
  wp (_ ← semop_undo_rollback self sup semid done;
      _ ← semop_rollback base (reverse done ++ rest); merr e)
    (fun (_ : unit) _ => False) (fun e g' => e <> 0 /\ undos_failed m0 base (reverse done ++ rest) g g') g.
Proof.
  intros Hg Happ He Hd Hr Hsup Hown.
  apply wp_bind. eapply wp_conseq; [eapply undo_rollback_wp; try done| |done].
  { eapply Forall_impl; [exact Hd|]. cbn. intros; lia. }
  intros [] g2 [Hf2 Hp2].
  destruct (rollback_run si base n Hb Hbn (reverse done ++ rest) (spool g) g2 (fun _ => 0))
    as (p' & Hrun & Hs).
  - by rewrite (sh_pool _ (iv_shape _ _ _ _ (proj1 Hf2))), (iv_info _ _ _ _ (proj1 Hf2)).
  - apply Forall_app. split; [by apply Forall_reverse|done].
  - by eapply inv_vals16.
  - destruct Hf2 as (_ & -> & _). apply shifted_id; [by eapply inv_vals16|done].
  - eapply wp_run_bind; [exact Hrun|]. wp_steps. split; [done|]. exists g2, p'.
    split_and!; [done..|]. eapply shifted_ext; [|exact Hs]. done.
Qed.

(** What the adjustment of one request leaves for the rest of the loop. *)
Lemma adjust_refused_frame semnum adj r g g1 done :
  adjusted semid semnum adj g r g1 \/
    r = (ENOSPC, None) /\ frame g g1 /\ owner g (pid self) = None /\
      proc_undo g1 (pid self) = proc_undo g (pid self) ->
  fst r <> 0 ->
  owner g (pid self) <> None \/ Forall (fun sop => wants_undo sop = false) done ->
  frame g g1 /\ (snd r = None \/ snd r = owner g1 (pid self)) /\
  proc_undo g1 (pid self) = proc_undo g (pid self) /\
  (owner g1 (pid self) <> None \/ Forall (fun sop => wants_undo sop = false) done).
Proof.
  intros [(Hf & Hsn & Ho & Hspec)|(-> & Hf & Ho & Hp)] Hne Hown.
  - split_and!; [done|by right| |by left]. unfold adjust_spec in Hspec.
    repeat case_match; simplify_eq; by cbn in *.
  - split_and!; [done|by left|done|]. right. by destruct Hown.
Qed.

Lemma semop_undos_wp rest done g sup :
  inv si L rs g -> applied semid m0 done (proc_undo g (pid self)) ->
  nums_ok n done -> nums_ok n rest ->
  sup = None \/ sup = owner g (pid self) ->
  owner g (pid self) <> None \/ Forall (fun sop => wants_undo sop = false) done ->
  wp (semop_undos self sup semid base done rest)
    (fun _ g' => frame g g' /\
      undo_all semid rest (proc_undo g (pid self)) = (0, proc_undo g' (pid self)))
    (fun e g' => e <> 0 /\ undos_failed m0 base (reverse done ++ rest) g g') g.
Proof.
  intros Hg Happ Hd Hr. revert done g sup Hg Happ Hd.
  induction Hr as [|sop rest Hx Hr IH]; intros done g sup Hg Happ Hd Hsup Hown;
    cbn [semop_undos undo_all]; [by wp_steps|].
  assert (Hd' : nums_ok n (sop :: done)) by by constructor.
  assert (Hrev : reverse (sop :: done) ++ rest = reverse done ++ sop :: rest)
    by by rewrite reverse_cons, <-app_assoc.
  fold (wants_undo sop). destruct (wants_undo sop) eqn:Hw.
  2:{ rewrite <-Hrev. apply (IH (sop :: done)); try done; [by apply applied_skip|].
      destruct Hown; [by left|right; by constructor]. }
  pose proof (wants_undo_nonzero _ Hw) as Hnz.
  apply wp_bind. eapply wp_conseq; [apply semundo_adjust_wp; [done|done|lia|lia]| |done].
  intros r g1 Hr1. destruct (Z.eqb_spec (fst r) 0) as [H0|Hne].
  - destruct Hr1 as [(Hf & Hsn & Hne & Hspec)|(-> & _)]; [|done].
    rewrite Hspec, H0. cbn [fst snd]. zbool. rewrite <-Hrev.
    eapply wp_conseq; [apply (IH (sop :: done)); [apply Hf| |done|by right|by left]| |].
    + eapply applied_adjust; [done|done|]. by rewrite Hspec, H0.
    + intros [] g2 [Hf2 Hall]. split; [by apply (frame_trans _ g1)|done].
    + intros e g2 (He & Hfail). split; [done|by eapply undos_failed_frame].
  - destruct (adjust_refused_frame _ _ _ _ _ _ Hr1 Hne Hown) as (Hf & Hsup1 & Hp1 & Hown1).
    eapply wp_conseq; [apply undos_fail_wp; try done| |].
    + apply Hf.
    + by rewrite Hp1.
    + by constructor.
    + done.
    + intros e g2 (He & Hfail). split; [done|by eapply undos_failed_frame].
Qed.
End Undo_ops.

(** ** The commit and one turn of the loop *)

Definition vals (g : sysv_sem) : list Z := semval <$> spool g.

(** Neither a value nor an undo table differs. *)
Definition unchanged (g g' : sysv_sem) : Prop :=
  vals g' = vals g /\ forall p, p <> 0 -> proc_undo g' p = proc_undo g p.

Lemma unchanged_trans g1 g2 g3 : unchanged g1 g2 -> unchanged g2 g3 -> unchanged g1 g3.
Proof. intros [A1 A2] [B1 B2]. split; [congruence|]. intros p Hp. rewrite B2, A2; done. Qed.

Lemma same_data_unchanged g g' : same_data g g' -> unchanged g g'.
Proof.
  intros Hs. split; [unfold vals; by rewrite (sd_spool _ _ Hs)|]. intros. by apply same_data_undo.
Qed.

Lemma inv_set_pool si L rs g p :
  inv si L rs g -> vals_ok (semvmx si) p -> alen p = alen (spool g) -> inv si L rs (set_spool p g).
Proof.
  intros [Hinfo Hs Hrs Hsets Hv Hu Hl Hn] Hp Hlen. destruct Hs. constructor; try done.
  constructor; try done. cbn. congruence.
Qed.

Lemma vals_aset_same p i (f : sem -> sem) s :
  aget p i = Some s -> semval (f s) = semval s -> semval <$> aset p i (f s) = semval <$> p.
Proof. intros Hs Hf. rewrite fmap_aset, Hf. apply aset_id. by rewrite aget_fmap, Hs. Qed.

(** One [upd_sem] that leaves the value alone. *)
Lemma upd_sem_unchanged si L rs g i f :
  inv si L rs g -> 0 <= i < semmns si -> (forall s, semval (f s) = semval s) ->
  wp (upd_sem i f) (fun _ g' => inv si L rs g' /\ unchanged g g') (fun _ _ => False) g.
Proof.
  intros Hg Hi Hf. destruct (inv_pool_some _ _ _ _ _ Hg Hi) as [s Hs].
  unfold wp. rewrite (upd_sem_run _ _ _ _ Hs). split.
  - apply inv_set_spool; [done|]. rewrite Hf. by apply (inv_pool_val _ _ _ _ _ _ Hg Hs).
  - split; [|done]. by apply vals_aset_same.
Qed.

Lemma upd_ds_unchanged si L rs g ix f :
  inv si L rs g -> 0 <= ix < semmni si -> (forall k, krange (set_u f k) = krange k) ->
  wp (upd_ds ix f) (fun _ g' => inv si L rs g' /\ unchanged g g') (fun _ _ => False) g.
Proof.
  intros Hg Hi Hf. destruct (inv_sema_some _ _ _ _ _ Hg Hi) as [k Hk].
  unfold upd_ds. eapply wp_run_bind; [done|]. rewrite Hk. cbn. unfold wp, mbind, M_bind. cbn.
  split; [by apply (inv_set_sema_same _ _ _ _ _ k)|done].
Qed.

Lemma ev_wakeup_unchanged si L rs g ix :
  inv si L rs g -> 0 <= ix < semmni si ->
  wp (ev_wakeup ix) (fun _ g' => inv si L rs g' /\ unchanged g g') (fun _ _ => False) g.
Proof.
  intros Hg Hi. destruct (inv_sema_some _ _ _ _ _ Hg Hi) as [k Hk].
  unfold ev_wakeup. eapply wp_run_bind; [done|]. rewrite Hk. cbn. unfold wp, mbind, M_bind. cbn.
  split; [by apply (inv_set_sema_same _ _ _ _ _ k)|done].
Qed.

Lemma counter_upd_val z f s : semval (counter_upd z f s) = semval s.
Proof. by destruct z. Qed.

Section Attempt.
Context (si : seminfo) (L : list Z * Z) (rs : list (option rng)).
Context (self : SPMPROCESS) (Hpid : pid self <> 0).
Context (semid : Z) (r : rng) (Hix : 0 <= semid < semmni si) (Hr : aget rs semid = Some (Some r)).

(** The table of the caller after a successful call; the others keep theirs. *)
Definition undo_done (du : bool) (sops : list sembuf) (g g' : sysv_sem) : Prop :=
  (forall p, p <> pid self -> p <> 0 -> proc_undo g' p = proc_undo g p) /\
  (if du then undo_all si semid sops (proc_undo g (pid self)) = (0, proc_undo g' (pid self))
   else proc_undo g' (pid self) = proc_undo g (pid self)).

Lemma undo_done_unchanged du sops g g1 g2 :
  undo_done du sops g g1 -> unchanged g1 g2 -> undo_done du sops g g2.
Proof.
  intros [H1 H2] [_ Hp]. split; [intros p ? ?; rewrite Hp; auto|].
  destruct du; by rewrite Hp.
Qed.

Lemma set_bounds g : inv si L rs g -> 0 <= rbase r /\ rbase r + rlen r <= semmns si /\ rlen r <= 2 ^ 15.
Proof.
  intros Hg. destruct (so_in _ _ (iv_sets _ _ _ _ Hg) _ _ Hr) as (?&?&?).
  pose proof (sh_tot _ (iv_shape _ _ _ _ Hg)) as Ht. rewrite (iv_info _ _ _ _ Hg) in Ht.
  pose proof (lo_mns _ (inv_lim _ _ _ _ Hg)). lia.
Qed.

(** The SEM_UNDO part of the commit; [p0] is the pool before the pass. *)
Lemma commit_undos_wp sops g p0 :
  inv si L rs g -> nums_ok (rlen r) sops -> vals_ok (semvmx si) p0 -> alen p0 = alen (spool g) ->
  shifted (delta (rbase r) sops) p0 (spool g) ->
  wp (with_undo (semop_undos self None semid (rbase r) [] sops))
    (fun _ g' => inv si L rs g' /\ vals g' = vals g /\ undo_done true sops g g')
    (fun e g' => e <> 0 /\ inv si L rs g' /\ spool g' = p0 /\
      forall p, p <> 0 -> proc_undo g' p = proc_undo g p) g.
Proof.
  intros Hg Hnums Hp0 Hlen Hsh. destruct (set_bounds g Hg) as (Hb1 & Hb2 & Hb3).
  apply (wp_with_undo si L rs); [done|]. intros Hg1.
  eapply wp_conseq; [apply (semop_undos_wp si (L.1, L.2 + 1) rs self Hpid (rlen r) (rbase r) semid
    (proc_undo g (pid self)) Hb1 Hb2 Hb3)| |]; try done.
  - by apply (proc_undo_ok _ _ _ _ _ Hg).
  - constructor.
  - constructor.
  - by left.
  - by right.
  - intros [] g2 [(Hg2 & Hsp & Hoth) Hall]. exists rs. split; [done|]. intros Hg3.
    split_and!; [done|unfold vals; cbn; by rewrite Hsp|]. split; [exact Hoth|exact Hall].
  - intros e g2 (He & g3 & p' & (Hg3 & Hsp & Hoth) & Hown & -> & Hs). exists rs.
    assert (Hv : vals16 p0).
    { eapply Forall_impl; [exact Hp0|]. cbn. pose proof (lo_vmx _ (inv_lim _ _ _ _ Hg)). intros; lia. }
    assert (Hp' : p' = p0).
    { eapply (shifted_back _ _ _ _ _ Hv Hsh); [exact Hs|]. intros i. cbn. lia. }
    subst p'. split; [apply inv_set_pool; [done|done|by rewrite Hsp]|]. intros Hg4.
    split_and!; [done|done|done|]. intros p Hp. destruct (decide (p = pid self)) as [->|]; [exact Hown|by apply Hoth].
Qed.

(** What follows the undo part leaves values and tables alone. *)
Lemma commit_rest_wp sops now dw g :
  inv si L rs g -> nums_ok (rlen r) sops ->
  wp (_ ← mfor sops (fun sop => upd_sem (rbase r + sem_num sop) (set_sempid (pid self)));
      _ ← upd_ds semid (set_otime now);
      mwhen dw (ev_wakeup semid))
    (fun _ g' => inv si L rs g' /\ unchanged g g') (fun _ _ => False) g.
Proof.
  intros Hg Hnums. destruct (set_bounds g Hg) as (Hb1 & Hb2 & Hb3).
  apply wp_bind. eapply wp_conseq; [apply (wp_for _ _ (fun g' => inv si L rs g' /\ unchanged g g')
    (fun _ _ => False)); [done|]| |done].
  - intros sop g1 Hin [Hg1 Hu1]. eapply Forall_forall in Hnums; [|done].
    eapply wp_conseq; [apply (upd_sem_unchanged _ _ _ _ _ _ Hg1); [lia|done]| |done].
    intros [] g2 [Hg2 Hu2]. split; [done|by eapply unchanged_trans].
  - intros [] g1 [Hg1 Hu1]. apply wp_bind.
    eapply wp_conseq; [apply (upd_ds_unchanged _ _ _ _ _ _ Hg1); done| |done].
    intros [] g2 [Hg2 Hu2]. apply wp_when; intros _.
    + eapply wp_conseq; [by apply (ev_wakeup_unchanged _ _ _ _ _ Hg2)| |done].
      intros [] g3 [Hg3 Hu3]. split; [done|]. by do 2 (eapply unchanged_trans; [done|]).
    + split; [done|by eapply unchanged_trans].
Qed.

Lemma commit_wp sops now du dw g p0 :
  inv si L rs g -> nums_ok (rlen r) sops -> vals_ok (semvmx si) p0 -> alen p0 = alen (spool g) ->
  shifted (delta (rbase r) sops) p0 (spool g) ->
  wp (semop_commit self now semid (rbase r) sops du dw)
    (fun _ g' => inv si L rs g' /\ vals g' = vals g /\ undo_done du sops g g')
    (fun e g' => e <> 0 /\ inv si L rs g' /\ spool g' = p0 /\
      forall p, p <> 0 -> proc_undo g' p = proc_undo g p) g.
Proof.
  intros Hg Hnums Hp0 Hlen Hsh. unfold semop_commit. apply wp_bind.
  eapply (wp_conseq _ (fun _ g' => inv si L rs g' /\ vals g' = vals g /\ undo_done du sops g g')); [| |].
  - apply wp_when; intros ->; [by apply commit_undos_wp|]. by split_and!.
  - intros [] g1 (Hg1 & Hv1 & Hu1). eapply wp_conseq; [by apply commit_rest_wp| |done].
    intros [] g2 (Hg2 & Hu2). split_and!; [done|destruct Hu2; congruence|by eapply undo_done_unchanged].
  - done.
Qed.

(** All requests were applied at once: every value of the pool moved by the
    sum of the requests for it, without wrapping. *)
Definition vector_done (sops : list sembuf) (g g' : sysv_sem) : Prop :=
  forall i v, aget (vals g) i = Some v -> aget (vals g') i = Some (v + delta (rbase r) sops i).

Lemma shifted_vector sops g p' :
  limits_ok si -> shifted (delta (rbase r) sops) (spool g) p' ->
  in_range si (delta (rbase r) sops) (spool g) -> vector_done sops g (set_spool p' g).
Proof.
  intros Hlim [_ Hs] Hin i v. unfold vals. rewrite !aget_fmap. cbn. rewrite Hs.
  destruct (aget (spool g) i) as [s|] eqn:Hg; [|done]. cbn. intros [= <-].
  pose proof (Hin i s Hg). pose proof (lo_vmx _ Hlim). by rewrite u16_small by lia.
Qed.

Definition sleeper_ok (semid_in : Z) (sops : list sembuf) (sl : sleeper) : Prop :=
  0 <= sl_idx sl < semmns si /\ sl_sops sl = sops /\ sl_semid_in sl = semid_in.

Definition attempt_post (semid_in : Z) (sops : list sembuf) (du : bool) (g : sysv_sem)
    (res : semop_res) (g' : sysv_sem) : Prop :=
  inv si L rs g' /\
  match res with
  | SemDone => vector_done sops g g' /\ undo_done du sops g g'
  | SemSleep sl => unchanged g g' /\ sleeper_ok semid_in sops sl
  end.

Lemma attempt_stop_wp semid_in sops du j e g p' :
  inv si L rs g -> nums_ok (rlen r) sops -> 0 <= j < alen sops ->
  shifted (delta (rbase r) (take (Z.to_nat j) sops)) (spool g) p' ->
  wp (_ ← semop_rollback (rbase r) (take (Z.to_nat j) sops);
      _ ← err_if (negb (e =? 0)) e;
      sop ← deref (aget sops j);
      _ ← err_if (has_bits (sem_flg sop) IPC_NOWAIT) EAGAIN;
      _ ← upd_sem (rbase r + sem_num sop) (counter_upd (sem_op sop =? 0) (fun n => n + 1));
      mret (SemSleep (mk_sleeper semid_in sops du (rbase r + sem_num sop) (sem_op sop =? 0))))
    (attempt_post semid_in sops du g) (fun e g' => e <> 0 /\ g' = g) (set_spool p' g).
Proof.
  intros Hg Hnums Hj Hs. destruct (set_bounds g Hg) as (Hb1 & Hb2 & Hb3).
  assert (Hlen : alen p' = semmns si).
  { by rewrite (sf_len _ _ _ Hs), (sh_pool _ (iv_shape _ _ _ _ Hg)), (iv_info _ _ _ _ Hg). }
  pose proof (inv_vals16 _ _ _ _ Hg) as Hv.
  destruct (rollback_run si (rbase r) (rlen r) Hb1 Hb2 (take (Z.to_nat j) sops) (spool g) (set_spool p' g)
    (delta (rbase r) (take (Z.to_nat j) sops))) as (p2 & Hrun & Hs2); try done.
  { by apply Forall_take. }
  assert (p2 = spool g).
  { eapply (shifted_back (fun _ => 0)); [done|by apply shifted_id|exact Hs2|]. intros i. cbn. lia. }
  subst p2. eapply wp_run_bind; [exact Hrun|]. change (set_spool (spool g) (set_spool p' g)) with
    (set_spool (spool g) g). rewrite set_spool_id.
  destruct (aget_is_Some sops j Hj) as [sop Hsop].
  apply wp_bind, wp_err_if; intros He; [by breflect|].
  apply wp_bind. rewrite Hsop. apply wp_ret. apply wp_bind, wp_err_if; [done|]. intros _.
  pose proof (Forall_aget _ _ _ _ Hnums Hsop) as Hnum. cbn in Hnum.
  apply wp_bind. eapply wp_conseq; [apply (upd_sem_unchanged _ _ _ _ _ _ Hg); [lia|]| |done].
  - apply counter_upd_val.
  - intros [] g1 [Hg1 Hu1]. apply wp_ret. split; [done|]. split; [done|].
    split_and!; try done; cbn; lia.
Qed.

Lemma attempt_wp now semid_in sops du g :
  inv si L rs g -> nums_ok (rlen r) sops -> IPCID_TO_IX semid_in = semid ->
  wp (semop_attempt self now semid_in sops du) (attempt_post semid_in sops du g)
    (fun e g' => e <> 0 /\ inv si L rs g' /\ unchanged g g') g.
Proof.
  intros Hg Hnums Hid. destruct (set_bounds g Hg) as (Hb1 & Hb2 & Hb3).
  unfold semop_attempt. rewrite Hid.
  eapply wp_run_bind; [done|]. rewrite (iv_info _ _ _ _ Hg).
  destruct (inv_sema_some _ _ _ _ _ Hg Hix) as [k Hk].
  pose proof (inv_range _ _ _ _ _ _ Hg Hk) as Hkr. rewrite Hr in Hkr. injection Hkr as Hkr.
  assert (Hbase : sem_base (ku k) = rbase r).
  { unfold krange in Hkr. destruct (kalloc k); [|done]. by injection Hkr as ->. }
  apply (wp_run_bind _ _ _ _ _ (ku k) g).
  { unfold get_ds, mbind, M_bind, gets. by rewrite Hk. }
  rewrite Hbase.
  destruct (pass_run si L rs (rbase r) (rlen r) Hb1 Hb2 sops g 0 false Hg Hnums) as (res & p' & Hrun & Hi & Hres).
  eapply wp_run_bind; [exact Hrun|]. destruct res as [dw|j e]; cbn iota beta.
  - destruct Hres as [Hs Hin]. apply wp_bind.
    eapply wp_conseq; [apply (commit_wp _ _ _ _ _ (spool g) Hi); try done; [apply Hg|symmetry; apply Hs]| |].
    + intros [] g1 (Hg1 & Hv1 & Hu1). apply wp_ret. split; [done|]. split; [|exact Hu1].
      intros i v Hv. rewrite Hv1. by eapply shifted_vector; [by eapply inv_lim|..].
    + intros e g1 (He & Hg1 & Hsp & Hu1). split; [done|]. split; [done|].
      split; [unfold vals; by rewrite Hsp|done].
  - destruct Hres as (Hj & He & Hs). rewrite Z.sub_0_r in Hs.
    eapply wp_conseq; [apply (attempt_stop_wp semid_in sops du j e g p'); [done|done|lia|done]|done|].
    intros e' g1 (He' & ->). by split_and!.
Qed.
End Attempt.

(** ** The two entry points *)

Lemma scan_run nsems sops j du (g : sysv_sem) :
  (exists j', semop_scan nsems sops j du g = Done (j', du || existsb wants_undo sops) g /\
     Forall (fun sop => sem_num sop < nsems) sops)
  \/ semop_scan nsems sops j du g = Err EFBIG g.
Proof.
  revert j du. induction sops as [|sop sops IH]; intros j du; cbn.
  { left. exists j. by rewrite orb_false_r. }
  unfold mbind, M_bind. rewrite Z.geb_leb. destruct (Z.leb_spec nsems (sem_num sop)); cbn; [by right|].
  destruct (IH (Z.lor j (if sem_op sop =? 0 then SEM_R else SEM_A))
    (du || has_bits (sem_flg sop) SEM_UNDO && negb (sem_op sop =? 0))) as [(j' & Hs & Hf)|Hs].
  - left. exists j'. split; [|by constructor]. rewrite Hs. by rewrite <-orb_assoc.
  - by right.
Qed.

Lemma krange_fields k r :
  krange k = Some r -> sem_base (ku k) = rbase r /\ sem_nsems (ku k) = rlen r /\
    perm_seq (sem_perm (ku k)) = rseq r /\ kalloc k = true.
Proof. unfold krange. destruct (kalloc k); [|done]. by intros [= <-]. Qed.

Lemma kalloc_krange k : kalloc k = true -> exists r, krange k = Some r.
Proof. unfold krange. intros ->. eauto. Qed.

Lemma get_ds_run g ix k : aget (sema g) ix = Some k -> get_ds ix g = Done (ku k) g.
Proof. intros Hk. unfold get_ds, mbind, M_bind, gets. by rewrite Hk. Qed.

Section Entry.
Context (si : seminfo) (rs : list (option rng)) (self : SPMPROCESS) (Hpid : pid self <> 0).

(** What a turn of [semop] may do to the block: apply the whole vector, or
    nothing. *)
Definition turn_post (L : list Z * Z) (semid_in : Z) (sops : list sembuf) (du : bool) (g : sysv_sem)
    (res : semop_res) (g' : sysv_sem) : Prop :=
  exists r, aget rs (IPCID_TO_IX semid_in) = Some (Some r) /\ rseq r = IPCID_TO_SEQ semid_in /\
    nums_ok (rlen r) sops /\ attempt_post si L rs self (IPCID_TO_IX semid_in) r semid_in sops du g res g'.

Definition turn_err (L : list Z * Z) (g : sysv_sem) (e : Z) (g' : sysv_sem) : Prop :=
  e <> 0 /\ inv si L rs g' /\ unchanged g g'.

Lemma turn_unlock L ix semid_in sops du g g1 res g2 :
  same_data g g1 -> turn_post (bump ix L) semid_in sops du g1 res g2 ->
  exists rs', inv si (bump ix L) rs' g2 /\
    forall g3, inv si L rs' g3 -> same_data g2 g3 -> turn_post L semid_in sops du g res g3.
Proof.
  intros Hsd (r & Hr & Hseq & Hnums & Hg2 & Hres). exists rs. split; [done|]. intros g3 Hg3 Hsd3.
  exists r. do 3 (split; [done|]). split; [done|].
  pose proof (same_data_unchanged _ _ Hsd) as Hu1. pose proof (same_data_unchanged _ _ Hsd3) as Hu3.
  destruct res as [|sl].
  - destruct Hres as [Hv Hu]. split.
    + intros i v. destruct Hu1 as [Hv1 _], Hu3 as [Hv3 _]. rewrite <-Hv1, Hv3. apply Hv.
    + eapply undo_done_unchanged; [done| |exact Hu3]. destruct Hu as [H1 H2], Hu1 as [_ Hp1].
      split; [intros p ??; rewrite H1, Hp1; done|]. rewrite <-(Hp1 (pid self)) by done. done.
  - destruct Hres as [Hu Hsl]. split; [|done].
    eapply unchanged_trans; [exact Hu1|]. by eapply unchanged_trans.
Qed.

Lemma err_unlock L ix g g1 e g2 :
  same_data g g1 -> turn_err (bump ix L) g1 e g2 ->
  exists rs', inv si (bump ix L) rs' g2 /\
    forall g3, inv si L rs' g3 -> same_data g2 g3 -> turn_err L g e g3.
Proof.
  intros Hsd (He & Hg2 & Hu). exists rs. split; [done|]. intros g3 Hg3 Hsd3.
  split; [done|]. split; [done|]. eapply unchanged_trans; [by apply same_data_unchanged|].
  eapply unchanged_trans; [done|]. by apply same_data_unchanged.
Qed.

Lemma turn_err_now L g e : inv si L rs g -> e <> 0 -> turn_err L g e g.
Proof. by intros. Qed.

Lemma semop_enter_wp L rclk now semid_in sops g :
  inv si L rs g -> Forall (fun sop => 0 <= sem_num sop) sops ->
  wp (semop_enter rclk self now semid_in sops)
    (turn_post L semid_in sops (existsb wants_undo sops) g) (turn_err L g) g.
Proof.
  intros Hg Hpos. unfold semop_enter. eapply wp_run_bind; [done|]. rewrite (iv_info _ _ _ _ Hg).
  destruct (_ || _)%bool eqn:Hix; [by apply wp_err, turn_err_now|]. breflect.
  destruct (_ && _)%bool; [by apply wp_err, turn_err_now|].
  destruct (negb (rclk =? 0)) eqn:Hrc; [apply wp_err, turn_err_now; [done|breflect; lia]|].
  apply (wp_with_mtx si L rs); [done|lia|]. intros g1 Hg1 Hsd.
  destruct (inv_sema_some _ _ _ _ (IPCID_TO_IX semid_in) Hg1 ltac:(lia)) as [k Hk].
  eapply wp_conseq with (Q := turn_post (bump _ L) semid_in sops (existsb wants_undo sops) g1)
    (E := turn_err (bump (IPCID_TO_IX semid_in) L) g1);
    [|intros; by eapply turn_unlock|intros; by eapply err_unlock].
  eapply wp_run_bind; [by apply get_ds_run|]. fold (kalloc k).
  apply wp_bind, wp_err_if; intros Ha; [by apply turn_err_now|]. apply negb_false_iff in Ha.
  apply wp_bind, wp_err_if; intros Hseq; [by apply turn_err_now|].
  destruct (kalloc_krange k Ha) as [r Hkr]. destruct (krange_fields _ _ Hkr) as (Hb & Hn & Hsq & _).
  pose proof (inv_range _ _ _ _ _ _ Hg1 Hk) as Hr. rewrite Hkr in Hr.
  destruct (scan_run (sem_nsems (ku k)) sops 0 false g1) as [(j & Hrun & Hlt)|Herr].
  - eapply wp_run_bind; [exact Hrun|]. apply wp_bind, wp_err_if; intros He.
    { apply turn_err_now; [done|]. by breflect. }
    assert (Hnums : nums_ok (rlen r) sops).
    { apply Forall_forall. intros x Hx. rewrite Forall_forall in Hlt, Hpos. rewrite <-Hn.
      specialize (Hlt x Hx). specialize (Hpos x Hx). lia. }
    eapply wp_conseq; [by eapply (attempt_wp si _ rs self Hpid _ r); try done; lia| |done].
    intros res g2 Hpost. exists r. breflect. split_and!; try done; [congruence|apply Hpost..].
  - unfold wp, mbind, M_bind. rewrite Herr. by apply turn_err_now.
Qed.

(** A sleeper is harmless: its counter lies in the pool and, if its set is
    still the one it went to sleep on, its requests fit the set. *)
Definition sl_ok (rs : list (option rng)) (sl : sleeper) : Prop :=
  0 <= sl_idx sl < semmns si /\ 0 <= IPCID_TO_IX (sl_semid_in sl) < semmni si /\
  forall r, aget rs (IPCID_TO_IX (sl_semid_in sl)) = Some (Some r) ->
    rseq r = IPCID_TO_SEQ (sl_semid_in sl) -> nums_ok (rlen r) (sl_sops sl).

Lemma SleepDone_wp L a ix idx z g :
  inv si L rs g -> 0 <= ix < semmni si -> 0 <= idx < semmns si ->
  wp (SleepDone a ix idx z) (fun _ g' => inv si L rs g' /\ unchanged g g') (fun _ _ => False) g.
Proof.
  intros Hg Hix Hidx. unfold SleepDone.
  destruct (inv_sema_some _ _ _ _ _ Hg Hix) as [k Hk].
  eapply wp_run_bind; [by apply get_ds_run|]. destruct (_ || _)%bool; [by wp_steps|].
  apply (upd_sem_unchanged _ _ _ _ _ _ Hg); [done|]. apply counter_upd_val.
Qed.

Lemma semop_resume_wp L evrc now sl g :
  inv si L rs g -> sl_ok rs sl ->
  wp (semop_resume evrc self now sl)
    (turn_post L (sl_semid_in sl) (sl_sops sl) (sl_do_undos sl) g) (turn_err L g) g.
Proof.
  intros Hg (Hidx & Hix & Hnums). unfold semop_resume.
  apply (wp_with_mtx si L rs); [done|lia|]. intros g1 Hg1 Hsd.
  eapply wp_conseq with (Q := turn_post (bump _ L) _ _ _ g1)
    (E := turn_err (bump (IPCID_TO_IX (sl_semid_in sl)) L) g1);
    [|intros; by eapply turn_unlock|intros; by eapply err_unlock].
  apply wp_bind. eapply wp_conseq; [by apply SleepDone_wp| |done]. intros [] g2 [Hg2 Hu2].
  destruct (inv_sema_some _ _ _ _ _ Hg2 Hix) as [k Hk].
  eapply wp_run_bind; [by apply get_ds_run|]. fold (kalloc k).
  apply wp_bind, wp_err_if; intros Ha; [by split_and!|].
  apply orb_false_iff in Ha as [Ha Hseq]. apply negb_false_iff in Ha, Hseq. apply Z.eqb_eq in Hseq.
  apply wp_bind, wp_err_if; intros Hev; [by split_and!|].
  destruct (kalloc_krange k Ha) as [r Hkr]. destruct (krange_fields _ _ Hkr) as (Hb & Hn & Hsq & _).
  pose proof (inv_range _ _ _ _ _ _ Hg2 Hk) as Hr. rewrite Hkr in Hr.
  assert (Hseq' : rseq r = IPCID_TO_SEQ (sl_semid_in sl)) by congruence.
  eapply wp_conseq; [eapply (attempt_wp si _ rs self Hpid _ r); try done; by apply Hnums| |].
  - intros res g3 Hpost. exists r. do 3 (split; [by auto|]). destruct Hpost as [Hg3 Hres].
    split; [done|]. destruct res as [|s'].
    + destruct Hres as [Hv [Hu Hown]]. destruct Hu2 as [Hv2 Hp2]. split.
      * intros i v. rewrite <-Hv2. apply Hv.
      * split; [intros p ??; rewrite Hu, Hp2; done|]. by rewrite <-(Hp2 (pid self)).
    + destruct Hres as [Hu Hsl]. split; [|done]. by eapply unchanged_trans.
  - intros e g3 (He & Hg3 & Hu3). split; [done|]. split; [done|]. by eapply unchanged_trans.
Qed.
End Entry.
