(* ===== verification/SysVSemCtl.v ===== *)
(** [semctl] and [semget]: the purge of the undo entries of a set, the commands
    that keep the sets in place, the removal with its compaction of the pool,
    and the creation of a set. *)

From S2P Require Import Prelude.
From S2P Require Import Creds.
From S2P Require Import SysVSem.
From S2P Require Import SysVSemFacts.
From S2P Require Import SysVSemSafe.
From S2P Require Import SysVSemOp.

(** ** [semundo_clear] on one structure *)

(** [s'] is [s] without entries of set [semid]. *)
Record cleared (semid : Z) (s s' : sem_undo) : Prop := {
  cl_proc : un_proc s' = un_proc s;
  cl_len : alen (un_ent s') = alen (un_ent s);
  cl_cnt : 0 <= un_cnt s' <= un_cnt s;
  cl_del : exists del, entries s ≡ₚ del ++ entries s' /\ Forall (fun e => un_id e = semid) del
}.

Lemma cleared_refl semid s : 0 <= un_cnt s -> cleared semid s s.
Proof. intros. constructor; [done|done|lia|]. by exists []. Qed.

Lemma cleared_step semid s s1 s' e :
  entries s ≡ₚ e :: entries s1 -> un_id e = semid -> un_proc s1 = un_proc s ->
  alen (un_ent s1) = alen (un_ent s) -> un_cnt s1 <= un_cnt s -> cleared semid s1 s' -> cleared semid s s'.
Proof.
  intros Hp He Hproc Hlen Hcnt [H1 H2 H3 (del & H4 & H5)]. constructor; [congruence|congruence|lia|].
  exists (e :: del). split; [by rewrite Hp, H4|by constructor].
Qed.

Definition clean_below (semid i : Z) (s : sem_undo) : Prop :=
  forall j e, 0 <= j < i -> aget (un_ent s) j = Some e -> un_id e <> semid.

Lemma clean_entries semid i s :
  0 <= un_cnt s <= i -> clean_below semid i s -> Forall (fun e => un_id e <> semid) (entries s).
Proof.
  intros Hc Hb. apply Forall_forall. intros e He.
  apply entries_elem in He as (j & Hj & He); [|lia]. apply (Hb j); [lia|done].
Qed.

Lemma clear_loop_spec fuel semid semnum i s :
  un_cnt s - i <= Z.of_nat fuel -> 0 <= i -> 0 <= un_cnt s <= alen (un_ent s) -> un_cnt s < 2 ^ 15 ->
  (semnum = -1 -> clean_below semid i s) ->
  exists s', semundo_clear_loop fuel semid semnum i s = Some s' /\ cleared semid s s' /\
    (semnum = -1 -> Forall (fun e => un_id e <> semid) (entries s')).
Proof.
  revert i s. induction fuel as [|fuel IH]; intros i s Hf Hi Hc Hmax Hb; cbn [semundo_clear_loop].
  { exists s. split; [done|]. split; [apply cleared_refl; lia|].
    intros Hn. apply (clean_entries semid i); [lia|auto]. }
  destruct (Z.ltb_spec i (un_cnt s)) as [Hlt|Hge]; cbn [negb].
  2:{ exists s. split; [done|]. split; [apply cleared_refl; lia|].
      intros Hn. apply (clean_entries semid i); [lia|auto]. }
  destruct (aget_is_Some (un_ent s) i) as [e He]; [lia|]. rewrite He. cbn [mbind option_bind].
  assert (Hnext : (semnum = -1 -> un_id e <> semid) ->
    exists s', semundo_clear_loop fuel semid semnum (i + 1) s = Some s' /\ cleared semid s s' /\
    (semnum = -1 -> Forall (fun e => un_id e <> semid) (entries s'))).
  { intros Hne. apply IH; [lia|lia|done|done|]. intros Hn j e' Hj He'.
    destruct (decide (j = i)) as [->|]; [simplify_eq; auto|]. apply (Hb Hn j); [lia|done]. }
  destruct (Z.eqb_spec (un_id e) semid) as [Hid|Hid]; [|auto].
  destruct (_ || _)%bool eqn:Hdel.
  2:{ apply orb_false_iff in Hdel as [Hn _]. apply Z.eqb_neq in Hn. zbool.
      exists s. split; [done|]. split; [apply cleared_refl; lia|done]. }
  autorewrite with mach. destruct (Z.ltb_spec i (un_cnt s - 1)) as [Hlt1|Hge1].
  - destruct (aget_is_Some (un_ent s) (un_cnt s - 1)) as [l Hl]; [lia|]. rewrite Hl. cbn [mbind option_bind].
    set (s1 := mk_sem_undo (un_proc s) (un_cnt s - 1) (aset (un_ent s) i l)).
    destruct (IH i s1) as (s' & Hs' & Hcl & Hall); cbn; rewrite ?alen_aset; try lia.
    { intros Hn j e' Hj. cbn. rewrite aget_aset_ne by lia. by apply (Hb Hn). }
    exists s'. split; [done|]. split; [|done].
    apply (cleared_step _ s s1 _ e); [by apply entries_swap|done|done|apply alen_aset|cbn; lia|done].
  - assert (Hi' : i = un_cnt s - 1) by lia. set (s1 := mk_sem_undo (un_proc s) (un_cnt s - 1) (un_ent s)).
    assert (Hp : entries s ≡ₚ e :: entries s1) by (apply entries_last; [lia|by rewrite <-Hi']).
    assert (Hfin : forall s', cleared semid s1 s' -> cleared semid s s').
    { intros s' Hs'. apply (cleared_step _ _ s1 _ e); try done. cbn. lia. }
    destruct (Z.eqb_spec semnum (-1)) as [Hn|Hn]; cbn [negb].
    + assert (Hs1 : semundo_clear_loop fuel semid semnum (i + 1) s1 = Some s1).
      { destruct fuel; [done|]. cbn. zbool. done. }
      rewrite Hs1. exists s1. split; [done|]. split; [apply Hfin, cleared_refl; cbn; lia|].
      intros _. apply (clean_entries semid i); [cbn; lia|]. by apply Hb.
    + exists s1. split; [done|]. split; [apply Hfin, cleared_refl; cbn; lia|done].
Qed.

Lemma cleared_ok si semid s s' : un_ok si s -> cleared semid s s' -> un_ok si s'.
Proof.
  intros [Hc Hr Ha Hk] [H1 H2 H3 (del & Hp & Hd)]. constructor; [lia|lia| |].
  - rewrite Hp in Ha. by apply Forall_app in Ha as [_ Ha].
  - rewrite Hp, fmap_app in Hk. by apply NoDup_app in Hk as (_ & _ & Hk).
Qed.

(** With -1 the table loses exactly the entries of the set. *)
Lemma cleared_map si semid s s' :
  un_ok si s -> cleared semid s s' -> Forall (fun e => un_id e <> semid) (entries s') ->
  undo_map s' = filter (fun kv => kv.1.1 <> semid) (undo_map s).
Proof.
  intros Hok Hcl Hall. pose proof (cleared_ok _ _ _ _ Hok Hcl) as Hok'.
  destruct Hcl as [H1 H2 H3 (del & Hp & Hd)]. apply map_eq. intros [id num].
  apply option_eq. intros v. rewrite map_lookup_filter_Some. cbn.
  assert (Hin : forall t, un_ok si t -> undo_map t !! (id, num) = Some v <->
    exists e, e ∈ entries t /\ ekey e = (id, num) /\ un_adjval e = v).
  { intros t Ht. unfold undo_map, emap. rewrite <-elem_of_list_to_map by (rewrite fst_pairs; apply Ht).
    rewrite list_elem_of_fmap. split; [intros (e & [= -> -> ->] & He); eauto|].
    intros (e & He & Hk & <-). exists e. by rewrite <-Hk. }
  rewrite !Hin by done. setoid_rewrite Hp. rewrite Forall_forall in Hall, Hd.
  unfold ekey. split.
  - intros (e & He & Hk & Hv). split; [exists e; rewrite elem_of_app; eauto|].
    injection Hk as <- _. by apply Hall.
  - intros [(e & [He|He]%elem_of_app & Hk & Hv) Hne]; [|by exists e].
    injection Hk as <- _. by destruct (Hne (Hd e He)).
Qed.

(** ** [semundo_clear] *)

(** Nothing but the entries of the undo structures differs. *)
Record same_but_undo (g g' : sysv_sem) : Prop := {
  su_sema : sema g' = sema g;
  su_pool : spool g' = spool g;
  su_tot : semtot g' = semtot g;
  su_list : semu_list g' = semu_list g
}.

Section Clear.
Context (si : seminfo) (L : list Z * Z) (rs : list (option rng)).

(** Structure [i] after the purge. *)
Definition purged (semid semnum : Z) (l : list Z) (g g' : sysv_sem) : Prop :=
  forall i s, aget (semu g) i = Some s -> exists s', aget (semu g') i = Some s' /\
    cleared semid s s' /\
    (i ∈ l -> semnum = -1 -> Forall (fun e => un_id e <> semid) (entries s')) /\ (i ∉ l -> s' = s).

Lemma put_un_inv g i s s' :
  inv si L rs g -> aget (semu g) i = Some s -> un_ok si s' -> un_proc s' = un_proc s ->
  put_un i s' g = Done () (set_semu (aset (semu g) i s') g) /\
  inv si L rs (set_semu (aset (semu g) i s') g).
Proof.
  intros Hg Hs Hok Hp. split.
  - unfold put_un, get_un, mbind, M_bind, gets. by rewrite Hs.
  - apply (inv_new_undos _ _ _ _ _ Hg); try done; [apply alen_aset|].
    apply (undos_upd _ _ _ _ s); [apply Hg|done..].
Qed.

Lemma purged_one semid semnum g i s s' :
  inv si L rs g -> aget (semu g) i = Some s -> cleared semid s s' ->
  (semnum = -1 -> Forall (fun e => un_id e <> semid) (entries s')) ->
  purged semid semnum [i] g (set_semu (aset (semu g) i s') g).
Proof.
  intros Hg Hs Hcl Hcln j t Ht. cbn. pose proof (aget_Some_range _ _ _ Hs).
  rewrite aget_aset by done. setoid_rewrite list_elem_of_singleton. case_decide as Hd.
  - subst j. simplify_eq. exists s'. by split_and!.
  - exists t. split_and!; try done; try congruence. apply cleared_refl.
    pose proof (uo_cnt _ _ (us_un _ _ _ (iv_undos _ _ _ _ Hg) j t Ht)). lia.
Qed.

Lemma cleared_trans semid s1 s2 s3 : cleared semid s1 s2 -> cleared semid s2 s3 -> cleared semid s1 s3.
Proof.
  intros [A1 A2 A3 (d1 & A4 & A5)] [B1 B2 B3 (d2 & B4 & B5)]. constructor; [congruence|congruence|lia|].
  exists (d1 ++ d2). split; [by rewrite A4, B4, app_assoc|by apply Forall_app].
Qed.

Lemma purged_cons semid semnum i l g g1 g2 :
  i ∉ l -> purged semid semnum [i] g g1 -> purged semid semnum l g1 g2 -> purged semid semnum (i :: l) g g2.
Proof.
  intros Hni H1 H2 j s Hj. destruct (H1 j s Hj) as (s1 & Hj1 & Hc1 & Ha1 & Hs1).
  destruct (H2 j s1 Hj1) as (s2 & Hj2 & Hc2 & Ha2 & Hs2).
  exists s2. rewrite list_elem_of_singleton in Ha1, Hs1.
  split; [done|]. split; [by eapply cleared_trans|]. rewrite elem_of_cons. split.
  - intros [->|Hin] Hn; [rewrite Hs2 by done|]; auto.
  - intros Hnot. rewrite Hs2, Hs1; naive_solver.
Qed.

Lemma clear_for_wp semid semnum l g :
  inv si L rs g -> NoDup l -> (forall i, i ∈ l -> is_Some (aget (semu g) i)) ->
  wp (mfor l (fun i =>
    s ← get_un i;
    s' ← deref (semundo_clear_loop (Z.to_nat (un_cnt s)) semid semnum 0 s);
    put_un i s'))
    (fun _ g' => inv si L rs g' /\ same_but_undo g g' /\ purged semid semnum l g g') (fun _ _ => False) g.
Proof.
  revert g. induction l as [|i l IH]; intros g Hg Hnd Hl; cbn [mfor].
  - apply wp_ret. split_and!; [done|done|]. intros i s Hs. exists s. split_and!; try done.
    + apply cleared_refl. pose proof (uo_cnt _ _ (us_un _ _ _ (iv_undos _ _ _ _ Hg) i s Hs)). lia.
    + intros Hn. by apply not_elem_of_nil in Hn.
  - apply NoDup_cons in Hnd as [Hni Hnd]. destruct (Hl i) as [s Hs]; [left|].
    pose proof (us_un _ _ _ (iv_undos _ _ _ _ Hg) i s Hs) as Hok.
    pose proof (uo_cnt _ _ Hok). pose proof (uo_room _ _ Hok). pose proof (lo_ume _ (inv_lim _ _ _ _ Hg)).
    destruct (clear_loop_spec (Z.to_nat (un_cnt s)) semid semnum 0 s) as (s' & Hr & Hcl & Hcln);
      [lia|lia|lia|lia|intros _ j e Hj; lia|].
    destruct (put_un_inv g i s s' Hg Hs) as [Hput Hg1]; [by eapply cleared_ok|apply Hcl|].
    set (g1 := set_semu (aset (semu g) i s') g) in *.
    apply (wp_run_bind _ _ _ _ _ () g1).
    { unfold get_un, mbind, M_bind, gets, deref. rewrite Hs. cbn. by rewrite Hr. }
    eapply wp_conseq; [apply (IH g1 Hg1 Hnd)| |done].
    + intros j Hj. cbn. apply aget_is_Some. rewrite alen_aset.
      destruct (Hl j) as [t Ht]; [by right|]. by eapply aget_Some_range.
    + intros [] g2 (Hg2 & [E1 E2 E3 E4] & Hp). split; [done|]. split; [by constructor|].
      eapply purged_cons; [done| |exact Hp]. by apply (purged_one _ _ _ _ s).
Qed.

Lemma purged_undo semid g g' p :
  undos_ok si (semu_list g) (semu g) -> undos_ok si (semu_list g') (semu g') ->
  semu_list g' = semu_list g -> alen (semu g') = alen (semu g) ->
  purged semid (-1) (semu_list g) g g' ->
  proc_undo g' p = filter (fun kv => kv.1.1 <> semid) (proc_undo g p).
Proof.
  intros Hu Hu' El En Hp.
  destruct (proc_undo_cases si g Hu p) as [(i & s & Hi & Hs & Hq & ->)|[Ha ->]].
  - destruct (Hp i s Hs) as (s' & Hs' & Hcl & Hcln & _).
    rewrite (proc_undo_is si g' Hu' p i s'); [|by rewrite El|done|by rewrite (cl_proc _ _ _ Hcl)].
    apply (cleared_map si); [by apply (us_un _ _ _ Hu i)|done|auto].
  - rewrite map_filter_empty. apply proc_undo_absent. intros i t Hi Ht.
    destruct (aget_is_Some (semu g) i) as [s Hs]; [rewrite <-En; by eapply aget_Some_range|].
    destruct (Hp i s Hs) as (s' & Hs' & Hcl & _). simplify_eq. rewrite (cl_proc _ _ _ Hcl).
    apply (Ha i); [by rewrite <-El|done].
Qed.

(** With -1, every table loses exactly the entries of the set. *)
Lemma semundo_clear_wp semid semnum g :
  inv si L rs g ->
  wp (semundo_clear semid semnum)
    (fun _ g' => inv si L rs g' /\ same_but_undo g g' /\
      (semnum = -1 -> forall p, proc_undo g' p = filter (fun kv => kv.1.1 <> semid) (proc_undo g p)))
    (fun _ _ => False) g.
Proof.
  intros Hg. unfold semundo_clear. eapply wp_run_bind; [done|].
  eapply wp_conseq; [apply clear_for_wp; [done|apply Hg|]| |done].
  - intros i Hi. apply aget_is_Some. by apply (us_range _ _ _ (iv_undos _ _ _ _ Hg)).
  - intros [] g1 (Hg1 & Hsb & Hp). split_and!; [done|done|]. intros -> p.
    apply purged_undo; try done; [apply Hg|apply Hg1|apply Hsb|].
    by rewrite (sh_semu _ (iv_shape _ _ _ _ Hg)), (sh_semu _ (iv_shape _ _ _ _ Hg1)),
      (iv_info _ _ _ _ Hg), (iv_info _ _ _ _ Hg1).
Qed.

Lemma safe_semundo_clear semid semnum : safe si L rs (semundo_clear semid semnum) (fun _ => True).
Proof. intros g Hg. eapply wp_conseq; [by apply semundo_clear_wp| |done]. by intros [] g' [? _]. Qed.
End Clear.

(** ** The commands that keep the sets in place *)

Lemma mode_keeps_alloc m x :
  has_bits (Z.lor (Z.land m (Z.lnot 0x1ff)) (Z.land x 0x1ff)) SEM_ALLOC = has_bits m SEM_ALLOC.
Proof.
  unfold has_bits. rewrite Z.land_lor_distr_l, <-!Z.land_assoc.
  change (Z.land (Z.lnot 0x1ff) SEM_ALLOC) with SEM_ALLOC.
  change (Z.land 0x1ff SEM_ALLOC) with 0. by rewrite Z.land_0_r, Z.lor_0_r.
Qed.

Section Commands.
Context (si : seminfo) (L : list Z * Z) (rs : list (option rng)).
Context (self : SPMPROCESS) (ix : Z) (Hix : 0 <= ix < semmni si).
Notation safe m R := (safe si L rs m R).

(** [d] describes set [ix]. *)
Definition describes (d : semid_ds) (r : rng) : Prop :=
  aget rs ix = Some (Some r) /\ sem_base d = rbase r /\ sem_nsems d = rlen r /\
  perm_seq (sem_perm d) = rseq r /\ has_bits (perm_mode (sem_perm d)) SEM_ALLOC = true.

Lemma describes_alloc d :
  (forall b n, aget rs ix = Some (krange (mk_semid_kernel d b n))) ->
  has_bits (perm_mode (sem_perm d)) SEM_ALLOC = true -> exists r, describes d r.
Proof.
  intros Hd Ha. specialize (Hd 0 0). unfold krange, kalloc in Hd. cbn in Hd. rewrite Ha in Hd.
  eexists. split_and!; [exact Hd|done..].
Qed.

Lemma semvalid_0 semid_in d :
  semvalid semid_in d = 0 -> has_bits (perm_mode (sem_perm d)) SEM_ALLOC = true /\
    perm_seq (sem_perm d) = IPCID_TO_SEQ semid_in.
Proof.
  unfold semvalid. destruct (_ || _)%bool eqn:Hb; [done|]. intros _.
  apply orb_false_iff in Hb as [H1 H2]. apply negb_false_iff in H1, H2. by breflect.
Qed.

Lemma safe_get_valid semid_in {A} (k : semid_ds -> G A) (R : A -> Prop) :
  (forall d r, describes d r -> rseq r = IPCID_TO_SEQ semid_in -> safe (k d) R) ->
  safe (d ← get_ds ix; _ ← err_if (negb (semvalid semid_in d =? 0)) (semvalid semid_in d); k d) R.
Proof.
  intros Hk. eapply safe_bind; [by apply safe_get_ds|]. intros d Hd.
  eapply safe_bind; [apply (safe_err_if si L rs _ _ (fun _ => semvalid semid_in d = 0)); intros ?; by breflect|].
  intros [] Hv. destruct (semvalid_0 _ _ Hv) as [Ha Hs].
  destruct (describes_alloc d Hd Ha) as [r Hr]. apply (Hk d r Hr). destruct Hr as (_&_&_&<-&_). done.
Qed.

Lemma safe_check_sem semid_in access :
  safe (check_sem self semid_in ix access) (fun d => exists r, describes d r /\ rseq r = IPCID_TO_SEQ semid_in).
Proof.
  unfold check_sem. apply safe_get_valid. intros d r Hd Hs.
  eapply safe_bind; [by apply (safe_err_if si L rs _ _ (fun _ => True))|].
  intros [] _. apply safe_ret. eauto.
Qed.

Lemma safe_upd_ds_in r f :
  aget rs ix = Some (Some r) -> (forall k, krange k = Some r -> krange (set_u f k) = krange k) ->
  safe (upd_ds ix f) (fun _ => True).
Proof.
  intros Hr Hf g Hg. unfold upd_ds. wp_steps.
  - by apply (inv_sema_some _ _ _ _ _ Hg).
  - split; [done|]. apply (inv_set_sema_same _ _ _ _ _ a); [done|done| |done]. apply Hf.
    pose proof (inv_range _ _ _ _ _ _ Hg H) as Hk. rewrite Hr in Hk. by injection Hk.
Qed.

(** The described set lies in the pool. *)
Lemma safe_with_range d r {A} (m : G A) (R : A -> Prop) :
  describes d r ->
  (0 <= sem_base d -> 0 < sem_nsems d -> sem_base d + sem_nsems d <= semmns si -> safe m R) -> safe m R.
Proof.
  intros (Hr & Hb & Hn & _) Hm g Hg. destruct (so_in _ _ (iv_sets _ _ _ _ Hg) _ _ Hr) as (?&?&?).
  pose proof (sh_tot _ (iv_shape _ _ _ _ Hg)) as Ht. rewrite (iv_info _ _ _ _ Hg) in Ht.
  apply Hm; [lia..|done].
Qed.
End Commands.

Section Safe_commands.
Context (si : seminfo) (L : list Z * Z) (rs : list (option rng)).
Context (self : SPMPROCESS) (ix : Z) (Hix : 0 <= ix < semmni si).
Notation safe m R := (safe si L rs m R).

Lemma safe_IPC_STAT semid_in : safe (semctl_IPC_STAT self semid_in ix) (fun _ => True).
Proof.
  apply safe_with_mtx; [done|]. eapply safe_bind; [by apply safe_check_sem|]. intros d _. by apply safe_ret.
Qed.

Lemma safe_IPC_SET now semid_in sbuf : safe (semctl_IPC_SET self now semid_in ix sbuf) (fun _ => True).
Proof.
  apply safe_with_mtx; [done|].
  eapply safe_bind; [by apply safe_check_sem|]. intros d (r & (Hr & _ & _ & _ & Ha) & _).
  eapply safe_bind; [by apply safe_upd_ds|]. intros [] _.
  eapply safe_bind; [apply (safe_upd_ds_in _ _ _ _ Hix r); [done|]|].
  - intros k Hk. destruct (krange_fields _ _ Hk) as (_ & _ & _ & Hka). unfold krange, kalloc in *. cbn.
    rewrite mode_keeps_alloc, Ha. by rewrite Hka.
  - intros [] _. eapply safe_bind; [by apply safe_upd_ds|]. intros [] _. by apply safe_ret.
Qed.

Lemma safe_semctl_get semid_in semnum field :
  safe (semctl_get self semid_in ix semnum field) (fun _ => True).
Proof.
  apply safe_with_mtx; [done|].
  eapply safe_bind; [by apply safe_check_sem|]. intros d (r & Hd & _).
  apply (safe_with_range _ _ _ ix d r); [done|]. intros Hb0 Hn0 Hin.
  eapply safe_bind;
    [apply (safe_err_if _ _ _ _ _ (fun _ => 0 <= semnum < sem_nsems d)); intros ?; breflect; lia|].
  intros [] Hn. eapply safe_bind; [apply safe_get_sem; lia|]. intros s _. by apply safe_ret.
Qed.

Lemma safe_read_semvals L' l :
  Forall (fun i => 0 <= i < semmns si) l ->
  SysVSemSafe.safe si L' rs (read_semvals l) (fun _ => True).
Proof.
  induction 1 as [|i l Hi Hl IH]; cbn; [by apply safe_ret|].
  eapply safe_bind; [by apply safe_get_sem|]. intros s _.
  eapply safe_bind; [exact IH|]. intros a _. by apply safe_ret.
Qed.

Lemma safe_GETALL semid_in : safe (semctl_GETALL self semid_in ix) (fun _ => True).
Proof.
  apply safe_with_mtx; [done|].
  eapply safe_bind; [by apply safe_check_sem|]. intros d (r & Hd & _).
  apply (safe_with_range _ _ _ ix d r); [done|]. intros Hb0 Hn0 Hin.
  eapply safe_bind; [apply safe_read_semvals|by intros; apply safe_ret].
  apply Forall_forall. intros i Hi%elem_of_zrange. lia.
Qed.

Lemma safe_SEM_STAT semid : safe (semctl_SEM_STAT self semid) (fun _ => True).
Proof.
  unfold semctl_SEM_STAT. eapply safe_bind; [apply safe_info|]. intros si' ->.
  destruct (_ || _)%bool eqn:Hr; [by apply safe_err|]. breflect. apply safe_with_mtx; [lia|].
  eapply safe_bind; [apply safe_get_ds; lia|]. intros d _.
  eapply safe_bind; [by apply (safe_err_if _ _ _ _ _ (fun _ => True))|]. intros [] _.
  eapply safe_bind; [by apply (safe_err_if _ _ _ _ _ (fun _ => True))|]. intros [] _. by apply safe_ret.
Qed.

Lemma safe_SETVAL semid_in semnum val : safe (semctl_SETVAL self semid_in ix semnum val) (fun _ => True).
Proof.
  apply safe_with_mtx; [done|].
  eapply safe_bind; [by apply safe_check_sem|]. intros d (r & Hd & _).
  apply (safe_with_range _ _ _ ix d r); [done|]. intros Hb0 Hn0 Hin.
  eapply safe_bind; [apply safe_info|]. intros si' ->.
  eapply safe_bind;
    [apply (safe_err_if _ _ _ _ _ (fun _ => 0 <= semnum < sem_nsems d)); intros ?; breflect; lia|].
  intros [] Hn. eapply safe_bind;
    [apply (safe_err_if _ _ _ _ _ (fun _ => 0 <= val <= semvmx si)); intros ?; breflect; lia|].
  intros [] Hval. intros g Hg. pose proof (lo_vmx _ (inv_lim _ _ _ _ Hg)). revert g Hg.
  eapply safe_bind; [apply safe_upd_sem; [lia|]; intros s _; cbn; rewrite u16_small; lia|]. intros [] _.
  eapply safe_bind; [apply safe_with_undo, safe_semundo_clear|]. intros [] _.
  eapply safe_bind; [by apply safe_ev_wakeup|]. intros [] _. by apply safe_ret.
Qed.

Lemma safe_setall_loop L' base vals :
  0 <= base -> base + Z.of_nat (length vals) <= semmns si ->
  SysVSemSafe.safe si L' rs (setall_loop (semvmx si) base vals) (fun _ => True).
Proof.
  revert base. induction vals as [|v vals IH]; intros base Hb Hl; cbn [setall_loop]; [by apply safe_ret|].
  cbn [length] in Hl. rewrite Z.gtb_ltb. destruct (Z.ltb_spec (semvmx si) (u16 v)); [by apply safe_ret|].
  pose proof (u16_range v). eapply safe_bind; [apply safe_upd_sem; [lia|]; intros s _; cbn; lia|].
  intros [] _. apply IH; lia.
Qed.

(** The caller's array has room for the set. *)
Lemma safe_SETALL semid_in a :
  (forall r, aget rs ix = Some (Some r) -> rlen r <= alen a) ->
  safe (semctl_SETALL self semid_in ix a) (fun _ => True).
Proof.
  intros Harg. unfold semctl_SETALL.
  eapply (safe_bind _ _ _ _ _ (fun count => exists r, aget rs ix = Some (Some r) /\ count = rlen r)).
  { apply safe_with_mtx; [done|]. apply safe_get_valid; [done|]. intros d r (Hr & _ & Hn & _) _.
    apply safe_ret. eauto. }
  intros count (r & Hr & ->). apply safe_with_mtx; [done|].
  eapply safe_bind; [by apply safe_check_sem|]. intros d (r' & Hd & _).
  assert (r' = r) by (destruct Hd as (Hd & _); congruence). subst r'.
  apply (safe_with_range _ _ _ ix d r); [done|]. intros Hb0 Hn0 Hin.
  specialize (Harg r Hr). unfold alen in Harg. destruct (Z.ltb_spec (Z.of_nat (length a)) (rlen r)); [lia|].
  eapply safe_bind; [apply (safe_deref _ _ _ _ (fun vals => vals = take (Z.to_nat (rlen r)) a)); by eauto; congruence|].
  intros vals ->. eapply safe_bind; [apply safe_info|]. intros si' ->.
  destruct Hd as (_ & Hbase & Hn & _).
  eapply safe_bind; [apply safe_setall_loop; [lia|rewrite length_take; lia]|]. intros error _.
  eapply safe_bind; [apply safe_with_undo, safe_semundo_clear|]. intros [] _.
  eapply safe_bind; [by apply safe_ev_wakeup|]. intros [] _.
  eapply safe_bind; [by apply (safe_err_if _ _ _ _ _ (fun _ => True))|]. intros [] _. by apply safe_ret.
Qed.
End Safe_commands.

(** ** Removal of a set *)

Section Compaction.
Context (base n : Z) (Hn : 0 < n).

(** The pool after [pool[i] = pool[i + n]] for [i] in [lo .. lo + k - 1]. *)
Definition moved (lo k : Z) (p p' : list sem) : Prop :=
  alen p' = alen p /\
  forall i, aget p' i = aget p (if (lo <=? i) && (i <? lo + k) then i + n else i).

Lemma compact_run k lo g :
  0 <= lo -> lo + Z.of_nat k + n <= alen (spool g) ->
  exists p', mfor (zrange lo k) (fun i => s ← get_sem (i + n); mmod (fun g => set_spool (aset (spool g) i s) g)) g
    = Done () (set_spool p' g) /\ moved lo (Z.of_nat k) (spool g) p'.
Proof.
  revert lo g. induction k as [|k IH]; intros lo g Hlo Hlen.
  { exists (spool g). split; [by rewrite set_spool_id|]. split; [done|]. intros i.
    destruct (Z.leb_spec lo i), (Z.ltb_spec i (lo + Z.of_nat 0)); try done. lia. }
  rewrite zrange_S. cbn [mfor].
  destruct (aget_is_Some (spool g) (lo + n)) as [s Hs]; [lia|].
  destruct (IH (lo + 1) (set_spool (aset (spool g) lo s) g)) as (p' & Hr & Hl & Hm);
    [lia|cbn; rewrite alen_aset; lia|].
  exists p'. split.
  { rewrite (run_bind _ _ _ () (set_spool (aset (spool g) lo s) g)); [exact Hr|].
    by rewrite (run_bind _ _ _ _ _ (get_sem_run _ _ _ Hs)). }
  split; [rewrite Hl; apply alen_aset|]. intros i. rewrite Hm. cbn [spool set_spool].
  rewrite aget_aset by lia.
  destruct (Z.leb_spec (lo + 1) i), (Z.leb_spec lo i), (Z.ltb_spec i (lo + 1 + Z.of_nat k)),
    (Z.ltb_spec i (lo + Z.of_nat (S k))); cbn [andb]; try lia; case_decide; try lia; try done.
  by replace i with lo by lia.
Qed.

(** What the renumbering does to one set. *)
Definition rebased (k : semid_kernel) : semid_kernel :=
  if kalloc k && (sem_base (ku k) >? base) then set_u (set_base (sem_base (ku k) - n)) k else k.

Lemma rebase_step g i k :
  aget (sema g) i = Some k ->
  (d ← get_ds i;
    mwhen (has_bits (perm_mode (sem_perm d)) SEM_ALLOC && (sem_base d >? base))
      (upd_ds i (set_base (sem_base d - n)))) g
  = Done () (set_sema (aset (sema g) i (rebased k)) g).
Proof.
  intros Hk. rewrite (run_bind _ _ _ _ _ (get_ds_run _ _ _ Hk)).
  unfold rebased, kalloc. destruct (_ && _)%bool; cbn [mwhen].
  - unfold upd_ds. rewrite (run_bind _ _ _ (Some k) g); [done|]. unfold gets. by rewrite Hk.
  - rewrite (aset_id _ _ _ Hk). by destruct g.
Qed.

Lemma rebase_run k lo g :
  0 <= lo -> lo + Z.of_nat k <= alen (sema g) ->
  exists l', mfor (zrange lo k) (fun i =>
    d ← get_ds i;
    mwhen (has_bits (perm_mode (sem_perm d)) SEM_ALLOC && (sem_base d >? base))
      (upd_ds i (set_base (sem_base d - n)))) g = Done () (set_sema l' g) /\
    alen l' = alen (sema g) /\
    forall i, aget l' i = (if (lo <=? i) && (i <? lo + Z.of_nat k) then rebased else id) <$> aget (sema g) i.
Proof.
  revert lo g. induction k as [|k IH]; intros lo g Hlo Hlen.
  { exists (sema g). split_and!; [by destruct g|done|]. intros i.
    destruct (Z.leb_spec lo i), (Z.ltb_spec i (lo + Z.of_nat 0)); cbn [andb]; try lia; by rewrite option_fmap_id. }
  rewrite zrange_S. cbn [mfor].
  destruct (aget_is_Some (sema g) lo) as [s Hs]; [lia|].
  destruct (IH (lo + 1) (set_sema (aset (sema g) lo (rebased s)) g)) as (l' & Hr & Hl & Hm);
    [lia|cbn; rewrite alen_aset; lia|].
  exists l'. split; [by rewrite (run_bind _ _ _ _ _ (rebase_step g lo s Hs))|].
  split; [rewrite Hl; apply alen_aset|]. intros i. rewrite Hm. cbn [sema set_sema].
  rewrite aget_aset by lia. case_decide as Hd.
  - subst i. rewrite Hs. cbn. zbool. done.
  - destruct (Z.leb_spec (lo + 1) i), (Z.leb_spec lo i), (Z.ltb_spec i (lo + 1 + Z.of_nat k)),
      (Z.ltb_spec i (lo + Z.of_nat (S k))); cbn [andb]; try lia; done.
Qed.
End Compaction.

Lemma semctl_rebase_run base n g :
  0 <= semmni (info g) -> alen (sema g) = semmni (info g) ->
  semctl_rebase base n g = Done () (set_sema (rebased base n <$> sema g) g).
Proof.
  intros H0 Hl. unfold semctl_rebase. rewrite (run_bind _ _ _ (info g) g); [|done].
  destruct (rebase_run base n (Z.to_nat (semmni (info g))) 0 g) as (l' & -> & Hlen & Hm); [lia|lia|].
  do 2 f_equal. apply aget_ext; [rewrite Hlen; unfold alen; by rewrite length_fmap|].
  intros i Hi. rewrite Hm, aget_fmap. by destruct (Z.leb_spec 0 i), (Z.ltb_spec i (0 + Z.of_nat (Z.to_nat (semmni (info g))))); try lia.
Qed.

(** The ranges after set [ix], at [r], is gone. *)
Definition shift_rng (r q : rng) : rng :=
  if rbase q >? rbase r then mk_rng (rbase q - rlen r) (rlen q) (rseq q) else q.
Definition shift_opt (r : rng) : option rng -> option rng := option_map (shift_rng r).
Definition removed (ix : Z) (r : rng) (rs : list (option rng)) : list (option rng) :=
  aset (shift_opt r <$> rs) ix None.

Lemma removed_get ix r rs j q :
  aget (removed ix r rs) j = Some (Some q) -> 0 <= ix < alen rs ->
  j <> ix /\ exists q0, aget rs j = Some (Some q0) /\ q = shift_rng r q0.
Proof.
  unfold removed. intros Hq Hix. rewrite aget_aset in Hq by (unfold alen in *; by rewrite length_fmap).
  case_decide; [done|]. split; [congruence|]. rewrite aget_fmap in Hq.
  destruct (aget rs j) as [[q0|]|]; simplify_eq/=. eauto.
Qed.

Lemma sets_ok_removed ix r rs tot :
  sets_ok rs tot -> aget rs ix = Some (Some r) -> sets_ok (removed ix r rs) (tot - rlen r).
Proof.
  intros [H1 H2 H3 H4] Hr. pose proof (aget_Some_range _ _ _ Hr) as Hix.
  pose proof (H1 _ _ Hr) as (Hr1 & Hr2 & Hr3). constructor.
  - intros j q Hq. apply removed_get in Hq as (Hne & q0 & Hq0 & ->); [|done].
    pose proof (H1 _ _ Hq0). pose proof (H2 j ix q0 r Hne Hq0 Hr). unfold shift_rng.
    rewrite Z.gtb_ltb. destruct (Z.ltb_spec (rbase r) (rbase q0)); cbn; lia.
  - intros j k q q' Hjk Hq Hq'.
    apply removed_get in Hq as (Hne & q0 & Hq0 & ->); [|done].
    apply removed_get in Hq' as (Hne' & q1 & Hq1 & ->); [|done].
    pose proof (H1 _ _ Hq0). pose proof (H1 _ _ Hq1). pose proof (H2 j k q0 q1 Hjk Hq0 Hq1).
    pose proof (H2 j ix q0 r Hne Hq0 Hr). pose proof (H2 k ix q1 r Hne' Hq1 Hr).
    unfold shift_rng. rewrite !Z.gtb_ltb.
    destruct (Z.ltb_spec (rbase r) (rbase q0)), (Z.ltb_spec (rbase r) (rbase q1)); cbn; lia.
  - unfold removed. rewrite fmap_aset, (sumZ_aset _ _ (rlen r)).
    + cbn. rewrite <-list_fmap_compose. replace (rsize ∘ shift_opt r <$> rs) with (rsize <$> rs); [lia|].
      apply list_fmap_ext. intros _ [q|] _; [|done]. cbn. unfold shift_rng. by destruct (_ >? _).
    + rewrite !aget_fmap, Hr. cbn. unfold shift_rng. by destruct (_ >? _).
  - intros j q Hq. apply removed_get in Hq as (Hne & q0 & Hq0 & ->); [|done].
    pose proof (H4 _ _ Hq0). unfold shift_rng. by destruct (_ >? _).
Qed.

Section Remove.
Context (si : seminfo) (self : SPMPROCESS) (ix : Z) (Hix : 0 <= ix < semmni si).

(** From [semtot -= nsems] to [mode = 0]: the invariant holds again for the
    ranges without the set. *)
Definition rmid_middle {A} (d : semid_ds) (rest : G A) : G A :=
  _ ← mmod (fun g => set_semtot (semtot g - sem_nsems d) g);
  tot ← gets semtot;
  _ ← semctl_compact (sem_base d) (sem_nsems d) tot;
  _ ← semctl_rebase (sem_base d) (sem_nsems d);
  _ ← upd_ds ix (set_perm (set_mode 0));
  rest.

Lemma krange_rebased r k :
  krange (rebased (rbase r) (rlen r) k) = shift_opt r (krange k).
Proof.
  unfold krange, rebased. destruct (kalloc k) eqn:Ha; cbn [andb].
  - destruct (sem_base (ku k) >? rbase r) eqn:Hb; [|by rewrite Ha; cbn; unfold shift_rng; cbn; rewrite Hb].
    unfold kalloc in *. cbn. rewrite Ha. cbn. unfold shift_rng. cbn. by rewrite Hb.
  - by rewrite Ha.
Qed.

Lemma rebased_mtx b n k : kmtx (rebased b n k) = kmtx k.
Proof. unfold rebased. by destruct (_ && _)%bool. Qed.

Lemma fmap_rebased_mtx b n (l : list semid_kernel) : kmtx <$> (rebased b n <$> l) = kmtx <$> l.
Proof. rewrite <-list_fmap_compose. apply list_fmap_ext. intros _ x _. apply rebased_mtx. Qed.

Lemma krange_freed k : krange (set_u (set_perm (set_mode 0)) k) = None.
Proof. done. Qed.

Lemma moved_vals vmx n lo k p p' : vals_ok vmx p -> moved n lo k p p' -> vals_ok vmx p'.
Proof.
  intros Hp [Hl Hm]. apply Forall_lookup. intros i s Hi.
  assert (Ha : aget p' (Z.of_nat i) = Some s).
  { unfold aget. destruct (Z.leb_spec 0 (Z.of_nat i)); [|lia]. by rewrite Nat2Z.id. }
  rewrite Hm in Ha. exact (Forall_aget _ _ _ _ Hp Ha).
Qed.

Lemma rmid_middle_run L rs r d g :
  inv si L rs g -> describes rs ix d r ->
  exists l' p', (forall A (rest : G A), rmid_middle d rest g
      = rest (set_sema l' (set_spool p' (set_semtot (semtot g - rlen r) g)))) /\
    inv si L (removed ix r rs) (set_sema l' (set_spool p' (set_semtot (semtot g - rlen r) g))) /\
    moved (rlen r) (rbase r) (semtot g - rlen r - rbase r) (spool g) p'.
Proof.
  intros Hg (Hr & Hb & Hn & _). destruct (so_in _ _ (iv_sets _ _ _ _ Hg) _ _ Hr) as (Hr1 & Hr2 & Hr3).
  destruct (iv_shape _ _ _ _ Hg) as [S1 S2 S3 S4 S5].
  set (g1 := set_semtot (semtot g - rlen r) g).
  destruct (compact_run (rlen r) Hr2 (Z.to_nat (semtot g - rlen r - rbase r)) (rbase r) g1) as (p' & Hc & Hm);
    [lia|cbn; lia|]. rewrite Z2Nat.id in Hm by lia. set (g2 := set_spool p' g1).
  set (g3 := set_sema (rebased (rbase r) (rlen r) <$> sema g) g2).
  destruct (aget_is_Some (sema g) ix) as [k Hk]; [rewrite S2, (iv_info _ _ _ _ Hg); done|].
  set (k3 := rebased (rbase r) (rlen r) k).
  set (l' := aset (rebased (rbase r) (rlen r) <$> sema g) ix (set_u (set_perm (set_mode 0)) k3)).
  exists l', p'. split; [|split; [|done]].
  - intros A rest. unfold rmid_middle. rewrite Hb, Hn. rewrite (run_bind _ _ _ () g1); [|done].
    rewrite (run_bind _ _ _ (semtot g - rlen r) g1); [|done].
    rewrite (run_bind _ _ _ _ _ Hc). rewrite (run_bind _ _ _ () g3).
    2:{ apply (semctl_rebase_run (rbase r) (rlen r) g2); cbn; [|done]. rewrite (iv_info _ _ _ _ Hg). lia. }
    rewrite (run_bind _ _ _ () (set_sema l' g3)); [done|].
    unfold upd_ds. rewrite (run_bind _ _ _ (Some k3) g3); [done|]. unfold gets. cbn.
    by rewrite aget_fmap, Hk.
  - assert (Hrs : krange <$> l' = removed ix r rs).
    { unfold l'. rewrite fmap_aset, krange_freed. unfold removed. f_equal.
      rewrite <-(iv_ranges _ _ _ _ Hg). unfold ranges. rewrite <-!list_fmap_compose.
      apply list_fmap_ext. intros _ x _. apply krange_rebased. }
    constructor; cbn; try done; try apply Hg.
    + constructor; cbn; try done; [|by rewrite (proj1 Hm)|lia].
      unfold l'. rewrite alen_aset. unfold alen in *. by rewrite length_fmap.
    + apply sets_ok_removed; [apply Hg|done].
    + eapply moved_vals; [apply Hg|exact Hm].
    + rewrite <-(iv_locks _ _ _ _ Hg). unfold lockst. cbn. f_equal. unfold l'. rewrite fmap_aset.
      rewrite (fmap_rebased_mtx (rbase r) (rlen r)). apply aset_id. rewrite aget_fmap, Hk. cbn.
      f_equal. symmetry. apply rebased_mtx.
Qed.

(** What a successful IPC_RMID leaves. *)
Definition removal (L : list Z * Z) (rs : list (option rng)) (g g' : sysv_sem) : Prop :=
  exists r, aget rs ix = Some (Some r) /\ inv si L (removed ix r rs) g' /\
    moved (rlen r) (rbase r) (semtot g - rlen r - rbase r) (spool g) (spool g') /\
    forall p, proc_undo g' p = filter (fun kv => kv.1.1 <> ix) (proc_undo g p).

Lemma rmid_rest_wp L rs g :
  inv si L rs g ->
  wp (_ ← with_undo (semundo_clear ix (-1)); _ ← ev_wakeup ix; mret (0, OutNone))
    (fun (_ : Z * semctl_out) g' => inv si L rs g' /\ spool g' = spool g /\
      forall p, proc_undo g' p = filter (fun kv => kv.1.1 <> ix) (proc_undo g p)) (fun _ _ => False) g.
Proof.
  intros Hg. apply wp_bind. eapply (wp_conseq _ (fun _ g' => inv si L rs g' /\ spool g' = spool g /\
      forall p, proc_undo g' p = filter (fun kv => kv.1.1 <> ix) (proc_undo g p)) _ (fun _ _ => False)); [| |done].
  - apply (wp_with_undo si L rs); [done|]. intros Hg1.
    eapply wp_conseq; [by apply semundo_clear_wp| |done]. intros [] g2 (Hg2 & [_ Hsp _ _] & Hp).
    exists rs. split; [done|]. intros Hg3. split; [done|]. split; [exact Hsp|]. intros p. by apply (Hp eq_refl p).
  - intros [] g1 (Hg1 & Hsp & Hp).
    destruct (inv_sema_some _ _ _ _ _ Hg1 Hix) as [k Hk].
    apply (wp_run_bind _ _ _ _ _ () (set_sema (aset (sema g1) ix (mk_semid_kernel (ku k) (kev k + 1) (kmtx k))) g1)).
    { unfold ev_wakeup, mbind, M_bind, gets. by rewrite Hk. }
    apply wp_ret. split; [|done]. by apply (inv_set_sema_same _ _ _ _ _ k).
Qed.

(** The checks read only. *)
Lemma check_sem_wp L rs semid_in access g :
  inv si L rs g ->
  wp (check_sem self semid_in ix access)
    (fun d g' => g' = g /\ exists r, describes rs ix d r /\ rseq r = IPCID_TO_SEQ semid_in)
    (fun e g' => g' = g) g.
Proof.
  intros Hg. destruct (inv_sema_some _ _ _ _ _ Hg Hix) as [k Hk].
  unfold check_sem. eapply wp_run_bind; [by apply get_ds_run|].
  apply wp_bind, wp_err_if; intros Hv; [done|]. apply wp_bind, wp_err_if; intros He; [done|].
  apply wp_ret. split; [done|]. apply negb_false_iff, Z.eqb_eq in Hv.
  destruct (semvalid_0 _ _ Hv) as [Ha Hs].
  destruct (describes_alloc rs ix (ku k)) as [r Hr]; [|done|].
  - intros b n. by rewrite (inv_range _ _ _ _ _ _ Hg Hk).
  - exists r. split; [done|]. destruct Hr as (_&_&_&<-&_). done.
Qed.

Lemma removal_unlock L rs g g1 g2 :
  same_data g g1 -> removal (bump ix L) rs g1 g2 ->
  exists rs', inv si (bump ix L) rs' g2 /\
    forall g3, inv si L rs' g3 -> same_data g2 g3 -> removal L rs g g3.
Proof.
  intros Hsd (r & Hr & Hg2 & Hm & Hp). exists (removed ix r rs). split; [done|]. intros g3 Hg3 Hsd3.
  exists r. split; [done|]. split; [done|]. split.
  - rewrite <-(sd_spool _ _ Hsd), <-(sd_tot _ _ Hsd), (sd_spool _ _ Hsd3). done.
  - intros p. rewrite (same_data_undo _ _ p Hsd3), Hp. by rewrite (same_data_undo _ _ p Hsd).
Qed.

Lemma rmid_wp L rs semid_in g :
  inv si L rs g ->
  wp (semctl_IPC_RMID self semid_in ix) (fun _ g' => removal L rs g g')
    (fun _ g' => inv si L rs g' /\ unchanged g g') g.
Proof.
  intros Hg. apply (wp_with_mtx si L rs); [done|done|]. intros g1 Hg1 Hsd.
  eapply wp_conseq with (Q := fun _ => removal (bump ix L) rs g1)
    (E := fun _ g2 => g2 = g1); [|intros _ g2; by apply removal_unlock|].
  2:{ intros _ g2 ->. exists rs. split; [done|]. intros g3 Hg3 Hsd3. split; [done|].
      eapply unchanged_trans; by apply same_data_unchanged. }
  apply wp_bind. eapply wp_conseq; [by eapply check_sem_wp| |done].
  intros d g2 [-> (r & Hd & _)].
  destruct (inv_sema_some _ _ _ _ _ Hg1 Hix) as [k Hk].
  set (k2 := set_u (set_perm (set_both_uids (euid self))) k).
  set (g2 := set_sema (aset (sema g1) ix k2) g1).
  assert (Hg2 : inv si (bump ix L) rs g2) by by apply (inv_set_sema_same _ _ _ _ _ k).
  apply (wp_run_bind _ _ _ _ _ () g2).
  { unfold upd_ds, mbind, M_bind, gets. by rewrite Hk. }
  assert (Hk2 : aget (sema g2) ix = Some k2) by (apply aget_aset_eq; by eapply aget_Some_range).
  eapply wp_run_bind; [by apply get_ds_run|].
  assert (Hd2 : describes rs ix (ku k2) r).
  { destruct Hd as (Hr & _). pose proof (inv_range _ _ _ _ _ _ Hg2 Hk2) as Hkr. rewrite Hr in Hkr.
    destruct (krange_fields k2 r) as (?&?&?&?); [congruence|]. by split_and!. }
  destruct (rmid_middle_run (bump ix L) rs r (ku k2) g2 Hg2 Hd2) as (l' & p' & Hrun & Hg3 & Hm).
  match goal with |- wp (_ ≫= _) _ _ _ =>
    change (wp (rmid_middle (ku k2) (_ ← with_undo (semundo_clear ix (-1)); _ ← ev_wakeup ix; mret (0, OutNone)))
      (fun _ => removal (bump ix L) rs g1) (fun _ g3 => g3 = g1) g2) end.
  unfold wp at 1. rewrite Hrun.
  match goal with |- context [set_sema l' ?x] => set (g3 := set_sema l' x) in * end.
  eapply (wp_conseq _ _ _ (fun _ _ => False)); [by apply (rmid_rest_wp _ _ _ Hg3)| |done].
  intros _ g4 (Hg4 & Hsp & Hp). exists r. split; [apply Hd|]. split; [done|]. split; [by rewrite Hsp|].
  intros p. rewrite Hp. done.
Qed.
End Remove.

(** ** Creation of a set *)

(** Set [ix] is the one that was found or made, under the id of the call. *)
Definition id_names (rs : list (option rng)) (id : Z) (r : rng) : Prop :=
  aget rs (IPCID_TO_IX id) = Some (Some r) /\ IPCID_TO_SEQ id = rseq r /\ 0 <= id <= INT_MAX.

Lemma sets_ok_created rs tot ix r :
  sets_ok rs tot -> aget rs ix = Some None -> rbase r = tot -> 0 <= tot -> 0 < rlen r -> 0 <= rseq r < 2 ^ 15 ->
  sets_ok (aset rs ix (Some r)) (tot + rlen r).
Proof.
  intros [H1 H2 H3 H4] Hix Hb Ht Hl Hs. pose proof (aget_Some_range _ _ _ Hix) as Hr.
  constructor.
  - intros i q. rewrite aget_aset by done. case_decide; [intros; simplify_eq; lia|].
    intros Hq. pose proof (H1 _ _ Hq). lia.
  - intros i j q q' Hij. rewrite !aget_aset by done. repeat case_decide; try congruence; intros Hq Hq'; simplify_eq.
    + pose proof (H1 _ _ Hq'). lia.
    + pose proof (H1 _ _ Hq). lia.
    + by apply (H2 i j).
  - rewrite fmap_aset, (sumZ_aset _ _ 0); cbn; [lia|]. by rewrite aget_fmap, Hix.
  - intros i q. rewrite aget_aset by done. case_decide; [by intros; simplify_eq|]. apply H4.
Qed.

Section Create.
Context (si : seminfo) (self : SPMPROCESS).

(** The pool after [bzero(sem_base, ...)]. *)
Definition zeroed (lo k : Z) (p p' : list sem) : Prop :=
  alen p' = alen p /\
  forall i, aget p' i = if (lo <=? i) && (i <? lo + k) then Some (mk_sem 0 0 0 0) else aget p i.

Lemma bzero_run k lo g :
  0 <= lo -> lo + Z.of_nat k <= alen (spool g) ->
  exists p', mfor (zrange lo k) (fun i => upd_sem i (fun _ => mk_sem 0 0 0 0)) g = Done () (set_spool p' g) /\
    zeroed lo (Z.of_nat k) (spool g) p'.
Proof.
  revert lo g. induction k as [|k IH]; intros lo g Hlo Hlen.
  { exists (spool g). split; [by rewrite set_spool_id|]. split; [done|]. intros i.
    destruct (Z.leb_spec lo i), (Z.ltb_spec i (lo + Z.of_nat 0)); try done. lia. }
  rewrite zrange_S. cbn [mfor]. destruct (aget_is_Some (spool g) lo) as [s Hs]; [lia|].
  destruct (IH (lo + 1) (set_spool (aset (spool g) lo (mk_sem 0 0 0 0)) g)) as (p' & Hr & Hl & Hm);
    [lia|cbn; rewrite alen_aset; lia|].
  exists p'. split; [by rewrite (run_bind _ _ _ _ _ (upd_sem_run _ _ _ _ Hs))|].
  split; [rewrite Hl; apply alen_aset|]. intros i. rewrite Hm. cbn [spool set_spool].
  rewrite aget_aset by lia.
  destruct (Z.leb_spec (lo + 1) i), (Z.leb_spec lo i), (Z.ltb_spec i (lo + 1 + Z.of_nat k)),
    (Z.ltb_spec i (lo + Z.of_nat (S k))); cbn [andb]; try lia; repeat case_decide; try lia; done.
Qed.

Lemma zeroed_vals vmx lo k p p' : 0 <= vmx -> vals_ok vmx p -> zeroed lo k p p' -> vals_ok vmx p'.
Proof.
  intros Hv Hp [Hl Hm]. apply Forall_lookup. intros i s Hi.
  assert (Ha : aget p' (Z.of_nat i) = Some s).
  { unfold aget. destruct (Z.leb_spec 0 (Z.of_nat i)); [|lia]. by rewrite Nat2Z.id. }
  rewrite Hm in Ha. destruct (_ && _)%bool; [by simplify_eq|]. exact (Forall_aget _ _ _ _ Hp Ha).
Qed.

(** A new set at the end of the used part of the pool, all values zero. *)
Definition created (L : list Z * Z) (rs : list (option rng)) (nsems : Z) (g : sysv_sem) (ix : Z) (g' : sysv_sem) : Prop :=
  exists r, aget rs ix = Some None /\ rbase r = semtot g /\ rlen r = nsems /\
    inv si L (aset rs ix (Some r)) g' /\ zeroed (semtot g) nsems (spool g) (spool g') /\
    (forall p, proc_undo g' p = proc_undo g p).

Lemma alloc_mode x : has_bits (Z.lor (Z.land x 0x1ff) SEM_ALLOC) SEM_ALLOC = true.
Proof.
  unfold has_bits. rewrite Z.land_lor_distr_l, <-Z.land_assoc.
  change (Z.land 0x1ff SEM_ALLOC) with 0. by rewrite Z.land_0_r.
Qed.

Lemma seq_next s : 0 <= Z.land (s + 1) 0x7fff < 2 ^ 15.
Proof. change 0x7fff with (Z.ones 15). rewrite Z.land_ones by lia. apply Z.mod_pos_bound. lia. Qed.

Lemma semget_create_wp L rs now key nsems semflg g :
  inv si L rs g ->
  wp (semget_create self now key nsems semflg) (created L rs nsems g) (fun _ g' => g' = g) g.
Proof.
  intros Hg. unfold semget_create. eapply wp_run_bind; [done|]. rewrite (iv_info _ _ _ _ Hg).
  apply wp_bind, wp_err_if; intros H1; [done|]. apply wp_bind, wp_err_if; intros H2; [done|].
  breflect. destruct (iv_shape _ _ _ _ Hg) as [S1 S2 S3 S4 S5]. rewrite (iv_info _ _ _ _ Hg) in *.
  pose proof (lo_msl _ S1). pose proof (lo_vmx _ S1).
  destruct (find_first _ 0 _) as [ix|] eqn:Hf; [|by apply wp_err].
  destruct (find_first_Some _ _ _ _ Hf) as (Hix & Ha & _).
  destruct (inv_sema_some _ _ _ _ ix Hg) as [k Hk]; [lia|].
  unfold is_allocated in Ha. rewrite Hk in Ha. apply negb_true_iff in Ha. fold (kalloc k) in Ha.
  pose proof (inv_range _ _ _ _ _ _ Hg Hk) as Hr. unfold krange in Hr. rewrite Ha in Hr.
  match goal with |- wp (upd_ds ix ?f ≫= _) _ _ _ => set (k1 := set_u f k) end.
  set (g1 := set_sema (aset (sema g) ix k1) g).
  apply (wp_run_bind _ _ _ _ _ () g1).
  { unfold upd_ds, mbind, M_bind, gets. by rewrite Hk. }
  set (g2 := set_semtot (semtot g + nsems) g1). apply (wp_run_bind _ _ _ _ _ () g2); [done|].
  destruct (bzero_run (Z.to_nat nsems) (semtot g) g2) as (p' & Hrun & Hz); [lia|cbn; lia|].
  eapply wp_run_bind; [exact Hrun|]. apply wp_ret. rewrite Z2Nat.id in Hz by lia.
  set (r := mk_rng (semtot g) nsems (Z.land (perm_seq (sem_perm (ku k)) + 1) 0x7fff)).
  assert (Hk1 : krange k1 = Some r).
  { unfold krange, kalloc, k1. cbn. rewrite alloc_mode, u16_small by lia. done. }
  pose proof (seq_next (perm_seq (sem_perm (ku k)))) as Hseq.
  exists r. split_and!; [done|done|done| |exact Hz|done].
  constructor; cbn; try done; try apply Hg.
  - constructor; cbn; rewrite ?alen_aset, ?(iv_info _ _ _ _ Hg); try done; [by rewrite (proj1 Hz)|lia].
  - unfold ranges. cbn. rewrite fmap_aset, Hk1, <-(iv_ranges _ _ _ _ Hg). done.
  - apply (sets_ok_created rs (semtot g) ix r); [apply Hg|done|done|lia|cbn; lia|done].
  - eapply zeroed_vals; [lia|apply Hg|exact Hz].
  - rewrite <-(iv_locks _ _ _ _ Hg). unfold lockst. cbn. f_equal. rewrite fmap_aset. apply aset_id.
    by rewrite aget_fmap, Hk.
Qed.
End Create.

(** ** [semget] *)

Section Get.
Context (si : seminfo) (self : SPMPROCESS).

(** The set [ix] was found, or made. *)
Definition got (L : list Z * Z) (rs : list (option rng)) (nsems : Z) (g : sysv_sem) (ix : Z) (g' : sysv_sem) : Prop :=
  (inv si L rs g' /\ unchanged g g' /\ exists r, aget rs ix = Some (Some r)) \/ created si L rs nsems g ix g'.

Lemma found_allocated L rs g key ix :
  inv si L rs g -> has_key g key ix = true -> exists r, aget rs ix = Some (Some r).
Proof.
  intros Hg Hk. unfold has_key, is_allocated in Hk. destruct (aget (sema g) ix) as [k|] eqn:Hs; [|done].
  apply andb_true_iff in Hk as [Ha _]. destruct (kalloc_krange k Ha) as [r Hr]. exists r.
  by rewrite (inv_range _ _ _ _ _ _ Hg Hs), Hr.
Qed.

Lemma semget_find_wp L rs now key nsems semflg g :
  inv si L rs g ->
  wp (match (if key =? IPC_PRIVATE then None
             else find_first (has_key g key) 0 (Z.to_nat (semmni (info g)))) with
      | Some semid => semget_existing self semid nsems semflg
      | None =>
          if (key =? IPC_PRIVATE) || has_bits semflg IPC_CREAT
          then semget_create self now key nsems semflg
          else merr ENOENT
      end) (got L rs nsems g) (fun _ g' => g' = g) g.
Proof.
  intros Hg. destruct (if key =? IPC_PRIVATE then None else _) as [ix|] eqn:Hf.
  - destruct (key =? IPC_PRIVATE); [done|]. destruct (find_first_Some _ _ _ _ Hf) as (Hix & Hk & _).
    rewrite (iv_info _ _ _ _ Hg) in Hix.
    destruct (inv_sema_some _ _ _ _ ix Hg) as [k Hs]; [lia|].
    unfold semget_existing. eapply wp_run_bind; [by apply get_ds_run|].
    do 3 (apply wp_bind, wp_err_if; intros ?; [done|]).
    apply wp_ret. left. split; [done|]. split; [done|]. by eapply found_allocated.
  - destruct (_ || _)%bool; [|by apply wp_err].
    eapply wp_conseq; [by apply semget_create_wp| |done]. intros ix g'. by right.
Qed.

(** The outcome of [semget]: the id names a live set, and if the set is new
    nothing else was touched. *)
Definition semget_post (L : list Z * Z) (rs : list (option rng)) (nsems : Z) (g : sysv_sem) (id : Z) (g' : sysv_sem) : Prop :=
  exists rs', inv si L rs' g' /\
    (exists r, id_names rs' id r) /\
    ((rs' = rs /\ unchanged g g') \/ created si L rs nsems g (IPCID_TO_IX id) g').

Lemma got_id L rs nsems g ix g' :
  got L rs nsems g ix g' ->
  exists rs' k, inv si L rs' g' /\ aget (sema g') ix = Some k /\
    IPCID_TO_IX (IXSEQ_TO_IPCID ix (sem_perm (ku k))) = ix /\
    (exists r, id_names rs' (IXSEQ_TO_IPCID ix (sem_perm (ku k))) r) /\
    ((rs' = rs /\ unchanged g g') \/ created si L rs nsems g ix g').
Proof.
  intros Hgot.
  assert (H : exists rs' r, inv si L rs' g' /\ aget rs' ix = Some (Some r) /\
    ((rs' = rs /\ unchanged g g') \/ created si L rs nsems g ix g')).
  { destruct Hgot as [(Hg & Hu & r & Hr)|(r & Hn & Hb & Hl & Hg & Hrest)].
    - exists rs, r. split_and!; [done|done|]. by left.
    - exists (aset rs ix (Some r)), r. split; [done|]. split; [|right; by exists r].
      apply aget_aset_eq. by eapply aget_Some_range. }
  destruct H as (rs' & r & Hg & Hr & Hor).
  assert (Hix : 0 <= ix < semmni si).
  { pose proof (aget_Some_range _ _ _ Hr) as Hrg. rewrite <-(iv_ranges _ _ _ _ Hg) in Hrg.
    unfold ranges, alen in Hrg. rewrite length_fmap in Hrg. fold (alen (sema g')) in Hrg.
    by rewrite (sh_sema _ (iv_shape _ _ _ _ Hg)), (iv_info _ _ _ _ Hg) in Hrg. }
  destruct (inv_sema_some _ _ _ _ ix Hg Hix) as [k Hk].
  pose proof (inv_range _ _ _ _ _ _ Hg Hk) as Hkr. rewrite Hr in Hkr. injection Hkr as Hkr.
  destruct (krange_fields k r) as (_ & _ & Hseq & _); [done|].
  pose proof (so_seq _ _ (iv_sets _ _ _ _ Hg) _ _ Hr). pose proof (lo_mni _ (inv_lim _ _ _ _ Hg)).
  destruct (IXSEQ_roundtrip ix (sem_perm (ku k))) as (H1 & H2 & H3); [lia|lia|].
  exists rs', k. split; [done|]. split; [done|]. split; [done|]. split; [|done].
  exists r. unfold id_names. rewrite H1, H2. split; [done|]. split; [congruence|done].
Qed.

Lemma semget_wp L rs rclk now key nsems semflg g :
  inv si L rs g ->
  wp (sysvSemGet rclk self now key nsems semflg) (semget_post L rs nsems g)
    (fun _ g' => inv si L rs g' /\ unchanged g g') g.
Proof.
  intros Hg. unfold sysvSemGet. destruct (negb (rclk =? 0)); [by apply wp_err|].
  apply (wp_with_undo si L rs); [done|]. intros Hg1.
  set (g1 := set_gmtx (gmtx g + 1) g) in *. set (L1 := (L.1, L.2 + 1)) in *.
  eapply wp_run_bind; [done|]. apply wp_bind.
  eapply wp_conseq; [by apply (semget_find_wp L1 rs now key nsems semflg g1)| |].
  - intros ix g2 Hgot. destruct (got_id _ _ _ _ _ _ Hgot) as (rs' & k & Hg2 & Hk & Hid & Hnames & Hor).
    eapply wp_run_bind; [by apply get_ds_run|]. apply wp_ret. exists rs'. split; [done|]. intros Hg3.
    exists rs'. split; [done|]. split; [done|]. rewrite Hid.
    destruct Hor as [[-> Hu]|(r & Hn & Hb & Hl & Hg4 & Hz & Hp)]; [by left|right].
    assert (rs' = aset rs ix (Some r)) as ->.
    { rewrite <-(iv_ranges _ _ _ _ Hg2). apply (iv_ranges _ _ _ _ Hg4). }
    exists r. by split_and!.
  - intros e g2 ->. exists rs. split; [done|]. intros Hg3. done.
Qed.
End Get.
