(* ===== verification/SysVSemSystem.v ===== *)
(** The System V semaphores as a system of processes: every call as one step of
    a transition relation, the sleeping [semop] calls included, and the
    properties of the reachable states. *)

From S2P Require Import Prelude.
From S2P Require Import Creds.
From S2P Require Import SysVSem.
From S2P Require Import SysVSemFacts.
From S2P Require Import SysVSemSafe.
From S2P Require Import SysVSemOp.
From S2P Require Import SysVSemCtl.

(** ** [semctl] as a whole *)

(** The caller passes the member of [union semun] the command uses, and an
    array as long as the set. *)
Definition arg_ok (rs : list (option rng)) (semid cmd : Z) (arg : semun) : Prop :=
  if cmd =? IPC_SET then (exists d, arg = ArgBuf d)
  else if cmd =? SETVAL then (exists v, arg = ArgVal v)
  else if cmd =? SETALL then
    (exists a, arg = ArgArray a /\ forall r, aget rs (IPCID_TO_IX semid) = Some (Some r) -> rlen r <= alen a)
  else True.

Lemma semctl_wp si L rs self now semid semnum cmd arg g :
  inv si L rs g -> arg_ok rs semid cmd arg ->
  wp (sysvSemCtl self now semid semnum cmd arg)
    (fun _ g' => inv si L rs g' \/ removal si (IPCID_TO_IX semid) L rs g g')
    (fun _ g' => inv si L rs g') g.
Proof.
  intros Hg Harg. unfold sysvSemCtl.
  assert (Hs : forall A (m : G A), safe si L rs m (fun _ => True) ->
    wp m (fun _ g' => inv si L rs g' \/ removal si (IPCID_TO_IX semid) L rs g g')
      (fun _ g' => inv si L rs g') g).
  { intros A m Hm. eapply wp_conseq; [by apply Hm| |done]. intros a g' [_ ?]. by left. }
  destruct (cmd =? SEM_STAT) eqn:Hstat; [apply Hs, safe_SEM_STAT|].
  eapply wp_run_bind; [done|]. rewrite (iv_info _ _ _ _ Hg). unfold arg_ok in Harg.
  destruct (_ || _)%bool eqn:Hr; [by apply wp_err|]. breflect. rename semid into id.
  assert (Hix : 0 <= IPCID_TO_IX id < semmni si) by lia.
  destruct (Z.eqb_spec cmd IPC_RMID).
  { eapply wp_conseq; [by apply rmid_wp|by right|]. by intros ? g' [? _]. }
  destruct (cmd =? IPC_SET); [destruct Harg as [d ->]; by apply Hs, safe_IPC_SET|].
  destruct (cmd =? IPC_STAT); [by apply Hs, safe_IPC_STAT|].
  destruct (cmd =? GETNCNT); [by apply Hs, safe_semctl_get|].
  destruct (cmd =? GETPID); [by apply Hs, safe_semctl_get|].
  destruct (cmd =? GETVAL); [by apply Hs, safe_semctl_get|].
  destruct (cmd =? GETALL); [by apply Hs, safe_GETALL|].
  destruct (cmd =? GETZCNT); [by apply Hs, safe_semctl_get|].
  destruct (cmd =? SETVAL); [destruct Harg as [v ->]; by apply Hs, safe_SETVAL|].
  destruct (cmd =? SETALL); [destruct Harg as (a & -> & Ha); by apply Hs, safe_SETALL|].
  by apply wp_err.
Qed.

(** ** The initial block *)

Definition unlocked (si : seminfo) : list Z * Z := (replicate (Z.to_nat (semmni si)) 0, 0).

(** The undo structures have room for [semume] entries. *)
Definition room_ok (si : seminfo) : Prop := semume si <= (semusz si - 12) / 8.

Lemma fresh_inv si :
  limits_ok si -> room_ok si ->
  inv si (unlocked si) (replicate (Z.to_nat (semmni si)) None) (fresh_globals si).
Proof.
  intros Hlim Hroom. pose proof Hlim as [Hmni Hmns Hmnu Hmsl Hume Hvmx Haem]. constructor; cbn; try done.
  - constructor; cbn; try done; rewrite ?alen_replicate; lia.
  - unfold ranges. cbn. by rewrite fmap_replicate.
  - constructor.
    + by intros i r Hr%aget_replicate.
    + by intros i j r q _ Hr%aget_replicate.
    + rewrite fmap_replicate. cbn. clear. by induction (Z.to_nat (semmni si)).
    + by intros i r Hr%aget_replicate.
  - apply Forall_replicate. cbn. lia.
  - constructor; [apply NoDup_nil_2| | | |].
    + intros i s Hs%aget_replicate. subst s. cbn. split; [by intros Hn%not_elem_of_nil|done].
    + by intros i Hn%not_elem_of_nil.
    + intros i s Hs%aget_replicate. subst s. constructor; cbn; [lia| |done|apply NoDup_nil_2].
      unfold room_ok in Hroom. rewrite alen_replicate; lia.
    + by intros i j s t Hn%not_elem_of_nil.
  - unfold lockst. cbn. by rewrite fmap_replicate.
  - split; [|lia]. by apply Forall_replicate.
Qed.

(** ** The transition system *)

(** A state of the system: the block and the [semop] calls that sleep, each
    with its process; or a crash. *)
Inductive config :=
  | Running (g : sysv_sem) (sleepers : list (SPMPROCESS * sleeper))
  | Crashed (f : fault).

(** After a call that does not sleep. *)
Definition after {A} (o : outcome sysv_sem A) (sl : list (SPMPROCESS * sleeper)) : config :=
  match o with
  | Done _ g | Err _ g => Running g sl
  | Fault f => Crashed f
  end.

Definition after_semop (self : SPMPROCESS) (o : outcome sysv_sem semop_res)
    (sl : list (SPMPROCESS * sleeper)) : config :=
  match o with
  | Done (SemSleep s) g => Running g ((self, s) :: sl)
  | _ => after o sl
  end.

(** No process still sleeps on a former set with the id of the new one: 2^15
    sets were not made in its slot meanwhile. *)
Definition no_reuse (g : sysv_sem) (o : outcome sysv_sem Z) (sl : list (SPMPROCESS * sleeper)) : Prop :=
  match o with
  | Done id _ => is_allocated g (IPCID_TO_IX id) = false ->
      Forall (fun ps => IPCID_TO_IX (sl_semid_in ps.2) <> IPCID_TO_IX id \/
                        IPCID_TO_SEQ (sl_semid_in ps.2) <> IPCID_TO_SEQ id) sl
  | _ => True
  end.

Inductive sem_step : config -> config -> Prop :=
  | st_semget self rclk now key nsems semflg g sl :
      no_reuse g (sysvSemGet rclk self now key nsems semflg g) sl ->
      sem_step (Running g sl) (after (sysvSemGet rclk self now key nsems semflg g) sl)
  | st_semctl self now semid semnum cmd arg g sl :
      arg_ok (ranges g) semid cmd arg ->
      sem_step (Running g sl) (after (sysvSemCtl self now semid semnum cmd arg g) sl)
  | st_semop self rclk now semid_in sops g sl :
      pid self <> 0 -> Forall (fun sop => 0 <= sem_num sop) sops ->
      sem_step (Running g sl) (after_semop self (semop_enter rclk self now semid_in sops g) sl)
  | st_wake self evrc now s g sl1 sl2 :
      sem_step (Running g (sl1 ++ (self, s) :: sl2))
        (after_semop self (semop_resume evrc self now s g) (sl1 ++ sl2)).

Definition sem_reach (si : seminfo) : config -> Prop := rtc sem_step (Running (fresh_globals si) []).

(** *** Every step keeps the system safe *)

Definition sleeper_fine (si : seminfo) (rs : list (option rng)) (ps : SPMPROCESS * sleeper) : Prop :=
  pid ps.1 <> 0 /\ sl_ok si rs ps.2.

Definition sys_ok (si : seminfo) (c : config) : Prop :=
  exists g sl rs, c = Running g sl /\ inv si (unlocked si) rs g /\ Forall (sleeper_fine si rs) sl.

Lemma sleeper_fine_removed si rs ix r ps :
  aget rs ix = Some (Some r) -> sleeper_fine si rs ps -> sleeper_fine si (removed ix r rs) ps.
Proof.
  intros Hr (Hp & H1 & H2 & H3). split; [done|]. split; [done|]. split; [done|].
  intros q Hq Hs. apply removed_get in Hq as (_ & q0 & Hq0 & ->); [|by eapply aget_Some_range].
  unfold shift_rng in *. destruct (_ >? _); cbn in *; by apply H3.
Qed.

Lemma sleeper_fine_created si rs ix r ps :
  aget rs ix = Some None -> (IPCID_TO_IX (sl_semid_in ps.2) <> ix \/ rseq r <> IPCID_TO_SEQ (sl_semid_in ps.2)) ->
  sleeper_fine si rs ps -> sleeper_fine si (aset rs ix (Some r)) ps.
Proof.
  intros Hr Hne (Hp & H1 & H2 & H3). split; [done|]. split; [done|]. split; [done|].
  intros q. rewrite aget_aset by by eapply aget_Some_range. case_decide as Hd; [|apply H3].
  intros [= ->] Hs. destruct Hne; congruence.
Qed.

Lemma wp_after {A} si (m : G A) g sl (Q : A -> sysv_sem -> Prop) (E : Z -> sysv_sem -> Prop) :
  wp m Q E g ->
  (forall a g', m g = Done a g' -> Q a g' -> sys_ok si (Running g' sl)) ->
  (forall e g', E e g' -> sys_ok si (Running g' sl)) ->
  sys_ok si (after (m g) sl).
Proof. unfold wp. destruct (m g) as [a g'|e g'|f] eqn:Hm; cbn; [|eauto|done]. intros HQ H1 H2. by eapply H1. Qed.

Lemma wp_after_semop si self (m : G semop_res) g sl (Q : semop_res -> sysv_sem -> Prop) (E : Z -> sysv_sem -> Prop) :
  wp m Q E g ->
  (forall g', Q SemDone g' -> sys_ok si (Running g' sl)) ->
  (forall s g', Q (SemSleep s) g' -> sys_ok si (Running g' ((self, s) :: sl))) ->
  (forall e g', E e g' -> sys_ok si (Running g' sl)) ->
  sys_ok si (after_semop self (m g) sl).
Proof. unfold wp. destruct (m g) as [[|s] g'|e g'|f]; cbn; eauto. done. Qed.

Lemma sys_ok_intro si rs g sl :
  inv si (unlocked si) rs g -> Forall (sleeper_fine si rs) sl -> sys_ok si (Running g sl).
Proof. intros. by exists g, sl, rs. Qed.

Lemma get_step_ok si rs g sl rclk self now key nsems semflg :
  inv si (unlocked si) rs g -> Forall (sleeper_fine si rs) sl ->
  no_reuse g (sysvSemGet rclk self now key nsems semflg g) sl ->
  sys_ok si (after (sysvSemGet rclk self now key nsems semflg g) sl).
Proof.
  intros Hg Hsl Hno. eapply wp_after; [by apply semget_wp| |by intros ?? [? _]; eapply sys_ok_intro].
  intros id g' Hrun (rs' & Hg' & (r & Hn & Hs & _) & Hor). rewrite Hrun in Hno. cbn in Hno.
  destruct Hor as [[-> _]|(r' & Hfree & _ & _ & Hg2 & _)]; [by eapply sys_ok_intro|].
  assert (Hrs : rs' = aset rs (IPCID_TO_IX id) (Some r')).
  { rewrite <-(iv_ranges _ _ _ _ Hg'). apply (iv_ranges _ _ _ _ Hg2). }
  eapply sys_ok_intro; [exact Hg2|]. subst rs'.
  rewrite aget_aset_eq in Hn by by eapply aget_Some_range. injection Hn as ->.
  assert (Hfree' : is_allocated g (IPCID_TO_IX id) = false).
  { unfold is_allocated. rewrite <-(iv_ranges _ _ _ _ Hg) in Hfree. unfold ranges in Hfree.
    rewrite aget_fmap in Hfree. destruct (aget (sema g) (IPCID_TO_IX id)) as [k|]; [|done].
    cbn in Hfree. unfold krange, kalloc in Hfree. by destruct (has_bits _ _). }
  specialize (Hno Hfree'). rewrite Forall_forall in Hno, Hsl |- *. intros ps Hps.
  apply sleeper_fine_created; [done| |by apply Hsl]. rewrite <-Hs. destruct (Hno ps Hps); [by left|right; congruence].
Qed.

Lemma ctl_step_ok si rs g sl self now semid semnum cmd arg :
  inv si (unlocked si) rs g -> Forall (sleeper_fine si rs) sl -> arg_ok rs semid cmd arg ->
  sys_ok si (after (sysvSemCtl self now semid semnum cmd arg g) sl).
Proof.
  intros Hg Hsl Harg. eapply wp_after; [by apply semctl_wp| |intros ? ? ?; by apply (sys_ok_intro si rs)].
  intros a g' _ [Hg'|(r & Hr & Hg' & _)]; [by eapply sys_ok_intro|].
  eapply sys_ok_intro; [exact Hg'|]. eapply Forall_impl; [exact Hsl|].
  intros ps. by apply sleeper_fine_removed.
Qed.

(** A turn of [semop], from its start or after a wake-up. *)
Lemma turn_ok si rs g sl self semid_in sops du (m : G semop_res) :
  inv si (unlocked si) rs g -> pid self <> 0 -> Forall (sleeper_fine si rs) sl ->
  wp m (turn_post si rs self (unlocked si) semid_in sops du g) (turn_err si rs (unlocked si) g) g ->
  sys_ok si (after_semop self (m g) sl).
Proof.
  intros Hg Hpid Hsl Hm. eapply wp_after_semop; [exact Hm| | |].
  - intros g' (r & _ & _ & _ & Hg' & _). by eapply sys_ok_intro.
  - intros s g' (r & Hr & Hseq & Hnums & Hg' & _ & Hidx & Hs & Hid).
    eapply sys_ok_intro; [done|]. constructor; [|done]. split; [done|]. split; [done|].
    cbn [snd]. rewrite Hid, Hs. split; [|intros q Hq _; by simplify_eq].
    pose proof (aget_Some_range _ _ _ Hr) as Hrg. rewrite <-(iv_ranges _ _ _ _ Hg) in Hrg.
    unfold ranges, alen in Hrg. rewrite length_fmap in Hrg. fold (alen (sema g)) in Hrg.
    by rewrite (sh_sema _ (iv_shape _ _ _ _ Hg)), (iv_info _ _ _ _ Hg) in Hrg.
  - intros e g' (_ & Hg' & _). by eapply sys_ok_intro.
Qed.

Lemma sem_step_ok si c c' : sys_ok si c -> sem_step c c' -> sys_ok si c'.
Proof.
  intros (g & sl & rs & -> & Hg & Hsl) Hstep. inversion Hstep; subst.
  - by eapply get_step_ok.
  - eapply ctl_step_ok; [done..|]. by rewrite <-(iv_ranges _ _ _ _ Hg).
  - eapply turn_ok; try done. by apply semop_enter_wp.
  - apply Forall_app in Hsl as [H1 H2]. inversion H2 as [|? ? [Hpid Hs] H3]; subst.
    eapply turn_ok; [done|done|by apply Forall_app|]. by apply semop_resume_wp.
Qed.

Lemma sem_reach_ok si c : limits_ok si -> room_ok si -> sem_reach si c -> sys_ok si c.
Proof.
  intros Hlim Hroom Hr. unfold sem_reach in Hr.
  remember (Running (fresh_globals si) []) as c0 eqn:Hc0.
  assert (Hok : sys_ok si c0).
  { subst. eapply sys_ok_intro; [by apply fresh_inv|constructor]. }
  clear Hc0. induction Hr as [|c1 c2 c3 Hs Hr IH]; [done|]. apply IH. by eapply sem_step_ok.
Qed.
