(* ===== verification/SysVSemProps.v ===== *)
(** What the System V semaphores guarantee, and where they fall short: the
    theorems on reachable states, on one [semop] call, on the undo tables, on
    the removal and creation of sets, on wake-ups and on process exit. *)

From S2P Require Import Prelude.
From S2P Require Import Creds.
From S2P Require Import SysVSem.
From S2P Require Import SysVSemFacts.
From S2P Require Import SysVSemSafe.
From S2P Require Import SysVSemOp.
From S2P Require Import SysVSemCtl.
From S2P Require Import SysVSemSystem.

(** ** A block to evaluate on: one set of two semaphores made by root *)

Definition proc (p : Z) : SPMPROCESS := mk_SPMPROCESS p 1 1 1 0 0 0 0 0 0 [].
Definition si0 : seminfo := default_seminfo.
Definition run_or {S A} (d : S) (o : outcome S A) : S :=
  match o with Done _ s | Err _ s => s | Fault _ => d end.
Definition demo : sysv_sem :=
  run_or (fresh_globals si0) (sysvSemGet 0 (proc 7) 100 42 2 (Z.lor IPC_CREAT 0x1b6) (fresh_globals si0)).
Definition demo_id : Z := 0x10000.

Lemma inv_self si L rs g : inv si L rs g -> inv si L (ranges g) g.
Proof. intros Hg. by rewrite (iv_ranges _ _ _ _ Hg). Qed.

Lemma limits_ok0 : limits_ok si0.
Proof. constructor; cbn; lia. Qed.

Lemma room_ok0 : room_ok si0.
Proof. by vm_compute. Qed.

Lemma demo_get : sysvSemGet 0 (proc 7) 100 42 2 (Z.lor IPC_CREAT 0x1b6) (fresh_globals si0) = Done demo_id demo.
Proof. vm_compute. done. Qed.

Lemma demo_inv : inv si0 (unlocked si0) (ranges demo) demo.
Proof.
  pose proof (semget_wp si0 (proc 7) (unlocked si0) _ 0 100 42 2 (Z.lor IPC_CREAT 0x1b6) _
    (fresh_inv si0 limits_ok0 room_ok0)) as H.
  unfold wp in H. rewrite demo_get in H. destruct H as (rs' & Hg & _).
  by apply (inv_self _ _ _ _ Hg).
Qed.

(** ** Reachable states *)

(** C1: Whatever sequence of [semget], [semctl] and [semop] calls the processes
    make one after the other, in whatever order the sleeping [semop] calls are
    woken or interrupted, no call touches memory outside of the arrays or panics,
    every mutex is free between the calls, the allocated sets tile the used part
    of the semaphore pool without overlap, every value is in [0 .. semvmx], and
    the undo structures are well formed with at most one per process. A step is
    a call from its start to its end or to its sleep, or from a wake-up on:
    calls that overlap otherwise, with the races of [IPC_RMID] against the calls
    on other sets, are no steps. A new set does not get the id of a former set
    that a call still sleeps on ([no_reuse]: 2^15 sets of its slot later), and
    [semctl] is given the member of its argument that the command uses, an array
    as long as the set ([arg_ok]). *)
Theorem sem_system_safe si c :
  limits_ok si -> room_ok si -> sem_reach si c ->
  exists g sl rs, c = Running g sl /\ inv si (unlocked si) rs g.
Proof.
  intros Hlim Hroom Hr. destruct (sem_reach_ok si c Hlim Hroom Hr) as (g & sl & rs & Hc & Hg & _).
  by exists g, sl, rs.
Qed.

Lemma sem_system_safe_witness :
  exists c, sem_reach si0 c /\ exists g sl rs, c = Running g sl /\ inv si0 (unlocked si0) rs g.
Proof.
  set (c1 := after (sysvSemGet 0 (proc 7) 100 42 2 (Z.lor IPC_CREAT 0x1b6) (fresh_globals si0)) []).
  set (c2 := after_semop (proc 8) (semop_enter 0 (proc 8) 101 demo_id [mk_sembuf 0 (-1) 0] demo) []).
  assert (Hr : sem_reach si0 c2).
  { apply (rtc_l _ _ c1); [apply st_semget; rewrite demo_get; intros _; constructor|]. unfold c1. rewrite demo_get. apply rtc_once. cbn [after].
    apply st_semop; [done|]. by repeat constructor. }
  exists c2. split; [exact Hr|]. apply (sem_system_safe si0 c2 limits_ok0 room_ok0 Hr).
Defined.

(** ** One [semop] call *)

(** C6: [semop] is all or nothing.  Entered in any state of the invariant, it
    never faults; if it returns success every semaphore value moved by exactly
    the sum of the requests for it (no wrap-around), the caller's undo table
    took every SEM_UNDO request and no other process's table changed; if it
    goes to sleep or fails, whatever the error, including a failure to record
    an undo half way, all values and all undo tables are what they were. *)
Theorem semop_all_or_nothing si L rs rclk self now semid_in sops g :
  inv si L rs g -> pid self <> 0 -> Forall (fun sop => 0 <= sem_num sop) sops ->
  match semop_enter rclk self now semid_in sops g with
  | Done SemDone g' =>
      inv si L rs g' /\
      exists r, aget rs (IPCID_TO_IX semid_in) = Some (Some r) /\
        (forall i v, aget (vals g) i = Some v -> aget (vals g') i = Some (v + delta (rbase r) sops i)) /\
        (forall p, p <> pid self -> p <> 0 -> proc_undo g' p = proc_undo g p) /\
        (existsb wants_undo sops = true ->
          undo_all si (IPCID_TO_IX semid_in) sops (proc_undo g (pid self)) = (0, proc_undo g' (pid self)))
  | Done (SemSleep _) g' | Err _ g' =>
      inv si L rs g' /\ vals g' = vals g /\ forall p, p <> 0 -> proc_undo g' p = proc_undo g p
  | Fault _ => False
  end.
Proof.
  intros Hg Hpid Hpos. pose proof (semop_enter_wp si rs self Hpid L rclk now semid_in sops g Hg Hpos) as H.
  unfold wp in H. destruct (semop_enter _ _ _ _ _ _) as [[|s] g'|e g'|f]; [..|done].
  - destruct H as (r & Hr & _ & _ & Hg' & Hv & Ho & Hu). split; [done|]. exists r.
    split_and!; [done|done|done|]. intros Hw. by rewrite Hw in Hu.
  - destruct H as (r & _ & _ & _ & Hg' & Hu & _). by split.
  - destruct H as (_ & Hg' & Hu). by split.
Qed.

Lemma semop_all_or_nothing_witness :
  aget (vals demo) 0 = Some 0 /\
  match semop_enter 0 (proc 8) 5 demo_id [mk_sembuf 0 3 SEM_UNDO; mk_sembuf 1 2 0] demo with
  | Done SemDone g' => aget (vals g') 0 = Some 3
  | _ => False
  end.
Proof.
  split; [by vm_compute|].
  pose proof (semop_all_or_nothing si0 (unlocked si0) (ranges demo) 0 (proc 8) 5 demo_id
    [mk_sembuf 0 3 SEM_UNDO; mk_sembuf 1 2 0] demo demo_inv) as H.
  destruct (semop_enter _ _ _ _ _ _) as [[|s] g'|e g'|f] eqn:Hrun; [|by vm_compute in Hrun..].
  destruct H as (_ & r & Hr & Hv & _); [done|by repeat constructor|].
  assert (r = mk_rng 0 2 1) as -> by (vm_compute in Hr; congruence).
  exact (Hv 0 0 eq_refl).
Defined.

(** ** The undo tables *)

(** C34: [semundo_adjust] on the caller's structure implements the table
    operation [adjust_spec] for every well-formed structure: the array of
    entries (found by a linear search, deleted by moving the last entry into
    the hole) stands for a finite map from (set, semaphore) to a non-zero
    adjustment within [semaem]; the new adjustment is the sum, a zero sum drops
    the entry, a sum out of range is ERANGE and a full table EINVAL, and in
    both cases the table stays; no access leaves the array. *)
Theorem semundo_adjust_refines si semid semnum adj s :
  un_ok si s -> limits_ok si -> adj <> 0 -> 0 <= semnum < 2 ^ 15 ->
  exists e s', semundo_adjust_entry si semid semnum adj s = Some (e, s') /\
    un_ok si s' /\ un_proc s' = un_proc s /\
    adjust_spec si (undo_map s) (semid, semnum) adj = (e, undo_map s').
Proof.
  intros Hok Hlim Ha Hn. destruct (adjust_entry_refines si semid semnum adj s Hok Hlim Ha Hn)
    as (e & s' & H1 & H2 & H3 & _ & H4). by exists e, s'.
Qed.

Definition demo_un : sem_undo :=
  mk_sem_undo 8 2 (mk_undo 5 0 0 :: mk_undo (-3) 1 0 :: replicate 8 (mk_undo 0 0 0)).

Lemma demo_un_ok : un_ok si0 demo_un.
Proof.
  constructor; [cbn; lia|unfold alen; cbn; lia| |].
  - repeat constructor; cbn; lia.
  - cbn. apply NoDup_cons. split; [by intros H%list_elem_of_singleton|apply NoDup_singleton].
Qed.

Lemma semundo_adjust_refines_witness :
  exists s', semundo_adjust_entry si0 0 0 (-5) demo_un = Some (0, s') /\ undo_map s' !! (0, 0) = None /\ un_cnt s' = 1.
Proof.
  destruct (semundo_adjust_refines si0 0 0 (-5) demo_un) as (e & s' & Hr & _ & _ & Hs).
  - exact demo_un_ok.
  - exact limits_ok0.
  - lia.
  - lia.
  - vm_compute in Hr. injection Hr as <- <-. eexists. split; [by vm_compute|]. split; [|done].
    vm_compute in Hs. by vm_compute.
Defined.

(** ** Removal and creation *)

(** What the kernel block of set [j] tells about it besides its place in the
    pool: owner, permissions and key, length and times. *)
Definition label (g : sysv_sem) (j : Z) : option (ipc_perm * Z * Z * Z) :=
  (fun k => (sem_perm (ku k), sem_nsems (ku k), sem_otime (ku k), sem_ctime (ku k))) <$> aget (sema g) j.

(** [m] leaves the labels of all sets but [ix] as they are. *)
Definition spares (ix : Z) {A} (m : G A) : Prop := forall g,
  match m g with Done _ g' | Err _ g' => forall j, j <> ix -> label g' j = label g j | Fault _ => True end.

Section Spares.
Context (ix : Z).
Implicit Types (A B : Type).

Lemma spares_ret {A} (a : A) : spares ix (mret a).
Proof. by intros g. Qed.
Lemma spares_err {A} e : spares ix (merr (A := A) e).
Proof. by intros g. Qed.
Lemma spares_fail {A} f : spares ix (mfail (A := A) f).
Proof. by intros g. Qed.
Lemma spares_gets {A} (f : sysv_sem -> A) : spares ix (gets f).
Proof. by intros g. Qed.
Lemma spares_mod f : (forall g, sema (f g) = sema g) -> spares ix (mmod f).
Proof. intros Hf g j _. unfold label. by rewrite Hf. Qed.
Lemma spares_bind {A B} (m : G A) (k : A -> G B) : spares ix m -> (forall a, spares ix (k a)) -> spares ix (m ≫= k).
Proof.
  intros Hm Hk g. unfold mbind, M_bind. specialize (Hm g). destruct (m g) as [a g'|e g'|f]; [|done|done].
  specialize (Hk a g'). destruct (k a g') as [b g2|e g2|f]; [| |done]; intros j Hj; by rewrite Hk, Hm.
Qed.
Lemma spares_finally {A} (m : G A) (c : G unit) : spares ix m -> spares ix c -> spares ix (finally m c).
Proof.
  intros Hm Hc g. unfold finally. specialize (Hm g). destruct (m g) as [a g'|e g'|f]; [| |done];
    specialize (Hc g'); destruct (c g') as [b g2|e2 g2|f]; try done; intros j Hj; by rewrite Hc, Hm.
Qed.
Lemma spares_for {A} (l : list A) f : (forall x, x ∈ l -> spares ix (f x)) -> spares ix (mfor l f).
Proof.
  induction l as [|x l IH]; intros Hf; [apply spares_ret|]. cbn [mfor]. apply spares_bind; [apply Hf; by left|].
  intros _. apply IH. intros y Hy. apply Hf. by right.
Qed.
Lemma spares_when b (m : G unit) : spares ix m -> spares ix (mwhen b m).
Proof. intros Hm. destruct b; [done|apply spares_ret]. Qed.
Lemma spares_err_if b e : spares ix (err_if b e).
Proof. destruct b; [apply spares_err|apply spares_ret]. Qed.
Lemma spares_deref {A} (o : option A) : spares ix (deref o).
Proof. destruct o; [apply spares_ret|apply spares_fail]. Qed.

(** An update of entry [i] that keeps its label, or of entry [ix]. *)
Lemma spares_entry i (f : semid_kernel -> G unit) (u : semid_kernel -> semid_kernel) :
  0 <= i -> (forall k, f k = mmod (fun g => set_sema (aset (sema g) i (u k)) g) \/ exists x, f k = mfail x) ->
  (i = ix \/ forall k, (sem_perm (ku (u k)), sem_nsems (ku (u k)), sem_otime (ku (u k)), sem_ctime (ku (u k))) =
                       (sem_perm (ku k), sem_nsems (ku k), sem_otime (ku k), sem_ctime (ku k))) ->
  spares ix (k ← gets (fun g => aget (sema g) i); k ← deref k; f k).
Proof.
  intros Hi Hf Hu g. unfold mbind, M_bind, gets. destruct (aget (sema g) i) as [k|] eqn:Hk; cbn; [|done].
  destruct (Hf k) as [->|[x ->]]; cbn; [|done]. intros j Hj. unfold label. cbn. destruct (decide (i = j)) as [->|Hij].
  - rewrite aget_aset_eq, Hk by by eapply aget_Some_range. cbn. destruct Hu as [->|Hu]; [done|]. by rewrite Hu.
  - by rewrite aget_aset_ne.
Qed.
End Spares.

Ltac spares_tac :=
  repeat (lazymatch goal with |- spares _ (upd_ds _ _) => fail | _ => idtac end; first
    [ assumption | apply spares_ret | apply spares_err | apply spares_fail | apply spares_gets | apply spares_deref
    | apply spares_err_if | apply spares_finally | apply spares_when | apply spares_bind; [|intros ?]
    | apply spares_for; intros ? ? | apply spares_mod; done ]).

Lemma spares_rmid self semid_in ix : 0 <= ix -> spares ix (semctl_IPC_RMID self semid_in ix).
Proof.
  intros Hix.
  assert (forall i f, 0 <= i -> i = ix \/ (forall d, sem_perm (f d) = sem_perm d /\ sem_nsems (f d) = sem_nsems d /\
    sem_otime (f d) = sem_otime d /\ sem_ctime (f d) = sem_ctime d) -> spares ix (upd_ds i f)) as Hupd.
  { intros i f Hi Hf. apply (spares_entry ix i _ (set_u f)); [done|by left|]. destruct Hf as [->|Hf]; [by left|right].
    intros k. cbn. by destruct (Hf (ku k)) as (-> & -> & -> & ->). }
  assert (spares ix (mtx_lock ix)) as Hl.
  { apply (spares_entry ix ix _ (fun k => set_mtx (kmtx k + 1) k)); [done|by left|by left]. }
  assert (spares ix (mtx_unlock ix)) as Hu.
  { apply (spares_entry ix ix _ (fun k => set_mtx (kmtx k - 1) k)); [done| |by left].
    intros k. destruct (_ <=? _); [right; by eexists|by left]. }
  assert (spares ix (ev_wakeup ix)) as Hev.
  { apply (spares_entry ix ix _ (fun k => mk_semid_kernel (ku k) (kev k + 1) (kmtx k))); [done|by left|by left]. }
  unfold semctl_IPC_RMID, with_mtx, check_sem, semctl_compact, semctl_rebase, with_undo, semundo_clear,
    SEMUNDO_LOCK, SEMUNDO_UNLOCK, put_un, get_un, get_sem, get_ds.
  spares_tac; try (apply Hupd; [done|by left]).
  - apply Hupd; [|by right]. match goal with Hi : _ ∈ zrange _ _ |- _ => apply elem_of_zrange in Hi; lia end.
  - destruct (_ <=? _); spares_tac.
Qed.

(** C26: A successful [semctl(IPC_RMID)] frees exactly that set: every other set
    keeps its id, its owner, permissions and key, its times, its length and
    each of its semaphores, although the pool was compacted under them and
    their base moved, and the undo tables of all processes lose exactly the
    entries of the removed set.  A failing one leaves the values, the
    undo tables and the other sets as they are. *)
Theorem semctl_rmid_frame si L rs self semid_in ix g :
  inv si L rs g -> 0 <= ix < semmni si ->
  match semctl_IPC_RMID self semid_in ix g with
  | Done _ g' =>
      (exists rs', inv si L rs' g' /\ aget rs' ix = Some None /\
       forall j q, j <> ix -> aget rs j = Some (Some q) ->
         exists q', aget rs' j = Some (Some q') /\ rlen q' = rlen q /\ rseq q' = rseq q /\
           forall num, 0 <= num < rlen q -> aget (spool g') (rbase q' + num) = aget (spool g) (rbase q + num)) /\
      (forall j, j <> ix -> label g' j = label g j) /\
      forall p, proc_undo g' p = filter (fun kv => kv.1.1 <> ix) (proc_undo g p)
  | Err _ g' => inv si L rs g' /\ vals g' = vals g /\ (forall j, j <> ix -> label g' j = label g j) /\
      forall p, p <> 0 -> proc_undo g' p = proc_undo g p
  | Fault _ => False
  end.
Proof.
  intros Hg Hix. pose proof (rmid_wp si self ix Hix L rs semid_in g Hg) as H.
  pose proof (spares_rmid self semid_in ix ltac:(lia) g) as Hl. unfold wp in H.
  destruct (semctl_IPC_RMID self semid_in ix g) as [a g'|e g'|f]; [|by destruct H as [? [? ?]]|done].
  destruct H as (r & Hr & Hg' & [_ Hm] & Hp). split; [|by split]. exists (removed ix r rs).
  pose proof (aget_Some_range _ _ _ Hr) as Hrg. split; [done|].
  assert (Hlen : 0 <= ix < alen (shift_opt r <$> rs)) by (unfold alen in *; by rewrite length_fmap).
  split; [by apply aget_aset_eq|]. intros j q Hj Hq. exists (shift_rng r q).
  destruct (so_in _ _ (iv_sets _ _ _ _ Hg) _ _ Hr) as (Hr1 & Hr2 & Hr3).
  destruct (so_in _ _ (iv_sets _ _ _ _ Hg) _ _ Hq) as (Hq1 & Hq2 & Hq3).
  pose proof (so_disj _ _ (iv_sets _ _ _ _ Hg) _ _ _ _ Hj Hq Hr) as Hd.
  split; [unfold removed; rewrite aget_aset_ne, aget_fmap, Hq by lia; done|].
  unfold shift_rng. rewrite Z.gtb_ltb. destruct (Z.ltb_spec (rbase r) (rbase q)); cbn [rlen rseq rbase].
  - split_and!; [done..|]. intros num Hn. rewrite Hm. zbool. f_equal. lia.
  - split_and!; [done..|]. intros num Hn. rewrite Hm. zbool. done.
Qed.

(** Two sets, of two and one semaphores; the second has the value 5. *)
Definition demo2 : sysv_sem :=
  run_or demo (semctl_SETVAL (proc 7) 0x10001 1 0 5
    (run_or demo (sysvSemGet 0 (proc 7) 101 43 1 (Z.lor IPC_CREAT 0x1b6) demo))).

Lemma demo2_inv : inv si0 (unlocked si0) (ranges demo2) demo2.
Proof.
  set (g1 := run_or demo (sysvSemGet 0 (proc 7) 101 43 1 (Z.lor IPC_CREAT 0x1b6) demo)).
  assert (H1 : exists rs, inv si0 (unlocked si0) rs g1).
  { pose proof (semget_wp si0 (proc 7) (unlocked si0) _ 0 101 43 1 (Z.lor IPC_CREAT 0x1b6) _ demo_inv) as H.
    unfold wp in H. unfold g1. destruct (sysvSemGet _ _ _ _ _ _ _) as [a g'|e g'|f]; [|by eexists; apply H|done].
    destruct H as (rs' & Hg & _). by exists rs'. }
  destruct H1 as [rs H1].
  pose proof (safe_SETVAL si0 (unlocked si0) rs (proc 7) 1 ltac:(cbn; lia) 0x10001 0 5 g1 H1) as H.
  unfold demo2. fold g1. unfold wp in H. destruct (semctl_SETVAL _ _ _ _ _ _) as [a g'|e g'|f]; [| |done].
  - apply (inv_self _ _ _ _ (proj2 H)).
  - apply (inv_self _ _ _ _ H).
Qed.

Lemma semctl_rmid_frame_witness :
  match semctl_IPC_RMID (proc 7) demo_id 0 demo2 with
  | Done _ g' => exists q', aget (ranges g') 1 = Some (Some q') /\ semval <$> aget (spool g') (rbase q') = Some 5
  | _ => False
  end.
Proof.
  pose proof (semctl_rmid_frame si0 (unlocked si0) (ranges demo2) (proc 7) demo_id 0 demo2 demo2_inv
    ltac:(cbn; lia)) as H.
  destruct (semctl_IPC_RMID (proc 7) demo_id 0 demo2) as [a g'|e g'|f] eqn:Hrun; [|by vm_compute in Hrun..].
  destruct H as ((rs' & Hg & _ & H) & _).
  destruct (H 1 (mk_rng 2 1 1)) as (q' & Hq & _ & _ & Hv); [lia|by vm_compute|].
  exists q'. split; [by rewrite (iv_ranges _ _ _ _ Hg)|]. rewrite <-(Z.add_0_r (rbase q')), Hv by (cbn; lia).
  by vm_compute.
Defined.

(** The id a successful [semget] returns names a live set and is
    non-negative; either the block is unchanged or a new set of exactly the
    asked length was made in a free slot, at the end of the used pool, with all
    its values and counters zero, while every other set, all other semaphores
    and the undo tables stay as they were. *)
Theorem semget_result si L rs rclk self now key nsems semflg g :
  inv si L rs g ->
  match sysvSemGet rclk self now key nsems semflg g with
  | Done id g' =>
      exists rs' r, inv si L rs' g' /\ aget rs' (IPCID_TO_IX id) = Some (Some r) /\
        IPCID_TO_SEQ id = rseq r /\ 0 <= id <= INT_MAX /\
        (forall p, p <> 0 -> proc_undo g' p = proc_undo g p) /\
        ((rs' = rs /\ vals g' = vals g) \/
         (aget rs (IPCID_TO_IX id) = Some None /\ rs' = aset rs (IPCID_TO_IX id) (Some r) /\
          rbase r = semtot g /\ rlen r = nsems /\
          forall i, aget (spool g') i =
            if (rbase r <=? i) && (i <? rbase r + rlen r) then Some (mk_sem 0 0 0 0) else aget (spool g) i))
  | Err _ g' => inv si L rs g' /\ vals g' = vals g
  | Fault _ => False
  end.
Proof.
  intros Hg. pose proof (semget_wp si self L rs rclk now key nsems semflg g Hg) as H.
  unfold wp in H. destruct (sysvSemGet _ _ _ _ _ _ _) as [id g'|e g'|f]; [|by destruct H as [? [? ?]]|done].
  destruct H as (rs' & Hg' & (r & Hr & Hs & Hid) & Hor). exists rs', r. do 4 (split; [done|]).
  destruct Hor as [[-> [Hv Hp]]|(r' & Hf & Hb & Hl & Hg2 & [_ Hz] & Hp)]; [split; [done|by left]|].
  split; [by auto|]. right.
  assert (Hrs : rs' = aset rs (IPCID_TO_IX id) (Some r')).
  { rewrite <-(iv_ranges _ _ _ _ Hg'). apply (iv_ranges _ _ _ _ Hg2). }
  subst rs'. rewrite aget_aset_eq in Hr by by eapply aget_Some_range. injection Hr as ->.
  split_and!; [done|done|done|done|]. intros i. by rewrite Hz, Hb, Hl.
Qed.

Lemma semget_result_witness :
  exists id g', sysvSemGet 0 (proc 7) 101 43 1 (Z.lor IPC_CREAT 0x1b6) demo = Done id g' /\
    exists r, aget (ranges g') (IPCID_TO_IX id) = Some (Some r).
Proof.
  pose proof (semget_result si0 (unlocked si0) (ranges demo) 0 (proc 7) 101 43 1 (Z.lor IPC_CREAT 0x1b6)
    demo demo_inv) as H.
  destruct (sysvSemGet _ _ _ _ _ _ _) as [id g'|e g'|f] eqn:Hrun; [|by vm_compute in Hrun..].
  destruct H as (rs' & r & Hg & Hr & _). exists id, g'. split; [done|]. exists r.
  by rewrite (iv_ranges _ _ _ _ Hg).
Defined.

(** ** Where the code falls short *)

(** A wake-up never takes back the waiter count of a set made by [semget]
    (such a set has a sequence number of at least 1 until it wraps): [semop]
    hands [SleepDone] the array index of the set where it expects the id, the
    sequence number in an index is 0, so the check "does the set still exist"
    fails for every live set and [semncnt]/[semzcnt] stay incremented. *)
Theorem SleepDone_forgets_count ix idx z g k :
  0 <= ix < 2 ^ 16 -> aget (sema g) ix = Some k -> perm_seq (sem_perm (ku k)) <> 0 ->
  SleepDone ix ix idx z g = Done () g.
Proof.
  intros Hix Hk Hseq. unfold SleepDone. rewrite (run_bind _ _ _ _ _ (get_ds_run _ _ _ Hk)).
  assert (Hs : IPCID_TO_SEQ ix = 0).
  { unfold IPCID_TO_SEQ. rewrite Z.shiftr_div_pow2, Z.div_small by lia. done. }
  rewrite Hs. destruct (has_bits _ _); cbn [negb orb]; [|done].
  by rewrite (proj2 (Z.eqb_neq _ _) Hseq).
Qed.

(** A waits for semaphore 0, B releases it, A is woken and gets it: nobody
    waits any more, but the count of waiters is 1. *)
Definition lost_count : option (Z * Z) :=
  match semop_enter 0 (proc 8) 5 demo_id [mk_sembuf 0 (-1) 0] demo with
  | Done (SemSleep sl) g1 =>
      match semop_enter 0 (proc 9) 6 demo_id [mk_sembuf 0 1 0] g1 with
      | Done SemDone g2 =>
          match semop_resume 0 (proc 8) 7 sl g2 with
          | Done SemDone g3 => (fun s => (semval s, semncnt s)) <$> aget (spool g3) 0
          | _ => None
          end
      | _ => None
      end
  | _ => None
  end.

Lemma SleepDone_forgets_count_witness :
  SleepDone 0 0 0 false demo = Done () demo /\ lost_count = Some (0, 1).
Proof.
  split; [|by vm_compute].
  destruct (aget (sema demo) 0) as [k|] eqn:Hk; [|by vm_compute in Hk].
  apply (SleepDone_forgets_count 0 0 false demo k); [lia|done|].
  vm_compute in Hk. injection Hk as <-. by vm_compute.
Defined.

(** A process that still has SEM_UNDO adjustments when it terminates brings
    down its exit hook: for each entry the hook releases the mutex of the set
    (where it means to take it), which it does not own, and that panics; so no
    adjustment is ever applied at exit. *)
Theorem semexit_panics si rs self g i s :
  inv si (unlocked si) rs g -> owner g (pid self) = Some i -> aget (semu g) i = Some s -> 0 < un_cnt s ->
  Forall (fun e => 0 <= un_id e < semmni si) (entries s) ->
  semexit_myhook self true false g = Fault Panic.
Proof.
  intros Hg Ho Hs Hc Hids. unfold semexit_myhook. cbn [negb orb].
  assert (Hgm : gmtx g = 0) by exact (f_equal snd (iv_locks _ _ _ _ Hg)).
  rewrite (run_bind _ _ _ (Some i) g).
  2:{ unfold with_undo, SEMUNDO_LOCK. rewrite (run_bind _ _ _ () (set_gmtx (gmtx g + 1) g)); [|done].
      unfold finally. change (find_un self (set_gmtx (gmtx g + 1) g))
        with (Done (owner g (pid self)) (set_gmtx (gmtx g + 1) g)).
      rewrite Ho. cbn. rewrite Hgm. cbn. destruct g. cbn in *. by subst. }
  assert (Hrun : get_un i g = Done s g) by (unfold get_un, mbind, M_bind, gets; by rewrite Hs).
  pose proof (us_un _ _ _ (iv_undos _ _ _ _ Hg) i s Hs) as Hok.
  pose proof (uo_cnt _ _ Hok). pose proof (uo_room _ _ Hok).
  unfold entries in Hids. destruct (un_ent s) as [|e l] eqn:He; [unfold alen in *; cbn in *; lia|].
  destruct (Z.to_nat (un_cnt s)) as [|n] eqn:Hn; [lia|]. cbn [take] in Hids.
  inversion Hids as [|? ? Hid _]; subst.
  assert (Hentry : semexit_entry e g = Fault Panic).
  { unfold semexit_entry, SEMUNDO_LOCK. rewrite (run_bind _ _ _ () (set_gmtx (gmtx g + 1) g)); [|done].
    destruct (inv_sema_some _ _ _ _ _ Hg Hid) as [k Hk].
    assert (Hm : kmtx k = 0).
    { apply (aget_replicate (Z.to_nat (semmni si)) 0 (kmtx k) (un_id e)).
      exact (inv_lock_get _ _ _ _ _ _ Hg Hk). }
    unfold mtx_unlock, mbind, M_bind, gets. cbn. by rewrite Hk; cbn; rewrite Hm. }
  unfold mbind, M_bind. cbn beta iota. rewrite Hrun, Hn, He. cbn [take mfor].
  unfold mbind, M_bind. by rewrite Hentry.
Qed.

(** Process 8 after an acquire with SEM_UNDO. *)
Definition demo3 : sysv_sem := run_or demo (semop_enter 0 (proc 8) 5 demo_id [mk_sembuf 0 1 SEM_UNDO] demo).

Lemma semop_run_inv si L rs self rclk now id sops g :
  inv si L rs g -> pid self <> 0 -> Forall (fun sop => 0 <= sem_num sop) sops ->
  inv si L (ranges (run_or g (semop_enter rclk self now id sops g)))
    (run_or g (semop_enter rclk self now id sops g)).
Proof.
  intros Hg Hpid Hpos. pose proof (semop_enter_wp si rs self Hpid L rclk now id sops g Hg Hpos) as H.
  unfold wp in H. destruct (semop_enter _ _ _ _ _ _) as [res g'|e g'|f]; [| |done].
  - destruct H as (r & _ & _ & _ & Hg' & _). by apply (inv_self _ _ _ _ Hg').
  - destruct H as (_ & Hg' & _). by apply (inv_self _ _ _ _ Hg').
Qed.

Lemma demo3_inv : inv si0 (unlocked si0) (ranges demo3) demo3.
Proof. unfold demo3. apply (semop_run_inv _ _ (ranges demo)); [exact demo_inv|done|by repeat constructor]. Qed.

Lemma semexit_panics_witness : semexit_myhook (proc 8) true false demo3 = Fault Panic.
Proof.
  destruct (aget (semu demo3) 0) as [s|] eqn:Hs; [|by vm_compute in Hs].
  apply (semexit_panics si0 (ranges demo3) (proc 8) demo3 0 s demo3_inv); [by vm_compute|done| |].
  - vm_compute in Hs. injection Hs as <-. by vm_compute.
  - vm_compute in Hs. injection Hs as <-. repeat constructor; by vm_compute.
Defined.

(** [semundo_clear(semid, semnum)] for a single semaphore gives up at the
    first entry of the set that is for another semaphore, so the adjustments a
    SETVAL is to forget survive behind it. *)
Theorem semundo_clear_stops_early semid semnum s e :
  semnum <> -1 -> 0 < un_cnt s -> aget (un_ent s) 0 = Some e -> un_id e = semid -> un_num e <> semnum ->
  semundo_clear_loop (Z.to_nat (un_cnt s)) semid semnum 0 s = Some s.
Proof.
  intros Hn Hc He Hid Hnum. destruct (Z.to_nat (un_cnt s)) as [|fuel] eqn:Hf; [lia|].
  cbn [semundo_clear_loop]. zbool. rewrite He. cbn [mbind option_bind].
  rewrite (proj2 (Z.eqb_eq _ _) Hid), (proj2 (Z.eqb_neq _ _) Hnum). by zbool.
Qed.

Lemma semundo_clear_stops_early_witness :
  semundo_clear_loop 2 0 1 0 demo_un = Some demo_un /\ undo_map demo_un !! (0, 1) = Some (-3).
Proof.
  split; [|by vm_compute].
  apply (semundo_clear_stops_early 0 1 demo_un (mk_undo 5 0 0)); by vm_compute.
Defined.
