(* ===== verification/SysVShm.v ===== *)
(** System V shared memory ([src/src/emx/src/lib/sys/sysv_shm.c]): the segment
    table in the shared process manager heap, the attach table of a process,
    [shmget], [shmat], [shmdt], [shmctl], the fork and exit hooks and the
    initialisation.

    A segment is an index into [shmsegs].  The state of a call is the shared
    block together with the caller's attach table [g_vm_shm].  The results of
    the OS/2 calls ([DosFreeMem], [DosGetSharedMem], [DosAllocSharedMemEx]) are
    arguments, [native2errno] is a parameter. *)

From S2P Require Import Prelude.
From S2P Require Import Creds.

(** ** Constants *)
Definition ACCESSPERMS : Z := 0x1ff.
Definition SHM_RDONLY : Z := 0x1000.
Definition SHM_RND : Z := 0x2000.
Definition SHMLBA : Z := 0x10000.
Definition SHM_STAT : Z := 13.
Definition SHM_INFO : Z := 14.
Definition SHMSEG_FREE : Z := 0x200.
Definition SHMSEG_REMOVED : Z := 0x400.
Definition SHMSEG_ALLOCATED : Z := 0x800.
Definition SHMSEG_SERVER : Z := 0x1000.
Definition PAGE_SIZE : Z := 4096.
Definition PAGE_MASK : Z := 4095.
Definition PAGE_SHIFT : Z := 12.

(** [round_page] and [btoc], on 32 bits. *)
Definition round_page (x : Z) : Z := Z.land (u32 (x + PAGE_MASK)) (not32 PAGE_MASK).
Definition btoc (x : Z) : Z := Z.shiftr (u32 (x + PAGE_MASK)) PAGE_SHIFT.

(** ** Data *)

Record shminfo := mk_shminfo { shmmax : Z; shmmin : Z; shmmni : Z; shmseg : Z; shmall : Z }.

Definition default_shminfo : shminfo := mk_shminfo (8192 * PAGE_SIZE) 1 192 128 8192.

Record shmid_ds := mk_shmid_ds {
  shm_perm : ipc_perm; shm_segsz : Z; shm_lpid : Z; shm_cpid : Z; shm_nattch : Z;
  shm_atime : Z; shm_dtime : Z; shm_ctime : Z; shm_internal : Z
}.

Record sysv_shm := mk_sysv_shm {
  uVersion : Z; cUsers : Z; mtx : Z; evDaemon : Z;
  shm_last_free : Z; shm_nused : Z; shm_committed : Z; shmalloced : Z;
  shmsegs : list shmid_ds;
  info : shminfo
}.

(** An entry of the attach table; [shmid] is -1 when free. *)
Record shmmap := mk_shmmap { va : Z; shmid : Z }.

(** [vm_tab]: the attach table, an object of the high heap; [g_vm_shm]: whether
    the pointer to it is set. *)
Record shmst := mk_shmst { glob : sysv_shm; vm_tab : option (list shmmap); g_vm_shm : bool }.

Abbreviation G := (M shmst).

(** ** Field updates *)

Definition set_glob (g : sysv_shm) (s : shmst) := mk_shmst g (vm_tab s) (g_vm_shm s).
Definition set_vm (v : option (list shmmap)) (s : shmst) := mk_shmst (glob s) v (g_vm_shm s).
Definition set_vm_ptr (b : bool) (s : shmst) := mk_shmst (glob s) (vm_tab s) b.
Definition set_cUsers (n : Z) (g : sysv_shm) :=
  mk_sysv_shm (uVersion g) n (mtx g) (evDaemon g) (shm_last_free g) (shm_nused g) (shm_committed g)
    (shmalloced g) (shmsegs g) (info g).
Definition set_mtx (n : Z) (g : sysv_shm) :=
  mk_sysv_shm (uVersion g) (cUsers g) n (evDaemon g) (shm_last_free g) (shm_nused g) (shm_committed g)
    (shmalloced g) (shmsegs g) (info g).
Definition set_ev (n : Z) (g : sysv_shm) :=
  mk_sysv_shm (uVersion g) (cUsers g) (mtx g) n (shm_last_free g) (shm_nused g) (shm_committed g)
    (shmalloced g) (shmsegs g) (info g).
Definition set_last_free (n : Z) (g : sysv_shm) :=
  mk_sysv_shm (uVersion g) (cUsers g) (mtx g) (evDaemon g) n (shm_nused g) (shm_committed g)
    (shmalloced g) (shmsegs g) (info g).
Definition set_used (used comm : Z) (g : sysv_shm) :=
  mk_sysv_shm (uVersion g) (cUsers g) (mtx g) (evDaemon g) (shm_last_free g) used comm
    (shmalloced g) (shmsegs g) (info g).
Definition set_segs (l : list shmid_ds) (g : sysv_shm) :=
  mk_sysv_shm (uVersion g) (cUsers g) (mtx g) (evDaemon g) (shm_last_free g) (shm_nused g) (shm_committed g)
    (shmalloced g) l (info g).

Definition perm_with (mode key : Z) (p : ipc_perm) :=
  mk_ipc_perm (perm_cuid p) (perm_cgid p) (perm_uid p) (perm_gid p) mode (perm_seq p) key.
Definition seg_perm (p : ipc_perm) (d : shmid_ds) :=
  mk_shmid_ds p (shm_segsz d) (shm_lpid d) (shm_cpid d) (shm_nattch d) (shm_atime d) (shm_dtime d)
    (shm_ctime d) (shm_internal d).
Definition seg_ctime (t : Z) (d : shmid_ds) :=
  mk_shmid_ds (shm_perm d) (shm_segsz d) (shm_lpid d) (shm_cpid d) (shm_nattch d) (shm_atime d) (shm_dtime d)
    t (shm_internal d).
(** [shm_lpid = p; shm_atime = t; shm_nattch++;] *)
Definition seg_attach (p t : Z) (d : shmid_ds) :=
  mk_shmid_ds (shm_perm d) (shm_segsz d) p (shm_cpid d) (u32 (shm_nattch d + 1)) t (shm_dtime d)
    (shm_ctime d) (shm_internal d).
(** [shm_dtime = t; --shm_nattch] *)
Definition seg_detach (t : Z) (d : shmid_ds) :=
  mk_shmid_ds (shm_perm d) (shm_segsz d) (shm_lpid d) (shm_cpid d) (u32 (shm_nattch d - 1)) (shm_atime d) t
    (shm_ctime d) (shm_internal d).
(** [shm_internal = NULL; shm_perm.mode = SHMSEG_FREE;] *)
Definition seg_free (d : shmid_ds) :=
  mk_shmid_ds (perm_with SHMSEG_FREE (perm_key (shm_perm d)) (shm_perm d)) (shm_segsz d) (shm_lpid d)
    (shm_cpid d) (shm_nattch d) (shm_atime d) (shm_dtime d) (shm_ctime d) 0.

Definition mode_has (b : Z) (d : shmid_ds) : bool := has_bits (perm_mode (shm_perm d)) b.

(** ** Access *)

Definition gl {A} (f : sysv_shm -> A) : G A := gets (fun s => f (glob s)).
Definition upd_glob (f : sysv_shm -> sysv_shm) : G unit := mmod (fun s => set_glob (f (glob s)) s).
Definition get_seg (i : Z) : G shmid_ds := d ← gl (fun g => aget (shmsegs g) i); deref d.
Definition upd_seg (i : Z) (f : shmid_ds -> shmid_ds) : G unit :=
  d ← get_seg i; upd_glob (fun g => set_segs (aset (shmsegs g) i (f d)) g).

(** [gpGlobals->mtx]; releasing it without owning it panics. *)
Definition mtx_lock : G unit := upd_glob (fun g => set_mtx (mtx g + 1) g).
Definition mtx_unlock : G unit :=
  n ← gl mtx; if n <=? 0 then mfail Panic else upd_glob (set_mtx (n - 1)).
Definition ev_wakeup : G unit := upd_glob (fun g => set_ev (evDaemon g + 1) g).

(** The part of a call between the lock, whose result is [rclk], and the
    unlock at [done2:]. *)
Definition locked {A} (rclk : Z) (body : G A) : G A :=
  if negb (rclk =? 0) then merr (- rclk)
  else _ ← mtx_lock; finally body mtx_unlock.

(** ** Finding segments *)

Definition shm_find_segment_by_key (g : sysv_shm) (key : Z) : Z :=
  match find_first (fun i =>
    match aget (shmsegs g) i with
    | Some d => mode_has SHMSEG_ALLOCATED d && (perm_key (shm_perm d) =? key)
    | None => false
    end) 0 (Z.to_nat (shmalloced g)) with
  | Some i => i
  | None => -1
  end.

(** [shm_allow_removed] is 0. *)
Definition seg_usable (d : shmid_ds) : bool := mode_has SHMSEG_ALLOCATED d && negb (mode_has SHMSEG_REMOVED d).

Definition shm_find_segment_by_shmidx (g : sysv_shm) (segnum : Z) : option Z :=
  if (segnum <? 0) || (segnum >=? shmalloced g) then None
  else match aget (shmsegs g) segnum with
  | Some d => if negb (seg_usable d) then None else Some segnum
  | None => None
  end.

Definition shm_find_segment_by_shmid (g : sysv_shm) (id : Z) : option Z :=
  let segnum := IPCID_TO_IX id in
  if (segnum <? 0) || (segnum >=? shmalloced g) then None
  else match aget (shmsegs g) segnum with
  | Some d =>
      if negb (seg_usable d) || negb (perm_seq (shm_perm d) =? IPCID_TO_SEQ id) then None else Some segnum
  | None => None
  end.

(** ** Detaching *)

Definition shm_deallocate_segment (i : Z) : G unit :=
  d ← get_seg i;
  _ ← upd_glob (fun g => set_used (shm_nused g - 1) (shm_committed g - btoc (round_page (shm_segsz d))) g);
  _ ← upd_seg i seg_free;
  ev_wakeup.

(** Entry [e] of the attach table; [rcFree] is the result of [DosFreeMem]. *)
Definition shm_delete_mapping (now rcFree e : Z) (fExitting : bool) : G Z :=
  v ← gets vm_tab; v ← deref v;
  m ← deref (aget v e);
  let segnum := IPCID_TO_IX (shmid m) in
  if negb (rcFree =? 0) then mret EINVAL
  else
    _ ← mmod (set_vm (Some (aset v e (mk_shmmap (va m) (-1)))));
    _ ← upd_seg segnum (seg_detach now);
    d ← get_seg segnum;
    _ ← mwhen ((shm_nattch d =? 0) &&
               (mode_has SHMSEG_REMOVED d || (fExitting && negb (mode_has SHMSEG_SERVER d))))
          (_ ← shm_deallocate_segment segnum; upd_glob (set_last_free segnum));
    _ ← ev_wakeup;
    mret 0.

(** [__libc_Back_sysvShmDt] *)
Definition sysvShmDt (rclk now rcFree shmaddr : Z) : G unit :=
  locked rclk (
    p ← gets g_vm_shm; si ← gl info;
    if negb p then merr EINVAL
    else
        v ← gets vm_tab; v ← deref v;
        match find_first (fun i =>
          match aget v i with
          | Some m => negb (shmid m =? -1) && (va m =? shmaddr)
          | None => false
          end) 0 (Z.to_nat (shmseg si)) with
        | None => merr EINVAL
        | Some i => rc ← shm_delete_mapping now rcFree i false; err_if (negb (rc =? 0)) rc
        end).

(** ** Attaching *)

(** Where to attach; a given address must be the one the segment has. *)
Definition attach_addr (shmaddr shmflg internal : Z) : G Z :=
  if negb (shmaddr =? 0) then
    va ← (if has_bits shmflg SHM_RND then mret (Z.land shmaddr (not32 (SHMLBA - 1)))
          else if Z.land shmaddr (SHMLBA - 1) =? 0 then mret shmaddr
          else merr EINVAL);
    _ ← err_if (negb (va =? internal)) EOPNOTSUPP;
    mret va
  else mret internal.

Definition free_entry (v : list shmmap) (i : Z) : bool :=
  match aget v i with Some m => shmid m =? -1 | None => false end.

(** [__libc_Back_sysvShmAt].  The attach table is made on the first use, with
    the mutex released around the allocation.  [alloc]: whether the allocation
    succeeds; [raced]: whether another thread of the process made the table
    meanwhile: then the new table is freed, [g_vm_shm] is cleared, and the freed
    table is used below.  [rcGet]: what [DosGetSharedMem] returned, turned into
    an errno. *)
Definition sysvShmAt (self : SPMPROCESS) (rclk now : Z) (alloc raced : bool) (rcGet : Z)
    (id shmaddr shmflg : Z) : G Z :=
  if negb (rclk =? 0) then merr (- rclk)
  else
    _ ← mtx_lock;
    si ← gl info;
    p ← gets g_vm_shm;
    _ ← mwhen (negb p) (
          _ ← mtx_unlock;
          _ ← err_if (negb alloc) ENOMEM;
          _ ← mtx_lock;
          if raced then _ ← mmod (set_vm None); mmod (set_vm_ptr false)
          else
            _ ← mmod (set_vm (Some (replicate (Z.to_nat (shmseg si)) (mk_shmmap 0 (-1)))));
            mmod (set_vm_ptr true));
    finally (
      g ← gets glob;
      match shm_find_segment_by_shmid g id with
      | None => merr EINVAL
      | Some segnum =>
          d ← get_seg segnum;
          let e := - spmCanIPC self (shm_perm d)
                     (if has_bits shmflg SHM_RDONLY then IPC_R else Z.lor IPC_R IPC_W) in
          _ ← err_if (negb (e =? 0)) e;
          vm ← gets vm_tab; vm ← deref vm;
          match find_first (free_entry vm) 0 (Z.to_nat (shmseg si)) with
          | None => merr EMFILE
          | Some i =>
              attach_va ← attach_addr shmaddr shmflg (shm_internal d);
              _ ← err_if (negb (rcGet =? 0)) rcGet;
              _ ← mmod (set_vm (Some (aset vm i (mk_shmmap attach_va id))));
              _ ← upd_seg segnum (seg_attach (pid self) now);
              mret attach_va
          end
      end) mtx_unlock.

(** ** shmctl *)

(** What a command hands back besides its return value. *)
Inductive shmctl_out :=
  | OutNone
  | OutDs (d : shmid_ds)
  | OutInfo (i : shminfo)
  | OutUsed (n : Z).

Definition shm_rmid (segnum ix : Z) : G unit :=
  _ ← upd_seg segnum (fun d =>
        seg_perm (perm_with (Z.lor (perm_mode (shm_perm d)) SHMSEG_REMOVED) IPC_PRIVATE (shm_perm d)) d);
  d ← get_seg segnum;
  mwhen (shm_nattch d =? 0) (_ ← shm_deallocate_segment segnum; upd_glob (set_last_free ix)).

(** [kern_shmctl]; [sbuf] is the buffer of IPC_SET. *)
Definition sysvShmCtl (self : SPMPROCESS) (rclk now id cmd : Z) (sbuf : shmid_ds) : G (Z * shmctl_out) :=
  locked rclk (
    g ← gets glob;
    if cmd =? IPC_INFO then mret (shmalloced g, OutInfo (info g))
    else if cmd =? SHM_INFO then mret (shmalloced g, OutUsed (shm_nused g))
    else
      match (if cmd =? SHM_STAT then shm_find_segment_by_shmidx g id else shm_find_segment_by_shmid g id) with
      | None => merr EINVAL
      | Some segnum =>
          d ← get_seg segnum;
          let check access :=
            let e := - spmCanIPC self (shm_perm d) access in err_if (negb (e =? 0)) e in
          if (cmd =? SHM_STAT) || (cmd =? IPC_STAT) then
            _ ← check IPC_R;
            mret (if cmd =? SHM_STAT then IXSEQ_TO_IPCID id (shm_perm d) else 0, OutDs d)
          else if cmd =? IPC_SET then
            _ ← check IPC_M;
            let p := shm_perm d in
            _ ← upd_seg segnum (fun d => seg_ctime now (seg_perm
                  (mk_ipc_perm (perm_cuid p) (perm_cgid p) (perm_uid (shm_perm sbuf)) (perm_gid (shm_perm sbuf))
                     (Z.lor (Z.land (perm_mode p) (Z.lnot ACCESSPERMS))
                            (Z.land (perm_mode (shm_perm sbuf)) ACCESSPERMS))
                     (perm_seq p) (perm_key p)) d));
            mret (0, OutNone)
          else if cmd =? IPC_RMID then
            _ ← check IPC_M;
            _ ← shm_rmid segnum (IPCID_TO_IX id);
            mret (0, OutNone)
          else merr EINVAL
      end).

(** ** shmget *)

Definition shmget_existing (self : SPMPROCESS) (size mode segnum shmflg : Z) : G Z :=
  d ← get_seg segnum;
  _ ← err_if (mode_has SHMSEG_REMOVED d) EAGAIN;
  _ ← err_if (Z.land shmflg (Z.lor IPC_CREAT IPC_EXCL) =? Z.lor IPC_CREAT IPC_EXCL) EEXIST;
  let e := - spmCanIPC self (shm_perm d) mode in
  _ ← err_if (negb (e =? 0)) e;
  _ ← err_if (negb (size =? 0) && (size >? shm_segsz d)) EINVAL;
  mret (IXSEQ_TO_IPCID segnum (shm_perm d)).

Definition is_free_seg (g : sysv_shm) (i : Z) : bool :=
  match aget (shmsegs g) i with Some d => mode_has SHMSEG_FREE d | None => false end.

(** The slot of a new segment: [shm_last_free] when there is one, else the
    first free one. *)
Definition shm_take_slot : G Z :=
  g ← gets glob;
  if shm_last_free g <? 0 then
    match find_first (is_free_seg g) 0 (Z.to_nat (shmalloced g)) with
    | None => merr ENOSPC
    | Some i => mret i
    end
  else _ ← upd_glob (set_last_free (-1)); mret (shm_last_free g).

(** [objs]: the results of the two [DosAllocSharedMemEx] calls (the second only
    matters when the first fails): an address or an errno. *)
Definition shmget_allocate_segment (self : SPMPROCESS) (now : Z) (objs : Z + Z) (key size_in mode : Z) : G Z :=
  g ← gets glob;
  let si := info g in
  _ ← err_if ((size_in <? u32 (shmmin si)) || (size_in >? u32 (shmmax si))) EINVAL;
  _ ← err_if (shm_nused g >=? shmmni si) ENOSPC;
  let size := round_page size_in in
  _ ← err_if (u32 (shm_committed g + btoc size) >? u32 (shmall si)) ENOMEM;
  segnum ← shm_take_slot;
  shm_object ← (match objs with inl e => merr e | inr a => mret a end);
  d ← get_seg segnum;
  let perm := mk_ipc_perm (euid self) (egid self) (euid self) (egid self)
                (Z.lor (Z.land mode ACCESSPERMS) SHMSEG_ALLOCATED)
                (Z.land (perm_seq (shm_perm d) + 1) 0x7fff) key in
  _ ← upd_seg segnum (fun _ => mk_shmid_ds perm size 0 (pid self) 0 0 0 now shm_object);
  _ ← upd_glob (fun g => set_used (shm_nused g + 1) (shm_committed g + btoc size) g);
  mret (IXSEQ_TO_IPCID segnum perm).

(** [__libc_Back_sysvShmGet] *)
Definition sysvShmGet (self : SPMPROCESS) (rclk now : Z) (objs : Z + Z) (key size shmflg : Z) : G Z :=
  locked rclk (
    g ← gets glob;
    let mode := Z.land shmflg ACCESSPERMS in
    if negb (key =? IPC_PRIVATE) then
      let segnum := shm_find_segment_by_key g key in
      if segnum >=? 0 then shmget_existing self size mode segnum shmflg
      else if Z.land shmflg IPC_CREAT =? 0 then merr ENOENT
      else shmget_allocate_segment self now objs key size mode
    else shmget_allocate_segment self now objs key size mode).

(** ** The fork and exit hooks *)

(** In the child: [shm] is never advanced, so all [shmseg] turns look at the
    first entry of the table. *)
Definition shmfork_loop (m : shmmap) (c : nat) : G unit :=
  mfor (zrange 0 c) (fun _ =>
    mwhen (negb (shmid m =? -1))
      (upd_seg (IPCID_TO_IX (shmid m)) (fun d =>
         mk_shmid_ds (shm_perm d) (shm_segsz d) (shm_lpid d) (shm_cpid d) (u32 (shm_nattch d + 1))
           (shm_atime d) (shm_dtime d) (shm_ctime d) (shm_internal d)))).

(** [attached]: whether the parent had attached the globals. *)
Definition shmfork_myhook (attached : bool) : G unit :=
  mwhen attached (
    _ ← upd_glob (fun g => set_cUsers (u32 (cUsers g + 1)) g);
    p ← gets g_vm_shm;
    mwhen p (
        _ ← mtx_lock;
        si ← gl info;
        v ← gets vm_tab; v ← deref v;
        m ← deref (aget v 0);
        _ ← shmfork_loop m (Z.to_nat (shmseg si));
        mtx_unlock)).

Definition exit_detach (now : Z) (rcFree : Z -> Z) (e : Z) : G unit :=
  v ← gets vm_tab; v ← deref v;
  m ← deref (aget v e);
  mwhen (negb (shmid m =? -1)) (_ ← shm_delete_mapping now (rcFree (va m)) e true; mret ()).

(** Freeing what nobody is attached to, over the table; [c] counts down the
    segments in use. *)
Fixpoint exit_clean (fuel : nat) (i c : Z) : G unit :=
  match fuel with
  | O => mret ()
  | S fuel' =>
      d ← get_seg i;
      if mode_has SHMSEG_ALLOCATED d then
        _ ← mwhen ((shm_nattch d =? 0) && (negb (mode_has SHMSEG_SERVER d) || mode_has SHMSEG_REMOVED d))
              (shm_deallocate_segment i);
        if c <=? 0 then mret () else exit_clean fuel' (i + 1) (c - 1)
      else exit_clean fuel' (i + 1) c
  end.

(** [rcFree]: the result of [DosFreeMem] for an address. *)
Definition shmexit_myhook (attached fDone : bool) (now : Z) (rcFree : Z -> Z) : G unit :=
  mwhen (attached && negb fDone) (
    _ ← mtx_lock;
    p ← gets g_vm_shm; si ← gl info;
    _ ← mwhen p (
          _ ← mmod (set_vm_ptr false);
          mfor (zrange 0 (Z.to_nat (shmseg si))) (exit_detach now rcFree));
    g ← gets glob;
    _ ← mwhen (shm_nused g >? 0) (exit_clean (Z.to_nat (shmalloced g)) 0 (shm_nused g));
    _ ← mtx_unlock;
    upd_glob (fun g => set_cUsers (u32 (cUsers g - 1)) g)).

(** ** Initialisation *)

Definition zero_perm : ipc_perm := mk_ipc_perm 0 0 0 0 0 0 0.
Definition fresh_seg : shmid_ds :=
  mk_shmid_ds (mk_ipc_perm 0 0 0 0 SHMSEG_FREE 0 0) 0 0 0 0 0 0 0 0.

(** The block [shminit] builds: zero-filled, all segments free. *)
Definition fresh_globals (si : shminfo) : sysv_shm :=
  mk_sysv_shm 0x00020000 0 0 0 0 0 0 (shmmni si) (replicate (Z.to_nat (shmmni si)) fresh_seg) si.

(** [si.shmmax = si.shmall * PAGE_SIZE;], or 3GB when that overflows; the
    environment overrides are [tune]. *)
Definition tuned (tune : shminfo -> shminfo) (si : shminfo) : shminfo :=
  let t := tune si in
  let m := s32 (shmall t * PAGE_SIZE) in
  mk_shminfo (if m <? shmall t then s32 0xc0000000 else m) (shmmin t) (shmmni t) (shmseg t) (shmall t).

(** The per-process view of the block. *)
Record shm_view := mk_shm_view { pSysVShm : option sysv_shm; gpGlobals : bool; lshminfo : shminfo }.

(** As [seminit]: [lock1], [lock2] are the results of the two [__libc_spmLock]
    calls, [raced] whether another process made the block in between (then
    [pGlobals] stays NULL and is dereferenced), [alloc] whether the SPM heap
    has room, [semrc] what the creation or opening of the semaphores returns. *)
Definition shminit (lock1 lock2 : Z) (tune : shminfo -> shminfo) (raced : option sysv_shm)
    (alloc : bool) (semrc : Z) (p : shm_view) : outcome shm_view Z :=
  let finish (g : sysv_shm) :=
    let g := set_cUsers (u32 (cUsers g + 1)) g in
    Done semrc (mk_shm_view (Some g) true (info g)) in
  if negb (lock1 =? 0) then Done lock1 p
  else if gpGlobals p then Done 0 p
  else match pSysVShm p with
  | Some g =>
      if negb (Z.shiftr (uVersion g) 16 =? Z.shiftr 0x00020000 16) then Fault Panic else finish g
  | None =>
      if negb (lock2 =? 0) then Done lock2 p
      else match raced with
      | Some _ => Fault Ub
      | None => if negb alloc then Done (- ENOMEM) p else finish (fresh_globals (tuned tune (lshminfo p)))
      end
  end.
