(* ===== verification/SysVShmFacts.v ===== *)
(** The segment table of System V shared memory: its invariant (slots, counts
    of segments, pages and attachments) and its preservation by every call. *)

From S2P Require Import Prelude.
From S2P Require Import Creds.
From S2P Require Import SysVShm.

(** ** Bits and pages *)

Lemma has_bits_lor a b c : has_bits (Z.lor a b) c = has_bits a c || has_bits b c.
Proof.
  unfold has_bits. rewrite Z.land_lor_distr_l, <-negb_andb. f_equal.
  destruct (Z.eqb_spec (Z.lor (Z.land a c) (Z.land b c)) 0) as [H|H].
  - apply Z.lor_eq_0_iff in H as [-> ->]. done.
  - destruct (Z.eqb_spec (Z.land a c) 0) as [Ha|], (Z.eqb_spec (Z.land b c) 0) as [Hb|]; try done.
    rewrite Ha, Hb in H. done.
Qed.

Lemma has_bits_land a m c : has_bits (Z.land a m) c = has_bits a (Z.land m c).
Proof. unfold has_bits. by rewrite Z.land_assoc. Qed.

Lemma has_bits_0 a : has_bits a 0 = false.
Proof. unfold has_bits. by rewrite Z.land_0_r. Qed.

Lemma round_page_spec x : round_page x = u32 (x + 4095) / 4096 * 4096.
Proof.
  unfold round_page, not32, PAGE_MASK. pose proof (u32_range (x + 4095)) as Hr.
  set (y := u32 (x + 4095)) in *. unfold u32 at 1. rewrite <-Z.land_ones by lia.
  rewrite Z.land_assoc, Z.land_ones by lia. change 4095 with (Z.ones 12). rewrite <-Z.ldiff_land.
  rewrite Z.ldiff_ones_r, Z.shiftl_mul_pow2, Z.shiftr_div_pow2 by lia.
  change (2 ^ 12) with 4096. apply Z.mod_small. pose proof (Z.mul_div_le y 4096). 
  pose proof (Z.div_pos y 4096). lia.
Qed.

Lemma btoc_spec x : btoc x = u32 (x + 4095) / 4096.
Proof. unfold btoc, PAGE_MASK, PAGE_SHIFT. by rewrite Z.shiftr_div_pow2. Qed.

Lemma btoc_range x : 0 <= btoc x < 2 ^ 20.
Proof.
  rewrite btoc_spec. pose proof (u32_range (x + 4095)). split; [apply Z.div_pos; lia|].
  apply Z.div_lt_upper_bound; lia.
Qed.

Lemma round_page_idem x : 0 <= x < 2 ^ 32 - 4095 -> round_page (round_page x) = round_page x.
Proof.
  intros Hx. rewrite !round_page_spec. rewrite (u32_small (x + 4095)) by lia.
  set (q := (x + 4095) / 4096). assert (0 <= q) by (apply Z.div_pos; lia).
  assert (q * 4096 <= x + 4095) by (rewrite Z.mul_comm; apply Z.mul_div_le; lia).
  assert (q < 2 ^ 20) by (apply Z.div_lt_upper_bound; lia).
  destruct (Z.eq_dec q (2 ^ 20 - 1 + 1)) as [?|]; [lia|].
  rewrite u32_small by lia. f_equal. rewrite Z.add_comm, Z.div_add by lia.
  rewrite Z.div_small; lia.
Qed.

(** ** The invariant of the table *)

Definition is_alloc (d : shmid_ds) : bool := mode_has SHMSEG_ALLOCATED d.
Definition pages (d : shmid_ds) : Z := btoc (round_page (shm_segsz d)).
Definition used1 (d : shmid_ds) : Z := if is_alloc d then 1 else 0.
Definition pages1 (d : shmid_ds) : Z := if is_alloc d then pages d else 0.

(** A slot is free or holds a segment; a removed segment has attachments. *)
Definition seg_ok (d : shmid_ds) : Prop :=
  mode_has SHMSEG_FREE d = negb (is_alloc d) /\
  (is_alloc d = true -> mode_has SHMSEG_REMOVED d = true -> 0 < shm_nattch d).

Record lims_ok (si : shminfo) : Prop := {
  lm_mni : 1 <= shmmni si <= 2 ^ 16;
  lm_seg : 0 <= shmseg si < 2 ^ 31;
  lm_min : 0 <= shmmin si < 2 ^ 31;
  lm_max : 0 <= shmmax si < 2 ^ 31;
  lm_all : 0 <= shmall si < 2 ^ 31
}.

(** [cnt i] is the number of attachments of segment [i], over all processes. *)
Record tbl (si : shminfo) (cnt : Z -> Z) (g : sysv_shm) : Prop := {
  tb_info : info g = si;
  tb_alloced : shmalloced g = shmmni si;
  tb_len : alen (shmsegs g) = shmmni si;
  tb_seg : forall i d, aget (shmsegs g) i = Some d ->
    seg_ok d /\ (is_alloc d = true -> shm_nattch d = cnt i) /\ (is_alloc d = false -> cnt i = 0);
  tb_seq : forall i d, aget (shmsegs g) i = Some d -> 0 <= perm_seq (shm_perm d) < 2 ^ 15;
  tb_used : sumZ (used1 <$> shmsegs g) = shm_nused g;
  tb_comm : sumZ (pages1 <$> shmsegs g) = shm_committed g;
  tb_all : shm_committed g <= shmall si;
  tb_last : -1 <= shm_last_free g;
  tb_last_free : 0 <= shm_last_free g ->
    exists d, aget (shmsegs g) (shm_last_free g) = Some d /\ is_alloc d = false
}.

Section Table.
Context (si : shminfo) (cnt : Z -> Z) (g : sysv_shm) (Hg : tbl si cnt g).

Lemma tbl_comm_nonneg : 0 <= shm_committed g.
Proof.
  rewrite <-(tb_comm _ _ _ Hg). apply sumZ_nonneg, Forall_fmap, Forall_true. intros d.
  cbn. unfold pages1. destruct (is_alloc d); [|lia]. apply btoc_range.
Qed.

(** The used segments are at most as many as there are slots, and fewer when
    a slot is free. *)
Lemma tbl_used_bound : 0 <= shm_nused g <= shmmni si.
Proof.
  rewrite <-(tb_used _ _ _ Hg), <-(tb_len _ _ _ Hg). unfold alen.
  induction (shmsegs g) as [|d l IH]; [done|]. rewrite fmap_cons. cbn [sumZ length].
  unfold used1 at 1 3. destruct (is_alloc d); lia.
Qed.

(** A segment changes, but stays allocated (or free) and keeps its size. *)
Lemma tbl_update cnt' g' i d d' :
  aget (shmsegs g) i = Some d -> shmsegs g' = aset (shmsegs g) i d' ->
  is_alloc d' = is_alloc d -> shm_segsz d' = shm_segsz d ->
  perm_seq (shm_perm d') = perm_seq (shm_perm d) -> seg_ok d' ->
  (is_alloc d = true -> shm_nattch d' = cnt' i) -> (is_alloc d = false -> cnt' i = 0) ->
  (forall j, j <> i -> cnt' j = cnt j) ->
  info g' = info g -> shmalloced g' = shmalloced g -> shm_nused g' = shm_nused g ->
  shm_committed g' = shm_committed g -> shm_last_free g' = shm_last_free g -> tbl si cnt' g'.
Proof.
  intros Hd Es Ha Hz Hse Hok Hn Hf Hc E1 E2 E3 E4 E5. destruct Hg as [H1 H2 H3 H4 Hsq H5 H6 H7 H8 H9].
  pose proof (aget_Some_range _ _ _ Hd) as Hr.
  assert (Hu : used1 d' = used1 d) by (unfold used1; by rewrite Ha).
  assert (Hp : pages1 d' = pages1 d) by (unfold pages1, pages; by rewrite Ha, Hz).
  constructor; rewrite ?Es, ?E1, ?E2, ?E3, ?E4, ?E5, ?alen_aset; try done.
  - intros j e. rewrite aget_aset by done. case_decide as Hij.
    + subst j. intros [= <-]. rewrite Ha. by split_and!.
    + intros He. rewrite (Hc j) by congruence. by apply H4.
  - intros j e. rewrite aget_aset by done. case_decide; [|apply Hsq]. intros [= <-]. rewrite Hse. by apply (Hsq i).
  - rewrite fmap_aset, Hu, aset_id; [done|]. by rewrite aget_fmap, Hd.
  - rewrite fmap_aset, Hp, aset_id; [done|]. by rewrite aget_fmap, Hd.
  - intros Hl. destruct (H9 Hl) as (e & He & Hea). rewrite aget_aset by done.
    case_decide as Hij; [|by exists e]. exists d'. split; [done|]. rewrite Ha. congruence.
Qed.

(** A segment without attachments is freed. *)
Lemma tbl_free cnt' g' i d d' :
  aget (shmsegs g) i = Some d -> is_alloc d = true -> shmsegs g' = aset (shmsegs g) i d' ->
  is_alloc d' = false -> mode_has SHMSEG_FREE d' = true ->
  perm_seq (shm_perm d') = perm_seq (shm_perm d) -> cnt' i = 0 ->
  (forall j, j <> i -> cnt' j = cnt j) ->
  info g' = info g -> shmalloced g' = shmalloced g -> shm_nused g' = shm_nused g - 1 ->
  shm_committed g' = shm_committed g - pages d ->
  shm_last_free g' = shm_last_free g \/ shm_last_free g' = i -> tbl si cnt' g'.
Proof.
  intros Hd Hda Es Ha Hfr Hse Hci Hc E1 E2 E3 E4 E5. destruct Hg as [H1 H2 H3 H4 Hsq H5 H6 H7 H8 H9].
  pose proof (aget_Some_range _ _ _ Hd) as Hr. pose proof (btoc_range (round_page (shm_segsz d))).
  constructor; rewrite ?Es, ?E1, ?E2, ?E3, ?E4, ?alen_aset; try done.
  - intros j e. rewrite aget_aset by done. case_decide as Hij.
    + subst j. intros [= <-]. rewrite Ha. unfold seg_ok. rewrite Ha, Hfr. by split_and!.
    + intros He. rewrite (Hc j) by congruence. by apply H4.
  - intros j e. rewrite aget_aset by done. case_decide; [|apply Hsq]. intros [= <-]. rewrite Hse. by apply (Hsq i).
  - rewrite fmap_aset, (sumZ_aset _ _ (used1 d)) by (by rewrite aget_fmap, Hd).
    unfold used1 at 2 3. rewrite Ha, Hda. lia.
  - rewrite fmap_aset, (sumZ_aset _ _ (pages1 d)) by (by rewrite aget_fmap, Hd).
    unfold pages1 at 2 3. rewrite Ha, Hda. lia.
  - unfold pages. lia.
  - destruct E5 as [->| ->]; lia.
  - intros Hl. rewrite aget_aset by done. destruct E5 as [E5|E5]; rewrite E5 in *.
    + destruct (H9 Hl) as (e & He & Hea). case_decide; [by exists d'|by exists e].
    + rewrite decide_True by done. by exists d'.
Qed.

(** A free slot becomes a segment. *)
Lemma tbl_alloc g' i d d' :
  aget (shmsegs g) i = Some d -> is_alloc d = false -> shmsegs g' = aset (shmsegs g) i d' ->
  is_alloc d' = true -> mode_has SHMSEG_FREE d' = false -> mode_has SHMSEG_REMOVED d' = false ->
  shm_nattch d' = 0 -> 0 <= perm_seq (shm_perm d') < 2 ^ 15 ->
  info g' = info g -> shmalloced g' = shmalloced g -> shm_nused g' = shm_nused g + 1 ->
  shm_committed g' = shm_committed g + pages d' -> shm_committed g' <= shmall si ->
  shm_last_free g' = -1 -> tbl si cnt g'.
Proof.
  intros Hd Hda Es Ha Hfr Hrm Hna Hse E1 E2 E3 E4 Hall E5. destruct Hg as [H1 H2 H3 H4 Hsq H5 H6 H7 H8 H9].
  pose proof (aget_Some_range _ _ _ Hd) as Hr.
  constructor; rewrite ?Es, ?E1, ?E2, ?E3, ?E5, ?alen_aset; try done; try lia.
  - intros j e. rewrite aget_aset by done. case_decide as Hij; [|apply H4].
    subst j. intros [= <-]. unfold seg_ok. rewrite Ha, Hfr, Hrm. split_and!; try done.
    intros _. rewrite Hna. symmetry. by apply (H4 i d).
  - intros j e. rewrite aget_aset by done. case_decide; [|apply Hsq]. by intros [= <-].
  - rewrite fmap_aset, (sumZ_aset _ _ (used1 d)) by (by rewrite aget_fmap, Hd).
    unfold used1 at 2 3. rewrite Ha, Hda. lia.
  - rewrite fmap_aset, (sumZ_aset _ _ (pages1 d)) by (by rewrite aget_fmap, Hd).
    unfold pages1 at 2 3. rewrite Ha, Hda. lia.
Qed.

(** Only fields outside of the table differ. *)
Lemma tbl_frame g' :
  shmsegs g' = shmsegs g -> info g' = info g -> shmalloced g' = shmalloced g -> shm_nused g' = shm_nused g ->
  shm_committed g' = shm_committed g -> shm_last_free g' = shm_last_free g -> tbl si cnt g'.
Proof. intros E1 E2 E3 E4 E5 E6. destruct Hg. constructor; rewrite ?E1, ?E2, ?E3, ?E4, ?E5, ?E6; done. Qed.
End Table.

Lemma tbl_ext si cnt cnt' g : (forall i, cnt i = cnt' i) -> tbl si cnt g -> tbl si cnt' g.
Proof.
  intros He [H1 H2 H3 H4 Hsq H5 H6 H7 H8 H9]. constructor; try done.
  intros i d Hd. rewrite <-!He. by apply H4.
Qed.

(** ** Attach tables *)

Definition att1 (i : Z) (m : shmmap) : Z := if negb (shmid m =? -1) && (IPCID_TO_IX (shmid m) =? i) then 1 else 0.
(** The number of attachments of segment [i] in a table. *)
Definition att (v : list shmmap) (i : Z) : Z := sumZ (att1 i <$> v).
Definition att_opt (o : option (list shmmap)) (i : Z) : Z := match o with Some v => att v i | None => 0 end.

Lemma att1_nonneg i m : 0 <= att1 i m.
Proof. unfold att1. destruct (_ && _)%bool; lia. Qed.

Lemma att_nonneg v i : 0 <= att v i.
Proof. apply sumZ_nonneg, Forall_fmap, Forall_true. intros m. apply att1_nonneg. Qed.

Lemma att_opt_nonneg o i : 0 <= att_opt o i.
Proof. destruct o; [apply att_nonneg|done]. Qed.

Lemma att_aset v e m m' i : aget v e = Some m -> att (aset v e m') i = att v i - att1 i m + att1 i m'.
Proof.
  intros Hm. unfold att. rewrite fmap_aset. apply sumZ_aset. by rewrite aget_fmap, Hm.
Qed.

Lemma att_ge v e m i : aget v e = Some m -> att1 i m <= att v i.
Proof.
  intros Hm. apply (sumZ_le _ e).
  - apply Forall_fmap, Forall_true. intros x. apply att1_nonneg.
  - by rewrite aget_fmap, Hm.
Qed.

Lemma att_le_len v i : att v i <= alen v.
Proof.
  unfold att, alen. induction v as [|m v IH]; [done|]. rewrite fmap_cons. cbn [sumZ length].
  unfold att1 at 1. destruct (_ && _)%bool; lia.
Qed.

Lemma att_fresh n i : att (replicate n (mk_shmmap 0 (-1))) i = 0.
Proof. unfold att. rewrite fmap_replicate, sumZ_replicate. cbn. lia. Qed.

(** The caller's table: there when the pointer is set, of the configured
    length, and its attachments are of existing slots. *)
Record vm_ok (si : shminfo) (s : shmst) : Prop := {
  vo_ptr : g_vm_shm s = true -> is_Some (vm_tab s);
  vo_len : forall v, vm_tab s = Some v -> alen v = shmseg si;
  vo_ix : forall v e m, vm_tab s = Some v -> aget v e = Some m -> shmid m <> -1 ->
    0 <= IPCID_TO_IX (shmid m) < shmmni si
}.

(** The state of a call: [others i] attachments of segment [i] belong to other
    processes; the mutex is held [n] times. *)
Record sinv (si : shminfo) (others : Z -> Z) (n : Z) (s : shmst) : Prop := {
  si_tbl : tbl si (fun i => others i + att_opt (vm_tab s) i) (glob s);
  si_mtx : mtx (glob s) = n;
  si_vm : vm_ok si s
}.

(** ** Running the primitives *)

Lemma get_seg_run s i d : aget (shmsegs (glob s)) i = Some d -> get_seg i s = Done d s.
Proof. intros Hd. unfold get_seg, gl, mbind, M_bind, gets. by rewrite Hd. Qed.

Definition with_seg (i : Z) (d : shmid_ds) (s : shmst) : shmst :=
  set_glob (set_segs (aset (shmsegs (glob s)) i d) (glob s)) s.

Lemma upd_seg_run s i d f :
  aget (shmsegs (glob s)) i = Some d -> upd_seg i f s = Done () (with_seg i (f d) s).
Proof. intros Hd. unfold upd_seg. by rewrite (run_bind _ _ _ _ _ (get_seg_run s i d Hd)). Qed.

Definition deallocated (i : Z) (d : shmid_ds) (g : sysv_shm) : sysv_shm :=
  set_ev (evDaemon g + 1) (set_segs (aset (shmsegs g) i (seg_free d))
    (set_used (shm_nused g - 1) (shm_committed g - pages d) g)).

Lemma dealloc_run s i d :
  aget (shmsegs (glob s)) i = Some d ->
  shm_deallocate_segment i s = Done () (set_glob (deallocated i d (glob s)) s).
Proof.
  intros Hd. unfold shm_deallocate_segment. rewrite (run_bind _ _ _ _ _ (get_seg_run s i d Hd)).
  rewrite (run_bind _ _ _ () (set_glob (set_used (shm_nused (glob s) - 1) (shm_committed (glob s) - pages d) (glob s)) s));
    [|done].
  erewrite run_bind; [|by apply upd_seg_run]. done.
Qed.

(** Outside of the exit hook there is no table before the pointer is set. *)
Definition ptr_ok (s : shmst) : Prop := g_vm_shm s = false -> vm_tab s = None.

Section Ops.
Context (si : shminfo) (others : Z -> Z) (Hlim : lims_ok si).
Context (Hoth : forall i, 0 <= others i /\ others i + shmseg si < 2 ^ 32).
Notation inv := (sinv si others).

Notation invp n s := (inv n s /\ ptr_ok s).

Definition keeps {A} (n : Z) (m : G A) : Prop :=
  forall s, inv n s -> ptr_ok s -> wp m (fun _ s' => invp n s') (fun _ s' => invp n s') s.

(** A new state with the same attach table. *)
Lemma inv_glob n n' s g' :
  inv n s -> tbl si (fun i => others i + att_opt (vm_tab s) i) g' -> mtx g' = n' -> inv n' (set_glob g' s).
Proof. intros [H1 H2 [V1 V2 V3]] Ht Hm. by constructor. Qed.

Lemma inv_frame n s g' :
  inv n s -> shmsegs g' = shmsegs (glob s) -> info g' = info (glob s) ->
  shmalloced g' = shmalloced (glob s) -> shm_nused g' = shm_nused (glob s) ->
  shm_committed g' = shm_committed (glob s) -> shm_last_free g' = shm_last_free (glob s) ->
  inv (mtx g') (set_glob g' s).
Proof.
  intros Hs E1 E2 E3 E4 E5 E6. eapply inv_glob; [exact Hs| |done].
  eapply tbl_frame; [apply Hs|done..].
Qed.

Lemma keeps_locked {A} rclk (body : G A) : keeps 1 body -> keeps 0 (locked rclk body).
Proof.
  intros Hb s Hs Hp. unfold locked. destruct (negb (rclk =? 0)); [by apply wp_err|].
  set (s1 := set_glob (set_mtx (mtx (glob s) + 1) (glob s)) s).
  assert (Hs1 : inv 1 s1).
  { pose proof (inv_frame 0 s (set_mtx (mtx (glob s) + 1) (glob s)) Hs) as H. cbn in H.
    rewrite (si_mtx _ _ _ _ Hs) in H. unfold s1. rewrite (si_mtx _ _ _ _ Hs). by apply H. }
  apply (wp_run_bind _ _ _ _ _ () s1); [done|]. apply wp_finally.
  assert (Hun : forall s2, invp 1 s2 -> wp mtx_unlock (fun _ s' => invp 0 s') (fun _ s' => invp 0 s') s2).
  { intros s2 [Hs2 Hp2]. unfold mtx_unlock. apply (wp_run_bind _ _ _ _ _ (mtx (glob s2)) s2); [done|].
    rewrite (si_mtx _ _ _ _ Hs2). cbn [Z.leb Z.compare].
    pose proof (inv_frame 1 s2 (set_mtx (1 - 1) (glob s2)) Hs2) as H. split; [by apply H|done]. }
  eapply wp_conseq; [by apply Hb| |]; auto.
Qed.

Lemma inv_seg n s i d : inv n s -> aget (shmsegs (glob s)) i = Some d ->
  seg_ok d /\ (is_alloc d = true -> shm_nattch d = others i + att_opt (vm_tab s) i) /\
  (is_alloc d = false -> others i + att_opt (vm_tab s) i = 0).
Proof. intros Hs. apply (tb_seg _ _ _ (si_tbl _ _ _ _ Hs)). Qed.

Lemma inv_seg_some n s i : inv n s -> 0 <= i < shmmni si -> is_Some (aget (shmsegs (glob s)) i).
Proof. intros Hs Hi. apply aget_is_Some. by rewrite (tb_len _ _ _ (si_tbl _ _ _ _ Hs)). Qed.

Lemma seg_detach_alloc t d : is_alloc (seg_detach t d) = is_alloc d.
Proof. done. Qed.

Lemma seg_free_alloc d : is_alloc (seg_free d) = false /\ mode_has SHMSEG_FREE (seg_free d) = true.
Proof. done. Qed.

(** The table without entry [e]. *)
Lemma vm_ok_detach s v e m g' :
  vm_ok si s -> vm_tab s = Some v -> aget v e = Some m ->
  vm_ok si (set_glob g' (set_vm (Some (aset v e (mk_shmmap (va m) (-1)))) s)).
Proof.
  intros [V1 V2 V3] Hv Hm. pose proof (aget_Some_range _ _ _ Hm). constructor; cbn.
  - done.
  - intros ? [= <-]. rewrite alen_aset. by apply V2.
  - intros ? j m' [= <-]. rewrite aget_aset by done. case_decide; [by intros [= <-]|]. by apply V3.
Qed.

(** Detaching: the count goes down by one, and the segment is freed when it
    was the last attachment of a removed one (or at exit). *)
Lemma delete_mapping_wp now rc e fx s v m :
  inv 1 s -> vm_tab s = Some v -> aget v e = Some m -> shmid m <> -1 ->
  wp (shm_delete_mapping now rc e fx) (fun r s' => inv 1 s' /\
      g_vm_shm s' = g_vm_shm s /\
      vm_tab s' = Some (if rc =? 0 then aset v e (mk_shmmap (va m) (-1)) else v))
    (fun _ _ => False) s.
Proof.
  intros Hs Hv Hm Hne. unfold shm_delete_mapping.
  apply (wp_run_bind _ _ _ _ _ (Some v) s); [unfold gets; by rewrite Hv|].
  apply (wp_run_bind _ _ _ _ _ v s); [done|].
  apply (wp_run_bind _ _ _ _ _ m s); [by rewrite Hm|].
  set (i := IPCID_TO_IX (shmid m)). destruct (Z.eqb_spec rc 0) as [Hrc|Hrc]; cbn [negb]; [|by apply wp_ret].
  set (v' := aset v e (mk_shmmap (va m) (-1))). set (s1 := set_vm (Some v') s).
  apply (wp_run_bind _ _ _ _ _ () s1); [done|].
  pose proof (vo_ix _ _ (si_vm _ _ _ _ Hs) v e m Hv Hm Hne) as Hi. fold i in Hi.
  destruct (inv_seg_some _ _ _ Hs Hi) as [d Hd].
  destruct (inv_seg _ _ _ _ Hs Hd) as (Hok & Hna & Hnf). rewrite Hv in Hna, Hnf. cbn [att_opt] in Hna, Hnf.
  assert (Ha1 : att1 i m = 1).
  { unfold att1. fold i. rewrite Z.eqb_refl, (proj2 (Z.eqb_neq _ _) Hne). done. }
  pose proof (att_ge v e m i Hm). pose proof (att_le_len v i) as Hlen.
  rewrite (vo_len _ _ (si_vm _ _ _ _ Hs) v Hv) in Hlen. pose proof (Hoth i).
  destruct (is_alloc d) eqn:Hal; [|specialize (Hnf eq_refl); lia]. specialize (Hna eq_refl).
  assert (Hatt : forall j, att v' j = att v j - att1 j m).
  { intros j. unfold v'. rewrite (att_aset v e m _ j Hm). unfold att1 at 2. cbn. lia. }
  assert (Hoff : forall j, j <> i -> att1 j m = 0).
  { intros j Hj. unfold att1. fold i. rewrite (proj2 (Z.eqb_neq i j)) by congruence. by rewrite andb_false_r. }
  set (d' := seg_detach now d). assert (Hnd : shm_nattch d' = others i + att v' i).
  { cbn. rewrite Hatt, Hna, u32_small; lia. }
  set (s2 := with_seg i d' s1). apply (wp_run_bind _ _ _ _ _ () s2); [by apply upd_seg_run|].
  assert (Hd' : aget (shmsegs (glob s2)) i = Some d') by (apply aget_aset_eq; by eapply aget_Some_range).
  eapply wp_run_bind; [by apply get_seg_run|].
  pose proof (vm_ok_detach s v e m) as Hvm.
  assert (Hfin : forall g', tbl si (fun j => others j + att v' j) g' -> mtx g' = 1 ->
    wp (_ ← ev_wakeup; mret 0) (fun (_ : Z) s' => inv 1 s' /\ g_vm_shm s' = g_vm_shm s /\ vm_tab s' = Some v')
      (fun _ _ => False) (set_glob g' s1)).
  { intros g' Ht Hmx. unfold ev_wakeup, upd_glob. wp_steps. split_and!; [|done|done].
    constructor; [|done|by apply Hvm; [apply Hs|..]]. eapply tbl_frame; [exact Ht|done..]. }
  destruct (_ && _)%bool eqn:Hfree; cbn [mwhen].
  - apply andb_true_iff in Hfree as [Hz _]. apply Z.eqb_eq in Hz.
    apply (wp_run_bind _ _ _ _ _ () (set_glob (set_last_free i (deallocated i d' (glob s2))) s1)).
    { rewrite (run_bind _ _ _ _ _ (dealloc_run s2 i d' Hd')). done. }
    apply Hfin; [|apply Hs].
    eapply (tbl_free si _ (glob s) (si_tbl _ _ _ _ Hs) _ _ i d (seg_free d')); try done; [| | |by right].
    + cbn. apply aset_aset.
    + lia.
    + intros j Hj. cbn. rewrite Hv. cbn. rewrite Hatt, (Hoff j Hj). lia.
  - apply (wp_run_bind _ _ _ _ _ () s2); [done|]. apply Hfin; [|apply Hs].
    eapply (tbl_update si _ (glob s) (si_tbl _ _ _ _ Hs) _ _ i d d'); try done.
    + unfold seg_ok. split; [apply Hok|]. intros _ Hrm. apply andb_false_iff in Hfree as [Hz|Hz].
      * apply Z.eqb_neq in Hz. pose proof (att_nonneg v' i). lia.
      * apply orb_false_iff in Hz as [Hz _]. congruence.
    + intros. congruence.
    + intros j Hj. cbn. rewrite Hv. cbn. rewrite Hatt, (Hoff j Hj). lia.
Qed.

Lemma keeps_shmdt rclk now rcFree addr : keeps 0 (sysvShmDt rclk now rcFree addr).
Proof.
  apply keeps_locked. intros s Hs Hp. apply (wp_run_bind _ _ _ _ _ (g_vm_shm s) s); [done|].
  apply (wp_run_bind _ _ _ _ _ si s); [unfold gl, gets; by rewrite (tb_info _ _ _ (si_tbl _ _ _ _ Hs))|].
  destruct (g_vm_shm s) eqn:Hptr; cbn [negb]; [|by apply wp_err].
  destruct (vo_ptr _ _ (si_vm _ _ _ _ Hs) Hptr) as [v Hv].
  apply (wp_run_bind _ _ _ _ _ (Some v) s); [unfold gets; by rewrite Hv|].
  apply (wp_run_bind _ _ _ _ _ v s); [done|].
  destruct (find_first _ 0 _) as [e|] eqn:Hf; [|by apply wp_err].
  destruct (find_first_Some _ _ _ _ Hf) as (_ & Hm & _).
  destruct (aget v e) as [m|] eqn:He; [|done]. apply andb_true_iff in Hm as [Hm _].
  apply negb_true_iff, Z.eqb_neq in Hm.
  apply wp_bind. eapply wp_conseq; [by apply (delete_mapping_wp now rcFree e false s v m)| |done].
  intros rc s' (Hs' & Hp' & _). apply wp_err_if; intros _; (split; [done|]); unfold ptr_ok; congruence.
Qed.

(** *** shmctl *)

Lemma find_by_shmid_spec g cnt id i :
  tbl si cnt g -> shm_find_segment_by_shmid g id = Some i ->
  i = IPCID_TO_IX id /\ exists d, aget (shmsegs g) i = Some d /\ is_alloc d = true /\
    mode_has SHMSEG_REMOVED d = false /\ perm_seq (shm_perm d) = IPCID_TO_SEQ id.
Proof.
  intros Hg. unfold shm_find_segment_by_shmid. destruct (_ || _)%bool; [done|].
  destruct (aget (shmsegs g) (IPCID_TO_IX id)) as [d|] eqn:Hd; [|done].
  destruct (_ || _)%bool eqn:Hb; [done|]. intros [= <-]. split; [done|]. exists d.
  apply orb_false_iff in Hb as [H1 H2]. apply negb_false_iff in H1, H2.
  apply andb_true_iff in H1 as [H1 H3]. apply negb_true_iff in H3. breflect. by split_and!.
Qed.

Lemma find_by_shmidx_spec g id i :
  shm_find_segment_by_shmidx g id = Some i ->
  i = id /\ exists d, aget (shmsegs g) i = Some d /\ is_alloc d = true.
Proof.
  unfold shm_find_segment_by_shmidx. destruct (_ || _)%bool; [done|].
  destruct (aget (shmsegs g) id) as [d|] eqn:Hd; [|done].
  destruct (seg_usable d) eqn:Hb; [|done]. intros [= <-]. split; [done|]. exists d.
  by apply andb_true_iff in Hb as [Hb _].
Qed.

(** A permission or time update of a segment. *)
Lemma inv_with_seg n s i d d' :
  inv n s -> aget (shmsegs (glob s)) i = Some d -> is_alloc d' = is_alloc d ->
  shm_segsz d' = shm_segsz d -> shm_nattch d' = shm_nattch d ->
  perm_seq (shm_perm d') = perm_seq (shm_perm d) -> seg_ok d' -> inv n (with_seg i d' s).
Proof.
  intros Hs Hd Ha Hz Hn Hse Hok. destruct (inv_seg _ _ _ _ Hs Hd) as (_ & Hna & Hnf).
  eapply inv_glob; [exact Hs| |apply Hs].
  eapply (tbl_update si _ (glob s) (si_tbl _ _ _ _ Hs) _ _ i d d'); try done.
  intros Hal. rewrite Hn. auto.
Qed.

(** The mode bits above the access bits survive IPC_SET. *)
Lemma ipc_set_mode m x b :
  Z.land (Z.lnot ACCESSPERMS) b = b -> Z.land ACCESSPERMS b = 0 ->
  has_bits (Z.lor (Z.land m (Z.lnot ACCESSPERMS)) (Z.land x ACCESSPERMS)) b = has_bits m b.
Proof. intros H1 H2. by rewrite has_bits_lor, !has_bits_land, H1, H2, has_bits_0, orb_false_r. Qed.

Lemma shm_rmid_wp i ix d s :
  inv 1 s -> aget (shmsegs (glob s)) i = Some d -> is_alloc d = true -> ix = i ->
  ptr_ok s -> wp (shm_rmid i ix) (fun _ s' => invp 1 s') (fun _ _ => False) s.
Proof.
  intros Hs Hd Hal -> Hp. unfold shm_rmid.
  set (d' := seg_perm (perm_with (Z.lor (perm_mode (shm_perm d)) SHMSEG_REMOVED) IPC_PRIVATE (shm_perm d)) d).
  eapply wp_run_bind; [by apply upd_seg_run|]. fold d'. set (s1 := with_seg i d' s).
  assert (Hbit : forall b, has_bits SHMSEG_REMOVED b = false -> mode_has b d' = mode_has b d).
  { intros b Hb. unfold mode_has, d'. cbn. by rewrite has_bits_lor, Hb, orb_false_r. }
  assert (Hd' : aget (shmsegs (glob s1)) i = Some d') by (apply aget_aset_eq; by eapply aget_Some_range).
  eapply wp_run_bind; [by apply get_seg_run|].
  assert (Hal' : is_alloc d' = is_alloc d) by by apply Hbit.
  destruct (inv_seg _ _ _ _ Hs Hd) as (Hok & Hna & _). specialize (Hna Hal).
  pose proof (att_opt_nonneg (vm_tab s) i). pose proof (Hoth i).
  destruct (Z.eqb_spec (shm_nattch d') 0) as [Hz|Hz]; cbn [mwhen].
  - eapply wp_run_bind; [by apply dealloc_run|]. unfold upd_glob. apply wp_mod. split; [|done].
    apply (inv_glob 1 1 s); [done| |apply Hs].
    eapply (tbl_free si _ (glob s) (si_tbl _ _ _ _ Hs) _ _ i d (seg_free d')); try done; [|cbn in *; lia|by right].
    cbn. apply aset_aset.
  - apply wp_ret. split; [|done]. apply (inv_with_seg _ _ _ d); [done|done|done|done|done|done|].
    change (seg_ok d'). split; [rewrite (Hbit SHMSEG_FREE) by done; rewrite Hal'; apply Hok|].
    intros _ _. cbn in *. lia.
Qed.

Lemma keeps_shmctl self rclk now id cmd sbuf : keeps 0 (sysvShmCtl self rclk now id cmd sbuf).
Proof.
  apply keeps_locked. intros s Hs Hp. apply (wp_run_bind _ _ _ _ _ (glob s) s); [done|].
  destruct (cmd =? IPC_INFO); [by apply wp_ret|]. destruct (cmd =? SHM_INFO); [by apply wp_ret|].
  assert (Hfound : forall i, (if cmd =? SHM_STAT then shm_find_segment_by_shmidx (glob s) id
      else shm_find_segment_by_shmid (glob s) id) = Some i ->
    (cmd =? SHM_STAT = false -> IPCID_TO_IX id = i) /\
    exists d, aget (shmsegs (glob s)) i = Some d /\ is_alloc d = true).
  { intros i. destruct (cmd =? SHM_STAT); intros Hi.
    - apply find_by_shmidx_spec in Hi as [_ Hi]. done.
    - eapply find_by_shmid_spec in Hi as [-> (d & ? & ? & _)]; [|apply Hs]. split; [done|]. by exists d. }
  destruct (if cmd =? SHM_STAT then _ else _) as [i|]; [|by apply wp_err].
  destruct (Hfound i eq_refl) as (Hix & d & Hd & Hal).
  eapply wp_run_bind; [by apply get_seg_run|].
  destruct (_ || _)%bool eqn:Hstat; [by apply wp_bind, wp_err_if; intros _|].
  apply orb_false_iff in Hstat as [Hstat _].
  destruct (cmd =? IPC_SET).
  { apply wp_bind, wp_err_if; intros _; [done|]. eapply wp_run_bind; [by apply upd_seg_run|].
    apply wp_ret. split; [|done]. destruct (inv_seg _ _ _ _ Hs Hd) as (Hok & _).
    assert (Hm : forall b, Z.land (Z.lnot ACCESSPERMS) b = b -> Z.land ACCESSPERMS b = 0 ->
      has_bits (Z.lor (Z.land (perm_mode (shm_perm d)) (Z.lnot ACCESSPERMS))
        (Z.land (perm_mode (shm_perm sbuf)) ACCESSPERMS)) b = has_bits (perm_mode (shm_perm d)) b)
      by (intros; by apply ipc_set_mode).
    apply (inv_with_seg _ _ _ d); [done|done|by apply Hm|done|done|done|].
    unfold seg_ok, is_alloc, mode_has. cbn. rewrite !Hm by done. exact Hok. }
  destruct (cmd =? IPC_RMID); [|by apply wp_err].
  apply wp_bind, wp_err_if; intros _; [done|]. apply wp_bind.
  eapply wp_conseq; [apply (shm_rmid_wp i _ d); auto| |done]. intros [] s' Hs'. by apply wp_ret.
Qed.

(** *** shmget *)

Lemma new_mode m b :
  Z.land ACCESSPERMS b = 0 ->
  has_bits (Z.lor (Z.land m ACCESSPERMS) SHMSEG_ALLOCATED) b = has_bits SHMSEG_ALLOCATED b.
Proof. intros Hb. by rewrite has_bits_lor, has_bits_land, Hb, has_bits_0. Qed.

(** A slot that is taken is free, and [shm_last_free] is used up. *)
Lemma take_slot_wp s :
  inv 1 s ->
  wp shm_take_slot (fun i s' => exists d, aget (shmsegs (glob s)) i = Some d /\ is_alloc d = false /\
      s' = set_glob (set_last_free (-1) (glob s)) s)
    (fun _ s' => s' = s) s.
Proof.
  intros Hs. unfold shm_take_slot. apply (wp_run_bind _ _ _ _ _ (glob s) s); [done|].
  destruct (si_tbl _ _ _ _ Hs) as [H1 H2 H3 H4 Hsq H5 H6 H7 H8 H9].
  destruct (Z.ltb_spec (shm_last_free (glob s)) 0) as [Hl|Hl].
  - destruct (find_first _ 0 _) as [i|] eqn:Hf; [|by apply wp_err].
    destruct (find_first_Some _ _ _ _ Hf) as (_ & Hfree & _). unfold is_free_seg in Hfree.
    destruct (aget (shmsegs (glob s)) i) as [d|] eqn:Hd; [|done].
    apply wp_ret. exists d. destruct (H4 i d Hd) as ([Hok _] & _). rewrite Hfree in Hok.
    split; [done|]. split; [by destruct (is_alloc d)|].
    assert (Hm : shm_last_free (glob s) = -1) by lia. destruct s as [[] ? ?]. cbn in *. by rewrite Hm.
  - unfold upd_glob. wp_steps. destruct (H9 Hl) as (d & Hd & Ha). by exists d.
Qed.

Lemma shm_seq_next x : 0 <= Z.land (x + 1) 0x7fff < 2 ^ 15.
Proof. change 0x7fff with (Z.ones 15). rewrite Z.land_ones by lia. apply Z.mod_pos_bound. lia. Qed.

Lemma allocate_wp self now objs key size mode s :
  inv 1 s -> ptr_ok s ->
  wp (shmget_allocate_segment self now objs key size mode) (fun _ s' => invp 1 s') (fun _ s' => invp 1 s') s.
Proof.
  intros Hs Hp. unfold shmget_allocate_segment. apply (wp_run_bind _ _ _ _ _ (glob s) s); [done|].
  pose proof (si_tbl _ _ _ _ Hs) as Ht. rewrite (tb_info _ _ _ Ht).
  apply wp_bind, wp_err_if; intros Hsz; [done|]. apply wp_bind, wp_err_if; intros Hu; [done|].
  apply wp_bind, wp_err_if; intros Hall; [done|]. destruct Hlim as [L1 L2 L3 L4 L5].
  rewrite (u32_small (shmmin si)), (u32_small (shmmax si)) in Hsz by lia.
  rewrite (u32_small (shmall si)) in Hall by lia. breflect.
  pose proof (tbl_comm_nonneg _ _ _ Ht). pose proof (tb_all _ _ _ Ht). pose proof (btoc_range (round_page size)).
  rewrite u32_small in Hall by lia.
  apply wp_bind. eapply wp_conseq; [by apply take_slot_wp| |by intros e s' ->].
  intros i s1 (d & Hd & Ha & ->). set (s1 := set_glob (set_last_free (-1) (glob s)) s).
  assert (Hs1 : inv 1 s1).
  { eapply inv_glob; [exact Hs| |apply Hs]. destruct Ht. by constructor. }
  destruct objs as [e|obj]; apply wp_bind; [by apply wp_err|apply wp_ret].
  assert (Hd1 : aget (shmsegs (glob s1)) i = Some d) by done.
  eapply wp_run_bind; [by apply get_seg_run|].
  eapply wp_run_bind; [by apply upd_seg_run|]. apply wp_bind. unfold upd_glob. apply wp_mod, wp_ret.
  split; [|done].
  match goal with |- inv 1 (set_glob _ (with_seg i ?x _)) => set (d' := x) end.
  eapply (inv_glob 1 1 s1); [done| |apply Hs].
  pose proof (si_tbl _ _ _ _ Hs1) as Ht1.
  assert (Hpg : pages d' = btoc (round_page size)) by (unfold pages; cbn; rewrite round_page_idem; [done|lia]).
  assert (Hm : forall b, Z.land ACCESSPERMS b = 0 -> mode_has b d' = has_bits SHMSEG_ALLOCATED b)
    by (intros b Hb; by apply new_mode).
  eapply (tbl_alloc si _ _ Ht1 _ i d d'); try done; try (by rewrite Hm); try (by apply Hm); [apply shm_seq_next|].
  by rewrite Hpg.
Qed.

Lemma find_by_key_spec g key i :
  shm_find_segment_by_key g key = i -> i = -1 \/ exists d, aget (shmsegs g) i = Some d.
Proof.
  unfold shm_find_segment_by_key. destruct (find_first _ 0 _) as [j|] eqn:Hf; [|by left].
  intros ->. right. destruct (find_first_Some _ _ _ _ Hf) as (_ & Hm & _).
  destruct (aget (shmsegs g) i) as [d|]; [by exists d|done].
Qed.

Lemma keeps_shmget self rclk now objs key size shmflg : keeps 0 (sysvShmGet self rclk now objs key size shmflg).
Proof.
  apply keeps_locked. intros s Hs Hp. apply (wp_run_bind _ _ _ _ _ (glob s) s); [done|].
  destruct (negb (key =? IPC_PRIVATE)); [|by apply allocate_wp].
  cbv zeta. destruct (shm_find_segment_by_key (glob s) key >=? 0) eqn:Hge.
  - destruct (find_by_key_spec (glob s) key _ eq_refl) as [Hm|[d Hd]]; [by rewrite Hm in Hge|].
    unfold shmget_existing. eapply wp_run_bind; [by apply get_seg_run|].
    do 4 (apply wp_bind, wp_err_if; intros _; [done|]). by apply wp_ret.
  - destruct (_ =? 0); [by apply wp_err|by apply allocate_wp].
Qed.

(** *** shmat *)

Lemma inv_lock n s : inv n s -> 0 <= n -> mtx_lock s = Done () (set_glob (set_mtx (n + 1) (glob s)) s) /\
  inv (n + 1) (set_glob (set_mtx (n + 1) (glob s)) s).
Proof.
  intros Hs Hn. unfold mtx_lock, upd_glob, mmod. rewrite (si_mtx _ _ _ _ Hs). split; [done|].
  apply (inv_frame n s (set_mtx (n + 1) (glob s)) Hs); done.
Qed.

Lemma inv_unlock n s : inv (n + 1) s -> 0 <= n -> mtx_unlock s = Done () (set_glob (set_mtx n (glob s)) s) /\
  inv n (set_glob (set_mtx n (glob s)) s).
Proof.
  intros Hs Hn. unfold mtx_unlock. rewrite (run_bind _ _ _ (mtx (glob s)) s) by done.
  rewrite (si_mtx _ _ _ _ Hs). destruct (Z.leb_spec (n + 1) 0); [lia|]. rewrite Z.add_simpl_r. split; [done|].
  apply (inv_frame (n + 1) s (set_mtx n (glob s)) Hs); done.
Qed.

Lemma new_table n s :
  inv n s -> vm_tab s = None ->
  inv n (set_vm_ptr true (set_vm (Some (replicate (Z.to_nat (shmseg si)) (mk_shmmap 0 (-1)))) s)).
Proof.
  intros Hs Hv. constructor; [|apply Hs|].
  - eapply tbl_ext; [|apply Hs]. intros i. cbn. rewrite Hv, att_fresh. done.
  - constructor; cbn; [done| |].
    + intros v [= <-]. apply alen_replicate. apply Hlim.
    + intros v e m [= <-] Hm. apply aget_replicate in Hm. by subst m.
Qed.

Lemma attach_inv s v e i d id a p t :
  inv 1 s -> vm_tab s = Some v -> free_entry v e = true -> aget (shmsegs (glob s)) i = Some d ->
  is_alloc d = true -> i = IPCID_TO_IX id -> perm_seq (shm_perm d) = IPCID_TO_SEQ id ->
  inv 1 (with_seg i (seg_attach p t d) (set_vm (Some (aset v e (mk_shmmap a id))) s)).
Proof.
  intros Hs Hv He Hd Hal Hi Hsq. unfold free_entry in He.
  assert (Hid : id <> -1).
  { intros ->. pose proof (tb_seq _ _ _ (si_tbl _ _ _ _ Hs) i d Hd) as Hr. rewrite Hsq in Hr.
    change (IPCID_TO_SEQ (-1)) with 65535 in Hr. lia. }
  destruct (aget v e) as [m|] eqn:Hm; [|done]. apply Z.eqb_eq in He.
  pose proof (aget_Some_range _ _ _ Hm) as Hre. pose proof (aget_Some_range _ _ _ Hd) as Hri.
  rewrite (tb_len _ _ _ (si_tbl _ _ _ _ Hs)) in Hri.
  destruct (inv_seg _ _ _ _ Hs Hd) as ([Hok1 Hok2] & Hna & _). specialize (Hna Hal). rewrite Hv in Hna. cbn in Hna.
  assert (Hatt : forall j, att (aset v e (mk_shmmap a id)) j = att v j + (if j =? i then 1 else 0)).
  { intros j. rewrite (att_aset v e m _ j Hm). unfold att1. cbn [shmid]. rewrite He, Z.eqb_refl.
    rewrite (proj2 (Z.eqb_neq id (-1))) by done. cbn [negb andb]. rewrite <-Hi, (Z.eqb_sym i j). destruct (j =? i); lia. }
  pose proof (Hoth i). pose proof (att_nonneg v i). pose proof (att_le_len (aset v e (mk_shmmap a id)) i) as Hle.
  rewrite alen_aset, (vo_len _ _ (si_vm _ _ _ _ Hs) v Hv), Hatt, Z.eqb_refl in Hle.
  assert (Hn : shm_nattch (seg_attach p t d) = others i + (att v i + 1)) by (cbn; rewrite Hna, u32_small; lia).
  constructor; [|apply Hs|].
  - eapply (tbl_update si _ (glob s) (si_tbl _ _ _ _ Hs) _ _ i d (seg_attach p t d)); try done.
    + split; [exact Hok1|]. intros _ _. rewrite Hn. lia.
    + intros _. rewrite Hn. cbn. by rewrite Hatt, Z.eqb_refl.
    + congruence.
    + intros j Hj. cbn. rewrite Hatt, (proj2 (Z.eqb_neq j i)) by done. rewrite Hv. cbn. lia.
  - destruct (si_vm _ _ _ _ Hs) as [V1 V2 V3]. constructor; cbn.
    + done.
    + intros ? [= <-]. rewrite alen_aset. by apply V2.
    + intros ? j m' [= <-]. rewrite aget_aset by done. case_decide; [|by apply V3]. intros [= <-]. cbn.
      rewrite <-Hi. lia.
Qed.

Lemma attach_addr_pure shmaddr shmflg int s :
  wp (attach_addr shmaddr shmflg int) (fun _ s' => s' = s) (fun _ s' => s' = s) s.
Proof.
  unfold attach_addr. destruct (negb (shmaddr =? 0)); [|by apply wp_ret].
  destruct (has_bits shmflg SHM_RND); [|destruct (_ =? 0)]; apply wp_bind; [apply wp_ret|apply wp_ret|by apply wp_err];
    apply wp_bind, wp_err_if; intros _; try done; by apply wp_ret.
Qed.

(** What follows the making of the table, under the mutex. *)
Lemma attach_body_wp self now rcGet id shmaddr shmflg s :
  inv 1 s -> is_Some (vm_tab s) ->
  wp (g ← gets glob;
    match shm_find_segment_by_shmid g id with
    | None => merr EINVAL
    | Some segnum =>
        d ← get_seg segnum;
        let e := - spmCanIPC self (shm_perm d)
                   (if has_bits shmflg SHM_RDONLY then IPC_R else Z.lor IPC_R IPC_W) in
        _ ← err_if (negb (e =? 0)) e;
        vm ← gets vm_tab; vm ← deref vm;
        match find_first (free_entry vm) 0 (Z.to_nat (shmseg si)) with
        | None => merr EMFILE
        | Some i =>
            attach_va ← attach_addr shmaddr shmflg (shm_internal d);
            _ ← err_if (negb (rcGet =? 0)) rcGet;
            _ ← mmod (set_vm (Some (aset vm i (mk_shmmap attach_va id))));
            _ ← upd_seg segnum (seg_attach (pid self) now);
            mret attach_va
        end
    end) (fun _ s' => inv 1 s' /\ g_vm_shm s' = g_vm_shm s) (fun _ s' => s' = s) s.
Proof.
  intros Hs [v Hv]. apply (wp_run_bind _ _ _ _ _ (glob s) s); [done|].
  destruct (shm_find_segment_by_shmid (glob s) id) as [i|] eqn:Hf; [|by apply wp_err].
  eapply find_by_shmid_spec in Hf as [Hi (d & Hd & Hal & _ & Hsq)]; [|apply Hs].
  eapply wp_run_bind; [by apply get_seg_run|]. apply wp_bind, wp_err_if; intros _; [done|].
  apply (wp_run_bind _ _ _ _ _ (Some v) s); [unfold gets; by rewrite Hv|].
  apply (wp_run_bind _ _ _ _ _ v s); [done|].
  destruct (find_first (free_entry v) 0 _) as [e|] eqn:He; [|by apply wp_err].
  destruct (find_first_Some _ _ _ _ He) as (_ & Hfe & _).
  apply wp_bind. eapply wp_conseq; [by apply attach_addr_pure| |by intros ?? ->].
  intros a s' ->. apply wp_bind, wp_err_if; intros _; [done|].
  apply wp_bind, wp_mod. set (s1 := set_vm _ s).
  eapply wp_run_bind; [by apply upd_seg_run|]. apply wp_ret.
  split; [by apply attach_inv|done].
Qed.

Lemma shmat_wp self rclk now alloc rcGet id shmaddr shmflg s :
  inv 0 s -> ptr_ok s ->
  wp (sysvShmAt self rclk now alloc false rcGet id shmaddr shmflg)
    (fun _ s' => inv 0 s' /\ ptr_ok s') (fun _ s' => inv 0 s' /\ ptr_ok s') s.
Proof.
  intros Hs Hp. unfold sysvShmAt. destruct (negb (rclk =? 0)); [by apply wp_err|].
  destruct (inv_lock 0 s Hs) as [Hl Hs1]; [done|]. eapply wp_run_bind; [exact Hl|].
  set (s1 := set_glob _ s) in *. apply (wp_run_bind _ _ _ _ _ si s1).
  { unfold gl, gets. by rewrite (tb_info _ _ _ (si_tbl _ _ _ _ Hs1)). }
  apply (wp_run_bind _ _ _ _ _ (g_vm_shm s) s1); [done|].
  assert (Hrest : forall s2, inv 1 s2 -> g_vm_shm s2 = true ->
    wp (finally (g ← gets glob;
    match shm_find_segment_by_shmid g id with
    | None => merr EINVAL
    | Some segnum =>
        d ← get_seg segnum;
        let e := - spmCanIPC self (shm_perm d)
                   (if has_bits shmflg SHM_RDONLY then IPC_R else Z.lor IPC_R IPC_W) in
        _ ← err_if (negb (e =? 0)) e;
        vm ← gets vm_tab; vm ← deref vm;
        match find_first (free_entry vm) 0 (Z.to_nat (shmseg si)) with
        | None => merr EMFILE
        | Some i =>
            attach_va ← attach_addr shmaddr shmflg (shm_internal d);
            _ ← err_if (negb (rcGet =? 0)) rcGet;
            _ ← mmod (set_vm (Some (aset vm i (mk_shmmap attach_va id))));
            _ ← upd_seg segnum (seg_attach (pid self) now);
            mret attach_va
        end
    end) mtx_unlock) (fun _ s' => inv 0 s' /\ ptr_ok s') (fun _ s' => inv 0 s' /\ ptr_ok s') s2).
  { intros s2 Hs2 Hptr. apply wp_finally.
    eapply wp_conseq; [apply attach_body_wp; [done|by apply (vo_ptr _ _ (si_vm _ _ _ _ Hs2))]| |].
    - intros a s3 [Hs3 Hp3]. destruct (inv_unlock 0 s3 Hs3) as [Hu Hs4]; [done|]. unfold wp. rewrite Hu.
      split; [done|]. unfold ptr_ok. cbn. congruence.
    - intros e s3 ->. destruct (inv_unlock 0 s2 Hs2) as [Hu Hs4]; [done|]. unfold wp. rewrite Hu.
      split; [done|]. unfold ptr_ok. cbn. congruence. }
  destruct (g_vm_shm s) eqn:Hptr; cbn [negb mwhen].
  { apply (wp_run_bind _ _ _ _ _ () s1); [done|]. by apply Hrest. }
  destruct (inv_unlock 0 s1 Hs1) as [Hu Hs2]; [done|]. set (s2 := set_glob _ s1) in *.
  assert (Hv2 : vm_tab s2 = None) by by apply Hp.
  apply wp_bind. eapply wp_run_bind; [exact Hu|].
  apply wp_bind, wp_err_if; intros _; [by split|].
  destruct (inv_lock 0 s2 Hs2) as [Hl3 Hs3]; [done|]. eapply wp_run_bind; [exact Hl3|].
  set (s3 := set_glob _ s2) in *. apply wp_bind, wp_mod. apply wp_mod. apply Hrest; [|done].
  by apply (new_table 1 s3).
Qed.
End Ops.
