(* ===== verification/SysVShmSystem.v ===== *)
(** System V shared memory as a system of processes: the exit hook, the
    transition relation of the calls, and the theorems on reachable states, on
    process exit and on fork. *)

From S2P Require Import Prelude.
From S2P Require Import Creds.
From S2P Require Import SysVShm.
From S2P Require Import SysVShmFacts.

(** ** The exit hook *)

Section Exit.
Context (si : shminfo) (others : Z -> Z) (Hlim : lims_ok si).
Context (Hoth : forall i, 0 <= others i /\ others i + shmseg si < 2 ^ 32).
Notation inv := (sinv si others).

(** The first [e] entries of the table are free. *)
Definition detached (e : Z) (s : shmst) : Prop :=
  exists v, vm_tab s = Some v /\ forall j m, 0 <= j < e -> aget v j = Some m -> shmid m = -1.

Lemma exit_loop_wp now rcFree k e s :
  (forall a, rcFree a = 0) -> inv 1 s -> 0 <= e -> e + Z.of_nat k = shmseg si -> detached e s ->
  wp (mfor (zrange e k) (exit_detach now rcFree))
    (fun _ s' => inv 1 s' /\ g_vm_shm s' = g_vm_shm s /\ detached (shmseg si) s') (fun _ _ => False) s.
Proof.
  intros Hrc. revert e s. induction k as [|k IH]; intros e s Hs He Hk (v & Hv & Hd).
  { apply wp_ret. split; [done|]. split; [done|]. exists v. split; [done|].
    intros j m Hj. apply Hd. lia. }
  rewrite zrange_S. cbn [mfor].
  destruct (aget_is_Some v e) as [m Hm]; [rewrite (vo_len _ _ (si_vm _ _ _ _ Hs) v Hv); lia|].
  apply wp_bind. eapply (wp_conseq _ (fun _ s' => inv 1 s' /\ g_vm_shm s' = g_vm_shm s /\ detached (e + 1) s')
    _ (fun _ _ => False)); [| |done].
  - unfold exit_detach. apply (wp_run_bind _ _ _ _ _ (Some v) s); [unfold gets; by rewrite Hv|].
    apply (wp_run_bind _ _ _ _ _ v s); [done|]. apply (wp_run_bind _ _ _ _ _ m s); [by rewrite Hm|].
    destruct (Z.eqb_spec (shmid m) (-1)) as [Hm1|Hm1]; cbn [negb mwhen].
    + apply wp_ret. split; [done|]. split; [done|]. exists v. split; [done|].
      intros j m' Hj Hm'. destruct (decide (j = e)) as [->|]; [congruence|]. apply (Hd j); [lia|done].
    + apply wp_bind. eapply wp_conseq; [by apply (delete_mapping_wp si others Hoth now _ e true s v m)| |done].
      intros rc s' (Hs' & Hp' & Hv'). apply wp_ret. split; [done|]. split; [done|].
      rewrite Hrc in Hv'. cbn in Hv'. exists (aset v e (mk_shmmap (va m) (-1))). split; [done|].
      intros j m' Hj. rewrite aget_aset by by eapply aget_Some_range.
      case_decide; [by intros [= <-]|]. apply Hd. lia.
  - intros [] s' (Hs' & Hp' & Hd'). eapply wp_conseq; [apply (IH (e + 1) s' Hs'); [lia|lia|done]| |done].
    intros [] s2 (Hs2 & Hp2 & Hd2). split_and!; [done|congruence|done].
Qed.

(** Allocated segments from index [i] on. *)
Definition alloc_from (i : Z) (l : list shmid_ds) : Z := sumZ (used1 <$> drop (Z.to_nat i) l).

Lemma alloc_from_cons l i d :
  aget l i = Some d -> alloc_from i l = used1 d + alloc_from (i + 1) l.
Proof.
  unfold aget, alloc_from. destruct (Z.leb_spec 0 i); [|done]. intros Hd.
  rewrite (drop_S _ _ _ Hd), fmap_cons. cbn [sumZ]. by replace (Z.to_nat (i + 1)) with (S (Z.to_nat i)) by lia.
Qed.

Lemma used1_nonneg d : 0 <= used1 d.
Proof. unfold used1. destruct (is_alloc d); lia. Qed.

(** What the clean-up leaves behind: attached segments, and those of the
    server (which no call of this library marks) unless removed. *)
Definition kept (d : shmid_ds) : Prop :=
  is_alloc d = true -> shm_nattch d <> 0 \/ (mode_has SHMSEG_SERVER d = true /\ mode_has SHMSEG_REMOVED d = false).

Definition cleaned (i : Z) (s : shmst) : Prop :=
  forall j d, 0 <= j < i -> aget (shmsegs (glob s)) j = Some d -> kept d.

Lemma clean_dealloc i d s :
  inv 1 s -> aget (shmsegs (glob s)) i = Some d -> is_alloc d = true -> shm_nattch d = 0 ->
  inv 1 (set_glob (deallocated i d (glob s)) s).
Proof.
  intros Hs Hd Hal Hz. destruct (inv_seg _ _ _ _ _ _ Hs Hd) as (_ & Hna & _). specialize (Hna Hal).
  eapply inv_glob; [exact Hs| |apply Hs].
  eapply (tbl_free si _ (glob s) (si_tbl _ _ _ _ Hs) _ _ i d (seg_free d)); try done; [cbn in *; lia|by left].
Qed.

Lemma exit_clean_wp fuel i c s :
  inv 1 s -> 0 <= i -> i + Z.of_nat fuel = shmmni si -> alloc_from i (shmsegs (glob s)) <= c -> cleaned i s ->
  wp (exit_clean fuel i c) (fun _ s' => inv 1 s' /\ vm_tab s' = vm_tab s /\ g_vm_shm s' = g_vm_shm s /\
    cleaned (shmmni si) s') (fun _ _ => False) s.
Proof.
  revert i c s. induction fuel as [|fuel IH]; intros i c s Hs Hi Hf Hc Hcl; cbn [exit_clean].
  { apply wp_ret. split_and!; [done..|]. by replace (shmmni si) with i by lia. }
  destruct (inv_seg_some _ _ _ _ i Hs) as [d Hd]; [lia|].
  pose proof (alloc_from_cons _ _ _ Hd) as Ha.
  assert (Hnn : 0 <= alloc_from (i + 1) (shmsegs (glob s))).
  { apply sumZ_nonneg, Forall_fmap, Forall_true. intros x. apply used1_nonneg. }
  eapply wp_run_bind; [by apply get_seg_run|]. fold (is_alloc d).
  assert (Hnext : forall s1 d1 c1, inv 1 s1 -> vm_tab s1 = vm_tab s -> g_vm_shm s1 = g_vm_shm s ->
    shmsegs (glob s1) = aset (shmsegs (glob s)) i d1 -> kept d1 -> alloc_from (i + 1) (shmsegs (glob s)) <= c1 ->
    wp (exit_clean fuel (i + 1) c1) (fun _ s' => inv 1 s' /\ vm_tab s' = vm_tab s /\ g_vm_shm s' = g_vm_shm s /\
      cleaned (shmmni si) s') (fun _ _ => False) s1).
  { intros s1 d1 c1 Hs1 Hv1 Hp1 Hseg Hk Hc1. pose proof (aget_Some_range _ _ _ Hd) as Hr.
    assert (Hd1 : drop (Z.to_nat (i + 1)) (shmsegs (glob s1)) = drop (Z.to_nat (i + 1)) (shmsegs (glob s))).
    { rewrite Hseg. unfold aset. apply drop_insert_lt. lia. }
    eapply wp_conseq; [apply (IH (i + 1) c1 s1 Hs1); [lia|lia|by unfold alloc_from; rewrite Hd1|]| |done].
    - intros j d2 Hj. rewrite Hseg, aget_aset by done. case_decide; [by intros [= <-]|]. apply Hcl. lia.
    - intros [] s2 (H1 & H2 & H3 & H4). split_and!; [done|congruence|congruence|done]. }
  unfold used1 in Ha. destruct (is_alloc d) eqn:Hal.
  2:{ apply (Hnext s d); try done; [by rewrite (aset_id _ _ _ Hd)| |lia]. intros H. congruence. }
  destruct (_ && _)%bool eqn:Hfree; cbn [mwhen].
  - apply andb_true_iff in Hfree as [Hz _]. apply Z.eqb_eq in Hz.
    eapply wp_run_bind; [by apply dealloc_run|]. zbool.
    apply (Hnext _ (seg_free d)); try done; [by apply clean_dealloc|lia].
  - apply (wp_run_bind _ _ _ _ _ () s); [done|]. zbool. apply (Hnext s d); try done; [by rewrite (aset_id _ _ _ Hd)| |lia].
    intros _. apply andb_false_iff in Hfree as [Hz|Hz]; [left; by apply Z.eqb_neq|right].
    apply orb_false_iff in Hz as [H1 H2]. apply negb_false_iff in H1. done.
Qed.

Lemma detached_att s v :
  detached (shmseg si) s -> vm_tab s = Some v -> alen v = shmseg si -> forall i, att v i = 0.
Proof.
  intros (v' & Hv' & Hd) Hv Hlen i. assert (v = v') as -> by congruence. clear Hv. unfold att.
  assert (H : Forall (fun x => x = 0) (att1 i <$> v')).
  { apply Forall_fmap, Forall_lookup. intros j m Hm. unfold att1.
    assert (Hj : aget v' (Z.of_nat j) = Some m)
      by (unfold aget; destruct (Z.leb_spec 0 (Z.of_nat j)); [by rewrite Nat2Z.id|lia]).
    cbn. rewrite (Hd (Z.of_nat j) m); [done| |done]. rewrite <-Hlen. by eapply aget_Some_range. }
  induction H as [|x l -> H IH]; cbn; lia.
Qed.

Lemma ptr_state s : inv 1 s -> inv 1 (set_vm_ptr false s).
Proof. intros [H1 H2 [V1 V2 V3]]. by constructor. Qed.

(** After the exit hook nothing of the process is attached any more and only
    what others use (or the server holds) is left. *)
Lemma shmexit_wp now rcFree s :
  (forall a, rcFree a = 0) -> inv 0 s -> ptr_ok s ->
  wp (shmexit_myhook true false now rcFree)
    (fun _ s' => inv 0 s' /\ (forall i, att_opt (vm_tab s') i = 0) /\ cleaned (shmmni si) s')
    (fun _ _ => False) s.
Proof.
  intros Hrc Hs Hp. unfold shmexit_myhook. cbn [andb negb mwhen].
  destruct (inv_lock si others 0 s Hs) as [Hl Hs1]; [done|]. eapply wp_run_bind; [exact Hl|].
  set (s1 := set_glob _ s) in *. apply (wp_run_bind _ _ _ _ _ (g_vm_shm s) s1); [done|].
  apply (wp_run_bind _ _ _ _ _ si s1); [unfold gl, gets; by rewrite (tb_info _ _ _ (si_tbl _ _ _ _ Hs1))|].
  assert (Hseg : 0 <= shmseg si) by apply Hlim.
  apply wp_bind. eapply (wp_conseq _ (fun _ s' => inv 1 s' /\ forall i, att_opt (vm_tab s') i = 0)
    _ (fun _ _ => False)); [| |done].
  - destruct (g_vm_shm s) eqn:Hptr; cbn [mwhen].
    + destruct (vo_ptr _ _ (si_vm _ _ _ _ Hs1) Hptr) as [v Hv].
      apply wp_bind, wp_mod. eapply wp_conseq; [apply (exit_loop_wp now rcFree _ 0); [done|by apply ptr_state|lia|lia|]| |done].
      * exists v. split; [done|]. intros j m Hj. lia.
      * intros [] s' (Hs' & _ & Hd). split; [done|]. intros i. pose proof Hd as (v' & Hv' & _).
        rewrite Hv'. cbn. apply (detached_att s' v' Hd Hv'). by apply (vo_len _ _ (si_vm _ _ _ _ Hs')).
    + apply wp_ret. split; [done|]. intros i. change (vm_tab s1) with (vm_tab s). by rewrite (Hp Hptr).
  - intros [] s2 [Hs2 Hatt]. apply (wp_run_bind _ _ _ _ _ (glob s2) s2); [done|].
    apply wp_bind. eapply (wp_conseq _ (fun _ s' => inv 1 s' /\ (forall i, att_opt (vm_tab s') i = 0) /\
      cleaned (shmmni si) s') _ (fun _ _ => False)); [| |done].
    + pose proof (si_tbl _ _ _ _ Hs2) as Ht. apply wp_when; intros Hu.
      * eapply wp_conseq; [apply (exit_clean_wp _ 0); [done|lia| | |]| |done].
        -- rewrite (tb_alloced _ _ _ Ht). pose proof (lm_mni _ Hlim). lia.
        -- pose proof (tb_used _ _ _ Ht) as Hus. unfold alloc_from. change (drop (Z.to_nat 0) (shmsegs (glob s2))) with (shmsegs (glob s2)). lia.
        -- intros j d Hj. lia.
        -- intros [] s3 (Hs3 & Hv3 & _ & Hc). split_and!; [done|intros i; by rewrite Hv3|done].
      * split_and!; [done|done|]. intros j d Hj Hd Hal. breflect.
        assert (Hle : used1 d <= sumZ (used1 <$> shmsegs (glob s2))).
        { apply (sumZ_le _ j); [|by rewrite aget_fmap, Hd]. apply Forall_fmap, Forall_true. intros x. apply used1_nonneg. }
        rewrite (tb_used _ _ _ Ht) in Hle. unfold used1 in Hle. rewrite Hal in Hle. lia.
    + intros [] s3 (Hs3 & Ha3 & Hc3). destruct (inv_unlock si others 0 s3 Hs3) as [Hun Hs4]; [done|].
      eapply wp_run_bind; [exact Hun|]. unfold upd_glob. apply wp_mod. split_and!; [|done|done].
      eapply (inv_glob si others 0 0); [exact Hs4| |done]. eapply tbl_frame; [apply Hs4|done..].
Qed.
End Exit.

(** ** The transition system *)

(** A process: its attach table and whether its pointer is set. *)
Record proc := mk_proc { p_tab : option (list shmmap); p_ptr : bool }.
Definition new_proc : proc := mk_proc None false.
Definition p_att (i : Z) (p : proc) : Z := att_opt (p_tab p) i.
Definition total (ps : list proc) (i : Z) : Z := sumZ (p_att i <$> ps).

Inductive config :=
  | Running (g : sysv_shm) (ps : list proc)
  | Crashed (f : fault).

(** Process [p] of [l1 ++ p :: l2] made a call. *)
Definition after {A} (l1 l2 : list proc) (o : outcome shmst A) : config :=
  match o with
  | Done _ s | Err _ s => Running (glob s) (l1 ++ mk_proc (vm_tab s) (g_vm_shm s) :: l2)
  | Fault f => Crashed f
  end.

Definition exited {A} (l1 l2 : list proc) (o : outcome shmst A) : config :=
  match o with
  | Done _ s | Err _ s => Running (glob s) (l1 ++ l2)
  | Fault f => Crashed f
  end.

Definition call_state (g : sysv_shm) (p : proc) : shmst := mk_shmst g (p_tab p) (p_ptr p).

(** The calls of single-threaded processes that start without attachments:
    starting a process, the four calls, and the exit hook when [DosFreeMem]
    works.  The number of processes keeps the 32-bit counts from wrapping. *)
Inductive shm_step (si : shminfo) : config -> config -> Prop :=
  | st_new g ps : (Z.of_nat (length ps) + 1) * shmseg si < 2 ^ 32 ->
      shm_step si (Running g ps) (Running g (new_proc :: ps))
  | st_shmget self rclk now objs key size flg g l1 p l2 :
      shm_step si (Running g (l1 ++ p :: l2))
        (after l1 l2 (sysvShmGet self rclk now objs key size flg (call_state g p)))
  | st_shmat self rclk now alloc rcGet id addr flg g l1 p l2 :
      shm_step si (Running g (l1 ++ p :: l2))
        (after l1 l2 (sysvShmAt self rclk now alloc false rcGet id addr flg (call_state g p)))
  | st_shmdt rclk now rcFree addr g l1 p l2 :
      shm_step si (Running g (l1 ++ p :: l2)) (after l1 l2 (sysvShmDt rclk now rcFree addr (call_state g p)))
  | st_shmctl self rclk now id cmd buf g l1 p l2 :
      shm_step si (Running g (l1 ++ p :: l2)) (after l1 l2 (sysvShmCtl self rclk now id cmd buf (call_state g p)))
  | st_exit now rcFree g l1 p l2 : (forall a, rcFree a = 0) ->
      shm_step si (Running g (l1 ++ p :: l2)) (exited l1 l2 (shmexit_myhook true false now rcFree (call_state g p))).

Definition shm_reach (si : shminfo) : config -> Prop := rtc (shm_step si) (Running (fresh_globals si) []).

(** The state of the system: the counts in the table are the numbers of
    attachments of all processes. *)
Record sys_ok (si : shminfo) (g : sysv_shm) (ps : list proc) : Prop := {
  so_tbl : tbl si (total ps) g;
  so_mtx : mtx g = 0;
  so_proc : Forall (fun p => vm_ok si (call_state g p) /\ ptr_ok (call_state g p)) ps;
  so_few : Z.of_nat (length ps) * shmseg si < 2 ^ 32
}.

Lemma p_att_bound si g p i :
  vm_ok si (call_state g p) -> 0 <= shmseg si -> 0 <= p_att i p <= shmseg si.
Proof.
  intros Hv Hs. split; [apply att_opt_nonneg|]. unfold p_att. destruct (p_tab p) as [v|] eqn:Ht; [|done].
  cbn. pose proof (att_le_len v i) as H. rewrite (vo_len _ _ Hv v Ht) in H. done.
Qed.

Lemma total_app l1 l2 i : total (l1 ++ l2) i = total l1 i + total l2 i.
Proof. unfold total. by rewrite fmap_app, sumZ_app. Qed.

Lemma total_cons p l i : total (p :: l) i = p_att i p + total l i.
Proof. done. Qed.

Lemma total_bound si g ps i :
  Forall (fun p => vm_ok si (call_state g p) /\ ptr_ok (call_state g p)) ps -> 0 <= shmseg si ->
  0 <= total ps i <= Z.of_nat (length ps) * shmseg si.
Proof.
  intros Hps Hs. induction Hps as [|p ps [Hp _] Hps IH]; [done|]. rewrite total_cons.
  pose proof (p_att_bound si g p i Hp Hs). cbn [length]. lia.
Qed.

(** The view of one process. *)
Lemma sys_call si g l1 p l2 :
  lims_ok si -> sys_ok si g (l1 ++ p :: l2) ->
  sinv si (total (l1 ++ l2)) 0 (call_state g p) /\ ptr_ok (call_state g p) /\
  forall i, 0 <= total (l1 ++ l2) i /\ total (l1 ++ l2) i + shmseg si < 2 ^ 32.
Proof.
  intros Hlim [H1 H2 H3 H4]. pose proof (proj1 (lm_seg _ Hlim)) as Hseg.
  apply Forall_app in H3 as [H3 H5]. inversion H5 as [|? ? [Hp Hptr] H6]; subst.
  split; [|split; [done|]].
  - constructor; [|done|done]. eapply tbl_ext; [|exact H1].
    intros i. cbn. rewrite !total_app, total_cons. unfold p_att. lia.
  - intros i. pose proof (total_bound si g (l1 ++ l2) i) as Hb. rewrite length_app in *. cbn [length] in H4.
    destruct Hb; [by apply Forall_app|done|]. split; [done|]. lia.
Qed.

Lemma vm_ok_state si s g : vm_ok si s -> vm_ok si (call_state g (mk_proc (vm_tab s) (g_vm_shm s))).
Proof. intros [V1 V2 V3]. by constructor. Qed.

(** A process view with [inv] and the others unchanged make a good system. *)
Lemma sys_ok_call si g l1 p l2 s :
  sys_ok si g (l1 ++ p :: l2) -> sinv si (total (l1 ++ l2)) 0 s -> ptr_ok s ->
  sys_ok si (glob s) (l1 ++ mk_proc (vm_tab s) (g_vm_shm s) :: l2).
Proof.
  intros [_ _ H3 H4] [T1 T2 T3] Hp. apply Forall_app in H3 as [H3 H5]. inversion H5 as [|? ? _ H6]; subst.
  constructor; [|done| |].
  - eapply tbl_ext; [|exact T1]. intros i. rewrite !total_app, total_cons. unfold p_att. cbn. lia.
  - assert (Hst : forall q, vm_ok si (call_state g q) /\ ptr_ok (call_state g q) ->
      vm_ok si (call_state (glob s) q) /\ ptr_ok (call_state (glob s) q)).
    { intros q [[V1 V2 V3] Hq]. by split; [constructor|]. }
    apply Forall_app. split; [by eapply Forall_impl|]. constructor; [|by eapply Forall_impl].
    split; [by apply vm_ok_state|done].
  - rewrite length_app in *. done.
Qed.

Lemma wp_after_call {A} si g l1 p l2 (m : G A) :
  sys_ok si g (l1 ++ p :: l2) ->
  wp m (fun _ s' => sinv si (total (l1 ++ l2)) 0 s' /\ ptr_ok s')
       (fun _ s' => sinv si (total (l1 ++ l2)) 0 s' /\ ptr_ok s') (call_state g p) ->
  exists g' ps', after l1 l2 (m (call_state g p)) = Running g' ps' /\ sys_ok si g' ps'.
Proof.
  intros Hok. unfold wp. destruct (m (call_state g p)) as [a s|e s|f]; [| |done]; intros [Hs Hp];
    eexists _, _; (split; [done|]); by eapply sys_ok_call.
Qed.

Lemma total_nil i : total [] i = 0.
Proof. done. Qed.

Lemma exit_step_ok si now rcFree g l1 p l2 :
  lims_ok si -> (forall a, rcFree a = 0) -> sys_ok si g (l1 ++ p :: l2) ->
  exists g' ps', exited l1 l2 (shmexit_myhook true false now rcFree (call_state g p)) = Running g' ps' /\ sys_ok si g' ps'.
Proof.
  intros Hlim Hrc Hok. destruct (sys_call si g l1 p l2 Hlim Hok) as (Hs & Hp & Hoth).
  pose proof (shmexit_wp si _ Hlim Hoth now rcFree _ Hrc Hs Hp) as H. unfold wp in H.
  destruct (shmexit_myhook _ _ _ _ _) as [[] s|e s|f]; [|done|done]. destruct H as (Hs' & Ha & _).
  exists (glob s), (l1 ++ l2). split; [done|]. destruct Hok as [_ _ H3 H4].
  apply Forall_app in H3 as [H3 H5]. inversion H5 as [|? ? _ H6]; subst.
  constructor.
  - eapply tbl_ext; [|apply Hs']. intros i. cbn. rewrite Ha. lia.
  - apply Hs'.
  - apply Forall_app. split; (eapply Forall_impl; [done|]); intros q [[V1 V2 V3] Hq]; by split; [constructor|].
  - pose proof (proj1 (lm_seg _ Hlim)). rewrite length_app in *. cbn [length] in H4. lia.
Qed.

Lemma shm_step_ok si g ps c :
  lims_ok si -> sys_ok si g ps -> shm_step si (Running g ps) c ->
  exists g' ps', c = Running g' ps' /\ sys_ok si g' ps'.
Proof.
  intros Hlim Hok Hstep. inversion Hstep; subst.
  - exists g, (new_proc :: ps). split; [done|]. destruct Hok as [T1 T2 T3 T4]. constructor; [|done| |].
    + eapply tbl_ext; [|exact T1]. intros i. by rewrite total_cons.
    + constructor; [|done]. split; [by constructor|done].
    + cbn [length]. lia.
  - destruct (sys_call si g l1 p l2 Hlim Hok) as (Hs & Hp & Hoth). eapply wp_after_call; [done|]. by apply keeps_shmget.
  - destruct (sys_call si g l1 p l2 Hlim Hok) as (Hs & Hp & Hoth). eapply wp_after_call; [done|]. by apply shmat_wp.
  - destruct (sys_call si g l1 p l2 Hlim Hok) as (Hs & Hp & Hoth). eapply wp_after_call; [done|]. by apply keeps_shmdt.
  - destruct (sys_call si g l1 p l2 Hlim Hok) as (Hs & Hp & Hoth). eapply wp_after_call; [done|]. by apply keeps_shmctl.
  - by apply exit_step_ok.
Qed.

Lemma fresh_tbl si : lims_ok si -> tbl si (fun _ => 0) (fresh_globals si).
Proof.
  intros Hlim. destruct Hlim as [Hm _ _ _ Ha]. constructor; cbn; try done; try lia.
  - rewrite alen_replicate; lia.
  - intros i d Hd%aget_replicate. subst d. by split_and!.
  - intros i d Hd%aget_replicate. subst d. cbn. lia.
  - rewrite fmap_replicate, sumZ_replicate. change (used1 fresh_seg) with 0. lia.
  - rewrite fmap_replicate, sumZ_replicate. change (pages1 fresh_seg) with 0. lia.
  - intros _. exists fresh_seg. split; [|done]. unfold aget. cbn. by rewrite lookup_replicate_2 by lia.
Qed.

Lemma shm_reach_ok si c : lims_ok si -> shm_reach si c -> exists g ps, c = Running g ps /\ sys_ok si g ps.
Proof.
  intros Hlim Hr. unfold shm_reach in Hr.
  assert (H0 : exists g ps, Running (fresh_globals si) [] = Running g ps /\ sys_ok si g ps).
  { exists (fresh_globals si), []. split; [done|]. constructor; [by apply fresh_tbl|done|done|done]. }
  induction Hr as [c|c1 c2 c3 Hs Hr IH]; [done|]. apply IH. destruct H0 as (g & ps & -> & Hok).
  by eapply shm_step_ok.
Qed.

(** ** Properties *)

Definition si0 : shminfo := default_shminfo.

Lemma lims_ok0 : lims_ok si0.
Proof. constructor; split; by vm_compute. Qed.

Definition proc8 : SPMPROCESS := mk_SPMPROCESS 8 1 1 1 0 0 0 0 0 0 [].
Definition shm0 : shmst := call_state (fresh_globals si0) new_proc.
(** One segment of 10000 bytes; then attached; the id is 0x10000. *)
Definition run_or {A} (d : shmst) (o : outcome shmst A) : shmst :=
  match o with Done _ s | Err _ s => s | Fault _ => d end.
Definition shm1 : shmst := run_or shm0 (sysvShmGet proc8 0 5 (inr 0x60000) 77 10000 (Z.lor IPC_CREAT 0x1b6) shm0).
Definition shm2 : shmst := run_or shm1 (sysvShmAt proc8 0 6 true false 0 0x10000 0 0 shm1).

(** C7: In every state that processes with one thread each, which start without
    attachments and do not fork, can reach, with any sequence of their [shmget],
    [shmat], [shmdt], [shmctl] calls and exits, no call has faulted and the mutex
    is free; the attach count of every segment is exactly the number of entries
    of all attach tables that refer to it, so nobody is attached to a freed
    segment; [shm_nused] and [shm_committed] are the number and the pages of the
    allocated segments and stay within [shmmni] and [shmall]; and a removed
    segment lives only while attached. No steps are: the hook of fork, which
    miscounts ([shmfork_counts_first_only]); calls of two threads of a process
    that overlap in [shmat]; and an exit at which [DosFreeMem] fails. *)
Theorem shm_system_safe si c :
  lims_ok si -> shm_reach si c ->
  exists g ps, c = Running g ps /\ mtx g = 0 /\
    (forall i d, aget (shmsegs g) i = Some d ->
      if is_alloc d then shm_nattch d = total ps i /\ (mode_has SHMSEG_REMOVED d = true -> 0 < total ps i)
      else total ps i = 0) /\
    shm_nused g = sumZ (used1 <$> shmsegs g) /\ 0 <= shm_nused g <= shmmni si /\
    shm_committed g = sumZ (pages1 <$> shmsegs g) /\ 0 <= shm_committed g <= shmall si.
Proof.
  intros Hlim Hr. destruct (shm_reach_ok si c Hlim Hr) as (g & ps & -> & [Ht Hm Hp Hf]).
  exists g, ps. split; [done|]. split; [done|]. split.
  - intros i d Hd. destruct (tb_seg _ _ _ Ht i d Hd) as ([_ Hrm] & Ha & Hn).
    destruct (is_alloc d); [|by apply Hn]. specialize (Ha eq_refl). split; [done|].
    intros Hx. rewrite <-Ha. by apply Hrm.
  - split; [by rewrite (tb_used _ _ _ Ht)|]. split; [by eapply tbl_used_bound|].
    split; [by rewrite (tb_comm _ _ _ Ht)|]. split; [by eapply tbl_comm_nonneg|by eapply tb_all].
Qed.

Lemma shm_get1 : sysvShmGet proc8 0 5 (inr 0x60000) 77 10000 (Z.lor IPC_CREAT 0x1b6) shm0 = Done 0x10000 shm1.
Proof. by vm_compute. Qed.

Lemma running_inj g ps g' ps' : Running g ps = Running g' ps' -> g = g' /\ ps = ps'.
Proof. by intros [= -> ->]. Qed.

Lemma shm_system_safe_witness :
  exists g ps, shm_reach si0 (Running g ps) /\ shm_nused g = 1 /\ total ps 0 = 0 /\ 0 <= shm_committed g <= shmall si0.
Proof.
  assert (Hr : shm_reach si0 (Running (glob shm1) ([] ++ mk_proc (vm_tab shm1) (g_vm_shm shm1) :: []))).
  { apply (rtc_l _ _ (Running (fresh_globals si0) ([] ++ new_proc :: []))).
    - apply (st_new si0 (fresh_globals si0) []). cbn. lia.
    - apply rtc_once. 
      pose proof (st_shmget si0 proc8 0 5 (inr 0x60000) 77 10000 (Z.lor IPC_CREAT 0x1b6) (fresh_globals si0) [] new_proc []) as H.
      fold shm0 in H. rewrite shm_get1 in H. exact H. }
  destruct (shm_system_safe si0 _ lims_ok0 Hr) as (g & ps & Heq & _ & Hseg & _ & _ & _ & Hc).
  exists g, ps. destruct (running_inj _ _ _ _ Heq) as [<- <-]. split; [exact Hr|]. split; [by vm_compute|]. split; [by vm_compute|exact Hc].
Defined.

(** C40: The exit hook gives back everything: with [DosFreeMem] working, it never
    faults, the mutex is free after it, no attachment of the process is left in
    the counts (they are those of the other processes alone), and every
    segment that is still allocated is attached by another process or was
    captured by the server. *)
Theorem shm_exit_cleans si others now rcFree s :
  lims_ok si -> (forall i, 0 <= others i /\ others i + shmseg si < 2 ^ 32) -> (forall a, rcFree a = 0) ->
  sinv si others 0 s -> ptr_ok s ->
  exists s', shmexit_myhook true false now rcFree s = Done () s' /\ mtx (glob s') = 0 /\
    forall i d, aget (shmsegs (glob s')) i = Some d -> is_alloc d = true ->
      shm_nattch d = others i /\
      (others i <> 0 \/ (mode_has SHMSEG_SERVER d = true /\ mode_has SHMSEG_REMOVED d = false)).
Proof.
  intros Hlim Hoth Hrc Hs Hp. pose proof (shmexit_wp si others Hlim Hoth now rcFree s Hrc Hs Hp) as H.
  unfold wp in H. destruct (shmexit_myhook _ _ _ _ _) as [[] s'|e s'|f]; [|done|done].
  destruct H as (Hs' & Ha & Hc). exists s'. split; [done|]. split; [apply Hs'|]. intros i d Hd Hal.
  destruct (inv_seg _ _ _ _ _ _ Hs' Hd) as (_ & Hn & _). specialize (Hn Hal). rewrite Ha, Z.add_0_r in Hn.
  split; [done|]. rewrite <-Hn. apply (Hc i d); [|done|done].
  pose proof (aget_Some_range _ _ _ Hd) as Hr. by rewrite (tb_len _ _ _ (si_tbl _ _ _ _ Hs')) in Hr.
Qed.

Lemma keeps_run {A} others (m : G A) s :
  keeps si0 others 0 m -> sinv si0 others 0 s -> ptr_ok s ->
  sinv si0 others 0 (run_or s (m s)) /\ ptr_ok (run_or s (m s)).
Proof. intros Hm Hs Hp. specialize (Hm s Hs Hp). unfold wp in Hm. by destruct (m s). Qed.

Lemma no_others (i : Z) : 0 <= 0 /\ 0 + shmseg si0 < 2 ^ 32.
Proof. by split; vm_compute. Qed.

Lemma shm1_inv : sinv si0 (fun _ => 0) 0 shm1 /\ ptr_ok shm1.
Proof.
  unfold shm1. apply keeps_run; [by apply keeps_shmget, lims_ok0| |done].
  constructor; [|done|by constructor]. eapply tbl_ext; [|by apply fresh_tbl, lims_ok0]. done.
Qed.

Lemma shm2_inv : sinv si0 (fun _ => 0) 0 shm2 /\ ptr_ok shm2.
Proof.
  unfold shm2. destruct shm1_inv as [H1 P1]. apply keeps_run; [|done|done].
  intros s Hs Hp. by apply (shmat_wp si0 _ lims_ok0 no_others).
Qed.

Lemma shm_exit_cleans_witness :
  att_opt (vm_tab shm2) 0 = 1 /\
  exists s', shmexit_myhook true false 9 (fun _ => 0) shm2 = Done () s' /\
    is_alloc <$> aget (shmsegs (glob s')) 0 = Some false.
Proof.
  split; [by vm_compute|].
  destruct (shm_exit_cleans si0 (fun _ => 0) 9 (fun _ => 0) shm2) as (s' & Hr & _ & Hseg).
  - exact lims_ok0.
  - intros; cbn; lia.
  - done.
  - apply shm2_inv.
  - apply shm2_inv.
  - exists s'. split; [done|]. vm_compute in Hr. injection Hr as <-. by vm_compute.
Defined.

(** [k] turns of the loop of the fork hook add [k] to one segment. *)
Lemma fork_loop_run m i k lo s d :
  shmid m <> -1 -> i = IPCID_TO_IX (shmid m) -> aget (shmsegs (glob s)) i = Some d -> 0 <= shm_nattch d < 2 ^ 32 ->
  exists s', mfor (zrange lo k) (fun _ =>
    mwhen (negb (shmid m =? -1))
      (upd_seg (IPCID_TO_IX (shmid m)) (fun d =>
         mk_shmid_ds (shm_perm d) (shm_segsz d) (shm_lpid d) (shm_cpid d) (u32 (shm_nattch d + 1))
           (shm_atime d) (shm_dtime d) (shm_ctime d) (shm_internal d)))) s = Done () s' /\
    shm_nattch <$> aget (shmsegs (glob s')) i = Some (u32 (shm_nattch d + Z.of_nat k)) /\
    (forall j, j <> i -> aget (shmsegs (glob s')) j = aget (shmsegs (glob s)) j) /\ mtx (glob s') = mtx (glob s).
Proof.
  intros Hne Hi. revert lo s d. induction k as [|k IH]; intros lo s d Hd Hr.
  { exists s. split; [done|]. rewrite Hd. cbn. rewrite u32_small by lia. split; [f_equal; lia|done]. }
  rewrite zrange_S. cbn [mfor]. rewrite (proj2 (Z.eqb_neq _ _) Hne), <-Hi. cbn [negb mwhen].
  rewrite (run_bind _ _ _ _ _ (upd_seg_run s i d _ Hd)).
  match goal with |- context [with_seg i ?x s] => set (d1 := x) end.
  destruct (IH (lo + 1) (with_seg i d1 s) d1) as (s' & Hrun & Hn & Hj & Hm).
  { apply aget_aset_eq. by eapply aget_Some_range. }
  { apply u32_range. }
  rewrite (proj2 (Z.eqb_neq _ _) Hne), <-Hi in Hrun. exists s'. split; [exact Hrun|]. split; [|split].
  - rewrite Hn. cbn. unfold u32. rewrite Zplus_mod_idemp_l. do 2 f_equal. lia.
  - intros j Hne'. rewrite Hj by done. apply aget_aset_ne; [|congruence].
    pose proof (aget_Some_range _ _ _ Hd). lia.
  - by rewrite Hm.
Qed.

(** After [fork] the attach counts are wrong: the hook in the child looks at
    the first entry of the attach table on all [shmseg] turns, so the segment
    of the first entry gains [shmseg] attachments where the child has one per
    entry, and every other segment gains none. *)
Theorem shmfork_counts_first_only si others s v m d :
  lims_ok si -> sinv si others 0 s -> g_vm_shm s = true -> vm_tab s = Some v ->
  aget v 0 = Some m -> shmid m <> -1 -> aget (shmsegs (glob s)) (IPCID_TO_IX (shmid m)) = Some d ->
  0 <= shm_nattch d < 2 ^ 32 ->
  exists s', shmfork_myhook true s = Done () s' /\
    (shm_nattch <$> aget (shmsegs (glob s')) (IPCID_TO_IX (shmid m)) = Some (u32 (shm_nattch d + shmseg si))) /\
    forall j, j <> IPCID_TO_IX (shmid m) -> aget (shmsegs (glob s')) j = aget (shmsegs (glob s)) j.
Proof.
  intros Hlim Hs Hp Hv Hm Hne Hd Hn0.
  set (s1 := set_glob (set_cUsers (u32 (cUsers (glob s) + 1)) (glob s)) s).
  set (s2 := set_glob (set_mtx (mtx (glob s) + 1) (glob s1)) s1).
  destruct (fork_loop_run m _ (Z.to_nat (shmseg si)) 0 s2 d Hne eq_refl Hd Hn0) as (s3 & Hrun & Hn & Hj & Hm3).
  rewrite Z2Nat.id in Hn by apply Hlim. cbn in Hm3. rewrite (si_mtx _ _ _ _ Hs) in Hm3.
  unfold shmfork_myhook, shmfork_loop. cbn [mwhen]. rewrite (run_bind _ _ _ () s1) by done.
  rewrite (run_bind _ _ _ true s1) by (unfold gets; cbn; by rewrite Hp). cbn [mwhen].
  rewrite (run_bind _ _ _ () s2) by done.
  rewrite (run_bind _ _ _ si s2) by (unfold gl, gets; cbn; by rewrite (tb_info _ _ _ (si_tbl _ _ _ _ Hs))).
  rewrite (run_bind _ _ _ (Some v) s2) by (unfold gets; cbn; by rewrite Hv).
  rewrite (run_bind _ _ _ v s2) by done. rewrite (run_bind _ _ _ m s2) by (by rewrite Hm).
  rewrite (run_bind _ _ _ _ _ Hrun). unfold mtx_unlock. rewrite (run_bind _ _ _ (mtx (glob s3)) s3) by done.
  rewrite Hm3. eexists. split; [done|]. by split.
Qed.

Lemma shmfork_counts_first_only_witness :
  exists s', shmfork_myhook true shm2 = Done () s' /\
    shm_nattch <$> aget (shmsegs (glob s')) 0 = Some 129.
Proof.
  destruct (vm_tab shm2) as [v|] eqn:Hv; [|by vm_compute in Hv].
  destruct (aget v 0) as [m|] eqn:Hm; [|vm_compute in Hv; by simplify_eq].
  destruct (aget (shmsegs (glob shm2)) (IPCID_TO_IX (shmid m))) as [d|] eqn:Hd.
  2:{ vm_compute in Hv. injection Hv as <-. vm_compute in Hm. injection Hm as <-. by vm_compute in Hd. }
  assert (m = mk_shmmap 0x60000 0x10000) as ->.
  { vm_compute in Hv. injection Hv as <-. vm_compute in Hm. by injection Hm as <-. }
  assert (Hnd : shm_nattch d = 1) by (vm_compute in Hd; by injection Hd as <-).
  destruct (shmfork_counts_first_only si0 (fun _ => 0) shm2 v (mk_shmmap 0x60000 0x10000) d)
    as (s' & Hr & Hn & _); [exact lims_ok0|apply shm2_inv|by vm_compute|done|done|done|done|lia|].
  exists s'. split; [done|]. rewrite Hnd in Hn. exact Hn.
Defined.
