(* ===== verification/Tls.v ===== *)
(** Thread local storage ([src/src/emx/src/lib/process/tls.c]): the bitmap of
    allocated indices, the per-thread values, the destructors and the callback
    that runs them when a thread ends, with the bit operations of
    [include/386/builtin.h]. Calls are taken one at a time here; their
    interleavings are in [TlsThreads.v]. *)

From S2P Require Import Prelude.

(** ** Data *)

Definition TLS_MAX : Z := 128.
Definition ENTRY_BITS : Z := 32.

(** [~0] as an unsigned. *)
Definition ALL_BITS : Z := 0xffffffff.

(** The globals of tls.c and the [apvTLS] arrays of the thread structures, by
    thread id. A destructor is the address of a function, 0 is NULL;
    [termcbs] counts the registrations of the termination callback. *)
Record tls := mk_tls {
  gcTLSAllocated : Z;
  gauBitmap : list Z;
  gapfnDestructors : list Z;
  fInited : bool;
  termcbs : Z;
  apvTLS : gmap Z (list Z)
}.

Definition set_count (n : Z) (s : tls) :=
  mk_tls n (gauBitmap s) (gapfnDestructors s) (fInited s) (termcbs s) (apvTLS s).
Definition set_bitmap (b : list Z) (s : tls) :=
  mk_tls (gcTLSAllocated s) b (gapfnDestructors s) (fInited s) (termcbs s) (apvTLS s).
Definition set_dtor (i d : Z) (s : tls) :=
  mk_tls (gcTLSAllocated s) (gauBitmap s) (aset (gapfnDestructors s) i d) (fInited s) (termcbs s) (apvTLS s).
Definition set_inited (s : tls) :=
  mk_tls (gcTLSAllocated s) (gauBitmap s) (gapfnDestructors s) true (termcbs s + 1) (apvTLS s).
Definition set_apv (t : Z) (l : list Z) (s : tls) :=
  mk_tls (gcTLSAllocated s) (gauBitmap s) (gapfnDestructors s) (fInited s) (termcbs s) (<[t := l]> (apvTLS s)).

Abbreviation T := (M tls).

(** The static data of the module before its first use. *)
Definition tls_init : tls :=
  mk_tls 0 (replicate 4 0) (replicate 128 0) false 0 ∅.

(** [bt] with a register offset on a bitmap in memory: bit [k mod 32] of the
    double word [k / 32]. *)
Definition atomic_test_bit (bm : list Z) (k : Z) : option bool :=
  (fun w => Z.testbit w (k mod 32)) <$> aget bm (k / 32).

(** [btr] *)
Definition atomic_clear_bit (k : Z) : T unit :=
  w ← gets (fun s => aget (gauBitmap s) (k / 32)); w ← deref w;
  mmod (fun s => set_bitmap (aset (gauBitmap s) (k / 32) (Z.clearbit w (k mod 32))) s).

(** [bts] on the word [iw]: the old value of the bit. *)
Definition atomic_set_bit (iw uBit : Z) : T bool :=
  w ← gets (fun s => aget (gauBitmap s) iw); w ← deref w;
  _ ← mmod (fun s => set_bitmap (aset (gauBitmap s) iw (Z.setbit w uBit)) s);
  mret (Z.testbit w uBit).

(** ** Allocation *)

(** [__atomic_increment_max]: 0 after an increment, the (non-zero) value
    otherwise. *)
Definition atomic_increment_max (uMax : Z) : T Z :=
  n ← gets gcTLSAllocated;
  if n <? uMax then _ ← mmod (set_count (n + 1)); mret 0 else mret n.

(** [for (uBit = 0; uBit < ENTRY_BITS; uBit++)] of one turn. *)
Fixpoint scan_bits (n : nat) (iw uBit : Z) : T (option Z) :=
  match n with
  | O => mret None
  | S n' =>
      old ← atomic_set_bit iw uBit;
      if old : bool then scan_bits n' iw (uBit + 1)
      else
        let iBitRet := iw * ENTRY_BITS + uBit in
        if iBitRet <? TLS_MAX then
          _ ← mmod (set_dtor iBitRet 0); mret (Some iBitRet)
        else scan_bits n' iw (uBit + 1)
  end.

(** [do ... while ( *pu != ~0);] *)
Fixpoint scan_word (fuel : nat) (iw : Z) : T (option Z) :=
  match fuel with
  | O => mfail Hang
  | S fuel' =>
      r ← scan_bits 32 iw 0;
      match r with
      | Some i => mret (Some i)
      | None =>
          w ← gets (fun s => aget (gauBitmap s) iw); w ← deref w;
          if negb (w =? ALL_BITS) then scan_word fuel' iw else mret None
      end
  end.

(** The [n] words from [iw] on. *)
Fixpoint scan_words (fuel n : nat) (iw : Z) : T (option Z) :=
  match n with
  | O => mret None
  | S n' =>
      w ← gets (fun s => aget (gauBitmap s) iw); w ← deref w;
      r ← (if negb (w =? ALL_BITS) then scan_word fuel iw else mret None);
      match r with
      | Some i => mret (Some i)
      | None => scan_words fuel n' (iw + 1)
      end
  end.

Fixpoint alloc_tries (fuel cTries : nat) : T (option Z) :=
  match cTries with
  | O => mret None
  | S c' =>
      r ← scan_words fuel 4 0;
      match r with
      | Some i => mret (Some i)
      | None => alloc_tries fuel c'
      end
  end.

Definition TLSAlloc (fuel : nat) : T Z :=
  r ← atomic_increment_max TLS_MAX;
  if negb (r =? 0) then merr ENOMEM
  else
    r ← alloc_tries fuel 32;
    match r with Some i => mret i | None => mret (-1) end.

(** ** The other calls *)

(** [if (iIndex < 0 || iIndex >= __LIBC_TLS_MAX || !__atomic_test_bit(...))] *)
Definition check_index (iIndex : Z) : T unit :=
  if (iIndex <? 0) || (iIndex >=? TLS_MAX) then merr EINVAL
  else
    b ← gets (fun s => atomic_test_bit (gauBitmap s) iIndex); b ← deref b;
    if negb b then merr EINVAL else mret ().

Definition TLSFree (iIndex : Z) : T Z :=
  _ ← check_index iIndex;
  _ ← mmod (set_dtor iIndex 0);
  _ ← atomic_clear_bit iIndex;
  n ← gets gcTLSAllocated;
  if negb (n >? 0) then mfail Panic
  else _ ← mmod (set_count (u32 (n - 1))); mret 0.

(** [__libc_threadCurrent()->apvTLS]; a thread without a structure gets a
    zero-filled one. *)
Definition threadCurrent (t : Z) : T (list Z) :=
  o ← gets (fun s => apvTLS s !! t);
  match o with
  | Some l => mret l
  | None => let l := replicate 128 0 in _ ← mmod (set_apv t l); mret l
  end.

Definition TLSGet (t iIndex : Z) : T Z :=
  _ ← check_index iIndex;
  l ← threadCurrent t;
  deref (aget l iIndex).

Definition TLSSet (t iIndex pvValue : Z) : T Z :=
  _ ← check_index iIndex;
  l ← threadCurrent t;
  _ ← deref (aget l iIndex);
  _ ← mmod (set_apv t (aset l iIndex pvValue));
  mret 0.

Definition TLSDestructor (iIndex pfnDestructor fFlags : Z) : T Z :=
  _ ← check_index iIndex;
  _ ← err_if (negb (fFlags =? 0)) EINVAL;
  i ← gets fInited;
  _ ← mwhen (negb i) (mmod set_inited);
  _ ← mmod (set_dtor iIndex pfnDestructor);
  mret 0.

Definition TLSGetDestructor (iIndex : Z) : T Z :=
  _ ← check_index iIndex;
  d ← gets (fun s => aget (gapfnDestructors s) iIndex); deref d.

(** ** The end of a thread *)

(** A call of a destructor: function, value, index. *)
Record dtor_call := mk_dtor_call { dc_pfn : Z; dc_value : Z; dc_index : Z }.

Section ThreadDestructor.
(** What a destructor does to the state. *)
Variable destr : dtor_call -> T unit.

(** One turn of [while (k < kEnd)]. *)
Definition destroy_one (t k : Z) : T (list dtor_call) :=
  b ← gets (fun s => atomic_test_bit (gauBitmap s) k); b ← deref b;
  if negb (b && (k <? TLS_MAX)) then mret []
  else
    l ← gets (fun s => apvTLS s !! t); l ← deref l;
    pvValue ← deref (aget l k);
    pfn ← gets (fun s => aget (gapfnDestructors s) k); pfn ← deref pfn;
    if (pvValue =? 0) || (pfn =? 0) then mret []
    else
      let c := mk_dtor_call pfn pvValue k in
      _ ← mmod (set_apv t (aset l k 0));
      _ ← destr c;
      mret [c].

Fixpoint destroy_all (t : Z) (ks : list Z) : T (list dtor_call) :=
  match ks with
  | [] => mret []
  | k :: ks' => c ← destroy_one t k; cs ← destroy_all t ks'; mret (c ++ cs)
  end.

(** The word [i]: [puch] starts at the first byte of the bitmap for every
    word, and [sizeof(unsigned char)] is 1. *)
Definition destroy_word (t i : Z) : T (list dtor_call) :=
  w ← gets (fun s => aget (gauBitmap s) i); w ← deref w;
  if w =? 0 then mret []
  else
    w0 ← gets (fun s => aget (gauBitmap s) 0); w0 ← deref w0;
    if Z.land w0 0xff =? 0 then mret []
    else destroy_all t (zrange (i * 4 * 8) 8).

Fixpoint destroy_words (t : Z) (ws : list Z) : T (list dtor_call) :=
  match ws with
  | [] => mret []
  | i :: ws' => c ← destroy_word t i; cs ← destroy_words t ws'; mret (c ++ cs)
  end.

(** [__libc_tlsThreadDestructor] in the thread [t]: the calls it makes. *)
Definition tlsThreadDestructor (t : Z) : T (list dtor_call) :=
  o ← gets (fun s => apvTLS s !! t);
  match o with
  | None => mret []
  | Some _ => destroy_words t (zrange 0 4)
  end.
End ThreadDestructor.

(** ** The allocated indices *)

Definition tbit (bm : list Z) (k : Z) : bool := default false (atomic_test_bit bm k).

Definition allocated (s : tls) (k : Z) : Prop := 0 <= k < TLS_MAX /\ tbit (gauBitmap s) k = true.

(** Number of bits set. *)
Definition used (bm : list Z) : Z := sumZ ((fun k => Z.b2z (tbit bm k)) <$> zrange 0 128).

(** The sizes of the arrays and the width of the words. *)
Record tls_shape (s : tls) : Prop := mk_tls_shape {
  ok_words : alen (gauBitmap s) = 4;
  ok_bits : Forall (fun w => 0 <= w < 2 ^ 32) (gauBitmap s);
  ok_dtors : alen (gapfnDestructors s) = 128;
  ok_threads : map_Forall (fun _ l => alen l = 128) (apvTLS s)
}.

(** Between two calls the counter is the number of bits set. *)
Record tls_ok (s : tls) : Prop := mk_tls_ok {
  ok_shape : tls_shape s;
  ok_count : gcTLSAllocated s = used (gauBitmap s)
}.

Lemma word_range s iw w : tls_shape s -> aget (gauBitmap s) iw = Some w -> 0 <= iw < 4 /\ 0 <= w < 2 ^ 32.
Proof.
  intros Hok Hw. split.
  - rewrite <-(ok_words _ Hok). by eapply aget_Some_range.
  - by eapply (Forall_aget _ _ _ _ (ok_bits _ Hok)).
Qed.

Lemma word_some s iw : tls_shape s -> 0 <= iw < 4 -> is_Some (aget (gauBitmap s) iw).
Proof. intros Hok Hi. apply aget_is_Some. rewrite (ok_words _ Hok). lia. Qed.

Lemma test_bit_tbit s k :
  tls_shape s -> 0 <= k < 128 -> atomic_test_bit (gauBitmap s) k = Some (tbit (gauBitmap s) k).
Proof.
  intros Hok Hk. unfold tbit, atomic_test_bit.
  destruct (word_some s (k / 32) Hok) as [w ->]; [|done].
  split; [apply Z.div_pos; lia|]. apply Z.div_lt_upper_bound; lia.
Qed.

Lemma tbit_word bm iw w b :
  aget bm iw = Some w -> 0 <= b < 32 -> tbit bm (iw * 32 + b) = Z.testbit w b.
Proof.
  intros Hw Hb. unfold tbit, atomic_test_bit.
  replace ((iw * 32 + b) / 32) with iw by (apply Z.div_unique with b; lia).
  replace ((iw * 32 + b) mod 32) with b by (apply Z.mod_unique with iw; lia).
  by rewrite Hw.
Qed.

Lemma split_index k : k = k / 32 * 32 + k mod 32.
Proof. pose proof (Z.div_mod k 32). lia. Qed.

(** A bitmap with one word changed. *)
Lemma tbit_aset bm iw w w' k :
  aget bm iw = Some w -> 0 <= k ->
  tbit (aset bm iw w') k = if decide (k / 32 = iw) then Z.testbit w' (k mod 32) else tbit bm k.
Proof.
  intros Hw Hk. unfold tbit, atomic_test_bit.
  rewrite aget_aset by (by eapply aget_Some_range).
  case_decide as H1; case_decide as H2; try congruence; done.
Qed.

(** The state after the index [i] became allocated, and after it was freed. *)
Definition with_bit (f : Z -> Z -> Z) (i : Z) (s : tls) : tls :=
  set_bitmap (aset (gauBitmap s) (i / 32)
    (f (default 0 (aget (gauBitmap s) (i / 32))) (i mod 32))) s.

Lemma tbit_with_bit f v s i k :
  (forall w n, 0 <= n -> Z.testbit (f w (i mod 32)) n = if decide (n = i mod 32) then v else Z.testbit w n) ->
  tls_shape s -> 0 <= i < 128 -> 0 <= k ->
  tbit (gauBitmap (with_bit f i s)) k = if decide (k = i) then v else tbit (gauBitmap s) k.
Proof.
  intros Hf Hok Hi Hk. cbn.
  destruct (word_some s (i / 32) Hok) as [w Hw].
  { split; [apply Z.div_pos; lia|apply Z.div_lt_upper_bound; lia]. }
  rewrite Hw. cbn. erewrite tbit_aset by done.
  pose proof (split_index i). pose proof (split_index k).
  pose proof (Z.mod_pos_bound k 32). pose proof (Z.mod_pos_bound i 32).
  destruct (decide (k / 32 = i / 32)) as [Hd|Hd].
  - rewrite Hf by lia. destruct (decide (k mod 32 = i mod 32)), (decide (k = i)); try lia; [done|].
    unfold tbit, atomic_test_bit. by rewrite Hd, Hw.
  - destruct (decide (k = i)); [congruence|done].
Qed.

Lemma used_with_bit f v s i :
  (forall w n, 0 <= n -> Z.testbit (f w (i mod 32)) n = if decide (n = i mod 32) then v else Z.testbit w n) ->
  tls_shape s -> 0 <= i < 128 ->
  used (gauBitmap (with_bit f i s)) = used (gauBitmap s) - Z.b2z (tbit (gauBitmap s) i) + Z.b2z v.
Proof.
  intros Hf Hok Hi. unfold used.
  rewrite (sumZ_update (fun k => Z.b2z (tbit (gauBitmap s) k)) _ 128 i).
  - rewrite (tbit_with_bit f v) by (done || lia). by rewrite decide_True.
  - lia.
  - intros j Hj Hne. rewrite (tbit_with_bit f v) by (done || lia). by rewrite decide_False.
Qed.

Lemma setbit_bits i w n :
  0 <= i -> 0 <= n ->
  Z.testbit (Z.setbit w (i mod 32)) n = if decide (n = i mod 32) then true else Z.testbit w n.
Proof.
  intros Hi Hn. pose proof (Z.mod_pos_bound i 32). case_decide; subst.
  - apply Z.setbit_eq. lia.
  - apply Z.setbit_neq; lia.
Qed.

Lemma clearbit_bits i w n :
  0 <= i -> 0 <= n ->
  Z.testbit (Z.clearbit w (i mod 32)) n = if decide (n = i mod 32) then false else Z.testbit w n.
Proof.
  intros Hi Hn. case_decide; subst.
  - apply Z.clearbit_eq.
  - apply Z.clearbit_neq. congruence.
Qed.

Lemma words_with_bit f i s :
  (forall w, 0 <= w < 2 ^ 32 -> 0 <= f w (i mod 32) < 2 ^ 32) -> tls_shape s -> 0 <= i < 128 ->
  Forall (fun w => 0 <= w < 2 ^ 32) (gauBitmap (with_bit f i s)).
Proof.
  intros Hf Hok Hi. cbn. destruct (word_some s (i / 32) Hok) as [w Hw].
  { split; [apply Z.div_pos; lia|apply Z.div_lt_upper_bound; lia]. }
  rewrite Hw. apply Forall_aset; [apply Hok|]. apply Hf.
  by eapply word_range.
Qed.

Lemma shape_with_bit f i d n s :
  (forall w, 0 <= w < 2 ^ 32 -> 0 <= f w (i mod 32) < 2 ^ 32) ->
  tls_shape s -> 0 <= i < 128 -> tls_shape (set_count n (set_dtor i d (with_bit f i s))).
Proof.
  intros Hr Hok Hi. pose proof Hok as [H1 H2 H3 H4]. constructor; [|by apply (words_with_bit f i s)| |done].
  - cbn. by rewrite alen_aset.
  - cbn. by rewrite alen_aset.
Qed.

Lemma shape_set_count n s : tls_shape s -> tls_shape (set_count n s).
Proof. by intros []. Qed.

(** ** Allocation returns the first free index *)

(** The state after [TLSAlloc] returned [i]. *)
Definition taken (i : Z) (s : tls) : tls :=
  set_dtor i 0 (with_bit Z.setbit i s).

Lemma setbit_id w b : 0 <= b -> Z.testbit w b = true -> Z.setbit w b = w.
Proof.
  intros Hb Hw. apply Z.bits_inj_iff'. intros n Hn.
  destruct (decide (n = b)) as [->|]; [by rewrite Z.setbit_eq by lia|].
  by rewrite Z.setbit_neq by lia.
Qed.

(** Setting a bit that is set changes nothing, setting a free one takes it. *)
Lemma set_bit_run iw b w s :
  aget (gauBitmap s) iw = Some w -> 0 <= b < 32 ->
  atomic_set_bit iw b s =
    Done (Z.testbit w b) (if Z.testbit w b then s else with_bit Z.setbit (iw * 32 + b) s).
Proof.
  intros Hw Hb. unfold atomic_set_bit, gets, mbind, M_bind, deref, mmod, mret, M_ret.
  rewrite Hw. f_equal. destruct (Z.testbit w b) eqn:Hbit.
  - rewrite setbit_id, aset_id by (done || lia). by destruct s.
  - unfold with_bit.
    replace ((iw * 32 + b) / 32) with iw by (apply Z.div_unique with b; lia).
    replace ((iw * 32 + b) mod 32) with b by (apply Z.mod_unique with iw; lia).
    by rewrite Hw.
Qed.

Lemma scan_bits_run iw w s n : forall b,
  aget (gauBitmap s) iw = Some w -> 0 <= iw < 4 -> 0 <= b -> b + Z.of_nat n = 32 ->
  scan_bits n iw b s =
    match find_first (fun k => negb (Z.testbit w k)) b n with
    | Some k => Done (Some (iw * 32 + k)) (taken (iw * 32 + k) s)
    | None => Done None s
    end.
Proof.
  induction n as [|n IH]; intros b Hw Hiw Hb Hn; [done|].
  cbn [scan_bits find_first]. erewrite run_bind by (apply set_bit_run; [done|lia]).
  destruct (Z.testbit w b) eqn:Hbit; cbn [negb].
  - apply IH; (done || lia).
  - unfold ENTRY_BITS, TLS_MAX. zbool. done.
Qed.

(** A word is full exactly when no bit of it is clear. *)
Lemma full_word w :
  0 <= w < 2 ^ 32 -> (forall k, 0 <= k < 32 -> Z.testbit w k = true) -> w = ALL_BITS.
Proof.
  intros Hw Hk. apply Z.bits_inj_iff'. intros n Hn.
  change ALL_BITS with (Z.ones 32). destruct (Z_lt_ge_dec n 32).
  - by rewrite Hk, Z.ones_spec_low by lia.
  - by rewrite Z.ones_spec_high, range_bits by lia.
Qed.

Lemma full_word_bits k : 0 <= k < 32 -> Z.testbit ALL_BITS k = true.
Proof. intros. change ALL_BITS with (Z.ones 32). by rewrite Z.ones_spec_low by lia. Qed.

Lemma first_clear w b n :
  find_first (fun k => negb (Z.testbit w k)) b n = None ->
  forall k, b <= k < b + Z.of_nat n -> Z.testbit w k = true.
Proof.
  intros H k Hk. pose proof (find_first_None _ _ _ H k Hk) as Hf. by apply negb_false_iff in Hf.
Qed.

(** The scan of one word, with the test that guards it. *)
Definition first_free (s : tls) (iw : Z) (r : option Z) (s' : tls) : Prop :=
  match r with
  | Some i => ~ allocated s i /\ iw * 32 <= i < TLS_MAX
      /\ (forall j, iw * 32 <= j < i -> allocated s j) /\ s' = taken i s
  | None => (forall j, iw * 32 <= j < TLS_MAX -> allocated s j) /\ s' = s
  end.

Lemma word_alloc s iw w k :
  tls_shape s -> aget (gauBitmap s) iw = Some w -> 0 <= k < 32 ->
  allocated s (iw * 32 + k) <-> Z.testbit w k = true.
Proof.
  intros Hok Hw Hk. destruct (word_range _ _ _ Hok Hw) as [Hr _].
  unfold allocated, TLS_MAX. rewrite (tbit_word _ _ _ _ Hw) by done.
  split; [tauto|]. intros; split; [lia|done].
Qed.

Lemma scan_words_wp fuel s n : forall iw,
  tls_shape s -> (1 <= fuel)%nat -> 0 <= iw -> iw + Z.of_nat n = 4 ->
  wp (scan_words fuel n iw) (first_free s iw) (fun _ _ => False) s.
Proof.
  induction n as [|n IH]; intros iw Hok Hf Hiw Hn.
  { apply wp_ret. unfold first_free. split; [|done]. intros j Hj. unfold TLS_MAX in *. lia. }
  destruct (word_some s iw Hok ltac:(lia)) as [w Hw].
  destruct (word_range _ _ _ Hok Hw) as [_ Hwr].
  cbn [scan_words]. eapply wp_run_bind; [done|]. rewrite Hw. eapply wp_run_bind; [done|].
  assert (Hnext : (forall k, 0 <= k < 32 -> Z.testbit w k = true) ->
    wp (scan_words fuel n (iw + 1)) (first_free s iw) (fun _ _ => False) s).
  { intros Hall. eapply wp_conseq; [apply IH; (done || lia)| |done].
    assert (Hin : forall j, iw * 32 <= j < (iw + 1) * 32 -> allocated s j).
    { intros j Hj. replace j with (iw * 32 + (j - iw * 32)) by lia.
      apply (word_alloc s iw w); [done|done|lia|]. apply Hall. lia. }
    intros [i|] s'; cbn; [intros (H1 & H2 & H3 & ->)|intros (H1 & ->)].
    - split_and!; [done|lia|lia| |done]. intros j Hj.
      destruct (Z_lt_ge_dec j ((iw + 1) * 32)); [apply Hin|apply H3]; lia.
    - split; [|done]. intros j Hj.
      destruct (Z_lt_ge_dec j ((iw + 1) * 32)); [apply Hin|apply H1]; lia. }
  destruct (Z.eqb_spec w ALL_BITS) as [->|Hne]; cbn [negb].
  - eapply wp_run_bind; [done|]. apply Hnext. apply full_word_bits.
  - destruct fuel as [|fuel]; [lia|]. cbn [scan_word].
    destruct (find_first (fun k => negb (Z.testbit w k)) 0 32) as [k|] eqn:Hff.
    + eapply wp_run_bind.
      { erewrite run_bind by (erewrite (scan_bits_run iw w) by (done || lia); by rewrite Hff). done. }
      apply wp_ret. apply find_first_Some in Hff as (Hk & Hbit & Hbefore).
      apply negb_true_iff in Hbit. unfold first_free.
      split_and!; [|lia|unfold TLS_MAX; lia| |done].
      * rewrite (word_alloc s iw w) by (done || lia). congruence.
      * intros j Hj. replace j with (iw * 32 + (j - iw * 32)) by lia.
        apply (word_alloc s iw w); [done|done|lia|]. apply negb_false_iff, Hbefore. lia.
    + exfalso. apply Hne, full_word; [done|]. intros. eapply first_clear; [done|]. lia.
Qed.

Lemma used_bounds bm : 0 <= used bm <= 128.
Proof.
  pose proof (count_bounds (tbit bm) (zrange 0 128)) as H.
  unfold alen in H. by rewrite length_zrange in H.
Qed.

Lemma used_full s : used (gauBitmap s) = 128 <-> forall k, 0 <= k < 128 -> allocated s k.
Proof.
  pose proof (count_full (tbit (gauBitmap s)) (zrange 0 128)) as H.
  unfold alen in H. rewrite length_zrange in H. unfold used. rewrite H.
  split; intros Hall k Hk.
  - split; [done|]. apply Hall, elem_of_zrange. lia.
  - apply elem_of_zrange in Hk. apply Hall. lia.
Qed.

Lemma taken_shape i n s : tls_shape s -> 0 <= i < 128 -> tls_shape (set_count n (taken i s)).
Proof.
  intros. apply shape_with_bit; [|done..]. intros w Hw. apply setbit_range; [done|].
  by apply Z.mod_pos_bound.
Qed.

Lemma taken_used i n s :
  tls_shape s -> 0 <= i < 128 -> ~ allocated s i ->
  used (gauBitmap (set_count n (taken i s))) = used (gauBitmap s) + 1.
Proof.
  intros Hok Hi Hfree. cbn [gauBitmap set_count taken set_dtor].
  rewrite (used_with_bit Z.setbit true) by (done || (intros; apply setbit_bits; lia)).
  destruct (tbit (gauBitmap s) i) eqn:Hb; [by destruct Hfree|]. cbn. lia.
Qed.

Lemma taken_allocated i n s k :
  tls_shape s -> 0 <= i < 128 -> allocated (set_count n (taken i s)) k <-> allocated s k \/ k = i.
Proof.
  intros Hok Hi. unfold allocated. cbn [gauBitmap set_count taken set_dtor].
  destruct (decide (0 <= k < TLS_MAX)) as [Hk|]; [|unfold TLS_MAX in *; intuition lia].
  rewrite (tbit_with_bit Z.setbit true) by (done || (intros; by apply setbit_bits; lia) || lia).
  case_decide; intuition congruence.
Qed.

(** The index [i] freed. *)
Definition freed (i : Z) (s : tls) : tls := with_bit Z.clearbit i (set_dtor i 0 s).

Lemma freed_shape i n s : tls_shape s -> 0 <= i < 128 -> tls_shape (set_count n (freed i s)).
Proof.
  intros. apply (shape_with_bit Z.clearbit i 0); [|done..]. intros w Hw. by apply clearbit_range.
Qed.

Lemma freed_used i n s :
  tls_shape s -> allocated s i ->
  used (gauBitmap (set_count n (freed i s))) = used (gauBitmap s) - 1.
Proof.
  intros Hok [Hi Hb]. unfold TLS_MAX in Hi. cbn [gauBitmap set_count].
  change (gauBitmap (freed i s)) with (gauBitmap (with_bit Z.clearbit i s)).
  rewrite (used_with_bit Z.clearbit false) by (done || (intros; apply clearbit_bits; lia)).
  rewrite Hb. cbn. lia.
Qed.

Lemma freed_allocated i n s k :
  tls_shape s -> 0 <= i < 128 -> allocated (set_count n (freed i s)) k <-> allocated s k /\ k <> i.
Proof.
  intros Hok Hi. unfold allocated. cbn [gauBitmap set_count].
  change (gauBitmap (freed i s)) with (gauBitmap (with_bit Z.clearbit i s)).
  destruct (decide (0 <= k < TLS_MAX)) as [Hk|]; [|unfold TLS_MAX in *; intuition lia].
  rewrite (tbit_with_bit Z.clearbit false) by (done || (intros; by apply clearbit_bits; lia) || lia).
  case_decide; intuition congruence.
Qed.

(** ** The calls *)

Lemma check_index_wp i (Q : unit -> tls -> Prop) (E : Z -> tls -> Prop) s :
  tls_shape s -> (allocated s i -> Q () s) -> (~ allocated s i -> E EINVAL s) ->
  wp (check_index i) Q E s.
Proof.
  intros Hok HQ HE. unfold check_index, TLS_MAX.
  destruct ((i <? 0) || (i >=? 128)) eqn:Hr.
  { apply wp_err, HE. unfold allocated, TLS_MAX. intros [? _].
    apply orb_true_iff in Hr as [?|Hr]; [lia|]. rewrite Z.geb_leb in Hr. lia. }
  breflect. eapply wp_run_bind; [done|]. rewrite test_bit_tbit by (done || lia).
  eapply wp_run_bind; [done|]. destruct (tbit (gauBitmap s) i) eqn:Hb; cbn [negb].
  - apply wp_ret, HQ. split; [unfold TLS_MAX; lia|done].
  - apply wp_err, HE. intros [_ ?]. congruence.
Qed.

Lemma alloc_tries_wp fuel c s :
  tls_shape s -> (1 <= fuel)%nat -> (1 <= c)%nat -> used (gauBitmap s) < 128 ->
  wp (alloc_tries fuel c)
    (fun r s' => exists i, r = Some i /\ 0 <= i < TLS_MAX /\ ~ allocated s i
       /\ (forall j, 0 <= j < i -> allocated s j) /\ s' = taken i s) (fun _ _ => False) s.
Proof.
  intros Hok Hf Hc Hused. destruct c as [|c]; [lia|]. cbn [alloc_tries]. apply wp_bind.
  eapply wp_conseq; [apply (scan_words_wp fuel s 4 0); (done || lia)| |done].
  intros [i|] s'; cbn [first_free].
  - intros (H1 & H2 & H3 & ->). apply wp_ret. exists i. split_and!; (done || lia || auto with lia).
  - intros [Hall _]. exfalso. apply used_full in Hall. lia.
Qed.

(** What [TLSAlloc] promises. *)
Definition alloc_post (s : tls) (i : Z) (s' : tls) : Prop :=
  0 <= i < TLS_MAX /\ ~ allocated s i /\ (forall j, 0 <= j < i -> allocated s j)
  /\ (forall k, allocated s' k <-> allocated s k \/ k = i)
  /\ aget (gapfnDestructors s') i = Some 0
  /\ apvTLS s' = apvTLS s /\ tls_ok s'.

Lemma alloc_wp fuel s :
  (1 <= fuel)%nat -> tls_ok s ->
  wp (TLSAlloc fuel) (alloc_post s)
    (fun e s' => e = ENOMEM /\ s' = s /\ forall k, 0 <= k < TLS_MAX -> allocated s k) s.
Proof.
  intros Hf [Hok Hc]. unfold TLSAlloc. apply wp_bind. unfold atomic_increment_max.
  eapply wp_run_bind; [done|]. pose proof (used_bounds (gauBitmap s)) as Hu.
  destruct (Z.ltb_spec (gcTLSAllocated s) TLS_MAX) as [Hlt|Hge].
  - eapply wp_run_bind; [done|]. apply wp_ret. cbn [negb Z.eqb]. apply wp_bind.
    eapply wp_conseq; [apply alloc_tries_wp; [by apply shape_set_count|done|lia|]| |done].
    { cbn [gauBitmap set_count]. unfold TLS_MAX in Hlt. lia. }
    intros r s' (i & -> & Hi & Hfree & Hbefore & ->). apply wp_ret.
    change (taken i (set_count (gcTLSAllocated s + 1) s))
      with (set_count (gcTLSAllocated s + 1) (taken i s)).
    change (allocated (set_count (gcTLSAllocated s + 1) s)) with (allocated s) in Hfree, Hbefore.
    split_and!; [lia|lia|done|done| | |done|].
    + intros k. by apply taken_allocated.
    + cbn. apply aget_aset_eq. rewrite (ok_dtors _ Hok). unfold TLS_MAX in Hi. lia.
    + split; [by apply taken_shape|]. rewrite taken_used by done. cbn [gcTLSAllocated set_count]. lia.
  - apply wp_ret. unfold TLS_MAX in *. zbool. apply wp_err. split_and!; [done..|].
    apply used_full. lia.
Qed.

Definition free_post (i : Z) (s s' : tls) : Prop :=
  allocated s i /\ (forall k, allocated s' k <-> allocated s k /\ k <> i)
  /\ apvTLS s' = apvTLS s /\ tls_ok s'.

Lemma free_wp i s :
  tls_ok s ->
  wp (TLSFree i) (fun r s' => r = 0 /\ free_post i s s')
    (fun e s' => e = EINVAL /\ s' = s /\ ~ allocated s i) s.
Proof.
  intros [Hok Hc]. unfold TLSFree. apply wp_bind, check_index_wp; [done| |done].
  intros Hi. pose proof Hi as [Hr Hb]. unfold TLS_MAX in Hr.
  eapply wp_run_bind; [done|].
  destruct (word_some s (i / 32) Hok) as [w Hw].
  { split; [apply Z.div_pos; lia|apply Z.div_lt_upper_bound; lia]. }
  eapply (wp_run_bind _ _ _ _ _ () (freed i s)).
  { unfold atomic_clear_bit, gets, mbind, M_bind, deref, mmod, freed, with_bit. cbn. by rewrite Hw. }
  eapply wp_run_bind; [done|].
  assert (Hpos : 1 <= gcTLSAllocated s).
  { pose proof (freed_used i 0 s Hok Hi). pose proof (used_bounds (gauBitmap (set_count 0 (freed i s)))).
    lia. }
  change (gcTLSAllocated (freed i s)) with (gcTLSAllocated s). zbool.
  eapply wp_run_bind; [done|]. apply wp_ret. split; [done|].
  pose proof (used_bounds (gauBitmap s)).
  split_and!; [done| |done|].
  - intros k. by apply freed_allocated.
  - split; [by apply freed_shape|]. rewrite freed_used by done. cbn [gcTLSAllocated set_count].
    rewrite u32_small by lia. lia.
Qed.

(** The values of the thread [t] as [threadCurrent] gives them. *)
Definition values (t : Z) (s : tls) : list Z := default (replicate 128 0) (apvTLS s !! t).

Lemma values_len t s : tls_shape s -> alen (values t s) = 128.
Proof.
  intros Hok. unfold values. destruct (apvTLS s !! t) as [l|] eqn:Hl; [|done].
  apply (ok_threads _ Hok _ _ Hl).
Qed.

Lemma ok_set_apv t l s : tls_ok s -> alen l = 128 -> tls_ok (set_apv t l s).
Proof.
  intros [[H1 H2 H3 H4] H5] Hl. split; [|done]. constructor; [done..|].
  by apply map_Forall_insert_2.
Qed.

Lemma threadCurrent_run t s : threadCurrent t s = Done (values t s) (set_apv t (values t s) s).
Proof.
  unfold threadCurrent, values, gets, mbind, M_bind. destruct (apvTLS s !! t) as [l|] eqn:Hl; [|done].
  cbn. unfold mret, M_ret, set_apv. rewrite insert_id by done. by destruct s.
Qed.

Lemma get_wp t i s :
  tls_ok s ->
  wp (TLSGet t i)
    (fun v s' => allocated s i /\ aget (values t s) i = Some v /\ s' = set_apv t (values t s) s)
    (fun e s' => e = EINVAL /\ s' = s /\ ~ allocated s i) s.
Proof.
  intros [Hok Hc]. unfold TLSGet. apply wp_bind, check_index_wp; [done| |done].
  intros Hi. eapply wp_run_bind; [apply threadCurrent_run|]. apply wp_deref; [|done].
  apply aget_is_Some. rewrite values_len by done. apply Hi.
Qed.

Lemma set_wp t i v s :
  tls_ok s ->
  wp (TLSSet t i v)
    (fun r s' => r = 0 /\ allocated s i /\ s' = set_apv t (aset (values t s) i v) s)
    (fun e s' => e = EINVAL /\ s' = s /\ ~ allocated s i) s.
Proof.
  intros [Hok Hc]. unfold TLSSet. apply wp_bind, check_index_wp; [done| |done].
  intros Hi. eapply wp_run_bind; [apply threadCurrent_run|]. apply wp_bind, wp_deref.
  { apply aget_is_Some. rewrite values_len by done. apply Hi. }
  intros x _. eapply wp_run_bind; [done|]. apply wp_ret. split_and!; [done..|].
  unfold set_apv. cbn. by rewrite insert_insert_eq.
Qed.

(** Changes of the destructors and of the registration keep everything else. *)
Definition same_keys (s s' : tls) : Prop :=
  (tls_ok s -> tls_ok s') /\ gauBitmap s' = gauBitmap s /\ apvTLS s' = apvTLS s.

Lemma destructor_wp i p f s :
  tls_ok s -> wp (TLSDestructor i p f) (fun _ s' => same_keys s s') (fun _ s' => s' = s) s.
Proof.
  intros [Hok Hc]. unfold TLSDestructor. apply wp_bind, check_index_wp; [done| |done].
  intros Hi. apply wp_bind, wp_err_if; [done|intros _].
  apply wp_bind, wp_gets. apply wp_bind.
  assert (H : forall s', same_keys s s' ->
    wp (_ ← mmod (set_dtor i p); mret 0) (fun _ s' => same_keys s s') (fun _ s' => s' = s) s').
  { intros s' (H1 & H2 & H3). eapply wp_run_bind; [done|]. apply wp_ret. split_and!; [|done..].
    intros Hs. destruct (H1 Hs) as [[H4 H5 H6 H7] H8]. split; [|done]. constructor; try done.
    cbn. by rewrite alen_aset. }
  apply wp_when; intros _.
  - apply wp_mod, H. split_and!; [|done..]. intros [[] ?]. by split.
  - apply H. by split_and!.
Qed.

Lemma get_destructor_wp i s :
  tls_ok s -> wp (TLSGetDestructor i) (fun _ s' => s' = s) (fun _ s' => s' = s) s.
Proof.
  intros [Hok Hc]. unfold TLSGetDestructor. apply wp_bind, check_index_wp; [done| |done].
  intros Hi. apply wp_bind, wp_gets. apply wp_deref; [|done].
  apply aget_is_Some. rewrite (ok_dtors _ Hok). apply Hi.
Qed.

(** ** Sequences of calls *)

Inductive tls_call :=
  | CAlloc | CFree (i : Z) | CGet (t i : Z) | CSet (t i v : Z)
  | CDestructor (i p f : Z) | CGetDestructor (i : Z).

Definition exec_call (c : tls_call) : T Z :=
  match c with
  | CAlloc => TLSAlloc 1
  | CFree i => TLSFree i
  | CGet t i => TLSGet t i
  | CSet t i v => TLSSet t i v
  | CDestructor i p f => TLSDestructor i p f
  | CGetDestructor i => TLSGetDestructor i
  end.

(** The state after the calls, whatever they return; [None] if one faults. *)
Fixpoint run_calls (cs : list tls_call) (s : tls) : option tls :=
  match cs with
  | [] => Some s
  | c :: cs' =>
      match exec_call c s with
      | Done _ s' | Err _ s' => run_calls cs' s'
      | Fault _ => None
      end
  end.

(** The calls that may change the value of index [i] in the thread [t]. *)
Definition touches (t i : Z) (c : tls_call) : bool :=
  match c with
  | CFree j => j =? i
  | CSet t' j _ => (t' =? t) && (j =? i)
  | _ => false
  end.

Definition holds_value (t i v : Z) (s : tls) : Prop :=
  tls_ok s /\ allocated s i /\ aget (values t s) i = Some v.

Lemma values_set_apv t t' l s :
  values t (set_apv t' l s) = if decide (t' = t) then l else values t s.
Proof.
  unfold values, set_apv. cbn. case_decide; subst.
  - by rewrite lookup_insert_eq.
  - by rewrite lookup_insert_ne.
Qed.

Lemma same_keys_holds t i v s s' : same_keys s s' -> holds_value t i v s -> holds_value t i v s'.
Proof.
  intros (H1 & H2 & H3) (H4 & H5 & H6). split_and!; [auto| |].
  - unfold allocated. by rewrite H2.
  - unfold values. by rewrite H3.
Qed.

Lemma call_holds t i v c s :
  touches t i c = false -> holds_value t i v s ->
  wp (exec_call c) (fun _ => holds_value t i v) (fun _ => holds_value t i v) s.
Proof.
  intros Ht Hh. pose proof Hh as (Hok & Ha & Hv). destruct c as [|j|t' j|t' j x|j p f|j]; cbn [exec_call].
  - eapply wp_conseq; [apply alloc_wp; [lia|done]| |by intros e s' (_ & -> & _)].
    intros k s' (_ & _ & _ & H1 & _ & H2 & H3). split_and!; [done|apply H1; by left|].
    unfold values. by rewrite H2.
  - eapply wp_conseq; [by apply free_wp| |by intros e s' (_ & -> & _)].
    cbn in Ht. breflect. intros r s' (_ & _ & H1 & H2 & H3). split_and!; [done|apply H1; split; [done|lia]|].
    unfold values. by rewrite H2.
  - eapply wp_conseq; [by apply get_wp| |by intros e s' (_ & -> & _)].
    intros r s' (_ & _ & ->). split_and!; [|done|].
    + apply ok_set_apv; [done|]. apply values_len, Hok.
    + rewrite values_set_apv. case_decide; by subst.
  - eapply wp_conseq; [by apply set_wp| |by intros e s' (_ & -> & _)].
    intros r s' (_ & Hj & ->). split_and!; [|done|].
    + apply ok_set_apv; [done|]. rewrite alen_aset. apply values_len, Hok.
    + rewrite values_set_apv. case_decide; [|done]. subst.
      cbn in Ht. rewrite Z.eqb_refl in Ht. cbn in Ht. breflect.
      rewrite aget_aset_ne; [done|apply Hj|lia].
  - eapply wp_conseq; [by apply destructor_wp| |by intros e s' ->].
    intros r s'. intros H. by apply (same_keys_holds _ _ _ s).
  - eapply wp_conseq; [by apply get_destructor_wp| |]; by intros e s' ->.
Qed.

Lemma run_calls_holds t i v cs s :
  Forall (fun c => touches t i c = false) cs -> holds_value t i v s ->
  exists s', run_calls cs s = Some s' /\ holds_value t i v s'.
Proof.
  intros Hcs. revert s. induction Hcs as [|c cs Hc Hcs IH]; intros s Hs; [by exists s|].
  pose proof (call_holds t i v c s Hc Hs) as Hwp. unfold wp in Hwp.
  cbn [run_calls]. destruct (exec_call c s); [by apply IH..|done].
Qed.

(** [__libc_TLSAlloc] is a first-fit allocator: it returns the lowest index
    that is not allocated, marks that index and no other, clears its destructor
    and leaves the values of all threads alone; it fails, with ENOMEM and
    without a change, exactly when all 128 indices are allocated, and the
    give-up exit after 32 scans is never taken when the calls do not overlap. *)
Theorem TLSAlloc_first_fit fuel s :
  (1 <= fuel)%nat -> tls_ok s ->
  match TLSAlloc fuel s with
  | Done i s' =>
      0 <= i < TLS_MAX /\ ~ allocated s i /\ (forall j, 0 <= j < i -> allocated s j)
      /\ (forall k, allocated s' k <-> allocated s k \/ k = i)
      /\ TLSGetDestructor i s' = Done 0 s' /\ apvTLS s' = apvTLS s /\ tls_ok s'
  | Err e s' => e = ENOMEM /\ s' = s /\ forall k, 0 <= k < TLS_MAX -> allocated s k
  | Fault _ => False
  end.
Proof.
  intros Hf Hok. pose proof (alloc_wp fuel s Hf Hok) as Hwp. unfold wp in Hwp.
  destruct (TLSAlloc fuel s) as [i s'|e s'|]; [|done..].
  destruct Hwp as (H1 & H2 & H3 & H4 & H5 & H6 & H7). split_and!; try done; try lia.
  assert (Hi : allocated s' i) by (apply H4; by right).
  assert (Hg : wp (TLSGetDestructor i) (fun d s2 => d = 0 /\ s2 = s') (fun _ _ => False) s').
  { apply wp_bind, check_index_wp; [apply H7| |done]. intros _. eapply wp_run_bind; [done|].
    rewrite H5. by apply wp_ret. }
  unfold wp in Hg. destruct (TLSGetDestructor i s'); [|done..]. by destruct Hg as [-> ->].
Qed.

Lemma tls_init_ok : tls_ok tls_init.
Proof.
  split; [constructor|]; try done. by repeat constructor.
Qed.

Lemma TLSAlloc_first_fit_witness :
  (1 <= 1)%nat /\ tls_ok tls_init /\
  match TLSAlloc 1 tls_init with
  | Done i s' =>
      0 <= i < TLS_MAX /\ ~ allocated tls_init i /\ (forall j, 0 <= j < i -> allocated tls_init j)
      /\ (forall k, allocated s' k <-> allocated tls_init k \/ k = i)
      /\ TLSGetDestructor i s' = Done 0 s' /\ apvTLS s' = apvTLS tls_init /\ tls_ok s'
  | Err e s' => e = ENOMEM /\ s' = tls_init /\ forall k, 0 <= k < TLS_MAX -> allocated tls_init k
  | Fault _ => False
  end.
Proof. split; [lia|split; [apply tls_init_ok|apply (TLSAlloc_first_fit 1 tls_init); [lia|apply tls_init_ok]]]. Defined.

(** A value stays where a thread stored it: after a successful
    [__libc_TLSSet(i, v)] in the thread [t], any calls of any threads, as long
    as none frees the index and [t] does not set it again, run without a fault
    and leave [v] for [__libc_TLSGet(i)] in [t]. *)
Theorem TLSGet_after_TLSSet t i v cs s s1 :
  tls_ok s -> TLSSet t i v s = Done 0 s1 ->
  Forall (fun c => touches t i c = false) cs ->
  exists s2 s3, run_calls cs s1 = Some s2 /\ TLSGet t i s2 = Done v s3.
Proof.
  intros Hok Hset Hcs. pose proof (set_wp t i v s Hok) as Hwp. unfold wp in Hwp.
  rewrite Hset in Hwp. destruct Hwp as (_ & Hi & ->).
  destruct (run_calls_holds t i v cs (set_apv t (aset (values t s) i v) s) Hcs) as (s2 & Hs2 & Hok2 & Ha2 & Hv2).
  { split_and!; [|done|].
    - apply ok_set_apv; [done|]. rewrite alen_aset. apply values_len, Hok.
    - rewrite values_set_apv, decide_True by done. apply aget_aset_eq.
      rewrite values_len by apply Hok. apply Hi. }
  exists s2. pose proof (get_wp t i s2 Hok2) as Hg. unfold wp in Hg.
  destruct (TLSGet t i s2) as [v' s3|e s3|]; [|by destruct Hg as (_ & _ & ?)|done].
  destruct Hg as (_ & Hv' & _). replace v' with v by congruence. by exists s3.
Qed.

(** Two indices are allocated, thread 1 stores 77 at index 0; thread 2 stores
    there too, thread 1 uses index 1, index 1 is freed and allocated again. *)
Definition tls_demo : tls := default tls_init (run_calls [CAlloc; CAlloc] tls_init).

Lemma tls_demo_ok : tls_ok tls_demo.
Proof.
  split; [constructor|]; try done. by repeat constructor.
Qed.

Lemma TLSGet_after_TLSSet_witness :
  exists s1 s2 s3, TLSSet 1 0 77 tls_demo = Done 0 s1
    /\ run_calls [CSet 2 0 5; CSet 1 1 6; CFree 1; CAlloc] s1 = Some s2
    /\ TLSGet 1 0 s2 = Done 77 s3.
Proof.
  eexists. destruct (TLSGet_after_TLSSet 1 0 77 [CSet 2 0 5; CSet 1 1 6; CFree 1; CAlloc] tls_demo _
    tls_demo_ok eq_refl) as (s2 & s3 & H1 & H2); [by repeat constructor|].
  exists s2, s3. split; [reflexivity|]. by split.
Defined.

(** ** Destructors that never run *)

Section Skipped.
(** Destructors that do not use thread local storage themselves. *)
Variable destr : dtor_call -> T unit.
Hypothesis destr_frame : forall c s, destr c s = Done () s.

(** The state of the scan: only slots of the thread [t] become NULL. *)
Definition scanned (t k v : Z) (s : tls) : Prop :=
  tls_shape s /\ exists l, apvTLS s !! t = Some l /\ aget l k = Some v.

Definition skips (k : Z) (cs : list dtor_call) : Prop := Forall (fun c => dc_index c <> k) cs.

Lemma destroy_one_wp t k v j s :
  0 <= j < 128 -> j <> k -> scanned t k v s ->
  wp (destroy_one destr t j) (fun cs s' => skips k cs /\ scanned t k v s') (fun _ _ => False) s.
Proof.
  intros Hj Hne (Hok & l & Hl & Hv). unfold destroy_one.
  eapply wp_run_bind; [done|]. rewrite test_bit_tbit by done. eapply wp_run_bind; [done|].
  destruct (negb _); [apply wp_ret; split; [constructor|by split; [|exists l]]|].
  eapply wp_run_bind; [done|]. rewrite Hl. eapply wp_run_bind; [done|].
  assert (Hlen : alen l = 128) by (apply (ok_threads _ Hok _ _ Hl)).
  destruct (aget_is_Some l j) as [x Hx]; [lia|]. rewrite Hx. eapply wp_run_bind; [done|].
  destruct (aget_is_Some (gapfnDestructors s) j) as [p Hp]; [rewrite (ok_dtors _ Hok); lia|].
  eapply wp_run_bind; [done|]. rewrite Hp. eapply wp_run_bind; [done|].
  destruct (_ || _); [apply wp_ret; split; [constructor|by split; [|exists l]]|].
  eapply wp_run_bind; [done|]. eapply wp_run_bind; [apply destr_frame|]. apply wp_ret.
  split; [by repeat constructor|]. split.
  - destruct Hok as [H1 H2 H3 H4]. constructor; [done..|].
    apply map_Forall_insert_2; [by rewrite alen_aset|done].
  - exists (aset l j 0). split; [apply lookup_insert_eq|]. by rewrite aget_aset_ne by lia.
Qed.

Lemma destroy_all_wp t k v ks : forall s,
  Forall (fun j => 0 <= j < 128 /\ j <> k) ks -> scanned t k v s ->
  wp (destroy_all destr t ks) (fun cs s' => skips k cs /\ scanned t k v s') (fun _ _ => False) s.
Proof.
  induction ks as [|j ks IH]; intros s Hks Hs; cbn [destroy_all].
  { apply wp_ret. split; [constructor|done]. }
  inversion_clear Hks as [|? ? [Hj Hne] Hks']. apply wp_bind.
  eapply wp_conseq; [by apply destroy_one_wp| |done]. intros c1 s1 [Hc1 Hs1]. apply wp_bind.
  eapply wp_conseq; [by apply IH| |done]. intros c2 s2 [Hc2 Hs2]. apply wp_ret.
  split; [by apply Forall_app|done].
Qed.

Lemma destroy_words_wp t k v ws : forall s,
  8 <= k mod 32 -> Forall (fun i => 0 <= i < 4) ws -> scanned t k v s ->
  wp (destroy_words destr t ws) (fun cs s' => skips k cs /\ scanned t k v s') (fun _ _ => False) s.
Proof.
  induction ws as [|i ws IH]; intros s Hk Hws Hs; cbn [destroy_words].
  { apply wp_ret. split; [constructor|done]. }
  inversion_clear Hws as [|? ? Hi Hws']. apply wp_bind.
  assert (Hone : wp (destroy_word destr t i) (fun cs s' => skips k cs /\ scanned t k v s') (fun _ _ => False) s).
  { unfold destroy_word.
    destruct (word_some s i (proj1 Hs) Hi) as [w Hw]. destruct (word_some s 0 (proj1 Hs) ltac:(lia)) as [w0 Hw0].
    eapply wp_run_bind; [done|]. rewrite Hw. eapply wp_run_bind; [done|].
    destruct (w =? 0); [apply wp_ret; by split; [constructor|]|].
    eapply wp_run_bind; [done|]. rewrite Hw0. eapply wp_run_bind; [done|].
    destruct (Z.land w0 255 =? 0); [apply wp_ret; by split; [constructor|]|].
    apply destroy_all_wp; [|done]. apply Forall_forall. intros j Hj%elem_of_zrange.
    split; [lia|]. intros ->. pose proof (Z.mod_unique k 32 i (k - i * 32)). lia. }
  eapply wp_conseq; [exact Hone| |done]. intros c1 s1 [Hc1 Hs1]. apply wp_bind.
  eapply wp_conseq; [by apply IH| |done]. intros c2 s2 [Hc2 Hs2]. apply wp_ret.
  split; [by apply Forall_app|done].
Qed.
End Skipped.

(** The destructors of three quarters of the indices never run: when a
    thread ends, the scan looks at the first eight indices of each word only,
    so for an index [k] with [8 <= k mod 32] the destructor is not called and
    the value stays in its slot, whatever destructor is registered. *)
Theorem tls_destructor_skipped (destr : dtor_call -> T unit) t k v l s :
  (forall c s, destr c s = Done () s) -> tls_ok s ->
  apvTLS s !! t = Some l -> aget l k = Some v -> 8 <= k mod 32 ->
  exists cs s', tlsThreadDestructor destr t s = Done cs s'
    /\ Forall (fun c => dc_index c <> k) cs
    /\ exists l', apvTLS s' !! t = Some l' /\ aget l' k = Some v.
Proof.
  intros Hd [Hok _] Hl Hv Hk.
  assert (Hwp : wp (tlsThreadDestructor destr t)
    (fun cs s' => skips k cs /\ scanned t k v s') (fun _ _ => False) s).
  { unfold tlsThreadDestructor. eapply wp_run_bind; [done|]. rewrite Hl.
    apply destroy_words_wp; [done|done| |by split; [|exists l]].
    apply Forall_forall. intros i Hi%elem_of_zrange. lia. }
  unfold wp in Hwp. destruct (tlsThreadDestructor destr t s) as [cs s'|e s'|]; [|done..].
  exists cs, s'. destruct Hwp as [H1 [_ H2]]. by split.
Qed.

(** Ten indices, a destructor for index 8, a value of thread 1 there. *)
Definition tls_demo2 : tls :=
  default tls_init (run_calls (replicate 10 CAlloc ++ [CDestructor 8 4096 0; CSet 1 8 99]) tls_init).

Lemma tls_demo2_ok : tls_ok tls_demo2.
Proof.
  split; [constructor|]; try done; [by repeat constructor|].
  intros t l. change (apvTLS tls_demo2) with ({[1 := aset (replicate 128 0) 8 99]} : gmap Z (list Z)).
  by intros [<- <-]%lookup_singleton_Some.
Qed.

Lemma tls_destructor_skipped_witness :
  exists cs s' l', tlsThreadDestructor (fun _ => mret ()) 1 tls_demo2 = Done cs s'
    /\ apvTLS s' !! 1 = Some l' /\ aget l' 8 = Some 99.
Proof.
  destruct (tls_destructor_skipped (fun _ => mret ()) 1 8 99 (aset (replicate 128 0) 8 99) tls_demo2)
    as (cs & s' & H1 & _ & l' & H2 & H3); [done|apply tls_demo2_ok|reflexivity|reflexivity|vm_compute; discriminate|].
  exists cs, s', l'. split; [exact H1|split; [exact H2|exact H3]].
Defined.
