(* ===== verification/TlsThreads.v ===== *)
(** The functions of [Tls.v] run by several threads at once: one step per
    atomic instruction, the invariant that counter, bitmap and owners keep
    under every interleaving, and the uniqueness of the indices. *)

From S2P Require Import Prelude Tls.

(** ** Threads that allocate and free at the same time

    Each access to [gcTLSAllocated] or [gauBitmap] is one atomic instruction,
    and the threads interleave between any two of them. *)

(** Where a thread is. [Check c w]: about to test [*pu != ~0] for the word [w]
    in a try with [c] more to come; [SetBit c w b]: about to set bit [b];
    [Recheck c w]: about to test the [while] condition; [Got i]: it has set
    bit [i] and is about to clear the destructor; [Clear i]: in
    [__libc_TLSFree], past the check; [Decr]: about to decrement. *)
Inductive pc :=
  | Idle
  | Check (c : nat) (w : Z)
  | SetBit (c : nat) (w b : Z)
  | Recheck (c : nat) (w : Z)
  | Got (i : Z)
  | Clear (i : Z)
  | Decr.

(** [pu++], the end of the scan, the next try, and after the last one -1. *)
Definition next_word (c : nat) (w : Z) : pc :=
  if w + 1 <? 4 then Check c (w + 1)
  else match c with O => Idle | S c' => Check c' 0 end.

(** The shared data, the threads, and the indices that were returned and not
    freed since: a client frees only what it has. *)
Record kstate := mk_kstate { sh : tls; pcs : list pc; live : gset Z }.

Inductive kstep : kstate -> kstate -> Prop :=
  | k_start s ps L t :
      aget ps t = Some Idle -> gcTLSAllocated s < TLS_MAX ->
      kstep (mk_kstate s ps L) (mk_kstate (set_count (gcTLSAllocated s + 1) s) (aset ps t (Check 31 0)) L)
  | k_check s ps L t c w x :
      aget ps t = Some (Check c w) -> aget (gauBitmap s) w = Some x ->
      kstep (mk_kstate s ps L)
        (mk_kstate s (aset ps t (if x =? ALL_BITS then next_word c w else SetBit c w 0)) L)
  | k_setbit s ps L t c w b old s' :
      aget ps t = Some (SetBit c w b) -> atomic_set_bit w b s = Done old s' ->
      kstep (mk_kstate s ps L)
        (mk_kstate s' (aset ps t
           (if old then (if b + 1 <? ENTRY_BITS then SetBit c w (b + 1) else Recheck c w)
            else if w * ENTRY_BITS + b <? TLS_MAX then Got (w * ENTRY_BITS + b)
            else if b + 1 <? ENTRY_BITS then SetBit c w (b + 1) else Recheck c w)) L)
  | k_recheck s ps L t c w x :
      aget ps t = Some (Recheck c w) -> aget (gauBitmap s) w = Some x ->
      kstep (mk_kstate s ps L)
        (mk_kstate s (aset ps t (if x =? ALL_BITS then next_word c w else SetBit c w 0)) L)
  | k_return s ps L t i :
      aget ps t = Some (Got i) ->
      kstep (mk_kstate s ps L) (mk_kstate (set_dtor i 0 s) (aset ps t Idle) ({[i]} ∪ L))
  | k_free s ps L t i :
      aget ps t = Some Idle -> i ∈ L -> check_index i s = Done () s ->
      kstep (mk_kstate s ps L) (mk_kstate s (aset ps t (Clear i)) (L ∖ {[i]}))
  | k_clear s ps L t i s' :
      aget ps t = Some (Clear i) -> (_ ← mmod (set_dtor i 0); atomic_clear_bit i) s = Done () s' ->
      kstep (mk_kstate s ps L) (mk_kstate s' (aset ps t Decr) L)
  | k_decr s ps L t :
      aget ps t = Some Decr ->
      kstep (mk_kstate s ps L) (mk_kstate (set_count (u32 (gcTLSAllocated s - 1)) s) (aset ps t Idle) L).

(** [n] threads of a process that has not used the module. *)
Inductive kreach (n : nat) : kstate -> Prop :=
  | kreach_init : kreach n (mk_kstate tls_init (replicate n Idle) ∅)
  | kreach_step k k' : kreach n k -> kstep k k' -> kreach n k'.

Definition holds (p : pc) : option Z := match p with Got i | Clear i => Some i | _ => None end.

(** A thread whose increment of the counter has no bit of its own. *)
Definition pend (p : pc) : Z :=
  match p with Check _ _ | SetBit _ _ _ | Recheck _ _ | Decr => 1 | _ => 0 end.

Definition pc_ok (p : pc) : Prop :=
  match p with
  | Check _ w | Recheck _ w => 0 <= w < 4
  | SetBit _ w b => 0 <= w < 4 /\ 0 <= b < 32
  | _ => True
  end.

Definition held (ps : list pc) (t : Z) : option Z := p ← aget ps t; holds p.

Record kinv (k : kstate) : Prop := mk_kinv {
  k_shape : tls_shape (sh k);
  k_pcs : Forall pc_ok (pcs k);
  k_count : used (gauBitmap (sh k)) + sumZ (pend <$> pcs k) <= gcTLSAllocated (sh k) <= 128;
  k_owned : forall i, allocated (sh k) i <-> i ∈ live k \/ exists t, held (pcs k) t = Some i;
  k_excl : forall t i, held (pcs k) t = Some i -> i ∉ live k;
  k_uniq : forall t t' i, held (pcs k) t = Some i -> held (pcs k) t' = Some i -> t = t'
}.

Lemma held_aset ps t p p' t' :
  aget ps t = Some p -> held (aset ps t p') t' = if decide (t = t') then holds p' else held ps t'.
Proof.
  intros Hp. unfold held. rewrite aget_aset by (by eapply aget_Some_range). by case_decide.
Qed.

Lemma pend_aset ps t p p' :
  aget ps t = Some p -> sumZ (pend <$> aset ps t p') = sumZ (pend <$> ps) - pend p + pend p'.
Proof. intros Hp. rewrite fmap_aset. apply sumZ_aset. by rewrite aget_fmap, Hp. Qed.

Lemma pend_nonneg ps : 0 <= sumZ (pend <$> ps).
Proof. apply sumZ_nonneg, Forall_fmap, Forall_true. by intros []. Qed.

(** A step of a thread that holds no index before and after, on the same bits. *)
Lemma kinv_move s s' ps L t p p' :
  kinv (mk_kstate s ps L) -> aget ps t = Some p -> holds p = None -> holds p' = None -> pc_ok p' ->
  gauBitmap s' = gauBitmap s -> tls_shape s' ->
  used (gauBitmap s) + sumZ (pend <$> ps) - pend p + pend p' <= gcTLSAllocated s' <= 128 ->
  kinv (mk_kstate s' (aset ps t p') L).
Proof.
  intros [H1 H2 H3 H4 H5 H6] Hp Hh Hh' Hok Hb Hs Hc. cbn in *.
  assert (Hheld : forall t', held (aset ps t p') t' = held ps t').
  { intros t'. rewrite (held_aset _ _ _ _ _ Hp). case_decide; [|done]. subst.
    unfold held. rewrite Hp. cbn. congruence. }
  constructor; cbn.
  - done.
  - by apply Forall_aset.
  - rewrite Hb, (pend_aset _ _ _ _ Hp). lia.
  - intros i. unfold allocated. rewrite Hb. setoid_rewrite Hheld. apply H4.
  - intros t' i. rewrite Hheld. apply H5.
  - intros t1 t2 i. rewrite !Hheld. apply H6.
Qed.

(** A step of a thread from the index [o] to the index [o'], which are the
    only ones whose state changes. *)
Lemma kinv_change s s' ps L L' t p p' :
  kinv (mk_kstate s ps L) -> aget ps t = Some p -> pc_ok p' -> tls_shape s' ->
  used (gauBitmap s') + sumZ (pend <$> ps) - pend p + pend p' <= gcTLSAllocated s' <= 128 ->
  (forall i, i ∈ L' \/ holds p' = Some i \/ (exists t', t' <> t /\ held ps t' = Some i) <-> allocated s' i) ->
  (forall i, holds p' = Some i -> i ∉ L' /\ forall t', t' <> t -> held ps t' <> Some i) ->
  (forall t' i, t' <> t -> held ps t' = Some i -> i ∉ L') ->
  kinv (mk_kstate s' (aset ps t p') L').
Proof.
  intros [H1 H2 H3 H4 H5 H6] Hp Hok Hs Hc Hown Hnew Hold. cbn in *.
  pose proof (fun t' => held_aset _ _ _ p' t' Hp) as Hheld. constructor; cbn.
  - done.
  - by apply Forall_aset.
  - rewrite (pend_aset _ _ _ _ Hp). lia.
  - intros i. rewrite <-Hown. split.
    + intros [?|[Hi|(t' & Hne & Ht')]]; [by left|right; exists t|right; exists t'].
      * by rewrite Hheld, decide_True.
      * by rewrite Hheld, decide_False.
    + intros [?|[t' Ht']]; [by left|]. rewrite Hheld in Ht'. case_decide; [by right; left|].
      right; right. exists t'. by split.
  - intros t' i. rewrite Hheld. case_decide; [by intros [? _]%Hnew|]. apply Hold. congruence.
  - intros t1 t2 i. rewrite !Hheld. repeat case_decide; subst; try done.
    + intros Hi. apply Hnew in Hi as [_ Hi]. intros Ht2. by destruct (Hi t2).
    + intros Ht1 Hi. apply Hnew in Hi as [_ Hi]. by destruct (Hi t1).
    + apply H6.
Qed.

Lemma kinv_init n : kinv (mk_kstate tls_init (replicate n Idle) ∅).
Proof.
  assert (Hh : forall t, held (replicate n Idle) t = None).
  { intros t. unfold held. destruct (aget (replicate n Idle) t) as [p|] eqn:Hp; [|done].
    by apply aget_replicate in Hp as ->. }
  constructor; cbn [sh pcs live].
  - apply tls_init_ok.
  - apply Forall_replicate; done.
  - replace (used (gauBitmap tls_init)) with 0 by reflexivity.
    rewrite fmap_replicate, sumZ_replicate. cbn [pend gcTLSAllocated tls_init]. lia.
  - intros i. split.
    + intros [Hi Hb]. exfalso. revert Hb. cbn [gauBitmap tls_init]. unfold tbit, atomic_test_bit.
      destruct (aget (replicate 4 0) (i / 32)) as [w|] eqn:Hw; [|done].
      apply aget_replicate in Hw as ->. cbn. by rewrite Z.testbit_0_l.
    + intros [?|[t Ht]]; [set_solver|]. by rewrite Hh in Ht.
  - intros t i. by rewrite Hh.
  - intros t t' i. by rewrite Hh.
Qed.

Lemma next_word_pc c w : 0 <= w < 4 -> holds (next_word c w) = None /\ pc_ok (next_word c w) /\ pend (next_word c w) <= 1.
Proof.
  intros Hw. unfold next_word. destruct (Z.ltb_spec (w + 1) 4); [split_and!; cbn; done || lia|].
  destruct c; split_and!; cbn; done || lia.
Qed.

(** The two tests of a word: to its first bit, or on. *)
Lemma kinv_test s ps L t p c w x :
  kinv (mk_kstate s ps L) -> aget ps t = Some p -> holds p = None -> pend p = 1 -> 0 <= w < 4 ->
  kinv (mk_kstate s (aset ps t (if x =? ALL_BITS then next_word c w else SetBit c w 0)) L).
Proof.
  intros Hk Hp Hh Hpend Hw. pose proof (next_word_pc c w Hw) as (H1 & H2 & H3).
  apply (kinv_move s s ps L t p); try done.
  - by destruct (x =? ALL_BITS).
  - destruct (x =? ALL_BITS); [done|]. cbn; lia.
  - apply Hk.
  - pose proof (k_count _ Hk) as Hc. cbn [sh pcs] in Hc. destruct (x =? ALL_BITS); cbn [pend]; lia.
Qed.

Lemma kinv_setbit s s' ps L t c w b old :
  kinv (mk_kstate s ps L) -> aget ps t = Some (SetBit c w b) -> atomic_set_bit w b s = Done old s' ->
  kinv (mk_kstate s' (aset ps t
    (if old then (if b + 1 <? ENTRY_BITS then SetBit c w (b + 1) else Recheck c w)
     else if w * ENTRY_BITS + b <? TLS_MAX then Got (w * ENTRY_BITS + b)
     else if b + 1 <? ENTRY_BITS then SetBit c w (b + 1) else Recheck c w)) L).
Proof.
  intros Hk Hp Hset. pose proof (Forall_aget _ _ _ _ (k_pcs _ Hk) Hp) as Hok. cbn in Hok.
  pose proof (k_shape _ Hk) as Hs. pose proof (k_count _ Hk) as Hc. cbn [sh pcs] in Hs, Hc.
  destruct (word_some s w Hs) as [x Hx]; [lia|].
  rewrite (set_bit_run w b x) in Hset by (done || lia). injection Hset as <- Hset.
  pose proof (word_alloc s w x b Hs Hx ltac:(lia)) as Ha. unfold ENTRY_BITS, TLS_MAX.
  destruct (Z.testbit x b) eqn:Hb; subst s'.
  - apply (kinv_move s s ps L t (SetBit c w b)); try done.
    + by destruct (b + 1 <? 32).
    + destruct (Z.ltb_spec (b + 1) 32); cbn; lia.
    + destruct (b + 1 <? 32); cbn [pend]; lia.
  - zbool. set (i := w * 32 + b) in *.
    assert (Hfree : ~ allocated s i) by (rewrite Ha; done).
    apply (kinv_change s _ ps L L t (SetBit c w b)); try done.
    + apply (shape_with_bit Z.setbit i 0 (gcTLSAllocated s) s) in Hs as [G1 G2 G3 G4]; [|intros; apply setbit_range; [done|by apply Z.mod_pos_bound]|lia].
      constructor; [done|done|apply Hk|done].
    + change (with_bit Z.setbit i s) with (set_bitmap (gauBitmap (set_count 0 (taken i s))) s).
      cbn [gauBitmap set_bitmap gcTLSAllocated pend]. rewrite taken_used by (done || lia). lia.
    + intros j. change (allocated (with_bit Z.setbit i s) j) with (allocated (set_count 0 (taken i s)) j).
      rewrite taken_allocated by (done || lia). rewrite (k_owned _ Hk j). cbn [live pcs sh holds].
      split.
      * intros [?|[[= ->]|(t' & _ & ?)]]; [by left; left|by right|left; right; by exists t'].
      * intros [[?|[t' Ht']]| ->]; [by left| |by right; left]. right; right. exists t'. split; [|done].
        intros ->. unfold held in Ht'. by rewrite Hp in Ht'.
    + cbn [holds]. intros j [= <-]. split.
      * intros Hi. apply Hfree, (k_owned _ Hk). by left.
      * intros t' _ Ht'. apply Hfree, (k_owned _ Hk). right. by exists t'.
    + intros t' j _. apply (k_excl _ Hk).
Qed.

Lemma clear_run i s :
  tls_shape s -> 0 <= i < 128 ->
  (_ ← mmod (set_dtor i 0); atomic_clear_bit i) s = Done () (freed i s).
Proof.
  intros Hs Hi. destruct (word_some s (i / 32) Hs) as [w Hw].
  { split; [apply Z.div_pos; lia|apply Z.div_lt_upper_bound; lia]. }
  unfold atomic_clear_bit, gets, mbind, M_bind, deref, mmod, freed, with_bit. cbn. by rewrite Hw.
Qed.

Lemma shape_set_dtor i d s : tls_shape s -> tls_shape (set_dtor i d s).
Proof. intros []. constructor; try done. cbn. by rewrite alen_aset. Qed.

Lemma held_self ps t p : aget ps t = Some p -> held ps t = holds p.
Proof. unfold held. by intros ->. Qed.

(** An index moves between its holder and the clients. *)
Lemma kinv_return s ps L t i :
  kinv (mk_kstate s ps L) -> aget ps t = Some (Got i) ->
  kinv (mk_kstate (set_dtor i 0 s) (aset ps t Idle) ({[i]} ∪ L)).
Proof.
  intros Hk Hp. pose proof (k_count _ Hk) as Hc. cbn [sh pcs] in Hc.
  pose proof (held_self _ _ _ Hp) as Hh. cbn in Hh.
  apply (kinv_change s _ ps L _ t (Got i)); try done.
  - apply shape_set_dtor, Hk.
  - cbn [pend gauBitmap set_dtor gcTLSAllocated]. lia.
  - intros j. change (allocated (set_dtor i 0 s) j) with (allocated s j).
    rewrite (k_owned _ Hk j). cbn [live pcs holds]. rewrite elem_of_union, elem_of_singleton. split.
    + intros [[->|?]|[?|(t' & _ & ?)]]; [right; by exists t|by left|done|right; by exists t'].
    + intros [?|[t' Ht']]; [by left; right|]. destruct (decide (t' = t)) as [->|].
      * left; left. congruence.
      * right; right. by exists t'.
  - intros t' j Hne Hj. rewrite elem_of_union, elem_of_singleton. intros [->|Hin].
    + apply Hne. by apply (k_uniq _ Hk _ _ i).
    + by apply (k_excl _ Hk _ _ Hj).
Qed.

Lemma kinv_free s ps L t i :
  kinv (mk_kstate s ps L) -> aget ps t = Some Idle -> i ∈ L ->
  kinv (mk_kstate s (aset ps t (Clear i)) (L ∖ {[i]})).
Proof.
  intros Hk Hp Hi. pose proof (k_count _ Hk) as Hc. cbn [sh pcs] in Hc.
  pose proof (held_self _ _ _ Hp) as Hh. cbn in Hh.
  apply (kinv_change s _ ps L _ t Idle); try done.
  - apply Hk.
  - cbn [pend]. lia.
  - intros j. rewrite (k_owned _ Hk j). cbn [live pcs holds].
    rewrite elem_of_difference, elem_of_singleton. split.
    + intros [[? _]|[[= ->]|(t' & _ & ?)]]; [by left|by left|right; by exists t'].
    + intros [Hj|[t' Ht']].
      * destruct (decide (j = i)) as [->|]; [by right; left|by left].
      * right; right. exists t'. split; [|done]. intros ->. congruence.
  - cbn [holds]. intros j [= <-]. split; [set_solver|]. intros t' _ Ht'.
    by apply (k_excl _ Hk _ _ Ht').
  - intros t' j _ Hj. pose proof (k_excl _ Hk _ _ Hj) as Hn. cbn in Hn. set_solver.
Qed.

Lemma kinv_clear s s' ps L t i :
  kinv (mk_kstate s ps L) -> aget ps t = Some (Clear i) ->
  (_ ← mmod (set_dtor i 0); atomic_clear_bit i) s = Done () s' ->
  kinv (mk_kstate s' (aset ps t Decr) L).
Proof.
  intros Hk Hp Hrun. pose proof (k_count _ Hk) as Hc. cbn [sh pcs] in Hc.
  pose proof (k_shape _ Hk) as Hs. cbn [sh] in Hs.
  pose proof (held_self _ _ _ Hp) as Hh. cbn in Hh.
  assert (Ha : allocated s i) by (apply (k_owned _ Hk); right; by exists t).
  pose proof Ha as [Hi _]. unfold TLS_MAX in Hi.
  rewrite clear_run in Hrun by done. injection Hrun as <-.
  apply (kinv_change s _ ps L L t (Clear i)); try done.
  - by apply (freed_shape i (gcTLSAllocated s) s).
  - change (used (gauBitmap (freed i s))) with (used (gauBitmap (set_count 0 (freed i s)))).
    rewrite freed_used by done. cbn [pend]. change (gcTLSAllocated (freed i s)) with (gcTLSAllocated s). lia.
  - intros j. change (allocated (freed i s) j) with (allocated (set_count 0 (freed i s)) j).
    rewrite freed_allocated by done. rewrite (k_owned _ Hk j). cbn [live pcs holds].
    assert (Hni : i ∉ L) by apply (k_excl _ Hk _ _ Hh). split.
    + intros [Hj|[?|(t' & Hne & Ht')]]; [|done|].
      * split; [by left|]. by intros ->.
      * split; [right; by exists t'|]. intros ->. apply Hne. by apply (k_uniq _ Hk _ _ i).
    + intros [[?|[t' Ht']] Hne]; [by left|]. right; right. exists t'. split; [|done].
      intros ->. congruence.
  - intros t' j _. apply (k_excl _ Hk).
Qed.

Lemma kinv_step k k' : kinv k -> kstep k k' -> kinv k'.
Proof.
  intros Hk Hstep. destruct Hstep.
  - pose proof (k_count _ Hk) as Hc. cbn [sh pcs] in Hc. unfold TLS_MAX in *.
    apply (kinv_move s _ ps L t Idle); try done; [apply shape_set_count, Hk|].
    cbn [pend gcTLSAllocated set_count]. lia.
  - eapply kinv_test; [done..|]. by apply (Forall_aget _ _ _ _ (k_pcs _ Hk) H).
  - by eapply kinv_setbit.
  - eapply kinv_test; [done..|]. by apply (Forall_aget _ _ _ _ (k_pcs _ Hk) H).
  - by apply kinv_return.
  - by apply kinv_free.
  - by eapply kinv_clear.
  - pose proof (k_count _ Hk) as Hc. cbn [sh pcs] in Hc.
    pose proof (used_bounds (gauBitmap s)) as Hu.
    assert (Hpos : 1 <= sumZ (pend <$> ps)).
    { apply (sumZ_le _ t); [apply Forall_fmap, Forall_true; by intros []|]. by rewrite aget_fmap, H. }
    assert (Hd : u32 (gcTLSAllocated s - 1) = gcTLSAllocated s - 1) by (apply u32_small; lia).
    apply (kinv_move s _ ps L t Decr); try done; [apply shape_set_count, Hk|].
    cbn [pend gcTLSAllocated set_count]. rewrite Hd. lia.
Qed.

Lemma kreach_inv n k : kreach n k -> kinv k.
Proof. induction 1; [apply kinv_init|by eapply kinv_step]. Qed.

(** C21: Threads that allocate and free at the same time never share an index.
    However the atomic instructions of any number of threads interleave, the
    index a call is about to return is neither in use nor about to be returned
    or freed by another thread, the indices in use stay allocated, the counter
    is never below the number of bits set nor above 128, and it is positive
    whenever a free decrements it. *)
Theorem tls_concurrent_unique n k :
  kreach n k ->
  (forall t i, aget (pcs k) t = Some (Got i) ->
     i ∉ live k /\ forall t', t' <> t ->
       aget (pcs k) t' <> Some (Got i) /\ aget (pcs k) t' <> Some (Clear i))
  /\ (forall i, i ∈ live k -> allocated (sh k) i)
  /\ used (gauBitmap (sh k)) <= gcTLSAllocated (sh k) <= TLS_MAX
  /\ (forall t, aget (pcs k) t = Some Decr -> gcTLSAllocated (sh k) > 0).
Proof.
  intros Hr%kreach_inv. pose proof (pend_nonneg (pcs k)) as Hp.
  pose proof (k_count _ Hr) as Hc. pose proof (used_bounds (gauBitmap (sh k))) as Hu.
  split_and!; [|intros i Hi; apply (k_owned _ Hr); by left|lia|unfold TLS_MAX; lia|].
  - intros t i Ht%held_self. split; [by apply (k_excl _ Hr t)|].
    intros t' Hne. split; intros Ht'%held_self; apply Hne; by apply (k_uniq _ Hr _ _ i).
  - intros t Ht. assert (1 <= sumZ (pend <$> pcs k)); [|lia].
    apply (sumZ_le _ t); [apply Forall_fmap, Forall_true; by intros []|]. by rewrite aget_fmap, Ht.
Qed.

(** Two threads race for index 0: the second finds the bit set. *)
Definition race_mid : tls := set_count 2 tls_init.
Definition race_end : kstate := mk_kstate (with_bit Z.setbit 0 race_mid) [Got 0; SetBit 31 0 1] ∅.

Lemma race_reach : kreach 2 race_end.
Proof.
  assert (H1 : kreach 2 (mk_kstate race_mid [Check 31 0; Check 31 0] ∅)).
  { eapply kreach_step; [eapply kreach_step; [apply kreach_init|]|].
    - by apply (k_start tls_init [Idle; Idle] ∅ 0).
    - by apply (k_start (set_count 1 tls_init) [Check 31 0; Idle] ∅ 1). }
  assert (H2 : kreach 2 (mk_kstate race_mid [SetBit 31 0 0; SetBit 31 0 0] ∅)).
  { eapply kreach_step; [eapply kreach_step; [exact H1|]|].
    - by apply (k_check race_mid [Check 31 0; Check 31 0] ∅ 0 31 0 0).
    - by apply (k_check race_mid [SetBit 31 0 0; Check 31 0] ∅ 1 31 0 0). }
  eapply kreach_step; [eapply kreach_step; [exact H2|]|].
  - by apply (k_setbit race_mid [SetBit 31 0 0; SetBit 31 0 0] ∅ 0 31 0 0 false (with_bit Z.setbit 0 race_mid)).
  - by apply (k_setbit (with_bit Z.setbit 0 race_mid) [Got 0; SetBit 31 0 0] ∅ 1 31 0 0 true
      (with_bit Z.setbit 0 race_mid)).
Qed.

Lemma tls_concurrent_unique_witness :
  kreach 2 race_end /\ forall t', t' <> 0 -> aget (pcs race_end) t' <> Some (Got 0).
Proof.
  split; [apply race_reach|]. intros t' Ht'.
  apply (proj1 (tls_concurrent_unique 2 race_end race_reach) 0 0); [reflexivity|exact Ht'].
Defined.
