(* ===== verification/Env.v ===== *)
(** The process environment ([src/src/emx/src/lib/app/getenv.c], [setenv.c],
    [putenv.c], [unsetenv.c]): the array [environ] of string pointers, the
    memory of the strings, in-place updates and the failures of [malloc].
    [EnvFacts.v] has the theorems. *)

From S2P Require Import Prelude.

(** ** Memory and state *)

(** A C string: its bytes before the NUL. *)
Abbreviation str := (list Z).

(** ['='] *)
Definition EQ : Z := 61.

(** The string that starts an object: the bytes before its first NUL. *)
Fixpoint cstr (l : list Z) : option str :=
  match l with
  | [] => None
  | c :: l' => if c =? 0 then Some [] else (c ::.) <$> cstr l'
  end.

(** Pointers are the numbers of the objects they point to; [UNINIT] is the
    content of memory fresh from [malloc], which points nowhere. The lists of
    pointers are the entries before the NULL. [org_environ] is the array the
    process started with, [own_environ] the one made by [malloc], if any:
    [environ == _org_environ] as long as it is [None]. *)
Definition UNINIT : Z := -1.

Record env := mk_env {
  mem : gmap Z (list Z);
  next : Z;
  org_environ : option (list Z);
  own_environ : option (list Z);
  tzset_flag : Z
}.

Definition environ (s : env) : option (list Z) :=
  match own_environ s with Some l => Some l | None => org_environ s end.

(** Store through [environ]: in the array it points to. *)
Definition set_environ (l : list Z) (s : env) : env :=
  match own_environ s with
  | Some _ => mk_env (mem s) (next s) (org_environ s) (Some l) (tzset_flag s)
  | None => mk_env (mem s) (next s) (Some l) None (tzset_flag s)
  end.
Definition set_own (l : list Z) (s : env) : env :=
  mk_env (mem s) (next s) (org_environ s) (Some l) (tzset_flag s).
Definition set_mem (b : Z) (l : list Z) (s : env) : env :=
  mk_env (<[b := l]> (mem s)) (next s) (org_environ s) (own_environ s) (tzset_flag s).
Definition new_object (l : list Z) (s : env) : env :=
  mk_env (<[next s := l]> (mem s)) (next s + 1) (org_environ s) (own_environ s) (tzset_flag s).
Definition clear_tz (s : env) : env :=
  mk_env (mem s) (next s) (org_environ s) (own_environ s) 0.

Abbreviation E := (M env).

(** The string a pointer points to. *)
Definition str_of (m : gmap Z (list Z)) (b : Z) : option str := l ← m !! b; cstr l.
Definition str_at (b : Z) : E str := o ← gets (fun s => str_of (mem s) b); deref o.

(** [strncmp(s, name, len) == 0 && (s[len] == '\0' || s[len] == '=')] *)
Definition entry_of (name s : str) : bool :=
  bool_decide (take (length name) s = name)
  && match s !! length name with None => true | Some c => c =? EQ end.

(** [strncmp(s, name, len) == 0 && s[len] == '='] *)
Definition assigns (name s : str) : bool :=
  bool_decide (take (length name) s = name)
  && match s !! length name with None => false | Some c => c =? EQ end.

(** [strchr(s, '=') != NULL] *)
Definition has_eq (s : str) : bool := existsb (fun c => c =? EQ) s.

(** The search loops: the index of the first entry that passes the test. *)
Fixpoint find_entry (test : str -> bool) (ps : list Z) (i : nat) : E (option nat) :=
  match ps with
  | [] => mret None
  | p :: ps' =>
      s ← str_at p;
      if test s then mret (Some i) else find_entry test ps' (S i)
  end.

(** ** getenv *)

(** The pointer returned: the object and the offset in it; [None] is NULL. *)
Definition getenv (name : option str) : E (option (Z * nat)) :=
  match name with
  | None => mret None
  | Some name =>
      env ← gets environ;
      match env with
      | None => mret None
      | Some ps =>
          r ← find_entry (assigns name) ps 0;
          match r with
          | None => mret None
          | Some i => p ← deref (ps !! i); mret (Some (p, S (length name)))
          end
      end
  end.

(** ** setenv *)

(** The new array for [env_size + 1] entries: [malloc] and a copy the first
    time, [realloc] afterwards. The new entry is not set yet: [malloc] leaves
    it undefined, after [realloc] it is the old NULL. *)
Definition grow_environ (alloc : bool) (ps : list Z) : E unit :=
  own ← gets own_environ;
  _ ← err_if (negb alloc) ENOMEM;
  mmod (set_own (match own with None => ps ++ [UNINIT] | Some _ => ps end)).

(** [environ[i] = p], with the NULL behind it. *)
Definition store_entry (i : nat) (p : Z) : E unit :=
  o ← gets environ; ps ← deref o;
  mmod (set_environ (if (i <? length ps)%nat then <[i := p]> ps else ps ++ [p])).

(** "name=val" in a new object, stored at entry [i]. *)
Definition store_new (alloc : bool) (name val : str) (i : nat) : E unit :=
  _ ← err_if (negb alloc) ENOMEM;
  p ← gets next;
  _ ← mmod (new_object (name ++ [EQ] ++ val ++ [0]));
  store_entry i p.

(** [memcpy( *p + lenname + 1, envval, lenval + 1)] *)
Definition overwrite_value (p : Z) (name val : str) : E unit :=
  o ← gets (fun s => mem s !! p); l ← deref o;
  let off := S (length name) in
  if (length l <? off + length val + 1)%nat then mfail Ub
  else mmod (set_mem p (take off l ++ val ++ [0] ++ drop (off + length val + 1) l)).

(** [if ( *envval == '=') envval++;] *)
Definition strip_eq (envval : str) : str :=
  match envval with c :: v => if c =? EQ then v else envval | [] => [] end.

(** [alloc_array], [alloc_string]: whether the allocations succeed. *)
Definition setenv (alloc_array alloc_string : bool) (envname : option str) (envval : str)
    (overwrite : bool) : E Z :=
  match envname with
  | None => merr EINVAL
  | Some name =>
      if bool_decide (name = []) || has_eq name then merr EINVAL
      else
        _ ← mmod clear_tz;
        let val := strip_eq envval in
        env ← gets environ;
        r ← (match env with None => mret None | Some ps => find_entry (entry_of name) ps 0 end);
        match r with
        | Some i =>
            if negb overwrite then mret 0
            else
              p ← deref (env ≫= (.!! i));
              s ← str_at p;
              if bool_decide (s !! length name = Some EQ)
                 && (length val <=? length (drop (S (length name)) s))%nat
              then _ ← overwrite_value p name val; mret 0
              else _ ← store_new alloc_string name val i; mret 0
        | None =>
            let ps := default [] env in
            _ ← grow_environ alloc_array ps;
            _ ← store_new alloc_string name val (length ps);
            mret 0
        end
  end.

(** ** unsetenv *)

(** The [while ( *p != NULL)] loop at index [i]: the [for (;;p2++)] shifts the
    entries behind a match down by one. *)
Fixpoint unset_loop (fuel : nat) (name : str) (i : nat) : E unit :=
  match fuel with
  | O => mfail Hang
  | S fuel' =>
      o ← gets environ; ps ← deref o;
      match ps !! i with
      | None => mret ()
      | Some p =>
          s ← str_at p;
          if entry_of name s then
            _ ← mmod (set_environ (take i ps ++ drop (S i) ps));
            _ ← mmod clear_tz;
            unset_loop fuel' name i
          else unset_loop fuel' name (S i)
      end
  end.

Definition unsetenv (fuel : nat) (name : option str) : E Z :=
  match name with
  | None => merr EINVAL
  | Some name =>
      if bool_decide (name = []) || has_eq name then merr EINVAL
      else _ ← unset_loop fuel name 0; mret 0
  end.

(** ** putenv *)

(** The bytes before the first ['=']. *)
Fixpoint before_eq (s : str) : str :=
  match s with [] => [] | c :: s' => if c =? EQ then [] else c :: before_eq s' end.

(** [string] points to an object of the caller, which becomes part of the
    environment. *)
Definition putenv (alloc_array : bool) (fuel : nat) (string : option Z) : E Z :=
  match string with
  | None => merr EINVAL
  | Some b =>
      str ← str_at b;
      if negb (has_eq str) then unsetenv fuel (Some str)
      else
        let name := before_eq str in
        env ← gets environ;
        r ← (match env with None => mfail Panic | Some ps => find_entry (entry_of name) ps 0 end);
        _ ← (match r with
             | None =>
                 let ps := default [] env in
                 _ ← grow_environ alloc_array ps;
                 store_entry (length ps) b
             | Some i => store_entry i b
             end);
        _ ← mmod clear_tz;
        mret 0
  end.
