(* ===== verification/EnvFacts.v ===== *)
(** The environment functions of [Env.v] implement a map from names to values:
    the theory of the string lists, one lemma per operation, and the
    properties of [getenv], [setenv], [unsetenv] and [putenv]. *)

From S2P Require Import Prelude Env.

(** ** The abstract environment: a map from names to values *)

(** A name: not empty, no ['='], no NUL. *)
Definition is_name (n : str) : Prop := n <> [] /\ EQ ∉ n /\ 0 ∉ n.

(** The value of the first entry that assigns [n]. *)
Fixpoint value_of (n : str) (l : list str) : option str :=
  match l with
  | [] => None
  | s :: l' => if assigns n s then Some (drop (S (length n)) s) else value_of n l'
  end.

(** The strings of the environment; [None] if a pointer is dead. *)
Definition contents (s : env) : option (list str) := mapM (str_of (mem s)) (default [] (environ s)).

(** Every pointer is good and object numbers are fresh. *)
Record env_ok (s : env) : Prop := mk_env_ok {
  ok_contents : is_Some (contents s);
  ok_next : map_Forall (fun b _ => 0 <= b < next s) (mem s);
  ok_pos : 0 <= next s
}.

Definition env_lookup (s : env) (n : str) : option str := value_of n (default [] (contents s)).

(** *** Strings *)

Lemma cstr_app s l : 0 ∉ s -> cstr (s ++ 0 :: l) = Some s.
Proof.
  induction s as [|c s IH]; intros Hs; [done|]. cbn. apply not_elem_of_cons in Hs as [Hc Hs].
  rewrite (proj2 (Z.eqb_neq c 0)) by congruence. by rewrite IH.
Qed.

Lemma cstr_split l s : cstr l = Some s -> exists rest, l = s ++ 0 :: rest /\ 0 ∉ s.
Proof.
  revert s. induction l as [|c l IH]; intros s; cbn; [done|].
  destruct (Z.eqb_spec c 0) as [->|Hc].
  - intros [= <-]. exists l. split; [done|]. apply not_elem_of_nil.
  - intros (s' & Hs' & ->)%fmap_Some. destruct (IH s' Hs') as (rest & -> & Hn).
    exists rest. split; [done|]. apply not_elem_of_cons. split; [congruence|done].
Qed.

Lemma assigns_spec n s : assigns n s = true <-> exists v, s = n ++ EQ :: v.
Proof.
  unfold assigns. rewrite andb_true_iff, bool_decide_eq_true. split.
  - intros [Ht Hc]. destruct (s !! length n) as [c|] eqn:Hl; [|done].
    apply Z.eqb_eq in Hc as ->. exists (drop (S (length n)) s).
    rewrite <-Ht at 1. by rewrite take_drop_middle.
  - intros [v ->]. split; [by rewrite take_app_length|].
    by rewrite list_lookup_middle.
Qed.

Lemma entry_of_spec n s : entry_of n s = true <-> s = n \/ exists v, s = n ++ EQ :: v.
Proof.
  rewrite <-assigns_spec. unfold entry_of, assigns. rewrite !andb_true_iff, bool_decide_eq_true.
  destruct (s !! length n) as [c|] eqn:Hl.
  - split; [by right|]. intros [->|?]; [|done]. by rewrite lookup_ge_None_2 in Hl.
  - apply lookup_ge_None in Hl. split; [intros [Ht _]; left; by rewrite take_ge in Ht|].
    intros [->|[? ?]]; [|done]. by rewrite take_ge.
Qed.

Lemma assigns_entry n s : assigns n s = true -> entry_of n s = true.
Proof. rewrite assigns_spec, entry_of_spec. by right. Qed.

(** An entry belongs to one name only. *)
Lemma entry_unique n n' s :
  is_name n -> is_name n' -> n <> n' -> entry_of n s = true -> assigns n' s = false.
Proof.
  intros (_ & H1 & _) (_ & H2 & _) Hne He. apply not_true_is_false.
  intros (v & ->)%assigns_spec. apply entry_of_spec in He as [<-|[w Hw]].
  - apply H1, elem_of_app. right. left.
  - apply Hne. clear Hne. revert n' Hw H2. induction n as [|c n IH]; intros [|c' n'] Hw H2;
      [done|..]; simplify_eq/=.
    + destruct H2. left.
    + destruct H1. left.
    + apply not_elem_of_cons in H1 as [_ H1]. apply not_elem_of_cons in H2 as [_ H2].
      f_equal. by apply IH.
Qed.

Lemma assigns_self n v : assigns n (n ++ EQ :: v) = true.
Proof. apply assigns_spec. by exists v. Qed.

Lemma drop_value n v : drop (S (length n)) (n ++ EQ :: v) = v.
Proof. change (EQ :: v) with ([EQ] ++ v). rewrite app_assoc. apply drop_app_length'. rewrite length_app; cbn; lia. Qed.

(** *** Values of lists of strings *)

(** Entries of other names do not matter. *)
Lemma value_of_change n n' l l' :
  is_name n -> is_name n' -> n <> n' ->
  Forall2 (fun s s' => s = s' \/ (entry_of n s = true /\ entry_of n s' = true)) l l' ->
  value_of n' l = value_of n' l'.
Proof.
  intros H1 H2 Hne. induction 1 as [|s s' l l' Hs Hl IH]; [done|]. cbn.
  destruct Hs as [->|[Hs Hs']]; [by rewrite IH|].
  by rewrite (entry_unique n n' s), (entry_unique n n' s').
Qed.

Lemma value_of_app n l k :
  value_of n (l ++ k) = match value_of n l with Some v => Some v | None => value_of n k end.
Proof. induction l as [|s l IH]; [done|]. cbn. by destruct (assigns n s). Qed.

Lemma value_of_none n l : Forall (fun s => entry_of n s = false) l -> value_of n l = None.
Proof.
  induction 1 as [|s l Hs Hl IH]; [done|]. cbn.
  destruct (assigns n s) eqn:Ha; [|done]. apply assigns_entry in Ha. congruence.
Qed.

(** The first entry of the name decides. *)
Lemma value_of_first n l i v :
  l !! i = Some (n ++ EQ :: v) -> (forall j s, (j < i)%nat -> l !! j = Some s -> entry_of n s = false) ->
  value_of n l = Some v.
Proof.
  revert i. induction l as [|s l IH]; intros [|i] Hi Hb; simplify_eq/=.
  - by rewrite assigns_self, drop_value.
  - pose proof (Hb 0%nat s ltac:(lia) eq_refl) as Hs.
    destruct (assigns n s) eqn:Ha; [apply assigns_entry in Ha; congruence|].
    apply (IH i Hi). intros j s' Hj. apply (Hb (S j)). lia.
Qed.

(** *** The search *)

(** Index of the first string that passes the test. *)
Fixpoint find_ix (test : str -> bool) (l : list str) (i : nat) : option nat :=
  match l with [] => None | s :: l' => if test s then Some i else find_ix test l' (S i) end.

Lemma find_ix_Some test l i k :
  find_ix test l i = Some k ->
  exists j s, k = (i + j)%nat /\ l !! j = Some s /\ test s = true
    /\ forall j' s', (j' < j)%nat -> l !! j' = Some s' -> test s' = false.
Proof.
  revert i. induction l as [|s l IH]; intros i; cbn; [done|]. destruct (test s) eqn:Hs.
  - intros [= <-]. exists 0%nat, s. split_and!; [lia|done|done|]. intros; lia.
  - intros (j & s' & -> & H1 & H2 & H3)%IH. exists (S j), s'. split_and!; [lia|done|done|].
    intros [|j'] s2 Hj; cbn; [by intros [= <-]|]. apply H3. lia.
Qed.

Lemma find_ix_None test l i : find_ix test l i = None -> Forall (fun s => test s = false) l.
Proof.
  revert i. induction l as [|s l IH]; intros i; cbn; [constructor|].
  destruct (test s) eqn:Hs; [done|]. intros H. constructor; [done|by eapply IH].
Qed.

Lemma str_at_run p x s : str_of (mem s) p = Some x -> str_at p s = Done x s.
Proof. intros Hp. unfold str_at. erewrite run_bind by done. by rewrite Hp. Qed.

Lemma find_entry_run test ps l i s :
  mapM (str_of (mem s)) ps = Some l -> find_entry test ps i s = Done (find_ix test l i) s.
Proof.
  rewrite mapM_Some. intros Hl. revert i. induction Hl as [|p x ps l Hp Hl IH]; intros i; [done|].
  cbn [find_entry find_ix]. erewrite run_bind by (by apply str_at_run).
  destruct (test x); [done|]. apply IH.
Qed.

Lemma contents_environ s ps l : environ s = Some ps -> contents s = Some l -> mapM (str_of (mem s)) ps = Some l.
Proof. unfold contents. by intros ->. Qed.

(** [getenv] reads the abstract environment. *)
Definition ptr_string (s : env) (p : option (Z * nat)) : option str :=
  match p with
  | None => None
  | Some (b, off) => l ← mem s !! b; cstr (drop off l)
  end.

Lemma value_of_find n l i :
  value_of n l = match find_ix (assigns n) l i with
                 | Some k => drop (S (length n)) <$> l !! (k - i)%nat
                 | None => None
                 end.
Proof.
  revert i. induction l as [|s l IH]; intros i; cbn; [done|]. destruct (assigns n s) eqn:Hs.
  - by rewrite Nat.sub_diag.
  - rewrite (IH (S i)). destruct (find_ix _ l (S i)) as [k|] eqn:Hk; [|done].
    apply find_ix_Some in Hk as (j & ? & -> & _). by replace (S i + j - i)%nat with (S (S i + j - S i)) by lia.
Qed.

Lemma str_of_drop m b x n :
  str_of m b = Some x -> (n <= length x)%nat -> (l ← m !! b; cstr (drop n l)) = Some (drop n x).
Proof.
  unfold str_of. destruct (m !! b) as [l|]; cbn; [|done]. intros Hx Hn.
  apply cstr_split in Hx as (rest & -> & H0). rewrite drop_app_le by done.
  apply cstr_app. intros Hin. apply H0. rewrite <-(take_drop n x). apply elem_of_app. by right.
Qed.

Lemma getenv_run n s :
  env_ok s -> exists p, getenv (Some n) s = Done p s /\ ptr_string s p = env_lookup s n.
Proof.
  intros [[l Hl] _ _]. unfold getenv, env_lookup. rewrite Hl. change (default [] (Some l)) with l.
  erewrite run_bind by done. destruct (environ s) as [ps|] eqn:Hps.
  - pose proof (contents_environ _ _ _ Hps Hl) as Hm.
    erewrite run_bind by (by apply find_entry_run). rewrite (value_of_find n l 0).
    destruct (find_ix (assigns n) l 0) as [k|] eqn:Hk; [|by exists None].
    apply find_ix_Some in Hk as (j & x & -> & Hj & Hx & _). cbn [Nat.add].
    apply mapM_Some in Hm. destruct (Forall2_lookup_r _ _ _ _ _ Hm Hj) as (p & Hp & Hstr).
    exists (Some (p, S (length n))). rewrite Hp. split; [done|].
    rewrite Nat.sub_0_r, Hj. cbn. apply (str_of_drop _ _ x); [done|].
    apply assigns_spec in Hx as [v ->]. rewrite length_app. cbn. lia.
  - unfold contents in Hl. rewrite Hps in Hl. injection Hl as <-. by exists None.
Qed.

(** *** Updates *)

Definition points (m : gmap Z (list Z)) (p : Z) (x : str) : Prop := str_of m p = Some x.

Lemma contents_points s l :
  contents s = Some l <-> Forall2 (points (mem s)) (default [] (environ s)) l.
Proof. unfold contents. by rewrite mapM_Some. Qed.

Lemma points_new s bytes p x :
  env_ok s -> points (mem s) p x -> points (mem (new_object bytes s)) p x.
Proof.
  intros [_ Hn _] Hp. unfold points, str_of in *. cbn. rewrite lookup_insert_ne; [done|].
  intros <-. destruct (mem s !! next s) as [y|] eqn:Hy; [|done]. apply Hn in Hy. lia.
Qed.

Lemma new_next bytes s :
  0 <= next s -> map_Forall (fun b _ => 0 <= b < next s) (mem s) ->
  map_Forall (fun b _ => 0 <= b < next (new_object bytes s)) (mem (new_object bytes s)).
Proof.
  intros H0 Hn. cbn. apply map_Forall_insert_2; [lia|].
  intros b l Hb. apply Hn in Hb. lia.
Qed.

Lemma environ_set l s : environ (set_environ l s) = Some l.
Proof. unfold set_environ, environ. by destruct (own_environ s). Qed.

Lemma mem_set l s : mem (set_environ l s) = mem s.
Proof. unfold set_environ. by destruct (own_environ s). Qed.

Lemma next_set l s : next (set_environ l s) = next s.
Proof. unfold set_environ. by destruct (own_environ s). Qed.

(** The bytes [memcpy] builds are the string "name=val". *)
Lemma entry_cstr n v rest : 0 ∉ n -> 0 ∉ v -> cstr (n ++ [EQ] ++ v ++ 0 :: rest) = Some (n ++ EQ :: v).
Proof.
  intros Hn Hv. change (n ++ [EQ] ++ v ++ 0 :: rest) with (n ++ (EQ :: v) ++ 0 :: rest).
  rewrite app_assoc. apply cstr_app. rewrite elem_of_app, elem_of_cons. intros [?|[?|?]]; done.
Qed.

Lemma store_new_run n v i s ps :
  environ s = Some ps ->
  store_new true n v i s =
    Done () (set_environ (if (i <? length ps)%nat then <[i := next s]> ps else ps ++ [next s])
      (new_object (n ++ [EQ] ++ v ++ [0]) s)).
Proof.
  intros Hps. unfold store_new. erewrite run_bind by done. erewrite run_bind by done.
  erewrite run_bind by done. unfold store_entry. erewrite run_bind by done.
  change (environ (new_object (n ++ [EQ] ++ v ++ [0]) s)) with (environ s). rewrite Hps.
  by erewrite run_bind by done.
Qed.

(** A new string stored in the environment. *)
Lemma stored_ok s0 n v ps l :
  env_ok s0 ->
  Forall2 (points (mem (new_object (n ++ [EQ] ++ v ++ [0]) s0))) ps l ->
  let s' := set_environ ps (new_object (n ++ [EQ] ++ v ++ [0]) s0) in
  env_ok s' /\ contents s' = Some l.
Proof.
  intros [_ Hn H0] Hl s'.
  assert (Hc : contents s' = Some l).
  { apply contents_points. unfold s'. by rewrite environ_set, mem_set. }
  split; [|done]. split; [by exists l| |].
  - unfold s'. rewrite mem_set, next_set. by apply new_next.
  - unfold s'. rewrite next_set. cbn. lia.
Qed.

Lemma new_points n v s0 :
  0 ∉ n -> 0 ∉ v -> points (mem (new_object (n ++ [EQ] ++ v ++ [0]) s0)) (next s0) (n ++ EQ :: v).
Proof.
  intros. unfold points, str_of. cbn. rewrite lookup_insert_eq. cbn. by apply (entry_cstr n v []).
Qed.

(** The value written over an old one of at least its length. *)
Lemma overwrite_run p n v s bytes x :
  mem s !! p = Some bytes -> cstr bytes = Some (n ++ EQ :: x) -> (length v <= length x)%nat ->
  0 ∉ n -> 0 ∉ v ->
  exists bytes', overwrite_value p n v s = Done () (set_mem p bytes' s) /\ cstr bytes' = Some (n ++ EQ :: v).
Proof.
  intros Hp Hc Hlen Hn Hv. apply cstr_split in Hc as (rest & -> & _).
  set (bytes := (n ++ EQ :: x) ++ 0 :: rest) in *.
  exists (take (S (length n)) bytes ++ v ++ [0] ++ drop (S (length n) + length v + 1) bytes). split.
  - unfold overwrite_value. erewrite run_bind by done. rewrite Hp. erewrite run_bind by done.
    rewrite (proj2 (Nat.ltb_ge _ _)); [done|].
    unfold bytes. rewrite !length_app. cbn. lia.
  - replace (take (S (length n)) bytes) with (n ++ [EQ]).
    + rewrite <-app_assoc. by apply (entry_cstr n v).
    + unfold bytes. rewrite <-app_assoc. change (n ++ (EQ :: x) ++ 0 :: rest) with (n ++ [EQ] ++ x ++ 0 :: rest).
      rewrite app_assoc, take_app_length'; [done|]. rewrite length_app. cbn. lia.
Qed.

(** The entries after an object changed. *)
Lemma points_set_mem s p bytes x ps l :
  cstr bytes = Some x -> Forall2 (points (mem s)) ps l ->
  Forall2 (points (mem (set_mem p bytes s))) ps
    (zip_with (fun q y => if decide (q = p) then x else y) ps l).
Proof.
  intros Hx. induction 1 as [|q y ps l Hq Hl IH]; constructor; [|done].
  unfold points, str_of in *. cbn. case_decide as Hd.
  - subst. by rewrite lookup_insert_eq.
  - by rewrite lookup_insert_ne.
Qed.

(** *** setenv *)

Definition same_entry (n s s' : str) : Prop := s = s' \/ (entry_of n s = true /\ entry_of n s' = true).

Lemma same_entry_insert n l i x y :
  l !! i = Some x -> entry_of n x = true -> entry_of n y = true ->
  Forall2 (same_entry n) l (<[i := y]> l).
Proof.
  intros Hi Hx Hy. rewrite <-(list_insert_id l i x) at 1 by done.
  apply Forall2_insert; [apply Forall_Forall2_diag, Forall_true; by left|by right].
Qed.

(** The list [l'] is [l] with the value of [n] set to [v]. *)
Definition sets_value (n v : str) (l l' : list str) : Prop :=
  value_of n l' = Some v /\ forall n', is_name n' -> n' <> n -> value_of n' l' = value_of n' l.

Lemma entry_self n v : entry_of n (n ++ EQ :: v) = true.
Proof. apply assigns_entry, assigns_self. Qed.

Lemma sets_at n v l l' i :
  is_name n -> l' !! i = Some (n ++ EQ :: v) ->
  (forall j s, (j < i)%nat -> l' !! j = Some s -> entry_of n s = false) ->
  Forall2 (same_entry n) l l' -> sets_value n v l l'.
Proof.
  intros Hn Hi Hb Hs. split; [by eapply value_of_first|].
  intros n' Hn' Hne. symmetry. by apply (value_of_change n).
Qed.

Lemma sets_app n v l :
  is_name n -> Forall (fun s => entry_of n s = false) l -> sets_value n v l (l ++ [n ++ EQ :: v]).
Proof.
  intros Hn Hl. split.
  - rewrite value_of_app, value_of_none by done. cbn. by rewrite assigns_self, drop_value.
  - intros n' Hn' Hne. rewrite value_of_app. destruct (value_of n' l); [done|].
    cbn. by rewrite (entry_unique n n') by (done || apply entry_self).
Qed.

(** A new string in the place of the first entry. *)
Lemma setenv_replace n v s l ps i x :
  env_ok s -> is_name n -> 0 ∉ v -> environ s = Some ps -> contents s = Some l ->
  l !! i = Some x -> entry_of n x = true ->
  (forall j y, (j < i)%nat -> l !! j = Some y -> entry_of n y = false) ->
  exists s' l', store_new true n v i s = Done () s' /\ (env_ok s' /\ contents s' = Some l') /\ sets_value n v l l'.
Proof.
  intros Hok Hn Hv Hps Hl Hi Hx Hb. pose proof Hl as Hl2. apply contents_points in Hl2. rewrite Hps in Hl2.
  pose proof (Forall2_length _ _ _ Hl2) as Hlen. pose proof (lookup_lt_Some _ _ _ Hi) as Hlt.
  rewrite (store_new_run n v i s ps Hps). cbn in Hlen. rewrite (proj2 (Nat.ltb_lt _ _)) by lia.
  eexists _, _. split; [done|]. split.
  - apply stored_ok; [done|]. apply Forall2_insert; [|apply new_points; [apply Hn|done]].
    eapply Forall2_impl; [exact Hl2|]. intros. by apply points_new.
  - apply (sets_at n v l _ i); [done|by apply list_lookup_insert_eq| |].
    + intros j y Hj. rewrite list_lookup_insert_ne by lia. by apply Hb.
    + eapply same_entry_insert; [done..|]. apply entry_self.
Qed.

(** A new entry at the end. *)
Lemma setenv_append n v s l ps s1 :
  env_ok s -> is_name n -> 0 ∉ v -> default [] (environ s) = ps -> contents s = Some l ->
  Forall (fun s => entry_of n s = false) l ->
  grow_environ true ps s = Done () s1 ->
  exists s' l', store_new true n v (length ps) s1 = Done () s' /\ (env_ok s' /\ contents s' = Some l')
    /\ sets_value n v l l'.
Proof.
  intros Hok Hn Hv Hps Hl Hall Hg. apply contents_points in Hl as Hl2. rewrite Hps in Hl2.
  unfold grow_environ in Hg. erewrite run_bind in Hg by done. erewrite run_bind in Hg by done.
  injection Hg as <-.
  set (ps1 := match own_environ s with None => ps ++ [UNINIT] | Some _ => ps end).
  assert (Hrun : store_new true n v (length ps) (set_own ps1 s) =
    Done () (set_environ (ps ++ [next s]) (new_object (n ++ [EQ] ++ v ++ [0]) (set_own ps1 s)))).
  { rewrite (store_new_run n v _ _ ps1) by done. f_equal. f_equal. unfold ps1.
    destruct (own_environ s); [by rewrite Nat.ltb_irrefl|].
    rewrite (proj2 (Nat.ltb_lt _ _)) by (rewrite length_app; cbn; lia).
    change (next (set_own (ps ++ [UNINIT]) s)) with (next s).
    by rewrite insert_app_r_alt, Nat.sub_diag by lia. }
  rewrite Hrun. eexists _, (l ++ [n ++ EQ :: v]). split; [done|]. split.
  - assert (Hp : Forall2 (points (mem (new_object (n ++ [EQ] ++ v ++ [0]) s))) (ps ++ [next s]) (l ++ [n ++ EQ :: v])).
    { apply Forall2_app; [|constructor; [apply new_points; [apply Hn|done]|constructor]].
      eapply Forall2_impl; [exact Hl2|]. intros. by apply points_new. }
    destruct (stored_ok s n v (ps ++ [next s]) (l ++ [n ++ EQ :: v]) Hok Hp) as [[_ H2 H3] _].
    rewrite mem_set, next_set in H2. rewrite next_set in H3.
    assert (Hc : contents (set_environ (ps ++ [next s]) (new_object (n ++ [EQ] ++ v ++ [0]) (set_own ps1 s)))
      = Some (l ++ [n ++ EQ :: v])).
    { apply contents_points. rewrite environ_set, mem_set. exact Hp. }
    split; [|done]. split; [by eexists| |]; by rewrite ?mem_set, ?next_set.
  - by apply sets_app.
Qed.

(** The old string overwritten in place, in every entry that points to it. *)
Lemma setenv_in_place n v s ps l i p w :
  env_ok s -> is_name n -> 0 ∉ v -> environ s = Some ps -> contents s = Some l ->
  ps !! i = Some p -> l !! i = Some (n ++ EQ :: w) -> (length v <= length w)%nat ->
  (forall j y, (j < i)%nat -> l !! j = Some y -> entry_of n y = false) ->
  exists s' l', overwrite_value p n v s = Done () s' /\ (env_ok s' /\ contents s' = Some l') /\ sets_value n v l l'.
Proof.
  intros Hok Hn Hv Hps Hl Hp Hi Hlen Hb. pose proof Hl as Hl2. apply contents_points in Hl2.
  rewrite Hps in Hl2. cbn in Hl2.
  pose proof (Forall2_lookup_lr _ _ _ _ _ _ Hl2 Hp Hi) as Hpt. unfold points, str_of in Hpt.
  destruct (mem s !! p) as [bytes|] eqn:Hbytes; [|done]. cbn in Hpt.
  destruct (overwrite_run p n v s bytes w Hbytes Hpt Hlen) as (bytes' & Hrun & Hc); [apply Hn|done|].
  set (l' := zip_with (fun q y => if decide (q = p) then n ++ EQ :: v else y) ps l).
  assert (Hzip : forall j y, l' !! j = Some y -> exists q z, ps !! j = Some q /\ l !! j = Some z
    /\ y = if decide (q = p) then n ++ EQ :: v else z).
  { intros j y (q & z & -> & ? & ?)%lookup_zip_with_Some. by exists q, z. }
  assert (Hpx : forall j z, ps !! j = Some p -> l !! j = Some z -> z = n ++ EQ :: w).
  { intros j z Hj Hz. pose proof (Forall2_lookup_lr _ _ _ _ _ _ Hl2 Hj Hz) as Hpz.
    unfold points, str_of in Hpz. rewrite Hbytes in Hpz. cbn in Hpz. congruence. }
  pose proof (points_set_mem s p bytes' (n ++ EQ :: v) ps l Hc Hl2) as Hnew.
  eexists _, l'. split; [exact Hrun|]. split; [split|].
  - destruct Hok as [H1 H2 H3]. split; [|  |done].
    + exists l'. by apply contents_points; change (environ (set_mem p bytes' s)) with (environ s); rewrite Hps.
    + cbn. apply map_Forall_insert_2; [by eapply H2|done].
  - by apply contents_points; change (environ (set_mem p bytes' s)) with (environ s); rewrite Hps.
  - apply (sets_at n v l l' i); [done| | |].
    + unfold l'. rewrite lookup_zip_with, Hp. cbn. rewrite Hi. cbn. by rewrite decide_True.
    + intros j y Hj (q & z & Hq & Hz & ->)%Hzip. case_decide; [|by eapply Hb]. subst q.
      pose proof (Hb j z Hj Hz) as Hf. rewrite (Hpx j z Hq Hz), entry_self in Hf. done.
    + apply Forall2_same_length_lookup. split.
      * unfold l'. rewrite length_zip_with_l_eq; [by apply Forall2_length in Hl2|by apply Forall2_length in Hl2].
      * intros j y y' Hy (q & z & Hq & Hz & ->)%Hzip. simplify_eq. case_decide; [|by left].
        subst q. right. rewrite (Hpx j _ Hq Hy). split; apply entry_self.
Qed.

Lemma find_env_run test env l s :
  environ s = env -> contents s = Some l ->
  (match env with None => mret None | Some ps => find_entry test ps 0 end) s = Done (find_ix test l 0) s.
Proof.
  intros He Hl. destruct env as [ps|].
  - apply find_entry_run. by apply contents_environ.
  - unfold contents in Hl. rewrite He in Hl. injection Hl as <-. done.
Qed.

(** Whether an entry belongs to the name, with or without a value. *)
Definition has_entry (n : str) (l : list str) : bool :=
  match find_ix (entry_of n) l 0 with Some _ => true | None => false end.

Lemma strip_eq_nul v : 0 ∉ v -> 0 ∉ strip_eq v.
Proof.
  destruct v as [|c v]; [done|]. cbn. destruct (c =? EQ); [|done].
  by intros [_ ?]%not_elem_of_cons.
Qed.

Lemma name_checks n : is_name n -> bool_decide (n = []) || has_eq n = false.
Proof.
  intros (H1 & H2 & _). rewrite bool_decide_false by done. cbn. apply not_true_is_false.
  unfold has_eq. intros (c & Hc & Heq)%existsb_exists. apply Z.eqb_eq in Heq as ->.
  by apply H2, list_elem_of_In.
Qed.

Lemma setenv_ok n envval o s l :
  env_ok s -> is_name n -> 0 ∉ envval -> contents s = Some l ->
  exists s' l', setenv true true (Some n) envval o s = Done 0 s' /\ (env_ok s' /\ contents s' = Some l')
    /\ if negb o && has_entry n l then l' = l else sets_value n (strip_eq envval) l l'.
Proof.
  intros Hok Hn H0 Hl. apply strip_eq_nul in H0 as Hv. unfold setenv. rewrite (name_checks n Hn).
  set (s0 := clear_tz s). erewrite run_bind by done.
  assert (Hok0 : env_ok s0) by (by destruct Hok).
  assert (Hl0 : contents s0 = Some l) by done.
  erewrite run_bind by done. erewrite run_bind by (by apply find_env_run).
  unfold has_entry. destruct (find_ix (entry_of n) l 0) as [k|] eqn:Hk.
  - apply find_ix_Some in Hk as (i & x & -> & Hi & Hx & Hb). cbn [Nat.add andb negb].
    destruct o; cbn [negb]; [|by exists s0, l].
    destruct (environ s0) as [ps|] eqn:Hps; [|unfold contents in Hl0; rewrite Hps in Hl0; injection Hl0 as <-; done].
    pose proof (proj1 (contents_points s0 l) Hl0) as Hl2. rewrite Hps in Hl2. cbn in Hl2.
    destruct (Forall2_lookup_r _ _ _ _ _ Hl2 Hi) as (p & Hp & Hpt).
    assert (Hd : deref (environ s0 ≫= (.!! i)) s0 = Done p s0) by (rewrite Hps; cbn; by rewrite Hp).
    rewrite (run_bind _ _ _ _ _ Hd). erewrite run_bind by (by apply str_at_run).
    destruct (_ && _) eqn:Hc.
    + apply andb_true_iff in Hc as [Hc Hlen]. apply bool_decide_eq_true in Hc.
      apply Nat.leb_le in Hlen. apply entry_of_spec in Hx as [->|[w ->]].
      { by rewrite lookup_ge_None_2 in Hc. }
      rewrite drop_value in Hlen.
      destruct (setenv_in_place n (strip_eq envval) s0 ps l i p w) as (s' & l' & Hrun & H1 & H2); [done..|].
      exists s', l'. by erewrite run_bind by done.
    + destruct (setenv_replace n (strip_eq envval) s0 l ps i x) as (s' & l' & Hrun & H1 & H2); [done..|].
      exists s', l'. by erewrite run_bind by done.
  - rewrite andb_false_r. apply find_ix_None in Hk.
    destruct (setenv_append n (strip_eq envval) s0 l (default [] (environ s0)) _ Hok0 Hn Hv eq_refl Hl0 Hk eq_refl)
      as (s' & l' & Hrun & H1 & H2).
    exists s', l'. split; [|done]. erewrite run_bind by done. by erewrite run_bind by done.
Qed.

(** *** unsetenv *)

Definition remove_entries (n : str) (l : list str) : list str := filter (fun s => entry_of n s = false) l.

Lemma remove_none n l : Forall (fun s => entry_of n s = false) l -> remove_entries n l = l.
Proof.
  induction 1 as [|s l Hs Hl IH]; [done|]. unfold remove_entries in *.
  rewrite filter_cons_True by done. by rewrite IH.
Qed.

Lemma remove_value n l : value_of n (remove_entries n l) = None.
Proof.
  apply value_of_none, Forall_forall. unfold remove_entries. by intros s [? _]%list_elem_of_filter.
Qed.

Lemma remove_other n n' l :
  is_name n -> is_name n' -> n' <> n -> value_of n' (remove_entries n l) = value_of n' l.
Proof.
  intros Hn Hn' Hne. induction l as [|s l IH]; [done|]. unfold remove_entries in *.
  destruct (entry_of n s) eqn:Hs.
  - rewrite filter_cons_False by congruence. cbn. by rewrite (entry_unique n n' s).
  - rewrite filter_cons_True by done. cbn. by rewrite IH.
Qed.

Lemma env_ok_same s s' :
  env_ok s -> mem s' = mem s -> next s' = next s -> is_Some (contents s') -> env_ok s'.
Proof. intros [H1 H2 H3] Hm Hn Hc. split; by rewrite ?Hm, ?Hn. Qed.

Lemma unset_loop_run n fuel : forall i s ps l,
  env_ok s -> environ s = Some ps -> contents s = Some l -> (length ps < fuel + i)%nat -> (i <= length ps)%nat ->
  (forall j y, (j < i)%nat -> l !! j = Some y -> entry_of n y = false) ->
  exists s', unset_loop fuel n i s = Done () s' /\ (env_ok s' /\ contents s' = Some (remove_entries n l))
    /\ mem s' = mem s.
Proof.
  induction fuel as [|fuel IH]; intros i s ps l Hok Hps Hl Hf Hi Hb; [lia|].
  pose proof (proj1 (contents_points s l) Hl) as Hl2. rewrite Hps in Hl2. cbn in Hl2.
  pose proof (Forall2_length _ _ _ Hl2) as Hlen. cbn [unset_loop].
  erewrite run_bind by done. rewrite Hps. erewrite run_bind by done.
  destruct (ps !! i) as [p|] eqn:Hp.
  - destruct (Forall2_lookup_l _ _ _ _ _ Hl2 Hp) as (x & Hx & Hpt).
    pose proof (lookup_lt_Some _ _ _ Hp) as Hlt.
    erewrite run_bind by (by apply str_at_run). destruct (entry_of n x) eqn:He.
    + erewrite run_bind by done. erewrite run_bind by done.
      set (ps' := take i ps ++ drop (S i) ps). set (l' := take i l ++ drop (S i) l).
      set (s1 := clear_tz (set_environ ps' s)).
      assert (Hps1 : environ s1 = Some ps') by apply environ_set.
      assert (Hm1 : mem s1 = mem s) by apply mem_set.
      assert (Hl1 : contents s1 = Some l').
      { apply contents_points. rewrite Hps1, Hm1. by apply Forall2_app; [apply Forall2_take|apply Forall2_drop]. }
      destruct (IH i s1 ps' l') as (s' & H1 & H2 & H3); [|done|done|..].
      * apply (env_ok_same s); [done|done|apply next_set|by rewrite Hl1].
      * unfold ps'. rewrite length_app, length_take, length_drop. lia.
      * unfold ps'. rewrite length_app, length_take, length_drop. lia.
      * intros j y Hj. unfold l'. rewrite lookup_app_l by (rewrite length_take; lia).
        rewrite lookup_take_lt by done. by apply Hb.
      * exists s'. split; [done|]. rewrite H3, Hm1. split; [|done].
        replace (remove_entries n l) with (remove_entries n l'); [done|].
        rewrite <-(take_drop_middle l i x Hx). unfold l', remove_entries.
        by rewrite !filter_app, filter_cons_False by congruence.
    + destruct (IH (S i) s ps l) as (s' & H1 & H2 & H3); [done|done|done|lia|lia| |by exists s'].
      intros j y Hj Hy. destruct (decide (j = i)) as [->|]; [congruence|]. apply (Hb j y); [lia|done].
  - exists s. apply lookup_ge_None in Hp. split; [done|]. split; [|done]. split; [done|].
    rewrite Hl, remove_none; [done|]. apply Forall_lookup. intros j y Hy.
    apply (Hb j y); [|done]. apply lookup_lt_Some in Hy. lia.
Qed.

(** What [getenv] returns is the abstract value. *)
Definition reads (s : env) (n : str) (v : option str) : Prop :=
  exists p, getenv (Some n) s = Done p s /\ ptr_string s p = v.

Lemma reads_value s n l : env_ok s -> contents s = Some l -> reads s n (value_of n l).
Proof.
  intros Hok Hl. destruct (getenv_run n s Hok) as (p & H1 & H2). exists p. split; [done|].
  rewrite H2. unfold env_lookup. by rewrite Hl.
Qed.

Lemma reads_value_of s n v : env_ok s -> reads s n v -> forall l, contents s = Some l -> v = value_of n l.
Proof.
  intros Hok (p & H1 & <-) l Hl. destruct (getenv_run n s Hok) as (p' & H2 & H3).
  replace p with p' by congruence. rewrite H3. unfold env_lookup. by rewrite Hl.
Qed.

(** *** putenv *)

(** The first entry of [n] is the object [b], which assigns [v] to it. *)
Definition first_at (s : env) (n : str) (b : Z) (v : str) : Prop :=
  exists ps l i, environ s = Some ps /\ contents s = Some l /\ ps !! i = Some b
    /\ l !! i = Some (n ++ EQ :: v)
    /\ forall j y, (j < i)%nat -> l !! j = Some y -> entry_of n y = false.

Lemma getenv_first n v s b :
  first_at s n b v -> getenv (Some n) s = Done (Some (b, S (length n))) s.
Proof.
  intros (ps & l & i & Hps & Hl & Hb & Hi & Hbefore). unfold getenv. erewrite run_bind by done. rewrite Hps.
  erewrite run_bind by (apply find_entry_run; by eapply contents_environ).
  assert (Hf : find_ix (assigns n) l 0 = Some i); [|by rewrite Hf, Hb].
  clear Hps Hl Hb. change (Some i) with (Some (0 + i)%nat). generalize 0%nat as k. revert i Hi Hbefore.
  induction l as [|y l IH]; intros [|i] Hi Hbefore k; simplify_eq/=.
  - by rewrite assigns_self, Nat.add_0_r.
  - pose proof (Hbefore 0%nat y ltac:(lia) eq_refl) as Hy.
    destruct (assigns n y) eqn:Ha; [apply assigns_entry in Ha; congruence|].
    rewrite Nat.add_succ_r, <-Nat.add_succ_l. apply IH; [done|].
    intros j y' Hj. apply (Hbefore (S j)). lia.
Qed.

Lemma first_reads s n b v : env_ok s -> first_at s n b v -> reads s n (Some v).
Proof.
  intros Hok (ps & l & i & Hps & Hl & Hb & Hi & Hbefore).
  rewrite <-(value_of_first n l i v Hi Hbefore). by apply reads_value.
Qed.

(** An object rewritten behind the library's back. *)
Lemma first_rewritten s n b v w bytes :
  env_ok s -> first_at s n b v -> cstr bytes = Some (n ++ EQ :: w) ->
  env_ok (set_mem b bytes s) /\ first_at (set_mem b bytes s) n b w.
Proof.
  intros Hok (ps & l & i & Hps & Hl & Hb & Hi & Hbefore) Hw.
  pose proof (proj1 (contents_points s l) Hl) as Hl2. rewrite Hps in Hl2. cbn in Hl2.
  pose proof (points_set_mem s b bytes _ ps l Hw Hl2) as Hnew.
  set (l' := zip_with (fun q y => if decide (q = b) then n ++ EQ :: w else y) ps l) in *.
  assert (Hl' : contents (set_mem b bytes s) = Some l').
  { apply contents_points. change (environ (set_mem b bytes s)) with (environ s). by rewrite Hps. }
  pose proof (Forall2_lookup_lr _ _ _ _ _ _ Hl2 Hb Hi) as Hbp. split.
  - destruct Hok as [_ H2 H3]. split; [by exists l'| |done]. cbn.
    apply map_Forall_insert_2; [|done]. unfold points, str_of in Hbp.
    destruct (mem s !! b) as [y|] eqn:Hy; [by eapply H2|done].
  - exists ps, l', i. split_and!; [done|done|done| |].
    + unfold l'. rewrite lookup_zip_with, Hb. cbn. rewrite Hi. cbn. by rewrite decide_True.
    + intros j y Hj (q & z & -> & Hq & Hz)%lookup_zip_with_Some. case_decide; [|by eapply Hbefore].
      subst q. pose proof (Forall2_lookup_lr _ _ _ _ _ _ Hl2 Hq Hz) as Hzp.
      unfold points in *. pose proof (Hbefore j z Hj Hz) as Hf.
      replace z with (n ++ EQ :: v) in Hf by congruence. by rewrite entry_self in Hf.
Qed.

Lemma before_eq_app n v : EQ ∉ n -> before_eq (n ++ EQ :: v) = n.
Proof.
  induction n as [|c n IH]; intros Hn; [done|]. apply not_elem_of_cons in Hn as [Hc Hn]. cbn.
  rewrite (proj2 (Z.eqb_neq c EQ)) by congruence. by rewrite IH.
Qed.

Lemma has_eq_app n v : has_eq (n ++ EQ :: v) = true.
Proof. unfold has_eq. rewrite existsb_app. cbn. by rewrite orb_true_r. Qed.

Lemma store_entry_run i p s ps :
  environ s = Some ps ->
  store_entry i p s = Done () (set_environ (if (i <? length ps)%nat then <[i := p]> ps else ps ++ [p]) s).
Proof. intros Hps. unfold store_entry. erewrite run_bind by done. by rewrite Hps. Qed.

(** What [putenv] stores is the caller's pointer. *)
Lemma put_post n v b s s' ps ps' l l' i :
  env_ok s -> is_name n -> environ s = Some ps -> contents s = Some l ->
  mem s' = mem s -> next s' = next s -> environ s' = Some ps' ->
  Forall2 (points (mem s)) ps' l' -> ps' !! i = Some b -> l' !! i = Some (n ++ EQ :: v) ->
  (forall j y, (j < i)%nat -> l' !! j = Some y -> entry_of n y = false) ->
  env_ok s' /\ contents s' = Some l' /\ first_at s' n b v.
Proof.
  intros Hok Hn Hps Hl Hm Hnx Hps' Hpts Hi Hl' Hb.
  assert (Hc : contents s' = Some l') by (apply contents_points; by rewrite Hps', Hm).
  split_and!; [|done|by exists ps', l', i].
  apply (env_ok_same s); [done..|by rewrite Hc].
Qed.

Lemma putenv_ok fuel n v b s ps l :
  env_ok s -> is_name n -> environ s = Some ps -> contents s = Some l ->
  points (mem s) b (n ++ EQ :: v) ->
  exists s' l', putenv true fuel (Some b) s = Done 0 s'
    /\ (env_ok s' /\ contents s' = Some l' /\ first_at s' n b v)
    /\ sets_value n v l l' /\ mem s' = mem s.
Proof.
  intros Hok Hn Hps Hl Hb. pose proof (proj1 (contents_points s l) Hl) as Hl2.
  rewrite Hps in Hl2. cbn in Hl2. pose proof (Forall2_length _ _ _ Hl2) as Hlen.
  unfold putenv. erewrite run_bind by (by apply str_at_run). rewrite has_eq_app. cbn [negb].
  rewrite before_eq_app by apply Hn. erewrite run_bind by done. rewrite Hps.
  erewrite run_bind by (by apply find_entry_run, contents_environ).
  destruct (find_ix (entry_of n) l 0) as [k|] eqn:Hk.
  - apply find_ix_Some in Hk as (i & x & -> & Hi & Hx & Hbefore). cbn [Nat.add].
    pose proof (lookup_lt_Some _ _ _ Hi) as Hlt.
    erewrite run_bind by (by apply store_entry_run). rewrite (proj2 (Nat.ltb_lt _ _)) by lia.
    erewrite run_bind by done. eexists _, (<[i := n ++ EQ :: v]> l). split; [done|].
    assert (Hbef : forall j y, (j < i)%nat -> <[i := n ++ EQ :: v]> l !! j = Some y -> entry_of n y = false).
    { intros j y Hj. rewrite list_lookup_insert_ne by lia. by apply Hbefore. }
    split; [eapply (put_post n v b s _ ps (<[i := b]> ps) l _ i)|split]; try done.
    + apply mem_set.
    + apply next_set.
    + apply environ_set.
    + by apply Forall2_insert.
    + apply list_lookup_insert_eq. lia.
    + by apply list_lookup_insert_eq.
    + apply (sets_at n v l _ i); [done|by apply list_lookup_insert_eq|done|].
      eapply same_entry_insert; [done..|]. apply entry_self.
    + apply mem_set.
  - apply find_ix_None in Hk. cbn [default from_option id].
    assert (Hrun : (_ ← grow_environ true ps; store_entry (length ps) b) s =
      Done () (set_environ (ps ++ [b]) (set_own (match own_environ s with None => ps ++ [UNINIT] | Some _ => ps end) s))).
    { unfold grow_environ. erewrite run_bind by (erewrite run_bind by done; by erewrite run_bind by done).
      erewrite store_entry_run by done. f_equal. f_equal. destruct (own_environ s).
      - by rewrite Nat.ltb_irrefl.
      - rewrite (proj2 (Nat.ltb_lt _ _)) by (rewrite length_app; cbn; lia).
        by rewrite insert_app_r_alt, Nat.sub_diag by lia. }
    rewrite (run_bind _ _ _ _ _ Hrun). erewrite run_bind by done.
    eexists _, (l ++ [n ++ EQ :: v]). split; [done|].
    split; [eapply (put_post n v b s _ ps (ps ++ [b]) l _ (length ps))|split]; try done.
    + by apply Forall2_app; [|repeat constructor].
    + by rewrite list_lookup_middle.
    + by rewrite Hlen, list_lookup_middle.
    + intros j y Hj. rewrite lookup_app_l by lia. intros Hy. by apply (Forall_lookup_1 _ _ _ _ Hk Hy).
    + by apply sets_app.
Qed.

(** ** Properties *)

(** C25: [setenv] with [overwrite], when memory is available, makes [getenv]
    return the new value, whether the variable is new, is replaced, or is
    overwritten inside its old string, and changes no other variable; the first
    ['='] of the value is skipped. *)
Theorem getenv_after_setenv n v s :
  env_ok s -> is_name n -> 0 ∉ v ->
  exists s', setenv true true (Some n) v true s = Done 0 s' /\ env_ok s'
    /\ reads s' n (Some (strip_eq v))
    /\ forall n' x, is_name n' -> n' <> n -> reads s n' x -> reads s' n' x.
Proof.
  intros Hok Hn Hv. destruct (ok_contents _ Hok) as [l Hl].
  destruct (setenv_ok n v true s l Hok Hn Hv Hl) as (s' & l' & Hrun & (Hok' & Hl') & H1 & H2).
  exists s'. split_and!; [done|done| |].
  - rewrite <-H1. by apply reads_value.
  - intros n' x Hn' Hne Hx. rewrite (reads_value_of s n' x Hok Hx l Hl), <-(H2 n') by done.
    by apply reads_value.
Qed.

(** PATH=/bin, HOME=/u as the startup code leaves them. *)
Definition PATH : str := [80; 65; 84; 72].
Definition HOME : str := [72; 79; 77; 69].
Definition demo_env : env :=
  mk_env (<[1 := HOME ++ [61; 47; 117; 0]]> {[0 := PATH ++ [61; 47; 98; 105; 110; 0]]}) 2 (Some [0; 1]) None 1.

Lemma is_name_dec n : bool_decide (n <> [] /\ EQ ∉ n /\ 0 ∉ n) = true -> is_name n.
Proof. apply bool_decide_eq_true. Qed.

Lemma demo_env_ok : env_ok demo_env.
Proof.
  split; [by eexists| |done].
  apply map_Forall_insert_2; [by cbn|]. intros b l [<- <-]%lookup_singleton_Some. by cbn.
Qed.

Lemma getenv_after_setenv_witness :
  exists s', setenv true true (Some PATH) [47] true demo_env = Done 0 s' /\ reads s' PATH (Some [47])
    /\ reads s' HOME (Some [47; 117]).
Proof.
  destruct (getenv_after_setenv PATH [47] demo_env) as (s' & H1 & _ & H2 & H3);
    [apply demo_env_ok|by apply is_name_dec|by apply (bool_decide_eq_true (0 ∉ [47]))|].
  exists s'. split_and!; [exact H1|exact H2|]. apply H3; [by apply is_name_dec|done|].
  by exists (Some (1, 5%nat)).
Defined.

(** C39: [unsetenv] removes every entry of the variable, ends, and leaves all
    other variables and all strings as they are. *)
Theorem unsetenv_removes fuel n s ps :
  env_ok s -> is_name n -> environ s = Some ps -> (length ps < fuel)%nat ->
  exists s', unsetenv fuel (Some n) s = Done 0 s' /\ env_ok s' /\ reads s' n None /\ mem s' = mem s
    /\ forall n' x, is_name n' -> n' <> n -> reads s n' x -> reads s' n' x.
Proof.
  intros Hok Hn Hps Hf. destruct (ok_contents _ Hok) as [l Hl].
  destruct (unset_loop_run n fuel 0 s ps l) as (s' & Hrun & (Hok' & Hl') & Hm);
    [done|done|done|lia|lia|intros; lia|].
  exists s'. split_and!; [|done| |done|].
  - unfold unsetenv. rewrite (name_checks n Hn). by erewrite run_bind by done.
  - rewrite <-(remove_value n l). by apply reads_value.
  - intros n' x Hn' Hne Hx. rewrite (reads_value_of s n' x Hok Hx l Hl), <-(remove_other n n') by done.
    by apply reads_value.
Qed.

Lemma unsetenv_removes_witness :
  exists s', unsetenv 3 (Some PATH) demo_env = Done 0 s' /\ reads s' PATH None.
Proof.
  destruct (unsetenv_removes 3 PATH demo_env [0; 1]) as (s' & H1 & _ & H2 & _);
    [apply demo_env_ok|by apply is_name_dec|done|cbn; lia|]. by exists s'.
Defined.

(** [putenv] makes the caller's object part of the environment: [getenv]
    returns a pointer into it, other variables keep their values, and what the
    caller later writes there as "name=value" is what [getenv] then reads. *)
Theorem putenv_aliases fuel n v b s ps :
  env_ok s -> is_name n -> environ s = Some ps -> points (mem s) b (n ++ EQ :: v) ->
  exists s', putenv true fuel (Some b) s = Done 0 s' /\ env_ok s'
    /\ getenv (Some n) s' = Done (Some (b, S (length n))) s' /\ reads s' n (Some v)
    /\ (forall n' x, is_name n' -> n' <> n -> reads s n' x -> reads s' n' x)
    /\ forall bytes w, cstr bytes = Some (n ++ EQ :: w) -> reads (set_mem b bytes s') n (Some w).
Proof.
  intros Hok Hn Hps Hb. destruct (ok_contents _ Hok) as [l Hl].
  destruct (putenv_ok fuel n v b s ps l Hok Hn Hps Hl Hb)
    as (s' & l' & Hrun & (Hok' & Hl' & Hfirst) & (H1 & H2) & Hm).
  exists s'. split_and!; [done|done|by eapply getenv_first|by eapply first_reads| |].
  - intros n' x Hn' Hne Hx. rewrite (reads_value_of s n' x Hok Hx l Hl), <-(H2 n') by done.
    by apply reads_value.
  - intros bytes w Hw. destruct (first_rewritten s' n b v w bytes Hok' Hfirst Hw).
    by eapply first_reads.
Qed.

(** The caller's object 7 holds "TZ=1" and later "TZ=2". *)
Definition TZ : str := [84; 90].
Definition demo_put : env := mk_env (<[7 := TZ ++ [61; 49; 0]]> (mem demo_env)) 8 (Some [0; 1]) None 1.

Lemma demo_put_ok : env_ok demo_put.
Proof.
  split; [by eexists| |done].
  apply map_Forall_insert_2; [by cbn|]. intros b l Hb.
  pose proof (ok_next _ demo_env_ok b l Hb). cbn in *. lia.
Qed.

Lemma putenv_aliases_witness :
  exists s', putenv true 9 (Some 7) demo_put = Done 0 s' /\ getenv (Some TZ) s' = Done (Some (7, 3%nat)) s'
    /\ reads (set_mem 7 (TZ ++ [61; 50; 0]) s') TZ (Some [50]).
Proof.
  destruct (putenv_aliases 9 TZ [49] 7 demo_put [0; 1]) as (s' & H1 & _ & H2 & _ & _ & H3);
    [apply demo_put_ok|by apply is_name_dec|done|reflexivity|].
  exists s'. split_and!; [exact H1|exact H2|by apply H3].
Defined.

Lemma find_entry_dead test ps l i s :
  mapM (str_of (mem s)) ps = Some l -> str_of (mem s) UNINIT = None -> find_ix test l i = None ->
  find_entry test (ps ++ [UNINIT]) i s = Fault Ub.
Proof.
  rewrite mapM_Some. intros Hl Hu. revert i. induction Hl as [|p x ps l Hp Hl IH]; intros i Hf; cbn in Hf.
  - cbn [find_entry app]. unfold mbind, M_bind, str_at, gets, mbind, M_bind. by rewrite Hu.
  - cbn [find_entry app]. erewrite run_bind by (by apply str_at_run).
    destruct (test x); [done|]. by apply IH.
Qed.

Lemma value_of_None n l i : value_of n l = None -> find_ix (assigns n) l i = None.
Proof.
  revert i. induction l as [|s l IH]; intros i; cbn; [done|]. destruct (assigns n s); [done|]. apply IH.
Qed.

(** [setenv] that runs out of memory can ruin the environment: when it makes
    the first own array and the string cannot be allocated, it reports ENOMEM
    with an undefined pointer left in [environ], and from then on [getenv] of
    any variable that is not set reads through that pointer. *)
Theorem setenv_enomem_leaves_garbage n v o s :
  env_ok s -> is_name n -> own_environ s = None ->
  (forall l, contents s = Some l -> has_entry n l = false) ->
  exists s', setenv true false (Some n) v o s = Err ENOMEM s'
    /\ forall n', reads s n' None -> getenv (Some n') s' = Fault Ub.
Proof.
  intros Hok Hn Hown Hno. destruct (ok_contents _ Hok) as [l Hl]. specialize (Hno l Hl).
  unfold setenv. rewrite (name_checks n Hn). set (s0 := clear_tz s). erewrite run_bind by done.
  erewrite run_bind by done. erewrite run_bind by (by apply (find_env_run _ _ l)).
  unfold has_entry in Hno. destruct (find_ix (entry_of n) l 0) as [k|] eqn:Hk; [done|].
  set (ps := default [] (environ s0)).
  assert (Hg : grow_environ true ps s0 = Done () (set_own (ps ++ [UNINIT]) s0)).
  { unfold grow_environ. erewrite run_bind by done. change (own_environ s0) with (own_environ s).
    rewrite Hown. by erewrite run_bind by done. }
  rewrite (run_bind _ _ _ _ _ Hg). eexists. split; [done|].
  intros n' Hr. pose proof (eq_sym (reads_value_of s n' None Hok Hr l Hl)) as Hv. unfold getenv. erewrite run_bind by done.
  unfold mbind, M_bind. cbn [environ set_own own_environ].
  rewrite (find_entry_dead _ ps l 0); [done| | |by apply value_of_None].
  - unfold contents in Hl. exact Hl.
  - unfold str_of. cbn. destruct (mem s !! UNINIT) as [y|] eqn:Hy; [|done].
    pose proof (ok_next _ Hok _ _ Hy). unfold UNINIT in *. lia.
Qed.

Lemma setenv_enomem_leaves_garbage_witness :
  exists s', setenv true false (Some TZ) [49] true demo_env = Err ENOMEM s'
    /\ getenv (Some TZ) s' = Fault Ub.
Proof.
  destruct (setenv_enomem_leaves_garbage TZ [49] true demo_env) as (s' & H1 & H2);
    [apply demo_env_ok|by apply is_name_dec|done|by intros l [= <-]|].
  exists s'. split; [exact H1|]. apply H2. by exists None.
Defined.
