(* ===== verification/Heap.v ===== *)
(** The heap ([src/src/emx/src/lib/malloc], [include/emx/umalloc.h]): segments
    cut into lumps with boundary tags, the buckets of free lumps, the crates of
    crumbs, and the functions that allocate, free, resize and check them. The
    theorems are in [HeapFacts.v] and the files after it. *)

From S2P Require Import Prelude.

(** ** Constants *)

Definition UM_MAGIC_CRATE : Z := 0xdd63eeed.
Definition UM_MAGIC_SEG : Z := 0xdd73eeed.

Definition UMFI_TILED : Z := 1.
Definition UMFI_ZERO : Z := 2.
Definition UMFI_CRATE : Z := 4.
Definition UMFI_NOMOVE : Z := 8.

Definition UMF_MASK : Z := 7.
Definition UMS_MASK : Z := 3.
Definition UMS_FREE : Z := 0.
Definition UMS_USER : Z := 1.
Definition UMS_CRATE : Z := 2.

Definition HEAP_REGULAR : Z := 1.
Definition HEAP_TILED : Z := 2.
Definition HEAP_MIN_SIZE : Z := 512.

Definition UM_PARENT_ALIGN : Z := 8.
Definition UM_MAX_CRATE_SIZE : Z := 8000.
Definition UM_MAX_SIZE : Z := 0x40000000.
Definition UM_MIN_BUCKET : Z := 5.
Definition UM_BUCKETS : Z := 23.
Definition UM_PAGE_SIZE : Z := 32.

(** Sizes of the C structures (32-bit pointers and words). *)
Definition UM_LUMP_HEADER_SIZE : Z := 8.
Definition UM_LUMP_OVERHEAD : Z := 12.
Definition UM_CRUMB_OVERHEAD : Z := 8.
Definition SIZEOF_SEG : Z := 32.
Definition SIZEOF_CRATE : Z := 32.

Definition UM_BUCKET_SIZE (i : Z) : Z := Z.shiftl 1 (i + UM_MIN_BUCKET).

(** [_UM_ROUND_LUMP(s)], on 32 bits. *)
Definition UM_ROUND_LUMP (s : Z) : Z := Z.land (u32 (s + UM_LUMP_OVERHEAD + UM_PAGE_SIZE - 1)) (not32 (UM_PAGE_SIZE - 1)).

(** [_UM_ALIGN_DIFF(p,a)] and [_UM_IS_ALIGNED(p,a)]. *)
Definition UM_ALIGN_DIFF (p a : Z) : Z := u32 (Z.land (u32 (p + a - 1)) (not32 (a - 1)) - p).
Definition UM_IS_ALIGNED (p a : Z) : bool := Z.land p (a - 1) =? 0.

Definition UM_TILE_ALIGNED (p s : Z) : bool :=
  (Z.land (u32 (p + s)) 0xffff >=? s) || (Z.land p 0xffff =? 0).
Definition UM_TILE_TILED (p s : Z) : bool := u32 (p + s) <=? 0x20000000.
Definition UM_TILE_OK (p s : Z) : bool := UM_TILE_ALIGNED p s && UM_TILE_TILED p s.

(** [_PTR_FROM_UMINT] and the status bits of a parent word. *)
Definition PTR_FROM_UMINT (x : Z) : Z := Z.land x (not32 UMF_MASK).
Definition STATUS (x : Z) : Z := Z.land x UMS_MASK.
Definition SET_STATUS (x s : Z) : Z := Z.lor (Z.land x (not32 UMS_MASK)) s.

(** ** Data *)

(** [struct _um_seg] at the address [sg_addr]. *)
Record seg := mk_seg {
  sg_addr : Z; sg_size : Z; zero_limit : Z; sg_start : Z; sg_end : Z; sg_mem : Z
}.

Record bucket := mk_bucket { bk_head : Z; bk_tail : Z }.

(** [struct _um_crate]; the crateset is named by its index. *)
Record crate := mk_crate {
  parent_crateset : Z; cr_next : Z; cr_crumb_size : Z; cr_max : Z; cr_init : Z; cr_used : Z
}.

Record crateset := mk_crateset {
  cs_crumb_size : Z; crate_head : Z; crumb_head : Z; crumb_tail : Z
}.

(** A heap and the memory of its segments. The words of the lump and crumb
    structures are kept in one map per member, by the address of the structure:
    [m_size] (the [size] member, the [prev] member of a free crumb), [m_parent],
    [m_next], [m_prev] (free lumps); [m_tag] is the size word at the end of a
    lump, by its own address, [m_magic] the first word of segments and crates.
    [m_data] is the memory of the user blocks. The list of segments is in list
    order; [fsem] counts the requests of the heap's mutex. *)
Record heap := mk_heap {
  htype : Z;
  segs : list seg;
  buckets : list bucket;
  cratesets : list crateset;
  n_segments : Z; n_crates : Z; max_crumbs : Z;
  m_size : gmap Z Z; m_parent : gmap Z Z; m_next : gmap Z Z; m_prev : gmap Z Z;
  m_tag : gmap Z Z; m_magic : gmap Z Z;
  crates : gmap Z crate;
  m_data : Z -> Z;
  fsem : Z
}.

Abbreviation H := (M heap).

Definition set_segs (l : list seg) (h : heap) :=
  mk_heap (htype h) l (buckets h) (cratesets h) (n_segments h) (n_crates h) (max_crumbs h)
    (m_size h) (m_parent h) (m_next h) (m_prev h) (m_tag h) (m_magic h) (crates h) (m_data h) (fsem h).
Definition set_buckets (l : list bucket) (h : heap) :=
  mk_heap (htype h) (segs h) l (cratesets h) (n_segments h) (n_crates h) (max_crumbs h)
    (m_size h) (m_parent h) (m_next h) (m_prev h) (m_tag h) (m_magic h) (crates h) (m_data h) (fsem h).
Definition set_cratesets (l : list crateset) (h : heap) :=
  mk_heap (htype h) (segs h) (buckets h) l (n_segments h) (n_crates h) (max_crumbs h)
    (m_size h) (m_parent h) (m_next h) (m_prev h) (m_tag h) (m_magic h) (crates h) (m_data h) (fsem h).
Definition set_counts (ns nc mc : Z) (h : heap) :=
  mk_heap (htype h) (segs h) (buckets h) (cratesets h) ns nc mc
    (m_size h) (m_parent h) (m_next h) (m_prev h) (m_tag h) (m_magic h) (crates h) (m_data h) (fsem h).
Definition set_size (a v : Z) (h : heap) :=
  mk_heap (htype h) (segs h) (buckets h) (cratesets h) (n_segments h) (n_crates h) (max_crumbs h)
    (<[a := v]> (m_size h)) (m_parent h) (m_next h) (m_prev h) (m_tag h) (m_magic h) (crates h) (m_data h) (fsem h).
Definition set_parent (a v : Z) (h : heap) :=
  mk_heap (htype h) (segs h) (buckets h) (cratesets h) (n_segments h) (n_crates h) (max_crumbs h)
    (m_size h) (<[a := v]> (m_parent h)) (m_next h) (m_prev h) (m_tag h) (m_magic h) (crates h) (m_data h) (fsem h).
Definition set_next (a v : Z) (h : heap) :=
  mk_heap (htype h) (segs h) (buckets h) (cratesets h) (n_segments h) (n_crates h) (max_crumbs h)
    (m_size h) (m_parent h) (<[a := v]> (m_next h)) (m_prev h) (m_tag h) (m_magic h) (crates h) (m_data h) (fsem h).
Definition set_prev (a v : Z) (h : heap) :=
  mk_heap (htype h) (segs h) (buckets h) (cratesets h) (n_segments h) (n_crates h) (max_crumbs h)
    (m_size h) (m_parent h) (m_next h) (<[a := v]> (m_prev h)) (m_tag h) (m_magic h) (crates h) (m_data h) (fsem h).
Definition set_tag (a v : Z) (h : heap) :=
  mk_heap (htype h) (segs h) (buckets h) (cratesets h) (n_segments h) (n_crates h) (max_crumbs h)
    (m_size h) (m_parent h) (m_next h) (m_prev h) (<[a := v]> (m_tag h)) (m_magic h) (crates h) (m_data h) (fsem h).
Definition set_magic (a v : Z) (h : heap) :=
  mk_heap (htype h) (segs h) (buckets h) (cratesets h) (n_segments h) (n_crates h) (max_crumbs h)
    (m_size h) (m_parent h) (m_next h) (m_prev h) (m_tag h) (<[a := v]> (m_magic h)) (crates h) (m_data h) (fsem h).
Definition set_crate (a : Z) (c : crate) (h : heap) :=
  mk_heap (htype h) (segs h) (buckets h) (cratesets h) (n_segments h) (n_crates h) (max_crumbs h)
    (m_size h) (m_parent h) (m_next h) (m_prev h) (m_tag h) (m_magic h) (<[a := c]> (crates h)) (m_data h) (fsem h).
Definition set_data (f : Z -> Z) (h : heap) :=
  mk_heap (htype h) (segs h) (buckets h) (cratesets h) (n_segments h) (n_crates h) (max_crumbs h)
    (m_size h) (m_parent h) (m_next h) (m_prev h) (m_tag h) (m_magic h) (crates h) f (fsem h).
Definition set_fsem (n : Z) (h : heap) :=
  mk_heap (htype h) (segs h) (buckets h) (cratesets h) (n_segments h) (n_crates h) (max_crumbs h)
    (m_size h) (m_parent h) (m_next h) (m_prev h) (m_tag h) (m_magic h) (crates h) (m_data h) n.

(** ** Memory access *)

Definition ld (f : heap -> gmap Z Z) (a : Z) : H Z := o ← gets (fun h => f h !! a); deref o.

(** [_um_assert] *)
Definition um_assert (b : bool) : H unit := if b then mret () else mfail Panic.

Definition heap_lock : H unit := mmod (fun h => set_fsem (fsem h + 1) h).
Definition heap_unlock : H unit :=
  n ← gets fsem; if n <=? 0 then mfail Panic else mmod (set_fsem (n - 1)).

(** [bzero(p, n)] and [memcpy]/[memmove] between blocks. *)
Definition bzero (p n : Z) : H unit :=
  mmod (fun h => set_data (fun x => if (p <=? x) && (x <? p + n) then 0 else m_data h x) h).
Definition memmove (p q n : Z) : H unit :=
  mmod (fun h => set_data (fun x => if (p <=? x) && (x <? p + n) then m_data h (q + (x - p)) else m_data h x) h).

(** The segment structure at an address. *)
Definition find_seg (a : Z) (h : heap) : option seg := list_find (fun s => sg_addr s = a) (segs h) ≫= (fun p => Some (snd p)).
Definition get_seg (a : Z) : H seg := o ← gets (find_seg a); deref o.
Definition put_seg (s : seg) : H unit :=
  mmod (fun h => set_segs ((fun s' => if sg_addr s' =? sg_addr s then s else s') <$> segs h) h).

Definition get_bucket (i : Z) : H bucket := o ← gets (fun h => aget (buckets h) i); deref o.
Definition put_bucket (i : Z) (b : bucket) : H unit := mmod (fun h => set_buckets (aset (buckets h) i b) h).
Definition get_crateset (i : Z) : H crateset := o ← gets (fun h => aget (cratesets h) i); deref o.
Definition put_crateset (i : Z) (c : crateset) : H unit := mmod (fun h => set_cratesets (aset (cratesets h) i c) h).
Definition get_crate (a : Z) : H crate := o ← gets (fun h => crates h !! a); deref o.

(** ** Lumps *)

(** [_um_find_bucket], with the consistency check of the strict build. *)
Definition um_find_bucket (rsize : Z) : H Z :=
  let bucket := Z.log2 rsize + 1 - 1 - UM_MIN_BUCKET in
  if bucket >=? UM_BUCKETS then mret (UM_BUCKETS - 1)
  else
    let bucket := if bucket <? 0 then 0 else bucket in
    if (UM_BUCKET_SIZE bucket >? rsize) || (UM_BUCKET_SIZE (bucket + 1) <=? rsize)
    then mfail Panic else mret bucket.

(** [_UM_LUMP_STATUS(p)] *)
Definition lump_status (p : Z) : H Z := x ← ld m_parent p; mret (STATUS x).

(** [_UM_NEXT_LUMP(p)] and [_UM_PREV_LUMP(p)] *)
Definition next_lump (p : Z) : H Z := s ← ld m_size p; mret (u32 (p + UM_ROUND_LUMP s)).
Definition prev_lump (p : Z) : H Z := s ← ld m_tag (p - 4); mret (u32 (p - UM_ROUND_LUMP s)).

Definition um_lump_set_size (lump size : Z) : H unit :=
  _ ← mmod (set_size lump size);
  n ← next_lump lump;
  mmod (set_tag (n - 4) size).

Definition um_lump_link_bucket (b lump : Z) : H unit :=
  _ ← mmod (set_prev lump 0);
  bk ← get_bucket b;
  _ ← (if negb (bk_head bk =? 0) then mmod (set_prev (bk_head bk) lump)
       else put_bucket b (mk_bucket (bk_head bk) lump));
  bk ← get_bucket b;
  _ ← mmod (set_next lump (bk_head bk));
  put_bucket b (mk_bucket lump (bk_tail bk)).

Definition um_lump_unlink_bucket (b lump : Z) : H unit :=
  p ← ld m_prev lump; n ← ld m_next lump;
  bk ← get_bucket b;
  _ ← (if p =? 0 then put_bucket b (mk_bucket n (bk_tail bk)) else mmod (set_next p n));
  bk ← get_bucket b;
  if n =? 0 then put_bucket b (mk_bucket (bk_head bk) p) else mmod (set_prev n p).

Definition um_lump_unlink_heap (lump : Z) : H unit :=
  s ← ld m_size lump; b ← um_find_bucket (UM_ROUND_LUMP s); um_lump_unlink_bucket b lump.

Definition um_lump_link_heap (lump : Z) : H unit :=
  s ← ld m_size lump; b ← um_find_bucket (UM_ROUND_LUMP s); um_lump_link_bucket b lump.

Definition um_lump_make_free (lump sga rsize : Z) : H unit :=
  _ ← um_assert (UM_IS_ALIGNED sga UM_PARENT_ALIGN);
  _ ← um_assert (rsize mod UM_PAGE_SIZE =? 0);
  _ ← mmod (set_parent lump (Z.lor sga UMS_FREE));
  _ ← um_lump_set_size lump (u32 (rsize - UM_LUMP_OVERHEAD));
  b ← um_find_bucket rsize;
  um_lump_link_bucket b lump.

(** The coalescing with the preceding lump: the lump that results. *)
Definition coalesce_prev (sg : seg) (lump : Z) : H Z :=
  if lump =? sg_start sg then mret lump
  else
    prev ← prev_lump lump;
    st ← lump_status prev;
    if negb (st =? UMS_FREE) then mret lump
    else
      _ ← um_lump_unlink_heap prev;
      _ ← um_assert (UM_IS_ALIGNED (sg_addr sg) UM_PARENT_ALIGN);
      _ ← mmod (set_parent prev (Z.lor (sg_addr sg) UMS_FREE));
      ls ← ld m_size lump; ps ← ld m_size prev;
      _ ← um_lump_set_size prev (u32 (UM_ROUND_LUMP ls + UM_ROUND_LUMP ps - UM_LUMP_OVERHEAD));
      mret prev.

Definition coalesce_next (sg : seg) (lump : Z) : H unit :=
  next ← next_lump lump;
  if next =? sg_end sg then mret ()
  else
    st ← lump_status next;
    if negb (st =? UMS_FREE) then mret ()
    else
      _ ← um_lump_unlink_heap next;
      ls ← ld m_size lump; ns ← ld m_size next;
      um_lump_set_size lump (u32 (UM_ROUND_LUMP ls + UM_ROUND_LUMP ns - UM_LUMP_OVERHEAD)).

Definition um_lump_coalesce_free (lump sga rsize : Z) : H unit :=
  _ ← um_assert (UM_IS_ALIGNED sga UM_PARENT_ALIGN);
  _ ← um_assert (rsize mod UM_PAGE_SIZE =? 0);
  _ ← mmod (set_parent lump (Z.lor sga UMS_FREE));
  _ ← um_lump_set_size lump (u32 (rsize - UM_LUMP_OVERHEAD));
  sg ← get_seg sga;
  lump ← coalesce_prev sg lump;
  _ ← coalesce_next sg lump;
  um_lump_link_heap lump.

(** ** Allocation of lumps *)

(** Whether the free lump [olump] of [osize] bytes can hold the block: the
    padding before it and its address. *)
Definition lump_fit (size align flags rsize olump osize : Z) : H (option (Z * Z)) :=
  if osize <? rsize then mret None
  else
    let block := u32 (olump + UM_LUMP_HEADER_SIZE) in
    let diff := UM_ALIGN_DIFF block align in
    _ ← um_assert (diff mod UM_PAGE_SIZE =? 0);
    if osize <? u32 (diff + rsize) then mret None
    else
      let block := u32 (block + diff) in
      _ ← um_assert (UM_IS_ALIGNED block align);
      if negb (has_bits flags UMFI_TILED) then mret (Some (diff, block))
      else if negb (UM_TILE_TILED block size) then mret None
      else
        r ← (if UM_TILE_ALIGNED block size then mret (Some (diff, block))
             else
               let diff := u32 (diff + UM_ALIGN_DIFF block 0x10000) in
               if osize <? u32 (diff + rsize) then mret None
               else
                 let block := u32 (olump + UM_LUMP_HEADER_SIZE + diff) in
                 if negb (UM_TILE_TILED block size) then mret None else mret (Some (diff, block)));
        match r with
        | None => mret None
        | Some (diff, block) => _ ← um_assert (UM_TILE_OK block size); mret (Some (diff, block))
        end.

(** The loop over the lumps of a bucket from [olump] on. *)
Fixpoint scan_bucket (fuel : nat) (size align flags rsize olump : Z) : H (option (Z * Z * Z * Z)) :=
  if olump =? 0 then mret None
  else match fuel with
  | O => mfail Hang
  | S fuel' =>
      st ← lump_status olump;
      _ ← um_assert (st =? UMS_FREE);
      s ← ld m_size olump;
      let osize := UM_ROUND_LUMP s in
      r ← lump_fit size align flags rsize olump osize;
      match r with
      | Some (diff, block) => mret (Some (olump, osize, diff, block))
      | None => n ← ld m_next olump; scan_bucket fuel' size align flags rsize n
      end
  end.

(** The lump found is taken out of its bucket, cut to size, and the rest
    becomes free lumps. *)
Definition cut_lump (bucket_number size flags rsize olump osize diff : Z) : H unit :=
  _ ← um_lump_unlink_bucket bucket_number olump;
  x ← ld m_parent olump;
  let sga := PTR_FROM_UMINT x in
  let ulump := u32 (olump + diff) in
  _ ← um_assert (UM_IS_ALIGNED sga UM_PARENT_ALIGN);
  _ ← mmod (set_parent ulump (Z.lor sga UMS_USER));
  _ ← mwhen (has_bits flags UMFI_CRATE) (y ← ld m_parent ulump; mmod (set_parent ulump (SET_STATUS y UMS_CRATE)));
  _ ← um_lump_set_size ulump size;
  _ ← mwhen (osize >? u32 (diff + rsize))
        (_ ← um_assert (u32 (osize - rsize) mod UM_PAGE_SIZE =? 0);
         um_lump_make_free (u32 (olump + u32 (diff + rsize))) sga (u32 (osize - u32 (diff + rsize))));
  mwhen (diff >? 0)
    (_ ← um_assert (diff mod UM_PAGE_SIZE =? 0);
     um_lump_make_free olump sga diff).

Definition take_lump (bucket_number size flags rsize olump osize diff block : Z) : H Z :=
  _ ← cut_lump bucket_number size flags rsize olump osize diff;
  _ ← mwhen (has_bits flags UMFI_ZERO) (bzero block size);
  mret block.

(** [while (bucket_number < _UM_BUCKETS)], [n] buckets to go. *)
Fixpoint alloc_buckets (fuel n : nat) (size align flags rsize bucket_number : Z) : H Z :=
  match n with
  | O => mret 0
  | S n' =>
      bk ← get_bucket bucket_number;
      r ← scan_bucket fuel size align flags rsize (bk_head bk);
      match r with
      | Some (olump, osize, diff, block) => take_lump bucket_number size flags rsize olump osize diff block
      | None => alloc_buckets fuel n' size align flags rsize (bucket_number + 1)
      end
  end.

(** A block or 0 (NULL). *)
Definition um_lump_alloc_noexpand (fuel : nat) (size align flags : Z) : H Z :=
  let rsize := UM_ROUND_LUMP size in
  if rsize >=? UM_MAX_SIZE then mret 0
  else
    b ← um_find_bucket rsize;
    alloc_buckets fuel (Z.to_nat (UM_BUCKETS - b)) size align flags rsize b.

(** ** Segments *)

(** The new pages become part of the last lump, or a lump. *)
Definition seg_add_tail (sg : seg) (asize osize : Z) : H unit :=
  lump ← prev_lump (sg_end sg);
  st ← lump_status lump;
  if st =? UMS_FREE then
    _ ← um_lump_unlink_heap lump;
    s ← ld m_size lump;
    _ ← um_lump_set_size lump (u32 (UM_ROUND_LUMP s + asize - osize - UM_LUMP_OVERHEAD));
    um_lump_link_heap lump
  else um_lump_make_free (u32 (sg_start sg + osize)) (sg_addr sg) (u32 (asize - osize)).

Definition um_seg_addmem (sga size : Z) : H unit :=
  sg ← get_seg sga;
  let asize := Z.land (u32 (sg_mem sg + sg_size sg + size - sg_start sg)) (not32 (UM_PAGE_SIZE - 1)) in
  let osize := u32 (sg_end sg - sg_start sg) in
  _ ← mwhen (asize >? osize)
        (_ ← seg_add_tail sg asize osize;
         put_seg (mk_seg sga (sg_size sg) (zero_limit sg) (sg_start sg) (u32 (sg_start sg + asize)) (sg_mem sg)));
  sg ← get_seg sga;
  put_seg (mk_seg sga (u32 (sg_size sg + size)) (zero_limit sg) (sg_start sg) (sg_end sg) (sg_mem sg)).

(** The new segment structure, or [None] if there is no room for a page. *)
Definition um_seg_setmem (sga memory size : Z) (clean : bool) : H (option seg) :=
  let start := sga + SIZEOF_SEG in
  let start := start + UM_ALIGN_DIFF (start + UM_LUMP_HEADER_SIZE) UM_PAGE_SIZE in
  _ ← um_assert (UM_IS_ALIGNED (start + UM_LUMP_HEADER_SIZE) UM_PAGE_SIZE);
  let mem_end := u32 (memory + size) in
  if start >? mem_end then mret None
  else
    let asize := Z.land (mem_end - start) (not32 (UM_PAGE_SIZE - 1)) in
    if asize =? 0 then mret None
    else
      _ ← um_lump_make_free start sga asize;
      mret (Some (mk_seg sga size (if clean then start else start + asize) start (start + asize) memory)).

(** Whether the memory became part of the heap. *)
Definition um_addmem_nolock (memory size : Z) (clean : bool) : H bool :=
  o ← gets (fun h => list_find (fun s => u32 (sg_mem s + sg_size s) = memory) (segs h));
  match o with
  | Some (_, sg) => _ ← um_seg_addmem (sg_addr sg) size; mret true
  | None =>
      if size <? SIZEOF_SEG + UM_ROUND_LUMP UM_PARENT_ALIGN + UM_PAGE_SIZE then mret false
      else
        let sga := memory + UM_ALIGN_DIFF memory UM_PARENT_ALIGN in
        _ ← um_assert (Z.land sga UMF_MASK =? 0);
        r ← um_seg_setmem sga memory size clean;
        match r with
        | None => mret false
        | Some sg =>
            _ ← mmod (fun h => set_segs (sg :: segs h) h);
            _ ← mmod (fun h => set_counts (n_segments h + 1) (n_crates h) (max_crumbs h) h);
            _ ← mmod (set_magic sga UM_MAGIC_SEG);
            mret true
        end
  end.

(** What [alloc_fun] returns: no memory, or an area and whether it is clean. *)
Abbreviation area := (option (Z * Z * bool)).

(** [_um_heap_expand2]: -1, 0 or 1. Memory that was refused is given back,
    which does not change the heap. *)
Definition um_heap_expand2 (mem : area) (size : Z) : H Z :=
  match mem with
  | None => mret (-1)
  | Some (memory, mem_size, clean) =>
      b ← um_addmem_nolock memory mem_size clean;
      if negb b then mret (-1) else mret (if mem_size <? size then 0 else 1)
  end.

(** [fixed]: the heap has no [alloc_fun]; [mem1], [mem2]: what two calls of it
    return. *)
Definition um_heap_expand (fixed : bool) (mem1 mem2 : area) (size align : Z) : H bool :=
  if fixed then mret false
  else
    let rsize := if align <? UM_PAGE_SIZE / 2 then UM_ROUND_LUMP size
                 else UM_ROUND_LUMP (u32 (size + align + align / 2)) in
    if rsize >=? UM_MAX_SIZE then mret false
    else
      let add_size := rsize + HEAP_MIN_SIZE in
      r ← um_heap_expand2 mem1 add_size;
      r ← (if r =? 0 then um_heap_expand2 mem2 add_size else mret r);
      mret (r >? 0).

(** The environment of a call: the fuel of the list loops and what the memory
    functions of the heap do. *)
Record host := mk_host {
  fuel : nat; fixed : bool; mem1 : area; mem2 : area;
  expand : option (option (Z * bool))
}.

Definition um_lump_alloc (e : host) (size align flags : Z) : H Z :=
  if UM_ROUND_LUMP size <? size then mret 0
  else
    block ← um_lump_alloc_noexpand (fuel e) size align flags;
    if negb (block =? 0) then mret block
    else
      b ← um_heap_expand (fixed e) (mem1 e) (mem2 e) size align;
      if negb b then mret 0 else um_lump_alloc_noexpand (fuel e) size align flags.

(** ** Crates and crumbs *)

(** The member [x.free.prev] of a crumb is its first word. *)
Definition um_crumb_unlink (cs crumb : Z) : H unit :=
  p ← ld m_size crumb; n ← ld m_next crumb;
  c ← get_crateset cs;
  _ ← (if p =? 0 then put_crateset cs (mk_crateset (cs_crumb_size c) (crate_head c) n (crumb_tail c))
       else mmod (set_next p n));
  c ← get_crateset cs;
  if n =? 0 then put_crateset cs (mk_crateset (cs_crumb_size c) (crate_head c) (crumb_head c) p)
  else mmod (set_size n p).

(** [_UM_CRUMB_BY_INDEX(p,i)] *)
Definition crumb_by_index (cra : Z) (c : crate) (i : Z) : Z :=
  u32 (cra + SIZEOF_CRATE + i * (cr_crumb_size c + UM_CRUMB_OVERHEAD)).

Definition crate_use (init used : Z) (c : crate) : crate :=
  mk_crate (parent_crateset c) (cr_next c) (cr_crumb_size c) (cr_max c) init used.

Definition crumb_suits (size align flags block : Z) : bool :=
  UM_IS_ALIGNED block align && (negb (has_bits flags UMFI_TILED) || UM_TILE_OK block size).

(** The loop over the free crumbs. *)
Fixpoint scan_crumbs (fuel : nat) (cs size align flags crumb : Z) : H (option Z) :=
  if crumb =? 0 then mret None
  else match fuel with
  | O => mfail Hang
  | S fuel' =>
      x ← ld m_parent crumb;
      let cra := PTR_FROM_UMINT x in
      _ ← um_assert (STATUS x =? UMS_FREE);
      mg ← ld m_magic cra;
      _ ← um_assert (mg =? UM_MAGIC_CRATE);
      c ← get_crate cra;
      _ ← um_assert (parent_crateset c =? cs);
      _ ← um_assert (cr_used c <? cr_max c);
      let block := u32 (crumb + UM_CRUMB_OVERHEAD) in
      if crumb_suits size align flags block then
        _ ← um_crumb_unlink cs crumb;
        _ ← mmod (set_crate cra (crate_use (cr_init c) (cr_used c + 1) c));
        _ ← mmod (set_parent crumb (SET_STATUS x UMS_USER));
        _ ← mmod (set_size crumb size);
        _ ← mwhen (has_bits flags UMFI_ZERO) (bzero block size);
        mret (Some block)
      else n ← ld m_next crumb; scan_crumbs fuel' cs size align flags n
  end.

(** A block or 0. *)
Definition um_crumb_alloc (fuel : nat) (cs size align flags : Z) : H Z :=
  k ← get_crateset cs;
  r ← scan_crumbs fuel cs size align flags (crumb_head k);
  match r with
  | Some block => mret block
  | None =>
      k ← get_crateset cs;
      let cra := crate_head k in
      if cra =? 0 then mret 0
      else
        c ← get_crate cra;
        if cr_init c >=? cr_max c then mret 0
        else
          let crumb := crumb_by_index cra c (cr_init c) in
          let block := u32 (crumb + UM_CRUMB_OVERHEAD) in
          if crumb_suits size align flags block then
            _ ← um_assert (UM_IS_ALIGNED cra UM_PARENT_ALIGN);
            _ ← mmod (set_parent crumb (Z.lor cra UMS_USER));
            _ ← mmod (set_size crumb size);
            _ ← mmod (set_crate cra (crate_use (cr_init c + 1) (cr_used c + 1) c));
            _ ← mwhen (has_bits flags UMFI_ZERO) (bzero block size);
            mret block
          else mret 0
  end.

Definition um_crateset_alloc (e : host) (cs size align flags : Z) : H Z :=
  block ← um_crumb_alloc (fuel e) cs size align flags;
  if negb (block =? 0) then mret block
  else
    k ← get_crateset cs;
    full ← (if crate_head k =? 0 then mret true
            else c ← get_crate (crate_head k); mret (cr_init c >=? cr_max c));
    if (crumb_head k =? 0) && full then
      let n := UM_MAX_CRATE_SIZE / (cs_crumb_size k + UM_CRUMB_OVERHEAD) in
      let crate_size := SIZEOF_CRATE + n * (cs_crumb_size k + UM_CRUMB_OVERHEAD) in
      cra ← um_lump_alloc e crate_size UM_PARENT_ALIGN UMFI_CRATE;
      if cra =? 0 then mret 0
      else
        _ ← mmod (set_magic cra UM_MAGIC_CRATE);
        _ ← mmod (set_crate cra (mk_crate cs (crate_head k) (cs_crumb_size k) n 0 0));
        _ ← put_crateset cs (mk_crateset (cs_crumb_size k) cra (crumb_head k) (crumb_tail k));
        _ ← mmod (fun h => set_counts (n_segments h) (n_crates h + 1) (max_crumbs h + n) h);
        um_crumb_alloc (fuel e) cs size align flags
    else mret 0.

(** [while (size > h->cratesets[i].crumb_size) ++i] *)
Definition pick_crateset (l : list crateset) (size : Z) : option Z :=
  find_first (fun i => match aget l i with Some c => negb (size >? cs_crumb_size c) | None => false end) 0 (length l).

Definition um_alloc_no_lock (e : host) (size align flags : Z) : H Z :=
  l ← gets cratesets;
  let small := match last l with Some c => size <=? cs_crumb_size c | None => false end in
  block ← (if small then i ← deref (pick_crateset l size); um_crateset_alloc e i size align flags
           else mret 0);
  if negb (block =? 0) then mret block else um_lump_alloc e size align flags.

(** ** Deallocation *)

Definition um_lump_free_no_lock (sga lump : Z) : H unit :=
  st ← lump_status lump;
  _ ← um_assert (negb (st =? UMS_FREE));
  s ← ld m_size lump;
  um_lump_coalesce_free lump sga (UM_ROUND_LUMP s).

Definition maybe_lock {A} (lock : bool) (m : H A) : H A :=
  _ ← mwhen lock heap_lock; a ← m; _ ← mwhen lock heap_unlock; mret a.

(** The list of crates without [cra]; [None] if it is not in the list. *)
Fixpoint unlink_crate (fuel : nat) (cra p : Z) : H bool :=
  if p =? 0 then mret false
  else match fuel with
  | O => mfail Hang
  | S fuel' =>
      c ← get_crate p;
      if cr_next c =? cra then
        d ← get_crate cra;
        _ ← mmod (set_crate p (mk_crate (parent_crateset c) (cr_next d) (cr_crumb_size c) (cr_max c) (cr_init c) (cr_used c)));
        mret true
      else unlink_crate fuel' cra (cr_next c)
  end.

Definition um_crate_free (fuel : nat) (cs cra : Z) : H unit :=
  c ← get_crate cra;
  _ ← mmod (fun h => set_counts (n_segments h) (n_crates h - 1) (max_crumbs h - cr_max c) h);
  _ ← mfor (zrange 0 (Z.to_nat (cr_init c))) (fun i =>
        let crumb := crumb_by_index cra c i in
        x ← ld m_parent crumb;
        _ ← um_assert (STATUS x =? UMS_FREE);
        _ ← um_assert (PTR_FROM_UMINT x =? cra);
        um_crumb_unlink cs crumb);
  k ← get_crateset cs;
  found ← (if crate_head k =? cra then
             _ ← put_crateset cs (mk_crateset (cs_crumb_size k) (cr_next c) (crumb_head k) (crumb_tail k)); mret true
           else unlink_crate fuel cra (crate_head k));
  if negb found then mfail Panic
  else
    (* _um_free_maybe_lock (crate, 0): the crate is a block of a lump *)
    x ← ld m_parent (cra - UM_LUMP_HEADER_SIZE);
    if STATUS x =? UMS_FREE then mfail Panic
    else
      mg ← ld m_magic (PTR_FROM_UMINT x);
      if mg =? UM_MAGIC_SEG then um_lump_free_no_lock (PTR_FROM_UMINT x) (cra - UM_LUMP_HEADER_SIZE)
      else mfail Panic.

Definition um_crumb_free_no_lock (fuel : nat) (cra crumb : Z) : H unit :=
  c ← get_crate cra;
  let cs := parent_crateset c in
  x ← ld m_parent crumb;
  _ ← um_assert (negb (STATUS x =? UMS_FREE));
  k ← get_crateset cs;
  _ ← um_assert (cs_crumb_size k =? cr_crumb_size c);
  s ← ld m_size crumb;
  _ ← um_assert (s <=? cr_crumb_size c);
  _ ← um_assert (negb (cr_used c =? 0));
  _ ← mmod (set_next crumb (crumb_head k));
  _ ← mmod (set_size crumb 0);
  _ ← (if crumb_head k =? 0 then put_crateset cs (mk_crateset (cs_crumb_size k) (crate_head k) (crumb_head k) crumb)
       else mmod (set_size (crumb_head k) crumb));
  k ← get_crateset cs;
  _ ← put_crateset cs (mk_crateset (cs_crumb_size k) (crate_head k) crumb (crumb_tail k));
  _ ← mmod (set_parent crumb (SET_STATUS x UMS_FREE));
  _ ← mmod (set_crate cra (crate_use (cr_init c) (cr_used c - 1) c));
  mwhen (cr_used c - 1 =? 0) (um_crate_free fuel cs cra).

(** [_um_free_maybe_lock]; [_um_abort] does not return. *)
Definition um_free_maybe_lock (fuel : nat) (block : Z) (lock : bool) : H unit :=
  if block =? 0 then mret ()
  else
    x ← ld m_parent (block - 8);
    if STATUS x =? UMS_FREE then mfail Panic
    else
      let parent := PTR_FROM_UMINT x in
      mg ← ld m_magic parent;
      if mg =? UM_MAGIC_CRATE then maybe_lock lock (um_crumb_free_no_lock fuel parent (block - 8))
      else if mg =? UM_MAGIC_SEG then maybe_lock lock (um_lump_free_no_lock parent (block - 8))
      else mfail Panic.

(** ** Resizing *)

(** [_um_lump_expand_seg]. [expand e]: no [expand_fun], or what it returns for
    the requested size: failure, or the new size and whether it is clean. *)
Definition um_lump_expand_seg (e : host) (sga lump new_size : Z) : H bool :=
  match expand e with
  | None => mret false
  | Some res =>
      hd ← gets (fun h => sg_addr <$> head (segs h));
      if negb (bool_decide (hd = Some sga)) then mret false
      else
        sg ← get_seg sga;
        let rsize := UM_ROUND_LUMP new_size in
        let nsize := u32 (lump + rsize - sg_mem sg) in
        if nsize <=? sg_size sg then mret false
        else match res with
        | None => mret false
        | Some (expanded_size, _) =>
            if expanded_size <=? sg_size sg then mret false
            else
              _ ← um_seg_addmem sga (expanded_size - sg_size sg);
              mret (negb (expanded_size <? nsize))
        end
  end.

Definition block_suits (size align flags block : Z) : bool :=
  UM_IS_ALIGNED block align && (negb (has_bits flags UMFI_TILED) || UM_TILE_OK block size).

Definition um_lump_expand_up2 (sga lump next new_size align flags : Z) : H Z :=
  let rsize := UM_ROUND_LUMP new_size in
  ls ← ld m_size lump; ns ← ld m_size next;
  let osize := u32 (UM_ROUND_LUMP ls + UM_ROUND_LUMP ns) in
  if osize <? rsize then mret 0
  else
    let block := u32 (lump + UM_LUMP_HEADER_SIZE) in
    if negb (block_suits new_size align flags block) then mret 0
    else
      _ ← um_lump_unlink_heap next;
      _ ← um_lump_set_size lump new_size;
      _ ← mwhen (osize >? rsize)
            (_ ← um_assert ((osize - rsize) mod UM_PAGE_SIZE =? 0);
             um_lump_coalesce_free (u32 (lump + rsize)) sga (osize - rsize));
      mret block.

(** The second half of [_um_lump_expand_up]: the segment is expanded first. *)
Definition expand_up_seg (e : host) (sga lump new_size align flags : Z) : H Z :=
  if negb (block_suits new_size align flags (u32 (lump + UM_LUMP_HEADER_SIZE))) then mret 0
  else
    b ← um_lump_expand_seg e sga lump new_size;
    if negb b then mret 0
    else
      sg ← get_seg sga;
      next ← next_lump lump;
      _ ← um_assert (negb (next =? sg_end sg));
      nn ← next_lump next;
      _ ← um_assert (nn =? sg_end sg);
      st ← lump_status next;
      _ ← um_assert (st =? UMS_FREE);
      block ← um_lump_expand_up2 sga lump next new_size align flags;
      _ ← um_assert (negb (block =? 0));
      mret block.

Definition um_lump_expand_up (e : host) (sga lump new_size align flags : Z) : H Z :=
  sg ← get_seg sga;
  next ← next_lump lump;
  if next =? sg_end sg then expand_up_seg e sga lump new_size align flags
  else
    st ← lump_status next;
    if negb (st =? UMS_FREE) then mret 0
    else
      block ← um_lump_expand_up2 sga lump next new_size align flags;
      if negb (block =? 0) then mret block
      else
        nn ← next_lump next;
        if negb (nn =? sg_end sg) then mret 0
        else expand_up_seg e sga lump new_size align flags.

Definition um_lump_expand_down (sga lump new_size align flags : Z) : H Z :=
  sg ← get_seg sga;
  if lump =? sg_start sg then mret 0
  else
    prev ← prev_lump lump;
    st ← lump_status prev;
    if negb (st =? UMS_FREE) then mret 0
    else
      let rsize := UM_ROUND_LUMP new_size in
      ls ← ld m_size lump; ps ← ld m_size prev;
      let osize := u32 (UM_ROUND_LUMP ls + UM_ROUND_LUMP ps) in
      if osize <? rsize then mret 0
      else
        let block := u32 (prev + UM_LUMP_HEADER_SIZE) in
        if negb (block_suits new_size align flags block) then mret 0
        else
          _ ← um_lump_unlink_heap prev;
          x ← ld m_parent lump;
          _ ← mmod (set_parent prev x);
          _ ← memmove block (u32 (lump + UM_LUMP_HEADER_SIZE)) ls;
          _ ← um_lump_set_size prev new_size;
          _ ← mwhen (osize >? rsize)
                (_ ← um_assert ((osize - rsize) mod UM_PAGE_SIZE =? 0);
                 um_lump_coalesce_free (u32 (prev + rsize)) sga (osize - rsize));
          mret block.

(** [_um_lump_realloc]. The return for [_UMFI_NOMOVE] leaves the heap locked. *)
Definition um_lump_realloc (e : host) (sga lump new_size align flags : Z) : H Z :=
  let rsize := UM_ROUND_LUMP new_size in
  if rsize <? new_size then mret 0
  else
    _ ← heap_lock;
    ty ← gets htype;
    let flags := if has_bits ty HEAP_TILED then Z.lor flags UMFI_TILED else flags in
    s ← ld m_size lump;
    let osize := UM_ROUND_LUMP s in
    let block := u32 (lump + UM_LUMP_HEADER_SIZE) in
    if rsize <? osize then
      _ ← um_lump_set_size lump new_size;
      _ ← um_assert ((osize - rsize) mod UM_PAGE_SIZE =? 0);
      _ ← um_lump_coalesce_free (u32 (lump + rsize)) sga (osize - rsize);
      _ ← heap_unlock; mret block
    else if rsize >? osize then
      r ← um_lump_expand_up e sga lump new_size align flags;
      if has_bits flags UMFI_NOMOVE then mret r
      else
        r ← (if r =? 0 then um_lump_expand_down sga lump new_size align flags else mret r);
        r ← (if r =? 0 then
               r ← um_lump_alloc e new_size align flags;
               _ ← mwhen (negb (r =? 0))
                     (ls ← ld m_size lump;
                      _ ← memmove r block ls;
                      um_lump_free_no_lock sga lump);
               mret r
             else mret r);
        _ ← heap_unlock; mret r
    else
      _ ← mwhen (negb (s =? new_size)) (um_lump_set_size lump new_size);
      _ ← heap_unlock; mret block.

Definition um_crumb_realloc (e : host) (cra crumb new_size align flags : Z) : H Z :=
  c ← get_crate cra;
  if new_size <=? cr_crumb_size c then
    _ ← mmod (set_size crumb new_size); mret (u32 (crumb + UM_CRUMB_OVERHEAD))
  else if has_bits flags UMFI_NOMOVE then mret 0
  else
    _ ← heap_lock;
    ty ← gets htype;
    let flags := if has_bits ty HEAP_TILED then Z.lor flags UMFI_TILED else flags in
    r ← um_alloc_no_lock e new_size align flags;
    _ ← mwhen (negb (r =? 0))
          (s ← ld m_size crumb;
           _ ← memmove r (u32 (crumb + UM_CRUMB_OVERHEAD)) s;
           um_crumb_free_no_lock (fuel e) cra crumb);
    _ ← heap_unlock; mret r.

(** [_um_realloc]: a block, or 0. A NULL after the switch is ENOMEM. *)
Definition um_realloc (e : host) (block new_size align flags : Z) : H Z :=
  if block =? 0 then mret 0
  else if new_size =? 0 then _ ← um_free_maybe_lock (fuel e) block true; mret 0
  else
    x ← ld m_parent (block - 8);
    if STATUS x =? UMS_FREE then mfail Panic
    else
      let parent := PTR_FROM_UMINT x in
      mg ← ld m_magic parent;
      r ← (if mg =? UM_MAGIC_CRATE then um_crumb_realloc e parent (block - 8) new_size align flags
           else if mg =? UM_MAGIC_SEG then um_lump_realloc e parent (block - 8) new_size align flags
           else mfail Panic);
      if negb (r =? 0) then mret r else merr ENOMEM.

(** ** The C library functions on one heap *)

Definition size_align (size : Z) : Z := if size <? 32 then 4 else 16.

Definition tile_flags (h : heap) : Z := if has_bits (htype h) HEAP_TILED then UMFI_TILED else 0.

(** [_umalloc] *)
Definition umalloc (e : host) (size : Z) : H Z :=
  _ ← heap_lock;
  tf ← gets tile_flags;
  block ← um_alloc_no_lock e size (size_align size) tf;
  _ ← heap_unlock;
  if negb (block =? 0) then mret block else merr ENOMEM.

(** [_ucalloc] *)
Definition ucalloc (e : host) (count size : Z) : H Z :=
  let bytes := u32 (count * size) in
  if negb (size =? 0) && negb (bytes / size =? count) then mret 0
  else
    _ ← heap_lock;
    tf ← gets tile_flags;
    block ← um_alloc_no_lock e bytes (size_align size) (Z.lor UMFI_ZERO tf);
    _ ← heap_unlock;
    mret block.

Definition realloc (e : host) (block new_size : Z) : H Z :=
  if block =? 0 then umalloc e new_size
  else um_realloc e block new_size (size_align new_size) 0.

Definition um_expand (e : host) (block new_size : Z) : H Z := um_realloc e block new_size 4 UMFI_NOMOVE.

Definition free (fuel : nat) (block : Z) : H unit := um_free_maybe_lock fuel block true.

(** [_msize]: the test of the code is [block == NULL]. *)
Definition msize (block : Z) : H Z :=
  if block =? 0 then ld m_size (block - 8) else mret 0.

(** [_ucreate2], up to the semaphore: the heap at [memory], or [None]. *)
Definition heap_of_type (type : Z) : heap :=
  mk_heap type [] (replicate (Z.to_nat UM_BUCKETS) (mk_bucket 0 0))
    ((fun s => mk_crateset s 0 0 0) <$> [4; 8; 12; 16; 20]) 0 0 0
    ∅ ∅ ∅ ∅ ∅ ∅ ∅ (fun _ => 0) 0.

(** [sizeof (struct _uheap)] is a parameter: it depends on [_fmutex]. *)
Definition ucreate2 (sizeof_uheap memory size : Z) (clean : bool) (type : Z) : outcome heap (option Z) :=
  let t := Z.land type 3 in
  if negb (Z.land type (not32 15) =? 0) then Done None (heap_of_type type)
  else if negb (t =? HEAP_REGULAR) && negb (t =? HEAP_TILED) then Done None (heap_of_type type)
  else if Z.land type 10 =? 10 then Done None (heap_of_type type)
  else if (size <? HEAP_MIN_SIZE) || (size >? HEAP_MIN_SIZE + UM_MAX_SIZE) then Done None (heap_of_type type)
  else
    let diff := UM_ALIGN_DIFF memory 4 in
    let memory := memory + diff in
    let size := size - diff in
    if size <? HEAP_MIN_SIZE then Done None (heap_of_type type)
    else match um_addmem_nolock (memory + sizeof_uheap) (size - sizeof_uheap) clean (heap_of_type type) with
    | Done true h => Done (Some memory) h
    | Done false h => Done None h
    | Err e h => Err e h
    | Fault f => Fault f
    end.
