(* ===== verification/HeapFacts.v ===== *)
(** The layout of a heap: its segments are tiled by lumps whose headers and
    end tags are right, the buckets are doubly linked lists of exactly the free
    lumps of their sizes. Lumps that are being worked on are gaps of the layout. *)

From S2P Require Import Prelude Heap.

(** ** Sizes and parent words *)

(** [_UM_ROUND_LUMP] without the limit of 32 bits. *)
Definition rnd (s : Z) : Z := (s + 43) / 32 * 32.

Lemma round_lump s : 0 <= s -> s + 43 < 2 ^ 32 -> UM_ROUND_LUMP s = rnd s.
Proof.
  intros H0 H1. unfold UM_ROUND_LUMP, rnd, UM_LUMP_OVERHEAD, UM_PAGE_SIZE.
  change (32 - 1) with (2 ^ 5 - 1). rewrite land_not_mask by (apply u32_range || lia).
  rewrite u32_small by lia. f_equal. f_equal. lia.
Qed.

Lemma rnd_bounds s : s + 12 <= rnd s <= s + 43.
Proof.
  unfold rnd. pose proof (Z.div_mod (s + 43) 32). pose proof (Z.mod_pos_bound (s + 43) 32). lia.
Qed.

Lemma rnd_mod s : rnd s mod 32 = 0.
Proof. unfold rnd. apply Z.mod_mul. lia. Qed.

Lemma rnd_pos s : 0 <= s -> 32 <= rnd s.
Proof.
  intros. pose proof (rnd_bounds s). pose proof (rnd_mod s). pose proof (Z.div_mod (rnd s) 32). lia.
Qed.

(** The size kept in a free lump of [n] bytes. *)
Lemma rnd_free n : n mod 32 = 0 -> rnd (n - 12) = n.
Proof.
  intros Hn. unfold rnd. replace (n - 12 + 43) with (n + 31) by lia.
  pose proof (Z.div_mod n 32). pose proof (Z.div_mod (n + 31) 32).
  pose proof (Z.mod_pos_bound (n + 31) 32). lia.
Qed.

Lemma mod32_add a b : a mod 32 = 0 -> b mod 32 = 0 -> (a + b) mod 32 = 0.
Proof. intros Ha Hb. rewrite Z.add_mod, Ha, Hb by lia. done. Qed.

Lemma mod32_sub a b : a mod 32 = 0 -> b mod 32 = 0 -> (a - b) mod 32 = 0.
Proof. intros Ha Hb. rewrite Zminus_mod, Ha, Hb. done. Qed.

(** A parent word holds the address, a multiple of 8, and the status. *)
Lemma land_low x k : 0 <= k -> Z.land x (2 ^ k - 1) = x mod 2 ^ k.
Proof. intros. replace (2 ^ k - 1) with (Z.ones k) by (rewrite Z.ones_equiv; lia). by apply Z.land_ones. Qed.

Lemma low_disjoint p st : p mod 8 = 0 -> 0 <= st < 4 -> Z.land p st = 0.
Proof.
  intros Hp Hst. apply Z.bits_inj_iff'. intros n Hn. rewrite Z.land_spec, Z.bits_0.
  destruct (Z_lt_ge_dec n 3).
  - replace p with (p / 2 ^ 3 * 2 ^ 3) by (change (2 ^ 3) with 8; pose proof (Z.div_mod p 8); lia).
    by rewrite Z.mul_pow2_bits_low by lia.
  - rewrite (Z.bits_above_log2 st n); [by rewrite andb_false_r|lia|].
    destruct (Z.eq_dec st 0) as [->|]; [cbn; lia|].
    apply Z.log2_lt_pow2; [lia|]. apply Z.lt_le_trans with (2 ^ 3); [cbn; lia|].
    apply Z.pow_le_mono_r; lia.
Qed.

Lemma parent_word p st : p mod 8 = 0 -> 0 <= st < 4 -> Z.lor p st = p + st.
Proof.
  intros Hp Hst. pose proof (low_disjoint p st Hp Hst).
  by rewrite Z.add_nocarry_lxor, Z.lxor_lor.
Qed.

Lemma status_word p st : p mod 8 = 0 -> 0 <= st < 4 -> STATUS (Z.lor p st) = st.
Proof.
  intros Hp Hst. rewrite parent_word by done. unfold STATUS, UMS_MASK.
  change 3 with (2 ^ 2 - 1). rewrite land_low by lia. change (2 ^ 2) with 4.
  pose proof (Z.div_mod p 8). replace (p + st) with (st + 2 * (p / 8) * 4) by lia.
  rewrite Z.mod_add by lia. apply Z.mod_small. lia.
Qed.

Lemma ptr_word p st : 0 <= p -> p + st < 2 ^ 32 -> p mod 8 = 0 -> 0 <= st < 4 -> PTR_FROM_UMINT (Z.lor p st) = p.
Proof.
  intros H0 H1 Hp Hst. rewrite parent_word by done. unfold PTR_FROM_UMINT, UMF_MASK.
  change 7 with (2 ^ 3 - 1). rewrite land_not_mask by lia. change (2 ^ 3) with 8.
  pose proof (Z.div_mod p 8). replace (p + st) with (st + p / 8 * 8) by lia.
  rewrite Z.div_add, Z.div_small by lia. lia.
Qed.

Lemma aligned_mod p k : 0 <= k -> UM_IS_ALIGNED p (2 ^ k) = (p mod 2 ^ k =? 0).
Proof. intros. unfold UM_IS_ALIGNED. by rewrite land_low. Qed.

(** ** Buckets *)

Definition bucket_of (n : Z) : Z := Z.min 22 (Z.log2 n - 5).

Lemma bucket_of_range n : 32 <= n -> 0 <= bucket_of n < 23.
Proof. intros Hn. unfold bucket_of. pose proof (Z.log2_le_mono 32 n Hn). change (Z.log2 32) with 5 in *. lia. Qed.

Lemma find_bucket_run n h : 32 <= n -> um_find_bucket n h = Done (bucket_of n) h.
Proof.
  intros Hn. unfold um_find_bucket, UM_MIN_BUCKET, UM_BUCKETS, bucket_of.
  pose proof (Z.log2_le_mono 32 n Hn) as Hl. change (Z.log2 32) with 5 in Hl.
  replace (Z.log2 n + 1 - 1 - 5) with (Z.log2 n - 5) by lia.
  destruct (Z.geb_spec (Z.log2 n - 5) 23).
  - rewrite Z.min_l by lia. done.
  - rewrite Z.min_r by lia. rewrite (proj2 (Z.ltb_ge _ _)) by lia.
    destruct (Z.log2_spec n ltac:(lia)) as [H1 H2]. unfold UM_BUCKET_SIZE, UM_MIN_BUCKET.
    rewrite !Z.shiftl_1_l. replace (Z.log2 n - 5 + 5) with (Z.log2 n) by lia.
    replace (Z.log2 n - 5 + 1 + 5) with (Z.succ (Z.log2 n)) by lia.
    rewrite Z.gtb_ltb, (proj2 (Z.ltb_ge _ _)), (proj2 (Z.leb_gt _ _)) by lia. done.
Qed.

(** ** Layouts *)

(** A lump of a layout: address, size member, status. A lump whose header is
    being rewritten is a gap. *)
Definition GAP : Z := -1.

Record cell := mk_cell { c_addr : Z; c_size : Z; c_st : Z }.

Definition c_len (c : cell) : Z := rnd (c_size c).
Definition c_end (c : cell) : Z := c_addr c + c_len c.

(** A gap of [n] bytes, a multiple of the page size. *)
Definition gap (a n : Z) : cell := mk_cell a (n - 12) GAP.
Definition as_gap (c : cell) : cell := mk_cell (c_addr c) (c_size c) GAP.

Fixpoint tiles (a : Z) (cs : list cell) (e : Z) : Prop :=
  match cs with
  | [] => a = e
  | c :: cs' => c_addr c = a /\ 0 <= c_size c /\ (c_st c = GAP \/ 0 <= c_st c < 3) /\ tiles (c_end c) cs' e
  end.

(** The memory of a lump of the segment [sga]. *)
Definition cell_at (h : heap) (sga : Z) (c : cell) : Prop :=
  c_st c = GAP \/
  (m_size h !! c_addr c = Some (c_size c) /\ m_parent h !! c_addr c = Some (Z.lor sga (c_st c))
   /\ m_tag h !! (c_end c - 4) = Some (c_size c)).

Record seg_ok (s : seg) : Prop := mk_seg_ok {
  so_align : sg_addr s mod 8 = 0;
  so_mem : 0 < sg_mem s <= sg_addr s;
  so_start : sg_addr s + 32 <= sg_start s;
  so_page : sg_start s mod 32 = 24;
  so_end : sg_start s < sg_end s <= sg_mem s + sg_size s;
  so_size : 0 <= sg_size s;
  so_top : sg_mem s + sg_size s < 2 ^ 32
}.

Record seg_cells (h : heap) (s : seg) (cs : list cell) : Prop := mk_seg_cells {
  sc_ok : seg_ok s;
  sc_tiles : tiles (sg_start s) cs (sg_end s);
  sc_at : Forall (cell_at h (sg_addr s)) cs;
  sc_magic : m_magic h !! sg_addr s = Some UM_MAGIC_SEG
}.

(** Segments do not overlap. *)
Definition apart (s s' : seg) : Prop :=
  sg_mem s + sg_size s <= sg_mem s' \/ sg_mem s' + sg_size s' <= sg_mem s.

Definition segs_apart (l : list seg) : Prop :=
  forall i j s s', l !! i = Some s -> l !! j = Some s' -> i <> j -> apart s s'.

(** No two neighbours are free. *)
Fixpoint no_adj (cs : list cell) : Prop :=
  match cs with
  | c :: ((c' :: _) as cs') => ~ (c_st c = 0 /\ c_st c' = 0) /\ no_adj cs'
  | _ => True
  end.

Record lay (h : heap) (L : list (list cell)) : Prop := mk_lay {
  ly_segs : Forall2 (seg_cells h) (segs h) L;
  ly_apart : segs_apart (segs h)
}.

Lemma tiles_app a cs1 cs2 e :
  tiles a (cs1 ++ cs2) e <-> exists m, tiles a cs1 m /\ tiles m cs2 e.
Proof.
  revert a. induction cs1 as [|c cs1 IH]; intros a; cbn.
  - split; [intros H; by exists a|by intros (m & -> & H)].
  - rewrite IH. split.
    + intros (H1 & H2 & H3 & m & H4 & H5). by exists m.
    + intros (m & (H1 & H2 & H3 & H4) & H5). split_and!; [done..|]. by exists m.
Qed.

Lemma c_len_pos c : 0 <= c_size c -> 32 <= c_len c.
Proof. intros. by apply rnd_pos. Qed.

Lemma tiles_le a cs e : tiles a cs e -> a <= e /\ (cs <> [] -> a + 32 <= e).
Proof.
  revert a. induction cs as [|c cs IH]; intros a; cbn; [intros ->; split; [lia|done]|].
  intros (<- & H0 & _ & Ht). apply IH in Ht as [Ht _]. unfold c_end in Ht.
  pose proof (c_len_pos c H0). split; [lia|intros _; lia].
Qed.

Lemma tiles_mod a cs e k : tiles a cs e -> a mod 32 = k -> e mod 32 = k.
Proof.
  revert a. induction cs as [|c cs IH]; intros a; cbn; [by intros ->|].
  intros (<- & _ & _ & Ht) Ha. apply (IH _ Ht). unfold c_end, c_len.
  rewrite Z.add_mod, rnd_mod, Z.add_0_r, Z.mod_mod by lia. done.
Qed.

(** Each cell lies between the ends. *)
Lemma tiles_elem a cs e c :
  tiles a cs e -> c ∈ cs ->
  a <= c_addr c /\ c_end c <= e /\ 0 <= c_size c /\ c_addr c mod 32 = a mod 32.
Proof.
  revert a. induction cs as [|d cs IH]; intros a; cbn; [intros _ H; by apply elem_of_nil in H|].
  intros (<- & H0 & _ & Ht) [->|Hc]%elem_of_cons.
  - apply tiles_le in Ht as [? _]. lia.
  - pose proof (c_len_pos d H0) as Hp. destruct (IH _ Ht Hc) as (H1 & H2 & H3 & H4).
    unfold c_end in H1, H4. split_and!; [lia|done|done|]. rewrite H4. unfold c_len.
    rewrite Z.add_mod, rnd_mod, Z.add_0_r, Z.mod_mod by lia. done.
Qed.

(** *** A place in a layout *)

Record ctx := mk_ctx { k_l : list (list cell); k_a : list cell; k_b : list cell; k_r : list (list cell) }.

Definition plug (K : ctx) (xs : list cell) : list (list cell) := k_l K ++ (k_a K ++ xs ++ k_b K) :: k_r K.

(** The segment and the interval of the place. *)
Record region (h : heap) (K : ctx) (s : seg) (lo hi : Z) : Prop := mk_region {
  rg_seg : segs h !! length (k_l K) = Some s;
  rg_a : tiles (sg_start s) (k_a K) lo;
  rg_b : tiles hi (k_b K) (sg_end s)
}.

(** Headers, tags and magic words are the same outside of an interval. *)
Record same_outside (h h' : heap) (lo hi : Z) : Prop := mk_same_outside {
  su_segs : segs h' = segs h;
  su_size : forall a, ~ (lo <= a < hi) -> m_size h' !! a = m_size h !! a;
  su_parent : forall a, ~ (lo <= a < hi) -> m_parent h' !! a = m_parent h !! a;
  su_tag : forall a, ~ (lo <= a < hi) -> m_tag h' !! a = m_tag h !! a;
  su_magic : forall a, ~ (lo <= a < hi) -> m_magic h' !! a = m_magic h !! a
}.

Lemma same_refl h lo hi : same_outside h h lo hi.
Proof. done. Qed.

Lemma same_trans h1 h2 h3 lo hi : same_outside h1 h2 lo hi -> same_outside h2 h3 lo hi -> same_outside h1 h3 lo hi.
Proof.
  intros [A1 A2 A3 A4 A5] [B1 B2 B3 B4 B5]. constructor; [by rewrite B1|..]; intros a Ha;
    [rewrite B2, A2|rewrite B3, A3|rewrite B4, A4|rewrite B5, A5]; done.
Qed.

Lemma same_weaken h h' lo hi lo' hi' :
  same_outside h h' lo hi -> lo' <= lo -> hi <= hi' -> same_outside h h' lo' hi'.
Proof. intros [] ? ?. constructor; [done|..]; intros a Ha; eauto with lia. Qed.

Lemma cell_at_outside h h' sga lo hi c :
  same_outside h h' lo hi -> cell_at h sga c -> 0 <= c_size c -> c_end c <= lo \/ hi <= c_addr c ->
  cell_at h' sga c.
Proof.
  intros [_ H1 H2 H3 _] [Hg|(A1 & A2 & A3)] H0 Hc; [by left|right].
  pose proof (c_len_pos c H0). unfold c_end in *.
  rewrite H1, H2, H3 by lia. done.
Qed.

Lemma lay_region h K xs :
  lay h (plug K xs) ->
  exists s lo hi, region h K s lo hi /\ seg_ok s /\ tiles lo xs hi /\ Forall (cell_at h (sg_addr s)) xs
    /\ sg_start s <= lo /\ hi <= sg_end s.
Proof.
  intros [Hs _]. unfold plug in Hs. apply Forall2_app_inv_r in Hs as (l1 & l2 & Hl1 & Hl2 & Heq).
  inversion Hl2 as [|s cs l3 l4 [Hok Ht Ha Hm] Hl3]; subst.
  apply tiles_app in Ht as (lo & Hta & Ht). apply tiles_app in Ht as (hi & Htx & Htb).
  apply Forall_app in Ha as [_ Ha]. apply Forall_app in Ha as [Ha _].
  exists s, lo, hi. pose proof (tiles_le _ _ _ Hta). pose proof (tiles_le _ _ _ Htb).
  split_and!; [|done|done|done|lia|lia]. constructor; [|done|done].
  rewrite Heq, <-(Forall2_length _ _ _ Hl1). by apply list_lookup_middle.
Qed.

(** The cells of other segments are out of the way. *)
Lemma other_seg h s' cs s lo hi :
  seg_cells h s' cs -> seg_ok s -> apart s s' -> sg_start s <= lo -> hi <= sg_end s ->
  (forall c, c ∈ cs -> 0 <= c_size c /\ (c_end c <= lo \/ hi <= c_addr c)) /\ ~ (lo <= sg_addr s' < hi).
Proof.
  intros [[] Ht _ _] [] Hap Hlo Hhi.
  pose proof (tiles_le _ _ _ Ht) as [Hle _]. unfold apart in Hap. split; [|lia].
  intros c Hc. destruct (tiles_elem _ _ _ _ Ht Hc) as (H1 & H2 & H3 & _). split; [done|]. lia.
Qed.

Lemma seg_cells_outside h h' s' cs lo hi :
  same_outside h h' lo hi -> seg_cells h s' cs ->
  (forall c, c ∈ cs -> 0 <= c_size c /\ (c_end c <= lo \/ hi <= c_addr c)) -> ~ (lo <= sg_addr s' < hi) ->
  seg_cells h' s' cs.
Proof.
  intros Hsame [H1 H2 H3 H4] Hc Hm. constructor; [done|done| |].
  - rewrite Forall_forall in *. intros c Hin. destruct (Hc c Hin).
    eapply cell_at_outside; [done|by apply H3|done|done].
  - by rewrite (su_magic _ _ _ _ Hsame).
Qed.

(** The cells of a place are replaced when only its memory changes. *)
Lemma lay_replace h h' K xs ys s lo hi :
  lay h (plug K xs) -> region h K s lo hi -> tiles lo xs hi -> tiles lo ys hi ->
  same_outside h h' lo hi -> Forall (cell_at h' (sg_addr s)) ys -> lay h' (plug K ys).
Proof.
  intros [Hs Hap] [Rs Ra Rb] Htx Hty Hsame Hys. split; [|by rewrite (su_segs _ _ _ _ Hsame)].
  rewrite (su_segs _ _ _ _ Hsame). pose proof (tiles_le _ _ _ Ra) as [Hlo _].
  pose proof (tiles_le _ _ _ Rb) as [Hhi _].
  unfold plug in *. apply Forall2_app_inv_r in Hs as (l1 & l2 & Hl1 & Hl2 & Heq).
  inversion Hl2 as [|s0 cs l3 l4 [Hok Ht Ha Hm] Hl3]; subst.
  assert (s0 = s) as ->.
  { rewrite Heq, <-(Forall2_length _ _ _ Hl1), list_lookup_middle in Rs by done. congruence. }
  assert (Hother : forall i s', segs h !! i = Some s' -> i <> length l1 -> forall cs', seg_cells h s' cs' -> seg_cells h' s' cs').
  { intros i s' Hi Hne cs' Hcs'. assert (Hi0 : segs h !! length l1 = Some s).
    { rewrite Heq. by apply list_lookup_middle. }
    destruct (other_seg h s' cs' s lo hi Hcs' Hok) as [Hc1 Hc2]; [|done|done|].
    - eapply Hap; [exact Hi0|exact Hi|]. congruence.
    - by eapply seg_cells_outside. }
  rewrite Heq in *. apply Forall2_app; [|constructor].
  - apply Forall2_same_length_lookup. apply Forall2_same_length_lookup in Hl1 as [Hlen Hl1].
    split; [done|]. intros i s' cs' Hi Hcs'. pose proof (lookup_lt_Some _ _ _ Hi).
    eapply (Hother i); [by rewrite lookup_app_l|lia|by eapply Hl1].
  - constructor; [done| | |].
    + apply tiles_app. exists lo. split; [done|]. apply tiles_app. by exists hi.
    + apply Forall_app in Ha as [Haa Hab]. apply Forall_app in Hab as [_ Hab].
      pose proof (so_start _ Hok). apply Forall_app; split; [|apply Forall_app; split; [done|]].
      * rewrite Forall_forall in *. intros c Hc. destruct (tiles_elem _ _ _ _ Ra Hc) as (? & ? & ? & _).
        eapply cell_at_outside; [done|by apply Haa|done|lia].
      * rewrite Forall_forall in *. intros c Hc. destruct (tiles_elem _ _ _ _ Rb Hc) as (? & ? & ? & _).
        eapply cell_at_outside; [done|by apply Hab|done|lia].
    + rewrite (su_magic _ _ _ _ Hsame); [done|]. pose proof (so_start _ Hok). lia.
  - apply Forall2_same_length_lookup. apply Forall2_same_length_lookup in Hl3 as [Hlen Hl3].
    split; [done|]. intros i s' cs' Hi Hcs'.
    eapply (Hother (length l1 + S i)%nat); [|lia|by eapply Hl3].
    rewrite lookup_app_r by lia. replace (length l1 + S i - length l1)%nat with (S i) by lia. done.
Qed.
