(* ===== verification/HeapBuckets.v ===== *)
(** The buckets of a heap: doubly linked lists through the [next] and [prev]
    members of free lumps. Linking and unlinking a lump change these members
    and the bucket's ends only. *)

From S2P Require Import Prelude Heap HeapFacts.

(** ** Doubly linked list segments *)

(** The list [l] from [f] to [lst], entered from [pv] and left to [nx]. *)
Fixpoint dls (h : heap) (pv : Z) (l : list Z) (f lst nx : Z) : Prop :=
  match l with
  | [] => f = nx /\ lst = pv
  | a :: l' => f = a /\ a <> 0 /\ m_prev h !! a = Some pv
      /\ exists n, m_next h !! a = Some n /\ dls h a l' n lst nx
  end.

Definition dll (h : heap) (bk : bucket) (l : list Z) : Prop := dls h 0 l (bk_head bk) (bk_tail bk) 0.

Lemma dls_app h pv l1 l2 f lst nx :
  dls h pv (l1 ++ l2) f lst nx <-> exists m x, dls h pv l1 f m x /\ dls h m l2 x lst nx.
Proof.
  revert pv f. induction l1 as [|a l1 IH]; intros pv f; cbn.
  - split; [intros H; by exists pv, f|by intros (m & x & [-> ->] & H)].
  - split.
    + intros (-> & H0 & Hp & n & Hn & H). apply IH in H as (m & x & H1 & H2).
      exists m, x. split; [|done]. split_and!; [done..|]. by exists n.
    + intros (m & x & (-> & H0 & Hp & n & Hn & H1) & H2). split_and!; [done..|].
      exists n. split; [done|]. apply IH. by exists m, x.
Qed.

Lemma dls_frame h h' pv l f lst nx :
  (forall a, a ∈ l -> m_next h' !! a = m_next h !! a /\ m_prev h' !! a = m_prev h !! a) ->
  dls h pv l f lst nx -> dls h' pv l f lst nx.
Proof.
  revert pv f. induction l as [|a l IH]; intros pv f Hsame; cbn; [done|].
  intros (-> & H0 & Hp & n & Hn & H). destruct (Hsame a) as [E1 E2]; [left|].
  rewrite E1, E2. split_and!; [done..|]. exists n. split; [done|].
  apply IH; [|done]. intros b Hb. apply Hsame. by right.
Qed.

(** First and last element. *)
Lemma dls_first h pv l f lst nx : dls h pv l f lst nx -> f = default nx (head l).
Proof. destruct l as [|a l]; cbn; [by intros [-> _]|by intros (-> & _)]. Qed.

Lemma dls_last h pv l f lst nx : dls h pv l f lst nx -> lst = default pv (last l).
Proof.
  revert pv f. induction l as [|a l IH]; intros pv f; cbn; [by intros [_ ->]|].
  intros (-> & _ & _ & n & _ & H). apply IH in H. destruct l as [|b l]; [done|].
  rewrite H. change (last (a :: b :: l)) with (last (b :: l)).
  destruct (last (b :: l)) eqn:Hl; [done|]. by apply last_None in Hl.
Qed.

Lemma dls_nonzero h pv l f lst nx a : dls h pv l f lst nx -> a ∈ l -> a <> 0.
Proof.
  revert pv f. induction l as [|b l IH]; intros pv f; cbn; [intros _ H; by apply elem_of_nil in H|].
  intros (-> & H0 & _ & n & _ & H) [->|Ha]%elem_of_cons; [done|by eapply IH].
Qed.

(** The end of a list is redirected by a store to its last element. *)
Lemma dls_set_last h h' pv l f nx nx' a :
  dls h pv (l ++ [a]) f a nx -> a ∉ l ->
  m_next h' !! a = Some nx' -> m_prev h' !! a = m_prev h !! a ->
  (forall b, b ∈ l -> m_next h' !! b = m_next h !! b /\ m_prev h' !! b = m_prev h !! b) ->
  dls h' pv (l ++ [a]) f a nx'.
Proof.
  intros H Ha Hn Hp Hs. apply dls_app in H as (m & x & H1 & H2). apply dls_app. exists m, x.
  split; [by eapply dls_frame|]. cbn in H2 |- *. destruct H2 as (-> & H0 & Hpa & _).
  rewrite Hp. split_and!; [done..|]. exists nx'. by split.
Qed.

(** And its start by a store to its first element. *)
Lemma dls_set_first h h' pv pv' l f lst nx a :
  dls h pv (a :: l) f lst nx -> a ∉ l ->
  m_prev h' !! a = Some pv' -> m_next h' !! a = m_next h !! a ->
  (forall b, b ∈ l -> m_next h' !! b = m_next h !! b /\ m_prev h' !! b = m_prev h !! b) ->
  dls h' pv' (a :: l) f lst nx.
Proof.
  cbn. intros (-> & H0 & _ & n & Hn & H) Ha Hp Hn' Hs. rewrite Hp, Hn'. split_and!; [done..|].
  exists n. split; [done|]. by eapply dls_frame.
Qed.

(** ** All buckets *)

Definition upd (B : Z -> list Z) (b : Z) (l : list Z) (x : Z) : list Z := if decide (x = b) then l else B x.

Record bks (h : heap) (B : Z -> list Z) : Prop := mk_bks {
  bk_len : alen (buckets h) = UM_BUCKETS;
  bk_dll : forall b, 0 <= b < UM_BUCKETS -> exists bk, aget (buckets h) b = Some bk /\ dll h bk (B b);
  bk_nodup : forall b, 0 <= b < UM_BUCKETS -> NoDup (B b);
  bk_disj : forall b b' a, 0 <= b < UM_BUCKETS -> 0 <= b' < UM_BUCKETS -> a ∈ B b -> a ∈ B b' -> b = b'
}.

(** Everything but the links and the ends of the buckets is the same. *)
Definition links_only (h h' : heap) : Prop :=
  htype h' = htype h /\ segs h' = segs h /\ cratesets h' = cratesets h /\ n_segments h' = n_segments h
  /\ n_crates h' = n_crates h /\ max_crumbs h' = max_crumbs h /\ m_size h' = m_size h
  /\ m_parent h' = m_parent h /\ m_tag h' = m_tag h /\ m_magic h' = m_magic h /\ crates h' = crates h
  /\ m_data h' = m_data h /\ fsem h' = fsem h.

Lemma links_only_refl h : links_only h h.
Proof. by repeat split. Qed.

Lemma links_only_trans h1 h2 h3 : links_only h1 h2 -> links_only h2 h3 -> links_only h1 h3.
Proof. unfold links_only. intuition congruence. Qed.

(** The links of other addresses stay. *)
Definition links_frame (h h' : heap) (l : list Z) : Prop :=
  forall a, a ∉ l -> m_next h' !! a = m_next h !! a /\ m_prev h' !! a = m_prev h !! a.

Lemma put_bucket_run b bk h : put_bucket b bk h = Done () (set_buckets (aset (buckets h) b bk) h).
Proof. done. Qed.

Lemma get_bucket_run b bk h : aget (buckets h) b = Some bk -> get_bucket b h = Done bk h.
Proof. intros Hb. unfold get_bucket. erewrite run_bind by done. by rewrite Hb. Qed.

Lemma ld_run f a v h : f h !! a = Some v -> ld f a h = Done v h.
Proof. intros Hv. unfold ld. erewrite run_bind by done. by rewrite Hv. Qed.

(** The list of one bucket changes. *)
Lemma bks_update h h' B b bk l :
  bks h B -> 0 <= b < UM_BUCKETS -> links_frame h h' (B b ++ l) ->
  buckets h' = aset (buckets h) b bk -> dll h' bk l -> NoDup l ->
  (forall a b', 0 <= b' < UM_BUCKETS -> b' <> b -> a ∈ l -> a ∉ B b') ->
  bks h' (upd B b l).
Proof.
  intros [H1 H2 H3 H4] Hb Hf Hbk Hdll Hnd Hdisj. constructor.
  - by rewrite Hbk, alen_aset.
  - intros b' Hb'. unfold upd. rewrite Hbk, aget_aset by (rewrite H1; lia). case_decide as Hd.
    + subst b'. exists bk. by rewrite decide_True.
    + rewrite decide_False by congruence. destruct (H2 b' Hb') as (bk' & Hbk' & Hd').
      exists bk'. split; [done|]. eapply dls_frame; [|exact Hd']. intros a Ha. apply Hf.
      intros [Hin|Hin]%elem_of_app; [apply Hd; symmetry; by apply (H4 b' b a)|by eapply Hdisj].
  - intros b' Hb'. unfold upd. case_decide; [done|by apply H3].
  - intros b1 b2 a Hb1 Hb2. unfold upd. repeat case_decide; subst; intros Ha1 Ha2; try done.
    + by destruct (Hdisj a b2 Hb2 ltac:(congruence) Ha1).
    + by destruct (Hdisj a b1 Hb1 ltac:(congruence) Ha2).
    + by eapply H4.
Qed.

Lemma link_bucket_run h B b a :
  bks h B -> 0 <= b < UM_BUCKETS -> a <> 0 -> (forall b', 0 <= b' < UM_BUCKETS -> a ∉ B b') ->
  exists h', um_lump_link_bucket b a h = Done () h' /\ links_only h h' /\ links_frame h h' (a :: B b)
    /\ bks h' (upd B b (a :: B b)).
Proof.
  intros Hbk Hb Ha Hnot. destruct (bk_dll _ _ Hbk b Hb) as ([hd tl] & Hget & Hdll).
  pose proof (bk_len _ _ Hbk) as Hlen. unfold um_lump_link_bucket.
  erewrite run_bind by done. erewrite run_bind by (by apply (get_bucket_run b (mk_bucket hd tl))). cbn [bk_head bk_tail].
  unfold dll in Hdll. cbn in Hdll. destruct (B b) as [|x l] eqn:HB.
  - destruct Hdll as [-> ->]. cbn [Z.eqb negb]. erewrite run_bind by done.
    erewrite run_bind by (apply get_bucket_run; cbn; apply aget_aset_eq; lia).
    erewrite run_bind by done. eexists. split; [done|]. split; [by repeat split|].
    match goal with |- links_frame _ ?h2 _ /\ _ => assert (Hf : links_frame h h2 [a]) end.
    { intros y Hy. cbn in *. apply not_elem_of_cons in Hy as [Hy _].
      rewrite !lookup_insert_ne by congruence. done. }
    split; [done|]. apply (bks_update h _ B b (mk_bucket a a)); try done.
    + by rewrite HB.
    + cbn. by rewrite aset_aset.
    + cbn. split_and!; [done|done|by rewrite lookup_insert_eq|]. exists 0. by rewrite lookup_insert_eq.
    + apply NoDup_singleton.
    + intros y b' Hb' _ ->%list_elem_of_singleton. by apply Hnot.
  - pose proof (bk_nodup _ _ Hbk b Hb) as Hnd. rewrite HB in Hnd.
    apply NoDup_cons in Hnd as Hnd2. destruct Hnd2 as [Hx Hl].
    pose proof (Hnot b Hb) as Hab. rewrite HB in Hab. apply not_elem_of_cons in Hab as [Hax Hal].
    assert (hd = x) as -> by (destruct Hdll as (-> & _); done).
    assert (Hx0 : x <> 0) by (by eapply dls_nonzero; [|left]).
    rewrite (proj2 (Z.eqb_neq x 0)) by done. cbn [negb]. erewrite run_bind by done.
    erewrite run_bind by (by apply (get_bucket_run b (mk_bucket x tl))).
    erewrite run_bind by done. eexists. split; [done|]. split; [by repeat split|].
    match goal with |- links_frame _ ?h2 _ /\ _ => assert (Hf : links_frame h h2 (a :: x :: l)) end.
    { intros y Hy. apply not_elem_of_cons in Hy as [Hya Hy]. apply not_elem_of_cons in Hy as [Hyx _].
      cbn. rewrite !lookup_insert_ne by congruence. done. }
    split; [done|]. apply (bks_update h _ B b (mk_bucket a tl)); try done.
    + rewrite HB. intros y Hy. apply Hf. set_solver.
    + change (dls (set_buckets (aset (buckets (set_next a x (set_prev x a (set_prev a 0 h)))) b (mk_bucket a tl))
        (set_next a x (set_prev x a (set_prev a 0 h)))) 0 (a :: x :: l) a tl 0).
      split_and!; [done|done| |].
      { cbn. rewrite lookup_insert_ne by congruence. by rewrite lookup_insert_eq. }
      exists x. cbn [m_next set_buckets set_next]. rewrite lookup_insert_eq. split; [done|].
      eapply (dls_set_first h _ 0); [exact Hdll|done| | |].
      * cbn. by rewrite lookup_insert_eq.
      * cbn. by rewrite lookup_insert_ne by congruence.
      * intros y Hy. cbn. rewrite !lookup_insert_ne by set_solver. done.
    + by apply NoDup_cons; split; [apply not_elem_of_cons|].
    + intros y b' Hb' Hne [->|Hy]%elem_of_cons; [by apply Hnot|].
      intros Hy'. apply Hne. symmetry. apply (bk_disj _ _ Hbk b b' y); [done..| |done]. by rewrite HB.
Qed.

Lemma unlink_bucket_run h B b a :
  bks h B -> 0 <= b < UM_BUCKETS -> a ∈ B b ->
  exists h' l1 l2, um_lump_unlink_bucket b a h = Done () h' /\ links_only h h' /\ links_frame h h' (B b)
    /\ B b = l1 ++ a :: l2 /\ bks h' (upd B b (l1 ++ l2)).
Proof.
  intros Hbk Hb (l1 & l2 & HB)%list_elem_of_split.
  destruct (bk_dll _ _ Hbk b Hb) as ([hd tl] & Hget & Hdll). pose proof (bk_len _ _ Hbk) as Hlen.
  pose proof (bk_nodup _ _ Hbk b Hb) as Hnd. rewrite HB in Hnd, Hdll.
  unfold dll in Hdll. cbn [bk_head bk_tail] in Hdll.
  apply dls_app in Hdll as (p & x & Hd1 & Hd2). cbn in Hd2. destruct Hd2 as (-> & Ha0 & Hpa & n & Hna & Hd2).
  pose proof (dls_last _ _ _ _ _ _ Hd1) as Hp. pose proof (dls_first _ _ _ _ _ _ Hd2) as Hn.
  apply NoDup_app in Hnd as (Hnd1 & Hnd12 & Hnd2). apply NoDup_cons in Hnd2 as [Ha2 Hnd2].
  assert (Ha1 : a ∉ l1) by (intros ?; apply (Hnd12 a); [done|left]).
  assert (H12 : forall y, y ∈ l1 -> y ∉ l2) by (intros y Hy ?; apply (Hnd12 y Hy); by right).
  unfold um_lump_unlink_bucket. erewrite run_bind by (by apply ld_run).
  erewrite run_bind by (by apply ld_run). erewrite run_bind by (by apply get_bucket_run). cbn [bk_head bk_tail].
  (* the store to the predecessor *)
  set (h1 := if p =? 0 then set_buckets (aset (buckets h) b (mk_bucket n tl)) h else set_next p n h).
  erewrite (run_bind _ _ _ () h1) by (unfold h1; by destruct (p =? 0)).
  set (hd1 := if p =? 0 then n else hd).
  assert (Hg1 : aget (buckets h1) b = Some (mk_bucket hd1 tl)).
  { unfold h1, hd1. destruct (p =? 0); [|done]. cbn. apply aget_aset_eq. lia. }
  erewrite run_bind by (by apply get_bucket_run). cbn [bk_head bk_tail].
  set (h2 := if n =? 0 then set_buckets (aset (buckets h1) b (mk_bucket hd1 p)) h1 else set_prev n p h1).
  set (tl2 := if n =? 0 then p else tl).
  exists h2, l1, l2. split; [unfold h2; by destruct (n =? 0)|].
  split; [unfold h2, h1; destruct (n =? 0), (p =? 0); by repeat split|].
  (* what changed *)
  assert (Hnext : forall y, m_next h2 !! y = if decide (y = p /\ p <> 0) then Some n else m_next h !! y).
  { intros y. replace (m_next h2) with (m_next h1) by (unfold h2; by destruct (n =? 0)).
    unfold h1. destruct (Z.eqb_spec p 0) as [->|Hp0]; [by rewrite decide_False by tauto|]. cbn.
    destruct (decide (y = p)) as [->|]; [rewrite decide_True by done; apply lookup_insert_eq|].
    rewrite decide_False by tauto. by apply lookup_insert_ne. }
  assert (Hprev : forall y, m_prev h2 !! y = if decide (y = n /\ n <> 0) then Some p else m_prev h !! y).
  { intros y. unfold h2. destruct (Z.eqb_spec n 0) as [->|Hn0].
    - rewrite decide_False by tauto. unfold h1. by destruct (p =? 0).
    - cbn. replace (m_prev h1) with (m_prev h) by (unfold h1; by destruct (p =? 0)).
      destruct (decide (y = n)) as [->|]; [rewrite decide_True by done; apply lookup_insert_eq|].
      rewrite decide_False by tauto. by apply lookup_insert_ne. }
  assert (Hbuck : buckets h2 = aset (buckets h) b (mk_bucket hd1 tl2)).
  { unfold h2, tl2, h1, hd1. destruct (p =? 0), (n =? 0); cbn; rewrite ?aset_aset; try done.
    by rewrite aset_id. }
  assert (Hpin : p <> 0 -> p ∈ l1).
  { intros Hp0. subst p. destruct (last l1) as [y|] eqn:Hl; [|done]. cbn in *. by apply last_Some_elem_of. }
  assert (Hnin : n <> 0 -> n ∈ l2).
  { intros Hn0. subst n. destruct l2 as [|y l2]; [done|]. cbn. left. }
  assert (Hf : links_frame h h2 (B b)).
  { intros y Hy. rewrite HB in Hy. rewrite Hnext, Hprev. rewrite !decide_False; [done|set_solver|set_solver]. }
  split; [done|]. split; [done|]. apply (bks_update h _ B b (mk_bucket hd1 tl2)); try done.
  - intros y Hy. apply Hf. set_solver.
  - unfold dll. cbn [bk_head bk_tail]. apply dls_app. exists p, n. split.
    + destruct l1 as [|z l1 _] using rev_ind.
      * cbn in Hp |- *. subst p. unfold hd1. cbn. done.
      * rewrite last_snoc in Hp. cbn in Hp. subst z.
        assert (Hp0 : p <> 0) by (eapply dls_nonzero; [exact Hd1|set_solver]).
        unfold hd1. rewrite (proj2 (Z.eqb_neq p 0)) by done.
        apply NoDup_app in Hnd1 as (_ & Hpl & _).
        eapply (dls_set_last h); [exact Hd1|set_solver| | |].
        -- rewrite Hnext. by rewrite decide_True by tauto.
        -- rewrite Hprev, decide_False; [done|]. intros [-> ?]. apply (H12 n); [set_solver|by apply Hnin].
        -- intros y Hy. rewrite Hnext, Hprev, !decide_False; [done| |].
           ++ intros [-> ?]. apply (H12 n); [set_solver|by apply Hnin].
           ++ intros [-> ?]. set_solver.
    + destruct l2 as [|z l2].
      * cbn in Hn. subst n. cbn. unfold tl2. by split.
      * cbn in Hn. subst n. assert (Hz0 : z <> 0) by (eapply dls_nonzero; [exact Hd2|left]).
        unfold tl2. rewrite (proj2 (Z.eqb_neq z 0)) by done.
        apply NoDup_cons in Hnd2 as [Hzl Hnd2].
        eapply (dls_set_first h); [exact Hd2|done| | |].
        -- rewrite Hprev. by rewrite decide_True by tauto.
        -- rewrite Hnext, decide_False; [done|]. intros [-> ?]. apply (H12 p); [by apply Hpin|left].
        -- intros y Hy. rewrite Hnext, Hprev, !decide_False; [done| |].
           ++ intros [-> ?]. done.
           ++ intros [-> ?]. apply (H12 p); [by apply Hpin|by right].
  - apply NoDup_app. split_and!; [done|done|done].
  - intros y b' Hb' Hne Hy Hy'. apply Hne. symmetry. apply (bk_disj _ _ Hbk b b' y); [done..| |done].
    rewrite HB. set_solver.
Qed.
