(* ===== verification/HeapLumps.v ===== *)
(** Lumps of a heap: splitting, coalescing, linking and unlinking keep the
    invariant that ties the layout to the buckets, and touch no lump in use. *)

From S2P Require Import Prelude Heap HeapFacts HeapBuckets.

(** ** The invariant *)

(** A free lump at [a] that belongs in bucket [b]. *)
Definition free_at (L : list (list cell)) (a b : Z) : Prop :=
  exists c, c ∈ concat L /\ c_addr c = a /\ c_st c = 0 /\ bucket_of (c_len c) = b.

Record hinv (h : heap) (L : list (list cell)) (B : Z -> list Z) : Prop := mk_hinv {
  hv_lay : lay h L;
  hv_adj : Forall no_adj L;
  hv_bks : bks h B;
  hv_free : forall a b, 0 <= b < UM_BUCKETS -> a ∈ B b <-> free_at L a b
}.

(** Lumps in use. *)
Definition live (L : list (list cell)) : list cell := filter (fun c => 0 < c_st c) (concat L).

Definition others (K : ctx) : list cell := concat (k_l K) ++ k_a K ++ k_b K ++ concat (k_r K).

Lemma elem_of_plug K xs c : c ∈ concat (plug K xs) <-> c ∈ xs \/ c ∈ others K.
Proof.
  unfold plug, others. rewrite concat_app. cbn [concat]. rewrite !elem_of_app. tauto.
Qed.

Lemma elem_of_live L c : c ∈ live L <-> 0 < c_st c /\ c ∈ concat L.
Proof. unfold live. by rewrite list_elem_of_filter. Qed.

(** The lumps in use do not depend on what fills a place without them. *)
Lemma live_plug K xs ys :
  filter (fun c => 0 < c_st c) xs = filter (fun c => 0 < c_st c) ys -> live (plug K xs) = live (plug K ys).
Proof. intros Heq. unfold live, plug. rewrite !concat_app. cbn [concat]. rewrite !filter_app. by rewrite Heq. Qed.

Lemma live_idle K xs : Forall (fun c => c_st c <= 0) xs -> live (plug K xs) = live (plug K []).
Proof.
  intros Hx. apply live_plug. induction Hx as [|c xs Hc Hx IH]; [done|].
  rewrite filter_cons_False by lia. done.
Qed.

Lemma Forall_plug (P : list cell -> Prop) K xs :
  Forall P (plug K xs) <-> Forall P (k_l K) /\ P (k_a K ++ xs ++ k_b K) /\ Forall P (k_r K).
Proof. unfold plug. rewrite Forall_app, Forall_cons. done. Qed.

Lemma elem_of_concat {A} (c : A) L : c ∈ concat L <-> exists cs, cs ∈ L /\ c ∈ cs.
Proof.
  rewrite list_elem_of_In, in_concat. split; intros (cs & H1 & H2); exists cs;
    by rewrite !list_elem_of_In in *.
Qed.

(** Everything outside of a place is outside of its interval. *)
Lemma others_outside h K xs s lo hi d :
  lay h (plug K xs) -> region h K s lo hi -> tiles lo xs hi -> d ∈ others K ->
  0 <= c_size d /\ (c_end d <= lo \/ hi <= c_addr d).
Proof.
  intros [Hs Hap] [Rs Ra Rb] Htx Hd. unfold others in Hd. rewrite !elem_of_app in Hd.
  pose proof (tiles_le _ _ _ Htx) as [Hlh _].
  assert (Hseg : forall i s' cs, segs h !! i = Some s' -> i <> length (k_l K) -> plug K xs !! i = Some cs ->
    d ∈ cs -> seg_ok s -> 0 <= c_size d /\ (c_end d <= lo \/ hi <= c_addr d)).
  { intros i s' cs Hi Hne Hcs Hdc Hok. pose proof (Forall2_lookup_lr _ _ _ _ _ _ Hs Hi Hcs) as Hsc.
    destruct (other_seg h s' cs s lo hi Hsc Hok) as [H1 _]; [| | |by apply H1].
    - eapply Hap; [exact Rs|exact Hi|congruence].
    - apply tiles_le in Ra as [? _]. lia.
    - apply tiles_le in Rb as [? _]. lia. }
  assert (Hok : seg_ok s).
  { destruct (Forall2_lookup_l _ _ _ _ _ Hs Rs) as (cs & _ & []). done. }
  destruct Hd as [Hd|[Hd|[Hd|Hd]]].
  - apply elem_of_concat in Hd as (cs & Hcs & Hin). apply list_elem_of_lookup in Hcs as [i Hi].
    pose proof (lookup_lt_Some _ _ _ Hi).
    assert (Hp : plug K xs !! i = Some cs) by (unfold plug; by rewrite lookup_app_l).
    destruct (Forall2_lookup_r _ _ _ _ _ Hs Hp) as (s' & Hs' & _). eapply Hseg; eauto. lia.
  - destruct (tiles_elem _ _ _ _ Ra Hd) as (? & ? & ? & _). lia.
  - destruct (tiles_elem _ _ _ _ Rb Hd) as (? & ? & ? & _). lia.
  - apply elem_of_concat in Hd as (cs & Hcs & Hin). apply list_elem_of_lookup in Hcs as [i Hi].
    assert (Hp : plug K xs !! (length (k_l K) + S i)%nat = Some cs).
    { unfold plug. rewrite lookup_app_r by lia. by replace (length (k_l K) + S i - length (k_l K))%nat with (S i) by lia. }
    destruct (Forall2_lookup_r _ _ _ _ _ Hs Hp) as (s' & Hs' & _). eapply Hseg; eauto. lia.
Qed.

(** ** Neighbours *)

Definition is_free (o : option cell) : Prop := match o with Some c => c_st c = 0 | None => False end.

Lemma no_adj_app l1 l2 :
  no_adj (l1 ++ l2) <-> no_adj l1 /\ no_adj l2 /\ ~ (is_free (last l1) /\ is_free (head l2)).
Proof.
  induction l1 as [|c l1 IH]; [cbn; tauto|]. destruct l1 as [|d l1].
  - cbn [app last]. destruct l2 as [|e l2]; cbn; tauto.
  - change (no_adj ((c :: d :: l1) ++ l2)) with (~ (c_st c = 0 /\ c_st d = 0) /\ no_adj ((d :: l1) ++ l2)).
    change (last (c :: d :: l1)) with (last (d :: l1)).
    rewrite IH. cbn [no_adj]. tauto.
Qed.

Lemma no_adj_mid l1 c l2 :
  no_adj (l1 ++ [c] ++ l2) <->
    no_adj l1 /\ no_adj l2 /\ (c_st c = 0 -> ~ is_free (last l1) /\ ~ is_free (head l2))
    /\ ~ (False /\ is_free (last l1)).
Proof.
  rewrite !no_adj_app. cbn [last head app is_free no_adj]. 
  assert (Hl : last [c] = Some c) by done.
  destruct l2 as [|d l2]; cbn [head is_free]; tauto.
Qed.

(** ** Reading and writing headers *)

Lemma lay_links h h' L : lay h L -> links_only h h' -> lay h' L.
Proof.
  intros [Hs Hap] (_ & E1 & _ & _ & _ & _ & E2 & E3 & E4 & E5 & _).
  split; rewrite E1; [|done]. eapply Forall2_impl; [exact Hs|].
  intros s cs [H1 H2 H3 H4]. constructor; [done|done| |by rewrite E5].
  eapply Forall_impl; [exact H3|]. intros c [?|?]; [by left|right]. by rewrite E2, E3, E4.
Qed.

Lemma heap_seg_run h L i s : lay h L -> segs h !! i = Some s -> get_seg (sg_addr s) h = Done s h.
Proof.
  intros [Hs Hap] Hi. unfold get_seg. erewrite run_bind by done.
  enough (find_seg (sg_addr s) h = Some s) as ->; [done|]. unfold find_seg.
  assert (Hf : list_find (fun s' => sg_addr s' = sg_addr s) (segs h) = Some (i, s)).
  { apply list_find_Some. split_and!; [done|done|]. intros j s' Hj Hlt Heq.
    destruct (Forall2_lookup_l _ _ _ _ _ Hs Hi) as (c1 & _ & [[] T1 _ _]).
    destruct (Forall2_lookup_l _ _ _ _ _ Hs Hj) as (c2 & _ & [[] T2 _ _]).
    destruct (Hap i j s s' Hi Hj); lia. }
  by rewrite Hf.
Qed.

Lemma set_size_run a s h :
  0 <= s -> 32 <= a -> a + rnd s < 2 ^ 32 ->
  um_lump_set_size a s h = Done () (set_tag (a + rnd s - 4) s (set_size a s h)).
Proof.
  intros H0 H1 H2. pose proof (rnd_bounds s). unfold um_lump_set_size. erewrite run_bind by done.
  unfold next_lump.
  erewrite run_bind.
  2:{ erewrite run_bind by (apply ld_run; cbn; apply lookup_insert_eq). done. }
  rewrite round_lump by lia. rewrite u32_small by lia. done.
Qed.

(** Facts about the address and length of a lump of a segment. *)
Lemma seg_bounds s lo hi xs c :
  seg_ok s -> sg_start s <= lo -> hi <= sg_end s -> tiles lo xs hi -> c ∈ xs ->
  56 <= c_addr c /\ 0 <= c_size c /\ 32 <= c_len c /\ c_end c < 2 ^ 32 /\ c_size c + 43 < 2 ^ 32
  /\ lo <= c_addr c /\ c_end c <= hi /\ c_addr c mod 32 = lo mod 32.
Proof.
  intros [] Hlo Hhi Ht Hc. destruct (tiles_elem _ _ _ _ Ht Hc) as (H1 & H2 & H3 & H4).
  pose proof (c_len_pos c H3). unfold c_end, c_len in *. pose proof (rnd_bounds (c_size c)).
  pose proof (Z.div_mod (sg_start s) 32). split_and!; lia.
Qed.

(** ** What an operation leaves alone *)

Record agree (h h' : heap) (a : Z) : Prop := mk_agree {
  ag_size : m_size h' !! a = m_size h !! a;
  ag_parent : m_parent h' !! a = m_parent h !! a;
  ag_next : m_next h' !! a = m_next h !! a;
  ag_prev : m_prev h' !! a = m_prev h !! a;
  ag_tag : m_tag h' !! a = m_tag h !! a;
  ag_magic : m_magic h' !! a = m_magic h !! a;
  ag_crate : crates h' !! a = crates h !! a;
  ag_data : m_data h' a = m_data h a
}.

(** Every byte of the lumps [cs], headers included, is left alone. *)
Definition kept (h h' : heap) (cs : list cell) : Prop :=
  forall c a, c ∈ cs -> c_addr c <= a < c_end c -> agree h h' a.

Lemma kept_refl h cs : kept h h cs.
Proof. done. Qed.

Lemma kept_trans h1 h2 h3 cs : kept h1 h2 cs -> kept h2 h3 cs -> kept h1 h3 cs.
Proof.
  intros H1 H2 c a Hc Ha. destruct (H1 c a Hc Ha), (H2 c a Hc Ha). constructor; congruence.
Qed.

Lemma kept_incl h h' cs cs' : kept h h' cs -> cs' ⊆ cs -> kept h h' cs'.
Proof. intros Hk Hin c a Hc. apply Hk. by apply Hin. Qed.

(** What is not kept per lump: the type, the segments, the counters, the mutex. *)
Record same_top (h h' : heap) : Prop := mk_same_top {
  st_type : htype h' = htype h;
  st_segs : segs h' = segs h;
  st_cratesets : cratesets h' = cratesets h;
  st_ns : n_segments h' = n_segments h;
  st_nc : n_crates h' = n_crates h;
  st_mc : max_crumbs h' = max_crumbs h;
  st_fsem : fsem h' = fsem h
}.

#[export] Instance same_top_preorder : PreOrder same_top.
Proof. split; [done|]. intros h1 h2 h3 [] []. constructor; congruence. Qed.

(** The same, and no byte of data has changed. *)
Record same_ctl (h h' : heap) : Prop := mk_same_ctl {
  ct_type : htype h' = htype h;
  ct_segs : segs h' = segs h;
  ct_cratesets : cratesets h' = cratesets h;
  ct_ns : n_segments h' = n_segments h;
  ct_nc : n_crates h' = n_crates h;
  ct_mc : max_crumbs h' = max_crumbs h;
  ct_fsem : fsem h' = fsem h;
  ct_data : m_data h' = m_data h
}.

#[export] Instance same_ctl_preorder : PreOrder same_ctl.
Proof. split; [done|]. intros h1 h2 h3 [] []. constructor; congruence. Qed.

Lemma ctl_top h h' : same_ctl h h' -> same_top h h'.
Proof. by intros []. Qed.

Lemma links_ctl h h' : links_only h h' -> same_ctl h h'.
Proof. intros (? & ? & ? & ? & ? & ? & ? & ? & ? & ? & ? & ? & ?). by constructor. Qed.

(** Two lumps of a layout are the same or disjoint. *)
Lemma tiles_disj a cs e c d :
  tiles a cs e -> c ∈ cs -> d ∈ cs -> c = d \/ c_end c <= c_addr d \/ c_end d <= c_addr c.
Proof.
  revert a. induction cs as [|x cs IH]; intros a; cbn; [intros _ H; by apply elem_of_nil in H|].
  intros (_ & H0 & _ & Ht) [->|Hc]%elem_of_cons [->|Hd]%elem_of_cons; [by left| | |by eapply IH].
  - right; left. by apply (tiles_elem _ _ _ _ Ht Hd).
  - right; right. by apply (tiles_elem _ _ _ _ Ht Hc).
Qed.

Lemma lay_disj h L c d :
  lay h L -> c ∈ concat L -> d ∈ concat L ->
  0 <= c_size c /\ (c = d \/ c_end c <= c_addr d \/ c_end d <= c_addr c).
Proof.
  intros [Hs Hap] (cs & Hcs & Hc)%elem_of_concat (ds & Hds & Hd)%elem_of_concat.
  apply list_elem_of_lookup in Hcs as [i Hi]. apply list_elem_of_lookup in Hds as [j Hj].
  destruct (Forall2_lookup_r _ _ _ _ _ Hs Hi) as (s & Hsi & [[] Ti _ _]).
  destruct (Forall2_lookup_r _ _ _ _ _ Hs Hj) as (s' & Hsj & [[] Tj _ _]).
  destruct (tiles_elem _ _ _ _ Ti Hc) as (? & ? & ? & _).
  destruct (tiles_elem _ _ _ _ Tj Hd) as (? & ? & ? & _). split; [done|].
  destruct (decide (i = j)) as [->|Hne].
  - replace ds with cs in * by congruence. by eapply tiles_disj.
  - right. destruct (Hap i j s s' Hsi Hsj Hne); lia.
Qed.

(** Stores to the links of lumps that are not in use keep those in use. *)
Lemma links_kept h h' L l :
  lay h L -> links_only h h' -> links_frame h h' l ->
  (forall a, a ∈ l -> exists d, d ∈ concat L /\ c_addr d = a /\ c_st d <= 0) -> kept h h' (live L).
Proof.
  intros Hl (_ & _ & _ & _ & _ & _ & E1 & E2 & E3 & E4 & E5 & E6 & _) Hf Hin c a [Hst Hc]%elem_of_live Ha.
  assert (Hnot : a ∉ l).
  { intros Hal. destruct (Hin a Hal) as (d & Hd & <- & Hdst).
    destruct (lay_disj _ _ _ _ Hl Hc Hd) as [_ [->|Hor]]; [lia|].
    destruct (lay_disj _ _ _ _ Hl Hd Hc) as [Hd0 _]. pose proof (c_len_pos d Hd0). unfold c_end in *. lia. }
  destruct (Hf a Hnot) as [F1 F2]. constructor; try done; by rewrite ?E1, ?E2, ?E3, ?E4, ?E5, ?E6.
Qed.

(** ** Rewriting headers inside of a place *)

(** Only headers and tags in an interval change. *)
Record hdr_only (h h' : heap) (lo hi : Z) : Prop := mk_hdr_only {
  ho_same : same_outside h h' lo hi;
  ho_ctl : same_ctl h h';
  ho_buckets : buckets h' = buckets h;
  ho_next : m_next h' = m_next h;
  ho_prev : m_prev h' = m_prev h;
  ho_magic : m_magic h' = m_magic h;
  ho_crates : crates h' = crates h;
  ho_data : m_data h' = m_data h
}.

Lemma hdr_refl h lo hi : hdr_only h h lo hi.
Proof. by repeat split. Qed.

Lemma hdr_trans h1 h2 h3 lo hi : hdr_only h1 h2 lo hi -> hdr_only h2 h3 lo hi -> hdr_only h1 h3 lo hi.
Proof.
  intros [A1 A2 A3 A4 A5 A6 A7 A8] [B1 B2 B3 B4 B5 B6 B7 B8].
  constructor; try congruence; [by eapply same_trans|by etrans].
Qed.

Lemma hdr_parent h a v lo hi : lo <= a < hi -> hdr_only h (set_parent a v h) lo hi.
Proof.
  intros Ha. constructor; try done. constructor; try done.
  intros b Hb. cbn. apply lookup_insert_ne. intros ->. done.
Qed.

Lemma hdr_set_size h a s lo hi :
  lo <= a < hi -> lo <= a + rnd s - 4 < hi -> hdr_only h (set_tag (a + rnd s - 4) s (set_size a s h)) lo hi.
Proof.
  intros Ha Hb. constructor; try done. constructor; try done; intros b Hc; cbn;
    apply lookup_insert_ne; intros ?; subst; lia.
Qed.

Lemma bks_hdr h h' B lo hi : bks h B -> hdr_only h h' lo hi -> bks h' B.
Proof.
  intros [H1 H2 H3 H4] [_ _ E1 E2 E3 _ _ _]. constructor; [by rewrite E1| |done|done].
  intros b Hb. rewrite E1. destruct (H2 b Hb) as (bk & Hg & Hd). exists bk. split; [done|].
  eapply dls_frame; [|exact Hd]. intros. by rewrite E2, E3.
Qed.

(** Free lumps of a layout, by place. *)
Lemma free_at_plug K xs a b :
  free_at (plug K xs) a b <->
    free_at [xs] a b \/ free_at [others K] a b.
Proof.
  unfold free_at. split.
  - intros (c & [Hc|Hc]%elem_of_plug & Hr); [left|right]; exists c; cbn; by rewrite app_nil_r.
  - intros [(c & Hc & Hr)|(c & Hc & Hr)]; exists c; cbn in Hc; rewrite app_nil_r in Hc;
      (split; [apply elem_of_plug; tauto|done]).
Qed.

Definition busy (cs : list cell) : Prop := Forall (fun c => c_st c <> 0) cs.

Lemma free_at_busy xs a b : busy xs -> ~ free_at [xs] a b.
Proof.
  intros Hx (c & Hc & _ & Hst & _). cbn in Hc. rewrite app_nil_r in Hc.
  unfold busy in Hx. rewrite Forall_forall in Hx. by apply (Hx c).
Qed.

Lemma busy_no_adj xs : busy xs -> no_adj xs.
Proof.
  induction xs as [|c xs IH]; [done|]. intros [Hc Hx]%Forall_cons. specialize (IH Hx).
  destruct xs as [|d xs]; [done|]. split; [tauto|done].
Qed.

Lemma busy_head xs : busy xs -> ~ is_free (head xs).
Proof. destruct xs as [|c xs]; [tauto|]. by intros [Hc _]%Forall_cons. Qed.

Lemma busy_last xs : busy xs -> ~ is_free (last xs).
Proof.
  intros Hx Hf. destruct (last xs) as [c|] eqn:Hl; [|done]. apply last_Some_elem_of in Hl.
  unfold busy in Hx. rewrite Forall_forall in Hx. by apply (Hx c Hl).
Qed.

(** Lumps that are not free may be recut. *)
Lemma no_adj_recut a b xs ys :
  no_adj (a ++ xs ++ b) -> busy ys -> ys <> [] -> no_adj (a ++ ys ++ b).
Proof.
  rewrite !no_adj_app. intros (Ha & (_ & Hb & _) & _) Hys Hne.
  pose proof (busy_head _ Hys). pose proof (busy_last _ Hys). pose proof (busy_no_adj _ Hys).
  split_and!; [done|done|done|tauto|]. destruct ys as [|y ys]; [done|]. cbn in *. tauto.
Qed.

Lemma hinv_retile h h' K xs ys B s lo hi :
  hinv h (plug K xs) B -> region h K s lo hi -> tiles lo xs hi -> tiles lo ys hi -> ys <> [] ->
  hdr_only h h' lo hi -> Forall (cell_at h' (sg_addr s)) ys -> busy xs -> busy ys ->
  hinv h' (plug K ys) B /\ kept h h' (others K).
Proof.
  intros [Hl Ha Hb Hf] Hr Htx Hty Hne Hho Hys Bx By. split; [constructor|].
  - eapply lay_replace; [exact Hl|exact Hr|done|done|apply Hho|done].
  - rewrite Forall_plug in *. destruct Ha as (? & ? & ?). split_and!; [done| |done].
    by eapply no_adj_recut.
  - by eapply bks_hdr.
  - intros a b Hb'. rewrite Hf, !free_at_plug by done.
    pose proof (free_at_busy xs a b Bx). pose proof (free_at_busy ys a b By). tauto.
  - intros c a Hc Hca. destruct (others_outside _ _ _ _ _ _ _ Hl Hr Htx Hc) as [H0 Hor].
    destruct Hho as [[_ S1 S2 S3 S4] _ _ E1 E2 E3 E4 E5].
    assert (~ (lo <= a < hi)) by lia. constructor; rewrite ?E1, ?E2, ?E3, ?E4, ?E5; auto.
Qed.

(** ** Taking a free lump out of its bucket, and putting it in *)

Lemma tiles_one lo c hi : tiles lo [c] hi -> lo = c_addr c /\ hi = c_end c.
Proof. cbn. intros (-> & _ & _ & ->). done. Qed.

Lemma not_in_others h K c d :
  lay h (plug K [c]) -> d ∈ others K -> c_addr d <> c_addr c.
Proof.
  intros Hl Hd Heq. destruct (lay_region _ _ _ Hl) as (s & lo & hi & Hr & _ & Ht & _).
  destruct (others_outside _ _ _ _ _ _ _ Hl Hr Ht Hd) as [H0 Hor].
  destruct (tiles_one _ _ _ Ht) as [-> ->]. cbn in Ht.
  pose proof (c_len_pos d H0). pose proof (c_len_pos c ltac:(tauto)). unfold c_end in *. lia.
Qed.

Lemma nodup_mid {A} (l1 l2 : list A) x y :
  NoDup (l1 ++ x :: l2) -> y ∈ l1 ++ l2 <-> y ∈ l1 ++ x :: l2 /\ y <> x.
Proof.
  rewrite NoDup_app, NoDup_cons, !elem_of_app, elem_of_cons. intros (_ & H1 & H2 & _). split.
  - intros [Hy|Hy]; split; [by left| |by right; right|]; intros ->; [|done].
    apply (H1 x Hy). left.
  - tauto.
Qed.

Lemma same_len_tiles c d lo hi :
  tiles lo [c] hi -> c_addr d = c_addr c -> c_size d = c_size c -> (c_st d = GAP \/ 0 <= c_st d < 3) ->
  tiles lo [d] hi.
Proof.
  cbn. unfold c_end, c_len. intros (<- & H0 & _ & <-) -> -> Hst. by split_and!.
Qed.

(** The layout when one lump becomes free or a gap. *)
Lemma lay_restatus h K c d :
  lay h (plug K [c]) -> c_addr d = c_addr c -> c_size d = c_size c -> (c_st d = GAP \/ 0 <= c_st d < 3) ->
  (forall s, region h K s (c_addr c) (c_end c) -> cell_at h (sg_addr s) d) -> lay h (plug K [d]).
Proof.
  intros Hl Ha Hsz Hst Hd. destruct (lay_region _ _ _ Hl) as (s & lo & hi & Hr & _ & Ht & _).
  pose proof (tiles_one _ _ _ Ht) as [-> ->].
  eapply lay_replace; [exact Hl|exact Hr|done|by eapply same_len_tiles|done|].
  constructor; [|done]. by apply Hd.
Qed.

Lemma free_at_one c a b : free_at [[c]] a b <-> c_addr c = a /\ c_st c = 0 /\ bucket_of (c_len c) = b.
Proof.
  unfold free_at. cbn. split.
  - intros (d & ->%list_elem_of_singleton & Hd). done.
  - intros Hd. exists c. split; [left|done].
Qed.

Lemma unlink_gap h K c B :
  hinv h (plug K [c]) B -> c_st c = 0 ->
  exists h' B', um_lump_unlink_bucket (bucket_of (c_len c)) (c_addr c) h = Done () h'
    /\ um_lump_unlink_heap (c_addr c) h = Done () h' /\ hinv h' (plug K [as_gap c]) B'
    /\ links_only h h' /\ kept h h' (live (plug K [])).
Proof.
  intros [Hl Ha Hb Hf] Hst. destruct (lay_region _ _ _ Hl) as (s & lo & hi & Hr & Hok & Ht & Hat & Hlo & Hhi).
  pose proof (tiles_one _ _ _ Ht) as [-> ->].
  destruct (seg_bounds _ _ _ _ c Hok Hlo Hhi Ht ltac:(left)) as (F1 & F2 & F3 & F4 & F5 & _).
  rewrite Forall_singleton in Hat. destruct Hat as [?|(M1 & M2 & M3)]; [unfold GAP in *; lia|].
  pose proof (bucket_of_range (c_len c) F3) as Hrange.
  assert (Hin : c_addr c ∈ B (bucket_of (c_len c))).
  { apply Hf; [done|]. exists c. split; [|done]. apply elem_of_plug. left. left. }
  destruct (unlink_bucket_run h B _ _ Hb Hrange Hin) as (h' & l1 & l2 & Hrun & Hlo' & Hfr & HB & Hb').
  assert (Hkept : kept h h' (live (plug K [c]))).
  { eapply links_kept; [done|done|exact Hfr|]. intros a Hin'. apply Hf in Hin' as (d & Hd & <- & Hds & _); [|done].
    exists d. split_and!; [done|done|lia]. }
  exists h', (upd B (bucket_of (c_len c)) (l1 ++ l2)). split; [done|]. split.
  { unfold um_lump_unlink_heap. erewrite run_bind by (by apply ld_run).
    rewrite round_lump by lia. erewrite run_bind by (by apply find_bucket_run). done. }
  split; [|split; [done|]].
  2:{ rewrite <-(live_idle K [c]); [done|]. repeat constructor. lia. }
  constructor.
  - eapply lay_links; [|exact Hlo']. eapply lay_restatus; [exact Hl|done|done|by left|]. by left.
  - rewrite Forall_plug in *. destruct Ha as (? & ? & ?). split_and!; [done| |done].
    eapply no_adj_recut; [done| |done]. by constructor.
  - done.
  - intros a b Hb2. assert (Hnd : NoDup (B (bucket_of (c_len c)))) by (by apply (bk_nodup _ _ Hb)).
    rewrite HB in Hnd. rewrite free_at_plug, free_at_one. cbn [as_gap c_st].
    assert (Hno : forall b', ~ free_at [others K] (c_addr c) b').
    { intros b' (d & Hd & Hda & _). cbn in Hd. rewrite app_nil_r in Hd. by eapply (not_in_others _ _ _ _ Hl). }
    unfold upd. case_decide as Hd.
    + rewrite (nodup_mid _ _ _ _ Hnd), <-HB. subst b. rewrite Hf, free_at_plug, free_at_one by done. unfold GAP. split.
      * intros [[(? & _)|?] ?]; [congruence|by right].
      * intros [(_ & ? & _)|Hfo]; [lia|]. split; [by right|]. intros ->. by eapply Hno.
    + rewrite Hf, free_at_plug, free_at_one by done. unfold GAP. split; [|intros [(_ & ? & _)|?]; [lia|by right]].
      intros [(_ & _ & ?)|?]; [congruence|by right].
Qed.

Lemma link_gap h K c B :
  hinv h (plug K [as_gap c]) B -> c_st c = 0 ->
  (forall s, region h K s (c_addr c) (c_end c) -> cell_at h (sg_addr s) c) ->
  ~ is_free (last (k_a K)) -> ~ is_free (head (k_b K)) ->
  exists h' B', um_lump_link_bucket (bucket_of (c_len c)) (c_addr c) h = Done () h'
    /\ um_lump_link_heap (c_addr c) h = Done () h'
    /\ hinv h' (plug K [c]) B' /\ links_only h h' /\ kept h h' (live (plug K [])).
Proof.
  intros [Hl Ha Hb Hf] Hst Hc Hna Hnb.
  destruct (lay_region _ _ _ Hl) as (s & lo & hi & Hr & Hok & Ht & _ & Hlo & Hhi).
  pose proof (tiles_one _ _ _ Ht) as [-> ->].
  destruct (seg_bounds _ _ _ _ (as_gap c) Hok Hlo Hhi Ht ltac:(left)) as (F1 & F2 & F3 & F4 & F5 & _).
  change (c_addr (as_gap c)) with (c_addr c) in *. change (c_size (as_gap c)) with (c_size c) in *.
  change (c_len (as_gap c)) with (c_len c) in *. change (c_end (as_gap c)) with (c_end c) in *.
  destruct (Hc s Hr) as [?|(M1 & M2 & M3)]; [unfold GAP in *; lia|].
  pose proof (bucket_of_range (c_len c) F3) as Hrange.
  assert (Hno : forall b', ~ free_at [others K] (c_addr c) b').
  { intros b' (d & Hd & Hda & _). cbn in Hd. rewrite app_nil_r in Hd. by eapply (not_in_others _ _ _ _ Hl). }
  assert (Hnot : forall b', 0 <= b' < UM_BUCKETS -> c_addr c ∉ B b').
  { intros b' Hb' Hin. apply Hf in Hin; [|done]. apply free_at_plug in Hin as [Hin|Hin]; [|by eapply Hno].
    apply free_at_one in Hin as (_ & ? & _). done. }
  destruct (link_bucket_run h B _ (c_addr c) Hb Hrange ltac:(lia) Hnot) as (h' & Hrun & Hlo' & Hfr & Hb').
  exists h', (upd B (bucket_of (c_len c)) (c_addr c :: B (bucket_of (c_len c)))).
  split; [done|]. split.
  { unfold um_lump_link_heap. erewrite run_bind by (by apply ld_run).
    rewrite round_lump by lia. erewrite run_bind by (by apply find_bucket_run). done. }
  split; [constructor|split; [done|]].
  - eapply lay_links; [|exact Hlo']. eapply lay_restatus; [exact Hl|done|done|right; lia|done].
  - rewrite Forall_plug in *. destruct Ha as (? & Hm & ?). split_and!; [done| |done].
    apply no_adj_mid in Hm as (? & ? & _). apply no_adj_mid. tauto.
  - done.
  - intros a b Hb2. rewrite free_at_plug, free_at_one. unfold upd. case_decide as Hd.
    + subst b. rewrite elem_of_cons, Hf, free_at_plug, free_at_one by done. cbn [as_gap c_st]. unfold GAP.
      split; [intros [->|[(_ & ? & _)|?]]; [by left|lia|by right]|].
      intros [(<- & _)|?]; [by left|right; by right].
    + rewrite Hf, free_at_plug, free_at_one by done. cbn [as_gap c_st]. unfold GAP.
      split; [intros [(_ & ? & _)|?]; [lia|by right]|]. intros [(_ & _ & ?)|?]; [congruence|by right].
  - rewrite <-(live_idle K [as_gap c]) by (by repeat constructor). eapply links_kept; [done|done|exact Hfr|].
    intros a [->|Hin]%elem_of_cons.
    + exists (as_gap c). split_and!; [apply elem_of_plug; left; left|done|done].
    + apply Hf in Hin as (d & Hd & <- & Hds & _); [|done]. exists d. split_and!; [done|done|lia].
Qed.
