(* ===== verification/HeapOps.v ===== *)
(** The operations on lumps run without a fault and keep the invariant of the
    heap: making free lumps, coalescing, allocation and deallocation. *)

From S2P Require Import Prelude Heap HeapFacts HeapBuckets HeapLumps.

(** ** Places *)

Lemma plug_left kl a xs b kr ys : plug (mk_ctx kl (a ++ xs) b kr) ys = plug (mk_ctx kl a b kr) (xs ++ ys).
Proof. unfold plug. cbn. by rewrite <-!app_assoc. Qed.

Lemma plug_right kl a xs b kr ys : plug (mk_ctx kl a (xs ++ b) kr) ys = plug (mk_ctx kl a b kr) (ys ++ xs).
Proof. unfold plug. cbn. by rewrite <-!app_assoc. Qed.

(** A place whose segment is known. *)
Lemma place h K xs s :
  lay h (plug K xs) -> segs h !! length (k_l K) = Some s ->
  exists lo hi, region h K s lo hi /\ seg_ok s /\ tiles lo xs hi /\ Forall (cell_at h (sg_addr s)) xs
    /\ sg_start s <= lo /\ hi <= sg_end s.
Proof.
  intros Hl Hs. destruct (lay_region _ _ _ Hl) as (s' & lo & hi & Hr & Hrest).
  assert (s' = s) as -> by (destruct Hr; congruence). exists lo, hi. by split.
Qed.

Lemma plug_cons_r kl a x b kr ys : plug (mk_ctx kl a (x :: b) kr) ys = plug (mk_ctx kl a b kr) (ys ++ [x]).
Proof. apply (plug_right kl a [x] b kr). Qed.

Definition hdr (h : heap) (sga l n : Z) : Prop := cell_at h sga (mk_cell l (n - 12) 0).

Lemma hdr_inv h sga l n :
  hdr h sga l n -> m_size h !! l = Some (n - 12) /\ m_parent h !! l = Some (Z.lor sga 0).
Proof. intros [?|(H1 & H2 & _)]; [done|]. by split. Qed.

(** Facts about a cell of a place, for [lia]. *)
Lemma place_bounds h K xs s c :
  lay h (plug K xs) -> segs h !! length (k_l K) = Some s -> c ∈ xs ->
  56 <= c_addr c /\ 0 <= c_size c /\ 32 <= c_len c /\ c_end c < 2 ^ 32 /\ c_size c + 43 < 2 ^ 32
  /\ sg_start s <= c_addr c /\ c_end c <= sg_end s /\ c_addr c mod 32 = 24.
Proof.
  intros Hl Hs Hc. destruct (place _ _ _ _ Hl Hs) as (lo & hi & [_ Ra _] & Hok & Ht & _ & Hlo & Hhi).
  destruct (seg_bounds _ _ _ _ c Hok Hlo Hhi Ht Hc) as (? & ? & ? & ? & ? & ? & ? & Hm).
  pose proof (tiles_mod _ _ _ _ Ra (so_page _ Hok)). split_and!; (done || lia).
Qed.

(** Writing the header of a lump. *)
Definition write_hdr (sga : Z) (c : cell) (h : heap) : heap :=
  set_tag (c_end c - 4) (c_size c) (set_size (c_addr c) (c_size c) (set_parent (c_addr c) (Z.lor sga (c_st c)) h)).

Lemma write_hdr_at h sga c : cell_at (write_hdr sga c h) sga c.
Proof. right. cbn. by rewrite !lookup_insert_eq. Qed.

Lemma write_hdr_only h sga c lo hi :
  lo <= c_addr c -> c_end c <= hi -> 32 <= c_len c -> hdr_only h (write_hdr sga c h) lo hi.
Proof.
  intros H1 H2 H3. unfold write_hdr, c_end in *. eapply hdr_trans; [apply (hdr_parent _ (c_addr c)); lia|].
  apply hdr_set_size; unfold c_len in *; lia.
Qed.

Lemma gap_len l n : n mod 32 = 0 -> c_len (gap l n) = n.
Proof. apply rnd_free. Qed.

Lemma gap_end l n : n mod 32 = 0 -> c_end (gap l n) = l + n.
Proof. intros. unfold c_end. by rewrite gap_len. Qed.

Lemma seg_aligned s : seg_ok s -> UM_IS_ALIGNED (sg_addr s) UM_PARENT_ALIGN = true.
Proof.
  intros Hok. unfold UM_PARENT_ALIGN. change 8 with (2 ^ 3). rewrite aligned_mod by lia.
  change (2 ^ 3) with 8. by rewrite (so_align _ Hok).
Qed.

(** The header of a gap becomes that of a free lump. *)
Lemma write_free_run s K l n h B :
  hinv h (plug K [gap l n]) B -> segs h !! length (k_l K) = Some s -> n mod 32 = 0 ->
  exists h', um_lump_set_size l (u32 (n - UM_LUMP_OVERHEAD)) (set_parent l (Z.lor (sg_addr s) UMS_FREE) h) = Done () h'
    /\ hinv h' (plug K [gap l n]) B /\ hdr h' (sg_addr s) l n /\ same_ctl h h' /\ kept h h' (others K).
Proof.
  intros Hi Hs Hn. pose proof (hv_lay _ _ _ Hi) as Hl.
  destruct (place_bounds _ _ _ _ (gap l n) Hl Hs ltac:(left)) as (F1 & F2 & F3 & F4 & F5 & _).
  rewrite gap_end in F4 by done. rewrite gap_len in F3 by done. cbn [gap c_size c_addr] in *.
  exists (write_hdr (sg_addr s) (mk_cell l (n - 12) 0) h).
  destruct (place _ _ _ _ Hl Hs) as (lo & hi & Hr & _ & Ht & _).
  pose proof (tiles_one _ _ _ Ht) as [-> ->].
  assert (Hho : hdr_only h (write_hdr (sg_addr s) (mk_cell l (n - 12) 0) h) (c_addr (gap l n)) (c_end (gap l n))).
  { apply write_hdr_only; cbn; [done|done|]. unfold c_len. cbn. rewrite rnd_free by done. lia. }
  destruct (hinv_retile _ _ _ _ [gap l n] _ _ _ _ Hi Hr Ht Ht ltac:(done) Hho) as [Hi' Hk].
  { by repeat constructor. } { by repeat constructor. } { by repeat constructor. }
  split; [|split; [done|split; [apply write_hdr_at|split; [apply Hho|done]]]].
  change UM_LUMP_OVERHEAD with 12. rewrite u32_small by lia.
  rewrite set_size_run by (rewrite ?rnd_free by done; lia). done.
Qed.

Lemma set_parent_id l v h : m_parent h !! l = Some v -> set_parent l v h = h.
Proof. intros Hv. destruct h. unfold set_parent. cbn in *. by rewrite insert_id. Qed.

Lemma live_kept h h' K : kept h h' (others K) -> kept h h' (live (plug K [])).
Proof.
  intros Hk. eapply kept_incl; [exact Hk|]. intros c [_ Hc]%elem_of_live.
  apply elem_of_plug in Hc as [Hc|Hc]; [by apply elem_of_nil in Hc|done].
Qed.

(** A free lump from a gap between lumps in use. *)
Lemma link_free h s K l n B :
  hinv h (plug K [gap l n]) B -> segs h !! length (k_l K) = Some s -> n mod 32 = 0 ->
  hdr h (sg_addr s) l n -> ~ is_free (last (k_a K)) -> ~ is_free (head (k_b K)) ->
  exists h' B', um_lump_link_bucket (bucket_of n) l h = Done () h' /\ um_lump_link_heap l h = Done () h'
    /\ hinv h' (plug K [mk_cell l (n - 12) 0]) B' /\ links_only h h' /\ kept h h' (live (plug K [])).
Proof.
  intros Hi Hs Hn Hh Ha Hb.
  destruct (link_gap h K (mk_cell l (n - 12) 0) B) as (h' & B' & R1 & R2 & Rest); try done.
  - intros s' [Hs' _ _]. replace s' with s by congruence. done.
  - unfold c_len in R1. cbn in R1. rewrite rnd_free in R1 by done. by exists h', B'.
Qed.

Lemma make_free_run h s K l n B :
  hinv h (plug K [gap l n]) B -> segs h !! length (k_l K) = Some s -> n mod 32 = 0 ->
  ~ is_free (last (k_a K)) -> ~ is_free (head (k_b K)) ->
  exists h' B', um_lump_make_free l (sg_addr s) n h = Done () h'
    /\ hinv h' (plug K [mk_cell l (n - 12) 0]) B' /\ same_ctl h h' /\ kept h h' (live (plug K [])).
Proof.
  intros Hi Hs Hn Ha Hb. pose proof (hv_lay _ _ _ Hi) as Hl.
  destruct (place_bounds _ _ _ _ (gap l n) Hl Hs ltac:(left)) as (_ & _ & F3 & _). rewrite gap_len in F3 by done.
  destruct (place _ _ _ _ Hl Hs) as (lo & hi & _ & Hok & _).
  destruct (write_free_run _ _ _ _ _ _ Hi Hs Hn) as (h1 & Hrun & Hi1 & Hh1 & Hc1 & Hk1).
  destruct (link_free h1 s K l n B) as (h2 & B2 & R1 & _ & Hi2 & Hl2 & Hk2); try done.
  { by rewrite (ct_segs _ _ Hc1). }
  exists h2, B2. unfold um_lump_make_free. change UM_PAGE_SIZE with 32. rewrite seg_aligned, Hn by done. split.
  - erewrite run_bind by done. erewrite run_bind by done. erewrite run_bind by done.
    erewrite run_bind by done. erewrite run_bind by (apply find_bucket_run; lia). done.
  - split; [done|]. split; [by etrans; [|by apply links_ctl]|].
    eapply kept_trans; [by apply live_kept|done].
Qed.

(** ** Coalescing *)

Definition no_gap (cs : list cell) : Prop := Forall (fun c => c_st c <> GAP) cs.

Lemma cell_known h sga c :
  cell_at h sga c -> c_st c <> GAP ->
  m_size h !! c_addr c = Some (c_size c) /\ m_parent h !! c_addr c = Some (Z.lor sga (c_st c))
  /\ m_tag h !! (c_end c - 4) = Some (c_size c).
Proof. by intros [?|?]. Qed.

Lemma lump_status_run h sga c :
  sga mod 8 = 0 -> cell_at h sga c -> 0 <= c_st c < 3 -> lump_status (c_addr c) h = Done (c_st c) h.
Proof.
  intros Hm Hc Hst. destruct (cell_known _ _ _ Hc) as (_ & M2 & _); [unfold GAP; lia|].
  unfold lump_status. erewrite run_bind by (by apply ld_run). cbn. by rewrite status_word by lia.
Qed.

Lemma prev_lump_run h sga c :
  cell_at h sga c -> c_st c <> GAP -> 56 <= c_addr c -> 0 <= c_size c -> c_end c < 2 ^ 32 ->
  prev_lump (c_end c) h = Done (c_addr c) h.
Proof.
  intros Hc Hst H0 H1 H2. destruct (cell_known _ _ _ Hc Hst) as (_ & _ & M3).
  pose proof (rnd_bounds (c_size c)). unfold c_end, c_len in *. unfold prev_lump.
  erewrite run_bind by (by apply ld_run). rewrite round_lump by lia. cbn.
  replace (c_addr c + rnd (c_size c) - rnd (c_size c)) with (c_addr c) by lia. by rewrite u32_small by lia.
Qed.

Lemma next_lump_run h sga c :
  cell_at h sga c -> c_st c <> GAP -> 56 <= c_addr c -> 0 <= c_size c -> c_end c < 2 ^ 32 ->
  next_lump (c_addr c) h = Done (c_end c) h.
Proof.
  intros Hc Hst H0 H1 H2. destruct (cell_known _ _ _ Hc Hst) as (M1 & _ & _).
  pose proof (rnd_bounds (c_size c)). unfold c_end, c_len in *. unfold next_lump.
  erewrite run_bind by (by apply ld_run). rewrite round_lump by lia. cbn. by rewrite u32_small by lia.
Qed.

(** Two gaps side by side become one whose header is written. *)
Lemma merge_gaps h s K g1 g2 x y B n :
  hinv h (plug K [g1; g2]) B -> segs h !! length (k_l K) = Some s -> busy [g1; g2] ->
  rnd x + rnd y = n -> c_len g1 + c_len g2 = n -> 0 <= x -> 0 <= y ->
  exists h', um_lump_set_size (c_addr g1) (u32 (UM_ROUND_LUMP x + UM_ROUND_LUMP y - UM_LUMP_OVERHEAD))
      (set_parent (c_addr g1) (Z.lor (sg_addr s) UMS_FREE) h) = Done () h'
    /\ hinv h' (plug K [gap (c_addr g1) n]) B /\ hdr h' (sg_addr s) (c_addr g1) n
    /\ same_ctl h h' /\ kept h h' (others K).
Proof.
  intros Hi Hs Hbusy Hxy Hn Hx Hy. pose proof (hv_lay _ _ _ Hi) as Hl.
  destruct (place _ _ _ _ Hl Hs) as (lo & hi & Hr & Hok & Ht & _ & Hlo & Hhi).
  assert (Hn32 : n mod 32 = 0) by (rewrite <-Hn; apply mod32_add; apply rnd_mod).
  assert (Ht2 : tiles lo [gap (c_addr g1) n] hi).
  { cbn in Ht |- *. rewrite gap_end by done. destruct Ht as (<- & ? & ? & Ha & ? & ? & <-).
    pose proof (c_len_pos g1). pose proof (c_len_pos g2). unfold c_end in *.
    split_and!; [done|lia|by left|lia]. }
  assert (Hi0 : hinv h (plug K [gap (c_addr g1) n]) B).
  { eapply (hinv_retile h h K _ _ B _ _ _ Hi Hr Ht Ht2); [done|apply hdr_refl| |done|];
      by repeat constructor. }
  destruct (write_free_run s K (c_addr g1) n h B Hi0 Hs Hn32) as (h' & Hrun & Hrest).
  exists h'. split; [|done].
  destruct (place_bounds _ _ _ _ (gap (c_addr g1) n) (hv_lay _ _ _ Hi0) Hs ltac:(left)) as (F1 & F2 & F3 & F4 & _).
  rewrite gap_end in F4 by done. cbn in F1, F2.
  pose proof (rnd_bounds x). pose proof (rnd_bounds y). pose proof (rnd_pos x). pose proof (rnd_pos y).
  rewrite !round_lump by lia. rewrite Hxy. apply Hrun.
Qed.

Lemma coalesce_prev_run h s kl a b kr l n B :
  hinv h (plug (mk_ctx kl a b kr) [gap l n]) B -> segs h !! length kl = Some s -> n mod 32 = 0 ->
  no_gap a -> hdr h (sg_addr s) l n ->
  exists h' a' l' n' B', coalesce_prev s l h = Done l' h'
    /\ hinv h' (plug (mk_ctx kl a' b kr) [gap l' n']) B' /\ n' mod 32 = 0 /\ no_gap a'
    /\ hdr h' (sg_addr s) l' n' /\ ~ is_free (last a') /\ same_ctl h h'
    /\ live (plug (mk_ctx kl a' b kr) []) = live (plug (mk_ctx kl a b kr) [])
    /\ kept h h' (live (plug (mk_ctx kl a b kr) [])).
Proof.
  intros Hi Hs Hn Hga Hh. pose proof (hv_lay _ _ _ Hi) as Hl. unfold coalesce_prev.
  destruct (place _ _ _ _ Hl Hs) as (lo & hi & [_ Ra _] & Hok & Ht & _). pose proof (tiles_one _ _ _ Ht) as [-> ->].
  destruct a as [|p a _] using rev_ind.
  { cbn in Ra. rewrite <-Ra. rewrite Z.eqb_refl. exists h, [], l, n, B. split_and!; try done; [by rewrite Ra|by intros ?]. }
  assert (Hne : sg_start s <> l).
  { apply tiles_le in Ra as [_ Ra]. specialize (Ra ltac:(by destruct a)). cbn in Ra. lia. }
  rewrite (proj2 (Z.eqb_neq l (sg_start s))) by done.
  unfold no_gap in Hga. apply Forall_app in Hga as [Hga Hgp]. rewrite Forall_singleton in Hgp.
  rewrite plug_left in Hi, Hl. pose proof (place_bounds _ _ _ _ p Hl Hs ltac:(left)) as (P1 & P2 & P3 & P4 & P5 & _).
  destruct (place _ _ _ _ Hl Hs) as (lo & hi & _ & _ & Ht2 & Hat & _). cbn [app] in Ht2, Hat.
  apply Forall_cons in Hat as [Hp _]. destruct Ht2 as (<- & _ & Hpst & Hlp & _).
  cbn [gap c_addr] in Hlp. subst l.
  assert (Hpst' : 0 <= c_st p < 3) by tauto.
  erewrite run_bind by (by eapply prev_lump_run).
  erewrite run_bind by (by eapply lump_status_run; [apply Hok| |]).
  destruct (Z.eqb_spec (c_st p) UMS_FREE) as [Hst|Hst]; cbn [negb].
  2:{ exists h, (a ++ [p]), (c_end p), n, B. rewrite plug_left. split_and!; try done.
      - apply Forall_app. by rewrite Forall_singleton.
      - by rewrite last_snoc. }
  assert (Hplug : plug (mk_ctx kl a b kr) ([p] ++ [gap (c_end p) n]) = plug (mk_ctx kl a (gap (c_end p) n :: b) kr) [p]).
  { by rewrite plug_cons_r. }
  rewrite Hplug in Hi.
  destruct (unlink_gap _ _ _ _ Hi Hst) as (h1 & B1 & _ & R1 & Hi1 & Hl1 & Hk1).
  erewrite run_bind by done. rewrite seg_aligned by done. erewrite run_bind by done. erewrite run_bind by done.
  pose proof Hl1 as (_ & Eseg & _ & _ & _ & _ & Esz & Epar & Etag & _).
  destruct (hdr_inv _ _ _ _ Hh) as [Hsz _].
  destruct (cell_known _ _ _ Hp Hgp) as (Hpsz & _).
  erewrite run_bind by (apply ld_run; cbn; by rewrite Esz).
  erewrite run_bind by (apply ld_run; cbn; by rewrite Esz).
  rewrite plug_cons_r in Hi1.
  destruct (merge_gaps h1 s (mk_ctx kl a b kr) (as_gap p) (gap (c_end p) n) (n - 12) (c_size p) B1 (n + c_len p))
    as (h2 & R2 & Hi2 & Hh2 & Hc2 & Hk2); try done.
  { by rewrite Eseg. } { by repeat constructor. }
  { rewrite rnd_free by done. done. } { rewrite gap_len by done. change (c_len (as_gap p)) with (c_len p). lia. }
  { destruct (place_bounds _ _ _ _ (gap (c_end p) n) Hl Hs ltac:(right; left)). cbn in *. lia. }
  change (c_addr (as_gap p)) with (c_addr p) in *.
  erewrite run_bind by done.
  pose proof (hv_adj _ _ _ Hi) as Hadj. rewrite Forall_plug in Hadj. destruct Hadj as (_ & Hadj & _).
  cbn [k_a k_b] in Hadj. apply no_adj_mid in Hadj as (_ & _ & Hadj & _). destruct (Hadj Hst) as [Hla _].
  rewrite plug_cons_r, live_idle in Hk1 by (by repeat constructor).
  assert (Hlive : live (plug (mk_ctx kl (a ++ [p]) b kr) []) = live (plug (mk_ctx kl a b kr) [])).
  { rewrite plug_left, live_idle; [done|]. repeat constructor. rewrite Hst. done. }
  exists h2, a, (c_addr p), (n + c_len p), B1. rewrite Hlive. split_and!; try done.
  - apply mod32_add; [done|apply rnd_mod].
  - etrans; [by apply links_ctl|done].
  - eapply kept_trans; [done|by apply live_kept].
Qed.

Lemma coalesce_next_run h s kl a b kr l n B :
  hinv h (plug (mk_ctx kl a b kr) [gap l n]) B -> segs h !! length kl = Some s -> n mod 32 = 0 ->
  no_gap b -> hdr h (sg_addr s) l n ->
  exists h' b' n' B', coalesce_next s l h = Done () h'
    /\ hinv h' (plug (mk_ctx kl a b' kr) [gap l n']) B' /\ n' mod 32 = 0
    /\ hdr h' (sg_addr s) l n' /\ no_gap b' /\ ~ is_free (head b') /\ same_ctl h h'
    /\ live (plug (mk_ctx kl a b' kr) []) = live (plug (mk_ctx kl a b kr) [])
    /\ kept h h' (live (plug (mk_ctx kl a b kr) [])).
Proof.
  intros Hi Hs Hn Hgb Hh. pose proof (hv_lay _ _ _ Hi) as Hl. unfold coalesce_next.
  destruct (place _ _ _ _ Hl Hs) as (lo & hi & [_ _ Rb] & Hok & Ht & _). pose proof (tiles_one _ _ _ Ht) as [-> ->].
  destruct (place_bounds _ _ _ _ (gap l n) Hl Hs ltac:(left)) as (F1 & F2 & F3 & F4 & _).
  rewrite gap_end in * by done. cbn in F1, F2.
  assert (Hnext : next_lump l h = Done (l + n) h).
  { pose proof (next_lump_run h (sg_addr s) (mk_cell l (n - 12) 0) Hh) as Hrun. unfold c_end, c_len in Hrun.
    cbn [c_addr c_size c_st] in Hrun. rewrite rnd_free in Hrun by done. apply Hrun; done || lia. }
  erewrite run_bind by done. destruct b as [|q b].
  { cbn in Rb. rewrite Rb, Z.eqb_refl. exists h, [], n, B. split_and!; try done. by intros ?. }
  assert (Hne : l + n <> sg_end s).
  { apply tiles_le in Rb as [_ Rb]. specialize (Rb ltac:(done)). cbn in Rb. lia. }
  rewrite (proj2 (Z.eqb_neq _ _)) by done.
  unfold no_gap in Hgb. apply Forall_cons in Hgb as [Hgq Hgb].
  rewrite plug_cons_r in Hi, Hl. pose proof (place_bounds _ _ _ _ q Hl Hs ltac:(right; left)) as (P1 & P2 & P3 & P4 & P5 & _).
  destruct (place _ _ _ _ Hl Hs) as (lo & hi & _ & _ & Ht2 & Hat & _). cbn [app] in Ht2, Hat.
  apply Forall_cons in Hat as [_ Hat]. rewrite Forall_singleton in Hat. rename Hat into Hq.
  destruct Ht2 as (<- & _ & _ & Hq1 & _ & Hqst & _). rewrite gap_end in Hq1 by done.
  assert (Hqst' : 0 <= c_st q < 3) by tauto. rewrite <-Hq1.
  erewrite run_bind by (by eapply lump_status_run; [apply Hok| |]).
  destruct (Z.eqb_spec (c_st q) UMS_FREE) as [Hst|Hst]; cbn [negb].
  2:{ exists h, (q :: b), n, B. rewrite plug_cons_r. split_and!; try done. by apply Forall_cons. }
  assert (Hplug : plug (mk_ctx kl a b kr) ([gap l n] ++ [q]) = plug (mk_ctx kl (a ++ [gap l n]) b kr) [q]).
  { by rewrite plug_left. }
  rewrite Hplug in Hi.
  destruct (unlink_gap _ _ _ _ Hi Hst) as (h1 & B1 & _ & R1 & Hi1 & Hl1 & Hk1).
  erewrite run_bind by done.
  pose proof Hl1 as (_ & Eseg & _ & _ & _ & _ & Esz & Epar & Etag & _).
  destruct (hdr_inv _ _ _ _ Hh) as [Hsz Hpar].
  destruct (cell_known _ _ _ Hq Hgq) as (Hqsz & _).
  erewrite run_bind by (apply ld_run; by rewrite Esz).
  erewrite run_bind by (apply ld_run; by rewrite Esz).
  rewrite plug_left in Hi1.
  destruct (merge_gaps h1 s (mk_ctx kl a b kr) (gap l n) (as_gap q) (n - 12) (c_size q) B1 (n + c_len q))
    as (h2 & R2 & Hi2 & Hh2 & Hc2 & Hk2); try done.
  { by rewrite Eseg. } { by repeat constructor. }
  { by rewrite rnd_free by done. } { by rewrite gap_len by done. }
  change (c_addr (gap l n)) with l in *. rewrite set_parent_id in R2 by (by rewrite Epar).
  rewrite R2.
  pose proof (hv_adj _ _ _ Hi) as Hadj. rewrite Forall_plug in Hadj. destruct Hadj as (_ & Hadj & _).
  cbn [k_a k_b] in Hadj. apply no_adj_mid in Hadj as (_ & _ & Hadj & _). destruct (Hadj Hst) as [_ Hlb].
  rewrite plug_left, live_idle in Hk1 by (by repeat constructor).
  assert (Hlive : live (plug (mk_ctx kl a (q :: b) kr) []) = live (plug (mk_ctx kl a b kr) [])).
  { rewrite plug_cons_r, live_idle; [done|]. repeat constructor. rewrite Hst. done. }
  exists h2, b, (n + c_len q), B1. rewrite Hlive. split_and!; try done.
  - apply mod32_add; [done|apply rnd_mod].
  - etrans; [by apply links_ctl|done].
  - eapply kept_trans; [done|by apply live_kept].
Qed.

Lemma coalesce_free_run h s K l n B :
  hinv h (plug K [gap l n]) B -> segs h !! length (k_l K) = Some s -> n mod 32 = 0 ->
  Forall no_gap (plug K []) ->
  exists h' L' B', um_lump_coalesce_free l (sg_addr s) n h = Done () h' /\ hinv h' L' B'
    /\ Forall no_gap L' /\ live L' = live (plug K []) /\ same_ctl h h' /\ kept h h' (live (plug K [])).
Proof.
  destruct K as [kl a b kr]. cbn [k_l]. intros Hi Hs Hn Hg.
  rewrite Forall_plug in Hg. destruct Hg as (Hgl & Hgm & Hgr). cbn [k_l k_a k_b k_r app] in *.
  apply Forall_app in Hgm as [Hga Hgb]. pose proof (hv_lay _ _ _ Hi) as Hl.
  destruct (place _ _ _ _ Hl Hs) as (lo & hi & _ & Hok & _).
  destruct (write_free_run _ _ _ _ _ _ Hi Hs Hn) as (h1 & R1 & Hi1 & Hh1 & Hc1 & Hk1).
  destruct (coalesce_prev_run h1 s kl a b kr l n B Hi1) as
    (h2 & a' & l' & n' & B2 & R2 & Hi2 & Hn2 & Hga2 & Hh2 & Hla & Hc2 & Hlive2 & Hk2); try done.
  { by rewrite (ct_segs _ _ Hc1). }
  destruct (coalesce_next_run h2 s kl a' b kr l' n' B2 Hi2) as
    (h3 & b' & n3 & B3 & R3 & Hi3 & Hn3 & Hh3 & Hgb3 & Hhb & Hc3 & Hlive3 & Hk3); try done.
  { by rewrite (ct_segs _ _ Hc2), (ct_segs _ _ Hc1). }
  destruct (link_free h3 s (mk_ctx kl a' b' kr) l' n3 B3) as (h4 & B4 & _ & R4 & Hi4 & Hl4 & Hk4); try done.
  { by rewrite (ct_segs _ _ Hc3), (ct_segs _ _ Hc2), (ct_segs _ _ Hc1). }
  eexists h4, _, B4. split_and!; [|exact Hi4| | | |].
  - unfold um_lump_coalesce_free. change UM_PAGE_SIZE with 32. rewrite seg_aligned, Hn by done.
    do 3 (erewrite run_bind by done). erewrite run_bind by done.
    erewrite run_bind by (eapply heap_seg_run; [apply (hv_lay _ _ _ Hi1)|by rewrite (ct_segs _ _ Hc1)]).
    by do 2 (erewrite run_bind by done).
  - rewrite Forall_plug. split_and!; [done| |done]. cbn [k_a k_b].
    apply Forall_app; split; [done|]. by apply Forall_cons.
  - rewrite live_idle by (by repeat constructor). congruence.
  - etrans; [done|]. etrans; [done|]. etrans; [done|]. by apply links_ctl.
  - eapply kept_trans; [by eapply live_kept|]. eapply kept_trans; [done|]. rewrite <-Hlive2.
    eapply kept_trans; [done|]. by rewrite <-Hlive3.
Qed.

(** ** Deallocation *)

(** The invariant between operations. *)
Definition heap_ok (h : heap) (L : list (list cell)) : Prop := exists B, hinv h L B /\ Forall no_gap L.

Lemma plug_of L c : c ∈ concat L -> exists K, L = plug K [c].
Proof.
  intros (cs & Hcs & Hc)%elem_of_concat. apply list_elem_of_split in Hcs as (l1 & l2 & ->).
  apply list_elem_of_split in Hc as (a & b & ->). exists (mk_ctx l1 a b l2). done.
Qed.

Lemma live_cons K c : 0 < c_st c -> live (plug K [c]) ≡ₚ c :: live (plug K []).
Proof.
  intros Hc. unfold live, plug. rewrite !concat_app, !filter_app. cbn [concat app].
  rewrite !filter_app. rewrite filter_cons_True by done. by solve_Permutation.
Qed.

(** The invariant reads neither the data nor the mutex nor the crates. *)
Record same_meta (h h' : heap) : Prop := mk_same_meta {
  sm_segs : segs h' = segs h;
  sm_buckets : buckets h' = buckets h;
  sm_size : m_size h' = m_size h;
  sm_parent : m_parent h' = m_parent h;
  sm_next : m_next h' = m_next h;
  sm_prev : m_prev h' = m_prev h;
  sm_tag : m_tag h' = m_tag h;
  sm_magic : m_magic h' = m_magic h
}.

Lemma same_meta_hinv h h' L B : same_meta h h' -> hinv h L B -> hinv h' L B.
Proof.
  intros [E1 E2 E3 E4 E5 E6 E7 E8] [[Hs Hap] Ha [H1 H2 H3 H4] Hf].
  constructor; [constructor|done|constructor|done].
  - rewrite E1. eapply Forall2_impl; [exact Hs|]. intros s cs [C1 C2 C3 C4].
    constructor; [done|done| |by rewrite E8]. eapply Forall_impl; [exact C3|].
    intros c [?|?]; [by left|right]. by rewrite E3, E4, E7.
  - by rewrite E1.
  - by rewrite E2.
  - intros b Hb. rewrite E2. destruct (H2 b Hb) as (bk & Hg' & Hd). exists bk. split; [done|].
    eapply dls_frame; [|exact Hd]. intros. by rewrite E5, E6.
  - done.
  - done.
Qed.

Lemma same_meta_ok h h' L : same_meta h h' -> heap_ok h L -> heap_ok h' L.
Proof. intros Hm (B & Hi & Hg). exists B. split; [by eapply same_meta_hinv|done]. Qed.

Lemma fsem_meta n h : same_meta h (set_fsem n h).
Proof. done. Qed.

Lemma data_meta f h : same_meta h (set_data f h).
Proof. done. Qed.

(** A lump in use, its segment and its header. *)
Record in_use (h : heap) (s : seg) (c : cell) : Prop := mk_in_use {
  iu_seg : s ∈ segs h;
  iu_ok : seg_ok s;
  iu_size : m_size h !! c_addr c = Some (c_size c);
  iu_parent : m_parent h !! c_addr c = Some (Z.lor (sg_addr s) (c_st c));
  iu_magic : m_magic h !! sg_addr s = Some UM_MAGIC_SEG;
  iu_st : 1 <= c_st c < 3;
  iu_addr : 56 <= c_addr c;
  iu_sz : 0 <= c_size c;
  iu_end : c_end c < 2 ^ 32;
  iu_page : c_addr c mod 32 = 24
}.

Lemma live_place h K c :
  lay h (plug K [c]) -> 0 < c_st c ->
  exists s, segs h !! length (k_l K) = Some s /\ in_use h s c.
Proof.
  intros Hl Hst. destruct (lay_region _ _ _ Hl) as (s & lo & hi & Hr & Hok & Ht & Hat & _).
  pose proof (rg_seg _ _ _ _ _ Hr) as Hs. exists s. split; [done|].
  destruct (place_bounds _ _ _ _ c Hl Hs ltac:(left)) as (F1 & F2 & _ & F4 & _ & _ & _ & F8).
  rewrite Forall_singleton in Hat. destruct (cell_known _ _ _ Hat) as (M1 & M2 & _); [unfold GAP; lia|].
  constructor; try done.
  - by eapply list_elem_of_lookup_2.
  - destruct (Forall2_lookup_l _ _ _ _ _ (ly_segs _ _ Hl) Hs) as (cs & _ & []). done.
  - cbn in Ht. unfold GAP in Ht. lia.
Qed.

Lemma lump_free_run h L c :
  heap_ok h L -> c ∈ live L ->
  exists s h' L', in_use h s c /\ um_lump_free_no_lock (sg_addr s) (c_addr c) h = Done () h'
    /\ heap_ok h' L' /\ live L ≡ₚ c :: live L' /\ same_ctl h h' /\ kept h h' (live L').
Proof.
  intros (B & Hi & Hg) [Hst Hc]%elem_of_live. apply plug_of in Hc as [K ->].
  destruct (live_place _ _ _ (hv_lay _ _ _ Hi) Hst) as (s & Hs & Hu). pose proof Hu as [_ iok isz ipar _ ist iaddr isz0 iend _].
  assert (Hi1 : hinv h (plug K [gap (c_addr c) (c_len c)]) B).
  { destruct (place _ _ _ _ (hv_lay _ _ _ Hi) Hs) as (lo & hi & Hr & _ & Ht & _).
    pose proof (tiles_one _ _ _ Ht) as [-> ->]. pose proof (c_len_pos c isz0).
    eapply (hinv_retile h h K [c]); [exact Hi|exact Hr|done| |done|apply hdr_refl| | |].
    - cbn. rewrite gap_end by apply rnd_mod. unfold c_end. split_and!; [done|lia|by left|done].
    - by repeat constructor.
    - repeat constructor. lia.
    - by repeat constructor. }
  destruct (coalesce_free_run h s K (c_addr c) (c_len c) B Hi1 Hs (rnd_mod _)) as
    (h' & L' & B' & R & Hi' & Hg' & Hlive & Hct & Hk).
  { rewrite Forall_plug in *. destruct Hg as (? & Hm & ?). split_and!; [done| |done].
    cbn [app]. apply Forall_app in Hm as [? Hm]. apply Forall_app. split; [done|]. by inversion Hm. }
  exists s, h', L'. split; [done|]. split.
  { unfold um_lump_free_no_lock. unfold lump_status.
    erewrite run_bind by (erewrite run_bind by (by apply ld_run); cbn; by rewrite status_word by (apply iok || lia)).
    change UMS_FREE with 0. rewrite (proj2 (Z.eqb_neq (c_st c) 0)) by lia. erewrite run_bind by done.
    erewrite run_bind by (by apply ld_run).
    pose proof (rnd_bounds (c_size c)). unfold c_end, c_len in *.
    rewrite round_lump by lia. done. }
  split; [by exists B'|]. split; [by rewrite Hlive, live_cons|]. split; [done|]. by rewrite Hlive.
Qed.
