(* ===== verification/HeapAlloc.v ===== *)
(** Allocation of lumps: the search of the buckets finds a lump that fits if
    there is one, and cutting it gives a block of the requested size and
    alignment while every lump in use stays as it is. *)

From S2P Require Import Prelude Heap HeapFacts HeapBuckets HeapLumps HeapOps.

(** ** Alignment *)

Lemma align_diff p k : 0 <= p < 2 ^ 32 -> 0 <= k <= 31 -> UM_ALIGN_DIFF p (2 ^ k) = (- p) mod 2 ^ k.
Proof.
  intros Hp Hk. unfold UM_ALIGN_DIFF. assert (0 < 2 ^ k) by lia.
  rewrite land_not_mask by (apply u32_range || lia). set (m := 2 ^ k) in *.
  assert (Hd : exists d, d * m = 2 ^ 32 /\ 0 < d).
  { exists (2 ^ (32 - k)). unfold m. rewrite <-Z.pow_add_r by lia. split; [f_equal; lia|lia]. }
  destruct Hd as (d & Hd & Hd0). assert (Hm : m <= 2 ^ 31) by (unfold m; apply Z.pow_le_mono_r; lia).
  pose proof (Z.mod_pos_bound (- p) m ltac:(lia)) as Hb. pose proof (Z.div_mod (- p) m ltac:(lia)) as Hdm.
  set (r := (- p) mod m) in *. set (q := - p / m) in *.
  assert (Hq : (p + m - 1) / m = - q).
  { symmetry. apply (Z.div_unique _ _ _ (m - 1 - r)); nia. }
  destruct (Z_lt_ge_dec (p + m - 1) (2 ^ 32)).
  - rewrite (u32_small (p + m - 1)) by lia. rewrite Hq, u32_small by lia. nia.
  - assert (Hu : u32 (p + m - 1) = p + m - 1 - 2 ^ 32).
    { unfold u32. rewrite <-(Z.mod_add _ (-1)) by lia. rewrite Z.mod_small by lia. lia. }
    rewrite Hu. replace (p + m - 1 - 2 ^ 32) with (p + m - 1 + (- d) * m) by lia.
    rewrite Z.div_add, Hq by lia. unfold u32. rewrite <-(Z.mod_add _ 1) by lia.
    rewrite Z.mod_small by nia. nia.
Qed.

Lemma aligned_up p m : 0 < m -> (p + (- p) mod m) mod m = 0.
Proof. intros. rewrite Z.add_mod_idemp_r by lia. by rewrite Z.add_opp_diag_r, Z.mod_0_l by lia. Qed.

(** The padding before a block is a number of pages. *)
Lemma pad_pages p k : p mod 32 = 0 -> 0 <= k -> ((- p) mod 2 ^ k) mod 32 = 0.
Proof.
  intros Hp Hk. pose proof (Z.div_mod p 32 ltac:(lia)) as Hd. rewrite Hp in Hd.
  destruct (Z_le_gt_dec k 5).
  - replace (- p) with (- (p / 32) * 2 ^ (5 - k) * 2 ^ k).
    2:{ rewrite <-Z.mul_assoc, <-Z.pow_add_r by lia. replace (5 - k + k) with 5 by lia. lia. }
    by rewrite Z.mod_mul by lia.
  - assert (Hm : 2 ^ k = 32 * 2 ^ (k - 5)).
    { change 32 with (2 ^ 5). rewrite <-Z.pow_add_r by lia. f_equal. lia. }
    replace (- p) with (32 * (- (p / 32))) by lia. rewrite Hm, Z.mul_mod_distr_l by lia.
    rewrite Z.mul_comm. apply Z.mod_mul. lia.
Qed.

(** The least padding is the least. *)
Lemma pad_least p m d : 0 < m -> 0 <= d -> (p + d) mod m = 0 -> (- p) mod m <= d.
Proof.
  intros Hm Hd Hpd. pose proof (Z.div_mod (p + d) m ltac:(lia)) as H. rewrite Hpd in H.
  replace (- p) with (d + (- ((p + d) / m)) * m) by lia. rewrite Z.mod_add by lia.
  by apply Z.mod_le.
Qed.

(** ** Lumps that fit *)

(** A block of [size] bytes aligned on [m] has room in the lump [c]. *)
Definition has_room (size m : Z) (c : cell) : Prop :=
  exists d, 0 <= d /\ (c_addr c + 8 + d) mod m = 0 /\ d + rnd size <= c_len c.

(** The place of a block in a free lump. *)
Record fits (size m flags : Z) (c : cell) (diff block : Z) : Prop := mk_fits {
  ft_pos : 0 <= diff;
  ft_page : diff mod 32 = 0;
  ft_room : diff + rnd size <= c_len c;
  ft_block : block = c_addr c + 8 + diff;
  ft_align : block mod m = 0;
  ft_tile : has_bits flags UMFI_TILED = true -> UM_TILE_OK block size = true
}.

Record request (size k : Z) : Prop := mk_request {
  rq_size : 0 <= size;
  rq_max : rnd size < UM_MAX_SIZE;
  rq_align : 0 <= k <= 16
}.

Lemma tile_aligned p size : p mod 0x10000 = 0 -> UM_TILE_ALIGNED p size = true.
Proof.
  intros Hp. unfold UM_TILE_ALIGNED. apply orb_true_iff. right. change 0xffff with (2 ^ 16 - 1).
  rewrite land_low by lia. by apply Z.eqb_eq.
Qed.

Lemma lump_fit_run size k flags c h :
  request size k -> 56 <= c_addr c -> c_end c < 2 ^ 32 -> c_addr c mod 32 = 24 -> 0 <= c_size c ->
  exists r, lump_fit size (2 ^ k) flags (rnd size) (c_addr c) (c_len c) h = Done r h
    /\ match r with
       | Some (diff, block) => fits size (2 ^ k) flags c diff block
       | None => has_bits flags UMFI_TILED = false -> ~ has_room size (2 ^ k) c
       end.
Proof.
  intros [Hs Hmax Hk] Ha He Hm Hc. unfold UM_MAX_SIZE in Hmax. pose proof (rnd_pos size Hs) as Hr.
  pose proof (c_len_pos c Hc). unfold c_end in He. unfold lump_fit, UM_LUMP_HEADER_SIZE, UM_PAGE_SIZE.
  assert (Hpow : 0 < 2 ^ k <= 65536).
  { split; [lia|]. change 65536 with (2 ^ 16). apply Z.pow_le_mono_r; lia. }
  destruct (Z.ltb_spec (c_len c) (rnd size)).
  { eexists. split; [done|]. intros _ (d & ? & _ & ?). lia. }
  rewrite (u32_small (c_addr c + 8)) by lia. rewrite align_diff by lia.
  assert (Hb32 : (c_addr c + 8) mod 32 = 0) by (by rewrite Z.add_mod, Hm by lia).
  pose proof (Z.mod_pos_bound (- (c_addr c + 8)) (2 ^ k) ltac:(lia)) as Hd.
  pose proof (pad_pages _ k Hb32 ltac:(lia)) as Hpg. pose proof (aligned_up (c_addr c + 8) (2 ^ k) ltac:(lia)) as Hal.
  pose proof (pad_least (c_addr c + 8) (2 ^ k)) as Hleast.
  set (diff := (- (c_addr c + 8)) mod 2 ^ k) in *.
  rewrite Hpg. erewrite run_bind by done. rewrite (u32_small (diff + rnd size)) by lia.
  destruct (Z.ltb_spec (c_len c) (diff + rnd size)) as [Hroom|Hroom].
  { eexists. split; [done|]. intros _ (d & H1 & H2 & H3). specialize (Hleast d ltac:(lia) H1 H2). lia. }
  rewrite (u32_small (c_addr c + 8 + diff)) by lia. rewrite aligned_mod, Hal by lia. erewrite run_bind by done.
  destruct (has_bits flags UMFI_TILED) eqn:Hti; cbn [negb].
  2:{ exists (Some (diff, c_addr c + 8 + diff)). split; [done|]. constructor; (done || lia || congruence). }
  destruct (UM_TILE_TILED (c_addr c + 8 + diff) size) eqn:Hte; cbn [negb]; [|by eexists].
  destruct (UM_TILE_ALIGNED (c_addr c + 8 + diff) size) eqn:Hta; cbn [negb].
  - erewrite run_bind by done. cbn beta iota. unfold UM_TILE_OK. rewrite Hta, Hte. erewrite run_bind by done.
    exists (Some (diff, c_addr c + 8 + diff)). split; [done|]. constructor; try done; [lia|].
    intros _. unfold UM_TILE_OK. by rewrite Hta, Hte.
  - change 0x10000 with (2 ^ 16). rewrite align_diff by lia.
    pose proof (Z.mod_pos_bound (- (c_addr c + 8 + diff)) (2 ^ 16) ltac:(lia)) as Hd2.
    pose proof (aligned_up (c_addr c + 8 + diff) (2 ^ 16) ltac:(lia)) as Hal2.
    assert (Hpg2 : ((- (c_addr c + 8 + diff)) mod 2 ^ 16) mod 32 = 0).
    { apply pad_pages; [by apply mod32_add|lia]. }
    set (diff2 := (- (c_addr c + 8 + diff)) mod 2 ^ 16) in *.
    rewrite (u32_small (diff + diff2)) by lia. rewrite (u32_small (diff + diff2 + rnd size)) by lia.
    destruct (Z.ltb_spec (c_len c) (diff + diff2 + rnd size)); [by eexists|].
    rewrite (u32_small (c_addr c + 8 + (diff + diff2))) by lia.
    replace (c_addr c + 8 + (diff + diff2)) with (c_addr c + 8 + diff + diff2) by lia.
    destruct (UM_TILE_TILED (c_addr c + 8 + diff + diff2) size) eqn:Hte2; cbn [negb]; [|by eexists].
    pose proof (tile_aligned _ size Hal2) as Hta2.
    erewrite run_bind by done. cbn beta iota. unfold UM_TILE_OK. rewrite Hta2, Hte2. erewrite run_bind by done.
    exists (Some (diff + diff2, c_addr c + 8 + diff + diff2)). split; [done|]. constructor; try lia.
    + by apply mod32_add.
    + apply Z.mod_divide; [lia|]. apply Z.mod_divide in Hal2; [|lia]. etrans; [|exact Hal2].
      exists (2 ^ (16 - k)). rewrite <-Z.pow_add_r by lia. f_equal. lia.
    + intros _. unfold UM_TILE_OK. by rewrite Hta2, Hte2.
Qed.

(** ** The search *)

(** What a free lump of the layout is like. *)
Lemma free_facts h L B b a :
  hinv h L B -> 0 <= b < UM_BUCKETS -> a ∈ B b ->
  exists K c s, L = plug K [c] /\ c_addr c = a /\ c_st c = 0 /\ bucket_of (c_len c) = b
    /\ segs h !! length (k_l K) = Some s /\ seg_ok s
    /\ m_size h !! a = Some (c_size c) /\ m_parent h !! a = Some (Z.lor (sg_addr s) 0)
    /\ 56 <= a /\ 0 <= c_size c /\ c_end c < 2 ^ 32 /\ a mod 32 = 24.
Proof.
  intros Hi Hb Ha. pose proof (hv_lay _ _ _ Hi) as Hl.
  apply (hv_free _ _ _ Hi) in Ha as (c & Hc & <- & Hst & Hbc); [|done].
  apply plug_of in Hc as [K ->]. destruct (lay_region _ _ _ Hl) as (s & lo & hi & Hr & Hok & _ & Hat & _).
  pose proof (rg_seg _ _ _ _ _ Hr) as Hs. rewrite Forall_singleton in Hat.
  destruct (place_bounds _ _ _ _ c Hl Hs ltac:(left)) as (F1 & F2 & _ & F4 & _ & _ & _ & F8).
  destruct (cell_known _ _ _ Hat) as (M1 & M2 & _); [rewrite Hst; done|]. rewrite Hst in M2.
  exists K, c, s. by split_and!.
Qed.

(** The cell found by the search. *)
Definition found (L : list (list cell)) (size m flags b : Z) (r : Z * Z * Z * Z) : Prop :=
  let '(olump, osize, diff, block) := r in
  exists c, c ∈ concat L /\ c_st c = 0 /\ c_addr c = olump /\ c_len c = osize /\ bucket_of (c_len c) = b
    /\ fits size m flags c diff block.

Lemma bucket_scan_run size k flags h L B b l fuel pv f lst :
  request size k -> hinv h L B -> 0 <= b < UM_BUCKETS -> (length l <= fuel)%nat ->
  dls h pv l f lst 0 -> (forall a, a ∈ l -> a ∈ B b) ->
  exists r, scan_bucket fuel size (2 ^ k) flags (rnd size) f h = Done r h
    /\ match r with
       | Some x => found L size (2 ^ k) flags b x
       | None => has_bits flags UMFI_TILED = false -> forall c, c ∈ concat L -> c_addr c ∈ l -> c_st c = 0 -> ~ has_room size (2 ^ k) c
       end.
Proof.
  intros Hrq Hi Hb. revert fuel pv f. induction l as [|a l IH]; intros fuel pv f Hfuel Hd Hin.
  { destruct Hd as [-> _]. exists None. split; [by destruct fuel|]. intros _ c _ Hc. by apply elem_of_nil in Hc. }
  destruct Hd as (-> & Ha0 & _ & n & Hn & Hd). destruct fuel as [|fuel]; [cbn in Hfuel; lia|].
  destruct (free_facts _ _ _ _ _ Hi Hb (Hin a ltac:(left)))
    as (K & c & s & -> & <- & Hst & Hbc & Hs & Hok & M1 & M2 & F1 & F2 & F3 & F4).
  cbn [scan_bucket]. rewrite (proj2 (Z.eqb_neq _ _)) by done. unfold lump_status at 1.
  erewrite run_bind by (erewrite run_bind by (by apply ld_run); cbn; by rewrite status_word by (apply Hok || lia)).
  change UMS_FREE with 0. cbn [Z.eqb um_assert]. erewrite run_bind by done. erewrite run_bind by (by apply ld_run).
  pose proof (rnd_bounds (c_size c)). unfold c_end, c_len in F3. rewrite round_lump by lia.
  destruct (lump_fit_run size k flags c h Hrq F1 F3 F4 F2) as (r & Hr & Hspec).
  erewrite run_bind by done. destruct r as [[diff block]|].
  - eexists. split; [done|]. exists c. split_and!; try done. apply elem_of_plug. left. left.
  - erewrite run_bind by (by apply ld_run).
    destruct (IH fuel (c_addr c) n ltac:(cbn in Hfuel; lia) Hd) as (r & Hr' & Hspec'); [intros; apply Hin; by right|].
    exists r. split; [done|]. destruct r as [x|]; [done|].
    intros Ht d Hd' [Heq|Hdl]%elem_of_cons Hdst; [|by apply Hspec'].
    replace d with c; [by apply Hspec|].
    destruct (lay_disj _ _ c d (hv_lay _ _ _ Hi)) as [_ [->|Hor]]; [apply elem_of_plug; left; left|done|done|].
    destruct (lay_disj _ _ d c (hv_lay _ _ _ Hi)) as [Hd0 _]; [done|apply elem_of_plug; left; left|].
    pose proof (c_len_pos d Hd0). pose proof (c_len_pos c F2). unfold c_end in *. lia.
Qed.

(** A bucket has no more lumps than the heap. *)
Lemma bucket_length h L B b : hinv h L B -> 0 <= b < UM_BUCKETS -> (length (B b) <= length (concat L))%nat.
Proof.
  intros Hi Hb. rewrite <-(length_fmap c_addr (concat L)). apply submseteq_length, NoDup_submseteq.
  - by apply (bk_nodup _ _ (hv_bks _ _ _ Hi)).
  - intros a (c & Hc & <- & _)%(hv_free _ _ _ Hi); [|done]. by apply list_elem_of_fmap_2.
Qed.

Lemma buckets_run size k flags fuel h L B n b :
  request size k -> hinv h L B -> (length (concat L) <= fuel)%nat -> 0 <= b -> b + Z.of_nat n = UM_BUCKETS ->
  (exists b' x, b <= b' < UM_BUCKETS /\ found L size (2 ^ k) flags b' x
    /\ alloc_buckets fuel n size (2 ^ k) flags (rnd size) b h =
         (let '(olump, osize, diff, block) := x in take_lump b' size flags (rnd size) olump osize diff block h))
  \/ (alloc_buckets fuel n size (2 ^ k) flags (rnd size) b h = Done 0 h
    /\ (has_bits flags UMFI_TILED = false ->
        forall c, c ∈ concat L -> c_st c = 0 -> b <= bucket_of (c_len c) < UM_BUCKETS -> ~ has_room size (2 ^ k) c)).
Proof.
  intros Hrq Hi Hfuel. revert b. induction n as [|n IH]; intros b Hb Hbn.
  { right. split; [done|]. intros _ c _ _. lia. }
  cbn [alloc_buckets]. destruct (bk_dll _ _ (hv_bks _ _ _ Hi) b ltac:(lia)) as (bk & Hg & Hd).
  erewrite !run_bind by (by apply get_bucket_run).
  pose proof (bucket_length _ _ _ b Hi ltac:(lia)).
  destruct (bucket_scan_run size k flags h L B b (B b) fuel 0 _ _ Hrq Hi ltac:(lia) ltac:(lia) Hd ltac:(done)) as (r & Hr & Hspec).
  erewrite !run_bind by done. destruct r as [x|].
  - left. exists b, x. split; [lia|]. split; [done|]. by destruct x as [[[o os] d] bl].
  - destruct (IH (b + 1) ltac:(lia) ltac:(lia)) as [(b' & x & Hb' & Hrest)|[Hrun Hno]].
    + left. exists b', x. split; [lia|done].
    + right. split; [done|]. intros Ht c Hc Hst Hbc. destruct (decide (bucket_of (c_len c) = b)) as [Heq|Hne].
      * apply Hspec; [done|done| |done]. apply (hv_free _ _ _ Hi); [lia|]. by exists c.
      * apply Hno; [done|done|done|lia].
Qed.

(** ** Cutting a lump *)

Definition opt_gap (a n : Z) : list cell := if n =? 0 then [] else [gap a n].

Definition idle (cs : list cell) : Prop := Forall (fun c => c_st c <= 0) cs.

Lemma live_mono K xs ys : xs ⊆ ys -> live (plug K xs) ⊆ live (plug K ys).
Proof.
  intros Hin c [Hst Hc]%elem_of_live. apply elem_of_live. split; [done|].
  apply elem_of_plug. apply elem_of_plug in Hc as [Hc|Hc]; [left; by apply Hin|by right].
Qed.

(** A part that may be empty becomes free. *)
Lemma make_free_opt h s K l n B (aok : bool) :
  hinv h (plug K (opt_gap l n)) B -> segs h !! length (k_l K) = Some s -> 0 <= n -> n mod 32 = 0 ->
  aok = true -> (n <> 0 -> ~ is_free (last (k_a K)) /\ ~ is_free (head (k_b K))) ->
  exists h' B' xs, mwhen (n >? 0) (_ ← um_assert aok; um_lump_make_free l (sg_addr s) n) h = Done () h'
    /\ hinv h' (plug K xs) B' /\ no_gap xs /\ idle xs /\ (xs = [] \/ 0 < n) /\ same_ctl h h'
    /\ kept h h' (live (plug K [])).
Proof.
  intros Hi Hs H0 Hn -> Hfree. unfold opt_gap in Hi. destruct (Z.eqb_spec n 0) as [->|Hne].
  - exists h, B, []. unfold no_gap, idle. split_and!; [done|done|by constructor|by constructor|by left|done|done].
  - destruct (Hfree Hne) as [Ha Hb]. destruct (make_free_run _ _ _ _ _ _ Hi Hs Hn Ha Hb) as (h' & B' & R & Hi' & Hc & Hk).
    exists h', B', [mk_cell l (n - 12) 0]. rewrite Z.gtb_ltb, (proj2 (Z.ltb_lt 0 n)) by lia.
    split_and!; try done; [by repeat constructor|by repeat constructor|right; lia].
Qed.

Lemma crate_word sga : 0 <= sga -> sga + 2 < 2 ^ 32 -> sga mod 8 = 0 -> SET_STATUS (Z.lor sga UMS_USER) UMS_CRATE = Z.lor sga 2.
Proof.
  intros H0 H1 Hm. unfold SET_STATUS, UMS_USER, UMS_CRATE, UMS_MASK. rewrite (parent_word sga 1) by (done || lia).
  change 3 with (2 ^ 2 - 1). rewrite land_not_mask by lia. change (2 ^ 2) with 4. pose proof (Z.div_mod sga 8).
  replace (sga + 1) with (1 + 2 * (sga / 8) * 4) by lia. rewrite Z.div_add by lia. f_equal. change (1 / 4) with 0. lia.
Qed.

Definition user_st (flags : Z) : Z := if has_bits flags UMFI_CRATE then UMS_CRATE else UMS_USER.

(** The header of the lump in use is written inside of a gap. *)
Lemma carve_run h s K g diff size flags B :
  hinv h (plug K [g]) B -> c_st g = GAP -> segs h !! length (k_l K) = Some s ->
  0 <= diff -> diff mod 32 = 0 -> 0 <= size -> diff + rnd size <= c_len g ->
  let u := c_addr g + diff in let rest := c_len g - (diff + rnd size) in
  let ul := mk_cell u size (user_st flags) in
  exists h', (forall A (k : H A),
      (_ ← mmod (set_parent u (Z.lor (sg_addr s) UMS_USER));
       _ ← mwhen (has_bits flags UMFI_CRATE) (y ← ld m_parent u; mmod (set_parent u (SET_STATUS y UMS_CRATE)));
       _ ← um_lump_set_size u size; k) h = k h')
    /\ hinv h' (plug K (opt_gap (c_addr g) diff ++ [ul] ++ opt_gap (u + rnd size) rest)) B
    /\ same_ctl h h' /\ kept h h' (live (plug K [])).
Proof.
  intros Hi Hg Hs H0 Hd Hsz Hroom u rest ul. pose proof (hv_lay _ _ _ Hi) as Hl.
  destruct (place_bounds _ _ _ _ g Hl Hs ltac:(left)) as (F1 & F2 & F3 & F4 & F5 & _).
  destruct (place _ _ _ _ Hl Hs) as (lo & hi & Hr & Hok & Ht & _). pose proof (tiles_one _ _ _ Ht) as [-> ->].
  pose proof (rnd_pos size Hsz). pose proof (so_mem _ Hok). pose proof (so_top _ Hok). pose proof (so_start _ Hok).
  pose proof (so_end _ Hok). unfold c_end in F4.
  assert (Hrest : rest mod 32 = 0) by (apply mod32_sub; [apply rnd_mod|apply mod32_add; [done|apply rnd_mod]]).
  assert (Hust : user_st flags = 1 \/ user_st flags = 2).
  { unfold user_st. destruct (has_bits flags UMFI_CRATE); [by right|by left]. }
  assert (Hul : c_end ul = u + rnd size) by done.
  exists (write_hdr (sg_addr s) ul h). split.
  { intros A k. erewrite run_bind by done. unfold write_hdr, ul, user_st. cbn [c_addr c_size c_st].
    destruct (has_bits flags UMFI_CRATE); cbn [mwhen].
    - erewrite run_bind.
      2:{ erewrite run_bind by (apply ld_run; cbn; apply lookup_insert_eq). done. }
      rewrite crate_word by (apply Hok || lia).
      erewrite run_bind by (apply set_size_run; unfold u; lia).
      do 3 f_equal. unfold set_parent. cbn. by rewrite insert_insert_eq.
    - erewrite run_bind by done. erewrite run_bind by (apply set_size_run; unfold u; lia). done. }
  assert (Hog : forall a n, 0 <= n -> n mod 32 = 0 -> tiles a (opt_gap a n) (a + n)
    /\ Forall (cell_at (write_hdr (sg_addr s) ul h) (sg_addr s)) (opt_gap a n) /\ busy (opt_gap a n)).
  { intros a n Hn Hm. unfold opt_gap. destruct (Z.eqb_spec n 0) as [->|]; [unfold busy; cbn; split_and!; [lia|by constructor|by constructor]|].
    pose proof (Z.div_mod n 32). split_and!; [|by repeat constructor|by repeat constructor].
    cbn. rewrite gap_end by done. split_and!; [done|lia|by left|done]. }
  destruct (Hog (c_addr g) diff H0 Hd) as (T1 & C1 & U1).
  destruct (Hog (u + rnd size) rest ltac:(unfold rest; lia) Hrest) as (T2 & C2 & U2).
  destruct (hinv_retile h (write_hdr (sg_addr s) ul h) K [g]
    (opt_gap (c_addr g) diff ++ [ul] ++ opt_gap (u + rnd size) rest) B s (c_addr g) (c_end g)) as [Hi' Hk]; try done.
  - apply tiles_app. exists u. split; [done|]. apply tiles_app. exists (u + rnd size). split.
    + cbn. rewrite Hul. split_and!; [done|done|lia|done].
    + unfold c_end. replace (c_addr g + c_len g) with (u + rnd size + rest) by (unfold u, rest; lia). done.
  - by destruct (opt_gap (c_addr g) diff).
  - apply write_hdr_only; rewrite ?Hul; unfold ul, u, c_end, c_len; cbn; unfold c_len in *; lia.
  - apply Forall_app; split; [done|]. apply Forall_app; split; [|done]. constructor; [apply write_hdr_at|done].
  - constructor; [|done]. by rewrite Hg.
  - unfold busy. apply Forall_app; split; [done|]. apply Forall_app; split; [|done]. constructor; [cbn; lia|done].
  - split; [done|]. split; [|by apply live_kept].
    eapply (ho_ctl _ _ (c_addr g) (c_end g)), write_hdr_only; rewrite ?Hul; unfold ul, u, c_end, c_len; cbn; unfold c_len in *; lia.
Qed.

(** ** Allocation without expansion *)

(** The block [block] was allocated in [h]: the heap is [h'], its layout [L']. *)
Record allocated (h : heap) (L : list (list cell)) (size m flags block : Z) (h' : heap) (L' : list (list cell)) : Prop :=
  mk_allocated {
  al_ok : heap_ok h' L';
  al_live : live L' ≡ₚ mk_cell (block - 8) size (user_st flags) :: live L;
  al_block : 0 < block;
  al_align : block mod m = 0;
  al_tile : has_bits flags UMFI_TILED = true -> UM_TILE_OK block size = true;
  al_zero : has_bits flags UMFI_ZERO = true -> forall a, block <= a < block + size -> m_data h' a = 0;
  al_top : same_top h h';
  al_kept : kept h h' (live L)
}.

(** [bzero] of a block. *)
Lemma zero_run (z : bool) block size h L c :
  heap_ok h L -> c ∈ live L -> c_addr c = block - 8 -> c_size c = size ->
  exists h', mwhen z (bzero block size) h = Done () h' /\ heap_ok h' L /\ same_top h h'
    /\ (z = true -> forall a, block <= a < block + size -> m_data h' a = 0)
    /\ (forall cs, cs ⊆ live L -> c ∉ cs -> kept h h' cs).
Proof.
  intros Hok Hc Ha Hsz. destruct z; cbn [mwhen].
  2:{ exists h. split_and!; try done. }
  eexists. split; [done|]. split; [by eapply same_meta_ok; [apply data_meta|]|]. split; [done|]. split.
  - intros _ a Hr. cbn. rewrite (proj2 (Z.leb_le _ _)), (proj2 (Z.ltb_lt _ _)) by lia. done.
  - intros cs Hcs Hn d a Hd Hr. constructor; try done. cbn.
    destruct Hok as (B & Hi & _). apply elem_of_live in Hc as [_ Hc].
    pose proof (Hcs d Hd) as [_ Hd']%elem_of_live.
    destruct (lay_disj _ _ c d (hv_lay _ _ _ Hi)) as [H0 [->|Hor]]; [done|done|done|].
    pose proof (rnd_bounds (c_size c)). unfold c_end, c_len in *.
    destruct (Z.leb_spec block a); [|done]. destruct (Z.ltb_spec a (block + size)); [lia|done].
Qed.

Lemma live_three K xs c ys : idle xs -> idle ys -> 0 < c_st c -> live (plug K (xs ++ [c] ++ ys)) ≡ₚ c :: live (plug K []).
Proof.
  intros Hx Hy Hc. rewrite <-live_cons by done. unfold idle in *.
  assert (Hf : forall zs, Forall (fun d => c_st d <= 0) zs -> filter (fun d => 0 < c_st d) zs = []).
  { induction 1; [done|]. rewrite filter_cons_False by lia. done. }
  erewrite (live_plug K (xs ++ [c] ++ ys) [c]); [done|].
  rewrite !filter_app, (Hf xs), (Hf ys) by done. by rewrite app_nil_r.
Qed.

Lemma cut_run h K c B size m k flags diff block :
  request size k -> hinv h (plug K [c]) B -> Forall no_gap (plug K [c]) -> c_st c = 0 ->
  fits size m flags c diff block ->
  let ul := mk_cell (c_addr c + diff) size (user_st flags) in
  exists h' xs ys, cut_lump (bucket_of (c_len c)) size flags (rnd size) (c_addr c) (c_len c) diff h = Done () h'
    /\ heap_ok h' (plug K (xs ++ [ul] ++ ys)) /\ idle xs /\ idle ys /\ 0 < c_st ul
    /\ same_ctl h h' /\ kept h h' (live (plug K [])).
Proof.
  intros [Hsz Hmax Hk] Hi Hg Hst [D0 D32 Droom _ _ _] ul. pose proof (hv_lay _ _ _ Hi) as Hl.
  destruct (lay_region _ _ _ Hl) as (s & lo & hi & Hr & Hok & _ & Hat & _). rewrite Forall_singleton in Hat.
  pose proof (rg_seg _ _ _ _ _ Hr) as Hs.
  destruct (place_bounds _ _ _ _ c Hl Hs ltac:(left)) as (F1 & F2 & F3 & F4 & F5 & F6 & F7 & F8).
  pose proof (so_mem _ Hok). pose proof (so_top _ Hok). pose proof (so_start _ Hok). pose proof (so_end _ Hok).
  pose proof (rnd_pos size Hsz). unfold c_end in F4, F7.
  destruct (cell_known _ _ _ Hat) as (M1 & M2 & _); [by rewrite Hst|]. rewrite Hst in M2.
  pose proof (hv_adj _ _ _ Hi) as Hadj. rewrite Forall_plug in Hadj. destruct Hadj as (_ & Hadj & _).
  apply no_adj_mid in Hadj as (_ & _ & Hadj & _). destruct (Hadj Hst) as [Hna Hnb].
  rewrite Forall_plug in Hg. destruct Hg as (Hgl & Hgm & Hgr). apply Forall_app in Hgm as [Hga Hgb].
  apply Forall_app in Hgb as [_ Hgb].
  destruct (unlink_gap _ _ _ _ Hi Hst) as (h1 & B1 & R1 & _ & Hi1 & Hl1 & Hk1).
  pose proof Hl1 as (_ & Eseg & _ & _ & _ & _ & Esz & Epar & _).
  assert (Hs1 : segs h1 !! length (k_l K) = Some s) by (by rewrite Eseg).
  destruct (carve_run h1 s K (as_gap c) diff size flags B1 Hi1 ltac:(done) Hs1 D0 D32 Hsz Droom) as (h2 & R2 & Hi2 & Hc2 & Hk2).
  change (c_addr (as_gap c)) with (c_addr c) in *. change (c_len (as_gap c)) with (c_len c) in *.
  set (u := c_addr c + diff) in *. set (rest := c_len c - (diff + rnd size)) in *.
  assert (Hust : 0 < c_st ul) by (cbn; unfold user_st; by destruct (has_bits flags UMFI_CRATE)).
  assert (Hrest32 : rest mod 32 = 0) by (apply mod32_sub; [apply rnd_mod|apply mod32_add; [done|apply rnd_mod]]).
  destruct K as [kl a b kr]. cbn [k_l k_a k_b k_r] in *.
  (* the part after the block *)
  rewrite app_assoc, <-plug_left in Hi2.
  destruct (make_free_opt h2 s (mk_ctx kl (a ++ opt_gap (c_addr c) diff ++ [ul]) b kr) (u + rnd size) rest B1
    (u32 (c_len c - rnd size) mod UM_PAGE_SIZE =? 0)) as (h3 & B3 & ys & R3 & Hi3 & Hgy & Hiy & _ & Hc3 & Hk3); try done.
  { by rewrite (ct_segs _ _ Hc2). } { unfold rest. lia. }
  { apply Z.eqb_eq. rewrite u32_small by lia. apply mod32_sub; apply rnd_mod. }
  { intros _. cbn [k_a k_b]. split; [|done]. rewrite app_assoc, last_snoc. cbn in Hust |- *. lia. }
  rewrite plug_left, <-app_assoc, <-plug_right, <-app_assoc in Hi3.
  (* and the part before it *)
  destruct (make_free_opt h3 s (mk_ctx kl a ([ul] ++ ys ++ b) kr) (c_addr c) diff B3 (diff mod UM_PAGE_SIZE =? 0))
    as (h4 & B4 & xs & R4 & Hi4 & Hgx & Hix & _ & Hc4 & Hk4); try done.
  { by rewrite (ct_segs _ _ Hc3), (ct_segs _ _ Hc2). } { by apply Z.eqb_eq. }
  { intros _. cbn [k_a k_b app head is_free]. split; [done|]. lia. }
  rewrite app_assoc, plug_right in Hi4.
  exists h4, xs, ys. split; [|split; [|split_and!; try done]].
  - unfold cut_lump. erewrite run_bind by done. erewrite run_bind by (apply ld_run; by rewrite Epar).
    rewrite ptr_word by (apply Hok || lia). rewrite (u32_small (c_addr c + diff)) by lia.
    rewrite seg_aligned by done. erewrite run_bind by done. fold u. rewrite R2.
    rewrite (u32_small (diff + rnd size)) by lia. rewrite (u32_small (c_addr c + (diff + rnd size))) by lia.
    rewrite (u32_small (c_len c - (diff + rnd size))) by lia. fold rest.
    replace (c_len c >? diff + rnd size) with (rest >? 0) by (unfold rest; rewrite !Z.gtb_ltb; apply eq_true_iff_eq; rewrite !Z.ltb_lt; lia).
    replace (c_addr c + (diff + rnd size)) with (u + rnd size) by (unfold u; lia).
    erewrite run_bind by done. done.
  - exists B4. split; [done|]. rewrite Forall_plug. split_and!; [done| |done].
    unfold no_gap in *. rewrite !Forall_app. split_and!; try done. constructor; [cbn in *; unfold GAP; lia|done].
  - etrans; [by apply links_ctl|]. etrans; [done|]. by etrans.
  - eapply kept_trans; [done|]. eapply kept_trans; [done|].
    eapply kept_trans; (eapply kept_incl; [eassumption|]); rewrite ?plug_left, ?plug_right; by apply live_mono, list_subseteq_nil.
Qed.

Lemma take_run h K c B size k flags diff block :
  request size k -> hinv h (plug K [c]) B -> Forall no_gap (plug K [c]) -> c_st c = 0 ->
  fits size (2 ^ k) flags c diff block ->
  exists h' L', take_lump (bucket_of (c_len c)) size flags (rnd size) (c_addr c) (c_len c) diff block h = Done block h'
    /\ allocated h (plug K [c]) size (2 ^ k) flags block h' L'.
Proof.
  intros Hrq Hi Hg Hst Hf. pose proof Hf as [D0 D32 Droom -> Dal Dtile]. pose proof (hv_lay _ _ _ Hi) as Hl.
  destruct (lay_region _ _ _ Hl) as (s & lo & hi & Hr & Hok & Ht & _). pose proof (rg_seg _ _ _ _ _ Hr) as Hs.
  pose proof (tiles_one _ _ _ Ht) as [-> ->].
  destruct (place_bounds _ _ _ _ c Hl Hs ltac:(left)) as (F1 & F2 & F3 & F4 & _).
  destruct (cut_run _ _ _ _ _ _ _ _ _ _ Hrq Hi Hg Hst Hf) as (h1 & xs & ys & R1 & Hok1 & Hx & Hy & Hust & Hc1 & Hk1).
  set (ul := mk_cell (c_addr c + diff) size (user_st flags)) in *.
  pose proof (live_three K xs ul ys Hx Hy Hust) as Hperm.
  destruct (zero_run (has_bits flags UMFI_ZERO) (c_addr c + 8 + diff) size h1 _ ul Hok1) as (h2 & R2 & Hok2 & Hc2 & Hz & Hk2).
  { rewrite Hperm. left. } { cbn. lia. } { done. }
  exists h2. eexists. split.
  { unfold take_lump. erewrite run_bind by done. by erewrite run_bind by done. }
  assert (Hlive : live (plug K [c]) = live (plug K [])) by (apply live_idle; constructor; [lia|done]).
  constructor; try done.
  - rewrite Hperm, Hlive. replace (c_addr c + 8 + diff - 8) with (c_addr c + diff) by lia. done.
  - lia.
  - etrans; [by apply ctl_top|done].
  - rewrite Hlive. eapply kept_trans; [done|]. apply Hk2.
    + by apply live_mono, list_subseteq_nil.
    + intros [_ Hin]%elem_of_live. apply elem_of_plug in Hin as [Hin|Hin]; [by apply elem_of_nil in Hin|].
      destruct (others_outside _ _ _ _ _ _ _ Hl Hr Ht Hin) as [H0 Hor]. destruct Hrq as [Hsz _ _].
      pose proof (rnd_pos size Hsz). pose proof (c_len_pos ul H0). unfold c_end, c_len in Hor, Droom, Hor.
      cbn in Hor. lia.
Qed.

Lemma bucket_mono n m : 32 <= n <= m -> bucket_of n <= bucket_of m.
Proof. intros. unfold bucket_of. pose proof (Z.log2_le_mono n m ltac:(lia)). lia. Qed.

(** [_um_lump_alloc_noexpand]: a block, or NULL if the request is too big or
    no free lump has room. *)
Lemma noexpand_run size k flags fuel h L :
  heap_ok h L -> 0 <= size -> size + 43 < 2 ^ 32 -> 0 <= k <= 16 -> (length (concat L) <= fuel)%nat ->
  exists r h', um_lump_alloc_noexpand fuel size (2 ^ k) flags h = Done r h' /\
    ((r = 0 /\ h' = h /\ (has_bits flags UMFI_TILED = false ->
        UM_MAX_SIZE <= rnd size \/ forall c, c ∈ concat L -> c_st c = 0 -> ~ has_room size (2 ^ k) c))
     \/ exists L', allocated h L size (2 ^ k) flags r h' L').
Proof.
  intros (B & Hi & Hg) Hsz Hmax Hk Hfuel. unfold um_lump_alloc_noexpand. rewrite round_lump by lia.
  destruct (Z.geb_spec (rnd size) UM_MAX_SIZE).
  { exists 0, h. split; [done|]. left. split_and!; try done. by left. }
  pose proof (rnd_pos size Hsz). pose proof (bucket_of_range (rnd size) ltac:(lia)) as Hb.
  assert (Hrq : request size k) by by constructor.
  erewrite run_bind by (apply find_bucket_run; lia).
  destruct (buckets_run size k flags fuel h L B (Z.to_nat (UM_BUCKETS - bucket_of (rnd size))) (bucket_of (rnd size)) Hrq Hi Hfuel)
    as [(b' & [[[o os] d] bl] & Hb' & (c & Hc & Hst & <- & <- & <- & Hf) & Hrun)|[Hrun Hno]]; [unfold UM_BUCKETS in *; lia..| |].
  - apply plug_of in Hc as [K ->].
    destruct (take_run _ _ _ _ _ _ _ _ _ Hrq Hi Hg Hst Hf) as (h' & L' & R & Hal).
    exists bl, h'. rewrite Hrun. split; [done|]. right. by exists L'.
  - exists 0, h. split; [done|]. left. split_and!; try done. intros Ht. right. intros c Hc Hst Hroom.
    destruct (lay_disj _ _ _ _ (hv_lay _ _ _ Hi) Hc Hc) as [Hc0 _]. pose proof (c_len_pos c Hc0).
    pose proof (bucket_of_range (c_len c) ltac:(lia)).
    eapply (Hno Ht c Hc Hst); [|done]. destruct Hroom as (d & ? & _ & ?).
    pose proof (bucket_mono (rnd size) (c_len c)). unfold UM_BUCKETS. lia.
Qed.
