(* ===== verification/HeapExpand.v ===== *)
(** Memory added to a heap: a segment grows or a new segment is set up, the
    memory becomes a free lump and no lump in use is touched. *)

From S2P Require Import Prelude Heap HeapFacts HeapBuckets HeapLumps HeapOps HeapAlloc.

(** ** Operations on lumps do not look at segments *)

(** The computation [m] and the change [f] of the heap can be exchanged. *)
Definition commutes {A} (f : heap -> heap) (m : H A) : Prop :=
  forall h, m (f h) = match m h with Done a h' => Done a (f h') | Err e h' => Err e (f h') | Fault x => Fault x end.

(** [f] changes nothing that lumps and buckets are made of. *)
Record transparent (f : heap -> heap) : Prop := mk_transparent {
  tr_size : forall h, m_size (f h) = m_size h;
  tr_parent : forall h, m_parent (f h) = m_parent h;
  tr_next : forall h, m_next (f h) = m_next h;
  tr_prev : forall h, m_prev (f h) = m_prev h;
  tr_tag : forall h, m_tag (f h) = m_tag h;
  tr_buckets : forall h, buckets (f h) = buckets h;
  tr_set_size : forall a v h, set_size a v (f h) = f (set_size a v h);
  tr_set_parent : forall a v h, set_parent a v (f h) = f (set_parent a v h);
  tr_set_next : forall a v h, set_next a v (f h) = f (set_next a v h);
  tr_set_prev : forall a v h, set_prev a v (f h) = f (set_prev a v h);
  tr_set_tag : forall a v h, set_tag a v (f h) = f (set_tag a v h);
  tr_set_buckets : forall l h, set_buckets l (f h) = f (set_buckets l h)
}.

Lemma transparent_segs l : transparent (set_segs l).
Proof. done. Qed.

Lemma transparent_magic a v : transparent (set_magic a v).
Proof. done. Qed.

Lemma transparent_comp f g : transparent f -> transparent g -> transparent (fun h => f (g h)).
Proof.
  intros [F1 F2 F3 F4 F5 F6 F7 F8 F9 F10 F11 F12] [G1 G2 G3 G4 G5 G6 G7 G8 G9 G10 G11 G12].
  constructor; intros; congruence.
Qed.

Section Commutes.
Context (f : heap -> heap) (Hf : transparent f).

Lemma commutes_ret {A} (a : A) : commutes f (mret a).
Proof. done. Qed.

Lemma commutes_fail {A} x : commutes f (mfail x : H A).
Proof. done. Qed.

Lemma commutes_bind {A B} (m : H A) (k : A -> H B) :
  commutes f m -> (forall a, commutes f (k a)) -> commutes f (m ≫= k).
Proof. intros Hm Hk h. unfold mbind, M_bind. rewrite Hm. destruct (m h); [apply Hk|done|done]. Qed.

Lemma commutes_mod g : (forall h, g (f h) = f (g h)) -> commutes f (mmod g).
Proof. intros Hg h. unfold mmod. by rewrite Hg. Qed.

Lemma commutes_if {A} (b : bool) (m1 m2 : H A) : commutes f m1 -> commutes f m2 -> commutes f (if b then m1 else m2).
Proof. by destruct b. Qed.

Lemma commutes_when (b : bool) m : commutes f m -> commutes f (mwhen b m).
Proof. by destruct b. Qed.

Lemma commutes_gets {A} (g : heap -> A) : (forall h, g (f h) = g h) -> commutes f (gets g).
Proof. intros Hg h. unfold gets. by rewrite Hg. Qed.

Lemma commutes_deref {A} (o : option A) : commutes f (deref o).
Proof. by destruct o. Qed.

Lemma commutes_ld g a : (forall h, g (f h) = g h) -> commutes f (ld g a).
Proof. intros Hg. apply commutes_bind; [apply commutes_gets; intros; by rewrite Hg|intros; apply commutes_deref]. Qed.

Lemma commutes_get_bucket b : commutes f (get_bucket b).
Proof.
  apply commutes_bind; [apply commutes_gets; intros; by rewrite (tr_buckets _ Hf)|intros; apply commutes_deref].
Qed.

Lemma commutes_put_bucket b bk : commutes f (put_bucket b bk).
Proof. apply commutes_mod. intros. by rewrite (tr_buckets _ Hf), (tr_set_buckets _ Hf). Qed.
End Commutes.

Create HintDb commute.
#[export] Hint Resolve commutes_ret commutes_fail commutes_bind commutes_if commutes_when commutes_deref
  commutes_get_bucket commutes_put_bucket : commute.
#[export] Hint Resolve tr_size tr_parent tr_next tr_prev tr_tag tr_set_size tr_set_parent tr_set_next
  tr_set_prev tr_set_tag : commute.
#[export] Hint Extern 2 (commutes _ (mmod _)) => apply commutes_mod; intros : commute.
#[export] Hint Extern 2 (commutes _ (ld _ _)) => apply commutes_ld; intros : commute.

(** Proves that a computation built of such steps commutes. *)
Ltac commute :=
  repeat match goal with
  | |- commutes _ (mbind _ _) => apply commutes_bind; [|intros ?]
  | |- commutes _ (if _ then _ else _) => apply commutes_if
  | |- commutes _ (mwhen _ _) => apply commutes_when
  end; eauto with commute.

Lemma commutes_find_bucket f n : commutes f (um_find_bucket n).
Proof. unfold um_find_bucket. commute. Qed.

Lemma commutes_assert f b : commutes f (um_assert b).
Proof. unfold um_assert. commute. Qed.

Lemma commutes_set_size f a s : transparent f -> commutes f (um_lump_set_size a s).
Proof. intros Hf. unfold um_lump_set_size, next_lump. commute. Qed.

Lemma commutes_link f b a : transparent f -> commutes f (um_lump_link_bucket b a).
Proof. intros Hf. unfold um_lump_link_bucket. commute. Qed.

Lemma commutes_unlink f b a : transparent f -> commutes f (um_lump_unlink_bucket b a).
Proof. intros Hf. unfold um_lump_unlink_bucket. commute. Qed.

#[export] Hint Resolve commutes_find_bucket commutes_assert commutes_set_size commutes_link commutes_unlink : commute.

Lemma commutes_unlink_heap f a : transparent f -> commutes f (um_lump_unlink_heap a).
Proof. intros Hf. unfold um_lump_unlink_heap. commute. Qed.

Lemma commutes_link_heap f a : transparent f -> commutes f (um_lump_link_heap a).
Proof. intros Hf. unfold um_lump_link_heap. commute. Qed.

Lemma commutes_make_free f l sga n : transparent f -> commutes f (um_lump_make_free l sga n).
Proof. intros Hf. unfold um_lump_make_free. commute. Qed.

Lemma commutes_status f a : transparent f -> commutes f (lump_status a).
Proof. intros Hf. unfold lump_status. commute. Qed.

Lemma commutes_prev f a : transparent f -> commutes f (prev_lump a).
Proof. intros Hf. unfold prev_lump. commute. Qed.

#[export] Hint Resolve commutes_unlink_heap commutes_link_heap commutes_make_free commutes_status commutes_prev : commute.

(** A run on the changed heap gives one on the heap itself. *)
Lemma commutes_run {A} f (m : H A) h a h' :
  commutes f m -> m (f h) = Done a h' -> exists h1, m h = Done a h1 /\ f h1 = h'.
Proof. intros Hm Hr. rewrite Hm in Hr. destruct (m h) as [a1 h1| |]; simplify_eq. by exists h1. Qed.

(** A computation that commutes with changes of the segments does not change them. *)
Lemma commutes_segs {A} (m : H A) h a h' :
  (forall l, commutes (set_segs l) m) -> m h = Done a h' -> segs h' = segs h.
Proof.
  intros Hm Hr. assert (Hid : set_segs (segs h) h = h) by (by destruct h).
  pose proof (Hm (segs h) h) as Hc. rewrite Hid, Hr in Hc. injection Hc as Hc. rewrite Hc. done.
Qed.

(** ** Layouts that grow *)

(** No two segments of a list overlap, by position. *)
Lemma segs_apart_cons s l : segs_apart l -> Forall (apart s) l -> segs_apart (s :: l).
Proof.
  intros Hl Hs i j s1 s2 Hi Hj Hne. rewrite Forall_forall in Hs.
  destruct i as [|i], j as [|j]; simplify_eq/=.
  - apply Hs. by eapply list_elem_of_lookup_2.
  - destruct (Hs s1); [by eapply list_elem_of_lookup_2|by right|by left].
  - eapply (Hl i j); [done|done|congruence].
Qed.

Lemma segs_apart_middle l1 s l2 :
  segs_apart (l1 ++ s :: l2) <-> segs_apart (l1 ++ l2) /\ Forall (apart s) (l1 ++ l2).
Proof.
  induction l1 as [|x l1 IH]; cbn [app].
  - split; [|intros [H1 H2]; by apply segs_apart_cons]. intros H. split.
    + intros i j s1 s2 Hi Hj Hne. apply (H (S i) (S j)); [done|done|congruence].
    + apply Forall_forall. intros y Hy. apply list_elem_of_lookup in Hy as [i Hi].
      apply (H 0%nat (S i)); [done|done|congruence].
  - assert (Hcons : forall y l, segs_apart (y :: l) -> segs_apart l /\ Forall (apart y) l).
    { intros y l H. split.
      - intros i j s1 s2 Hi Hj Hne. apply (H (S i) (S j)); [done|done|congruence].
      - apply Forall_forall. intros z Hz. apply list_elem_of_lookup in Hz as [i Hi].
        apply (H 0%nat (S i)); [done|done|congruence]. }
    assert (Hsym : forall y z, apart y z <-> apart z y) by (intros; unfold apart; tauto).
    split.
    + intros H. apply Hcons in H as [H Hx]. apply IH in H as [H1 H2].
      rewrite Forall_app, Forall_cons in Hx. destruct Hx as (Hx1 & Hxs & Hx2). split.
      * apply segs_apart_cons; [done|]. by apply Forall_app.
      * apply Forall_cons. split; [by apply Hsym|done].
    + intros [H Hs]. apply Hcons in H as [H Hx]. apply Forall_cons in Hs as [Hsx Hs].
      apply segs_apart_cons; [by apply IH|]. apply Forall_app in Hx as [Hx1 Hx2].
      rewrite Forall_app, Forall_cons. split_and!; [done|by apply Hsym|done].
Qed.

Lemma seg_cells_segs h l s cs : seg_cells h s cs -> seg_cells (set_segs l h) s cs.
Proof. by intros []. Qed.

Lemma bks_segs h l B : bks h B -> bks (set_segs l h) B.
Proof.
  intros [H1 H2 H3 H4]. constructor; try done. intros b Hb. destruct (H2 b Hb) as (bk & Hg & Hd).
  exists bk. split; [done|]. by eapply dls_frame; [|exact Hd].
Qed.

Lemma opt_gap_tiles a n : 0 <= n -> n mod 32 = 0 -> tiles a (opt_gap a n) (a + n) /\ busy (opt_gap a n).
Proof.
  intros H0 Hn. unfold opt_gap. destruct (Z.eqb_spec n 0) as [->|]; [cbn; split; [lia|by constructor]|].
  pose proof (Z.div_mod n 32). split; [|by repeat constructor].
  cbn. rewrite gap_end by done. split_and!; [done|lia|by left|done].
Qed.

Lemma opt_gap_at h sga a n : Forall (cell_at h sga) (opt_gap a n).
Proof. unfold opt_gap. destruct (n =? 0); [by constructor|]. constructor; [by left|done]. Qed.

Lemma hinv_grow h B sl s sr kl cs kr s' n :
  hinv h (kl ++ cs :: kr) B -> segs h = sl ++ s :: sr -> length kl = length sl ->
  seg_ok s' -> sg_addr s' = sg_addr s -> sg_start s' = sg_start s -> sg_end s' = sg_end s + n ->
  n mod 32 = 0 -> 0 <= n -> segs_apart (sl ++ s' :: sr) ->
  hinv (set_segs (sl ++ s' :: sr) h) (kl ++ (cs ++ opt_gap (sg_end s) n) :: kr) B.
Proof.
  intros [[Hs Hap] Ha Hb Hf] Heq Hlen Hok Ea Es Ee Hn H0 Hap'.
  destruct (opt_gap_tiles (sg_end s) n H0 Hn) as [Ht Hbusy].
  rewrite Heq in Hs. apply Forall2_app_inv in Hs as [Hs1 Hs2]; [|done].
  apply Forall2_cons in Hs2 as [[C1 C2 C3 C4] Hs2]. constructor; [constructor|..].
  - cbn. apply Forall2_app; [|constructor].
    + eapply Forall2_impl; [exact Hs1|]. intros; by apply seg_cells_segs.
    + constructor; [done| | |by rewrite Ea].
      * rewrite Es, Ee. apply tiles_app. by exists (sg_end s).
      * rewrite Ea. apply Forall_app; split; [done|apply opt_gap_at].
    + eapply Forall2_impl; [exact Hs2|]. intros; by apply seg_cells_segs.
  - done.
  - rewrite Forall_app, Forall_cons in *. destruct Ha as (? & ? & ?). split_and!; [done| |done].
    apply no_adj_app. split_and!; [done|by apply busy_no_adj|]. intros [_ Hh]. by eapply busy_head.
  - by apply bks_segs.
  - intros a b Hb'. rewrite Hf by done. unfold free_at. rewrite !concat_app. cbn [concat].
    assert (Hno : forall c, c ∈ opt_gap (sg_end s) n -> c_st c <> 0) by (by apply Forall_forall).
    split; intros (c & Hc & H1 & H2 & H3); exists c; rewrite !elem_of_app in *; split; try done; try tauto.
    destruct Hc as [?|[[?|Hc]|?]]; try tauto. by apply Hno in Hc.
Qed.

Lemma hinv_new h L B s n :
  hinv h L B -> seg_ok s -> sg_end s = sg_start s + n -> n mod 32 = 0 -> 0 < n ->
  segs_apart (s :: segs h) ->
  hinv (set_magic (sg_addr s) UM_MAGIC_SEG (set_segs (s :: segs h) h)) ([gap (sg_start s) n] :: L) B.
Proof.
  intros [[Hs Hap] Ha Hb Hf] Hok He Hn H0 Hap'. pose proof (Z.div_mod n 32).
  constructor; [constructor|..].
  - cbn. constructor.
    + constructor; [done| |by repeat constructor|cbn; apply lookup_insert_eq].
      cbn. rewrite gap_end by done. split_and!; [done|lia|by left|done].
    + apply Forall2_same_length_lookup. apply Forall2_same_length_lookup in Hs as [Hlen Hs].
      split; [done|]. intros i s' cs Hi Hcs. pose proof (Hs i s' cs Hi Hcs) as [C1 C2 C3 C4].
      constructor; [done|done|done|]. cbn. rewrite lookup_insert_ne; [done|].
      pose proof (Hap' 0%nat (S i) s s' eq_refl Hi ltac:(done)) as Hor.
      destruct Hok, C1. unfold apart in Hor. lia.
  - done.
  - apply Forall_cons. by split.
  - destruct (bks_segs h (s :: segs h) B Hb) as [B1 B2 B3 B4]. constructor; try done.
    intros b Hb'. destruct (B2 b Hb') as (bk & Hg & Hd). exists bk. split; [done|]. by eapply dls_frame; [|exact Hd].
  - intros a b Hb'. rewrite Hf by done. unfold free_at. cbn [concat].
    split; intros (c & Hc & H1 & H2 & H3); exists c; rewrite ?elem_of_app in *; split; try done; try tauto.
    destruct Hc as [Hc|?]; [|done]. apply list_elem_of_singleton in Hc. by subst c.
Qed.

(** ** What adding memory does *)

(** The area [a, a+n) overlaps no segment. *)
Definition area_apart (a n : Z) (l : list seg) : Prop :=
  forall s, s ∈ l -> a + n <= sg_mem s \/ sg_mem s + sg_size s <= a.

(** [msize] bytes at [memory] were added to the heap. *)
Record grown (h : heap) (L : list (list cell)) (memory msize : Z) (h' : heap) (L' : list (list cell)) : Prop :=
  mk_grown {
  gr_ok : heap_ok h' L';
  gr_live : live L' = live L;
  gr_kept : kept h h' (live L);
  gr_len : (length (concat L') <= S (length (concat L)))%nat;
  gr_type : htype h' = htype h;
  gr_sets : cratesets h' = cratesets h;
  gr_fsem : fsem h' = fsem h;
  gr_data : m_data h' = m_data h;
  gr_room : 132 <= msize -> exists c, c ∈ concat L' /\ c_st c = 0 /\ msize - 101 <= c_len c;
  gr_area : forall a n, 0 < n -> area_apart a n (segs h) -> a + n <= memory \/ memory + msize <= a ->
    area_apart a n (segs h')
}.

Lemma live_magic_kept h L a v :
  lay h L -> (forall s, s ∈ segs h -> ~ (sg_mem s <= a < sg_mem s + sg_size s)) -> kept h (set_magic a v h) (live L).
Proof.
  intros Hl Ha c x [_ Hc]%elem_of_live Hx. constructor; try done. cbn. apply lookup_insert_ne. intros <-.
  apply plug_of in Hc as [K ->]. destruct (lay_region _ _ _ Hl) as (s & lo & hi & Hr & [] & Ht & _ & Hlo & Hhi).
  pose proof (tiles_one _ _ _ Ht) as [-> ->].
  apply (Ha s); [eapply list_elem_of_lookup_2, Hr|]. lia.
Qed.

Lemma floor32 n : 0 <= n < 2 ^ 32 -> Z.land n (not32 (UM_PAGE_SIZE - 1)) = n / 32 * 32.
Proof. intros. change (UM_PAGE_SIZE - 1) with (2 ^ 5 - 1). by rewrite land_not_mask by lia. Qed.

Lemma new_seg_apart h memory size sg :
  0 < size -> area_apart memory size (segs h) -> sg_mem sg = memory -> sg_size sg = size -> Forall (apart sg) (segs h).
Proof.
  intros Hs Ha Em Es. apply Forall_forall. intros s Hin. specialize (Ha s Hin). unfold apart. rewrite Em, Es. tauto.
Qed.

Lemma free_len a n : n mod 32 = 0 -> c_len (mk_cell a (n - 12) 0) = n.
Proof. apply rnd_free. Qed.

(** The new segment structure, when there is room for a page. *)
Lemma setmem_shape memory size clean sga h :
  96 <= size -> 0 < memory -> memory + size < 2 ^ 32 -> sga = memory + (- memory) mod 2 ^ 3 ->
  (um_seg_setmem sga memory size clean h = Done None h /\ size < 132)
  \/ exists sg asize,
    um_seg_setmem sga memory size clean h = (_ ← um_lump_make_free (sg_start sg) sga asize; mret (Some sg)) h
    /\ seg_ok sg /\ sg_addr sg = sga /\ sg_mem sg = memory /\ sg_size sg = size
    /\ sg_end sg = sg_start sg + asize /\ asize mod 32 = 0 /\ 0 < asize /\ size - 101 <= asize.
Proof.
  intros Hsz Hm Htop Hsga. unfold um_seg_setmem.
  pose proof (Z.mod_pos_bound (- memory) (2 ^ 3) ltac:(lia)) as Hd1.
  pose proof (aligned_up memory (2 ^ 3) ltac:(lia)) as Hal1. rewrite <-Hsga in Hal1.
  change UM_PAGE_SIZE with (2 ^ 5). change SIZEOF_SEG with 32. change UM_LUMP_HEADER_SIZE with 8.
  rewrite align_diff by lia. pose proof (Z.mod_pos_bound (- (sga + 32 + 8)) (2 ^ 5) ltac:(lia)) as Hd2.
  pose proof (aligned_up (sga + 32 + 8) (2 ^ 5) ltac:(lia)) as Hal2.
  set (start := sga + 32 + (- (sga + 32 + 8)) mod 2 ^ 5) in *.
  replace (sga + 32 + 8 + (- (sga + 32 + 8)) mod 2 ^ 5) with (start + 8) in Hal2 by (unfold start; lia).
  rewrite aligned_mod, Hal2 by lia. erewrite !run_bind by done. rewrite (u32_small (memory + size)) by lia.
  assert (Hst : start <= memory + 70) by (unfold start; lia). assert (Hsta : sga + 32 <= start) by (unfold start; lia).
  rewrite Z.gtb_ltb, (proj2 (Z.ltb_ge (memory + size) start)) by lia.
  change (2 ^ 5 - 1) with (UM_PAGE_SIZE - 1). rewrite floor32 by lia.
  pose proof (Z.div_mod (memory + size - start) 32) as Hdm. pose proof (Z.mod_pos_bound (memory + size - start) 32 ltac:(lia)).
  assert (Ha32 : ((memory + size - start) / 32 * 32) mod 32 = 0) by (apply Z.mod_mul; lia).
  set (asize := (memory + size - start) / 32 * 32) in *.
  destruct (Z.eqb_spec asize 0) as [Hz|Hnz]; [left; split; [done|lia]|right].
  exists (mk_seg sga size (if clean then start else start + asize) start (start + asize) memory), asize.
  split_and!; cbn; try done; try lia.
  constructor; cbn; try lia; [done|].
  replace start with (start + 8 + -8) by lia. rewrite Z.add_mod by lia. change (2 ^ 5) with 32 in Hal2. by rewrite Hal2.
Qed.

(** A segment with one free lump is put at the head of the list. *)
Lemma new_seg_run h L B sg asize :
  hinv h L B -> Forall no_gap L -> seg_ok sg -> sg_end sg = sg_start sg + asize -> asize mod 32 = 0 -> 0 < asize ->
  sg_size sg - 101 <= asize -> area_apart (sg_mem sg) (sg_size sg) (segs h) ->
  exists h1 L', um_lump_make_free (sg_start sg) (sg_addr sg) asize h = Done () h1
    /\ forall ns, grown h L (sg_mem sg) (sg_size sg)
        (set_magic (sg_addr sg) UM_MAGIC_SEG (set_counts ns (n_crates h1) (max_crumbs h1) (set_segs (sg :: segs h1) h1))) L'.
Proof.
  intros Hi Hg Hok He Ha32 Ha0 Hroom Hap.
  assert (Hapart : segs_apart (sg :: segs h)).
  { apply segs_apart_cons; [by apply (ly_apart _ _ (hv_lay _ _ _ Hi))|]. by eapply (new_seg_apart h); [|exact Hap|..]; [destruct Hok; lia|..]. }
  pose proof (hinv_new h L B sg asize Hi Hok He Ha32 Ha0 Hapart) as Hi0.
  set (g := fun k => set_magic (sg_addr sg) UM_MAGIC_SEG (set_segs (sg :: segs h) k)).
  assert (Htr : transparent g) by (apply (transparent_comp (set_magic _ _) (set_segs _)); done).
  destruct (make_free_run (g h) sg (mk_ctx [] [] [] L) (sg_start sg) asize B Hi0 eq_refl Ha32) as (h0' & B' & R & Hi' & Hc' & Hk').
  { by intros ?. } { by intros ?. }
  destruct (commutes_run g _ h () h0' (commutes_make_free g _ _ _ Htr) R) as (h1 & R1 & Hg1).
  assert (Hs1 : segs h1 = segs h) by (eapply commutes_segs; [|exact R1]; intros; apply commutes_make_free, transparent_segs).
  exists h1, (plug (mk_ctx [] [] [] L) [mk_cell (sg_start sg) (asize - 12) 0]). split; [done|]. intros ns. rewrite Hs1.
  assert (Hg' : Forall no_gap (plug (mk_ctx [] [] [] L) [mk_cell (sg_start sg) (asize - 12) 0])).
  { apply Forall_cons. split; [by repeat constructor|done]. }
  pose proof (ct_type _ _ Hc') as E1. pose proof (ct_cratesets _ _ Hc') as E2. pose proof (ct_fsem _ _ Hc') as E3.
  pose proof (ct_data _ _ Hc') as E4. rewrite <-Hg1 in E1, E2, E3, E4, Hi', Hk'.
  constructor; try done.
  - eapply (same_meta_ok (g h1)); [done|]. by exists B'.
  - assert (Hk1 : kept (g h) (g h1) (live L)) by exact Hk'.
    eapply kept_trans; [|eapply kept_trans; [exact Hk1|done]].
    eapply kept_trans; [apply (live_magic_kept h L (sg_addr sg) UM_MAGIC_SEG (hv_lay _ _ _ Hi))|done].
    intros s Hs. specialize (Hap s Hs). destruct Hok. lia.
  - intros _. exists (mk_cell (sg_start sg) (asize - 12) 0). split; [left|]. split; [done|].
    rewrite free_len by done. lia.
  - intros a n Hn Ha Hor s [->|Hs]%elem_of_cons; [tauto|by apply Ha].
Qed.

(** ** A segment grows *)

Lemma commutes_add_tail f sg asize osize : transparent f -> commutes f (seg_add_tail sg asize osize).
Proof. intros Hf. unfold seg_add_tail. commute. Qed.

(** The last lump and [n] new bytes. *)
Definition grow_tail (p : cell) (n : Z) : list cell :=
  if c_st p =? 0 then [mk_cell (c_addr p) (c_len p + n - 12) 0] else [p; mk_cell (c_end p) (n - 12) 0].

Lemma grow_tail_facts K p n :
  Forall no_gap (plug K [p]) -> n mod 32 = 0 -> 0 <= c_len p ->
  Forall no_gap (plug K (grow_tail p n)) /\ live (plug K (grow_tail p n)) = live (plug K [p])
  /\ (length (concat (plug K (grow_tail p n))) <= S (length (concat (plug K [p]))))%nat
  /\ exists c, c ∈ concat (plug K (grow_tail p n)) /\ c_st c = 0 /\ n <= c_len c.
Proof.
  intros Hg Hn Hl. unfold grow_tail. rewrite Forall_plug in Hg. destruct Hg as (Hgl & Hgm & Hgr).
  unfold no_gap in Hgm. rewrite !Forall_app, Forall_singleton in Hgm. destruct Hgm as (Hga & Hgp & Hgb).
  assert (Hln : (c_len p + n) mod 32 = 0) by (apply mod32_add; [apply rnd_mod|done]).
  destruct (Z.eqb_spec (c_st p) 0) as [Hst|Hst].
  - split_and!.
    + rewrite Forall_plug. split_and!; [done| |done]. unfold no_gap. rewrite !Forall_app. split_and!; [done|by repeat constructor|done].
    + by rewrite (live_idle K [_]), (live_idle K [p]) by (repeat constructor; cbn; lia).
    + unfold plug. rewrite !concat_app. cbn [concat]. rewrite !length_app. cbn. lia.
    + eexists. split; [apply elem_of_plug; left; left|]. split; [done|]. rewrite free_len by done. lia.
  - split_and!.
    + rewrite Forall_plug. split_and!; [done| |done]. unfold no_gap. rewrite !Forall_app. split_and!; [done|by repeat constructor|done].
    + apply (live_plug K). change [p; mk_cell (c_end p) (n - 12) 0] with ([p] ++ [mk_cell (c_end p) (n - 12) 0]).
      rewrite filter_app, (filter_cons_False _ (mk_cell _ _ _)) by (cbn; lia). apply app_nil_r.
    + unfold plug. rewrite !concat_app. cbn [concat]. rewrite !length_app. cbn. lia.
    + eexists. split; [apply elem_of_plug; left; right; left|]. split; [done|]. rewrite free_len by done. lia.
Qed.

(** The new pages become free, in a heap whose segment already reaches over them. *)
Lemma tail_run h B s' sg kl a p kr asize osize :
  let n := asize - osize in let K := mk_ctx kl a [] kr in
  hinv h (plug K [p; gap (c_end p) n]) B -> segs h !! length kl = Some s' -> n mod 32 = 0 -> 0 < n ->
  c_st p <> GAP -> c_end p + n < 2 ^ 32 ->
  sg_addr sg = sg_addr s' -> sg_end sg = c_end p -> u32 (sg_start sg + osize) = c_end p ->
  exists h' B', seg_add_tail sg asize osize h = Done () h' /\ hinv h' (plug K (grow_tail p n)) B'
    /\ same_ctl h h' /\ kept h h' (live (plug K [p])).
Proof.
  intros n K Hi Hs Hn Hpos Hgp Htop Ea Ee Es. pose proof (hv_lay _ _ _ Hi) as Hl.
  destruct (place _ _ _ _ Hl Hs) as (lo & hi & _ & Hok & Ht & Hat & _).
  destruct (place_bounds _ _ _ _ p Hl Hs ltac:(left)) as (F1 & F2 & F3 & F4 & F5 & _).
  apply Forall_cons in Hat as [Hp _]. destruct Ht as (_ & _ & Hpst & _).
  assert (Hend : 88 <= c_end p) by (unfold c_end; lia). cbn [K k_l k_a k_b k_r app] in *.
  unfold seg_add_tail. rewrite Ee. erewrite run_bind by (by eapply prev_lump_run).
  erewrite run_bind by (eapply lump_status_run; [apply Hok|done|tauto]). change UMS_FREE with 0. unfold grow_tail.
  destruct (Z.eqb_spec (c_st p) 0) as [Hst|Hst].
  - assert (Hplug : plug K [p; gap (c_end p) n] = plug (mk_ctx kl a [gap (c_end p) n] kr) [p]) by (by rewrite plug_cons_r).
    rewrite Hplug in Hi. destruct (unlink_gap _ _ _ _ Hi Hst) as (h1 & B1 & _ & R1 & Hi1 & Hl1 & Hk1).
    pose proof Hl1 as (_ & Eseg & _ & _ & _ & _ & Esz & Epar & _).
    destruct (cell_known _ _ _ Hp Hgp) as (M1 & M2 & _). rewrite Hst in M2.
    erewrite run_bind by done. erewrite run_bind by (apply ld_run; by rewrite Esz).
    rewrite plug_cons_r in Hi1.
    destruct (merge_gaps h1 s' K (as_gap p) (gap (c_end p) n) (c_size p) (n - 12) B1 (c_len p + n))
      as (h2 & R2 & Hi2 & Hh2 & Hc2 & Hk2); try done.
    { by rewrite Eseg. } { by repeat constructor. } { by rewrite rnd_free by done. } { by rewrite gap_len by done. }
    { pose proof (Z.div_mod n 32). lia. }
    change (c_addr (as_gap p)) with (c_addr p) in *. rewrite set_parent_id in R2 by (by rewrite Epar).
    replace (UM_ROUND_LUMP (c_size p) + asize - osize - UM_LUMP_OVERHEAD)
      with (UM_ROUND_LUMP (c_size p) + UM_ROUND_LUMP (n - 12) - UM_LUMP_OVERHEAD).
    2:{ rewrite (round_lump (n - 12)), rnd_free by (done || (pose proof (Z.div_mod n 32); lia)). unfold n. lia. }
    erewrite run_bind by done.
    pose proof (hv_adj _ _ _ Hi) as Hadj. rewrite Forall_plug in Hadj. destruct Hadj as (_ & Hadj & _).
    cbn [k_a k_b] in Hadj. apply no_adj_mid in Hadj as (_ & _ & Hadj & _). destruct (Hadj Hst) as [Hla _].
    assert (Hln : (c_len p + n) mod 32 = 0) by (apply mod32_add; [apply rnd_mod|done]).
    destruct (link_free h2 s' K (c_addr p) (c_len p + n) B1) as (h3 & B3 & _ & R3 & Hi3 & Hl3 & Hk3); try done.
    { by rewrite (ct_segs _ _ Hc2), Eseg. } { by intros ?. }
    rewrite plug_cons_r in Hk1. rewrite live_idle in Hk1 by (by repeat constructor).
    exists h3, B3. rewrite (live_idle K [p]) by (by repeat constructor; rewrite Hst). split_and!; try done.
    + etrans; [by apply links_ctl|]. etrans; [done|by apply links_ctl].
    + eapply kept_trans; [done|]. eapply kept_trans; [by apply live_kept|done].
  - rewrite Es, Ea, (u32_small (asize - osize)) by (fold n; lia). fold n.
    assert (Hplug : plug K [p; gap (c_end p) n] = plug (mk_ctx kl (a ++ [p]) [] kr) [gap (c_end p) n]) by (by rewrite plug_left).
    rewrite Hplug in Hi.
    destruct (make_free_run h s' (mk_ctx kl (a ++ [p]) [] kr) (c_end p) n B) as (h1 & B1 & R1 & Hi1 & Hc1 & Hk1); try done.
    { cbn [k_a]. rewrite last_snoc. done. } { by intros ?. }
    rewrite plug_left in Hi1, Hk1. by exists h1, B1.
Qed.

Lemma find_seg_middle h sl s sr :
  segs h = sl ++ s :: sr -> (forall x, x ∈ sl ++ sr -> sg_addr x <> sg_addr s) -> get_seg (sg_addr s) h = Done s h.
Proof.
  intros Heq Hne. unfold get_seg. erewrite run_bind by done.
  enough (find_seg (sg_addr s) h = Some s) as ->; [done|]. unfold find_seg. rewrite Heq.
  rewrite (proj2 (list_find_Some _ _ (length sl) s)); [done|]. split_and!.
  - by apply list_lookup_middle.
  - done.
  - intros j y Hj Hlt. rewrite lookup_app_l in Hj by done. apply Hne, elem_of_app. left. by eapply list_elem_of_lookup_2.
Qed.

Lemma put_seg_middle h sl s sr s' :
  segs h = sl ++ s :: sr -> (forall x, x ∈ sl ++ sr -> sg_addr x <> sg_addr s) -> sg_addr s' = sg_addr s ->
  put_seg s' h = Done () (set_segs (sl ++ s' :: sr) h).
Proof.
  intros Heq Hne Ha. unfold put_seg, mmod. f_equal. f_equal. rewrite Heq, fmap_app, fmap_cons.
  assert (Hid : forall l, (forall x, x ∈ l -> sg_addr x <> sg_addr s) ->
    fmap (M := list) (fun x => if sg_addr x =? sg_addr s' then s' else x) l = l).
  { intros l. induction l as [|y l IH]; intros Hl; [done|]. rewrite fmap_cons. f_equal.
    - rewrite Ha, (proj2 (Z.eqb_neq _ _)); [done|]. apply Hl. left.
    - apply IH. intros x Hx. apply Hl. by right. }
  rewrite !Hid; [by rewrite Ha, Z.eqb_refl|intros x Hx; apply Hne, elem_of_app; tauto..].
Qed.

Lemma seg_addr_ne h L sl s sr x :
  lay h L -> segs h = sl ++ s :: sr -> x ∈ sl ++ sr -> sg_addr x <> sg_addr s.
Proof.
  intros [Hs Hap] Heq Hx. rewrite Heq in Hap. pose proof Hap as [_ Ha]%segs_apart_middle.
  rewrite Forall_forall in Ha. specialize (Ha x Hx). unfold apart in Ha.
  assert (Hok : forall y, y ∈ segs h -> seg_ok y).
  { intros y Hy. apply list_elem_of_lookup in Hy as [i Hi].
    destruct (Forall2_lookup_l _ _ _ _ _ Hs Hi) as (cs & _ & []). done. }
  destruct (Hok x) as []; [rewrite Heq; apply elem_of_app in Hx as [?|?]; set_solver|].
  destruct (Hok s) as []; [rewrite Heq; set_solver|]. lia.
Qed.

(** The old and new sizes of the pages of a segment to which [size] bytes are added. *)
Lemma grow_sizes s size :
  seg_ok s -> (sg_end s - sg_start s) mod 32 = 0 -> 0 < size -> sg_mem s + sg_size s + size < 2 ^ 32 ->
  let asize := Z.land (u32 (sg_mem s + sg_size s + size - sg_start s)) (not32 (UM_PAGE_SIZE - 1)) in
  asize mod 32 = 0 /\ sg_end s - sg_start s <= asize /\ sg_start s + asize <= sg_mem s + sg_size s + size
  /\ size - 31 <= asize - (sg_end s - sg_start s) /\ sg_mem s + sg_size s + size - 31 <= sg_start s + asize.
Proof.
  intros [] Hm Hsz Htop. rewrite u32_small by lia. rewrite floor32 by lia.
  set (x := sg_mem s + sg_size s + size - sg_start s).
  pose proof (Z.div_mod x 32). pose proof (Z.mod_pos_bound x 32 ltac:(lia)).
  pose proof (Z.div_mod (sg_end s - sg_start s) 32).
  split_and!; [apply Z.mod_mul; lia|unfold x in *; lia..].
Qed.

Definition grown_seg (s : seg) (size asize : Z) : seg :=
  mk_seg (sg_addr s) (sg_size s + size) (zero_limit s) (sg_start s) (sg_start s + asize) (sg_mem s).

Lemma grown_seg_ok s size asize :
  seg_ok s -> 0 < size -> sg_mem s + sg_size s + size < 2 ^ 32 -> sg_end s - sg_start s <= asize ->
  sg_start s + asize <= sg_mem s + sg_size s + size -> seg_ok (grown_seg s size asize).
Proof. intros [] ? ? ? ?. constructor; cbn; (done || lia). Qed.

Lemma grown_intro h L sl s sr size asize h' L' B' :
  segs h = sl ++ s :: sr -> hinv h' L' B' -> Forall no_gap L' -> live L' = live L ->
  same_ctl (set_segs (sl ++ grown_seg s size asize :: sr) h) h' ->
  kept (set_segs (sl ++ grown_seg s size asize :: sr) h) h' (live L) ->
  (length (concat L') <= S (length (concat L)))%nat ->
  (132 <= size -> exists c, c ∈ concat L' /\ c_st c = 0 /\ size - 101 <= c_len c) ->
  grown h L (sg_mem s + sg_size s) size h' L'.
Proof.
  intros Heq Hi Hg Hlive [C1 C2 C3 C4 C5 C6 C7 C8] Hk Hlen Hroom. constructor; try done.
  - by exists B'.
  - eapply kept_trans; [|exact Hk]. done.
  - intros a n Hn Ha Hor x. rewrite C2. cbn. intros [Hx|[->|Hx]%elem_of_cons]%elem_of_app.
    + apply Ha. rewrite Heq. set_solver.
    + cbn. specialize (Ha s). rewrite Heq in Ha. specialize (Ha ltac:(set_solver)). lia.
    + apply Ha. rewrite Heq. set_solver.
Qed.

Lemma grown_apart s x size asize :
  seg_ok x -> apart s x -> 0 < size ->
  (sg_mem s + sg_size s + size <= sg_mem x \/ sg_mem x + sg_size x <= sg_mem s + sg_size s) ->
  apart (grown_seg s size asize) x.
Proof. intros [] Ha Hs Hor. unfold apart in *. cbn. lia. Qed.

(** A layout and a segment of it, taken apart. *)
Lemma seg_split h L s :
  lay h L -> s ∈ segs h ->
  exists sl sr kl cs kr, segs h = sl ++ s :: sr /\ L = kl ++ cs :: kr /\ length kl = length sl /\ seg_ok s
    /\ tiles (sg_start s) cs (sg_end s).
Proof.
  intros [Hs _] Hin. apply list_elem_of_split in Hin as (sl & sr & Heq). rewrite Heq in Hs.
  apply Forall2_app_inv_l in Hs as (kl & l2 & Hs1 & Hs2 & ->).
  apply Forall2_cons_inv_l in Hs2 as (cs & kr & [Hok Ht _ _] & Hs2 & ->).
  exists sl, sr, kl, cs, kr. split_and!; try done. by rewrite (Forall2_length _ _ _ Hs1).
Qed.

Lemma segs_ok h L s : lay h L -> s ∈ segs h -> seg_ok s.
Proof. intros Hl Hin. by destruct (seg_split _ _ _ Hl Hin) as (? & ? & ? & ? & ? & ? & ? & ? & ? & _). Qed.

Lemma grown_segs_apart h L sl s sr size asize :
  lay h L -> segs h = sl ++ s :: sr -> 0 < size -> area_apart (sg_mem s + sg_size s) size (sl ++ sr) ->
  segs_apart (sl ++ grown_seg s size asize :: sr).
Proof.
  intros Hl Heq Hsz Harea. pose proof (ly_apart _ _ Hl) as Hap. rewrite Heq in Hap.
  apply segs_apart_middle in Hap as [Hap0 Hap1]. apply segs_apart_middle. split; [done|].
  rewrite Forall_forall in Hap1 |- *. intros x Hx. apply grown_apart; [|by apply Hap1|done|by apply Harea].
  eapply segs_ok; [done|]. rewrite Heq. apply elem_of_app in Hx as [?|?]; set_solver.
Qed.

(** [_um_seg_addmem] when whole pages are added, and what is left of the
    segment structure to write. *)
Lemma seg_addmem_pages h B sl s sr kl a p kr size asize osize :
  hinv h (plug (mk_ctx kl a [] kr) [p]) B -> segs h = sl ++ s :: sr -> length kl = length sl -> seg_ok s -> c_st p <> GAP ->
  c_end p = sg_end s -> osize = sg_end s - sg_start s -> osize < asize -> (asize - osize) mod 32 = 0 ->
  seg_ok (grown_seg s size asize) -> segs_apart (sl ++ grown_seg s size asize :: sr) ->
  exists h1 B', seg_add_tail s asize osize h = Done () h1 /\ segs h1 = sl ++ s :: sr
    /\ (let h' := set_segs (sl ++ grown_seg s size asize :: sr) h1 in
        hinv h' (plug (mk_ctx kl a [] kr) (grow_tail p (asize - osize))) B'
        /\ same_ctl (set_segs (sl ++ grown_seg s size asize :: sr) h) h' /\ kept h h' (live (plug (mk_ctx kl a [] kr) [p]))).
Proof.
  intros Hi Heq Hlen Hok Hgp Hend Ho Hlt Hn32 Hok' Hap'. set (s' := grown_seg s size asize) in *.
  pose proof (so_end _ Hok). pose proof (so_start _ Hok). pose proof (so_mem _ Hok).
  pose proof (so_end _ Hok') as He'. pose proof (so_top _ Hok') as Ht'. cbn in He', Ht'.
  assert (Hplug : forall xs, plug (mk_ctx kl a [] kr) xs = kl ++ (a ++ xs) :: kr).
  { intros xs. unfold plug. cbn. by rewrite app_nil_r. }
  rewrite Hplug in Hi.
  pose proof (hinv_grow h B sl s sr kl (a ++ [p]) kr s' (asize - osize) Hi Heq Hlen Hok'
    eq_refl eq_refl ltac:(cbn; lia) Hn32 ltac:(lia) Hap') as Hi0.
  unfold opt_gap in Hi0. rewrite (proj2 (Z.eqb_neq (asize - osize) 0)), <-app_assoc, <-Hend in Hi0 by lia.
  cbn [app] in Hi0. rewrite <-Hplug in Hi0.
  destruct (tail_run (set_segs (sl ++ s' :: sr) h) B s' s kl a p kr asize osize Hi0) as (h0' & B' & R & Hi' & Hc' & Hk'); try done.
  { cbn. rewrite Hlen. by apply list_lookup_middle. } { lia. } { rewrite Hend. lia. }
  { rewrite Hend, u32_small by lia. lia. }
  destruct (commutes_run _ _ _ _ _ (commutes_add_tail _ _ _ _ (transparent_segs _)) R) as (h1 & R1 & <-).
  exists h1, B'. split; [done|]. split.
  - rewrite <-Heq. eapply commutes_segs; [|exact R1]. intros; apply commutes_add_tail, transparent_segs.
  - cbn zeta. split; [done|]. split; [done|]. eapply kept_trans; [|exact Hk']. done.
Qed.

(** What [_um_seg_addmem] leaves of a segment whose last lump is [p]. *)
Lemma seg_addmem_shape h B sl s sr kl a p kr size :
  let K := mk_ctx kl a [] kr in
  hinv h (plug K [p]) B -> Forall no_gap (plug K [p]) -> segs h = sl ++ s :: sr -> length kl = length sl ->
  0 < size -> sg_mem s + sg_size s + size < 2 ^ 32 -> area_apart (sg_mem s + sg_size s) size (sl ++ sr) ->
  exists asize h' B', let n := asize - (sg_end s - sg_start s) in
    um_seg_addmem (sg_addr s) size h = Done () h' /\ n mod 32 = 0 /\ 0 <= n /\ size - 31 <= n
    /\ seg_ok (grown_seg s size asize) /\ sg_mem s + sg_size s + size - 31 <= sg_start s + asize
    /\ hinv h' (plug K (if n =? 0 then [p] else grow_tail p n)) B'
    /\ same_ctl (set_segs (sl ++ grown_seg s size asize :: sr) h) h' /\ kept h h' (live (plug K [p])).
Proof.
  intros K Hi Hg Heq Hlen Hsz Htop Harea. pose proof (hv_lay _ _ _ Hi) as Hl.
  pose proof (fun x => seg_addr_ne _ _ _ _ _ x Hl Heq) as Hne.
  assert (Hs : segs h !! length kl = Some s) by (rewrite Heq, Hlen; by apply list_lookup_middle).
  destruct (place _ _ _ _ Hl Hs) as (lo & hi & [_ Ra Rb] & Hok & Htp & _). pose proof (tiles_one _ _ _ Htp) as [-> ->].
  cbn in Rb. pose proof (place_bounds _ _ _ _ p Hl Hs ltac:(left)) as (_ & _ & F3 & _).
  assert (Hgp : c_st p <> GAP).
  { rewrite Forall_plug in Hg. destruct Hg as (_ & Hg & _). unfold no_gap in Hg. rewrite !Forall_app, Forall_singleton in Hg. tauto. }
  assert (Hos : (sg_end s - sg_start s) mod 32 = 0).
  { destruct (place_bounds _ _ _ _ p Hl Hs ltac:(left)) as (_ & _ & _ & _ & _ & _ & _ & Hm).
    rewrite <-Rb. unfold c_end. replace (c_addr p + c_len p - sg_start s) with ((c_addr p - sg_start s) + c_len p) by lia.
    apply mod32_add; [|apply rnd_mod]. rewrite Zminus_mod, Hm, (so_page _ Hok). done. }
  destruct (grow_sizes s size Hok Hos Hsz Htop) as (A1 & A2 & A3 & A4 & A5).
  unfold um_seg_addmem. erewrite run_bind by (by eapply find_seg_middle).
  set (asize := Z.land _ _) in *. pose proof (so_end _ Hok). pose proof (so_mem _ Hok). pose proof (so_start _ Hok).
  rewrite (u32_small (sg_end s - sg_start s)) by lia. set (osize := sg_end s - sg_start s) in *.
  pose proof (grown_seg_ok s size asize Hok Hsz Htop A2 A3) as Hok'.
  pose proof (grown_segs_apart h _ sl s sr size asize Hl Heq Hsz Harea) as Hap'.
  assert (Hn32 : (asize - osize) mod 32 = 0) by (by apply mod32_sub).
  exists asize. rewrite Z.gtb_ltb. destruct (Z.ltb_spec osize asize) as [Hlt|Hge]; cbn [mwhen].
  - destruct (seg_addmem_pages h B sl s sr kl a p kr size asize osize Hi Heq Hlen Hok Hgp Rb eq_refl Hlt Hn32 Hok' Hap')
      as (h1 & B' & R1 & Hs1 & Hi' & Hc' & Hk').
    exists (set_segs (sl ++ grown_seg s size asize :: sr) h1), B'. cbn zeta.
    rewrite (proj2 (Z.eqb_neq (asize - osize) 0)) by lia. split; [|split_and!; (done || lia)].
    erewrite run_bind.
    2:{ erewrite run_bind by done. by apply (put_seg_middle h1 sl s sr). }
    set (s1 := mk_seg (sg_addr s) _ _ _ _ _).
    erewrite run_bind by (by apply (find_seg_middle _ sl s1 sr)).
    rewrite (put_seg_middle _ sl s1 sr) by done. f_equal.
    unfold set_segs. cbn. do 4 f_equal. unfold grown_seg. f_equal; apply u32_small; lia.
  - assert (Hz : asize - osize = 0) by lia. erewrite run_bind by done.
    erewrite run_bind by (by eapply find_seg_middle). rewrite (put_seg_middle h sl s sr) by done.
    assert (Hseg : mk_seg (sg_addr s) (u32 (sg_size s + size)) (zero_limit s) (sg_start s) (sg_end s) (sg_mem s) = grown_seg s size asize).
    { unfold grown_seg. f_equal; [apply u32_small; lia|unfold osize in *; lia]. }
    assert (Hplug : forall xs, plug K xs = kl ++ (a ++ xs) :: kr).
    { intros xs. unfold plug. cbn. by rewrite app_nil_r. }
    rewrite Hplug in Hi.
    pose proof (hinv_grow h B sl s sr kl (a ++ [p]) kr (grown_seg s size asize) 0 Hi Heq Hlen Hok'
      eq_refl eq_refl ltac:(cbn; unfold osize in *; lia) eq_refl ltac:(lia) Hap') as Hi0.
    rewrite Hseg. eexists _, B. cbn zeta. rewrite Hz. cbn [Z.eqb]. rewrite Hplug. cbn [opt_gap Z.eqb] in Hi0. rewrite app_nil_r in Hi0.
    split; [done|]. split_and!; (done || lia).
Qed.

Lemma seg_addmem_run h L B sl s sr size :
  hinv h L B -> Forall no_gap L -> segs h = sl ++ s :: sr -> 0 < size -> sg_mem s + sg_size s + size < 2 ^ 32 ->
  area_apart (sg_mem s + sg_size s) size (sl ++ sr) ->
  exists h' L', um_seg_addmem (sg_addr s) size h = Done () h' /\ grown h L (sg_mem s + sg_size s) size h' L'.
Proof.
  intros Hi Hg Heq Hsz Htop Harea. pose proof (hv_lay _ _ _ Hi) as Hl. pose proof Hl as [Hs _].
  rewrite Heq in Hs. apply Forall2_app_inv_l in Hs as (kl & l2 & Hs1 & Hs2 & ->).
  apply Forall2_cons_inv_l in Hs2 as (cs & kr & [Hok Ht Hat Hmg] & Hs2 & ->).
  pose proof (Forall2_length _ _ _ Hs1) as Hlen. pose proof (so_end _ Hok).
  destruct cs as [|p a _] using rev_ind; [cbn in Ht; lia|].
  assert (Hplug : kl ++ (a ++ [p]) :: kr = plug (mk_ctx kl a [] kr) [p]) by done.
  rewrite Hplug in *.
  destruct (seg_addmem_shape h B sl s sr kl a p kr size Hi Hg Heq (eq_sym Hlen) Hsz Htop Harea)
    as (asize & h' & B' & R & Hn32 & H0 & Hn & _ & _ & Hi' & Hc & Hk).
  set (n := asize - (sg_end s - sg_start s)) in *. exists h'. eexists. split; [done|].
  assert (Hlp : 0 <= c_len p).
  { apply tiles_app in Ht as (m & _ & Htp). cbn in Htp. pose proof (c_len_pos p). lia. }
  destruct (grow_tail_facts (mk_ctx kl a [] kr) p n Hg Hn32 Hlp) as (G1 & G2 & G3 & G4).
  eapply grown_intro; [exact Heq|exact Hi'|..]; destruct (Z.eqb_spec n 0); try done.
  - eapply kept_trans; [|exact Hk]. done.
  - eapply kept_trans; [|exact Hk]. done.
  - lia.
  - intros; lia.
  - intros _. destruct G4 as (c & ? & ? & ?). exists c. split_and!; (done || lia).
Qed.

(** ** Adding an area to the heap *)

(** Memory that the host may add: [n] bytes at [a], used by nobody. *)
Record fresh_area (a n : Z) (h : heap) : Prop := mk_fresh_area {
  fa_low : 0 < a;
  fa_len : 0 < n;
  fa_top : a + n < 2 ^ 32;
  fa_apart : area_apart a n (segs h)
}.

(** [_um_addmem_nolock]: the area becomes part of the heap, or it is too small
    and nothing changes. *)
Lemma addmem_run h L memory size clean :
  heap_ok h L -> fresh_area memory size h ->
  (um_addmem_nolock memory size clean h = Done false h /\ size < 132)
  \/ exists h' L', um_addmem_nolock memory size clean h = Done true h' /\ grown h L memory size h' L'.
Proof.
  intros (B & Hi & Hg) [Hlow Hlen Htop Hap]. pose proof (hv_lay _ _ _ Hi) as Hl. unfold um_addmem_nolock.
  erewrite run_bind by done. destruct (list_find _ (segs h)) as [[i s]|] eqn:Hf.
  - apply list_find_Some in Hf as (Hlook & Hm & _). apply list_elem_of_lookup_2 in Hlook as Hin.
    pose proof (segs_ok _ _ _ Hl Hin) as []. rewrite u32_small in Hm by lia.
    apply list_elem_of_split in Hin as (sl & sr & Heq).
    destruct (seg_addmem_run h L B sl s sr size Hi Hg Heq Hlen ltac:(lia)) as (h' & L' & R & Hgr).
    { intros x Hx. rewrite Hm. apply Hap. rewrite Heq. set_solver. }
    right. exists h', L'. rewrite <-Hm. split; [by erewrite run_bind by done|done].
  - change (UM_ROUND_LUMP UM_PARENT_ALIGN) with 32. change (SIZEOF_SEG + 32 + UM_PAGE_SIZE) with 96.
    destruct (Z.ltb_spec size 96); [left; split; [done|lia]|].
    change UM_PARENT_ALIGN with (2 ^ 3). rewrite align_diff by lia.
    pose proof (aligned_up memory (2 ^ 3) ltac:(lia)) as Hal.
    set (sga := memory + (- memory) mod 2 ^ 3) in *.
    assert (Hmask : Z.land sga UMF_MASK = 0) by (change UMF_MASK with (2 ^ 3 - 1); by rewrite land_low by lia).
    rewrite Hmask. erewrite run_bind by done.
    destruct (setmem_shape memory size clean sga h ltac:(lia) Hlow Htop eq_refl)
      as [[R Hsz]|(sg & asize & R & Hok & <- & Em & Es & He & Ha32 & Ha0 & Hroom)].
    { left. split; [by erewrite run_bind by done|done]. }
    rewrite <-Em, <-Es in Hap. rewrite <-Es in Hroom.
    destruct (new_seg_run h L B sg asize Hi Hg Hok He Ha32 Ha0 Hroom Hap) as (h1 & L' & R1 & Hgr).
    right. eexists _, L'. split.
    + erewrite run_bind by (rewrite R; erewrite run_bind by done; done). cbn beta iota.
      do 3 (erewrite run_bind by done). done.
    + rewrite <-Em, <-Es. apply Hgr.
Qed.

Lemma grown_room_mono h L L' h' memory size n :
  grown h L memory size h' L' -> 132 <= n <= size -> exists c, c ∈ concat L' /\ c_st c = 0 /\ n - 101 <= c_len c.
Proof.
  intros Hg Hn. destruct (gr_room _ _ _ _ _ _ Hg ltac:(lia)) as (c & Hc & Hst & Hl).
  exists c. split_and!; [done|done|lia].
Qed.

(** What a heap keeps when it is expanded. *)
Record expanded (h : heap) (L : list (list cell)) (h' : heap) (L' : list (list cell)) (k : nat) : Prop := mk_expanded {
  ex_ok : heap_ok h' L';
  ex_live : live L' = live L;
  ex_kept : kept h h' (live L);
  ex_len : (length (concat L') <= k + length (concat L))%nat;
  ex_type : htype h' = htype h;
  ex_sets : cratesets h' = cratesets h;
  ex_fsem : fsem h' = fsem h;
  ex_data : m_data h' = m_data h
}.

Lemma expanded_refl h L k : heap_ok h L -> expanded h L h L k.
Proof. intros Hok. constructor; (done || lia). Qed.

Lemma grown_expanded h L memory size h' L' : grown h L memory size h' L' -> expanded h L h' L' 1.
Proof. intros []. by constructor. Qed.

Lemma expanded_trans h1 L1 h2 L2 h3 L3 k1 k2 :
  expanded h1 L1 h2 L2 k1 -> expanded h2 L2 h3 L3 k2 -> expanded h1 L1 h3 L3 (k1 + k2).
Proof.
  intros [A1 A2 A3 A4 A5 A6 A7 A8] [B1 B2 B3 B4 B5 B6 B7 B8]. constructor; try congruence; [|lia].
  eapply kept_trans; [done|]. by rewrite <-A2.
Qed.

(** The areas the host offers for one allocation: each is fresh, and they do
    not overlap. *)
Definition area_fresh (m : area) (h : heap) : Prop :=
  match m with Some (a, n, _) => fresh_area a n h | None => True end.

Definition areas_apart (m1 m2 : area) : Prop :=
  match m1, m2 with
  | Some (a1, n1, _), Some (a2, n2, _) => a1 + n1 <= a2 \/ a2 + n2 <= a1
  | _, _ => True
  end.

Lemma expand2_run m size h L :
  heap_ok h L -> area_fresh m h -> 132 <= size ->
  exists r h' L', um_heap_expand2 m size h = Done r h' /\ expanded h L h' L' 1
    /\ (r = 1 -> exists c, c ∈ concat L' /\ c_st c = 0 /\ size - 101 <= c_len c)
    /\ (forall m2, areas_apart m m2 -> area_fresh m2 h -> area_fresh m2 h').
Proof.
  intros Hok Hfr Hsz. destruct m as [[[a n] cl]|]; cbn [um_heap_expand2 area_fresh areas_apart] in *.
  2:{ exists (-1), h, L. split_and!; [done|by apply expanded_refl|done|done]. }
  destruct (addmem_run h L a n cl Hok Hfr) as [[R Hs]|(h' & L' & R & Hgr)].
  - exists (-1), h, L. split_and!; [by erewrite run_bind by done|by apply expanded_refl|done|done].
  - eexists _, h', L'. split; [by erewrite run_bind by done|]. split; [by eapply grown_expanded|]. split.
    + destruct (Z.ltb_spec n size); [done|]. intros _. by eapply grown_room_mono.
    + intros [[[a2 n2] cl2]|] Hor Hfr2; [|done]. destruct Hfr2 as [F1 F2 F3 F4]. constructor; try done.
      apply (gr_area _ _ _ _ _ _ Hgr); [done|done|tauto].
Qed.

(** [_um_heap_expand]: on success there is a lump for the request. *)
Lemma heap_expand_run fixed m1 m2 size align h L :
  heap_ok h L -> area_fresh m1 h -> area_fresh m2 h -> areas_apart m1 m2 ->
  exists r h' L', um_heap_expand fixed m1 m2 size align h = Done r h' /\ expanded h L h' L' 2
    /\ (r = true ->
        let rsize := if align <? UM_PAGE_SIZE / 2 then UM_ROUND_LUMP size else UM_ROUND_LUMP (u32 (size + align + align / 2)) in
        exists c, c ∈ concat L' /\ c_st c = 0 /\ rsize + HEAP_MIN_SIZE - 101 <= c_len c).
Proof.
  intros Hok H1 H2 Hap. unfold um_heap_expand. destruct fixed.
  { exists false, h, L. split_and!; [done|by apply expanded_refl|done]. }
  set (rsize := if align <? UM_PAGE_SIZE / 2 then _ else _). cbn zeta.
  assert (Hpos : 0 <= rsize).
  { unfold rsize, UM_ROUND_LUMP. destruct (_ <? _); apply Z.land_nonneg; left; apply u32_range. }
  destruct (rsize >=? UM_MAX_SIZE). { exists false, h, L. split_and!; [done|by apply expanded_refl|done]. }
  unfold HEAP_MIN_SIZE in *.
  destruct (expand2_run m1 (rsize + 512) h L Hok H1 ltac:(lia)) as (r1 & h1 & L1 & R1 & E1 & Hr1 & Hfr).
  erewrite run_bind by done. destruct (Z.eqb_spec r1 0) as [->|Hne].
  - destruct (expand2_run m2 (rsize + 512) h1 L1 (ex_ok _ _ _ _ _ E1) (Hfr _ Hap H2) ltac:(lia)) as (r2 & h2 & L2 & R2 & E2 & Hr2 & _).
    erewrite run_bind by done. eexists _, h2, L2. split; [done|]. split; [apply (expanded_trans _ _ _ _ _ _ 1 1 E1 E2)|].
    intros Hr. rewrite Z.gtb_ltb, Z.ltb_lt in Hr. apply Hr2.
    destruct m2 as [[[a n] cl]|]; cbn [um_heap_expand2] in R2; [|injection R2; lia].
    unfold mbind, M_bind in R2. destruct (um_addmem_nolock a n cl h1) as [b g| |]; [|done|done].
    destruct b; cbn in R2; [|injection R2; lia]. destruct (n <? rsize + 512); injection R2; lia.
  - erewrite run_bind by done. eexists _, h1, L1. split; [done|]. split.
    { eapply (expanded_trans _ _ _ _ _ _ 1 1 E1), expanded_refl, (ex_ok _ _ _ _ _ E1). }
    intros Hr. rewrite Z.gtb_ltb, Z.ltb_lt in Hr. apply Hr1.
    destruct m1 as [[[a n] cl]|]; cbn [um_heap_expand2] in R1; [|injection R1; lia].
    unfold mbind, M_bind in R1. destruct (um_addmem_nolock a n cl h) as [b g| |]; [|done|done].
    destruct b; cbn in R1; [|injection R1; lia]. destruct (n <? rsize + 512); injection R1; lia.
Qed.
