(* ===== verification/HeapApi.v ===== *)
(** Allocation and deallocation through the functions of the library:
    [_um_lump_alloc] with the expansion of the heap, [_umalloc], [_ucalloc] and
    [free] for blocks that are lumps. *)

From S2P Require Import Prelude Heap HeapFacts HeapBuckets HeapLumps HeapOps HeapAlloc HeapExpand.

(** ** [_um_lump_alloc] *)

(** The host of a call on the heap [h]: fuel for the lists, and the memory it
    offers is in nobody's use. *)
Record host_ok (e : host) (h : heap) (L : list (list cell)) : Prop := mk_host_ok {
  ho_fuel : (2 + length (concat L) <= fuel e)%nat;
  ho_mem1 : area_fresh (mem1 e) h;
  ho_mem2 : area_fresh (mem2 e) h;
  ho_apart : areas_apart (mem1 e) (mem2 e)
}.

(** Lumps of the size for which the heap is expanded have room. *)
Lemma room_after_expand size k c :
  0 <= size -> rnd size < UM_MAX_SIZE -> 0 <= k <= 16 ->
  (if 2 ^ k <? UM_PAGE_SIZE / 2 then UM_ROUND_LUMP size else UM_ROUND_LUMP (u32 (size + 2 ^ k + 2 ^ k / 2))) + HEAP_MIN_SIZE - 101 <= c_len c ->
  has_room size (2 ^ k) c.
Proof.
  intros Hs Hm Hk Hl. unfold UM_MAX_SIZE, HEAP_MIN_SIZE in *. change (UM_PAGE_SIZE / 2) with 16 in Hl.
  pose proof (rnd_bounds size).
  assert (Hp : 0 < 2 ^ k <= 2 ^ 16) by (split; [lia|apply Z.pow_le_mono_r; lia]).
  pose proof (Z.mod_pos_bound (- (c_addr c + 8)) (2 ^ k) ltac:(lia)).
  exists ((- (c_addr c + 8)) mod 2 ^ k). split; [lia|]. split; [apply aligned_up; lia|].
  destruct (Z.ltb_spec (2 ^ k) 16).
  - rewrite round_lump in Hl by lia. lia.
  - pose proof (Z.div_mod (2 ^ k) 2). pose proof (Z.mod_pos_bound (2 ^ k) 2 ltac:(lia)).
    rewrite u32_small, round_lump in Hl by lia. pose proof (rnd_bounds (size + 2 ^ k + 2 ^ k / 2)). lia.
Qed.

(** Why an allocation fails in a heap that is not tiled. *)
Definition no_memory (e : host) (size m : Z) (h : heap) (L : list (list cell)) : Prop :=
  2 ^ 32 <= size + 43 \/ UM_MAX_SIZE <= rnd size
  \/ ((forall c, c ∈ concat L -> c_st c = 0 -> ~ has_room size m c)
      /\ exists h1, um_heap_expand (fixed e) (mem1 e) (mem2 e) size m h = Done false h1).

Lemma round_overflow size : 0 <= size < 2 ^ 32 -> (UM_ROUND_LUMP size <? size) = (2 ^ 32 <=? size + 43).
Proof.
  intros Hs. destruct (Z.leb_spec (2 ^ 32) (size + 43)).
  - apply Z.ltb_lt. unfold UM_ROUND_LUMP, UM_LUMP_OVERHEAD. rewrite floor32 by apply u32_range.
    change UM_PAGE_SIZE with 32. unfold u32. replace (size + 12 + 32 - 1) with (size + 43 - 2 ^ 32 + 1 * 2 ^ 32) by lia.
    rewrite Z.mod_add, Z.mod_small by lia. pose proof (Z.mul_div_le (size + 43 - 2 ^ 32) 32). lia.
  - rewrite round_lump by lia. pose proof (rnd_bounds size). apply Z.ltb_ge. lia.
Qed.

Lemma lump_alloc_run e size k flags h L :
  heap_ok h L -> host_ok e h L -> 0 <= size < 2 ^ 32 -> 0 <= k <= 16 ->
  exists r h' h1 L1, um_lump_alloc e size (2 ^ k) flags h = Done r h' /\ expanded h L h1 L1 2 /\
    ((r = 0 /\ h' = h1 /\ (has_bits flags UMFI_TILED = false -> no_memory e size (2 ^ k) h L))
     \/ exists L', allocated h1 L1 size (2 ^ k) flags r h' L').
Proof.
  intros Hok [Hfuel Hm1 Hm2 Hap] Hs Hk. unfold um_lump_alloc. rewrite round_overflow by done.
  destruct (Z.leb_spec (2 ^ 32) (size + 43)) as [Hov|Hov].
  { exists 0, h, h, L. split; [done|]. split; [by apply expanded_refl|]. left. split_and!; [done|done|by left]. }
  destruct (noexpand_run size k flags (fuel e) h L Hok ltac:(lia) ltac:(lia) Hk ltac:(lia)) as (r & h1 & R1 & [(-> & -> & Hno)|[L1 Hal]]).
  2:{ erewrite run_bind by done. pose proof (al_block _ _ _ _ _ _ _ _ Hal). rewrite (proj2 (Z.eqb_neq r 0)) by lia.
      exists r, h1, h, L. split; [done|]. split; [by apply expanded_refl|]. right. by exists L1. }
  erewrite run_bind by done. cbn [Z.eqb negb].
  destruct (heap_expand_run (fixed e) (mem1 e) (mem2 e) size (2 ^ k) h L Hok Hm1 Hm2 Hap) as (b & h1 & L1 & R & Hex & Hroom).
  erewrite run_bind by done. destruct b; cbn [negb].
  2:{ exists 0, h1, h1, L1. split; [done|]. split; [done|]. left. split; [done|]. split; [done|].
      intros Ht. destruct (Hno Ht) as [?|?]; [right; by left|right; right]. split; [done|]. by exists h1. }
  pose proof (ex_len _ _ _ _ _ Hex).
  destruct (noexpand_run size k flags (fuel e) h1 L1 (ex_ok _ _ _ _ _ Hex) ltac:(lia) ltac:(lia) Hk ltac:(lia))
    as (r & h2 & R2 & [(-> & -> & Hno2)|Hal]).
  - exists 0, h1, h1, L1. split; [done|]. split; [done|]. left. split; [done|]. split; [done|].
    intros Ht. destruct (Z_lt_ge_dec (rnd size) UM_MAX_SIZE) as [Hmax|Hmax]; [exfalso|right; left; lia].
    destruct (Hno2 Ht) as [?|Hno3]; [lia|]. destruct (Hroom eq_refl) as (c & Hc & Hst & Hl).
    apply (Hno3 c Hc Hst). apply room_after_expand; [lia|done|done|exact Hl].
  - exists r, h2, h1, L1. split; [done|]. by split; [|right].
Qed.

(** ** The functions of the library, for blocks that are lumps *)

Lemma heap_lock_run h : heap_lock h = Done () (set_fsem (fsem h + 1) h).
Proof. done. Qed.

Lemma heap_unlock_run h : 0 < fsem h -> heap_unlock h = Done () (set_fsem (fsem h - 1) h).
Proof.
  intros Hf. unfold heap_unlock. erewrite run_bind by done. by rewrite (proj2 (Z.leb_gt _ _)) by lia.
Qed.

Lemma set_fsem_twice h h' n : fsem h' = n + 1 -> n = fsem h -> fsem (set_fsem (fsem h' - 1) h') = fsem h.
Proof. cbn. lia. Qed.

(** The request is not served by a crate of crumbs. *)
Definition is_large (size : Z) (h : heap) : Prop :=
  forall c, last (cratesets h) = Some c -> cs_crumb_size c < size.

Lemma alloc_large_run e size align flags h :
  is_large size h -> um_alloc_no_lock e size align flags h = um_lump_alloc e size align flags h.
Proof.
  intros Hl. unfold um_alloc_no_lock. erewrite run_bind by done.
  destruct (last (cratesets h)) as [c|] eqn:Hc; [|by erewrite run_bind by done].
  rewrite (proj2 (Z.leb_gt _ _)) by (by apply Hl). by erewrite run_bind by done.
Qed.

Lemma size_align_pow size : exists k, size_align size = 2 ^ k /\ 0 <= k <= 16.
Proof. unfold size_align. destruct (size <? 32); [by exists 2|by exists 4]. Qed.

Lemma fsem_ok n h L : heap_ok (set_fsem n h) L <-> heap_ok h L.
Proof. split; apply same_meta_ok; done. Qed.

Lemma host_ok_fsem e n h L : host_ok e h L -> host_ok e (set_fsem n h) L.
Proof.
  assert (Hfr : forall m, area_fresh m h -> area_fresh m (set_fsem n h)).
  { intros [[[a k] cl]|]; [|done]. cbn. by intros []. }
  intros []. constructor; auto.
Qed.

Lemma kept_lock n m h h' cs : kept (set_fsem n h) h' cs -> kept h (set_fsem m h') cs.
Proof. intros Hk c a Hc Ha. destruct (Hk c a Hc Ha). by constructor. Qed.

(** A locked allocation: lock, allocate a lump, unlock. *)
Lemma locked_alloc_run e size align flags h L :
  heap_ok h L -> host_ok e h L -> is_large size h -> 0 <= size < 2 ^ 32 ->
  (exists k, align = 2 ^ k /\ 0 <= k <= 16) -> 0 <= fsem h ->
  exists r h' L', (forall A (f : Z -> H A), (_ ← heap_lock; tf ← gets tile_flags;
        block ← um_alloc_no_lock e size align (Z.lor flags tf); _ ← heap_unlock; f block) h = f r h')
    /\ heap_ok h' L' /\ fsem h' = fsem h /\ htype h' = htype h /\ cratesets h' = cratesets h /\ kept h h' (live L)
    /\ ((r = 0 /\ live L' = live L
         /\ (has_bits (Z.lor flags (tile_flags h)) UMFI_TILED = false -> no_memory e size align (set_fsem (fsem h + 1) h) L)) \/
       (0 < r /\ r mod align = 0 /\ live L' ≡ₚ mk_cell (r - 8) size (user_st (Z.lor flags (tile_flags h))) :: live L
        /\ (has_bits (Z.lor flags (tile_flags h)) UMFI_ZERO = true -> forall a, r <= a < r + size -> m_data h' a = 0))).
Proof.
  intros Hok Hho Hlarge Hs (k & -> & Hk) Hf. set (h0 := set_fsem (fsem h + 1) h).
  assert (Hok0 : heap_ok h0 L) by (by apply fsem_ok).
  destruct (lump_alloc_run e size k (Z.lor flags (tile_flags h)) h0 L Hok0 (host_ok_fsem _ _ _ _ Hho) Hs Hk)
    as (r & h1 & h2 & L2 & R & Hex & Hres).
  assert (Hrun : fsem h1 = fsem h + 1 -> forall A (f : Z -> H A), (_ ← heap_lock; tf ← gets tile_flags;
        block ← um_alloc_no_lock e size (2 ^ k) (Z.lor flags tf); _ ← heap_unlock; f block) h = f r (set_fsem (fsem h1 - 1) h1)).
  { intros Hf1 A f. erewrite run_bind by apply heap_lock_run. fold h0. erewrite run_bind by done.
    change (tile_flags h0) with (tile_flags h). erewrite run_bind by (rewrite alloc_large_run by done; exact R).
    by erewrite run_bind by (apply heap_unlock_run; lia). }
  pose proof Hex as [E1 E2 E3 E4 E5 E6 E7 E8]. cbn in E5, E6, E7. destruct Hres as [(-> & -> & Hno)|[L' Hal]].
  - exists 0, (set_fsem (fsem h2 - 1) h2), L2. split; [by apply Hrun|]. split_and!; try done.
    + by apply fsem_ok.
    + cbn. lia.
    + by eapply kept_lock.
    + by left.
  - pose proof Hal as [A1 A2 A3 A4 A5 A6 [T1 T2 T3 T4 T5 T6 T7] A8].
    exists r, (set_fsem (fsem h1 - 1) h1), L'. split; [apply Hrun; lia|]. split_and!.
    + by apply fsem_ok.
    + cbn. lia.
    + cbn. congruence.
    + cbn. congruence.
    + eapply kept_lock, kept_trans; [exact E3|]. by rewrite <-E2.
    + right. split_and!; [done|done| |done]. by rewrite A2, E2.
Qed.

(** [free] of a block that is a lump in use. *)
Lemma free_run fl h L c :
  heap_ok h L -> c ∈ live L -> 0 <= fsem h ->
  exists h' L', free fl (c_addr c + 8) h = Done () h' /\ heap_ok h' L' /\ live L ≡ₚ c :: live L'
    /\ same_top h h' /\ m_data h' = m_data h /\ kept h h' (live L').
Proof.
  intros Hok Hc Hf. set (h0 := set_fsem (fsem h + 1) h).
  destruct (lump_free_run h0 L c) as (s & h1 & L1 & Hu & R & Hok1 & Hperm & Hct & Hk); [by apply fsem_ok|done|].
  destruct Hu as [U1 U2 U3 U4 U5 U6 U7 U8 U9 U10]. cbn in U3, U4, U5.
  pose proof (so_mem _ U2). pose proof (so_start _ U2). pose proof (so_end _ U2). pose proof (so_top _ U2).
  destruct Hct as [C1 C2 C3 C4 C5 C6 C7 C8]. cbn in C7.
  exists (set_fsem (fsem h1 - 1) h1), L1. split; [|split; [by apply fsem_ok|split; [done|split; [|split; [done|by eapply kept_lock]]]]].
  2:{ constructor; cbn; (done || lia). }
  unfold free, um_free_maybe_lock. rewrite (proj2 (Z.eqb_neq _ _)) by lia.
  replace (c_addr c + 8 - 8) with (c_addr c) by lia.
  erewrite run_bind by (by apply ld_run). rewrite status_word by (apply U2 || lia).
  change UMS_FREE with 0. rewrite (proj2 (Z.eqb_neq (c_st c) 0)) by lia.
  rewrite ptr_word by (apply U2 || lia). erewrite run_bind by (by apply ld_run).
  change (UM_MAGIC_SEG =? UM_MAGIC_CRATE) with false. rewrite Z.eqb_refl.
  unfold maybe_lock, mwhen. erewrite run_bind by apply heap_lock_run. fold h0. erewrite run_bind by done.
  by erewrite run_bind by (apply heap_unlock_run; lia).
Qed.

(** Blocks in use do not overlap, headers included. *)
Lemma live_apart h L c d : heap_ok h L -> c ∈ live L -> d ∈ live L -> c = d \/ c_end c <= c_addr d \/ c_end d <= c_addr c.
Proof.
  intros (B & Hi & _) [_ Hc]%elem_of_live [_ Hd]%elem_of_live. by destruct (lay_disj _ _ _ _ (hv_lay _ _ _ Hi) Hc Hd).
Qed.
