(* ===== verification/HeapRealloc.v ===== *)
(** Resizing of lumps: in place, into the next lump, into new memory at the
    end of the segment, into the previous lump, or by moving the block. The
    bytes of the block are kept, the other blocks are not touched. *)

From S2P Require Import Prelude Heap HeapFacts HeapBuckets HeapLumps HeapOps HeapAlloc HeapExpand HeapApi.

(** ** The result of a resize *)

(** The block of [c] became a block of [ns] bytes at [r]. *)
Record moved (h : heap) (L : list (list cell)) (c : cell) (ns r : Z) (h' : heap) (L' : list (list cell)) : Prop :=
  mk_moved {
  mv_ok : heap_ok h' L';
  mv_pos : 0 < r;
  mv_rest : exists R, live L ≡ₚ c :: R /\ live L' ≡ₚ mk_cell (r - 8) ns (c_st c) :: R /\ kept h h' R;
  mv_data : forall i, 0 <= i < Z.min (c_size c) ns -> m_data h' (r + i) = m_data h (c_addr c + 8 + i);
  mv_type : htype h' = htype h;
  mv_sets : cratesets h' = cratesets h;
  mv_fsem : fsem h' = fsem h
}.

Lemma moved_expanded h L h1 L1 k c ns r h2 L2 :
  expanded h L h1 L1 k -> moved h1 L1 c ns r h2 L2 -> moved h L c ns r h2 L2.
Proof.
  intros [E1 E2 E3 E4 E5 E6 E7 E8] [M1 M2 (R & M3 & M4 & M5) M6 M7 M8 M9].
  constructor; [done|done| |intros i Hi; by rewrite M6, E8|congruence..].
  exists R. split; [by rewrite <-E2|]. split; [done|]. eapply kept_trans; [|done].
  eapply kept_incl; [done|]. rewrite <-E2, M3. by apply list_subseteq_cons.
Qed.

Lemma cell_tiles l n st : 0 <= n -> 0 <= st < 3 -> tiles l [mk_cell l n st] (l + rnd n).
Proof. intros H0 Hst. cbn. unfold c_end, c_len. cbn. split_and!; (done || lia). Qed.

Lemma tiles_end a cs e e' : tiles a cs e -> tiles a cs e' -> e = e'.
Proof.
  revert a. induction cs as [|c cs IH]; intros a; cbn; [congruence|].
  intros (_ & _ & _ & H1) (_ & _ & _ & H2). by eapply IH.
Qed.

(** The lump at [l] takes the first bytes of a place, the rest becomes free. *)
Lemma settle_run h K xs s l os ns st B :
  hinv h (plug K xs) B -> segs h !! length (k_l K) = Some s -> busy xs -> tiles l xs (l + os) ->
  0 <= ns -> rnd ns <= os -> os mod 32 = 0 -> 1 <= st < 3 -> m_parent h !! l = Some (Z.lor (sg_addr s) st) ->
  Forall no_gap (plug K []) ->
  exists h1 h' L', um_lump_set_size l ns h = Done () h1
    /\ (rnd ns < os -> um_lump_coalesce_free (l + rnd ns) (sg_addr s) (os - rnd ns) h1 = Done () h')
    /\ (rnd ns = os -> h' = h1)
    /\ heap_ok h' L' /\ live L' ≡ₚ mk_cell l ns st :: live (plug K []) /\ same_ctl h h' /\ kept h h' (live (plug K [])).
Proof.
  intros Hi Hs Hb Ht Hns Hle Hos Hst Hpar Hg. pose proof (hv_lay _ _ _ Hi) as Hl.
  destruct (place _ _ _ _ Hl Hs) as (lo & hi & Hr & Hok & Ht' & _ & Hlo & Hhi).
  assert (Hne : xs <> []).
  { intros ->. cbn in Ht. pose proof (rnd_pos ns Hns). lia. }
  assert (lo = l) as ->. { destruct xs as [|x xs]; [done|]. destruct Ht as [<- _]. by destruct Ht' as [<- _]. }
  assert (hi = l + os) as -> by (by eapply tiles_end).
  pose proof (so_mem _ Hok). pose proof (so_start _ Hok). pose proof (so_end _ Hok). pose proof (so_top _ Hok).
  pose proof (rnd_pos ns Hns). set (c := mk_cell l ns st).
  set (h1 := set_tag (l + rnd ns - 4) ns (set_size l ns h)).
  assert (Hho : hdr_only h h1 l (l + os)) by (apply hdr_set_size; lia).
  assert (Hrest32 : (os - rnd ns) mod 32 = 0) by (apply mod32_sub; [done|apply rnd_mod]).
  destruct (opt_gap_tiles (l + rnd ns) (os - rnd ns) ltac:(lia) Hrest32) as [Htg Hbg].
  destruct (hinv_retile h h1 K xs ([c] ++ opt_gap (l + rnd ns) (os - rnd ns)) B s l (l + os)) as [Hi1 Hk1]; try done.
  { apply tiles_app. exists (l + rnd ns). split; [apply cell_tiles; lia|].
    by replace (l + os) with (l + rnd ns + (os - rnd ns)) by lia. }
  { apply Forall_app. split; [|apply opt_gap_at]. constructor; [|done]. right. cbn. by rewrite !lookup_insert_eq. }
  { apply Forall_app. split; [|done]. constructor; [cbn; lia|done]. }
  destruct K as [kl a b kr]. cbn [k_l] in *.
  assert (Hsolid : Forall no_gap (plug (mk_ctx kl (a ++ [c]) b kr) [])).
  { rewrite plug_left, Forall_plug in *. destruct Hg as (? & Hm & ?). split_and!; [done| |done].
    cbn [k_a k_b app] in *. unfold no_gap in *. rewrite Forall_app in *. destruct Hm. split; [done|].
    constructor; [cbn; unfold GAP; lia|done]. }
  assert (Hlive : live (plug (mk_ctx kl (a ++ [c]) b kr) []) ≡ₚ c :: live (plug (mk_ctx kl a b kr) [])).
  { rewrite plug_left. apply live_cons. cbn. lia. }
  unfold opt_gap in Hi1. destruct (Z.eqb_spec (os - rnd ns) 0) as [Hz|Hnz].
  - exists h1, h1, (plug (mk_ctx kl (a ++ [c]) b kr) []). split; [apply set_size_run; lia|].
    split; [lia|]. split; [done|]. split; [exists B; split; [by rewrite plug_left|done]|].
    split; [done|]. split; [apply Hho|by apply live_kept].
  - change ([c] ++ [gap (l + rnd ns) (os - rnd ns)]) with ([c] ++ [gap (l + rnd ns) (os - rnd ns)]) in Hi1.
    rewrite <-plug_left in Hi1.
    destruct (coalesce_free_run h1 s _ _ _ B Hi1) as (h2 & L2 & B2 & R2 & Hi2 & Hg2 & Hlive2 & Hc2 & Hk2); try done.
    exists h1, h2, L2. split; [apply set_size_run; lia|]. split; [done|]. split; [lia|].
    split; [by exists B2|]. split; [by rewrite Hlive2|]. split; [by etrans; [apply Hho|]|].
    eapply kept_trans; [by apply live_kept|]. eapply kept_incl; [exact Hk2|]. rewrite Hlive.
    by apply list_subseteq_cons.
Qed.

(** A lump in use with its place. *)
Lemma live_setup h L c :
  heap_ok h L -> c ∈ live L ->
  exists K s B, L = plug K [c] /\ hinv h (plug K [c]) B /\ Forall no_gap (plug K [c])
    /\ segs h !! length (k_l K) = Some s /\ in_use h s c.
Proof.
  intros (B & Hi & Hg) [Hst Hc]%elem_of_live. apply plug_of in Hc as [K ->].
  destruct (live_place _ _ _ (hv_lay _ _ _ Hi) Hst) as (s & Hs & Hu). by exists K, s, B.
Qed.

Lemma no_gap_out K xs : Forall no_gap (plug K xs) -> Forall no_gap (plug K []).
Proof.
  rewrite !Forall_plug. unfold no_gap. cbn [app]. rewrite !Forall_app. tauto.
Qed.

Lemma in_use_seg h L s c : heap_ok h L -> in_use h s c -> get_seg (sg_addr s) h = Done s h.
Proof.
  intros (B & Hi & _) [U1 _ _ _ _ _ _ _ _ _]. apply list_elem_of_lookup in U1 as [i Hs].
  eapply heap_seg_run; [apply (hv_lay _ _ _ Hi)|exact Hs].
Qed.

(** The block stays where it is. *)
Lemma moved_in_place h L K c ns h' L' :
  live L ≡ₚ c :: live (plug K []) -> 0 <= c_addr c ->
  heap_ok h' L' -> live L' ≡ₚ mk_cell (c_addr c) ns (c_st c) :: live (plug K []) ->
  same_ctl h h' -> kept h h' (live (plug K [])) -> moved h L c ns (c_addr c + 8) h' L'.
Proof.
  intros HL H0 Hok Hlive Hc Hk. constructor; [done|lia| | |apply Hc..].
  - exists (live (plug K [])). split; [done|]. split; [|done]. by replace (c_addr c + 8 - 8) with (c_addr c) by lia.
  - intros i _. by rewrite (ct_data _ _ Hc).
Qed.

Lemma slack_mod c d n : (c_len c + c_len d - rnd n) mod 32 = 0.
Proof. apply mod32_sub; [apply mod32_add|]; apply rnd_mod. Qed.

Definition fits_here (size align flags block : Z) : Prop := block_suits size align flags block = true.

(** Growing into the next lump. *)
Lemma expand_up2_run h K c nx s ns align flags B :
  hinv h (plug K [c; nx]) B -> Forall no_gap (plug K [c; nx]) -> segs h !! length (k_l K) = Some s ->
  1 <= c_st c < 3 -> c_st nx = 0 -> 0 <= ns -> ns + 43 < 2 ^ 32 ->
  (um_lump_expand_up2 (sg_addr s) (c_addr c) (c_addr nx) ns align flags h = Done 0 h
    /\ (c_len c + c_len nx < rnd ns \/ ~ fits_here ns align flags (c_addr c + 8)))
  \/ (fits_here ns align flags (c_addr c + 8) /\ rnd ns <= c_len c + c_len nx
    /\ exists h' L', um_lump_expand_up2 (sg_addr s) (c_addr c) (c_addr nx) ns align flags h = Done (c_addr c + 8) h'
      /\ heap_ok h' L' /\ live L' ≡ₚ mk_cell (c_addr c) ns (c_st c) :: live (plug K [])
      /\ same_ctl h h' /\ kept h h' (live (plug K []))).
Proof.
  intros Hi Hg Hs Hst Hnx Hns Hmax. pose proof (hv_lay _ _ _ Hi) as Hl. destruct K as [kl a b kr]. cbn [k_l] in *.
  destruct (place _ _ _ _ Hl Hs) as (lo & hi & _ & Hok & Ht & Hat & _).
  destruct (place_bounds _ _ _ _ c Hl Hs ltac:(left)) as (F1 & F2 & F3 & F4 & F5 & _).
  destruct (place_bounds _ _ _ _ nx Hl Hs ltac:(right; left)) as (G1 & G2 & G3 & G4 & G5 & _).
  apply Forall_cons in Hat as [Hc Hat]. rewrite Forall_singleton in Hat.
  destruct (cell_known _ _ _ Hc) as (M1 & M2 & _); [unfold GAP; lia|].
  destruct (cell_known _ _ _ Hat) as (N1 & _); [rewrite Hnx; done|].
  destruct Ht as (<- & _ & _ & Hadr & _ & _ & Hhi). cbn in Hhi.
  unfold um_lump_expand_up2. erewrite run_bind by (by apply ld_run). erewrite run_bind by (by apply ld_run).
  rewrite !round_lump by lia. change (rnd (c_size c)) with (c_len c). change (rnd (c_size nx)) with (c_len nx).
  unfold c_end in *. rewrite (u32_small (c_len c + c_len nx)) by lia.
  change UM_LUMP_HEADER_SIZE with 8. rewrite (u32_small (c_addr c + 8)) by lia.
  destruct (Z.ltb_spec (c_len c + c_len nx) (rnd ns)) as [Hlt|Hge]; [left; split; [done|by left]|].
  unfold fits_here. destruct (block_suits ns align flags (c_addr c + 8)) eqn:Hsuit; cbn [negb]; [|left; split; [done|by right]].
  right. split; [done|]. split; [done|]. pose proof Hi as Hi'.
  assert (Hplug : plug (mk_ctx kl a b kr) [c; nx] = plug (mk_ctx kl (a ++ [c]) b kr) [nx]) by (by rewrite plug_left).
  rewrite Hplug in Hi'. destruct (unlink_gap _ _ _ _ Hi' Hnx) as (h1 & B1 & _ & R1 & Hi1 & Hl1 & Hk1).
  pose proof Hl1 as (_ & Eseg & _ & _ & _ & _ & Esz & Epar & _). rewrite plug_left in Hi1. cbn [app] in Hi1.
  destruct (settle_run h1 (mk_ctx kl a b kr) [c; as_gap nx] s (c_addr c) (c_len c + c_len nx) ns (c_st c) B1 Hi1)
    as (h2 & h3 & L' & R2 & R3 & R4 & Hok3 & Hlive & Hc3 & Hk3); try done.
  { by rewrite Eseg. } { constructor; [lia|]. by repeat constructor. }
  { cbn [tiles as_gap c_addr c_size c_st]. unfold c_end. change (c_len (as_gap nx)) with (c_len nx).
    split_and!; [done|done|right; lia|done|done|by left|cbn; lia]. }
  { apply mod32_add; apply rnd_mod. } { by rewrite Epar. } { by eapply no_gap_out. }
  exists h3, L'. split; [|split; [done|split; [done|split; [by etrans; [apply links_ctl|]|]]]].
  - erewrite run_bind by done. erewrite run_bind by done. rewrite Z.gtb_ltb.
    destruct (Z.ltb_spec (rnd ns) (c_len c + c_len nx)); cbn [mwhen].
    + change UM_PAGE_SIZE with 32. rewrite slack_mod.
      rewrite (u32_small (c_addr c + rnd ns)) by (pose proof (rnd_pos ns Hns); lia).
      erewrite run_bind.
      2:{ erewrite run_bind by done. apply R3. lia. }
      done.
    + rewrite R4 by lia. by erewrite run_bind by done.
  - eapply kept_trans; [|done]. eapply kept_incl; [exact Hk1|]. rewrite plug_left. by apply live_mono, list_subseteq_nil.
Qed.

(** A copy of bytes inside of a place leaves the other lumps alone. *)
Definition copy (p q n : Z) (h : heap) : heap :=
  set_data (fun x => if (p <=? x) && (x <? p + n) then m_data h (q + (x - p)) else m_data h x) h.

Lemma memmove_run p q n h : memmove p q n h = Done () (copy p q n h).
Proof. done. Qed.

Lemma copy_read p q n h i : 0 <= i < n -> m_data (copy p q n h) (p + i) = m_data h (q + i).
Proof.
  intros Hi. cbn. rewrite (proj2 (Z.leb_le _ _)), (proj2 (Z.ltb_lt _ _)) by lia. cbn. f_equal. lia.
Qed.

Lemma copy_kept p q n h cs :
  (forall c a, c ∈ cs -> c_addr c <= a < c_end c -> a < p \/ p + n <= a) -> kept h (copy p q n h) cs.
Proof.
  intros Hout c a Hc Ha. specialize (Hout c a Hc Ha). constructor; try done. cbn.
  destruct (Z.leb_spec p a), (Z.ltb_spec a (p + n)); (done || lia).
Qed.

(** Growing into the previous lump. *)
Lemma expand_down2_run h K p c s ns B :
  hinv h (plug K [p; c]) B -> Forall no_gap (plug K [p; c]) -> segs h !! length (k_l K) = Some s ->
  1 <= c_st c < 3 -> c_st p = 0 -> c_size c <= ns -> rnd ns <= c_len c + c_len p ->
  exists h' L',
    (_ ← um_lump_unlink_heap (c_addr p);
     x ← ld m_parent (c_addr c);
     _ ← mmod (set_parent (c_addr p) x);
     _ ← memmove (c_addr p + 8) (c_addr c + 8) (c_size c);
     _ ← um_lump_set_size (c_addr p) ns;
     mwhen (c_len c + c_len p >? rnd ns)
       (_ ← um_assert ((c_len c + c_len p - rnd ns) mod UM_PAGE_SIZE =? 0);
        um_lump_coalesce_free (c_addr p + rnd ns) (sg_addr s) (c_len c + c_len p - rnd ns))) h = Done () h'
    /\ heap_ok h' L' /\ live L' ≡ₚ mk_cell (c_addr p) ns (c_st c) :: live (plug K [])
    /\ same_top h h' /\ kept h h' (live (plug K []))
    /\ forall i, 0 <= i < c_size c -> m_data h' (c_addr p + 8 + i) = m_data h (c_addr c + 8 + i).
Proof.
  intros Hi Hg Hs Hst Hp0 Hns Hroom. pose proof (hv_lay _ _ _ Hi) as Hl. destruct K as [kl a b kr]. cbn [k_l] in *.
  destruct (place _ _ _ _ Hl Hs) as (lo & hi & Hr & Hok & Ht & Hat & _).
  destruct (place_bounds _ _ _ _ p Hl Hs ltac:(left)) as (F1 & F2 & F3 & F4 & F5 & _).
  destruct (place_bounds _ _ _ _ c Hl Hs ltac:(right; left)) as (G1 & G2 & G3 & G4 & G5 & _).
  apply Forall_cons in Hat as [Hp Hat]. rewrite Forall_singleton in Hat.
  destruct (cell_known _ _ _ Hat) as (M1 & M2 & _); [unfold GAP; lia|].
  assert (Hplug : plug (mk_ctx kl a b kr) [p; c] = plug (mk_ctx kl a (c :: b) kr) [p]) by (by rewrite plug_cons_r).
  pose proof Hi as Hi'. rewrite Hplug in Hi'.
  destruct (unlink_gap _ _ _ _ Hi' Hp0) as (h1 & B1 & _ & R1 & Hi1 & Hl1 & Hk1).
  pose proof Hl1 as (_ & Eseg & _ & _ & _ & _ & Esz & Epar & _ & _ & _ & Edat & _).
  rewrite plug_cons_r in Hi1. cbn [app] in Hi1. rewrite plug_cons_r in Hk1.
  set (x := Z.lor (sg_addr s) (c_st c)) in *. set (h2 := set_parent (c_addr p) x h1).
  assert (Hs1 : segs h1 !! length kl = Some s) by (by rewrite Eseg).
  destruct (place _ _ _ _ (hv_lay _ _ _ Hi1) Hs1) as (lo' & hi' & Hr1 & _ & Ht1 & _).
  destruct Ht as (<- & _ & _ & Hadr & _ & _ & Hhi). cbn in Hhi. destruct Ht1 as (<- & _ & _ & _ & _ & _ & Hhi1). cbn in Hhi1.
  cbn [as_gap c_addr] in Hr1. unfold c_end in Hadr, Hhi, Hhi1, F4, G4.
  assert (Htiles : tiles (c_addr p) [as_gap p; as_gap c] hi').
  { cbn [tiles as_gap c_addr c_size c_st]. unfold c_end. change (c_len (as_gap p)) with (c_len p).
    change (c_len (as_gap c)) with (c_len c). cbn. split_and!; (done || lia || by left). }
  assert (Htiles0 : tiles (c_addr p) [as_gap p; c] hi').
  { cbn [tiles as_gap c_addr c_size c_st]. unfold c_end. change (c_len (as_gap p)) with (c_len p).
    cbn. split_and!; [done|done|by left|lia|done|right; lia|done]. }
  destruct (hinv_retile h1 h2 (mk_ctx kl a b kr) [as_gap p; c] [as_gap p; as_gap c] B1 s (c_addr p) hi') as [Hi2 Hk2]; try done.
  { apply hdr_parent. lia. } { by repeat constructor. } { constructor; [done|]. constructor; [lia|done]. } { by repeat constructor. }
  set (h3 := copy (c_addr p + 8) (c_addr c + 8) (c_size c) h2).
  pose proof (rnd_bounds (c_size c)) as Hrc. change (rnd (c_size c)) with (c_len c) in Hrc.
  assert (Hk3 : kept h2 h3 (live (plug (mk_ctx kl a b kr) []))).
  { apply copy_kept. intros d y [_ Hd]%elem_of_live Hy. apply elem_of_plug in Hd as [Hd|Hd]; [by apply elem_of_nil in Hd|].
    destruct (others_outside h1 (mk_ctx kl a b kr) [as_gap p; c] s (c_addr p) hi' d (hv_lay _ _ _ Hi1) Hr1 Htiles0 Hd); lia. }
  assert (Hi3 : hinv h3 (plug (mk_ctx kl a b kr) [as_gap p; as_gap c]) B1) by (eapply (same_meta_hinv h2); done).
  destruct (settle_run h3 (mk_ctx kl a b kr) [as_gap p; as_gap c] s (c_addr p) (c_len c + c_len p) ns (c_st c) B1 Hi3)
    as (h4 & h5 & L' & R4 & R5 & R6 & Hok5 & Hlive & Hc5 & Hk5); try done; try lia.
  { by repeat constructor. } { by replace (c_addr p + (c_len c + c_len p)) with hi' by lia. }
  { apply mod32_add; apply rnd_mod. } { cbn. by rewrite lookup_insert_eq. } { by eapply no_gap_out. }
  exists h5, L'. split; [|split; [done|split; [done|split; [|split]]]].
  - erewrite run_bind by done. erewrite run_bind by (apply ld_run; by rewrite Epar). erewrite run_bind by done.
    fold x h2. erewrite run_bind by apply memmove_run. fold h3. erewrite run_bind by done. rewrite Z.gtb_ltb.
    destruct (Z.ltb_spec (rnd ns) (c_len c + c_len p)); cbn [mwhen]; [|by rewrite R6 by lia].
    change UM_PAGE_SIZE with 32. rewrite slack_mod. erewrite run_bind by done. apply R5. lia.
  - pose proof (ctl_top _ _ (links_ctl _ _ Hl1)) as []. pose proof (ctl_top _ _ Hc5) as [].
    constructor; cbn in *; congruence.
  - eapply kept_trans; [eapply kept_incl; [exact Hk1|by apply live_mono, list_subseteq_nil]|].
    eapply kept_trans; [by apply live_kept|]. by eapply kept_trans.
  - intros i Hi0. rewrite (ct_data _ _ Hc5). unfold h3. rewrite copy_read by lia. cbn. by rewrite Edat.
Qed.

(** ** Growing the segment *)

(** The memory that [expand_fun] may add follows the first segment and is used
    by nobody, nor offered by [alloc_fun]. *)
Definition expand_fresh (e : host) (h : heap) : Prop :=
  forall s sr n cl, segs h = s :: sr -> expand e = Some (Some (n, cl)) -> sg_size s < n ->
    sg_mem s + n < 2 ^ 32 /\ area_apart (sg_mem s + sg_size s) (n - sg_size s) sr
    /\ forall a k c, mem1 e = Some (a, k, c) \/ mem2 e = Some (a, k, c) ->
        a + k <= sg_mem s + sg_size s \/ sg_mem s + n <= a.

(** What is left of the memory the host offers. *)
Definition offers_ok (e : host) (h : heap) : Prop := area_fresh (mem1 e) h /\ area_fresh (mem2 e) h.

Lemma offers_grown e h h' s sr n asize cl :
  segs h = s :: sr -> segs h' = grown_seg s (n - sg_size s) asize :: sr -> expand e = Some (Some (n, cl)) ->
  sg_size s < n -> expand_fresh e h -> offers_ok e h -> offers_ok e h'.
Proof.
  intros Hs Hs' He Hlt Hx [H1 H2]. destruct (Hx s sr n cl Hs He Hlt) as (_ & _ & Hm).
  assert (Hgen : forall m, (m = mem1 e \/ m = mem2 e) -> area_fresh m h -> area_fresh m h').
  { intros [[[a k] c]|] Hin; [|done]. intros [F1 F2 F3 F4]. constructor; try done.
    intros x. rewrite Hs'. specialize (Hm a k c). intros [->|Hx']%elem_of_cons.
    - cbn. specialize (F4 s). rewrite Hs in F4. specialize (F4 ltac:(left)).
      destruct Hin as [Hin|Hin]; [specialize (Hm (or_introl (eq_sym Hin)))|specialize (Hm (or_intror (eq_sym Hin)))]; lia.
    - apply F4. rewrite Hs. by right. }
  split; apply Hgen; auto.
Qed.

Lemma mod32_reach x y : (x - y) mod 32 = 0 -> y - 31 <= x -> y <= x.
Proof. intros Hm Hle. pose proof (Z.div_mod (x - y) 32). lia. Qed.

(** The last lump of the segment, or the last and the new free space. *)
Definition tail_grown (p : cell) (xs : list cell) : Prop :=
  xs = [p] \/ exists n, 0 < n /\ n mod 32 = 0 /\ xs = grow_tail p n.

(** After [_um_lump_expand_seg] returned [b]. *)
Definition seg_tried (e : host) (h : heap) (K : ctx) (p : cell) (sga lump ns : Z) (b : bool) (h' : heap) : Prop :=
  exists B' xs s', hinv h' (plug K xs) B' /\ tail_grown p xs /\ expanded h (plug K [p]) h' (plug K xs) 1
    /\ offers_ok e h' /\ segs h' !! length (k_l K) = Some s' /\ sg_addr s' = sga
    /\ (b = true -> lump + rnd ns <= sg_end s').

Lemma seg_not_tried e h K p s B lump ns :
  hinv h (plug K [p]) B -> Forall no_gap (plug K [p]) -> segs h !! length (k_l K) = Some s -> offers_ok e h ->
  seg_tried e h K p (sg_addr s) lump ns false h.
Proof.
  intros Hi Hg Hs Hoff. exists B, [p], s. split_and!; try done; [by left|apply expanded_refl; by exists B].
Qed.

Lemma tail_grown_expanded h h' sl s sr kl a p kr n :
  let K := mk_ctx kl a [] kr in let xs := if n =? 0 then [p] else grow_tail p n in
  Forall no_gap (plug K [p]) -> n mod 32 = 0 -> 0 <= n -> 0 <= c_len p ->
  same_ctl (set_segs (sl ++ s :: sr) h) h' -> kept h h' (live (plug K [p])) ->
  (exists B, hinv h' (plug K xs) B) ->
  tail_grown p xs /\ expanded h (plug K [p]) h' (plug K xs) 1.
Proof.
  intros K xs Hg Hn H0 Hl [C1 C2 C3 C4 C5 C6 C7 C8] Hk [B Hi].
  destruct (grow_tail_facts K p n Hg Hn Hl) as (G1 & G2 & G3 & _). unfold xs in *. destruct (Z.eqb_spec n 0) as [Hz|Hz].
  - split; [by left|]. constructor; try done; [by exists B|lia].
  - split; [right; exists n; split_and!; (done || lia)|]. constructor; try done. by exists B.
Qed.

Lemma expand_seg_run e h B s kl a p kr lump ns :
  let K := mk_ctx kl a [] kr in
  hinv h (plug K [p]) B -> Forall no_gap (plug K [p]) -> segs h !! length kl = Some s ->
  0 <= ns -> ns + 43 < 2 ^ 32 -> sg_start s <= lump < sg_end s -> lump mod 32 = 24 ->
  expand_fresh e h -> offers_ok e h ->
  exists b h', um_lump_expand_seg e (sg_addr s) lump ns h = Done b h' /\ seg_tried e h K p (sg_addr s) lump ns b h'.
Proof.
  intros K Hi Hg Hs Hns Hmax Hlump Hl32 Hx Hoff. pose proof (hv_lay _ _ _ Hi) as Hl.
  pose proof (seg_not_tried e h K p s B lump ns Hi Hg Hs Hoff) as Hf.
  unfold um_lump_expand_seg. destruct (expand e) as [res|] eqn:He; [|by exists false, h].
  erewrite run_bind by done. destruct (bool_decide _) eqn:Hb; cbn [negb]; [|by exists false, h].
  apply bool_decide_eq_true in Hb. destruct (segs h) as [|s0 sr] eqn:Hsegs; [done|].
  cbn in Hb. injection Hb as Hb.
  assert (Hk0 : length kl = 0%nat /\ s0 = s).
  { destruct (length kl) as [|i] eqn:Hlen; [by injection Hs|]. exfalso.
    refine (seg_addr_ne h _ [] s0 sr s Hl Hsegs _ (eq_sym Hb)). by eapply list_elem_of_lookup_2. }
  destruct Hk0 as [Hk0 ->]. apply nil_length_inv in Hk0 as ->. rewrite <-Hsegs in Hs.
  destruct (place _ _ _ _ Hl Hs) as (lo & hi & [_ _ Rb] & Hok & Htp & _). pose proof (tiles_one _ _ _ Htp) as [-> ->].
  destruct (place_bounds _ _ _ _ p Hl Hs ltac:(left)) as (_ & _ & F3 & _ & _ & _ & _ & F8).
  pose proof (so_end _ Hok). pose proof (so_mem _ Hok). pose proof (so_start _ Hok). pose proof (so_top _ Hok).
  pose proof (rnd_bounds ns). pose proof (rnd_pos ns Hns). pose proof (rnd_mod ns) as Hrm.
  erewrite run_bind by (by eapply heap_seg_run). rewrite round_lump by lia.
  destruct (Z.leb_spec (u32 (lump + rnd ns - sg_mem s)) (sg_size s)) as [|Hns2]; [by exists false, h|].
  assert (Hu : u32 (lump + rnd ns - sg_mem s) = lump + rnd ns - sg_mem s).
  { destruct (Z_lt_ge_dec (lump + rnd ns - sg_mem s) (2 ^ 32)); [apply u32_small; lia|exfalso].
    unfold u32 in Hns2. rewrite <-(Z.mod_add _ (-1)), Z.mod_small in Hns2 by lia. lia. }
  rewrite Hu. destruct res as [[n cl]|]; [|by exists false, h].
  destruct (Z.leb_spec n (sg_size s)) as [|Hlt]; [by exists false, h|].
  destruct (Hx s sr n cl Hsegs He Hlt) as (Htop & Harea & _).
  destruct (seg_addmem_shape h B [] s sr [] a p kr (n - sg_size s) Hi Hg Hsegs eq_refl ltac:(lia) ltac:(lia) Harea)
    as (asize & h' & B' & R & Hn32 & Hn0 & _ & Hok' & Hend & Hi' & Hc & Hk).
  erewrite run_bind by done. eexists _, h'. split; [done|].
  destruct (tail_grown_expanded h h' [] _ sr [] a p kr _ Hg Hn32 Hn0 ltac:(lia) Hc Hk ltac:(by exists B')) as [Htg Hex].
  exists B'. eexists. exists (grown_seg s (n - sg_size s) asize).
  split; [exact Hi'|]. split; [done|]. split; [done|]. split; [by eapply offers_grown; [done|apply (ct_segs _ _ Hc)|..]|].
  split; [by rewrite (ct_segs _ _ Hc)|]. split; [done|]. intros Hge. apply negb_true_iff, Z.ltb_ge in Hge.
  cbn. apply mod32_reach; [|lia].
  replace (sg_start s + asize - (lump + rnd ns)) with ((asize - (sg_end s - sg_start s)) + (sg_end s - lump - rnd ns)) by lia.
  apply mod32_add; [done|]. apply mod32_sub; [|done]. cbn in Rb. rewrite <-Rb. unfold c_end.
  replace (c_addr p + c_len p - lump) with ((c_addr p - lump) + c_len p) by lia.
  apply mod32_add; [|apply rnd_mod]. by rewrite Zminus_mod, F8, Hl32.
Qed.

(** What growing upwards may give: nothing but a longer segment, or the block
    where it was. *)
Definition up_result (e : host) (h : heap) (L : list (list cell)) (c : cell) (ns r : Z) (h' : heap) : Prop :=
  (r = 0 /\ exists L', expanded h L h' L' 1 /\ offers_ok e h') \/ (exists L', moved h L c ns r h' L').

Lemma up_nothing e h L c ns : heap_ok h L -> offers_ok e h -> up_result e h L c ns 0 h.
Proof. intros Hok Hoff. left. split; [done|]. exists L. split; [by apply expanded_refl|done]. Qed.

Lemma expand_up2_moved h K c nx s ns align flags B :
  hinv h (plug K [c; nx]) B -> Forall no_gap (plug K [c; nx]) -> segs h !! length (k_l K) = Some s ->
  1 <= c_st c < 3 -> c_st nx = 0 -> 0 <= ns -> ns + 43 < 2 ^ 32 ->
  (um_lump_expand_up2 (sg_addr s) (c_addr c) (c_addr nx) ns align flags h = Done 0 h
    /\ (c_len c + c_len nx < rnd ns \/ ~ fits_here ns align flags (c_addr c + 8)))
  \/ exists h' L', um_lump_expand_up2 (sg_addr s) (c_addr c) (c_addr nx) ns align flags h = Done (c_addr c + 8) h'
      /\ moved h (plug K [c; nx]) c ns (c_addr c + 8) h' L'.
Proof.
  intros Hi Hg Hs Hst Hnx Hns Hmax.
  destruct (expand_up2_run h K c nx s ns align flags B Hi Hg Hs Hst Hnx Hns Hmax) as [|(_ & _ & h' & L' & R & Hok & Hl & Hc & Hk)];
    [by left|right].
  destruct (place_bounds _ _ _ _ c (hv_lay _ _ _ Hi) Hs ltac:(left)) as (F1 & _).
  exists h', L'. split; [done|]. destruct K as [kl a b kr].
  apply moved_in_place with (K := mk_ctx kl a b kr); [|lia|done..].
  assert (plug (mk_ctx kl a b kr) [c; nx] = plug (mk_ctx kl a (nx :: b) kr) [c]) as -> by (by rewrite plug_cons_r).
  etrans; [apply live_cons; lia|].
  rewrite plug_cons_r. by rewrite (live_idle _ [nx]) by (repeat constructor; lia).
Qed.

(** After the segment was expanded the lump and a free lump end it. *)
Lemma up_seg_tail_run h kl a kr c f s ns align flags B :
  let K := mk_ctx kl a [] kr in
  hinv h (plug K [c; f]) B -> Forall no_gap (plug K [c; f]) -> segs h !! length kl = Some s ->
  1 <= c_st c < 3 -> c_st f = 0 -> 0 <= ns -> ns + 43 < 2 ^ 32 ->
  fits_here ns align flags (c_addr c + 8) -> c_addr c + rnd ns <= sg_end s ->
  exists h' L',
    (sg ← get_seg (sg_addr s);
     next ← next_lump (c_addr c);
     _ ← um_assert (negb (next =? sg_end sg));
     nn ← next_lump next;
     _ ← um_assert (nn =? sg_end sg);
     st ← lump_status next;
     _ ← um_assert (st =? UMS_FREE);
     block ← um_lump_expand_up2 (sg_addr s) (c_addr c) next ns align flags;
     _ ← um_assert (negb (block =? 0));
     mret block) h = Done (c_addr c + 8) h'
    /\ moved h (plug K [c; f]) c ns (c_addr c + 8) h' L'.
Proof.
  intros K Hi Hg Hs Hst Hf Hns Hmax Hfit Hend. pose proof (hv_lay _ _ _ Hi) as Hl.
  destruct (place _ _ _ _ Hl Hs) as (lo & hi & [_ _ Rb] & Hok & Ht & Hat & _).
  destruct (place_bounds _ _ _ _ c Hl Hs ltac:(left)) as (F1 & F2 & F3 & F4 & F5 & _).
  destruct (place_bounds _ _ _ _ f Hl Hs ltac:(right; left)) as (G1 & G2 & G3 & G4 & G5 & _).
  apply Forall_cons in Hat as [Hc Hat]. rewrite Forall_singleton in Hat.
  destruct Ht as (<- & _ & _ & Hadr & _ & _ & Hhi). cbn in Hhi, Rb.
  assert (Hne : c_st c <> GAP) by (unfold GAP; lia). assert (Hfe : c_st f <> GAP) by (rewrite Hf; done).
  unfold c_end in *. erewrite run_bind by (by eapply heap_seg_run).
  erewrite run_bind by (by eapply next_lump_run). unfold c_end. rewrite <-Hadr.
  rewrite (proj2 (Z.eqb_neq _ _)) by lia. erewrite run_bind by done.
  erewrite run_bind by (by eapply next_lump_run). unfold c_end. rewrite Hhi, Rb, Z.eqb_refl.
  erewrite run_bind by done. erewrite run_bind by (eapply lump_status_run; [apply Hok|done|rewrite Hf; lia]).
  rewrite Hf. erewrite run_bind by done.
  destruct (expand_up2_moved h K c f s ns align flags B Hi Hg Hs Hst Hf Hns Hmax) as [(_ & [Hlt|Hno])|(h' & L' & R & Hm)];
    [lia|done|].
  exists h', L'. split; [|done]. erewrite run_bind by done. rewrite (proj2 (Z.eqb_neq _ _)) by lia. done.
Qed.

(** A free lump at the end stays one, or becomes longer. *)
Lemma tail_grown_free p xs : c_st p = 0 -> tail_grown p xs -> exists f, xs = [f] /\ c_st f = 0.
Proof.
  intros Hp [->|(n & _ & _ & ->)]; [by exists p|]. unfold grow_tail. rewrite Hp. by eexists.
Qed.

Lemma tail_grown_used p xs : c_st p <> 0 -> tail_grown p xs -> xs = [p] \/ exists f, xs = [p; f] /\ c_st f = 0.
Proof.
  intros Hp [->|(n & _ & _ & ->)]; [by left|right]. unfold grow_tail. rewrite (proj2 (Z.eqb_neq _ _)) by done. by eexists.
Qed.

Lemma expand_up_seg_run e h B s kl a b kr c ns align flags :
  let K := mk_ctx kl a b kr in
  hinv h (plug K [c]) B -> Forall no_gap (plug K [c]) -> segs h !! length kl = Some s ->
  1 <= c_st c < 3 -> 0 <= ns -> ns + 43 < 2 ^ 32 -> c_len c < rnd ns ->
  b = [] \/ (exists nx, b = [nx] /\ c_st nx = 0) -> expand_fresh e h -> offers_ok e h ->
  exists r h', expand_up_seg e (sg_addr s) (c_addr c) ns align flags h = Done r h' /\ up_result e h (plug K [c]) c ns r h'.
Proof.
  intros K Hi Hg Hs Hst Hns Hmax Hlen Hb Hx Hoff. pose proof (hv_lay _ _ _ Hi) as Hl.
  destruct (place_bounds h K [c] s c Hl Hs ltac:(left)) as (F1 & F2 & F3 & F4 & F5 & F6 & F7 & F8).
  assert (Hnone : up_result e h (plug K [c]) c ns 0 h) by (apply up_nothing; [by exists B|done]).
  unfold expand_up_seg. change UM_LUMP_HEADER_SIZE with 8. unfold c_end in *.
  rewrite (u32_small (c_addr c + 8)) by lia.
  destruct (block_suits ns align flags (c_addr c + 8)) eqn:Hfit; cbn [negb]; [|by exists 0, h].
  assert (Hseg : exists p K1, k_b K1 = [] /\ k_r K1 = kr /\ k_l K1 = kl /\ plug K1 [p] = plug K [c]
    /\ forall xs, tail_grown p xs ->
         (exists f, plug K1 xs = plug (mk_ctx kl a [] kr) [c; f] /\ c_st f = 0)
         \/ (b = [] /\ plug K1 xs = plug K [c])).
  { destruct Hb as [->|(nx & -> & Hnx)].
    - exists c, K. split_and!; try done. intros xs Hxs.
      destruct (tail_grown_used c xs ltac:(lia) Hxs) as [->|(f & -> & Hf)]; [by right|left]. by exists f.
    - exists nx, (mk_ctx kl (a ++ [c]) [] kr). split_and!; try done.
      { by rewrite plug_left, <-plug_right. }
      intros xs Hxs. destruct (tail_grown_free nx xs Hnx Hxs) as (f & -> & Hf). left. exists f. split; [by rewrite plug_left|done]. }
  destruct Hseg as (p & [kl1 a1 b1 kr1] & HK & HK' & HK'' & Hplug & Hcase). cbn in HK, HK', HK''. subst b1 kr1 kl1.
  assert (Hi0 := Hi). rewrite <-Hplug in Hi0.
  destruct (expand_seg_run e h B s kl a1 p kr (c_addr c) ns Hi0 ltac:(by rewrite Hplug) Hs Hns Hmax ltac:(lia) F8 Hx Hoff)
    as (bb & h1 & R & B1 & xs & s1 & Hi1 & Htail & Hex & Hoff1 & Hs1 & Haddr & Hend).
  erewrite run_bind by done. rewrite Hplug in Hex. destruct bb; cbn [negb].
  2:{ exists 0, h1. split; [done|]. left. split; [done|]. by eexists. }
  specialize (Hend eq_refl). pose proof (ex_ok _ _ _ _ _ Hex) as [B1' [_ Hg1]].
  destruct (Hcase xs Htail) as [(f & Heq & Hf)|[-> Heq]]; rewrite Heq in *.
  - rewrite <-Haddr. cbn [k_l] in Hs1.
    destruct (up_seg_tail_run h1 kl a kr c f s1 ns align flags B1 Hi1 Hg1 Hs1 Hst Hf Hns Hmax Hfit Hend) as (h2 & L2 & R2 & Hm).
    eexists _, h2. split; [exact R2|]. right. exists L2. by eapply moved_expanded.
  - exfalso. destruct (place h1 K [c] s1 (hv_lay _ _ _ Hi1) Hs1) as (lo & hi & [_ _ Rb] & _ & Ht & _).
    pose proof (tiles_one _ _ _ Ht) as [-> ->]. cbn in Rb. unfold c_end in Rb. lia.
Qed.

Lemma tiles_nil a cs : tiles a cs a -> cs = [].
Proof. intros Ht. destruct cs as [|c cs]; [done|]. apply tiles_le in Ht as [_ Ht]. specialize (Ht ltac:(done)). lia. Qed.

Lemma expand_up_run e h B s kl a b kr c ns align flags :
  let K := mk_ctx kl a b kr in
  hinv h (plug K [c]) B -> Forall no_gap (plug K [c]) -> segs h !! length kl = Some s ->
  1 <= c_st c < 3 -> 0 <= ns -> ns + 43 < 2 ^ 32 -> c_len c < rnd ns -> expand_fresh e h -> offers_ok e h ->
  exists r h', um_lump_expand_up e (sg_addr s) (c_addr c) ns align flags h = Done r h' /\ up_result e h (plug K [c]) c ns r h'.
Proof.
  intros K Hi Hg Hs Hst Hns Hmax Hlen Hx Hoff. pose proof (hv_lay _ _ _ Hi) as Hl.
  destruct (place h K [c] s Hl Hs) as (lo & hi & [_ _ Rb] & Hok & Ht & Hat & _).
  pose proof (tiles_one _ _ _ Ht) as [-> ->]. cbn in Rb. rewrite Forall_singleton in Hat.
  destruct (place_bounds h K [c] s c Hl Hs ltac:(left)) as (F1 & F2 & F3 & F4 & F5 & F6 & F7 & F8).
  assert (Hnone : up_result e h (plug K [c]) c ns 0 h) by (apply up_nothing; [by exists B|done]).
  unfold um_lump_expand_up. erewrite run_bind by (by eapply heap_seg_run).
  erewrite run_bind by (eapply next_lump_run; try done; unfold GAP; lia).
  destruct (Z.eqb_spec (c_end c) (sg_end s)) as [He|He].
  { rewrite <-He in Rb. apply tiles_nil in Rb. eapply expand_up_seg_run; try done. by left. }
  destruct b as [|nx b]; [done|]. set (K2 := mk_ctx kl a b kr).
  assert (Hplug : plug K [c] = plug K2 [c; nx]) by (unfold K; by rewrite plug_cons_r).
  assert (Hi2 := Hi). assert (Hg2 := Hg). rewrite Hplug in Hi2, Hg2.
  destruct (place h K2 [c; nx] s (hv_lay _ _ _ Hi2) Hs) as (lo & hi & [_ _ Rb2] & _ & Ht2 & Hat2 & _).
  destruct (place_bounds h K2 [c; nx] s nx (hv_lay _ _ _ Hi2) Hs ltac:(right; left)) as (G1 & G2 & G3 & G4 & G5 & _).
  apply Forall_cons in Hat2 as [_ Hat2]. rewrite Forall_singleton in Hat2.
  destruct Ht2 as (_ & _ & _ & Hadr & _ & Hgap & Hhi). cbn in Hhi, Rb2.
  assert (Hng : c_st nx <> GAP).
  { apply Forall_plug in Hg2 as (_ & Hm & _). unfold no_gap in Hm. rewrite !Forall_app, !Forall_cons in Hm. tauto. }
  erewrite run_bind by (rewrite <-Hadr; eapply lump_status_run; [apply Hok|done|destruct Hgap; lia]).
  change UMS_FREE with 0. destruct (Z.eqb_spec (c_st nx) 0) as [Hnx|Hnx]; cbn [negb]; [|by exists 0, h].
  rewrite <-Hadr.
  destruct (expand_up2_moved h K2 c nx s ns align flags B Hi2 Hg2 Hs Hst Hnx Hns Hmax) as [[R _]|(h' & L' & R & Hm)].
  - erewrite run_bind by done. cbn [Z.eqb negb].
    erewrite run_bind by (by eapply next_lump_run). rewrite Hhi.
    destruct (Z.eqb_spec hi (sg_end s)) as [He2|He2]; cbn [negb]; [|by exists 0, h].
    rewrite <-He2 in Rb2. apply tiles_nil in Rb2. subst b. eapply expand_up_seg_run; try done. right. by exists nx.
  - erewrite run_bind by done. rewrite (proj2 (Z.eqb_neq (c_addr c + 8) 0)) by lia. cbn [negb].
    exists (c_addr c + 8), h'. split; [done|]. right. rewrite Hplug. by exists L'.
Qed.

(** [_um_lump_expand_down] *)
Lemma expand_down_run h B s kl a b kr c ns align flags :
  let K := mk_ctx kl a b kr in
  hinv h (plug K [c]) B -> Forall no_gap (plug K [c]) -> segs h !! length kl = Some s ->
  1 <= c_st c < 3 -> 0 <= ns -> ns + 43 < 2 ^ 32 -> c_size c <= ns ->
  um_lump_expand_down (sg_addr s) (c_addr c) ns align flags h = Done 0 h
  \/ exists r h' L', um_lump_expand_down (sg_addr s) (c_addr c) ns align flags h = Done r h' /\ moved h (plug K [c]) c ns r h' L'.
Proof.
  intros K Hi Hg Hs Hst Hns Hmax Hle. pose proof (hv_lay _ _ _ Hi) as Hl.
  destruct (place h K [c] s Hl Hs) as (lo & hi & [_ Ra _] & Hok & Ht & Hat & _).
  pose proof (tiles_one _ _ _ Ht) as [-> ->]. cbn in Ra. rewrite Forall_singleton in Hat.
  destruct (place_bounds h K [c] s c Hl Hs ltac:(left)) as (F1 & F2 & F3 & F4 & F5 & F6 & F7 & F8).
  destruct (cell_known _ _ _ Hat) as (M1 & M2 & _); [unfold GAP; lia|].
  unfold um_lump_expand_down. erewrite run_bind by (by eapply heap_seg_run).
  destruct (Z.eqb_spec (c_addr c) (sg_start s)) as [|Hne]; [by left|].
  destruct a as [|p a _] using rev_ind; [by cbn in Ra|]. set (K2 := mk_ctx kl a b kr).
  assert (Hplug : plug K [c] = plug K2 [p; c]) by (unfold K; by rewrite plug_left).
  assert (Hi2 := Hi). assert (Hg2 := Hg). rewrite Hplug in Hi2, Hg2.
  destruct (place h K2 [p; c] s (hv_lay _ _ _ Hi2) Hs) as (lo & hi & _ & _ & Ht2 & Hat2 & _).
  destruct (place_bounds h K2 [p; c] s p (hv_lay _ _ _ Hi2) Hs ltac:(left)) as (G1 & G2 & G3 & G4 & G5 & _).
  apply Forall_cons in Hat2 as [Hpat _]. destruct Ht2 as (_ & _ & Hgap & Hadr & _).
  assert (Hng : c_st p <> GAP).
  { apply Forall_plug in Hg2 as (_ & Hm & _). unfold no_gap in Hm. rewrite !Forall_app, !Forall_cons in Hm. tauto. }
  destruct (cell_known _ _ _ Hpat Hng) as (N1 & _).
  erewrite run_bind by (rewrite Hadr; by eapply prev_lump_run).
  erewrite run_bind by (eapply lump_status_run; [apply Hok|done|destruct Hgap; lia]).
  change UMS_FREE with 0. destruct (Z.eqb_spec (c_st p) 0) as [Hp|Hp]; cbn [negb]; [|by left].
  erewrite run_bind by (by apply ld_run). erewrite run_bind by (by apply ld_run).
  rewrite !round_lump by lia. change (rnd (c_size c)) with (c_len c). change (rnd (c_size p)) with (c_len p).
  unfold c_end in *. rewrite (u32_small (c_len c + c_len p)) by lia.
  destruct (Z.ltb_spec (c_len c + c_len p) (rnd ns)) as [|Hroom]; [by left|].
  change UM_LUMP_HEADER_SIZE with 8. rewrite !(u32_small (_ + 8)) by lia.
  destruct (block_suits ns align flags (c_addr p + 8)); cbn [negb]; [|by left]. right.
  destruct (expand_down2_run h K2 p c s ns B Hi2 Hg2 Hs Hst Hp Hle Hroom) as (h' & L' & R & Hok' & Hlive & Htop & Hk & Hd).
  exists (c_addr p + 8), h', L'. split.
  - rewrite (u32_small (c_addr p + rnd ns)) by (pose proof (rnd_pos ns Hns); lia). revert R.
    generalize (um_lump_unlink_heap (c_addr p)). intros m. unfold mbind, M_bind. destruct (m h) as [? h1| |]; try done.
    destruct (ld m_parent (c_addr c) h1) as [? h2| |]; try done. destruct (mmod _ h2) as [? h3| |]; try done.
    destruct (memmove _ _ _ h3) as [? h4| |]; try done. destruct (um_lump_set_size _ _ h4) as [? h5| |]; try done.
    by intros ->.
  - pose proof Htop as [T1 T2 T3 T4 T5 T6 T7]. constructor; [done|lia| |intros i Hir; apply Hd; lia|done..].
    exists (live (plug K2 [])). split; [|split; [|done]].
    + rewrite Hplug. assert (plug K2 [p; c] = plug (mk_ctx kl (a ++ [p]) b kr) [c]) as -> by (by rewrite plug_left).
      etrans; [apply live_cons; lia|]. by rewrite plug_left, (live_idle _ ([p] ++ [])) by (repeat constructor; lia).
    + by replace (c_addr p + 8 - 8) with (c_addr p) by lia.
Qed.

(** ** Moving the block *)

Lemma rnd_mono x y : rnd x < rnd y -> x < y.
Proof. unfold rnd. intros Hlt. destruct (Z_lt_ge_dec x y); [done|]. pose proof (Z.div_le_mono (y + 43) (x + 43) 32). lia. Qed.

Lemma in_use_same h h' s s' c : in_use h s c -> in_use h' s' c -> kept h h' [c] -> sg_addr s' = sg_addr s.
Proof.
  intros [_ U2 _ U4 _ U6 U7 U8 _ _] [_ V2 _ V4 _ _ _ _ _ _] Hk.
  pose proof (rnd_pos _ U8). destruct (Hk c (c_addr c) ltac:(left)) as [_ Hp _ _ _ _ _ _]; [unfold c_end, c_len; lia|].
  rewrite Hp, U4 in V4. injection V4 as V4. rewrite !parent_word in V4 by (apply U2 || apply V2 || lia). lia.
Qed.

Lemma live_fresh h L d l : heap_ok h L -> live L ≡ₚ d :: l -> d ∉ l.
Proof.
  intros (B & Hi & _) Hl Hd. assert (Hin : d ∈ live L) by (rewrite Hl; left).
  apply elem_of_live in Hin as [Hst Hin]. apply plug_of in Hin as [K ->].
  assert (Hp : l ≡ₚ live (plug K [])) by (apply (Permutation_cons_inv (a := d)); by rewrite <-Hl, live_cons).
  rewrite Hp in Hd. apply elem_of_live in Hd as [_ [Hd|Hd]%elem_of_plug]; [by apply elem_of_nil in Hd|].
  by eapply not_in_others; [apply (hv_lay _ _ _ Hi)|..].
Qed.

(** The copy of a block into a new one. *)
Lemma copy_block_run h L c d n :
  heap_ok h L -> c ∈ live L -> d ∈ live L -> c <> d -> n <= c_size d -> n <= c_size c ->
  let h' := copy (c_addr d + 8) (c_addr c + 8) n h in
  heap_ok h' L /\ (forall cs, cs ⊆ live L -> d ∉ cs -> kept h h' cs)
  /\ forall i, 0 <= i < n -> m_data h' (c_addr d + 8 + i) = m_data h (c_addr c + 8 + i).
Proof.
  intros Hok Hc Hd Hne Hn Hm h'. split; [by eapply same_meta_ok; [apply data_meta|]|]. split.
  - intros cs Hcs Hdn. apply copy_kept. intros x a Hxc Ha. specialize (Hcs x Hxc) as Hx. pose proof (rnd_bounds (c_size d)). unfold c_end, c_len in *.
    destruct (live_apart h L x d Hok Hx Hd) as [->|[Hlt|Hlt]]; [done|unfold c_end, c_len in Hlt; lia..].
  - intros i Hi. by apply copy_read.
Qed.

Lemma lump_move_run e h L c s k flags ns :
  heap_ok h L -> host_ok e h L -> c ∈ live L -> c_st c = UMS_USER -> in_use h s c ->
  0 <= k <= 16 -> has_bits flags UMFI_CRATE = false -> c_size c <= ns < 2 ^ 32 ->
  exists r h',
    (r ← um_lump_alloc e ns (2 ^ k) flags;
     _ ← mwhen (negb (r =? 0))
           (ls ← ld m_size (c_addr c);
            _ ← memmove r (c_addr c + 8) ls;
            um_lump_free_no_lock (sg_addr s) (c_addr c));
     mret r) h = Done r h' /\
    ((r = 0 /\ (has_bits flags UMFI_TILED = false -> no_memory e ns (2 ^ k) h L) /\ exists L', expanded h L h' L' 2)
     \/ exists L', moved h L c ns r h' L').
Proof.
  intros Hok Hho Hc Hst Hu Hk Hcr Hns. pose proof (iu_sz _ _ _ Hu) as Hsz.
  destruct (lump_alloc_run e ns k flags h L Hok Hho ltac:(lia) Hk) as (r & h2 & h1 & L1 & R & Hex & [(-> & -> & Hno)|(L2 & Hal)]).
  { exists 0, h1. split; [by erewrite run_bind by done|]. left. split; [done|]. split; [done|]. by exists L1. }
  pose proof Hex as [E1 E2 E3 E4 E5 E6 E7 E8]. pose proof Hal as [A1 A2 A3 A4 A5 A6 [T1 T2 T3 T4 T5 T6 T7] A8].
  set (d := mk_cell (r - 8) ns (user_st flags)) in *.
  assert (Hc1 : c ∈ live L1) by (by rewrite E2).
  assert (Hd2 : d ∈ live L2) by (rewrite A2; left). assert (Hc2 : c ∈ live L2) by (rewrite A2; by right).
  assert (Hdst : c_st d = c_st c) by (rewrite Hst; cbn; unfold user_st; by rewrite Hcr).
  assert (Hd1 : d ∉ live L1) by (by eapply live_fresh).
  assert (Hne : c <> d) by congruence.
  destruct (copy_block_run h2 L2 c d (c_size c) A1 Hc2 Hd2 Hne) as (Hok3 & Hk3 & Hd3); [cbn; lia|lia|].
  set (h3 := copy (c_addr d + 8) (c_addr c + 8) (c_size c) h2) in *.
  assert (Hk13 : kept h h3 (live L)).
  { eapply kept_trans; [exact E3|]. rewrite <-E2. eapply kept_trans; [exact A8|]. apply Hk3; [|done].
    rewrite A2. by apply list_subseteq_cons. }
  destruct (lump_free_run h3 L2 c Hok3 Hc2) as (s' & h4 & L4 & Hu' & R4 & Hok4 & Hl4 & Hc4 & Hk4).
  assert (Hs' : sg_addr s' = sg_addr s).
  { eapply in_use_same; [done|done|]. eapply kept_incl; [exact Hk13|]. intros x ->%list_elem_of_singleton. done. }
  exists r, h4. split.
  - erewrite run_bind by done. rewrite (proj2 (Z.eqb_neq r 0)) by lia. cbn [negb mwhen].
    erewrite run_bind; [done|]. erewrite run_bind by (apply ld_run; apply (iu_size _ _ _ Hu')).
    erewrite run_bind by apply memmove_run. replace r with (c_addr d + 8) by (cbn; lia). fold h3. by rewrite <-Hs'.
  - right. exists L4. destruct Hc4 as [C1 C2 C3 C4 C5 C6 C7 C8].
    pose proof Hc as [R' HR]%elem_of_Permutation.
    assert (HR4 : live L4 ≡ₚ d :: R').
    { apply (Permutation_cons_inv (a := c)). rewrite <-Hl4, A2, E2, HR. by constructor. }
    constructor; [done|done| | |cbn in *; congruence..].
    + exists R'. split; [done|]. split; [by rewrite HR4, <-Hdst|].
      eapply kept_trans; [eapply kept_incl; [exact Hk13|]|eapply kept_incl; [exact Hk4|]].
      * rewrite HR. by apply list_subseteq_cons.
      * rewrite HR4. by apply list_subseteq_cons.
    + intros i Hi. rewrite C8. replace (r + i) with (c_addr d + 8 + i) by (cbn; lia). rewrite Hd3 by lia.
      pose proof (rnd_bounds (c_size c)).
      destruct (A8 c (c_addr c + 8 + i)) as [_ _ _ _ _ _ _ ->]; [by rewrite E2|unfold c_end, c_len; lia|]. by rewrite E8.
Qed.

(** ** [_um_lump_realloc] *)

(** The host of a call that resizes a block. *)
Record realloc_host (e : host) (h : heap) (L : list (list cell)) : Prop := mk_realloc_host {
  rh_fuel : (3 + length (concat L) <= fuel e)%nat;
  rh_offers : offers_ok e h;
  rh_apart : areas_apart (mem1 e) (mem2 e);
  rh_expand : expand_fresh e h
}.

Lemma realloc_host_fsem e n h L : realloc_host e h L -> realloc_host e (set_fsem n h) L.
Proof.
  assert (Hfr : forall m, area_fresh m h -> area_fresh m (set_fsem n h)).
  { intros [[[a k] cl]|]; [|done]. cbn. by intros []. }
  intros [F1 [F2 F3] F4 F5]. constructor; [done|split; auto|done|exact F5].
Qed.

(** The block does not get longer than its lump. *)
Lemma settle_moved h K c s ns B :
  hinv h (plug K [c]) B -> Forall no_gap (plug K [c]) -> segs h !! length (k_l K) = Some s -> in_use h s c ->
  0 <= ns -> rnd ns <= c_len c ->
  exists h1 h', um_lump_set_size (c_addr c) ns h = Done () h1
    /\ (rnd ns < c_len c -> um_lump_coalesce_free (c_addr c + rnd ns) (sg_addr s) (c_len c - rnd ns) h1 = Done () h')
    /\ (rnd ns = c_len c -> h' = h1)
    /\ exists L', moved h (plug K [c]) c ns (c_addr c + 8) h' L'.
Proof.
  intros Hi Hg Hs [U1 U2 U3 U4 U5 U6 U7 U8 U9 U10] Hns Hle.
  destruct (place h K [c] s (hv_lay _ _ _ Hi) Hs) as (lo & hi & _ & _ & Ht & _).
  pose proof (tiles_one _ _ _ Ht) as [-> ->].
  destruct (settle_run h K [c] s (c_addr c) (c_len c) ns (c_st c) B Hi Hs) as (h1 & h' & L' & R1 & R2 & R3 & Hok & Hl & Hc & Hk);
    try done; try lia; try apply rnd_mod.
  { constructor; [lia|done]. } { by eapply no_gap_out. }
  exists h1, h'. split_and!; [done|done|done|]. exists L'. eapply moved_in_place; [|lia|done..].
  apply live_cons. lia.
Qed.

(** The same size. *)
Lemma moved_same h L c : heap_ok h L -> c ∈ live L -> 0 <= c_addr c -> moved h L c (c_size c) (c_addr c + 8) h L.
Proof.
  intros Hok Hc H0. constructor; try done; [lia|]. apply elem_of_Permutation in Hc as [R HR].
  exists R. split; [done|]. split; [|done]. rewrite HR. replace (c_addr c + 8 - 8) with (c_addr c) by lia. by destruct c.
Qed.

(** Growing: up, then down, then elsewhere. *)
Definition grow_failed (e : host) (h : heap) (L : list (list cell)) (ns m flags : Z) : Prop :=
  exists h1 L1, expanded h L h1 L1 1 /\ (has_bits flags UMFI_TILED = false -> no_memory e ns m h1 L1).

Lemma up_only_run e h L c s k flags ns :
  heap_ok h L -> realloc_host e h L -> c ∈ live L -> c_st c = UMS_USER -> in_use h s c ->
  0 <= ns -> ns + 43 < 2 ^ 32 -> c_len c < rnd ns ->
  exists r h', um_lump_expand_up e (sg_addr s) (c_addr c) ns (2 ^ k) flags h = Done r h' /\ up_result e h L c ns r h'.
Proof.
  intros Hok [_ F2 _ F4] Hc Hst Hu Hns Hmax Hlen.
  destruct (live_setup h L c Hok Hc) as ([kl a b kr] & s0 & B & -> & Hi & Hg & Hs & Hu0). cbn [k_l] in Hs.
  rewrite <-(in_use_same h h s s0 c Hu Hu0 (kept_refl _ _)).
  eapply expand_up_run; try done. rewrite Hst. done.
Qed.

Lemma down_or_move_run e h L c s k flags ns :
  heap_ok h L -> host_ok e h L -> c ∈ live L -> c_st c = UMS_USER -> in_use h s c -> 0 <= k <= 16 ->
  has_bits flags UMFI_CRATE = false -> 0 <= ns -> ns + 43 < 2 ^ 32 -> c_len c < rnd ns ->
  exists r h',
    (r ← um_lump_expand_down (sg_addr s) (c_addr c) ns (2 ^ k) flags;
     if r =? 0 then
       r ← um_lump_alloc e ns (2 ^ k) flags;
       _ ← mwhen (negb (r =? 0))
             (ls ← ld m_size (c_addr c);
              _ ← memmove r (c_addr c + 8) ls;
              um_lump_free_no_lock (sg_addr s) (c_addr c));
       mret r
     else mret r) h = Done r h' /\
    ((r = 0 /\ (has_bits flags UMFI_TILED = false -> no_memory e ns (2 ^ k) h L) /\ exists L', expanded h L h' L' 2)
     \/ exists L', moved h L c ns r h' L').
Proof.
  intros Hok Hho Hc Hst Hu Hk Hcr Hns Hmax Hlen. apply rnd_mono in Hlen as Hlt.
  destruct (live_setup h L c Hok Hc) as ([kl a b kr] & s0 & B & Heq & Hi & Hg & Hs & Hu0). cbn [k_l] in Hs.
  pose proof (in_use_same h h s s0 c Hu Hu0 (kept_refl _ _)) as Hss.
  destruct (expand_down_run h B s0 kl a b kr c ns (2 ^ k) flags Hi Hg Hs ltac:(by rewrite Hst) Hns Hmax ltac:(lia))
    as [R|(r & h' & L' & R & Hm)]; rewrite Hss in R.
  - destruct (lump_move_run e h L c s k flags ns Hok Hho Hc Hst Hu Hk Hcr ltac:(lia)) as (r & h' & R2 & Hres).
    exists r, h'. split; [|done]. by erewrite run_bind by done.
  - exists r, h'. pose proof (mv_pos _ _ _ _ _ _ _ Hm). split; [|right; rewrite Heq; by exists L'].
    erewrite run_bind by done. by rewrite (proj2 (Z.eqb_neq r 0)) by lia.
Qed.

(** What a resize of the block [c] gives, in the locked heap. *)
Definition resized (e : host) (h : heap) (L : list (list cell)) (c : cell) (ns m flags r : Z) (h' : heap) : Prop :=
  (exists L', moved h L c ns r h' L')
  \/ (r = 0 /\ c_len c < rnd ns /\ (exists L', expanded h L h' L' 3)
      /\ (has_bits flags UMFI_NOMOVE = false -> grow_failed e h L ns m flags)).

Lemma resized_fsem e h L c ns m flags r h' : resized e h L c ns m flags r h' -> fsem h' = fsem h.
Proof. intros [(L' & Hm)|(_ & _ & (L' & Hex) & _)]; [apply Hm|apply Hex]. Qed.

Lemma grow_run e h L c s k flags ns :
  heap_ok h L -> realloc_host e h L -> c ∈ live L -> c_st c = UMS_USER -> in_use h s c -> 0 <= k <= 16 ->
  has_bits flags UMFI_CRATE = false -> 0 <= ns -> ns + 43 < 2 ^ 32 -> c_len c < rnd ns -> 0 < fsem h ->
  exists r h1,
    (r ← um_lump_expand_up e (sg_addr s) (c_addr c) ns (2 ^ k) flags;
     if has_bits flags UMFI_NOMOVE then mret r
     else
       r ← (if r =? 0 then um_lump_expand_down (sg_addr s) (c_addr c) ns (2 ^ k) flags else mret r);
       r ← (if r =? 0 then
              r ← um_lump_alloc e ns (2 ^ k) flags;
              _ ← mwhen (negb (r =? 0))
                    (ls ← ld m_size (c_addr c);
                     _ ← memmove r (c_addr c + 8) ls;
                     um_lump_free_no_lock (sg_addr s) (c_addr c));
              mret r
            else mret r);
       _ ← heap_unlock; mret r) h = Done r (if has_bits flags UMFI_NOMOVE then h1 else set_fsem (fsem h1 - 1) h1)
    /\ resized e h L c ns (2 ^ k) flags r h1.
Proof.
  intros Hok Hrh Hc Hst Hu Hk Hcr Hns Hmax Hlen Hfs.
  destruct (up_only_run e h L c s k flags ns Hok Hrh Hc Hst Hu Hns Hmax Hlen) as (r & h1 & R & Hup).
  destruct Hup as [(-> & L1 & Hex & Hoff)|[L1 Hm]].
  2:{ exists r, h1. split; [|left; by exists L1]. erewrite run_bind by done.
      destruct (has_bits flags UMFI_NOMOVE); [done|]. pose proof (mv_pos _ _ _ _ _ _ _ Hm).
      rewrite (proj2 (Z.eqb_neq r 0)) by lia. erewrite run_bind by done. rewrite (proj2 (Z.eqb_neq r 0)) by lia.
      erewrite run_bind by done. erewrite run_bind by (apply heap_unlock_run; rewrite (mv_fsem _ _ _ _ _ _ _ Hm); lia). done. }
  destruct (has_bits flags UMFI_NOMOVE) eqn:Hnm.
  { exists 0, h1. split; [by erewrite run_bind by done|]. right. split_and!; try done; [|congruence].
    exists L1. destruct Hex. constructor; (done || lia). }
  pose proof Hex as [E1 E2 E3 E4 E5 E6 E7 E8]. assert (Hc1 : c ∈ live L1) by (by rewrite E2).
  destruct (live_setup h1 L1 c E1 Hc1) as (_ & s1 & _ & _ & _ & _ & _ & Hu1).
  assert (Hss : sg_addr s1 = sg_addr s).
  { eapply in_use_same; [done|done|]. eapply kept_incl; [exact E3|]. by intros x ->%list_elem_of_singleton. }
  assert (Hho : host_ok e h1 L1).
  { destruct Hrh as [F1 F2 F3 F4], Hoff. constructor; (done || lia). }
  destruct (down_or_move_run e h1 L1 c s1 k flags ns E1 Hho Hc1 Hst Hu1 Hk Hcr Hns Hmax Hlen) as (r & h2 & R2 & Hres).
  rewrite Hss in R2. exists r, h2.
  assert (Hf2 : fsem h2 = fsem h1) by (destruct Hres as [(_ & _ & L' & Hx)|[L' Hx]]; apply Hx).
  split.
  - erewrite run_bind by done. cbn [Z.eqb].
    revert R2. unfold mbind, M_bind. destruct (um_lump_expand_down _ _ _ _ _ h1) as [x h3| |]; try done.
    destruct (x =? 0); intros R2.
    + rewrite R2. rewrite heap_unlock_run by lia. done.
    + injection R2 as -> ->. cbn. rewrite heap_unlock_run by lia. done.
  - destruct Hres as [(-> & Hno & L2 & Hex2)|[L2 Hm]]; [right|left].
    + split_and!; [done|done|exists L2; by apply (expanded_trans _ _ _ _ _ _ 1 2 Hex Hex2)|].
      intros _. exists h1, L1. done.
    + exists L2. by eapply moved_expanded.
Qed.

Definition full_flags (h : heap) (flags : Z) : Z := if has_bits (htype h) HEAP_TILED then Z.lor flags UMFI_TILED else flags.

Lemma full_flags_bits h flags m : Z.land UMFI_TILED m = 0 -> has_bits (full_flags h flags) m = has_bits flags m.
Proof.
  intros Hm. unfold full_flags. destruct (has_bits (htype h) _); [|done]. unfold has_bits. by rewrite Z.land_lor_distr_l, Hm, Z.lor_0_r.
Qed.

(** Growth that may not move the block does not unlock the heap. *)
Definition stays_locked (c : cell) (ns flags : Z) : bool := has_bits flags UMFI_NOMOVE && (c_len c <? rnd ns).

Lemma lump_realloc_run e h L c s k flags ns :
  heap_ok h L -> realloc_host e h L -> c ∈ live L -> c_st c = UMS_USER -> in_use h s c -> 0 <= k <= 16 ->
  has_bits flags UMFI_CRATE = false -> 0 <= ns < 2 ^ 32 -> 0 <= fsem h ->
  (um_lump_realloc e (sg_addr s) (c_addr c) ns (2 ^ k) flags h = Done 0 h /\ 2 ^ 32 <= ns + 43)
  \/ exists r h1,
      um_lump_realloc e (sg_addr s) (c_addr c) ns (2 ^ k) flags h
        = Done r (if stays_locked c ns flags then h1 else set_fsem (fsem h1 - 1) h1)
      /\ resized e (set_fsem (fsem h + 1) h) L c ns (2 ^ k) (full_flags h flags) r h1.
Proof.
  intros Hok Hrh Hc Hst Hu Hk Hcr Hns Hf. unfold um_lump_realloc. rewrite round_overflow by done.
  destruct (Z.leb_spec (2 ^ 32) (ns + 43)) as [Hov|Hov]; [by left|right].
  set (h0 := set_fsem (fsem h + 1) h).
  assert (Hok0 : heap_ok h0 L) by (by apply fsem_ok).
  pose proof (realloc_host_fsem e (fsem h + 1) h L Hrh) as Hrh0. fold h0 in Hrh0.
  destruct (live_setup h0 L c Hok0 Hc) as ([kl a b kr] & s0 & B & -> & Hi & Hg & Hs & Hu0). cbn [k_l] in Hs.
  assert (Hss : sg_addr s0 = sg_addr s) by (eapply (in_use_same h h0); [done|done|by intros x y _ _; constructor]).
  pose proof Hu0 as [U1 U2 U3 U4 U5 U6 U7 U8 U9 U10]. pose proof (rnd_bounds (c_size c)) as Hrc.
  pose proof (rnd_bounds ns). pose proof (rnd_pos ns ltac:(lia)). unfold c_end, c_len in U9.
  erewrite run_bind by apply heap_lock_run. fold h0. erewrite run_bind by done. fold (full_flags h0 flags).
  erewrite run_bind by (by apply ld_run). rewrite !round_lump by lia. change (rnd (c_size c)) with (c_len c) in *.
  change UM_LUMP_HEADER_SIZE with 8. rewrite (u32_small (c_addr c + 8)) by lia.
  destruct (Z.ltb_spec (rnd ns) (c_len c)) as [Hlt|Hge]; [|rewrite Z.gtb_ltb; destruct (Z.ltb_spec (c_len c) (rnd ns)) as [Hgt|Heq]].
  - (* shrink *)
    rewrite (u32_small (c_addr c + rnd ns)) by lia.
    destruct (settle_moved h0 (mk_ctx kl a b kr) c s0 ns B Hi Hg Hs Hu0 ltac:(lia) ltac:(lia)) as (h1 & h2 & R1 & R2 & _ & L' & Hm).
    exists (c_addr c + 8), h2. split; [|left; by exists L'].
    erewrite run_bind by done. change UM_PAGE_SIZE with 32. rewrite mod32_sub by apply rnd_mod.
    erewrite run_bind by done. rewrite <-Hss. erewrite run_bind by (by apply R2).
    erewrite run_bind by (apply heap_unlock_run; rewrite (mv_fsem _ _ _ _ _ _ _ Hm); cbn; lia).
    unfold stays_locked. rewrite (proj2 (Z.ltb_ge (c_len c) (rnd ns))) by lia. by rewrite andb_false_r.
  - (* grow *)
    assert (Hnm : has_bits (full_flags h0 flags) UMFI_NOMOVE = has_bits flags UMFI_NOMOVE) by (by apply full_flags_bits).
    destruct (grow_run e h0 _ c s0 k (full_flags h0 flags) ns Hok0 Hrh0 Hc Hst Hu0 Hk) as (r & h1 & R & Hres);
      [by rewrite full_flags_bits|lia|lia|done|cbn; lia|].
    exists r, h1. split; [|done]. rewrite Hss in R. unfold stays_locked. rewrite (proj2 (Z.ltb_lt _ _) Hgt), andb_true_r, <-Hnm.
    exact R.
  - (* the same number of pages *)
    destruct (settle_moved h0 (mk_ctx kl a b kr) c s0 ns B Hi Hg Hs Hu0 ltac:(lia) ltac:(lia)) as (h1 & h2 & R1 & _ & R3 & L' & Hm).
    unfold stays_locked. rewrite (proj2 (Z.ltb_ge (c_len c) (rnd ns))) by lia. rewrite andb_false_r.
    destruct (Z.eqb_spec (c_size c) ns) as [<-|Hsz]; cbn [negb mwhen].
    + exists (c_addr c + 8), h0. split; [|left; eexists; apply moved_same; [done|done|lia]].
      erewrite run_bind by done. by erewrite run_bind by (apply heap_unlock_run; cbn; lia).
    + exists (c_addr c + 8), h2. split; [|left; by exists L'].
      erewrite run_bind by done. rewrite <-R3 by lia.
      by erewrite run_bind by (apply heap_unlock_run; rewrite (mv_fsem _ _ _ _ _ _ _ Hm); cbn; lia).
Qed.
