(* ===== verification/HeapSystem.v ===== *)
(** The heap as its users see it: blocks of bytes at addresses. The abstract
    allocator, its relation to the heap, and the functions of the library as
    steps of the abstract allocator. *)

From S2P Require Import Prelude Heap HeapFacts HeapBuckets HeapLumps HeapOps HeapAlloc HeapExpand HeapApi HeapRealloc.

(** ** The abstract allocator *)

(** The blocks in use and their bytes. *)
Abbreviation blocks := (gmap Z (list Z)).

Inductive op :=
  | OMalloc (size : Z)
  | OCalloc (count size : Z)
  | OFree (b : Z)
  | ORealloc (b size : Z)
  | OWrite (b i v : Z).

(** [size] bytes at [r], with the eight bytes before them, are not of any block. *)
Definition fresh_block (A : blocks) (r size : Z) : Prop :=
  8 < r /\ r mod 4 = 0 /\ forall b bs, A !! b = Some bs -> r + size <= b - 8 \/ b + Z.of_nat (length bs) <= r - 8.

Definition same_prefix (n : nat) (bs bs' : list Z) : Prop := forall i, (i < n)%nat -> bs !! i = bs' !! i.

Inductive astep (A : blocks) : op -> option Z -> blocks -> Prop :=
  | as_malloc size r bs :
      fresh_block A r size -> Z.of_nat (length bs) = size -> astep A (OMalloc size) (Some r) (<[r := bs]> A)
  | as_malloc_null size : astep A (OMalloc size) None A
  | as_calloc count size r :
      fresh_block A r (count * size) -> astep A (OCalloc count size) (Some r) (<[r := replicate (Z.to_nat (count * size)) 0]> A)
  | as_calloc_null count size : astep A (OCalloc count size) None A
  | as_free b : is_Some (A !! b) -> astep A (OFree b) None (delete b A)
  | as_realloc b size r bs bs' :
      A !! b = Some bs -> fresh_block (delete b A) r size -> Z.of_nat (length bs') = size ->
      same_prefix (Nat.min (length bs) (length bs')) bs bs' ->
      astep A (ORealloc b size) (Some r) (<[r := bs']> (delete b A))
  | as_realloc_null b size : is_Some (A !! b) -> astep A (ORealloc b size) None A
  | as_realloc_free b : is_Some (A !! b) -> astep A (ORealloc b 0) None (delete b A)
  | as_write b i v bs :
      A !! b = Some bs -> 0 <= i < Z.of_nat (length bs) -> astep A (OWrite b i v) None (<[b := <[Z.to_nat i := v]> bs]> A).

(** ** The operations of the heap *)

Definition null_result (m : outcome heap Z) : outcome heap (option Z) :=
  match m with
  | Done r h => Done (if r =? 0 then None else Some r) h
  | Err _ h => Done None h
  | Fault f => Fault f
  end.

Definition run_op (e : host) (o : op) (h : heap) : outcome heap (option Z) :=
  match o with
  | OMalloc size => null_result (umalloc e size h)
  | OCalloc count size => null_result (ucalloc e count size h)
  | OFree b => null_result ((_ ← free (fuel e) b; mret 0) h)
  | ORealloc b size => null_result (realloc e b size h)
  | OWrite b i v => Done None (set_data (fun x => if x =? b + i then v else m_data h x) h)
  end.

(** What the caller has to respect. Requests small enough for a crumb are not
    considered. *)
Definition op_ok (A : blocks) (o : op) : Prop :=
  match o with
  | OMalloc size => 20 < size < 2 ^ 32
  | OCalloc count size => 0 <= count < 2 ^ 32 /\ 0 <= size < 2 ^ 32 /\ (u32 (count * size) = count * size -> 20 < count * size)
  | OFree b => is_Some (A !! b)
  | ORealloc b size => is_Some (A !! b) /\ 0 <= size < 2 ^ 32
  | OWrite b i v => exists bs, A !! b = Some bs /\ 0 <= i < Z.of_nat (length bs)
  end.

Definition read (h : heap) (b n : Z) : list Z := (fun i => m_data h (b + i)) <$> zrange 0 (Z.to_nat n).

(** The blocks after an operation. *)
Definition after (A : blocks) (o : op) (r : option Z) (h' : heap) : blocks :=
  match o, r with
  | OMalloc size, Some r => <[r := read h' r size]> A
  | OCalloc count size, Some r => <[r := read h' r (count * size)]> A
  | OFree b, _ => delete b A
  | ORealloc b size, Some r => <[r := read h' r size]> (delete b A)
  | ORealloc b size, None => if size =? 0 then delete b A else A
  | OWrite b _ _, _ => match A !! b with Some bs => <[b := read h' b (Z.of_nat (length bs))]> A | None => A end
  | _, None => A
  end.

(** ** The heap shows the blocks *)

Definition shows (h : heap) (cs : list cell) (A : blocks) : Prop :=
  forall b bs, A !! b = Some bs <-> exists c, c ∈ cs /\ b = c_addr c + 8 /\ bs = read h b (c_size c).

Definition pages (h : heap) : Z := foldr (fun s n => (sg_end s - sg_start s) / 32 + n) 0 (segs h).

(** The host of a call. *)
Record env_ok (e : host) (h : heap) : Prop := mk_env_ok {
  en_fuel : 3 + pages h <= Z.of_nat (fuel e);
  en_offers : offers_ok e h;
  en_apart : areas_apart (mem1 e) (mem2 e);
  en_expand : expand_fresh e h
}.

Record rel (h : heap) (L : list (list cell)) (A : blocks) : Prop := mk_rel {
  rl_ok : heap_ok h L;
  rl_user : forall c, c ∈ live L -> c_st c = UMS_USER;
  rl_shows : shows h (live L) A;
  rl_fsem : fsem h = 0;
  rl_large : forall c, last (cratesets h) = Some c -> cs_crumb_size c <= 20
}.

(** The heaps the operations lead to. *)
Inductive reach : heap -> blocks -> Prop :=
  | reach_init sizeof_uheap memory size clean type p h :
      0 < memory -> 0 < sizeof_uheap -> sizeof_uheap < size - 3 -> memory + size < 2 ^ 32 ->
      ucreate2 sizeof_uheap memory size clean type = Done (Some p) h -> reach h ∅
  | reach_step h A e o r h' :
      reach h A -> env_ok e h -> op_ok A o -> run_op e o h = Done r h' -> reach h' (after A o r h').

(** ** Blocks of a layout *)

Lemma length_read h b n : 0 <= n -> Z.of_nat (length (read h b n)) = n.
Proof. intros Hn. unfold read. rewrite length_fmap, length_zrange. lia. Qed.

Lemma read_lookup h b n i : (i < Z.to_nat n)%nat -> read h b n !! i = Some (m_data h (b + Z.of_nat i)).
Proof.
  intros Hi. unfold read, zrange. rewrite !list_lookup_fmap, lookup_seq_lt by done. done.
Qed.

Lemma read_ext h h' b b' n : (forall i, 0 <= i < n -> m_data h' (b' + i) = m_data h (b + i)) -> read h' b' n = read h b n.
Proof.
  intros He. unfold read. apply list_fmap_ext. intros j x Hx.
  apply list_elem_of_lookup_2, elem_of_zrange in Hx. apply He. lia.
Qed.

Lemma live_cell h L c : heap_ok h L -> c ∈ live L -> 56 <= c_addr c /\ 0 <= c_size c /\ c_end c < 2 ^ 32 /\ c_addr c mod 32 = 24.
Proof.
  intros Hok Hc. destruct (live_setup h L c Hok Hc) as (_ & s & _ & _ & _ & _ & _ & []). done.
Qed.

Lemma shows_perm h cs cs' A : cs ≡ₚ cs' -> shows h cs A -> shows h cs' A.
Proof. intros Hp Hs b bs. rewrite (Hs b bs). by setoid_rewrite Hp. Qed.

Lemma shows_kept h h' cs A :
  (forall c, c ∈ cs -> 0 <= c_size c) -> kept h h' cs -> shows h cs A -> shows h' cs A.
Proof.
  intros H0 Hk Hs.
  assert (Hr : forall c, c ∈ cs -> read h' (c_addr c + 8) (c_size c) = read h (c_addr c + 8) (c_size c)).
  { intros c Hc. apply read_ext. intros i Hi. apply (Hk c); [done|]. pose proof (rnd_bounds (c_size c)).
    unfold c_end, c_len. lia. }
  intros b bs. rewrite (Hs b bs). split; intros (c & Hc & -> & ->); exists c; by rewrite Hr.
Qed.

Lemma shows_cons h d cs A :
  (forall c, c ∈ cs -> c_addr c <> c_addr d) -> shows h cs A ->
  shows h (d :: cs) (<[c_addr d + 8 := read h (c_addr d + 8) (c_size d)]> A).
Proof.
  intros Hne Hs b bs. rewrite lookup_insert_Some, (Hs b bs). split.
  - intros [[<- <-]|(Hb & c & Hc & -> & ->)]; [exists d; split; [left|done]|exists c; split; [by right|done]].
  - intros (c & [->|Hc]%elem_of_cons & -> & ->); [by left|right]. split; [specialize (Hne c Hc); lia|]. by exists c.
Qed.

Lemma shows_uncons h d cs A :
  (forall c, c ∈ cs -> c_addr c <> c_addr d) -> shows h (d :: cs) A -> shows h cs (delete (c_addr d + 8) A).
Proof.
  intros Hne Hs b bs. rewrite lookup_delete_Some, (Hs b bs). split.
  - intros (Hb & c & [->|Hc]%elem_of_cons & -> & ->); [done|]. by exists c.
  - intros (c & Hc & -> & ->). split; [specialize (Hne c Hc); lia|]. exists c. split; [by right|done].
Qed.

(** The other blocks are elsewhere. *)
Lemma rest_elsewhere h L d R c :
  heap_ok h L -> live L ≡ₚ d :: R -> c ∈ R -> c_addr c <> c_addr d /\ (c_end c <= c_addr d \/ c_end d <= c_addr c).
Proof.
  intros Hok Hp Hc. pose proof (live_fresh _ _ _ _ Hok Hp) as Hn.
  assert (Hd' : d ∈ live L) by (rewrite Hp; left). assert (Hc' : c ∈ live L) by (rewrite Hp; by right).
  destruct (live_cell _ _ _ Hok Hd') as (_ & H1 & _). destruct (live_cell _ _ _ Hok Hc') as (_ & H2 & _).
  pose proof (c_len_pos _ H1). pose proof (c_len_pos _ H2). unfold c_end in *.
  destruct (live_apart h L c d Hok Hc' Hd') as [->|[?|?]]; [done|unfold c_end in *; lia..].
Qed.

Lemma fresh_of h L d R A :
  heap_ok h L -> live L ≡ₚ d :: R -> shows h R A -> fresh_block A (c_addr d + 8) (c_size d).
Proof.
  intros Hok Hp Hs. destruct (live_cell h L d Hok) as (H1 & H2 & H3 & H4); [rewrite Hp; left|].
  split; [lia|]. split.
  { pose proof (Z.div_mod (c_addr d) 32). replace (c_addr d + 8) with ((8 * (c_addr d / 32) + 8) * 4) by lia.
    by apply Z.mod_mul. }
  intros b bs (c & Hc & -> & ->)%Hs. destruct (rest_elsewhere _ _ _ _ _ Hok Hp Hc) as [_ Hap].
  destruct (live_cell h L c Hok) as (_ & H5 & _); [rewrite Hp; by right|].
  rewrite length_read by done. pose proof (rnd_bounds (c_size c)). pose proof (rnd_bounds (c_size d)).
  unfold c_end, c_len in *. lia.
Qed.

(** ** The fuel *)

Lemma tiles_count a cs e : tiles a cs e -> 32 * Z.of_nat (length cs) <= e - a.
Proof.
  revert a. induction cs as [|c cs IH]; intros a; cbn [tiles length]; [lia|]. intros (<- & H0 & _ & Ht).
  apply IH in Ht. pose proof (c_len_pos c H0). unfold c_end in Ht. lia.
Qed.

Lemma lumps_pages h L : heap_ok h L -> Z.of_nat (length (concat L)) <= pages h.
Proof.
  intros (B & [[Hs _] _ _ _] & _). unfold pages. induction Hs as [|s cs ss L' Hsc _ IH]; cbn; [done|].
  rewrite length_app. destruct Hsc as [_ Ht _ _]. apply tiles_count in Ht.
  pose proof (Z.div_le_lower_bound (sg_end s - sg_start s) 32 (Z.of_nat (length cs))). lia.
Qed.

Lemma env_realloc e h L : heap_ok h L -> env_ok e h -> realloc_host e h L.
Proof. intros Hok [F1 F2 F3 F4]. apply lumps_pages in Hok. constructor; (done || lia). Qed.

Lemma env_host e h L : heap_ok h L -> env_ok e h -> host_ok e h L.
Proof. intros Hok [F1 [F2 F3] F4 _]. apply lumps_pages in Hok. constructor; (done || lia). Qed.

(** ** Steps of the relation *)

Lemma live_sizes h L c : heap_ok h L -> c ∈ live L -> 0 <= c_size c.
Proof. intros Hok Hc. by destruct (live_cell _ _ _ Hok Hc) as (_ & ? & _). Qed.

Lemma shows_live h h' L A : heap_ok h L -> kept h h' (live L) -> shows h (live L) A -> shows h' (live L) A.
Proof. intros Hok. apply shows_kept. intros c Hc. by apply (live_sizes h L). Qed.

(** A new block. *)
Lemma rel_add h L A h' L' r size :
  rel h L A -> heap_ok h' L' -> fsem h' = fsem h -> cratesets h' = cratesets h -> kept h h' (live L) ->
  live L' ≡ₚ mk_cell (r - 8) size UMS_USER :: live L ->
  fresh_block A r size /\ rel h' L' (<[r := read h' r size]> A).
Proof.
  intros [R1 R2 R3 R4 R5] Hok Hf Hcs Hk Hl. set (d := mk_cell (r - 8) size UMS_USER) in *.
  assert (Hr : c_addr d + 8 = r) by (cbn; lia).
  assert (Hs : shows h' (live L) A) by (by eapply shows_live).
  split; [rewrite <-Hr; by eapply (fresh_of h' L' d)|].
  constructor; [done| | |congruence|by rewrite Hcs].
  - intros c. rewrite Hl. intros [->|Hc]%elem_of_cons; [done|by apply R2].
  - eapply shows_perm; [symmetry; exact Hl|]. rewrite <-Hr. apply (shows_cons h' d); [|done].
    intros c Hc. by apply (rest_elsewhere h' L' d (live L) c).
Qed.

(** The same blocks. *)
Lemma rel_same h L A h' L' :
  rel h L A -> heap_ok h' L' -> fsem h' = fsem h -> cratesets h' = cratesets h -> kept h h' (live L) ->
  live L' = live L -> rel h' L' A.
Proof.
  intros [R1 R2 R3 R4 R5] Hok Hf Hcs Hk Hl. constructor; [done|by rewrite Hl| |congruence|by rewrite Hcs].
  rewrite Hl. by eapply shows_live.
Qed.

(** A block less. *)
Lemma rel_del h L A h' L' c :
  rel h L A -> heap_ok h' L' -> fsem h' = fsem h -> cratesets h' = cratesets h -> kept h h' (live L') ->
  live L ≡ₚ c :: live L' -> rel h' L' (delete (c_addr c + 8) A).
Proof.
  intros [R1 R2 R3 R4 R5] Hok Hf Hcs Hk Hl. constructor; [done| | |congruence|by rewrite Hcs].
  - intros d Hd. apply R2. rewrite Hl. by right.
  - apply (shows_kept h); [intros d Hd; by apply (live_sizes h' L')|done|]. apply shows_uncons.
    + intros d Hd. by apply (rest_elsewhere h L c (live L') d).
    + by eapply shows_perm.
Qed.

(** A block that was resized. *)
Lemma rel_moved h L A h' L' c ns r :
  rel h L A -> c ∈ live L -> moved h L c ns r h' L' ->
  astep A (ORealloc (c_addr c + 8) ns) (Some r) (<[r := read h' r ns]> (delete (c_addr c + 8) A))
  /\ rel h' L' (<[r := read h' r ns]> (delete (c_addr c + 8) A)).
Proof.
  intros [R1 R2 R3 R4 R5] Hc [M1 M2 (R & M3 & M4 & M5) M6 M7 M8 M9].
  set (d := mk_cell (r - 8) ns (c_st c)) in *. assert (Hr : c_addr d + 8 = r) by (cbn; lia).
  assert (Hns : 0 <= ns) by (apply (live_sizes h' L' d); [done|rewrite M4; left]).
  assert (Hsz : forall x, x ∈ R -> 0 <= c_size x) by (intros x Hx; apply (live_sizes h L); [done|rewrite M3; by right]).
  assert (Hs : shows h' R (delete (c_addr c + 8) A)).
  { eapply shows_kept; [done|done|]. apply shows_uncons; [intros x Hx; by apply (rest_elsewhere h L c R x)|].
    by eapply shows_perm. }
  split.
  - apply as_realloc with (bs := read h (c_addr c + 8) (c_size c)).
    + apply R3. by exists c.
    + rewrite <-Hr. by apply (fresh_of h' L' d R).
    + by apply length_read.
    + pose proof (live_sizes _ _ _ R1 Hc). pose proof (length_read h (c_addr c + 8) (c_size c)).
      pose proof (length_read h' r ns). intros i Hi. rewrite !read_lookup by lia. f_equal. symmetry. apply M6. lia.
  - constructor; [done| | |congruence|by rewrite M8].
    + intros x. rewrite M4. intros [->|Hx]%elem_of_cons; [exact (R2 c Hc)|apply R2; rewrite M3; by right].
    + eapply shows_perm; [symmetry; exact M4|]. rewrite <-Hr. apply (shows_cons h' d); [|done].
      intros x Hx. by apply (rest_elsewhere h' L' d R x).
Qed.

(** The lock taken and given back. *)
Lemma moved_lock h L c ns r h' L' n m :
  moved (set_fsem n h) L c ns r h' L' -> m = fsem h -> moved h L c ns r (set_fsem m h') L'.
Proof.
  intros [M1 M2 (R & M3 & M4 & M5) M6 M7 M8 M9] ->. constructor; try done; [by apply fsem_ok|].
  exists R. split; [done|]. split; [done|]. by eapply kept_lock.
Qed.

(** ** The operations as steps *)

Definition simulated (e : host) (h : heap) (A : blocks) (o : op) : Prop :=
  exists r h' L', run_op e o h = Done r h' /\ astep A o r (after A o r h') /\ rel h' L' (after A o r h').

Lemma user_flags h flags : has_bits flags UMFI_CRATE = false -> user_st (Z.lor flags (tile_flags h)) = UMS_USER.
Proof.
  intros Hf. unfold user_st, tile_flags. destruct (has_bits (htype h) HEAP_TILED); unfold has_bits in *;
    rewrite Z.land_lor_distr_l; apply negb_false_iff, Z.eqb_eq in Hf; by rewrite Hf.
Qed.

Lemma large_above h size : (forall c, last (cratesets h) = Some c -> cs_crumb_size c <= 20) -> 20 < size -> is_large size h.
Proof. intros Hl Hs c Hc. specialize (Hl c Hc). lia. Qed.

Lemma alloc_step e h L A size align flags :
  rel h L A -> env_ok e h -> 20 < size < 2 ^ 32 -> has_bits flags UMFI_CRATE = false ->
  (exists k, align = 2 ^ k /\ 0 <= k <= 16) ->
  exists r h' L', (forall B (f : Z -> H B), (_ ← heap_lock; tf ← gets tile_flags;
        block ← um_alloc_no_lock e size align (Z.lor flags tf); _ ← heap_unlock; f block) h = f r h')
    /\ ((r = 0 /\ rel h' L' A)
        \/ (r <> 0 /\ fresh_block A r size /\ rel h' L' (<[r := read h' r size]> A)
            /\ (has_bits flags UMFI_ZERO = true -> forall i, 0 <= i < size -> m_data h' (r + i) = 0))).
Proof.
  intros Hrel Hen Hs Hcr Hal. pose proof Hrel as [R1 R2 R3 R4 R5].
  destruct (locked_alloc_run e size align flags h L R1 (env_host _ _ _ R1 Hen) (large_above h size R5 ltac:(lia)) ltac:(lia) Hal ltac:(lia))
    as (r & h' & L' & Hrun & Hok & Hf & Hty & Hcs & Hk & Hres).
  exists r, h', L'. split; [done|]. destruct Hres as [(-> & Hl & _)|(Hr & _ & Hl & Hz)]; [left|right].
  - split; [done|]. by eapply rel_same.
  - rewrite user_flags in Hl by done.
    destruct (rel_add h L A h' L' r size Hrel Hok Hf Hcs Hk Hl) as [Hfr Hrel'].
    split_and!; [lia|done|done|]. intros Hzf i Hi. apply Hz; [|lia]. unfold has_bits in *. rewrite Z.land_lor_distr_l.
    apply negb_true_iff, Z.eqb_neq. apply negb_true_iff, Z.eqb_neq in Hzf. intros Hlor. by apply Z.lor_eq_0_l in Hlor.
Qed.

Lemma malloc_step e h L A size :
  rel h L A -> env_ok e h -> op_ok A (OMalloc size) -> simulated e h A (OMalloc size).
Proof.
  intros Hrel Hen Hop. cbn in Hop. destruct (size_align_pow size) as (k & Hk & Hkr).
  destruct (alloc_step e h L A size (size_align size) 0 Hrel Hen Hop eq_refl) as (r & h' & L' & Hrun & Hres); [by exists k|].
  assert (R : umalloc e size h = (if negb (r =? 0) then mret r else merr ENOMEM) h') by apply Hrun.
  unfold simulated, run_op. rewrite R. destruct Hres as [(-> & Hrel')|(Hr & Hfr & Hrel' & _)].
  - exists None, h', L'. cbn. split; [done|]. split; [constructor|done].
  - exists (Some r), h', L'. rewrite (proj2 (Z.eqb_neq r 0)) by done. cbn. rewrite (proj2 (Z.eqb_neq r 0)) by done.
    split; [done|]. split; [|done]. constructor; [done|]. apply length_read. lia.
Qed.

Lemma read_zero h b n : 0 <= n -> (forall i, 0 <= i < n -> m_data h (b + i) = 0) -> read h b n = replicate (Z.to_nat n) 0.
Proof.
  intros Hn Hz. apply list_eq. intros i. destruct (decide (i < Z.to_nat n)%nat) as [Hi|Hi].
  - rewrite read_lookup, lookup_replicate_2 by done. f_equal. apply Hz. lia.
  - rewrite !lookup_ge_None_2; [done|rewrite length_replicate; lia|].
    pose proof (length_read h b n Hn). lia.
Qed.

(** The overflow test of [_ucalloc] is exact. *)
Lemma overflow_test count size :
  0 <= count -> 0 <= size ->
  (negb (size =? 0) && negb (u32 (count * size) / size =? count)) = negb (u32 (count * size) =? count * size).
Proof.
  intros Hc Hs. destruct (Z.eqb_spec size 0) as [->|Hne]; cbn [negb andb]; [by rewrite Z.mul_0_r|].
  f_equal. destruct (Z.eqb_spec (u32 (count * size)) (count * size)) as [->|Hov].
  - rewrite Z.div_mul by done. by rewrite Z.eqb_refl.
  - apply Z.eqb_neq. intros Hd. pose proof (u32_range (count * size)).
    assert (u32 (count * size) < count * size).
    { unfold u32 in *. pose proof (Z.mod_le (count * size) (2 ^ 32)). lia. }
    pose proof (Z.mul_div_le (u32 (count * size)) size). rewrite Hd in *. lia.
Qed.

Lemma calloc_step e h L A count size :
  rel h L A -> env_ok e h -> op_ok A (OCalloc count size) -> simulated e h A (OCalloc count size).
Proof.
  intros Hrel Hen (Hc & Hs & Hlarge). unfold simulated, run_op, ucalloc. rewrite overflow_test by lia.
  destruct (Z.eqb_spec (u32 (count * size)) (count * size)) as [Hb|Hov]; cbn [negb].
  2:{ exists None, h, L. cbn. split; [done|]. split; [constructor|done]. }
  rewrite Hb. specialize (Hlarge Hb). pose proof (u32_range (count * size)). set (bytes := count * size) in *.
  destruct (size_align_pow size) as (k & Hk & Hkr).
  destruct (alloc_step e h L A bytes (size_align size) UMFI_ZERO Hrel Hen ltac:(lia) eq_refl) as (r & h' & L' & Hrun & Hres);
    [by exists k|].
  rewrite (Hrun Z mret). destruct Hres as [(-> & Hrel')|(Hr & Hfr & Hrel' & Hz)].
  - exists None, h', L'. cbn. split; [done|]. split; [constructor|done].
  - exists (Some r), h', L'. cbn. rewrite (proj2 (Z.eqb_neq r 0)) by done. split; [done|]. split; [|done].
    rewrite read_zero by (lia || by apply Hz). by constructor.
Qed.

(** The cell of a block. *)
Lemma block_cell h L A b bs :
  rel h L A -> A !! b = Some bs ->
  exists c, c ∈ live L /\ b = c_addr c + 8 /\ bs = read h b (c_size c) /\ Z.of_nat (length bs) = c_size c /\ 64 <= b.
Proof.
  intros [R1 R2 R3 R4 R5] (c & Hc & -> & ->)%R3. exists c. destruct (live_cell _ _ _ R1 Hc) as (H1 & H2 & _).
  split_and!; [done|done|done|by apply length_read|lia].
Qed.

Lemma free_rel e h L A b :
  rel h L A -> is_Some (A !! b) -> exists h' L', um_free_maybe_lock (fuel e) b true h = Done () h' /\ rel h' L' (delete b A).
Proof.
  intros Hrel [bs Hb]. destruct (block_cell _ _ _ _ _ Hrel Hb) as (c & Hc & -> & _ & _ & _).
  pose proof Hrel as [R1 R2 R3 R4 R5].
  destruct (free_run (fuel e) h L c R1 Hc ltac:(lia)) as (h' & L' & R & Hok & Hl & Htop & _ & Hk).
  exists h', L'. split; [exact R|]. by eapply rel_del; [..|exact Hl]; [done|done|apply Htop|apply Htop|].
Qed.

Lemma free_step e h L A b : rel h L A -> op_ok A (OFree b) -> simulated e h A (OFree b).
Proof.
  intros Hrel Hop. destruct (free_rel e h L A b Hrel Hop) as (h' & L' & R & Hrel').
  exists None, h', L'. cbn. unfold free. erewrite run_bind by done. cbn. split; [done|]. split; [by constructor|done].
Qed.

(** [_um_realloc] finds the segment of a lump. *)
Lemma um_realloc_lump e h s c ns align flags :
  in_use h s c -> ns <> 0 ->
  um_realloc e (c_addr c + 8) ns align flags h
    = (r ← um_lump_realloc e (sg_addr s) (c_addr c) ns align flags; if negb (r =? 0) then mret r else merr ENOMEM) h.
Proof.
  intros [U1 U2 U3 U4 U5 U6 U7 U8 U9 U10] Hns.
  pose proof (so_mem _ U2). pose proof (so_start _ U2). pose proof (so_end _ U2). pose proof (so_top _ U2).
  unfold um_realloc. rewrite (proj2 (Z.eqb_neq _ _)) by lia. rewrite (proj2 (Z.eqb_neq ns 0)) by done.
  replace (c_addr c + 8 - 8) with (c_addr c) by lia.
  erewrite run_bind by (by apply ld_run). rewrite status_word by (apply U2 || lia).
  change UMS_FREE with 0. rewrite (proj2 (Z.eqb_neq (c_st c) 0)) by lia.
  rewrite ptr_word by (apply U2 || lia). erewrite run_bind by (by apply ld_run).
  change (UM_MAGIC_SEG =? UM_MAGIC_CRATE) with false. by rewrite Z.eqb_refl.
Qed.

Lemma expanded_lock h L h' L' n m k :
  expanded (set_fsem n h) L h' L' k -> m = fsem h -> expanded h L (set_fsem m h') L' k.
Proof.
  intros [E1 E2 E3 E4 E5 E6 E7 E8] ->. constructor; try done; [by apply fsem_ok|by eapply kept_lock].
Qed.

Lemma realloc_step e h L A b ns :
  rel h L A -> env_ok e h -> op_ok A (ORealloc b ns) -> simulated e h A (ORealloc b ns).
Proof.
  intros Hrel Hen [Hb Hns]. pose proof Hb as [bs Hbs].
  destruct (block_cell _ _ _ _ _ Hrel Hbs) as (c & Hc & -> & _ & _ & H64). pose proof Hrel as [R1 R2 R3 R4 R5].
  unfold simulated, run_op, realloc. rewrite (proj2 (Z.eqb_neq (c_addr c + 8) 0)) by lia.
  destruct (Z.eq_dec ns 0) as [->|Hnz].
  { destruct (free_rel e h L A _ Hrel Hb) as (h' & L' & R & Hrel'). exists None, h', L'.
    unfold um_realloc. rewrite (proj2 (Z.eqb_neq _ _)) by lia. cbn [Z.eqb]. erewrite run_bind by done.
    split; [done|]. split; [by apply as_realloc_free|done]. }
  destruct (live_setup h L c R1 Hc) as (_ & s & _ & _ & _ & _ & _ & Hu).
  rewrite (um_realloc_lump e h s c) by done. destruct (size_align_pow ns) as (k & -> & Hk).
  destruct (lump_realloc_run e h L c s k 0 ns R1 (env_realloc _ _ _ R1 Hen) Hc (R2 c Hc) Hu Hk eq_refl Hns ltac:(lia))
    as [[R _]|(r & h1 & R & Hres)].
  { exists None, h, L. erewrite run_bind by done. cbn. rewrite (proj2 (Z.eqb_neq ns 0)) by done.
    split; [done|]. split; [by apply as_realloc_null|done]. }
  assert (Hf1 : fsem h1 - 1 = fsem h) by (rewrite (resized_fsem _ _ _ _ _ _ _ _ _ Hres); cbn; lia).
  change (stays_locked c ns 0) with false in R. cbn iota in R. rewrite Hf1 in R. erewrite run_bind by done.
  destruct Hres as [(L' & Hm)|(-> & _ & (L' & Hex) & _)].
  - apply (moved_lock _ _ _ _ _ _ _ _ (fsem h)) in Hm; [|done]. pose proof (mv_pos _ _ _ _ _ _ _ Hm).
    destruct (rel_moved h L A _ L' c ns r Hrel Hc Hm) as [Hst Hrel'].
    exists (Some r), (set_fsem (fsem h) h1), L'. rewrite (proj2 (Z.eqb_neq r 0)) by lia. cbn.
    rewrite (proj2 (Z.eqb_neq r 0)) by lia. done.
  - apply (expanded_lock _ _ _ _ _ (fsem h)) in Hex; [|done]. exists None, (set_fsem (fsem h) h1), L'. cbn.
    rewrite (proj2 (Z.eqb_neq ns 0)) by done. split; [done|]. split; [by apply as_realloc_null|].
    destruct Hex. by eapply rel_same.
Qed.

(** A store into a block. *)
Lemma write_step e h L A b i v :
  rel h L A -> op_ok A (OWrite b i v) -> simulated e h A (OWrite b i v).
Proof.
  intros Hrel (bs & Hb & Hi). destruct (block_cell _ _ _ _ _ Hrel Hb) as (c & Hc & -> & -> & Hlen & _).
  pose proof Hrel as [R1 R2 R3 R4 R5]. rewrite Hlen in Hi.
  set (h' := set_data (fun x => if x =? c_addr c + 8 + i then v else m_data h x) h).
  pose proof Hc as [R HR]%elem_of_Permutation.
  assert (Hnew : read h' (c_addr c + 8) (c_size c) = <[Z.to_nat i := v]> (read h (c_addr c + 8) (c_size c))).
  { apply list_eq. intros j. destruct (decide (j < Z.to_nat (c_size c))%nat) as [Hj|Hj].
    2:{ pose proof (length_read h' (c_addr c + 8) (c_size c)).
        rewrite !lookup_ge_None_2; [done|rewrite length_insert; lia|lia]. }
    rewrite read_lookup by done. cbn. destruct (Z.eqb_spec (c_addr c + 8 + Z.of_nat j) (c_addr c + 8 + i)).
    - replace (Z.to_nat i) with j by lia. rewrite list_lookup_insert_eq; [done|lia].
    - rewrite list_lookup_insert_ne by lia. by rewrite read_lookup. }
  exists None, h', L. cbn [run_op after]. rewrite Hb. split; [done|].
  rewrite Hlen, Hnew. split; [apply as_write; [done|by rewrite Hlen]|]. constructor; [|done| |done|done].
  { eapply same_meta_ok; [apply data_meta|done]. }
  eapply shows_perm; [symmetry; exact HR|]. rewrite <-Hnew. rewrite <-insert_delete_eq.
  apply shows_cons; [intros d Hd; by apply (rest_elsewhere h L c R d)|].
  apply (shows_kept h); [intros d Hd; apply (live_sizes h L); [done|rewrite HR; by right]| |].
  - intros d a Hd Ha. constructor; try done. cbn. destruct (rest_elsewhere h L c R d R1 HR Hd) as [_ Hap].
    pose proof (rnd_bounds (c_size c)). pose proof (rnd_bounds (c_size d)). unfold c_end, c_len in *.
    destruct (Z.eqb_spec a (c_addr c + 8 + i)); [lia|done].
  - apply shows_uncons; [intros d Hd; by apply (rest_elsewhere h L c R d)|]. by eapply shows_perm.
Qed.

(** ** The initial heap *)

Lemma empty_heap_ok type : heap_ok (heap_of_type type) [].
Proof.
  exists (fun _ => []). split; [|done]. constructor; [constructor; [constructor|]|done| |].
  - intros i j s s' Hs. by destruct i.
  - constructor; [done| |intros; constructor|by intros b b' a _ _ ?%elem_of_nil].
    intros b Hb. exists (mk_bucket 0 0). split; [|done]. cbn. unfold aget. rewrite (proj2 (Z.leb_le 0 b)) by lia.
    apply lookup_replicate_2. unfold UM_BUCKETS in *. lia.
  - intros a b _. split; [by intros ?%elem_of_nil|]. by intros (c & ?%elem_of_nil & _).
Qed.

Lemma init_rel sizeof_uheap memory size clean type p h :
  0 < memory -> 0 < sizeof_uheap -> sizeof_uheap < size - 3 -> memory + size < 2 ^ 32 ->
  ucreate2 sizeof_uheap memory size clean type = Done (Some p) h -> exists L, rel h L ∅.
Proof.
  intros Hm Hz Hsz Htop. unfold ucreate2. change 4 with (2 ^ 2). rewrite align_diff by lia.
  repeat (match goal with |- context [if ?b then _ else _] => destruct b; [done|] end).
  pose proof (Z.mod_pos_bound (- memory) (2 ^ 2) ltac:(lia)) as Hd. set (diff := (- memory) mod 2 ^ 2) in *.
  destruct (addmem_run (heap_of_type type) [] (memory + diff + sizeof_uheap) (size - diff - sizeof_uheap) clean (empty_heap_ok _))
    as [[R _]|(h' & L' & R & Hg)].
  { change (2 ^ 2) with 4 in Hd. constructor; [lia|lia|lia|]. by intros s ?%elem_of_nil. }
  { by rewrite R. }
  rewrite R. intros [= <- <-]. exists L'. destruct Hg as [G1 G2 G3 G4 G5 G6 G7 G8 G9 G10]. constructor; [done| | |done|].
  - intros c. rewrite G2. by intros ?%elem_of_nil.
  - intros b bs. rewrite G2. split; [done|]. by intros (c & ?%elem_of_nil & _).
  - intros c. rewrite G6. cbn. intros [= <-]. done.
Qed.

Lemma op_step e h L A o : rel h L A -> env_ok e h -> op_ok A o -> simulated e h A o.
Proof.
  intros Hrel Hen Hop. destruct o.
  - by eapply malloc_step.
  - by eapply calloc_step.
  - by eapply free_step.
  - by eapply realloc_step.
  - by eapply write_step.
Qed.

Lemma reach_rel h A : reach h A -> exists L, rel h L A.
Proof.
  induction 1 as [|h A e o r h' _ [L Hrel] Hen Hop R]; [by eapply init_rel; [..|eassumption]|].
  destruct (op_step e h L A o Hrel Hen Hop) as (r2 & h2 & L2 & R2 & _ & Hrel2). rewrite R in R2.
  injection R2 as -> ->. by exists L2.
Qed.
