(* ===== verification/HeapProps.v ===== *)
(** The properties of the heap: the functions of the library refine the
    abstract allocator, allocation fails only without memory, freed memory is
    merged, and the heap that stays locked. *)

From S2P Require Import Prelude Heap HeapFacts HeapBuckets HeapLumps HeapOps HeapAlloc HeapExpand HeapApi HeapRealloc HeapSystem.

(** ** A heap to try things on *)

Definition demo_heap : heap :=
  match ucreate2 100 0x10000 0x1000 true HEAP_REGULAR with Done _ h => h | _ => heap_of_type 0 end.

(** It cannot grow. *)
Definition demo_host : host := mk_host 200 true None None None.

Lemma demo_reach : reach demo_heap ∅.
Proof. apply (reach_init 100 0x10000 0x1000 true HEAP_REGULAR 0x10000); (lia || by vm_compute). Qed.

Lemma demo_env h : segs h = segs demo_heap -> env_ok demo_host h.
Proof. intros Hs. constructor; [unfold pages; rewrite Hs; by vm_compute|done|done|]. by intros s sr n cl _ [=]. Qed.

(** The heap after a request of 100 bytes. *)
Definition demo_block : Z := match umalloc demo_host 100 demo_heap with Done r _ => r | _ => 0 end.
Definition demo_used : heap := match umalloc demo_host 100 demo_heap with Done _ h => h | _ => demo_heap end.

Lemma demo_used_rel : exists L, rel demo_used L (<[demo_block := read demo_used demo_block 100]> ∅).
Proof.
  apply reach_rel. change (<[demo_block := read demo_used demo_block 100]> ∅)
    with (after ∅ (OMalloc 100) (Some demo_block) demo_used).
  eapply (reach_step demo_heap ∅ demo_host); [apply demo_reach|by apply demo_env|cbn; lia|by vm_compute].
Qed.

Lemma demo_used_cell : exists L c, rel demo_used L (<[demo_block := read demo_used demo_block 100]> ∅)
  /\ c ∈ live L /\ c_addr c = demo_block - 8 /\ c_size c = 100 /\ c_st c = UMS_USER.
Proof.
  destruct demo_used_rel as [L Hrel]. pose proof Hrel as [R1 R2 R3 R4 R5].
  destruct (block_cell _ _ _ _ _ Hrel (lookup_insert_eq _ _ _)) as (c & Hc & Ha & _ & Hl & _).
  rewrite length_read in Hl by done. exists L, c. split_and!; [done|done|lia|done|by apply R2].
Qed.

(** ** Freed memory is merged *)

Lemma tiles_cover a cs e x :
  tiles a cs e -> a <= x < e -> exists l c r, cs = l ++ c :: r /\ c_addr c <= x < c_end c.
Proof.
  revert a. induction cs as [|c cs IH]; intros a; cbn; [lia|]. intros (<- & _ & _ & Ht) Hx.
  destruct (Z_lt_ge_dec x (c_end c)) as [Hlt|Hge]; [exists [], c, cs; split; [done|lia]|].
  destruct (IH _ Ht ltac:(lia)) as (l & d & r & -> & Hd). by exists (c :: l), d, r.
Qed.

(** A range without live lumps lies in one free lump. *)
Lemma idle_range a cs e lo hi :
  tiles a cs e -> no_adj cs -> no_gap cs -> a <= lo < hi -> hi <= e ->
  (forall d, d ∈ cs -> 0 < c_st d -> c_end d <= lo \/ hi <= c_addr d) ->
  exists f, f ∈ cs /\ c_st f = 0 /\ c_addr f <= lo /\ hi <= c_end f.
Proof.
  intros Ht Hadj Hg Hlo Hhi Hlive.
  assert (Hfree : forall d x, d ∈ cs -> c_addr d <= x < c_end d -> lo <= x < hi -> c_st d = 0).
  { intros d x Hd Hx Hr. assert (Hs : c_st d = GAP \/ 0 <= c_st d < 3).
    { clear -Ht Hd. revert a Ht. induction cs as [|c cs IH]; [by apply elem_of_nil in Hd|]. intros a (_ & _ & Hs & Ht).
      apply elem_of_cons in Hd as [->|Hd]; [done|by eapply IH]. }
    unfold no_gap in Hg. rewrite Forall_forall in Hg. specialize (Hg d Hd).
    destruct Hs as [?|Hs]; [done|]. destruct (Z.eq_dec (c_st d) 0); [done|]. destruct (Hlive d Hd); lia. }
  destruct (tiles_cover _ _ _ lo Ht ltac:(lia)) as (l & f & r & -> & Hf).
  assert (Hf0 : c_st f = 0) by (eapply Hfree; [|exact Hf|lia]; set_solver).
  exists f. split_and!; [set_solver|done|lia|].
  destruct (Z_lt_ge_dec (c_end f) hi) as [Hlt|?]; [exfalso|lia].
  apply tiles_app in Ht as (m & _ & (_ & _ & _ & Ht)).
  destruct r as [|g r]; [cbn in Ht; lia|]. destruct Ht as (Hga & Hgs & _).
  pose proof (c_len_pos g Hgs). assert (c_st g = 0).
  { apply (Hfree g (c_addr g)); [set_solver|unfold c_end; lia|lia]. }
  apply no_adj_app in Hadj as (_ & [Hn _] & _). by apply Hn.
Qed.

(** ** The properties *)

(** C2: Whatever the callers do with [umalloc] and [ucalloc] for blocks of more
    than 20 bytes, with [realloc], [free] and the blocks, the heap behaves as the
    abstract allocator: no call goes wrong, the blocks it hands out are aligned
    and apart from all others, their bytes are what was stored there, [realloc]
    keeps the common prefix and [ucalloc] returns zeros, on every expansion of
    the heap and every failure. Requests of at most 20 bytes, which are served
    with crumbs, are no operations here ([op_ok]): the theorem says nothing about
    [um_crumb_alloc] and the crates. The areas a host hands out are apart from
    the heap and from each other ([env_ok]). *)
Theorem heap_refines h A :
  reach h A ->
  (exists L, heap_ok h L /\ shows h (live L) A)
  /\ forall e o, env_ok e h -> op_ok A o ->
       exists r h', run_op e o h = Done r h' /\ astep A o r (after A o r h').
Proof.
  intros [L Hrel]%reach_rel. split; [exists L; by destruct Hrel|]. intros e o Hen Hop.
  destruct (op_step e h L A o Hrel Hen Hop) as (r & h' & _ & R & Hst & _). by exists r, h'.
Qed.

Lemma heap_refines_witness :
  exists r h', run_op demo_host (OMalloc 100) demo_heap = Done r h' /\ astep ∅ (OMalloc 100) r (after ∅ (OMalloc 100) r h').
Proof. apply (heap_refines demo_heap ∅ demo_reach); [by apply demo_env|cbn; lia]. Defined.

(** C35: In a heap that is not tiled [umalloc] reports ENOMEM only if the
    request overflows or exceeds the largest size, or no free lump has room for
    the aligned block and the heap could not be expanded. The blocks in use are
    left alone, also then. *)
Theorem umalloc_enomem_means_no_memory e size h L err h' :
  heap_ok h L -> host_ok e h L -> is_large size h -> 0 <= size < 2 ^ 32 -> 0 <= fsem h ->
  has_bits (htype h) HEAP_TILED = false -> umalloc e size h = Err err h' ->
  err = ENOMEM /\ no_memory e size (size_align size) (set_fsem (fsem h + 1) h) L
  /\ exists L', heap_ok h' L' /\ live L' = live L /\ kept h h' (live L) /\ fsem h' = fsem h.
Proof.
  intros Hok Hho Hl Hs Hf Ht Herr. destruct (size_align_pow size) as (k & Hk & Hkr).
  destruct (locked_alloc_run e size (size_align size) 0 h L Hok Hho Hl Hs ltac:(by exists k) Hf)
    as (r & h1 & L1 & Hrun & Hok1 & Hf1 & _ & _ & Hk1 & Hres).
  assert (R : umalloc e size h = (if negb (r =? 0) then mret r else merr ENOMEM) h1) by apply Hrun.
  rewrite R in Herr. destruct Hres as [(-> & Hl1 & Hno)|(Hr & _)].
  - injection Herr as <- <-. split; [done|]. split; [|by exists L1]. apply Hno. unfold tile_flags. by rewrite Ht.
  - by rewrite (proj2 (Z.eqb_neq r 0)) in Herr by lia.
Qed.

Lemma umalloc_enomem_means_no_memory_witness :
  exists h' L, umalloc demo_host 100000 demo_heap = Err ENOMEM h'
    /\ no_memory demo_host 100000 16 (set_fsem 1 demo_heap) L.
Proof.
  destruct (reach_rel _ _ demo_reach) as [L Hrel]. pose proof Hrel as [R1 R2 R3 R4 R5].
  destruct (umalloc demo_host 100000 demo_heap) as [| |] eqn:R; [vm_compute in R; discriminate| |vm_compute in R; discriminate].
  destruct (umalloc_enomem_means_no_memory demo_host 100000 demo_heap L e s R1) as (-> & Hno & _);
    [by apply env_host, demo_env|by apply large_above|lia|rewrite R4; lia|by vm_compute|exact R|].
  exists s, L. rewrite R4 in Hno. split; [done|exact Hno].
Defined.

(** C18: [free] of a block in use ends, takes exactly that block away, leaves
    the bytes of all other blocks and the lock as they are, and its memory is
    part of one free lump, merged with its neighbours. *)
Theorem free_merges fl h L c :
  heap_ok h L -> c ∈ live L -> 0 <= fsem h ->
  exists h' L', free fl (c_addr c + 8) h = Done () h' /\ heap_ok h' L' /\ live L ≡ₚ c :: live L'
    /\ kept h h' (live L') /\ fsem h' = fsem h
    /\ Forall no_adj L' /\ exists f, f ∈ concat L' /\ c_st f = 0 /\ c_addr f <= c_addr c /\ c_end c <= c_end f.
Proof.
  intros Hok Hc Hf. destruct (free_run fl h L c Hok Hc Hf) as (h' & L' & R & Hok' & Hl & Htop & _ & Hk).
  exists h', L'. pose proof Hok' as (B' & Hi' & Hg'). split_and!; [done|done|done|done|apply Htop|apply Hi'|].
  destruct (live_setup h L c Hok Hc) as (K & s & B & -> & Hi & _ & Hs & Hu).
  destruct (place_bounds _ _ _ _ c (hv_lay _ _ _ Hi) Hs ltac:(left)) as (_ & _ & H32 & _ & _ & Hlo & Hhi & _).
  pose proof (ly_segs _ _ (hv_lay _ _ _ Hi')) as Hss. rewrite (st_segs _ _ Htop) in Hss.
  destruct (Forall2_lookup_l _ _ _ _ _ Hss Hs) as (cs & Hcs & [_ Ht _ _]).
  apply list_elem_of_lookup_2 in Hcs as Hin.
  destruct (idle_range _ _ _ (c_addr c) (c_end c) Ht) as (f & Hfc & H1 & H2 & H3).
  - pose proof (hv_adj _ _ _ Hi') as Ha. rewrite Forall_forall in Ha. by apply Ha.
  - rewrite Forall_forall in Hg'. by apply Hg'.
  - unfold c_end. lia.
  - done.
  - intros d Hd Hst. assert (Hdl : d ∈ live L') by (apply elem_of_live; split; [done|apply elem_of_concat; by exists cs]).
    by apply (rest_elsewhere h (plug K [c]) c (live L') d).
  - exists f. split_and!; [apply elem_of_concat; by exists cs|done..].
Qed.

Lemma free_merges_witness : exists h' L', free 0 demo_block demo_used = Done () h' /\ heap_ok h' L' /\ fsem h' = 0.
Proof.
  destruct demo_used_cell as (L & c & Hrel & Hc & Ha & _). pose proof Hrel as [R1 R2 R3 R4 R5].
  destruct (free_merges 0 demo_used L c R1 Hc) as (h' & L' & R & Hok & _ & _ & Hf & _); [by rewrite R4|].
  exists h', L'. replace demo_block with (c_addr c + 8) by lia. split_and!; [done|done|by rewrite Hf].
Defined.

(** When [_expand] has to enlarge the lump of a block it returns, with
    the block or with ENOMEM, without giving back the mutex of the heap. *)
Theorem expand_leaves_locked e h L c ns :
  heap_ok h L -> realloc_host e h L -> c ∈ live L -> c_st c = UMS_USER -> 0 <= fsem h ->
  0 <= ns -> ns + 43 < 2 ^ 32 -> c_len c < rnd ns ->
  exists h', fsem h' = fsem h + 1
    /\ (um_expand e (c_addr c + 8) ns h = Err ENOMEM h'
        \/ exists r, 0 < r /\ um_expand e (c_addr c + 8) ns h = Done r h').
Proof.
  intros Hok Hrh Hc Hst Hf Hns Hmax Hlen. destruct (live_setup h L c Hok Hc) as (_ & s & _ & _ & _ & _ & _ & Hu).
  pose proof (rnd_mono _ _ Hlen) as Hlt. pose proof (iu_sz _ _ _ Hu).
  unfold um_expand. rewrite (um_realloc_lump e h s c) by (done || lia).
  destruct (lump_realloc_run e h L c s 2 UMFI_NOMOVE ns Hok Hrh Hc Hst Hu ltac:(lia) eq_refl ltac:(lia) Hf)
    as [[_ ?]|(r & h1 & R & Hres)]; [lia|].
  unfold stays_locked in R. rewrite (proj2 (Z.ltb_lt _ _) Hlen) in R. change (2 ^ 2) with 4 in R. cbn in R.
  pose proof (resized_fsem _ _ _ _ _ _ _ _ _ Hres) as Hf1. exists h1. split; [exact Hf1|].
  erewrite run_bind by done. destruct Hres as [(L' & Hm)|(-> & _)]; [right|by left].
  pose proof (mv_pos _ _ _ _ _ _ _ Hm). exists r. split; [done|]. by rewrite (proj2 (Z.eqb_neq r 0)) by lia.
Qed.

Lemma expand_leaves_locked_witness : exists h', fsem h' = 1
  /\ (um_expand demo_host demo_block 200 demo_used = Err ENOMEM h'
      \/ exists r, 0 < r /\ um_expand demo_host demo_block 200 demo_used = Done r h').
Proof.
  destruct demo_used_cell as (L & c & Hrel & Hc & Ha & Hsz & Hst). pose proof Hrel as [R1 R2 R3 R4 R5].
  destruct (expand_leaves_locked demo_host demo_used L c 200 R1) as (h' & Hf & Hr).
  - apply env_realloc; [exact R1|]. apply demo_env. by vm_compute.
  - exact Hc.
  - exact Hst.
  - rewrite R4. lia.
  - lia.
  - lia.
  - unfold c_len. by rewrite Hsz.
  - exists h'. rewrite R4 in Hf. split; [done|]. by replace demo_block with (c_addr c + 8) by lia.
Defined.
