(* ===== verification/Time.v ===== *)
(** Calendar time ([src/src/emx/src/lib/time]): [gmtime.c], [mktime.c],
    [gmtloc.c], [localtim.c], [tzset.c], [asctime.c] and the tables of
    [timetabs.c]. Times are 64-bit integers, the members of [struct tm] 32-bit
    ones; strings are lists of characters without the final NUL. The value of
    the TZ variable and the previous contents of the stack frame of [tzset] are
    arguments. [TimeFacts.v] and [TimeProps.v] have the theorems. *)

From S2P Require Import Prelude.

Definition YEARS : Z := 160.
Definition TIME_T_MAX : Z := 0x7fffffff.
Definition TIME_T_MIN : Z := - 2 ^ 31.
Definition TIME64_T_MAX : Z := 2 ^ 63 - 1.
Definition TIME64_T_MIN : Z := - 2 ^ 63.
Definition SHRT_MAX : Z := 32767.
Definition USHRT_MAX : Z := 65535.

(** ** Tables *)

Definition year_day : list Z :=
  [-25567;-25202;-24837;-24472;-24107;-23741;-23376;-23011;-22646;-22280;
   -21915;-21550;-21185;-20819;-20454;-20089;-19724;-19358;-18993;-18628;
   -18263;-17897;-17532;-17167;-16802;-16436;-16071;-15706;-15341;-14975;
   -14610;-14245;-13880;-13514;-13149;-12784;-12419;-12053;-11688;-11323;
   -10958;-10592;-10227; -9862; -9497; -9131; -8766; -8401; -8036; -7670;
    -7305; -6940; -6575; -6209; -5844; -5479; -5114; -4748; -4383; -4018;
    -3653; -3287; -2922; -2557; -2192; -1826; -1461; -1096;  -731;  -365;
        0;   365;   730;  1096;  1461;  1826;  2191;  2557;  2922;  3287;
     3652;  4018;  4383;  4748;  5113;  5479;  5844;  6209;  6574;  6940;
     7305;  7670;  8035;  8401;  8766;  9131;  9496;  9862; 10227; 10592;
    10957; 11323; 11688; 12053; 12418; 12784; 13149; 13514; 13879; 14245;
    14610; 14975; 15340; 15706; 16071; 16436; 16801; 17167; 17532; 17897;
    18262; 18628; 18993; 19358; 19723; 20089; 20454; 20819; 21184; 21550;
    21915; 22280; 22645; 23011; 23376; 23741; 24106; 24472; 24837; 25202;
    25567; 25933; 26298; 26663; 27028; 27394; 27759; 28124; 28489; 28855;
    29220; 29585; 29950; 30316; 30681; 31046; 31411; 31777; 32142; 32507;
    SHRT_MAX].

Definition month_day_non_leap : list Z := [0; 31; 59; 90; 120; 151; 181; 212; 243; 273; 304; 334; USHRT_MAX].
Definition month_day_leap : list Z := [0; 31; 60; 91; 121; 152; 182; 213; 244; 274; 305; 335; USHRT_MAX].

(** [_leap_year]; the argument is unsigned. *)
Definition leap_year (y : Z) : bool :=
  if negb (y mod 4 =? 0) then false
  else if negb (y mod 100 =? 0) then true
  else if negb (y mod 400 =? 0) then false else true.

Definition month_table (leap : bool) : list Z := if leap then month_day_leap else month_day_non_leap.

(** ** Data *)

Record tm := mk_tm {
  tm_sec : Z; tm_min : Z; tm_hour : Z; tm_mday : Z; tm_mon : Z; tm_year : Z; tm_wday : Z; tm_yday : Z; tm_isdst : Z
}.

(** [struct _tzinfo] *)
Record tzinfo := mk_tzinfo {
  tz_name : list Z; tz_dstname : list Z;
  tz_tz : Z; tz_dst : Z; tz_shift : Z;
  tz_sm : Z; tz_sw : Z; tz_sd : Z; tz_st : Z;
  tz_em : Z; tz_ew : Z; tz_ed : Z; tz_et : Z
}.

(** [struct _dstswitch] *)
Record dstswitch := mk_dstswitch { sw_time : Z; sw_shift : Z }.

(** The variables of [tzset.c] and [gmtloc.c]. *)
Record tzst := mk_tzst {
  tzset_flag : bool;
  tzi : tzinfo;
  dstsw : list dstswitch;
  dstsw_count : Z;
  daylight : Z;
  timezone : Z
}.

Definition UCT : list Z := [85; 67; 84].

Definition tz_init : tzst :=
  mk_tzst false (mk_tzinfo UCT [] 0 0 0 0 0 0 0 0 0 0 0)
    (mk_dstswitch TIME64_T_MIN 0 :: mk_dstswitch TIME64_T_MAX 0 :: replicate 320 (mk_dstswitch 0 0)) 2 0 0.

Abbreviation C := (M tzst).

Definition set_dstsw (l : list dstswitch) (n : Z) (s : tzst) : tzst :=
  mk_tzst (tzset_flag s) (tzi s) l n (daylight s) (timezone s).

Definition elem {A} (l : list A) (i : Z) : C A := deref (aget l i).

(** [assert] *)
Definition c_assert (b : bool) : C unit := if b then mret () else mfail Panic.

(** ** [gmtime.c] *)

(** The binary search of [gmtime.c] and [gmtloc.c]: an [i] with
    [get i <= x < get (i+1)]. *)
Fixpoint bin_search (get : Z -> C Z) (fuel : nat) (x lo hi : Z) : C Z :=
  match fuel with
  | O => mfail Hang
  | S fuel' =>
      let i := Z.quot (lo + hi) 2 in
      d ← get i;
      if d >? x then bin_search get fuel' x lo (i - 1)
      else
        e ← get (i + 1);
        if e <=? x then bin_search get fuel' x (i + 1) hi else mret i
  end.

(** [for (i = 0; days >= p[i+1]; ++i)] *)
Fixpoint month_search (fuel : nat) (p : list Z) (days i : Z) : C Z :=
  match fuel with
  | O => mfail Hang
  | S fuel' => e ← elem p (i + 1); if days >=? e then month_search fuel' p days (i + 1) else mret i
  end.

(** [while (rem < 0)] *)
Fixpoint fix_rem (fuel : nat) (days rem : Z) : C (Z * Z) :=
  if rem <? 0 then
    match fuel with O => mfail Hang | S fuel' => fix_rem fuel' (s32 (days - 1)) (rem + 60 * 60 * 24) end
  else mret (days, rem).

(** [_gmtime64_r]: whether it succeeded, and the contents of [dst]. *)
Definition gmtime64_r (t : Z) (dst : tm) : C (bool * tm) :=
  '(days, rem) ← fix_rem 1 (s32 (Z.quot t (60 * 60 * 24))) (Z.rem t (60 * 60 * 24));
  let hour := Z.quot rem (60 * 60) in
  let rem := Z.rem rem (60 * 60) in
  let min := Z.quot rem 60 in
  let sec := Z.rem rem 60 in
  let wday := Z.rem (s32 (days + 4)) 7 in
  let wday := if wday <? 0 then wday + 7 else wday in
  let dst := mk_tm sec min hour (tm_mday dst) (tm_mon dst) (tm_year dst) wday (tm_yday dst) (tm_isdst dst) in
  let hi := YEARS - 1 in
  last ← elem year_day hi;
  if last <? days then mret (false, dst)
  else
    first ← elem year_day 0;
    if first >? days then mret (false, dst)
    else
      i ← bin_search (elem year_day) 9 days 0 hi;
      d ← elem year_day i;
      let yday := days - d in
      let p := month_table (leap_year (i + 1900)) in
      m ← month_search 12 p yday 0;
      b ← elem p m;
      mret (true, mk_tm sec min hour (yday - b + 1) m i wday yday (-1)).

(** ** [mktime.c] *)

(** [_day] *)
Definition day_number (year month day : Z) : Z :=
  if (year <? 1582) || (year >=? INT_MAX / 365) then -1
  else
    let result := s32 (365 * year + day + 31 * (month - 1)) in
    let '(year, result) :=
      if month <=? 2 then (year - 1, result) else (year, s32 (result - Z.quot (4 * month + 23) 10)) in
    s32 (result + (Z.quot year 4 - Z.quot (3 * (Z.quot year 100 + 1)) 4)).

(** [__mktime64] *)
Definition mktime64_ (t : tm) : Z :=
  let x := day_number (s32 (tm_year t + 1900)) (s32 (tm_mon t + 1)) (tm_mday t) in
  let r := s64 ((x - 719528) * 24 * 60 * 60) in
  let x := s32 (tm_sec t + 60 * tm_min t + 60 * 60 * tm_hour t) in
  s64 (r + x).

(** [_mktime]: an unsigned number of seconds *)
Definition mktime_ul (t : tm) : Z :=
  let x := day_number (s32 (tm_year t + 1900)) (s32 (tm_mon t + 1)) (tm_mday t) in
  let r := s32 (x - 719528) * 24 * 60 * 60 in
  let r := r + s32 (tm_sec t + 60 * tm_min t + 60 * 60 * tm_hour t) in
  if (r <? 0) || (r >? UINT_MAX) || (r =? -1) then u32 (-1) else r.

(** ** [gmtloc.c] *)

Definition get_switch (i : Z) : C dstswitch := l ← gets dstsw; elem l i.

Definition find_switch (t : Z) : C dstswitch :=
  n ← gets dstsw_count;
  i ← (if t =? TIME64_T_MAX then
         let i := n - 2 in
         a ← get_switch i; _ ← c_assert (sw_time a <=? t);
         b ← get_switch (i + 1); _ ← c_assert (t <=? sw_time b);
         mret i
       else
         i ← bin_search (fun i => sw ← get_switch i; mret (sw_time sw)) 10 t 0 (n - 2);
         a ← get_switch i; _ ← c_assert (sw_time a <=? t);
         b ← get_switch (i + 1); _ ← c_assert (t <? sw_time b);
         mret i);
  get_switch i.

(** [ADD_OK], for a type with the wrap-around [w]. *)
Definition ADD_OK (w : Z -> Z) (t a : Z) : bool :=
  (t =? 0) || (a =? 0)
  || ((a >? 0) && (t >? 0) && (w (a + t) >? a))
  || ((a >? 0) && (t <? 0) && (w (a + t) <? a))
  || ((a <? 0) && (t <? 0) && (w (a + t) <? a))
  || ((a <? 0) && (t >? 0) && (w (a + t) >? a)).

(** [_gmt2loc64]: the result and the new [*p]. *)
Definition gmt2loc64 (p : Z) : C (Z * Z) :=
  sw ← find_switch p;
  z ← gets tzi;
  let d := s32 (tz_tz z - sw_shift sw) in
  let t := s64 (p - d) in
  if (if d >? 0 then t >? p else t <? p) then mret (-1, p)
  else mret (if negb (sw_shift sw =? 0) then 1 else 0, t).

(** [_loc2gmt64] *)
Definition loc2gmt64 (p is_dst : Z) : C (Z * Z) :=
  z ← gets tzi;
  let d := s32 (tz_tz z - tz_shift z) in
  if is_dst >? 0 then
    let x := s64 (p + d) in
    if (if d >? 0 then x <? p else x >? p) then mret (-1, p)
    else sw ← find_switch x; mret (if negb (sw_shift sw =? 0) then 1 else 0, x)
  else if is_dst =? 0 then
    let x := s64 (p + tz_tz z) in
    if (if tz_tz z >? 0 then x <? p else x >? p) then mret (-1, p)
    else sw ← find_switch x; mret (if negb (sw_shift sw =? 0) then 1 else 0, x)
  else
    let x := s64 (s64 (p + tz_tz z) - tz_shift z) in
    r ← (if negb (if d >? 0 then x <? p else x >? p) then
           sw ← find_switch x; mret (if negb (sw_shift sw =? 0) then Some x else None, 1)
         else mret (None, 0));
    match fst r with
    | Some x => mret (1, x)
    | None =>
        let y := s64 (p + tz_tz z) in
        q ← (if negb (if tz_tz z >? 0 then y <? p else y >? p) then
               sw ← find_switch y; mret (if sw_shift sw =? 0 then Some y else None, snd r + 1)
             else mret (None, snd r));
        match fst q with
        | Some y => mret (0, y)
        | None => if negb (snd q =? 2) then mret (-1, p) else mret (0, s64 (p + tz_tz z))
        end
    end.

(** [_gmt2loc], on [time_t] *)
Definition gmt2loc (p : Z) : C (Z * Z) :=
  sw ← find_switch p;
  z ← gets tzi;
  let d := s32 (tz_tz z - sw_shift sw) in
  if negb (ADD_OK s32 p d) then mret (-1, p)
  else mret (if negb (sw_shift sw =? 0) then 1 else 0, s32 (p - d)).

(** [_loc2gmt], on [time_t] *)
Definition loc2gmt (p is_dst : Z) : C (Z * Z) :=
  z ← gets tzi;
  let d := s32 (tz_tz z - tz_shift z) in
  if is_dst >? 0 then
    if negb (ADD_OK s32 p d) then mret (-1, p)
    else
      let x := s32 (p + tz_tz z - tz_shift z) in
      sw ← find_switch x; mret (if negb (sw_shift sw =? 0) then 1 else 0, x)
  else if is_dst =? 0 then
    if negb (ADD_OK s32 p (tz_tz z)) then mret (-1, p)
    else
      let x := s32 (p + tz_tz z) in
      sw ← find_switch x; mret (if negb (sw_shift sw =? 0) then 1 else 0, x)
  else
    let x := s32 (p + tz_tz z - tz_shift z) in
    r ← (if ADD_OK s32 p d then
           sw ← find_switch x; mret (if negb (sw_shift sw =? 0) then Some x else None, 1)
         else mret (None, 0));
    match fst r with
    | Some x => mret (1, x)
    | None =>
        let y := s32 (p + tz_tz z) in
        q ← (if ADD_OK s32 p (tz_tz z) then
               sw ← find_switch y; mret (if sw_shift sw =? 0 then Some y else None, snd r + 1)
             else mret (None, snd r));
        match fst q with
        | Some y => mret (0, y)
        | None => if negb (snd q =? 2) then mret (-1, p) else mret (0, s32 (p + tz_tz z))
        end
    end.

(** Compute the day of the year on which DST switching occurs. *)
Definition switch_day (month week day ywday : Z) (mt : list Z) : C Z :=
  if week >? 0 then
    d ← elem mt (month - 1);
    let wday := Z.rem (d + ywday) 7 in
    let d := if negb (wday =? 0) then d + (7 - wday) else d in
    mret (d + day + 7 * (week - 1))
  else if week <? 0 then
    d ← (if month =? 12 then x ← elem mt 11; mret (x + 31 - 1) else x ← elem mt month; mret (x - 1));
    let wday := Z.rem (d + ywday) 7 in
    let d := if negb (wday =? 0) then d - wday else d in
    mret (d + day - 7 * (week + 1))
  else
    d ← elem mt (month - 1); mret (d + day - 1).

Definition put_switch (i : Z) (t sh : Z) : C unit :=
  l ← gets dstsw;
  if (0 <=? i) && (i <? alen l) then mmod (fun s => set_dstsw (aset (dstsw s) i (mk_dstswitch t sh)) (dstsw_count s) s)
  else mfail Ub.

Definition add_clip (t y : Z) : Z := if ADD_OK s64 t y then s64 (t + y) else if y >=? 0 then TIME64_T_MAX else TIME64_T_MIN.

(** The switches of the year [y]: the first free place of the table before and after. *)
Definition dst_year (z : tzinfo) (y i : Z) : C Z :=
  d_year ← elem year_day y;
  let mt := month_table (leap_year (y + 1900)) in
  let ywday := d_year + 4 in
  let t_year := d_year * 24 * 60 * 60 in
  d_start ← switch_day (tz_sm z) (tz_sw z) (tz_sd z) ywday mt;
  let t_start := add_clip (d_start * 24 * 60 * 60 + tz_st z + tz_tz z) t_year in
  d_end ← switch_day (tz_em z) (tz_ew z) (tz_ed z) ywday mt;
  let t_end := add_clip (d_end * 24 * 60 * 60 + tz_et z + tz_tz z - tz_shift z) t_year in
  if (d_start <? d_end) || ((d_start =? d_end) && (tz_st z <=? tz_et z)) then
    i ← (if i =? 0 then _ ← put_switch 0 TIME64_T_MIN 0; mret 1 else mret i);
    _ ← put_switch i t_start (tz_shift z);
    _ ← put_switch (i + 1) t_end 0;
    mret (i + 2)
  else
    i ← (if i =? 0 then _ ← put_switch 0 TIME64_T_MIN (tz_shift z); mret 1 else mret i);
    _ ← put_switch i t_end 0;
    _ ← put_switch (i + 1) t_start (tz_shift z);
    mret (i + 2).

(** [for (y = 0; _year_day[y] != SHRT_MAX; ++y)] *)
Fixpoint dst_years (fuel : nat) (z : tzinfo) (y i : Z) : C Z :=
  match fuel with
  | O => mfail Hang
  | S fuel' =>
      d ← elem year_day y;
      if d =? SHRT_MAX then mret i else i' ← dst_year z y i; dst_years fuel' z (y + 1) i'
  end.

Definition compute_dst_table : C unit :=
  z ← gets tzi;
  if tz_dst z =? 0 then
    _ ← put_switch 0 TIME64_T_MIN 0;
    _ ← put_switch 1 TIME64_T_MAX 0;
    mmod (fun s => set_dstsw (dstsw s) 2 s)
  else
    i ← dst_years 161 z 0 0;
    _ ← put_switch i TIME64_T_MAX TIME_T_MAX;
    _ ← mmod (fun s => set_dstsw (dstsw s) (i + 1) s);
    c_assert (i + 1 =? 2 * YEARS + 2).

(** ** [tzset.c] *)

Definition chr (p : list Z) : Z := default 0 (head p).

Definition is_digit (c : Z) : bool := (48 <=? c) && (c <=? 57).

(** [do ... while]: the digits of a number, unless it exceeds [amax]. *)
Fixpoint digits (n amax : Z) (p : list Z) : option (Z * list Z) :=
  match p with
  | [] => None
  | c :: p' =>
      let n := n * 10 + c - 48 in
      if n >? amax then None
      else if is_digit (chr p') then digits n amax p' else Some (n, p')
  end.

(** [dnum]: the number and the rest of the string. *)
Definition dnum (p : list Z) (min max : Z) (opt_sign : bool) (delim : Z) : option (Z * list Z) :=
  let '(sign, p) :=
    if opt_sign then if chr p =? 43 then (1, tail p) else if chr p =? 45 then (-1, tail p) else (1, p) else (1, p) in
  if negb (is_digit (chr p)) then None
  else
    let amax := if - min >? max then - min else max in
    '(n, p) ← digits 0 amax p;
    if negb (delim =? -1) && negb (chr p =? delim) then None
    else
      let p := if delim =? -1 then p else tail p in
      let n := if sign =? -1 then - n else n in
      if (n <? min) || (n >? max) then None else Some (n, p).

Definition is_letter (c : Z) : bool := ((65 <=? c) && (c <=? 90)) || ((97 <=? c) && (c <=? 122)).

Fixpoint span (f : Z -> bool) (p : list Z) : list Z * list Z :=
  match p with
  | c :: p' => if f c then let '(a, b) := span f p' in (c :: a, b) else ([], p)
  | [] => ([], [])
  end.

(** [copy_tzname] *)
Definition copy_tzname (p : list Z) : list Z * list Z := let '(a, b) := span is_letter p in (take 15 a, b).

(** [":" number]; the number is 0 if there is no colon. *)
Definition parse_part (p : list Z) : option (Z * list Z) :=
  if chr p =? 58 then dnum (tail p) 0 59 false (-1) else Some (0, p).

Definition parse_delta (p : list Z) (opt_sign : bool) : option (Z * list Z) :=
  '(ofs, p) ← dnum p (-23) 23 opt_sign (-1);
  let '(sign, ofs) := if ofs <? 0 then (-1, - ofs) else (1, ofs) in
  '(m, p) ← parse_part p;
  let ofs := ofs * 60 + m in
  '(s, p) ← parse_part p;
  let ofs := ofs * 60 + s in
  Some (if sign >? 0 then ofs else - ofs, p).

Definition parse_switchtime (p : list Z) : option (Z * Z * Z * Z * list Z) :=
  '(m, p) ← dnum p 1 12 false 44;
  '(w, p) ← dnum p (-4) 4 true 44;
  '(d, p) ← dnum p (if w =? 0 then 1 else 0) (if w =? 0 then 31 else 6) false 44;
  '(t, p) ← dnum p 0 86399 false 44;
  Some (m, w, d, t, p).

(** The new [_tzi]; [junk] is what the stack frame held: members that no branch
    assigns keep it. *)
Definition parse_tz (junk : tzinfo) (p : list Z) : option tzinfo :=
  let '(name, p) := copy_tzname p in
  '(offset, p) ← (if p is [] then Some (0, []) else parse_delta p true);
  if p is [] then
    Some (mk_tzinfo name [] offset 0 (tz_shift junk) (tz_sm junk) (tz_sw junk) (tz_sd junk) (tz_st junk)
            (tz_em junk) (tz_ew junk) (tz_ed junk) (tz_et junk))
  else
    let '(dname, p) := copy_tzname p in
    if chr p =? 44 then
      '(sm, sw, sd, st, p) ← parse_switchtime (tail p);
      '(em, ew, ed, et, p) ← parse_switchtime p;
      '(shift, p) ← dnum p 0 86400 false 0;
      Some (mk_tzinfo name dname offset 1 shift sm sw sd st em ew ed et)
    else if chr p =? 0 then Some (mk_tzinfo name dname offset 1 3600 4 1 0 3600 10 (-1) 0 7200)
    else None.

(** [tzset], with the value of TZ. *)
Definition tzset (env : option (list Z)) (junk : tzinfo) : C unit :=
  f ← gets tzset_flag;
  if f : bool then mret ()
  else
    let p := match env with Some (c :: p) => c :: p | _ => UCT end in
    match parse_tz junk p with
    | None => mret ()
    | Some z =>
        _ ← mmod (fun s => mk_tzst (tzset_flag s) z (dstsw s) (dstsw_count s) (if tz_dst z =? 0 then 0 else 1) (timezone s));
        _ ← compute_dst_table;
        mmod (fun s => mk_tzst true (tzi s) (dstsw s) (dstsw_count s) (daylight s) (tz_tz (tzi s)))
    end.

(** ** [localtim.c] and [_mktime64] *)

(** [_localtime64_r]. It stores into the result of [_gmtime64_r]; a NULL
    there is a fault. *)
Definition localtime64_r (env : option (list Z)) (junk : tzinfo) (t : Z) (dst : tm) : C tm :=
  _ ← tzset env junk;
  '(isdst, lt) ← gmt2loc64 t;
  '(ok, d) ← gmtime64_r lt dst;
  if (ok : bool) then
    mret (mk_tm (tm_sec d) (tm_min d) (tm_hour d) (tm_mday d) (tm_mon d) (tm_year d) (tm_wday d) (tm_yday d) isdst)
  else mfail Ub.

(** The month is brought into its range. *)
Definition norm_month (t : tm) : tm :=
  let set m y := mk_tm (tm_sec t) (tm_min t) (tm_hour t) (tm_mday t) m y (tm_wday t) (tm_yday t) (tm_isdst t) in
  let '(m, y) := if tm_mon t <? 0
                 then (12 - Z.rem (s32 (- tm_mon t)) 12, s32 (tm_year t - (1 + Z.quot (s32 (- tm_mon t)) 12)))
                 else (tm_mon t, tm_year t) in
  let '(m, y) := if m >=? 12 then (Z.rem m 12, s32 (y + Z.quot m 12)) else (m, y) in
  set m y.

(** [_mktime64]: the result and the new contents of the structure; [tmp] is
    the previous contents of its local variable. *)
Definition mktime64 (env : option (list Z)) (junk : tzinfo) (tmp t : tm) : C (Z * tm) :=
  _ ← tzset env junk;
  let t := norm_month t in
  let t1 := mktime64_ t in
  if t1 =? -1 then mret (-1, t)
  else
    '(dst, t1) ← loc2gmt64 t1 (tm_isdst t);
    if dst =? -1 then mret (-1, t)
    else
      '(dst, t2) ← gmt2loc64 t1;
      if dst =? -1 then mret (-1, t)
      else
        '(ok, d) ← gmtime64_r t2 tmp;
        if negb ok then mret (-1, t)
        else
          mret (t1, mk_tm (tm_sec d) (tm_min d) (tm_hour d) (tm_mday d) (tm_mon d) (tm_year d) (tm_wday d) (tm_yday d) dst).

(** [mktime] *)
Definition mktime (env : option (list Z)) (junk : tzinfo) (tmp t : tm) : C (Z * tm) :=
  '(t64, t) ← mktime64 env junk tmp t;
  if negb (t64 =? -1) && (t64 >=? TIME_T_MIN) && (t64 <=? TIME_T_MAX) then mret (t64, t) else mret (-1, t).

(** ** [asctime.c] *)

Definition months : list Z :=
  [74;97;110; 70;101;98; 77;97;114; 65;112;114; 77;97;121; 74;117;110; 74;117;108; 65;117;103; 83;101;112; 79;99;116;
   78;111;118; 68;101;99; 0].
Definition wdays : list Z :=
  [83;117;110; 77;111;110; 84;117;101; 87;101;100; 84;104;117; 70;114;105; 83;97;116; 0].

(** [digit]: a [char]. *)
Definition digit (i : Z) : Z := (Z.rem i 10 + 48) mod 256.

(** Three bytes of a table. *)
Definition name3 (l : list Z) (i : Z) : C (list Z) :=
  a ← elem l (i * 3); b ← elem l (i * 3 + 1); c ← elem l (i * 3 + 2); mret [a; b; c].

(** [asctime_r]: the 26 bytes of the result. *)
Definition asctime_r (t : tm) : C (list Z) :=
  w ← name3 wdays (tm_wday t);
  m ← name3 months (tm_mon t);
  let y := tm_year t + 1900 in
  let d := digit (Z.quot (tm_mday t) 10) in
  mret (w ++ [32] ++ m ++ [32] ++
    [if d =? 48 then 32 else d; digit (tm_mday t); 32;
     digit (Z.quot (tm_hour t) 10); digit (tm_hour t); 58;
     digit (Z.quot (tm_min t) 10); digit (tm_min t); 58;
     digit (Z.quot (tm_sec t) 10); digit (tm_sec t); 32;
     digit (Z.quot y 1000); digit (Z.quot y 100); digit (Z.quot y 10); digit y; 10; 0]).
