(* ===== verification/TimeFacts.v ===== *)
(** Facts about the calendar functions of [Time.v]: the binary search, the
    tables, [gmtime64_r] and [mktime64_] as inverse functions, the table of
    switches and the parser of TZ. *)

From S2P Require Import Prelude Time.

(** ** The binary search *)

Lemma quot2 a : 0 <= a -> Z.quot a 2 = a / 2.
Proof. intros. by apply Z.quot_div_nonneg. Qed.

Lemma bin_search_run get v s x fuel lo hi :
  (forall i, lo <= i <= hi + 1 -> get i s = Done (v i) s) ->
  0 <= lo -> lo <= hi + 1 -> hi - lo + 1 < 2 ^ Z.of_nat fuel -> v lo <= x < v (hi + 1) ->
  exists i, bin_search get fuel x lo hi s = Done i s /\ lo <= i <= hi /\ v i <= x < v (i + 1).
Proof.
  revert lo hi. induction fuel as [|fuel IH]; intros lo hi Hget H0 Hle Hf Hx.
  { cbn in Hf. replace (hi + 1) with lo in Hx by lia. lia. }
  assert (lo <> hi + 1) by (intros Heq; rewrite <-Heq in Hx; lia).
  cbn [bin_search]. rewrite quot2 by lia. pose proof (Z.div_mod (lo + hi) 2). pose proof (Z.mod_pos_bound (lo + hi) 2).
  rewrite Nat2Z.inj_succ, Z.pow_succ_r in Hf by lia.
  set (i := (lo + hi) / 2) in *. erewrite run_bind by (apply Hget; lia). rewrite Z.gtb_ltb.
  destruct (Z.ltb_spec x (v i)).
  { destruct (IH lo (i - 1)) as (j & R & Hj & Hv); [intros j Hj; apply Hget; lia|lia..| |].
    - replace (i - 1 + 1) with i by lia. lia.
    - exists j. split; [done|]. split; [lia|done]. }
  erewrite run_bind by (apply Hget; lia). destruct (Z.leb_spec (v (i + 1)) x).
  { destruct (IH (i + 1) hi) as (j & R & Hj & Hv); [intros j Hj; apply Hget; lia|lia..|].
    exists j. split; [done|]. split; [lia|done]. }
  exists i. split; [done|]. lia.
Qed.

(** ** The tables *)

Definition yd (i : Z) : Z := default 0 (aget year_day i).
Definition md (leap : bool) (i : Z) : Z := default 0 (aget (month_table leap) i).

Definition check (n : nat) (f : Z -> bool) : bool := forallb f (zrange 0 n).

Lemma check_spec n f i : check n f = true -> 0 <= i < Z.of_nat n -> f i = true.
Proof. intros Hf Hi. eapply forallb_forall in Hf; [done|]. apply list_elem_of_In, elem_of_zrange. lia. Qed.

Lemma elem_year i s : 0 <= i <= 160 -> elem year_day i s = Done (yd i) s.
Proof.
  intros Hi. assert (Hc : check 161 (fun i => bool_decide (is_Some (aget year_day i))) = true) by by vm_compute.
  apply (check_spec _ _ i) in Hc; [|lia]. apply bool_decide_eq_true in Hc as [x Hx]. unfold elem, yd. by rewrite Hx.
Qed.

Lemma elem_month l i s : 0 <= i <= 12 -> elem (month_table l) i s = Done (md l i) s.
Proof.
  intros Hi. assert (Hc : check 13 (fun i => bool_decide (is_Some (aget (month_table l) i))) = true) by by destruct l; vm_compute.
  apply (check_spec _ _ i) in Hc; [|lia]. apply bool_decide_eq_true in Hc as [x Hx]. unfold elem, md. by rewrite Hx.
Qed.

(** The length of a year and of a month. *)
Definition year_len (leap : bool) : Z := if leap then 366 else 365.
Definition month_end (leap : bool) (m : Z) : Z := if m =? 11 then year_len leap else md leap (m + 1).

Lemma year_step i : 0 <= i < 159 -> yd (i + 1) = yd i + year_len (leap_year (i + 1900)).
Proof.
  intros Hi. assert (Hc : check 159 (fun i => yd (i + 1) =? yd i + year_len (leap_year (i + 1900))) = true) by by vm_compute.
  apply (check_spec _ _ i) in Hc; [|lia]. by apply Z.eqb_eq.
Qed.

Lemma year_last : yd 0 = -25567 /\ yd 159 = 32507 /\ yd 160 = 32767.
Proof. done. Qed.

Lemma month_step l m : 0 <= m < 12 -> md l m < month_end l m /\ month_end l m - md l m <= 31 /\ 0 <= md l m < 366
  /\ month_end l m <= md l (m + 1).
Proof.
  intros Hm. assert (Hc : check 12 (fun m => (md l m <? month_end l m) && (month_end l m - md l m <=? 31)
    && (0 <=? md l m) && (md l m <? 366) && (month_end l m <=? md l (m + 1))) = true) by by destruct l; vm_compute.
  apply (check_spec _ _ m) in Hc; [|lia]. rewrite !andb_true_iff, !Z.ltb_lt, !Z.leb_le in Hc. lia.
Qed.

(** The day number of the first of a month, by the formula and by the tables. *)
Lemma day_number_first i m :
  0 <= i < 160 -> 0 <= m < 12 -> day_number (i + 1900) (m + 1) 0 - 719528 = yd i + md (leap_year (i + 1900)) m - 1.
Proof.
  intros Hi Hm.
  assert (Hc : check 160 (fun i => check 12 (fun m =>
    day_number (i + 1900) (m + 1) 0 - 719528 =? yd i + md (leap_year (i + 1900)) m - 1)) = true) by by vm_compute.
  apply (check_spec _ _ i) in Hc; [|lia]. apply (check_spec _ _ m) in Hc; [|lia]. by apply Z.eqb_eq.
Qed.

Lemma s32_add_l a b : s32 (s32 a + b) = s32 (a + b).
Proof.
  unfold s32. f_equal. replace ((a + 2 ^ 31) mod 2 ^ 32 - 2 ^ 31 + b + 2 ^ 31) with ((a + 2 ^ 31) mod 2 ^ 32 + b) by lia.
  rewrite Zplus_mod_idemp_l. f_equal. lia.
Qed.

Lemma day_number_add y m d :
  1900 <= y < 2060 -> 1 <= m <= 12 -> - 2 ^ 30 <= d <= 2 ^ 30 -> day_number y m d = day_number y m 0 + d.
Proof.
  intros Hy Hm Hd. unfold day_number. change (INT_MAX / 365) with 5883516.
  rewrite (proj2 (Z.ltb_ge y 1582)) by lia. rewrite Z.geb_leb, (proj2 (Z.leb_gt 5883516 y)) by lia. cbn [orb].
  assert (Hq : forall a b, 0 <= a <= 100000 -> 0 < b -> 0 <= Z.quot a b <= 100000).
  { intros a b Ha Hb. rewrite Z.quot_div_nonneg by lia. pose proof (Z.div_pos a b).
    pose proof (Z.div_le_upper_bound a b 100000). nia. }
  destruct (Z.leb_spec m 2).
  - pose proof (Hq (y - 1) 4). pose proof (Hq (y - 1) 100). pose proof (Z.quot_le_upper_bound (y - 1) 100 21).
    pose proof (Hq (3 * (Z.quot (y - 1) 100 + 1)) 4). rewrite !s32_small; (rewrite ?s32_small; lia).
  - pose proof (Hq y 4). pose proof (Hq y 100). pose proof (Z.quot_le_upper_bound y 100 21).
    pose proof (Hq (4 * m + 23) 10).
    pose proof (Hq (3 * (Z.quot y 100 + 1)) 4).
    rewrite (s32_small (365 * y + d + _)), (s32_small (365 * y + 0 + _)) by lia.
    rewrite (s32_small (365 * y + d + _ - _)), (s32_small (365 * y + 0 + _ - _)) by lia.
    rewrite !s32_small by lia. lia.
Qed.

(** ** [gmtime64_r] *)

Definition DAY : Z := 86400.

(** [d] is the broken-down UTC time of [t]. *)
Record is_date (t : Z) (d : tm) : Prop := mk_is_date {
  dt_sec : 0 <= tm_sec d < 60;
  dt_min : 0 <= tm_min d < 60;
  dt_hour : 0 <= tm_hour d < 24;
  dt_year : 0 <= tm_year d < YEARS;
  dt_mon : 0 <= tm_mon d < 12;
  dt_mday : 1 <= tm_mday d <= month_end (leap_year (tm_year d + 1900)) (tm_mon d) - md (leap_year (tm_year d + 1900)) (tm_mon d);
  dt_yday : tm_yday d = md (leap_year (tm_year d + 1900)) (tm_mon d) + tm_mday d - 1;
  dt_wday : tm_wday d = (t / DAY + 4) mod 7;
  dt_time : t = DAY * (yd (tm_year d) + tm_yday d) + 3600 * tm_hour d + 60 * tm_min d + tm_sec d
}.

Lemma day_split t : t = DAY * (t / DAY) + t mod DAY /\ 0 <= t mod DAY < DAY.
Proof. unfold DAY. pose proof (Z.div_mod t 86400). pose proof (Z.mod_pos_bound t 86400). lia. Qed.

Lemma fix_rem_run t s :
  - 2 ^ 31 <= t / DAY < 2 ^ 31 ->
  fix_rem 1 (s32 (Z.quot t (60 * 60 * 24))) (Z.rem t (60 * 60 * 24)) s = Done (t / DAY, t mod DAY) s.
Proof.
  intros Hr. change (60 * 60 * 24) with DAY. destruct (day_split t) as [Ht Hm].
  pose proof (Z.quot_rem' t DAY) as Hq. pose proof (Z.rem_bound_abs t DAY ltac:(done)) as Hb.
  unfold DAY in *. cbn [fix_rem]. destruct (Z.ltb_spec (Z.rem t 86400) 0) as [Hneg|Hpos].
  - assert (Z.quot t 86400 = t / 86400 + 1 /\ Z.rem t 86400 + 60 * 60 * 24 = t mod 86400) as [-> ->] by lia.
    replace (s32 (t / 86400 + 1) - 1) with (s32 (t / 86400 + 1) + -1) by lia.
    rewrite s32_add_l. replace (t / 86400 + 1 + -1) with (t / 86400) by lia. rewrite s32_small by lia.
    by rewrite (proj2 (Z.ltb_ge (t mod 86400) 0)) by lia.
  - assert (Z.quot t 86400 = t / 86400 /\ Z.rem t 86400 = t mod 86400) as [-> ->] by lia.
    by rewrite s32_small by lia.
Qed.

Lemma month_search_run l x s :
  0 <= x < year_len l -> exists m, month_search 12 (month_table l) x 0 s = Done m s /\ 0 <= m < 12 /\ md l m <= x < month_end l m.
Proof.
  intros Hx.
  assert (Hgen : forall k m, (Z.of_nat k = 12 - m)%Z -> 0 <= m < 12 -> md l m <= x ->
    exists m', month_search k (month_table l) x m s = Done m' s /\ 0 <= m' < 12 /\ md l m' <= x < month_end l m').
  { induction k as [|k IH]; intros m Hk Hm Hlo; [lia|]. cbn [month_search].
    erewrite run_bind by (apply elem_month; lia). rewrite Z.geb_leb. destruct (month_step l m Hm) as (_ & _ & _ & H4).
    destruct (Z.leb_spec (md l (m + 1)) x) as [Hge|Hlt].
    - destruct (Z.eq_dec m 11) as [->|Hne]; [|apply IH; lia]. exfalso.
      change (md l (11 + 1)) with (md l 12) in Hge. assert (md l 12 = USHRT_MAX) as Hu by by destruct l.
      rewrite Hu in Hge. unfold USHRT_MAX, year_len in *. destruct l; lia.
    - exists m. split; [done|]. split; [done|]. unfold month_end. destruct (Z.eqb_spec m 11); lia. }
  apply (Hgen 12%nat 0); [done|lia|]. assert (md l 0 = 0) as -> by by destruct l. lia.
Qed.

Lemma wday_run x : - 2 ^ 31 <= x < 2 ^ 31 - 4 -> (let w := Z.rem (s32 (x + 4)) 7 in if w <? 0 then w + 7 else w) = (x + 4) mod 7.
Proof.
  intros Hx. cbv zeta. rewrite s32_small by lia.
  pose proof (Z.quot_rem' (x + 4) 7). pose proof (Z.rem_bound_abs (x + 4) 7 ltac:(done)).
  pose proof (Z.div_mod (x + 4) 7). pose proof (Z.mod_pos_bound (x + 4) 7). destruct (Z.ltb_spec (Z.rem (x + 4) 7) 0); lia.
Qed.

Definition in_calendar (t : Z) : Prop := -25567 <= t / DAY <= 32507.

Lemma year_of x : -25567 <= x <= 32507 ->
  forall s, exists i, bin_search (elem year_day) 9 x 0 (YEARS - 1) s = Done i s /\ 0 <= i < YEARS
    /\ 0 <= x - yd i < year_len (leap_year (i + 1900)).
Proof.
  intros Hx s. destruct (bin_search_run (elem year_day) yd s x 9 0 (YEARS - 1)) as (i & R & Hi & Hv); unfold YEARS in *.
  - intros j Hj. apply elem_year. lia.
  - lia.
  - lia.
  - lia.
  - destruct year_last as (H0 & _ & H160). cbn [Z.sub Z.add]. change (160 - 1 + 1) with 160. lia.
  - exists i. split; [done|]. split; [lia|]. destruct (Z.eq_dec i 159) as [->|Hne].
    + destruct year_last as (_ & H159 & _). change (leap_year (159 + 1900)) with false. unfold year_len. lia.
    + pose proof (year_step i). lia.
Qed.

Lemma gmtime_run t dst s :
  in_calendar t -> exists d, gmtime64_r t dst s = Done (true, d) s /\ is_date t d /\ tm_isdst d = -1.
Proof.
  intros Hc. unfold in_calendar in Hc. destruct (day_split t) as [Ht Hm]. unfold gmtime64_r.
  erewrite run_bind by (apply fix_rem_run; lia). cbn beta iota zeta.
  set (x := t / DAY) in *. set (r := t mod DAY) in *. unfold DAY in Ht, Hm.
  pose proof (wday_run x ltac:(lia)) as Hw. cbv zeta in Hw.
  erewrite run_bind by (by apply elem_year). destruct year_last as (Hy0 & Hy9 & _).
  change (YEARS - 1) with 159. rewrite Hy9, (proj2 (Z.ltb_ge 32507 x)) by lia.
  erewrite run_bind by (by apply elem_year). rewrite Hy0, Z.gtb_ltb, (proj2 (Z.ltb_ge x (-25567))) by lia.
  destruct (year_of x Hc s) as (i & R & Hi & Hyd). unfold YEARS in *. erewrite run_bind by exact R.
  erewrite run_bind by (apply elem_year; lia).
  destruct (month_search_run _ _ s Hyd) as (m & Rm & Hmr & Hmd). erewrite run_bind by exact Rm.
  erewrite run_bind by (apply elem_month; lia).
  eexists. split; [done|]. split; [|done].
  change (60 * 60) with 3600. rewrite !Z.quot_div_nonneg, !Z.rem_mod_nonneg by (try lia; rewrite ?Z.rem_mod_nonneg by lia; apply Z.mod_pos_bound; lia).
  pose proof (Z.div_mod r 3600). pose proof (Z.mod_pos_bound r 3600).
  pose proof (Z.div_mod (r mod 3600) 60). pose proof (Z.mod_pos_bound (r mod 3600) 60).
  constructor; cbn [tm_sec tm_min tm_hour tm_mday tm_mon tm_year tm_wday tm_yday]; unfold YEARS, DAY; try lia.
  - exact Hw.
Qed.

(** Dates outside of the tables. *)
Lemma gmtime_fails t dst s :
  - 2 ^ 31 <= t / DAY < 2 ^ 31 -> ~ in_calendar t -> exists d, gmtime64_r t dst s = Done (false, d) s.
Proof.
  intros Hr Hc. unfold in_calendar in Hc. unfold gmtime64_r. erewrite run_bind by (by apply fix_rem_run). cbn beta iota zeta.
  erewrite run_bind by (by apply elem_year). destruct year_last as (Hy0 & Hy9 & _).
  change (YEARS - 1) with 159. rewrite Hy9. destruct (Z.ltb_spec 32507 (t / DAY)); [by eexists|].
  erewrite run_bind by (by apply elem_year). rewrite Hy0, Z.gtb_ltb, (proj2 (Z.ltb_lt (t / DAY) (-25567))) by lia.
  by eexists.
Qed.

(** ** [mktime64_] is its inverse *)

Lemma date_range t d : is_date t d -> 0 <= tm_yday d < 366 /\ -25567 <= yd (tm_year d) <= 32507.
Proof.
  intros [D1 D2 D3 D4 D5 D6 D7 D8 D9]. unfold YEARS in *.
  destruct (month_step (leap_year (tm_year d + 1900)) (tm_mon d) D5) as (H1 & H2 & H3 & H4).
  assert (Hc : check 160 (fun i => (-25567 <=? yd i) && (yd i <=? 32507)) = true) by by vm_compute.
  apply (check_spec _ _ (tm_year d)) in Hc; [|lia]. rewrite andb_true_iff, !Z.leb_le in Hc. split; [|lia].
  assert (He : month_end (leap_year (tm_year d + 1900)) (tm_mon d) <= 366).
  { assert (Hc2 : forall l, check 12 (fun m => month_end l m <=? 366) = true) by (by intros []; vm_compute).
    apply Z.leb_le. by apply (check_spec 12 _ _ (Hc2 _)). }
  lia.
Qed.

Lemma mktime_date t d : is_date t d -> mktime64_ d = t.
Proof.
  intros Hd. destruct (date_range t d Hd) as [Hyd Hy]. destruct Hd as [D1 D2 D3 D4 D5 D6 D7 D8 D9]. unfold YEARS in *.
  destruct (month_step (leap_year (tm_year d + 1900)) (tm_mon d) D5) as (_ & H2 & _).
  unfold mktime64_. rewrite (s32_small (tm_year d + 1900)), (s32_small (tm_mon d + 1)) by lia.
  rewrite day_number_add by lia. pose proof (day_number_first (tm_year d) (tm_mon d) D4 D5) as Hf.
  replace (day_number (tm_year d + 1900) (tm_mon d + 1) 0 + tm_mday d - 719528) with (yd (tm_year d) + tm_yday d) by lia.
  unfold DAY in D9. rewrite (s32_small (tm_sec d + _ + _)), (s64_small ((_ + _) * _ * _ * _)), s64_small; lia.
Qed.

Lemma year_unique i j x y :
  0 <= i < 160 -> 0 <= j < 160 -> 0 <= x < year_len (leap_year (i + 1900)) -> 0 <= y < year_len (leap_year (j + 1900)) ->
  yd i + x = yd j + y -> i = j.
Proof.
  intros Hi Hj Hx Hy He.
  assert (Hc : check 160 (fun i => check 160 (fun j => (i <=? j) || (yd j + year_len (leap_year (j + 1900)) <=? yd i))) = true)
    by by vm_compute.
  pose proof (check_spec _ _ i Hc Hi) as H1. apply (check_spec _ _ j) in H1; [|done].
  pose proof (check_spec _ _ j Hc Hj) as H2. apply (check_spec _ _ i) in H2; [|done].
  clear Hc. cbn beta in H1, H2. rewrite orb_true_iff, !Z.leb_le in H1, H2. lia.
Qed.

Lemma month_unique l m n x :
  0 <= m < 12 -> 0 <= n < 12 -> md l m <= x < month_end l m -> md l n <= x < month_end l n -> m = n.
Proof.
  intros Hm Hn H1 H2.
  assert (Hc : check 12 (fun m => check 12 (fun n => (m <=? n) || (month_end l n <=? md l m))) = true) by by destruct l; vm_compute.
  pose proof (check_spec _ _ m Hc Hm) as C1. apply (check_spec _ _ n) in C1; [|done].
  pose proof (check_spec _ _ n Hc Hn) as C2. apply (check_spec _ _ m) in C2; [|done].
  clear Hc. cbn beta in C1, C2. rewrite orb_true_iff, !Z.leb_le in C1, C2. lia.
Qed.

Lemma yday_range t d : is_date t d -> 0 <= tm_yday d < year_len (leap_year (tm_year d + 1900)).
Proof.
  intros [D1 D2 D3 D4 D5 D6 D7 D8 D9]. set (l := leap_year _) in *.
  assert (Hc : check 12 (fun m => (0 <=? md l m) && (month_end l m <=? year_len l)) = true) by by destruct l; vm_compute.
  apply (check_spec _ _ (tm_mon d)) in Hc; [|done]. rewrite andb_true_iff, !Z.leb_le in Hc. lia.
Qed.

(** A time has one broken-down form. *)
Lemma date_unique t d d' : is_date t d -> is_date t d' -> tm_isdst d = tm_isdst d' -> d = d'.
Proof.
  intros Hd Hd' Hs. pose proof (yday_range _ _ Hd). pose proof (yday_range _ _ Hd').
  destruct Hd as [D1 D2 D3 D4 D5 D6 D7 D8 D9], Hd' as [E1 E2 E3 E4 E5 E6 E7 E8 E9]. unfold YEARS, DAY in *.
  assert (Hday : yd (tm_year d) + tm_yday d = yd (tm_year d') + tm_yday d') by lia.
  assert (Hy : tm_year d = tm_year d') by (by eapply year_unique).
  rewrite Hy in *. set (l := leap_year _) in *.
  assert (Hm : tm_mon d = tm_mon d') by (apply (month_unique l _ _ (tm_yday d)); lia).
  rewrite Hm in *. destruct d, d'. cbn in *. f_equal; lia.
Qed.

(** ** [find_switch] *)

(** The table of switches as the other functions need it. *)
Record table_ok (s : tzst) : Prop := mk_table_ok {
  tb_count : 2 <= dstsw_count s <= 2 * YEARS + 2;
  tb_len : dstsw_count s <= alen (dstsw s);
  tb_first : exists sh, aget (dstsw s) 0 = Some (mk_dstswitch TIME64_T_MIN sh);
  tb_last : exists sh, aget (dstsw s) (dstsw_count s - 1) = Some (mk_dstswitch TIME64_T_MAX sh);
  tb_shift : forall i sw, 0 <= i < dstsw_count s - 1 -> aget (dstsw s) i = Some sw ->
    sw_shift sw = 0 \/ (sw_shift sw = tz_shift (tzi s) /\ 0 <= tz_shift (tzi s) <= 86400);
  tb_zone : -86399 <= tz_tz (tzi s) <= 86399;
  tb_time : forall i sw, 0 <= i < dstsw_count s -> aget (dstsw s) i = Some sw -> TIME64_T_MIN <= sw_time sw <= TIME64_T_MAX
}.

Definition sw_at (s : tzst) (i : Z) : dstswitch := default (mk_dstswitch 0 0) (aget (dstsw s) i).

Lemma get_switch_run s i : table_ok s -> 0 <= i < dstsw_count s -> get_switch i s = Done (sw_at s i) s.
Proof.
  intros [T1 T2 _ _ _ _ _] Hi. unfold get_switch, sw_at. erewrite run_bind by done. unfold elem.
  destruct (aget_is_Some (dstsw s) i) as [sw ->]; [lia|done].
Qed.

Lemma find_switch_run s t :
  table_ok s -> TIME64_T_MIN <= t <= TIME64_T_MAX ->
  exists i, find_switch t s = Done (sw_at s i) s /\ 0 <= i < dstsw_count s - 1
    /\ sw_time (sw_at s i) <= t /\ (t < sw_time (sw_at s (i + 1)) \/ t = TIME64_T_MAX)
    /\ (sw_shift (sw_at s i) = 0 \/ (sw_shift (sw_at s i) = tz_shift (tzi s) /\ 0 <= tz_shift (tzi s) <= 86400)).
Proof.
  intros Hok Ht. pose proof Hok as [T1 T2 [sh0 T3] [sh1 T4] T5 _ T6]. unfold YEARS in *.
  assert (Hsh : forall i, 0 <= i < dstsw_count s - 1 -> sw_shift (sw_at s i) = 0
    \/ (sw_shift (sw_at s i) = tz_shift (tzi s) /\ 0 <= tz_shift (tzi s) <= 86400)).
  { intros i Hi. unfold sw_at. destruct (aget (dstsw s) i) as [sw|] eqn:Hg; cbn; [by eapply T5|by left]. }
  assert (Hfirst : sw_time (sw_at s 0) = TIME64_T_MIN) by (unfold sw_at; by rewrite T3).
  assert (Hlast : sw_time (sw_at s (dstsw_count s - 1)) = TIME64_T_MAX) by (unfold sw_at; by rewrite T4).
  unfold find_switch. erewrite run_bind by done. destruct (Z.eqb_spec t TIME64_T_MAX) as [->|Hne].
  - exists (dstsw_count s - 2).
    assert (Hle : sw_time (sw_at s (dstsw_count s - 2)) <= TIME64_T_MAX).
    { unfold sw_at. destruct (aget (dstsw s) (dstsw_count s - 2)) as [sw|] eqn:Hg; cbn; [|unfold TIME64_T_MAX; lia].
      destruct (T6 (dstsw_count s - 2) sw); [lia|done|done]. }
    split; [|split_and!; [lia|lia|done|by right|apply Hsh; lia]].
    erewrite run_bind.
    { apply get_switch_run; [done|lia]. }
    erewrite run_bind by (apply get_switch_run; [done|lia]). rewrite (proj2 (Z.leb_le _ _) Hle).
    erewrite run_bind by done. erewrite run_bind by (apply get_switch_run; [done|lia]).
    replace (dstsw_count s - 2 + 1) with (dstsw_count s - 1) by lia. rewrite Hlast, Z.leb_refl. done.
  - destruct (bin_search_run (fun i => sw ← get_switch i; mret (sw_time sw)) (fun i => sw_time (sw_at s i)) s t 10 0 (dstsw_count s - 2))
      as (i & R & Hi & Hv).
    + intros j Hj. by erewrite run_bind by (apply get_switch_run; [done|lia]).
    + lia.
    + lia.
    + lia.
    + replace (dstsw_count s - 2 + 1) with (dstsw_count s - 1) by lia. rewrite Hfirst, Hlast. lia.
    + exists i. split; [|split_and!; [lia|lia|lia|left; lia|apply Hsh; lia]].
      erewrite run_bind.
      { apply get_switch_run; [done|lia]. }
      erewrite run_bind by exact R. erewrite run_bind by (apply get_switch_run; [done|lia]).
      rewrite (proj2 (Z.leb_le (sw_time (sw_at s i)) t)) by lia.
      erewrite run_bind by done. erewrite run_bind by (apply get_switch_run; [done|lia]).
      rewrite (proj2 (Z.ltb_lt t (sw_time (sw_at s (i + 1))))) by lia. done.
Qed.

(** ** Local time *)

(** The shift that applies at [t]. *)
Definition shift_at (s : tzst) (t : Z) : Z := match find_switch t s with Done sw _ => sw_shift sw | _ => 0 end.

Lemma find_shift s t :
  table_ok s -> TIME64_T_MIN <= t <= TIME64_T_MAX ->
  exists sw, find_switch t s = Done sw s /\ sw_shift sw = shift_at s t
    /\ (shift_at s t = 0 \/ (shift_at s t = tz_shift (tzi s) /\ 0 <= tz_shift (tzi s) <= 86400)).
Proof.
  intros Hok Ht. destruct (find_switch_run s t Hok Ht) as (i & R & _ & _ & _ & Hs).
  exists (sw_at s i). unfold shift_at. rewrite R. done.
Qed.

Definition moderate (t : Z) : Prop := - 2 ^ 61 <= t <= 2 ^ 61.

Lemma calendar_moderate t : in_calendar t -> moderate t.
Proof. unfold in_calendar, moderate, DAY. intros Hc. pose proof (Z.div_mod t 86400). pose proof (Z.mod_pos_bound t 86400). lia. Qed.

Lemma gmt2loc_run s t :
  table_ok s -> moderate t ->
  gmt2loc64 t s = Done (if shift_at s t =? 0 then 0 else 1, t - tz_tz (tzi s) + shift_at s t) s.
Proof.
  intros Hok Ht. unfold moderate in Ht. destruct (find_shift s t Hok) as (sw & R & Hsw & Hsh).
  { unfold TIME64_T_MIN, TIME64_T_MAX. lia. }
  pose proof (tb_zone s Hok). unfold gmt2loc64. erewrite run_bind by done. erewrite run_bind by done. rewrite Hsw.
  rewrite s32_small, s64_small by lia. rewrite !Z.gtb_ltb.
  set (d := tz_tz (tzi s) - shift_at s t).
  assert ((if 0 <? d then t <? t - d else t - d <? t) = false) as ->.
  { destruct (Z.ltb_spec 0 d); apply Z.ltb_ge; lia. }
  unfold mret, M_ret. f_equal. f_equal; [by destruct (shift_at s t =? 0)|lia].
Qed.

(** With the flag [_gmt2loc64] returned, [_loc2gmt64] goes back. *)
Lemma loc2gmt_run s t :
  table_ok s -> moderate t ->
  exists b, loc2gmt64 (t - tz_tz (tzi s) + shift_at s t) (if shift_at s t =? 0 then 0 else 1) s = Done (b, t) s
    /\ b = if shift_at s t =? 0 then 0 else 1.
Proof.
  intros Hok Ht. unfold moderate in Ht. destruct (find_shift s t Hok) as (sw & R & Hsw & Hsh).
  { unfold TIME64_T_MIN, TIME64_T_MAX. lia. }
  pose proof (tb_zone s Hok). set (p := t - tz_tz (tzi s) + shift_at s t).
  exists (if shift_at s t =? 0 then 0 else 1). split; [|done].
  unfold loc2gmt64. erewrite run_bind by done. destruct (Z.eqb_spec (shift_at s t) 0) as [Hz|Hz].
  - change (0 >? 0) with false. change (0 =? 0) with true. cbn iota zeta.
    replace (s64 (p + tz_tz (tzi s))) with t by (rewrite s64_small; lia). rewrite !Z.gtb_ltb.
    assert ((if 0 <? tz_tz (tzi s) then t <? p else p <? t) = false) as ->.
    { destruct (Z.ltb_spec 0 (tz_tz (tzi s))); apply Z.ltb_ge; lia. }
    erewrite run_bind by done. by rewrite Hsw, Hz.
  - destruct Hsh as [?|[Hsh Hb]]; [done|]. change (1 >? 0) with true. cbn iota zeta. rewrite <-Hsh in *.
    rewrite s32_small by lia. replace (s64 (p + (tz_tz (tzi s) - shift_at s t))) with t by (rewrite s64_small; lia).
    rewrite !Z.gtb_ltb.
    assert ((if 0 <? tz_tz (tzi s) - shift_at s t then t <? p else p <? t) = false) as ->.
    { destruct (Z.ltb_spec 0 (tz_tz (tzi s) - shift_at s t)); apply Z.ltb_ge; lia. }
    erewrite run_bind by done. rewrite Hsw. by rewrite (proj2 (Z.eqb_neq _ _) Hz).
Qed.

(** ** The table of switches *)

(** What the parser guarantees. *)
Record zone_ok (z : tzinfo) : Prop := mk_zone_ok {
  zn_tz : -86399 <= tz_tz z <= 86399;
  zn_dst : tz_dst z <> 0 ->
    0 <= tz_shift z <= 86400 /\ 1 <= tz_sm z <= 12 /\ -4 <= tz_sw z <= 4 /\ 0 <= tz_sd z <= 31 /\ 0 <= tz_st z <= 86399
    /\ 1 <= tz_em z <= 12 /\ -4 <= tz_ew z <= 4 /\ 0 <= tz_ed z <= 31 /\ 0 <= tz_et z <= 86399
}.

Lemma switch_day_run month week day ywday l s :
  1 <= month <= 12 -> -4 <= week <= 4 -> 0 <= day <= 31 ->
  exists d, switch_day month week day ywday (month_table l) s = Done d s /\ -10 <= d <= 500.
Proof.
  intros Hm Hw Hd. unfold switch_day.
  assert (Hb : forall i, 0 <= i < 12 -> 0 <= md l i <= 335).
  { intros i Hi. assert (Hc : check 12 (fun i => (0 <=? md l i) && (md l i <=? 335)) = true) by by destruct l; vm_compute.
    apply (check_spec _ _ i) in Hc; [|done]. rewrite andb_true_iff, !Z.leb_le in Hc. done. }
  assert (Hrem : forall a, -6 <= Z.rem a 7 <= 6) by (intros a; pose proof (Z.rem_bound_abs a 7); lia).
  rewrite Z.gtb_ltb. destruct (Z.ltb_spec 0 week); [|destruct (Z.ltb_spec week 0)].
  - erewrite run_bind by (apply elem_month; lia). specialize (Hb (month - 1)). specialize (Hrem (md l (month - 1) + ywday)).
    eexists. split; [done|]. destruct (negb _); lia.
  - destruct (Z.eqb_spec month 12).
    + erewrite run_bind by (erewrite run_bind by (by apply elem_month); done). specialize (Hb 11).
      specialize (Hrem (md l 11 + 31 - 1 + ywday)). eexists. split; [done|]. destruct (negb _); lia.
    + erewrite run_bind by (erewrite run_bind by (apply elem_month; lia); done). specialize (Hb month).
      assert (1 <= md l month).
      { assert (Hc : check 12 (fun i => (i =? 0) || (1 <=? md l i)) = true) by by destruct l; vm_compute.
        apply (check_spec _ _ month) in Hc; [|lia]. rewrite orb_true_iff, Z.leb_le, Z.eqb_eq in Hc. lia. }
      specialize (Hrem (md l month - 1 + ywday)). eexists. split; [done|]. destruct (negb _); lia.
  - erewrite run_bind by (apply elem_month; lia). specialize (Hb (month - 1)). eexists. split; [done|]. lia.
Qed.

Lemma add_clip_small t y : moderate t -> moderate y -> add_clip t y = t + y.
Proof.
  unfold moderate, add_clip, ADD_OK. intros Ht Hy. rewrite !(s64_small (y + t)), (s64_small (t + y)) by lia.
  rewrite !Z.gtb_ltb.
  destruct (Z.eqb_spec t 0), (Z.eqb_spec y 0); cbn [orb]; [done..|].
  destruct (Z.ltb_spec 0 y), (Z.ltb_spec 0 t), (Z.ltb_spec y 0), (Z.ltb_spec t 0); try lia; cbn [andb orb].
  all: destruct (Z.ltb_spec y (y + t)), (Z.ltb_spec (y + t) y); cbn [orb]; (done || lia).
Qed.

Definition entry_ok (z : tzinfo) (sw : dstswitch) : Prop :=
  (sw_shift sw = 0 \/ sw_shift sw = tz_shift z) /\ TIME64_T_MIN <= sw_time sw <= TIME64_T_MAX.

(** The first [i] entries are filled. *)
Record filled (z : tzinfo) (i : Z) (s : tzst) : Prop := mk_filled {
  fl_len : alen (dstsw s) = 2 * YEARS + 2;
  fl_entries : forall k sw, 0 <= k < i -> aget (dstsw s) k = Some sw -> entry_ok z sw;
  fl_first : 0 < i -> exists sh, aget (dstsw s) 0 = Some (mk_dstswitch TIME64_T_MIN sh)
}.

(** The same but for the table. *)
Definition same_zone (s s' : tzst) : Prop :=
  tzi s' = tzi s /\ tzset_flag s' = tzset_flag s /\ daylight s' = daylight s /\ timezone s' = timezone s.

Lemma put_switch_run z i t sh s :
  filled z i s -> 0 <= i < 2 * YEARS + 2 -> entry_ok z (mk_dstswitch t sh) -> (i = 0 -> t = TIME64_T_MIN) ->
  exists s', put_switch i t sh s = Done () s' /\ filled z (i + 1) s' /\ same_zone s s'.
Proof.
  intros [F1 F2 F3] Hi He H0. unfold put_switch. erewrite run_bind by done. rewrite F1.
  rewrite (proj2 (Z.leb_le 0 i)), (proj2 (Z.ltb_lt i (2 * YEARS + 2))) by lia. cbn [andb].
  eexists. split; [done|]. split; [|done]. constructor; cbn [dstsw set_dstsw].
  - by rewrite alen_aset.
  - intros k sw Hk. rewrite aget_aset by lia. case_decide as Hd; [by intros [= <-]|]. apply F2. lia.
  - intros _. rewrite aget_aset by lia. case_decide as Hd; [exists sh; by rewrite H0|]. apply F3. lia.
Qed.

Lemma dst_year_run z y s :
  zone_ok z -> tz_dst z <> 0 -> 0 <= y < 160 -> filled z (if y =? 0 then 0 else 2 * y + 1) s ->
  exists s', dst_year z y (if y =? 0 then 0 else 2 * y + 1) s = Done (2 * (y + 1) + 1) s'
    /\ filled z (2 * (y + 1) + 1) s' /\ same_zone s s'.
Proof.
  intros [Htz Hz] Hdst Hy Hf. destruct (Hz Hdst) as (Z1 & Z2 & Z3 & Z4 & Z5 & Z6 & Z7 & Z8 & Z9).
  unfold dst_year. erewrite run_bind by (apply elem_year; lia).
  assert (Hyd : -25567 <= yd y <= 32507).
  { assert (Hc : check 160 (fun i => (-25567 <=? yd i) && (yd i <=? 32507)) = true) by by vm_compute.
    apply (check_spec _ _ y) in Hc; [|done]. rewrite andb_true_iff, !Z.leb_le in Hc. lia. }
  set (l := leap_year (y + 1900)).
  destruct (switch_day_run (tz_sm z) (tz_sw z) (tz_sd z) (yd y + 4) l s) as (d1 & R1 & B1); [lia..|].
  erewrite run_bind by exact R1.
  destruct (switch_day_run (tz_em z) (tz_ew z) (tz_ed z) (yd y + 4) l s) as (d2 & R2 & B2); [lia..|].
  erewrite run_bind by exact R2. rewrite !add_clip_small by (unfold moderate; lia).
  set (t1 := _ + yd y * 24 * 60 * 60). set (t2 := _ + yd y * 24 * 60 * 60).
  assert (T1 : TIME64_T_MIN < t1 < TIME64_T_MAX) by (unfold t1, TIME64_T_MIN, TIME64_T_MAX; lia).
  assert (T2 : TIME64_T_MIN < t2 < TIME64_T_MAX) by (unfold t2, TIME64_T_MIN, TIME64_T_MAX; lia).
  assert (Hgen : forall sh0 ta sa tb sb, (sh0 = 0 \/ sh0 = tz_shift z) -> entry_ok z (mk_dstswitch ta sa) -> entry_ok z (mk_dstswitch tb sb) ->
    exists s', (i ← (if (if y =? 0 then 0 else 2 * y + 1) =? 0 then _ ← put_switch 0 TIME64_T_MIN sh0; mret 1
                     else mret (if y =? 0 then 0 else 2 * y + 1));
                _ ← put_switch i ta sa; _ ← put_switch (i + 1) tb sb; mret (i + 2)) s = Done (2 * (y + 1) + 1) s'
      /\ filled z (2 * (y + 1) + 1) s' /\ same_zone s s').
  { intros sh0 ta sa tb sb H0 Ha Hb. unfold YEARS in *.
    assert (Hfirst : exists s1, (if (if y =? 0 then 0 else 2 * y + 1) =? 0 then _ ← put_switch 0 TIME64_T_MIN sh0; mret 1
                     else mret (if y =? 0 then 0 else 2 * y + 1)) s = Done (2 * y + 1) s1 /\ filled z (2 * y + 1) s1 /\ same_zone s s1).
    { destruct (Z.eqb_spec y 0) as [->|Hne].
      - destruct (put_switch_run z 0 TIME64_T_MIN sh0 s Hf) as (s1 & Rp & Fp & Sp); [done|by split|done|].
        exists s1. cbn [Z.eqb]. by erewrite run_bind by exact Rp.
      - exists s. rewrite (proj2 (Z.eqb_neq (2 * y + 1) 0)) by lia. done. }
    destruct Hfirst as (s1 & Rf & Ff & (S1 & S2 & S3 & S4)). erewrite run_bind by exact Rf.
    destruct (put_switch_run z (2 * y + 1) ta sa s1 Ff) as (s2 & R3 & F3 & (S5 & S6 & S7 & S8)); [unfold YEARS; lia|done|lia|].
    erewrite run_bind by exact R3.
    destruct (put_switch_run z (2 * y + 1 + 1) tb sb s2 F3) as (s3 & R4 & F4 & (S9 & S10 & S11 & S12)); [unfold YEARS; lia|done|lia|].
    erewrite run_bind by exact R4. exists s3. replace (2 * (y + 1) + 1) with (2 * y + 1 + 1 + 1) by lia.
    split; [unfold mret, M_ret; f_equal; lia|]. split; [done|]. split_and!; congruence. }
  destruct ((d1 <? d2) || _); apply Hgen; try (by left); try (by right); unfold entry_ok; cbn; lia.
Qed.

Lemma dst_years_run z s :
  zone_ok z -> tz_dst z <> 0 -> filled z 0 s ->
  exists s', dst_years 161 z 0 0 s = Done (2 * YEARS + 1) s' /\ filled z (2 * YEARS + 1) s' /\ same_zone s s'.
Proof.
  intros Hz Hdst Hf.
  assert (Hgen : forall n y s1, Z.of_nat n = 161 - y -> 0 <= y <= 160 -> filled z (if y =? 0 then 0 else 2 * y + 1) s1 ->
    exists s', dst_years n z y (if y =? 0 then 0 else 2 * y + 1) s1 = Done (2 * YEARS + 1) s'
      /\ filled z (2 * YEARS + 1) s' /\ same_zone s1 s').
  { induction n as [|n IH]; intros y s1 Hn Hy Hfl; [lia|]. cbn [dst_years]. erewrite run_bind by (apply elem_year; lia).
    destruct (Z.eq_dec y 160) as [->|Hne]; [exists s1; done|].
    assert (Hc : check 160 (fun i => negb (yd i =? SHRT_MAX)) = true) by by vm_compute.
    apply (check_spec _ _ y) in Hc; [|lia]. apply negb_true_iff in Hc. rewrite Hc.
    destruct (dst_year_run z y s1 Hz Hdst ltac:(lia) Hfl) as (s2 & R2 & F2 & (S1 & S2 & S3 & S4)). erewrite run_bind by exact R2.
    specialize (IH (y + 1) s2). rewrite (proj2 (Z.eqb_neq (y + 1) 0)) in IH by lia.
    destruct IH as (s3 & R3 & F3 & (S5 & S6 & S7 & S8)); [lia|lia|done|]. exists s3. split; [done|]. split; [done|].
    split_and!; congruence. }
  by apply (Hgen 161%nat 0 s).
Qed.

Lemma compute_dst_table_run s :
  zone_ok (tzi s) -> alen (dstsw s) = 2 * YEARS + 2 ->
  exists s', compute_dst_table s = Done () s' /\ table_ok s' /\ same_zone s s' /\ alen (dstsw s') = 2 * YEARS + 2.
Proof.
  intros Hz Hlen. pose proof Hz as [Htz Hd]. unfold compute_dst_table. erewrite run_bind by done.
  assert (Hf0 : filled (tzi s) 0 s) by (constructor; [done|lia|lia]).
  assert (Hmin : forall sh, sh = 0 \/ sh = tz_shift (tzi s) -> entry_ok (tzi s) (mk_dstswitch TIME64_T_MIN sh)).
  { intros sh Hsh. split; [done|]. unfold TIME64_T_MIN, TIME64_T_MAX. cbn. lia. }
  destruct (Z.eqb_spec (tz_dst (tzi s)) 0) as [Hn|Hn].
  - destruct (put_switch_run (tzi s) 0 TIME64_T_MIN 0 s Hf0) as (s1 & R1 & F1 & (S1 & S2 & S3 & S4)); [done|auto|done|].
    erewrite run_bind by exact R1. set (s2 := set_dstsw (aset (dstsw s1) 1 (mk_dstswitch TIME64_T_MAX 0)) (dstsw_count s1) s1).
    assert (R2 : put_switch 1 TIME64_T_MAX 0 s1 = Done () s2).
    { unfold put_switch. erewrite run_bind by done. by rewrite (fl_len _ _ _ F1). }
    erewrite run_bind by exact R2. eexists. split; [done|]. destruct F1 as [L1 E1 [sh0 Fi]]; [lia|].
    assert (L2 : alen (dstsw s2) = 2 * YEARS + 2) by (cbn; by rewrite alen_aset).
    assert (G0 : aget (dstsw s2) 0 = aget (dstsw s1) 0) by (unfold s2; cbn [dstsw set_dstsw]; by rewrite aget_aset by (rewrite L1; done)).
    assert (G1 : aget (dstsw s2) 1 = Some (mk_dstswitch TIME64_T_MAX 0)) by (unfold s2; cbn [dstsw set_dstsw]; by rewrite aget_aset by (rewrite L1; done)).
    assert (Hsh0 : sh0 = 0).
    { unfold put_switch in R1. erewrite run_bind in R1 by done. rewrite Hlen in R1. injection R1 as <-. cbn [dstsw set_dstsw] in Fi.
      rewrite aget_aset in Fi by (rewrite Hlen; done). by injection Fi. }
    split; [|split; [done|exact L2]]. constructor; cbn [dstsw_count set_dstsw dstsw tzi] in *.
    + unfold YEARS. lia.
    + rewrite L2. unfold YEARS. lia.
    + exists sh0. by rewrite G0.
    + by exists 0.
    + intros i sw Hi. assert (i = 0) as -> by lia. rewrite G0, Fi. intros [= <-]. by left.
    + change (tzi s2) with (tzi s1). by rewrite S1.
    + intros i sw Hi. assert (i = 0 \/ i = 1) as [->| ->] by lia; [rewrite G0, Fi|rewrite G1]; intros [= <-];
        unfold TIME64_T_MIN, TIME64_T_MAX; cbn; lia.
  - destruct (dst_years_run (tzi s) s Hz Hn Hf0) as (s1 & R1 & [L1 E1 F1] & (S1 & S2 & S3 & S4)).
    erewrite run_bind by exact R1. destruct (Hd Hn) as (Hshift & _).
    set (s2 := set_dstsw (aset (dstsw s1) (2 * YEARS + 1) (mk_dstswitch TIME64_T_MAX TIME_T_MAX)) (dstsw_count s1) s1).
    assert (R2 : put_switch (2 * YEARS + 1) TIME64_T_MAX TIME_T_MAX s1 = Done () s2).
    { unfold put_switch. erewrite run_bind by done. by rewrite L1. }
    erewrite run_bind by exact R2. erewrite run_bind by done. eexists. split; [done|].
    assert (Hget : forall i, aget (dstsw s2) i = if decide (2 * YEARS + 1 = i) then Some (mk_dstswitch TIME64_T_MAX TIME_T_MAX) else aget (dstsw s1) i).
    { intros i. unfold s2. cbn [dstsw set_dstsw]. apply aget_aset. rewrite L1. done. }
    assert (L2 : alen (dstsw s2) = 2 * YEARS + 2) by (cbn; by rewrite alen_aset).
    split; [|split; [done|exact L2]]. constructor; cbn [dstsw_count set_dstsw dstsw tzi] in *; fold (dstsw s2) in *; unfold YEARS in *.
    + lia.
    + rewrite L2. lia.
    + destruct (F1 ltac:(lia)) as [sh Hsh]. exists sh. rewrite <-Hsh. apply (Hget 0).
    + exists TIME_T_MAX. apply (Hget 321).
    + intros i sw Hi Hg. rewrite Hget in Hg. case_decide; [lia|].
      destruct (E1 i sw ltac:(lia) Hg) as [[?|?] _]; [by left|right]. change (tzi s2) with (tzi s1). by rewrite S1.
    + change (tzi s2) with (tzi s1). by rewrite S1.
    + intros i sw Hi Hg. rewrite Hget in Hg. case_decide.
      { injection Hg as <-. unfold TIME64_T_MIN, TIME64_T_MAX. cbn. lia. }
      by destruct (E1 i sw ltac:(lia) Hg) as [_ ?].
Qed.

(** ** The parser *)

#[local] Arguments dnum : simpl never.
#[local] Arguments parse_part : simpl never.
#[local] Arguments parse_delta : simpl never.
#[local] Arguments parse_switchtime : simpl never.

Lemma dnum_range p min max os delim n q : dnum p min max os delim = Some (n, q) -> min <= n <= max.
Proof.
  unfold dnum. destruct (if os then _ else _) as [sign p']. destruct (negb (is_digit _)); [done|].
  destruct (digits 0 _ p') as [[n' q']|]; [|done]. cbn.
  destruct (negb (delim =? -1) && _); [done|].
  set (m := if sign =? -1 then - n' else n'). destruct (Z.ltb_spec m min); [done|]. rewrite Z.gtb_ltb.
  destruct (Z.ltb_spec max m); [done|]. cbn. intros [= <- _]. lia.
Qed.

Lemma parse_part_range p n q : parse_part p = Some (n, q) -> 0 <= n <= 59.
Proof. unfold parse_part. destruct (chr p =? 58); [apply dnum_range|]. intros [= <- _]. lia. Qed.

Lemma parse_delta_range p os n q : parse_delta p os = Some (n, q) -> -86399 <= n <= 86399.
Proof.
  unfold parse_delta. destruct (dnum p (-23) 23 os (-1)) as [[ofs p1]|] eqn:H1; [|done]. cbn.
  apply dnum_range in H1. destruct (if ofs <? 0 then _ else _) as [sign o] eqn:Hs.
  assert (0 <= o <= 23) by (destruct (Z.ltb_spec ofs 0); injection Hs as <- <-; lia). clear Hs.
  destruct (parse_part p1) as [[m p2]|] eqn:H2; [|done]. cbn. apply parse_part_range in H2.
  destruct (parse_part p2) as [[c p3]|] eqn:H3; [|done]. cbn. apply parse_part_range in H3.
  intros [= <- _]. destruct (sign >? 0); lia.
Qed.

Lemma parse_switchtime_range p m w d t q :
  parse_switchtime p = Some (m, w, d, t, q) -> 1 <= m <= 12 /\ -4 <= w <= 4 /\ 0 <= d <= 31 /\ 0 <= t <= 86399.
Proof.
  unfold parse_switchtime. destruct (dnum p 1 12 false 44) as [[m' p1]|] eqn:H1; [|done]. cbn.
  destruct (dnum p1 (-4) 4 true 44) as [[w' p2]|] eqn:H2; [|done]. cbn.
  destruct (dnum p2 (if w' =? 0 then 1 else 0) _ false 44) as [[d' p3]|] eqn:H3; [|done]. cbn.
  destruct (dnum p3 0 86399 false 44) as [[t' p4]|] eqn:H4; [|done]. cbn.
  intros [= <- <- <- <- _]. apply dnum_range in H1, H2, H3, H4. destruct (w' =? 0); lia.
Qed.

Lemma parse_tz_ok junk p z : parse_tz junk p = Some z -> zone_ok z.
Proof.
  unfold parse_tz. destruct (copy_tzname p) as [name p1].
  destruct (if p1 is [] then Some (0, []) else parse_delta p1 true) as [[ofs p2]|] eqn:H1; [|done]. cbn.
  assert (Hofs : -86399 <= ofs <= 86399).
  { destruct p1; [injection H1 as <- _; lia|by apply parse_delta_range in H1]. }
  destruct p2 as [|c p2]; [intros [= <-]; by constructor|]. destruct (copy_tzname (c :: p2)) as [dname p3].
  destruct (chr p3 =? 44).
  - destruct (parse_switchtime (tail p3)) as [[[[[m1 w1] d1] t1] p4]|] eqn:H2; [|done]. cbn.
    destruct (parse_switchtime p4) as [[[[[m2 w2] d2] t2] p5]|] eqn:H3; [|done]. cbn.
    destruct (dnum p5 0 86400 false 0) as [[sh p6]|] eqn:H4; [|done]. cbn. intros [= <-].
    apply parse_switchtime_range in H2, H3. apply dnum_range in H4. constructor; cbn; [done|lia].
  - destruct (chr p3 =? 0); [|done]. intros [= <-]. constructor; cbn; [done|lia].
Qed.

(** The state before or after the first successful [tzset]. *)
Record tz_ok (s : tzst) : Prop := mk_tz_ok {
  tzo_len : alen (dstsw s) = 2 * YEARS + 2;
  tzo_table : table_ok s
}.

Lemma tz_init_ok : tz_ok tz_init.
Proof.
  constructor; [done|]. constructor; cbn [dstsw_count tz_init dstsw tzi tz_tz]; unfold YEARS.
  - lia.
  - by vm_compute.
  - by exists 0.
  - by exists 0.
  - intros i sw Hi. assert (i = 0) as -> by lia. intros [= <-]. by left.
  - lia.
  - intros i sw Hi. assert (i = 0 \/ i = 1) as [-> | ->] by lia; intros [= <-]; by vm_compute.
Qed.

Lemma tzset_run env junk s :
  tz_ok s ->
  exists s', tzset env junk s = Done () s' /\ tz_ok s'
    /\ (tzset_flag s = true -> s' = s)
    /\ (tzset_flag s = false ->
        match parse_tz junk (match env with Some (c :: p) => c :: p | _ => UCT end) with
        | None => s' = s
        | Some z => tzset_flag s' = true /\ tzi s' = z /\ timezone s' = tz_tz z /\ daylight s' = (if tz_dst z =? 0 then 0 else 1)
        end).
Proof.
  intros [Hl Ht]. unfold tzset. erewrite run_bind by done. destruct (tzset_flag s) eqn:Hf; [by exists s|].
  destruct (parse_tz junk _) as [z|] eqn:Hp; [|by exists s]. apply parse_tz_ok in Hp. erewrite run_bind by done.
  set (s1 := mk_tzst _ z _ _ _ _).
  destruct (compute_dst_table_run s1) as (s2 & R & Ht2 & (S1 & S2 & S3 & S4) & Hl2); [done|done|].
  erewrite run_bind by exact R. eexists. split; [done|]. split_and!.
  - constructor; [done|]. by destruct Ht2.
  - done.
  - intros _. cbn. rewrite S1, S3. done.
Qed.
