(* ===== verification/TimeProps.v ===== *)
(** The properties of the calendar functions: [gmtime] and [mktime] are inverse
    to each other, also through local time with daylight saving, the day number
    is the Gregorian one, [tzset] and the search of the switches always end,
    and where the tables, the switch days and wide times go wrong. *)

From S2P Require Import Prelude Time TimeFacts.

(** ** Reference definitions *)

(** The days of the first [n] years of the Gregorian calendar. *)
Fixpoint days_before (n : nat) : Z :=
  match n with O => 0 | S k => days_before k + year_len (leap_year (Z.of_nat k)) end.

Lemma days_before_closed n :
  days_before n = 365 * Z.of_nat n + (Z.of_nat n + 3) / 4 - (Z.of_nat n + 99) / 100 + (Z.of_nat n + 399) / 400.
Proof.
  induction n as [|n IH]; [done|]. cbn [days_before]. rewrite IH. rewrite Nat2Z.inj_succ.
  generalize (Z.of_nat n). intros k. unfold year_len, leap_year.
  destruct (Z.eqb_spec (k mod 4) 0), (Z.eqb_spec (k mod 100) 0), (Z.eqb_spec (k mod 400) 0); cbn [negb];
    Z.to_euclidean_division_equations; lia.
Qed.

Lemma month_formula l m :
  1 <= m <= 12 -> md l (m - 1) = 31 * (m - 1) - (if m <=? 2 then 0 else Z.quot (4 * m + 23) 10 - (if l then 1 else 0)).
Proof.
  intros Hm.
  assert (Hc : check 12 (fun k => md l k =? 31 * k - (if k + 1 <=? 2 then 0 else Z.quot (4 * (k + 1) + 23) 10 - (if l then 1 else 0))) = true)
    by by destruct l; vm_compute.
  apply (check_spec _ _ (m - 1)) in Hc; [|lia]. apply Z.eqb_eq in Hc. rewrite Hc. by replace (m - 1 + 1) with m by lia.
Qed.

(** The weekday of a day of a year, Sunday is 0. *)
Definition weekday (y d : Z) : Z := (yd y + 4 + d) mod 7.

(** The day of the switch as the comment of [tzset.c] describes it. *)
Definition documented_day (y month week day : Z) : Z :=
  let l := leap_year (y + 1900) in
  let first := md l (month - 1) in
  let last := month_end l (month - 1) - 1 in
  if week >? 0 then first + (- weekday y first) mod 7 + day + 7 * (week - 1)
  else if week <? 0 then last - weekday y last + day - 7 * (- week - 1)
  else first + day - 1.

(** The boundary of the month the week is counted from. *)
Definition boundary (y month week : Z) : Z :=
  let l := leap_year (y + 1900) in if week >? 0 then md l (month - 1) else month_end l (month - 1) - 1.

Lemma rem_cases x :
  (0 <= x /\ Z.rem x 7 = x mod 7) \/ (x < 0 /\ x mod 7 = 0 /\ Z.rem x 7 = 0) \/ (x < 0 /\ x mod 7 <> 0 /\ Z.rem x 7 = x mod 7 - 7).
Proof. Z.to_euclidean_division_equations. lia. Qed.

Lemma century y : 1 <= y -> (y - 1) / 4 - 3 * ((y - 1) / 100 + 1) / 4 = (y + 3) / 4 - (y + 99) / 100 + (y + 399) / 400 - 1.
Proof. intros Hy. Z.to_euclidean_division_equations. lia. Qed.

Lemma century_leap y :
  1 <= y -> y / 4 - 3 * (y / 100 + 1) / 4
    = (y + 3) / 4 - (y + 99) / 100 + (y + 399) / 400 - 1 + (if leap_year y then 1 else 0).
Proof.
  intros Hy. unfold leap_year. destruct (Z.eqb_spec (y mod 4) 0), (Z.eqb_spec (y mod 100) 0), (Z.eqb_spec (y mod 400) 0); cbn [negb];
    Z.to_euclidean_division_equations; lia.
Qed.

(** ** The properties *)

(** C37: [_day] counts the days of the Gregorian calendar for the years 1582 to
    5870000; its guard lets years pass for which the sum overflows. *)
Theorem day_number_gregorian y m d :
  1582 <= y <= 5870000 -> 1 <= m <= 12 -> 1 <= d <= 31 ->
  day_number y m d = days_before (Z.to_nat y) + md (leap_year y) (m - 1) + d - 1
  /\ day_number 5883515 12 31 < 0.
Proof.
  intros Hy Hm Hd. split; [|by vm_compute]. rewrite days_before_closed, Z2Nat.id, month_formula by lia.
  unfold day_number. change (INT_MAX / 365) with 5883516.
  rewrite (proj2 (Z.ltb_ge y 1582)), Z.geb_leb, (proj2 (Z.leb_gt 5883516 y)) by lia. cbn [orb].
  rewrite s32_small by lia.
  assert (Hdiv : forall z, 1581 <= z <= 5870000 -> Z.quot z 4 - Z.quot (3 * (Z.quot z 100 + 1)) 4 = z / 4 - 3 * (z / 100 + 1) / 4
    /\ 0 <= z / 4 - 3 * (z / 100 + 1) / 4 <= 1467500) by (intros z Hz; Z.to_euclidean_division_equations; lia).
  destruct (Z.leb_spec m 2).
  - destruct (Hdiv (y - 1)) as [-> Hb]; [lia|]. rewrite s32_small, century by lia. lia.
  - assert (0 <= Z.quot (4 * m + 23) 10 <= 7) by (Z.to_euclidean_division_equations; lia).
    rewrite (s32_small (_ - _)) by lia. destruct (Hdiv y) as [-> Hb]; [lia|].
    rewrite s32_small, century_leap by lia. destruct (leap_year y); lia.
Qed.

Lemma day_number_gregorian_witness :
  day_number 2000 2 29 = days_before 2000 + 59 /\ day_number 5883515 12 31 < 0.
Proof. destruct (day_number_gregorian 2000 2 29) as [H1 H2]; [lia..|]. split; [rewrite H1; by vm_compute|exact H2]. Defined.

(** C33: [_gmtime64_r] and [__mktime64] are inverse: for every time from 1900 to
    1 January 2059 [_gmtime64_r] succeeds, its members are in their ranges and
    name the right date, time and weekday, and [__mktime64] gives the time
    back; and every correct broken-down time is what [_gmtime64_r] returns for
    its [__mktime64]. *)
Theorem gmtime_mktime_inverse t dst s :
  in_calendar t ->
  (exists d, gmtime64_r t dst s = Done (true, d) s /\ is_date t d /\ mktime64_ d = t)
  /\ forall d, is_date t d -> tm_isdst d = -1 -> gmtime64_r (mktime64_ d) dst s = Done (true, d) s.
Proof.
  intros Hc. destruct (gmtime_run t dst s Hc) as (d & R & Hd & Hi). split.
  - exists d. split_and!; [done|done|by apply mktime_date].
  - intros d' Hd' Hi'. rewrite (mktime_date t) by done. rewrite R. do 2 f_equal. eapply date_unique; [done|done|congruence].
Qed.

Definition no_tm : tm := mk_tm 0 0 0 0 0 0 0 0 0.

Lemma gmtime_mktime_inverse_witness :
  exists d, gmtime64_r 951782400 no_tm tz_init = Done (true, d) tz_init /\ mktime64_ d = 951782400.
Proof.
  destruct (gmtime_mktime_inverse 951782400 no_tm tz_init) as [(d & R & _ & H) _].
  - unfold in_calendar. by vm_compute.
  - by exists d.
Defined.

(** C38: [_gmtime64_r] is right for no other time: within 32-bit day numbers
    it fails, also for the rest of the year 2059 that the tables are meant to
    cover, but the day number of a wider time is cut to 32 bits, so that a time
    2^32 days later gives the same date. *)
Theorem gmtime_bounds t dst s :
  (- 2 ^ 31 <= t / DAY < 2 ^ 31 -> ~ in_calendar t -> exists d, gmtime64_r t dst s = Done (false, d) s)
  /\ (0 <= t -> gmtime64_r (t + 2 ^ 32 * DAY) dst s = gmtime64_r t dst s).
Proof.
  split; [apply gmtime_fails|]. intros Ht. unfold gmtime64_r. change (60 * 60 * 24) with DAY.
  replace (Z.rem (t + 2 ^ 32 * DAY) DAY) with (Z.rem t DAY).
  2:{ rewrite !Z.rem_mod_nonneg by (unfold DAY; lia). by rewrite Z.mod_add. }
  replace (s32 (Z.quot (t + 2 ^ 32 * DAY) DAY)) with (s32 (Z.quot t DAY)); [done|].
  rewrite !Z.quot_div_nonneg by (unfold DAY; lia). rewrite Z.div_add by done. unfold s32.
  replace (t / DAY + 2 ^ 32 + 2 ^ 31) with (t / DAY + 2 ^ 31 + 1 * 2 ^ 32) by lia. by rewrite Z.mod_add.
Qed.

Lemma gmtime_bounds_witness :
  (exists d, gmtime64_r (32508 * DAY) no_tm tz_init = Done (false, d) tz_init)
  /\ gmtime64_r (0 + 2 ^ 32 * DAY) no_tm tz_init = gmtime64_r 0 no_tm tz_init.
Proof.
  split.
  - apply (gmtime_bounds (32508 * DAY) no_tm tz_init); [by vm_compute|]. unfold in_calendar. by vm_compute; intros [_ ?].
  - by apply (gmtime_bounds 0 no_tm tz_init).
Defined.

(** C27: [mktime] inverts [localtime]: in every state [tzset] can leave, with
    daylight saving or without, the broken-down local time of [t] with its DST
    flag leads back to [t], unless the local clock shows the second before the
    epoch, which is reported as an error. *)
Theorem localtime_mktime_inverse env junk t dst tmp s :
  tz_ok s -> tzset_flag s = true -> moderate t -> in_calendar (t - tz_tz (tzi s) + shift_at s t) ->
  exists d, localtime64_r env junk t dst s = Done d s
    /\ is_date (t - tz_tz (tzi s) + shift_at s t) d /\ tm_isdst d = (if shift_at s t =? 0 then 0 else 1)
    /\ mktime64 env junk tmp d s = Done (if t - tz_tz (tzi s) + shift_at s t =? -1 then -1 else t, d) s.
Proof.
  intros [_ Hok] Hf Ht Hc. set (lt := t - tz_tz (tzi s) + shift_at s t) in *.
  destruct (gmtime_run lt dst s Hc) as (d0 & R & Hd & Hi).
  set (b := if shift_at s t =? 0 then 0 else 1).
  set (d := mk_tm (tm_sec d0) (tm_min d0) (tm_hour d0) (tm_mday d0) (tm_mon d0) (tm_year d0) (tm_wday d0) (tm_yday d0) b).
  assert (Hd' : is_date lt d) by (destruct Hd; by constructor).
  assert (Htz : tzset env junk s = Done () s) by (unfold tzset; erewrite run_bind by done; by rewrite Hf).
  pose proof (gmt2loc_run s t Hok Ht) as Hg. fold lt b in Hg.
  exists d. split; [|split; [done|split; [done|]]].
  - unfold localtime64_r. erewrite run_bind by exact Htz. erewrite run_bind by exact Hg. cbn beta iota.
    by erewrite run_bind by exact R.
  - unfold mktime64. erewrite run_bind by exact Htz.
    assert (Hn : norm_month d = d).
    { unfold norm_month. cbn [tm_mon d]. pose proof (dt_mon _ _ Hd) as Hm. rewrite (proj2 (Z.ltb_ge _ _)) by lia.
      by rewrite Z.geb_leb, (proj2 (Z.leb_gt _ _)) by lia. }
    rewrite Hn, (mktime_date lt) by done. destruct (Z.eqb_spec lt (-1)); [done|].
    destruct (loc2gmt_run s t Hok Ht) as (b' & R2 & Hb). fold lt b in R2. erewrite run_bind by exact R2. cbn beta iota. rewrite Hb.
    fold b. assert (Hb1 : (b =? -1) = false) by (unfold b; by destruct (_ =? 0)). rewrite Hb1.
    erewrite run_bind by exact Hg. cbn beta iota. rewrite Hb1.
    destruct (gmtime_run lt tmp s Hc) as (d1 & R1 & Hd1 & Hi1). erewrite run_bind by exact R1. cbn [negb].
    replace d1 with d0 by (eapply date_unique; [done|done|congruence]). done.
Qed.

(** Central European Time: CET-1CED,3,-1,0,7200,10,-1,0,10800,3600. *)
Definition CET : list Z :=
  [67;69;84;45;49;67;69;68;44;51;44;45;49;44;48;44;55;50;48;48;44;49;48;44;45;49;44;48;44;49;48;56;48;48;44;51;54;48;48].

Definition no_tz : tzinfo := mk_tzinfo [] [] 0 0 0 0 0 0 0 0 0 0 0.
Definition cet_state : tzst := match tzset (Some CET) no_tz tz_init with Done _ s => s | _ => tz_init end.

Lemma cet_ok : tz_ok cet_state.
Proof. destruct (tzset_run (Some CET) no_tz tz_init tz_init_ok) as (s & R & Hok & _). unfold cet_state. by rewrite R. Qed.

Lemma localtime_mktime_inverse_witness :
  exists d, localtime64_r None no_tz 1690000000 no_tm cet_state = Done d cet_state /\ tm_isdst d = 1
    /\ mktime64 None no_tz no_tm d cet_state = Done (1690000000, d) cet_state.
Proof.
  destruct (localtime_mktime_inverse None no_tz 1690000000 no_tm no_tm cet_state cet_ok) as (d & R & _ & Hi & Hm).
  - by vm_compute.
  - by vm_compute.
  - unfold in_calendar. by vm_compute.
  - assert (Hs : shift_at cet_state 1690000000 = 3600) by by vm_compute.
    assert (Hz : tz_tz (tzi cet_state) = -3600) by by vm_compute. rewrite Hs in Hi. rewrite Hs, Hz in Hm.
    exists d. split; [exact R|]. split; [exact Hi|exact Hm].
Defined.

(** C36: [tzset] ends for every value of TZ, without an access outside of the
    table of switches, and leaves a complete table; in every state it can
    leave, [find_switch] ends for every 64-bit time, within ten steps, at an
    entry whose interval holds the time. *)
Theorem tzset_find_switch_total env junk s t :
  tz_ok s -> TIME64_T_MIN <= t <= TIME64_T_MAX ->
  exists s', tzset env junk s = Done () s' /\ tz_ok s'
    /\ exists i, find_switch t s' = Done (sw_at s' i) s' /\ 0 <= i < dstsw_count s' - 1
         /\ sw_time (sw_at s' i) <= t /\ (t < sw_time (sw_at s' (i + 1)) \/ t = TIME64_T_MAX).
Proof.
  intros Hok Ht. destruct (tzset_run env junk s Hok) as (s' & R & Hok' & _). exists s'. split; [done|]. split; [done|].
  destruct (find_switch_run s' t (tzo_table _ Hok') Ht) as (i & Rf & Hi & H1 & H2 & _). by exists i.
Qed.

Lemma tzset_find_switch_total_witness :
  exists s' i, tzset (Some CET) no_tz tz_init = Done () s' /\ find_switch 0 s' = Done (sw_at s' i) s'.
Proof.
  destruct (tzset_find_switch_total (Some CET) no_tz tz_init 0 tz_init_ok) as (s' & R & _ & i & Rf & _); [by vm_compute|].
  exists s', i. split; [exact R|exact Rf].
Defined.

(** [switch_day] computes the day that the comment of [tzset.c] describes
    only from 1970 on and not for the last weeks but one: the weekday of earlier
    dates is negative, which puts the switch a week late, and a week counted
    from the end of the month is counted forwards, 14 days off per week. *)
Theorem switch_day_deviates y month week day s :
  0 <= y < YEARS -> 1 <= month <= 12 -> -4 <= week <= 4 -> 0 <= day <= 31 ->
  exists d, switch_day month week day (yd y + 4) (month_table (leap_year (y + 1900))) s = Done d s
    /\ d = documented_day y month week day
         + (if negb (week =? 0) && (yd y + 4 + boundary y month week <? 0) && negb (weekday y (boundary y month week) =? 0) then 7 else 0)
         + (if week <? 0 then 14 * (- week - 1) else 0).
Proof.
  intros Hy Hm Hw Hd. unfold switch_day, documented_day, boundary, weekday. set (l := leap_year (y + 1900)).
  rewrite Z.gtb_ltb. destruct (Z.ltb_spec 0 week) as [Hp|Hp]; [|destruct (Z.ltb_spec week 0) as [Hn|Hn]].
  - erewrite run_bind by (apply elem_month; lia). eexists. split; [done|].
    rewrite (proj2 (Z.eqb_neq week 0)), (proj2 (Z.ltb_ge week 0)) by lia. cbn [negb andb].
    set (f := md l (month - 1)). replace (f + (yd y + 4)) with (yd y + 4 + f) by lia. set (x := yd y + 4 + f).
    assert (Hopp : (- (x mod 7)) mod 7 = if x mod 7 =? 0 then 0 else 7 - x mod 7).
    { destruct (Z.eqb_spec (x mod 7) 0); Z.to_euclidean_division_equations; lia. }
    rewrite Hopp. destruct (rem_cases x) as [[? ->]|[(? & H0 & ->)|(? & H0 & ->)]].
    + rewrite (proj2 (Z.ltb_ge x 0)) by lia. destruct (Z.eqb_spec (x mod 7) 0); cbn [negb andb]; lia.
    + rewrite H0. cbn [Z.eqb negb andb]. rewrite andb_false_r. lia.
    + rewrite (proj2 (Z.ltb_lt x 0)) by lia. rewrite (proj2 (Z.eqb_neq (x mod 7) 0)) by done. cbn [negb andb].
      rewrite (proj2 (Z.eqb_neq (x mod 7 - 7) 0)) by (pose proof (Z.mod_pos_bound x 7); lia). cbn [negb]. lia.
  - set (e := month_end l (month - 1) - 1).
    assert (Hlast : (if month =? 12 then x ← elem (month_table l) 11; mret (x + 31 - 1) else x ← elem (month_table l) month; mret (x - 1)) s
      = Done e s).
    { unfold e, month_end. destruct (Z.eqb_spec month 12) as [->|Hne].
      - erewrite run_bind by (by apply elem_month). by destruct l.
      - erewrite run_bind by (apply elem_month; lia). rewrite (proj2 (Z.eqb_neq (month - 1) 11)) by lia.
        by replace (month - 1 + 1) with month by lia. }
    erewrite run_bind by exact Hlast. eexists. split; [done|].
    rewrite (proj2 (Z.eqb_neq week 0)) by lia. cbn [negb andb].
    replace (e + (yd y + 4)) with (yd y + 4 + e) by lia. set (x := yd y + 4 + e).
    destruct (rem_cases x) as [[? ->]|[(? & H0 & ->)|(? & H0 & ->)]].
    + rewrite (proj2 (Z.ltb_ge x 0)) by lia. cbn [andb]. destruct (Z.eqb_spec (x mod 7) 0); cbn [negb]; lia.
    + rewrite H0. cbn [Z.eqb negb andb]. rewrite andb_false_r. lia.
    + rewrite (proj2 (Z.ltb_lt x 0)) by lia. rewrite (proj2 (Z.eqb_neq (x mod 7) 0)) by done. cbn [negb andb].
      rewrite (proj2 (Z.eqb_neq (x mod 7 - 7) 0)) by (pose proof (Z.mod_pos_bound x 7); lia). cbn [negb]. lia.
  - erewrite run_bind by (apply elem_month; lia). eexists. split; [done|].
    assert (week = 0) as -> by lia. cbn [Z.eqb negb andb]. lia.
Qed.

(** The first Sunday of April 1960 was the 3rd; the switch is put on the 10th. *)
Lemma switch_day_deviates_witness :
  documented_day 60 4 1 0 = 91 + 2 /\ switch_day 4 1 0 (yd 60 + 4) month_day_leap tz_init = Done (91 + 9) tz_init.
Proof.
  split; [by vm_compute|].
  destruct (switch_day_deviates 60 4 1 0 tz_init) as (d & R & Hd); [unfold YEARS; lia..|].
  change (month_table (leap_year (60 + 1900))) with month_day_leap in R. rewrite R. f_equal. rewrite Hd. by vm_compute.
Defined.

(** In a zone without daylight saving [_tzi.shift] is what the stack held, and
    [mktime] with a positive [tm_isdst] subtracts it. *)
Lemma mktime_uses_stack junk p :
  - 2 ^ 31 < tz_shift junk < 2 ^ 31 -> moderate p ->
  exists s b, tzset None junk tz_init = Done () s /\ loc2gmt64 p 1 s = Done (b, p - tz_shift junk) s.
Proof.
  intros Hj Hp. unfold moderate in Hp. destruct (tzset_run None junk tz_init tz_init_ok) as (s & R & Hok & _ & Hz).
  specialize (Hz eq_refl). assert (Hpz : exists z, parse_tz junk UCT = Some z /\ tz_tz z = 0 /\ tz_shift z = tz_shift junk) by (by eexists).
  destruct Hpz as (z & Hpz & H0 & Hs). rewrite Hpz in Hz. destruct Hz as (_ & Hz & _).
  destruct (find_shift s (p - tz_shift junk) (tzo_table _ Hok)) as (sw & Rs & _); [unfold TIME64_T_MIN, TIME64_T_MAX; lia|].
  exists s. eexists. split; [exact R|]. unfold loc2gmt64. erewrite run_bind by done. change (1 >? 0) with true. cbn iota zeta.
  rewrite Hz, H0, Hs, s32_small, s64_small by lia. rewrite !Z.gtb_ltb.
  replace (p + (0 - tz_shift junk)) with (p - tz_shift junk) by lia.
  assert ((if 0 <? 0 - tz_shift junk then p - tz_shift junk <? p else p <? p - tz_shift junk) = false) as ->.
  { destruct (Z.ltb_spec 0 (0 - tz_shift junk)); apply Z.ltb_ge; lia. }
  by erewrite run_bind by exact Rs.
Qed.

Lemma digit_range i : 0 <= i -> 48 <= digit i <= 57.
Proof.
  intros Hi. unfold digit. rewrite Z.rem_mod_nonneg by lia. pose proof (Z.mod_pos_bound i 10).
  rewrite Z.mod_small; lia.
Qed.

Definition printable (c : Z) : Prop := 32 <= c <= 126.

Definition letters_at (l : list Z) (i : Z) : bool :=
  forallb (fun k => match aget l (i * 3 + k) with Some c => (65 <=? c) && (c <=? 122) | None => false end) [0; 1; 2].

Lemma name3_run l i s :
  letters_at l i = true -> exists a b c, name3 l i s = Done [a; b; c] s /\ Forall printable [a; b; c].
Proof.
  unfold letters_at. cbn [forallb]. rewrite !andb_true_iff. intros (H0 & H1 & H2 & _). rewrite Z.add_0_r in H0.
  unfold name3, elem. destruct (aget l (i * 3)) as [a|]; [|done]. destruct (aget l (i * 3 + 1)) as [b|]; [|done].
  destruct (aget l (i * 3 + 2)) as [c|]; [|done]. rewrite andb_true_iff, !Z.leb_le in *.
  exists a, b, c. split; [done|]. unfold printable. repeat constructor; lia.
Qed.

(** For every correct broken-down time [asctime_r] reads inside of its
    tables and writes exactly the 26 bytes its buffer has: 24 printable
    characters, the newline and the final NUL. *)
Theorem asctime_fits t d s :
  is_date t d ->
  exists l, asctime_r d s = Done (l ++ [10; 0]) s /\ length l = 24%nat /\ Forall printable l.
Proof.
  intros [D1 D2 D3 D4 D5 D6 D7 D8 D9]. unfold YEARS in *.
  assert (Hw : check 7 (letters_at wdays) = true) by by vm_compute.
  assert (Hm : check 12 (letters_at months) = true) by by vm_compute.
  assert (0 <= tm_wday d < 7) by (rewrite D8; apply Z.mod_pos_bound; lia).
  destruct (name3_run wdays (tm_wday d) s) as (w0 & w1 & w2 & Rw & Pw); [by apply (check_spec 7)|].
  destruct (name3_run months (tm_mon d) s) as (m0 & m1 & m2 & Rm & Pm); [by apply (check_spec 12)|].
  unfold asctime_r. erewrite run_bind by exact Rw. erewrite run_bind by exact Rm.
  assert (Hq : forall a b, 0 <= a -> 0 < b -> printable (digit (Z.quot a b))).
  { intros a b Ha Hb. pose proof (digit_range (Z.quot a b) (Z.quot_pos a b Ha Hb)). unfold printable. lia. }
  assert (Hd : forall a, 0 <= a -> printable (digit a)).
  { intros a Ha. pose proof (digit_range a Ha). unfold printable. lia. }
  assert (Hc : forall a b, printable (digit (Z.quot a b)) -> printable (if digit (Z.quot a b) =? 48 then 32 else digit (Z.quot a b))).
  { intros a b Hp. destruct (_ =? 48); [unfold printable; lia|done]. }
  eexists (_ :: _ :: _ :: _ :: _ :: _ :: _ :: _ :: _ :: _ :: _ :: _ :: _ :: _ :: _ :: _ :: _ :: _ :: _ :: _ :: _ :: _ :: _ :: [_]).
  split; [reflexivity|]. split; [done|].
  rewrite !Forall_cons in Pw, Pm. destruct Pw as (? & ? & ? & _), Pm as (? & ? & ? & _).
  repeat (apply Forall_cons; split); try done; try (unfold printable; lia); try (apply Hc); try (apply Hq; lia); apply Hd; lia.
Qed.

Lemma asctime_fits_witness :
  exists d l, gmtime64_r 951782400 no_tm tz_init = Done (true, d) tz_init /\ asctime_r d tz_init = Done (l ++ [10; 0]) tz_init
    /\ length l = 24%nat.
Proof.
  destruct (gmtime_run 951782400 no_tm tz_init) as (d & R & Hd & _); [unfold in_calendar; by vm_compute|].
  destruct (asctime_fits _ d tz_init Hd) as (l & Ra & Hl & _). exists d, l. split; [exact R|]. split; [exact Ra|exact Hl].
Defined.
