(* ===== verification/FMutex.v ===== *)
(** The fast mutex ([src/src/emx/include/sys/fmutex.h],
    [src/src/emx/src/lib/process/fmutex.c]) run by any number of threads: one
    step per atomic instruction or system call of [_fmutex_request],
    [__fmutex_request_internal], [_fmutex_release] and
    [__fmutex_release_internal]. The variants for [_FMC_MUST_COMPLETE] make the
    same steps. The event semaphore is a flag; its system calls succeed. The
    theorems are in [FMutexProps.v]. *)

From S2P Require Import Prelude.

(** ** Constants *)

Definition FMS_AUTO_INITIALIZE : Z := -1.
Definition FMS_UNINIT : Z := 0.
Definition FMS_AVAILABLE : Z := 1.
Definition FMS_OWNED_SIMPLE : Z := 2.
Definition FMS_OWNED_HARD : Z := 3.

(** ** Data *)

(** The members of [_fmutex] that change; [hev]: the event semaphore exists;
    [posted]: its state. *)
Record fmutex := mk_fmutex { hev : bool; fs : Z; Owner : Z; posted : bool }.

(** Where a thread is, before the instruction named. *)
Inductive pc :=
  | Idle                  (* outside of the functions, not owning *)
  | AfterX (old : Z)      (* entry of __fmutex_request_internal, fs was [old] *)
  | Creating              (* __atomic_cmpxchg32 of hev *)
  | NoWaitX               (* __cxchg with _FMR_NOWAIT *)
  | ResetEv               (* DosResetEventSem *)
  | HardX                 (* __cxchg (&sem->fs, _FMS_OWNED_HARD) *)
  | Recur                 (* the test for recursion *)
  | Wait                  (* DosWaitEventSem *)
  | TimedOut              (* reads sem->Owner *)
  | Verify (o : Z)        (* DosVerifyPidTid *)
  | Got                   (* owns, sets sem->Owner *)
  | Own                   (* returned 0 *)
  | RelX                  (* __cxchg (&sem->fs, _FMS_AVAILABLE) *)
  | Post                  (* DosPostEventSem *)
  | Panicked.             (* __fmutex_deadlock *)

#[export] Instance pc_eq_dec : EqDecision pc.
Proof. solve_decision. Defined.

(** A thread and the flags of its request: [_FMR_NOWAIT], [_FMR_IGNINT]. *)
Record thread := mk_thread { at_pc : pc; nowait : bool; ignint : bool }.

Record state := mk_state { mtx : fmutex; ths : nat -> thread }.

(** What happens to the thread: its client calls, it runs, its wait times out
    or is interrupted, [in_exit] being [fibIsInExit ()], or the wait ends by a
    post that another thread has reset since. *)
Inductive event := Request (nw ii : bool) | Run | Release | Timeout | Interrupt (in_exit : bool) | Woken.

(** [fibGetTidPid ()] *)
Definition TidPid (t : nat) : Z := Z.of_nat t + 1.

Definition set_th (t : nat) (x : thread) (f : nat -> thread) : nat -> thread := fun u => if decide (u = t) then x else f u.

(** ** Steps *)

(** [_fmutex_create2] and [_FMUTEX_INITIALIZER] *)
Definition fmutex_create2 : fmutex := mk_fmutex true FMS_AVAILABLE 0 false.
Definition FMUTEX_INITIALIZER : fmutex := mk_fmutex false FMS_AUTO_INITIALIZE 0 false.

Definition set_fs (v : Z) (m : fmutex) : fmutex := mk_fmutex (hev m) v (Owner m) (posted m).
Definition set_owner (v : Z) (m : fmutex) : fmutex := mk_fmutex (hev m) (fs m) v (posted m).
Definition set_posted (b : bool) (m : fmutex) : fmutex := mk_fmutex (hev m) (fs m) (Owner m) b.
Definition set_hev (m : fmutex) : fmutex := mk_fmutex true (fs m) (Owner m) (posted m).

(** With the event semaphore in place: give up, try once or enter the loop. *)
Definition enter_loop (nw : bool) (old : Z) : pc :=
  if nw then if old =? FMS_OWNED_HARD then NoWaitX else Idle else ResetEv.

(** [_fmutex_request] up to the call of [__fmutex_request_internal]. *)
Definition request (m : fmutex) : fmutex * pc :=
  (set_fs FMS_OWNED_SIMPLE m, if fs m =? FMS_AVAILABLE then Got else AfterX (fs m)).

(** [__fmutex_request_internal]: one instruction. [None]: the thread blocks. *)
Definition request_internal (t : nat) (nw : bool) (p : pc) (m : fmutex) : option (fmutex * pc) :=
  match p with
  | AfterX old =>
      if old =? FMS_UNINIT then Some (m, Idle)
      else if (old =? FMS_AUTO_INITIALIZE) || negb (hev m) then Some (m, Creating)
      else Some (m, enter_loop nw old)
  | Creating => if hev m then Some (m, enter_loop nw FMS_OWNED_HARD) else Some (set_hev m, Got)
  | NoWaitX => Some (set_fs FMS_OWNED_HARD m, if fs m =? FMS_AVAILABLE then Got else Idle)
  | ResetEv => Some (set_posted false m, HardX)
  | HardX => Some (set_fs FMS_OWNED_HARD m, if fs m =? FMS_AVAILABLE then Got else Recur)
  | Recur => Some (m, if Owner m =? TidPid t then Panicked else Wait)
  | Wait => if posted m then Some (m, ResetEv) else None
  | TimedOut => Some (m, if Owner m =? 0 then ResetEv else Verify (Owner m))
  | Verify o => Some (m, Wait)
  | Got => Some (set_owner (TidPid t) m, Own)
  | _ => None
  end.

(** [_fmutex_release] after it cleared [Owner], and
    [__fmutex_release_internal]. *)
Definition release_internal (p : pc) (m : fmutex) : option (fmutex * pc) :=
  match p with
  | RelX => Some (set_fs FMS_AVAILABLE m, if fs m =? FMS_OWNED_HARD then Post else Idle)
  | Post => Some (set_posted true m, Idle)
  | _ => None
  end.

(** The end of a wait while the semaphore is reset: the time is up, or a
    signal, which ends the request unless [_FMR_IGNINT] was given, or a post
    that is gone. *)
Definition wait_ends (ev : event) (ii : bool) : option pc :=
  match ev with
  | Timeout => Some TimedOut
  | Interrupt in_exit => Some (if ii && negb in_exit then TimedOut else Idle)
  | Woken => Some ResetEv
  | _ => None
  end.

(** [_fmutex_available] and [_fmutex_is_owner] of the calling thread. *)
Definition fmutex_available (m : fmutex) : bool := fs m <=? FMS_AVAILABLE.
Definition fmutex_is_owner (t : nat) (m : fmutex) : bool := (fs m >? FMS_AVAILABLE) && (Owner m =? TidPid t).

(** [_fmutex_release_fork], in the child. *)
Definition fmutex_release_fork (m : fmutex) : fmutex := set_owner 0 (set_fs FMS_AVAILABLE m).

Definition step (t : nat) (ev : event) (s : state) : option state :=
  let th := ths s t in
  let next (x : fmutex * pc) (nw ii : bool) := Some (mk_state (fst x) (set_th t (mk_thread (snd x) nw ii) (ths s))) in
  match at_pc th, ev with
  | Idle, Request nw ii => next (request (mtx s)) nw ii
  | Own, Release => next (set_owner 0 (mtx s), RelX) (nowait th) (ignint th)
  | Wait, Timeout | Wait, Interrupt _ | Wait, Woken =>
      p ← wait_ends ev (ignint th); next (mtx s, p) (nowait th) (ignint th)
  | p, Run =>
      match request_internal t (nowait th) p (mtx s) with
      | Some x => next x (nowait th) (ignint th)
      | None => x ← release_internal p (mtx s); next x (nowait th) (ignint th)
      end
  | _, _ => None
  end.

Fixpoint run (l : list (nat * event)) (s : state) : option state :=
  match l with [] => Some s | (t, ev) :: l' => s' ← step t ev s; run l' s' end.

(** The threads start outside of the functions. *)
Definition start (m : fmutex) : state := mk_state m (fun _ => mk_thread Idle false false).

Inductive reach : state -> Prop :=
  | reach_created : reach (start fmutex_create2)
  | reach_static : reach (start FMUTEX_INITIALIZER)
  | reach_step s t ev s' : reach s -> step t ev s = Some s' -> reach s'.
