(* ===== verification/FMutexFacts.v ===== *)
(** The invariant of the fast mutex: who owns it, who answers for a wake-up,
    and that every step keeps it. *)

From S2P Require Import Prelude FMutex.

(** ** Classes of places *)

Definition owning (p : pc) : bool := match p with Got | Own | RelX => true | _ => false end.

(** In the part of the code that needs the event semaphore. *)
Definition looping (p : pc) : bool :=
  match p with NoWaitX | ResetEv | HardX | Recur | Wait | TimedOut | Verify _ => true | AfterX old => old =? FMS_OWNED_HARD | _ => false end.

(** Left [_FMS_OWNED_HARD] behind and depends on a post. *)
Definition blocked (p : pc) : bool := match p with Recur | Wait | TimedOut | Verify _ => true | _ => false end.

(** Will set [_FMS_OWNED_HARD] again, or post. *)
Definition responsible (p : pc) : bool :=
  match p with NoWaitX | ResetEv | HardX | Post => true | AfterX old => old =? FMS_OWNED_HARD | _ => false end.

Definition place (f : nat -> thread) (t : nat) : pc := at_pc (f t).

Definition some_at (P : pc -> bool) (f : nat -> thread) : Prop := exists u, P (place f u) = true.

(** ** The invariant *)

Record inv (m : fmutex) (f : nat -> thread) : Prop := mk_inv {
  iv_one : forall t u, owning (place f t) = true -> owning (place f u) = true -> t = u;
  iv_owned : some_at owning f -> fs m <> FMS_AVAILABLE /\ hev m = true;
  iv_new : hev m = false -> fs m <> FMS_AVAILABLE /\ fs m <> FMS_OWNED_HARD;
  iv_token : hev m = true -> fs m = FMS_AVAILABLE \/ some_at owning f;
  iv_fs : fs m <> FMS_UNINIT;
  iv_place : forall t, match place f t with
    | AfterX old => old <> FMS_UNINIT /\ old <> FMS_AVAILABLE
    | Verify o => exists u, o = TidPid u
    | Own => Owner m = TidPid t
    | Panicked => False
    | _ => True end;
  iv_owner : Owner m = 0 \/ exists t, Owner m = TidPid t /\ place f t = Own;
  iv_loop : some_at looping f -> hev m = true;
  iv_wake : some_at blocked f -> posted m = false -> fs m = FMS_OWNED_HARD \/ some_at responsible f
}.

Lemma place_set f t x u : place (set_th t x f) u = if decide (u = t) then at_pc x else place f u.
Proof. unfold place, set_th. by case_decide. Qed.

Lemma some_set P f t x : some_at P (set_th t x f) <-> P (at_pc x) = true \/ exists u, u <> t /\ P (place f u) = true.
Proof.
  unfold some_at. split.
  - intros [u Hu]. rewrite place_set in Hu. case_decide; [by left|right; by exists u].
  - intros [Hx|(u & Hne & Hu)]; [exists t|exists u]; rewrite place_set; by case_decide.
Qed.

Lemma some_split P f t : some_at P f <-> P (place f t) = true \/ exists u, u <> t /\ P (place f u) = true.
Proof.
  split.
  - intros [u Hu]. destruct (decide (u = t)) as [->|Hne]; [by left|right; by exists u].
  - intros [Hu|(u & _ & Hu)]; by eexists.
Qed.

Lemma tidpid_pos t : TidPid t <> 0.
Proof. unfold TidPid. lia. Qed.

Lemma tidpid_inj t u : TidPid t = TidPid u -> t = u.
Proof. unfold TidPid. lia. Qed.

Lemma inv_start m : (hev m = true /\ fs m = FMS_AVAILABLE \/ hev m = false /\ fs m = FMS_AUTO_INITIALIZE) -> Owner m = 0 -> inv m (ths (start m)).
Proof.
  intros Hm Ho. assert (Hn : forall P, P Idle = false -> ~ some_at P (ths (start m))) by (intros P HP [u Hu]; cbn in Hu; congruence).
  constructor; try done.
  - intros H. by apply Hn in H.
  - destruct Hm as [[-> ?]|[_ ->]]; done.
  - destruct Hm as [[_ ?]|[-> ?]]; [by left|done].
  - destruct Hm as [[_ ->]|[_ ->]]; done.
  - by left.
  - intros H. by apply Hn in H.
  - intros H. by apply Hn in H.
Qed.

(** ** Preservation *)

(** Some other thread is at a place of the class. *)
Definition other (P : pc -> bool) (f : nat -> thread) (t : nat) : Prop := exists u, u <> t /\ P (place f u) = true.

Section Update.
Context (m m' : fmutex) (f : nat -> thread) (t : nat) (x : thread).
Let p := place f t.
Let p' := at_pc x.
Let O := other owning f t.
Let L := other looping f t.
Let B := other blocked f t.
Let R := other responsible f t.

(** What the invariant says of the thread and the others. *)
Lemma inv_facts : inv m f ->
  (~ hev m -> fs m <> FMS_AVAILABLE /\ fs m <> FMS_OWNED_HARD) /\ (owning p -> ~ O) /\ (owning p \/ O -> fs m <> FMS_AVAILABLE /\ hev m)
  /\ (hev m -> fs m = FMS_AVAILABLE \/ owning p \/ O)
  /\ (looping p \/ L -> hev m)
  /\ (blocked p \/ B -> ~ posted m -> fs m = FMS_OWNED_HARD \/ responsible p \/ R).
Proof.
  rewrite ?Is_true_true, ?not_true_iff_false. intros [I1 I2 I3 I4 _ _ _ I8 I9]. rewrite (some_split owning f t) in I2, I4.
  rewrite (some_split looping f t) in I8. rewrite (some_split blocked f t), (some_split responsible f t) in I9.
  split_and!; try done. intros Hp (u & Hne & Hu). by apply Hne, I1.
Qed.

Lemma inv_update :
  inv m f ->
  (owning p' -> ~ O) ->
  (owning p' \/ O -> fs m' <> FMS_AVAILABLE /\ hev m') ->
  (~ hev m' -> fs m' <> FMS_AVAILABLE /\ fs m' <> FMS_OWNED_HARD) ->
  (hev m' -> fs m' = FMS_AVAILABLE \/ owning p' \/ O) ->
  fs m' <> FMS_UNINIT ->
  match p' with
  | AfterX old => old <> FMS_UNINIT /\ old <> FMS_AVAILABLE
  | Verify o => exists u, o = TidPid u
  | Own => Owner m' = TidPid t
  | Panicked => False
  | _ => True end ->
  (Owner m' = Owner m /\ p <> Own \/ ~ O /\ (Owner m' = 0 \/ Owner m' = TidPid t /\ p' = Own)) ->
  (looping p' \/ L -> hev m') ->
  (blocked p' \/ B -> ~ posted m' -> fs m' = FMS_OWNED_HARD \/ responsible p' \/ R) ->
  inv m' (set_th t x f).
Proof.
  rewrite ?Is_true_true, ?not_true_iff_false.
  intros [I1 I2 I3 I4 I5 I6 I7 I8 I9] H1 H2 H3 H4 H5 H6 H7 H8 H9. constructor; try done.
  - intros u v. rewrite !place_set. repeat case_decide; subst; try done; [..|by apply I1]; intros Hu Hv; exfalso.
    + apply H1; [done|by exists v].
    + apply H1; [done|by exists u].
  - by rewrite some_set.
  - by rewrite some_set.
  - intros u. rewrite place_set. case_decide as Hd; [by subst|]. specialize (I6 u). destruct (place f u) eqn:Hu; try done.
    destruct H7 as [[-> _]|[Hno _]]; [done|]. exfalso. apply Hno. exists u. by rewrite Hu.
  - destruct H7 as [[-> Hp]|[_ [->|[-> Hp]]]]; [|by left|right; exists t; by rewrite place_set, decide_True].
    destruct I7 as [->|(u & -> & Hu)]; [by left|right]. exists u. split; [done|]. rewrite place_set, decide_False; [done|].
    intros ->. done.
  - by rewrite some_set.
  - by rewrite !some_set.
Qed.
End Update.

Lemma fs_known m f : inv m f -> hev m = true -> ~ some_at owning f -> fs m = FMS_AVAILABLE.
Proof. intros Hi Hh Hn. by destruct (iv_token _ _ Hi Hh). Qed.

(** One transition: the facts of the invariant, then arithmetic on the
    conditions of [inv_update]. *)
Ltac transition Hi f t Hp :=
  let m := match type of Hi with inv ?m _ => m end in
  destruct (inv_facts m f t Hi) as (F0 & F1 & F2 & F3 & F4 & F5);
  pose proof (iv_fs _ _ Hi) as Hf; pose proof (iv_place _ _ Hi t) as Hpl;
  pose proof (iv_owner _ _ Hi) as Hown;
  rewrite ?Hp in *; cbn [owning looping blocked responsible] in *;
  cbn [fst snd]; apply (inv_update m); try exact Hi; cbn [at_pc set_fs set_owner set_posted set_hev hev fs Owner posted];
  rewrite ?Hp; unfold FMS_AUTO_INITIALIZE, FMS_AVAILABLE, FMS_OWNED_HARD, FMS_OWNED_SIMPLE, FMS_UNINIT in *;
  revert F0 F1 F2 F3 F4 F5;
  generalize (other owning f t), (other looping f t), (other blocked f t), (other responsible f t);
  cbn [Is_true]; intros.

Ltac finish := cbn [owning looping blocked responsible Is_true] in *; unfold FMS_AUTO_INITIALIZE, FMS_AVAILABLE, FMS_OWNED_HARD, FMS_OWNED_SIMPLE, FMS_UNINIT in *;
  repeat match goal with |- context [?a =? 3] => destruct (Z.eqb_spec a 3); cbn [Is_true] in *
    | _ : context [?a =? 3] |- _ => destruct (Z.eqb_spec a 3); cbn [Is_true] in * end;
  first [exact I | left; split; [reflexivity|discriminate] | tauto | lia
    | match goal with m : fmutex |- _ =>
        repeat match goal with H : context [m] |- _ => lazymatch type of H with inv _ _ => fail | _ => revert H end end;
        destruct (hev m), (posted m)
      end; cbn [Is_true]; intuition (discriminate || congruence || lia)].

Lemma inv_request m f t nw ii :
  inv m f -> place f t = Idle -> inv (fst (request m)) (set_th t (mk_thread (snd (request m)) nw ii) f).
Proof.
  intros Hi Hp. unfold request. destruct (Z.eqb_spec (fs m) FMS_AVAILABLE) as [He|He]; transition Hi f t Hp; finish.
Qed.

Lemma inv_release_internal m f t nw ii x :
  inv m f -> release_internal (place f t) m = Some x -> inv (fst x) (set_th t (mk_thread (snd x) nw ii) f).
Proof.
  intros Hi Hx. destruct (place f t) eqn:Hp; try done; injection Hx as <-.
  - destruct (Z.eqb_spec (fs m) FMS_OWNED_HARD) as [He|He]; transition Hi f t Hp; finish.
  - transition Hi f t Hp; finish.
Qed.


Lemma not_self m f t : inv m f -> place f t <> Own -> Owner m <> TidPid t.
Proof.
  intros Hi Hp. destruct (iv_owner _ _ Hi) as [->|(u & -> & Hu)]; [by apply not_eq_sym, tidpid_pos|].
  intros ->%tidpid_inj. done.
Qed.

Lemma inv_request_internal m f t nw ii x :
  inv m f -> request_internal t nw (place f t) m = Some x -> inv (fst x) (set_th t (mk_thread (snd x) nw ii) f).
Proof.
  intros Hi Hx. destruct (place f t) eqn:Hp; try done; cbn in Hx.
  - destruct (Z.eqb_spec old FMS_UNINIT); [by pose proof (iv_place _ _ Hi t) as Ho; rewrite Hp in Ho; destruct Ho|].
    destruct (hev m) eqn:Hh; cbn [negb] in Hx.
    + apply Is_true_eq_left in Hh. destruct (Z.eqb_spec old FMS_AUTO_INITIALIZE); injection Hx as <-; [transition Hi f t Hp; finish|].
      unfold enter_loop. destruct nw; [destruct (Z.eqb_spec old FMS_OWNED_HARD)|]; transition Hi f t Hp; finish.
    + rewrite orb_true_r in Hx. injection Hx as <-. transition Hi f t Hp; finish.
  - destruct (hev m) eqn:Hh; injection Hx as <-; unfold enter_loop; [apply Is_true_eq_left in Hh; destruct nw|]; transition Hi f t Hp; finish.
  - injection Hx as <-. destruct (Z.eqb_spec (fs m) FMS_AVAILABLE); transition Hi f t Hp; finish.
  - injection Hx as <-. transition Hi f t Hp; finish.
  - injection Hx as <-. destruct (Z.eqb_spec (fs m) FMS_AVAILABLE); transition Hi f t Hp; finish.
  - injection Hx as <-. destruct (Z.eqb_spec (Owner m) (TidPid t)) as [He|_]; [by apply (not_self m f t) in He; [|done|rewrite Hp]|]. transition Hi f t Hp; finish.
  - case_match; [injection Hx as <-|done]. transition Hi f t Hp; finish.
  - injection Hx as <-. destruct (Z.eqb_spec (Owner m) 0); transition Hi f t Hp.
    all: try (destruct Hown as [?|(u & -> & _)]; [done|by exists u]). all: finish.
  - injection Hx as <-. transition Hi f t Hp; finish.
  - injection Hx as <-. transition Hi f t Hp; finish.
Qed.

Lemma inv_wait_ends m f t nw ii ev p :
  inv m f -> place f t = Wait -> wait_ends ev ii = Some p -> inv m (set_th t (mk_thread p nw ii) f).
Proof.
  intros Hi Hp Hx. destruct ev as [| | | |[]|]; try done; injection Hx as <-; try destruct ii; cbn [andb negb]; transition Hi f t Hp; finish.
Qed.

Lemma inv_release m f t nw ii :
  inv m f -> place f t = Own -> inv (set_owner 0 m) (set_th t (mk_thread RelX nw ii) f).
Proof. intros Hi Hp. transition Hi f t Hp; finish. Qed.

Lemma inv_step t ev s s' : inv (mtx s) (ths s) -> step t ev s = Some s' -> inv (mtx s') (ths s').
Proof.
  intros Hi Hs. pose proof (inv_release_internal (mtx s) (ths s) t (nowait (ths s t)) (ignint (ths s t))) as HR.
  pose proof (inv_request_internal (mtx s) (ths s) t (nowait (ths s t)) (ignint (ths s t))) as HQ.
  pose proof (inv_wait_ends (mtx s) (ths s) t (nowait (ths s t)) (ignint (ths s t))) as HW.
  unfold step in Hs. unfold place in HR, HQ, HW.
  destruct (at_pc (ths s t)) eqn:Hp, ev; try discriminate Hs.
  all: try (injection Hs as <-; apply inv_request || apply inv_release; done).
  all: try (destruct (wait_ends _ _) eqn:Hw in Hs; [|discriminate Hs]; injection Hs as <-; by eapply HW).
  all: destruct (request_internal _ _ _ _) eqn:Hq in Hs; [injection Hs as <-; by eapply HQ|].
  all: destruct (release_internal _ _) eqn:Hq' in Hs; [injection Hs as <-; by eapply HR|discriminate Hs].
Qed.

Lemma reach_inv s : reach s -> inv (mtx s) (ths s).
Proof.
  induction 1 as [| |s t ev s' _ IH Hs]; [apply inv_start; [by left|done]|apply inv_start; [by right|done]|].
  by eapply inv_step.
Qed.

(** ** The values of [fs] *)

Definition fresh (s : state) : Prop := forall t, at_pc (ths s t) = Idle.

Lemma fs_request t nw p m x : FMS_AVAILABLE <= fs m -> request_internal t nw p m = Some x -> FMS_AVAILABLE <= fs (fst x).
Proof. intros Hm Hx. destruct p; cbn in Hx; repeat case_match; try discriminate Hx; injection Hx as <-; done. Qed.

Lemma fs_release p m x : FMS_AVAILABLE <= fs m -> release_internal p m = Some x -> FMS_AVAILABLE <= fs (fst x).
Proof. intros Hm Hx. destruct p; try discriminate Hx; injection Hx as <-; done. Qed.

Lemma fs_step t ev s s' : FMS_AVAILABLE <= fs (mtx s) -> step t ev s = Some s' -> FMS_AVAILABLE <= fs (mtx s').
Proof.
  intros Hm Hs. pose proof (fs_release (at_pc (ths s t)) (mtx s)) as HR. unfold step in Hs.
  destruct (at_pc (ths s t)) eqn:Hp, ev; try discriminate Hs.
  all: try (injection Hs as <-; done).
  all: try (destruct (wait_ends _ _) in Hs; [|discriminate Hs]; injection Hs as <-; done).
  all: destruct (request_internal _ _ _ _) as [y|] eqn:Hq in Hs; [injection Hs as <-; by apply (fs_request _ _ _ _ y Hm Hq)|].
  all: destruct (release_internal _ _) as [y|] eqn:Hq' in Hs; [injection Hs as <-; by apply (HR y)|discriminate Hs].
Qed.

Lemma reach_fs s : reach s -> FMS_AVAILABLE <= fs (mtx s) \/ fresh s.
Proof.
  induction 1 as [| |s t ev s' _ [IH|IH] Hs]; [by right..| |]; [left; by eapply fs_step|].
  left. unfold step in Hs. rewrite IH in Hs. destruct ev; try discriminate Hs. by injection Hs as <-.
Qed.

Lemma is_owner_own s t : reach s -> fmutex_is_owner t (mtx s) = true <-> at_pc (ths s t) = Own.
Proof.
  intros Hr. pose proof (reach_inv s Hr) as Hi. unfold fmutex_is_owner. rewrite andb_true_iff, Z.gtb_lt, Z.eqb_eq. split.
  - intros [_ Ho]. destruct (decide (at_pc (ths s t) = Own)) as [|Hn]; [done|]. by apply (not_self _ _ t Hi) in Hn.
  - intros Hp. pose proof (iv_place _ _ Hi t) as Hown. unfold place in Hown. rewrite Hp in Hown. split; [|done].
    destruct (iv_owned _ _ Hi) as [Hne _]; [exists t; unfold place; by rewrite Hp|].
    destruct (reach_fs s Hr) as [Hf|Hf]; [unfold FMS_AVAILABLE in *; lia|]. by rewrite Hf in Hp.
Qed.
