(* ===== verification/FMutexProps.v ===== *)
(** The fast mutex under every interleaving: at most one owner and no false
    alarm, no lost wake-up, and a way to the mutex for every thread that waits
    for it. *)

From S2P Require Import Prelude FMutex FMutexFacts.

(** ** Schedules *)

Lemma run_app l1 l2 s : run (l1 ++ l2) s = s' ← run l1 s; run l2 s'.
Proof. revert s. induction l1 as [|[t ev] l1 IH]; intros s; cbn; [done|]. destruct (step t ev s); cbn; [apply IH|done]. Qed.

Lemma run_reach l s s' : reach s -> run l s = Some s' -> reach s'.
Proof.
  revert s. induction l as [|[t ev] l IH]; intros s Hr; cbn; [by intros [= <-]|].
  destruct (step t ev s) as [s1|] eqn:Hs; [|done]. apply IH. by econstructor.
Qed.

(** The state after a schedule from the start. *)
Definition exec (l : list (nat * event)) (m : fmutex) : state := default (start m) (run l (start m)).

Lemma exec_reach l : reach (exec l fmutex_create2) /\ reach (exec l FMUTEX_INITIALIZER).
Proof.
  unfold exec. split; destruct (run _ _) as [s|] eqn:Hr; cbn; try constructor; eapply run_reach; [|done| |done]; constructor.
Qed.

(** The schedule only lets threads run and owners release. *)
Definition cooperative (l : list (nat * event)) : Prop := Forall (fun x => snd x = Run \/ snd x = Release) l.

Definition leads (s s' : state) : Prop := exists l, cooperative l /\ run l s = Some s'.

Lemma leads_refl s : leads s s.
Proof. exists []. by split; [constructor|]. Qed.

Lemma leads_step t ev s s1 s' : ev = Run \/ ev = Release -> step t ev s = Some s1 -> leads s1 s' -> leads s s'.
Proof. intros He Hs (l & Hl & Hr). exists ((t, ev) :: l). split; [by constructor|]. cbn. by rewrite Hs. Qed.

Lemma leads_trans s1 s2 s3 : leads s1 s2 -> leads s2 s3 -> leads s1 s3.
Proof.
  intros (l1 & H1 & R1) (l2 & H2 & R2). exists (l1 ++ l2). split; [by apply Forall_app|]. by rewrite run_app, R1.
Qed.

Lemma leads_inv s s' : inv (mtx s) (ths s) -> leads s s' -> inv (mtx s') (ths s').
Proof.
  intros Hi (l & _ & Hr). revert s Hi Hr. induction l as [|[t ev] l IH]; intros s Hi; cbn; [by intros [= <-]|].
  destruct (step t ev s) as [s1|] eqn:Hs; [|done]. apply IH. by eapply inv_step.
Qed.

(** ** One thread runs *)

(** The state in which thread [t] is at [p] and the mutex is [m]. *)
Definition next (s : state) (t : nat) (m : fmutex) (p : pc) : state :=
  mk_state m (set_th t (mk_thread p (nowait (ths s t)) (ignint (ths s t))) (ths s)).

Lemma next_same s t m p : at_pc (ths (next s t m p) t) = p.
Proof. cbn. unfold set_th. by rewrite decide_True. Qed.

Lemma next_other s t m p u : u <> t -> ths (next s t m p) u = ths s u.
Proof. intros Hu. cbn. unfold set_th. by rewrite decide_False. Qed.

Lemma run_request t s m p : request_internal t (nowait (ths s t)) (at_pc (ths s t)) (mtx s) = Some (m, p) ->
  step t Run s = Some (next s t m p).
Proof. intros Hq. unfold step. destruct (at_pc (ths s t)); first [discriminate Hq | rewrite Hq; reflexivity | cbn [request_internal]; rewrite Hq; reflexivity]. Qed.

Lemma run_release t s m p : release_internal (at_pc (ths s t)) (mtx s) = Some (m, p) -> step t Run s = Some (next s t m p).
Proof. intros Hq. unfold step. destruct (at_pc (ths s t)); first [discriminate Hq | rewrite Hq; reflexivity | cbn [request_internal]; rewrite Hq; reflexivity]. Qed.

Lemma run_own t s : at_pc (ths s t) = Own -> step t Release s = Some (next s t (set_owner 0 (mtx s)) RelX).
Proof. intros Hq. unfold step. by rewrite Hq. Qed.

(** [s] leads to a state with [P] in which only thread [u] is elsewhere. *)
Definition alone (u : nat) (s : state) (P : state -> Prop) : Prop :=
  exists s', leads s s' /\ (forall v, v <> u -> ths s' v = ths s v) /\ P s'.

Lemma alone_here u s (P : state -> Prop) : P s -> alone u s P.
Proof. intros HP. exists s. split_and!; [apply leads_refl|done|done]. Qed.

Lemma alone_next u ev s m p P : ev = Run \/ ev = Release -> step u ev s = Some (next s u m p) -> alone u (next s u m p) P -> alone u s P.
Proof.
  intros He Hs (s' & Hl & Ho & HP). exists s'. split_and!; [by eapply leads_step| |done].
  intros v Hv. by rewrite (Ho v Hv), next_other.
Qed.

(** ** The way of an owner and of a thread that answers for the wake-up *)

(** The mutex is available, and the semaphore posted when [hard]. *)
Definition freed (hard : Prop) (s : state) : Prop := fs (mtx s) = FMS_AVAILABLE /\ (hard -> posted (mtx s) = true).

Lemma RelX_frees u s : at_pc (ths s u) = RelX -> alone u s (freed (fs (mtx s) = FMS_OWNED_HARD)).
Proof.
  intros Hp. destruct (fs (mtx s) =? FMS_OWNED_HARD) eqn:Hb.
  all: eapply alone_next; [by left|apply run_release; rewrite Hp; cbn; rewrite Hb; reflexivity|].
  - eapply alone_next; [by left|apply run_release; rewrite next_same; reflexivity|]. by apply alone_here.
  - apply alone_here. split; [done|]. by intros H%Z.eqb_eq%(eq_trans (eq_sym Hb)).
Qed.

Lemma owner_frees u s : owning (at_pc (ths s u)) = true -> alone u s (freed (fs (mtx s) = FMS_OWNED_HARD)).
Proof.
  assert (HO : forall s, at_pc (ths s u) = Own -> alone u s (freed (fs (mtx s) = FMS_OWNED_HARD))).
  { intros s' Hp. eapply alone_next; [by right|by apply run_own|]. apply (RelX_frees u (next s' u (set_owner 0 (mtx s')) RelX)), next_same. }
  intros Ho. destruct (at_pc (ths s u)) eqn:Hp; try done; [|by apply HO|by apply RelX_frees].
  eapply alone_next; [by left|apply run_request; rewrite Hp; reflexivity|]. apply (HO (next s u (set_owner (TidPid u) (mtx s)) Own)), next_same.
Qed.

(** A thread about to set [_FMS_OWNED_HARD] finds the mutex available. *)
Lemma hard_posts u s : fs (mtx s) = FMS_AVAILABLE -> at_pc (ths s u) = NoWaitX \/ at_pc (ths s u) = HardX -> alone u s (freed True).
Proof.
  intros Hf Hp. eapply alone_next; [by left|apply run_request; destruct Hp as [-> | ->]; cbn; rewrite Hf; reflexivity|].
  edestruct (owner_frees u (next s u (set_fs FMS_OWNED_HARD (mtx s)) Got)) as (s' & Hl & Ho & Hf' & Hq); [by rewrite next_same|].
  exists s'. split_and!; [done|done|]. split; [done|]. intros _. by apply Hq.
Qed.

Lemma reset_posts u s : fs (mtx s) = FMS_AVAILABLE -> at_pc (ths s u) = ResetEv -> alone u s (freed True).
Proof.
  intros Hf Hp. eapply alone_next; [by left|apply run_request; rewrite Hp; reflexivity|].
  apply hard_posts; [done|]. right. apply next_same.
Qed.

Lemma responsible_posts u s :
  fs (mtx s) = FMS_AVAILABLE -> hev (mtx s) = true -> responsible (at_pc (ths s u)) = true -> alone u s (freed True).
Proof.
  intros Hf Hh Hr. destruct (at_pc (ths s u)) eqn:Hp; try done.
  - apply Z.eqb_eq in Hr as ->. eapply alone_next; [by left|apply run_request; rewrite Hp; cbn; rewrite Hh; reflexivity|].
    unfold enter_loop. destruct (nowait _); [apply hard_posts|apply reset_posts]; [done|left; apply next_same|done|apply next_same].
  - apply hard_posts; [done|by left].
  - by apply reset_posts.
  - apply hard_posts; [done|by right].
  - eapply alone_next; [by left|apply run_release; rewrite Hp; reflexivity|]. by apply alone_here.
Qed.

(** ** The way of a thread that waits *)

Lemma leads_free t s : inv (mtx s) (ths s) -> at_pc (ths s t) = Wait ->
  exists s', leads s s' /\ fs (mtx s') = FMS_AVAILABLE /\ at_pc (ths s' t) = Wait.
Proof.
  intros Hi Hp. assert (Hh : hev (mtx s) = true) by (apply (iv_loop _ _ Hi); exists t; unfold place; by rewrite Hp).
  destruct (iv_token _ _ Hi Hh) as [Hf|[u Hu]]; [by exists s; split; [apply leads_refl|]|].
  destruct (owner_frees u s Hu) as (s' & Hl & Ho & Hf & _). exists s'. split_and!; [done|done|].
  rewrite Ho; [done|]. intros <-. unfold place in Hu. by rewrite Hp in Hu.
Qed.

Lemma leads_posted t s : inv (mtx s) (ths s) -> at_pc (ths s t) = Wait -> fs (mtx s) = FMS_AVAILABLE ->
  exists s', leads s s' /\ fs (mtx s') = FMS_AVAILABLE /\ at_pc (ths s' t) = Wait /\ posted (mtx s') = true.
Proof.
  intros Hi Hp Hf. destruct (posted (mtx s)) eqn:Hq; [exists s; split_and!; [apply leads_refl|done..]|].
  assert (Hh : hev (mtx s) = true) by (apply (iv_loop _ _ Hi); exists t; unfold place; by rewrite Hp).
  destruct (iv_wake _ _ Hi) as [Hhard|[u Hu]]; [exists t; unfold place; by rewrite Hp|done|by rewrite Hf in Hhard|].
  destruct (responsible_posts u s Hf Hh Hu) as (s' & Hl & Ho & Hf' & Hpost). exists s'. split_and!; [done..| |by apply Hpost].
  rewrite Ho; [done|]. intros <-. unfold place in Hu. by rewrite Hp in Hu.
Qed.

Lemma leads_got t s : fs (mtx s) = FMS_AVAILABLE -> posted (mtx s) = true -> at_pc (ths s t) = Wait ->
  exists s', leads s s' /\ at_pc (ths s' t) = Got.
Proof.
  intros Hf Hq Hp. edestruct (alone_next t Run s (mtx s) ResetEv (fun s' => at_pc (ths s' t) = Got)) as (s' & Hl & _ & Hg);
    [by left|apply run_request; rewrite Hp; cbn; by rewrite Hq| |by exists s'].
  eapply alone_next; [by left|apply run_request; rewrite next_same; reflexivity|].
  eapply alone_next; [by left|apply run_request; rewrite next_same; cbn; rewrite Hf; reflexivity|].
  apply alone_here, next_same.
Qed.

Lemma wait_gets t s : inv (mtx s) (ths s) -> at_pc (ths s t) = Wait -> exists s', leads s s' /\ at_pc (ths s' t) = Got.
Proof.
  intros Hi Hp. destruct (leads_free t s Hi Hp) as (s1 & L1 & F1 & P1). pose proof (leads_inv _ _ Hi L1) as I1.
  destruct (leads_posted t s1 I1 P1 F1) as (s2 & L2 & F2 & P2 & Q2).
  destruct (leads_got t s2 F2 Q2 P2) as (s3 & L3 & P3). exists s3. split; [|done]. by do 2 (eapply leads_trans; [done|]).
Qed.

(** ** Properties *)

(** Thread 0 owns, thread 1 sleeps in its request. *)
Definition contended : list (nat * event) :=
  [(0%nat, Request false false); (0%nat, Run); (1%nat, Request false true); (1%nat, Run); (1%nat, Run); (1%nat, Run); (1%nat, Run)].


(** C8: the fast mutex excludes: in every reachable state at most one thread
    is between getting and releasing it, [_fmutex_is_owner] says yes to exactly
    the thread that returned from its request, and no thread was ever told that its mutex is
    recursive. *)
Theorem fmutex_mutual_exclusion s :
  reach s ->
  (forall t u, owning (at_pc (ths s t)) = true -> owning (at_pc (ths s u)) = true -> t = u)
  /\ (forall t, fmutex_is_owner t (mtx s) = true <-> at_pc (ths s t) = Own)
  /\ (forall t, at_pc (ths s t) <> Panicked).
Proof.
  intros Hr. pose proof (reach_inv s Hr) as Hi. split_and!; [apply Hi|intros t; by apply is_owner_own|intros t Ht].
  pose proof (iv_place _ _ Hi t) as Hp. unfold place in Hp. by rewrite Ht in Hp.
Qed.

Lemma fmutex_mutual_exclusion_witness :
  let s := exec contended fmutex_create2 in
  at_pc (ths s 0%nat) = Own /\ at_pc (ths s 1%nat) = Wait /\ fmutex_is_owner 0 (mtx s) = true.
Proof.
  intros s. split; [reflexivity|split; [reflexivity|]].
  exact (proj2 (proj1 (proj2 (fmutex_mutual_exclusion s (proj1 (exec_reach contended)))) 0%nat) eq_refl).
Defined.

(** C9: no wake-up is lost: when every thread is either outside or asleep on
    the event semaphore, and one is asleep, the semaphore is posted. *)
Theorem fmutex_no_lost_wakeup s t :
  reach s -> (forall u, at_pc (ths s u) = Idle \/ at_pc (ths s u) = Wait) -> at_pc (ths s t) = Wait ->
  posted (mtx s) = true /\ fs (mtx s) = FMS_AVAILABLE.
Proof.
  intros Hr%reach_inv Hq Ht.
  assert (Hno : forall P, P Idle = false -> P Wait = false -> ~ some_at P (ths s)).
  { intros P H1 H2 [u Hu]. unfold place in Hu. destruct (Hq u) as [E|E]; rewrite E in Hu; congruence. }
  assert (Hsome : forall P, P Wait = true -> some_at P (ths s)) by (intros P HP; exists t; unfold place; by rewrite Ht).
  assert (Hf : fs (mtx s) = FMS_AVAILABLE) by (apply (fs_known _ _ Hr); [by apply (iv_loop _ _ Hr), Hsome|by apply Hno]).
  split; [|done]. apply not_false_iff_true. intros Hp.
  destruct (iv_wake _ _ Hr (Hsome blocked eq_refl) Hp) as [H|H]; [by rewrite Hf in H|by apply Hno in H].
Qed.

Lemma fmutex_no_lost_wakeup_witness :
  let s := exec (contended ++ [(0%nat, Release); (0%nat, Run); (0%nat, Run)]) fmutex_create2 in
  at_pc (ths s 1%nat) = Wait /\ posted (mtx s) = true /\ fs (mtx s) = FMS_AVAILABLE.
Proof.
  intros s. split; [reflexivity|]. apply (fmutex_no_lost_wakeup s 1 (proj1 (exec_reach _))); [|reflexivity].
  intros [|[|u]]; [left|right|left]; reflexivity.
Defined.

(** C16: no deadlock and no starvation by construction: in every reachable
    state, whatever the others did, a thread asleep in its request can get the
    mutex once threads run and owners release, without any time-out, signal
    or new request. *)
Theorem fmutex_progress s t :
  reach s -> at_pc (ths s t) = Wait ->
  exists l s', cooperative l /\ run l s = Some s' /\ at_pc (ths s' t) = Got.
Proof. intros Hr%reach_inv Ht. destruct (wait_gets t s Hr Ht) as (s' & (l & Hc & Hl) & Hg). by exists l, s'. Qed.

Lemma fmutex_progress_witness :
  exists l s', cooperative l /\ run l (exec contended fmutex_create2) = Some s' /\ at_pc (ths s' 1%nat) = Got.
Proof. exact (fmutex_progress _ 1 (proj1 (exec_reach contended)) eq_refl). Defined.
