(* ===== verification/BigInt.v ===== *)
(** The big integers of the floating point conversion
    ([src/src/emx/src/lib/conv/bi*.c] and the C versions of the helpers in
    [src/src/emx/src/lib/conv/c]): arrays of 32-bit words with a length, in a
    store in which a bigint is named by its index, since the functions allow
    some of their arguments to be the same object. The theorems are in
    [BigIntProps.v]. *)

From S2P Require Import Prelude.

(** ** Data *)

Definition BI_WORDSIZE : Z := 32.
Definition BI_WORDMAX : Z := 4294967295.

(** [n] words of the array [v] are in use. *)
Record bigint := mk_big { bn : Z; bv : list Z }.

Definition BM : Type -> Type := M (list bigint).

(** [p->n], [p->n = n], [p->v[i]] and [p->v[i] = x] *)
Definition get_n (p : Z) : BM Z := s ← mget; b ← deref (aget s p); mret (bn b).
Definition set_n (p n : Z) : BM unit := s ← mget; b ← deref (aget s p); mput (aset s p (mk_big n (bv b))).
Definition rd (p i : Z) : BM Z := s ← mget; b ← deref (aget s p); deref (aget (bv b) i).
Definition wr (p i x : Z) : BM unit :=
  s ← mget; b ← deref (aget s p); _ ← deref (aget (bv b) i); mput (aset s p (mk_big (bn b) (aset (bv b) i x))).

(** [for (x in l) a = f (x, a);] *)
Fixpoint mfold {S A B} (l : list A) (f : A -> B -> M S B) (a : B) : M S B :=
  match l with [] => mret a | x :: l' => a' ← f x a; mfold l' f a' end.

(** [assert (b)] *)
Definition assert {S} (b : bool) : M S unit := if b then mret () else mfail Panic.

(** The indices of [for (i = n - 1; i >= 0; --i)]. *)
Definition down (n : Z) : list Z := rev (zrange 0 (Z.to_nat n)).

(** [while (n > 0 && v[n-1] == 0) --n;] *)
Fixpoint trim (p : Z) (n : nat) : BM Z :=
  match n with
  | O => mret 0
  | S n' => x ← rd p (Z.of_nat n'); if x =? 0 then trim p n' else mret (Z.of_nat n)
  end.

(** [__fls] *)
Definition fls (x : Z) : Z := if x =? 0 then 0 else Z.log2 x + 1.

(** ** Assignment and comparison *)

Definition bi_set_w (dst dst_words src : Z) : BM Z :=
  if src =? 0 then _ ← set_n dst 0; mret 0
  else if dst_words <=? 0 then mret 1
  else _ ← set_n dst 1; _ ← wr dst 0 src; mret 0.

Definition bi_set_d (dst dst_words src : Z) : BM Z :=
  if src =? 0 then _ ← set_n dst 0; mret 0
  else if dst_words <=? 0 then mret 1
  else if Z.shiftr src BI_WORDSIZE =? 0 then _ ← set_n dst 1; _ ← wr dst 0 (u32 src); mret 0
  else if dst_words <=? 1 then mret 1
  else _ ← set_n dst 2; _ ← wr dst 0 (u32 src); _ ← wr dst 1 (u32 (Z.shiftr src BI_WORDSIZE)); mret 0.

Definition bi_set_b (dst dst_words src : Z) : BM Z :=
  n ← get_n src;
  if n >? dst_words then mret 1
  else _ ← set_n dst n; _ ← mfor (zrange 0 (Z.to_nat n)) (fun i => x ← rd src i; wr dst i x); mret 0.

(** The loop of [_bi_cmp_bb], from the most significant word. *)
Fixpoint cmp_words (src1 src2 : Z) (l : list Z) : BM Z :=
  match l with
  | [] => mret 0
  | i :: l' =>
      x ← rd src1 i; y ← rd src2 i;
      if x >? y then mret 1 else if x <? y then mret (-1) else cmp_words src1 src2 l'
  end.

Definition bi_cmp_bb (src1 src2 : Z) : BM Z :=
  n1 ← get_n src1; n2 ← get_n src2;
  if n1 >? n2 then mret 1 else if n1 <? n2 then mret (-1) else cmp_words src1 src2 (down n1).

Definition bi_fls (src : Z) : BM Z :=
  n ← get_n src;
  if n =? 0 then mret 0 else x ← rd src (n - 1); mret ((n - 1) * BI_WORDSIZE + fls x).

(** [for (i = 0; i < words; ++i) if (src1->v[i] != 0) return 1;] *)
Fixpoint any_word (src1 : Z) (l : list Z) : BM bool :=
  match l with
  | [] => mret false
  | i :: l' => x ← rd src1 i; if negb (x =? 0) then mret true else any_word src1 l'
  end.

Definition bi_cmp_pow2 (src1 shift2 : Z) : BM Z :=
  if shift2 <? 0 then n ← get_n src1; mret (if n =? 0 then -1 else 1)
  else
    f ← bi_fls src1;
    if f - 1 <? shift2 then mret (-1)
    else if f - 1 >? shift2 then mret 1
    else
      let words := shift2 / BI_WORDSIZE in let bits := shift2 mod BI_WORDSIZE in
      b ← any_word src1 (zrange 0 (Z.to_nat words));
      if (b : bool) then mret 1
      else if bits =? 0 then mret 0
      else x ← rd src1 words; mret (if has_bits x (u32 (Z.shiftl 1 bits) - 1) then 1 else 0).

(** ** Addition, subtraction and multiplication *)

(** One step of the addition of [a + b + carry] into [dst->v[i]]. *)
Definition add_word (dst i a b carry : Z) : BM Z :=
  let tmp := u64 (a + b + carry) in _ ← wr dst i (u32 tmp); mret (u32 (Z.shiftr tmp BI_WORDSIZE)).

Definition bi_add_bb (dst dst_words src1 src2 : Z) : BM Z :=
  n1 ← get_n src1; n2 ← get_n src2;
  let '(n, s, sn) := if n1 <? n2 then (n1, src2, n2) else (n2, src1, n1) in
  if sn >? dst_words then mret 1
  else
    carry ← mfold (zrange 0 (Z.to_nat n)) (fun i c => x ← rd src1 i; y ← rd src2 i; add_word dst i x y c) 0;
    carry ← mfold (zrange n (Z.to_nat (sn - n))) (fun i c => x ← rd s i; add_word dst i x 0 c) carry;
    if negb (carry =? 0) then
      if sn + 1 >? dst_words then mret 1 else _ ← wr dst sn carry; _ ← set_n dst (sn + 1); mret 0
    else _ ← set_n dst sn; mret 0.

(** One word of the multiplication and of the subtraction: [u - low (v * q +
    mul_carry) - sub_borrow]; the new word, carry and borrow. *)
Definition mul_sub_word (u v q mul_carry sub_borrow : Z) : Z * Z * Z :=
  let stmp := s64 (v * q + mul_carry) in
  let mc := u32 (Z.shiftr stmp BI_WORDSIZE) in
  let stmp := s64 (u - u32 stmp - sub_borrow) in
  (u32 stmp, mc, Z.b2z (stmp <? 0)).

(** [while (sub_borrow && i < n)] of [_bi_sub_mul_bw], over the rest of the
    indices. *)
Fixpoint borrow_words (dst : Z) (l : list Z) (sub_borrow : Z) : BM Z :=
  match l with
  | [] => mret sub_borrow
  | i :: l' =>
      if sub_borrow =? 0 then mret 0
      else x ← rd dst i; let stmp := s64 (x - sub_borrow) in
           _ ← wr dst i (u32 stmp); borrow_words dst l' (Z.b2z (stmp <? 0))
  end.

(** The second half of [_bi_sub_mul_bw]: give back what was taken. *)
Definition restore_words (dst src factor sn dn : Z) : BM unit :=
  c ← mfold (zrange 0 (Z.to_nat sn)) (fun i c =>
    let '(mul_carry, add_carry) := c : Z * Z in
    x ← rd src i; let utmp := u64 (x * factor + mul_carry) in
    y ← rd dst i; let utmp2 := u64 (y + u32 utmp + add_carry) in
    _ ← wr dst i (u32 utmp2); mret (u32 (Z.shiftr utmp BI_WORDSIZE), u32 (Z.shiftr utmp2 BI_WORDSIZE))) (0, 0);
  let '(mul_carry, add_carry) := c in
  if (sn <? dn) && (negb (mul_carry =? 0) || negb (add_carry =? 0)) then
    y ← rd dst sn; wr dst sn (u32 (u64 (y + mul_carry + add_carry)))
  else mret ().

Definition bi_sub_mul_bw (dst src factor : Z) : BM Z :=
  sn ← get_n src; dn ← get_n dst;
  if sn >? dn then mret 1
  else if (sn =? 0) || (factor =? 0) then mret 0
  else
    c ← mfold (zrange 0 (Z.to_nat sn)) (fun i c =>
      let '(mul_carry, sub_borrow) := c : Z * Z in
      v ← rd src i; u ← rd dst i;
      let '(x, mc, sb) := mul_sub_word u v factor mul_carry sub_borrow in
      _ ← wr dst i x; mret (mc, sb)) (0, 0);
    let '(mul_carry, sub_borrow) := c in
    c ← (if negb (mul_carry =? 0) && (sn <? dn) then
           u ← rd dst sn; let stmp := s64 (u - mul_carry - sub_borrow) in
           _ ← wr dst sn (u32 stmp); mret (0, Z.b2z (stmp <? 0), sn + 1)
         else mret (mul_carry, sub_borrow, sn));
    let '(mul_carry, sub_borrow, i) := c in
    sub_borrow ← borrow_words dst (zrange i (Z.to_nat (dn - i))) sub_borrow;
    if (mul_carry =? 0) && (sub_borrow =? 0) then n ← trim dst (Z.to_nat dn); _ ← set_n dst n; mret 0
    else _ ← restore_words dst src factor sn dn; mret 1.

Definition bi_mul_bw (dst dst_words src factor : Z) : BM Z :=
  if factor =? 0 then _ ← set_n dst 0; mret 0
  else
    n ← get_n src;
    carry ← mfold (zrange 0 (Z.to_nat n)) (fun i c =>
      x ← rd src i; let tmp := u64 (x * factor + c) in _ ← wr dst i (u32 tmp); mret (u32 (Z.shiftr tmp BI_WORDSIZE))) 0;
    _ ← set_n dst n;
    if negb (carry =? 0) then
      if n >=? dst_words then mret 1 else _ ← set_n dst (n + 1); _ ← wr dst n carry; mret 0
    else mret 0.

(** [while (carry)] of [_bi_mul_bb], over the rest of the indices; past the
    last one the assertion fails. *)
Fixpoint carry_words (dst : Z) (l : list Z) (carry : Z) : BM unit :=
  if carry =? 0 then mret ()
  else match l with
  | [] => mfail Panic
  | i :: l' => x ← rd dst i; c ← add_word dst i x 0 carry; carry_words dst l' c
  end.

Definition bi_mul_bb (dst dst_words src1 src2 : Z) : BM Z :=
  n1 ← get_n src1; n2 ← get_n src2;
  if (n1 =? 0) || (n2 =? 0) then _ ← set_n dst 0; mret 0
  else if n1 + n2 >? dst_words then mret 1
  else
    let dn := n1 + n2 in
    _ ← mfor (zrange 0 (Z.to_nat dn)) (fun i => wr dst i 0);
    _ ← mfor (zrange 0 (Z.to_nat n2)) (fun i =>
      factor ← rd src2 i;
      carry ← mfold (zrange 0 (Z.to_nat n1)) (fun j c =>
        x ← rd src1 j; y ← rd dst (i + j); let tmp := u64 (x * factor + y + c) in
        _ ← wr dst (i + j) (u32 tmp); mret (u32 (Z.shiftr tmp BI_WORDSIZE))) 0;
      carry_words dst (zrange (i + n1) (Z.to_nat (dn - (i + n1)))) carry);
    x ← rd dst (dn - 1);
    let dn := if (dn >? 0) && (x =? 0) then dn - 1 else dn in
    y ← rd dst (dn - 1);
    _ ← assert (negb (dn =? 0) && negb (y =? 0)); _ ← set_n dst dn; mret 0.

(** ** Shifts *)

Definition bi_shl_w (dst dst_words src shift : Z) : BM Z :=
  if src =? 0 then _ ← set_n dst 0; mret 0
  else
    let b := u32 shift mod BI_WORDSIZE in let w := u32 shift / BI_WORDSIZE in
    if w + 1 >? dst_words then mret 1
    else
      _ ← mfor (zrange 0 (Z.to_nat w)) (fun i => wr dst i 0);
      let tmp := u64 (Z.shiftl src b) in
      _ ← wr dst w (u32 tmp);
      let carry := u32 (Z.shiftr tmp BI_WORDSIZE) in
      if negb (carry =? 0) then
        if w + 2 >? dst_words then mret 1 else _ ← wr dst (w + 1) carry; _ ← set_n dst (w + 2); mret 0
      else _ ← set_n dst (w + 1); mret 0.

(** [(hi << b) | (lo >> (_BI_WORDSIZE - b))] *)
Definition shl_word (hi lo b : Z) : Z := Z.lor (u32 (Z.shiftl hi b)) (Z.shiftr lo (BI_WORDSIZE - b)).

Definition bi_shl_b (dst dst_words src shift : Z) : BM Z :=
  sn ← get_n src;
  if sn =? 0 then _ ← set_n dst 0; mret 0
  else
    let b := u32 shift mod BI_WORDSIZE in let w := u32 shift / BI_WORDSIZE in
    let dn := sn + w in
    if dn >? dst_words then mret 1
    else
      let zeros (dn : Z) : BM Z := _ ← mfor (zrange 0 (Z.to_nat w)) (fun i => wr dst i 0); _ ← set_n dst dn; mret 0 in
      if b =? 0 then
        _ ← mfor (down sn) (fun i => x ← rd src i; wr dst (i + w) x); zeros dn
      else
        top ← rd src (sn - 1);
        let tmp := Z.shiftr top (BI_WORDSIZE - b) in
        if negb (tmp =? 0) && (dn + 1 >? dst_words) then mret 1
        else
          _ ← mwhen (negb (tmp =? 0)) (wr dst dn tmp);
          _ ← mfor (rev (zrange 1 (Z.to_nat (sn - 1)))) (fun i =>
                 hi ← rd src i; lo ← rd src (i - 1); wr dst (i + w) (shl_word hi lo b));
          x ← rd src 0; _ ← wr dst w (u32 (Z.shiftl x b));
          zeros (if negb (tmp =? 0) then dn + 1 else dn).

Definition bi_shr_b (dst dst_words src shift : Z) : BM Z :=
  let b := u32 shift mod BI_WORDSIZE in let w := u32 shift / BI_WORDSIZE in
  sn ← get_n src;
  if sn <=? w then _ ← set_n dst 0; mret 0
  else
    let dn := sn - w in
    if dn >? dst_words then mret 1
    else if b =? 0 then
      _ ← mfor (zrange 0 (Z.to_nat sn)) (fun i => x ← rd src (i + w); wr dst i x); _ ← set_n dst dn; mret 0
    else
      _ ← mfor (zrange 0 (Z.to_nat (dn - 1))) (fun i =>
             lo ← rd src (i + w); hi ← rd src (i + w + 1);
             wr dst i (Z.lor (Z.shiftr lo b) (u32 (Z.shiftl hi (BI_WORDSIZE - b)))));
      x ← rd src (dn - 1 + w);
      let tmp := Z.shiftr x b in
      if negb (tmp =? 0) then _ ← wr dst (dn - 1) tmp; _ ← set_n dst dn; mret 0
      else _ ← set_n dst (dn - 1); mret 0.

(** ** Division *)

(** [_bi_div_rem_bw]; the remainder is the second result. *)
Definition bi_div_rem_bw (quot quot_words num den : Z) : BM (Z * Z) :=
  if den =? 0 then mret (1, 0)
  else
    n ← get_n num;
    if n >? quot_words then mret (1, 0)
    else if n =? 0 then _ ← set_n quot 0; mret (0, 0)
    else
      r ← mfold (down n) (fun j r =>
        x ← rd num j; let t := u64 (Z.shiftl r BI_WORDSIZE + x) in
        _ ← wr quot j (u32 (t / den)); mret (u32 (t mod den))) 0;
      top ← rd quot (n - 1);
      _ ← set_n quot (if negb (top =? 0) then n else n - 1); mret (0, r).

(** The loop of [_bi_div_estimate]: [q] too big by one or two. *)
Fixpoint estimate_loop (fuel : nat) (v1 v2 u2 q r : Z) : BM Z :=
  match fuel with
  | O => mfail Hang
  | S fuel' =>
      if u64 (v2 * q) >? u64 (u64 (Z.shiftl r BI_WORDSIZE) + u2) then
        _ ← assert (negb (q =? 0));
        let r' := u32 (r + v1) in
        if r' <? v1 then mret (u32 (q - 1)) else estimate_loop fuel' v1 v2 u2 (u32 (q - 1)) r'
      else mret q
  end.

(** [_bi_div_estimate (&v[i], v1, v2)] for the words [v] of [p]. *)
Definition bi_div_estimate (p i v1 v2 : Z) : BM Z :=
  u0 ← rd p i;
  _ ← assert (u0 <=? v1);
  u1 ← rd p (i - 1);
  if u0 =? v1 then
    let q := BI_WORDMAX in
    let rd' := u64 (u64 (u64 (Z.shiftl u0 BI_WORDSIZE) + u1) - u64 (q * v1)) in
    let r := u32 rd' in
    if negb (r =? rd') then mret q else u2 ← rd p (i - 2); estimate_loop 4 v1 v2 u2 q r
  else
    let num := u64 (u64 (Z.shiftl u0 BI_WORDSIZE) + u1) in
    u2 ← rd p (i - 2); estimate_loop 4 v1 v2 u2 (u32 (num / v1)) (u32 (num mod v1)).

(** [_bi_div_subtract (&u->v[k], v->v, n, q)] *)
Definition bi_div_subtract (u k v n q : Z) : BM bool :=
  c ← mfold (zrange 0 (Z.to_nat n)) (fun i c =>
    let '(mul_carry, sub_borrow) := c : Z * Z in
    y ← rd v i; x ← rd u (k + i);
    let '(x', mc, sb) := mul_sub_word x y q mul_carry sub_borrow in
    _ ← wr u (k + i) x'; mret (mc, sb)) (0, 0);
  let '(mul_carry, sub_borrow) := c in
  x ← rd u (k + n); let stmp := s64 (x - mul_carry - sub_borrow) in
  _ ← wr u (k + n) (u32 stmp); mret (stmp <? 0).

(** A read of an array or of the word directly behind it: no such word may be
    accessible ([None], a fault), or it may belong to whatever is in memory
    there ([Some x]). *)
Definition rd_past (past : option Z) (p i : Z) : BM Z :=
  s ← mget; b ← deref (aget s p);
  if i =? alen (bv b) then deref past else deref (aget (bv b) i).

(** [_bi_div_add_back (&u->v[k], v->v, n)]: the loop runs once too often and
    reads [v->v[n]]. *)
Definition bi_div_add_back (past : option Z) (u k v n : Z) : BM unit :=
  carry ← mfold (zrange 0 (Z.to_nat n)) (fun i c => x ← rd u (k + i); y ← rd v i; add_word u (k + i) x y c) 0;
  x ← rd u (k + n); y ← rd_past past v n;
  carry ← add_word u (k + n) x y carry;
  assert (negb (carry =? 0)).

(** The loop over the words of the quotient, from the most significant. *)
Definition div_loop (past : option Z) (num_rem nn quot den dn m : Z) : BM unit :=
  v1 ← rd den (dn - 1); v2 ← rd den (dn - 2);
  mfor (zrange 0 (Z.to_nat (m + 1))) (fun j =>
    q ← bi_div_estimate num_rem (nn - j) v1 v2;
    neg ← bi_div_subtract num_rem (nn - (j + dn)) den dn q;
    q ← (if (neg : bool) then _ ← bi_div_add_back past num_rem (nn - (j + dn)) den dn; mret (u32 (q - 1)) else mret q);
    wr quot (m - j) q).

(** [alloca] of [n] words, which hold what is in memory there, and the return
    from the function. *)
Definition alloca (past : option Z) (n : Z) : BM Z :=
  s ← mget; _ ← mput (s ++ [mk_big 0 (replicate (Z.to_nat n) (default 0 past))]); mret (alen s).
Definition unalloca : BM unit := mmod (fun s => removelast s).

(** [_bi_div_rem_bb] from the normalization on. *)
Definition div_normalized (past : option Z) (num_rem num_rem_words nn quot den dn m shift : Z) : BM Z :=
  n ← get_n num_rem;
  _ ← mwhen (nn =? n) (wr num_rem nn 0);
  _ ← div_loop past num_rem nn quot den dn m;
  i ← trim num_rem (Z.to_nat dn); _ ← set_n num_rem i;
  _ ← (if negb (shift =? 0) then _ ← bi_shr_b num_rem num_rem_words num_rem shift; mret () else mret ());
  n ← get_n quot; top ← rd quot (n - 1);
  _ ← mwhen (top =? 0) (set_n quot (n - 1)); mret 0.

(** [_bi_div_rem_bb] for a denominator of several words. *)
Definition div_long (past : option Z) (num_rem num_rem_words nn quot quot_words den dn : Z) : BM Z :=
  let m := nn - dn in
  if m + 1 >? quot_words then mret 1
  else
    _ ← set_n quot (m + 1);
    top ← rd den (dn - 1);
    let shift := BI_WORDSIZE - fls top in
    if negb (shift =? 0) then
      ov ← bi_shl_b num_rem num_rem_words num_rem shift; _ ← assert (ov =? 0);
      tmp ← alloca past dn; _ ← set_n tmp dn;
      ov ← bi_shl_b tmp dn den shift; _ ← assert (ov =? 0);
      r ← div_normalized past num_rem num_rem_words nn quot tmp dn m shift;
      _ ← unalloca; mret r
    else div_normalized past num_rem num_rem_words nn quot den dn m shift.

Definition bi_div_rem_bb (past : option Z) (num_rem num_rem_words quot quot_words den : Z) : BM Z :=
  nn ← get_n num_rem; dn ← get_n den;
  if dn =? 0 then mret 1
  else if nn + 1 >? num_rem_words then mret 1
  else
    less ← (if nn <? dn then mret true
            else if nn =? dn then x ← rd num_rem (nn - 1); y ← rd den (nn - 1); mret (x <? y)
            else mret false);
    if (less : bool) then bi_set_w quot quot_words 0
    else if dn =? 1 then
      d ← rd den 0; qr ← bi_div_rem_bw quot quot_words num_rem d;
      if negb (fst qr =? 0) then mret 1 else bi_set_w num_rem num_rem_words (snd qr)
    else div_long past num_rem num_rem_words nn quot quot_words den dn.

(** [_bi_hdiv_rem_b] *)
Definition bi_hdiv_rem_b (num den : Z) : BM Z :=
  dn ← get_n den; _ ← assert (negb (dn =? 0));
  dhi ← rd den (dn - 1); _ ← assert (negb (dhi =? 0));
  nn ← get_n num;
  if (nn =? 0) || (nn <? dn) then mret 0
  else
    _ ← assert (nn <=? dn + 1);
    nhi ← rd num (nn - 1); _ ← assert (negb (nhi =? 0));
    if nn =? 1 then
      let q := nhi / dhi in
      neg ← bi_sub_mul_bw num den q; _ ← assert (neg =? 0); mret q
    else if (nn =? dn) && (nhi <? dhi) then mret 0
    else
      let shift := BI_WORDSIZE - fls nhi in
      nd ← (if shift =? 0 then _ ← assert (nn =? dn); mret (nhi, dhi)
            else
              n2 ← rd num (nn - 2);
              let nhi' := shl_word nhi n2 shift in
              if dn <? nn then mret (nhi', Z.shiftr dhi (BI_WORDSIZE - shift))
              else d2 ← rd den (dn - 2); mret (nhi', shl_word dhi d2 shift));
      let '(nhi, dhi) := nd : Z * Z in
      _ ← assert (dhi >=? 2 ^ 15);
      let q := nhi / dhi in
      if q =? 0 then c ← bi_cmp_bb num den; _ ← assert (c <? 0); mret 0
      else if (if negb (u32 (dhi + 1) =? 0) then q =? nhi / u32 (dhi + 1) else negb (u32 (nhi + 1) =? 0)) then
        neg ← bi_sub_mul_bw num den q; _ ← assert (neg =? 0);
        c ← bi_cmp_bb num den; _ ← assert (c <? 0); mret q
      else
        neg ← bi_sub_mul_bw num den q;
        q ← (if negb (neg =? 0) then
               neg ← bi_sub_mul_bw num den (u32 (q - 1)); _ ← assert (neg =? 0); mret (u32 (q - 1))
             else mret q);
        c ← bi_cmp_bb num den; _ ← assert (c <? 0); mret q.

Definition bi_wdiv_rem_pow2 (num shift : Z) : BM Z :=
  _ ← assert (shift >=? 1);
  let shift_words := shift / BI_WORDSIZE + 1 in
  n ← get_n num;
  if n <? shift_words then mret 0
  else
    _ ← assert (n <=? shift_words + 1);
    x ← rd num (n - 1); _ ← assert (negb (x =? 0));
    let shift_bits := shift mod BI_WORDSIZE in
    qn ← (if n =? shift_words then mret (Z.shiftr x shift_bits, n)
          else
            _ ← assert (n >=? 2); _ ← assert (negb (shift_bits =? 0));
            y ← rd num (n - 2); mret (Z.lor (u32 (Z.shiftl x (BI_WORDSIZE - shift_bits))) (Z.shiftr y shift_bits), n - 1));
    let '(q, n) := qn : Z * Z in
    x ← rd num (n - 1); _ ← wr num (n - 1) (Z.land x (u32 (Z.shiftl 1 shift_bits) - 1));
    n ← trim num (Z.to_nat n); _ ← set_n num n; mret q.

Definition bi_div_rem_pow2 (num_rem quot quot_words shift : Z) : BM Z :=
  _ ← assert (shift >=? 0);
  if shift =? 0 then
    r ← bi_set_b quot quot_words num_rem;
    if negb (r =? 0) then mret 1 else _ ← set_n num_rem 0; mret 0
  else
    n ← get_n num_rem;
    let shift_words := shift / BI_WORDSIZE in let shift_bits := shift mod BI_WORDSIZE in
    if n <=? shift_words then _ ← set_n quot 0; mret 0
    else
      r ← bi_shr_b quot quot_words num_rem shift;
      if negb (r =? 0) then mret 1
      else
        x ← rd num_rem shift_words;
        _ ← wr num_rem shift_words (Z.land x (u32 (Z.shiftl 1 shift_bits) - 1));
        n ← trim num_rem (Z.to_nat (shift_words + 1)); _ ← set_n num_rem n; mret 0.
