(* ===== verification/BigIntFacts.v ===== *)
(** Values of word arrays, the store of bigints under the weakest
    preconditions, and the rules of the loops. *)

From S2P Require Import Prelude BigInt.

(** ** Values *)

Definition BASE : Z := 2 ^ 32.

(** [lia] with the value of the base. *)
Ltac blia := unfold BASE in *; lia.

Definition words (v : list Z) : Prop := Forall (fun x => 0 <= x < BASE) v.

(** Word [i], zero outside of the array. *)
Definition w (v : list Z) (i : Z) : Z := default 0 (aget v i).

Lemma w_range v i : words v -> 0 <= w v i < BASE.
Proof.
  intros Hv. unfold w. destruct (aget v i) eqn:Hi; cbn; [|unfold BASE; lia]. by apply (Forall_aget _ _ _ _ Hv Hi).
Qed.

Lemma aget_w v i : 0 <= i < alen v -> aget v i = Some (w v i).
Proof. intros [x Hx]%aget_is_Some. unfold w. by rewrite Hx. Qed.

Lemma w_aset v i j x : 0 <= i < alen v -> w (aset v i x) j = if decide (i = j) then x else w v j.
Proof. intros Hi. unfold w. rewrite aget_aset by done. by case_decide. Qed.

Lemma words_aset v i x : words v -> 0 <= x < BASE -> words (aset v i x).
Proof. intros. by apply Forall_aset. Qed.

(** The number that [n] words from [lo] on stand for. *)
Fixpoint valr (v : list Z) (lo : Z) (n : nat) : Z :=
  match n with O => 0 | S n' => w v lo + BASE * valr v (lo + 1) n' end.

Definition V (v : list Z) (lo n : Z) : Z := valr v lo (Z.to_nat n).

Lemma V_0 v lo n : n <= 0 -> V v lo n = 0.
Proof. intros. unfold V. by replace (Z.to_nat n) with O by lia. Qed.

Lemma V_low v lo n : 0 <= n -> V v lo (n + 1) = w v lo + BASE * V v (lo + 1) n.
Proof. intros. unfold V. by replace (Z.to_nat (n + 1)) with (S (Z.to_nat n)) by lia. Qed.

Lemma pow_S n : 0 <= n -> BASE ^ (n + 1) = BASE ^ n * BASE.
Proof. intros. rewrite Z.pow_add_r by lia. by rewrite Z.pow_1_r. Qed.

Lemma pow_pos n : 0 <= n -> 0 < BASE ^ n.
Proof. intros. apply Z.pow_pos_nonneg; unfold BASE; lia. Qed.

Lemma valr_split v a b lo : valr v lo (a + b) = valr v lo a + BASE ^ Z.of_nat a * valr v (lo + Z.of_nat a) b.
Proof.
  revert lo. induction a as [|a IH]; intros lo; cbn [plus valr].
  - rewrite Z.add_0_r, Z.pow_0_r. lia.
  - rewrite IH. replace (lo + 1 + Z.of_nat a) with (lo + Z.of_nat (S a)) by lia.
    replace (Z.of_nat (S a)) with (Z.of_nat a + 1) by lia. rewrite pow_S by lia. lia.
Qed.

Lemma V_split v lo a b : 0 <= a -> 0 <= b -> V v lo (a + b) = V v lo a + BASE ^ a * V v (lo + a) b.
Proof. intros. unfold V. rewrite Z2Nat.inj_add, valr_split by lia. by rewrite Z2Nat.id by lia. Qed.

Lemma V_1 v lo : V v lo 1 = w v lo.
Proof. change (w v lo + BASE * 0 = w v lo). lia. Qed.

Lemma V_top v lo n : 0 <= n -> V v lo (n + 1) = V v lo n + BASE ^ n * w v (lo + n).
Proof. intros. by rewrite V_split, V_1 by lia. Qed.

Lemma valr_ext v v' m : forall lo lo', (forall i, 0 <= i < Z.of_nat m -> w v (lo + i) = w v' (lo' + i)) -> valr v lo m = valr v' lo' m.
Proof.
  induction m as [|m IH]; intros lo lo' He; [done|]. cbn [valr]. f_equal.
  - specialize (He 0 ltac:(lia)). by rewrite !Z.add_0_r in He.
  - f_equal. apply IH. intros i Hi. rewrite <-!Z.add_assoc, !(Z.add_comm 1). apply He. lia.
Qed.

Lemma V_ext v v' lo lo' n : (forall i, 0 <= i < n -> w v (lo + i) = w v' (lo' + i)) -> V v lo n = V v' lo' n.
Proof. intros He. apply valr_ext. intros i Hi. apply He. lia. Qed.

Lemma V_aset_out v lo n i x : 0 <= i < alen v -> i < lo \/ lo + n <= i -> V (aset v i x) lo n = V v lo n.
Proof. intros Hi Ho. apply V_ext. intros j Hj. rewrite w_aset by done. rewrite decide_False by lia. done. Qed.

Lemma V_bound v lo n : words v -> 0 <= n -> 0 <= V v lo n < BASE ^ n.
Proof.
  intros Hv Hn. revert lo. revert n Hn. apply (natlike_ind (fun n => forall lo, 0 <= V v lo n < BASE ^ n)).
  - intros lo. by rewrite V_0.
  - intros k Hk IH lo. unfold Z.succ. rewrite V_low, pow_S by done. specialize (IH (lo + 1)). pose proof (w_range v lo Hv). nia.
Qed.

(** The number of a bigint, and its well-formedness: the words are words, the
    ones in use lie in the array and the last of them is not zero. *)
Definition value (b : bigint) : Z := V (bv b) 0 (bn b).

Definition big_ok (b : bigint) : Prop :=
  words (bv b) /\ 0 <= bn b <= alen (bv b) /\ (bn b <> 0 -> w (bv b) (bn b - 1) <> 0).

Lemma value_bound b : big_ok b -> 0 <= value b < BASE ^ bn b.
Proof. intros (Hw & Hn & _). apply V_bound; [done|lia]. Qed.

Lemma value_lower b : big_ok b -> bn b <> 0 -> BASE ^ (bn b - 1) <= value b.
Proof.
  intros (Hw & Hn & Ht) H0. unfold value. replace (bn b) with (bn b - 1 + 1) at 2 by lia. rewrite V_top by lia.
  pose proof (V_bound (bv b) 0 (bn b - 1) Hw ltac:(lia)). pose proof (w_range (bv b) (bn b - 1) Hw). specialize (Ht H0).
  pose proof (pow_pos (bn b - 1) ltac:(lia)). rewrite Z.add_0_l. nia.
Qed.

Lemma value_zero b : big_ok b -> value b = 0 <-> bn b = 0.
Proof.
  intros Hb. split.
  - intros Hv. destruct (Z.eq_dec (bn b) 0); [done|]. pose proof (value_lower b Hb ltac:(done)). destruct Hb as (_ & Hn & _).
    pose proof (pow_pos (bn b - 1) ltac:(lia)). lia.
  - intros Hn. unfold value. by rewrite V_0 by lia.
Qed.

(** The length of a number decides its order. *)
Lemma value_lt_len a b : big_ok a -> big_ok b -> bn a < bn b -> value a < value b.
Proof.
  intros Ha Hb Hl. pose proof (value_bound a Ha). destruct Ha as (_ & Hn & _).
  pose proof (value_lower b Hb ltac:(lia)). assert (BASE ^ bn a <= BASE ^ (bn b - 1)) by (apply Z.pow_le_mono_r; unfold BASE; lia). lia.
Qed.

(** ** The store *)

Definition upd (s : list bigint) (p n : Z) (v : list Z) : list bigint := aset s p (mk_big n v).

Lemma aget_upd_eq s p b n v : aget s p = Some b -> aget (upd s p n v) p = Some (mk_big n v).
Proof. intros Hb%aget_Some_range. by apply aget_aset_eq. Qed.

Lemma aget_upd_ne s p b q n v : aget s p = Some b -> p <> q -> aget (upd s p n v) q = aget s q.
Proof. intros Hb%aget_Some_range Hn. apply aget_aset_ne; [lia|done]. Qed.

Lemma upd_upd s p n v n' v' : upd (upd s p n v) p n' v' = upd s p n' v'.
Proof. apply aset_aset. Qed.

Lemma upd_id s p b : aget s p = Some b -> upd s p (bn b) (bv b) = s.
Proof. intros Hb. apply aset_id. by destruct b. Qed.

Section Wp.
Context (E : Z -> list bigint -> Prop).

Lemma wp_get_n p b Q s : aget s p = Some b -> Q (bn b) s -> wp (get_n p) Q E s.
Proof. intros Hb HQ. unfold get_n. wp_step. wp_step. wp_step. rewrite Hb. done. Qed.

Lemma wp_set_n p b n Q s : aget s p = Some b -> Q () (upd s p n (bv b)) -> wp (set_n p n) Q E s.
Proof. intros Hb HQ. unfold set_n. wp_step. wp_step. wp_step. rewrite Hb. done. Qed.

Lemma wp_rd p b i Q s : aget s p = Some b -> 0 <= i < alen (bv b) -> Q (w (bv b) i) s -> wp (rd p i) Q E s.
Proof. intros Hb Hi HQ. unfold rd. wp_step. wp_step. wp_step. rewrite Hb. cbn. rewrite aget_w by done. done. Qed.

Lemma wp_wr p b i x Q s :
  aget s p = Some b -> 0 <= i < alen (bv b) -> Q () (upd s p (bn b) (aset (bv b) i x)) -> wp (wr p i x) Q E s.
Proof. intros Hb Hi HQ. unfold wr. wp_step. wp_step. wp_step. rewrite Hb. cbn. unfold wp. cbn. rewrite aget_w by done. done. Qed.

Lemma wp_assert (b : bool) (Q : unit -> list bigint -> Prop) s : b = true -> Q () s -> wp (assert b) Q E s.
Proof. by intros ->. Qed.
End Wp.

(** ** Loops *)

Section Loops.
Context {S B : Type} (E : Z -> S -> Prop).

Lemma wp_mfold (l : list Z) (f : Z -> B -> M S B) (I : Z -> B -> S -> Prop) (Q : B -> S -> Prop) a s :
  I 0 a s ->
  (forall k x a s, aget l k = Some x -> I k a s -> wp (f x a) (I (k + 1)) E s) ->
  (forall a s, I (alen l) a s -> Q a s) -> wp (mfold l f a) Q E s.
Proof.
  revert I a s. induction l as [|x l IH]; intros I a s H0 Hs HQ; cbn; [by apply HQ|].
  apply wp_bind. eapply wp_conseq; [by apply (Hs 0)| |done]. intros a' s' HI. cbn beta.
  apply (IH (fun k => I (k + 1))); [done| |].
  - intros k y b s2 Hk. apply Hs. pose proof (aget_Some_range _ _ _ Hk). revert Hk. unfold aget.
    destruct (Z.leb_spec 0 k), (Z.leb_spec 0 (k + 1)); try lia. by replace (Z.to_nat (k + 1)) with (Datatypes.S (Z.to_nat k)) by lia.
  - intros b s2. replace (alen l + 1) with (alen (x :: l)); [apply HQ|]. unfold alen. cbn. lia.
Qed.

Lemma wp_up lo n (f : Z -> B -> M S B) (I : Z -> B -> S -> Prop) (Q : B -> S -> Prop) a s :
  0 <= n -> I 0 a s -> (forall k a s, 0 <= k < n -> I k a s -> wp (f (lo + k) a) (I (k + 1)) E s) ->
  (forall a s, I n a s -> Q a s) -> wp (mfold (zrange lo (Z.to_nat n)) f a) Q E s.
Proof.
  intros Hn H0 Hs HQ. apply (wp_mfold _ _ I); [done| |].
  - intros k x a' s' Hk. pose proof (aget_Some_range _ _ _ Hk) as Hr. unfold alen in Hr. rewrite length_zrange in Hr.
    revert Hk. unfold aget, zrange. destruct (Z.leb_spec 0 k); [|lia]. rewrite list_lookup_fmap, lookup_seq_lt by lia.
    intros [= Hx]. replace x with (lo + k) by lia. apply Hs. lia.
  - intros a' s'. unfold alen. rewrite length_zrange, Z2Nat.id by lia. apply HQ.
Qed.

Lemma wp_down lo n (f : Z -> B -> M S B) (I : Z -> B -> S -> Prop) (Q : B -> S -> Prop) a s :
  0 <= n -> I n a s -> (forall k a s, 0 <= k < n -> I (k + 1) a s -> wp (f (lo + k) a) (I k) E s) ->
  (forall a s, I 0 a s -> Q a s) -> wp (mfold (rev (zrange lo (Z.to_nat n))) f a) Q E s.
Proof.
  intros Hn. rewrite <-(Z2Nat.id n Hn). generalize (Z.to_nat n) as m. clear n Hn. intros m. rewrite Nat2Z.id.
  revert a s. induction m as [|m IH]; intros a s H0 Hs HQ; [by apply HQ|].
  unfold zrange. rewrite seq_S, fmap_app, rev_app_distr. cbn. apply wp_bind.
  eapply wp_conseq; [apply (Hs (Z.of_nat m)); [lia|by replace (Z.of_nat m + 1) with (Z.of_nat (Datatypes.S m)) by lia]| |done].
  intros a' s' HI. apply IH; [done| |done]. intros k b s2 Hk. apply Hs. lia.
Qed.
End Loops.

(** The loops without a value. *)
Section ForLoops.
Context {S : Type} (E : Z -> S -> Prop).

Lemma mfor_mfold (l : list Z) (f : Z -> M S unit) s : mfor l f s = mfold l (fun x _ => f x) () s.
Proof. revert s. induction l as [|x l IH]; intros s; cbn; [done|]. unfold mbind, M_bind. destruct (f x s) as [[] s'| |]; [apply IH|done..]. Qed.

Lemma wp_for_up lo n (f : Z -> M S unit) (I : Z -> S -> Prop) (Q : unit -> S -> Prop) s :
  0 <= n -> I 0 s -> (forall k s, 0 <= k < n -> I k s -> wp (f (lo + k)) (fun _ => I (k + 1)) E s) ->
  (forall s, I n s -> Q () s) -> wp (mfor (zrange lo (Z.to_nat n)) f) Q E s.
Proof.
  intros Hn H0 Hs HQ. unfold wp. rewrite mfor_mfold. apply (wp_up E lo n _ (fun k _ => I k)); [done..| |by intros []].
  intros k [] s' Hk. by apply Hs.
Qed.

Lemma wp_for_down lo n (f : Z -> M S unit) (I : Z -> S -> Prop) (Q : unit -> S -> Prop) s :
  0 <= n -> I n s -> (forall k s, 0 <= k < n -> I (k + 1) s -> wp (f (lo + k)) (fun _ => I k) E s) ->
  (forall s, I 0 s -> Q () s) -> wp (mfor (rev (zrange lo (Z.to_nat n))) f) Q E s.
Proof.
  intros Hn H0 Hs HQ. unfold wp. rewrite mfor_mfold. apply (wp_down E lo n _ (fun k _ => I k)); [done..| |by intros []].
  intros k [] s' Hk. by apply Hs.
Qed.
End ForLoops.
