(* ===== verification/BigIntArith.v ===== *)
(** Single words, and the loops of the division that run over the words of
    one number: subtraction of a multiple, adding back, trimming, shifts. *)

From S2P Require Import Prelude BigInt BigIntFacts.

(** ** Words *)

Lemma hi_word t : 0 <= t < 2 ^ 64 -> u32 (Z.shiftr t BI_WORDSIZE) = t / BASE.
Proof.
  intros Ht. unfold BI_WORDSIZE. rewrite Z.shiftr_div_pow2 by lia. apply u32_small. split; [apply Z.div_pos; blia|].
  apply Z.div_lt_upper_bound; blia.
Qed.

Lemma s64_cases t : 0 <= t < 2 ^ 64 -> s64 t = t \/ s64 t = t + (-1) * 2 ^ 32 * 2 ^ 32.
Proof.
  intros Ht. unfold s64. destruct (Z_lt_ge_dec t (2 ^ 63)).
  - left. rewrite Z.mod_small; lia.
  - right. rewrite <-(Z.mod_unique (t + 2 ^ 63) (2 ^ 64) 1 (t - 2 ^ 63)); lia.
Qed.

(** A 64-bit product kept in a signed variable gives the same words. *)
Lemma hi_word_s t : 0 <= t < 2 ^ 64 -> u32 (Z.shiftr (s64 t) BI_WORDSIZE) = t / BASE.
Proof.
  intros Ht. rewrite <-hi_word by done. unfold BI_WORDSIZE. rewrite !Z.shiftr_div_pow2 by lia.
  destruct (s64_cases t Ht) as [-> | ->]; [done|]. rewrite Z.div_add by lia. unfold u32.
  by rewrite Z.mod_add by lia.
Qed.

Lemma lo_word_s t : 0 <= t < 2 ^ 64 -> u32 (s64 t) = t mod BASE.
Proof. intros Ht. unfold u32, BASE. destruct (s64_cases t Ht) as [-> | ->]; [done|]. by rewrite Z.mod_add by lia. Qed.

Definition bit (b : Z) : Prop := b = 0 \/ b = 1.

(** The difference of words as a signed 64-bit number. *)
Lemma sub_word t : - BASE <= t < BASE -> s64 t = t /\ 0 <= u32 t < BASE /\ bit (Z.b2z (t <? 0)) /\ u32 t - BASE * Z.b2z (t <? 0) = t.
Proof.
  unfold BASE, bit. intros Ht. rewrite s64_small by lia. pose proof (u32_range t). split_and!; [done|lia|lia|destruct (t <? 0); cbn; lia|].
  unfold u32. destruct (Z.ltb_spec t 0); cbn [Z.b2z].
  - rewrite <-(Z.mod_unique t (2 ^ 32) (-1) (t + 2 ^ 32)); lia.
  - rewrite Z.mod_small; lia.
Qed.

Lemma mul_range a b c : 0 <= a < BASE -> 0 <= b < BASE -> 0 <= c < BASE -> 0 <= a * b + c < 2 ^ 64.
Proof. unfold BASE. nia. Qed.

Lemma mul_sub_word_spec u v q mc sb x mc' sb' :
  0 <= u < BASE -> 0 <= v < BASE -> 0 <= q < BASE -> 0 <= mc < BASE -> bit sb ->
  mul_sub_word u v q mc sb = (x, mc', sb') ->
  0 <= x < BASE /\ 0 <= mc' < BASE /\ bit sb' /\ x - BASE * (mc' + sb') = u - v * q - mc - sb.
Proof.
  intros Hu Hv Hq Hm Hs. unfold mul_sub_word. pose proof (mul_range v q mc Hv Hq Hm) as Ht.
  rewrite (hi_word_s _ Ht), (lo_word_s _ Ht). set (t := v * q + mc) in *. intros [= <- <- <-].
  pose proof (Z.div_mod t BASE ltac:(unfold BASE; lia)) as Hd. pose proof (Z.mod_pos_bound t BASE ltac:(unfold BASE; lia)) as Hr.
  destruct (sub_word (u - t mod BASE - sb)) as (-> & H1 & H2 & H3); [unfold bit in Hs; lia|].
  split_and!; [lia|lia| |by apply Z.div_lt_upper_bound; unfold BASE in *; lia|done|nia].
  apply Z.div_pos; unfold BASE; lia.
Qed.

Lemma mult_small P a : 0 < P -> - P < P * a < P -> a = 0.
Proof. nia. Qed.

Section Wp.
Context (E : Z -> list bigint -> Prop).

Lemma wp_add_word dst d i a b c (Q : Z -> list bigint -> Prop) s :
  aget s dst = Some d -> 0 <= i < alen (bv d) -> 0 <= a < BASE -> 0 <= b < BASE -> bit c ->
  (forall x c', 0 <= x < BASE -> bit c' -> x + BASE * c' = a + b + c -> Q c' (upd s dst (bn d) (aset (bv d) i x))) ->
  wp (add_word dst i a b c) Q E s.
Proof.
  intros Hd Hi Ha Hb Hc HQ. unfold bit in *. unfold add_word. rewrite u64_small by (unfold BASE in *; lia).
  rewrite hi_word by (unfold BASE in *; lia). set (t := a + b + c).
  pose proof (Z.div_mod t BASE ltac:(unfold BASE; lia)) as He. pose proof (Z.mod_pos_bound t BASE ltac:(unfold BASE; lia)) as Hr.
  assert (Hq : t / BASE = 0 \/ t / BASE = 1).
  { assert (0 <= t / BASE) by (apply Z.div_pos; unfold BASE in *; lia). assert (t / BASE < 2) by (apply Z.div_lt_upper_bound; unfold BASE in *; lia). lia. }
  apply wp_bind. eapply wp_wr; [done..|]. apply wp_ret. apply HQ; [exact Hr|done|]. unfold u32. fold BASE. lia.
Qed.

(** What changed: bigint [p] alone, and only its words from [lo] to below
    [hi]. *)
Definition same_but (v v' : list Z) (lo hi : Z) : Prop :=
  alen v' = alen v /\ words v' /\ forall i, 0 <= i -> i < lo \/ hi <= i -> w v' i = w v i.

Lemma words_same_refl v lo hi : words v -> same_but v v lo hi.
Proof. intros Hw. unfold same_but. by split_and!. Qed.

Lemma same_aset v v' lo hi i x :
  same_but v v' lo hi -> 0 <= i < alen v -> lo <= i -> i < hi -> 0 <= x < BASE -> same_but v (aset v' i x) lo hi.
Proof.
  intros (Hl & Hw & Hs) Hi Hlo Hhi Hx. unfold same_but. split_and!; [by rewrite alen_aset|by apply words_aset|].
  intros j Hj Ho. rewrite w_aset by (rewrite Hl; done). rewrite decide_False by lia. by apply Hs.
Qed.

Lemma same_V v v' lo hi a n : same_but v v' lo hi -> 0 <= a -> a + n <= lo \/ hi <= a -> V v' a n = V v a n.
Proof. intros (_ & _ & Hs) Ha Ho. apply V_ext. intros i Hi. apply Hs; lia. Qed.

Lemma words_same_weaken v v' lo hi lo' hi' : same_but v v' lo hi -> lo' <= lo -> hi <= hi' -> same_but v v' lo' hi'.
Proof. intros (Hl & Hw & Hs) H1 H2. unfold same_but. split_and!; [done..|]. intros i Hi Ho. apply Hs; lia. Qed.

Lemma words_same_trans v v' v'' lo hi : same_but v v' lo hi -> same_but v' v'' lo hi -> same_but v v'' lo hi.
Proof. intros (Hl & Hw & Hs) (Hl' & Hw' & Hs'). unfold same_but. split_and!; [lia|done|]. intros i Hi Ho. by rewrite Hs', Hs. Qed.

(** [_bi_div_subtract] takes [q] times [v] from the words [k .. k+n] of [u];
    a borrow stands for one unit behind them. *)
Lemma wp_div_subtract u k v n q ub vb (Q : bool -> list bigint -> Prop) s :
  u <> v -> aget s u = Some ub -> aget s v = Some vb -> words (bv ub) -> words (bv vb) ->
  0 <= k -> 0 <= n -> k + n < alen (bv ub) -> n <= alen (bv vb) -> 0 <= q < BASE ->
  (forall neg l, same_but (bv ub) l k (k + n + 1) ->
    V l k (n + 1) = V (bv ub) k (n + 1) - q * V (bv vb) 0 n + BASE ^ (n + 1) * Z.b2z neg -> Q neg (upd s u (bn ub) l)) ->
  wp (bi_div_subtract u k v n q) Q E s.
Proof.
  intros Hne Hu Hv Hwu Hwv Hk Hn Hlu Hlv Hq HQ. unfold bi_div_subtract. apply wp_bind.
  apply (wp_up E 0 n _ (fun i c s' => exists l, s' = upd s u (bn ub) l /\ same_but (bv ub) l k (k + i) /\
    0 <= fst c < BASE /\ bit (snd c) /\ V l k i = V (bv ub) k i - q * V (bv vb) 0 i + BASE ^ i * (fst c + snd c))); [done| | |].
  - exists (bv ub). rewrite upd_id, !V_0 by (done || lia). split_and!; [done|by apply words_same_refl|unfold BASE; cbn; lia..|by left|cbn; lia].
  - intros i [mc sb] s' Hi (l & -> & Hs & Hmc & Hsb & HV). cbn [fst snd] in *. pose proof Hs as (Hll & Hlw & Hlo).
    pose proof (aget_upd_eq s u ub (bn ub) l Hu) as Hu'. pose proof (aget_upd_ne s u ub v (bn ub) l Hu Hne) as Hv'. rewrite Hv in Hv'.
    apply wp_bind. eapply wp_rd; [done|lia|]. apply wp_bind. eapply wp_rd; [done|cbn; lia|]. cbn [bv bn].
    destruct (mul_sub_word _ _ _ _ _) as [[x mc'] sb'] eqn:Hw.
    destruct (mul_sub_word_spec _ _ _ _ _ _ _ _ (w_range l (k + i) Hlw) (w_range (bv vb) (0 + i) Hwv) Hq Hmc Hsb Hw) as (Hx & Hmc' & Hsb' & He).
    apply wp_bind. eapply wp_wr; [done|cbn; lia|]. apply wp_ret. cbn [bn bv fst snd]. exists (aset l (k + i) x).
    rewrite upd_upd. split_and!; [done| |lia|lia|done|].
    + apply same_aset; try lia. by apply (words_same_weaken _ _ _ _ _ _ Hs); lia.
    + rewrite !V_top by lia. rewrite V_aset_out, HV by lia. rewrite w_aset, decide_True by lia.
      rewrite (Hlo (k + i)) in He by lia. rewrite pow_S by lia. rewrite Z.add_0_l in *. nia.
  - intros [mc sb] s' (l & -> & Hs & Hmc & Hsb & HV). cbn [fst snd] in *. pose proof Hs as (Hll & Hlw & Hlo).
    apply wp_bind. eapply wp_rd; [by apply (aget_upd_eq s u ub)|cbn; lia|]. cbn [bv]. unfold bit in Hsb.
    pose proof (w_range l (k + n) Hlw) as Hx. destruct (sub_word (w l (k + n) - mc - sb)) as (-> & H1 & H2 & H3); [lia|].
    apply wp_bind. eapply wp_wr; [by apply (aget_upd_eq s u ub)|cbn; lia|]. apply wp_ret. cbn [bn bv]. rewrite upd_upd. apply HQ.
    + apply same_aset; try lia. by apply (words_same_weaken _ _ _ _ _ _ Hs); lia.
    + rewrite !V_top by lia. rewrite V_aset_out, HV by lia. rewrite w_aset, decide_True by lia.
      rewrite (Hlo (k + n)) in * by lia. rewrite pow_S by lia. nia.
Qed.

Lemma wp_rd_past past p b i (Q : Z -> list bigint -> Prop) s :
  aget s p = Some b -> words (bv b) -> 0 <= i <= alen (bv b) -> 0 <= past < BASE ->
  (forall x, 0 <= x < BASE -> Q x s) -> wp (rd_past (Some past) p i) Q E s.
Proof.
  intros Hb Hw Hi Hp HQ. unfold rd_past. wp_step. wp_step. wp_step. rewrite Hb. cbn.
  destruct (Z.eqb_spec i (alen (bv b))); [by apply HQ|].
  destruct (aget_is_Some (bv b) i ltac:(lia)) as [x Hx]. rewrite Hx. apply HQ. by apply (Forall_aget _ _ _ _ Hw Hx).
Qed.

(** [_bi_div_add_back] completes the words to the number [W] that the sum is
    modulo the power of the base; the word read behind [v] only ends up in the
    word above it. *)
Lemma wp_div_add_back past u k v n W ub vb (Q : unit -> list bigint -> Prop) s :
  u <> v -> aget s u = Some ub -> aget s v = Some vb -> words (bv ub) -> words (bv vb) -> 0 <= past < BASE ->
  0 <= k -> 0 <= n -> k + n < alen (bv ub) -> n <= alen (bv vb) ->
  0 <= W < BASE ^ n -> V (bv ub) k (n + 1) + V (bv vb) 0 n = W + BASE ^ (n + 1) ->
  (forall l, same_but (bv ub) l k (k + n + 1) -> V l k n = W -> Q () (upd s u (bn ub) l)) ->
  wp (bi_div_add_back (Some past) u k v n) Q E s.
Proof.
  intros Hne Hu Hv Hwu Hwv Hpast Hk Hn Hlu Hlv HW HV HQ. unfold bi_div_add_back. apply wp_bind.
  apply (wp_up E 0 n _ (fun i c s' => exists l, s' = upd s u (bn ub) l /\ same_but (bv ub) l k (k + i) /\
    bit c /\ V l k i + BASE ^ i * c = V (bv ub) k i + V (bv vb) 0 i)); [done| | |].
  - exists (bv ub). rewrite upd_id, !V_0 by (done || lia). split_and!; [done|by apply words_same_refl|by left|lia].
  - intros i c s' Hi (l & -> & Hs & Hc & HVi). pose proof Hs as (Hll & Hlw & Hlo).
    pose proof (aget_upd_eq s u ub (bn ub) l Hu) as Hu'. pose proof (aget_upd_ne s u ub v (bn ub) l Hu Hne) as Hv'. rewrite Hv in Hv'.
    apply wp_bind. eapply wp_rd; [done|cbn; lia|]. apply wp_bind. eapply wp_rd; [done|lia|]. cbn [bv bn].
    eapply wp_add_word; [done|cbn; lia|by apply w_range|by apply w_range|done|]. intros x c' Hx Hc' He. cbn [bn bv].
    exists (aset l (k + i) x). rewrite upd_upd. split_and!; [done| |done|].
    + apply same_aset; try lia. by apply (words_same_weaken _ _ _ _ _ _ Hs); lia.
    + rewrite !V_top by lia. rewrite V_aset_out by lia. rewrite w_aset, decide_True by lia.
      rewrite !Z.add_0_l in *. rewrite (Hlo (k + i)) in He by lia. rewrite pow_S by lia. nia.
  - intros c s' (l & -> & Hs & Hc & HVi). pose proof Hs as (Hll & Hlw & Hlo).
    pose proof (aget_upd_eq s u ub (bn ub) l Hu) as Hu'. pose proof (aget_upd_ne s u ub v (bn ub) l Hu Hne) as Hv'. rewrite Hv in Hv'.
    apply wp_bind. eapply wp_rd; [done|cbn; lia|]. apply wp_bind. eapply wp_rd_past; [done|done|lia|done|]. intros y Hy. cbn [bv bn].
    pose proof (w_range l (k + n) Hlw) as Ht. apply wp_bind. eapply wp_add_word; [done|cbn; lia|exact Ht|exact Hy|done|].
    intros x c' Hx Hc' He. cbn [bn bv] in *. rewrite upd_upd. rewrite V_top in HV by lia. rewrite (Hlo (k + n)) in * by lia.
    pose proof (V_bound l k n Hlw Hn) as Hb. pose proof (pow_pos n Hn). rewrite pow_S in HV by done.
    assert (BASE - w (bv ub) (k + n) - c = 0) as Hw by (apply (mult_small (BASE ^ n)); lia).
    assert (V l k n = W) as HVn by nia.
    apply wp_assert.
    + apply negb_true_iff, Z.eqb_neq. unfold bit in *. unfold BASE in *. lia.
    + apply HQ; [|by rewrite V_aset_out by lia]. apply same_aset; try lia. by apply (words_same_weaken _ _ _ _ _ _ Hs); lia.
Qed.

Lemma wp_trim p b n (Q : Z -> list bigint -> Prop) s :
  aget s p = Some b -> Z.of_nat n <= alen (bv b) ->
  (forall m, 0 <= m <= Z.of_nat n -> (m <> 0 -> w (bv b) (m - 1) <> 0) -> V (bv b) 0 m = V (bv b) 0 (Z.of_nat n) -> Q m s) ->
  wp (trim p n) Q E s.
Proof.
  intros Hb. induction n as [|n IH]; intros Hn HQ; cbn [trim]; [apply HQ; [lia|lia|done]|].
  apply wp_bind. eapply wp_rd; [done|lia|]. destruct (Z.eqb_spec (w (bv b) (Z.of_nat n)) 0) as [He|He].
  - apply IH; [lia|]. intros m Hm Ht HV. apply HQ; [lia|done|]. replace (Z.of_nat (S n)) with (Z.of_nat n + 1) by lia.
    rewrite V_top by lia. rewrite Z.add_0_l, He. lia.
  - apply wp_ret. apply HQ; [lia| |done]. by replace (Z.of_nat (S n) - 1) with (Z.of_nat n) by lia.
Qed.
End Wp.
