(* ===== verification/BigIntShift.v ===== *)
(** The shifts of bigints and the division by a single word. *)

From S2P Require Import Prelude BigInt BigIntFacts BigIntArith.

(** ** Words *)

Lemma lor_low y x b : 0 <= b -> 0 <= x < 2 ^ b -> Z.lor (y * 2 ^ b) x = y * 2 ^ b + x.
Proof.
  intros Hb Hx. assert (Hl : Z.land (y * 2 ^ b) x = 0).
  - apply Z.bits_inj'. intros i Hi. rewrite Z.land_spec, Z.bits_0. destruct (Z_lt_ge_dec i b).
    + by rewrite Z.mul_pow2_bits_low.
    + rewrite <-(Z.mod_small x (2 ^ b)) by done. rewrite Z.mod_pow2_bits_high by lia. apply andb_false_r.
  - by rewrite <-Z.lxor_lor, <-Z.add_nocarry_lxor.
Qed.

Lemma pow_base b : 0 <= b <= 32 -> 2 ^ b * 2 ^ (32 - b) = BASE.
Proof. intros. rewrite <-Z.pow_add_r by lia. unfold BASE. f_equal. lia. Qed.

Lemma hi_bits x b : 0 <= x < BASE -> 0 <= b <= 32 -> 0 <= x / 2 ^ (32 - b) < 2 ^ b.
Proof.
  intros Hx Hb. assert (0 < 2 ^ (32 - b)) by (apply Z.pow_pos_nonneg; lia). split; [apply Z.div_pos; lia|].
  apply Z.div_lt_upper_bound; [done|]. rewrite Z.mul_comm, pow_base by lia. lia.
Qed.

(** The low word of [x] shifted left. *)
Lemma shl_low x b : 0 <= x < BASE -> 0 <= b <= 32 -> u32 (Z.shiftl x b) = x * 2 ^ b - BASE * (x / 2 ^ (32 - b)).
Proof.
  intros Hx Hb. rewrite Z.shiftl_mul_pow2 by lia. unfold u32. fold BASE. rewrite Z.mod_eq by blia.
  rewrite <-(pow_base b) at 2 by done. rewrite (Z.mul_comm (2 ^ b)), Z.div_mul_cancel_r; [done|..]; apply Z.pow_nonzero; lia.
Qed.

Lemma shl_word_spec hi lo b : 0 <= hi < BASE -> 0 <= lo < BASE -> 0 <= b <= 32 ->
  0 <= shl_word hi lo b < BASE /\ shl_word hi lo b = hi * 2 ^ b - BASE * (hi / 2 ^ (32 - b)) + lo / 2 ^ (32 - b).
Proof.
  intros Hh Hl Hb. unfold shl_word, BI_WORDSIZE. rewrite Z.shiftr_div_pow2 by lia. rewrite (shl_low hi b) by done.
  pose proof (hi_bits lo b Hl Hb) as Hlo. pose proof (pow_base b Hb) as Hp.
  assert (Hm : hi * 2 ^ b - BASE * (hi / 2 ^ (32 - b)) = (hi mod 2 ^ (32 - b)) * 2 ^ b).
  { rewrite (Z.mod_eq hi) by (apply Z.pow_nonzero; lia). rewrite <-Hp. ring. }
  rewrite Hm, lor_low by (lia || done). split; [|lia].
  pose proof (Z.mod_pos_bound hi (2 ^ (32 - b)) ltac:(apply Z.pow_pos_nonneg; lia)). nia.
Qed.

Lemma split_shift shift : 0 <= shift < 2 ^ 31 ->
  exists b k, u32 shift mod BI_WORDSIZE = b /\ u32 shift / BI_WORDSIZE = k /\ 0 <= b < 32 /\ 0 <= k /\ 2 ^ shift = BASE ^ k * 2 ^ b.
Proof.
  intros Hs. exists (shift mod 32), (shift / 32). unfold BI_WORDSIZE. rewrite u32_small by lia.
  pose proof (Z.mod_pos_bound shift 32 ltac:(lia)). pose proof (Z.div_pos shift 32). split_and!; try done; try lia.
  unfold BASE. rewrite <-Z.pow_mul_r, <-Z.pow_add_r by lia. f_equal. pose proof (Z.div_mod shift 32). lia.
Qed.

(** ** Shift to the left *)

Section Wp.
Context (E : Z -> list bigint -> Prop).

Lemma wp_zeros dst b n k (Q : Z -> list bigint -> Prop) s :
  aget s dst = Some b -> 0 <= k <= alen (bv b) -> words (bv b) ->
  (forall l, same_but (bv b) l 0 k -> V l 0 k = 0 -> Q 0 (upd s dst n l)) ->
  wp (_ ← mfor (zrange 0 (Z.to_nat k)) (fun i => wr dst i 0); _ ← set_n dst n; mret 0) Q E s.
Proof.
  intros Hb Hk Hw HQ. apply wp_bind.
  apply (wp_for_up E 0 k _ (fun i s' => exists l, s' = upd s dst (bn b) l /\ same_but (bv b) l 0 i /\ V l 0 i = 0)); [lia| | |].
  - exists (bv b). rewrite upd_id by done. split_and!; [done|by apply words_same_refl|done].
  - intros i s' Hi (l & -> & Hs & HV). pose proof Hs as (Hl & _). rewrite Z.add_0_l.
    eapply wp_wr; [by apply (aget_upd_eq s dst b)|cbn; lia|]. exists (aset l i 0). rewrite upd_upd. cbn [bn bv]. split_and!; [done| |].
    + apply same_aset; try blia. by apply (words_same_weaken _ _ _ _ _ _ Hs); lia.
    + rewrite V_top, V_aset_out, HV, w_aset by lia. rewrite decide_True by lia. lia.
  - intros s' (l & -> & Hs & HV). apply wp_bind. eapply wp_set_n; [by apply (aget_upd_eq s dst b)|]. apply wp_ret. rewrite upd_upd. by apply HQ.
Qed.

(** The words of [src] from index [lo] to [hi] are still those of [v]. *)
Definition keeps (src : Z) (v : list Z) (lo hi : Z) (s : list bigint) : Prop :=
  exists b, aget s src = Some b /\ alen (bv b) = alen v /\ forall j, lo <= j <= hi -> w (bv b) j = w v j.

Lemma keeps_upd src dst sb db n l v lo hi lo' hi' s :
  aget s src = Some sb -> aget s dst = Some db -> keeps src v lo hi (upd s dst n l) -> lo <= lo' -> hi' <= hi ->
  forall i x, 0 <= i < alen l -> i < lo' \/ hi' < i -> keeps src v lo' hi' (upd s dst n (aset l i x)).
Proof.
  intros Hs Hd (b & Hb & Hl & Hw) Hlo Hhi i x Hi Hki. destruct (decide (dst = src)) as [->|Hne].
  - rewrite (aget_upd_eq s src db n l Hd) in Hb. injection Hb as <-. cbn [bv] in *.
    exists (mk_big n (aset l i x)). rewrite (aget_upd_eq s src db) by done. cbn [bv]. rewrite alen_aset. split_and!; [done..|].
    intros j Hj. rewrite w_aset, decide_False by lia. apply Hw. lia.
  - rewrite (aget_upd_ne s dst db src n l Hd Hne) in Hb. exists b. rewrite (aget_upd_ne s dst db) by done. split_and!; [done..|].
    intros j Hj. apply Hw. lia.
Qed.

Lemma wp_keeps src v lo hi i (Q : Z -> list bigint -> Prop) s :
  keeps src v lo hi s -> lo <= i <= hi -> 0 <= i < alen v -> Q (w v i) s -> wp (rd src i) Q E s.
Proof. intros (b & Hb & Hl & Hw) Hi Hk HQ. eapply wp_rd; [done|lia|]. by rewrite Hw. Qed.

(** The loop of [_bi_shl_b]: the words from [k] on are shifted, [c] is what
    the word below contributes, [T] the word that went out at the top. *)
Section Shl.
Context (src dst : Z) (sb db : bigint) (s : list bigint) (b wd T : Z).
Let v := bv sb.
Let sn := bn sb.
Let hi (k : Z) : Z := w v k / 2 ^ (32 - b).

Definition shl_inv (k c : Z) (s' : list bigint) : Prop :=
  exists l, s' = upd s dst (bn db) l /\ same_but (bv db) l (wd + k) (sn + wd + 1) /\ keeps src v 0 (k - 1) s' /\
    (T <> 0 -> w l (sn + wd) = T) /\ V l (wd + k) (sn - k) + BASE ^ (sn - k) * T = 2 ^ b * V v k (sn - k) + c.

Lemma shl_step k c x (Q : unit -> list bigint -> Prop) s' :
  aget s src = Some sb -> aget s dst = Some db -> 0 <= k < sn -> 0 <= wd -> sn + wd <= alen (bv db) ->
  shl_inv (k + 1) (hi k) s' -> 0 <= x < BASE -> x = w v k * 2 ^ b - BASE * hi k + c ->
  (forall s'', shl_inv k c s'' -> Q () s'') -> wp (wr dst (k + wd) x) Q E s'.
Proof.
  intros Hs Hd Hk Hwd Hfit (l & -> & Hb & Hkeep & HT & HV) Hx Hxe HQ. pose proof Hb as (Hl & Hw & _).
  eapply wp_wr; [by apply (aget_upd_eq s dst db)|cbn; lia|]. cbn [bn bv]. rewrite upd_upd. apply HQ.
  exists (aset l (k + wd) x). split_and!; [done| | | |].
  - apply same_aset; try lia. apply (words_same_weaken _ _ _ _ _ _ Hb); lia.
  - eapply (keeps_upd _ _ sb db); [done|done|by replace (k + 1 - 1) with k in Hkeep by lia|lia|lia|lia|lia].
  - intros H0. rewrite w_aset, decide_False by lia. by apply HT.
  - replace (sn - k) with (sn - (k + 1) + 1) in * by lia. rewrite pow_S, !V_low by lia. rewrite V_aset_out by lia.
    replace (wd + (k + 1)) with (wd + k + 1) in HV by lia. rewrite w_aset, decide_True by lia. fold v. nia.
Qed.
End Shl.

Lemma big_ok_intro n l : words l -> 0 < n <= alen l -> BASE ^ (n - 1) <= V l 0 n -> big_ok (mk_big n l).
Proof.
  intros Hw Hn HV. split_and!; cbn; [done|lia..|]. intros _ H0. replace n with (n - 1 + 1) in HV at 2 by lia.
  rewrite V_top, Z.add_0_l, H0 in HV by lia. pose proof (V_bound l 0 (n - 1) Hw ltac:(lia)). lia.
Qed.

Lemma big_ok_zero l : words l -> big_ok (mk_big 0 l).
Proof. intros Hw. split_and!; cbn; [done|lia|apply alen_nonneg|done]. Qed.

(** What [_bi_shl_b] has left to do after its loop. *)
Lemma wp_shl_end src dst sb db b wd T (Q : Z -> list bigint -> Prop) s s' :
  aget s src = Some sb -> aget s dst = Some db -> big_ok sb -> words (bv db) -> 0 < bn sb -> 0 <= wd -> 0 <= b < 32 -> 0 <= T ->
  (if negb (T =? 0) then bn sb + wd + 1 else bn sb + wd) <= alen (bv db) ->
  shl_inv src dst sb db s b wd T 0 0 s' ->
  (forall d, big_ok d -> value d = value sb * (BASE ^ wd * 2 ^ b) -> alen (bv d) = alen (bv db) ->
     bn d = (if negb (T =? 0) then bn sb + wd + 1 else bn sb + wd) -> Q 0 (aset s dst d)) ->
  wp (_ ← mfor (zrange 0 (Z.to_nat wd)) (fun i => wr dst i 0);
      _ ← set_n dst (if negb (T =? 0) then bn sb + wd + 1 else bn sb + wd); mret 0) Q E s'.
Proof.
  intros Hs Hd Hsb Hdw Hn Hwd Hb HT Hfit (l & -> & Hsame & _ & HTw & HV) HQ. pose proof Hsame as (Hl & Hw & _).
  assert (0 < 2 ^ b) by (apply Z.pow_pos_nonneg; lia). pose proof (pow_pos wd Hwd) as Hpw. pose proof (value_lower sb Hsb ltac:(lia)) as Hlow. pose proof (value_bound sb Hsb) as Hvb.
  eapply wp_zeros; [by apply (aget_upd_eq s dst db)|cbn; destruct (T =? 0); cbn in Hfit; lia|done|].
  intros l2 Hl2 HV2. cbn [bv] in *. rewrite upd_upd. pose proof Hl2 as (Hll & Hlw & Hlo).
  assert (Hlow2 : V l2 wd (bn sb) = V l wd (bn sb)) by (apply (same_V _ _ _ _ _ _ Hl2); lia).
  assert (Htop : T <> 0 -> w l2 (bn sb + wd) = T) by (intros H0; rewrite Hlo by lia; by apply HTw).
  rewrite Z.add_0_r, !Z.sub_0_r in *. fold (value sb) in HV.
  assert (Hval : V l2 0 (if negb (T =? 0) then bn sb + wd + 1 else bn sb + wd) = value sb * (BASE ^ wd * 2 ^ b)).
  { destruct (Z.eqb_spec T 0) as [H0|H0]; cbn [negb].
    - rewrite Z.add_comm, V_split, Z.add_0_l, HV2, Hlow2 by lia. rewrite H0 in HV. nia.
    - rewrite V_top by lia. rewrite (Z.add_comm (bn sb) wd), V_split, !Z.add_0_l, HV2, Hlow2 by lia.
      rewrite (Z.add_comm wd), Htop, (Z.add_comm _ wd), Z.pow_add_r by lia. nia. }
  apply HQ; [|exact Hval|cbn; lia|done].
  apply big_ok_intro; [done|destruct (T =? 0); cbn in *; lia|]. rewrite Hval.
  destruct (Z.eqb_spec T 0) as [H0|H0]; cbn [negb].
  - replace (bn sb + wd - 1) with (bn sb - 1 + wd) by lia. rewrite Z.pow_add_r by lia.
    assert (BASE ^ (bn sb - 1) <= value sb * 2 ^ b) by nia. clear Hval HQ. nia.
  - replace (bn sb + wd + 1 - 1) with (bn sb + wd) by lia. rewrite Z.pow_add_r by lia.
    pose proof (V_bound l wd (bn sb) Hw ltac:(lia)). pose proof (pow_pos (bn sb) ltac:(lia)).
    assert (BASE ^ bn sb <= value sb * 2 ^ b) by nia. clear Hval HQ. nia.
Qed.

Section ShlB.
Context (src dst dst_words : Z) (sb db : bigint) (s : list bigint) (Q : Z -> list bigint -> Prop).
Context (Hs : aget s src = Some sb) (Hd : aget s dst = Some db) (Hsb : big_ok sb) (Hdw : words (bv db)).
Context (Hwords : 0 <= dst_words <= alen (bv db)).

Lemma keeps_start lo hi : keeps src (bv sb) lo hi s.
Proof. by exists sb. Qed.

Lemma shl_loop_words wd K : 0 < bn sb -> 0 <= wd -> bn sb + wd <= dst_words ->
  (forall s', shl_inv src dst sb db s 0 wd 0 0 0 s' -> wp K Q E s') ->
  wp (_ ← mfor (down (bn sb)) (fun i => x ← rd src i; wr dst (i + wd) x); K) Q E s.
Proof.
  intros Hn Hwd Hfit HQ. destruct Hsb as (Hsw & Hsn & _). apply wp_bind.
  assert (H0 : forall k, w (bv sb) k / 2 ^ (32 - 0) = 0) by (intros k; apply Z.div_small, w_range, Hsw).
  apply (wp_for_down E 0 (bn sb) _ (fun k => shl_inv src dst sb db s 0 wd 0 k 0)); [lia| | |exact HQ].
  - exists (bv db). rewrite upd_id, Z.sub_diag, !V_0 by (done || lia). split_and!; [done|by apply words_same_refl|apply keeps_start|done|lia].
  - intros k s' Hk Hinv. rewrite Z.add_0_l. assert (Hkeep : keeps src (bv sb) 0 k s').
    { destruct Hinv as (l & -> & _ & Hkeep & _). by replace (k + 1 - 1) with k in Hkeep by lia. }
    apply wp_bind. eapply wp_keeps; [done|lia|lia|].
    eapply (shl_step src dst sb db s 0 wd 0 k 0); [done|done|lia|done|lia|by rewrite H0|by apply w_range|rewrite H0; lia|done].
Qed.

Lemma shl_loop_bits b wd K : 0 < bn sb -> 0 <= wd -> bn sb + wd <= dst_words -> 0 < b < 32 ->
  let T := w (bv sb) (bn sb - 1) / 2 ^ (32 - b) in
  (T <> 0 -> bn sb + wd + 1 <= dst_words) ->
  (forall s', shl_inv src dst sb db s b wd T 0 0 s' -> wp K Q E s') ->
  wp (_ ← mwhen (negb (T =? 0)) (wr dst (bn sb + wd) T);
      _ ← mfor (rev (zrange 1 (Z.to_nat (bn sb - 1)))) (fun i =>
             hi ← rd src i; lo ← rd src (i - 1); wr dst (i + wd) (shl_word hi lo b));
      x ← rd src 0; _ ← wr dst wd (u32 (Z.shiftl x b)); K) Q E s.
Proof.
  intros Hn Hwd Hfit Hb T HT HQ. pose proof Hsb as (Hsw & Hsn & _).
  pose proof (hi_bits _ b (w_range _ (bn sb - 1) Hsw) ltac:(lia)) as HTr. fold T in HTr.
  assert (2 ^ b <= BASE) by (unfold BASE; apply Z.pow_le_mono_r; lia).
  apply wp_bind. assert (Hinit : forall s', (T <> 0 -> s' = upd s dst (bn db) (aset (bv db) (bn sb + wd) T)) -> (T = 0 -> s' = s) ->
    shl_inv src dst sb db s b wd T (bn sb) T s').
  { intros s' H1 H2. destruct (Z.eq_dec T 0) as [H0|H0].
    - rewrite (H2 H0). exists (bv db). rewrite upd_id, Z.sub_diag, !V_0 by (done || lia).
      split_and!; [done|by apply words_same_refl|apply keeps_start|done|lia].
    - rewrite (H1 H0). specialize (HT H0). exists (aset (bv db) (bn sb + wd) T). split_and!; [done| | | |].
      + apply same_aset; try lia. by apply words_same_refl.
      + eapply (keeps_upd src dst sb db (bn db) (bv db) (bv sb) 0 (bn sb)); [done|done| |lia|lia|lia|lia]. rewrite upd_id by done. apply keeps_start.
      + intros _. by rewrite w_aset, decide_True by lia.
      + rewrite Z.sub_diag, !V_0 by lia. lia. }
  assert (Hloop : forall s', shl_inv src dst sb db s b wd T (bn sb) T s' ->
    wp (_ ← mfor (rev (zrange 1 (Z.to_nat (bn sb - 1)))) (fun i =>
             hi ← rd src i; lo ← rd src (i - 1); wr dst (i + wd) (shl_word hi lo b));
      x ← rd src 0; _ ← wr dst wd (u32 (Z.shiftl x b)); K) Q E s').
  { intros s' Hinv. apply wp_bind.
    apply (wp_for_down E 1 (bn sb - 1) _ (fun k => shl_inv src dst sb db s b wd T (k + 1) (w (bv sb) k / 2 ^ (32 - b)))); [lia| | |].
    - by replace (bn sb - 1 + 1) with (bn sb) by lia.
    - intros k s2 Hk Hinv2. assert (Hkeep : keeps src (bv sb) 0 (k + 1) s2).
      { destruct Hinv2 as (l & -> & _ & Hkeep & _). by replace (k + 1 + 1 - 1) with (k + 1) in Hkeep by lia. }
      rewrite (Z.add_comm 1). apply wp_bind. eapply wp_keeps; [done|lia|lia|]. apply wp_bind. eapply wp_keeps; [done|lia|lia|].
      destruct (shl_word_spec (w (bv sb) (k + 1)) (w (bv sb) (k + 1 - 1)) b) as [Hr He]; [by apply w_range|by apply w_range|lia|].
      eapply (shl_step src dst sb db s b wd T (k + 1) (w (bv sb) k / 2 ^ (32 - b))); [done|done|lia|done|lia|done|done| |done].
      rewrite He. by replace (k + 1 - 1) with k by lia.
    - intros s2 Hinv2. assert (Hkeep : keeps src (bv sb) 0 0 s2) by (by destruct Hinv2 as (l & -> & _ & Hkeep & _)).
      apply wp_bind. eapply wp_keeps; [done|lia|lia|]. apply wp_bind. pose proof (w_range _ 0 Hsw) as Hw0.
      eapply (shl_step src dst sb db s b wd T 0 0); [done|done|lia|done|lia|done|apply u32_range|rewrite shl_low by lia; lia|].
      intros s3 H3. by apply HQ. }
  destruct (Z.eqb_spec T 0) as [H0|H0]; cbn [negb mwhen].
  - apply wp_ret. apply Hloop, Hinit; [done|by intros _].
  - eapply wp_wr; [done|specialize (HT H0); lia|]. apply Hloop, Hinit; [by intros _|done].
Qed.

(** [_bi_shl_b] multiplies by a power of two, in place or not, and reports an
    overflow exactly when the product does not fit. *)
Lemma wp_shl_b shift :
  0 <= shift < 2 ^ 31 ->
  (value sb * 2 ^ shift < BASE ^ dst_words ->
   forall d, big_ok d -> value d = value sb * 2 ^ shift -> alen (bv d) = alen (bv db) -> Q 0 (aset s dst d)) ->
  (BASE ^ dst_words <= value sb * 2 ^ shift -> Q 1 s) ->
  wp (bi_shl_b dst dst_words src shift) Q E s.
Proof.
  intros Hsh H0 H1. pose proof Hsb as (Hsw & Hsn & Hst). unfold bi_shl_b. apply wp_bind. eapply wp_get_n; [done|].
  destruct (Z.eqb_spec (bn sb) 0) as [He|He].
  { apply value_zero in He as Hv; [|done]. apply wp_bind. eapply wp_set_n; [done|]. apply wp_ret.
    apply (H0 ltac:(rewrite Hv; apply pow_pos; lia) (mk_big 0 (bv db))); [by apply big_ok_zero|by rewrite Hv|done]. }
  destruct (split_shift shift Hsh) as (b & wd & -> & -> & Hb & Hwd & Hpow). rewrite Hpow in *.
  pose proof (value_lower sb Hsb He) as Hlow. pose proof (pow_pos wd Hwd) as Hpw. pose proof (pow_pos (bn sb - 1) ltac:(lia)) as Hpn.
  assert (Hpb : 0 < 2 ^ b) by (apply Z.pow_pos_nonneg; lia).
  destruct (Z.gtb_spec (bn sb + wd) dst_words) as [Hbig|Hfit].
  { apply wp_ret, H1. transitivity (BASE ^ (bn sb - 1 + wd)); [apply Z.pow_le_mono_r; blia|]. rewrite Z.pow_add_r by lia. clear H0 H1. nia. }
  set (T := w (bv sb) (bn sb - 1) / 2 ^ (32 - b)).
  assert (HT : 0 <= T) by (apply hi_bits; [by apply w_range|lia]).
  assert (Hval : value sb = V (bv sb) 0 (bn sb - 1) + BASE ^ (bn sb - 1) * w (bv sb) (bn sb - 1)).
  { unfold value. replace (bn sb) with (bn sb - 1 + 1) at 1 by lia. rewrite V_top by lia. by rewrite Z.add_0_l. }
  assert (Hend : forall s' b', b = b' -> (T <> 0 -> bn sb + wd + 1 <= dst_words) -> shl_inv src dst sb db s b wd T 0 0 s' ->
    wp (_ ← mfor (zrange 0 (Z.to_nat wd)) (fun i => wr dst i 0);
      _ ← set_n dst (if negb (T =? 0) then bn sb + wd + 1 else bn sb + wd); mret 0) Q E s').
  { intros s' b' <- Hroom Hinv. eapply (wp_shl_end src dst sb db b wd T); [done|done|done|done|lia|done|lia|done| |exact Hinv|].
    - destruct (Z.eqb_spec T 0) as [|Hne]; cbn; [|specialize (Hroom Hne)]; lia.
    - intros d Hdok Hdv Hdl Hdn. apply H0; [|done..]. rewrite <-Hdv. apply (Z.lt_le_trans _ (BASE ^ bn d)); [by apply value_bound|].
      apply Z.pow_le_mono_r; [blia|]. rewrite Hdn. destruct (Z.eqb_spec T 0) as [|Hne]; cbn; [|specialize (Hroom Hne)]; lia. }
  destruct (Z.eqb_spec b 0) as [Hb0|Hb0].
  - assert (T = 0) as HT0 by (unfold T; rewrite Hb0; apply Z.div_small, w_range, Hsw). rewrite HT0, Hb0 in Hend. cbn [negb Z.eqb] in Hend.
    apply shl_loop_words; [lia|done|lia|]. intros s' Hinv. by apply (Hend s' 0).
  - apply wp_bind. eapply wp_rd; [done|lia|]. replace (Z.shiftr (w (bv sb) (bn sb - 1)) (BI_WORDSIZE - b)) with T.
    2:{ unfold T, BI_WORDSIZE. by rewrite Z.shiftr_div_pow2 by lia. }
    destruct (negb (T =? 0) && (bn sb + wd + 1 >? dst_words)) eqn:Hov.
    + apply wp_ret, H1. apply andb_prop in Hov as [Hne%negb_true_iff%Z.eqb_neq Hover%Z.gtb_gt].
      transitivity (BASE ^ (bn sb + wd)); [apply Z.pow_le_mono_r; blia|]. rewrite Z.pow_add_r by lia.
      assert (BASE <= w (bv sb) (bn sb - 1) * 2 ^ b).
      { rewrite <-(pow_base b) by lia. rewrite Z.mul_comm. apply Z.mul_le_mono_nonneg_r; [lia|].
        pose proof (Z.mul_div_le (w (bv sb) (bn sb - 1)) (2 ^ (32 - b)) ltac:(apply Z.pow_pos_nonneg; lia)). fold T in H. nia. }
      assert (BASE ^ bn sb <= value sb * 2 ^ b).
      { replace (bn sb) with (bn sb - 1 + 1) at 1 by lia. rewrite pow_S by lia.
        pose proof (V_bound (bv sb) 0 (bn sb - 1) Hsw ltac:(lia)). nia. }
      rewrite (Z.mul_comm (BASE ^ wd)), Z.mul_assoc. apply Z.mul_le_mono_nonneg_r; lia.
    + assert (Hroom : T <> 0 -> bn sb + wd + 1 <= dst_words).
      { intros Hne. apply Z.eqb_neq in Hne. rewrite Hne in Hov. cbn in Hov. rewrite Z.gtb_ltb in Hov. apply Z.ltb_ge in Hov. lia. }
      apply shl_loop_bits; [lia|done|lia|lia|exact Hroom|]. intros s' Hinv. by apply (Hend s' b).
Qed.
End ShlB.

(** ** Shift to the right *)

Section ShrB.
Context (src dst dst_words : Z) (sb db : bigint) (s : list bigint) (Q : Z -> list bigint -> Prop).
Context (Hs : aget s src = Some sb) (Hd : aget s dst = Some db) (Hsb : big_ok sb) (Hdw : words (bv db)).
Context (Hwords : 0 <= dst_words <= alen (bv db)).
Let v := bv sb.

Lemma shr_word_spec lo hi b : 0 <= lo < BASE -> 0 <= hi < BASE -> 0 < b < 32 ->
  let x := Z.lor (Z.shiftr lo b) (u32 (Z.shiftl hi (BI_WORDSIZE - b))) in
  0 <= x < BASE /\ 2 ^ b * x = BASE * (hi mod 2 ^ b) + lo - lo mod 2 ^ b.
Proof.
  intros Hlo Hhi Hb. cbn zeta. destruct (shl_word_spec hi lo (32 - b) Hhi Hlo ltac:(lia)) as [Hr He].
  unfold shl_word, BI_WORDSIZE in *. replace (32 - (32 - b)) with b in * by lia. rewrite Z.lor_comm. split; [done|]. rewrite He.
  assert (0 < 2 ^ b) by (apply Z.pow_pos_nonneg; lia). rewrite (Z.mod_eq hi), (Z.mod_eq lo), <-(pow_base b) by lia. ring.
Qed.

(** The first [k] words are shifted down. *)
Definition shr_inv (b wd k : Z) (s' : list bigint) : Prop :=
  exists l, s' = upd s dst (bn db) l /\ same_but (bv db) l 0 k /\ keeps src v k (bn sb) s' /\
    2 ^ b * V l 0 k + w v wd mod 2 ^ b = V v wd k + BASE ^ k * (w v (wd + k) mod 2 ^ b).

Lemma shr_loop b wd K : 0 < b < 32 -> 0 <= wd -> 0 < bn sb - wd <= dst_words ->
  (forall s', shr_inv b wd (bn sb - wd - 1) s' -> wp K Q E s') ->
  wp (_ ← mfor (zrange 0 (Z.to_nat (bn sb - wd - 1))) (fun i =>
             lo ← rd src (i + wd); hi ← rd src (i + wd + 1);
             wr dst i (Z.lor (Z.shiftr lo b) (u32 (Z.shiftl hi (BI_WORDSIZE - b))))); K) Q E s.
Proof.
  intros Hb Hwd Hfit HQ. pose proof Hsb as (Hsw & Hsn & _). fold v in Hsw, Hsn. apply wp_bind.
  apply (wp_for_up E 0 (bn sb - wd - 1) _ (shr_inv b wd)); [lia| | |exact HQ].
  - exists (bv db). rewrite upd_id, !V_0, Z.pow_0_r, Z.add_0_r by (done || lia). split_and!; [done|by apply words_same_refl|by exists sb|lia].
  - intros k s' Hk (l & -> & Hsame & Hkeep & HV). pose proof Hsame as (Hl & Hw & _). rewrite Z.add_0_l.
    apply wp_bind. eapply wp_keeps; [done|lia|lia|]. apply wp_bind. eapply wp_keeps; [done|lia|lia|]. fold v.
    destruct (shr_word_spec (w v (k + wd)) (w v (k + wd + 1)) b) as [Hr He]; [by apply w_range|by apply w_range|done|].
    eapply wp_wr; [by apply (aget_upd_eq s dst db)|cbn; lia|]. cbn [bn bv]. rewrite upd_upd. eexists. split_and!; [done| | |].
    + apply same_aset; try lia. apply (words_same_weaken _ _ _ _ _ _ Hsame); lia.
    + eapply (keeps_upd _ _ sb db); [done|done|done|lia|lia|lia|lia].
    + rewrite !V_top by lia. rewrite V_aset_out by lia. rewrite !Z.add_0_l, w_aset, decide_True by lia.
      rewrite Z.mul_add_distr_l, (Z.mul_assoc (2 ^ b)), (Z.mul_comm (2 ^ b) (BASE ^ k)), <-(Z.mul_assoc (BASE ^ k)), He.
      rewrite pow_S by lia. replace (wd + (k + 1)) with (k + wd + 1) by lia. replace (wd + k) with (k + wd) in * by lia. lia.
Qed.

(** [_bi_shr_b] divides by a power of two, in place or not, when the shift is
    not a multiple of the word size. *)
Lemma wp_shr_b shift :
  0 <= shift < 2 ^ 31 -> shift mod 32 <> 0 ->
  (bn sb - shift / 32 <= dst_words ->
   forall d, big_ok d -> value d = value sb / 2 ^ shift -> alen (bv d) = alen (bv db) -> Q 0 (aset s dst d)) ->
  (dst_words < bn sb - shift / 32 -> Q 1 s) ->
  wp (bi_shr_b dst dst_words src shift) Q E s.
Proof.
  intros Hsh Hmod H0 H1. pose proof Hsb as (Hsw & Hsn & Hst). fold v in Hsw, Hsn, Hst. unfold bi_shr_b.
  destruct (split_shift shift Hsh) as (b & wd & Eb & Ew & Hb & Hwd & Hpow). rewrite Eb, Ew.
  assert (b <> 0 /\ wd = shift / 32) as [Hb0 Hwe] by (unfold BI_WORDSIZE in *; rewrite u32_small in * by lia; lia). rewrite <-Hwe, Hpow in *.
  assert (Hpb : 0 < 2 ^ b) by (apply Z.pow_pos_nonneg; lia). pose proof (pow_pos wd Hwd) as Hpw. pose proof (value_bound sb Hsb) as Hvb.
  apply wp_bind. eapply wp_get_n; [done|]. destruct (Z.leb_spec (bn sb) wd) as [Hle|Hgt].
  { apply wp_bind. eapply wp_set_n; [done|]. apply wp_ret. apply (H0 ltac:(lia) (mk_big 0 (bv db))); [by apply big_ok_zero| |done].
    unfold value at 1. cbn. rewrite V_0 by lia. symmetry. apply Z.div_small.
    assert (BASE ^ bn sb <= BASE ^ wd) by (apply Z.pow_le_mono_r; blia). split; [lia|]. nia. }
  destruct (Z.gtb_spec (bn sb - wd) dst_words) as [Hbig|Hfit]; [apply wp_ret, H1; lia|].
  destruct (Z.eqb_spec b 0); [lia|]. apply shr_loop; [lia|done|lia|]. intros s' (l & -> & Hsame & Hkeep & HV).
  pose proof Hsame as (Hl & Hw & Hlo). set (dn := bn sb - wd) in *. apply wp_bind. eapply wp_keeps; [done|lia|lia|].
  fold v. set (x := w v (dn - 1 + wd)). assert (Hx : 0 <= x < BASE) by (by apply w_range).
  rewrite Z.shiftr_div_pow2 by lia. pose proof (Z.div_mod x (2 ^ b) ltac:(lia)) as Hdm.
  assert (Htop : 0 <= x / 2 ^ b < BASE) by (split; [by apply Z.div_pos; lia|apply Z.div_lt_upper_bound; [lia|]; clear - Hx Hpb; nia]).
  assert (Hval : value sb / (BASE ^ wd * 2 ^ b) = V l 0 (dn - 1) + BASE ^ (dn - 1) * (x / 2 ^ b)).
  { rewrite <-Z.div_div by lia. unfold value. fold v. replace (bn sb) with (wd + dn) by lia. rewrite V_split, Z.add_0_l by lia.
    rewrite (Z.mul_comm (BASE ^ wd)), Z.div_add, (Z.div_small (V v 0 wd)) by (lia || by apply V_bound; [|lia]).
    rewrite Z.add_0_l. symmetry. apply Z.div_unique with (w v wd mod 2 ^ b); [left; apply Z.mod_pos_bound; lia|].
    replace dn with (dn - 1 + 1) at 1 by lia. rewrite V_top by lia. replace (wd + (dn - 1)) with (dn - 1 + wd) in * by lia.
    fold x in HV |- *. rewrite Hdm at 1. lia. }
  destruct (Z.eqb_spec (x / 2 ^ b) 0) as [Ht|Ht]; cbn [negb].
  - apply wp_bind. eapply wp_set_n; [by apply (aget_upd_eq s dst db)|]. apply wp_ret. rewrite upd_upd. cbn [bv].
    apply (H0 ltac:(lia) (mk_big (dn - 1) l)); [|unfold value at 1; cbn; rewrite Hval, Ht; lia|done].
    destruct (Z.eq_dec dn 1) as [->|Hd1]; [by apply big_ok_zero|]. apply big_ok_intro; [done|lia|].
    rewrite Ht, Z.mul_0_r, Z.add_0_r in Hval. rewrite <-Hval. apply Z.div_le_lower_bound; [nia|].
    clear - Hsb Hd1 Hgt Hb Hpw Hpb Hwd. pose proof (value_lower sb Hsb ltac:(lia)) as Hlow. replace (bn sb - 1) with (wd + (dn - 1 - 1 + 1)) in Hlow by lia.
    rewrite Z.pow_add_r, pow_S in Hlow by lia. pose proof (pow_pos (dn - 1 - 1) ltac:(lia)).
    assert (2 ^ b <= BASE) by (unfold BASE; apply Z.pow_le_mono_r; lia). etransitivity; [|exact Hlow].
    rewrite <-Z.mul_assoc. apply Z.mul_le_mono_nonneg_l; [lia|]. rewrite Z.mul_comm. apply Z.mul_le_mono_nonneg_l; lia.
  - apply wp_bind. eapply wp_wr; [by apply (aget_upd_eq s dst db)|cbn; lia|]. cbn [bn bv]. rewrite upd_upd.
    apply wp_bind. eapply wp_set_n; [by apply (aget_upd_eq s dst db)|]. apply wp_ret. rewrite upd_upd. cbn [bv].
    assert (HVt : V (aset l (dn - 1) (x / 2 ^ b)) 0 dn = value sb / (BASE ^ wd * 2 ^ b)).
    { replace dn with (dn - 1 + 1) at 2 by lia. rewrite V_top, V_aset_out, w_aset, decide_True by lia. by rewrite Hval. }
    apply (H0 ltac:(lia) (mk_big dn (aset l (dn - 1) (x / 2 ^ b)))); [|exact HVt|cbn; rewrite alen_aset; lia].
    split_and!; cbn; [by apply words_aset|lia|rewrite alen_aset; lia|]. intros _. rewrite w_aset, decide_True by lia. done.
Qed.
End ShrB.
End Wp.
