(* ===== verification/BigIntDiv.v ===== *)
(** Division: by a word, the estimate of a word of the quotient, and algorithm
    D: the loop over the words of the quotient, and [_bi_div_rem_bb]. *)

From S2P Require Import Prelude BigInt BigIntFacts BigIntArith BigIntShift.

Section Wp.
Context (E : Z -> list bigint -> Prop).

Lemma wp_set_w dst dst_words x b (Q : Z -> list bigint -> Prop) s :
  aget s dst = Some b -> words (bv b) -> 0 < dst_words <= alen (bv b) -> 0 <= x < BASE ->
  (forall d, big_ok d -> value d = x -> alen (bv d) = alen (bv b) -> Q 0 (aset s dst d)) -> wp (bi_set_w dst dst_words x) Q E s.
Proof.
  intros Hb Hw Hn Hx HQ. unfold bi_set_w. destruct (Z.eqb_spec x 0) as [->|H0].
  - apply wp_bind. eapply wp_set_n; [done|]. apply wp_ret. apply (HQ (mk_big 0 (bv b))); [by apply big_ok_zero|done..].
  - destruct (Z.leb_spec dst_words 0); [lia|]. apply wp_bind. eapply wp_set_n; [done|]. apply wp_bind.
    eapply wp_wr; [by apply (aget_upd_eq s dst b)|cbn; lia|]. apply wp_ret. cbn [bn bv]. rewrite upd_upd.
    assert (Hv : w (aset (bv b) 0 x) 0 = x) by (rewrite w_aset, decide_True by lia; done).
    apply (HQ (mk_big 1 (aset (bv b) 0 x))); [|by unfold value; cbn [bn bv]; rewrite V_1|cbn; by rewrite alen_aset].
    split_and!; cbn [bn bv]; [by apply words_aset|lia|rewrite alen_aset; lia|]. intros _. change (1 - 1) with 0. by rewrite Hv.
Qed.

(** ** Division by a word *)

Lemma wp_div_rem_bw quot quot_words num den qb nb (Q : Z * Z -> list bigint -> Prop) s :
  aget s num = Some nb -> aget s quot = Some qb -> big_ok nb -> words (bv qb) -> 0 <= quot_words <= alen (bv qb) -> 0 < den < BASE ->
  (bn nb <= quot_words ->
   forall d, big_ok d -> value d = value nb / den -> alen (bv d) = alen (bv qb) -> Q (0, value nb mod den) (aset s quot d)) ->
  (quot_words < bn nb -> Q (1, 0) s) -> wp (bi_div_rem_bw quot quot_words num den) Q E s.
Proof.
  intros Hn Hq Hnb Hqw Hqn Hden H0 H1. pose proof Hnb as (Hnw & Hnn & Hnt). unfold bi_div_rem_bw. destruct (Z.eqb_spec den 0); [lia|].
  apply wp_bind. eapply wp_get_n; [done|]. destruct (Z.gtb_spec (bn nb) quot_words) as [Hbig|Hfit]; [apply wp_ret, H1; lia|].
  destruct (Z.eqb_spec (bn nb) 0) as [He|He].
  { apply value_zero in He as Hv; [|done]. apply wp_bind. eapply wp_set_n; [done|]. apply wp_ret. rewrite Hv in H0.
    apply (H0 Hfit (mk_big 0 (bv qb))); [by apply big_ok_zero|by unfold value; cbn|done]. }
  apply wp_bind.
  apply (wp_down E 0 (bn nb) _ (fun k r s' => exists l, s' = upd s quot (bn qb) l /\ same_but (bv qb) l k (bn nb) /\
    keeps num (bv nb) 0 (k - 1) s' /\ 0 <= r < den /\ V (bv nb) k (bn nb - k) = den * V l k (bn nb - k) + r)); [lia| | |].
  - exists (bv qb). rewrite upd_id, Z.sub_diag, !V_0 by (done || lia). split_and!; [done|by apply words_same_refl|by exists nb|lia..].
  - intros k r s' Hk (l & -> & Hs & Hkeep & Hr & HV). pose proof Hs as (Hl & Hlw & _). rewrite Z.add_0_l.
    replace (k + 1 - 1) with k in Hkeep by lia. apply wp_bind. eapply wp_keeps; [done|lia|lia|].
    pose proof (w_range (bv nb) k Hnw) as Hx. rewrite Z.shiftl_mul_pow2 by (unfold BI_WORDSIZE; lia). change (2 ^ BI_WORDSIZE) with BASE.
    set (x := w (bv nb) k) in *. set (t := r * BASE + x). assert (Ht : 0 <= t < den * BASE) by (unfold t; nia).
    rewrite u64_small by (unfold BASE in *; nia). pose proof (Z.div_mod t den ltac:(lia)) as Hdm. pose proof (Z.mod_pos_bound t den ltac:(lia)) as Hm.
    assert (Hqr : 0 <= t / den < BASE) by (split; [by apply Z.div_pos; lia|apply Z.div_lt_upper_bound; lia]).
    rewrite !u32_small by blia. apply wp_bind. eapply wp_wr; [by apply (aget_upd_eq s quot qb)|cbn; lia|]. apply wp_ret.
    cbn [bn bv]. rewrite upd_upd. eexists. split_and!; [done| | |lia|lia|].
    + apply same_aset; try lia. apply (words_same_weaken _ _ _ _ _ _ Hs); lia.
    + eapply (keeps_upd _ _ nb qb); [done|done|done|lia|lia|lia|lia].
    + replace (bn nb - k) with (bn nb - (k + 1) + 1) by lia. rewrite !V_low, V_aset_out by lia. rewrite w_aset, decide_True by lia.
      fold x. rewrite HV. unfold t in *. nia.
  - intros r s' (l & -> & Hs & _ & Hr & HV). pose proof Hs as (Hl & Hlw & _). rewrite !Z.sub_0_r in HV. fold (value nb) in HV.
    assert (Hdiv : value nb / den = V l 0 (bn nb) /\ value nb mod den = r).
    { split; symmetry; [apply Z.div_unique with r|apply Z.mod_unique with (V l 0 (bn nb))]; auto. }
    destruct Hdiv as [Hdiv Hmod]. apply wp_bind. eapply wp_rd; [by apply (aget_upd_eq s quot qb)|cbn; lia|]. cbn [bv].
    apply wp_bind. eapply wp_set_n; [by apply (aget_upd_eq s quot qb)|]. apply wp_ret. rewrite upd_upd, <-Hmod. cbn [bv].
    replace (bn nb) with (bn nb - 1 + 1) in Hdiv at 1 by lia. rewrite V_top, Z.add_0_l in Hdiv by lia.
    destruct (Z.eqb_spec (w l (bn nb - 1)) 0) as [Ht|Ht]; cbn [negb].
    + apply (H0 Hfit (mk_big (bn nb - 1) l)); [|unfold value at 1; cbn; lia|done].
      destruct (Z.eq_dec (bn nb) 1) as [->|H1n]; [by apply big_ok_zero|]. apply big_ok_intro; [done|lia|].
      rewrite Ht, Z.mul_0_r, Z.add_0_r in Hdiv. rewrite <-Hdiv. apply Z.div_le_lower_bound; [lia|].
      pose proof (value_lower nb Hnb He) as Hlow. replace (bn nb - 1) with (bn nb - 1 - 1 + 1) in Hlow by lia. rewrite pow_S in Hlow by lia.
      pose proof (pow_pos (bn nb - 1 - 1) ltac:(lia)). clear Hdiv Hmod. nia.
    + apply (H0 Hfit (mk_big (bn nb) l)); [|unfold value at 1; cbn [bn bv]; replace (bn nb) with (bn nb - 1 + 1) by lia; rewrite V_top, Z.add_0_l by lia; lia|done].
      split_and!; cbn; [done|lia..|done].
Qed.

(** ** The estimate of a word of the quotient *)

(** [q] is the biggest word whose product with the two words of [D] does not
    exceed the three words of [T]. *)
Definition estimates (D T q : Z) : Prop := 0 <= q < BASE /\ q * D <= T /\ (q = BASE - 1 \/ T < (q + 1) * D).

Lemma wp_estimate_loop fuel v1 v2 u2 N q r (Q : Z -> list bigint -> Prop) s :
  0 < v1 < BASE -> 0 <= v2 < BASE -> 0 <= u2 < BASE -> 0 <= q < BASE -> 0 <= r < BASE -> q * v1 + r = N ->
  BASE <= Z.of_nat fuel * v1 + r ->
  (q = BASE - 1 \/ N * BASE + u2 < (q + 1) * (v1 * BASE + v2)) ->
  (forall q', estimates (v1 * BASE + v2) (N * BASE + u2) q' -> Q q' s) ->
  wp (estimate_loop fuel v1 v2 u2 q r) Q E s.
Proof.
  intros Hv1 Hv2 Hu2. revert q r. induction fuel as [|fuel IH]; intros q r Hq Hr HN Hf Hmax HQ; [lia|]. cbn [estimate_loop].
  rewrite Z.shiftl_mul_pow2 by (unfold BI_WORDSIZE; lia). change (2 ^ BI_WORDSIZE) with BASE.
  pose proof (mul_range v2 q 0 Hv2 Hq ltac:(blia)) as Hm. pose proof (mul_range r BASE) as _.
  rewrite (u64_small (v2 * q)), (u64_small (r * BASE)), u64_small by (unfold BASE in *; nia).
  destruct (Z.gtb_spec (v2 * q) (r * BASE + u2)) as [Hbig|Hok].
  - assert (0 < q) by nia. apply wp_bind, wp_assert; [apply negb_true_iff, Z.eqb_neq; lia|]. rewrite (u32_small (q - 1)) by blia.
    assert (Hlt : N * BASE + u2 < q * (v1 * BASE + v2)) by nia.
    unfold u32. fold BASE. destruct (Z_lt_ge_dec (r + v1) BASE) as [Hsm|Hge].
    + rewrite Z.mod_small by lia. destruct (Z.ltb_spec (r + v1) v1); [lia|].
      apply IH; [lia|lia|lia|lia|right; by replace (q - 1 + 1) with q by lia|done].
    + rewrite <-(Z.mod_unique (r + v1) BASE 1 (r + v1 - BASE)) by lia. destruct (Z.ltb_spec (r + v1 - BASE) v1); [|lia].
      apply wp_ret, HQ. split_and!; [lia|lia| |right; by replace (q - 1 + 1) with q by lia].
      assert (v2 * (q - 1) <= BASE * BASE) by (apply Z.mul_le_mono_nonneg; lia).
      assert (BASE * BASE <= (r + v1) * BASE) by (apply Z.mul_le_mono_nonneg_r; lia).
      replace ((q - 1) * (v1 * BASE + v2)) with (q * v1 * BASE - v1 * BASE + v2 * (q - 1)) by ring.
      replace (N * BASE) with (q * v1 * BASE + r * BASE) by (rewrite <-HN; ring). lia.
  - apply wp_ret, HQ. split_and!; [lia|lia|nia|done].
Qed.

Lemma wp_div_estimate p i v1 v2 b (Q : Z -> list bigint -> Prop) s :
  aget s p = Some b -> words (bv b) -> 2 <= i < alen (bv b) -> 2 ^ 31 <= v1 < BASE -> 0 <= v2 < BASE -> w (bv b) i <= v1 ->
  (forall q, estimates (v1 * BASE + v2) ((w (bv b) i * BASE + w (bv b) (i - 1)) * BASE + w (bv b) (i - 2)) q -> Q q s) ->
  wp (bi_div_estimate p i v1 v2) Q E s.
Proof.
  intros Hb Hw Hi Hv1 Hv2 Hle HQ. unfold bi_div_estimate. pose proof (w_range _ i Hw) as H0. pose proof (w_range _ (i - 1) Hw) as H1.
  pose proof (w_range _ (i - 2) Hw) as H2. apply wp_bind. eapply wp_rd; [done|lia|]. apply wp_bind, wp_assert; [by apply Z.leb_le|].
  apply wp_bind. eapply wp_rd; [done|lia|]. set (u0 := w (bv b) i) in *. set (u1 := w (bv b) (i - 1)) in *. set (u2 := w (bv b) (i - 2)) in *.
  rewrite Z.shiftl_mul_pow2 by (unfold BI_WORDSIZE; lia). change (2 ^ BI_WORDSIZE) with BASE. change BI_WORDMAX with (BASE - 1).
  assert (HN : 0 <= u0 * BASE + u1 < 2 ^ 64) by (unfold BASE in *; nia).
  rewrite (u64_small (u0 * BASE)), (u64_small (u0 * BASE + u1)) by (unfold BASE in *; lia).
  destruct (Z.eqb_spec u0 v1) as [He|He].
  - rewrite (u64_small ((BASE - 1) * v1)) by (unfold BASE in *; lia).
    replace (u0 * BASE + u1 - (BASE - 1) * v1) with (u1 + v1) by (rewrite He; ring). rewrite u64_small by (unfold BASE in *; lia).
    unfold u32. fold BASE. destruct (Z_lt_ge_dec (u1 + v1) BASE) as [Hsm|Hge].
    + rewrite Z.mod_small by lia. rewrite Z.eqb_refl. cbn [negb]. apply wp_bind. eapply wp_rd; [done|lia|]. fold u2.
      eapply (wp_estimate_loop 4 v1 v2 u2 (u0 * BASE + u1)); [blia|done|done|blia|lia|rewrite He; ring|blia|by left|done].
    + rewrite (proj2 (Z.eqb_neq ((u1 + v1) mod BASE) (u1 + v1))) by (pose proof (Z.mod_pos_bound (u1 + v1) BASE); blia). cbn [negb].
      apply wp_ret, HQ. split_and!; [blia|blia| |by left].
      rewrite He. assert ((BASE - 1) * v2 <= (u1 + v1) * BASE) by (unfold BASE in *; nia). nia.
  - apply wp_bind. eapply wp_rd; [done|lia|]. fold u2. set (N := u0 * BASE + u1) in *.
    pose proof (Z.div_mod N v1 ltac:(blia)) as Hdm. pose proof (Z.mod_pos_bound N v1 ltac:(blia)) as Hm.
    assert (Hq : 0 <= N / v1 < BASE) by (split; [apply Z.div_pos; blia|apply Z.div_lt_upper_bound; [blia|unfold N; nia]]).
    rewrite !u32_small by blia. eapply (wp_estimate_loop 4 v1 v2 u2 N); [blia|done|done|done|lia|lia|blia| |done].
    right. assert (N + 1 <= (N / v1 + 1) * v1) by lia. nia.
Qed.
End Wp.

(** ** Algorithm D *)

(** The estimate from the leading words is the quotient or one more. *)
Lemma estimate_close D T q P v' u' U Vd :
  BASE <= D -> 0 < P -> 0 <= v' < P -> 0 <= u' < P -> estimates D T q -> U = T * P + u' -> Vd = D * P + v' ->
  U < BASE * Vd -> U < (q + 1) * Vd /\ (q - 1) * Vd <= U.
Proof.
  intros HD HP Hv Hu (Hq & Hle & Hmax) -> -> HU. split.
  - destruct Hmax as [->|Hmax]; [by replace (BASE - 1 + 1) with BASE by lia|].
    assert ((T + 1) * P <= (q + 1) * D * P) by (apply Z.mul_le_mono_nonneg_r; lia). nia.
  - assert (0 <= D * P) by nia. destruct (Z.eq_dec q 0) as [->|H0]; [nia|].
    assert (q * D * P <= T * P) by (apply Z.mul_le_mono_nonneg_r; lia). assert ((q - 1) * v' <= (q - 1) * P) by (apply Z.mul_le_mono_nonneg_l; lia).
    assert ((q - 1) * P <= D * P) by (apply Z.mul_le_mono_nonneg_r; lia).
    replace ((q - 1) * (D * P + v')) with (q * D * P - D * P + (q - 1) * v') by ring. lia.
Qed.

Section Loop.
Context (E : Z -> list bigint -> Prop) (past p q d nn dn m : Z) (nb qb db : bigint) (s0 : list bigint).
Context (Hp : aget s0 p = Some nb) (Hq : aget s0 q = Some qb) (Hd : aget s0 d = Some db).
Context (Hpq : p <> q) (Hpd : p <> d) (Hqd : q <> d).
Context (Hnw : words (bv nb)) (Hqw : words (bv qb)) (Hdw : words (bv db)) (Hpast : 0 <= past < BASE).
Context (Hnn : nn = m + dn) (Hm : 0 <= m) (Hdn : 2 <= dn <= alen (bv db)) (Hnlen : nn < alen (bv nb)) (Hqlen : m + 1 <= alen (bv qb)).
Let Dv := V (bv db) 0 dn.
Let N0 := V (bv nb) 0 (nn + 1).
Let v1 := w (bv db) (dn - 1).
Let v2 := w (bv db) (dn - 2).
Context (Hv1 : 2 ^ 31 <= v1) (HN0 : N0 < Dv * BASE ^ (m + 1)).

(** After [j] rounds: the words of the quotient found, and a rest that is less
    than the denominator at its position. *)
Definition div_inv (j : Z) (s : list bigint) : Prop :=
  exists l ql, s = upd (upd s0 p (bn nb) l) q (bn qb) ql /\ same_but (bv nb) l 0 (nn + 1) /\ same_but (bv qb) ql 0 (m + 1) /\
    V l (m + 1 - j) dn < Dv /\ N0 = Dv * (BASE ^ (m + 1 - j) * V ql (m + 1 - j) j) + V l 0 (nn + 1 - j).

Lemma den_split : Dv = (v1 * BASE + v2) * BASE ^ (dn - 2) + V (bv db) 0 (dn - 2).
Proof.
  unfold Dv, v1, v2. replace dn with (dn - 2 + 1 + 1) at 1 by lia. rewrite !V_top, pow_S by lia.
  replace (0 + (dn - 2 + 1)) with (dn - 1) by lia. rewrite Z.add_0_l. ring.
Qed.

Lemma window_split l k : 0 <= k ->
  V l k (dn + 1) = ((w l (k + dn) * BASE + w l (k + dn - 1)) * BASE + w l (k + dn - 2)) * BASE ^ (dn - 2) + V l k (dn - 2).
Proof.
  intros Hk. replace (dn + 1) with (dn - 2 + 1 + 1 + 1) by lia. rewrite !V_top, !pow_S by lia.
  replace (k + (dn - 2 + 1 + 1)) with (k + dn) by lia. replace (k + (dn - 2 + 1)) with (k + dn - 1) by lia.
  replace (k + (dn - 2)) with (k + dn - 2) by lia. ring.
Qed.

(** A number below the denominator has no bigger leading word. *)
Lemma window_top l k : words l -> 0 <= k -> V l k dn < Dv -> w l (k + (dn - 1)) <= v1.
Proof.
  intros Hl Hk. unfold Dv, v1. replace dn with (dn - 1 + 1) at 1 2 by lia. rewrite !V_top, Z.add_0_l by lia.
  pose proof (V_bound l k (dn - 1) Hl ltac:(lia)) as H1. pose proof (V_bound (bv db) 0 (dn - 1) Hdw ltac:(lia)) as H2. clear - H1 H2. nia.
Qed.

Lemma div_aget l ql s : s = upd (upd s0 p (bn nb) l) q (bn qb) ql ->
  aget s p = Some (mk_big (bn nb) l) /\ aget s q = Some (mk_big (bn qb) ql) /\ aget s d = Some db.
Proof.
  intros ->. assert (Hq' : aget (upd s0 p (bn nb) l) q = Some qb) by (by rewrite (aget_upd_ne s0 p nb)).
  rewrite (aget_upd_ne _ q qb p), (aget_upd_ne _ q qb d), (aget_upd_ne s0 p nb d), (aget_upd_eq _ q qb) by done.
  by rewrite (aget_upd_eq s0 p nb).
Qed.

Lemma upd_comm l l' ql : upd (upd (upd s0 p (bn nb) l) q (bn qb) ql) p (bn nb) l' = upd (upd s0 p (bn nb) l') q (bn qb) ql.
Proof.
  unfold upd, aset. pose proof (aget_Some_range _ _ _ Hp). pose proof (aget_Some_range _ _ _ Hq).
  rewrite (list_insert_insert_ne _ (Z.to_nat p)) by lia. by rewrite list_insert_insert_eq.
Qed.

(** One word of the quotient. *)
Definition div_body (j : Z) : BM unit :=
  qw ← bi_div_estimate p (nn - j) v1 v2;
  neg ← bi_div_subtract p (nn - (j + dn)) d dn qw;
  qw ← (if (neg : bool) then _ ← bi_div_add_back (Some past) p (nn - (j + dn)) d dn; mret (u32 (qw - 1)) else mret qw);
  wr q (m - j) qw.

Lemma div_step j s : 0 <= j < m + 1 -> div_inv j s -> wp (div_body j) (fun _ => div_inv (j + 1)) E s.
Proof.
  intros Hj (l & ql & Hs & Hl & Hql & Hlt & HN). destruct (div_aget l ql s Hs) as (Ap & Aq & Ad).
  pose proof Hl as (Hll & Hlw & _). pose proof Hql as (Hqll & Hqlw & _). set (k := m - j).
  assert (Hpos : 0 < Dv) by (pose proof (V_bound l (m + 1 - j) dn Hlw); lia).
  set (U := V l k (dn + 1)). assert (HU : U = w l k + BASE * V l (m + 1 - j) dn).
  { unfold U. rewrite V_low by lia. by replace (k + 1) with (m + 1 - j) by lia. }
  pose proof (w_range l k Hlw) as Hwk. assert (HUlt : 0 <= U < BASE * Dv) by (pose proof (V_bound l (m + 1 - j) dn Hlw ltac:(lia)) as HVb; clear - HU Hwk HVb Hlt Hpos; unfold BASE in *; lia).
  assert (Htop : w l (nn - j) <= v1).
  { replace (nn - j) with (m + 1 - j + (dn - 1)) by lia. apply window_top; [done|lia|done]. }
  unfold div_body. apply wp_bind. eapply wp_div_estimate; [done|done|cbn; lia| |by apply w_range|exact Htop|].
  { split; [done|]. apply w_range, Hdw. }
  cbn [bv]. intros qw Hest. pose proof Hest as (Hqr & _).
  edestruct (estimate_close (v1 * BASE + v2) ((w l (nn - j) * BASE + w l (nn - j - 1)) * BASE + w l (nn - j - 2)) qw (BASE ^ (dn - 2)) (V (bv db) 0 (dn - 2)) (V l k (dn - 2)) U Dv) as [Hhi Hlo];
    [|apply pow_pos; lia|by apply V_bound; [|lia]|by apply V_bound; [|lia]|exact Hest| |exact den_split|lia|].
  { pose proof (w_range _ (dn - 2) Hdw) as Hv2. fold v2 in Hv2. unfold BASE in *. lia. }
  { unfold U. rewrite window_split by lia. by replace (k + dn) with (nn - j) by lia. }
  assert (Hnext : forall l' ql' qw', same_but (bv nb) l' 0 (nn + 1) -> (forall i, 0 <= i < k -> w l' i = w l i) ->
    ql' = aset ql k qw' -> 0 <= qw' < BASE -> V l' k dn = U - qw' * Dv -> V l' k dn < Dv ->
    div_inv (j + 1) (upd (upd s0 p (bn nb) l') q (bn qb) ql')).
  { intros l' ql' qw' H1 H2 -> H4 H5 H6. exists l', (aset ql k qw'). replace (m + 1 - (j + 1)) with k by lia. split_and!; [done|done| |done|].
    - apply same_aset; (done || lia).
    - replace (nn + 1 - (j + 1)) with (k + dn) by lia. rewrite (V_split l'), Z.add_0_l, H5 by lia.
      rewrite V_low, w_aset, decide_True, V_aset_out by lia. replace (k + 1) with (m + 1 - j) by lia.
      assert (Hlow : V l' 0 k = V l 0 k) by (apply V_ext; intros i Hi; rewrite Z.add_0_l; by apply H2). rewrite Hlow, HN.
      replace (nn + 1 - j) with (k + (dn + 1)) by lia. rewrite (V_split l), Z.add_0_l by lia. fold U.
      replace (m + 1 - j) with (k + 1) by lia. rewrite pow_S by lia. ring. }
  apply wp_bind. eapply (wp_div_subtract E p _ d); [done|exact Ap|exact Ad|done|done|lia|lia|cbn; lia|lia|done|]. cbn [bn bv].
  replace (nn - (j + dn)) with k by lia. fold U. fold Dv. clear HN Htop HU Hwk. intros neg l1 Hl1 HV1. pose proof Hl1 as (Hl1l & Hl1w & Hl1o).
  assert (Hl1n : same_but (bv nb) l1 0 (nn + 1)) by (apply (words_same_trans _ l); [done|]; apply (words_same_weaken _ _ _ _ _ _ Hl1); lia).
  rewrite Hs, upd_comm. destruct (div_aget l1 ql _ eq_refl) as (Bp & Bq & Bd). pose proof (V_bound l1 k (dn + 1) Hl1w ltac:(lia)) as Hb1.
  pose proof (pow_pos (dn + 1) ltac:(lia)) as HP1. assert (HDb : Dv < BASE ^ dn) by (by apply V_bound; [|lia]).
  destruct neg; cbn [Z.b2z] in HV1; rewrite ?Z.mul_1_r, ?Z.mul_0_r in HV1.
  - assert (Hneg : U - qw * Dv < 0) by lia. apply wp_bind, wp_bind.
    eapply (wp_div_add_back E past p k d dn (U - (qw - 1) * Dv)); [done|exact Bp|exact Bd|done|done|done|lia|lia|cbn; lia|lia|lia| |].
    { cbn [bv]. rewrite HV1. fold Dv. lia. }
    cbn [bn bv]. intros l2 Hl2 HV2. pose proof Hl2 as (Hl2l & Hl2w & Hl2o). rewrite upd_comm.
    destruct (div_aget l2 ql _ eq_refl) as (Cp & Cq & Cd). apply wp_ret.
    assert (0 < qw) by (clear - Hneg Hqr HUlt; nia). rewrite u32_small by blia. eapply wp_wr; [exact Cq|cbn; lia|]. cbn [bn bv]. rewrite upd_upd. fold k.
    apply (Hnext l2 _ (qw - 1)); [|intros i Hi; rewrite Hl2o by lia; apply Hl1o; lia|done|lia|done|lia].
    apply (words_same_trans _ l1); [done|]. apply (words_same_weaken _ _ _ _ _ _ Hl2); lia.
  - rewrite V_top in HV1, Hb1 by lia. apply wp_bind, wp_ret. eapply wp_wr; [exact Bq|cbn; lia|]. cbn [bn bv]. rewrite upd_upd. fold k.
    pose proof (V_bound l1 k dn Hl1w ltac:(lia)). pose proof (w_range l1 (k + dn) Hl1w). pose proof (pow_pos dn ltac:(lia)).
    assert (Hw0 : w l1 (k + dn) = 0) by nia. rewrite Hw0, Z.mul_0_r, Z.add_0_r in HV1.
    apply (Hnext l1 _ qw); [done|intros i Hi; apply Hl1o; lia|done|done|lia|lia].
Qed.

(** The loop divides. *)
Lemma wp_div_loop (Q : unit -> list bigint -> Prop) :
  (forall l ql, same_but (bv nb) l 0 (nn + 1) -> same_but (bv qb) ql 0 (m + 1) -> V l 0 dn = N0 mod Dv -> V ql 0 (m + 1) = N0 / Dv ->
     Q () (upd (upd s0 p (bn nb) l) q (bn qb) ql)) ->
  wp (div_loop (Some past) p nn q d dn m) Q E s0.
Proof.
  intros HQ. unfold div_loop. apply wp_bind. eapply wp_rd; [exact Hd|lia|]. apply wp_bind. eapply wp_rd; [exact Hd|lia|].
  apply (wp_for_up E 0 (m + 1) _ div_inv); [lia| | |].
  - exists (bv nb), (bv qb). rewrite (upd_id s0 p nb), (upd_id s0 q qb) by done. split_and!; [done|by apply words_same_refl|by apply words_same_refl| |].
    + rewrite Z.sub_0_r. assert (HV : N0 = V (bv nb) 0 (m + 1) + BASE ^ (m + 1) * V (bv nb) (m + 1) dn).
      { unfold N0. replace (nn + 1) with (m + 1 + dn) by lia. by rewrite V_split, Z.add_0_l by lia. }
      pose proof (V_bound (bv nb) 0 (m + 1) Hnw ltac:(lia)). pose proof (pow_pos (m + 1) ltac:(lia)). nia.
    + rewrite !Z.sub_0_r, (V_0 (bv qb)) by lia. fold N0. lia.
  - intros j s Hj. rewrite Z.add_0_l. by apply div_step.
  - intros s (l & ql & -> & Hl & Hql & Hlt & HN). replace (m + 1 - (m + 1)) with 0 in * by lia.
    replace (nn + 1 - (m + 1)) with dn in HN by lia. rewrite Z.pow_0_r, Z.mul_1_l in HN. pose proof Hl as (_ & Hlw & _).
    pose proof (V_bound l 0 dn Hlw ltac:(lia)). apply HQ; [done|done| |].
    + by apply Z.mod_unique with (V ql 0 (m + 1)); [left; lia|].
    + by apply Z.div_unique with (V l 0 dn); [left; lia|].
Qed.
End Loop.

(** ** The whole division *)

Lemma aset_comm (s : list bigint) p q a b : 0 <= p -> 0 <= q -> p <> q -> aset (aset s p a) q b = aset (aset s q b) p a.
Proof. intros. unfold aset. apply list_insert_insert_ne. lia. Qed.

Lemma aset_back (s : list bigint) p q a b a' : 0 <= p -> 0 <= q -> p <> q -> aset (aset (aset s p a) q b) p a' = aset (aset s p a') q b.
Proof. intros. by rewrite (aset_comm (aset s p a)), aset_aset. Qed.

Lemma aget_two s p q a b : 0 <= p < alen s -> 0 <= q < alen s -> p <> q ->
  aget (aset (aset s p a) q b) p = Some a /\ aget (aset (aset s p a) q b) q = Some (b : bigint).
Proof.
  intros. rewrite aget_aset_eq by (rewrite alen_aset; lia). rewrite aget_aset_ne by lia. by rewrite aget_aset_eq by lia.
Qed.

(** The array on the stack. *)
Lemma aget_snoc_l (s : list bigint) x i : 0 <= i < alen s -> aget (s ++ [x]) i = aget s i.
Proof. unfold aget, alen. intros Hi. destruct (Z.leb_spec 0 i); [|lia]. apply lookup_app_l. lia. Qed.

Lemma aget_snoc_r (s : list bigint) x : aget (s ++ [x]) (alen s) = Some x.
Proof. unfold aget, alen. destruct (Z.leb_spec 0 (Z.of_nat (length s))); [|lia]. rewrite Nat2Z.id, lookup_app_r, Nat.sub_diag by lia. done. Qed.

Lemma aset_snoc_l (s : list bigint) x i b : 0 <= i < alen s -> aset (s ++ [x]) i b = aset s i b ++ [x].
Proof. unfold aset, alen. intros Hi. apply insert_app_l. lia. Qed.

Lemma aset_snoc_r (s : list bigint) x b : aset (s ++ [x]) (alen s) b = s ++ [b].
Proof. unfold aset, alen. rewrite Nat2Z.id, insert_app_r_alt, Nat.sub_diag by lia. done. Qed.

(** The length of a number between two powers of the base. *)
Lemma bn_between b n : big_ok b -> 0 <= n -> BASE ^ n <= value b -> n + 1 <= bn b.
Proof.
  intros Hb Hn Hv. pose proof (value_bound b Hb) as Hub. destruct (Z_le_gt_dec (bn b) n) as [Hle|]; [|lia].
  assert (BASE ^ bn b <= BASE ^ n) by (apply Z.pow_le_mono_r; blia). lia.
Qed.

Lemma bn_upper b n : big_ok b -> 0 <= n -> value b < BASE ^ n -> bn b <= n.
Proof.
  intros Hb Hn Hv. destruct (Z.eq_dec (bn b) 0); [lia|]. pose proof (value_lower b Hb ltac:(done)) as Hlow.
  destruct (Z_le_gt_dec (bn b) n) as [|Hgt]; [done|]. assert (BASE ^ n <= BASE ^ (bn b - 1)) by (apply Z.pow_le_mono_r; blia). lia.
Qed.

Lemma value_lt_top a b : big_ok a -> big_ok b -> bn a = bn b -> bn b <> 0 -> w (bv a) (bn b - 1) < w (bv b) (bn b - 1) -> value a < value b.
Proof.
  intros (Hwa & Hna & _) (Hwb & Hnb & _) Heq H0 Hlt. unfold value. rewrite Heq. replace (bn b) with (bn b - 1 + 1) by lia. rewrite !V_top, !Z.add_0_l by lia.
  pose proof (V_bound (bv a) 0 (bn b - 1) Hwa ltac:(lia)). pose proof (V_bound (bv b) 0 (bn b - 1) Hwb ltac:(lia)).
  pose proof (pow_pos (bn b - 1) ltac:(lia)) as HP. clear - H H1 Hlt HP. nia.
Qed.

(** [__fls] and the shift that normalizes. *)
Lemma fls_shift x : 0 < x < BASE -> 0 <= 32 - fls x < 32 /\ 2 ^ 31 <= x * 2 ^ (32 - fls x) < BASE.
Proof.
  intros Hx. unfold fls. destruct (Z.eqb_spec x 0); [lia|]. pose proof (Z.log2_spec x ltac:(lia)) as [Hl Hu].
  assert (0 <= Z.log2 x < 32) by (split; [apply Z.log2_nonneg|apply Z.log2_lt_pow2; blia]). split; [lia|].
  replace (32 - (Z.log2 x + 1)) with (31 - Z.log2 x) by lia. assert (0 < 2 ^ (31 - Z.log2 x)) by (apply Z.pow_pos_nonneg; lia).
  assert (H31 : 2 ^ Z.log2 x * 2 ^ (31 - Z.log2 x) = 2 ^ 31) by (rewrite <-Z.pow_add_r by lia; f_equal; lia).
  rewrite Z.pow_succ_r in Hu by lia. unfold BASE. nia.
Qed.

(** The numbers after the normalization satisfy what the loop needs. *)
Lemma normalized_bounds nb db m :
  big_ok nb -> big_ok db -> 2 <= bn db <= bn nb -> m = bn nb - bn db ->
  0 < value db /\ 0 <= value nb < value db * BASE ^ (m + 1) /\ (0 < m -> BASE ^ (m - 1) * value db <= value nb).
Proof.
  intros Hnb Hdb Hn ->. set (m := bn nb - bn db). pose proof (value_bound nb Hnb) as Un. pose proof (value_lower nb Hnb ltac:(lia)) as Ln.
  pose proof (value_bound db Hdb) as Ud. pose proof (value_lower db Hdb ltac:(lia)) as Ld.
  pose proof (pow_pos (bn db - 1) ltac:(lia)). split_and!; [lia|lia| |].
  - replace (bn nb) with (bn db - 1 + (m + 1)) in Un by lia. rewrite Z.pow_add_r in Un by lia.
    pose proof (pow_pos (m + 1) ltac:(lia)). clear - Un Ld H0. nia.
  - intros Hm. replace (bn nb - 1) with (m - 1 + bn db) in Ln by lia. rewrite Z.pow_add_r in Ln by lia.
    pose proof (pow_pos (m - 1) ltac:(lia)). clear - Ln Ud H0. nia.
Qed.

(** A shift by less than a word adds at most a word. *)
Lemma shifted_below b shift : big_ok b -> 0 <= shift < 32 -> value b * 2 ^ shift < BASE ^ (bn b + 1).
Proof.
  intros Hb Hs. pose proof (value_bound b Hb) as Hv. destruct Hb as (_ & Hn & _). rewrite pow_S by lia.
  assert (0 < 2 ^ shift) by (apply Z.pow_pos_nonneg; lia). assert (2 ^ shift <= BASE) by (unfold BASE; apply Z.pow_le_mono_r; lia).
  apply (Z.lt_le_trans _ (BASE ^ bn b * 2 ^ shift)); [apply Z.mul_lt_mono_pos_r; lia|]. apply Z.mul_le_mono_nonneg_l; [lia|done].
Qed.

Lemma shifted_len b shift d : big_ok b -> bn b <> 0 -> 0 <= shift < 32 -> big_ok d -> value d = value b * 2 ^ shift ->
  bn d = bn b \/ bn d = bn b + 1.
Proof.
  intros Hb H0 Hs Hd Hv. pose proof (shifted_below b shift Hb Hs) as Hu. pose proof (value_lower b Hb H0) as Hl.
  assert (0 < 2 ^ shift) by (apply Z.pow_pos_nonneg; lia). destruct Hb as (_ & Hn & _). rewrite <-Hv in Hu.
  pose proof (bn_upper d (bn b + 1) Hd ltac:(lia) Hu). pose proof (pow_pos (bn b - 1) ltac:(lia)).
  pose proof (bn_between d (bn b - 1) Hd ltac:(lia)) as Hbt. specialize (Hbt ltac:(rewrite Hv; nia)). lia.
Qed.

Section Divide.
Context (E : Z -> list bigint -> Prop) (past p pw q : Z) (Q : Z -> list bigint -> Prop).
Context (Hpq : p <> q) (Hpast : 0 <= past < BASE).

(** The end of [_bi_div_rem_bb]: the rest loses the normalization, the
    quotient a leading zero. *)
Lemma wp_div_finish s nbn l ql dn m shift X Y :
  0 <= p < alen s -> 0 <= q < alen s -> words l -> words ql -> 0 <= dn <= pw -> pw <= alen l -> 0 <= m -> m + 1 <= alen ql ->
  0 <= shift < 32 -> 0 < Y -> 0 <= X -> V l 0 dn = (X mod Y) * 2 ^ shift -> V ql 0 (m + 1) = X / Y -> (0 < m -> BASE ^ (m - 1) * Y <= X) ->
  (forall r d, big_ok r -> big_ok d -> value r = X mod Y -> value d = X / Y -> alen (bv r) = alen l -> alen (bv d) = alen ql ->
     Q 0 (aset (aset s p r) q d)) ->
  wp (i ← trim p (Z.to_nat dn); _ ← set_n p i;
      _ ← (if negb (shift =? 0) then _ ← bi_shr_b p pw p shift; mret () else mret ());
      n ← get_n q; top ← rd q (n - 1);
      _ ← mwhen (top =? 0) (set_n q (n - 1)); mret 0) Q E (aset (aset s p (mk_big nbn l)) q (mk_big (m + 1) ql)).
Proof.
  intros Hp Hq Hl Hql Hdn Hpw Hm Hqm Hsh HY HX HVr HVq Hlow HQ.
  destruct (aget_two s p q (mk_big nbn l) (mk_big (m + 1) ql) Hp Hq Hpq) as [Ap Aq].
  apply wp_bind. eapply wp_trim; [exact Ap|cbn; lia|]. cbn [bv]. rewrite Z2Nat.id by lia. intros i Hi Hti HVi.
  apply wp_bind. eapply wp_set_n; [exact Ap|]. cbn [bv]. unfold upd. rewrite aset_back by lia.
  assert (Hok : big_ok (mk_big i l)) by (split_and!; cbn; [done|lia|lia|done]).
  assert (Hend : forall r, big_ok r -> value r = X mod Y -> alen (bv r) = alen l ->
    wp (n ← get_n q; top ← rd q (n - 1); _ ← mwhen (top =? 0) (set_n q (n - 1)); mret 0) Q E (aset (aset s p r) q (mk_big (m + 1) ql))).
  { intros r Hr Hvr Hrl. destruct (aget_two s p q r (mk_big (m + 1) ql) Hp Hq Hpq) as [_ Bq].
    apply wp_bind. eapply wp_get_n; [exact Bq|]. cbn [bn]. replace (m + 1 - 1) with m by lia. apply wp_bind. eapply wp_rd; [exact Bq|cbn; lia|].
    cbn [bv]. apply wp_bind. rewrite V_top, Z.add_0_l in HVq by lia. destruct (Z.eqb_spec (w ql m) 0) as [Ht|Ht]; cbn [mwhen].
    - eapply wp_set_n; [exact Bq|]. apply wp_ret. unfold upd. rewrite aset_aset. cbn [bv]. rewrite Ht in HVq.
      apply HQ; [done| |done|unfold value; cbn [bn bv]; lia|done|done].
      destruct (Z.eq_dec m 0) as [->|Hm0]; [by apply big_ok_zero|]. apply big_ok_intro; [done|lia|].
      rewrite Z.mul_0_r, Z.add_0_r in HVq. rewrite HVq. apply Z.div_le_lower_bound; [done|]. rewrite Z.mul_comm. apply Hlow. lia.
    - apply wp_ret, wp_ret. apply HQ; [done| |done|unfold value; cbn [bn bv]; rewrite V_top, Z.add_0_l by lia; exact HVq|done|done].
      split_and!; cbn [bn bv]; [done|lia..|]. by replace (m + 1 - 1) with m by lia. }
  assert (Hval : value (mk_big i l) = (X mod Y) * 2 ^ shift) by (unfold value; cbn [bn bv]; lia).
  apply wp_bind. destruct (Z.eqb_spec shift 0) as [->|Hs0]; cbn [negb].
  - apply wp_ret. apply Hend; [done|rewrite Hval; lia|done].
  - destruct (aget_two s p q (mk_big i l) (mk_big (m + 1) ql) Hp Hq Hpq) as [Bp _]. apply wp_bind.
    eapply (wp_shr_b E p p pw (mk_big i l) (mk_big i l)); [exact Bp|exact Bp|exact Hok|done|cbn; lia|lia|rewrite Z.mod_small; lia| |].
    + intros _ r Hr Hvr Hrl. apply wp_ret. rewrite aset_back by lia. apply Hend; [done| |done].
      rewrite Hvr, Hval. apply Z.div_mul. apply Z.pow_nonzero; lia.
    + cbn. rewrite Z.div_small by lia. lia.
Qed.

Lemma wp_div_normalized s nn d dn m shift nb qb db X Y :
  p <> d -> q <> d -> aget s p = Some nb -> aget s q = Some qb -> aget s d = Some db ->
  words (bv nb) -> words (bv qb) -> words (bv db) ->
  nn = m + dn -> 0 <= m -> 2 <= dn <= alen (bv db) -> nn + 1 <= pw -> pw <= alen (bv nb) -> bn qb = m + 1 -> m + 1 <= alen (bv qb) ->
  0 <= shift < 32 -> bn nb = nn \/ bn nb = nn + 1 -> V (bv nb) 0 (bn nb) = X * 2 ^ shift -> V (bv db) 0 dn = Y * 2 ^ shift ->
  2 ^ 31 <= w (bv db) (dn - 1) -> 0 < Y -> 0 <= X < Y * BASE ^ (m + 1) -> (0 < m -> BASE ^ (m - 1) * Y <= X) ->
  (forall r qd, big_ok r -> big_ok qd -> value r = X mod Y -> value qd = X / Y -> alen (bv r) = alen (bv nb) -> alen (bv qd) = alen (bv qb) ->
     Q 0 (aset (aset s p r) q qd)) ->
  wp (div_normalized (Some past) p pw nn q d dn m shift) Q E s.
Proof.
  intros Hpd Hqd Hp Hq Hd Hnw Hqw Hdw Hnn Hm Hdn Hpw1 Hpw2 Hqn Hqlen Hsh Hbn HVn HVd Hv1 HY HX Hlow HQ. unfold div_normalized.
  pose proof (aget_Some_range _ _ _ Hp) as Rp. pose proof (aget_Some_range _ _ _ Hq) as Rq.
  assert (Hc : 0 < 2 ^ shift) by (apply Z.pow_pos_nonneg; lia).
  apply wp_bind. eapply wp_get_n; [exact Hp|]. apply wp_bind.
  match goal with |- wp _ (fun a s' => wp ?rest _ _ _) _ _ => set (K := rest) end.
  assert (Hgo : forall l, words l -> alen l = alen (bv nb) -> V l 0 (nn + 1) = X * 2 ^ shift -> wp K Q E (upd s p (bn nb) l)).
  { intros l Hlw Hll HVl. unfold K. apply wp_bind.
    eapply (wp_div_loop E past p q d nn dn m (mk_big (bn nb) l) qb db); cbn [bn bv];
      try (done || lia); [by apply (aget_upd_eq s p nb)|by rewrite (aget_upd_ne s p nb)|by rewrite (aget_upd_ne s p nb)| |].
    { rewrite HVl, HVd. replace (Y * 2 ^ shift * BASE ^ (m + 1)) with (Y * BASE ^ (m + 1) * 2 ^ shift) by ring. apply Z.mul_lt_mono_pos_r; lia. }
    intros l' ql (Hl'l & Hl'w & _) (Hql'l & Hql'w & _) HVr HVq. rewrite upd_upd, Hqn. rewrite HVl, HVd in *.
    rewrite Z.mul_mod_distr_r in HVr by lia. rewrite Z.div_mul_cancel_r in HVq by lia. unfold upd.
    eapply (wp_div_finish s (bn nb) l' ql dn m shift X Y); try done; try lia.
    intros r qd Hr Hqd' Hvr Hvq Hrl Hql'. apply HQ; try done; lia. }
  destruct (Z.eqb_spec nn (bn nb)) as [He|He]; cbn [mwhen].
  - eapply wp_wr; [exact Hp|lia|]. apply Hgo; [by apply words_aset; [|blia]|by rewrite alen_aset|].
    rewrite V_top, V_aset_out, w_aset, decide_True by lia. rewrite He, HVn. lia.
  - apply wp_ret. rewrite <-(upd_id s p nb Hp). apply Hgo; [done..|]. by replace (nn + 1) with (bn nb) by lia.
Qed.

End Divide.

Section Args.
Context (E : Z -> list bigint -> Prop) (past p pw q : Z) (Q : Z -> list bigint -> Prop).
Context (Hpq : p <> q) (Hpast : 0 <= past < BASE).
Context (d qw : Z) (s : list bigint) (nb qb db : bigint).
Context (Hpd : p <> d) (Hqd : q <> d) (Hp : aget s p = Some nb) (Hq : aget s q = Some qb) (Hd : aget s d = Some db).
Context (Hnb : big_ok nb) (Hqbw : words (bv qb)) (Hdb : big_ok db) (Hdn0 : bn db <> 0).
Context (Hpw : bn nb + 1 <= pw <= alen (bv nb)) (Hqw : 0 < qw <= alen (bv qb)) (Hroom : bn nb - bn db + 1 <= qw).
Context (HQ : forall r qd, big_ok r -> big_ok qd -> value r = value nb mod value db -> value qd = value nb / value db ->
     Q 0 (aset (aset s p r) q qd)).

Lemma wp_div_less : value nb < value db -> wp (bi_set_w q qw 0) Q E s.
Proof.
  intros Hlt. pose proof (value_bound nb Hnb). eapply wp_set_w; [exact Hq|done|lia|blia|]. intros qd Hok Hv _.
  rewrite <-(aset_id s p nb Hp). apply HQ; [done..|by rewrite Z.mod_small by lia|by rewrite Z.div_small by lia].
Qed.

Lemma wp_div_single : bn db = 1 ->
  wp (x ← rd d 0; qr ← bi_div_rem_bw q qw p x; if negb (fst qr =? 0) then mret 1 else bi_set_w p pw (snd qr)) Q E s.
Proof.
  intros H1. pose proof Hnb as (Hnw & Hnn & _). pose proof Hdb as (Hdw & Hdn & Hdt). specialize (Hdt Hdn0).
  pose proof (aget_Some_range _ _ _ Hp) as Rp. pose proof (aget_Some_range _ _ _ Hq) as Rq.
  assert (Hv1 : value db = w (bv db) 0) by (unfold value; by rewrite H1, V_1). rewrite H1 in Hdt. change (1 - 1) with 0 in Hdt.
  pose proof (w_range _ 0 Hdw) as Hw0. apply wp_bind. eapply wp_rd; [exact Hd|lia|]. apply wp_bind.
  eapply (wp_div_rem_bw E q qw p _ qb nb); [exact Hp|exact Hq|done|done|lia|lia| |lia].
  intros _ qd Hok Hvq _. cbn [fst snd Z.eqb negb]. rewrite <-Hv1 in *.
  eapply wp_set_w; [by rewrite aget_aset_ne by lia|done|lia|pose proof (Z.mod_pos_bound (value nb) (value db)); lia|].
  intros r Hrok Hvr _. rewrite aset_comm by lia. by apply HQ.
Qed.

(** The leading word of the shifted denominator. *)
Lemma shifted_top dd shift : 2 <= bn db -> shift = 32 - fls (w (bv db) (bn db - 1)) ->
  big_ok dd -> value dd = value db * 2 ^ shift -> alen (bv dd) = bn db -> bn dd = bn db /\ 2 ^ 31 <= w (bv dd) (bn db - 1).
Proof.
  intros Hn -> Hok Hv Hl. pose proof Hdb as (Hdw & Hdn & Hdt). specialize (Hdt Hdn0). pose proof Hok as (Hw & Hdd & _).
  pose proof (w_range _ (bn db - 1) Hdw) as Htop. destruct (fls_shift (w (bv db) (bn db - 1)) ltac:(lia)) as [Hs Hsh].
  set (c := 2 ^ (32 - fls (w (bv db) (bn db - 1)))) in *. pose proof (pow_pos (bn db - 1) ltac:(lia)) as Pd.
  assert (HV : value db = V (bv db) 0 (bn db - 1) + BASE ^ (bn db - 1) * w (bv db) (bn db - 1)).
  { unfold value. replace (bn db) with (bn db - 1 + 1) at 1 by lia. by rewrite V_top, Z.add_0_l by lia. }
  pose proof (V_bound (bv db) 0 (bn db - 1) Hdw ltac:(lia)) as Hlow.
  assert (Hbig : BASE ^ (bn db - 1) * 2 ^ 31 <= value dd) by (rewrite Hv, HV; assert (0 < c) by lia; nia).
  assert (Hbn : bn dd = bn db).
  { pose proof (bn_between dd (bn db - 1) Hok ltac:(lia) ltac:(lia)). lia. }
  split; [done|]. unfold value in Hbig. rewrite Hbn in Hbig. replace (bn db) with (bn db - 1 + 1) in Hbig at 2 by lia.
  rewrite V_top, Z.add_0_l in Hbig by lia. pose proof (V_bound (bv dd) 0 (bn db - 1) Hw ltac:(lia)). nia.
Qed.

Lemma shifted_fits shift : 2 <= bn db -> shift = 32 - fls (w (bv db) (bn db - 1)) -> value db * 2 ^ shift < BASE ^ bn db.
Proof.
  intros Hn ->. pose proof Hdb as (Hdw & Hdn & Hdt). specialize (Hdt Hdn0). pose proof (w_range _ (bn db - 1) Hdw) as Htop.
  destruct (fls_shift (w (bv db) (bn db - 1)) ltac:(lia)) as [Hs [_ Hsh]]. set (top := w (bv db) (bn db - 1)) in *.
  pose proof (pow_base (32 - fls top) ltac:(lia)) as Hb. set (c := 2 ^ (32 - fls top)) in *. set (c' := 2 ^ (32 - (32 - fls top))) in *.
  assert (Hc : 0 < c) by (apply Z.pow_pos_nonneg; lia). pose proof (pow_pos (bn db - 1) ltac:(lia)) as Pd.
  assert (HV : value db = V (bv db) 0 (bn db - 1) + BASE ^ (bn db - 1) * top).
  { unfold value. replace (bn db) with (bn db - 1 + 1) at 1 by lia. by rewrite V_top, Z.add_0_l by lia. }
  pose proof (V_bound (bv db) 0 (bn db - 1) Hdw ltac:(lia)) as Hlow. replace (bn db) with (bn db - 1 + 1) at 1 by lia. rewrite pow_S by lia.
  assert (Htc : top < c') by (apply (Z.mul_lt_mono_pos_l c); lia).
  assert (Ht : (top + 1) * c <= BASE) by (rewrite <-Hb, (Z.mul_comm c); apply Z.mul_le_mono_nonneg_r; lia). apply (Z.lt_le_trans _ (BASE ^ (bn db - 1) * ((top + 1) * c))).
  - replace (BASE ^ (bn db - 1) * ((top + 1) * c)) with (BASE ^ (bn db - 1) * (top + 1) * c) by ring. apply Z.mul_lt_mono_pos_r; lia.
  - apply Z.mul_le_mono_nonneg_l; lia.
Qed.

Lemma wp_div_long : 2 <= bn db <= bn nb -> wp (div_long (Some past) p pw (bn nb) q qw d (bn db)) Q E s.
Proof.
  intros Hn. pose proof Hnb as (Hnw & Hnn & _). pose proof Hdb as (Hdw & Hdn & Hdt). specialize (Hdt Hdn0).
  pose proof (aget_Some_range _ _ _ Hp) as Rp. pose proof (aget_Some_range _ _ _ Hq) as Rq. pose proof (aget_Some_range _ _ _ Hd) as Rd.
  pose proof (w_range _ (bn db - 1) Hdw) as Htop. destruct (fls_shift (w (bv db) (bn db - 1)) ltac:(lia)) as [Hs Hsh].
  assert (H31 : 32 - fls (w (bv db) (bn db - 1)) = 0 -> 2 ^ 31 <= w (bv db) (bn db - 1)) by (intros Hz; rewrite Hz in Hsh; lia). clear Hsh.
  unfold div_long. remember (bn nb - bn db) as m eqn:Hm. destruct (Z.gtb_spec (m + 1) qw); [lia|].
  apply wp_bind. eapply wp_set_n; [exact Hq|]. unfold upd. set (qb' := mk_big (m + 1) (bv qb)).
  assert (Dp : aget (aset s q qb') p = Some nb) by (by rewrite aget_aset_ne by lia).
  assert (Dd : aget (aset s q qb') d = Some db) by (by rewrite aget_aset_ne by lia).
  assert (Dq : aget (aset s q qb') q = Some qb') by (apply aget_aset_eq; lia).
  apply wp_bind. eapply wp_rd; [exact Dd|lia|]. unfold BI_WORDSIZE. remember (32 - fls (w (bv db) (bn db - 1))) as shift eqn:Hse.
  destruct (Z.eqb_spec shift 0) as [H0|H0]; cbn [negb].
  { destruct (normalized_bounds nb db m Hnb Hdb Hn Hm) as (B1 & B2 & B3). rewrite H0 in *. eapply (wp_div_normalized E past p pw q Q Hpq Hpast _ (bn nb) d (bn db) m 0 nb qb' db (value nb) (value db));
      try (done || lia); [cbn; lia|unfold value; lia|unfold value; lia|].
    intros r qd Hr Hqd' Hvr Hvq _ _. rewrite aset_back, aset_comm by lia. by apply HQ. }
  pose proof (shifted_below nb shift Hnb Hs) as Hfit.
  apply wp_bind. eapply (wp_shl_b E p p pw nb nb); [exact Dp|exact Dp|done|done|lia|lia| |].
  2:{ intros Hov. assert (BASE ^ (bn nb + 1) <= BASE ^ pw) by (apply Z.pow_le_mono_r; blia). lia. }
  intros _ d1 Hd1 Hv1 Hl1. apply wp_bind, wp_assert; [done|]. set (s1 := aset (aset s q qb') p d1).
  assert (Hs1 : alen s1 = alen s) by (unfold s1; by rewrite !alen_aset).
  apply wp_bind. unfold alloca. wp_step. wp_step. wp_step. apply wp_put. wp_step. set (rep := replicate (Z.to_nat (bn db)) past).
  assert (Hrep : alen rep = bn db) by (apply alen_replicate; lia).
  apply wp_bind. eapply wp_set_n; [apply aget_snoc_r|]. unfold upd. rewrite aset_snoc_r. cbn [bv].
  apply wp_bind. eapply (wp_shl_b E d (alen s1) (bn db) db (mk_big (bn db) rep)).
  { rewrite aget_snoc_l by lia. unfold s1. rewrite aget_aset_ne by lia. exact Dd. }
  { apply aget_snoc_r. }
  { done. }
  { cbn. unfold rep. by apply Forall_replicate. }
  { cbn. lia. }
  { lia. }
  2:{ intros Hov. pose proof (shifted_fits shift ltac:(lia) Hse). lia. }
  intros _ dd Hdd Hvd Hld. cbn [bv] in Hld. rewrite aset_snoc_r. apply wp_bind, wp_assert; [done|].
  destruct (shifted_top dd shift ltac:(lia) Hse Hdd Hvd ltac:(lia)) as [Hbd Htd].
  pose proof (shifted_len nb shift d1 Hnb ltac:(lia) Hs Hd1 Hv1) as Hbd1. clear Hfit.
  apply wp_bind. pose proof Hd1 as (Hd1w & _). pose proof Hdd as (Hddw & _).
  assert (Ap : aget (s1 ++ [dd]) p = Some d1) by (rewrite aget_snoc_l by lia; unfold s1; apply aget_aset_eq; rewrite alen_aset; lia).
  assert (Aq : aget (s1 ++ [dd]) q = Some qb') by (rewrite aget_snoc_l by lia; unfold s1; by rewrite aget_aset_ne by lia).
  eapply (wp_div_normalized E past p pw q _ Hpq Hpast _ (bn nb) (alen s1) (bn db) m shift d1 qb' dd (value nb) (value db));
    [lia|lia|exact Ap|exact Aq|apply aget_snoc_r|done|done|done|lia|lia|lia|lia|lia|done|cbn; lia|lia|exact Hbd1|exact Hv1|by rewrite <-Hbd|done|by apply (normalized_bounds nb db m)..|].
  intros r qd Hr Hqd' Hvr Hvq _ _. rewrite !aset_snoc_l by (rewrite ?alen_aset; lia). apply wp_bind. unfold unalloca. apply wp_mod.
  rewrite removelast_last. apply wp_ret. unfold s1. rewrite aset_aset, aset_back, aset_comm by lia. by apply HQ.
Qed.

(** [_bi_div_rem_bb] divides. *)
Lemma wp_div_rem_bb : wp (bi_div_rem_bb (Some past) p pw q qw d) Q E s.
Proof.
  unfold bi_div_rem_bb. pose proof Hnb as (Hnw & Hnn & Hnt). pose proof Hdb as (Hdw & Hdn & Hdt). specialize (Hdt Hdn0).
  apply wp_bind. eapply wp_get_n; [exact Hp|]. apply wp_bind. eapply wp_get_n; [exact Hd|].
  destruct (Z.eqb_spec (bn db) 0); [done|]. destruct (Z.gtb_spec (bn nb + 1) pw); [lia|]. apply wp_bind.
  assert (Hmore : bn db <= bn nb -> wp (if bn db =? 1 then
      x ← rd d 0; qr ← bi_div_rem_bw q qw p x; if negb (fst qr =? 0) then mret 1 else bi_set_w p pw (snd qr)
    else div_long (Some past) p pw (bn nb) q qw d (bn db)) Q E s).
  { intros Hge. destruct (Z.eqb_spec (bn db) 1); [by apply wp_div_single|apply wp_div_long; lia]. }
  destruct (Z.ltb_spec (bn nb) (bn db)) as [Hlt|Hge]; [by apply wp_ret, wp_div_less, value_lt_len|].
  destruct (Z.eqb_spec (bn nb) (bn db)) as [Heq|Hne]; [|by apply wp_ret, Hmore].
  apply wp_bind. eapply wp_rd; [exact Hp|lia|]. apply wp_bind. eapply wp_rd; [exact Hd|lia|]. apply wp_ret.
  destruct (Z.ltb_spec (w (bv nb) (bn nb - 1)) (w (bv db) (bn nb - 1))) as [Hlt|]; [|by apply Hmore]. apply wp_div_less.
  rewrite Heq in Hlt. by apply value_lt_top.
Qed.
End Args.
