(* ===== verification/BigIntHdiv.v ===== *)
(** Comparison, subtraction of a multiple with its undoing, and the division
    of [_bi_hdiv_rem_b] with its two-word estimate. *)

From S2P Require Import Prelude BigInt BigIntFacts BigIntArith BigIntShift BigIntDiv.

(** ** Words from numbers *)

Lemma V_inj v v' lo n : words v -> words v' -> 0 <= n -> V v lo n = V v' lo n -> forall i, 0 <= i < n -> w v (lo + i) = w v' (lo + i).
Proof.
  intros Hv Hv' Hn. revert lo. revert n Hn. apply (natlike_ind (fun n => forall lo, V v lo n = V v' lo n -> forall i, 0 <= i < n -> w v (lo + i) = w v' (lo + i))).
  - intros. lia.
  - intros n Hn IH lo He i Hi. unfold Z.succ in *. rewrite !V_low in He by done.
    pose proof (w_range v lo Hv) as H1. pose proof (w_range v' lo Hv') as H2.
    assert (He2 : V v (lo + 1) n = V v' (lo + 1) n /\ w v lo = w v' lo).
    { assert (Hz : V v (lo + 1) n - V v' (lo + 1) n = 0) by (apply (mult_small BASE); lia). split; [lia|]. rewrite (proj1 (Z.sub_move_0_r _ _) Hz) in He. lia. }
    destruct He2 as [He2 He3]. destruct (Z.eq_dec i 0) as [->|]; [by rewrite Z.add_0_r|].
    specialize (IH (lo + 1) He2 (i - 1) ltac:(lia)). by replace (lo + 1 + (i - 1)) with (lo + i) in IH by lia.
Qed.

(** Arrays with the same length and words are equal. *)
Lemma words_ext v v' : alen v = alen v' -> (forall i, 0 <= i < alen v -> w v i = w v' i) -> v = v'.
Proof. intros Hl Hw. apply aget_ext; [done|]. intros i Hi. rewrite !aget_w by lia. by rewrite Hw. Qed.

Section Wp.
Context (E : Z -> list bigint -> Prop).

(** ** Comparison *)

Lemma wp_cmp_words src1 src2 a b (Q : Z -> list bigint -> Prop) s n :
  aget s src1 = Some a -> aget s src2 = Some b -> words (bv a) -> words (bv b) -> Z.of_nat n <= alen (bv a) -> Z.of_nat n <= alen (bv b) ->
  (forall c, Z.sgn (V (bv a) 0 (Z.of_nat n) - V (bv b) 0 (Z.of_nat n)) = c -> Q c s) ->
  wp (cmp_words src1 src2 (rev (zrange 0 n))) Q E s.
Proof.
  intros Ha Hb Hwa Hwb. revert Q. induction n as [|n IH]; intros Q Hla Hlb HQ; [by apply wp_ret, HQ|].
  unfold zrange. rewrite seq_S, fmap_app, rev_app_distr. cbn [rev app fmap list_fmap cmp_words plus]. rewrite Z.add_0_l.
  apply wp_bind. eapply wp_rd; [done|lia|]. apply wp_bind. eapply wp_rd; [done|lia|].
  replace (Z.of_nat (S n)) with (Z.of_nat n + 1) in HQ by lia. rewrite !V_top, Z.add_0_l in HQ by lia.
  pose proof (V_bound (bv a) 0 (Z.of_nat n) Hwa ltac:(lia)) as B1. pose proof (V_bound (bv b) 0 (Z.of_nat n) Hwb ltac:(lia)) as B2.
  pose proof (pow_pos (Z.of_nat n) ltac:(lia)) as HP.
  destruct (Z.gtb_spec (w (bv a) (Z.of_nat n)) (w (bv b) (Z.of_nat n))) as [Hgt|Hle]; [apply wp_ret, HQ, Z.sgn_pos; clear - B1 B2 HP Hgt; nia|].
  destruct (Z.ltb_spec (w (bv a) (Z.of_nat n)) (w (bv b) (Z.of_nat n))) as [Hlt|Hge]; [apply wp_ret, HQ, Z.sgn_neg; clear - B1 B2 HP Hlt; nia|].
  apply IH; [lia|lia|]. intros c <-. apply HQ. f_equal. replace (w (bv b) (Z.of_nat n)) with (w (bv a) (Z.of_nat n)) by lia. lia.
Qed.

Lemma wp_cmp_bb src1 src2 a b (Q : Z -> list bigint -> Prop) s :
  aget s src1 = Some a -> aget s src2 = Some b -> big_ok a -> big_ok b -> Q (Z.sgn (value a - value b)) s ->
  wp (bi_cmp_bb src1 src2) Q E s.
Proof.
  intros Ha Hb Hoa Hob HQ. unfold bi_cmp_bb. apply wp_bind. eapply wp_get_n; [done|]. apply wp_bind. eapply wp_get_n; [done|].
  destruct (Z.gtb_spec (bn a) (bn b)) as [Hgt|Hle].
  { apply wp_ret. pose proof (value_lt_len b a Hob Hoa Hgt). by rewrite Z.sgn_pos in HQ by lia. }
  destruct (Z.ltb_spec (bn a) (bn b)) as [Hlt|Hge].
  { apply wp_ret. pose proof (value_lt_len a b Hoa Hob Hlt). by rewrite Z.sgn_neg in HQ by lia. }
  pose proof Hoa as (Hwa & Hna & _). pose proof Hob as (Hwb & Hnb & _). unfold down.
  eapply wp_cmp_words; [done|done|done|done|lia|lia|]. rewrite Z2Nat.id by lia. intros c <-. unfold value in HQ.
  by replace (bn b) with (bn a) in HQ by lia.
Qed.

(** ** Subtraction of a multiple *)

Section SubMul.
Context (dst src f : Z) (db sb : bigint) (s : list bigint).
Context (Hne : dst <> src) (Hd : aget s dst = Some db) (Hs : aget s src = Some sb) (Hdb : big_ok db) (Hsb : big_ok sb) (Hf : 0 <= f < BASE).
Let sn := bn sb.
Let dn := bn db.
Let P := f * value sb.

(** The words of [dst] from [l], after the borrows up to [i]. *)
Definition taken (l : list Z) (i c : Z) : Prop :=
  same_but (bv db) l 0 i /\ V l 0 i = V (bv db) 0 i - P + BASE ^ i * c.

Lemma wp_borrow i b l (Q : Z -> list bigint -> Prop) n :
  0 <= i -> i + Z.of_nat n = dn -> bit b -> taken l i b ->
  (forall l' b', bit b' -> taken l' dn b' -> Q b' (upd s dst dn l')) ->
  wp (borrow_words dst (zrange i n) b) Q E (upd s dst dn l).
Proof.
  pose proof Hdb as (Hdw & Hdn & _). intros Hi Hin Hb Ht HQ. revert i b l Hi Hin Hb Ht. induction n as [|n IH]; intros i b l Hi Hin Hb Ht.
  { change (zrange i 0) with (@nil Z). cbn [borrow_words]. apply wp_ret. apply HQ; [done|]. by replace dn with i by lia. }
  rewrite zrange_S. cbn [borrow_words]. destruct Ht as [Hsame HV]. pose proof Hsame as (Hl & Hw & Ho). destruct (Z.eqb_spec b 0) as [->|H0].
  - apply wp_ret. apply HQ; [by left|]. split; [apply (words_same_weaken _ _ _ _ _ _ Hsame); unfold dn in *; lia|]. replace dn with (i + (dn - i)) by lia. rewrite !V_split by lia.
    assert (He : V l (0 + i) (dn - i) = V (bv db) (0 + i) (dn - i)) by (apply V_ext; intros j Hj; apply Ho; lia).
    rewrite He, HV. lia.
  - assert (b = 1) as -> by (unfold bit in Hb; lia). apply wp_bind. eapply wp_rd; [by apply (aget_upd_eq s dst db)|cbn; unfold dn in *; lia|]. cbn [bv].
    pose proof (w_range l i Hw) as Hwi. destruct (sub_word (w l i - 1)) as (-> & H1 & H2 & H3); [lia|].
    apply wp_bind. eapply wp_wr; [by apply (aget_upd_eq s dst db)|cbn; unfold dn in *; lia|]. cbn [bn bv]. rewrite upd_upd.
    apply IH; [lia|lia|done|]. split.
    + apply same_aset; try (unfold dn in *; lia). apply (words_same_weaken _ _ _ _ _ _ Hsame); lia.
    + rewrite !V_top, V_aset_out, w_aset, decide_True by (unfold dn in *; lia). rewrite Z.add_0_l, HV, (Ho i) in * by lia. rewrite pow_S by lia. nia.
Qed.

(** The first loop of [_bi_sub_mul_bw]. *)
Lemma wp_sub_mul_loop (K : Z * Z -> BM Z) (Q : Z -> list bigint -> Prop) :
  sn <= dn ->
  (forall l mc sb', 0 <= mc < BASE -> bit sb' -> taken l sn (mc + sb') -> wp (K (mc, sb')) Q E (upd s dst dn l)) ->
  wp (c ← mfold (zrange 0 (Z.to_nat sn)) (fun i c =>
      let '(mul_carry, sub_borrow) := c : Z * Z in
      v ← rd src i; u ← rd dst i;
      let '(x, mc, sb) := mul_sub_word u v f mul_carry sub_borrow in
      _ ← wr dst i x; mret (mc, sb)) (0, 0); K c) Q E s.
Proof.
  intros Hle HQ. pose proof Hdb as (Hdw & Hdn & _). pose proof Hsb as (Hsw & Hsn & _). fold dn in Hdn. fold sn in Hsn. apply wp_bind.
  apply (wp_up E 0 sn _ (fun i c s' => exists l, s' = upd s dst dn l /\ same_but (bv db) l 0 i /\
    0 <= fst c < BASE /\ bit (snd c) /\ V l 0 i = V (bv db) 0 i - f * V (bv sb) 0 i + BASE ^ i * (fst c + snd c))); [lia| | |].
  - exists (bv db). unfold dn. rewrite upd_id, !V_0 by (done || lia). split_and!; [done|by apply words_same_refl|unfold BASE; cbn; lia..|by left|cbn; lia].
  - intros i [mc b] s' Hi (l & -> & Hsame & Hmc & Hb & HV). cbn [fst snd] in *. pose proof Hsame as (Hll & Hlw & Hlo). rewrite Z.add_0_l.
    pose proof (aget_upd_eq s dst db dn l Hd) as Hd'. pose proof (aget_upd_ne s dst db src dn l Hd Hne) as Hs'. rewrite Hs in Hs'.
    apply wp_bind. eapply wp_rd; [done|lia|]. apply wp_bind. eapply wp_rd; [done|cbn; lia|]. cbn [bv bn].
    destruct (mul_sub_word _ _ _ _ _) as [[x mc'] b'] eqn:Hw.
    destruct (mul_sub_word_spec _ _ _ _ _ _ _ _ (w_range l i Hlw) (w_range (bv sb) i Hsw) Hf Hmc Hb Hw) as (Hx & Hmc' & Hb' & He).
    apply wp_bind. eapply wp_wr; [done|cbn; lia|]. apply wp_ret. cbn [bn bv fst snd]. exists (aset l i x).
    rewrite upd_upd. split_and!; [done| |lia|lia|done|].
    + apply same_aset; try lia. by apply (words_same_weaken _ _ _ _ _ _ Hsame); lia.
    + rewrite !V_top by lia. rewrite V_aset_out, HV by lia. rewrite w_aset, decide_True by lia.
      rewrite Z.add_0_l. rewrite (Hlo i) in He by lia. rewrite pow_S by lia. nia.
  - intros [mc b] s' (l & -> & Hsame & Hmc & Hb & HV). apply HQ; [done|done|]. by split.
Qed.

(** Words that differ from the original ones by a multiple of the power of the
    base are the original ones. *)
Lemma restored l c : same_but (bv db) l 0 dn -> V l 0 dn = value db + BASE ^ dn * c -> upd s dst dn l = s.
Proof.
  pose proof Hdb as (Hdw & Hdn & _). intros (Hl & Hw & Ho) HV. fold dn in Hdn.
  pose proof (V_bound l 0 dn Hw ltac:(lia)) as B1. pose proof (value_bound db Hdb) as B2. fold dn in B2. pose proof (pow_pos dn ltac:(lia)) as HP.
  assert (Hc : c = 0) by (apply (mult_small (BASE ^ dn)); lia). rewrite Hc, Z.mul_0_r, Z.add_0_r in HV.
  assert (Heq : l = bv db).
  { apply words_ext; [done|]. intros i Hi. destruct (Z_lt_ge_dec i dn) as [Hlt|]; [|apply Ho; lia].
    pose proof (V_inj l (bv db) 0 dn Hw Hdw ltac:(lia) HV i ltac:(lia)) as He. by rewrite Z.add_0_l in He. }
  subst l. by apply upd_id.
Qed.

Lemma wp_restore l c (Q : unit -> list bigint -> Prop) :
  sn <= dn <= sn + 1 -> same_but (bv db) l 0 dn -> V l 0 dn = value db - P + BASE ^ dn * c -> Q () s ->
  wp (restore_words dst src f sn dn) Q E (upd s dst dn l).
Proof.
  intros Hle Hsame HV HQ. pose proof Hdb as (Hdw & Hdn & _). pose proof Hsb as (Hsw & Hsn & _). fold dn in Hdn. fold sn in Hsn.
  pose proof Hsame as (Hl & Hw & Ho). unfold restore_words. apply wp_bind.
  assert (Hback : forall l' k, same_but (bv db) l' 0 dn -> V l' 0 dn + BASE ^ dn * k = V l 0 dn + P -> Q () (upd s dst dn l')).
  { intros l' k Hs' Hk. rewrite (restored l' (c - k)); [done|done|]. rewrite HV in Hk. lia. }
  apply (wp_up E 0 sn _ (fun i cc s' => exists l', s' = upd s dst dn l' /\ same_but (bv db) l' 0 dn /\
    (forall j, 0 <= j -> i <= j -> w l' j = w l j) /\
    0 <= fst cc < BASE /\ bit (snd cc) /\ V l' 0 i + BASE ^ i * (fst cc + snd cc) = V l 0 i + f * V (bv sb) 0 i)); [lia| | |].
  - exists l. rewrite !V_0 by lia. split_and!; [done|done|done|unfold BASE; cbn; lia..|by left|cbn; lia].
  - intros i [mc ac] s' Hi (l' & -> & Hs' & Hk & Hmc & Hac & HVi). cbn [fst snd] in *. pose proof Hs' as (Hl' & Hw' & _). rewrite Z.add_0_l.
    pose proof (aget_upd_ne s dst db src dn l' Hd Hne) as Hsrc. rewrite Hs in Hsrc.
    apply wp_bind. eapply wp_rd; [done|lia|]. pose proof (w_range (bv sb) i Hsw) as Hx. pose proof (w_range l' i Hw') as Hy.
    pose proof (mul_range _ _ _ Hx Hf Hmc) as Hm. rewrite (u64_small (_ * f + mc)) by done. set (t := w (bv sb) i * f + mc) in *.
    pose proof (Z.div_mod t BASE ltac:(blia)) as Hdt. pose proof (Z.mod_pos_bound t BASE ltac:(blia)) as Hrt.
    assert (Hqt : 0 <= t / BASE < BASE) by (split; [apply Z.div_pos; blia|apply Z.div_lt_upper_bound; blia]).
    apply wp_bind. eapply wp_rd; [by apply (aget_upd_eq s dst db)|cbn; lia|]. cbn [bv]. rewrite hi_word by done.
    replace (u32 t) with (t mod BASE) by done. apply wp_bind. unfold bit in Hac.
    rewrite (u64_small (w l' i + t mod BASE + ac)) by (unfold BASE in *; lia). rewrite hi_word by (unfold BASE in *; lia).
    set (t2 := w l' i + t mod BASE + ac) in *. change (u32 t2) with (t2 mod BASE).
    pose proof (Z.div_mod t2 BASE ltac:(blia)) as Hdt2. pose proof (Z.mod_pos_bound t2 BASE ltac:(blia)) as Hrt2.
    assert (Hq2 : bit (t2 / BASE)).
    { assert (0 <= t2 / BASE) by (apply Z.div_pos; blia). assert (t2 / BASE < 2) by (apply Z.div_lt_upper_bound; blia). unfold bit. lia. }
    eapply wp_wr; [by apply (aget_upd_eq s dst db)|cbn; lia|]. apply wp_ret. cbn [bn bv fst snd]. rewrite upd_upd. eexists. split_and!; [done| | |lia|lia|done|].
    + apply same_aset; (done || lia).
    + intros j Hj Hij. rewrite w_aset, decide_False by lia. apply Hk; lia.
    + rewrite !V_top, V_aset_out, w_aset, decide_True by lia. rewrite Z.add_0_l, pow_S by lia.
      assert (He : t2 mod BASE + BASE * (t / BASE + t2 / BASE) = w l i + ac + (w (bv sb) i * f + mc)).
      { rewrite <-(Hk i) by lia. fold t. unfold t2 in *. lia. }
      apply (f_equal (Z.mul (BASE ^ i))) in He. clear - He HVi. lia.
  - intros [mc ac] s' (l' & -> & Hs' & Hk & Hmc & Hac & HVi). cbn [fst snd] in *. pose proof Hs' as (Hl' & Hw' & _).
    unfold P in *. unfold value in Hback. fold sn in Hback.
    destruct (Z.ltb_spec sn dn) as [Hlt|Hge]; cbn [andb].
    + assert (Hdn1 : dn = sn + 1) by lia. destruct (negb (mc =? 0) || negb (ac =? 0)) eqn:Hcc.
      * apply wp_bind. eapply wp_rd; [by apply (aget_upd_eq s dst db)|cbn; lia|]. cbn [bv]. rewrite (Hk sn) by lia. pose proof (w_range l sn Hw) as Hy.
        unfold bit in Hac. rewrite u64_small by (unfold BASE in *; lia). unfold u32. fold BASE. set (t := w l sn + mc + ac).
        pose proof (Z.div_mod t BASE ltac:(blia)) as Hdt. pose proof (Z.mod_pos_bound t BASE ltac:(blia)) as Hrt.
        eapply wp_wr; [by apply (aget_upd_eq s dst db)|cbn; lia|]. cbn [bn bv]. rewrite upd_upd. apply (Hback _ (t / BASE)).
        -- apply same_aset; (done || lia).
        -- rewrite Hdn1, !V_top, V_aset_out, w_aset, decide_True by lia. rewrite Z.add_0_l, pow_S by lia. nia.
      * apply orb_false_iff in Hcc as [->%negb_false_iff%Z.eqb_eq ->%negb_false_iff%Z.eqb_eq]. apply wp_ret, (Hback _ 0); [done|].
        rewrite Hdn1, !V_top, Z.add_0_l, (Hk sn) by lia. lia.
    + assert (Hdn1 : dn = sn) by lia. apply wp_ret, (Hback _ (mc + ac)); [done|]. by rewrite Hdn1.
Qed.

(** The step between the two loops. *)
Lemma wp_last_carry l mc b (K : Z * Z * Z -> BM Z) (Q : Z -> list bigint -> Prop) :
  sn <= dn -> 0 <= mc < BASE -> bit b -> taken l sn (mc + b) ->
  (forall l' mc' b' i, 0 <= mc' < BASE -> bit b' -> sn <= i <= dn -> (mc' <> 0 -> i = dn) -> taken l' i (mc' + b') ->
     wp (K (mc', b', i)) Q E (upd s dst dn l')) ->
  wp (c ← (if negb (mc =? 0) && (sn <? dn) then
           u ← rd dst sn; let stmp := s64 (u - mc - b) in
           _ ← wr dst sn (u32 stmp); mret (0, Z.b2z (stmp <? 0), sn + 1)
         else mret (mc, b, sn)); K c) Q E (upd s dst dn l).
Proof.
  intros Hle Hmc Hb Ht HQ. pose proof Hdb as (Hdw & Hdn & _). fold dn in Hdn. pose proof Ht as [Hsame HV]. pose proof Hsame as (Hl & Hw & Ho).
  pose proof Hsb as (_ & Hsn & _). fold sn in Hsn. apply wp_bind. destruct (Z.eqb_spec mc 0) as [H0|H0]; cbn [negb andb]; [|destruct (Z.ltb_spec sn dn) as [Hlt|Hge]].
  - apply wp_ret. apply HQ; (done || lia).
  - apply wp_bind. eapply wp_rd; [by apply (aget_upd_eq s dst db)|cbn; lia|]. cbn [bv]. pose proof (w_range l sn Hw) as Hx. unfold bit in Hb.
    destruct (sub_word (w l sn - mc - b)) as (-> & H1 & H2 & H3); [lia|].
    apply wp_bind. eapply wp_wr; [by apply (aget_upd_eq s dst db)|cbn; lia|]. cbn [bn bv]. rewrite upd_upd. apply wp_ret.
    apply HQ; [blia|done|lia|lia|]. split; [apply same_aset; try lia; apply (words_same_weaken _ _ _ _ _ _ Hsame); lia|].
    rewrite !V_top, V_aset_out, w_aset, decide_True by lia. rewrite Z.add_0_l, HV, pow_S by lia. rewrite (Ho sn) in * by lia.
    apply (f_equal (Z.mul (BASE ^ sn))) in H3. clear - H3. lia.
  - apply wp_ret. apply HQ; (done || lia).
Qed.

(** [_bi_sub_mul_bw] subtracts, or leaves its operand as it was when the
    difference is negative. *)
Lemma wp_sub_mul_bw (Q : Z -> list bigint -> Prop) :
  f <> 0 \/ sn <= dn ->
  (P <= value db -> forall d, big_ok d -> value d = value db - P -> alen (bv d) = alen (bv db) -> Q 0 (aset s dst d)) ->
  (value db < P -> Q 1 s) -> wp (bi_sub_mul_bw dst src f) Q E s.
Proof.
  intros Hfs H0 H1. pose proof Hdb as (Hdw & Hdn & _). pose proof Hsb as (Hsw & Hsn & _). fold dn in Hdn. fold sn in Hsn.
  pose proof (value_bound db Hdb) as Bd. pose proof (value_bound sb Hsb) as Bs. fold dn in Bd. fold sn in Bs.
  unfold bi_sub_mul_bw. apply wp_bind. eapply wp_get_n; [exact Hs|]. apply wp_bind. eapply wp_get_n; [exact Hd|]. fold sn. fold dn.
  destruct (Z.gtb_spec sn dn) as [Hgt|Hle].
  { apply wp_ret, H1. pose proof (value_lt_len db sb Hdb Hsb ltac:(unfold sn, dn in *; lia)). unfold P. nia. }
  destruct ((sn =? 0) || (f =? 0)) eqn:Hz.
  { assert (HP : P = 0).
    { unfold P. apply orb_true_iff in Hz as [Hz%Z.eqb_eq|Hz%Z.eqb_eq]; [|by rewrite Hz]. by rewrite (proj2 (value_zero sb Hsb) Hz), Z.mul_0_r. }
    apply wp_ret. rewrite <-(aset_id s dst db Hd). apply H0; [lia|done|lia|done]. }
  apply orb_false_iff in Hz as [Hsn0%Z.eqb_neq Hf0%Z.eqb_neq].
  apply wp_sub_mul_loop; [done|]. intros l1 mc1 b1 Hmc1 Hb1 Ht1.
  apply wp_last_carry; [done..|]. intros l2 mc b i Hmc Hb Hi Hmi Ht2.
  assert (Hgo : forall b', bit b' -> forall l, taken l dn (mc + b') ->
    wp (if (mc =? 0) && (b' =? 0) then n ← trim dst (Z.to_nat dn); _ ← set_n dst n; mret 0
        else _ ← restore_words dst src f sn dn; mret 1) Q E (upd s dst dn l)).
  { intros b' Hb' l [Hsame HV]. pose proof Hsame as (Hl & Hw & _). fold (value db) in HV. pose proof (V_bound l 0 dn Hw ltac:(lia)) as Bl.
    pose proof (pow_pos dn ltac:(lia)) as HPd. unfold bit in Hb'. change (V (bv db) 0 dn) with (value db) in HV.
    destruct ((mc =? 0) && (b' =? 0)) eqn:Hc.
    - apply andb_true_iff in Hc as [->%Z.eqb_eq ->%Z.eqb_eq]. apply wp_bind. eapply wp_trim; [by apply (aget_upd_eq s dst db)|cbn; lia|].
      cbn [bv]. rewrite Z2Nat.id by lia. intros n Hn Htop HVn. apply wp_bind. eapply wp_set_n; [by apply (aget_upd_eq s dst db)|]. apply wp_ret.
      rewrite upd_upd. cbn [bv]. apply H0; [lia|split_and!; cbn; (done || lia)|unfold value at 1; cbn [bn bv]; lia|cbn; lia].
    - assert (1 <= mc + b') by (apply andb_false_iff in Hc as [Hc%Z.eqb_neq|Hc%Z.eqb_neq]; lia).
      assert (Hneg : value db < P) by (clear - HV Bl HPd H; nia). apply wp_bind. eapply wp_restore; [|exact Hsame|exact HV|by apply wp_ret, H1].
      split; [done|]. destruct (Z_le_gt_dec dn (sn + 1)) as [|Hbig]; [done|]. exfalso.
      pose proof (value_lower db Hdb ltac:(unfold dn in *; lia)) as Ld. fold dn in Ld.
      assert (BASE ^ (sn + 1) <= BASE ^ (dn - 1)) by (apply Z.pow_le_mono_r; blia). rewrite pow_S in * by lia. unfold P in Hneg.
      assert (f * value sb <= BASE * BASE ^ sn) by (apply Z.mul_le_mono_nonneg; lia). lia. }
  apply wp_bind. replace (dn - i) with (Z.of_nat (Z.to_nat (dn - i))) by lia. rewrite Nat2Z.id. destruct (Z.eq_dec mc 0) as [->|Hmc0].
  - eapply (wp_borrow i b l2); [lia|lia|done|exact Ht2|]. intros l b' Hb' Ht. by apply Hgo.
  - rewrite (Hmi Hmc0) in *. rewrite Z.sub_diag. cbn [Z.to_nat]. change (zrange dn 0) with (@nil Z). cbn [borrow_words]. apply wp_ret. by apply Hgo.
Qed.
End SubMul.
End Wp.

(** ** The estimate of [_bi_hdiv_rem_b] *)

(** The theorems 1 and 2 of the comment below the function: for a quotient of
    at most 2^15 the leading words give the quotient or one more. *)
Lemma hdiv_estimate N D S :
  0 < S -> 0 < D -> 0 <= N -> N / D <= 2 ^ 15 -> 2 ^ 31 <= N / S < 2 ^ 32 ->
  2 ^ 15 <= D / S /\ N / S / (D / S + 1) <= N / D <= N / S / (D / S) /\ N / S / (D / S) <= N / S / (D / S + 1) + 1.
Proof.
  intros HS HD HN Hq Hx. set (x := N / S) in *. set (y := D / S). set (q := N / D) in *.
  pose proof (Z.div_mod N S ltac:(lia)) as Hxd. pose proof (Z.mod_pos_bound N S ltac:(lia)) as Hxm. fold x in Hxd.
  pose proof (Z.div_mod D S ltac:(lia)) as Hyd. pose proof (Z.mod_pos_bound D S ltac:(lia)) as Hym. fold y in Hyd.
  pose proof (Z.div_mod N D ltac:(lia)) as Hqd. pose proof (Z.mod_pos_bound N D ltac:(lia)) as Hqm. fold q in Hqd.
  assert (Hq0 : 0 <= q) by (apply Z.div_pos; lia). assert (Hy0 : 0 <= y) by (apply Z.div_pos; lia).
  assert (Hup : x < (q + 1) * (y + 1)).
  { assert (N < (q + 1) * D) by lia. assert ((q + 1) * D <= (q + 1) * (S * (y + 1))) by (apply Z.mul_le_mono_nonneg_l; lia).
    apply (Z.mul_lt_mono_pos_l S); [done|]. lia. }
  assert (Hy : 65534 <= y) by (clear - Hup Hx Hq Hy0 Hq0; nia).
  split; [lia|]. split; [split|].
  - pose proof (Z.div_mod x (y + 1) ltac:(lia)) as H1. pose proof (Z.mod_pos_bound x (y + 1) ltac:(lia)) as H2.
    assert (x / (y + 1) < q + 1); [|lia]. apply Z.div_lt_upper_bound; lia.
  - apply Z.div_le_lower_bound; [lia|]. assert (q * D <= N) by lia. assert (q * (S * y) <= q * D) by (apply Z.mul_le_mono_nonneg_l; lia).
    assert (S * (y * q) < S * (x + 1)) by lia. assert (y * q < x + 1) by (apply (Z.mul_lt_mono_pos_l S); lia). lia.
  - assert (Hxy : x <= (q + 1) * (y + 1)) by lia. assert (Hxy2 : x < (2 ^ 15 + 1) * (y + 1)) by (clear - Hup Hq Hy0; nia).
    pose proof (Z.div_mod x (y + 1) ltac:(lia)) as H1. pose proof (Z.mod_pos_bound x (y + 1) ltac:(lia)) as H2.
    set (r := x / (y + 1)) in *. assert (Hr : r <= 2 ^ 15) by (assert (r < 2 ^ 15 + 1); [apply Z.div_lt_upper_bound; lia|lia]).
    assert (x / y < r + 2); [|lia]. apply Z.div_lt_upper_bound; lia.
Qed.

Lemma top_div b : big_ok b -> bn b <> 0 -> value b / BASE ^ (bn b - 1) = w (bv b) (bn b - 1).
Proof.
  intros (Hw & Hn & _) H0. pose proof (pow_pos (bn b - 1) ltac:(lia)). pose proof (V_bound (bv b) 0 (bn b - 1) Hw ltac:(lia)).
  symmetry. apply Z.div_unique with (V (bv b) 0 (bn b - 1)); [lia|]. unfold value. replace (bn b) with (bn b - 1 + 1) at 1 by lia.
  rewrite V_top, Z.add_0_l by lia. lia.
Qed.

Lemma lead_div b shift : big_ok b -> 0 < shift < 32 -> 2 <= bn b -> w (bv b) (bn b - 1) < 2 ^ (32 - shift) ->
  value b / (BASE ^ (bn b - 2) * 2 ^ (32 - shift)) = shl_word (w (bv b) (bn b - 1)) (w (bv b) (bn b - 2)) shift.
Proof.
  intros (Hw & Hn & _) Hs H2 Htop. pose proof (w_range _ (bn b - 1) Hw) as H1. pose proof (w_range _ (bn b - 2) Hw) as H3.
  destruct (shl_word_spec _ _ shift H1 H3 ltac:(lia)) as [_ ->]. rewrite (Z.div_small _ (2 ^ (32 - shift))) by lia. rewrite Z.mul_0_r, Z.sub_0_r.
  assert (0 < 2 ^ (32 - shift)) by (apply Z.pow_pos_nonneg; lia). pose proof (pow_pos (bn b - 2) ltac:(lia)).
  rewrite <-Z.div_div by lia. assert (Hd : value b / BASE ^ (bn b - 2) = BASE * w (bv b) (bn b - 1) + w (bv b) (bn b - 2)).
  { symmetry. apply Z.div_unique with (V (bv b) 0 (bn b - 2)); [left; by apply V_bound; [|lia]|]. unfold value. replace (bn b) with (bn b - 2 + 1 + 1) at 1 by lia.
    rewrite !V_top, pow_S, !Z.add_0_l by lia. replace (bn b - 2 + 1) with (bn b - 1) by lia. ring. }
  rewrite Hd, <-(pow_base shift) by lia. replace (2 ^ shift * 2 ^ (32 - shift) * w (bv b) (bn b - 1)) with (w (bv b) (bn b - 1) * 2 ^ shift * 2 ^ (32 - shift)) by ring.
  by rewrite Z.div_add_l by lia.
Qed.

(** ** [_bi_hdiv_rem_b] *)

Section Hdiv.
Context (E : Z -> list bigint -> Prop) (num den : Z) (nb db : bigint) (s : list bigint) (Q : Z -> list bigint -> Prop).
Context (Hne : num <> den) (Hn : aget s num = Some nb) (Hd : aget s den = Some db) (Hnb : big_ok nb) (Hdb : big_ok db) (Hdn : bn db <> 0).
Context (Hquot : value nb / value db <= 2 ^ 15).
Context (HQ : forall r, big_ok r -> value r = value nb mod value db -> Q (value nb / value db) (aset s num r)).

Lemma den_pos : 0 < value db.
Proof. pose proof (value_lower db Hdb Hdn). destruct Hdb as (_ & ? & _). pose proof (pow_pos (bn db - 1) ltac:(lia)). lia. Qed.

Lemma hdiv_less : value nb < value db -> Q 0 s.
Proof.
  intros Hlt. pose proof (value_bound nb Hnb). rewrite <-(aset_id s num nb Hn). replace 0 with (value nb / value db) by (apply Z.div_small; lia).
  apply HQ; [done|]. symmetry. apply Z.mod_small. lia.
Qed.

(** Subtracting [q] times the denominator: at most the quotient. *)
Lemma hdiv_sub q (K : Z -> BM Z) :
  0 <= q < BASE -> bn db <= bn nb -> value nb / value db <= q <= value nb / value db + 1 ->
  (forall r, q = value nb / value db -> big_ok r -> value r = value nb mod value db -> wp (K 0) Q E (aset s num r)) ->
  (q = value nb / value db + 1 -> wp (K 1) Q E s) ->
  wp (neg ← bi_sub_mul_bw num den q; K neg) Q E s.
Proof.
  intros Hq Hle Hqv H0 H1. pose proof den_pos as Hpos. pose proof (Z.div_mod (value nb) (value db) ltac:(lia)) as Hdm.
  pose proof (Z.mod_pos_bound (value nb) (value db) Hpos) as Hm. apply wp_bind.
  eapply (wp_sub_mul_bw E num den q nb db); [done|exact Hn|exact Hd|done|done|done|by right| |].
  - intros Hle2 r Hr Hv _. apply H0; [|done|]; destruct (Z.eq_dec q (value nb / value db)) as [He|He]; try done.
    + assert (q = value nb / value db + 1) as -> by lia. lia.
    + rewrite Hv, He. lia.
    + assert (q = value nb / value db + 1) as -> by lia. lia.
  - intros Hlt. apply H1. destruct (Z.eq_dec q (value nb / value db)) as [->|]; [|lia]. lia.
Qed.

(** The code from the estimate on, for the leading words [x] and [y]. *)
Lemma wp_hdiv_tail x y S :
  0 < S -> bn db <= bn nb -> x = value nb / S -> y = value db / S -> 2 ^ 31 <= x < BASE -> y < BASE ->
  wp (_ ← assert (y >=? 2 ^ 15);
      let q := x / y in
      if q =? 0 then c ← bi_cmp_bb num den; _ ← assert (c <? 0); mret 0
      else if (if negb (u32 (y + 1) =? 0) then q =? x / u32 (y + 1) else negb (u32 (x + 1) =? 0)) then
        neg ← bi_sub_mul_bw num den q; _ ← assert (neg =? 0);
        c ← bi_cmp_bb num den; _ ← assert (c <? 0); mret q
      else
        neg ← bi_sub_mul_bw num den q;
        q ← (if negb (neg =? 0) then
               neg ← bi_sub_mul_bw num den (u32 (q - 1)); _ ← assert (neg =? 0); mret (u32 (q - 1))
             else mret q);
        c ← bi_cmp_bb num den; _ ← assert (c <? 0); mret q) Q E s.
Proof.
  intros HS Hle Hx Hy Hxr Hyr. pose proof den_pos as Hpos. pose proof (value_bound nb Hnb) as Hvn.
  destruct (hdiv_estimate (value nb) (value db) S HS Hpos ltac:(lia) Hquot) as (Hy15 & [Hlo Hhi] & Hone); [rewrite <-Hx; blia|].
  rewrite <-Hx, <-Hy in *. apply wp_bind, wp_assert; [apply Z.geb_le; lia|]. cbn zeta.
  set (q0 := value nb / value db) in *. assert (Hq0 : 0 <= q0) by (apply Z.div_pos; lia).
  assert (Hqr : 0 <= x / y < BASE) by (split; [apply Z.div_pos; blia|apply Z.div_lt_upper_bound; [lia|unfold BASE in *; nia]]).
  assert (Hend : forall r v, big_ok r -> value r = value nb mod value db -> v = q0 ->
    wp (c ← bi_cmp_bb num den; _ ← assert (c <? 0); mret v) Q E (aset s num r)).
  { intros r v Hr Hv ->. pose proof (aget_Some_range _ _ _ Hn) as Rn. apply wp_bind.
    eapply (wp_cmp_bb E num den r db); [apply aget_aset_eq; lia|by rewrite aget_aset_ne by lia|done|done|].
    pose proof (Z.mod_pos_bound (value nb) (value db) Hpos). apply wp_bind, wp_assert; [apply Z.ltb_lt, Z.sgn_neg_iff; lia|].
    apply wp_ret, HQ; done. }
  destruct (Z.eqb_spec (x / y) 0) as [H0|H0].
  { assert (Hz : q0 = 0) by lia. rewrite <-(aset_id s num nb Hn). apply Hend; [done| |done]. unfold q0 in Hz.
    pose proof (Z.div_mod (value nb) (value db) ltac:(lia)). lia. }
  match goal with |- wp (if ?b then _ else _) _ _ _ => destruct b eqn:Hex end.
  - assert (He : x / y = q0).
    { unfold u32 in Hex. fold BASE in Hex. destruct (Z.eq_dec (y + 1) BASE) as [Hyb|Hyb].
      - rewrite Hyb, Z.mod_same in Hex by blia. cbn [Z.eqb negb] in Hex. assert (x / y < 1); [|lia].
        apply Z.div_lt_upper_bound; [lia|]. apply negb_true_iff, Z.eqb_neq in Hex. destruct (Z.eq_dec (x + 1) BASE) as [Hxb|Hxb]; [by rewrite Hxb, Z.mod_same in Hex by blia|lia].
      - rewrite Z.mod_small in Hex by blia. rewrite (proj2 (Z.eqb_neq (y + 1) 0)) in Hex by lia. apply Z.eqb_eq in Hex. lia. }
    apply hdiv_sub; [done|done|fold q0; lia| |fold q0; lia]. intros r _ Hr Hv. apply wp_bind, wp_assert; [done|]. by apply Hend.
  - apply hdiv_sub; [done|done|fold q0; lia| |].
    + intros r He Hr Hv. cbn [Z.eqb negb]. apply wp_bind, wp_ret. by apply Hend.
    + intros He. fold q0 in He. cbn [Z.eqb negb]. rewrite u32_small by blia. apply wp_bind.
      pose proof (Z.div_mod (value nb) (value db) ltac:(lia)) as Hdm. fold q0 in Hdm. pose proof (Z.mod_pos_bound (value nb) (value db) Hpos) as Hm.
      apply wp_bind. eapply (wp_sub_mul_bw E num den (x / y - 1) nb db); [done|exact Hn|exact Hd|done|done|lia|by right| |].
      * intros _ r Hr Hv _. apply wp_bind, wp_assert; [done|]. apply wp_ret. apply Hend; [done| |lia]. rewrite Hv, He. lia.
      * intros Hlt. replace (x / y - 1) with q0 in Hlt by lia. lia.
Qed.

(** [_bi_hdiv_rem_b] divides, with a quotient of at most 2^15. *)
Lemma wp_hdiv : wp (bi_hdiv_rem_b num den) Q E s.
Proof.
  pose proof den_pos as Hpos. pose proof Hnb as (Hnw & Hnn & Hnt). pose proof Hdb as (Hdw & Hdd & Hdt). specialize (Hdt Hdn).
  pose proof (value_bound nb Hnb) as Bn. pose proof (value_bound db Hdb) as Bd. unfold bi_hdiv_rem_b.
  apply wp_bind. eapply wp_get_n; [exact Hd|]. apply wp_bind, wp_assert; [by apply negb_true_iff, Z.eqb_neq|].
  apply wp_bind. eapply wp_rd; [exact Hd|lia|]. apply wp_bind, wp_assert; [by apply negb_true_iff, Z.eqb_neq|].
  apply wp_bind. eapply wp_get_n; [exact Hn|]. destruct ((bn nb =? 0) || (bn nb <? bn db)) eqn:Hsmall.
  { apply wp_ret, hdiv_less. apply orb_true_iff in Hsmall as [H0%Z.eqb_eq|Hlt%Z.ltb_lt]; [|by apply value_lt_len].
    by rewrite (proj2 (value_zero nb Hnb) H0). }
  apply orb_false_iff in Hsmall as [H0%Z.eqb_neq Hle%Z.ltb_ge]. specialize (Hnt H0).
  assert (Hlen : bn nb <= bn db + 1).
  { apply bn_upper; [done|lia|]. rewrite pow_S by lia. pose proof (Z.div_mod (value nb) (value db) ltac:(lia)) as Hdm.
    pose proof (Z.mod_pos_bound (value nb) (value db) Hpos). apply (Z.lt_le_trans _ ((2 ^ 15 + 1) * value db)); [nia|].
    rewrite Z.mul_comm. apply Z.mul_le_mono_nonneg; blia. }
  apply wp_bind, wp_assert; [by apply Z.leb_le|]. apply wp_bind. eapply wp_rd; [exact Hn|lia|].
  apply wp_bind, wp_assert; [by apply negb_true_iff, Z.eqb_neq|].
  pose proof (w_range _ (bn nb - 1) Hnw) as Rn. pose proof (w_range _ (bn db - 1) Hdw) as Rd.
  destruct (Z.eqb_spec (bn nb) 1) as [H1|H1].
  { assert (Hd1 : bn db = 1) by lia. assert (Hvn : value nb = w (bv nb) (bn nb - 1)) by (unfold value; rewrite H1; apply V_1).
    assert (Hvd : value db = w (bv db) (bn db - 1)) by (unfold value; rewrite Hd1; apply V_1). rewrite <-Hvn, <-Hvd.
    assert (0 <= value nb / value db) by (apply Z.div_pos; lia). apply hdiv_sub; [blia|lia|lia| |lia].
    intros r _ Hr Hv. apply wp_bind, wp_assert; [done|]. by apply wp_ret, HQ. }
  destruct ((bn nb =? bn db) && (w (bv nb) (bn nb - 1) <? w (bv db) (bn db - 1))) eqn:Htop.
  { apply wp_ret, hdiv_less. apply andb_true_iff in Htop as [He%Z.eqb_eq Hlt%Z.ltb_lt]. rewrite He in Hlt. by apply value_lt_top. }
  assert (Htops : bn nb = bn db -> w (bv db) (bn db - 1) <= w (bv nb) (bn nb - 1)).
  { intros He. rewrite (proj2 (Z.eqb_eq _ _) He) in Htop. by apply Z.ltb_ge in Htop. }
  destruct (fls_shift (w (bv nb) (bn nb - 1)) ltac:(lia)) as [Hs Hsh]. unfold BI_WORDSIZE.
  remember (32 - fls (w (bv nb) (bn nb - 1))) as shift eqn:Hse. apply wp_bind.
  destruct (Z.eqb_spec shift 0) as [Hs0|Hs0].
  - rewrite Hs0, Z.pow_0_r, Z.mul_1_r in Hsh. assert (He : bn nb = bn db).
    { destruct (Z.eq_dec (bn nb) (bn db)) as [|Hno]; [done|]. exfalso. assert (Hb : bn nb = bn db + 1) by lia.
      pose proof (value_lower nb Hnb H0) as Hl. rewrite Hb in *. replace (bn db + 1 - 1) with (bn db) in * by lia.
      assert (HV : value nb = V (bv nb) 0 (bn db) + BASE ^ bn db * w (bv nb) (bn db)) by (unfold value; rewrite Hb, V_top by lia; by rewrite Z.add_0_l).
      pose proof (V_bound (bv nb) 0 (bn db) Hnw ltac:(lia)). assert (2 ^ 31 * value db <= value nb) by nia.
      assert (2 ^ 31 <= value nb / value db) by (apply Z.div_le_lower_bound; lia). lia. }
    apply wp_bind, wp_assert; [by apply Z.eqb_eq|]. apply wp_ret. pose proof (pow_pos (bn nb - 1) ltac:(lia)).
    eapply (wp_hdiv_tail _ _ (BASE ^ (bn nb - 1))); [done|done|by rewrite top_div|rewrite He; by rewrite top_div|done|lia].
  - assert (H32 : w (bv nb) (bn nb - 1) < 2 ^ (32 - shift)).
    { pose proof (pow_base shift ltac:(lia)). assert (0 < 2 ^ shift) by (apply Z.pow_pos_nonneg; lia). apply (Z.mul_lt_mono_pos_l (2 ^ shift)); lia. }
    assert (HS : 0 < BASE ^ (bn nb - 2) * 2 ^ (32 - shift)) by (apply Z.mul_pos_pos; [apply pow_pos; lia|apply Z.pow_pos_nonneg; lia]).
    pose proof (w_range _ (bn nb - 2) Hnw) as Rn2.
    destruct (shl_word_spec _ _ shift Rn Rn2 ltac:(lia)) as [Hxr Hxe]. rewrite (Z.div_small _ (2 ^ (32 - shift))) in Hxe by lia.
    assert (Hx31 : 2 ^ 31 <= shl_word (w (bv nb) (bn nb - 1)) (w (bv nb) (bn nb - 2)) shift).
    { rewrite Hxe. assert (0 <= w (bv nb) (bn nb - 2) / 2 ^ (32 - shift)) by (apply Z.div_pos; [lia|apply Z.pow_pos_nonneg; lia]). lia. }
    apply wp_bind. eapply wp_rd; [exact Hn|lia|]. destruct (Z.ltb_spec (bn db) (bn nb)) as [Hlt|Hge].
    + apply wp_ret. rewrite Z.shiftr_div_pow2 by lia. assert (Hy : w (bv db) (bn db - 1) / 2 ^ (32 - shift) = value db / (BASE ^ (bn nb - 2) * 2 ^ (32 - shift))).
      { replace (bn nb - 2) with (bn db - 1) by lia. pose proof (pow_pos (bn db - 1) ltac:(lia)). rewrite <-Z.div_div by (apply Z.pow_nonzero || lia; lia). by rewrite top_div. }
      eapply (wp_hdiv_tail _ _ (BASE ^ (bn nb - 2) * 2 ^ (32 - shift))); [done|done|by symmetry; apply lead_div; (done || lia)|exact Hy|lia|].
      apply Z.div_lt_upper_bound; [apply Z.pow_pos_nonneg; lia|]. assert (1 <= 2 ^ (32 - shift)) by (apply (Z.pow_le_mono_r 2 0); lia). nia.
    + assert (He : bn nb = bn db) by lia. apply wp_bind. eapply wp_rd; [exact Hd|lia|]. apply wp_ret.
      pose proof (w_range _ (bn db - 2) Hdw) as Rd2. destruct (shl_word_spec _ _ shift Rd Rd2 ltac:(lia)) as [Hyr _].
      eapply (wp_hdiv_tail _ _ (BASE ^ (bn nb - 2) * 2 ^ (32 - shift))); [done|done|by symmetry; apply lead_div; (done || lia)| |lia|lia].
      rewrite He in *. symmetry. apply lead_div; [done|lia|lia|]. specialize (Htops eq_refl). lia.
Qed.
End Hdiv.
