(* ===== verification/BigIntProps.v ===== *)
(** Division of the big integers is division, and three places where the code
    of the big integers does not do what its comments say. *)

From S2P Require Import Prelude BigInt BigIntFacts BigIntArith BigIntShift BigIntDiv BigIntHdiv.

Definition no_error : Z -> list bigint -> Prop := fun _ _ => False.

Lemma wp_run {A} (m : BM A) (P : A -> list bigint -> Prop) s : wp m P no_error s -> exists a s', m s = Done a s' /\ P a s'.
Proof. unfold wp, no_error. destruct (m s); naive_solver. Qed.

(** A bigint of [cap] words. *)
Fixpoint words_of (n : nat) (z : Z) : list Z := match n with O => [] | S n' => z mod BASE :: words_of n' (z / BASE) end.
Definition big_of (cap : nat) (z : Z) : bigint := mk_big (if z =? 0 then 0 else Z.log2 z / 32 + 1) (words_of cap z).

(** Evaluates a run without computing the proof of its result. *)
Ltac big_ok_tac := split_and!; [repeat constructor; vm_compute; (discriminate || done)|vm_compute; done..|intros _; vm_compute; done].

(** ** Properties *)

(** C28: [_bi_div_rem_bb] (Knuth's algorithm D) is division: for every
    numerator and denominator other than zero, with the room its comment asks
    for, it returns 0 with quotient and remainder of the two numbers, both
    normalized, touches no other bigint and fails no assertion. It leaves an
    array in one place: it may read the word behind the denominator, or behind
    the shifted copy of it, and divides correctly for every value [past] found
    there; where that word cannot be read the division faults
    ([add_back_faults]). *)
Theorem div_rem_bb_divides past p pw q qw d s nb qb db :
  p <> q -> p <> d -> q <> d -> 0 <= past < 2 ^ 32 ->
  aget s p = Some nb -> aget s q = Some qb -> aget s d = Some db ->
  big_ok nb -> words (bv qb) -> big_ok db -> value db <> 0 ->
  bn nb + 1 <= pw <= alen (bv nb) -> 0 < qw <= alen (bv qb) -> bn nb - bn db + 1 <= qw ->
  exists r qd, bi_div_rem_bb (Some past) p pw q qw d s = Done 0 (aset (aset s p r) q qd) /\
    big_ok r /\ big_ok qd /\ value qd = value nb / value db /\ value r = value nb mod value db.
Proof.
  intros Hpq Hpd Hqd Hpast Hp Hq Hd Hnb Hqb Hdb Hz Hpw Hqw Hroom.
  assert (Hdn : bn db <> 0) by (intros H; by apply Hz, value_zero).
  destruct (wp_run (bi_div_rem_bb (Some past) p pw q qw d) (fun a s' => exists r qd, a = 0 /\ s' = aset (aset s p r) q qd /\
    big_ok r /\ big_ok qd /\ value qd = value nb / value db /\ value r = value nb mod value db) s) as (a & s' & Hr & r & qd & -> & -> & H).
  - apply (wp_div_rem_bb no_error past p pw q _ Hpq Hpast d qw s nb qb db); try done.
    intros r qd H1 H2 H3 H4. by exists r, qd.
  - by exists r, qd.
Qed.

(** The example has a quotient for which the step that adds back is needed. *)
Definition ex_den : bigint := big_of 3 (2 ^ 95 + 1).
Definition ex_num : bigint := big_of 6 ((2 ^ 31 - 1) * 2 ^ 96 + 2 ^ 95).

Lemma div_rem_bb_divides_witness :
  big_ok ex_num /\ big_ok ex_den /\
  exists r qd, bi_div_rem_bb (Some 7) 0 6 1 3 2 [ex_num; mk_big 0 [0; 0; 0]; ex_den] = Done 0 [r; qd; ex_den] /\ value qd = 4294967294.
Proof.
  assert (H1 : big_ok ex_num) by big_ok_tac. assert (H2 : big_ok ex_den) by big_ok_tac. split; [exact H1|split; [exact H2|]].
  destruct (div_rem_bb_divides 7 0 6 1 3 2 [ex_num; mk_big 0 [0; 0; 0]; ex_den] ex_num (mk_big 0 [0; 0; 0]) ex_den)
    as (r & qd & Hr & _ & _ & Hq & _); try (lia || reflexivity || exact H1 || exact H2).
  - repeat constructor; vm_compute; (discriminate || done).
  - vm_compute. discriminate.
  - vm_compute. split; discriminate.
  - vm_compute. split; (discriminate || reflexivity).
  - vm_compute. discriminate.
  - exists r, qd. split; [exact Hr|]. rewrite Hq. vm_compute. reflexivity.
Defined.

(** [_bi_hdiv_rem_b] returns the quotient and leaves the remainder in its
    first argument, without a failed assertion, for every quotient of at most
    2^15, although it looks at two words of each number only: the two theorems
    of the comment that follows the function hold for all numbers. *)
Theorem hdiv_rem_b_divides num den s nb db :
  num <> den -> aget s num = Some nb -> aget s den = Some db -> big_ok nb -> big_ok db -> value db <> 0 ->
  value nb / value db <= 2 ^ 15 ->
  exists r, bi_hdiv_rem_b num den s = Done (value nb / value db) (aset s num r) /\ big_ok r /\ value r = value nb mod value db.
Proof.
  intros Hne Hn Hd Hnb Hdb Hz Hq. assert (Hdn : bn db <> 0) by (intros H; by apply Hz, value_zero).
  destruct (wp_run (bi_hdiv_rem_b num den) (fun a s' => exists r, a = value nb / value db /\ s' = aset s num r /\ big_ok r /\ value r = value nb mod value db) s)
    as (a & s' & Hr & r & -> & -> & H).
  - apply (wp_hdiv no_error num den nb db s _); try done. intros r H1 H2. by exists r.
  - by exists r.
Qed.

Lemma hdiv_rem_b_divides_witness :
  exists r, bi_hdiv_rem_b 0 1 [big_of 4 (10 ^ 28 * 32768 + 77); big_of 3 (10 ^ 28)] = Done 32768 [r; big_of 3 (10 ^ 28)] /\ value r = 77.
Proof.
  assert (H1 : big_ok (big_of 4 (10 ^ 28 * 32768 + 77))) by big_ok_tac. assert (H2 : big_ok (big_of 3 (10 ^ 28))) by big_ok_tac.
  destruct (hdiv_rem_b_divides 0 1 [big_of 4 (10 ^ 28 * 32768 + 77); big_of 3 (10 ^ 28)] _ _ ltac:(lia) eq_refl eq_refl H1 H2) as (r & Hr & _ & Hv).
  - vm_compute. discriminate.
  - vm_compute. discriminate.
  - exists r. split; [|rewrite Hv; vm_compute; reflexivity]. rewrite Hr. reflexivity.
Defined.

(** ** Deviations *)

(** [_bi_hdiv_rem_b] fails an assertion for quotients that its description in
    [emx/bigint.h] allows: here 2^63 / 2^42. *)
Lemma hdiv_big_quotient_panics : bi_hdiv_rem_b 0 1 [mk_big 2 [0; 2 ^ 31; 0]; mk_big 2 [0; 2 ^ 10]] = Fault Panic.
Proof. vm_compute. reflexivity. Qed.

(** [_bi_shr_b] by a multiple of 32 reads and writes behind its arrays: the
    result has one word, the loop runs over the words of the source. *)
Lemma shr_b_overruns : bi_shr_b 1 1 0 32 [mk_big 2 [1; 2]; mk_big 0 [0]] = Fault Ub.
Proof. vm_compute. reflexivity. Qed.

(** [_bi_div_add_back] reads the word behind the denominator: the word above
    the sum is what it found there. *)
Lemma add_back_reads_past :
  let u := [mk_big 2 [2 ^ 32 - 1; 2 ^ 32 - 1]; mk_big 1 [1]] in
  bi_div_add_back (Some 5) 0 0 1 1 u = Done () [mk_big 2 [0; 5]; mk_big 1 [1]] /\ bi_div_add_back (Some 9) 0 0 1 1 u = Done () [mk_big 2 [0; 9]; mk_big 1 [1]].
Proof. vm_compute. by split. Qed.

(** Where the word behind the array cannot be read, the division of the example
    above is undefined. *)
Lemma add_back_faults :
  bi_div_rem_bb None 0 6 1 3 2 [ex_num; mk_big 0 [0; 0; 0]; ex_den] = Fault Ub /\
  bi_div_add_back None 0 0 1 1 [mk_big 2 [2 ^ 32 - 1; 2 ^ 32 - 1]; mk_big 1 [1]] = Fault Ub.
Proof. vm_compute. by split. Qed.
