(* ===== verification/Conv.v ===== *)
(** Conversion between integers and strings
    ([src/src/emx/src/lib/conv/strtol.c], compiled four times, [ltoa.c],
    [ultoa.c], [lltoa.c], [ulltoa.c], [atoi.c], [atol.c], [atoll.c]). A string
    is an array of bytes, a pointer an index into it; a read behind the array
    is [None]. [isspace] is the locale's. [ConvFacts.v] and [ConvProps.v] have
    the theorems. *)

From S2P Require Import Prelude.

(** ** Data *)

Definition NUL : Z := 0.
Definition MINUS : Z := 45.
Definition PLUS : Z := 43.
Definition ZERO : Z := 48.
Definition SPACE : Z := 32.
Definition TAB : Z := 9.

(** [__digits] *)
Definition digits : list Z := zrange 48 10 ++ zrange 97 26.

(** The types of the four functions: [TYPE] has [bits] bits. *)
Record ty := mk_ty { bits : Z; is_unsigned : bool }.
Definition t_long : ty := mk_ty 32 false.
Definition t_ulong : ty := mk_ty 32 true.
Definition t_llong : ty := mk_ty 64 false.
Definition t_ullong : ty := mk_ty 64 true.

(** [MAX], [MIN], and the conversions to [UTYPE] and [TYPE]. *)
Definition MAX (t : ty) : Z := if is_unsigned t then 2 ^ bits t - 1 else 2 ^ (bits t - 1) - 1.
Definition MIN (t : ty) : Z := - 2 ^ (bits t - 1).
Definition utype (t : ty) (z : Z) : Z := z mod 2 ^ bits t.
Definition type (t : ty) (z : Z) : Z :=
  if is_unsigned t then utype t z else (z + 2 ^ (bits t - 1)) mod 2 ^ bits t - 2 ^ (bits t - 1).

(** What [strtol] gives back: the value, [*end_ptr] and a new [errno]. *)
Record result := mk_result { res : Z; endp : Z; err : option Z }.

Definition EDOM : Z := 33.

(** ** Integer to string *)

(** [__uldivmod] and [__ulldivmod] *)
Definition uldivmod (num den : Z) : Z * Z := (num / den, num mod den).

(** [do ... while (value)]: the array [digits] in the order it is filled;
    [room]: its size. *)
Fixpoint put_digits (room : nat) (value radix : Z) : option (list Z) :=
  match room with
  | O => None
  | S room' =>
      let '(value, rem) := uldivmod value radix in
      d ← aget digits rem;
      if value =? 0 then Some [d] else ds ← put_digits room' value radix; Some (d :: ds)
  end.

(** The functions give the bytes they store. *)
Definition ultoa (value radix : Z) : option (list Z) :=
  if (radix <? 2) || (radix >? 36) then Some [NUL]
  else ds ← put_digits 32 value radix; Some (rev ds ++ [NUL]).

Definition ltoa (value radix : Z) : option (list Z) :=
  if (radix <? 2) || (radix >? 36) then Some [NUL]
  else
    let '(sign, value) := if (value <? 0) && (radix =? 10) then ([MINUS], s32 (- value)) else ([], value) in
    ds ← put_digits 32 (u32 value) radix; Some (sign ++ rev ds ++ [NUL]).

Definition ulltoa (value radix : Z) : option (list Z) :=
  if (radix <? 2) || (radix >? 36) then Some [NUL]
  else ds ← put_digits 64 value radix; Some (rev ds ++ [NUL]).

Definition lltoa (value radix : Z) : option (list Z) :=
  if (radix <? 2) || (radix >? 36) then Some [NUL]
  else
    let '(sign, x) := if (value <? 0) && (radix =? 10) then ([MINUS], utype t_llong (- value)) else ([], utype t_llong value) in
    ds ← put_digits 64 x radix; Some (sign ++ rev ds ++ [NUL]).

(** ** String to integer *)

Section Strtol.
Context (isspace : Z -> bool) (t : ty) (s : list Z).

(** The loop that skips white space. *)
Fixpoint skip_spaces (fuel : nat) (p : Z) : option Z :=
  match fuel with
  | O => None
  | S fuel' => c ← aget s p; if isspace c then skip_spaces fuel' (p + 1) else Some p
  end.

(** The value of a digit or letter. *)
Definition digit_value (c : Z) : option Z :=
  if (c >=? 48) && (c <=? 57) then Some (c - 48)
  else if (c >=? 65) && (c <=? 90) then Some (c - 65 + 10)
  else if (c >=? 97) && (c <=? 122) then Some (c - 97 + 10)
  else None.

(** White space, sign and prefix: the sign, the prefix and the place and
    radix of the digits. *)
Definition strtol_start (radix : Z) : option (bool * bool * Z * Z) :=
  p ← skip_spaces (S (length s)) 0;
  c ← aget s p;
  let '(neg, p) := if c =? MINUS then (true, p + 1) else if c =? PLUS then (false, p + 1) else (false, p) in
  c0 ← aget s p;
  x ← (if ((radix =? 0) || (radix =? 16)) && (c0 =? ZERO) then c1 ← aget s (p + 1); Some ((c1 =? 120) || (c1 =? 88)) else Some false);
  let '(pfx, radix, p) := if (x : bool) then (true, 16, p + 2) else (false, radix, p) in
  if radix =? 0 then c ← aget s p; Some (neg, pfx, p, if c =? ZERO then 8 else 10) else Some (neg, pfx, p, radix).

(** The states of the loop. *)
Inductive scan_state := no_number | ok | overflow.

Fixpoint scan (fuel : nat) (radix max1 max2 n : Z) (st : scan_state) (p : Z) : option (Z * scan_state * Z) :=
  match fuel with
  | O => None
  | S fuel' =>
      c ← aget s p;
      match digit_value c with
      | None => Some (n, st, p)
      | Some c =>
          if c >=? radix then Some (n, st, p)
          else
            let st := if (n >=? max1) && ((n >? max1) || (c >? max2)) then overflow else st in
            match st with
            | overflow => scan fuel' radix max1 max2 n overflow (p + 1)
            | _ => scan fuel' radix max1 max2 (utype t (utype t (n * radix) + c)) ok (p + 1)
            end
      end
  end.

Definition strtol (radix : Z) : option result :=
  f ← strtol_start radix;
  let '(neg, pfx, p, radix) := f : bool * bool * Z * Z in
  if (radix >=? 2) && (radix <=? 36) then
    let lim := if is_unsigned t then MAX t else if neg then utype t (- utype t (MIN t)) else MAX t in
    let max1 := lim / radix in
    let max2 := utype t (lim - utype t (max1 * radix)) in
    r ← scan (S (length s)) radix max1 max2 0 no_number p;
    let '(n, st, p) := r : Z * scan_state * Z in
    match st with
    | no_number => Some (mk_result 0 (if pfx then 1 else 0) None)
    | ok => Some (mk_result (type t (if neg then utype t (- n) else n)) p None)
    | overflow => Some (mk_result (if is_unsigned t then MAX t else if neg then MIN t else MAX t) p (Some ERANGE))
    end
  else Some (mk_result 0 p (Some EDOM)).

(** [atoi], [atol] and [atoll] *)
Fixpoint skip_blanks (fuel : nat) (p : Z) : option Z :=
  match fuel with
  | O => None
  | S fuel' => c ← aget s p; if (c =? SPACE) || (c =? TAB) then skip_blanks fuel' (p + 1) else Some p
  end.

Fixpoint atoi_digits (fuel : nat) (n p : Z) : option Z :=
  match fuel with
  | O => None
  | S fuel' => c ← aget s p; if (c >=? 48) && (c <=? 57) then atoi_digits fuel' (type t (n * 10 + (c - 48))) (p + 1) else Some n
  end.

Definition atoi : option Z :=
  p ← skip_blanks (S (length s)) 0;
  c ← aget s p;
  let '(neg, p) := if c =? PLUS then (false, p + 1) else if c =? MINUS then (true, p + 1) else (false, p) in
  n ← atoi_digits (S (length s)) 0 p;
  Some (if (neg : bool) then type t (- n) else n).
End Strtol.
