(* ===== verification/ConvFacts.v ===== *)
(** The lemmas on the conversions: the reference [strtol_ref], which has no
    overflow, and the digits of a number. *)

From S2P Require Import Prelude Conv.

(** ** The reference

    On lists: what is left of the string after each part; a pointer is the
    length of the string less the length of what is left. *)

Fixpoint drop_while (p : Z -> bool) (l : list Z) : list Z :=
  match l with c :: l' => if p c then drop_while p l' else l | [] => [] end.

Definition after_sign (l : list Z) : bool * list Z :=
  match l with c :: l' => if c =? MINUS then (true, l') else if c =? PLUS then (false, l') else (false, l) | [] => (false, []) end.

(** Is there a prefix, the radix and the digits. *)
Definition after_prefix (radix : Z) (l : list Z) : bool * Z * list Z :=
  let plain := (false, if radix =? 0 then if bool_decide (head l = Some ZERO) then 8 else 10 else radix, l) in
  match l with
  | c :: x :: l' => if ((radix =? 0) || (radix =? 16)) && (c =? ZERO) && ((x =? 120) || (x =? 88)) then (true, 16, l') else plain
  | _ => plain
  end.

(** The digits of all radices in their order, "0" to "9" and "a" to "z" in small
    and in capital letters: the value of a digit is its place. *)
Definition small_digits : list Z :=
  [48; 49; 50; 51; 52; 53; 54; 55; 56; 57;
   97; 98; 99; 100; 101; 102; 103; 104; 105; 106; 107; 108; 109;
   110; 111; 112; 113; 114; 115; 116; 117; 118; 119; 120; 121; 122].
Definition capital_digits : list Z :=
  [48; 49; 50; 51; 52; 53; 54; 55; 56; 57;
   65; 66; 67; 68; 69; 70; 71; 72; 73; 74; 75; 76; 77;
   78; 79; 80; 81; 82; 83; 84; 85; 86; 87; 88; 89; 90].
Definition place_of (c : Z) : option Z :=
  (fun x => Z.of_nat x.1) <$> list_find (fun ab => c = ab.1 \/ c = ab.2) (zip small_digits capital_digits).

Lemma place_of_digit_value c : place_of c = digit_value c.
Proof.
  destruct (decide (0 <= c < 128)) as [Hc|Hc].
  - assert (forallb (fun c => bool_decide (place_of c = digit_value c)) (zrange 0 128) = true) as Hall by (by vm_compute).
    rewrite forallb_forall in Hall. apply (bool_decide_eq_true_1 _), Hall, list_elem_of_In, elem_of_zrange. lia.
  - assert (digit_value c = None) as -> by (unfold digit_value; repeat case_match; breflect; done || lia).
    unfold place_of. rewrite (proj2 (list_find_None _ _)); [done|].
    assert (forallb (fun ab => (0 <=? ab.1) && (ab.1 <? 128) && (0 <=? ab.2) && (ab.2 <? 128))
              (zip small_digits capital_digits) = true) as Hall by (by vm_compute).
    rewrite forallb_forall in Hall. apply Forall_forall. intros ab Hab. apply list_elem_of_In, Hall in Hab. breflect. lia.
Qed.

Fixpoint digit_run (radix : Z) (l : list Z) : list Z * list Z :=
  match l with
  | c :: l' => match place_of c with
               | Some d => if d <? radix then let '(ds, r) := digit_run radix l' in (d :: ds, r) else ([], l)
               | None => ([], l)
               end
  | [] => ([], [])
  end.

(** The number the digits [ds] write after the number [n]. *)
Fixpoint number (radix n : Z) (ds : list Z) : Z :=
  match ds with [] => n | d :: ds' => number radix (n * radix + d) ds' end.

(** The largest magnitude the type can take. *)
Definition limit (t : ty) (neg : bool) : Z :=
  if is_unsigned t then 2 ^ bits t - 1 else if neg then 2 ^ (bits t - 1) else 2 ^ (bits t - 1) - 1.

Definition strtol_ref (isspace : Z -> bool) (t : ty) (s : list Z) (radix : Z) : result :=
  let '(neg, l) := after_sign (drop_while isspace s) in
  let '(pfx, radix, l) := after_prefix radix l in
  let '(ds, r) := digit_run radix l in
  let n := number radix 0 ds in
  if (radix <? 2) || (radix >? 36) then mk_result 0 (alen s - alen l) (Some EDOM)
  else if bool_decide (ds = []) then mk_result 0 (if pfx then 1 else 0) None
  else if n <=? limit t neg then mk_result (if neg then (if is_unsigned t then (- n) mod 2 ^ bits t else - n) else n) (alen s - alen r) None
  else mk_result (if is_unsigned t then 2 ^ bits t - 1 else if neg then - 2 ^ (bits t - 1) else 2 ^ (bits t - 1) - 1) (alen s - alen r) (Some ERANGE).

(** ** Pointers into a string *)

Section Suffix.
Context (s : list Z).

Definition pos (l : list Z) : Z := alen s - alen l.

Lemma aget_pos l k : l `suffix_of` s -> 0 <= k -> aget s (pos l + k) = aget l k.
Proof.
  intros [pre Hs] Hk. unfold pos. rewrite Hs, alen_app. replace (alen pre + alen l - alen l + k) with (alen pre + k) by lia.
  unfold aget, alen. zbool. rewrite lookup_app_r by lia. f_equal. lia.
Qed.

Lemma aget_pos_0 l : l `suffix_of` s -> aget s (pos l) = head l.
Proof. intros Hl. rewrite <-(Z.add_0_r (pos l)), aget_pos by (done || lia). by destruct l. Qed.

Lemma aget_pos_1 l : l `suffix_of` s -> aget s (pos l + 1) = head (tail l).
Proof. intros Hl. rewrite aget_pos by (done || lia). by destruct l as [|? [|]]. Qed.

Lemma suffix_tail (c : Z) l : c :: l `suffix_of` s -> l `suffix_of` s.
Proof. apply suffix_cons_l. Qed.

Lemma pos_cons c l : pos (c :: l) + 1 = pos l.
Proof. unfold pos. rewrite alen_cons. lia. Qed.

Lemma pos_cons2 c d l : pos (c :: d :: l) + 2 = pos l.
Proof. unfold pos. rewrite !alen_cons. lia. Qed.
End Suffix.

(** ** The parts of [strtol] *)

Section StrtolParts.
Context (isspace : Z -> bool) (t : ty) (s : list Z).
Hypothesis Hnul : isspace NUL = false.

Lemma suffix_NUL_cons (l : list Z) : NUL ∈ l -> exists c l', l = c :: l'.
Proof. destruct l as [|c l']; [by intros H%elem_of_nil|eauto]. Qed.

Lemma drop_while_NUL l : NUL ∈ l -> NUL ∈ drop_while isspace l.
Proof.
  induction l as [|c l IH]; intros Hin; cbn [drop_while]; [done|]. destruct (isspace c) eqn:Hc; [|done].
  apply IH. apply elem_of_cons in Hin as [<-|Hin]; [congruence|done].
Qed.

Lemma drop_while_suffix l : drop_while isspace l `suffix_of` l.
Proof. induction l as [|c l IH]; cbn [drop_while]; [done|]. destruct (isspace c); [by apply suffix_cons_r|done]. Qed.

Lemma skip_spaces_ok fuel l :
  l `suffix_of` s -> NUL ∈ l -> (length l <= fuel)%nat -> skip_spaces isspace s fuel (pos s l) = Some (pos s (drop_while isspace l)).
Proof.
  revert l. induction fuel as [|fuel IH]; intros l Hs Hin Hf.
  - destruct l; [by apply elem_of_nil in Hin|cbn in Hf; lia].
  - destruct (suffix_NUL_cons l Hin) as (c & l' & ->). cbn [skip_spaces drop_while]. rewrite aget_pos_0 by done. cbn [mbind option_bind head].
    destruct (isspace c) eqn:Hc; [|done]. rewrite pos_cons. apply IH; [by apply suffix_tail in Hs| |cbn in Hf; lia].
    apply elem_of_cons in Hin as [<-|Hin]; [congruence|done].
Qed.

Lemma digit_value_NUL : digit_value NUL = None.
Proof. done. Qed.

(** The sign and the prefix: what is left keeps the end of the string. *)
Definition start_ref (radix : Z) : bool * (bool * Z * list Z) :=
  let '(neg, l) := after_sign (drop_while isspace s) in (neg, after_prefix radix l).

Lemma after_sign_ok l neg l' : after_sign l = (neg, l') -> l `suffix_of` s -> NUL ∈ l -> l' `suffix_of` s /\ NUL ∈ l'.
Proof.
  unfold after_sign. intros H Hs Hin. destruct (suffix_NUL_cons l Hin) as (c & k & ->).
  destruct (Z.eqb_spec c MINUS) as [->|]; [|destruct (Z.eqb_spec c PLUS) as [->|]]; injection H as <- <-; try done;
    (split; [by apply suffix_tail in Hs|by apply elem_of_cons in Hin as [?|?]]).
Qed.

(** The code's tests for the prefix and for radix 0. *)
Lemma after_prefix_ok radix l c0 l2 neg :
  l = c0 :: l2 -> l `suffix_of` s -> NUL ∈ l ->
  exists pfx r l', after_prefix radix l = (pfx, r, l') /\ l' `suffix_of` s /\ NUL ∈ l' /\
  (x ← (if ((radix =? 0) || (radix =? 16)) && (c0 =? ZERO) then c1 ← head l2; Some ((c1 =? 120) || (c1 =? 88)) else Some false);
   let '(pfx, radix, p) := if (x : bool) then (true, 16, pos s l + 2) else (false, radix, pos s l) in
   if radix =? 0 then c ← aget s p; Some (neg, pfx, p, if c =? ZERO then 8 else 10) else Some (neg, pfx, p, radix)) = Some (neg : bool, pfx, pos s l', r).
Proof.
  intros -> Hs Hin. unfold after_prefix.
  assert (Hplain : (if radix =? 0 then c ← aget s (pos s (c0 :: l2)); Some (neg, false, pos s (c0 :: l2), if c =? ZERO then 8 else 10)
    else Some (neg, false, pos s (c0 :: l2), radix)) =
    Some (neg, false, pos s (c0 :: l2), if radix =? 0 then if bool_decide (head (c0 :: l2) = Some ZERO) then 8 else 10 else radix)).
  { rewrite aget_pos_0 by done. cbn [head mbind option_bind]. destruct (radix =? 0); [|done].
    destruct (Z.eqb_spec c0 ZERO) as [->|]; [by rewrite bool_decide_true|by rewrite bool_decide_false by congruence]. }
  destruct (((radix =? 0) || (radix =? 16)) && (c0 =? ZERO)) eqn:Hb.
  - destruct l2 as [|x l3].
    { breflect. subst c0. apply list_elem_of_singleton in Hin. done. }
    cbn [head mbind option_bind]. destruct ((x =? 120) || (x =? 88)) eqn:Hx; cbn [andb].
    + eexists _, _, _. split; [done|]. rewrite pos_cons2. cbn. split_and!; [by apply suffix_tail, suffix_tail in Hs| |done].
      breflect. apply elem_of_cons in Hin as [?|Hin]; [by subst c0|]. apply elem_of_cons in Hin as [<-|Hin]; done.
    + eexists _, _, _. split; [done|]. done.
  - destruct l2 as [|x l3]; cbn [mbind option_bind andb]; eexists _, _, _; (split; [done|]); done.
Qed.

Lemma strtol_start_ok radix :
  NUL ∈ s ->
  exists neg pfx r l, start_ref radix = (neg, (pfx, r, l)) /\ strtol_start isspace s radix = Some (neg, pfx, pos s l, r) /\
    l `suffix_of` s /\ NUL ∈ l.
Proof.
  intros Hin. unfold start_ref, strtol_start.
  assert (Hsk := skip_spaces_ok (S (length s)) s ltac:(done) Hin ltac:(lia)). replace (pos s s) with 0 in Hsk by (unfold pos; lia).
  rewrite Hsk. cbn [mbind option_bind]. clear Hsk.
  set (l0 := drop_while isspace s). assert (H0 : l0 `suffix_of` s) by apply drop_while_suffix. assert (Hn0 : NUL ∈ l0) by by apply drop_while_NUL.
  destruct (after_sign l0) as [neg l1] eqn:E1. destruct (after_sign_ok _ _ _ E1 H0 Hn0) as [H1 Hn1].
  rewrite aget_pos_0 by done. destruct (suffix_NUL_cons l0 Hn0) as (c & k & Hl0). rewrite Hl0. cbn [head mbind option_bind].
  assert (Hp : (if c =? MINUS then (true, pos s (c :: k) + 1) else if c =? PLUS then (false, pos s (c :: k) + 1) else (false, pos s (c :: k))) = (neg, pos s l1)).
  { unfold after_sign in E1. rewrite Hl0 in E1. destruct (c =? MINUS); [|destruct (c =? PLUS)]; injection E1 as <- <-; by rewrite ?pos_cons. }
  rewrite Hp. destruct (suffix_NUL_cons l1 Hn1) as (c0 & l2 & Hl1). rewrite aget_pos_0, aget_pos_1 by done. rewrite Hl1. cbn [head tail mbind option_bind].
  destruct (after_prefix_ok radix l1 c0 l2 neg Hl1 H1 Hn1) as (pfx & r & l & Ha & Hs & Hn & Hx). rewrite <-Hl1, Ha.
  exists neg, pfx, r, l. split_and!; [done| |done|done]. rewrite <-Hx. by rewrite Hl1.
Qed.
End StrtolParts.

(** ** The digits *)

Lemma digit_value_range c d : digit_value c = Some d -> 0 <= d < 36.
Proof. unfold digit_value. repeat case_match; intros [= <-]; breflect; lia. Qed.

Lemma digit_run_range r l ds k : digit_run r l = (ds, k) -> Forall (fun d => 0 <= d < r) ds.
Proof.
  revert ds k. induction l as [|c l IH]; intros ds k; cbn [digit_run]; [by intros [= <- <-]|].
  rewrite place_of_digit_value. destruct (digit_value c) as [d|] eqn:Hd; [|by intros [= <- <-]]. destruct (Z.ltb_spec d r); [|by intros [= <- <-]].
  destruct (digit_run r l) as [ds' k'] eqn:He. intros [= <- <-]. constructor; [|by eapply IH].
  apply digit_value_range in Hd. lia.
Qed.

Lemma number_ge r n ds : 2 <= r -> 0 <= n -> Forall (fun d => 0 <= d < r) ds -> n <= number r n ds.
Proof.
  intros Hr Hn Hds. revert n Hn. induction Hds as [|d ds Hd _ IH]; intros n Hn; cbn [number]; [lia|].
  etrans; [|apply IH]; nia.
Qed.

Lemma number_app r n ds d : number r n (ds ++ [d]) = number r n ds * r + d.
Proof. revert n. induction ds as [|e ds IH]; intros n; cbn [number app]; [done|apply IH]. Qed.

Section Scan.
Context (t : ty) (s : list Z) (r lim : Z).
Hypothesis Hr : 2 <= r <= 36.
Hypothesis Hlim : 0 <= lim < 2 ^ bits t.
Notation max1 := (lim / r).
Notation max2 := (lim - lim / r * r).

(** The test of the loop. *)
Lemma scan_test n d : 0 <= n -> 0 <= d < r -> ((n >=? max1) && ((n >? max1) || (d >? max2)))%bool = true <-> lim < n * r + d.
Proof.
  intros Hn Hd. pose proof (Z.div_mod lim r ltac:(lia)). pose proof (Z.mod_pos_bound lim r ltac:(lia)).
  rewrite andb_true_iff, orb_true_iff, Z.geb_le, !Z.gtb_lt. nia.
Qed.

Lemma scan_ok fuel l n st :
  l `suffix_of` s -> NUL ∈ l -> (length l <= fuel)%nat -> 0 <= n <= lim -> st <> overflow ->
  let '(ds, k) := digit_run r l in
  if number r n ds <=? lim then scan t s fuel r max1 max2 n st (pos s l) = Some (number r n ds, if bool_decide (ds = []) then st else ok, pos s k)
  else exists n', scan t s fuel r max1 max2 n st (pos s l) = Some (n', overflow, pos s k).
Proof.
  assert (Hov : forall fuel l n, l `suffix_of` s -> NUL ∈ l -> (length l <= fuel)%nat ->
    scan t s fuel r max1 max2 n overflow (pos s l) = Some (n, overflow, pos s (snd (digit_run r l)))).
  { clear fuel l n st. induction fuel as [|fuel IH]; intros l n Hs Hin Hf; (destruct (suffix_NUL_cons l Hin) as (c & k & ->); cbn in Hf; [lia || idtac]).
    cbn [scan digit_run]. rewrite place_of_digit_value, aget_pos_0 by done. cbn [head mbind option_bind].
    destruct (digit_value c) as [d|] eqn:Hd; [|done]. rewrite Z.geb_leb. destruct (Z.ltb_spec d r) as [Hlt|]; zbool; [|done].
    assert (Hk : NUL ∈ k) by (apply elem_of_cons in Hin as [<-|]; [by rewrite digit_value_NUL in Hd|done]).
    apply suffix_tail in Hs as Hs'.
    destruct (_ && _)%bool; rewrite pos_cons, IH by (done || lia); by destruct (digit_run r k). }
  revert l n st. induction fuel as [|fuel IH]; intros l n st Hs Hin Hf Hn Hst; destruct (suffix_NUL_cons l Hin) as (c & k & ->); [cbn in Hf; lia|].
  cbn [scan digit_run]. rewrite place_of_digit_value, aget_pos_0 by done. cbn [head mbind option_bind].
  destruct (digit_value c) as [d|] eqn:Hd; [|cbn [number]; zbool; by rewrite bool_decide_true]. rewrite Z.geb_leb.
  destruct (Z.ltb_spec d r) as [Hlt|]; cbn [number]; zbool; [|by rewrite bool_decide_true].
  assert (Hk : NUL ∈ k) by (apply elem_of_cons in Hin as [<-|]; [by rewrite digit_value_NUL in Hd|done]). pose proof (digit_value_range _ _ Hd) as Hd0.
  pose proof (scan_test n d ltac:(lia) ltac:(lia)) as Ht. rewrite Z.geb_leb, !Z.gtb_ltb in Ht. apply suffix_tail in Hs as Hs'. cbn in Hf.
  destruct ((max1 <=? n) && ((max1 <? n) || (max2 <? d))) eqn:Hb.
  - assert (lim < n * r + d) by by apply Ht. rewrite pos_cons, Hov by (done || lia).
    destruct (digit_run r k) as [ds k'] eqn:Hrun. cbn [number snd]. apply digit_run_range in Hrun.
    pose proof (number_ge r (n * r + d) ds ltac:(lia) ltac:(nia) Hrun). zbool. by eexists.
  - assert (n * r + d <= lim) by (apply Z.le_ngt; intros H; apply Ht in H; congruence).
    assert (Hu : utype t (utype t (n * r) + d) = n * r + d) by (assert (0 <= n * r) by nia; unfold utype; rewrite (Z.mod_small (n * r)), Z.mod_small by lia; done).
    rewrite Hu, pos_cons. specialize (IH k (n * r + d) ok Hs' Hk ltac:(lia) ltac:(nia) ltac:(done)).
    destruct (digit_run r k) as [ds k'] eqn:Hrun. cbn [number].
    rewrite (bool_decide_false (d :: ds = [])) by done.
    assert (Hm : (match st with overflow => scan t s fuel r max1 max2 n overflow (pos s k) | _ => scan t s fuel r max1 max2 (n * r + d) ok (pos s k) end)
      = scan t s fuel r max1 max2 (n * r + d) ok (pos s k)) by by destruct st.
    rewrite Hm. destruct (number r (n * r + d) ds <=? lim); [|exact IH]. rewrite IH. by destruct (bool_decide (ds = [])).
Qed.
End Scan.

(** ** The whole of [strtol] *)

Definition ty_ok (t : ty) : Prop := bits t = 32 \/ bits t = 64.

Lemma limit_range t neg : ty_ok t -> 0 <= limit t neg < 2 ^ bits t.
Proof. unfold limit. intros [-> | ->]; destruct (is_unsigned t), neg; vm_compute; split; (discriminate || done). Qed.

(** The variable [lim] of the code. *)
Lemma lim_limit t (neg : bool) : ty_ok t -> (if is_unsigned t then MAX t else if neg then utype t (- utype t (MIN t)) else MAX t) = limit t neg.
Proof. unfold limit, MAX, MIN, utype. intros [-> | ->]; by destruct (is_unsigned t), neg. Qed.

(** The value of a number that fits. *)
Lemma type_value t (neg : bool) n : ty_ok t -> 0 <= n <= limit t neg ->
  type t (if neg then utype t (- n) else n) = if neg then (if is_unsigned t then (- n) mod 2 ^ bits t else - n) else n.
Proof.
  unfold type, utype, limit. intros Ht Hn. assert (0 < 2 ^ (bits t - 1) /\ 2 ^ bits t = 2 * 2 ^ (bits t - 1)) as [Hb1 Hb2] by (by destruct Ht as [-> | ->]).
  rewrite Hb2 in *. set (m := 2 ^ (bits t - 1)) in *. destruct (is_unsigned t), neg; rewrite ?Zmod_mod.
  - done.
  - apply Z.mod_small. lia.
  - rewrite Zplus_mod_idemp_l, Z.mod_small; lia.
  - rewrite Z.mod_small; lia.
Qed.

Lemma strtol_ok isspace t s radix : isspace NUL = false -> ty_ok t -> NUL ∈ s -> strtol isspace t s radix = Some (strtol_ref isspace t s radix).
Proof.
  intros Hnul Ht Hin. destruct (strtol_start_ok isspace s Hnul radix Hin) as (neg & pfx & r & l & Href & Hstart & Hl & Hnl).
  unfold strtol, strtol_ref. rewrite Hstart. unfold start_ref in Href. destruct (after_sign _) as [neg' l']. injection Href as -> ->. cbn [mbind option_bind].
  destruct (digit_run r l) as [ds k] eqn:Hrun. rewrite Z.geb_leb.
  destruct (Z.ltb_spec r 2), (Z.gtb_spec r 36); try lia; zbool; try done.
  pose proof (limit_range t neg Ht) as Hlim. rewrite (lim_limit t neg Ht).
  assert (Hm2 : utype t (limit t neg - utype t (limit t neg / r * r)) = limit t neg - limit t neg / r * r).
  { pose proof (Z.mul_div_le (limit t neg) r ltac:(lia)). pose proof (Z.div_pos (limit t neg) r). unfold utype. rewrite (Z.mod_small (_ * _)), Z.mod_small; nia. }
  rewrite Hm2. assert (Hlen : (length l <= S (length s))%nat) by (destruct Hl as [pre ->]; rewrite length_app; lia).
  pose proof (scan_ok t s r (limit t neg) ltac:(lia) Hlim (S (length s)) l 0 no_number Hl Hnl Hlen ltac:(lia) ltac:(done)) as Hsc.
  rewrite Hrun in Hsc. pose proof (number_ge r 0 ds ltac:(lia) ltac:(lia) (digit_run_range _ _ _ _ Hrun)).
  destruct (Z.leb_spec (number r 0 ds) (limit t neg)).
  - rewrite Hsc. cbn [mbind option_bind]. case_bool_decide; [done|]. by rewrite type_value by (done || lia).
  - destruct Hsc as [n' ->]. cbn [mbind option_bind]. rewrite bool_decide_false by (intros ->; cbn in *; lia). unfold MAX, MIN. by destruct (is_unsigned t).
Qed.

(** ** The digits of a number *)

Lemma rev_fmap (f : Z -> Z) l : rev (f <$> l) = f <$> rev l.
Proof. induction l as [|x l IH]; cbn [rev fmap list_fmap]; [done|]. rewrite fmap_app. by rewrite <-IH. Qed.

Definition digit_char (d : Z) : Z := if d <? 10 then 48 + d else 87 + d.

Lemma aget_digits d : 0 <= d < 36 -> aget digits d = Some (digit_char d).
Proof.
  intros Hd. assert (Hall : forallb (fun d => bool_decide (aget digits d = Some (digit_char d))) (zrange 0 36) = true) by (vm_compute; reflexivity).
  rewrite forallb_forall in Hall. apply (bool_decide_eq_true_1 _), Hall, list_elem_of_In, elem_of_zrange. lia.
Qed.

Lemma digit_char_cases d : 0 <= d < 36 -> (d < 10 /\ digit_char d = 48 + d) \/ (10 <= d /\ digit_char d = 87 + d).
Proof. intros Hd. unfold digit_char. destruct (Z.ltb_spec d 10); [left|right]; done. Qed.

Lemma digit_value_char d : 0 <= d < 36 -> digit_value (digit_char d) = Some d.
Proof.
  intros Hd. unfold digit_value. destruct (digit_char_cases d Hd) as [[? ->]|[? ->]]; zbool; f_equal; lia.
Qed.

Lemma pow_S_nat r (n : nat) : r ^ Z.of_nat (S n) = r * r ^ Z.of_nat n.
Proof. rewrite Nat2Z.inj_succ, Z.pow_succ_r by lia. done. Qed.

Lemma put_digits_S room v radix : put_digits (S room) v radix =
  (d ← aget digits (v mod radix); if v / radix =? 0 then Some [d] else ds ← put_digits room (v / radix) radix; Some (d :: ds)).
Proof. done. Qed.

Lemma put_digits_ok radix room v :
  2 <= radix <= 36 -> 0 <= v < radix ^ Z.of_nat (S room) ->
  exists ds, put_digits (S room) v radix = Some (digit_char <$> ds) /\ Forall (fun d => 0 <= d < radix) ds /\ number radix 0 (rev ds) = v /\ ds <> [] /\
    forall k : nat, v < radix ^ Z.of_nat (S k) -> (length ds <= S k)%nat.
Proof.
  intros Hr. revert v. induction room as [|room IH]; intros v Hv; rewrite pow_S_nat in Hv;
    pose proof (Z.div_mod v radix ltac:(lia)) as Hdm; pose proof (Z.mod_pos_bound v radix ltac:(lia)) as Hm;
    (assert (0 <= v / radix) as Hq by (apply Z.div_pos; lia)).
  - cbn in Hv. rewrite put_digits_S, aget_digits by lia. rewrite Z.div_small by lia. exists [v mod radix]. cbn.
    split_and!; [done|by apply Forall_singleton|rewrite Z.mod_small; lia|done|lia].
  - rewrite put_digits_S, aget_digits by lia. cbn [mbind option_bind].
    destruct (Z.eqb_spec (v / radix) 0) as [Hz|Hz].
    + exists [v mod radix]. cbn. split_and!; [done|by apply Forall_singleton|lia|done|lia].
    + destruct (IH (v / radix)) as (ds & Hput & Hds & Hnum & Hne & Hlen); [nia|].
      exists (v mod radix :: ds). rewrite Hput. cbn [mbind option_bind rev]. rewrite number_app, Hnum. split_and!; [done|by constructor|lia|done|].
      intros k Hk. destruct k as [|k]; [cbn in Hk; nia|]. rewrite pow_S_nat in Hk. specialize (Hlen k). cbn [length]. apply le_n_S, Hlen. nia.
Qed.

(** [strtol] on a printed number. *)
Section ReadBack.
Context (isspace : Z -> bool) (t : ty) (radix : Z) (ds : list Z).
Hypothesis Hminus : isspace MINUS = false.
Hypothesis Hdigit : forall c, c ∈ digits -> isspace c = false.
Hypothesis Hr : 2 <= radix <= 36.
Hypothesis Hds : Forall (fun d => 0 <= d < radix) ds.
Hypothesis Hne : ds <> [].

Lemma digit_not_space d : 0 <= d < 36 -> isspace (digit_char d) = false.
Proof.
  intros Hd. apply Hdigit. pose proof (aget_digits d Hd) as H. unfold aget in H. destruct (0 <=? d); [|done]. by eapply list_elem_of_lookup_2.
Qed.

Lemma digit_run_chars : digit_run radix ((digit_char <$> ds) ++ [NUL]) = (ds, [NUL]).
Proof.
  clear Hne. induction Hds as [|d ds' Hd Hds' IH]; [done|]. cbn [fmap list_fmap app digit_run]. rewrite place_of_digit_value, digit_value_char by lia. zbool.
  change (list_fmap Z Z digit_char ds') with (digit_char <$> ds'). by rewrite IH by done.
Qed.

Lemma after_prefix_chars : after_prefix radix ((digit_char <$> ds) ++ [NUL]) = (false, radix, (digit_char <$> ds) ++ [NUL]).
Proof.
  destruct Hds as [|d ds' Hd Hds']; [done|]. cbn [fmap list_fmap app]. unfold after_prefix. replace (radix =? 0) with false by lia. cbn [orb].
  change (list_fmap Z Z digit_char ds') with (digit_char <$> ds').
  destruct ((digit_char <$> ds') ++ [NUL]) as [|x k] eqn:Hk; [done|].
  destruct (Z.eqb_spec radix 16) as [->|]; [|done]. destruct (digit_char d =? ZERO); [|done]. cbn [andb].
  assert (Hx : x <> 120 /\ x <> 88); [|by replace (x =? 120) with false by lia; replace (x =? 88) with false by lia].
  destruct Hds' as [|e ds'' He _]; injection Hk as <- _; [done|]. destruct (digit_char_cases e); lia.
Qed.

Lemma strtol_ref_chars (neg : bool) : let str := (if neg then [MINUS] else []) ++ (digit_char <$> ds) ++ [NUL] in let n := number radix 0 ds in
  n <= limit t neg ->
  strtol_ref isspace t str radix = mk_result (if neg then (if is_unsigned t then (- n) mod 2 ^ bits t else - n) else n) (alen str - 1) None.
Proof.
  intros str n Hn. unfold strtol_ref.
  assert (Hs : after_sign (drop_while isspace str) = (neg, (digit_char <$> ds) ++ [NUL])).
  { subst str. destruct neg; cbn [app drop_while]; [by rewrite Hminus|]. destruct Hds as [|d ds' Hd _]; [done|]. cbn [fmap list_fmap app drop_while].
    rewrite digit_not_space by lia. cbn [after_sign]. unfold MINUS, PLUS.
    replace (digit_char d =? 45) with false by (pose proof (digit_char_cases d); lia). by replace (digit_char d =? 43) with false by (pose proof (digit_char_cases d); lia). }
  rewrite Hs, after_prefix_chars, digit_run_chars. fold n. replace ((radix <? 2) || (radix >? 36)) with false by lia.
  rewrite bool_decide_false by done. by replace (n <=? limit t neg) with true by lia.
Qed.
End ReadBack.
