(* ===== verification/ConvProps.v ===== *)
(** [strtol] and its variants give the number that is written, and read back
    what [ltoa] and its variants write. *)

From S2P Require Import Prelude Conv ConvFacts.

Lemma types_ok t : t ∈ [t_long; t_ulong; t_llong; t_ullong] -> ty_ok t.
Proof. intros Ht. unfold ty_ok. repeat (apply elem_of_cons in Ht as [->|Ht]; [cbn; by auto|]). by apply elem_of_nil in Ht. Qed.

(** The bytes of a string that are white space in the C locale. *)
Definition c_isspace (c : Z) : bool := (c =? 32) || ((9 <=? c) && (c <=? 13)).

(** Closes the side conditions on a concrete type. *)
Ltac side := first [by left|by right|done|cbn; lia|cbn; rewrite Z.opp_involutive; reflexivity].

(** ** Properties *)

(** C31: [strtol], [strtoul], [strtoll] and [strtoull] agree with a reference
    on lists that computes without overflow: for every radix and every string,
    the value of the digits with its sign when the type can take it (modulo
    its size for a minus sign in front of an unsigned number), else the
    nearest bound and ERANGE; 0 without digits, 0 and EDOM for a radix the
    digits cannot write. The end pointer is behind the digits, also of a
    number that is too large, and at the start of the string when there are
    none; it is behind the sign for EDOM and at the second byte of the string
    for a prefix 0x without digits, where emxlib.src has the start of the
    string. No read is behind the NUL. *)
Theorem strtol_reference isspace t s radix :
  isspace NUL = false -> t ∈ [t_long; t_ulong; t_llong; t_ullong] -> NUL ∈ s ->
  strtol isspace t s radix = Some (strtol_ref isspace t s radix).
Proof. intros Hnul Ht Hs. apply strtol_ok; [done|by apply types_ok|done]. Qed.

(** " -0x80000000z" *)
Definition ex_string : list Z := [32; 45; 48; 120; 56; 48; 48; 48; 48; 48; 48; 48; 122; 0].

Lemma strtol_reference_witness :
  strtol c_isspace t_long ex_string 0 = Some (mk_result (- 2 ^ 31) 12 None) /\
  strtol c_isspace t_ulong [57; 57; 57; 57; 57; 57; 57; 57; 57; 57; 0] 10 = Some (mk_result (2 ^ 32 - 1) 10 (Some ERANGE)).
Proof.
  split.
  - rewrite (strtol_reference c_isspace t_long ex_string 0); [vm_compute; reflexivity|reflexivity|left|].
    apply (bool_decide_eq_true_1 _). vm_compute. reflexivity.
  - rewrite (strtol_reference c_isspace t_ulong _ 10); [vm_compute; reflexivity|reflexivity|right; left|].
    apply (bool_decide_eq_true_1 _). vm_compute. reflexivity.
Defined.

(** The string [f] writes for [v] has at most as many digits as the type has
    bits, and [strtol] of the type [t] reads the number [w] from it, up to the
    NUL. *)
Definition reads_back isspace (f : Z -> Z -> option (list Z)) (t : ty) (v radix w : Z) : Prop :=
  exists str, f v radix = Some str /\ alen str <= bits t + 1 /\ strtol isspace t str radix = Some (mk_result w (alen str - 1) None).

Section Print.
Context (isspace : Z -> bool) (radix : Z).
Hypothesis Hnul : isspace NUL = false.
Hypothesis Hminus : isspace MINUS = false.
Hypothesis Hdigit : forall c, c ∈ digits -> isspace c = false.
Hypothesis Hr : 2 <= radix <= 36.

(** The digits of the magnitude [n], behind the sign. *)
Lemma print_reads (t : ty) (neg : bool) (room : nat) n :
  ty_ok t -> Z.of_nat (S room) = bits t -> 0 <= n <= limit t neg -> (neg = true -> radix = 10) ->
  exists ds, put_digits (S room) n radix = Some ds /\
    let str := (if neg then [MINUS] else []) ++ rev ds ++ [NUL] in
    alen str <= bits t + 1 /\
    strtol isspace t str radix = Some (mk_result (if neg then (if is_unsigned t then (- n) mod 2 ^ bits t else - n) else n) (alen str - 1) None).
Proof.
  intros Ht Hroom Hn Hneg. pose proof (limit_range t neg Ht) as Hlim.
  assert (2 ^ bits t <= radix ^ bits t) by (apply Z.pow_le_mono_l; lia).
  destruct (put_digits_ok radix room n) as (ds & Hput & Hds & Hnum & Hne & Hlen); [done|rewrite Hroom; lia|].
  exists (digit_char <$> ds). split; [done|]. cbv zeta. rewrite rev_fmap. split.
  - rewrite !alen_app. unfold alen. rewrite length_fmap, length_rev. cbn [length].
    destruct neg; cbn [length].
    + specialize (Hlen 19%nat). rewrite Hneg in Hlen by done. destruct Ht as [Hb | Hb]; rewrite Hb in *; vm_compute (2 ^ _) in Hlim; vm_compute (10 ^ _) in Hlen; lia.
    + specialize (Hlen room). rewrite Hroom in Hlen. lia.
  - rewrite strtol_ok; [|done|done|]; [|rewrite !elem_of_app; right; right; by left].
    rewrite strtol_ref_chars; try done; rewrite ?Hnum; try done.
    + by apply Forall_rev.
    + intros H0. apply Hne. by destruct ds; [|cbn in H0; apply app_nil in H0 as [_ ?]].
    + lia.
Qed.

Lemma radix_test : ((radix <? 2) || (radix >? 36))%bool = false.
Proof. zbool. done. Qed.

Lemma reads_unsigned (t : ty) (room : nat) (f : Z -> Z -> option (list Z)) v n w :
  ty_ok t -> Z.of_nat (S room) = bits t -> 0 <= n <= limit t false -> w = n ->
  f v radix = (ds ← put_digits (S room) n radix; Some (rev ds ++ [NUL])) -> reads_back isspace f t v radix w.
Proof.
  intros Ht Hroom Hn -> Hf. destruct (print_reads t false room n Ht Hroom Hn ltac:(done)) as (ds & Hput & Hlen & Hread).
  exists (rev ds ++ [NUL]). rewrite Hf, Hput. done.
Qed.

Lemma reads_negative (t : ty) (room : nat) (f : Z -> Z -> option (list Z)) v n w :
  ty_ok t -> Z.of_nat (S room) = bits t -> 0 <= n <= limit t true -> radix = 10 -> w = (if is_unsigned t then (- n) mod 2 ^ bits t else - n) ->
  f v radix = (ds ← put_digits (S room) n radix; Some ([MINUS] ++ rev ds ++ [NUL])) -> reads_back isspace f t v radix w.
Proof.
  intros Ht Hroom Hn Hten -> Hf. destruct (print_reads t true room n Ht Hroom Hn ltac:(done)) as (ds & Hput & Hlen & Hread).
  exists ([MINUS] ++ rev ds ++ [NUL]). rewrite Hf, Hput. done.
Qed.

(** What the signed functions print. *)
Lemma ltoa_eq v : - 2 ^ 31 <= v < 2 ^ 31 ->
  ltoa v radix = if (v <? 0) && (radix =? 10) then ds ← put_digits 32 (- v) radix; Some ([MINUS] ++ rev ds ++ [NUL])
                 else ds ← put_digits 32 (u32 v) radix; Some (rev ds ++ [NUL]).
Proof.
  intros Hv. unfold ltoa. rewrite radix_test. destruct ((v <? 0) && (radix =? 10)) eqn:Hb; [|done].
  replace (u32 (s32 (- v))) with (- v); [done|]. breflect. unfold u32, s32. rewrite Zminus_mod_idemp_l. replace (- v + 2 ^ 31 - 2 ^ 31) with (- v) by lia.
  symmetry. apply Z.mod_small. lia.
Qed.

Lemma lltoa_eq v : - 2 ^ 63 <= v < 2 ^ 63 ->
  lltoa v radix = if (v <? 0) && (radix =? 10) then ds ← put_digits 64 (- v) radix; Some ([MINUS] ++ rev ds ++ [NUL])
                  else ds ← put_digits 64 (u64 v) radix; Some (rev ds ++ [NUL]).
Proof.
  intros Hv. unfold lltoa. rewrite radix_test. destruct ((v <? 0) && (radix =? 10)) eqn:Hb; [|done].
  breflect. unfold utype. cbn [bits t_llong]. by rewrite Z.mod_small by lia.
Qed.

Lemma ltoa_reads v : - 2 ^ 31 <= v < 2 ^ 31 ->
  reads_back isspace ltoa t_ulong v radix (u32 v) /\ (0 <= v \/ radix = 10 -> reads_back isspace ltoa t_long v radix v).
Proof.
  intros Hv. pose proof (ltoa_eq v Hv) as Hf. destruct ((v <? 0) && (radix =? 10)) eqn:Hb.
  - breflect. split; [|intros _]; (apply (reads_negative _ 31 ltoa v (- v)); [side..|exact Hf]).
  - pose proof (u32_range v) as Hu. split; [|intros Hor; rewrite u32_small in Hf by (destruct (Z.ltb_spec v 0); breflect; lia)].
    + apply (reads_unsigned _ 31 ltoa v (u32 v)); [side..|exact Hf].
    + apply (reads_unsigned _ 31 ltoa v v); [side..| |side|exact Hf]. destruct (Z.ltb_spec v 0); cbn; breflect; lia.
Qed.

Lemma lltoa_reads v : - 2 ^ 63 <= v < 2 ^ 63 ->
  reads_back isspace lltoa t_ullong v radix (u64 v) /\ (0 <= v \/ radix = 10 -> reads_back isspace lltoa t_llong v radix v).
Proof.
  intros Hv. pose proof (lltoa_eq v Hv) as Hf. destruct ((v <? 0) && (radix =? 10)) eqn:Hb.
  - breflect. split; [|intros _]; (apply (reads_negative _ 63 lltoa v (- v)); [side..|exact Hf]).
  - assert (Hu : 0 <= u64 v < 2 ^ 64) by (apply Z.mod_pos_bound; lia).
    split; [|intros Hor; rewrite u64_small in Hf by (destruct (Z.ltb_spec v 0); breflect; lia)].
    + apply (reads_unsigned _ 63 lltoa v (u64 v)); [side..|exact Hf].
    + apply (reads_unsigned _ 63 lltoa v v); [side..| |side|exact Hf]. destruct (Z.ltb_spec v 0); cbn; breflect; lia.
Qed.
End Print.

(** C32: what [ltoa], [ultoa], [lltoa] and [ulltoa] print in a radix from 2 to
    36 is read back by the conversions of the same radix: by the unsigned one
    as the value modulo the size of the type, for every value; by the signed
    one as the value itself if it is not negative or the radix is 10 (a
    negative number is printed with a sign in radix 10 only). The digits fit
    into the buffers of 32 and 64 bytes. *)
Theorem ltoa_strtol_roundtrip isspace radix v :
  isspace NUL = false -> isspace MINUS = false -> (forall c, c ∈ digits -> isspace c = false) -> 2 <= radix <= 36 ->
  (0 <= v < 2 ^ 32 -> reads_back isspace ultoa t_ulong v radix v) /\
  (0 <= v < 2 ^ 64 -> reads_back isspace ulltoa t_ullong v radix v) /\
  (- 2 ^ 31 <= v < 2 ^ 31 -> reads_back isspace ltoa t_ulong v radix (u32 v) /\
    (0 <= v \/ radix = 10 -> reads_back isspace ltoa t_long v radix v)) /\
  (- 2 ^ 63 <= v < 2 ^ 63 -> reads_back isspace lltoa t_ullong v radix (u64 v) /\
    (0 <= v \/ radix = 10 -> reads_back isspace lltoa t_llong v radix v)).
Proof.
  intros Hnul Hminus Hdigit Hr. pose proof (radix_test radix Hr) as Hrt. split_and!.
  - intros Hv. apply (reads_unsigned isspace radix Hnul Hminus Hdigit Hr t_ulong 31 ultoa v v); [side..|]. unfold ultoa. by rewrite Hrt.
  - intros Hv. apply (reads_unsigned isspace radix Hnul Hminus Hdigit Hr t_ullong 63 ulltoa v v); [side..|]. unfold ulltoa. by rewrite Hrt.
  - by apply ltoa_reads.
  - by apply lltoa_reads.
Qed.

Lemma ltoa_strtol_roundtrip_witness :
  reads_back c_isspace ltoa t_long (- 2 ^ 31) 10 (- 2 ^ 31) /\ reads_back c_isspace ltoa t_ulong (-1) 36 4294967295 /\
  ltoa (-1) 36 = Some [49; 122; 49; 52; 49; 122; 51; 0].
Proof.
  assert (Hd : forall c, c ∈ digits -> c_isspace c = false).
  { intros c Hc. unfold digits in Hc. rewrite elem_of_app, !elem_of_zrange in Hc. unfold c_isspace. zbool. lia. }
  split_and!; [| |vm_compute; reflexivity].
  - apply (ltoa_strtol_roundtrip c_isspace 10 (- 2 ^ 31) eq_refl eq_refl Hd ltac:(lia)); [lia|by right].
  - apply (ltoa_strtol_roundtrip c_isspace 36 (-1) eq_refl eq_refl Hd ltac:(lia)). lia.
Defined.

(** ** Deviations *)

(** The radix is out of range: the end pointer is behind white space and sign. *)
Lemma strtol_edom_end :
  strtol c_isspace t_long [32; 45; 49; 50; 0] 1 = Some (mk_result 0 2 (Some EDOM)).
Proof. by vm_compute. Qed.

(** A prefix without digits behind it: the end pointer is behind the first
    byte of the string, which is the "0" only if nothing stands before it. *)
Lemma strtol_eats_first_byte :
  strtol c_isspace t_long [48; 120; 103; 0] 16 = Some (mk_result 0 1 None) /\
  strtol c_isspace t_long [32; 32; 48; 120; 103; 0] 16 = Some (mk_result 0 1 None).
Proof. by vm_compute. Qed.
