(* ===== verification/Stdio.v ===== *)
(** Streams of the standard I/O library ([src/src/emx/src/lib/io]): reading,
    writing, pushing back and seeking through a buffer ([_fill.c], [_flush.c],
    [_flushst.c], [_fbuf.c], [fread.c], [fwrite.c], [fflush.c], [fseek.c],
    [ftell.c], [ungetc.c], [setvbuf.c], [fgets.c], [fputs.c], [getdelim.c],
    [getputc.h]). The members of [FILE] and the bits of [_flags] are members of
    the record [stream]; [_ptr] is an index into the buffer, the bytes are
    unsigned. A stream has a file: the branches for the special streams of
    [sprintf] and [sscanf] are left out, and its [_flush] is [_flushstream].
    The locks are left out too. What a file handle and [malloc] do is the class
    [Handle]. [StdioSpec.v] has its laws and the abstract stream,
    [StdioProps.v] the theorems. *)

From S2P Require Import Prelude.

(** ** Data *)

Definition EOF : Z := -1.
Definition BUFSIZ : Z := 8192.
Definition NL : Z := 10.
Definition UCHAR_MAX : Z := 255.
Definition SEEK_SET : Z := 0.
Definition SEEK_CUR : Z := 1.
Definition SEEK_END : Z := 2.
Definition FLUSH_FLUSH : Z := -1.
Definition FLUSH_FILL : Z := -2.
Definition EACCES : Z := 13.
Definition IOFBF : Z := 0.
Definition IOLBF : Z := 0x20.
Definition IONBF : Z := 0x40.

(** Conversion to [unsigned char]. *)
Definition uchar (z : Z) : Z := z mod 256.

(** The flags of [__LIBC_FH] that the streams look at. *)
Record fh := mk_fh { F_CRLF : bool; O_APPEND : bool; O_TEXT : bool }.

(** A file handle: [_stream_read] gives its result and the bytes it stores,
    [is_file] is [ioctl (FGETHTYPE) >= 0 && ft == HT_FILE], a successful
    allocation gives the contents of the new block. *)
Class Handle (H : Type) := {
  stream_read : Z -> H -> Z * list Z * H;
  stream_write : list Z -> H -> Z * H;
  lseek : Z -> Z -> H -> Z * H;
  tell : H -> Z;
  is_file : H -> bool;
  libc_FH : H -> option fh;
  malloc : Z -> H -> option (list Z) * H
}.

(** [_IOBUFMASK] *)
Inductive buftype := BufNone | BufUser | BufChar | BufLib | BufTmp.
#[export] Instance buftype_eq_dec : EqDecision buftype.
Proof. solve_decision. Defined.

(** [FILE], its handle and [errno]. *)
Record stream (H : Type) := mk_stream {
  ptr : Z;
  buffer : list Z;
  rcount : Z;
  wcount : Z;
  buf_size : Z;
  ungetc_count : Z;
  char_buf : Z;
  ioread : bool;
  iowrt : bool;
  iorw : bool;
  ioeof : bool;
  ioerr : bool;
  iolbf : bool;
  ionbf : bool;
  ioopen : bool;
  ioungetc : bool;
  iobuf : buftype;
  hnd : H;
  errno : Z }.
Arguments mk_stream {H}.
Arguments ptr {H}.
Arguments buffer {H}.
Arguments rcount {H}.
Arguments wcount {H}.
Arguments buf_size {H}.
Arguments ungetc_count {H}.
Arguments char_buf {H}.
Arguments ioread {H}.
Arguments iowrt {H}.
Arguments iorw {H}.
Arguments ioeof {H}.
Arguments ioerr {H}.
Arguments iolbf {H}.
Arguments ionbf {H}.
Arguments ioopen {H}.
Arguments ioungetc {H}.
Arguments iobuf {H}.
Arguments hnd {H}.
Arguments errno {H}.

Section Stdio.
Context {H : Type} `{Handle H}.

Definition set_ptr (x : Z) (s : stream H) : stream H :=
  mk_stream x (buffer s) (rcount s) (wcount s) (buf_size s) (ungetc_count s) (char_buf s) (ioread s) (iowrt s) (iorw s) (ioeof s) (ioerr s) (iolbf s) (ionbf s) (ioopen s) (ioungetc s) (iobuf s) (hnd s) (errno s).
Definition set_buffer (x : list Z) (s : stream H) : stream H :=
  mk_stream (ptr s) x (rcount s) (wcount s) (buf_size s) (ungetc_count s) (char_buf s) (ioread s) (iowrt s) (iorw s) (ioeof s) (ioerr s) (iolbf s) (ionbf s) (ioopen s) (ioungetc s) (iobuf s) (hnd s) (errno s).
Definition set_rcount (x : Z) (s : stream H) : stream H :=
  mk_stream (ptr s) (buffer s) x (wcount s) (buf_size s) (ungetc_count s) (char_buf s) (ioread s) (iowrt s) (iorw s) (ioeof s) (ioerr s) (iolbf s) (ionbf s) (ioopen s) (ioungetc s) (iobuf s) (hnd s) (errno s).
Definition set_wcount (x : Z) (s : stream H) : stream H :=
  mk_stream (ptr s) (buffer s) (rcount s) x (buf_size s) (ungetc_count s) (char_buf s) (ioread s) (iowrt s) (iorw s) (ioeof s) (ioerr s) (iolbf s) (ionbf s) (ioopen s) (ioungetc s) (iobuf s) (hnd s) (errno s).
Definition set_buf_size (x : Z) (s : stream H) : stream H :=
  mk_stream (ptr s) (buffer s) (rcount s) (wcount s) x (ungetc_count s) (char_buf s) (ioread s) (iowrt s) (iorw s) (ioeof s) (ioerr s) (iolbf s) (ionbf s) (ioopen s) (ioungetc s) (iobuf s) (hnd s) (errno s).
Definition set_ungetc_count (x : Z) (s : stream H) : stream H :=
  mk_stream (ptr s) (buffer s) (rcount s) (wcount s) (buf_size s) x (char_buf s) (ioread s) (iowrt s) (iorw s) (ioeof s) (ioerr s) (iolbf s) (ionbf s) (ioopen s) (ioungetc s) (iobuf s) (hnd s) (errno s).
Definition set_char_buf (x : Z) (s : stream H) : stream H :=
  mk_stream (ptr s) (buffer s) (rcount s) (wcount s) (buf_size s) (ungetc_count s) x (ioread s) (iowrt s) (iorw s) (ioeof s) (ioerr s) (iolbf s) (ionbf s) (ioopen s) (ioungetc s) (iobuf s) (hnd s) (errno s).
Definition set_ioread (x : bool) (s : stream H) : stream H :=
  mk_stream (ptr s) (buffer s) (rcount s) (wcount s) (buf_size s) (ungetc_count s) (char_buf s) x (iowrt s) (iorw s) (ioeof s) (ioerr s) (iolbf s) (ionbf s) (ioopen s) (ioungetc s) (iobuf s) (hnd s) (errno s).
Definition set_iowrt (x : bool) (s : stream H) : stream H :=
  mk_stream (ptr s) (buffer s) (rcount s) (wcount s) (buf_size s) (ungetc_count s) (char_buf s) (ioread s) x (iorw s) (ioeof s) (ioerr s) (iolbf s) (ionbf s) (ioopen s) (ioungetc s) (iobuf s) (hnd s) (errno s).
Definition set_iorw (x : bool) (s : stream H) : stream H :=
  mk_stream (ptr s) (buffer s) (rcount s) (wcount s) (buf_size s) (ungetc_count s) (char_buf s) (ioread s) (iowrt s) x (ioeof s) (ioerr s) (iolbf s) (ionbf s) (ioopen s) (ioungetc s) (iobuf s) (hnd s) (errno s).
Definition set_ioeof (x : bool) (s : stream H) : stream H :=
  mk_stream (ptr s) (buffer s) (rcount s) (wcount s) (buf_size s) (ungetc_count s) (char_buf s) (ioread s) (iowrt s) (iorw s) x (ioerr s) (iolbf s) (ionbf s) (ioopen s) (ioungetc s) (iobuf s) (hnd s) (errno s).
Definition set_ioerr (x : bool) (s : stream H) : stream H :=
  mk_stream (ptr s) (buffer s) (rcount s) (wcount s) (buf_size s) (ungetc_count s) (char_buf s) (ioread s) (iowrt s) (iorw s) (ioeof s) x (iolbf s) (ionbf s) (ioopen s) (ioungetc s) (iobuf s) (hnd s) (errno s).
Definition set_iolbf (x : bool) (s : stream H) : stream H :=
  mk_stream (ptr s) (buffer s) (rcount s) (wcount s) (buf_size s) (ungetc_count s) (char_buf s) (ioread s) (iowrt s) (iorw s) (ioeof s) (ioerr s) x (ionbf s) (ioopen s) (ioungetc s) (iobuf s) (hnd s) (errno s).
Definition set_ionbf (x : bool) (s : stream H) : stream H :=
  mk_stream (ptr s) (buffer s) (rcount s) (wcount s) (buf_size s) (ungetc_count s) (char_buf s) (ioread s) (iowrt s) (iorw s) (ioeof s) (ioerr s) (iolbf s) x (ioopen s) (ioungetc s) (iobuf s) (hnd s) (errno s).
Definition set_ioopen (x : bool) (s : stream H) : stream H :=
  mk_stream (ptr s) (buffer s) (rcount s) (wcount s) (buf_size s) (ungetc_count s) (char_buf s) (ioread s) (iowrt s) (iorw s) (ioeof s) (ioerr s) (iolbf s) (ionbf s) x (ioungetc s) (iobuf s) (hnd s) (errno s).
Definition set_ioungetc (x : bool) (s : stream H) : stream H :=
  mk_stream (ptr s) (buffer s) (rcount s) (wcount s) (buf_size s) (ungetc_count s) (char_buf s) (ioread s) (iowrt s) (iorw s) (ioeof s) (ioerr s) (iolbf s) (ionbf s) (ioopen s) x (iobuf s) (hnd s) (errno s).
Definition set_iobuf (x : buftype) (s : stream H) : stream H :=
  mk_stream (ptr s) (buffer s) (rcount s) (wcount s) (buf_size s) (ungetc_count s) (char_buf s) (ioread s) (iowrt s) (iorw s) (ioeof s) (ioerr s) (iolbf s) (ionbf s) (ioopen s) (ioungetc s) x (hnd s) (errno s).
Definition set_hnd (x : H) (s : stream H) : stream H :=
  mk_stream (ptr s) (buffer s) (rcount s) (wcount s) (buf_size s) (ungetc_count s) (char_buf s) (ioread s) (iowrt s) (iorw s) (ioeof s) (ioerr s) (iolbf s) (ionbf s) (ioopen s) (ioungetc s) (iobuf s) x (errno s).
Definition set_errno (x : Z) (s : stream H) : stream H :=
  mk_stream (ptr s) (buffer s) (rcount s) (wcount s) (buf_size s) (ungetc_count s) (char_buf s) (ioread s) (iowrt s) (iorw s) (ioeof s) (ioerr s) (iolbf s) (ionbf s) (ioopen s) (ioungetc s) (iobuf s) (hnd s) x.

Definition SM : Type -> Type := M (stream H).

Definition nbuf (s : stream H) : bool := bool_decide (iobuf s = BufNone).
Definition bbuf (s : stream H) : bool := match iobuf s with BufUser | BufLib | BufTmp => true | _ => false end.
Definition crlf (s : stream H) : bool := match libc_FH (hnd s) with Some f => F_CRLF f | None => false end.
Definition otext (s : stream H) : bool := match libc_FH (hnd s) with Some f => O_TEXT f | None => false end.
Definition append (s : stream H) : bool := match libc_FH (hnd s) with Some f => O_APPEND f | None => false end.

(** A call of a function on the handle. *)
Definition call {A} (f : H -> A * H) : SM A := fun s => let '(a, h) := f (hnd s) in Done a (set_hnd h s).

(** [buffer[lo]] to [buffer[lo + n - 1]] *)
Definition slice (lo n : Z) : SM (list Z) :=
  s ← mget;
  if n <=? 0 then mret []
  else if (0 <=? lo) && (lo + n <=? alen (buffer s)) then mret (take (Z.to_nat n) (drop (Z.to_nat lo) (buffer s)))
  else mfail Ub.

(** [buffer[i] = c] *)
Definition put (i c : Z) : SM unit := s ← mget; _ ← deref (aget (buffer s) i); mput (set_buffer (aset (buffer s) i c) s).

(** Bytes stored at the start of the buffer. *)
Definition store (l : list Z) : SM unit :=
  s ← mget; if alen l <=? alen (buffer s) then mput (set_buffer (l ++ drop (length l) (buffer s)) s) else mfail Ub.

Definition newlines (l : list Z) : Z := sumZ ((fun c => Z.b2z (c =? NL)) <$> l).

(** ** Buffers *)

Definition fbuf : SM unit :=
  s ← mget;
  b ← (if ionbf s then mret None else call (malloc BUFSIZ));
  _ ← (match b with
       | None => mmod (fun s => set_buf_size 1 (set_buffer [char_buf s] (set_iolbf false (set_ionbf true (set_iobuf BufChar s)))))
       | Some l => mmod (fun s => set_buf_size BUFSIZ (set_buffer l (set_iobuf BufLib s)))
       end);
  mmod (fun s => set_ptr 0 (set_rcount 0 (set_wcount 0 (set_ungetc_count 0 s)))).

(** [if (_nbuf (stream)) _fbuf (stream);] *)
Definition need_buf : SM unit := s ← mget; mwhen (nbuf s) fbuf.

(** ** Positions *)

Definition ftello_unlocked : SM Z :=
  s ← mget;
  let pos := tell (hnd s) in
  if pos =? -1 then mret (-1)
  else if iowrt s then
    if bbuf s then
      if otext s then d ← slice 0 (ptr s); mret (pos + ptr s + newlines d) else mret (pos + ptr s)
    else mret pos
  else if ioread s then
    if (ungetc_count s =? 0) && crlf s then d ← slice (ptr s) (rcount s); mret (pos - rcount s - newlines d)
    else if negb (ungetc_count s =? 0) then mret (pos + rcount s - ungetc_count s)
    else mret (pos - rcount s)
  else mret pos.

Definition fflush_unlocked : SM Z :=
  s ← mget;
  result ← (if iowrt s && bbuf s && (ptr s >? 0) then
              d ← slice 0 (ptr s); w ← call (stream_write d);
              if w <=? 0 then _ ← mmod (set_ioerr true); mret EOF else mret 0
            else mret 0);
  _ ← mmod (fun s => if negb (ungetc_count s =? 0) then set_ungetc_count 0 (set_rcount (- rcount s) s) else s);
  _ ← mmod (set_ioungetc false);
  s ← mget;
  _ ← mwhen (ioread s && bbuf s && is_file (hnd s))
        (pos ← ftello_unlocked; mwhen (negb (pos =? -1)) (_ ← call (lseek pos SEEK_SET); mret ()));
  _ ← mmod (fun s => set_ptr 0 (set_rcount 0 (set_wcount 0 s)));
  _ ← mmod (fun s => if iorw s && iowrt s then set_iowrt false s else s);
  mret result.

(** The walk to [offset] through a buffer with translated newlines. *)
Fixpoint text_walk (fuel : nat) (offset tmp_pos p : Z) : SM Z :=
  match fuel with
  | O => mfail Hang
  | S fuel' =>
      if tmp_pos <? offset then
        s ← mget; c ← deref (aget (buffer s) p);
        if c =? NL then
          if tmp_pos + 1 >=? offset then mret p else text_walk fuel' offset (tmp_pos + 2) (p + 1)
        else text_walk fuel' offset (tmp_pos + 1) (p + 1)
      else mret p
  end.

(** The part of [_fseek_unlocked] that stays within the buffer: a result, or
    the position, offset and origin to go on with. *)
Definition fseek_text (cur_pos offset : Z) : SM (Z + Z * Z * Z) :=
  s ← mget;
  let n := ptr s in
  buf_pos ← (if offset >=? cur_pos then mret cur_pos else d ← slice 0 n; mret (cur_pos - n - newlines d));
  if offset >=? buf_pos then
    p ← (if offset >=? cur_pos then text_walk (S (length (buffer s))) offset cur_pos (ptr s)
         else text_walk (S (length (buffer s))) offset buf_pos 0);
    _ ← mmod (fun s => set_rcount (rcount s - (p - ptr s)) (set_ptr p (set_ioeof false s)));
    mret (inl 0)
  else mret (inr (cur_pos, offset, SEEK_SET)).

Definition fseek_buffer (offset origin : Z) : SM (Z + Z * Z * Z) :=
  s ← mget;
  let file_pos := tell (hnd s) in
  if file_pos =? -1 then mret (inl EOF)
  else
    cur_pos ← ftello_unlocked;
    x ← (if origin =? SEEK_CUR then mret (Some (s64 (offset + cur_pos)))
         else if origin =? SEEK_END then
           end_pos ← call (lseek 0 SEEK_END); _ ← call (lseek file_pos SEEK_SET);
           mret (if end_pos =? -1 then None else Some (s64 (offset + end_pos)))
         else mret (Some offset));
    match x with
    | None => mret (inl EOF)
    | Some offset =>
        s ← mget;
        let n := ptr s in
        let buf_pos := if crlf s then cur_pos - 2 * n else cur_pos - n in
        if (offset >=? buf_pos) && (offset <? file_pos) then
          if crlf s then fseek_text cur_pos offset
          else
            _ ← mmod (fun s => set_ptr (offset - buf_pos) (set_rcount (file_pos - offset) (set_ioeof false s)));
            mret (inl 0)
        else mret (inr (cur_pos, offset, SEEK_SET))
    end.

(** The rest of [_fseek_unlocked]. *)
Definition fseek_flush (cur_pos offset origin : Z) : SM Z :=
  cur_pos ← (if (origin =? SEEK_CUR) && (cur_pos =? -1) then ftello_unlocked else mret cur_pos);
  fflush_result ← fflush_unlocked;
  _ ← mmod (set_ioeof false);
  _ ← mmod (fun s => if iorw s then set_ioread false (set_iowrt false s) else s);
  let seek (offset origin : Z) : SM Z := r ← call (lseek offset origin); mret (if r =? -1 then EOF else fflush_result) in
  if origin =? SEEK_CUR then
    cur_pos ← (if cur_pos =? -1 then ftello_unlocked else mret cur_pos);
    if cur_pos =? -1 then s ← mget; mret (if (offset =? 0) && iorw s then fflush_result else EOF)
    else seek (s64 (offset + cur_pos)) SEEK_SET
  else seek offset origin.

Definition fseek_unlocked (offset origin : Z) : SM Z :=
  s ← mget;
  if negb (ioopen s) || (origin <? 0) || (origin >? 2) then _ ← mmod (set_errno EINVAL); mret EOF
  else
    x ← (if negb (iorw s) && ioread s && negb (iowrt s) && negb (ioungetc s) && bbuf s && (ungetc_count s =? 0)
         then fseek_buffer offset origin else mret (inr (-1, offset, origin)));
    match x with
    | inl r => mret r
    | inr (cur_pos, offset, origin) => fseek_flush cur_pos offset origin
    end.

Definition rewind : SM unit := _ ← fflush_unlocked; _ ← fseek_unlocked 0 SEEK_SET; mmod (set_ioerr false).

(** ** Reading *)

(** [_IOERR], [errno = EACCES] *)
Definition refuse : SM unit := mmod (fun s => set_ioerr true (set_errno EACCES s)).

(** At the end of the file: [_IOEOF], and a stream for both directions is in
    neither. *)
Definition at_eof : SM unit :=
  mmod (fun s => set_ioeof true (if iorw s then set_ioread false (set_iowrt false s) else s)).

(** Leaves write mode; [false] if that fails. *)
Definition to_read : SM bool :=
  s ← mget;
  if iowrt s then
    rc ← (if iorw s then fseek_unlocked 0 SEEK_CUR else mret 0);
    if negb (rc =? 0) then mret false
    else s ← mget; if iowrt s then _ ← refuse; mret false else mret true
  else mret true.

Definition fill : SM Z :=
  _ ← mmod (fun s => set_rcount (rcount s + 1) s);
  s ← mget;
  if negb (ioopen s) then _ ← mmod (set_errno EACCES); mret EOF
  else
    ok ← to_read;
    if negb ok then mret EOF
    else
      s ← mget;
      if negb (ungetc_count s =? 0) then
        let uc := ungetc_count s - 1 in
        c ← deref (aget (buffer s) uc);
        _ ← mmod (fun s => set_ungetc_count uc (if uc =? 0 then set_rcount (- rcount s) s else s));
        mret c
      else
        _ ← mmod (fun s => set_ioread true (set_wcount 0 s));
        s ← mget;
        _ ← (if nbuf s then fbuf else mmod (set_ptr 0));
        _ ← mmod (set_ioungetc false);
        s ← mget;
        x ← call (stream_read (buf_size s));
        let '(r, d) := x : Z * list Z in
        _ ← store d;
        _ ← mmod (set_rcount r);
        if r <? 0 then _ ← mmod (fun s => set_ioerr true (set_rcount 0 s)); mret EOF
        else if r =? 0 then _ ← at_eof; mret EOF
        else
          _ ← mmod (set_rcount (r - 1));
          s ← mget; c ← deref (aget (buffer s) (ptr s));
          _ ← mmod (set_ptr (ptr s + 1)); mret c.

(** [_getc_inline] *)
Definition getc : SM Z :=
  _ ← mmod (fun s => set_rcount (rcount s - 1) s);
  s ← mget;
  if rcount s >=? 0 then c ← deref (aget (buffer s) (ptr s)); _ ← mmod (set_ptr (ptr s + 1)); mret c
  else fill.

(** [memcpy (dst, stream->_ptr, n)] and what follows it. *)
Definition take_buffer (left : Z) : SM (list Z) :=
  s ← mget;
  let n := Z.min (rcount s) left in
  d ← slice (ptr s) n;
  _ ← mmod (set_ptr (ptr s + n)); _ ← mmod (set_rcount (rcount s - n)); mret d.

(** [--stream->_rcount; c = _fill (stream);] *)
Definition fill_one : SM Z := _ ← mmod (fun s => set_rcount (rcount s - 1) s); fill.

(** The loops of [fread_unlocked]: [acc] has been stored. *)
Fixpoint fread_buffered (fuel : nat) (left : Z) (acc : list Z) : SM (list Z) :=
  if left =? 0 then mret acc
  else match fuel with
  | O => mfail Hang
  | S fuel' =>
      s ← mget;
      if rcount s >? 0 then d ← take_buffer left; fread_buffered fuel' (left - alen d) (acc ++ d)
      else if (left >? BUFSIZ) && (ungetc_count s =? 0) then
        x ← call (stream_read (left / BUFSIZ * BUFSIZ));
        let '(r, d) := x : Z * list Z in
        if r <? 0 then _ ← mmod (set_ioerr true); mret acc
        else if r =? 0 then _ ← mmod (set_ptr 0); _ ← at_eof; mret acc
        else fread_buffered fuel' (left - r) (acc ++ d)
      else
        c ← fill_one;
        if c =? EOF then mret acc else fread_buffered fuel' (left - 1) (acc ++ [c])
  end.

Fixpoint fread_unbuffered (fuel : nat) (left : Z) (acc : list Z) : SM (list Z) :=
  if left =? 0 then mret acc
  else match fuel with
  | O => mfail Hang
  | S fuel' =>
      s ← mget;
      if negb (ungetc_count s =? 0) then
        c ← fill_one;
        if c =? EOF then mret acc else fread_unbuffered fuel' (left - 1) (acc ++ [c])
      else
        x ← call (stream_read left);
        let '(r, d) := x : Z * list Z in
        if r <? 0 then _ ← mmod (set_ioerr true); mret acc
        else if r =? 0 then _ ← mmod (set_ptr 0); _ ← at_eof; mret acc
        else fread_unbuffered fuel' (left - r) (acc ++ d)
  end.

(** The result and the bytes stored. *)
Definition fread_unlocked (size count : Z) : SM (Z * list Z) :=
  if (size =? 0) || (count =? 0) then mret (0, [])
  else
    let total := u32 (size * count) in
    if negb (total / count =? size) then _ ← mmod (set_errno ERANGE); mret (0, [])
    else
      s ← mget;
      if negb (ioread s) && negb (iorw s) && iowrt s then _ ← refuse; mret (0, [])
      else
        _ ← need_buf;
        _ ← mmod (set_ioread true);
        s ← mget;
        d ← (if bbuf s then fread_buffered (S (Z.to_nat total)) total []
             else
               d ← (if rcount s >? 0 then take_buffer total else mret []);
               fread_unbuffered (S (Z.to_nat total)) (total - alen d) d);
        mret (alen d / size, d).

(** ** Writing *)

Definition flushstream (c : Z) : SM Z :=
  if c =? FLUSH_FILL then _ ← mmod (set_errno EACCES); mret EOF
  else
    _ ← mmod (fun s => set_iowrt true (set_rcount 0 (set_ioeof false (set_wcount 0 s))));
    _ ← need_buf;
    s ← mget;
    nw ← (if bbuf s then
            let n := ptr s in
            ncw ← (if n >? 0 then
                     nc ← (if n <? buf_size s then _ ← put n (uchar c); mret (n + 1, -1) else mret (n, c));
                     let '(n, c) := nc : Z * Z in
                     d ← slice 0 n; w ← call (stream_write d); mret (n, c, w)
                   else
                     _ ← mwhen (append s) (_ ← call (lseek 0 SEEK_END); mret ()); mret (n, c, 0));
            let '(n, c, w) := ncw : Z * Z * Z in
            _ ← mmod (fun s => set_ptr 0 (set_wcount (buf_size s) s));
            s ← mget;
            n ← (if (c =? NL) && iolbf s then
                   w1 ← call (stream_write [uchar c]); mret (if w1 =? 1 then n else n + 1)
                 else if c >=? 0 then
                   _ ← put 0 (uchar c); _ ← mmod (fun s => set_ptr 1 (set_wcount (wcount s - 1) s)); mret n
                 else mret n);
            mret (n, w)
          else w ← call (stream_write [uchar c]); _ ← mmod (set_wcount 0); mret (1, w));
    let '(n, w) := nw : Z * Z in
    if negb (n =? w) then _ ← mmod (set_ioerr true); mret EOF else mret 0.

(** Leaves read mode; [false] if that fails. *)
Definition to_write : SM bool :=
  s ← mget;
  if ioread s then
    rc ← (if iorw s then fseek_unlocked 0 SEEK_CUR else mret 0);
    if negb (rc =? 0) then mret false
    else s ← mget; if ioread s then _ ← refuse; mret false else mret true
  else mret true.

Definition flush (c : Z) : SM Z :=
  _ ← mmod (set_wcount 0);
  s ← mget;
  if negb (ioopen s) then _ ← mmod (set_errno EACCES); mret EOF
  else
    ok ← to_write;
    if negb ok then mret EOF
    else r ← flushstream (uchar c); mret (if negb (r =? 0) then EOF else uchar c).

(** [_putc_inline] *)
Definition putc (c : Z) : SM Z :=
  _ ← mmod (fun s => set_wcount (wcount s - 1) s);
  s ← mget;
  if (wcount s >=? 0) && (negb (c =? NL) || negb (iolbf s)) then
    _ ← put (ptr s) (uchar c); _ ← mmod (fun s => set_ptr (ptr s + 1) s); mret (uchar c)
  else flush c.

(** [while (n != 0)] of [fwrite_internal]: writes the buffer; [false] after an
    error. *)
Fixpoint write_buffer (fuel : nat) (n : Z) : SM bool :=
  if n =? 0 then mret true
  else match fuel with
  | O => mfail Hang
  | S fuel' =>
      s ← mget; d ← slice (ptr s) n; w ← call (stream_write d);
      if w <=? 0 then _ ← mmod (set_ioerr true); mret false
      else _ ← mmod (fun s => set_ptr (ptr s + w) s); write_buffer fuel' (n - w)
  end.

(** [fwrite_internal]: the number of bytes of [src] left over. *)
Fixpoint fwrite_buffered (fuel : nat) (src : list Z) : SM Z :=
  let left := alen src in
  if left =? 0 then mret 0
  else match fuel with
  | O => mfail Hang
  | S fuel' =>
      s ← mget;
      if left <=? wcount s then
        _ ← (if (0 <=? ptr s) && (ptr s + left <=? alen (buffer s))
             then mput (set_buffer (take (Z.to_nat (ptr s)) (buffer s) ++ src ++ drop (Z.to_nat (ptr s + left)) (buffer s)) s)
             else mfail Ub);
        _ ← mmod (fun s => set_ptr (ptr s + left) (set_wcount (wcount s - left) s)); mret 0
      else if negb (ptr s =? 0) then
        let n := ptr s in
        _ ← mmod (set_ptr 0);
        ok ← write_buffer (S (Z.to_nat n)) n;
        if negb ok then mret left
        else _ ← mmod (fun s => set_ptr 0 (set_wcount (buf_size s) s)); fwrite_buffered fuel' src
      else
        w ← call (stream_write src);
        if w <=? 0 then _ ← mmod (set_ioerr true); mret left
        else fwrite_buffered fuel' (drop (Z.to_nat w) src)
  end.

Fixpoint fwrite_unbuffered (fuel : nat) (src : list Z) : SM Z :=
  if alen src =? 0 then mret 0
  else match fuel with
  | O => mfail Hang
  | S fuel' =>
      w ← call (stream_write src);
      if w <=? 0 then _ ← mmod (set_ioerr true); mret (alen src)
      else fwrite_unbuffered fuel' (drop (Z.to_nat w) src)
  end.

Definition fwrite_internal (src : list Z) : SM Z :=
  s ← mget;
  if bbuf s then
    _ ← mmod (fun s => if (wcount s =? 0) && (ptr s =? 0) then set_wcount (buf_size s) s else s);
    fwrite_buffered (S (S (length src))) src
  else fwrite_unbuffered (S (length src)) src.

(** [_memrchr (src, '\n', total)]: the number of bytes up to the last newline. *)
Fixpoint to_newline (src : list Z) : option nat :=
  match src with
  | [] => None
  | c :: src' => match to_newline src' with
                 | Some n => Some (S n)
                 | None => if c =? NL then Some 1%nat else None
                 end
  end.

(** [src] has [size * count] bytes. *)
Definition fwrite_unlocked (src : list Z) (size count : Z) : SM Z :=
  ok ← to_write;
  if negb ok then mret 0
  else if (size =? 0) || (count =? 0) then mret 0
  else
    let total := u32 (size * count) in
    if negb (total / count =? size) then _ ← mmod (set_errno ERANGE); mret 0
    else
      _ ← need_buf;
      _ ← mmod (set_iowrt true);
      s ← mget;
      left ← (if iolbf s then
                match to_newline src with
                | None => fwrite_internal src
                | Some n =>
                    l ← fwrite_internal (take n src);
                    let left := l + total - Z.of_nat n in
                    if left =? total - Z.of_nat n then
                      r ← fflush_unlocked;
                      if negb (r =? 0) then mret total
                      else if negb (left =? 0) then fwrite_internal (drop n src)
                      else mret left
                    else mret left
                end
              else fwrite_internal src);
      mret ((total - left) / size).

(** [fputs] of a string of these bytes. *)
Definition fputs (string : list Z) : SM Z :=
  let len := alen string in
  if len =? 0 then mret 0 else r ← fwrite_unlocked string len 1; mret (if r =? 1 then 0 else EOF).

(** ** Pushing back *)

Definition ungetc (c : Z) : SM Z :=
  s ← mget;
  if negb (ioopen s) || (c =? EOF) then mret EOF
  else if iowrt s then _ ← refuse; mret EOF
  else
    _ ← mmod (fun s => set_ioread true (set_wcount 0 s));
    _ ← need_buf;
    s ← mget;
    if ungetc_count s =? UCHAR_MAX then mret EOF
    else if ungetc_count s >=? buf_size s then mret EOF
    else
      ok ← (if negb (rcount s =? 0) && (ptr s <? ungetc_count s + 1) then
              if negb (is_file (hnd s)) then mret false
              else
                let uc := ungetc_count s in
                r ← fflush_unlocked;
                if negb (r =? 0) then mret false else _ ← mmod (set_ungetc_count uc); mret true
            else mret true);
      if negb ok then mret EOF
      else
        s ← mget;
        _ ← put (ungetc_count s) (uchar c);
        _ ← mmod (set_ioungetc true);
        _ ← mmod (fun s => if ungetc_count s =? 0 then set_rcount (- rcount s) s else s);
        _ ← mmod (fun s => set_ungetc_count (ungetc_count s + 1) s);
        _ ← mmod (set_ioeof false);
        mret (uchar c).

(** ** Lines *)

(** The loop of [fgets_unlocked]; [None] is the NULL result. *)
Fixpoint fgets_loop (n : nat) (acc : list Z) : SM (option (list Z)) :=
  match n with
  | O => mret (Some (acc ++ [0]))
  | S n' =>
      c ← getc;
      if c =? EOF then
        s ← mget; mret (if bool_decide (acc = []) || ioerr s then None else Some (acc ++ [0]))
      else if c =? NL then mret (Some (acc ++ [c; 0]))
      else fgets_loop n' (acc ++ [c])
  end.

Definition fgets (n : Z) : SM (option (list Z)) :=
  if n <=? 0 then mret None else fgets_loop (Z.to_nat (n - 1)) [].

(** [getdelim]: the caller's buffer has [cap] bytes, [acc] of them are in use;
    the result, the bytes stored and the new size of the buffer. [realloc] is
    an allocation that keeps the bytes. *)
Definition grow (cap : Z) : Z := u32 (cap + (if cap <? 1024 * 1024 then cap else 1024 * 1024)).

Fixpoint getdelim_loop (fuel : nat) (delim cap : Z) (acc : list Z) : SM (Z * list Z * Z) :=
  match fuel with
  | O => mfail Hang
  | S fuel' =>
      c ← getc;
      if c =? EOF then mret (if bool_decide (acc = []) then -1 else alen acc, acc ++ [0], cap)
      else
        cap' ← (if alen acc =? cap - 1 then b ← call (malloc (grow cap)); mret (match b with Some _ => Some (grow cap) | None => None end)
                else mret (Some cap));
        match cap' with
        | None => mret (-1, acc ++ [0], cap)
        | Some cap =>
            if alen acc <? cap - 1 then
              if c =? delim then mret (alen acc + 1, acc ++ [c; 0], cap) else getdelim_loop fuel' delim cap (acc ++ [c])
            else mfail Ub
        end
  end.

Definition getdelim (fuel : nat) (delim : Z) (cap : option Z) : SM (option (Z * list Z * Z)) :=
  cap ← (match cap with
         | Some n => if n =? 0 then b ← call (malloc 128); mret (match b with Some _ => Some 128 | None => None end) else mret (Some n)
         | None => b ← call (malloc 128); mret (match b with Some _ => Some 128 | None => None end)
         end);
  match cap with
  | None => mret None
  | Some cap => r ← getdelim_loop fuel delim cap []; mret (Some r)
  end.

(** ** [setvbuf] *)

(** [buf]: the caller's buffer, of [size] bytes. *)
Definition setvbuf (buf : option (list Z)) (mode size : Z) : SM Z :=
  s ← mget;
  if negb (ioopen s) || (negb (mode =? IONBF) && negb (mode =? IOFBF) && negb (mode =? IOLBF)) then mret EOF
  else
    _ ← fflush_unlocked;
    _ ← mmod (fun s => set_iobuf BufNone (set_iolbf false (set_ionbf false s)));
    let modes (s : stream H) := set_iolbf (mode =? IOLBF) (set_ionbf (mode =? IONBF) s) in
    let finish : SM Z := _ ← mmod (fun s => set_ptr 0 (set_rcount 0 (set_wcount 0 s))); mret 0 in
    if mode =? IONBF then
      _ ← mmod (fun s => set_buf_size 1 (set_buffer [char_buf s] (set_ionbf true (set_iobuf BufChar s)))); finish
    else match buf with
    | Some b =>
        if (size >=? 1) && (size <=? 0x400000) then
          _ ← mmod (fun s => set_buf_size size (set_buffer b (modes (set_iobuf BufUser s)))); finish
        else
          l ← call (malloc BUFSIZ);
          match l with
          | None => mret EOF
          | Some b => _ ← mmod (fun s => set_buf_size BUFSIZ (set_buffer b (modes (set_iobuf BufLib s)))); finish
          end
    | None =>
        let size := if (size <? 1) || (size >? 0x400000) then BUFSIZ else size in
        l ← call (malloc size);
        match l with
        | None => mret EOF
        | Some b => _ ← mmod (fun s => set_buf_size size (set_buffer b (modes (set_iobuf BufLib s)))); finish
        end
    end.

(** ** Opening *)

Definition O_RDONLY : Z := 0.
Definition O_WRONLY : Z := 1.
Definition O_RDWR : Z := 2.
Definition O_APPEND_BIT : Z := 0x8.
Definition O_CREAT : Z := 0x200.
Definition O_TRUNC : Z := 0x400.
Definition O_BINARY : Z := 0x20000.
Definition O_TEXT_BIT : Z := 0x40000.

(** The modifiers of a mode: whether there is a plus sign, and the open mode. *)
Fixpoint mode_loop (mode : list Z) (bt rw : bool) (omode : Z) : bool * Z :=
  match mode with
  | [] => (rw, omode)
  | c :: mode' =>
      if (c =? 116) && negb bt then mode_loop mode' true rw (Z.lor omode O_TEXT_BIT)
      else if (c =? 98) && negb bt then mode_loop mode' true rw (Z.lor omode O_BINARY)
      else if (c =? 43) && negb rw then mode_loop mode' bt true (Z.lor (Z.land omode (Z.lnot (Z.lor O_RDONLY O_WRONLY))) O_RDWR)
      else (rw, omode)
  end.

(** A value of [_flags] with these bits and no others. *)
Definition set_flags (rd wr rw op : bool) (s : stream H) : stream H :=
  mk_stream (ptr s) (buffer s) (rcount s) (wcount s) (buf_size s) (ungetc_count s) (char_buf s) rd wr rw false false false false op false BufNone (hnd s) (errno s).

(** [_openstream]: [sopen] is the call of the function of that name, given the
    open mode; [false] is the NULL result. *)
Definition openstream (sopen : Z -> H -> bool * H) (mode : list Z) : SM bool :=
  let start := match mode with
               | c :: _ => if c =? 114 then Some (true, O_RDONLY)
                           else if c =? 119 then Some (false, Z.lor (Z.lor O_WRONLY O_CREAT) O_TRUNC)
                           else if c =? 97 then Some (false, Z.lor (Z.lor O_WRONLY O_CREAT) O_APPEND_BIT) else None
               | [] => None
               end in
  match start with
  | None => _ ← mmod (set_errno EINVAL); _ ← mmod (set_flags false false false false); mret false
  | Some (rd, omode) =>
      let '(rw, omode) := mode_loop (tail mode) false false omode in
      _ ← mmod (set_flags (rd && negb rw) (negb rd && negb rw) rw true);
      ok ← call (sopen omode);
      if ok : bool then mret true else _ ← mmod (set_flags false false false false); mret false
  end.
End Stdio.
