(* ===== verification/StdioSpec.v ===== *)
(** What a stream promises: the laws of a file handle on a disk file, as a
    class with an instance, the abstract stream (the bytes of the file, a
    position and the bytes pushed back), and the invariant of a stream. *)

From S2P Require Import Prelude Stdio.

(** ** Bytes of a file *)

Definition byte (c : Z) : Prop := 0 <= c < 256.

(** [d] written at position [p] of a file; the gap behind the end is zero. *)
Definition overwrite (l : list Z) (p : Z) (d : list Z) : list Z :=
  if bool_decide (d = []) then l
  else take (Z.to_nat p) (l ++ replicate (Z.to_nat p - length l) 0) ++ d ++ drop (Z.to_nat p + length d) l.

(** [n] bytes from position [p] on. *)
Definition sub (l : list Z) (p n : Z) : list Z := take (Z.to_nat n) (drop (Z.to_nat p) l).

Lemma overwrite_nil l p : overwrite l p [] = l.
Proof. unfold overwrite. by rewrite bool_decide_true. Qed.

Lemma overwrite_app l p d1 d2 : 0 <= p -> overwrite (overwrite l p d1) (p + alen d1) d2 = overwrite l p (d1 ++ d2).
Proof.
  intros Hp. unfold overwrite, alen. case_bool_decide as H2; [subst d2; by rewrite app_nil_r|]. case_bool_decide as H1.
  - subst d1. cbn [length app]. rewrite Z.add_0_r, bool_decide_false by done. done.
  - rewrite bool_decide_false by (intros [? ?]%app_nil; done). set (k := Z.to_nat p).
    replace (Z.to_nat (p + Z.of_nat (length d1))) with (k + length d1)%nat by lia.
    assert (Hk : length (take k (l ++ replicate (k - length l) 0)) = k) by (rewrite length_take, length_app, length_replicate; lia).
    set (a := take k (l ++ replicate (k - length l) 0)) in *.
    rewrite (app_assoc a d1). replace (k + length d1 - _)%nat with 0%nat by (rewrite !length_app; lia). cbn [replicate]. rewrite app_nil_r.
    rewrite take_app_length' by (rewrite length_app; lia). rewrite drop_app, drop_ge by (rewrite length_app; lia).
    rewrite length_app, Hk, length_app, drop_drop. cbn [app]. rewrite <-!app_assoc. do 4 f_equal. lia.
Qed.

Lemma Forall_overwrite l p d : Forall byte l -> Forall byte d -> Forall byte (overwrite l p d).
Proof.
  intros Hl Hd. unfold overwrite. case_bool_decide; [done|]. rewrite !Forall_app. split_and!; [|done|by apply Forall_drop].
  apply Forall_take, Forall_app. split; [done|]. apply Forall_replicate. unfold byte; lia.
Qed.

Lemma alen_sub l p n : 0 <= p -> 0 <= n -> p + n <= alen l -> alen (sub l p n) = n.
Proof. unfold sub, alen. intros. rewrite length_take, length_drop. lia. Qed.

Lemma take_len {A} n (l : list A) : take (length (take n l)) l = take n l.
Proof. revert l. induction n as [|n IH]; intros [|x l]; cbn; [done..|]. by rewrite IH. Qed.

Lemma sub_0 l p : sub l p 0 = [].
Proof. done. Qed.

Lemma sub_S l p n c : 0 <= p -> 0 < n -> aget l p = Some c -> sub l p n = c :: sub l (p + 1) (n - 1).
Proof.
  intros Hp Hn Hc. unfold sub, aget in *. destruct (0 <=? p); [|done]. rewrite (drop_S _ _ _ Hc). replace (Z.to_nat n) with (S (Z.to_nat (n - 1))) by lia.
  cbn [take]. do 3 f_equal. lia.
Qed.

Lemma sub_split l p n m : 0 <= p -> 0 <= n -> 0 <= m -> sub l p (n + m) = sub l p n ++ sub l (p + n) m.
Proof.
  intros. unfold sub. rewrite !Z2Nat.inj_add by lia. rewrite <-drop_drop. generalize (drop (Z.to_nat p) l) as k. intros k.
  by rewrite <-take_take_drop.
Qed.

Lemma sub_sub l a n p m : 0 <= a -> 0 <= p -> 0 <= m -> p + m <= n -> sub (sub l a n) p m = sub l (a + p) m.
Proof.
  intros. unfold sub. rewrite skipn_firstn_comm, take_take, drop_drop. f_equal; [lia|f_equal; lia].
Qed.

(** Two adjacent pieces of [l] that are pieces of [k]: so is the whole. *)
Lemma sub_window l k x n m p i : 0 <= x -> 0 <= n -> 0 <= m -> 0 <= p -> 0 <= i -> p + i <= n + m ->
  sub l 0 n = sub k x n -> sub l n m = sub k (x + n) m -> sub l p i = sub k (x + p) i.
Proof.
  intros ? ? ? ? ? ? H1 H2. change (sub l p i) with (sub l (0 + p) i). rewrite <-(sub_sub l 0 (n + m) p i), <-(sub_sub k x (n + m) p i) by lia. f_equal.
  by rewrite !sub_split, H1, Z.add_0_l, H2 by lia.
Qed.

Lemma sub_app_l l k p n : 0 <= p -> 0 <= n -> p + n <= alen l -> sub (l ++ k) p n = sub l p n.
Proof.
  unfold sub, alen. intros. rewrite drop_app_le by lia. by rewrite take_app_le by (rewrite length_drop; lia).
Qed.

Lemma sub_full l n : alen l <= n -> sub l 0 n = l.
Proof. unfold sub, alen. intros. cbn. apply take_ge. lia. Qed.

(** ** The file handle *)

(** No file is longer than this, and no position is behind it. *)
Definition FILE_MAX : Z := 2 ^ 62.

(** A write takes all of its bytes or none: on a disk with room the system does
    not take a part. [_stream_write] only repeats interrupted calls, so this is a
    law of the system's [write] ([str_write_law]); the same of reads. *)
Class DiskFile (H : Type) `{Handle H} := {
  content : H -> list Z;
  fpos : H -> Z;
  content_bytes h : Forall byte (content h);
  content_len h : alen (content h) <= FILE_MAX;
  fpos_range h : 0 <= fpos h <= FILE_MAX;
  tell_law h : tell h = fpos h;
  is_file_law h : is_file h = true;
  binary_law h : match libc_FH h with Some f => F_CRLF f = false /\ O_APPEND f = false /\ O_TEXT f = false | None => True end;
  read_law n h r d h' : 0 < n -> stream_read n h = (r, d, h') -> content h' = content h /\
    ((r < 0 /\ d = [] /\ fpos h' = fpos h) \/
     (0 <= r <= n /\ d = sub (content h) (fpos h) r /\ alen d = r /\ fpos h' = fpos h + r /\ (r = 0 -> alen (content h) <= fpos h)));
  write_law d h w h' : d <> [] -> Forall byte d -> stream_write d h = (w, h') ->
    (w = alen d /\ content h' = overwrite (content h) (fpos h) d /\ fpos h' = fpos h + alen d) \/
    (w <= 0 /\ content h' = content h /\ fpos h' = fpos h);
  lseek_law off origin h r h' : 0 <= origin <= 2 -> lseek off origin h = (r, h') -> content h' = content h /\
    let target := if origin =? SEEK_SET then off else s64 (off + (if origin =? SEEK_CUR then fpos h else alen (content h))) in
    if (0 <=? target) && (target <=? FILE_MAX) then r = target /\ fpos h' = target else r = -1 /\ fpos h' = fpos h;
  malloc_law n h b h' : 0 <= n -> malloc n h = (b, h') -> content h' = content h /\ fpos h' = fpos h /\
    (forall l, b = Some l -> alen l = n /\ Forall byte l)
}.

(** *** The handle and the system *)

(** [_stream_read] and [_stream_write] repeat [read] and [write] as long as a
    signal interrupts them. *)
Section Retry.
Context {H : Type} (read : Z -> H -> Z * Z * list Z * H) (write : list Z -> H -> Z * Z * H).
Context (content : H -> list Z) (fpos : H -> Z).

Definition interrupted (r errno : Z) : bool := (r =? -1) && (errno =? EINTR).

Fixpoint str_read (fuel : nat) (n : Z) (h : H) : option (Z * list Z * H) :=
  match fuel with
  | O => None
  | S fuel' => let '(r, errno, d, h') := read n h in
               if interrupted r errno then str_read fuel' n h' else Some (r, d, h')
  end.

Fixpoint str_write (fuel : nat) (d : list Z) (h : H) : option (Z * H) :=
  match fuel with
  | O => None
  | S fuel' => let '(r, errno, h') := write d h in
               if interrupted r errno then str_write fuel' d h' else Some (r, h')
  end.

(** The system is interrupted at most [n] times in a row. *)
Fixpoint read_patience (n : nat) (x : Z) (h : H) : Prop :=
  let '(r, errno, _, h') := read x h in
  interrupted r errno = true -> match n with O => False | S n' => read_patience n' x h' end.
Fixpoint write_patience (n : nat) (d : list Z) (h : H) : Prop :=
  let '(r, errno, h') := write d h in
  interrupted r errno = true -> match n with O => False | S n' => write_patience n' d h' end.

(** What a read and a write may do to a file: the laws of [DiskFile]. *)
Definition read_does (n : Z) (h : H) (r : Z) (d : list Z) (h' : H) : Prop := content h' = content h /\
  ((r < 0 /\ d = [] /\ fpos h' = fpos h) \/
   (0 <= r <= n /\ d = sub (content h) (fpos h) r /\ alen d = r /\ fpos h' = fpos h + r /\ (r = 0 -> alen (content h) <= fpos h))).
Definition write_does (d : list Z) (h : H) (w : Z) (h' : H) : Prop :=
  (w = alen d /\ content h' = overwrite (content h) (fpos h) d /\ fpos h' = fpos h + alen d) \/
  (w <= 0 /\ content h' = content h /\ fpos h' = fpos h).

(** The retry ends, and keeps the law of the calls. *)
Lemma str_read_law k n h :
  (forall h r errno d h', read n h = (r, errno, d, h') -> read_does n h r d h') -> read_patience k n h ->
  exists r d h', str_read (S k) n h = Some (r, d, h') /\ read_does n h r d h'.
Proof.
  intros Hlaw. revert h. induction k as [|k IH]; intros h Hp; cbn [read_patience] in Hp; cbn [str_read];
    destruct (read n h) as [[[r e] d] h1] eqn:Hr; pose proof (Hlaw h r e d h1 Hr) as Hd;
    (destruct (interrupted r e) eqn:Hi; [specialize (Hp eq_refl)|by exists r, d, h1]); [done|].
  destruct (IH h1 Hp) as (r' & d' & h' & Hs & Hc & Hd'). exists r', d', h'. split; [exact Hs|].
  unfold interrupted in Hi. apply andb_true_iff in Hi as [->%Z.eqb_eq _]. destruct Hd as (Hc1 & [(_ & _ & Hf)|]); [|lia].
  split; [congruence|]. by rewrite Hc1, Hf in Hd'.
Qed.

Lemma str_write_law k d h :
  (forall h w errno h', write d h = (w, errno, h') -> write_does d h w h') -> write_patience k d h ->
  exists w h', str_write (S k) d h = Some (w, h') /\ write_does d h w h'.
Proof.
  intros Hlaw. revert h. induction k as [|k IH]; intros h Hp; cbn [write_patience] in Hp; cbn [str_write];
    destruct (write d h) as [[w e] h1] eqn:Hw; pose proof (Hlaw h w e h1 Hw) as Hd;
    (destruct (interrupted w e) eqn:Hi; [specialize (Hp eq_refl)|by exists w, h1]); [done|].
  destruct (IH h1 Hp) as (w' & h' & Hs & Hd'). exists w', h'. split; [exact Hs|].
  unfold interrupted in Hi. apply andb_true_iff in Hi as [->%Z.eqb_eq _].
  destruct Hd as [(Hl & _)|(_ & Hc & Hf)]; [pose proof (alen_nonneg d); lia|]. unfold write_does. by rewrite <-Hc, <-Hf.
Qed.
End Retry.

(** ** The abstract stream *)

(** [a_back]: the bytes pushed back, the next one first. *)
Record astream := mk_a { a_data : list Z; a_pos : Z; a_back : list Z }.

(** Where [fseek] counts from: a position in front of the first byte is the
    error value of [ftell], which makes [fseek] forget what was pushed back. *)
Definition a_tell (A : astream) : Z := a_pos A - alen (a_back A).
Definition a_cur (A : astream) : Z := if a_tell A =? -1 then a_pos A else a_tell A.

Inductive op :=
  | Getc | Putc (c : Z) | Ungetc (c : Z) | Fread (size count : Z) | Fwrite (src : list Z) (size count : Z)
  | Fseek (offset origin : Z) | Ftell | Fflush.

(** The bytes still to be read, and the stream behind the first [n] of them. *)
Definition a_bytes (A : astream) : list Z := a_back A ++ drop (Z.to_nat (a_pos A)) (a_data A).
Definition a_advance (n : nat) (A : astream) : astream :=
  mk_a (a_data A) (a_pos A + (Z.of_nat n - Z.of_nat (length (take n (a_back A))))) (drop n (a_back A)).

Definition a_target (A : astream) (offset origin : Z) : Z :=
  if origin =? SEEK_SET then offset else s64 (offset + (if origin =? SEEK_CUR then a_cur A else alen (a_data A))).

(** A write at the position, if there is one. *)
Definition a_write (A : astream) (d : list Z) (r fail : Z) (r' : Z) (A' : astream) : Prop :=
  if 0 <=? a_cur A then r' = r /\ A' = mk_a (overwrite (a_data A) (a_cur A) d) (a_cur A + alen d) []
  else r' = fail /\ A' = mk_a (a_data A) (a_pos A) [].

(** The result: a number and the bytes stored. *)
Definition a_step (o : op) (A : astream) (r : Z) (d : list Z) (A' : astream) : Prop :=
  match o with
  | Getc => d = [] /\
      match a_back A with
      | c :: b => r = c /\ A' = mk_a (a_data A) (a_pos A) b
      | [] => match aget (a_data A) (a_pos A) with
              | Some c => r = c /\ A' = mk_a (a_data A) (a_pos A + 1) []
              | None => r = EOF /\ A' = A
              end
      end
  | Putc c => d = [] /\ a_write A [uchar c] (uchar c) EOF r A'
  | Ungetc c => d = [] /\
      ((c <> EOF /\ r = uchar c /\ A' = mk_a (a_data A) (a_pos A) (uchar c :: a_back A)) \/
       ((c = EOF \/ a_back A <> []) /\ r = EOF /\ A' = A))
  | Fread size count =>
      let n := if size * count <? 2 ^ 32 then size * count else 0 in
      d = take (Z.to_nat n) (a_bytes A) /\ r = (if n =? 0 then 0 else alen d / size) /\ A' = a_advance (length d) A
  | Fwrite src size count => d = [] /\
      if (0 <? size * count) && (size * count <? 2 ^ 32) then a_write A src count 0 r A' else a_write A [] 0 0 r A'
  | Fseek offset origin => d = [] /\
      if (0 <=? origin) && (origin <=? 2) then
        if (0 <=? a_target A offset origin) && (a_target A offset origin <=? FILE_MAX) then r = 0 /\ A' = mk_a (a_data A) (a_target A offset origin) []
        else r = EOF /\ A' = mk_a (a_data A) (a_pos A) []
      else r = EOF /\ A' = A
  | Ftell => d = [] /\ r = a_tell A /\ A' = A
  | Fflush => d = [] /\ r = 0 /\ A' = mk_a (a_data A) (a_pos A) []
  end.

Lemma advance_0 A : a_advance 0 A = A.
Proof. destruct A as [l p b]. unfold a_advance. rewrite take_0. cbn [a_data a_pos a_back]. rewrite drop_0. f_equal. cbn [length]. lia. Qed.

Lemma advance_add n m A : a_advance m (a_advance n A) = a_advance (n + m) A.
Proof. unfold a_advance. cbn. rewrite drop_drop, !length_take, length_drop. f_equal. lia. Qed.

Lemma bytes_advance n A : 0 <= a_pos A -> a_bytes (a_advance n A) = drop n (a_bytes A).
Proof.
  intros Hp. unfold a_bytes, a_advance. cbn. rewrite drop_app, drop_drop, length_take. do 2 f_equal. lia.
Qed.

Lemma advance_pos n A : a_pos A <= a_pos (a_advance n A).
Proof. unfold a_advance. cbn. rewrite length_take. lia. Qed.

Lemma getc_bytes A r A' : 0 <= a_pos A -> a_step Getc A r [] A' ->
  (exists k, a_bytes A = r :: k /\ A' = a_advance 1 A) \/ (r = EOF /\ a_bytes A = [] /\ A' = A).
Proof.
  destruct A as [l p b]. unfold a_bytes, a_advance. cbn. intros Hp [_ Hs]. destruct b as [|c b].
  - unfold aget in Hs. replace (0 <=? p) with true in Hs by lia. destruct (l !! Z.to_nat p) as [c|] eqn:Hc; destruct Hs as [-> ->].
    + left. exists (drop (S (Z.to_nat p)) l). split; [by apply drop_S|done].
    + right. split_and!; [done| |done]. apply drop_ge. by apply lookup_ge_None_1.
  - destruct Hs as [-> ->]. left. eexists. split; [done|]. change (drop 1 (c :: b)) with b. f_equal. change (length (take 1 (c :: b))) with (S (length (take 0 b))). rewrite take_0. cbn [length]. lia.
Qed.

(** ** The state of a stream *)

Section View.
Context {H : Type} `{DiskFile H}.

(** The bytes of the buffer that are still to be read. *)
Definition avail (s : stream H) : Z := if ungetc_count s =? 0 then rcount s else - rcount s.

Lemma avail_0 s : ungetc_count s = 0 -> avail s = rcount s.
Proof. unfold avail. by intros ->. Qed.

Definition view (s : stream H) : astream :=
  if iowrt s && bbuf s then mk_a (overwrite (content (hnd s)) (fpos (hnd s)) (take (Z.to_nat (ptr s)) (buffer s))) (fpos (hnd s) + ptr s) []
  else mk_a (content (hnd s)) (fpos (hnd s) - avail s) (rev (take (Z.to_nat (ungetc_count s)) (buffer s))).

(** In read mode, or in neither. *)
Record read_ok (s : stream H) : Prop := {
  r_wcount : wcount s = 0;
  r_uc : 0 <= ungetc_count s <= UCHAR_MAX;
  r_uc_size : ungetc_count s <= buf_size s;
  r_avail : 0 <= avail s <= fpos (hnd s);
  r_ptr : 0 <= ptr s;
  r_fits : bbuf s = true -> ptr s + avail s <= buf_size s;
  r_small : bbuf s = false -> avail s = 0;
  r_apart : avail s = 0 \/ ungetc_count s <= ptr s;
  r_data : sub (buffer s) (ptr s) (avail s) = sub (content (hnd s)) (fpos (hnd s) - avail s) (avail s);
  r_flag : ungetc_count s <> 0 -> ioungetc s = true;
  r_neutral : ioread s = false -> rcount s = 0 /\ ungetc_count s = 0 /\ ptr s = 0
}.

Record write_ok (s : stream H) : Prop := {
  w_rcount : rcount s = 0;
  w_uc : ungetc_count s = 0;
  w_ptr : 0 <= ptr s;
  w_wcount : 0 <= wcount s;
  w_fits : bbuf s = true -> ptr s + wcount s <= buf_size s;
  w_small : bbuf s = false -> wcount s = 0
}.

Record sinv (s : stream H) : Prop := {
  i_open : ioopen s = true;
  i_one : ioread s = true -> iowrt s = false;
  i_some : iorw s = false -> ioread s = true \/ iowrt s = true;
  i_bytes : Forall byte (buffer s);
  i_buf : iobuf s <> BufNone -> alen (buffer s) = buf_size s /\ 1 <= buf_size s;
  i_single : iobuf s = BufChar -> buf_size s = 1;
  i_none : iobuf s = BufNone -> rcount s = 0 /\ ungetc_count s = 0 /\ ptr s = 0;
  i_char : byte (char_buf s);
  i_size : 0 <= buf_size s <= 0x400000;
  i_read : iowrt s = false -> read_ok s;
  i_write : iowrt s = true -> write_ok s
}.

(** The bytes in front of the pointer are those of the file in front of the
    position: [fseek] relies on it where it moves the pointer only. *)
Definition hist (s : stream H) : Prop :=
  iorw s = false -> ioread s = true -> bbuf s = true -> ioungetc s = false ->
  ptr s + avail s <= fpos (hnd s) /\ sub (buffer s) 0 (ptr s) = sub (content (hnd s)) (fpos (hnd s) - avail s - ptr s) (ptr s).
End View.

(** ** A disk file *)

(** The file of the examples: its bytes, the position, and how many bytes the
    next reads give at most ([0]: an error). *)
Record disk := mk_disk { d_bytes : list Z; d_pos : Z; d_short : list nat }.

Definition disk_content (h : disk) : list Z := if alen (d_bytes h) <=? FILE_MAX then uchar <$> d_bytes h else [].

Definition disk_pos (h : disk) : Z := if (0 <=? d_pos h) && (d_pos h <=? FILE_MAX) then d_pos h else 0.

Definition disk_read (n : Z) (h : disk) : Z * list Z * disk :=
  match d_short h with
  | O :: k => (-1, [], mk_disk (d_bytes h) (d_pos h) k)
  | k =>
      let m := match k with S m :: _ => Nat.min (S m) (Z.to_nat n) | _ => Z.to_nat n end in
      let d := take m (drop (Z.to_nat (disk_pos h)) (disk_content h)) in
      (alen d, d, mk_disk (d_bytes h) (disk_pos h + alen d) (tail k))
  end.

Definition disk_write (d : list Z) (h : disk) : Z * disk :=
  let l := overwrite (disk_content h) (disk_pos h) d in
  if alen l <=? FILE_MAX then (alen d, mk_disk l (disk_pos h + alen d) (d_short h)) else (-1, h).

Definition disk_seek (off origin : Z) (h : disk) : Z * disk :=
  let target := if origin =? SEEK_SET then off else s64 (off + (if origin =? SEEK_CUR then disk_pos h else alen (disk_content h))) in
  if (0 <=? target) && (target <=? FILE_MAX) then (target, mk_disk (d_bytes h) target (d_short h)) else (-1, h).

#[export] Instance disk_handle : Handle disk := {
  stream_read := disk_read; stream_write := disk_write; lseek := disk_seek;
  tell := disk_pos; is_file _ := true; libc_FH _ := Some (mk_fh false false false);
  malloc n h := (Some (replicate (Z.to_nat n) 0), h)
}.

Lemma uchar_byte z : byte (uchar z).
Proof. apply Z.mod_pos_bound. lia. Qed.

Lemma uchar_small z : byte z -> uchar z = z.
Proof. apply Z.mod_small. Qed.

Lemma uchar_fmap l : Forall byte l -> uchar <$> l = l.
Proof. intros Hl. rewrite <-(list_fmap_id l) at 2. apply Forall_fmap_ext. eapply Forall_impl; [done|apply uchar_small]. Qed.

Lemma disk_bytes h : Forall byte (disk_content h).
Proof. unfold disk_content. case_match; [|constructor]. apply Forall_fmap, Forall_true. intros z. apply uchar_byte. Qed.

Lemma disk_content_len h : alen (disk_content h) <= FILE_MAX.
Proof. unfold disk_content. destruct (Z.leb_spec (alen (d_bytes h)) FILE_MAX); [unfold alen in *; by rewrite length_fmap|by vm_compute]. Qed.

Lemma disk_pos_range h : 0 <= disk_pos h <= FILE_MAX.
Proof. unfold disk_pos. destruct (_ && _)%bool eqn:Hb; [breflect; lia|by vm_compute]. Qed.

Lemma disk_pos_mk l p k : 0 <= p <= FILE_MAX -> disk_pos (mk_disk l p k) = p.
Proof. intros Hp. unfold disk_pos. cbn [d_pos]. by replace ((0 <=? p) && (p <=? FILE_MAX)) with true by lia. Qed.

Lemma alen_overwrite l p d : 0 <= p -> d <> [] -> p + alen d <= alen (overwrite l p d).
Proof.
  intros Hp Hd. unfold overwrite, alen. rewrite bool_decide_false by done. rewrite !length_app, length_take, length_app, length_replicate. lia.
Qed.

#[export] Program Instance disk_file : DiskFile disk := { content := disk_content; fpos := disk_pos }.
Next Obligation. apply disk_bytes. Qed.
Next Obligation. apply disk_content_len. Qed.
Next Obligation. apply disk_pos_range. Qed.
Next Obligation. done. Qed.
Next Obligation. done. Qed.
Next Obligation. done. Qed.
Next Obligation.
  intros n h r d h' Hn Hr. change (stream_read n h) with (disk_read n h) in Hr. unfold disk_read in Hr.
  assert (Hk : forall m k, (0 < m <= Z.to_nat n)%nat ->
    (let d := take m (drop (Z.to_nat (disk_pos h)) (disk_content h)) in (alen d, d, mk_disk (d_bytes h) (disk_pos h + alen d) k)) = (r, d, h') ->
    disk_content h' = disk_content h /\ 0 <= r <= n /\ d = sub (disk_content h) (disk_pos h) r /\ alen d = r /\
      disk_pos h' = disk_pos h + r /\ (r = 0 -> alen (disk_content h) <= disk_pos h)).
  { intros m k Hm. pose proof (disk_pos_range h) as Hp. pose proof (disk_content_len h). cbn zeta. set (d' := take m _). intros [= <- <- <-].
    assert (Hl : alen d' = Z.min (Z.of_nat m) (Z.max 0 (alen (disk_content h) - disk_pos h))) by (subst d'; unfold alen; rewrite length_take, length_drop; lia).
    rewrite disk_pos_mk by lia. split_and!; try done; try lia. unfold sub, alen. subst d'. by rewrite Nat2Z.id, take_len. }
  destruct (d_short h) as [|[|m] k]; [|injection Hr as <- <- <-; split; [done|by left]|];
    (eapply Hk in Hr as (? & ? & ? & ? & ? & ?); [|lia]); split; [done|by right|done|by right].
Qed.
Next Obligation.
  intros d h w h' Hd Hb. cbn. unfold disk_write. set (l := overwrite _ _ _). destruct (Z.leb_spec (alen l) FILE_MAX) as [Hl|Hl]; intros [= <- <-]; [left|by right].
  pose proof (disk_pos_range h) as Hp. pose proof (alen_overwrite (disk_content h) (disk_pos h) d ltac:(lia) Hd) as Hlen. fold l in Hlen. pose proof (alen_nonneg d).
  rewrite disk_pos_mk by lia. unfold disk_content at 1. cbn [d_bytes]. replace (alen l <=? FILE_MAX) with true by lia.
  rewrite uchar_fmap by (by apply Forall_overwrite; [apply disk_bytes|]). done.
Qed.
Next Obligation.
  intros off origin h r h' Ho. cbn. unfold disk_seek. set (t := if origin =? SEEK_SET then _ else _). destruct ((0 <=? t) && (t <=? FILE_MAX)) eqn:Ht;
    intros [= <- <-]; (split; [done|]); [|done]. split; [done|]. breflect. apply disk_pos_mk. lia.
Qed.
Next Obligation.
  intros n h b h' Hn [= <- <-]. split_and!; [done|done|]. intros l [= <-]. split; [apply alen_replicate; lia|]. apply Forall_replicate. unfold byte; lia.
Qed.
