(* ===== verification/StdioSeek.v ===== *)
(** Positions: [ftell], [fflush], [fseek] and the allocation of buffers keep
    the invariant of a stream and do what the abstract stream does. *)

From S2P Require Import Prelude Stdio StdioSpec.

(** Where a step may go: the rules for the calls of a stream. *)
Section Rules.
Context {H : Type} `{HD : DiskFile H} (E : Z -> stream H -> Prop).
Implicit Types (s : stream H).

Lemma wp_call {A} (f : H -> A * H) (Q : A -> stream H -> Prop) s :
  (forall a h, f (hnd s) = (a, h) -> Q a (set_hnd h s)) -> wp (call f) Q E s.
Proof. intros HQ. unfold wp, call. destruct (f (hnd s)) as [a h] eqn:Hf. by apply HQ. Qed.

Lemma wp_slice lo n (Q : list Z -> stream H -> Prop) s :
  0 <= lo -> lo + n <= alen (buffer s) \/ n <= 0 -> Q (sub (buffer s) lo n) s -> wp (slice lo n) Q E s.
Proof.
  intros Hlo Hn HQ. unfold slice. apply wp_bind, wp_get. cbn beta. destruct (Z.leb_spec n 0).
  - apply wp_ret. unfold sub in HQ. by replace (Z.to_nat n) with 0%nat in HQ by lia.
  - replace (0 <=? lo) with true by lia. replace (lo + n <=? alen (buffer s)) with true by lia. apply wp_ret. exact HQ.
Qed.

Lemma wp_put_byte i c (Q : unit -> stream H -> Prop) s :
  0 <= i < alen (buffer s) -> Q () (set_buffer (aset (buffer s) i c) s) -> wp (put i c) Q E s.
Proof. intros Hi HQ. unfold put. apply wp_bind, wp_get, wp_bind, wp_deref; [by apply aget_is_Some|]. intros b _. by apply wp_put. Qed.

Lemma lseek_set off h r h' : 0 <= off <= FILE_MAX -> lseek off SEEK_SET h = (r, h') -> content h' = content h /\ r = off /\ fpos h' = off.
Proof.
  intros Ho Hl. apply lseek_law in Hl as [Hc Hl]; [|done]. cbn zeta in Hl. change (SEEK_SET =? SEEK_SET) with true in Hl. cbv iota in Hl.
  by replace ((0 <=? off) && (off <=? FILE_MAX)) with true in Hl by lia.
Qed.

Lemma crlf_false s : crlf s = false.
Proof. unfold crlf. pose proof (binary_law (hnd s)). destruct (libc_FH (hnd s)); [naive_solver|done]. Qed.
Lemma otext_false s : otext s = false.
Proof. unfold otext. pose proof (binary_law (hnd s)). destruct (libc_FH (hnd s)); [naive_solver|done]. Qed.
Lemma append_false s : append s = false.
Proof. unfold append. pose proof (binary_law (hnd s)). destruct (libc_FH (hnd s)); [naive_solver|done]. Qed.

Lemma view_read s : iowrt s = false -> view s = mk_a (content (hnd s)) (fpos (hnd s) - avail s) (rev (take (Z.to_nat (ungetc_count s)) (buffer s))).
Proof. unfold view. by intros ->. Qed.

Lemma view_read_0 s : iowrt s = false -> ungetc_count s = 0 -> view s = mk_a (content (hnd s)) (fpos (hnd s) - avail s) [].
Proof. intros Hw Hu. by rewrite view_read, Hu. Qed.

(** Nothing is pushed back and nothing buffered. *)
Lemma view_plain s : ungetc_count s = 0 -> rcount s = 0 -> ptr s = 0 \/ (iowrt s && bbuf s) = false -> view s = mk_a (content (hnd s)) (fpos (hnd s)) [].
Proof.
  intros Hu Hr Hp. unfold view, avail. rewrite Hu, Hr. destruct (iowrt s && bbuf s) eqn:Hb; [destruct Hp as [->|?]; [|done]|]; cbn [Z.eqb Z.to_nat take rev].
  - by rewrite overwrite_nil, Z.add_0_r.
  - by rewrite Z.sub_0_r.
Qed.

Lemma alen_back s : sinv s -> iowrt s = false -> alen (rev (take (Z.to_nat (ungetc_count s)) (buffer s))) = ungetc_count s.
Proof.
  intros Hs Hw. pose proof (i_read s Hs Hw) as Hr. pose proof (r_uc s Hr). pose proof (r_uc_size s Hr). unfold alen. rewrite length_rev, length_take.
  destruct (decide (iobuf s = BufNone)) as [Hn|Hn].
  - destruct (i_none s Hs Hn) as (_ & -> & _). done.
  - destruct (i_buf s Hs Hn) as [Hl _]. unfold alen in Hl. lia.
Qed.

Lemma wp_ftello (Q : Z -> stream H -> Prop) s : sinv s -> Q (a_tell (view s)) s -> wp ftello_unlocked Q E s.
Proof.
  intros Hs HQ. unfold ftello_unlocked. apply wp_bind, wp_get. cbn beta zeta. rewrite tell_law. pose proof (fpos_range (hnd s)).
  replace (fpos (hnd s) =? -1) with false by lia. rewrite otext_false, crlf_false, andb_false_r. destruct (iowrt s) eqn:Hw.
  - unfold view, a_tell in HQ. rewrite Hw in HQ. destruct (bbuf s); apply wp_ret; cbn in HQ; [by rewrite Z.sub_0_r in HQ|].
    pose proof (i_write s Hs Hw) as W. unfold avail in HQ. rewrite (w_uc s W), (w_rcount s W) in HQ. cbn in HQ. by rewrite !Z.sub_0_r in HQ.
  - rewrite view_read in HQ by done. unfold a_tell in HQ. cbn [a_pos a_back] in HQ. rewrite alen_back in HQ by done.
    pose proof (i_read s Hs Hw) as R. unfold avail in HQ. destruct (ioread s) eqn:Hr.
    + destruct (Z.eqb_spec (ungetc_count s) 0) as [Hu|Hu]; cbn [negb]; apply wp_ret.
      * by rewrite Hu, Z.sub_0_r in HQ.
      * by replace (fpos (hnd s) - - rcount s - ungetc_count s) with (fpos (hnd s) + rcount s - ungetc_count s) in HQ by lia.
    + destruct (r_neutral s R Hr) as (Hrc & Hu & _). rewrite Hu, Hrc in HQ. cbn in HQ. rewrite !Z.sub_0_r in HQ. by apply wp_ret.
Qed.

(** ** [fflush] *)

(** The state [fflush] leaves, with the handle [h] and the error flag [e]. *)
Definition flushed (h : H) (e : bool) (s : stream H) : stream H :=
  mk_stream 0 (buffer s) 0 0 (buf_size s) 0 (char_buf s) (ioread s) (iowrt s && negb (iorw s)) (iorw s) (ioeof s) e (iolbf s) (ionbf s) (ioopen s)
    false (iobuf s) h (errno s).

(** A stream with nothing in its buffer and nothing pushed back. *)
Record empty (s : stream H) : Prop := {
  e_ptr : ptr s = 0; e_rcount : rcount s = 0; e_wcount : wcount s = 0; e_uc : ungetc_count s = 0
}.

Lemma empty_avail s : empty s -> avail s = 0.
Proof. intros He. unfold avail. by rewrite (e_uc s He), (e_rcount s He). Qed.

Lemma empty_hist s : empty s -> hist s.
Proof. intros He _ _ _ _. rewrite (e_ptr s He), (empty_avail s He). split; [pose proof (fpos_range (hnd s)); lia|done]. Qed.

Lemma empty_view s : empty s -> view s = mk_a (content (hnd s)) (fpos (hnd s)) [].
Proof. intros He. apply view_plain; [apply He..|left; apply He]. Qed.

Lemma empty_inv s :
  empty s -> ioopen s = true -> (ioread s = true -> iowrt s = false) -> (iorw s = false -> ioread s = true \/ iowrt s = true) ->
  Forall byte (buffer s) -> (iobuf s <> BufNone -> alen (buffer s) = buf_size s /\ 1 <= buf_size s) -> 0 <= buf_size s <= 0x400000 -> byte (char_buf s) ->
  (iobuf s = BufChar -> buf_size s = 1) -> sinv s.
Proof.
  intros He Ho Ho1 Ho2 Hb Hs Hn0 Hch Hone. pose proof (empty_avail s He) as Ha. pose proof (fpos_range (hnd s)). destruct He as [Hp Hr Hw Hu].
  split; try done.
  - intros Hw0. split; rewrite ?Ha, ?Hp, ?Hu; unfold UCHAR_MAX; try done; lia.
  - intros Hw1. split; rewrite ?Hp, ?Hw; try done; lia.
Qed.

Lemma flushed_empty h e s : empty (flushed h e s).
Proof. done. Qed.

Lemma flushed_inv h e s : sinv s -> sinv (flushed h e s).
Proof.
  intros Hs. apply empty_inv; try done; cbn.
  - by apply Hs.
  - intros Hr. by rewrite (i_one s Hs Hr).
  - intros Hrw. rewrite Hrw, andb_true_r. by apply Hs.
  - by apply Hs.
  - by apply Hs.
  - by apply Hs.
  - by apply Hs.
  - by apply Hs.
Qed.

Lemma take_nonempty (l : list Z) n : 0 < n <= alen l -> take (Z.to_nat n) l <> [].
Proof. unfold alen. intros Hn Heq. apply (f_equal length) in Heq. rewrite length_take in Heq. cbn in Heq. lia. Qed.

Lemma alen_take (l : list Z) n : 0 <= n <= alen l -> alen (take (Z.to_nat n) l) = n.
Proof. unfold alen. rewrite length_take. lia. Qed.

(** The part of [fflush] behind the write. *)
Definition fflush_rest (result : Z) : SM Z :=
  _ ← mmod (fun s => if negb (ungetc_count s =? 0) then set_ungetc_count 0 (set_rcount (- rcount s) s) else s);
  _ ← mmod (set_ioungetc false);
  s ← mget;
  _ ← mwhen (ioread s && bbuf s && is_file (hnd s))
        (pos ← ftello_unlocked; mwhen (negb (pos =? -1)) (_ ← call (lseek pos SEEK_SET); mret ()));
  _ ← mmod (fun s => set_ptr 0 (set_rcount 0 (set_wcount 0 s)));
  _ ← mmod (fun s => if iorw s && iowrt s then set_iowrt false s else s);
  mret result.

Lemma rest_end result (Q : Z -> stream H -> Prop) s h e x s1 :
  s1 = set_hnd h (set_ioerr e (set_ioungetc false (set_ungetc_count 0 (set_rcount x s)))) -> Q result (flushed h e s) ->
  wp (_ ← mmod (fun s => set_ptr 0 (set_rcount 0 (set_wcount 0 s))); _ ← mmod (fun s => if iorw s && iowrt s then set_iowrt false s else s); mret result) Q E s1.
Proof.
  intros -> HQ. apply wp_bind, wp_mod, wp_bind, wp_mod, wp_ret. destruct s as [p bu rc wc bs uc cb rd wr rw eo er lb nb op un ib hn en]. cbn in *. destruct rw, wr; exact HQ.
Qed.

Lemma rest_read s result (Q : Z -> stream H -> Prop) : sinv s -> iowrt s = false ->
  (forall h', content h' = content (hnd s) -> fpos h' = fpos (hnd s) - avail s -> Q result (flushed h' (ioerr s) s)) -> wp (fflush_rest result) Q E s.
Proof.
  intros Hs Hw HQ. pose proof (i_read s Hs Hw) as R. unfold fflush_rest. apply wp_bind, wp_mod, wp_bind, wp_mod, wp_bind, wp_get. cbn beta.
  set (s1 := set_ioungetc false _).
  assert (Hs1 : s1 = set_hnd (hnd s) (set_ioerr (ioerr s) (set_ioungetc false (set_ungetc_count 0 (set_rcount (avail s) s))))).
  { subst s1. unfold avail. destruct (Z.eqb_spec (ungetc_count s) 0) as [Hu|Hu]; cbn [negb]; [|done]. unfold set_ungetc_count, set_rcount. cbn. by rewrite <-Hu. }
  clearbody s1. subst s1. apply wp_bind, wp_when; intros Hc.
  - cbn in Hc. unfold ftello_unlocked. apply wp_bind, wp_bind, wp_get. cbn beta zeta. cbn. rewrite tell_law. pose proof (fpos_range (hnd s)) as Hp.
    replace (fpos (hnd s) =? -1) with false by lia. rewrite crlf_false. cbn. rewrite Hw. destruct (ioread s) eqn:Hr; [|done]. cbv iota. apply wp_ret.
    pose proof (r_avail s R) as Ha. apply wp_when; [|lia]. intros _. apply wp_bind, wp_call. intros r h' Hl. apply wp_ret. cbn in Hl.
    apply lseek_set in Hl as (Hc' & _ & Hl); [|lia].
    eapply rest_end; [|by apply HQ]. cbn. done.
  - eapply rest_end; [|apply HQ]; [done|done|]. cbn in Hc. rewrite is_file_law, andb_true_r in Hc.
    destruct (ioread s) eqn:Hr; cbn in Hc; [rewrite (r_small s R) by done; lia|].
    destruct (r_neutral s R Hr) as (Hrc & Hu & _). unfold avail. rewrite Hu, Hrc. cbn. lia.
Qed.

Lemma rest_write s h e s1 result (Q : Z -> stream H -> Prop) : sinv s -> iowrt s = true -> s1 = set_hnd h (set_ioerr e s) ->
  Q result (flushed h e s) -> wp (fflush_rest result) Q E s1.
Proof.
  intros Hs Hw -> HQ. pose proof (i_write s Hs Hw) as W. unfold fflush_rest. apply wp_bind, wp_mod, wp_bind, wp_mod, wp_bind, wp_get. cbn beta.
  apply wp_bind, wp_when; intros Hc; [cbn in Hc; rewrite (w_uc s W) in Hc; cbn in Hc; destruct (ioread s) eqn:Hr; [by rewrite (i_one s Hs Hr) in Hw|done]|].
  eapply (rest_end _ _ _ _ _ (rcount s)); [|exact HQ]. cbn. rewrite (w_uc s W). cbn. pose proof (w_uc s W) as Hu.
  destruct s as [p bu rc wc bs uc cb rd wr rw eo er lb nb op un ib hn en]. cbn in *. by subst uc.
Qed.

Lemma wp_fflush s (Q : Z -> stream H -> Prop) : sinv s ->
  (forall h', content h' = a_data (view s) -> fpos h' = a_pos (view s) -> Q 0 (flushed h' (ioerr s) s)) ->
  (forall h', Q EOF (flushed h' true s)) -> wp fflush_unlocked Q E s.
Proof.
  intros Hs HQ HE. change fflush_unlocked with (s ← mget; result ← (if iowrt s && bbuf s && (ptr s >? 0) then
              d ← slice 0 (ptr s); w ← call (stream_write d); if w <=? 0 then _ ← mmod (set_ioerr true); mret EOF else mret 0
            else mret 0); fflush_rest result).
  apply wp_bind, wp_get. cbn beta. apply wp_bind. destruct (iowrt s) eqn:Hw.
  - pose proof (i_write s Hs Hw) as W. destruct (bbuf s && (ptr s >? 0)) eqn:Hc.
    + breflect. rewrite H1. cbn [andb]. replace (ptr s >? 0) with true by lia.
      assert (Hl : ptr s <= alen (buffer s)).
      { pose proof (w_fits s W H1). pose proof (w_wcount s W). destruct (i_buf s Hs); [intros Hn; unfold bbuf in H1; by rewrite Hn in H1|lia]. }
      apply wp_bind, wp_slice; [done|lia|]. apply wp_bind, wp_call. intros w h' Hwr.
      assert (Hsub : sub (buffer s) 0 (ptr s) = take (Z.to_nat (ptr s)) (buffer s)) by done. rewrite Hsub in Hwr.
      apply write_law in Hwr; [|by apply take_nonempty; lia|by apply Forall_take, Hs].
      destruct Hwr as [(-> & Hc & Hp)|(Hneg & Hc & Hp)].
      * rewrite alen_take by lia. replace (ptr s <=? 0) with false by lia. apply wp_ret.
        apply (rest_write s h' (ioerr s)); [done|done|by destruct s|].
        apply HQ; unfold view; rewrite Hw, H1; cbn; [done|]. rewrite Hp, alen_take; lia.
      * replace (w <=? 0) with true by lia. apply wp_bind, wp_mod, wp_ret.
        apply (rest_write s h' true); [done|done|done|]. apply HE.
    + rewrite <-andb_assoc, Hc, andb_false_r. apply wp_ret. apply (rest_write s (hnd s) (ioerr s)); [done|done|by destruct s|].
      rewrite view_plain in HQ; [by apply HQ|apply W..|]. pose proof (w_ptr s W). rewrite Hw. destruct (bbuf s); [left; cbn in Hc; lia|by right].
  - cbn [andb]. apply wp_ret. apply rest_read; [done..|]. rewrite view_read in HQ by done. done.
Qed.

Lemma flushed_view h e s : view (flushed h e s) = mk_a (content h) (fpos h) [].
Proof. apply empty_view, flushed_empty. Qed.

(** ** [fseek] *)

(** The state the slow path of [fseek] leaves. *)
Definition seeked (h : H) (e : bool) (s : stream H) : stream H :=
  mk_stream 0 (buffer s) 0 0 (buf_size s) 0 (char_buf s) (ioread s && negb (iorw s)) (iowrt s && negb (iorw s)) (iorw s) false e (iolbf s) (ionbf s)
    (ioopen s) false (iobuf s) h (errno s).

Lemma seeked_empty h e s : empty (seeked h e s).
Proof. done. Qed.

Lemma seeked_inv h e s : sinv s -> sinv (seeked h e s).
Proof.
  intros Hs. apply empty_inv; try done; cbn.
  - by apply Hs.
  - intros [Hr _]%andb_true_iff. by rewrite (i_one s Hs Hr).
  - intros Hrw. rewrite Hrw, !andb_true_r. by apply Hs.
  - by apply Hs.
  - by apply Hs.
  - by apply Hs.
  - by apply Hs.
  - by apply Hs.
Qed.

Lemma seeked_view h e s : view (seeked h e s) = mk_a (content h) (fpos h) [].
Proof. apply empty_view, seeked_empty. Qed.

(** The part of [fseek] behind the flush. *)
Definition seek_tail (cur off origin r : Z) : SM Z :=
  _ ← mmod (set_ioeof false);
  _ ← mmod (fun s => if iorw s then set_ioread false (set_iowrt false s) else s);
  let seek (offset origin : Z) : SM Z := x ← call (lseek offset origin); mret (if x =? -1 then EOF else r) in
  if origin =? SEEK_CUR then
    cur_pos ← (if cur =? -1 then ftello_unlocked else mret cur);
    if cur_pos =? -1 then s ← mget; mret (if (off =? 0) && iorw s then r else EOF)
    else seek (s64 (off + cur_pos)) SEEK_SET
  else seek off origin.

Lemma wp_seek_tail cur off origin r h e s (Q : Z -> stream H -> Prop) : sinv s -> 0 <= origin <= 2 ->
  (forall off' origin' z h', 0 <= origin' <= 2 ->
    (origin = SEEK_CUR -> off' = s64 (off + (if cur =? -1 then fpos h else cur)) /\ origin' = SEEK_SET) -> (origin <> SEEK_CUR -> off' = off /\ origin' = origin) ->
    lseek off' origin' h = (z, h') -> Q (if z =? -1 then EOF else r) (seeked h' e s)) ->
  wp (seek_tail cur off origin r) Q E (flushed h e s).
Proof.
  intros Hs Ho HQ. unfold seek_tail. apply wp_bind, wp_mod, wp_bind, wp_mod. set (s1 := if iorw _ then _ else _).
  assert (Hs1 : s1 = seeked h e s) by (subst s1; destruct s as [p bu rc wc bs uc cb rd wr rw eo er lb nb op un ib hn en]; destruct rw, rd, wr; done).
  clearbody s1. subst s1. pose proof (fpos_range h) as Hp. destruct (Z.eqb_spec origin SEEK_CUR) as [->|Hne].
  - apply wp_bind. destruct (Z.eqb_spec cur (-1)).
    + apply wp_ftello; [by apply seeked_inv|]. rewrite seeked_view. unfold a_tell. cbn [a_pos a_back]. change (alen []) with 0. rewrite Z.sub_0_r.
      replace (fpos h =? -1) with false by lia. apply wp_bind, wp_call. intros z h' Hz. apply wp_ret. by apply (HQ (s64 (off + fpos h)) SEEK_SET).
    + apply wp_ret. replace (cur =? -1) with false by lia. apply wp_bind, wp_call. intros z h' Hz. apply wp_ret. by apply (HQ (s64 (off + cur)) SEEK_SET).
  - apply wp_bind, wp_call. intros z h' Hz. apply wp_ret. by apply (HQ off origin).
Qed.

Lemma wp_fseek_flush s cur off origin (Q : Z -> stream H -> Prop) : sinv s -> 0 <= origin <= 2 -> cur = -1 \/ origin = SEEK_SET ->
  (forall r h', a_step (Fseek off origin) (view s) r [] (mk_a (content h') (fpos h') []) -> Q r (seeked h' (ioerr s) s)) ->
  (forall h', Q EOF (seeked h' true s)) -> wp (fseek_flush cur off origin) Q E s.
Proof.
  intros Hs Ho Hcur HQ HE.
  change (fseek_flush cur off origin) with (cur ← (if (origin =? SEEK_CUR) && (cur =? -1) then ftello_unlocked else mret cur); r ← fflush_unlocked; seek_tail cur off origin r).
  apply wp_bind.
  assert (Hgo : forall cur', (origin = SEEK_CUR -> cur' = a_tell (view s)) -> wp (r ← fflush_unlocked; seek_tail cur' off origin r) Q E s).
  { intros cur' Htell. apply wp_bind, wp_fflush; [done| |].
    - intros h Hc Hp. apply wp_seek_tail; [done..|]. intros off' origin' z h' Ho' Hc1 Hc2 Hz. apply lseek_law in Hz as [Hc' Hz]; [|done]. cbn zeta in Hz.
      assert (Htar : (if origin' =? SEEK_SET then off' else s64 (off' + (if origin' =? SEEK_CUR then fpos h else alen (content h)))) = a_target (view s) off origin).
      { unfold a_target, a_cur. destruct (Z.eqb_spec origin SEEK_CUR) as [->|Hne].
        - destruct (Hc1 eq_refl) as [-> ->]. cbn. rewrite Hp. by rewrite Htell.
        - destruct (Hc2 Hne) as [-> ->]. replace (origin =? SEEK_CUR) with false by lia. by rewrite Hc. }
      rewrite Htar in Hz. apply HQ. unfold a_step. replace ((0 <=? origin) && (origin <=? 2)) with true by lia. split; [done|].
      rewrite Hc', Hc. revert Hz. destruct (_ && _)%bool eqn:Hin; intros Hz.
      + breflect. destruct Hz as [-> ->]. by replace (a_target (view s) off origin =? -1) with false by lia.
      + destruct Hz as [-> ->]. split; [done|]. congruence.
    - intros h. apply wp_seek_tail; [done..|]. intros _ _ z h' _ _ _ _. by destruct (z =? -1). }
  destruct (Z.eqb_spec origin SEEK_CUR) as [->|Hne].
  - destruct Hcur as [->|?]; [|done]. cbn [andb Z.eqb]. apply wp_ftello; [done|]. by apply Hgo.
  - cbn [andb]. apply wp_ret. by apply (Hgo cur).
Qed.

Lemma bbuf_not_none s : bbuf s = true -> iobuf s <> BufNone.
Proof. unfold bbuf. intros Hb Hn. by rewrite Hn in Hb. Qed.

(** The move of the pointer within the buffer. *)
Definition moved (p rc : Z) (h : H) (s : stream H) : stream H := set_hnd h (set_ptr p (set_rcount rc (set_ioeof false s))).

Lemma moved_inv s d h : sinv s -> hist s -> iorw s = false -> ioread s = true -> bbuf s = true -> ioungetc s = false -> ungetc_count s = 0 ->
  content h = content (hnd s) -> fpos h = fpos (hnd s) -> - ptr s <= d < avail s ->
  sinv (moved (ptr s + d) (avail s - d) h s) /\ hist (moved (ptr s + d) (avail s - d) h s) /\
  view (moved (ptr s + d) (avail s - d) h s) = mk_a (content (hnd s)) (fpos (hnd s) - avail s + d) [].
Proof.
  intros Hs Hh Hrw Hr Hb Hn Hu Hc Hp Hd. assert (Hw : iowrt s = false) by by apply Hs. pose proof (i_read s Hs Hw) as R.
  destruct (Hh Hrw Hr Hb Hn) as [Hlen Hsub]. set (m := moved _ _ h s).
  assert (Ha : avail m = avail s - d) by by apply avail_0.
  assert (Hbm : bbuf m = true) by done.
  (* the buffer up to its end is one piece of the file *)
  assert (Hall : forall p n, 0 <= p -> 0 <= n -> p + n <= ptr s + avail s -> sub (buffer s) p n = sub (content (hnd s)) (fpos (hnd s) - avail s - ptr s + p) n).
  { intros p n Hp0 Hn0 Hpn. apply (sub_window _ _ _ (ptr s) (avail s)); try done; [|by apply R..|].
    - lia.
    - rewrite (r_data s R). f_equal. lia. }
  pose proof (r_avail s R). pose proof (r_ptr s R). pose proof (r_fits s R Hb).
  split_and!.
  - split; try by apply Hs.
    + intros He. by destruct (bbuf_not_none s).
    + intros _. split; rewrite ?Ha; subst m; cbn; rewrite ?Hu, ?Hp, ?Hc; try done; try lia.
      * by apply R.
      * intros Hf. change (bbuf s = false) in Hf. congruence.
      * rewrite Hall by lia. f_equal. lia.
      * by rewrite Hr.
    + intros Hw1. change (iowrt s = true) in Hw1. congruence.
  - intros _ _ _ _. rewrite Ha. subst m. cbn. rewrite Hp, Hc. split; [lia|]. rewrite Hall by lia. f_equal. lia.
  - rewrite view_read_0 by done. rewrite Ha. subst m. cbn. rewrite Hp, Hc. f_equal. lia.
Qed.

(** A handle with the same file and position. *)
Lemma same_handle s h : content h = content (hnd s) -> fpos h = fpos (hnd s) -> (sinv s -> sinv (set_hnd h s)) /\ (hist s -> hist (set_hnd h s)) /\ view (set_hnd h s) = view s.
Proof.
  intros Hc Hp. split_and!.
  - intros [? ? ? ? ? ? ? ? ? Hr Hw]. split; try done.
    + intros Hwr. destruct (Hr Hwr). split; unfold avail, bbuf in *; cbn; rewrite ?Hc, ?Hp; done.
    + intros Hwr. by destruct (Hw Hwr).
  - intros Hh H1 H2 H3 H4. specialize (Hh H1 H2 H3 H4). unfold avail in *. cbn. by rewrite Hc, Hp.
  - unfold view, avail, bbuf. cbn. by rewrite Hc, Hp.
Qed.

(** The new position is tried within the buffer. *)
Definition fseek_within (file_pos cur_pos offset : Z) : SM (Z + Z * Z * Z) :=
  s ← mget;
  let n := ptr s in
  let buf_pos := if crlf s then cur_pos - 2 * n else cur_pos - n in
  if (offset >=? buf_pos) && (offset <? file_pos) then
    if crlf s then fseek_text cur_pos offset
    else
      _ ← mmod (fun s => set_ptr (offset - buf_pos) (set_rcount (file_pos - offset) (set_ioeof false s)));
      mret (inl 0)
  else mret (inr (cur_pos, offset, SEEK_SET)).

Section Within.
Context (s : stream H) (off origin : Z) (Q : Z + Z * Z * Z -> stream H -> Prop).
Context (Hs : sinv s) (Hh : hist s) (Ho : 0 <= origin <= 2) (Hrw : iorw s = false) (Hr : ioread s = true) (Hb : bbuf s = true).
Context (Hn : ioungetc s = false) (Hu : ungetc_count s = 0).
Notation target := (a_target (view s) off origin).
Context (HQ : forall p rc h, let s' := moved p rc h s in sinv s' -> hist s' -> a_step (Fseek off origin) (view s) 0 [] (view s') -> Q (inl 0) s').
Context (HQr : forall cur h, content h = content (hnd s) -> fpos h = fpos (hnd s) -> Q (inr (cur, target, SEEK_SET)) (set_hnd h s)).

Lemma within_view : view s = mk_a (content (hnd s)) (fpos (hnd s) - avail s) [] /\ 0 <= avail s <= fpos (hnd s).
Proof. assert (Hw : iowrt s = false) by by apply Hs. split; [by apply view_read_0|]. apply (i_read s Hs Hw). Qed.

Lemma wp_fseek_within h : content h = content (hnd s) -> fpos h = fpos (hnd s) ->
  wp (fseek_within (fpos (hnd s)) (fpos (hnd s) - avail s) target) Q E (set_hnd h s).
Proof.
  intros Hc Hp. destruct within_view as [Hv Ha]. unfold fseek_within. apply wp_bind, wp_get. cbn beta zeta. rewrite crlf_false. cbn [ptr set_hnd].
  destruct ((target >=? fpos (hnd s) - avail s - ptr s) && (target <? fpos (hnd s))) eqn:Hin; [|by apply wp_ret, HQr].
  breflect. apply wp_bind, wp_mod, wp_ret. set (o := target) in *.
  assert (Hd : - ptr s <= o - (fpos (hnd s) - avail s) < avail s) by lia.
  destruct (moved_inv s (o - (fpos (hnd s) - avail s)) h Hs Hh Hrw Hr Hb Hn Hu Hc Hp Hd) as (Hi & Hhi & Hvi).
  replace (ptr s + (o - (fpos (hnd s) - avail s))) with (o - (fpos (hnd s) - avail s - ptr s)) in * by lia.
  replace (avail s - (o - (fpos (hnd s) - avail s))) with (fpos (hnd s) - o) in * by lia.
  apply (HQ _ _ h Hi Hhi). rewrite Hvi. unfold a_step. fold o. replace ((0 <=? origin) && (origin <=? 2)) with true by lia. split; [done|].
  destruct (Hh Hrw Hr Hb Hn) as [Hlen _]. pose proof (fpos_range (hnd s)). replace ((0 <=? o) && (o <=? FILE_MAX)) with true by lia. split; [done|]. rewrite Hv. cbn. f_equal. lia.
Qed.

Lemma wp_fseek_buffer : wp (fseek_buffer off origin) Q E s.
Proof.
  destruct within_view as [Hv Ha].
  assert (Htell : a_tell (view s) = fpos (hnd s) - avail s) by (rewrite Hv; unfold a_tell; cbn [a_pos a_back]; change (alen []) with 0; lia).
  assert (Hcur : a_cur (view s) = fpos (hnd s) - avail s) by (unfold a_cur; rewrite Htell; by replace (_ =? -1) with false by lia).
  unfold fseek_buffer. apply wp_bind, wp_get. cbn beta zeta. rewrite tell_law. replace (fpos (hnd s) =? -1) with false by lia.
  apply wp_bind, wp_ftello; [done|]. rewrite Htell. apply wp_bind.
  assert (Hgo : wp (fseek_within (fpos (hnd s)) (fpos (hnd s) - avail s) target) Q E s).
  { pose proof (wp_fseek_within (hnd s) eq_refl eq_refl) as Hg. by destruct s. }
  pose proof wp_fseek_within as Hgo2. unfold a_target in Hgo, Hgo2. destruct (Z.eqb_spec origin SEEK_CUR) as [->|Hn1].
  { apply wp_ret. rewrite Hcur in Hgo. exact Hgo. }
  destruct (Z.eqb_spec origin SEEK_END) as [->|Hn2].
  - apply wp_bind, wp_call. intros e1 h1 He1. apply wp_bind, wp_call. intros e2 h2 He2. apply wp_ret. cbn in He2.
    apply lseek_law in He1 as [Hc1 He1]; [|done]. pose proof (fpos_range (hnd s)). apply lseek_set in He2 as (Hc2 & _ & Hp2); [|done]. cbn in He1.
    pose proof (content_len (hnd s)) as Hmax. pose proof (alen_nonneg (content (hnd s))). unfold FILE_MAX in Hmax.
    rewrite Z.add_0_l, s64_small in He1 by lia. replace ((0 <=? alen (content (hnd s))) && (alen (content (hnd s)) <=? FILE_MAX)) with true in He1 by (unfold FILE_MAX; lia). destruct He1 as [-> _].
    replace (alen (content (hnd s)) =? -1) with false by lia. cbn in Hgo2. rewrite Hv in Hgo2. cbn in Hgo2.
    change (set_hnd h2 (set_hnd h1 s)) with (set_hnd h2 s). apply Hgo2; congruence.
  - apply wp_ret. replace (origin =? SEEK_SET) with true in Hgo by (unfold SEEK_SET, SEEK_CUR, SEEK_END in *; lia). exact Hgo.
Qed.
End Within.

(** Nothing of a stream that later steps depend on has changed. *)
Definition frame (s s' : stream H) : Prop := iorw s' = iorw s /\ iobuf s' = iobuf s /\ buf_size s' = buf_size s /\ iolbf s' = iolbf s.

Lemma wp_fseek_slow s off origin (Q : Z -> stream H -> Prop) : sinv s ->
  0 <= origin <= 2 -> iorw s = true \/ ioread s = false \/ iowrt s = true \/ ioungetc s = true \/ bbuf s = false \/ ungetc_count s <> 0 ->
  (forall r h', a_step (Fseek off origin) (view s) r [] (mk_a (content h') (fpos h') []) -> Q r (seeked h' (ioerr s) s)) ->
  (forall h', Q EOF (seeked h' true s)) -> wp (fseek_unlocked off origin) Q E s.
Proof.
  intros Hs Ho Hslow HQ HE. unfold fseek_unlocked. apply wp_bind, wp_get. cbn beta. rewrite (i_open s Hs).
  replace ((origin <? 0)) with false by lia. replace (origin >? 2) with false by lia. cbn [negb orb].
  replace (negb (iorw s) && ioread s && negb (iowrt s) && negb (ioungetc s) && bbuf s && (ungetc_count s =? 0)) with false.
  - apply wp_bind, wp_ret. apply wp_fseek_flush; [done|done|by left|done|done].
  - symmetry. destruct Hslow as [->|[->|[->|[->|[->|Hu]]]]]; rewrite ?andb_false_r; try done. replace (ungetc_count s =? 0) with false by lia. by rewrite andb_false_r.
Qed.

Lemma wp_fseek s off origin (Q : Z -> stream H -> Prop) : sinv s -> hist s ->
  (forall r s', sinv s' -> hist s' -> frame s s' -> ioerr s' = ioerr s -> a_step (Fseek off origin) (view s) r [] (view s') -> Q r s') ->
  (forall h', Q EOF (seeked h' true s)) -> wp (fseek_unlocked off origin) Q E s.
Proof.
  intros Hs Hh HQ HE.
  assert (Hslow : forall r h', a_step (Fseek off origin) (view s) r [] (mk_a (content h') (fpos h') []) -> Q r (seeked h' (ioerr s) s)).
  { intros r h' Ha. apply HQ; [by apply seeked_inv|by apply empty_hist|done|done|by rewrite seeked_view]. }
  destruct ((0 <=? origin) && (origin <=? 2)) eqn:Ho.
  - breflect. destruct (negb (iorw s) && ioread s && negb (iowrt s) && negb (ioungetc s) && bbuf s && (ungetc_count s =? 0)) eqn:Hfast.
    + unfold fseek_unlocked. apply wp_bind, wp_get. cbn beta. rewrite (i_open s Hs).
      replace ((origin <? 0)) with false by lia. replace (origin >? 2) with false by lia. cbn [negb orb]. rewrite Hfast.
      apply wp_bind. breflect. apply wp_fseek_buffer; try done; try lia.
      * intros p rc h s' ? ? ?. apply wp_ret. by apply HQ.
      * intros cur h Hc Hp. destruct (same_handle s h Hc Hp) as (Hs' & _ & Hv).
        apply wp_fseek_flush; [by apply Hs'|done|by right|intros r h'; rewrite Hv; intros Ha|done].
        change (seeked h' _ _) with (seeked h' (ioerr s) s). apply Hslow. destruct Ha as [_ Ha]. split; [done|].
        by replace ((0 <=? origin) && (origin <=? 2)) with true by lia.
    + apply wp_fseek_slow; try done. repeat (apply andb_false_iff in Hfast as [Hfast|Hfast]); breflect; tauto.
  - unfold fseek_unlocked. apply wp_bind, wp_get. cbn beta.
    replace (negb (ioopen s) || (origin <? 0) || (origin >? 2)) with true by (rewrite (i_open s Hs); cbn [negb orb]; symmetry; lia).
    apply wp_bind, wp_mod, wp_ret. apply HQ; try done; [by destruct Hs as [? ? ? ? ? ? ? ? ? Hr Hw]; split; try done;
      [intros Hw0; by destruct (Hr Hw0)|intros Hw0; by destruct (Hw Hw0)]|]. split; [done|]. by rewrite Ho.
Qed.
End Rules.
