(* ===== verification/StdioRead.v ===== *)
(** Reading from a stream: [_fill], [getc] and [fread] keep the invariant and
    read the bytes of the abstract stream. *)

From S2P Require Import Prelude Stdio StdioSpec StdioSeek.

Section Reading.
Context {H : Type} `{HD : DiskFile H} (E : Z -> stream H -> Prop).
Implicit Types (s : stream H).

(** What the steps leave as it is. *)
Record keeps (s s' : stream H) : Prop := {
  k_rw : iorw s' = iorw s;
  k_buf : iobuf s <> BufNone -> iobuf s' = iobuf s;
  k_lbf : iolbf s = false -> iolbf s' = false
}.

Lemma keeps_refl s : keeps s s.
Proof. done. Qed.

Lemma keeps_trans s1 s2 s3 : keeps s1 s2 -> keeps s2 s3 -> keeps s1 s3.
Proof. intros [H1 H2 H5] [H3 H4 H6]. split; [congruence| |tauto]. intros Hn. rewrite H4; [by apply H2|by rewrite H2]. Qed.

Lemma rcount_id s n : n = rcount s -> set_rcount n s = s.
Proof. intros ->. by destruct s. Qed.

(** ** Buffers *)

(** A stream whose buffer has just been allocated. *)
Lemma wp_fbuf s (Q : unit -> stream H -> Prop) : sinv s -> iobuf s = BufNone ->
  (forall s', sinv s' -> empty s' -> iobuf s' <> BufNone -> iorw s' = iorw s -> ioread s' = ioread s -> iowrt s' = iowrt s ->
     ioerr s' = ioerr s -> view s' = view s -> (iolbf s = false -> iolbf s' = false) -> Q () s') -> wp fbuf Q E s.
Proof.
  intros Hs Hn HQ. destruct (i_none s Hs Hn) as (Hr & Hu & Hp). pose proof (i_size s Hs).
  assert (Hb : bbuf s = false) by (unfold bbuf; by rewrite Hn).
  assert (Hv : view s = mk_a (content (hnd s)) (fpos (hnd s)) []) by (apply view_plain; auto).
  assert (Hgo : forall s', empty s' -> ioopen s' = ioopen s -> ioread s' = ioread s -> iowrt s' = iowrt s -> iorw s' = iorw s -> ioerr s' = ioerr s ->
    char_buf s' = char_buf s -> Forall byte (buffer s') -> alen (buffer s') = buf_size s' -> 1 <= buf_size s' <= BUFSIZ -> (iobuf s' = BufChar -> buf_size s' = 1) -> iobuf s' <> BufNone ->
    content (hnd s') = content (hnd s) -> fpos (hnd s') = fpos (hnd s) -> (iolbf s = false -> iolbf s' = false) -> Q () s').
  { intros s' He Ho Hrd Hwr Hrw Her Hch Hbt Hl Hsz Hone Hne Hc Hf Hlb. unfold BUFSIZ in Hsz. apply HQ; try done.
    - apply empty_inv; rewrite ?Ho, ?Hrd, ?Hwr, ?Hrw, ?Hch; try apply Hs; try done; lia.
    - rewrite empty_view by done. congruence. }
  unfold fbuf. apply wp_bind, wp_get. cbn beta. apply wp_bind. destruct (ionbf s) eqn:Hnb.
  - apply wp_ret, wp_bind, wp_mod, wp_mod. apply Hgo; try done. cbn. constructor; [apply Hs|constructor].
  - apply wp_call. intros b h Hm. apply malloc_law in Hm as (Hc & Hf & Hl); [|done]. destruct b as [l|]; apply wp_bind, wp_mod, wp_mod.
    + destruct (Hl l eq_refl) as [Hlen Hby]. by apply Hgo.
    + apply Hgo; try done. cbn. constructor; [apply Hs|constructor].
Qed.

Lemma wp_need_buf s (Q : unit -> stream H -> Prop) : sinv s -> hist s ->
  (forall s', sinv s' -> hist s' -> iobuf s' <> BufNone -> keeps s s' -> ioread s' = ioread s -> iowrt s' = iowrt s ->
     ioerr s' = ioerr s -> view s' = view s -> (iobuf s <> BufNone -> s' = s) -> (iobuf s = BufNone -> empty s') -> Q () s') -> wp need_buf Q E s.
Proof.
  intros Hs Hh HQ. unfold need_buf. apply wp_bind, wp_get, wp_when; unfold nbuf; intros Hb; breflect; [|by apply HQ].
  apply wp_fbuf; [done..|]. intros s' H1 H2 H3 H4 H5 H6 H7 H8 H9. apply HQ; try done. by apply empty_hist.
Qed.

(** ** The pointer moves *)

(** [n] bytes of the buffer are taken. *)
Definition took (n : Z) (s : stream H) : stream H := set_ptr (ptr s + n) (set_rcount (rcount s - n) s).

Lemma read_mode s : sinv s -> 0 < rcount s -> iowrt s = false /\ ungetc_count s = 0 /\ bbuf s = true /\ avail s = rcount s /\ ioread s = true.
Proof.
  intros Hs Hr. destruct (iowrt s) eqn:Hw; [pose proof (i_write s Hs Hw) as W; rewrite (w_rcount s W) in Hr; lia|].
  pose proof (i_read s Hs Hw) as R. pose proof (r_avail s R) as Ha. unfold avail in *. destruct (Z.eqb_spec (ungetc_count s) 0) as [Hu|Hu]; [|lia].
  split_and!; try done.
  - destruct (bbuf s) eqn:Hb; [done|]. pose proof (r_small s R Hb) as Hz. unfold avail in Hz. rewrite Hu in Hz. cbn in Hz. lia.
  - destruct (ioread s) eqn:Hrd; [done|]. destruct (r_neutral s R Hrd). lia.
Qed.

Lemma took_ok n s : sinv s -> 0 < rcount s -> 0 <= n <= rcount s ->
  sinv (took n s) /\ (hist s -> hist (took n s)) /\ view (took n s) = mk_a (content (hnd s)) (fpos (hnd s) - avail s + n) [] /\
  sub (buffer s) (ptr s) n = sub (content (hnd s)) (fpos (hnd s) - avail s) n /\ ptr s + n <= alen (buffer s).
Proof.
  intros Hs Hr Hn. destruct (read_mode s Hs Hr) as (Hw & Hu & Hb & Ha & Hrd). pose proof (i_read s Hs Hw) as R.
  set (m := took n s). assert (Ham : avail m = avail s - n) by (rewrite (avail_0 m) by done; rewrite Ha; done).
  pose proof (r_avail s R). pose proof (r_ptr s R). pose proof (r_fits s R Hb). pose proof (r_data s R) as Hd.
  destruct (i_buf s Hs (bbuf_not_none s Hb)) as [Hl Hsz].
  assert (Hfirst : sub (buffer s) (ptr s) n = sub (content (hnd s)) (fpos (hnd s) - avail s) n).
  { apply (f_equal (fun l => sub l 0 n)) in Hd. rewrite !sub_sub in Hd by lia. by rewrite !Z.add_0_r in Hd. }
  assert (Hrest : sub (buffer s) (ptr s + n) (avail s - n) = sub (content (hnd s)) (fpos (hnd s) - avail s + n) (avail s - n)).
  { apply (f_equal (fun l => sub l n (avail s - n))) in Hd. by rewrite !sub_sub in Hd by lia. }
  split_and!.
  - split; try by apply Hs.
    + intros Hnn. by destruct (bbuf_not_none s Hb).
    + intros _. split; rewrite ?Ham; subst m; cbn; rewrite ?Hu; try apply R; try done; try lia.
      * intros Hf. change (bbuf s = false) in Hf. congruence.
      * rewrite Hrest. f_equal. lia.
      * by rewrite Hrd.
    + intros Hw1. change (iowrt s = true) in Hw1. congruence.
  - intros Hh K1 K2 K3 K4. destruct (Hh K1 K2 K3 K4) as [Hlen Hsub]. rewrite Ham. subst m. cbn. split; [lia|].
    rewrite sub_split, Hsub, Z.add_0_l, Hfirst by lia.
    replace (fpos (hnd s) - avail s) with (fpos (hnd s) - avail s - ptr s + ptr s) at 2 by lia. rewrite <-sub_split by lia. f_equal; lia.
  - rewrite view_read_0 by done. rewrite Ham. subst m. cbn. f_equal. lia.
  - done.
  - lia.
Qed.

(** ** [_fill] *)

(** The part of [_fill] that reads from the file. *)
Definition refill : SM Z :=
  _ ← mmod (fun s => set_ioread true (set_wcount 0 s));
  s ← mget;
  _ ← (if nbuf s then fbuf else mmod (set_ptr 0));
  _ ← mmod (set_ioungetc false);
  s ← mget;
  x ← call (stream_read (buf_size s));
  let '(r, d) := x : Z * list Z in
  _ ← store d;
  _ ← mmod (set_rcount r);
  if r <? 0 then _ ← mmod (fun s => set_ioerr true (set_rcount 0 s)); mret EOF
  else if r =? 0 then _ ← at_eof; mret EOF
  else
    _ ← mmod (set_rcount (r - 1));
    s ← mget; c ← deref (aget (buffer s) (ptr s));
    _ ← mmod (set_ptr (ptr s + 1)); mret c.

(** Reading mode, and a buffer with nothing in it. *)
Record ready (s : stream H) : Prop := {
  y_inv : sinv s;
  y_empty : empty s;
  y_read : ioread s = true;
  y_buf : iobuf s <> BufNone
}.

Lemma ready_upd s (f : stream H -> stream H) :
  ready s -> ptr (f s) = 0 -> rcount (f s) = 0 -> wcount (f s) = 0 -> ungetc_count (f s) = 0 -> ioread (f s) = true -> iowrt (f s) = false ->
  ioopen (f s) = true -> buffer (f s) = buffer s -> iobuf (f s) = iobuf s -> buf_size (f s) = buf_size s -> char_buf (f s) = char_buf s -> ready (f s).
Proof.
  intros [Hs He Hr Hb] ? ? ? ? ? ? ? Hbu Hib Hsz Hch. split; try done; [|by rewrite Hib]. apply empty_inv; rewrite ?Hbu, ?Hib, ?Hsz, ?Hch; try apply Hs; try done; tauto.
Qed.

(** From the state before the read on. *)
Lemma wp_refill_start s (K : SM Z) (Q : Z -> stream H -> Prop) : sinv s -> hist s -> iowrt s = false -> ungetc_count s = 0 -> rcount s = 0 ->
  (forall s', ready s' -> iowrt s' = false -> ioungetc s' = false -> keeps s s' -> ioerr s' = ioerr s -> view s' = view s -> wp K Q E s') ->
  wp (_ ← mmod (fun s => set_ioread true (set_wcount 0 s)); s ← mget; _ ← (if nbuf s then fbuf else mmod (set_ptr 0)); _ ← mmod (set_ioungetc false); K) Q E s.
Proof.
  intros Hs Hh Hw Hu Hr HK. pose proof (i_read s Hs Hw) as R. apply wp_bind, wp_mod, wp_bind, wp_get. cbn beta.
  assert (Hv : view s = mk_a (content (hnd s)) (fpos (hnd s)) []) by (apply view_plain; [done|done|right; by rewrite Hw]).
  assert (Hemp : empty (set_ptr 0 (set_ioread true (set_wcount 0 s)))) by by split.
  assert (Hi : sinv (set_ptr 0 (set_ioread true (set_wcount 0 s)))) by (apply empty_inv; try apply Hs; try done; tauto).
  unfold nbuf. case_bool_decide as Hn; cbn [iobuf set_ioread set_wcount] in Hn.
  - destruct (i_none s Hs Hn) as (_ & _ & Hp).
    assert (Hid : set_ptr 0 (set_ioread true (set_wcount 0 s)) = set_ioread true (set_wcount 0 s)) by (rewrite <-Hp at 1; by destruct s).
    rewrite Hid in Hemp, Hi. apply wp_bind, wp_fbuf; [done|done|]. intros s' Hs' He' Hb' Hrw' Hrd' Hwr' Her' Hv' Hlb'.
    cbn in Hrw', Hrd', Hwr', Her'. apply wp_bind, wp_mod. apply HK; try done.
    + apply (ready_upd s' (set_ioungetc false)); try done; try apply He'; try apply Hs'; cbn; congruence.
    + cbn. congruence.
  - apply wp_bind, wp_mod, wp_bind, wp_mod. set (s1 := set_ioungetc false _).
    assert (He1 : empty s1) by by split. apply HK; try done.
    + apply (ready_upd (set_ptr 0 (set_ioread true (set_wcount 0 s))) (set_ioungetc false)); try done. apply Hs.
    + by rewrite empty_view.
Qed.

(** The buffer is filled: [d] has come from the file. *)
Definition filled (d : list Z) (h : H) (s : stream H) : stream H :=
  set_rcount (alen d) (set_buffer (d ++ drop (length d) (buffer s)) (set_hnd h s)).

Lemma filled_ok s d h : ready s -> iowrt s = false -> content h = content (hnd s) -> 0 < alen d <= buf_size s ->
  d = sub (content (hnd s)) (fpos (hnd s)) (alen d) -> fpos h = fpos (hnd s) + alen d ->
  Forall byte (buffer (filled d h s)) /\ alen (buffer (filled d h s)) = buf_size s /\
  (bbuf s = true -> sinv (filled d h s) /\ hist (filled d h s)).
Proof.
  intros [Hs He Hr Hb] Hw Hc Hd Hsub Hp. destruct (i_buf s Hs Hb) as [Hl Hsz].
  assert (Hby : Forall byte (buffer (filled d h s))).
  { cbn. apply Forall_app. split; [rewrite Hsub; apply Forall_take, Forall_drop, content_bytes|apply Forall_drop, Hs]. }
  assert (Hlen : alen (buffer (filled d h s)) = buf_size s) by (cbn; unfold alen in *; rewrite length_app, length_drop; lia).
  split_and!; [done|done|]. intros Hbb. set (m := filled d h s) in *. destruct He as [Hptr Hrc Hwc Huc].
  assert (Ha : avail m = alen d) by by apply avail_0. pose proof (fpos_range (hnd s)).
  split.
  - split; try by apply Hs.
    + done.
    + intros _. by split.
    + intros Hn. by destruct Hb.
    + intros _. split; rewrite ?Ha; subst m; cbn; rewrite ?Huc, ?Hptr, ?Hp; unfold UCHAR_MAX; try done; try lia.
      * intros Hf. change (bbuf s = false) in Hf. congruence.
      * rewrite sub_app_l, sub_full by lia. rewrite Hc, Z.add_simpl_r. exact Hsub.
      * by rewrite Hr.
    + intros Hw1. change (iowrt s = true) in Hw1. congruence.
  - intros _ _ _ _. rewrite Ha. subst m. cbn. rewrite Hptr, Hp. split; [lia|done].
Qed.

(** Nothing is left in the buffer, wherever the pointer is. *)
Lemma used_up s : ioopen s = true -> ioread s = true -> iowrt s = false -> Forall byte (buffer s) -> byte (char_buf s) -> 0 <= buf_size s <= 0x400000 ->
  iobuf s <> BufNone -> alen (buffer s) = buf_size s -> 1 <= buf_size s -> wcount s = 0 -> ungetc_count s = 0 -> rcount s = 0 -> 0 <= ptr s <= buf_size s ->
  (iobuf s = BufChar -> buf_size s = 1) -> sinv s.
Proof.
  intros Ho Hr Hw Hb Hch Hsz Hn Hl H1s Hwc Hu Hrc Hp Hone. assert (Ha : avail s = 0) by by rewrite avail_0. pose proof (fpos_range (hnd s)).
  split; try done; [by left|..].
  - intros _. split; rewrite ?Ha, ?Hu; unfold UCHAR_MAX; try done; try lia. rewrite Hr. done.
  - by rewrite Hw.
Qed.

Lemma aget_sub_0 l p n c k : 0 <= p -> sub l p n = c :: k -> aget l p = Some c.
Proof.
  unfold sub, aget. intros Hp Heq. replace (0 <=? p) with true by lia. destruct (Z.to_nat n) as [|m]; [done|].
  destruct (drop (Z.to_nat p) l) as [|y r] eqn:Hd; [done|]. injection Heq as -> _. rewrite <-(Nat.add_0_r (Z.to_nat p)), <-lookup_drop, Hd. done.
Qed.

(** The state at the end of the file. *)
Definition ended (s : stream H) : stream H := set_ioeof true (if iorw s then set_ioread false (set_iowrt false s) else s).

Lemma ended_ok s : sinv s -> empty s -> iowrt s = false ->
  sinv (ended s) /\ hist (ended s) /\ view (ended s) = view s /\ iowrt (ended s) = false /\ keeps s (ended s) /\ ioerr (ended s) = ioerr s.
Proof.
  intros Hs He Hw. assert (He' : empty (ended s)) by (unfold ended; destruct (iorw s), He; by split).
  assert (Hw' : iowrt (ended s) = false) by (unfold ended; by destruct (iorw s)).
  split_and!; try done.
  - unfold ended in *. destruct (iorw s) eqn:Hrw; apply empty_inv; try exact He'; try apply (i_open s Hs); try apply Hs; cbn; congruence.
  - by apply empty_hist.
  - rewrite !empty_view by done. unfold ended. by destruct (iorw s).
  - split; unfold ended; by destruct (iorw s) eqn:Hrw.
  - unfold ended. by destruct (iorw s).
Qed.

Section RefillRead.
Context (s : stream H) (Q : Z -> stream H -> Prop).
Context (Hy : ready s) (Hw : iowrt s = false) (Hn : ioungetc s = false).
Context (HQ : forall r s', sinv s' -> hist s' -> iowrt s' = false -> keeps s s' -> ioerr s' = ioerr s -> a_step Getc (view s) r [] (view s') -> Q r s').
Context (HE : forall s', sinv s' -> hist s' -> iowrt s' = false -> keeps s s' -> ioerr s' = true -> view s' = view s -> Q EOF s').

Lemma ready_view : view s = mk_a (content (hnd s)) (fpos (hnd s)) [].
Proof. apply empty_view, Hy. Qed.

Lemma wp_refill_got d h : content h = content (hnd s) -> 0 < alen d <= buf_size s ->
  d = sub (content (hnd s)) (fpos (hnd s)) (alen d) -> fpos h = fpos (hnd s) + alen d ->
  wp (_ ← mmod (set_rcount (alen d - 1)); s ← mget; c ← deref (aget (buffer s) (ptr s)); _ ← mmod (set_ptr (ptr s + 1)); mret c) Q E (filled d h s).
Proof.
  intros Hc Hd Hsub Hp. destruct (filled_ok s d h Hy Hw Hc Hd Hsub Hp) as (Hby & Hlen & Hbb). pose proof Hy as [Hs He Hr Hb].
  assert (Hp0 : ptr s = 0) by apply He. destruct d as [|c d']; [unfold alen in Hd; cbn [length] in Hd; lia|].
  apply wp_bind, wp_mod, wp_bind, wp_get. cbn beta. apply wp_bind, wp_deref; [|intros x Hx].
  { change (is_Some (aget (buffer (filled (c :: d') h s)) (ptr s))). apply aget_is_Some. lia. }
  apply wp_bind, wp_mod, wp_ret.
  assert (Hxc : x = c) by (cbn in Hx; rewrite Hp0 in Hx; by injection Hx). subst x. clear Hx.
  assert (Hm : set_ptr (ptr (set_rcount (alen (c :: d') - 1) (filled (c :: d') h s)) + 1) (set_rcount (alen (c :: d') - 1) (filled (c :: d') h s)) = took 1 (filled (c :: d') h s))
    by done. rewrite Hm. clear Hm.
  assert (Hfirst : aget (content (hnd s)) (fpos (hnd s)) = Some c) by (eapply aget_sub_0; [apply fpos_range|by symmetry]).
  assert (Hstep : view (took 1 (filled (c :: d') h s)) = mk_a (content (hnd s)) (fpos (hnd s) + 1) [] -> a_step Getc (view s) c [] (view (took 1 (filled (c :: d') h s)))).
  { intros ->. rewrite ready_view. cbn. by rewrite Hfirst. }
  destruct (bbuf s) eqn:Hbf.
  - destruct (Hbb eq_refl) as [Hi Hh]. destruct (took_ok 1 _ Hi) as (Hi' & Hh' & Hv' & _); [change (0 < alen (c :: d')); lia|change (0 <= 1 <= alen (c :: d')); lia|].
    apply HQ; try done; [by apply Hh'|]. apply Hstep. rewrite Hv', avail_0 by apply He. cbn. rewrite Hc, Hp. f_equal. lia.
  - assert (Hone : iobuf s = BufChar) by (unfold bbuf in Hbf; by destruct (iobuf s)). pose proof (i_single s Hs Hone) as Hsz.
    assert (Hnil : d' = []) by (destruct d'; [done|rewrite !alen_cons in Hd; pose proof (alen_nonneg d'); lia]). subst d'. set (m := took 1 _) in *.
    assert (Hi : sinv m).
    { apply used_up; try done; [by apply Hs|by apply Hs|by apply Hs|change (1 <= buf_size s); lia|by apply He|by apply He|cbn; lia]. }
    apply HQ; try done; [intros _ _ Hbm; change (bbuf s = true) in Hbm; congruence|]. apply Hstep. rewrite view_read_0 by (try done; by apply He).
    rewrite (avail_0 m) by apply He. cbn. rewrite Hc, Hp. f_equal. cbn. lia.
Qed.

Lemma wp_store d (K : unit -> stream H -> Prop) s' : alen d <= alen (buffer s') -> K () (set_buffer (d ++ drop (length d) (buffer s')) s') -> wp (store d) K E s'.
Proof. intros Hl HK. unfold store. apply wp_bind, wp_get. replace (alen d <=? alen (buffer s')) with true by lia. by apply wp_put. Qed.

Lemma ready_hnd h (e : bool) : content h = content (hnd s) -> fpos h = fpos (hnd s) ->
  let s' := set_rcount 0 (set_ioerr e (set_hnd h s)) in sinv s' /\ hist s' /\ view s' = view s.
Proof.
  intros Hc Hp s'. pose proof Hy as [Hs He Hr Hb]. assert (He' : empty s') by (destruct He; by split). split_and!; [|by apply empty_hist|].
  - apply empty_inv; try done; try apply Hs.
  - rewrite !empty_view by done. cbn. congruence.
Qed.

Lemma wp_refill_read :
  wp (s ← mget; x ← call (stream_read (buf_size s)); let '(r, d) := x : Z * list Z in
    _ ← store d; _ ← mmod (set_rcount r);
    if r <? 0 then _ ← mmod (fun s => set_ioerr true (set_rcount 0 s)); mret EOF
    else if r =? 0 then _ ← at_eof; mret EOF
    else _ ← mmod (set_rcount (r - 1)); s ← mget; c ← deref (aget (buffer s) (ptr s)); _ ← mmod (set_ptr (ptr s + 1)); mret c) Q E s.
Proof.
  pose proof Hy as [Hs He Hr Hb]. destruct (i_buf s Hs Hb) as [Hl Hsz]. apply wp_bind, wp_get, wp_bind, wp_call. intros [r d] h Hrd.
  apply read_law in Hrd as [Hc Hrd]; [|lia]. destruct Hrd as [(Hneg & -> & Hp)|(Hge & Hsub & Hlen & Hp & Hend)].
  - apply wp_bind, wp_store; [unfold alen; cbn; lia|]. apply wp_bind, wp_mod. replace (r <? 0) with true by lia. apply wp_bind, wp_mod, wp_ret.
    destruct (ready_hnd h true Hc Hp) as (Hi & Hh & Hv).
    assert (Hid : set_ioerr true (set_rcount 0 (set_rcount r (set_buffer ([] ++ drop (length (@nil Z)) (buffer (set_hnd h s))) (set_hnd h s)))) = set_rcount 0 (set_ioerr true (set_hnd h s))) by done.
    rewrite Hid. by apply HE.
  - apply wp_bind, wp_store; [change (alen d <= alen (buffer s)); lia|]. apply wp_bind, wp_mod. replace (r <? 0) with false by lia. destruct (Z.eqb_spec r 0) as [->|Hnz].
    + assert (Hd : d = []) by (destruct d; [done|unfold alen in Hlen; cbn in Hlen; lia]). subst d. unfold at_eof. apply wp_bind, wp_mod, wp_ret.
      rewrite Z.add_0_r in Hp. destruct (ready_hnd h (ioerr s) Hc Hp) as (Hi & _ & Hv). set (s1 := set_rcount 0 _) in Hi, Hv.
      destruct (ended_ok s1 Hi) as (Hi' & Hh' & Hv' & Hw' & Hk' & He'); [destruct He; by split|done|].
      change (Q EOF (ended (set_rcount 0 (set_buffer (buffer s) (set_hnd h s))))).
      assert (Hid : ended s1 = ended (set_rcount 0 (set_buffer (buffer s) (set_hnd h s)))) by (by destruct s).
      rewrite <-Hid. apply HQ; try done; [by destruct Hk'; split|]. rewrite Hv', Hv, ready_view. cbn.
      destruct (aget _ _) as [c|] eqn:Hg; [|done]. apply aget_Some_range in Hg. specialize (Hend eq_refl). lia.
    + subst r. assert (Hpos : 0 < alen d) by (pose proof (alen_nonneg d); lia). apply wp_refill_got; [done|lia|done|done].
Qed.
End RefillRead.

(** What a read returns: the next byte, or the end of the file, or an error. *)
Lemma wp_refill s (Q : Z -> stream H -> Prop) : sinv s -> hist s -> iowrt s = false -> ungetc_count s = 0 -> rcount s = 0 ->
  (forall r s', sinv s' -> hist s' -> iowrt s' = false -> keeps s s' -> ioerr s' = ioerr s -> a_step Getc (view s) r [] (view s') -> Q r s') ->
  (forall s', sinv s' -> hist s' -> iowrt s' = false -> keeps s s' -> ioerr s' = true -> view s' = view s -> Q EOF s') -> wp refill Q E s.
Proof.
  intros Hs Hh Hw Hu Hr HQ HE. apply wp_refill_start; try done. intros s' Hy Hw' Hn' Hk He Hv. apply wp_refill_read; try done.
  - intros r s2 H1 H2 H3 H4 H5 H6. apply HQ; try done; [by eapply keeps_trans|congruence|by rewrite <-Hv].
  - intros s2 H1 H2 H3 H4 H5 H6. apply HE; try done; [by eapply keeps_trans|congruence].
Qed.

(** ** Leaving the other mode *)

Lemma view_bounds s : sinv s -> 0 <= a_pos (view s) <= FILE_MAX + 0x400000 /\ 0 <= alen (a_back (view s)) <= UCHAR_MAX.
Proof.
  intros Hs. pose proof (fpos_range (hnd s)). pose proof (i_size s Hs). destruct (iowrt s) eqn:Hw.
  - pose proof (i_write s Hs Hw) as W. pose proof (w_ptr s W). pose proof (w_wcount s W). pose proof (w_fits s W) as Hf. unfold view. rewrite Hw.
    destruct (bbuf s); cbn [andb a_pos a_back]; [specialize (Hf eq_refl); split; [lia|by vm_compute]|].
    unfold avail. rewrite (w_uc s W), (w_rcount s W). cbn [Z.eqb]. split; [lia|by vm_compute].
  - rewrite view_read by done. cbn [a_pos a_back]. rewrite alen_back by done. pose proof (i_read s Hs Hw) as R. pose proof (r_avail s R). pose proof (r_uc s R). lia.
Qed.

Lemma cur_bounds s : sinv s -> - UCHAR_MAX <= a_cur (view s) <= a_pos (view s).
Proof. intros Hs. destruct (view_bounds s Hs). unfold a_cur, a_tell, UCHAR_MAX in *. destruct (_ =? -1) eqn:Hc; breflect; lia. Qed.

Lemma wp_leave s (Q : Z -> stream H -> Prop) : sinv s -> iorw s = true ->
  (forall h', 0 <= a_cur (view s) -> content h' = a_data (view s) -> fpos h' = a_cur (view s) -> Q 0 (seeked h' (ioerr s) s)) ->
  (forall h', a_cur (view s) < 0 -> content h' = a_data (view s) -> fpos h' = a_pos (view s) -> Q EOF (seeked h' (ioerr s) s)) ->
  (forall h', Q EOF (seeked h' true s)) -> wp (fseek_unlocked 0 SEEK_CUR) Q E s.
Proof.
  intros Hs Hrw HQ HN HE. apply wp_fseek_slow; [done|done|by left| |done]. intros r h' [_ Ha].
  change ((0 <=? SEEK_CUR) && (SEEK_CUR <=? 2)) with true in Ha. cbv iota in Ha. pose proof (cur_bounds s Hs). pose proof (fpos_range h').
  pose proof (view_bounds s Hs) as [Hb _]. unfold UCHAR_MAX, FILE_MAX in *.
  assert (Ht : a_target (view s) 0 SEEK_CUR = a_cur (view s)) by (change (a_target (view s) 0 SEEK_CUR) with (s64 (0 + a_cur (view s))); rewrite Z.add_0_l, s64_small; [done|lia]).
  rewrite Ht in Ha. destruct ((0 <=? a_cur (view s)) && (a_cur (view s) <=? 2 ^ 62)) eqn:Hin; breflect; destruct Ha as [-> [= Hc Hp]]; [by apply HQ|].
  apply HN; [|done|done]. apply andb_false_iff in Hin as [?|?]; breflect; lia.
Qed.

Lemma wp_to_read s (Q : bool -> stream H -> Prop) : sinv s -> hist s ->
  (forall s', sinv s' -> hist s' -> iowrt s' = false -> keeps s s' -> ioerr s' = ioerr s -> view s' = view s -> (iowrt s = false -> s' = s) ->
     (iowrt s = true -> rcount s' = 0) -> Q true s') ->
  (forall s', sinv s' -> hist s' -> keeps s s' -> ioerr s' = true -> iowrt s = true -> Q false s') -> wp to_read Q E s.
Proof.
  intros Hs Hh HQ HE. unfold to_read. apply wp_bind, wp_get. cbn beta. destruct (iowrt s) eqn:Hw; [|by apply wp_ret, HQ].
  pose proof (i_write s Hs Hw) as W. destruct (iorw s) eqn:Hrw.
  - assert (Hb : a_back (view s) = []) by (unfold view; rewrite Hw; destruct (bbuf s); cbn; [done|by rewrite (w_uc s W)]).
    assert (Hcur : a_cur (view s) = a_pos (view s)).
    { unfold a_cur, a_tell. rewrite Hb. change (alen []) with 0. destruct (view_bounds s Hs). rewrite Z.sub_0_r. by replace (_ =? -1) with false by lia. }
    apply wp_bind, wp_leave; [done|done|intros h' _ Hc Hp|intros h' Hneg; destruct (view_bounds s Hs); lia|intros h'].
    + change (negb (0 =? 0)) with false. cbv iota. apply wp_bind, wp_get. cbn beta. cbn [iowrt seeked]. rewrite Hrw, andb_false_r. apply wp_ret.
      apply HQ; try done; [by apply seeked_inv|by apply empty_hist|cbn; by rewrite Hrw, andb_false_r|]. rewrite seeked_view, Hc, Hp, Hcur. destruct (view s); cbn in *; congruence.
    + apply wp_ret. apply HE; try done; [by apply seeked_inv|by apply empty_hist].
  - apply wp_bind, wp_ret. change (negb (0 =? 0)) with false. cbv iota. apply wp_bind, wp_get. cbn beta. rewrite Hw. apply wp_bind, wp_mod, wp_ret. apply HE; try done.
    destruct Hs as [? ? ? ? ? ? ? ? ? Hr Hw']. split; try done; [intros Hx; by destruct (Hr Hx)|intros Hx; by destruct (Hw' Hx)].
Qed.

(** The byte pushed back last is taken. *)
Definition popped (s : stream H) : stream H :=
  set_ungetc_count (ungetc_count s - 1) (if ungetc_count s - 1 =? 0 then set_rcount (- rcount s) s else s).

Lemma take_snoc (l : list Z) n c : 0 <= n -> aget l n = Some c -> take (Z.to_nat (n + 1)) l = take (Z.to_nat n) l ++ [c].
Proof.
  intros Hn Hc. unfold aget in Hc. replace (0 <=? n) with true in Hc by lia. replace (Z.to_nat (n + 1)) with (S (Z.to_nat n)) by lia. by apply take_S_r.
Qed.

Lemma popped_ok s : sinv s -> iowrt s = false -> ungetc_count s <> 0 ->
  exists c, aget (buffer s) (ungetc_count s - 1) = Some c /\ byte c /\ sinv (popped s) /\ hist (popped s) /\ iowrt (popped s) = false /\ keeps s (popped s) /\
    ioerr (popped s) = ioerr s /\ a_step Getc (view s) c [] (view (popped s)).
Proof.
  intros Hs Hw Hu. pose proof (i_read s Hs Hw) as R. pose proof (r_uc s R). pose proof (r_uc_size s R).
  assert (Hn : iobuf s <> BufNone) by (intros Hn; by destruct (i_none s Hs Hn) as (_ & ? & _)). destruct (i_buf s Hs Hn) as [Hl Hsz].
  destruct (aget_is_Some (buffer s) (ungetc_count s - 1)) as [c Hc]; [lia|]. exists c. set (m := popped s).
  assert (Ha : avail m = avail s).
  { unfold avail at 2. replace (ungetc_count s =? 0) with false by lia. subst m. unfold popped, avail. destruct (Z.eqb_spec (ungetc_count s - 1) 0) as [He|He]; cbn.
    - by rewrite He.
    - by replace (ungetc_count s - 1 =? 0) with false by lia. }
  assert (Hcol : buffer m = buffer s /\ ptr m = ptr s /\ ungetc_count m = ungetc_count s - 1 /\ hnd m = hnd s /\ ioread m = ioread s /\ bbuf m = bbuf s /\
    buf_size m = buf_size s /\ wcount m = wcount s /\ ioungetc m = ioungetc s /\ iowrt m = iowrt s /\ iorw m = iorw s /\ iobuf m = iobuf s /\ ioerr m = ioerr s /\
    ioopen m = ioopen s /\ char_buf m = char_buf s) by (subst m; unfold popped; by destruct (ungetc_count s - 1 =? 0)).
  destruct Hcol as (Q1 & Q2 & Q3 & Q4 & Q5 & Q6 & Q7 & Q8 & Q9 & Q10 & Q11 & Q12 & Q13 & Q14 & Q15).
  split_and!; try done.
  - eapply Forall_aget; [apply Hs|done].
  - split; rewrite ?Q1, ?Q7, ?Q10, ?Q11, ?Q12, ?Q14, ?Q15, ?Q5; [apply Hs|apply Hs|apply Hs|apply Hs|apply Hs|apply Hs|done|apply Hs|apply Hs| |by rewrite Hw].
    intros _. split; rewrite ?Ha, ?Q1, ?Q2, ?Q3, ?Q4, ?Q5, ?Q6, ?Q7, ?Q8, ?Q9; try apply R; try lia.
    + destruct (r_apart s R); lia.
    + intros _. by apply R.
    + intros Hr. by destruct (r_neutral s R Hr) as (_ & ? & _).
  - intros _ _ _ Hi. rewrite Q9, (r_flag s R Hu) in Hi. done.
  - by rewrite Q10.
  - split; [by rewrite Q11|by rewrite Q12|]. subst m. unfold popped. by destruct (ungetc_count s - 1 =? 0).
  - unfold a_step. rewrite !view_read by (done || by rewrite Q10). cbn [a_back a_data a_pos]. rewrite Ha, Q1, Q3, Q4.
    replace (ungetc_count s) with (ungetc_count s - 1 + 1) at 1 by lia. rewrite (take_snoc _ _ c) by (done || lia). by rewrite rev_app_distr.
Qed.

Section Fill.
Context (s : stream H) (Q : Z -> stream H -> Prop).
Context (Hs : sinv s) (Hh : hist s).
Context (HQ : forall r s', sinv s' -> hist s' -> iowrt s' = false -> keeps s s' -> ioerr s' = ioerr s -> a_step Getc (view s) r [] (view s') -> Q r s').
Context (HE : forall s', sinv s' -> hist s' -> keeps s s' -> ioerr s' = true -> (iowrt s = false -> view s' = view s /\ iowrt s' = false) -> Q EOF s').

Lemma wp_fill : rcount s <= 0 -> wp fill Q E (set_rcount (rcount s - 1) s).
Proof.
  intros Hrc. unfold fill. apply wp_bind, wp_mod. set (s0 := set_rcount _ _). assert (Hs0 : s0 = s) by (subst s0; destruct s; unfold set_rcount; cbn; f_equal; lia).
  clearbody s0. subst s0. apply wp_bind, wp_get. cbn beta. rewrite (i_open s Hs). cbn [negb]. apply wp_bind, wp_to_read; [done|done| |].
  - intros s' Hs' Hh' Hw' Hk He Hv Hid Hid2. cbn [negb]. apply wp_bind, wp_get. cbn beta.
    assert (Hrc' : rcount s' <= 0) by (destruct (iowrt s); [by rewrite Hid2|by rewrite Hid]).
    destruct (Z.eqb_spec (ungetc_count s') 0) as [Hu|Hu]; cbn [negb].
    + change (wp refill Q E s'). assert (Hr0 : rcount s' = 0).
      { pose proof (i_read s' Hs' Hw') as R. pose proof (r_avail s' R) as Ha. rewrite avail_0 in Ha by done. lia. }
      apply wp_refill; try done.
      * intros r s2 K1 K2 K3 K4 K5 K6. apply HQ; try done; [by eapply keeps_trans|congruence|by rewrite <-Hv].
      * intros s2 K1 K2 K3 K4 K5 K6. apply HE; try done; [by eapply keeps_trans|]. intros _. split; [congruence|done].
    + destruct (popped_ok s' Hs' Hw' Hu) as (c & Hc & Hby & K1 & K2 & K3 & K4 & K5 & K6). cbn zeta. rewrite Hc. apply wp_bind, wp_ret, wp_bind, wp_mod, wp_ret.
      apply (HQ c (popped s')); try done; [by eapply keeps_trans|congruence|by rewrite <-Hv].
  - intros s' Hs' Hh' Hk He Hws. apply wp_ret. apply HE; try done. intros Hws'. congruence.
Qed.
End Fill.

(** ** [getc] *)

Lemma wp_getc s (Q : Z -> stream H -> Prop) : sinv s -> hist s ->
  (forall r s', sinv s' -> hist s' -> iowrt s' = false -> keeps s s' -> ioerr s' = ioerr s -> a_step Getc (view s) r [] (view s') -> Q r s') ->
  (forall s', sinv s' -> hist s' -> keeps s s' -> ioerr s' = true -> (iowrt s = false -> view s' = view s /\ iowrt s' = false) -> Q EOF s') -> wp getc Q E s.
Proof.
  intros Hs Hh HQ HE. unfold getc. apply wp_bind, wp_mod, wp_bind, wp_get. cbn beta. change (rcount (set_rcount (rcount s - 1) s)) with (rcount s - 1).
  destruct (Z.geb_spec (rcount s - 1) 0) as [Hr|Hr]; [|apply wp_fill; try done; lia].
  destruct (read_mode s Hs) as (Hw & Hu & Hb & Ha & Hrd); [lia|]. destruct (took_ok 1 s Hs) as (Hi & Hh' & Hv & Hd & Hl); [lia..|].
  pose proof (i_read s Hs Hw) as R. apply wp_bind, wp_deref; [cbn; apply aget_is_Some; pose proof (r_ptr s R); lia|].
  intros c Hc. cbn in Hc. apply wp_bind, wp_mod, wp_ret.
  change (Q c (took 1 s)). apply HQ; try done; [by apply Hh'|]. rewrite Hv, view_read_0 by done. split; [done|]. cbn [a_back a_data a_pos].
  pose proof (r_ptr s R). pose proof (r_avail s R). rewrite (sub_S _ _ 1 c) in Hd by (done || lia). symmetry in Hd. apply aget_sub_0 in Hd; [|lia]. by rewrite Hd.
Qed.

(** ** [fread] *)

Lemma view_bytes s : sinv s -> Forall byte (a_data (view s)) /\ Forall byte (a_back (view s)).
Proof.
  intros Hs. unfold view. destruct (iowrt s && bbuf s); cbn; split; try apply content_bytes; [|constructor|].
  - apply Forall_overwrite; [apply content_bytes|apply Forall_take, Hs].
  - apply Forall_rev, Forall_take, Hs.
Qed.

Lemma bytes_view s : sinv s -> Forall byte (a_bytes (view s)).
Proof. intros Hs. destruct (view_bytes s Hs). unfold a_bytes. apply Forall_app. split; [done|by apply Forall_drop]. Qed.

(** [d] is the next [left] bytes of [s] or all of them, [s'] is behind them. *)
Record reads (s : stream H) (left : Z) (d : list Z) (s' : stream H) : Prop := {
  d_inv : sinv s';
  d_hist : hist s';
  d_mode : iowrt s' = false;
  d_keeps : keeps s s';
  d_err : ioerr s' = ioerr s;
  d_bytes_ok : d = take (Z.to_nat left) (a_bytes (view s));
  d_view : view s' = a_advance (length d) (view s)
}.

Lemma reads_bytes s left d s' : sinv s -> reads s left d s' -> a_bytes (view s') = drop (length d) (a_bytes (view s)).
Proof. intros Hs Hd. rewrite (d_view _ _ _ _ Hd). apply bytes_advance. destruct (view_bounds s Hs). lia. Qed.

Lemma reads_nil s s' left : sinv s -> sinv s' -> hist s' -> iowrt s' = false -> keeps s s' -> ioerr s' = ioerr s -> view s' = view s -> left = 0 \/ a_bytes (view s) = [] ->
  reads s left [] s'.
Proof. intros ? ? ? ? ? ? Hv Hl. split; try done; [|by rewrite advance_0]. destruct Hl as [->|Hl]; [done|]. by rewrite Hl, take_nil. Qed.

(** Some bytes, then the rest of them. *)
Lemma reads_app s s1 s2 left n d1 d2 : sinv s -> alen d1 = n -> 0 <= n <= left -> reads s n d1 s1 -> reads s1 (left - n) d2 s2 -> reads s left (d1 ++ d2) s2.
Proof.
  intros Hs Hl Hn R1 R2. pose proof (reads_bytes s n d1 s1 Hs R1) as Hb. destruct R1 as [K1 K2 K3 K4 K5 K6 K7], R2 as [L1 L2 L3 L4 L5 L6 L7]. split; try done.
  - by eapply keeps_trans.
  - congruence.
  - rewrite L6, Hb, K6. unfold alen in Hl. replace (length (take (Z.to_nat n) _)) with (Z.to_nat n) by (rewrite <-K6; lia).
    rewrite take_take_drop. f_equal. lia.
  - by rewrite L7, K7, advance_add, length_app.
Qed.

Lemma wp_take_buffer left s (Q : list Z -> stream H -> Prop) : sinv s -> hist s -> 0 < rcount s -> 0 < left ->
  (forall d s', 0 < alen d <= left -> alen d = Z.min (rcount s) left -> reads s (alen d) d s' -> Q d s') -> wp (take_buffer left) Q E s.
Proof.
  intros Hs Hh Hr Hleft HQ. destruct (read_mode s Hs Hr) as (Hw & Hu & Hb & Ha & Hrd). pose proof (i_read s Hs Hw) as R.
  unfold take_buffer. apply wp_bind, wp_get. cbn beta zeta. set (n := Z.min _ _). destruct (took_ok n s Hs Hr) as (Hi & Hh' & Hv & Hd & Hl); [lia|].
  apply wp_bind, wp_slice; [apply (r_ptr s R)|lia|]. rewrite Hd. apply wp_bind, wp_mod, wp_bind, wp_mod, wp_ret.
  pose proof (r_ptr s R). pose proof (r_avail s R). assert (Hlen : alen (sub (content (hnd s)) (fpos (hnd s) - avail s) n) = n) by (rewrite <-Hd; apply alen_sub; lia).
  apply HQ; [lia|done|]. rewrite Hlen. assert (Hid : set_rcount (rcount s - n) (set_ptr (ptr s + n) s) = took n s) by done. rewrite Hid.
  split; try done; [by apply Hh'|..].
  - by rewrite view_read_0.
  - rewrite Hv, view_read_0 by done. unfold a_advance. cbn. unfold alen in Hlen. rewrite Hlen, drop_nil. f_equal. rewrite take_nil. cbn. lia.
Qed.

(** Another handle behind an empty buffer. *)
Lemma idle_handle s h e : sinv s -> iowrt s = false -> rcount s = 0 -> ungetc_count s = 0 -> iorw s = true \/ bbuf s = false \/ content h = content (hnd s) /\ fpos h = fpos (hnd s) ->
  (iorw s = true \/ bbuf s = false \/ hist s) -> let m := set_ioerr e (set_hnd h s) in sinv m /\ hist m /\ iowrt m = false /\ keeps s m /\ view m = mk_a (content h) (fpos h) [].
Proof.
  intros Hs Hw Hr Hu Hsafe Hh m. pose proof (i_read s Hs Hw) as R. assert (Ha : avail s = 0) by by rewrite avail_0. assert (Ham : avail m = 0) by (rewrite (avail_0 m) by done; exact Hr).
  pose proof (fpos_range h). split_and!; [| |done|done|].
  - destruct Hs as [? ? ? ? ? ? ? ? ? Hrd Hwr]. split; try done.
    + intros _. pose proof (r_fits s R) as Hf. rewrite Ha in Hf. destruct R. by split; rewrite ?Ham; cbn; try lia.
    + intros Hwm. change (iowrt s = true) in Hwm. congruence.
  - intros K1 K2 K3 K4. change (iorw s = false) in K1. change (bbuf s = true) in K3. destruct Hsafe as [?|[?|[Hc Hp]]]; [congruence|congruence|].
    destruct Hh as [?|[?|Hh]]; [congruence|congruence|]. destruct (Hh K1 K2 K3 K4) as [Hl Hsub]. rewrite Ham. cbn. rewrite Hc, Hp. rewrite Ha in *. done.
  - by rewrite view_read_0, Ham, Z.sub_0_r.
Qed.

(** The file is read into the caller's memory. *)
Definition direct (n : Z) (acc : list Z) (k : Z -> list Z -> SM (list Z)) : SM (list Z) :=
  x ← call (stream_read n);
  let '(r, d) := x : Z * list Z in
  if r <? 0 then _ ← mmod (set_ioerr true); mret acc
  else if r =? 0 then _ ← mmod (set_ptr 0); _ ← at_eof; mret acc
  else k r d.

Lemma wp_direct n acc k s (Q : list Z -> stream H -> Prop) : sinv s -> hist s -> iowrt s = false -> rcount s = 0 -> ungetc_count s = 0 -> iorw s = true \/ bbuf s = false -> 0 < n ->
  (forall s', a_bytes (view s) = [] -> reads s n [] s' -> Q acc s') ->
  (forall s', sinv s' -> hist s' -> keeps s s' -> ioerr s' = true -> Q acc s') ->
  (forall d s', 0 < alen d <= n -> reads s (alen d) d s' -> wp (k (alen d) d) Q E s') -> wp (direct n acc k) Q E s.
Proof.
  intros Hs Hh Hw Hr Hu Hsafe Hn HQ HE HK. assert (Hv : view s = mk_a (content (hnd s)) (fpos (hnd s)) []) by by rewrite view_read_0, avail_0, Hr, Z.sub_0_r.
  assert (Hsafe' : forall (P : Prop), iorw s = true \/ bbuf s = false \/ P) by (intros; tauto).
  unfold direct. apply wp_bind, wp_call. intros [r d] h Hrd. apply read_law in Hrd as [Hc [(Hneg & -> & Hp)|(Hge & Hd & Hl & Hp & Hend)]]; [| |lia].
  - replace (r <? 0) with true by lia. apply wp_bind, wp_mod, wp_ret. destruct (idle_handle s h true Hs Hw Hr Hu (Hsafe' _) (Hsafe' _)) as (? & ? & ? & ? & ?). by apply HE.
  - replace (r <? 0) with false by lia. destruct (idle_handle s h (ioerr s) Hs Hw Hr Hu (Hsafe' _) (Hsafe' _)) as (Hi & Hhi & Hwi & Hki & Hvi).
    assert (Hid : set_ioerr (ioerr s) (set_hnd h s) = set_hnd h s) by by destruct s. rewrite Hid in *. destruct (Z.eqb_spec r 0) as [->|Hnz].
    + assert (Hnil : d = []) by (destruct d; [done|unfold alen in Hl; cbn in Hl; lia]). subst d. unfold at_eof. apply wp_bind, wp_mod, wp_bind, wp_mod, wp_ret.
      assert (He : empty (set_ptr 0 (set_hnd h s))) by (split; try done; by apply (i_read s Hs Hw)).
      assert (Hi0 : sinv (set_ptr 0 (set_hnd h s))) by (apply empty_inv; try done; try apply Hs; congruence).
      destruct (ended_ok _ Hi0 He Hw) as (L1 & L2 & L3 & L4 & L5 & L6).
      assert (Hend' : a_bytes (view s) = []).
      { rewrite Hv. unfold a_bytes. cbn. apply drop_ge. specialize (Hend eq_refl). unfold alen in Hend. lia. }
      apply HQ; [done|]. apply reads_nil; try done; [by destruct L5; split| |by right]. change (view (ended (set_ptr 0 (set_hnd h s))) = view s).
      rewrite L3, empty_view, Hv by done. cbn. f_equal; [done|lia].
    + rewrite <-Hl. apply HK; [lia|]. split; try done.
      * rewrite Hl, Hv. exact Hd.
      * rewrite Hvi, Hv. unfold a_advance. cbn. rewrite Hc, Hp, take_nil, drop_nil. cbn. unfold alen in Hl. f_equal. lia.
Qed.

Lemma byte_not_eof c : byte c -> (c =? EOF) = false.
Proof. unfold byte, EOF. lia. Qed.

Lemma getc_reads s c s' : sinv s -> sinv s' -> hist s' -> iowrt s' = false -> keeps s s' -> ioerr s' = ioerr s -> a_step Getc (view s) c [] (view s') ->
  (c =? EOF) = false /\ reads s 1 [c] s' \/ c = EOF /\ a_bytes (view s) = [] /\ forall n, reads s n [] s'.
Proof.
  intros Hs Hs' Hh' Hw' Hk He Hg. destruct (view_bounds s Hs) as [Hp _]. apply getc_bytes in Hg as [(k & Hk1 & Hk2)|(-> & Hnil & Hv)]; [| |lia].
  - left. split.
    + pose proof (bytes_view s Hs) as Hb. rewrite Hk1 in Hb. apply Forall_cons in Hb as [Hb _]. by apply byte_not_eof.
    + split; try done. by rewrite Hk1.
  - right. split_and!; [done|done|]. intros n. apply reads_nil; try done. by right.
Qed.

Lemma wp_fill_one s acc (k : Z -> SM (list Z)) (Q : list Z -> stream H -> Prop) : sinv s -> hist s -> iowrt s = false -> rcount s <= 0 ->
  (forall s', a_bytes (view s) = [] -> (forall n, reads s n [] s') -> Q acc s') ->
  (forall s', sinv s' -> hist s' -> keeps s s' -> ioerr s' = true -> Q acc s') ->
  (forall c s', reads s 1 [c] s' -> wp (k c) Q E s') -> wp (c ← fill_one; if c =? EOF then mret acc else k c) Q E s.
Proof.
  intros Hs Hh Hw Hr HQ HE HK. apply wp_bind. unfold fill_one. apply wp_bind, wp_mod, wp_fill; try done.
  - intros c s' K1 K2 K3 K4 K5 K6. destruct (getc_reads s c s') as [[Hc Hd]|(-> & Hb & Hd)]; try done.
    + rewrite Hc. by apply HK.
    + apply wp_ret. by apply HQ.
  - intros s' K1 K2 K3 K4 _. apply wp_ret. by apply HE.
Qed.

Lemma no_rcount s : sinv s -> iowrt s = false -> rcount s <= 0 -> ungetc_count s = 0 -> rcount s = 0.
Proof. intros Hs Hw Hr Hu. pose proof (r_avail s (i_read s Hs Hw)) as Ha. rewrite avail_0 in Ha by done. lia. Qed.

Section Loops.
Context (s0 : stream H) (total : Z) (Q : list Z -> stream H -> Prop) (Hs0 : sinv s0).
Context (HQ : forall d s', reads s0 total d s' -> Q d s') (HE : forall d s', sinv s' -> hist s' -> keeps s0 s' -> ioerr s' = true -> Q d s').

(** How far a loop has got. *)
Definition read_so_far (left : Z) (acc : list Z) (s : stream H) : Prop :=
  0 <= left <= total /\ alen acc = total - left /\ reads s0 (total - left) acc s.

Lemma so_far_more left acc s d s' : 0 <= alen d <= left -> read_so_far left acc s -> reads s (alen d) d s' -> read_so_far (left - alen d) (acc ++ d) s'.
Proof.
  intros Hd (Hl & Ha & Hr) Hr'. split_and!; [lia|lia|rewrite alen_app; lia|]. eapply (reads_app s0 s s' _ (total - left) acc d); try done; [lia|].
  by replace (total - (left - alen d) - (total - left)) with (alen d) by lia.
Qed.

Lemma so_far_one left acc s c s' : 1 <= left -> read_so_far left acc s -> reads s 1 [c] s' -> read_so_far (left - 1) (acc ++ [c]) s'.
Proof. intros Hl Ha Hr. apply (so_far_more left acc s [c] s'); [by change (alen [c]) with 1; lia|done|done]. Qed.

Lemma so_far_end left n acc s s' : read_so_far left acc s -> a_bytes (view s) = [] -> reads s n [] s' -> Q acc s'.
Proof.
  intros (Hl & Ha & Hr) Hnil Hr'. apply HQ. rewrite <-(app_nil_r acc). eapply (reads_app s0 s s' _ (total - left)); try done; [lia|].
  destruct Hr' as [? ? ? ? ? ? Hv]. rewrite advance_0 in Hv. apply reads_nil; try done; [by destruct Hr|by right].
Qed.
Lemma so_far_fail left acc s s' : read_so_far left acc s -> sinv s' -> hist s' -> keeps s s' -> ioerr s' = true -> Q acc s'.
Proof. intros (_ & _ & Hr) ? ? ? ?. apply HE; try done. by eapply keeps_trans; [apply Hr|]. Qed.

Lemma fread_buffered_S fuel left acc : fread_buffered (S fuel) left acc =
  if left =? 0 then mret acc
  else
    s ← mget;
    if rcount s >? 0 then d ← take_buffer left; fread_buffered fuel (left - alen d) (acc ++ d)
    else if (left >? BUFSIZ) && (ungetc_count s =? 0) then direct (left / BUFSIZ * BUFSIZ) acc (fun r d => fread_buffered fuel (left - r) (acc ++ d))
    else c ← fill_one; if c =? EOF then mret acc else fread_buffered fuel (left - 1) (acc ++ [c]).
Proof. reflexivity. Qed.

Lemma wp_fread_buffered : total <= BUFSIZ \/ iorw s0 = true ->
  forall fuel left acc s, left < Z.of_nat fuel -> read_so_far left acc s -> wp (fread_buffered fuel left acc) Q E s.
Proof.
  intros Hsafe. induction fuel as [|fuel IH]; intros left acc s Hf Hso; pose proof Hso as (Hl & Ha & Hr); [lia|].
  rewrite fread_buffered_S. destruct (Z.eqb_spec left 0) as [->|Hne].
  { apply wp_ret, HQ. by rewrite Z.sub_0_r in Hr. }
  pose proof (d_inv _ _ _ _ Hr) as Hs. pose proof (d_hist _ _ _ _ Hr) as Hh. pose proof (d_mode _ _ _ _ Hr) as Hw. apply wp_bind, wp_get. cbn beta.
  destruct (Z.gtb_spec (rcount s) 0) as [Hrc|Hrc].
  - apply wp_bind, wp_take_buffer; try done; [lia|]. intros d s' Hd _ Hr'. apply IH; [lia|]. eapply so_far_more; try done; lia.
  - destruct ((left >? BUFSIZ) && (ungetc_count s =? 0)) eqn:Hc.
    + breflect. assert (Hrw : iorw s = true) by (rewrite (k_rw _ _ (d_keeps _ _ _ _ Hr)); destruct Hsafe; [lia|done]).
      assert (Hn : 0 < left / BUFSIZ * BUFSIZ <= left) by (pose proof (Z.div_mod left BUFSIZ ltac:(done)); pose proof (Z.mod_pos_bound left BUFSIZ ltac:(done)); unfold BUFSIZ in *; lia).
      apply wp_direct; try done; [by apply no_rcount|by left|lia|..].
      * intros s' Hnil Hr'. by eapply so_far_end.
      * intros s' K1 K2 K3 K4. by eapply so_far_fail.
      * intros d s' Hd Hr'. apply IH; [lia|]. eapply so_far_more; try done; lia.
    + apply wp_fill_one; try done.
      * intros s' Hnil Hr'. by apply (so_far_end left 0 acc s).
      * intros s' K1 K2 K3 K4. by eapply so_far_fail.
      * intros c s' Hr'. apply IH; [lia|]. eapply so_far_one; try done; lia.
Qed.

Lemma fread_unbuffered_S fuel left acc : fread_unbuffered (S fuel) left acc =
  if left =? 0 then mret acc
  else
    s ← mget;
    if negb (ungetc_count s =? 0) then c ← fill_one; if c =? EOF then mret acc else fread_unbuffered fuel (left - 1) (acc ++ [c])
    else direct left acc (fun r d => fread_unbuffered fuel (left - r) (acc ++ d)).
Proof. reflexivity. Qed.

Lemma wp_fread_unbuffered : iobuf s0 <> BufNone -> bbuf s0 = false -> forall fuel left acc s, left < Z.of_nat fuel -> read_so_far left acc s -> wp (fread_unbuffered fuel left acc) Q E s.
Proof.
  intros Hnn Hb0. induction fuel as [|fuel IH]; intros left acc s Hf Hso; pose proof Hso as (Hl & Ha & Hr); [lia|].
  rewrite fread_unbuffered_S. destruct (Z.eqb_spec left 0) as [->|Hne].
  { apply wp_ret, HQ. by rewrite Z.sub_0_r in Hr. }
  pose proof (d_inv _ _ _ _ Hr) as Hs. pose proof (d_hist _ _ _ _ Hr) as Hh. pose proof (d_mode _ _ _ _ Hr) as Hw.
  assert (Hb : bbuf s = false) by (unfold bbuf in *; by rewrite (k_buf _ _ (d_keeps _ _ _ _ Hr) Hnn)).
  assert (Hrc : rcount s <= 0) by (destruct (Z.lt_ge_cases 0 (rcount s)) as [Hp|]; [by destruct (read_mode s Hs Hp) as (_ & _ & ? & _); congruence|done]).
  apply wp_bind, wp_get. cbn beta. destruct (Z.eqb_spec (ungetc_count s) 0) as [Hu|Hu]; cbn [negb].
  - apply wp_direct; try done; [by apply no_rcount|by right|lia|..].
    + intros s' Hnil Hr'. by eapply so_far_end.
    + intros s' K1 K2 K3 K4. by eapply so_far_fail.
    + intros d s' Hd Hr'. apply IH; [lia|]. eapply so_far_more; try done; lia.
  - apply wp_fill_one; try done.
    + intros s' Hnil Hr'. by apply (so_far_end left 0 acc s).
    + intros s' K1 K2 K3 K4. by eapply so_far_fail.
    + intros c s' Hr'. apply IH; [lia|]. eapply so_far_one; try done; lia.
Qed.
End Loops.

(** The check for overflow is exact. *)
Lemma product_fits size count : 0 < size < 2 ^ 32 -> 0 < count < 2 ^ 32 ->
  (u32 (size * count) / count =? size) = (size * count <? 2 ^ 32) /\ (size * count < 2 ^ 32 -> u32 (size * count) = size * count).
Proof.
  intros Hs Hc. assert (Hsmall : size * count < 2 ^ 32 -> u32 (size * count) = size * count) by (intros; apply Z.mod_small; nia). split; [|done].
  destruct (Z.ltb_spec (size * count) (2 ^ 32)) as [Hl|Hl].
  - rewrite Hsmall by done. rewrite Z.div_mul by lia. apply Z.eqb_refl.
  - apply Z.eqb_neq. intros Heq. pose proof (Z.mod_pos_bound (size * count) (2 ^ 32) ltac:(lia)). change (size * count mod 2 ^ 32) with (u32 (size * count)) in *.
    pose proof (Z.mul_div_le (u32 (size * count)) count ltac:(lia)). nia.
Qed.

Lemma set_ioread_ok s : sinv s -> hist s -> iowrt s = false -> let m := set_ioread true s in sinv m /\ hist m /\ view m = view s.
Proof.
  intros Hs Hh Hw m. pose proof (i_read s Hs Hw) as R. split_and!; [| |done].
  - destruct Hs as [? ? ? ? ? ? ? ? ? Hr Hwr]. split; try done; [by left|..].
    + intros _. destruct R. by split.
    + intros Hwm. change (iowrt s = true) in Hwm. congruence.
  - intros K1 _ K3 K4. destruct (ioread s) eqn:Hrd; [by apply Hh|]. destruct (r_neutral s R Hrd) as (Hrc & Hu & Hp).
    apply (empty_hist m); try done. split; [done|done|apply (r_wcount s R)|done].
Qed.

Lemma wp_fread_total s size count (Q : Z * list Z -> stream H -> Prop) : sinv s -> hist s -> iowrt s = false \/ iorw s = false ->
  0 < size < 2 ^ 32 -> 0 < count < 2 ^ 32 -> size * count < 2 ^ 32 -> size * count <= BUFSIZ \/ iorw s = true ->
  (forall d s', sinv s' -> hist s' -> keeps s s' -> ioerr s' = ioerr s -> d = take (Z.to_nat (size * count)) (a_bytes (view s)) ->
     view s' = a_advance (length d) (view s) -> Q (alen d / size, d) s') ->
  (forall r s', sinv s' -> hist s' -> keeps s s' -> ioerr s' = true -> Q r s') -> wp (fread_unlocked size count) Q E s.
Proof.
  intros Hs Hh Hmode Hsz Hct Hfit Hsafe HQ HE. destruct (product_fits size count Hsz Hct) as [Hov Hu]. unfold fread_unlocked.
  replace (size =? 0) with false by lia. replace (count =? 0) with false by lia. cbn [orb]. cbv zeta. rewrite Hov. replace (size * count <? 2 ^ 32) with true by lia. cbn [negb]. rewrite Hu by done.
  assert (Hpos : 0 < size * count) by nia. set (total := size * count) in *. clearbody total.
  apply wp_bind, wp_get. cbn beta. destruct (negb (ioread s) && negb (iorw s) && iowrt s) eqn:Href.
  { apply wp_bind, wp_mod, wp_ret. apply HE; try done. destruct Hs as [? ? ? ? ? ? ? ? ? Hr Hwr]. split; try done; [intros Hx; by destruct (Hr Hx)|intros Hx; by destruct (Hwr Hx)]. }
  assert (Hw : iowrt s = false) by (destruct (iowrt s) eqn:Hw; [|done]; destruct Hmode as [?|Hrw]; [done|]; rewrite Hrw in Href; destruct (ioread s) eqn:Hr; [by rewrite (i_one s Hs Hr) in Hw|done]).
  apply wp_bind, wp_need_buf; [done|done|]. intros s1 Hs1 Hh1 Hn1 Hk1 Hr1 Hw1 He1 Hv1 _ _. apply wp_bind, wp_mod. cbn beta.
  destruct (set_ioread_ok s1 Hs1 Hh1) as (Hi & Hhi & Hvi); [congruence|]. set (s2 := set_ioread true s1) in *.
  assert (Hw2 : iowrt s2 = false) by (change (iowrt s1 = false); congruence).
  assert (HQ' : forall d s', reads s2 total d s' -> Q (alen d / size, d) s').
  { intros d s' [K1 K2 K3 K4 K5 K6 K7]. rewrite Hvi, Hv1 in *. apply HQ; try done; [eapply keeps_trans; [exact Hk1|]; destruct K4; by split|]. rewrite K5. exact He1. }
  assert (HE' : forall d s', sinv s' -> hist s' -> keeps s2 s' -> ioerr s' = true -> Q (alen d / size, d) s').
  { intros d s' K1 K2 K3 K4. apply HE; try done. eapply keeps_trans; [exact Hk1|]. destruct K3. by split. }
  assert (Hstart : read_so_far s2 total total [] s2) by (split_and!; [lia|lia|unfold alen; cbn; lia|]; rewrite Z.sub_diag; apply reads_nil; try done; by left).
  apply wp_bind, wp_get. cbn beta. apply wp_bind. destruct (bbuf s2) eqn:Hb.
  - apply (wp_fread_buffered s2 total); [done| | |destruct Hsafe as [?|Hrw]; [by left|right]|lia|done].
    + intros d s' Hr. by apply wp_ret, HQ'.
    + intros d s' K1 K2 K3 K4. by apply wp_ret, HE'.
    + rewrite <-Hrw. apply Hk1.
  - apply wp_bind. destruct (Z.gtb_spec (rcount s2) 0) as [Hp|_]; [by destruct (read_mode s2 Hi Hp) as (_ & _ & ? & _); congruence|]. apply wp_ret.
    change (alen []) with 0. rewrite Z.sub_0_r. apply (wp_fread_unbuffered s2 total); [done| | |done|done|lia|done].
    + intros d s' Hr. by apply wp_ret, HQ'.
    + intros d s' K1 K2 K3 K4. by apply wp_ret, HE'.
Qed.

Lemma wp_fread s size count (Q : Z * list Z -> stream H -> Prop) : sinv s -> hist s -> iowrt s = false \/ iorw s = false ->
  0 <= size < 2 ^ 32 -> 0 <= count < 2 ^ 32 -> size * count <= BUFSIZ \/ iorw s = true ->
  (forall r d s', sinv s' -> hist s' -> keeps s s' -> ioerr s' = ioerr s -> a_step (Fread size count) (view s) r d (view s') -> Q (r, d) s') ->
  (forall r s', sinv s' -> hist s' -> keeps s s' -> ioerr s' = true -> Q r s') -> wp (fread_unlocked size count) Q E s.
Proof.
  intros Hs Hh Hmode Hsz Hct Hsafe HQ HE.
  assert (Hnone : forall s', sinv s' -> hist s' -> keeps s s' -> ioerr s' = ioerr s -> view s' = view s -> size * count = 0 \/ 2 ^ 32 <= size * count -> Q (0, []) s').
  { intros s' K1 K2 K3 K4 K5 Hz. apply HQ; try done. unfold a_step.
    assert (Hn : (if size * count <? 2 ^ 32 then size * count else 0) = 0) by (destruct (Z.ltb_spec (size * count) (2 ^ 32)); lia).
    cbv zeta. rewrite Hn, K5, advance_0. done. }
  destruct (decide (size * count = 0)) as [Hz|Hnz].
  { unfold fread_unlocked. replace ((size =? 0) || (count =? 0)) with true by nia. apply wp_ret, Hnone; try done. by left. }
  assert (Hs0 : 0 < size) by nia. assert (Hc0 : 0 < count) by nia. destruct (Z.lt_ge_cases (size * count) (2 ^ 32)) as [Hfit|Hbig].
  - apply wp_fread_total; try done; [lia|lia|]. intros d s' K1 K2 K3 K4 K5 K6. apply HQ; try done. unfold a_step.
    replace (size * count <? 2 ^ 32) with true by lia. cbv zeta. replace (size * count =? 0) with false by lia. done.
  - destruct (product_fits size count) as [Hov _]; [lia..|]. unfold fread_unlocked.
    replace (size =? 0) with false by lia. replace (count =? 0) with false by lia. cbn [orb]. cbv zeta. rewrite Hov. replace (size * count <? 2 ^ 32) with false by lia. cbn [negb].
    apply wp_bind, wp_mod, wp_ret. apply Hnone; try done; [|by right].
    destruct Hs as [? ? ? ? ? ? ? ? ? Hr Hwr]. split; try done; [intros Hx; by destruct (Hr Hx)|intros Hx; by destruct (Hwr Hx)].
Qed.
End Reading.
