(* ===== verification/StdioWrite.v ===== *)
(** Writing to a stream and pushing back: [_flush], [putc], [fwrite] and
    [ungetc] keep the invariant and do what the abstract stream does. *)

From S2P Require Import Prelude Stdio StdioSpec StdioSeek StdioRead.

Section Writing.
Context {H : Type} `{HD : DiskFile H} (E : Z -> stream H -> Prop).
Implicit Types (s : stream H).

(** ** Write mode *)

(** A stream in write mode with these members. *)
Definition wst (p : Z) (bu : list Z) (wc : Z) (h : H) (e : bool) (s : stream H) : stream H :=
  mk_stream p bu (rcount s) wc (buf_size s) (ungetc_count s) (char_buf s) (ioread s) (iowrt s) (iorw s) (ioeof s) e (iolbf s) (ionbf s) (ioopen s)
    (ioungetc s) (iobuf s) h (errno s).

Lemma wst_ok p bu wc h e s : sinv s -> iowrt s = true -> iobuf s <> BufNone -> Forall byte bu -> alen bu = buf_size s -> 0 <= p -> 0 <= wc ->
  (bbuf s = true -> p + wc <= buf_size s) -> (bbuf s = false -> wc = 0) -> sinv (wst p bu wc h e s) /\ hist (wst p bu wc h e s) /\ keeps s (wst p bu wc h e s).
Proof.
  intros Hs Hw Hn Hb Hl Hp Hwc Hf Hsm. assert (Hr : ioread s = false) by (destruct (ioread s) eqn:Hr; [by rewrite (i_one s Hs Hr) in Hw|done]).
  pose proof (i_write s Hs Hw) as W. split_and!; [| |done].
  - destruct (i_buf s Hs Hn). split; try apply Hs; try done.
    + intros Hwf. change (iowrt s = false) in Hwf. congruence.
    + intros _. destruct W. by split.
  - intros _ Hx. change (ioread s = true) in Hx. congruence.
Qed.

Lemma wst_view p bu wc h e s : sinv s -> iowrt s = true ->
  view (wst p bu wc h e s) = if bbuf s then mk_a (overwrite (content h) (fpos h) (take (Z.to_nat p) bu)) (fpos h + p) [] else mk_a (content h) (fpos h) [].
Proof.
  intros Hs Hw. pose proof (i_write s Hs Hw) as W. unfold view, avail. change (bbuf (wst p bu wc h e s)) with (bbuf s). cbn.
  rewrite Hw, (w_uc s W), (w_rcount s W). cbn. destruct (bbuf s); [done|]. f_equal. lia.
Qed.

Lemma write_view s : sinv s -> iowrt s = true ->
  view s = if bbuf s then mk_a (overwrite (content (hnd s)) (fpos (hnd s)) (take (Z.to_nat (ptr s)) (buffer s))) (fpos (hnd s) + ptr s) [] else mk_a (content (hnd s)) (fpos (hnd s)) [].
Proof. intros Hs Hw. rewrite <-(wst_view (ptr s) (buffer s) (wcount s) (hnd s) (ioerr s) s) by done. by destruct s. Qed.

(** A stream that is not in read mode enters write mode. *)
Lemma write_mode s : sinv s -> ioread s = false -> let m := set_iowrt true s in sinv m /\ hist m /\ view m = view s /\ rcount s = 0.
Proof.
  intros Hs Hr m. destruct (iowrt s) eqn:Hw.
  - assert (Hm : m = s) by (subst m; rewrite <-Hw; by destruct s). rewrite Hm. split_and!; [done| |done|apply (i_write s Hs Hw)]. intros _ Hx. congruence.
  - pose proof (i_read s Hs Hw) as R. destruct (r_neutral s R Hr) as (Hrc & Hu & Hp). pose proof (r_wcount s R) as Hwc.
    assert (He : empty m) by (by split). split_and!; [|by apply empty_hist| |done].
    + destruct (i_size s Hs). apply empty_inv; try done; try apply Hs; [|by right]. intros Hx. change (ioread s = true) in Hx. congruence.
    + rewrite (empty_view m) by done. symmetry. change (hnd m) with (hnd s). apply view_plain; [done|done|by left].
Qed.

Lemma no_back s : sinv s -> ioread s = false -> a_back (view s) = [] /\ a_cur (view s) = a_pos (view s).
Proof.
  intros Hs Hr. assert (Hb : a_back (view s) = []).
  { destruct (iowrt s) eqn:Hw; [rewrite write_view by done; by destruct (bbuf s)|]. rewrite view_read by done. destruct (r_neutral s (i_read s Hs Hw) Hr) as (_ & -> & _). done. }
  split; [done|]. unfold a_cur, a_tell. rewrite Hb. change (alen []) with 0. destruct (view_bounds s Hs). rewrite Z.sub_0_r. by replace (_ =? -1) with false by lia.
Qed.

Lemma wp_to_write s (Q : bool -> stream H -> Prop) : sinv s -> hist s ->
  (forall s', sinv s' -> hist s' -> ioread s' = false -> keeps s s' -> ioerr s' = ioerr s -> 0 <= a_cur (view s) ->
     view s' = mk_a (a_data (view s)) (a_cur (view s)) [] -> Q true s') ->
  (forall s', sinv s' -> hist s' -> keeps s s' -> ioerr s' = ioerr s -> a_cur (view s) < 0 -> view s' = mk_a (a_data (view s)) (a_pos (view s)) [] -> Q false s') ->
  (forall s', sinv s' -> hist s' -> keeps s s' -> ioerr s' = true -> Q false s') -> wp to_write Q E s.
Proof.
  intros Hs Hh HQ HN HE. unfold to_write. apply wp_bind, wp_get. cbn beta. destruct (ioread s) eqn:Hr.
  - destruct (iorw s) eqn:Hrw.
    + apply wp_bind, wp_leave; [done|done|intros h' Hcur Hc Hp|intros h' Hcur Hc Hp|intros h'].
      * change (negb (0 =? 0)) with false. cbv iota. apply wp_bind, wp_get. cbn beta. cbn [ioread seeked]. rewrite Hrw, andb_false_r. apply wp_ret.
        apply HQ; try done; [by apply seeked_inv|by apply empty_hist|cbn; by rewrite Hrw, andb_false_r|]. rewrite seeked_view. congruence.
      * apply wp_ret. apply HN; try done; [by apply seeked_inv|by apply empty_hist|]. rewrite seeked_view. congruence.
      * apply wp_ret. apply HE; try done; [by apply seeked_inv|by apply empty_hist].
    + apply wp_bind, wp_ret. change (negb (0 =? 0)) with false. cbv iota. apply wp_bind, wp_get. cbn beta. rewrite Hr. apply wp_bind, wp_mod, wp_ret. apply HE; try done.
      destruct Hs as [? ? ? ? ? ? ? ? ? Hrd Hwr]. split; try done; [intros Hx; by destruct (Hrd Hx)|intros Hx; by destruct (Hwr Hx)].
  - apply wp_ret. destruct (no_back s Hs Hr) as [Hb Hc]. destruct (view_bounds s Hs). apply HQ; try done; [lia|]. rewrite Hc. destruct (view s). cbn in *. congruence.
Qed.

(** ** [_flushstream] *)

(** [d] has been written. *)
Record wrote (s : stream H) (d : list Z) (s' : stream H) : Prop := {
  o_inv : sinv s';
  o_hist : hist s';
  o_mode : ioread s' = false;
  o_keeps : keeps s s';
  o_err : ioerr s' = ioerr s;
  o_view : view s' = mk_a (overwrite (a_data (view s)) (a_pos (view s)) d) (a_pos (view s) + alen d) []
}.

Lemma wp_writes d s (Q : Z -> stream H -> Prop) : d <> [] -> Forall byte d ->
  (forall h, content h = overwrite (content (hnd s)) (fpos (hnd s)) d -> fpos h = fpos (hnd s) + alen d -> Q (alen d) (set_hnd h s)) ->
  (forall w h, w <= 0 -> content h = content (hnd s) -> fpos h = fpos (hnd s) -> Q w (set_hnd h s)) -> wp (call (stream_write d)) Q E s.
Proof. intros Hd Hb HQ HE. apply wp_call. intros w h Hw. apply write_law in Hw as [(-> & ? & ?)|(? & ? & ?)]; [by apply HQ|by apply HE|done|done]. Qed.

(** Writes what the buffer has and [c] if it fits: the number of bytes, the
    byte that is left and the result. *)
Definition flush_old (c : Z) : SM (Z * Z * Z) :=
  s ← mget;
  let n := ptr s in
  if n >? 0 then
    nc ← (if n <? buf_size s then _ ← put n (uchar c); mret (n + 1, -1) else mret (n, c));
    let '(n, c) := nc : Z * Z in
    d ← slice 0 n; w ← call (stream_write d); mret (n, c, w)
  else
    _ ← mwhen (append s) (_ ← call (lseek 0 SEEK_END); mret ()); mret (n, c, 0).

(** The rest: the byte that is left. *)
Definition flush_new (n c w : Z) : SM (Z * Z) :=
  _ ← mmod (fun s => set_ptr 0 (set_wcount (buf_size s) s));
  s ← mget;
  n ← (if (c =? NL) && iolbf s then
         w1 ← call (stream_write [uchar c]); mret (if w1 =? 1 then n else n + 1)
       else if c >=? 0 then
         _ ← put 0 (uchar c); _ ← mmod (fun s => set_ptr 1 (set_wcount (wcount s - 1) s)); mret n
       else mret n);
  mret (n, w).

Section FlushStream.
Context (s : stream H) (c : Z) (Q : Z -> stream H -> Prop).
Context (Hs : sinv s) (Hw : iowrt s = true) (Hn : iobuf s <> BufNone) (Hwc : wcount s = 0) (Hc : byte c).
Context (HQ : forall s', wrote s [c] s' -> Q 0 s') (HE : forall s', sinv s' -> hist s' -> keeps s s' -> ioerr s' = true -> Q EOF s').
Notation finish := (fun nw : Z * Z => let '(n, w) := nw in if negb (n =? w) then _ ← mmod (set_ioerr true); mret EOF else mret 0 : SM Z).

Lemma wrote_wst p bu wc h : Forall byte bu -> alen bu = buf_size s -> 0 <= p -> 0 <= wc -> (bbuf s = true -> p + wc <= buf_size s) -> (bbuf s = false -> wc = 0) ->
  (bbuf s = true -> overwrite (content h) (fpos h) (take (Z.to_nat p) bu) = overwrite (a_data (view s)) (a_pos (view s)) [c] /\ fpos h + p = a_pos (view s) + 1) ->
  (bbuf s = false -> content h = overwrite (a_data (view s)) (a_pos (view s)) [c] /\ fpos h = a_pos (view s) + 1) -> Q 0 (wst p bu wc h (ioerr s) s).
Proof.
  intros Hb Hl Hp0 Hwc0 Hf Hsm Hv1 Hv2. destruct (wst_ok p bu wc h (ioerr s) s) as (? & ? & ?); try done.
  apply HQ. split; try done.
  - change (ioread s = false). destruct (ioread s) eqn:Hr; [by rewrite (i_one s Hs Hr) in Hw|done].
  - rewrite wst_view by done. change (alen [c]) with 1. destruct (bbuf s); [destruct (Hv1 eq_refl)|destruct (Hv2 eq_refl)]; by f_equal.
Qed.

Lemma fail_wst p bu wc h : Forall byte bu -> alen bu = buf_size s -> 0 <= p -> 0 <= wc -> (bbuf s = true -> p + wc <= buf_size s) -> (bbuf s = false -> wc = 0) ->
  Q EOF (wst p bu wc h true s).
Proof. intros. destruct (wst_ok p bu wc h true s) as (? & ? & ?); try done. by apply HE. Qed.

(** From a buffer whose bytes are in the file, or an error. *)
Lemma wp_flush_new bu n c' w h : bbuf s = true -> Forall byte bu -> alen bu = buf_size s -> c' = c \/ c' = -1 ->
  (n <> w -> (w <= 0 /\ 0 < n)) ->
  (n = w -> overwrite (content h) (fpos h) (if c' =? -1 then [] else [c]) = overwrite (a_data (view s)) (a_pos (view s)) [c] /\ fpos h + (if c' =? -1 then 0 else 1) = a_pos (view s) + 1) ->
  forall p, wp (flush_new n c' w) (fun nw => wp (finish nw) Q E) E (wst p bu 0 h (ioerr s) s).
Proof.
  intros Hb Hbu Hl Hc' Hfail Hok p. destruct (i_buf s Hs Hn) as [_ Hsz].
  assert (Hend : forall n' p bu wc h', Forall byte bu -> alen bu = buf_size s -> 0 <= p -> 0 <= wc -> p + wc <= buf_size s -> (n' = w -> n = w) ->
     (n = w -> n' = w -> overwrite (content h') (fpos h') (take (Z.to_nat p) bu) = overwrite (a_data (view s)) (a_pos (view s)) [c] /\ fpos h' + p = a_pos (view s) + 1) ->
     wp (if negb (n' =? w) then _ ← mmod (set_ioerr true); mret EOF else mret 0 : SM Z) Q E (wst p bu wc h' (ioerr s) s)).
  { intros n' p' bu' wc h' K1 K2 K3 K4 K5 K6 K7. destruct (Z.eqb_spec n' w) as [Heq|Hne]; cbn [negb].
    - apply wp_ret, wrote_wst; try done; [congruence|by intros _; apply K7; [apply K6|]|congruence].
    - apply wp_bind, wp_mod, wp_ret. apply (fail_wst p' bu' wc h'); try done. congruence. }
  unfold flush_new. apply wp_bind, wp_mod. change (set_ptr 0 _) with (wst 0 bu (buf_size s) h (ioerr s) s). apply wp_bind, wp_get. cbn beta. apply wp_bind.
  change (iolbf (wst 0 bu (buf_size s) h (ioerr s) s)) with (iolbf s).
  destruct ((c' =? NL) && iolbf s) eqn:Hnl.
  - breflect. assert (Hcc : c' = c) by (destruct Hc'; [done|unfold NL in *; lia]). rewrite Hcc in *. clear Hcc. unfold byte in Hc. replace (c =? -1) with false in Hok by lia.
    rewrite uchar_small by done. apply wp_bind, wp_writes; [done|by constructor|intros h' Hct Hp|intros w1 h' Hw1 Hct Hp].
    + apply wp_ret, wp_ret. change (alen [c] =? 1) with true. cbv iota. apply (Hend n 0 bu (buf_size s) h'); try done; try lia.
      intros Heq _. cbn in Hct, Hp. destruct (Hok Heq) as [Ho1 Ho2]. change (take (Z.to_nat 0) bu) with (@nil Z). rewrite overwrite_nil, Hct, Hp. split; [done|]. change (alen [c]) with 1. lia.
    + apply wp_ret, wp_ret. replace (w1 =? 1) with false by lia. apply (Hend (n + 1) 0 bu (buf_size s) h'); try done; try lia; intros; lia.
  - destruct (Z.geb_spec c' 0) as [Hge|Hlt].
    + assert (c' = c) by (destruct Hc'; [done|lia]). subst c'. replace (c =? -1) with false in Hok by lia. rewrite uchar_small by done.
      apply wp_bind, wp_put_byte; [change (0 <= 0 < alen bu); lia|]. apply wp_bind, wp_mod, wp_ret, wp_ret.
      apply (Hend n 1 (aset bu 0 c) (buf_size s - 1) h); try done; try lia; [by apply Forall_aset|by rewrite alen_aset|].
      intros Heq _. destruct (Hok Heq) as [Ho1 Ho2]. split; [|done]. rewrite <-Ho1. f_equal. destruct bu as [|b0 bu']; [change (alen []) with 0 in Hl; lia|]. reflexivity.
    + assert (c' = -1) by (unfold byte in Hc; destruct Hc'; lia). subst c'. change (-1 =? -1) with true in Hok. cbv iota in Hok. apply wp_ret, wp_ret.
      apply (Hend n 0 bu (buf_size s) h); try done; lia.
Qed.

Lemma wp_flush_buf : bbuf s = true -> wp (ncw ← flush_old c; let '(n, c, w) := ncw : Z * Z * Z in flush_new n c w) (fun nw => wp (finish nw) Q E) E s.
Proof.
  intros Hb. pose proof (i_write s Hs Hw) as W. destruct (i_buf s Hs Hn) as [Hl Hsz]. pose proof (w_ptr s W) as Hp. pose proof (w_fits s W Hb) as Hf.
  assert (Hv : view s = mk_a (overwrite (content (hnd s)) (fpos (hnd s)) (take (Z.to_nat (ptr s)) (buffer s))) (fpos (hnd s) + ptr s) []) by (rewrite write_view by done; by rewrite Hb).
  assert (Happ : forall d, alen d = ptr s -> overwrite (overwrite (content (hnd s)) (fpos (hnd s)) d) (fpos (hnd s) + ptr s) [c] = overwrite (content (hnd s)) (fpos (hnd s)) (d ++ [c])).
  { intros d <-. apply overwrite_app. apply fpos_range. }
  assert (Htake : alen (take (Z.to_nat (ptr s)) (buffer s)) = ptr s) by (apply alen_take; lia).
  assert (Hid : forall h, set_hnd h s = wst (ptr s) (buffer s) 0 h (ioerr s) s) by (intros; by rewrite <-Hwc).
  assert (Hs0 : wst (ptr s) (buffer s) 0 (hnd s) (ioerr s) s = s) by (rewrite <-Hid; by destruct s).
  apply wp_bind. unfold flush_old. apply wp_bind, wp_get. cbn beta zeta. rewrite uchar_small by done. destruct (Z.gtb_spec (ptr s) 0) as [Hp0|Hp0].
  - destruct (Z.ltb_spec (ptr s) (buf_size s)) as [Hroom|Hfull].
    + set (bu := aset (buffer s) (ptr s) c).
      assert (Hd : take (Z.to_nat (ptr s + 1)) bu = take (Z.to_nat (ptr s)) (buffer s) ++ [c]).
      { rewrite (take_snoc _ _ c) by (done || (subst bu; apply aget_aset_eq; lia)). f_equal. subst bu. unfold aset. by rewrite take_insert_ge by lia. }
      apply wp_bind, wp_bind, wp_put_byte; [lia|]. apply wp_ret. apply wp_bind, wp_slice; [lia|left; cbn; rewrite alen_aset; lia|].
      change (sub _ 0 (ptr s + 1)) with (take (Z.to_nat (ptr s + 1)) bu). rewrite Hd. change (set_buffer _ s) with (wst (ptr s) bu (wcount s) (hnd s) (ioerr s) s). rewrite Hwc.
      assert (Hlen : alen (take (Z.to_nat (ptr s)) (buffer s) ++ [c]) = ptr s + 1) by (rewrite alen_app, Htake; done).
      apply wp_bind, wp_writes; [by destruct (take _ _)|apply Forall_app; split; [apply Forall_take, Hs|by constructor]|intros h Hct Hpos|intros w h Hneg Hct Hpos]; apply wp_ret.
      * change (set_hnd h _) with (wst (ptr s) bu 0 h (ioerr s) s). cbn in Hct, Hpos. rewrite Hlen in *.
        apply wp_flush_new; try done; [by apply Forall_aset; [apply Hs|]|by subst bu; rewrite alen_aset|by right|].
        intros _. change (-1 =? -1) with true. cbv iota. rewrite overwrite_nil, Hct, Hpos, Hv. cbn [a_data a_pos]. rewrite Happ by done. split; [done|lia].
      * change (set_hnd h _) with (wst (ptr s) bu 0 h (ioerr s) s).
        apply wp_flush_new; try done; [by apply Forall_aset; [apply Hs|]|by subst bu; rewrite alen_aset|by right|lia|lia].
    + apply wp_bind, wp_ret, wp_bind, wp_slice; [lia|lia|]. change (sub _ 0 (ptr s)) with (take (Z.to_nat (ptr s)) (buffer s)).
      apply wp_bind, wp_writes; [intros Hnil; rewrite Hnil in Htake; change (alen []) with 0 in Htake; lia|apply Forall_take, Hs|intros h Hct Hpos|intros w h Hneg Hct Hpos]; apply wp_ret;
        rewrite Hid; (apply wp_flush_new; [done|apply Hs|done|by left|lia|]).
      * intros _. rewrite byte_not_eof by done. rewrite Htake in *. rewrite Hct, Hpos, Hv. cbn [a_data a_pos]. split; [done|lia].
      * lia.
  - rewrite append_false. apply wp_bind, wp_when; [done|]. intros _. apply wp_ret.
    pose proof (wp_flush_new (buffer s) (ptr s) c 0 (hnd s)) as Hg. specialize (Hg Hb). rewrite <-Hs0. apply Hg; [apply Hs|done|by left|lia|].
    intros _. rewrite byte_not_eof by done. rewrite Hv. cbn [a_data a_pos]. replace (ptr s) with 0 by lia. change (take (Z.to_nat 0) (buffer s)) with (@nil Z). rewrite overwrite_nil, Z.add_0_r. done.
Qed.

Lemma wp_flush_char : bbuf s = false ->
  wp (w ← call (stream_write [uchar c]); _ ← mmod (set_wcount 0); mret (1, w)) (fun nw => wp (finish nw) Q E) E s.
Proof.
  intros Hb. destruct (i_buf s Hs Hn) as [Hl Hsz]. pose proof (w_ptr s (i_write s Hs Hw)) as Hp. rewrite uchar_small by done.
  apply wp_bind, wp_writes; [done|by constructor|intros h Hct Hpos|intros w h Hneg Hct Hpos]; apply wp_bind, wp_mod, wp_ret.
  - change (1 =? alen [c]) with true. cbn [negb]. apply wp_ret.
    apply (wrote_wst (ptr s) (buffer s) 0 h); try done; try apply Hs; try lia; [intros Hx; congruence..|]. intros _. rewrite write_view, Hb by done. done.
  - replace (1 =? w) with false by lia. cbn [negb]. apply wp_bind, wp_mod, wp_ret.
    apply (fail_wst (ptr s) (buffer s) 0 h); try done; try apply Hs; try lia. congruence.
Qed.
End FlushStream.

Lemma write_hist s : ioread s = false -> hist s.
Proof. intros Hr _ Hx. congruence. Qed.

Lemma set_wcount_0 s : sinv s -> hist s -> let m := set_wcount 0 s in sinv m /\ hist m /\ keeps s m /\ view m = view s.
Proof.
  intros Hs Hh m. split_and!; [|done|done|done]. destruct Hs as [? ? ? ? ? ? ? ? ? Hr Hw]. split; try done.
  - intros Hx. destruct (Hr Hx). by split.
  - intros Hx. destruct (Hw Hx) as [? ? ? ? Hf ?]. split; try done. intros Hb. specialize (Hf Hb). change (ptr s + 0 <= buf_size s). lia.
Qed.

Lemma set_ioeof_ok e s : sinv s -> sinv (set_ioeof e s) /\ view (set_ioeof e s) = view s.
Proof.
  intros [? ? ? ? ? ? ? ? ? Hr Hw]. split; [|done]. split; try done; [intros Hx; by destruct (Hr Hx)|intros Hx; by destruct (Hw Hx)].
Qed.

Lemma wp_flushstream s c (Q : Z -> stream H -> Prop) : sinv s -> hist s -> ioread s = false -> byte c ->
  (forall s', wrote s [c] s' -> Q 0 s') -> (forall s', sinv s' -> hist s' -> keeps s s' -> ioerr s' = true -> Q EOF s') -> wp (flushstream c) Q E s.
Proof.
  intros Hs Hh Hr Hc HQ HE. unfold flushstream. replace (c =? FLUSH_FILL) with false by (unfold byte, FLUSH_FILL in *; lia).
  destruct (set_wcount_0 s Hs Hh) as (Hs1 & Hh1 & _ & Hv1). destruct (set_ioeof_ok false _ Hs1) as [Hs2 Hv2]. destruct (write_mode _ Hs2 Hr) as (Hs3 & Hh3 & Hv3 & Hrc).
  apply wp_bind, wp_mod. set (m := set_iowrt true _) in Hs3, Hh3, Hv3.
  assert (Hm : set_iowrt true (set_rcount 0 (set_ioeof false (set_wcount 0 s))) = m) by (subst m; cbn in Hrc; unfold set_iowrt, set_rcount, set_ioeof, set_wcount; cbn; by rewrite Hrc).
  rewrite Hm. apply wp_bind, wp_need_buf; [done|done|]. intros s' Hs' Hh' Hn' Hk' Hr' Hw' He' Hv' Hid Hemp.
  assert (Hwc : wcount s' = 0) by (destruct (decide (iobuf m = BufNone)) as [Hb|Hb]; [by apply Hemp|by rewrite Hid]).
  assert (Hvs : view s' = view s) by congruence. assert (Hks : keeps s s') by (eapply keeps_trans; [|exact Hk']; done).
  assert (HQ' : forall s2, wrote s' [c] s2 -> Q 0 s2).
  { intros s2 [K1 K2 K3 K4 K5 K6]. apply HQ. split; try done; [by eapply keeps_trans|by rewrite K5, He'|by rewrite <-Hvs]. }
  assert (HE' : forall s2, sinv s2 -> hist s2 -> keeps s' s2 -> ioerr s2 = true -> Q EOF s2) by (intros; apply HE; try done; by eapply keeps_trans).
  apply wp_bind, wp_get. cbn beta. apply wp_bind. destruct (bbuf s') eqn:Hb; [by apply wp_flush_buf|by apply wp_flush_char].
Qed.

Lemma wp_flush s c (Q : Z -> stream H -> Prop) : sinv s -> hist s ->
  (forall r s', sinv s' -> hist s' -> keeps s s' -> ioerr s' = ioerr s -> a_write (view s) [uchar c] (uchar c) EOF r (view s') -> Q r s') ->
  (forall s', sinv s' -> hist s' -> keeps s s' -> ioerr s' = true -> Q EOF s') -> wp (flush c) Q E s.
Proof.
  intros Hs Hh HQ HE. unfold flush. destruct (set_wcount_0 s Hs Hh) as (Hs1 & Hh1 & Hk1 & Hv1). apply wp_bind, wp_mod. set (m := set_wcount 0 s) in *.
  apply wp_bind, wp_get. cbn beta. rewrite (i_open m Hs1). cbn [negb]. apply wp_bind, wp_to_write; [done|done| | |].
  - intros s' Hs' Hh' Hr' Hk' He' Hcur Hv'. cbn [negb]. rewrite Hv1 in *. apply wp_bind, wp_flushstream; [done|done|done|apply uchar_byte| |].
    + intros s2 [K1 K2 K3 K4 K5 K6]. change (negb (0 =? 0)) with false. cbv iota. apply wp_ret. apply HQ; try done; [by do 2 (eapply keeps_trans; [done|])|by rewrite K5|].
      unfold a_write. replace (0 <=? a_cur (view s)) with true by lia. by rewrite K6, Hv'.
    + intros s2 K1 K2 K3 K4. apply wp_ret. apply HE; try done. by do 2 (eapply keeps_trans; [done|]).
  - intros s' Hs' Hh' Hk' He' Hcur Hv'. cbn [negb]. apply wp_ret. rewrite Hv1 in *. apply HQ; try done; [by eapply keeps_trans|]. unfold a_write. by replace (0 <=? a_cur (view s)) with false by lia.
  - intros s' Hs' Hh' Hk' He'. cbn [negb]. apply wp_ret. apply HE; try done. by eapply keeps_trans.
Qed.

(** ** [putc] *)

Lemma write_room s : sinv s -> 0 < wcount s -> iowrt s = true /\ ioread s = false /\ bbuf s = true /\ iobuf s <> BufNone /\ 0 <= ptr s /\ ptr s + wcount s <= buf_size s /\ alen (buffer s) = buf_size s.
Proof.
  intros Hs Hwc. destruct (iowrt s) eqn:Hw; [|pose proof (r_wcount s (i_read s Hs Hw)); lia]. pose proof (i_write s Hs Hw) as W.
  destruct (bbuf s) eqn:Hb; [|pose proof (w_small s W Hb); lia]. pose proof (bbuf_not_none s Hb) as Hn. destruct (i_buf s Hs Hn).
  split_and!; try done; try by apply W. destruct (ioread s) eqn:Hr; [by rewrite (i_one s Hs Hr) in Hw|done].
Qed.

(** Bytes are put into the buffer. *)
Lemma buffered_ok s d bu : sinv s -> d <> [] -> Forall byte bu -> alen bu = buf_size s -> alen d <= wcount s ->
  take (Z.to_nat (ptr s + alen d)) bu = take (Z.to_nat (ptr s)) (buffer s) ++ d -> wrote s d (wst (ptr s + alen d) bu (wcount s - alen d) (hnd s) (ioerr s) s).
Proof.
  intros Hs Hd Hb Hl Hroom Htk. assert (Hlen : 0 < alen d) by (destruct d; [done|]; unfold alen; cbn; lia).
  destruct (write_room s Hs) as (Hw & Hr & Hbb & Hn & Hp & Hf & Hlb); [lia|].
  destruct (wst_ok (ptr s + alen d) bu (wcount s - alen d) (hnd s) (ioerr s) s) as (? & ? & ?); try done; try lia; [congruence|].
  split; try done. rewrite wst_view, write_view, Hbb, Htk by done. cbn [a_data a_pos]. f_equal; [|lia].
  rewrite <-overwrite_app by apply fpos_range. by rewrite alen_take by lia.
Qed.

Lemma wp_putc s c (Q : Z -> stream H -> Prop) : sinv s -> hist s ->
  (forall r s', sinv s' -> hist s' -> keeps s s' -> ioerr s' = ioerr s -> a_step (Putc c) (view s) r [] (view s') -> Q r s') ->
  (forall s', sinv s' -> hist s' -> keeps s s' -> ioerr s' = true -> Q EOF s') -> wp (putc c) Q E s.
Proof.
  intros Hs Hh HQ HE. unfold putc. apply wp_bind, wp_mod, wp_bind, wp_get. cbn beta. set (m := set_wcount _ _).
  destruct ((wcount m >=? 0) && _) eqn:Hroom.
  - apply andb_true_iff in Hroom as [Hroom _]. breflect. change (wcount m) with (wcount s - 1) in Hroom.
    destruct (write_room s Hs) as (Hw & Hr & Hbb & Hn & Hp & Hf & Hlb); [lia|].
    apply wp_bind, wp_put_byte; [change (0 <= ptr s < alen (buffer s)); lia|]. apply wp_bind, wp_mod, wp_ret.
    set (bu := aset (buffer s) (ptr s) (uchar c)).
    assert (Hwr : wrote s [uchar c] (wst (ptr s + 1) bu (wcount s - 1) (hnd s) (ioerr s) s)).
    { apply (buffered_ok s [uchar c] bu); try done; [by apply Forall_aset; [apply Hs|apply uchar_byte]|by subst bu; rewrite alen_aset|change (alen [uchar c]) with 1; lia|].
      change (alen [uchar c]) with 1. rewrite (take_snoc _ _ (uchar c)) by (done || (subst bu; apply aget_aset_eq; lia)). f_equal. subst bu. unfold aset. by rewrite take_insert_ge by lia. }
    change (Q (uchar c) (wst (ptr s + 1) bu (wcount s - 1) (hnd s) (ioerr s) s)). destruct Hwr as [K1 K2 K3 K4 K5 K6].
    apply HQ; try done. split; [done|]. destruct (no_back s Hs Hr) as [_ Hcur]. destruct (view_bounds s Hs). unfold a_write. rewrite Hcur.
    replace (0 <=? a_pos (view s)) with true by lia. done.
  - assert (Hf : wp (flush c) Q E s) by (apply wp_flush; [done|done| |done]; intros; by apply HQ). exact Hf.
Qed.

(** ** [fwrite] *)

Lemma wrote_nil s : sinv s -> hist s -> ioread s = false -> wrote s [] s.
Proof.
  intros Hs Hh Hr. split; try done. destruct (no_back s Hs Hr) as [Hb _]. rewrite overwrite_nil. change (alen []) with 0. destruct (view s) as [l p b]. cbn in *. f_equal; [lia|done].
Qed.

Lemma wrote_app s s1 s2 d1 d2 : sinv s -> wrote s d1 s1 -> wrote s1 d2 s2 -> wrote s (d1 ++ d2) s2.
Proof.
  intros Hs [K1 K2 K3 K4 K5 K6] [L1 L2 L3 L4 L5 L6]. destruct (view_bounds s Hs). split; try done; [by eapply keeps_trans|congruence|].
  rewrite L6, K6. cbn [a_data a_pos]. rewrite overwrite_app, alen_app by lia. f_equal. lia.
Qed.

(** The bytes are written behind an empty buffer. *)
Lemma straight_ok s d h : sinv s -> iowrt s = true -> iobuf s <> BufNone -> bbuf s = false \/ ptr s = 0 -> d <> [] -> Forall byte d ->
  content h = overwrite (content (hnd s)) (fpos (hnd s)) d -> fpos h = fpos (hnd s) + alen d -> wrote s d (set_hnd h s).
Proof.
  intros Hs Hw Hn Hp Hd Hb Hc Hf. pose proof (i_write s Hs Hw) as W. destruct (i_buf s Hs Hn) as [Hl Hsz].
  destruct (wst_ok (ptr s) (buffer s) (wcount s) h (ioerr s) s Hs Hw Hn (i_bytes s Hs) Hl (w_ptr s W) (w_wcount s W) (w_fits s W) (w_small s W)) as (? & ? & ?).
  change (set_hnd h s) with (wst (ptr s) (buffer s) (wcount s) h (ioerr s) s). split; try done.
  - change (ioread s = false). destruct (ioread s) eqn:Hr; [by rewrite (i_one s Hs Hr) in Hw|done].
  - rewrite wst_view, write_view by done. destruct (bbuf s); cbn [a_data a_pos]; [|by rewrite Hc, Hf]. destruct Hp as [?|Hp]; [done|]. rewrite Hp.
    change (Z.to_nat 0) with 0%nat. rewrite !take_0, !overwrite_nil, !Z.add_0_r, Hc, Hf. done.
Qed.

Lemma set_ioerr_ok s e : sinv s -> hist s -> let m := set_ioerr e s in sinv m /\ hist m /\ keeps s m /\ view m = view s.
Proof.
  intros Hs Hh m. split_and!; [|done|done|done]. destruct Hs as [? ? ? ? ? ? ? ? ? Hr Hw]. split; try done; [intros Hx; by destruct (Hr Hx)|intros Hx; by destruct (Hw Hx)].
Qed.

Lemma fail_handle s p h : sinv s -> iowrt s = true -> iobuf s <> BufNone -> 0 <= p <= ptr s -> let m := set_ioerr true (set_hnd h (set_ptr p s)) in sinv m /\ hist m /\ keeps s m.
Proof.
  intros Hs Hw Hn Hp m. pose proof (i_write s Hs Hw) as W. destruct (i_buf s Hs Hn) as [Hl Hsz].
  apply (wst_ok p (buffer s) (wcount s) h true s); [done|done|done|apply (i_bytes s Hs)|done|lia|apply (w_wcount s W)| |apply (w_small s W)].
  intros Hb. pose proof (w_fits s W Hb). lia.
Qed.

Section Fwrite.
Context (s0 : stream H) (Q : Z -> stream H -> Prop).
Context (HE : forall l s', 0 < l -> sinv s' -> hist s' -> keeps s0 s' -> ioerr s' = true -> Q l s').

(** The buffer is written out. *)
Lemma wp_drain s (src : list Z) (k : SM Z) : sinv s -> iowrt s = true -> bbuf s = true -> ptr s <> 0 -> keeps s0 s -> 0 < alen src ->
  (forall s', wrote s [] s' -> iowrt s' = true -> ptr s' = 0 -> wcount s' = buf_size s' -> wp k Q E s') ->
  wp (_ ← mmod (set_ptr 0); ok ← write_buffer (S (Z.to_nat (ptr s))) (ptr s); if negb ok then mret (alen src)
      else _ ← mmod (fun s => set_ptr 0 (set_wcount (buf_size s) s)); k) Q E s.
Proof.
  intros Hs Hw Hb Hp Hk Hpos HK. pose proof (bbuf_not_none s Hb) as Hn. destruct (i_buf s Hs Hn) as [Hl Hsz]. pose proof (i_write s Hs Hw) as W. pose proof (w_ptr s W). pose proof (w_fits s W Hb). pose proof (w_wcount s W).
  assert (Htake : alen (take (Z.to_nat (ptr s)) (buffer s)) = ptr s) by (apply alen_take; lia).
  apply wp_bind, wp_mod, wp_bind. cbn [write_buffer]. replace (ptr s =? 0) with false by lia. apply wp_bind, wp_get. cbn beta. apply wp_bind, wp_slice; [done|left; change (0 + ptr s <= alen (buffer s)); lia|].
  change (sub _ _ (ptr s)) with (take (Z.to_nat (ptr s)) (buffer s)).
  apply wp_bind, wp_writes; [by apply take_nonempty; lia|apply Forall_take, Hs|intros h Hc Hf|intros w h Hneg Hc Hf].
  - rewrite Htake in *. replace (ptr s <=? 0) with false by lia. apply wp_bind, wp_mod. rewrite Z.sub_diag. cbn [write_buffer].
    assert (Hdone : wp (write_buffer (Z.to_nat (ptr s)) 0) (fun ok s' => ok = true /\ s' = set_ptr (0 + ptr s) (set_hnd h (set_ptr 0 s))) E (set_ptr (0 + ptr s) (set_hnd h (set_ptr 0 s))))
      by (destruct (Z.to_nat (ptr s)); by apply wp_ret).
    eapply wp_conseq; [exact Hdone| |done]. intros ok s' [-> ->]. cbn [negb]. apply wp_bind, wp_mod. cbn in Hc, Hf.
    destruct (wst_ok 0 (buffer s) (buf_size s) h (ioerr s) s Hs Hw Hn (i_bytes s Hs) Hl) as (? & ? & ?); [lia|lia|lia|congruence|].
    apply HK; [|done|done|done]. change (set_ptr 0 _) with (wst 0 (buffer s) (buf_size s) h (ioerr s) s). split; try done.
    + change (ioread s = false). destruct (ioread s) eqn:Hr; [by rewrite (i_one s Hs Hr) in Hw|done].
    + rewrite wst_view, write_view, Hb by done. cbn [a_data a_pos]. change (Z.to_nat 0) with 0%nat. rewrite take_0, !overwrite_nil, Hc, Hf. change (alen []) with 0. f_equal; lia.
  - replace (w <=? 0) with true by lia. apply wp_bind, wp_mod, wp_ret. cbn [negb]. apply wp_ret. destruct (fail_handle s 0 h Hs Hw Hn) as (? & ? & ?); [lia|].
    apply HE; try done. by eapply keeps_trans.
Qed.

Lemma fwrite_buffered_S fuel src : fwrite_buffered (S fuel) src =
  if alen src =? 0 then mret 0
  else
    s ← mget;
    if alen src <=? wcount s then
      _ ← (if (0 <=? ptr s) && (ptr s + alen src <=? alen (buffer s))
           then mput (set_buffer (take (Z.to_nat (ptr s)) (buffer s) ++ src ++ drop (Z.to_nat (ptr s + alen src)) (buffer s)) s)
           else mfail Ub);
      _ ← mmod (fun s => set_ptr (ptr s + alen src) (set_wcount (wcount s - alen src) s)); mret 0
    else if negb (ptr s =? 0) then
      _ ← mmod (set_ptr 0); ok ← write_buffer (S (Z.to_nat (ptr s))) (ptr s);
      if negb ok then mret (alen src) else _ ← mmod (fun s => set_ptr 0 (set_wcount (buf_size s) s)); fwrite_buffered fuel src
    else
      w ← call (stream_write src);
      if w <=? 0 then _ ← mmod (set_ioerr true); mret (alen src) else fwrite_buffered fuel (drop (Z.to_nat w) src) :> SM Z.
Proof. reflexivity. Qed.

Lemma wp_copy s src : sinv s -> hist s -> src <> [] -> Forall byte src -> alen src <= wcount s -> (forall s', wrote s src s' -> Q 0 s') ->
  wp (_ ← (if (0 <=? ptr s) && (ptr s + alen src <=? alen (buffer s))
           then mput (set_buffer (take (Z.to_nat (ptr s)) (buffer s) ++ src ++ drop (Z.to_nat (ptr s + alen src)) (buffer s)) s)
           else mfail Ub);
      _ ← mmod (fun s => set_ptr (ptr s + alen src) (set_wcount (wcount s - alen src) s)); mret 0) Q E s.
Proof.
  intros Hs Hh Hd Hb Hle HQ. assert (Hpos : 0 < alen src) by (destruct src; [done|]; unfold alen; cbn; lia).
  destruct (write_room s Hs) as (Hw & Hr & Hbb & Hn & Hp & Hf & Hlb); [lia|]. replace ((0 <=? ptr s) && (ptr s + alen src <=? alen (buffer s))) with true by lia.
  apply wp_bind, wp_put, wp_bind, wp_mod, wp_ret. set (bu := take _ _ ++ src ++ drop _ _).
  assert (Hlt : length (take (Z.to_nat (ptr s)) (buffer s)) = Z.to_nat (ptr s)) by (rewrite length_take; unfold alen in Hlb; lia).
  assert (Hwr : wrote s src (wst (ptr s + alen src) bu (wcount s - alen src) (hnd s) (ioerr s) s)).
  { apply buffered_ok; try done.
    - subst bu. rewrite !Forall_app. split_and!; [apply Forall_take, Hs|done|apply Forall_drop, Hs].
    - subst bu. unfold alen in *. rewrite !length_app, Hlt, length_drop. lia.
    - subst bu. rewrite app_assoc. apply take_app_length'. rewrite length_app, Hlt. unfold alen in *. lia. }
  by apply HQ.
Qed.

(** From an empty buffer on. *)
Lemma wp_fwrite_empty fuel s src : sinv s -> hist s -> iowrt s = true -> bbuf s = true -> keeps s0 s -> Forall byte src -> ptr s = 0 ->
  (forall s', wrote s src s' -> Q 0 s') -> wp (fwrite_buffered (S (S fuel)) src) Q E s.
Proof.
  intros Hs Hh Hw Hb Hk Hby Hp HQ. pose proof (bbuf_not_none s Hb) as Hn. assert (Hr : ioread s = false) by (destruct (ioread s) eqn:Hr; [by rewrite (i_one s Hs Hr) in Hw|done]).
  rewrite fwrite_buffered_S. destruct (Z.eqb_spec (alen src) 0) as [Hz|Hz].
  - apply wp_ret, HQ. destruct src; [|unfold alen in Hz; cbn in Hz; lia]. by apply wrote_nil.
  - assert (Hd : src <> []) by (intros ->; by apply Hz). apply wp_bind, wp_get. cbn beta.
    destruct (Z.leb_spec (alen src) (wcount s)); [by apply wp_copy|]. rewrite Hp. cbn [Z.eqb negb].
    apply wp_bind, wp_writes; [done|done|intros h Hc Hf|intros w h Hneg Hc Hf].
    + pose proof (alen_nonneg src). replace (alen src <=? 0) with false by lia. unfold alen at 1. rewrite Nat2Z.id, drop_all, fwrite_buffered_S.
      change (alen [] =? 0) with true. cbv iota. apply wp_ret, HQ. apply straight_ok; try done. by right.
    + replace (w <=? 0) with true by lia. apply wp_bind, wp_mod, wp_ret.
      destruct (fail_handle s (ptr s) h Hs Hw Hn) as (? & ? & ?); [rewrite Hp; lia|].
      assert (Hid : set_ioerr true (set_hnd h (set_ptr (ptr s) s)) = set_ioerr true (set_hnd h s)) by by destruct s. rewrite Hid in *.
      pose proof (alen_nonneg src). apply HE; try done; [lia|]. by eapply keeps_trans.
Qed.

Lemma wp_fwrite_buffered fuel s src : sinv s -> hist s -> iowrt s = true -> bbuf s = true -> keeps s0 s -> Forall byte src ->
  (forall s', wrote s src s' -> Q 0 s') -> wp (fwrite_buffered (S (S (S fuel))) src) Q E s.
Proof.
  intros Hs Hh Hw Hb Hk Hby HQ. destruct (decide (ptr s = 0)) as [Hp|Hp]; [by apply wp_fwrite_empty|].
  assert (Hr : ioread s = false) by (destruct (ioread s) eqn:Hr; [by rewrite (i_one s Hs Hr) in Hw|done]).
  rewrite fwrite_buffered_S. destruct (Z.eqb_spec (alen src) 0) as [Hz|Hz].
  - apply wp_ret, HQ. destruct src; [|unfold alen in Hz; cbn in Hz; lia]. by apply wrote_nil.
  - assert (Hd : src <> []) by (intros ->; by apply Hz). apply wp_bind, wp_get. cbn beta.
    destruct (Z.leb_spec (alen src) (wcount s)); [by apply wp_copy|]. replace (ptr s =? 0) with false by lia. cbn [negb].
    apply wp_drain; try done; [pose proof (alen_nonneg src); lia|]. intros s' Hwr Hw' Hp' Hwc'. pose proof Hwr as [K1 K2 K3 K4 K5 K6].
    apply wp_fwrite_empty; try done.
    + unfold bbuf. by rewrite (k_buf _ _ K4) by by apply bbuf_not_none.
    + by eapply keeps_trans.
    + intros s2 Hwr2. apply HQ. by apply (wrote_app s s' s2 [] src).
Qed.

Lemma wp_fwrite_unbuffered fuel s src : sinv s -> hist s -> iowrt s = true -> bbuf s = false -> iobuf s <> BufNone -> keeps s0 s -> Forall byte src ->
  (forall s', wrote s src s' -> Q 0 s') -> wp (fwrite_unbuffered (S (S fuel)) src) Q E s.
Proof.
  intros Hs Hh Hw Hb Hn Hk Hby HQ. assert (Hr : ioread s = false) by (destruct (ioread s) eqn:Hr; [by rewrite (i_one s Hs Hr) in Hw|done]).
  cbn [fwrite_unbuffered]. destruct (Z.eqb_spec (alen src) 0) as [Hz|Hz].
  - apply wp_ret, HQ. destruct src; [|unfold alen in Hz; cbn in Hz; lia]. by apply wrote_nil.
  - assert (Hd : src <> []) by (intros ->; by apply Hz).
    apply wp_bind, wp_writes; [done|done|intros h Hc Hf|intros w h Hneg Hc Hf].
    + pose proof (alen_nonneg src). replace (alen src <=? 0) with false by lia. rewrite drop_ge by (unfold alen; lia).
      change (alen [] =? 0) with true. cbv iota. apply wp_ret, HQ. apply straight_ok; try done. by left.
    + replace (w <=? 0) with true by lia. apply wp_bind, wp_mod, wp_ret. pose proof (w_ptr s (i_write s Hs Hw)).
      destruct (fail_handle s (ptr s) h Hs Hw Hn) as (? & ? & ?); [lia|].
      assert (Hid : set_ioerr true (set_hnd h (set_ptr (ptr s) s)) = set_ioerr true (set_hnd h s)) by by destruct s. rewrite Hid in *.
      pose proof (alen_nonneg src). apply HE; try done; [lia|]. by eapply keeps_trans.
Qed.

Lemma wp_fwrite_internal s src : sinv s -> hist s -> iowrt s = true -> iobuf s <> BufNone -> keeps s0 s -> Forall byte src -> src <> [] ->
  (forall s', wrote s src s' -> Q 0 s') -> wp (fwrite_internal src) Q E s.
Proof.
  intros Hs Hh Hw Hn Hk Hby Hd HQ. unfold fwrite_internal. destruct src as [|c src]; [done|]. cbn [length]. apply wp_bind, wp_get. cbn beta. destruct (bbuf s) eqn:Hb; [|by apply wp_fwrite_unbuffered].
  assert (Hr : ioread s = false) by (destruct (ioread s) eqn:Hr; [by rewrite (i_one s Hs Hr) in Hw|done]).
  apply wp_bind, wp_mod. set (s1 := if _ : bool then _ else s).
  assert (H1 : wrote s [] s1 /\ iowrt s1 = true /\ bbuf s1 = true).
  { subst s1. destruct ((wcount s =? 0) && (ptr s =? 0)) eqn:Hz; [|split_and!; try done; by apply wrote_nil]. breflect. destruct (i_buf s Hs Hn) as [Hl Hsz].
    destruct (wst_ok 0 (buffer s) (buf_size s) (hnd s) (ioerr s) s Hs Hw Hn (i_bytes s Hs) Hl) as (K1 & K2 & K3); [lia|lia|lia|congruence|].
    assert (Hid : set_wcount (buf_size s) s = wst 0 (buffer s) (buf_size s) (hnd s) (ioerr s) s) by (destruct s; cbn in *; by subst).
    rewrite Hid. split_and!; try done. split; try done. rewrite wst_view, Hb by done. destruct (no_back s Hs Hr) as [Hnb _]. rewrite write_view, Hb by done. cbn [a_data a_pos].
    change (Z.to_nat 0) with 0%nat. replace (ptr s) with 0 by lia. change (Z.to_nat 0) with 0%nat. rewrite take_0, !overwrite_nil. change (alen []) with 0. f_equal. lia. }
  clearbody s1. destruct H1 as (Hw1 & Hm & Hb1). pose proof Hw1 as [K1 K2 K3 K4 K5 K6]. apply wp_fwrite_buffered; try done; [by eapply keeps_trans|].
  intros s2 Hw2. apply HQ. by apply (wrote_app s s1 s2 [] (c :: src)).
Qed.
End Fwrite.
Lemma to_newline_bounds src n : to_newline src = Some n -> (0 < n <= length src)%nat.
Proof.
  revert n. induction src as [|c src IH]; intros n; cbn; [done|]. destruct (to_newline src) as [m|]; [intros [= <-]; specialize (IH m eq_refl); lia|].
  destruct (c =? NL); intros [= <-]. lia.
Qed.

Lemma alen_pos (d : list Z) : d <> [] -> 0 < alen d.
Proof. destruct d; [done|]. rewrite alen_cons. pose proof (alen_nonneg d). lia. Qed.

(** What the buffering mode makes of the bytes. *)
Definition fwrite_mode (src : list Z) (total : Z) : SM Z :=
  s ← mget;
  if iolbf s then
    match to_newline src with
    | None => fwrite_internal src
    | Some n =>
        l ← fwrite_internal (take n src);
        let left := l + total - Z.of_nat n in
        if left =? total - Z.of_nat n then
          r ← fflush_unlocked;
          if negb (r =? 0) then mret total
          else if negb (left =? 0) then fwrite_internal (drop n src)
          else mret left
        else mret left
    end
  else fwrite_internal src.

Lemma wp_fwrite_mode s src total (Q : Z -> stream H -> Prop) : sinv s -> hist s -> iowrt s = true -> iobuf s <> BufNone -> Forall byte src -> src <> [] -> total = alen src ->
  iolbf s = false \/ iorw s = false -> (forall s', wrote s src s' -> Q 0 s') -> (forall l s', 0 < l -> sinv s' -> hist s' -> keeps s s' -> ioerr s' = true -> Q l s') ->
  wp (fwrite_mode src total) Q E s.
Proof.
  intros Hs Hh Hw Hn Hby Hd -> Hlbf HQ HE. pose proof (alen_pos src Hd) as Hpos. unfold fwrite_mode. apply wp_bind, wp_get. cbn beta. destruct (iolbf s); [|by apply (wp_fwrite_internal s)].
  assert (Hrw : iorw s = false) by (destruct Hlbf; done). destruct (to_newline src) as [n|] eqn:Hnl; [|by apply (wp_fwrite_internal s)]. apply to_newline_bounds in Hnl.
  rewrite <-(take_drop n src) in Hby. apply Forall_app in Hby as [Hb1 Hb2]. assert (Hne : take n src <> []) by (destruct src; [done|]; destruct n; [lia|done]).
  assert (HE' : forall s1 l s', 0 < l -> keeps s s1 -> sinv s' -> hist s' -> keeps s1 s' -> ioerr s' = true -> Q l s') by (intros; apply HE; try done; by eapply keeps_trans).
  apply wp_bind, (wp_fwrite_internal s); try done; [|].
  { intros l s' Hl H1 H2 H3 H4. cbn zeta. replace (l + alen src - Z.of_nat n =? alen src - Z.of_nat n) with false by lia. apply wp_ret. apply (HE' s); try done. unfold alen. lia. }
  intros s1 Hw1. pose proof Hw1 as [K1 K2 K3 K4 K5 K6]. cbn zeta.
  replace (0 + alen src - Z.of_nat n =? alen src - Z.of_nat n) with true by lia. apply wp_bind, wp_fflush; [done| |].
  - intros h Hc Hf. change (negb (0 =? 0)) with false. cbv iota. set (s2 := flushed h (ioerr s1) s1). pose proof (flushed_inv h (ioerr s1) s1 K1) as Hi2. fold s2 in Hi2.
    assert (Hw2 : wrote s1 [] s2) by (split; [done|by apply empty_hist|done|done|done|]; rewrite overwrite_nil; subst s2; rewrite flushed_view, Hc, Hf; change (alen []) with 0; f_equal; lia).
    assert (H12 : wrote s (take n src) s2) by (rewrite <-(app_nil_r (take n src)); by apply (wrote_app s s1 s2)).
    destruct (Z.eqb_spec (0 + alen src - Z.of_nat n) 0) as [Hz|Hz]; cbn [negb].
    + rewrite Hz. apply wp_ret, HQ. rewrite <-(take_ge src n) by (unfold alen in Hz; lia). done.
    + assert (Hne2 : drop n src <> []) by (intros Hnil; apply (f_equal length) in Hnil; rewrite length_drop in Hnil; cbn in Hnil; unfold alen in Hz; lia).
      assert (Hrw2 : iorw s2 = false) by (change (iorw s1 = false); by rewrite (k_rw _ _ K4)).
      apply (wp_fwrite_internal s); try done.
      * by apply empty_hist.
      * destruct (i_some s2 Hi2 Hrw2) as [Hx|]; [change (ioread s1 = true) in Hx; congruence|done].
      * change (iobuf s1 <> BufNone). by rewrite (k_buf _ _ K4).
      * apply H12.
      * intros s3 Hw3. apply HQ. rewrite <-(take_drop n src). by apply (wrote_app s s2 s3).
  - intros h. change (negb (EOF =? 0)) with true. cbv iota. apply wp_ret. apply (HE' s1); try done; [by apply flushed_inv|by apply empty_hist].
Qed.

Lemma wp_fwrite s src size count (Q : Z -> stream H -> Prop) : sinv s -> hist s -> 0 <= size < 2 ^ 32 -> 0 <= count < 2 ^ 32 -> alen src = size * count ->
  Forall byte src -> iolbf s = false \/ iorw s = false ->
  (forall r s', sinv s' -> hist s' -> keeps s s' -> ioerr s' = ioerr s -> a_step (Fwrite src size count) (view s) r [] (view s') -> Q r s') ->
  (forall r s', (0 < count -> r < count) -> sinv s' -> hist s' -> keeps s s' -> ioerr s' = true -> Q r s') -> wp (fwrite_unlocked src size count) Q E s.
Proof.
  intros Hs Hh Hsz Hct Hlen Hby Hlbf HQ HE. unfold fwrite_unlocked. apply wp_bind, wp_to_write; [done|done| | |].
  - intros s1 Hs1 Hh1 Hr1 Hk1 He1 Hcur Hv1. cbn [negb].
    assert (Hnone : forall e, (0 <? size * count) && (size * count <? 2 ^ 32) = false -> Q 0 (set_errno e s1)).
    { intros e Hno. apply HQ; try done.
      - destruct Hs1 as [? ? ? ? ? ? ? ? ? Hr Hw]. split; try done; [intros Hx; by destruct (Hr Hx)|intros Hx; by destruct (Hw Hx)].
      - destruct Hk1. by split.
      - split; [done|]. rewrite Hno. unfold a_write. replace (0 <=? a_cur (view s)) with true by lia. split; [done|]. rewrite overwrite_nil. change (view (set_errno e s1)) with (view s1).
        rewrite Hv1. change (alen []) with 0. f_equal. lia. }
    destruct (decide (size * count = 0)) as [Hz|Hnz].
    { replace ((size =? 0) || (count =? 0)) with true by nia. apply wp_ret. specialize (Hnone (errno s1)).
      assert (Hid : set_errno (errno s1) s1 = s1) by by destruct s1. rewrite Hid in Hnone. apply Hnone. rewrite Hz. done. }
    assert (0 < size) by nia. assert (0 < count) by nia. destruct (product_fits size count) as [Hov Hu]; [lia..|].
    replace (size =? 0) with false by lia. replace (count =? 0) with false by lia. cbn [orb]. cbv zeta. rewrite Hov. destruct (Z.ltb_spec (size * count) (2 ^ 32)) as [Hfit|Hbig]; cbn [negb].
    2:{ apply wp_bind, wp_mod, wp_ret, Hnone. by rewrite andb_false_r. }
    rewrite Hu by done. apply wp_bind, wp_need_buf; [done|done|]. intros s2 Hs2 Hh2 Hn2 Hk2 Hr2 Hw2 He2 Hv2 _ _.
    destruct (write_mode s2 Hs2) as (Hs3 & Hh3 & Hv3 & _); [congruence|]. set (s3 := set_iowrt true s2) in *.
    assert (Hk3 : keeps s s3) by (eapply keeps_trans; [exact Hk1|]; destruct Hk2; by split).
    assert (Hd : src <> []) by (intros ->; by change (alen []) with 0 in Hlen).
    apply wp_bind, wp_mod. change (wp (left ← fwrite_mode src (size * count); mret ((size * count - left) / size) : SM Z) Q E s3). apply wp_bind, wp_fwrite_mode; try done.
    + destruct Hlbf as [Hlbf|Hrw]; [left; by apply Hk3|right; by rewrite (k_rw _ _ Hk3)].
    + intros s4 [K1 K2 K3 K4 K5 K6]. apply wp_ret. rewrite Z.sub_0_r, Z.mul_comm, Z.div_mul by lia. apply HQ; try done; [by eapply keeps_trans|rewrite K5; change (ioerr s2 = ioerr s); congruence|].
      split; [done|]. replace ((0 <? size * count) && (size * count <? 2 ^ 32)) with true by lia. unfold a_write. replace (0 <=? a_cur (view s)) with true by lia.
      split; [done|]. rewrite K6, Hv3, Hv2, Hv1. done.
    + intros l s4 K0 K1 K2 K3 K4. apply wp_ret, HE; try done; [|by eapply keeps_trans]. intros _. apply Z.div_lt_upper_bound; lia.
  - intros s1 Hs1 Hh1 Hk1 He1 Hcur Hv1. cbn [negb]. apply wp_ret. apply HQ; try done. split; [done|].
    assert (Hno : forall d r, a_write (view s) d r 0 0 (view s1)) by (intros; unfold a_write; by replace (0 <=? a_cur (view s)) with false by lia). by case_match.
  - intros s1 Hs1 Hh1 Hk1 He1. cbn [negb]. apply wp_ret. by apply HE.
Qed.

(** ** [ungetc] *)

(** A byte has been pushed back: the pointer, the handle and the number of
    bytes behind the pointer are given. *)
Definition pushed (p a c : Z) (h : H) (s : stream H) : stream H :=
  mk_stream p (aset (buffer s) (ungetc_count s) (uchar c)) (- a) (wcount s) (buf_size s) (ungetc_count s + 1) (char_buf s) (ioread s) (iowrt s) (iorw s) false
    (ioerr s) (iolbf s) (ionbf s) (ioopen s) true (iobuf s) h (errno s).

Lemma sub_aset l i c p n : 0 <= i -> i < p \/ n <= 0 -> sub (aset l i c) p n = sub l p n.
Proof.
  intros Hi Hp. unfold sub, aset. destruct (Z.leb_spec n 0) as [Hn|Hn]; [by replace (Z.to_nat n) with 0%nat by lia|]. by rewrite drop_insert_lt by lia.
Qed.

Lemma pushed_ok s p a c h : sinv s -> iowrt s = false -> ioread s = true -> iobuf s <> BufNone -> ungetc_count s < UCHAR_MAX -> ungetc_count s < buf_size s -> c <> EOF ->
  (p = ptr s /\ a = avail s /\ fpos h = fpos (hnd s) /\ (a = 0 \/ ungetc_count s + 1 <= ptr s)) \/ (p = 0 /\ a = 0 /\ fpos h = fpos (hnd s) - avail s) -> content h = content (hnd s) ->
  let m := pushed p a c h s in sinv m /\ hist m /\ keeps s m /\ a_step (Ungetc c) (view s) (uchar c) [] (view m).
Proof.
  intros Hs Hw Hr Hn Hu1 Hu2 Hc Hcase Hct m. pose proof (i_read s Hs Hw) as R. destruct (i_buf s Hs Hn) as [Hl Hsz].
  pose proof (r_uc s R). pose proof (r_avail s R). pose proof (r_ptr s R). pose proof (fpos_range h).
  assert (Ha : avail m = a) by (unfold avail; cbn; replace (ungetc_count s + 1 =? 0) with false by lia; lia).
  assert (Hfp : fpos h - a = fpos (hnd s) - avail s) by lia. split_and!; [| |done|].
  - destruct Hs as [K1 K2 K3 K4 K5 K6 K7 K8 K9 K10 K11]. split; try done.
    + by apply Forall_aset; [|apply uchar_byte].
    + intros _. cbn. by rewrite alen_aset.
    + intros _. split; rewrite ?Ha; subst m; cbn; try done; try lia.
      * apply R.
      * intros Hb. change (bbuf s = true) in Hb. pose proof (r_fits s R Hb). lia.
      * intros Hb. change (bbuf s = false) in Hb. pose proof (r_small s R Hb). lia.
      * rewrite sub_aset by lia. rewrite Hct. destruct Hcase as [(-> & -> & -> & _)|(-> & -> & _)]; [apply (r_data s R)|done].
      * by rewrite Hr.
    + intros Hx. change (iowrt s = true) in Hx. congruence.
  - intros _ _ _ Hx. done.
  - split; [done|]. left. split_and!; [done|done|]. rewrite !view_read by done. rewrite Ha. subst m. cbn. rewrite Hct, Hfp. f_equal.
    replace (Z.to_nat (ungetc_count s + 1)) with (S (Z.to_nat (ungetc_count s))) by lia. unfold aset.
    rewrite (take_S_r _ _ (uchar c)) by (apply list_lookup_insert_eq; unfold alen in Hl; lia). rewrite rev_app_distr, take_insert_ge by lia. done.
Qed.

(** The last steps of [ungetc]. *)
Definition push_byte (c : Z) (s : stream H) : stream H :=
  let m := set_ioungetc true (set_buffer (aset (buffer s) (ungetc_count s) (uchar c)) s) in
  set_ioeof false (set_ungetc_count (ungetc_count s + 1) (if ungetc_count s =? 0 then set_rcount (- rcount s) m else m)).

Lemma wp_push c s (Q : Z -> stream H -> Prop) : 0 <= ungetc_count s < alen (buffer s) -> Q (uchar c) (push_byte c s) ->
  wp (s ← mget; _ ← put (ungetc_count s) (uchar c); _ ← mmod (set_ioungetc true); _ ← mmod (fun s => if ungetc_count s =? 0 then set_rcount (- rcount s) s else s);
      _ ← mmod (fun s => set_ungetc_count (ungetc_count s + 1) s); _ ← mmod (set_ioeof false); mret (uchar c)) Q E s.
Proof.
  intros Hu HQ. apply wp_bind, wp_get, wp_bind, wp_put_byte; [done|]. do 4 apply wp_bind, wp_mod. apply wp_ret. unfold push_byte in HQ.
  change (ungetc_count (set_ioungetc true (set_buffer (aset (buffer s) (ungetc_count s) (uchar c)) s))) with (ungetc_count s). by destruct (ungetc_count s =? 0).
Qed.

Lemma push_here c s : push_byte c s = pushed (ptr s) (avail s) c (hnd s) s.
Proof. unfold push_byte, pushed, avail. destruct (Z.eqb_spec (ungetc_count s) 0) as [Hu|Hu]; [done|]. unfold set_ioeof. cbn. by rewrite Z.opp_involutive. Qed.

Lemma push_flushed c h s : sinv s -> iowrt s = false ->
  push_byte c (set_ungetc_count (ungetc_count s) (flushed h (ioerr s) s)) = pushed 0 0 c h s.
Proof.
  intros Hs Hw. pose proof (r_wcount s (i_read s Hs Hw)) as Hwc. unfold push_byte, pushed, flushed. cbn. rewrite Hwc, Hw. by destruct (ungetc_count s =? 0).
Qed.

Lemma wp_ungetc s c (Q : Z -> stream H -> Prop) : sinv s -> hist s ->
  (forall r s', sinv s' -> hist s' -> keeps s s' -> ioerr s' = ioerr s -> a_step (Ungetc c) (view s) r [] (view s') -> Q r s') ->
  (forall s', sinv s' -> hist s' -> keeps s s' -> ioerr s' = true -> Q EOF s') -> wp (ungetc c) Q E s.
Proof.
  intros Hs Hh HQ HE. unfold ungetc. apply wp_bind, wp_get. cbn beta. rewrite (i_open s Hs). cbn [negb orb].
  destruct (Z.eqb_spec c EOF) as [->|Hc]; [apply wp_ret, HQ; try done; split; [done|right]; split_and!; try done; by left|].
  destruct (iowrt s) eqn:Hw.
  { apply wp_bind, wp_mod, wp_ret, HE; try done. destruct Hs as [? ? ? ? ? ? ? ? ? Hr Hwr]. split; try done; [intros Hx; by destruct (Hr Hx)|intros Hx; by destruct (Hwr Hx)]. }
  apply wp_bind, wp_mod. destruct (set_wcount_0 s Hs Hh) as (Hs0 & Hh0 & _ & Hv0). destruct (set_ioread_ok _ Hs0 Hh0 Hw) as (Hs1 & Hh1 & Hv1). set (s1 := set_ioread true _) in *.
  apply wp_bind, wp_need_buf; [done|done|]. intros s2 Hs2 Hh2 Hn2 Hk2 Hr2 Hw2 He2 Hv2 _ _.
  assert (Hk : keeps s s2) by (eapply keeps_trans; [|exact Hk2]; done). assert (Hv : view s2 = view s) by congruence. assert (He : ioerr s2 = ioerr s) by (rewrite He2; done).
  assert (Hrd : ioread s2 = true) by by rewrite Hr2. assert (Hwr : iowrt s2 = false) by (rewrite Hw2; exact Hw). clearbody s1. clear Hr2 Hw2 He2 Hv2 Hk2 Hs1 Hh1 Hv1.
  pose proof (i_read s2 Hs2 Hwr) as R. destruct (i_buf s2 Hs2 Hn2) as [Hl Hsz]. pose proof (r_uc s2 R) as Huc.
  apply wp_bind, wp_get. cbn beta.
  assert (Hfull : ungetc_count s2 <> 0 -> Q EOF s2).
  { intros Hu. apply HQ; try done. split; [done|]. right. split_and!; [|done|done]. right. intros Hnil. pose proof (alen_back s2 Hs2 Hwr) as Hb.
    rewrite <-Hv, view_read in Hnil by done. cbn [a_back] in Hnil. rewrite Hnil in Hb. by apply Hu. }
  destruct (Z.eqb_spec (ungetc_count s2) UCHAR_MAX) as [Hu1|Hu1]; [apply wp_ret, Hfull; unfold UCHAR_MAX in *; lia|].
  destruct (Z.geb_spec (ungetc_count s2) (buf_size s2)) as [Hu2|Hu2]; [apply wp_ret, Hfull; lia|].
  assert (Hok : forall p a h, (p = ptr s2 /\ a = avail s2 /\ fpos h = fpos (hnd s2) /\ (a = 0 \/ ungetc_count s2 + 1 <= ptr s2)) \/ (p = 0 /\ a = 0 /\ fpos h = fpos (hnd s2) - avail s2) ->
     content h = content (hnd s2) -> Q (uchar c) (pushed p a c h s2)).
  { intros p a h Hcase Hct. destruct (pushed_ok s2 p a c h) as (K1 & K2 & K3 & K4); try done; [unfold UCHAR_MAX in *; lia|]. apply HQ; try done; [by eapply keeps_trans|by rewrite <-Hv]. }
  assert (Hzero : avail s2 = 0 <-> rcount s2 = 0) by (unfold avail; destruct (ungetc_count s2 =? 0); lia).
  apply wp_bind. destruct (negb (rcount s2 =? 0) && (ptr s2 <? ungetc_count s2 + 1)) eqn:Hroom.
  - rewrite is_file_law. cbn [negb]. apply wp_bind, wp_fflush; [done| |].
    + intros h Hct Hf. change (negb (0 =? 0)) with false. cbv iota. apply wp_bind, wp_mod, wp_ret. cbn [negb]. apply wp_push; [change (0 <= ungetc_count s2 < alen (buffer s2)); lia|].
      rewrite push_flushed by done. rewrite view_read in Hct, Hf by done. apply Hok; [right; by split_and!|done].
    + intros h. change (negb (EOF =? 0)) with true. cbv iota. apply wp_ret. cbn [negb]. apply wp_ret. apply HE; try done; [by apply flushed_inv|by apply empty_hist|].
      eapply keeps_trans; [exact Hk|done].
  - apply wp_ret. cbn [negb]. apply wp_push; [lia|]. rewrite push_here. apply Hok; [left|done]. split_and!; try done. apply andb_false_iff in Hroom as [Hz|Hz]; breflect; [left; tauto|right; lia].
Qed.
End Writing.
