(* ===== verification/StdioLines.v ===== *)
(** Lines and buffering: [fgets], [getdelim], [fputs], [rewind] and [setvbuf]
    on a stream of a disk file. *)

From S2P Require Import Prelude Stdio StdioSpec StdioSeek StdioRead StdioWrite.

(** The bytes up to the first delimiter, [n] of them at most. *)
Fixpoint line (n : nat) (delim : Z) (l : list Z) : list Z :=
  match n, l with
  | S n', c :: l' => if c =? delim then [c] else c :: line n' delim l'
  | _, _ => []
  end.

Section Lines.
Context {H : Type} `{HD : DiskFile H} (E : Z -> stream H -> Prop).
Implicit Types (s : stream H).

(** [s'] is [n] bytes behind [s]. *)
Definition behind (s : stream H) (n : nat) (s' : stream H) : Prop :=
  sinv s' /\ hist s' /\ keeps s s' /\ ioerr s' = ioerr s /\ view s' = a_advance n (view s).

Lemma behind_refl s : sinv s -> hist s -> behind s 0 s.
Proof. intros. split_and!; try done. by rewrite advance_0. Qed.

Lemma behind_trans s s1 s2 n m : behind s n s1 -> behind s1 m s2 -> behind s (n + m) s2.
Proof.
  intros (K1 & K2 & K3 & K4 & K5) (L1 & L2 & L3 & L4 & L5). split_and!; [done|done|by eapply keeps_trans|congruence|by rewrite L5, K5, advance_add].
Qed.

(** [getc] takes a byte or finds none. *)
Lemma wp_getc_byte s (Q : Z -> stream H -> Prop) : sinv s -> hist s ->
  (forall c k s', a_bytes (view s) = c :: k -> byte c -> behind s 1 s' -> a_bytes (view s') = k -> Q c s') ->
  (forall s', a_bytes (view s) = [] -> behind s 0 s' -> Q EOF s') ->
  (forall s', sinv s' -> hist s' -> keeps s s' -> ioerr s' = true -> Q EOF s') -> wp getc Q E s.
Proof.
  intros Hs Hh HQ HN HE. destruct (view_bounds s Hs) as [Hp _]. apply wp_getc; [done|done| |by intros; apply HE]. intros r s' K1 K2 K3 K4 K5 K6.
  apply getc_bytes in K6 as [(k & Hk & Hv)|(-> & Hnil & Hv)]; [| |lia].
  - pose proof (bytes_view s Hs) as Hb. rewrite Hk in Hb. apply Forall_cons in Hb as [Hb _]. apply (HQ r k s'); try done. rewrite Hv, bytes_advance by lia. by rewrite Hk.
  - apply HN; [done|]. split_and!; try done. by rewrite advance_0.
Qed.

Lemma line_nil n delim : line n delim [] = [].
Proof. by destruct n. Qed.

(** ** [fgets] *)

Lemma wp_fgets_loop n : forall acc s (Q : option (list Z) -> stream H -> Prop), sinv s -> hist s ->
  (forall s', let d := line n NL (a_bytes (view s)) in behind s (length d) s' -> Q (if bool_decide (acc ++ d = []) && negb (n =? 0)%nat then None else Some (acc ++ d ++ [0])) s') ->
  (forall s', sinv s' -> hist s' -> keeps s s' -> ioerr s' = true -> Q None s') -> wp (fgets_loop n acc) Q E s.
Proof.
  induction n as [|n IH]; intros acc s Q Hs Hh HQ HE.
  - apply wp_ret. specialize (HQ s (behind_refl s Hs Hh)). by rewrite andb_false_r in HQ.
  - cbn [fgets_loop]. apply wp_bind, wp_getc_byte; [done|done|intros c k s' Hk Hc Hb Hk'|intros s' Hk Hb|intros s' K1 K2 K3 K4].
    + rewrite byte_not_eof by done. rewrite Hk in HQ. cbn [line] in HQ. pose proof Hb as (K1 & K2 & K3 & K4 & K5). destruct (c =? NL).
      * apply wp_ret. specialize (HQ s' Hb). rewrite bool_decide_false in HQ by (intros [_ ?]%app_nil; done). exact HQ.
      * apply IH; [done|done| |intros; apply HE; try done; by eapply keeps_trans]. intros s2 d Hb2. subst d. rewrite Hk' in *.
        specialize (HQ s2 (behind_trans s s' s2 1 _ Hb Hb2)). rewrite bool_decide_false in HQ by (intros [_ ?]%app_nil; done).
        rewrite bool_decide_false by (rewrite <-app_assoc; intros [_ ?]%app_nil; done). rewrite <-!app_assoc. exact HQ.
    + apply wp_bind, wp_get, wp_ret. pose proof Hb as (K1 & K2 & K3 & K4 & _). destruct (ioerr s') eqn:He; [rewrite orb_true_r; by apply HE|]. rewrite orb_false_r. rewrite Hk in HQ. cbn [line] in HQ. specialize (HQ s' Hb).
      rewrite app_nil_r in HQ. cbn [negb] in HQ. by rewrite andb_true_r in HQ.
    + apply wp_bind, wp_get, wp_ret. rewrite K4, orb_true_r. by apply HE.
Qed.

Lemma wp_fgets n s (Q : option (list Z) -> stream H -> Prop) : sinv s -> hist s -> 0 < n ->
  (forall s', let d := line (Z.to_nat (n - 1)) NL (a_bytes (view s)) in behind s (length d) s' ->
     Q (if bool_decide (d = []) && negb (n =? 1) then None else Some (d ++ [0])) s') ->
  (forall s', sinv s' -> hist s' -> keeps s s' -> ioerr s' = true -> Q None s') -> wp (fgets n) Q E s.
Proof.
  intros Hs Hh Hn HQ HE. unfold fgets. replace (n <=? 0) with false by lia. apply wp_fgets_loop; try done. intros s' d Hb. specialize (HQ s' Hb). cbn [app].
  fold d in HQ. by replace (Z.to_nat (n - 1) =? 0)%nat with (n =? 1) by (destruct (Z.eqb_spec n 1), (Nat.eqb_spec (Z.to_nat (n - 1)) 0); lia).
Qed.

(** ** [fputs], [rewind] *)

Lemma wp_fputs str s (Q : Z -> stream H -> Prop) : sinv s -> hist s -> alen str < 2 ^ 32 -> Forall byte str -> iolbf s = false \/ iorw s = false ->
  (forall r s', sinv s' -> hist s' -> Q r s') -> wp (fputs str) Q E s.
Proof.
  intros Hs Hh Hl Hb Hlbf HQ. unfold fputs. cbv zeta. destruct (Z.eqb_spec (alen str) 0); [by apply wp_ret, HQ|]. pose proof (alen_nonneg str).
  apply wp_bind, wp_fwrite; try done; try lia; intros; by apply wp_ret, HQ.
Qed.

Lemma wp_rewind s (Q : unit -> stream H -> Prop) : sinv s -> hist s ->
  (forall s', sinv s' -> hist s' -> Q () s') -> wp rewind Q E s.
Proof.
  intros Hs Hh HQ. unfold rewind.
  assert (Hgo : forall h e, wp (_ ← fseek_unlocked 0 SEEK_SET; mmod (set_ioerr false)) Q E (flushed h e s)).
  { intros h e. apply wp_bind, wp_fseek; [by apply flushed_inv|by apply empty_hist| |].
    - intros r s' K1 K2 _ _ _. apply wp_mod. by apply HQ; apply set_ioerr_ok.
    - intros h'. apply wp_mod. apply HQ; apply set_ioerr_ok; try (by apply empty_hist); by apply seeked_inv, flushed_inv. }
  apply wp_bind, wp_fflush; [done| |]; intros; apply Hgo.
Qed.

(** ** [setvbuf] *)

Lemma wp_setvbuf buf mode size s (Q : Z -> stream H -> Prop) : sinv s -> hist s -> match buf with Some b => Forall byte b /\ alen b = size | None => True end ->
  (forall r s', sinv s' -> hist s' -> Q r s') -> wp (setvbuf buf mode size) Q E s.
Proof.
  intros Hs Hh Hbuf HQ. unfold setvbuf. apply wp_bind, wp_get. cbn beta. rewrite (i_open s Hs). cbn [negb orb]. destruct (negb _ && _ && _); [by apply wp_ret, HQ|].
  apply wp_bind. apply (wp_conseq _ (fun _ s' => exists h e, s' = flushed h e s) _ E); [apply wp_fflush; [done|by eauto|by eauto]| |done]. intros _ s' (h & e & ->).
  pose proof (flushed_inv h e s Hs) as Hi. pose proof (i_size _ Hi) as Hsz. apply wp_bind, wp_mod. cbn zeta.
  assert (Hdone : forall s', empty s' -> ioopen s' = true -> ioread s' = ioread s -> iowrt s' = iowrt (flushed h e s) -> iorw s' = iorw s -> Forall byte (buffer s') ->
    (iobuf s' <> BufNone -> alen (buffer s') = buf_size s' /\ 1 <= buf_size s') -> 0 <= buf_size s' <= 0x400000 -> char_buf s' = char_buf s -> (iobuf s' = BufChar -> buf_size s' = 1) ->
    forall r, Q r s').
  { intros s' He Ho Hr Hw Hrw Hb Hn Hz Hch H1 r. apply HQ; [|by apply empty_hist]. apply empty_inv; try done; rewrite ?Hr, ?Hw, ?Hrw, ?Hch; try apply Hi. }
  assert (Hby : Forall byte (buffer (flushed h e s))) by apply Hi. assert (Hop : ioopen (flushed h e s) = true) by apply Hi.
  assert (Hmal : forall n, 1 <= n <= 0x400000 -> forall g : list Z -> SM Z,
     (forall b h', Forall byte b -> alen b = n -> wp (g b) Q E (set_hnd h' (set_iobuf BufNone (set_iolbf false (set_ionbf false (flushed h e s)))))) ->
     wp (l ← call (malloc n); match l with None => mret EOF | Some b => g b end) Q E (set_iobuf BufNone (set_iolbf false (set_ionbf false (flushed h e s))))).
  { intros n Hn g Hg. apply wp_bind, wp_call. intros b h' Hm. apply malloc_law in Hm as (_ & _ & Hb); [|lia]. destruct b as [b|]; [destruct (Hb b eq_refl); by apply Hg|].
    apply wp_ret, Hdone; done. }
  destruct (mode =? IONBF).
  - apply wp_bind, wp_mod, wp_bind, wp_mod, wp_ret. apply Hdone; try done. cbn. by repeat constructor; apply Hs.
  - destruct buf as [b|].
    + destruct Hbuf as [Hb1 Hb2]. destruct ((size >=? 1) && (size <=? 0x400000)) eqn:Hok.
      * breflect. apply wp_bind, wp_mod, wp_bind, wp_mod, wp_ret. apply Hdone; try done; cbn; lia.
      * apply Hmal; [done|]. intros b' h' Hb' Hl. apply wp_bind, wp_mod, wp_bind, wp_mod, wp_ret. by apply Hdone.
    + set (n := if _ || _ then BUFSIZ else size). assert (Hn : 1 <= n <= 0x400000) by (subst n; unfold BUFSIZ; destruct ((size <? 1) || (size >? 0x400000)) eqn:Hx; [lia|]; apply orb_false_iff in Hx as []; breflect; lia).
      apply Hmal; [done|]. intros b' h' Hb' Hl. apply wp_bind, wp_mod, wp_bind, wp_mod, wp_ret. apply Hdone; try done; cbn; lia.
Qed.

(** ** [getdelim] *)

(** An allocation does not touch the stream. *)
Lemma wp_malloc n s (Q : option (list Z) -> stream H -> Prop) : 0 <= n ->
  (forall l h, content h = content (hnd s) -> fpos h = fpos (hnd s) -> Q (Some l) (set_hnd h s)) ->
  (forall h h', malloc n h = (None, h') -> content h' = content (hnd s) -> fpos h' = fpos (hnd s) -> Q None (set_hnd h' s)) -> wp (call (malloc n)) Q E s.
Proof.
  intros Hn HQ HF. apply wp_call. intros b h' Hm. pose proof Hm as Hm'. apply malloc_law in Hm' as (Hc & Hf & _); [|done]. destruct b as [l|]; [by apply HQ|by eapply HF].
Qed.

Lemma behind_handle s n s' h : behind s n s' -> content h = content (hnd s') -> fpos h = fpos (hnd s') -> behind s n (set_hnd h s').
Proof.
  intros (K1 & K2 & K3 & K4 & K5) Hc Hf. destruct (same_handle s' h Hc Hf) as (L1 & L2 & L3). split_and!; [by apply L1|by apply L2| |done|by rewrite L3]. destruct K3. by split.
Qed.

Definition no_memory : Prop := exists n h h', malloc n h = (None, h').

Lemma grow_more cap : 1 <= cap <= 2 ^ 31 -> cap < grow cap.
Proof. intros Hc. unfold grow. destruct (Z.ltb_spec cap (1024 * 1024)); unfold u32; rewrite Z.mod_small; lia. Qed.

Section Getdelim.
Context (delim : Z) (Q : Z * list Z * Z -> stream H -> Prop).
Context (HF : forall x s', sinv s' -> hist s' -> ioerr s' = true \/ no_memory -> Q x s').

Lemma wp_getdelim_loop fuel : forall cap acc s, sinv s -> hist s -> (length (a_bytes (view s)) < fuel)%nat -> alen acc + 1 <= cap -> alen acc + alen (a_bytes (view s)) < 2 ^ 31 ->
  (forall s' cap', let d := line (length (a_bytes (view s))) delim (a_bytes (view s)) in behind s (length d) s' -> alen (acc ++ d ++ [0]) <= cap' ->
     Q (if bool_decide (acc ++ d = []) then -1 else alen (acc ++ d), acc ++ d ++ [0], cap') s') ->
  wp (getdelim_loop fuel delim cap acc) Q E s.
Proof.
  induction fuel as [|fuel IH]; intros cap acc s Hs Hh Hfuel Hcap Hsmall HQ; [lia|]. pose proof (alen_nonneg acc) as Hacc.
  cbn [getdelim_loop]. apply wp_bind, wp_getc_byte; [done|done|intros c k s1 Hk Hc Hb Hk'|intros s1 Hk Hb|intros s1 K1 K2 K3 K4; apply wp_ret, HF; try done; by left].
  - rewrite byte_not_eof by done. rewrite Hk in *. rewrite alen_cons in Hsmall. pose proof (alen_nonneg k) as Hkn. cbn [line length] in HQ. apply wp_bind.
    assert (Hgo : forall s2 cap2, behind s 1 s2 -> a_bytes (view s2) = k -> alen acc + 2 <= cap2 ->
       wp (if alen acc <? cap2 - 1 then if c =? delim then mret (alen acc + 1, acc ++ [c; 0], cap2) else getdelim_loop fuel delim cap2 (acc ++ [c]) else mfail Ub) Q E s2).
    { intros s2 cap2 Hb2 Hk2 Hcap2. replace (alen acc <? cap2 - 1) with true by lia. destruct (c =? delim).
      - apply wp_ret. specialize (HQ s2 cap2 Hb2). rewrite bool_decide_false in HQ by (intros [_ ?]%app_nil; done). rewrite (alen_app acc [c]) in HQ. apply HQ. rewrite alen_app. change (alen ([c] ++ [0])) with 2. lia.
      - pose proof Hb2 as (K1 & K2 & K3 & K4 & K5). apply IH; [done|done|rewrite Hk2; cbn [length] in Hfuel; lia|rewrite alen_app; change (alen [c]) with 1; lia|rewrite Hk2, alen_app; change (alen [c]) with 1; lia|].
        rewrite Hk2. intros s3 cap3 d Hb3 Hcap3. specialize (HQ s3 cap3 (behind_trans s s2 s3 1 _ Hb2 Hb3)). rewrite bool_decide_false in HQ by (intros [_ ?]%app_nil; done).
        rewrite bool_decide_false by (rewrite <-app_assoc; intros [_ ?]%app_nil; done). subst d. rewrite <-!app_assoc in *. by apply HQ. }
    destruct (Z.eqb_spec (alen acc) (cap - 1)) as [Hfull|Hroom].
    + assert (Hg : cap < grow cap) by (apply grow_more; lia). apply wp_bind, wp_malloc; [lia| |].
      * intros l h Hct Hf. apply wp_ret. apply Hgo; [by apply behind_handle| |lia]. destruct (same_handle s1 h Hct Hf) as (_ & _ & ->). done.
      * intros h h' Hm Hct Hf. apply wp_ret, wp_ret. destruct (behind_handle s 1 s1 h' Hb Hct Hf) as (K1 & K2 & _). apply HF; [done|done|right]. by eexists _, _, _.
    + apply wp_ret. apply Hgo; [done|done|lia].
  - apply wp_ret. rewrite Hk in *. cbn [line length] in HQ. specialize (HQ s1 cap Hb). rewrite app_nil_r in HQ. apply HQ. change ([] ++ [0]) with [0]. rewrite alen_app. change (alen [0]) with 1. lia.
Qed.
End Getdelim.

Lemma wp_getdelim fuel delim cap s (Q : option (Z * list Z * Z) -> stream H -> Prop) : sinv s -> hist s ->
  (length (a_bytes (view s)) < fuel)%nat -> alen (a_bytes (view s)) < 2 ^ 31 -> match cap with Some n => 0 <= n | None => True end ->
  (forall x s', sinv s' -> hist s' -> ioerr s' = true \/ no_memory -> Q x s') ->
  (forall s' cap', let d := line (length (a_bytes (view s))) delim (a_bytes (view s)) in behind s (length d) s' -> alen (d ++ [0]) <= cap' ->
     Q (Some (if bool_decide (d = []) then -1 else alen d, d ++ [0], cap')) s') ->
  wp (getdelim fuel delim cap) Q E s.
Proof.
  intros Hs Hh Hfuel Hsmall Hcap HF HQ. unfold getdelim. apply wp_bind.
  assert (Hgo : forall n s1, 1 <= n -> behind s 0 s1 -> wp (r ← getdelim_loop fuel delim n []; mret (Some r)) Q E s1).
  { intros n s1 Hn Hb. pose proof Hb as (K1 & K2 & K3 & K4 & K5). rewrite advance_0 in K5. apply wp_bind, wp_getdelim_loop; rewrite ?K5; try done.
    - intros x s' L1 L2 L3. by apply wp_ret, HF.
    - intros s' cap' d Hb' Hc. apply wp_ret. apply HQ; [|done]. by apply (behind_trans s s1 s' 0). }
  assert (Hnew : wp (b ← call (malloc 128); mret (match b with Some _ => Some 128 | None => None end) : SM (option Z))
    (fun cap => wp (match cap with None => mret None | Some cap => r ← getdelim_loop fuel delim cap []; mret (Some r) end) Q E) E s).
  { pose proof (behind_refl s Hs Hh) as Hb. apply wp_bind, wp_malloc; [done| |].
    - intros l h Hct Hf. apply wp_ret. apply Hgo; [done|by apply behind_handle].
    - intros h h' Hm Hct Hf. apply wp_ret, wp_ret. destruct (behind_handle s 0 s h' Hb Hct Hf) as (K1 & K2 & _). apply HF; [done|done|right]. by eexists _, _, _. }
  destruct cap as [n|]; [|exact Hnew]. destruct (Z.eqb_spec n 0); [exact Hnew|]. apply wp_ret, Hgo; [lia|by apply behind_refl].
Qed.
End Lines.
