(* ===== verification/StdioProps.v ===== *)
(** The theorems on streams: whatever is called, a stream stays well formed
    and, up to the first error, reads, writes and seeks like the abstract
    stream. The cases where it does not are lost and wrong bytes. *)

From S2P Require Import Prelude Stdio StdioSpec StdioSeek StdioRead StdioWrite StdioLines.

Section Steps.
Context {H : Type} `{HD : DiskFile H}.
Implicit Types (s : stream H).

(** The function of an operation: the result and the bytes stored. *)
Definition exec (o : op) : SM (Z * list Z) :=
  let plain (m : SM Z) := r ← m; mret (r, []) in
  match o with
  | Getc => plain getc
  | Putc c => plain (putc c)
  | Ungetc c => plain (ungetc c)
  | Fread size count => fread_unlocked size count
  | Fwrite src size count => plain (fwrite_unlocked src size count)
  | Fseek offset origin => plain (fseek_unlocked offset origin)
  | Ftell => plain ftello_unlocked
  | Fflush => plain fflush_unlocked
  end.

(** What a caller has to keep to: the arguments are of the C types, with no
    more bytes than an [int] counts; a stream for both directions is not read
    while it writes; a stream for reading only is not read by more than [BUFSIZ]
    bytes at once ([big_read_then_seek_wrong]); and a stream for both directions
    with line buffering is not written by [fwrite] ([line_buffered_tail_lost]). *)
Definition op_ok (o : op) (s : stream H) : Prop :=
  match o with
  | Fread size count => 0 <= size < 2 ^ 32 /\ 0 <= count < 2 ^ 32 /\ size * count < 2 ^ 31 /\ (iowrt s = false \/ iorw s = false) /\ (size * count <= BUFSIZ \/ iorw s = true)
  | Fwrite src size count => 0 <= size < 2 ^ 32 /\ 0 <= count < 2 ^ 32 /\ size * count < 2 ^ 31 /\ alen src = size * count /\ Forall byte src /\ (iolbf s = false \/ iorw s = false)
  | _ => True
  end.

(** What a call that failed returns. *)
Definition err_result (o : op) (r : Z) : Prop := match o with Getc | Putc _ | Ungetc _ | Fseek _ _ | Fflush => r = EOF | _ => True end.

(** What a step comes to. *)
Definition step_post (o : op) (s : stream H) (x : Z * list Z) (s' : stream H) : Prop :=
  sinv s' /\ hist s' /\
  ((ioerr s' = ioerr s /\ a_step o (view s) x.1 x.2 (view s') /\ (o = Fflush -> content (hnd s') = a_data (view s'))) \/ (ioerr s' = true /\ err_result o x.1)).

Lemma wp_exec o s : sinv s -> hist s -> op_ok o s -> wp (exec o) (step_post o s) (fun _ _ => False) s.
Proof.
  intros Hs Hh Hok. destruct o as [|c|c|size count|src size count|off origin| |]; unfold exec; cbn zeta.
  - apply wp_bind, wp_getc; try done; intros; apply wp_ret; split_and!; try done; [by left|by right].
  - apply wp_bind, wp_putc; try done; intros; apply wp_ret; split_and!; try done; [by left|by right].
  - apply wp_bind, wp_ungetc; try done; intros; apply wp_ret; split_and!; try done; [by left|by right].
  - destruct Hok as (? & ? & _ & ? & ?). apply wp_fread; try done; intros; split_and!; try done; [by left|by right].
  - destruct Hok as (? & ? & _ & ? & ? & ?). apply wp_bind, wp_fwrite; try done; intros; apply wp_ret; split_and!; try done; [by left|by right].
  - apply wp_bind, wp_fseek; try done; intros; apply wp_ret; [split_and!; try done; by left|].
    split_and!; [by apply seeked_inv|by apply empty_hist|by right].
  - apply wp_bind, wp_ftello; try done. apply wp_ret. split_and!; try done. by left.
  - apply wp_bind, wp_fflush; try done; intros; apply wp_ret; (split_and!; [by apply flushed_inv|by apply empty_hist|]); [left|by right].
    rewrite flushed_view. split_and!; [done| |done]. split; [done|]. cbn [fst]. split; [done|]. congruence.
Qed.

(** C14: Every call that keeps to [op_ok], on a stream on a binary disk file
    whose writes take all of their bytes or none, returns, keeps the stream well
    formed, and either does what the abstract stream does (and a flushed stream
    has its bytes in the file) or sets the error indicator and fails. [op_ok]
    leaves out reads of 2^31 bytes and more, a read directly behind a write, and
    two kinds of calls that the code gets wrong: reads of more than [BUFSIZ]
    bytes on streams for reading only, and [fwrite] on line-buffered streams for
    both directions. Text and append mode and short writes, whose rest is lost
    ([short_flush_drops]), are left out by the laws of the file. *)
Theorem stdio_simulates o s : sinv s -> hist s -> op_ok o s ->
  exists x s', exec o s = Done x s' /\ sinv s' /\ hist s' /\
    ((ioerr s' = ioerr s /\ a_step o (view s) x.1 x.2 (view s') /\ (o = Fflush -> content (hnd s') = a_data (view s'))) \/ (ioerr s' = true /\ err_result o x.1)).
Proof.
  intros Hs Hh Hok. pose proof (wp_exec o s Hs Hh Hok) as Hw. unfold wp in Hw. destruct (exec o s) as [x s'|e s'|f]; [|done|done]. by exists x, s'.
Qed.

(** Runs of a stream and of the abstract stream. *)
Inductive run : list op -> stream H -> list (Z * list Z) -> stream H -> Prop :=
  | run_nil s : run [] s [] s
  | run_cons o os x xs s s1 s2 : op_ok o s -> exec o s = Done x s1 -> run os s1 xs s2 -> run (o :: os) s (x :: xs) s2.
End Steps.

Inductive a_run : list op -> astream -> list (Z * list Z) -> astream -> Prop :=
  | a_run_nil A : a_run [] A [] A
  | a_run_cons o os x xs A B C : a_step o A x.1 x.2 B -> a_run os B xs C -> a_run (o :: os) A (x :: xs) C.

Section Runs.
Context {H : Type} `{HD : DiskFile H}.
Implicit Types (s : stream H).

Lemma run_refines os s xs s' : sinv s -> hist s -> run os s xs s' -> ioerr s' = false -> sinv s' /\ hist s' /\ ioerr s = false /\ a_run os (view s) xs (view s').
Proof.
  intros Hs Hh Hrun. induction Hrun as [s|o os x xs s s1 s2 Hok Hex Hrun IH]; intros He; [split_and!; [done|done|done|apply a_run_nil]|].
  pose proof (wp_exec o s Hs Hh Hok) as Hw. unfold wp in Hw. rewrite Hex in Hw. destruct Hw as (Hs1 & Hh1 & Hstep). destruct (IH Hs1 Hh1 He) as (Hs2 & Hh2 & He1 & Har).
  destruct Hstep as [(Heq & Ha & _)|(Herr & _)]; [|congruence]. split_and!; [done|done|congruence|by eapply a_run_cons].
Qed.

(** A stream as [_newstream] hands it out. *)
Definition fresh (s : stream H) : Prop :=
  ptr s = 0 /\ buffer s = [] /\ rcount s = 0 /\ wcount s = 0 /\ buf_size s = 0 /\ ungetc_count s = 0 /\ char_buf s = 0.

Lemma opened_ok sopen mode s s' : fresh s -> openstream sopen mode s = Done true s' ->
  sinv s' /\ hist s' /\ ioerr s' = false /\ view s' = mk_a (content (hnd s')) (fpos (hnd s')) [].
Proof.
  intros (F1 & F2 & F3 & F4 & F5 & F6 & F7).
  assert (Hw : wp (openstream sopen mode) (fun ok s' => ok = true -> sinv s' /\ hist s' /\ ioerr s' = false /\ view s' = mk_a (content (hnd s')) (fpos (hnd s')) []) (fun _ _ => True) s).
  { unfold openstream. destruct (match mode with [] => None | _ => _ end) as [[rd omode]|]; [|by apply wp_bind, wp_mod, wp_bind, wp_mod, wp_ret].
    destruct (mode_loop (tail mode) false false omode) as [rw om]. apply wp_bind, wp_mod, wp_bind, wp_call. intros ok h Ho.
    destruct ok; [apply wp_ret; intros _|by apply wp_bind, wp_mod, wp_ret]. set (m := set_hnd h _). assert (He : empty m) by by split.
    split_and!; [|by apply empty_hist|done|by apply empty_view]. apply empty_inv; try done; subst m; cbn; rewrite ?F2, ?F5, ?F7; try done.
    - by destruct rd, rw.
    - intros ->. destruct rd; [by left|by right]. }
  unfold wp in Hw. destruct (openstream sopen mode s) as [ok s2|e s2|x]; [|done|done]. intros [= -> ->]. by apply Hw.
Qed.

(** C3: A stream that has been opened on a binary disk file reads, writes and
    seeks like the abstract stream on its file: if the error indicator is clear
    behind a run of calls that keep to [op_ok], every result and every byte were
    those of the abstract stream. A write to the file takes all of its bytes or
    none ([write_law]). Not covered, as in C14: text and append mode, short
    writes, transfers of 2^31 bytes and more, a read directly behind a write,
    reads of more than [BUFSIZ] bytes on streams for reading only, and [fwrite]
    on line-buffered streams for both directions; the last two and short writes
    the code gets wrong. *)
Theorem stdio_refines sopen mode s0 s os xs s' : fresh s0 -> openstream sopen mode s0 = Done true s -> run os s xs s' -> ioerr s' = false ->
  a_run os (mk_a (content (hnd s)) (fpos (hnd s)) []) xs (view s').
Proof. intros Hf Ho Hrun He. destruct (opened_ok sopen mode s0 s Hf Ho) as (Hs & Hh & _ & <-). by apply run_refines. Qed.
End Runs.

(** ** All functions *)

Inductive fn :=
  | Op (o : op) | Rewind | Setvbuf (buf : option (list Z)) (mode size : Z) | Fgets (n : Z) | Fputs (str : list Z) | Getdelim (fuel : nat) (delim : Z) (cap : option Z).

Section Typed.
Context {H : Type} `{HD : DiskFile H}.
Implicit Types (s : stream H).

Definition exec_fn (f : fn) : SM unit :=
  match f with
  | Op o => _ ← exec o; mret ()
  | Rewind => rewind
  | Setvbuf buf mode size => _ ← setvbuf buf mode size; mret ()
  | Fgets n => _ ← fgets n; mret ()
  | Fputs str => _ ← fputs str; mret ()
  | Getdelim fuel delim cap => _ ← getdelim fuel delim cap; mret ()
  end.

Definition fn_ok (f : fn) (s : stream H) : Prop :=
  match f with
  | Op o => op_ok o s
  | Rewind => True
  | Setvbuf buf mode size => match buf with Some b => Forall byte b /\ alen b = size | None => True end
  | Fgets n => True
  | Fputs str => alen str < 2 ^ 32 /\ Forall byte str /\ (iolbf s = false \/ iorw s = false)
  | Getdelim fuel delim cap => (length (a_bytes (view s)) < fuel)%nat /\ alen (a_bytes (view s)) < 2 ^ 31 /\ match cap with Some n => 0 <= n | None => True end
  end.

Lemma wp_exec_fn f s : sinv s -> hist s -> fn_ok f s -> wp (exec_fn f) (fun _ s' => sinv s' /\ hist s') (fun _ _ => False) s.
Proof.
  intros Hs Hh Hok. destruct f as [o| |buf mode size|n|str|fuel delim cap]; cbn [exec_fn fn_ok] in *.
  - apply wp_bind. eapply wp_conseq; [by apply wp_exec| |done]. intros x s' (? & ? & _). by apply wp_ret.
  - by apply wp_rewind.
  - by apply wp_bind, wp_setvbuf.
  - apply wp_bind. destruct (Z.leb_spec n 0) as [Hn|Hn]; [unfold fgets; replace (n <=? 0) with true by lia; by do 2 apply wp_ret|].
    apply wp_fgets; try done. intros s' d (? & ? & _). by apply wp_ret.
  - destruct Hok as (? & ? & ?). by apply wp_bind, wp_fputs.
  - destruct Hok as (? & ? & ?). apply wp_bind, wp_getdelim; try done. intros s' cap' d (? & ? & _) _. by apply wp_ret.
Qed.

(** C15: A call of a stream function that keeps to [fn_ok], on a well-formed
    stream on a binary disk file whose writes take all of their bytes or none,
    does not fault (no access outside a buffer, no endless loop), and the stream
    stays well formed. [fn_ok] leaves out what [op_ok] does, and [fputs] on
    line-buffered streams for both directions: behind reads of more than
    [BUFSIZ] bytes and line-buffered writes the stream is not well formed. *)
Theorem stdio_well_formed f s : sinv s -> hist s -> fn_ok f s -> exists s', exec_fn f s = Done () s' /\ sinv s' /\ hist s'.
Proof.
  intros Hs Hh Hok. pose proof (wp_exec_fn f s Hs Hh Hok) as Hw. unfold wp in Hw. destruct (exec_fn f s) as [[] s'|e s'|x]; [|done|done]. by exists s'.
Qed.

(** ** Lines *)

(** [fgets] stores the bytes up to the next newline, at most [n - 1] of
    them, and a zero; at the end of the file it returns NULL. *)
Theorem fgets_line n s : sinv s -> hist s -> ioerr s = false -> 0 < n ->
  exists r s', fgets n s = Done r s' /\ sinv s' /\
    (ioerr s' = false -> let d := line (Z.to_nat (n - 1)) NL (a_bytes (view s)) in
       r = (if bool_decide (d = []) && negb (n =? 1) then None else Some (d ++ [0])) /\ view s' = a_advance (length d) (view s)) /\
    (ioerr s' = true -> r = None).
Proof.
  intros Hs Hh He Hn.
  assert (Hw : wp (fgets n) (fun r s' => sinv s' /\ (ioerr s' = false -> let d := line (Z.to_nat (n - 1)) NL (a_bytes (view s)) in
       r = (if bool_decide (d = []) && negb (n =? 1) then None else Some (d ++ [0])) /\ view s' = a_advance (length d) (view s)) /\ (ioerr s' = true -> r = None)) (fun _ _ => False) s).
  { apply wp_fgets; try done.
    - intros s' d (K1 & K2 & K3 & K4 & K5). split_and!; [done|done|congruence].
    - intros s' K1 K2 K3 K4. split_and!; [done|congruence|done]. }
  unfold wp in Hw. destruct (fgets n s) as [r s'|e s'|x]; [|done|done]. by exists r, s'.
Qed.

(** While there is memory and no read fails, [getdelim] stores the bytes
    up to the next delimiter and a zero in a buffer that is large enough, and
    returns their number, or -1 at the end of the file. *)
Theorem getdelim_line fuel delim cap s : (forall n h h', malloc n h <> (None, h')) -> sinv s -> hist s ->
  (length (a_bytes (view s)) < fuel)%nat -> alen (a_bytes (view s)) < 2 ^ 31 -> match cap with Some n => 0 <= n | None => True end ->
  exists r s', getdelim fuel delim cap s = Done r s' /\ sinv s' /\
    (ioerr s' = false -> let d := line (length (a_bytes (view s))) delim (a_bytes (view s)) in
       exists cap', r = Some (if bool_decide (d = []) then -1 else alen d, d ++ [0], cap') /\ alen (d ++ [0]) <= cap' /\ view s' = a_advance (length d) (view s)).
Proof.
  intros Hmem Hs Hh Hf Hl Hc.
  assert (Hw : wp (getdelim fuel delim cap) (fun r s' => sinv s' /\ (ioerr s' = false -> let d := line (length (a_bytes (view s))) delim (a_bytes (view s)) in
       exists cap', r = Some (if bool_decide (d = []) then -1 else alen d, d ++ [0], cap') /\ alen (d ++ [0]) <= cap' /\ view s' = a_advance (length d) (view s))) (fun _ _ => False) s).
  { apply wp_getdelim; try done.
    - intros x s' K1 K2 K3. split; [done|]. intros He. destruct K3 as [?|(m & h & h' & Hm)]; [congruence|by apply Hmem in Hm].
    - intros s' cap' d (K1 & K2 & K3 & K4 & K5) K6. split; [done|]. intros _. by exists cap'. }
  unfold wp in Hw. destruct (getdelim fuel delim cap s) as [r s'|e s'|x]; [|done|done]. by exists r, s'.
Qed.
End Typed.

(** ** Streams on the disk of the examples *)

Definition new_stream (l : list Z) (short : list nat) : stream disk :=
  mk_stream 0 [] 0 0 0 0 0 false false false false false false false false false BufNone (mk_disk l 0 short) 0.

Definition disk_sopen (omode : Z) (h : disk) : bool * disk := (true, h).

(** What a call left; the stream of the other cases is never looked at. *)
Definition left_by {A} (r : outcome (stream disk) A) : stream disk := match r with Done _ s => s | _ => new_stream [] [] end.

Definition value {A} (r : outcome (stream disk) A) : option A := match r with Done x _ => Some x | _ => None end.

Definition opened (mode l : list Z) (short : list nat) : stream disk := left_by (openstream disk_sopen mode (new_stream l short)).

Lemma disk_opened mode l short : openstream disk_sopen mode (new_stream l short) = Done true (opened mode l short) -> sinv (opened mode l short) /\ hist (opened mode l short).
Proof. intros Ho. by destruct (opened_ok disk_sopen mode (new_stream l short) _ ltac:(done) Ho) as (? & ? & _). Qed.

Lemma disk_memory n (h h' : disk) : malloc n h <> (None, h').
Proof. done. Qed.

Lemma stdio_simulates_witness :
  let s := opened [114; 43] [104; 105] [] in
  exists x s', exec (Fread 1 2) s = Done x s' /\ sinv s' /\ hist s' /\
    ((ioerr s' = ioerr s /\ a_step (Fread 1 2) (view s) x.1 x.2 (view s') /\ (Fread 1 2 = Fflush -> content (hnd s') = a_data (view s'))) \/ (ioerr s' = true /\ err_result (Fread 1 2) x.1)).
Proof.
  apply (stdio_simulates (Fread 1 2)); [by apply disk_opened; vm_compute|by apply disk_opened; vm_compute|].
  split_and!; [done|done|done|done|done|by left|by left].
Defined.

(** A run that can be evaluated. *)
Definition done_b {A} (r : outcome (stream disk) A) : bool := match r with Done _ _ => true | _ => false end.
Definition plain_op (o : op) : bool := match o with Fread _ _ | Fwrite _ _ _ => false | _ => true end.

Fixpoint runs_b (os : list op) (s : stream disk) : bool :=
  match os with [] => true | o :: os' => plain_op o && done_b (exec o s) && runs_b os' (left_by (exec o s)) end.
Fixpoint results (os : list op) (s : stream disk) : list (Z * list Z) :=
  match os with [] => [] | o :: os' => match exec o s with Done x _ => x | _ => (0, []) end :: results os' (left_by (exec o s)) end.
Fixpoint final (os : list op) (s : stream disk) : stream disk :=
  match os with [] => s | o :: os' => final os' (left_by (exec o s)) end.

Lemma runs_ok os : forall s, runs_b os s = true -> run os s (results os s) (final os s).
Proof.
  induction os as [|o os IH]; intros s Hr; [apply run_nil|]. cbn in Hr |- *. apply andb_true_iff in Hr as [[Ho Hd]%andb_true_iff Hr].
  apply (run_cons o os _ _ s (left_by (exec o s))); [by destruct o| |by apply IH]. by destruct (exec o s).
Qed.

(** "hi" is read, a byte pushed back and read again, the rest overwritten. *)
Definition demo : list op := [Getc; Ungetc 120; Getc; Ftell; Fseek 0 SEEK_END; Putc 33; Putc 10; Fflush; Fseek 0 SEEK_SET; Getc; Getc; Getc; Getc; Getc].

Example demo_results : results demo (opened [114; 43] [104; 105] []) =
  [(104, []); (120, []); (120, []); (1, []); (0, []); (33, []); (10, []); (0, []); (0, []); (104, []); (105, []); (33, []); (10, []); (-1, [])].
Proof. by vm_compute. Qed.

Lemma stdio_refines_witness :
  let s := opened [114; 43] [104; 105] [] in a_run demo (mk_a (content (hnd s)) (fpos (hnd s)) []) (results demo s) (view (final demo s)).
Proof.
  apply (stdio_refines disk_sopen [114; 43] (new_stream [104; 105] []) (opened [114; 43] [104; 105] []) demo (results demo (opened [114; 43] [104; 105] []))).
  - done.
  - by vm_compute.
  - by apply runs_ok; vm_compute.
  - by vm_compute.
Defined.

Lemma stdio_well_formed_witness :
  let s := opened [119] [] [] in exists s', exec_fn (Setvbuf None IOLBF 16) s = Done () s' /\ sinv s' /\ hist s'.
Proof. apply (stdio_well_formed (Setvbuf None IOLBF 16)); [by apply disk_opened; vm_compute|by apply disk_opened; vm_compute|done]. Defined.

Lemma fgets_line_witness :
  let s := opened [114] [97; 10; 98] [] in
  exists r s', fgets 8 s = Done r s' /\ sinv s' /\
    (ioerr s' = false -> let d := line (Z.to_nat (8 - 1)) NL (a_bytes (view s)) in
       r = (if bool_decide (d = []) && negb (8 =? 1) then None else Some (d ++ [0])) /\ view s' = a_advance (length d) (view s)) /\
    (ioerr s' = true -> r = None).
Proof. apply (fgets_line 8); [by apply disk_opened; vm_compute|by apply disk_opened; vm_compute|by vm_compute|done]. Defined.

Lemma getdelim_line_witness :
  let s := opened [114] [97; 58; 98] [] in
  exists r s', getdelim 4 58 (Some 2) s = Done r s' /\ sinv s' /\
    (ioerr s' = false -> let d := line (length (a_bytes (view s))) 58 (a_bytes (view s)) in
       exists cap', r = Some (if bool_decide (d = []) then -1 else alen d, d ++ [0], cap') /\ alen (d ++ [0]) <= cap' /\ view s' = a_advance (length d) (view s)).
Proof.
  apply (getdelim_line 4 58 (Some 2)); [apply disk_memory|by apply disk_opened; vm_compute|by apply disk_opened; vm_compute|vm_compute; lia|by vm_compute|done].
Defined.

(** ** Where the code goes wrong *)

(** A line-buffered stream for both directions: what follows the last newline
    of an [fwrite] is put into the buffer of a stream that has left write mode,
    and [fflush] drops it. *)
Lemma line_buffered_tail_lost :
  let s0 := left_by (setvbuf None IOLBF 16 (opened [119; 43] [] [])) in
  let s1 := left_by (fwrite_unlocked [97; 10; 98] 1 3 s0) in
  let s2 := left_by (fflush_unlocked s1) in
  value (fwrite_unlocked [97; 10; 98] 1 3 s0) = Some 3 /\ value (fflush_unlocked s1) = Some 0 /\ ioerr s2 = false /\ content (hnd s2) = [97; 10] /\ ptr s2 = 0.
Proof. by vm_compute. Qed.

(** An [fread] that ends with bytes read straight into the caller's memory
    leaves an old buffer behind, and [fseek] moves the pointer within it: 8192
    zeros are followed by ones, the one at position 24476 is read as a zero. *)
Lemma big_read_then_seek_wrong :
  let s0 := opened [114] (replicate 8192 0 ++ replicate 16384 1) [] in
  let s1 := left_by (getc s0) in
  let s2 := left_by (fread_unlocked 1 24575 s1) in
  let s3 := left_by (fseek_unlocked 24476 SEEK_SET s2) in
  value (ftello_unlocked s2) = Some 24576 /\ value (fseek_unlocked 24476 SEEK_SET s2) = Some 0 /\ value (ftello_unlocked s3) = Some 24476 /\
    value (getc s3) = Some 0 /\ aget (content (hnd s3)) 24476 = Some 1.
Proof. by vm_compute. Qed.

(** A read that fails behind some bytes is no error for [getdelim]. *)
Lemma getdelim_hides_error :
  let s0 := opened [114] [97; 98; 99] [2; 0]%nat in
  let s1 := left_by (getdelim 4 58 None s0) in
  value (getdelim 4 58 None s0) = Some (Some (2, [97; 98; 0], 128)) /\ ioerr s1 = true.
Proof. by vm_compute. Qed.

(** A write of which the handle took a part is no error for [fflush], which
    empties the buffer. *)
Lemma short_flush_drops {H} `{Handle H} (s : stream H) d w h' : iowrt s = true -> ioread s = false -> ungetc_count s = 0 -> bbuf s = true -> 0 < ptr s <= alen (buffer s) ->
  stream_write (take (Z.to_nat (ptr s)) (buffer s)) (hnd s) = (w, h') -> 0 < w < ptr s -> d = drop (Z.to_nat w) (take (Z.to_nat (ptr s)) (buffer s)) ->
  d <> [] /\ exists s', fflush_unlocked s = Done 0 s' /\ hnd s' = h' /\ ptr s' = 0 /\ ioerr s' = ioerr s.
Proof.
  intros Hw Hr Hu Hb Hp Hwr Hs ->. split; [intros Hnil; apply (f_equal length) in Hnil; rewrite length_drop, length_take in Hnil; cbn in Hnil; unfold alen in Hp; lia|].
  assert (Hgo : wp fflush_unlocked (fun r s' => r = 0 /\ hnd s' = h' /\ ptr s' = 0 /\ ioerr s' = ioerr s) (fun _ _ => False) s).
  { unfold fflush_unlocked. apply wp_bind, wp_get. cbn beta. rewrite Hw, Hb. replace (ptr s >? 0) with true by lia. cbn [andb].
    apply wp_bind, wp_bind. unfold slice. apply wp_bind, wp_get. cbn beta. replace (ptr s <=? 0) with false by lia. replace ((0 <=? 0) && (0 + ptr s <=? alen (buffer s))) with true by lia.
    apply wp_ret. change (drop (Z.to_nat 0) (buffer s)) with (buffer s). apply wp_bind, wp_call. intros w' h2 Hw2. rewrite Hwr in Hw2. injection Hw2 as <- <-.
    replace (w <=? 0) with false by lia. apply wp_ret, wp_bind, wp_mod. cbn beta. change (ungetc_count (set_hnd h' s)) with (ungetc_count s). rewrite Hu. change (negb (0 =? 0)) with false. cbv iota.
    apply wp_bind, wp_mod, wp_bind, wp_get. cbn beta. change (ioread (set_ioungetc false (set_hnd h' s))) with (ioread s). rewrite Hr. cbn [andb].
    apply wp_bind, wp_when; [done|]. intros _. apply wp_bind, wp_mod, wp_bind, wp_mod, wp_ret. cbn. rewrite Hw. by destruct (iorw s). }
  unfold wp in Hgo. destruct (fflush_unlocked s) as [r s'|e s'|x]; [|done|done]. destruct Hgo as (-> & ? & ? & ?). by exists s'.
Qed.
