(* ===== verification/Spm.v ===== *)
(** The shared process manager: the process list, child notifications and
    signal queues of [src/src/emx/src/lib/sys/sharedpm.c].

    All processes share one memory block: a header ([spm]) and a pool of
    blocks.  The record keeps what the header and the blocks in the pool hold:
    the process blocks by address, chained into one list per state
    ([apHeads]), the notification and signal blocks with the list that owns
    them, and the pool itself, which is used through the class [SpmPool].  Two
    more fields belong to the process that runs the code: its [gpSPMSelf] and
    the answers of the operating system to come.

    The doubly linked lists of processes are lists of addresses and taking a
    process out of a list it is not in is [Ub]; a block that has been given
    back to the pool is no longer in [procs], so that every later access is
    [Ub].  [ppChildNotifyTail] is the number of [pNext] hops to the pointer it
    points to.  The fields [uVersion], [pvModuleHead], [ppvModuleTail],
    [pacTcpipRefs] and the reserved ones are left out, and [cPoolPointers] is
    its only value, 2. *)

From S2P Require Import Prelude Creds.

(** ** The memory pool *)

(** What the process manager needs of the pool: [spmAllocSub] and [spmFree]. *)
Class SpmPool (P : Type) := {
  pool_alloc : Z -> M P (option Z);
  pool_free : Z -> M P Z
}.

(** What they promise: the blocks handed out are distinct, and are there until
    they are freed. *)
Class SpmPoolLaws (P : Type) `{SpmPool P} := {
  pool_ok : P -> Prop;
  pool_used : P -> gset Z;
  pool_used_pos m a : pool_ok m -> a ∈ pool_used m -> 0 < a;
  pool_alloc_law m sz :
    pool_ok m -> 16 <= sz -> sz mod 8 = 0 ->
    exists r m', pool_alloc sz m = Done r m' /\ pool_ok m' /\
      match r with
      | None => pool_used m' = pool_used m
      | Some a => a ∉ pool_used m /\ pool_used m' = {[a]} ∪ pool_used m
      end;
  pool_free_law m a :
    pool_ok m -> a ∈ pool_used m ->
    exists m', pool_free a m = Done 0 m' /\ pool_ok m' /\
      pool_used m' = pool_used m ∖ {[a]};
  pool_free_null m : pool_free 0 m = Done 0 m
}.

(** ** The data of InnoTekLIBC/sharedpm.h *)

Inductive SPMPROCSTAT :=
  | PROCSTATE_FREE | PROCSTATE_EMBRYO | PROCSTATE_ALIVE | PROCSTATE_ZOMBIE
  | PROCSTATE_RESERVED.
#[export] Instance SPMPROCSTAT_eq : EqDecision SPMPROCSTAT.
Proof. solve_decision. Defined.

Definition EXIT_REASON_NONE : Z := 0.
Definition SIGCONT : Z := 19.
Definition SIGCHLD : Z := 20.
Definition SIGRTMAX : Z := 63.
Definition _POSIX_SIGQUEUE_MAX : Z := 32.
Definition SI_QUEUED : Z := 1.
Definition ESRCH : Z := 3.
Definition EBUSY : Z := 16.
(** [(pid_t)-1] *)
Definition PID_NONE : Z := -1.

(** [siginfo_t]; [si_data] are the members the process manager only copies. *)
Record siginfo := mk_siginfo {
  si_signo : Z; si_flags : Z; si_pid : Z; si_pgrp : Z; si_uid : Z;
  si_reserved5 : Z; si_data : list Z
}.

(** [sizeof] of the three structures, and [cbProcess]. *)
Definition sizeof_siginfo : Z := 80.
Definition sizeof_SPMSIGNAL : Z := 92.
Definition sizeof_SPMCHILDNOTIFY : Z := 24.
Definition SPM_PROCESS_SIZE : Z := 256.

(** A signal block and a notification block, with their addresses. *)
Record SPMSIGNAL := mk_SPMSIGNAL {
  sg_addr : Z; sg_cb : Z; sg_pidSender : Z; sg_Info : siginfo
}.
Record SPMCHILDNOTIFY := mk_SPMCHILDNOTIFY {
  cn_addr : Z; cn_cb : Z; cn_pid : Z; cn_pgrp : Z; cn_iExitCode : Z; cn_enmDeathReason : Z
}.

(** [struct __libc_SPMProcess]; the ids are those of [Creds]. *)
Record PROCESS := mk_PROCESS {
  p_ids : SPMPROCESS;
  cReferences : Z;
  enmState : SPMPROCSTAT;
  uTimestamp : Z;
  cSPMOpens : Z;
  fExeInited : Z;
  pvForkHandle : Z;
  pSigHead : list SPMSIGNAL;
  cSigsSent : Z;
  pTerm : option SPMCHILDNOTIFY;
  pChildNotifyHead : list SPMCHILDNOTIFY;
  ppChildNotifyTail : nat;
  iNice : Z;
  pInherit : Z;
  pInheritLocked : Z
}.

Definition set_p_ids (x : SPMPROCESS) (s : PROCESS) : PROCESS :=
  mk_PROCESS x (cReferences s) (enmState s) (uTimestamp s) (cSPMOpens s) (fExeInited s)
    (pvForkHandle s) (pSigHead s) (cSigsSent s) (pTerm s) (pChildNotifyHead s)
    (ppChildNotifyTail s) (iNice s) (pInherit s) (pInheritLocked s).
Definition set_cReferences (x : Z) (s : PROCESS) : PROCESS :=
  mk_PROCESS (p_ids s) x (enmState s) (uTimestamp s) (cSPMOpens s) (fExeInited s)
    (pvForkHandle s) (pSigHead s) (cSigsSent s) (pTerm s) (pChildNotifyHead s)
    (ppChildNotifyTail s) (iNice s) (pInherit s) (pInheritLocked s).
Definition set_enmState (x : SPMPROCSTAT) (s : PROCESS) : PROCESS :=
  mk_PROCESS (p_ids s) (cReferences s) x (uTimestamp s) (cSPMOpens s) (fExeInited s)
    (pvForkHandle s) (pSigHead s) (cSigsSent s) (pTerm s) (pChildNotifyHead s)
    (ppChildNotifyTail s) (iNice s) (pInherit s) (pInheritLocked s).
Definition set_uTimestamp (x : Z) (s : PROCESS) : PROCESS :=
  mk_PROCESS (p_ids s) (cReferences s) (enmState s) x (cSPMOpens s) (fExeInited s)
    (pvForkHandle s) (pSigHead s) (cSigsSent s) (pTerm s) (pChildNotifyHead s)
    (ppChildNotifyTail s) (iNice s) (pInherit s) (pInheritLocked s).
Definition set_cSPMOpens (x : Z) (s : PROCESS) : PROCESS :=
  mk_PROCESS (p_ids s) (cReferences s) (enmState s) (uTimestamp s) x (fExeInited s)
    (pvForkHandle s) (pSigHead s) (cSigsSent s) (pTerm s) (pChildNotifyHead s)
    (ppChildNotifyTail s) (iNice s) (pInherit s) (pInheritLocked s).
Definition set_fExeInited (x : Z) (s : PROCESS) : PROCESS :=
  mk_PROCESS (p_ids s) (cReferences s) (enmState s) (uTimestamp s) (cSPMOpens s) x
    (pvForkHandle s) (pSigHead s) (cSigsSent s) (pTerm s) (pChildNotifyHead s)
    (ppChildNotifyTail s) (iNice s) (pInherit s) (pInheritLocked s).
Definition set_pvForkHandle (x : Z) (s : PROCESS) : PROCESS :=
  mk_PROCESS (p_ids s) (cReferences s) (enmState s) (uTimestamp s) (cSPMOpens s)
    (fExeInited s) x (pSigHead s) (cSigsSent s) (pTerm s) (pChildNotifyHead s)
    (ppChildNotifyTail s) (iNice s) (pInherit s) (pInheritLocked s).
Definition set_pSigHead (x : list SPMSIGNAL) (s : PROCESS) : PROCESS :=
  mk_PROCESS (p_ids s) (cReferences s) (enmState s) (uTimestamp s) (cSPMOpens s)
    (fExeInited s) (pvForkHandle s) x (cSigsSent s) (pTerm s) (pChildNotifyHead s)
    (ppChildNotifyTail s) (iNice s) (pInherit s) (pInheritLocked s).
Definition set_cSigsSent (x : Z) (s : PROCESS) : PROCESS :=
  mk_PROCESS (p_ids s) (cReferences s) (enmState s) (uTimestamp s) (cSPMOpens s)
    (fExeInited s) (pvForkHandle s) (pSigHead s) x (pTerm s) (pChildNotifyHead s)
    (ppChildNotifyTail s) (iNice s) (pInherit s) (pInheritLocked s).
Definition set_pTerm (x : option SPMCHILDNOTIFY) (s : PROCESS) : PROCESS :=
  mk_PROCESS (p_ids s) (cReferences s) (enmState s) (uTimestamp s) (cSPMOpens s)
    (fExeInited s) (pvForkHandle s) (pSigHead s) (cSigsSent s) x (pChildNotifyHead s)
    (ppChildNotifyTail s) (iNice s) (pInherit s) (pInheritLocked s).
Definition set_pChildNotifyHead (x : list SPMCHILDNOTIFY) (s : PROCESS) : PROCESS :=
  mk_PROCESS (p_ids s) (cReferences s) (enmState s) (uTimestamp s) (cSPMOpens s)
    (fExeInited s) (pvForkHandle s) (pSigHead s) (cSigsSent s) (pTerm s) x
    (ppChildNotifyTail s) (iNice s) (pInherit s) (pInheritLocked s).
Definition set_ppChildNotifyTail (x : nat) (s : PROCESS) : PROCESS :=
  mk_PROCESS (p_ids s) (cReferences s) (enmState s) (uTimestamp s) (cSPMOpens s)
    (fExeInited s) (pvForkHandle s) (pSigHead s) (cSigsSent s) (pTerm s)
    (pChildNotifyHead s) x (iNice s) (pInherit s) (pInheritLocked s).
Definition set_iNice (x : Z) (s : PROCESS) : PROCESS :=
  mk_PROCESS (p_ids s) (cReferences s) (enmState s) (uTimestamp s) (cSPMOpens s)
    (fExeInited s) (pvForkHandle s) (pSigHead s) (cSigsSent s) (pTerm s)
    (pChildNotifyHead s) (ppChildNotifyTail s) x (pInherit s) (pInheritLocked s).
Definition set_pInherit (x : Z) (s : PROCESS) : PROCESS :=
  mk_PROCESS (p_ids s) (cReferences s) (enmState s) (uTimestamp s) (cSPMOpens s)
    (fExeInited s) (pvForkHandle s) (pSigHead s) (cSigsSent s) (pTerm s)
    (pChildNotifyHead s) (ppChildNotifyTail s) (iNice s) x (pInheritLocked s).
Definition set_pInheritLocked (x : Z) (s : PROCESS) : PROCESS :=
  mk_PROCESS (p_ids s) (cReferences s) (enmState s) (uTimestamp s) (cSPMOpens s)
    (fExeInited s) (pvForkHandle s) (pSigHead s) (cSigsSent s) (pTerm s)
    (pChildNotifyHead s) (ppChildNotifyTail s) (iNice s) (pInherit s) x.

(** [apHeads] *)
Record procheads := mk_procheads {
  hFree : list Z; hEmbryo : list Z; hAlive : list Z; hZombie : list Z; hReserved : list Z
}.
Definition head_of (st : SPMPROCSTAT) (h : procheads) : list Z :=
  match st with
  | PROCSTATE_FREE => hFree h
  | PROCSTATE_EMBRYO => hEmbryo h
  | PROCSTATE_ALIVE => hAlive h
  | PROCSTATE_ZOMBIE => hZombie h
  | PROCSTATE_RESERVED => hReserved h
  end.
Definition set_head (st : SPMPROCSTAT) (l : list Z) (h : procheads) : procheads :=
  match st with
  | PROCSTATE_FREE => mk_procheads l (hEmbryo h) (hAlive h) (hZombie h) (hReserved h)
  | PROCSTATE_EMBRYO => mk_procheads (hFree h) l (hAlive h) (hZombie h) (hReserved h)
  | PROCSTATE_ALIVE => mk_procheads (hFree h) (hEmbryo h) l (hZombie h) (hReserved h)
  | PROCSTATE_ZOMBIE => mk_procheads (hFree h) (hEmbryo h) (hAlive h) l (hReserved h)
  | PROCSTATE_RESERVED => mk_procheads (hFree h) (hEmbryo h) (hAlive h) (hZombie h) l
  end.

(** The operating system, as far as these functions ask it: whether the SPM
    mutex can be had (0 or a negative errno), the next readings of the
    millisecond counter (a failed reading leaves 0), and which process ids
    [DosVerifyPidTid] does not know. *)
Record osenv := mk_osenv { os_mutex : Z; os_times : list Z; os_gone : list Z }.

(** [struct __libc_SPMHeader] and the pool behind it. *)
Record spm (P : Type) := mk_spm {
  apHeads : procheads;
  procs : gmap Z PROCESS;
  pChildNotifyFreeHead : list SPMCHILDNOTIFY;
  pSigFreeHead : list SPMSIGNAL;
  cSigFree : Z;
  cSigActive : Z;
  cSigMaxActive : Z;
  hevNotify : bool;
  pool : P;
  gpSPMSelf : option Z;
  os : osenv
}.
Arguments mk_spm {P}.
Arguments apHeads {P}.
Arguments procs {P}.
Arguments pChildNotifyFreeHead {P}.
Arguments pSigFreeHead {P}.
Arguments cSigFree {P}.
Arguments cSigActive {P}.
Arguments cSigMaxActive {P}.
Arguments hevNotify {P}.
Arguments pool {P}.
Arguments gpSPMSelf {P}.
Arguments os {P}.

Definition set_apHeads {P} (x : procheads) (s : spm P) : spm P :=
  mk_spm x (procs s) (pChildNotifyFreeHead s) (pSigFreeHead s) (cSigFree s) (cSigActive s)
    (cSigMaxActive s) (hevNotify s) (pool s) (gpSPMSelf s) (os s).
Definition set_procs {P} (x : gmap Z PROCESS) (s : spm P) : spm P :=
  mk_spm (apHeads s) x (pChildNotifyFreeHead s) (pSigFreeHead s) (cSigFree s)
    (cSigActive s) (cSigMaxActive s) (hevNotify s) (pool s) (gpSPMSelf s) (os s).
Definition set_pChildNotifyFreeHead {P} (x : list SPMCHILDNOTIFY) (s : spm P) : spm P :=
  mk_spm (apHeads s) (procs s) x (pSigFreeHead s) (cSigFree s) (cSigActive s)
    (cSigMaxActive s) (hevNotify s) (pool s) (gpSPMSelf s) (os s).
Definition set_pSigFreeHead {P} (x : list SPMSIGNAL) (s : spm P) : spm P :=
  mk_spm (apHeads s) (procs s) (pChildNotifyFreeHead s) x (cSigFree s) (cSigActive s)
    (cSigMaxActive s) (hevNotify s) (pool s) (gpSPMSelf s) (os s).
Definition set_cSigFree {P} (x : Z) (s : spm P) : spm P :=
  mk_spm (apHeads s) (procs s) (pChildNotifyFreeHead s) (pSigFreeHead s) x (cSigActive s)
    (cSigMaxActive s) (hevNotify s) (pool s) (gpSPMSelf s) (os s).
Definition set_cSigActive {P} (x : Z) (s : spm P) : spm P :=
  mk_spm (apHeads s) (procs s) (pChildNotifyFreeHead s) (pSigFreeHead s) (cSigFree s) x
    (cSigMaxActive s) (hevNotify s) (pool s) (gpSPMSelf s) (os s).
Definition set_cSigMaxActive {P} (x : Z) (s : spm P) : spm P :=
  mk_spm (apHeads s) (procs s) (pChildNotifyFreeHead s) (pSigFreeHead s) (cSigFree s)
    (cSigActive s) x (hevNotify s) (pool s) (gpSPMSelf s) (os s).
Definition set_hevNotify {P} (x : bool) (s : spm P) : spm P :=
  mk_spm (apHeads s) (procs s) (pChildNotifyFreeHead s) (pSigFreeHead s) (cSigFree s)
    (cSigActive s) (cSigMaxActive s) x (pool s) (gpSPMSelf s) (os s).
Definition set_pool {P} (x : P) (s : spm P) : spm P :=
  mk_spm (apHeads s) (procs s) (pChildNotifyFreeHead s) (pSigFreeHead s) (cSigFree s)
    (cSigActive s) (cSigMaxActive s) (hevNotify s) x (gpSPMSelf s) (os s).
Definition set_gpSPMSelf {P} (x : option Z) (s : spm P) : spm P :=
  mk_spm (apHeads s) (procs s) (pChildNotifyFreeHead s) (pSigFreeHead s) (cSigFree s)
    (cSigActive s) (cSigMaxActive s) (hevNotify s) (pool s) x (os s).
Definition set_os {P} (x : osenv) (s : spm P) : spm P :=
  mk_spm (apHeads s) (procs s) (pChildNotifyFreeHead s) (pSigFreeHead s) (cSigFree s)
    (cSigActive s) (cSigMaxActive s) (hevNotify s) (pool s) (gpSPMSelf s) x.
(** A zeroed process block. *)
Definition zero_ids : SPMPROCESS := mk_SPMPROCESS 0 0 0 0 0 0 0 0 0 0 (replicate 16 0).
Definition zero_process : PROCESS :=
  mk_PROCESS zero_ids 0 PROCSTATE_FREE 0 0 0 0 [] 0 None [] 0 0 0 0.

Definition set_pid (x : Z) (i : SPMPROCESS) : SPMPROCESS :=
  mk_SPMPROCESS x (pidParent i) (sid i) (pgrp i) (uid i) (euid i) (svuid i)
    (gid i) (egid i) (svgid i) (agidGroups i).
Definition set_sid (x : Z) (i : SPMPROCESS) : SPMPROCESS :=
  mk_SPMPROCESS (pid i) (pidParent i) x (pgrp i) (uid i) (euid i) (svuid i)
    (gid i) (egid i) (svgid i) (agidGroups i).

Definition pid_of (r : PROCESS) : Z := pid (p_ids r).

Section Spm.
Context {P : Type} `{!SpmPool P}.
Implicit Types s : spm P.

(** ** Access to the shared memory *)

Definition getp (p : Z) : M (spm P) PROCESS := fun s => deref (procs s !! p) s.
(** Write members of the block at [p]. *)
Definition updp (p : Z) (f : PROCESS -> PROCESS) : M (spm P) unit :=
  r ← getp p; mmod (fun s => set_procs (<[p := f r]> (procs s)) s).

Definition on_pool {A} (m : M P A) : M (spm P) A := fun s =>
  match m (pool s) with
  | Done a q => Done a (set_pool q s)
  | Err e q => Err e (set_pool q s)
  | Fault f => Fault f
  end.
Definition spmAllocSub (cbSize : Z) : M (spm P) (option Z) := on_pool (pool_alloc cbSize).
Definition spmFree (pv : Z) : M (spm P) Z := on_pool (pool_free pv).

(** [gpSPMSelf->...] *)
Definition self : M (spm P) Z := o ← gets gpSPMSelf; deref o.
Definition getself : M (spm P) PROCESS := p ← self; getp p.

Definition post_notify : M (spm P) unit := mmod (set_hevNotify true).

Definition spmTimestamp : M (spm P) Z :=
  e ← gets os;
  match os_times e with
  | [] => mret 0
  | t :: ts =>
      _ ← mmod (set_os (mk_osenv (os_mutex e) ts (os_gone e)));
      mret (u32 t)
  end.

(** [DosVerifyPidTid(pid, 1) == ERROR_INVALID_PROCID] *)
Definition pid_gone (x : Z) : M (spm P) bool :=
  e ← gets os; mret (bool_decide (x ∈ os_gone e)).

(** [spmRequestMutex] and [spmRequestMutexErrno]. *)
Definition spmRequestMutex : M (spm P) Z := e ← gets os; mret (os_mutex e).
Definition spmRequestMutexErrno : M (spm P) Z :=
  rc ← spmRequestMutex;
  if rc =? 0 then mret 0 else merr rc.

(** ** Lists of processes *)

Definition gethead (st : SPMPROCSTAT) : M (spm P) (list Z) :=
  gets (fun s => head_of st (apHeads s)).
Definition puthead (st : SPMPROCSTAT) (l : list Z) : M (spm P) unit :=
  mmod (fun s => set_apHeads (set_head st l (apHeads s)) s).

Definition link (st : SPMPROCSTAT) (p : Z) : M (spm P) unit :=
  l ← gethead st; puthead st (p :: l).
Definition unlink (p : Z) : M (spm P) unit :=
  r ← getp p;
  l ← gethead (enmState r);
  if bool_decide (p ∈ l) then puthead (enmState r) (list_difference l [p]) else mfail Ub.

(** The first process of a list that satisfies [f]. *)
Fixpoint find_proc (f : PROCESS -> bool) (l : list Z) : M (spm P) (option Z) :=
  match l with
  | [] => mret None
  | p :: l' => r ← getp p; if f r then mret (Some p) else find_proc f l'
  end.

Definition spmQueryProcessInState (x : Z) (st : SPMPROCSTAT) : M (spm P) (option Z) :=
  l ← gethead st; find_proc (fun r => pid_of r =? x) l.

(** ** Giving blocks back *)

Definition spmFreeChildNotify (n : SPMCHILDNOTIFY) : M (spm P) unit :=
  mmod (fun s => set_pChildNotifyFreeHead (n :: pChildNotifyFreeHead s) s).

Definition spmFreeSignal (g : SPMSIGNAL) : M (spm P) unit :=
  _ ← (if sg_pidSender g =? 0 then
         me ← getself;
         if negb (pid_of me =? sg_pidSender g) then
           o ← spmQueryProcessInState (sg_pidSender g) PROCSTATE_ALIVE;
           match o with
           | Some q => updp q (fun r => set_cSigsSent (u32 (cSigsSent r - 1)) r)
           | None => mret ()
           end
         else mret ()
       else mret ());
  s ← mget;
  if cSigFree s <? 32 then
    mput (set_cSigFree (u32 (cSigFree s + 1)) (set_pSigFreeHead (g :: pSigFreeHead s) s))
  else _ ← spmFree (sg_addr g); mret ().

(** The inherited data, the pending signals and the notifications of a
    process: what [spmFreeProcess] and [spmZombieOrFree] free alike. *)
Definition spmFreeData (p : Z) : M (spm P) unit :=
  r ← getp p;
  let pv := if pInheritLocked r =? 0 then pInherit r else pInheritLocked r in
  _ ← mwhen (negb (pv =? 0))
        (_ ← updp p (fun r => set_pInheritLocked 0 (set_pInherit 0 r));
         _ ← spmFree pv; mret ());
  r ← getp p;
  _ ← updp p (set_pSigHead []);
  _ ← mfor (pSigHead r) spmFreeSignal;
  r ← getp p;
  _ ← updp p (set_pChildNotifyHead []);
  mfor (pChildNotifyHead r) spmFreeChildNotify.

Definition spmFreeProcess (p : Z) : M (spm P) unit :=
  _ ← spmFreeData p;
  r ← getp p;
  _ ← match pTerm r with
      | Some n => _ ← spmFreeChildNotify n; updp p (set_pTerm None)
      | None => mret ()
      end;
  r ← getp p;
  _ ← mwhen (negb (pInherit r =? 0)) (_ ← spmFree (pInherit r); updp p (set_pInherit 0));
  r ← getp p;
  _ ← mwhen (negb (pInheritLocked r =? 0))
        (_ ← spmFree (pInheritLocked r); updp p (set_pInheritLocked 0));
  _ ← unlink p;
  _ ← updp p (set_enmState PROCSTATE_FREE);
  link PROCSTATE_FREE p.

Definition spmZombieOrFree (p : Z) : M (spm P) unit :=
  _ ← updp p (fun r => if 0 <? cReferences r
                       then set_cReferences (cReferences r - 1) r else r);
  r ← getp p;
  if cReferences r =? 0 then spmFreeProcess p
  else if negb (bool_decide (enmState r = PROCSTATE_ZOMBIE)) then
    _ ← spmFreeData p;
    _ ← unlink p;
    _ ← updp p (set_enmState PROCSTATE_ZOMBIE);
    link PROCSTATE_ZOMBIE p
  else mret ().

(** ** Allocation *)

Definition SPM_POOL_ALIGN (size : Z) : Z := Z.land (u32 (size + 7)) (not32 7).

(** [u - t >= n] on unsigned milliseconds. *)
Definition older (now : Z) (r : PROCESS) (n : Z) : bool := n <=? u32 (now - uTimestamp r).

(** One embryo of a reaping loop; two of the three wake the waiters up. *)
Definition reap_embryo (wake : bool) (cond : PROCESS -> M (spm P) bool) (p : Z) : M (spm P) unit :=
  r ← getp p;
  b ← cond r;
  mwhen b (_ ← spmFreeProcess p; mwhen wake post_notify).

(** The loop over the alive processes that frees old inherit data: it looks
    at [pProcess->pInherit] but takes [gpSPMSelf->pInherit]. *)
Definition reap_inherit (now n : Z) (p : Z) : M (spm P) unit :=
  r ← getp p;
  mwhen (negb (pInherit r =? 0) && older now r n)
    (me ← self;
     m ← getp me;
     _ ← updp me (set_pInherit 0);
     _ ← spmFree (pInherit m); mret ()).

(** The first half of [spmAlloc] after a failed attempt. *)
Definition spmReap1 : M (spm P) unit :=
  now ← spmTimestamp;
  embryos ← gethead PROCSTATE_EMBRYO;
  _ ← mfor embryos (reap_embryo true (fun r =>
        if negb (cReferences r =? 0) then mret false
        else if older now r (5*60*1000) then mret true
        else if pid_of r =? PID_NONE then mret false
        else pid_gone (pid_of r)));
  frees ← gethead PROCSTATE_FREE;
  _ ← mfor frees (fun p =>
        l ← gethead PROCSTATE_FREE;
        _ ← puthead PROCSTATE_FREE (tail l);
        _ ← getp p;
        _ ← mmod (fun s => set_procs (delete p (procs s)) s);
        _ ← spmFree p; mret ());
  alive ← gethead PROCSTATE_ALIVE;
  _ ← mfor alive (reap_inherit now (5*60*1000));
  notes ← gets pChildNotifyFreeHead;
  mfor notes (fun n =>
    _ ← mmod (fun s => set_pChildNotifyFreeHead (tail (pChildNotifyFreeHead s)) s);
    _ ← spmFree (cn_addr n); mret ()).

(** The second half, when the retry has failed too. *)
Definition spmReap2 : M (spm P) unit :=
  now ← spmTimestamp;
  embryos ← gethead PROCSTATE_EMBRYO;
  _ ← mfor embryos (reap_embryo true (fun r =>
        mret ((cReferences r =? 0) && older now r (15*1000))));
  alive ← gethead PROCSTATE_ALIVE;
  _ ← mfor alive (reap_inherit now (15*1000));
  sigs ← gets pSigFreeHead;
  mfor sigs (fun _ =>
    s ← mget;
    match pSigFreeHead s with
    | g :: l =>
        mwhen (4 <? cSigFree s)
          (_ ← mput (set_cSigFree (u32 (cSigFree s - 1)) (set_pSigFreeHead l s));
           _ ← spmFree (sg_addr g); mret ())
    | [] => mret ()
    end).

Definition spmAlloc (cbSize : Z) : M (spm P) (option Z) :=
  if cbSize =? 0 then mret None else
  let cbSize := if cbSize <=? SPM_POOL_ALIGN (20 - 8) then SPM_POOL_ALIGN (20 - 8)
                else SPM_POOL_ALIGN cbSize in
  pv ← spmAllocSub cbSize;
  match pv with
  | Some _ => mret pv
  | None =>
      _ ← spmReap1;
      pv ← spmAllocSub cbSize;
      match pv with
      | Some _ => mret pv
      | None => _ ← spmReap2; mret None
      end
  end.

(** The first notification block of the free list that is large enough. *)
Definition spmAllocChildNotify : M (spm P) (option SPMCHILDNOTIFY) :=
  l ← gets pChildNotifyFreeHead;
  match list_find (fun n => cn_cb n = sizeof_SPMCHILDNOTIFY) l with
  | Some (i, n) =>
      _ ← mmod (set_pChildNotifyFreeHead (delete i l));
      mret (Some n)
  | None =>
      o ← spmAlloc sizeof_SPMCHILDNOTIFY;
      mret ((fun a => mk_SPMCHILDNOTIFY a sizeof_SPMCHILDNOTIFY 0 0 0 EXIT_REASON_NONE) <$> o)
  end.

Definition zero_siginfo : siginfo := mk_siginfo 0 0 0 0 0 0 [].

Definition spmAllocSignal : M (spm P) (option SPMSIGNAL) :=
  s ← mget;
  match list_find (fun g => sg_cb g = sizeof_SPMSIGNAL) (pSigFreeHead s) with
  | Some (i, g) =>
      _ ← mput (set_cSigFree (u32 (cSigFree s - 1))
                  (set_pSigFreeHead (delete i (pSigFreeHead s)) s));
      mret (Some g)
  | None =>
      o ← spmAlloc sizeof_SPMSIGNAL;
      mret ((fun a => mk_SPMSIGNAL a sizeof_SPMSIGNAL 0 zero_siginfo) <$> o)
  end.

Definition spmAllocProcess : M (spm P) (option Z) :=
  frees ← gethead PROCSTATE_FREE;
  match frees with
  | p :: l =>
      _ ← puthead PROCSTATE_FREE l;
      _ ← updp p (fun _ => zero_process);
      mret (Some p)
  | [] =>
      o ← spmAlloc SPM_PROCESS_SIZE;
      match o with
      | Some p =>
          _ ← mmod (fun s => set_procs (<[p := zero_process]> (procs s)) s);
          mret (Some p)
      | None =>
          zombies ← gethead PROCSTATE_ZOMBIE;
          match last zombies with
          | None => mret None
          | Some p =>
              _ ← puthead PROCSTATE_ZOMBIE (take (length zombies - 1) zombies);
              _ ← updp p (fun _ => zero_process);
              mret (Some p)
          end
      end
  end.

(** A function that returns [NULL] with [errno] set, for a caller that only
    looks at the pointer. *)
Definition or_null {A} (m : M (spm P) (option A)) : M (spm P) (option A) := fun s =>
  match m s with Err _ s' => Done None s' | out => out end.

(** ** Processes *)

(** The fields of a new process block that differ from 0, [r0] being the
    zeroed block. *)
Definition spmNewTerm (p pidTerm : Z) : M (spm P) unit :=
  o ← spmAllocChildNotify;
  match o with
  | Some n =>
      r ← getp p;
      updp p (set_pTerm (Some (mk_SPMCHILDNOTIFY (cn_addr n) sizeof_SPMCHILDNOTIFY pidTerm
                                 (pgrp (p_ids r)) 0 EXIT_REASON_NONE)))
  | None => mret ()
  end.

(** [__libc_spmCreateEmbryo] *)
Definition spmCreateEmbryo (ppid : Z) : M (spm P) (option Z) :=
  o ← gets gpSPMSelf;
  match o with
  | None => merr EINVAL
  | Some me =>
      _ ← spmRequestMutexErrno;
      embryos ← gethead PROCSTATE_EMBRYO;
      _ ← mwhen (negb (bool_decide (embryos = [])))
            (now ← spmTimestamp;
             mfor embryos (reap_embryo false (fun r =>
               if negb ((pidParent (p_ids r) =? ppid) && (cReferences r =? 0)) then mret false
               else if older now r (1*60*1000) then mret true
               else if negb (older now r 8000) then mret false
               else if pid_of r =? PID_NONE then mret false
               else pid_gone (pid_of r))));
      o ← spmAllocProcess;
      match o with
      | None => mret None
      | Some p =>
          m ← getp me;
          let i := p_ids m in
          _ ← updp p (fun r => set_cReferences 1 (set_enmState PROCSTATE_EMBRYO
                (set_p_ids (mk_SPMPROCESS PID_NONE ppid 0 0 (uid i) (euid i) (svuid i)
                              (gid i) (egid i) (svgid i) (agidGroups i)) r)));
          now ← spmTimestamp;
          _ ← updp p (fun r => set_fExeInited 1 (set_uTimestamp now
                (set_p_ids (mk_SPMPROCESS PID_NONE ppid (sid i) (pgrp i) (uid i) (euid i) (svuid i)
                              (gid i) (egid i) (svgid i) (agidGroups i)) r)));
          _ ← spmNewTerm p PID_NONE;
          m ← getp me;
          _ ← updp p (fun r => set_iNice (iNice m) (set_ppChildNotifyTail 0 r));
          _ ← link PROCSTATE_EMBRYO p;
          mret (Some p)
      end
  end.

(** The embryo [spmRegisterSelf] takes over: the one its parent has written
    its pid into, else the first one of its parent. *)
Fixpoint find_embryo (x ppid : Z) (best : option Z) (l : list Z) : M (spm P) (option Z) :=
  match l with
  | [] => mret best
  | p :: l' =>
      r ← getp p;
      if pidParent (p_ids r) =? ppid then
        if pid_of r =? x then mret (Some p)
        else find_embryo x ppid (match best with None => Some p | _ => best end) l'
      else find_embryo x ppid best l'
  end.

Definition spmRegisterSelf (x ppid sid' : Z) : M (spm P) (option Z) :=
  o ← gets gpSPMSelf;
  match o with
  | Some me => mret (Some me)
  | None =>
  embryos ← gethead PROCSTATE_EMBRYO;
  best ← find_embryo x ppid None embryos;
  match best with
  | Some p =>
      _ ← updp p (fun r => set_p_ids (set_sid sid' (set_pid x (p_ids r)))
                             (set_cReferences (u32 (cReferences r + 1)) r));
      _ ← unlink p;
      _ ← updp p (set_enmState PROCSTATE_ALIVE);
      _ ← link PROCSTATE_ALIVE p;
      _ ← mmod (set_gpSPMSelf (Some p));
      mret (Some p)
  | None =>
  alive ← gethead PROCSTATE_ALIVE;
  mine ← find_proc (fun r => (pid_of r =? x) && (pidParent (p_ids r) =? ppid)) alive;
  match mine with
  | Some p =>
      _ ← mmod (set_gpSPMSelf (Some p));
      _ ← updp p (fun r => set_cReferences (u32 (cReferences r + 1)) r);
      mret (Some p)
  | None =>
  o ← spmAllocProcess;
  match o with
  | None => mret None
  | Some p =>
      _ ← updp p (fun r => set_cReferences 1 (set_enmState PROCSTATE_ALIVE
            (set_p_ids (mk_SPMPROCESS x ppid 0 0 0 0 0 0 0 0 (agidGroups (p_ids r))) r)));
      now ← spmTimestamp;
      _ ← updp p (fun r => set_fExeInited 1 (set_uTimestamp now
            (set_p_ids (mk_SPMPROCESS x ppid sid' x 0 0 0 0 0 0 (agidGroups (p_ids r))) r)));
      _ ← spmNewTerm p x;
      _ ← updp p (set_ppChildNotifyTail 0);
      _ ← link PROCSTATE_ALIVE p;
      _ ← mmod (set_gpSPMSelf (Some p));
      mret (Some p)
  end end end end.

(** The end of [spmInit]: a process that has mapped the memory registers. *)
Definition spmInitRegister (x ppid sid' : Z) : M (spm P) unit :=
  _ ← spmRegisterSelf x ppid sid';
  o ← gets gpSPMSelf;
  match o with
  | Some me => _ ← updp me (fun r => set_cSPMOpens (u32 (cSPMOpens r + 1)) r); post_notify
  | None => mret ()
  end.

(** The fast path [!pid || gpSPMSelf->pid == pid]. *)
Definition is_me (x : Z) : M (spm P) bool :=
  if x =? 0 then mret true else m ← getself; mret (pid_of m =? x).

(** [for (...) if (pid == x && enmState == st) { cReferences++; break; }] *)
Definition search (x : Z) (st : SPMPROCSTAT) : M (spm P) (option Z) :=
  l ← gethead st;
  o ← find_proc (fun r => (pid_of r =? x) && bool_decide (enmState r = st)) l;
  match o with
  | Some p => _ ← updp p (fun r => set_cReferences (u32 (cReferences r + 1)) r); mret o
  | None => mret None
  end.

(** [__libc_spmQueryProcess]: the outer loop goes on after a match, and its
    last list is that of the reserved processes. *)
Definition spmQueryProcess (x : Z) : M (spm P) (option Z) :=
  if x <? 0 then merr EINVAL else
  fast ← is_me x;
  if (fast : bool) then gets gpSPMSelf else
  _ ← spmRequestMutexErrno;
  _ ← search x PROCSTATE_EMBRYO;
  _ ← search x PROCSTATE_ALIVE;
  _ ← search x PROCSTATE_ZOMBIE;
  search x PROCSTATE_RESERVED.

(** [__libc_spmQueryProcessInState] *)
Definition libc_spmQueryProcessInState (x : Z) (st : SPMPROCSTAT) : M (spm P) (option Z) :=
  if x <? 0 then merr EINVAL else
  fast ← is_me x;
  if (fast : bool) then
    m ← getself;
    if bool_decide (enmState m = st) then gets gpSPMSelf else mret None
  else
  _ ← spmRequestMutexErrno;
  search x st.

(** [spmForkChild1], [__LIBC_FORK_OP_FORK_CHILD]: [gpSPMSelf] is still the
    parent's. *)
Definition spmForkChild1 (x : Z) : M (spm P) Z :=
  o ← or_null (libc_spmQueryProcessInState x PROCSTATE_ALIVE);
  _ ← mmod (set_gpSPMSelf o);
  p ← self;
  _ ← updp p (fun r => set_cReferences (u32 (cReferences r - 1)) r);
  mret 0.

(** The loops of [__libc_spmEnumProcessesByPGrp] and [..ByUser]: the callback
    runs with a reference held, and a non-zero result ends the loop. *)
Fixpoint enum_procs (f : PROCESS -> bool) (pfnCallback : Z -> M (spm P) Z)
    (l : list Z) (rc : Z) : M (spm P) Z :=
  match l with
  | [] => mret rc
  | p :: l' =>
      r ← getp p;
      if f r && bool_decide (enmState r = PROCSTATE_ALIVE) then
        _ ← updp p (fun r => set_cReferences (u32 (cReferences r + 1)) r);
        rc ← pfnCallback p;
        _ ← updp p (fun r => set_cReferences (u32 (cReferences r - 1)) r);
        if negb (rc =? 0) then mret rc else enum_procs f pfnCallback l' rc
      else enum_procs f pfnCallback l' rc
  end.

Definition spmEnumProcessesByPGrp (g : Z) (pfnCallback : Z -> M (spm P) Z) : M (spm P) Z :=
  if g <? 0 then mret (- EINVAL) else
  rc ← spmRequestMutex;
  if negb (rc =? 0) then mret rc else
  g ← (if g =? 0 then m ← getself; mret (pgrp (p_ids m)) else mret g);
  l ← gethead PROCSTATE_ALIVE;
  enum_procs (fun r => pgrp (p_ids r) =? g) pfnCallback l (- ESRCH).

(** [uid_t] is unsigned: the test for a negative uid never holds. *)
Definition spmEnumProcessesByUser (u : Z) (pfnCallback : Z -> M (spm P) Z) : M (spm P) Z :=
  rc ← spmRequestMutex;
  if negb (rc =? 0) then mret rc else
  l ← gethead PROCSTATE_ALIVE;
  enum_procs (fun r => euid (p_ids r) =? u) pfnCallback l (- ESRCH).

(** [__libc_spmRelease] *)
Definition spmRelease (p : Z) : M (spm P) Z :=
  o ← gets gpSPMSelf;
  if bool_decide (o = Some p) then mret 0 else
  _ ← spmRequestMutexErrno;
  _ ← updp p (fun r => if 0 <? cReferences r then set_cReferences (cReferences r - 1) r else r);
  r ← getp p;
  _ ← mwhen ((cReferences r =? 0)
             && (negb (bool_decide (enmState r = PROCSTATE_EMBRYO)) || negb (pvForkHandle r =? 0)))
        (spmFreeProcess p);
  mret 0.

(** [__libc_spmValidPGrp] *)
Definition spmValidPGrp (g : Z) (fOnlyChildren : bool) : M (spm P) Z :=
  rc ← spmRequestMutex;
  if negb (rc =? 0) then mret rc else
  x ← (if fOnlyChildren then m ← getself; mret (pid_of m) else mret 0);
  g ← (if g =? 0 then m ← getself; mret (pgrp (p_ids m)) else mret g);
  l ← gethead PROCSTATE_ALIVE;
  o ← find_proc (fun r => (pgrp (p_ids r) =? g) && ((x =? 0) || (pidParent (p_ids r) =? x))) l;
  mret (match o with Some _ => 0 | None => - ESRCH end).

(** ** Inherited data *)

(** [__libc_spmInheritRequest]; the result 0 is [NULL]. *)
Definition spmInheritRequest : M (spm P) Z :=
  _ ← spmRequestMutexErrno;
  me ← self;
  m ← getp me;
  if negb (pInherit m =? 0) then
    _ ← updp me (fun r => set_pInherit 0 (set_pInheritLocked (pInherit r) r));
    mret (pInherit m)
  else if negb (pInheritLocked m =? 0) then merr EBUSY
  else mret 0.

(** [__libc_spmInheritRelease] *)
Definition spmInheritRelease : M (spm P) Z :=
  rc ← spmRequestMutex;
  if negb (rc =? 0) then merr EINVAL else
  me ← self;
  _ ← updp me (fun r => set_pInheritLocked (pInherit r) (set_pInherit (pInheritLocked r) r));
  mret 0.

(** [__libc_spmInheritFree] *)
Definition spmInheritFree : M (spm P) unit :=
  o ← gets gpSPMSelf;
  match o with
  | None => mret ()
  | Some me =>
      m ← getp me;
      mwhen (negb (pInherit m =? 0) || negb (pInheritLocked m =? 0))
        (rc ← spmRequestMutex;
         mwhen (rc =? 0)
           (_ ← mwhen (negb (pInherit m =? 0))
                  (_ ← spmFree (pInherit m); updp me (set_pInherit 0));
            post_notify))
  end.

(** [__libc_spmAlloc] and [__libc_spmFree]; a pointer outside of the memory is
    refused before the mutex is taken. *)
Definition libc_spmAlloc (cbSize : Z) : M (spm P) (option Z) :=
  if cbSize =? 0 then mret None else
  _ ← spmRequestMutexErrno;
  spmAlloc cbSize.

(** What __spawnve.c does with the embryo it has created: it puts the inherit
    data into it ([doInherit] allocates [cb] bytes), and later the pid of the
    program it started, unless the child has registered by then. *)
Definition spawn_inherit (pEmbryo cb : Z) : M (spm P) bool :=
  o ← or_null (libc_spmAlloc cb);
  match o with
  | Some a => _ ← updp pEmbryo (set_pInherit a); mret true
  | None => _ ← updp pEmbryo (set_pInherit 0); mret false
  end.
Definition spawn_set_pid (pEmbryo x : Z) : M (spm P) unit :=
  updp pEmbryo (fun r => if pid_of r =? PID_NONE
                         then set_p_ids (set_pid x (p_ids r)) r else r).

(** The same in libcfork.c, which compares with 0 instead of -1. *)
Definition fork_set_handle (pEmbryo h : Z) : M (spm P) unit := updp pEmbryo (set_pvForkHandle h).
Definition fork_set_pid (pEmbryo x : Z) : M (spm P) unit :=
  updp pEmbryo (fun r => if pid_of r =? 0
                         then set_p_ids (set_pid x (p_ids r)) r else r).

(** ** Termination *)

(** [__libc_spmTerm] *)
Definition spmTerm (enmDeathReason' iExitCode' : Z) : M (spm P) unit :=
  rc ← spmRequestMutex;
  mwhen (rc =? 0)
    (o ← gets gpSPMSelf;
     match o with
     | None => mret ()
     | Some me =>
         m ← getp me;
         match pTerm m with
         | Some n =>
             mwhen (cn_enmDeathReason n =? EXIT_REASON_NONE)
               (updp me (set_pTerm (Some (mk_SPMCHILDNOTIFY (cn_addr n) (cn_cb n) (cn_pid n)
                                            (cn_pgrp n) iExitCode' enmDeathReason'))))
         | None => mret ()
         end
     end).

(** [*pParent->ppChildNotifyTail = pTerm]: what followed the tail is lost, and
    a tail beyond the list points into a block the list has given away. *)
Definition append_notify (n : SPMCHILDNOTIFY) (p : Z) : M (spm P) unit :=
  r ← getp p;
  if (ppChildNotifyTail r <=? length (pChildNotifyHead r))%nat then
    updp p (fun r => set_ppChildNotifyTail (S (ppChildNotifyTail r))
      (set_pChildNotifyHead (take (ppChildNotifyTail r) (pChildNotifyHead r) ++ [n]) r))
  else mfail Ub.

(** The notice of the death of the process at [p] goes to its parent. *)
Definition notify_parent (p : Z) : M (spm P) unit :=
  r ← getp p;
  match pTerm r with
  | None => mret ()
  | Some n =>
      o ← spmQueryProcessInState (pidParent (p_ids r)) PROCSTATE_ALIVE;
      _ ← match o with
          | Some pParent =>
              _ ← append_notify (mk_SPMCHILDNOTIFY (cn_addr n) (cn_cb n) (pid_of r)
                    (pgrp (p_ids r)) (cn_iExitCode n) (cn_enmDeathReason n)) pParent;
              post_notify
          | None => spmFreeChildNotify n
          end;
      updp p (set_pTerm None)
  end.

(** [spmCleanup], [x] being the process id the system gives. *)
Definition spmCleanup (x : Z) : M (spm P) unit :=
  rc ← spmRequestMutex;
  _ ← mwhen (rc =? 0)
        (embryos ← gethead PROCSTATE_EMBRYO;
         _ ← mfor embryos (fun p =>
               r ← getp p; mwhen (pidParent (p_ids r) =? x) (spmZombieOrFree p));
         o ← gets gpSPMSelf;
         match o with
         | None => mret ()
         | Some p =>
             _ ← mmod (set_gpSPMSelf None);
             _ ← updp p (fun r => set_cSPMOpens
                   (if cSPMOpens r <=? 1 then 0 else cSPMOpens r - 1) r);
             _ ← notify_parent p;
             spmZombieOrFree p
         end);
  mmod (set_gpSPMSelf None).

(** [__libc_spmQueryChildNotification]: the record and the return code. *)
Definition zero_notify : SPMCHILDNOTIFY := mk_SPMCHILDNOTIFY 0 0 0 0 0 0.

Definition spmQueryChildNotification (x : Z) : M (spm P) (Z * SPMCHILDNOTIFY) :=
  rc ← spmRequestMutex;
  if negb (rc =? 0) then mret (rc, zero_notify) else
  me ← self;
  m ← getp me;
  match list_find (fun n => cn_pid n = x) (pChildNotifyHead m) with
  | Some (i, n) =>
      _ ← (if (ppChildNotifyTail m =? S i)%nat then
             updp me (fun r => set_ppChildNotifyTail i
               (set_pChildNotifyHead (take i (pChildNotifyHead r)) r))
           else
             updp me (fun r => set_ppChildNotifyTail
               (if (S i <? ppChildNotifyTail r)%nat then pred (ppChildNotifyTail r)
                else ppChildNotifyTail r)
               (set_pChildNotifyHead (delete i (pChildNotifyHead r)) r)));
      _ ← spmFreeChildNotify n;
      mret (0, n)
  | None =>
      o ← spmQueryProcessInState x PROCSTATE_EMBRYO;
      _ ← match o with
          | None => mret ()
          | Some p =>
              r ← getp p;
              if cReferences r =? 0 then spmFreeProcess p
              else
                _ ← updp p (fun r => set_cReferences (u32 (cReferences r + 1)) r);
                spmZombieOrFree p
          end;
      mret (- ESRCH, zero_notify)
  end.

(** ** Signals *)

(** [__libc_spmExeInited] *)
Definition spmExeInited : M (spm P) unit :=
  me ← self; updp me (set_fExeInited 1).

Definition may_signal (me p : Z) (m r : PROCESS) (iSignalNo : Z) : bool :=
  (p =? me)
  || (euid (p_ids r) =? 0)
  || ((iSignalNo =? SIGCONT) && (sid (p_ids r) =? sid (p_ids m)))
  || (uid (p_ids r) =? euid (p_ids m)) || (svuid (p_ids r) =? euid (p_ids m))
  || (uid (p_ids r) =? uid (p_ids m)) || (svuid (p_ids r) =? uid (p_ids m)).

(** The signal as it is put into the queue. *)
Definition queued_info (m : PROCESS) (fQueued : bool) (i : siginfo) : siginfo :=
  mk_siginfo (si_signo i)
    (if fQueued then Z.lor (si_flags i) SI_QUEUED else Z.land (si_flags i) (not32 SI_QUEUED))
    (if si_pid i =? 0 then pid_of m else si_pid i)
    (if si_pgrp i =? 0 then pgrp (p_ids m) else si_pgrp i)
    (if si_uid i =? 0 then uid (p_ids m) else si_uid i)
    (si_reserved5 i) (si_data i).

Definition spmSigQueueProcess (p iSignalNo : Z) (pSigInfo : option siginfo)
    (fQueued fQueueAnyway : bool) : M (spm P) Z :=
  me ← self; m ← getp me; r ← getp p;
  if negb (may_signal me p m r iSignalNo) then mret (- EPERM) else
  match pSigInfo with
  | None => mret 0
  | Some i =>
  if iSignalNo =? 0 then mret 0 else
  if negb fQueued && existsb (fun g => si_signo (sg_Info g) =? si_signo i) (pSigHead r)
  then mret 0 else
  s ← mget;
  if ((cSigActive s <? cSigMaxActive s) && (cSigsSent m <? _POSIX_SIGQUEUE_MAX))
     || fQueueAnyway || (si_signo i =? SIGCHLD)
  then
    o ← spmAllocSignal;
    match o with
    | None => mret (- EAGAIN)
    | Some g =>
        m ← getp me;
        _ ← updp p (fun r => set_pSigHead (pSigHead r ++
              [mk_SPMSIGNAL (sg_addr g) (sg_cb g) (pid_of m) (queued_info m fQueued i)]) r);
        _ ← mwhen (negb (p =? me))
              (updp me (fun r => set_cSigsSent (u32 (cSigsSent r + 1)) r));
        _ ← mmod (fun s => set_cSigActive (u32 (cSigActive s + 1)) s);
        _ ← post_notify;
        mret 0
    end
  else mret (- EAGAIN)
  end.

(** The checks of the arguments that [__libc_spmSigQueue] and
    [__libc_spmSigQueuePGrp] make. *)
Definition sig_args_ok (iSignalNo : Z) (pSigInfo : option siginfo) : bool :=
  (0 <=? iSignalNo) && (iSignalNo <=? SIGRTMAX) &&
  match pSigInfo with
  | None => true
  | Some i => (si_signo i =? iSignalNo) && (si_reserved5 i =? 0)
  end.

(** [__libc_spmSigQueue] *)
Definition spmSigQueue (iSignalNo : Z) (pSigInfo : option siginfo) (x : Z) (fQueued : bool)
    : M (spm P) Z :=
  if negb (sig_args_ok iSignalNo pSigInfo) then mret (- EINVAL) else
  rc ← spmRequestMutex;
  if negb (rc =? 0) then mret rc else
  o ← spmQueryProcessInState x PROCSTATE_ALIVE;
  match o with
  | None => mret (- ESRCH)
  | Some p =>
      r ← getp p;
      if fExeInited r =? 0 then mret (- ESRCH)
      else spmSigQueueProcess p iSignalNo pSigInfo fQueued false
  end.

(** The loop of [__libc_spmSigQueuePGrp]: [rc] is the first error, [cSent] the
    number of processes signalled. *)
Fixpoint sig_pgrp_loop (iSignalNo : Z) (pSigInfo : option siginfo) (g : Z) (fQueued : bool)
    (pfnCallback : option (Z -> PROCESS -> Z)) (l : list Z) (rc cSent : Z)
    : M (spm P) (Z * Z) :=
  match l with
  | [] => mret (rc, cSent)
  | p :: l' =>
      r ← getp p;
      if (pgrp (p_ids r) =? g) && negb (fExeInited r =? 0) then
        rc2 ← spmSigQueueProcess p iSignalNo pSigInfo fQueued true;
        if rc2 =? 0 then
          r ← getp p;
          let rc2 := match pfnCallback with Some f => f iSignalNo r | None => 0 end in
          sig_pgrp_loop iSignalNo pSigInfo g fQueued pfnCallback l'
            (if (rc2 <? 0) && (rc =? 0) then rc2 else rc) (cSent + 1)
        else
          sig_pgrp_loop iSignalNo pSigInfo g fQueued pfnCallback l'
            (if rc =? 0 then rc2 else rc) cSent
      else sig_pgrp_loop iSignalNo pSigInfo g fQueued pfnCallback l' rc cSent
  end.

Definition spmSigQueuePGrp (iSignalNo : Z) (pSigInfo : option siginfo) (g : Z) (fQueued : bool)
    (pfnCallback : option (Z -> PROCESS -> Z)) : M (spm P) Z :=
  if negb (sig_args_ok iSignalNo pSigInfo) then mret (- EINVAL) else
  rc ← spmRequestMutex;
  if negb (rc =? 0) then mret rc else
  m ← getself;
  let g := if g =? 0 then pgrp (p_ids m) else g in
  l ← gethead PROCSTATE_ALIVE;
  '(rc, cSent) ← sig_pgrp_loop iSignalNo pSigInfo g fQueued pfnCallback l 0 0;
  mret (if rc =? 0 then if cSent =? 0 then - ESRCH else rc
        else if (rc =? - EPERM) && (0 <? cSent) then 0 else rc).

(** [__libc_spmSigPending]: the number of pending signals and their set. *)
Definition spmSigPending : M (spm P) (Z * list Z) :=
  rc ← spmRequestMutex;
  if negb (rc =? 0) then mret (rc, []) else
  m ← getself;
  mret (rc + alen (pSigHead m), (fun g => si_signo (sg_Info g)) <$> pSigHead m).

(** The loop of [__libc_spmSigDequeue] over the queue, from [pSig] on, whose
    predecessors that stay are [kept]. *)
Fixpoint sig_dequeue_loop (me iSignalNo : Z) (n : nat) (kept q : list SPMSIGNAL)
    : M (spm P) (list siginfo) :=
  match q with
  | [] => mret []
  | g :: q' =>
      match n with
      | O => mret []
      | S n' =>
          if si_signo (sg_Info g) =? iSignalNo then
            _ ← mmod (fun s => set_cSigActive (u32 (cSigActive s - 1)) s);
            _ ← updp me (set_pSigHead (kept ++ q'));
            _ ← spmFreeSignal g;
            out ← sig_dequeue_loop me iSignalNo n' kept q';
            mret (sg_Info g :: out)
          else sig_dequeue_loop me iSignalNo n (kept ++ [g]) q'
      end
  end.

Definition spmSigDequeue (iSignalNo : Z) (cSignals : nat) (cbSignal : Z)
    : M (spm P) (Z * list siginfo) :=
  if cbSignal <? sizeof_siginfo then mret (- EINVAL, []) else
  rc ← spmRequestMutex;
  if negb (rc =? 0) then mret (rc, []) else
  me ← self; m ← getp me;
  out ← sig_dequeue_loop me iSignalNo cSignals [] (pSigHead m);
  mret (alen out, out).

(** ** A new shared memory *)

Definition sizeof_SPMTCPIP : Z := 65544.

(** What [spmInit] does after it has zeroed the header and made the pool of a
    new shared memory: the socket table, which stays the header's, and eight
    signal blocks.  A failed allocation is written to all the same. *)
Definition spmInitCreate : M (spm P) unit :=
  o ← spmAlloc sizeof_SPMTCPIP;
  _ ← deref o;
  _ ← mmod (set_cSigMaxActive 1024);
  _ ← mmod (set_cSigFree 8);
  mfor (seq 0 8) (fun _ =>
    o ← spmAlloc sizeof_SPMSIGNAL;
    a ← deref o;
    mmod (fun s => set_pSigFreeHead
      (mk_SPMSIGNAL a sizeof_SPMSIGNAL 0 zero_siginfo :: pSigFreeHead s) s)).
End Spm.

(** The zeroed header. *)
Definition zero_spm {P} (q : P) : spm P :=
  mk_spm (mk_procheads [] [] [] [] []) ∅ [] [] 0 0 0 false q None (mk_osenv 0 [] []).
