(* ===== verification/SpmFacts.v ===== *)
(** The invariant of the process manager's memory, and the rules of the weakest
    precondition calculus for its internal functions.

    [Inv D W X s] says that every block of the pool the process manager knows of
    is owned by exactly one place: the process table with what hangs off the
    process blocks, the two free lists, or the running function, which holds
    the blocks [X]; that every process block is in the list of its state, but
    for the blocks [D] the running function has taken out; and that its
    contents fit its state, but for the blocks [W] it is working on. *)

From S2P Require Import Prelude Creds Spm.
#[local] Open Scope Z_scope.

(** ** Lists *)

Definition all_heads (h : procheads) : list Z :=
  hFree h ++ hEmbryo h ++ hAlive h ++ hZombie h ++ hReserved h.

Lemma head_set_head st st' l h :
  head_of st' (set_head st l h) = if decide (st = st') then l else head_of st' h.
Proof. by destruct st, st'. Qed.

Lemma set_head_same st l h : head_of st (set_head st l h) = l.
Proof. by destruct st. Qed.

Lemma all_heads_set st l0 l h :
  head_of st h ≡ₚ l0 ++ l -> all_heads h ≡ₚ l0 ++ all_heads (set_head st l h).
Proof. unfold all_heads. destruct st; cbn; intros ->; solve_Permutation. Qed.

Lemma NoDup_head st h : NoDup (all_heads h) -> NoDup (head_of st h).
Proof.
  rewrite (all_heads_set st (head_of st h) [] h) by (by rewrite app_nil_r).
  by intros [? _]%NoDup_app.
Qed.

Lemma elem_of_all_heads p h : p ∈ all_heads h <-> exists st, p ∈ head_of st h.
Proof.
  unfold all_heads. rewrite !elem_of_app. split.
  - intros [?|[?|[?|[?|?]]]];
      [exists PROCSTATE_FREE|exists PROCSTATE_EMBRYO|exists PROCSTATE_ALIVE
      |exists PROCSTATE_ZOMBIE|exists PROCSTATE_RESERVED]; done.
  - intros [[] ?]; cbn in *; tauto.
Qed.

Lemma list_difference_perm (p : Z) l :
  NoDup l -> p ∈ l -> l ≡ₚ p :: list_difference l [p].
Proof.
  intros Hl Hp. apply NoDup_Permutation; [done| |].
  - constructor; [|by apply NoDup_list_difference].
    rewrite list_elem_of_difference. intros [_ Hn]. apply Hn. by left.
  - intros x. rewrite elem_of_cons, list_elem_of_difference, list_elem_of_singleton.
    destruct (decide (x = p)) as [->|]; naive_solver.
Qed.

Lemma NoDup_sub (l k : list Z) : l ⊆+ k -> NoDup k -> NoDup l.
Proof. intros [l2 ->]%submseteq_Permutation. by intros [? _]%NoDup_app. Qed.

(** ** Ownership *)

Definition opt_block (a : Z) : list Z := if a =? 0 then [] else [a].

(** The blocks that hang off a process block. *)
Definition blocks (r : PROCESS) : list Z :=
  opt_block (pInherit r) ++ opt_block (pInheritLocked r) ++
  (sg_addr <$> pSigHead r) ++ (cn_addr <$> pChildNotifyHead r) ++
  (cn_addr <$> option_list (pTerm r)).

Definition pblocks (m : gmap Z PROCESS) : list Z :=
  map_to_list m ≫= (fun '(p, r) => p :: blocks r).

Lemma pblocks_delete m p r :
  m !! p = Some r -> pblocks m ≡ₚ p :: blocks r ++ pblocks (delete p m).
Proof.
  intros Hp. unfold pblocks. rewrite <-(map_to_list_delete m p r Hp). done.
Qed.

Lemma pblocks_insert m p r :
  pblocks (<[p := r]> m) ≡ₚ p :: blocks r ++ pblocks (delete p m).
Proof.
  rewrite (pblocks_delete _ p r) by (by rewrite lookup_insert_eq).
  by rewrite delete_insert_eq.
Qed.

Lemma elem_of_pblocks m p r a :
  m !! p = Some r -> a = p \/ a ∈ blocks r -> a ∈ pblocks m.
Proof.
  intros Hp Ha. rewrite (pblocks_delete m p r Hp), elem_of_cons, elem_of_app. tauto.
Qed.

Section Facts.
Context {P : Type} `{SpmPoolLaws P}.
Implicit Types (s : spm P) (D W X : list Z) (p : Z) (r : PROCESS).

Definition owned s : list Z :=
  pblocks (procs s) ++ (cn_addr <$> pChildNotifyFreeHead s) ++ (sg_addr <$> pSigFreeHead s).

(** What the state of a process says about its block. *)
Definition pwf r : Prop :=
  Forall (fun g => sg_pidSender g <> 0) (pSigHead r) /\
  match enmState r with
  | PROCSTATE_FREE => blocks r = []
  | PROCSTATE_EMBRYO => pSigHead r = [] /\ ppChildNotifyTail r = length (pChildNotifyHead r)
  | PROCSTATE_ALIVE => ppChildNotifyTail r = length (pChildNotifyHead r)
  | PROCSTATE_ZOMBIE => pSigHead r = [] /\ pChildNotifyHead r = []
  | PROCSTATE_RESERVED => False
  end.

Record Inv D W X s : Prop := mk_Inv {
  inv_pool : pool_ok (pool s);
  inv_nodup : NoDup (X ++ owned s);
  inv_used : forall a, a ∈ X ++ owned s -> a ∈ pool_used (pool s);
  inv_lists : NoDup (D ++ all_heads (apHeads s));
  inv_in : forall st p, p ∈ head_of st (apHeads s) ->
    exists r, procs s !! p = Some r /\ enmState r = st;
  inv_dom : forall p r, procs s !! p = Some r -> p ∈ D \/ p ∈ head_of (enmState r) (apHeads s);
  inv_D : forall p, p ∈ D -> is_Some (procs s !! p);
  inv_pwf : forall p r, procs s !! p = Some r -> p ∈ W \/ pwf r;
  inv_sigfree : cSigFree s = Z.of_nat (length (pSigFreeHead s)) /\ cSigFree s <= 32
}.

(** The parts of the state that memory management leaves alone. *)
Definition mem_only s s' : Prop :=
  apHeads s' = apHeads s /\ procs s' = procs s /\ cSigActive s' = cSigActive s /\
  cSigMaxActive s' = cSigMaxActive s /\ gpSPMSelf s' = gpSPMSelf s.

#[export] Instance mem_only_refl : Reflexive mem_only.
Proof. by intros s. Qed.
#[export] Instance mem_only_trans : Transitive mem_only.
Proof. intros s1 s2 s3 (?&?&?&?&?) (?&?&?&?&?). split_and!; congruence. Qed.

(** The invariant depends on the ownership as a set only, and blocks may be
    forgotten. *)
Lemma Inv_change D W X X' s s' :
  Inv D W X s -> X' ++ owned s' ⊆+ X ++ owned s -> pool s' = pool s ->
  apHeads s' = apHeads s -> procs s' = procs s ->
  cSigFree s' = Z.of_nat (length (pSigFreeHead s')) /\ cSigFree s' <= 32 -> Inv D W X' s'.
Proof.
  intros [] Hsub Hpool Hh Hp Hs. split; rewrite ?Hpool, ?Hh, ?Hp; try done.
  - by eapply NoDup_sub.
  - intros a Ha. apply inv_used0. by eapply elem_of_submseteq.
Qed.

Lemma Inv_forget D W X a s : Inv D W (a :: X) s -> Inv D W X s.
Proof.
  intros HI. eapply Inv_change; [exact HI|..]; try done; [|apply HI].
  cbn. by apply submseteq_cons.
Qed.

Lemma Inv_nonnull D W X s a : Inv D W X s -> a ∈ X ++ owned s -> 0 < a.
Proof. intros HI Ha. eapply pool_used_pos; [apply HI|by apply HI]. Qed.

Lemma Inv_proc_pos D W X s p r : Inv D W X s -> procs s !! p = Some r -> 0 < p.
Proof.
  intros HI Hp. apply (Inv_nonnull D W X s p HI). apply elem_of_app. right.
  unfold owned. rewrite !elem_of_app. left. eapply elem_of_pblocks; eauto.
Qed.

(** ** The primitives *)

Lemma wp_getp p r Q E s : procs s !! p = Some r -> Q r s -> wp (getp p) Q E s.
Proof. unfold wp, getp. by intros ->. Qed.

Lemma wp_gethead st Q E s : Q (head_of st (apHeads s)) s -> wp (gethead st) Q E s.
Proof. done. Qed.

Lemma wp_self me Q E s : gpSPMSelf s = Some me -> Q me s -> wp self Q E s.
Proof. unfold wp, self, mbind, M_bind, gets. by intros ->. Qed.

Lemma wp_updp p f Q E s r :
  procs s !! p = Some r -> Q () (set_procs (<[p := f r]> (procs s)) s) -> wp (updp p f) Q E s.
Proof. intros Hr HQ. unfold wp, updp, mbind, M_bind, getp. rewrite Hr. done. Qed.

(** The memory that a function gives back. *)
Lemma wp_spmFree_pool D W X a s :
  Inv D W (a :: X) s ->
  wp (spmFree a) (fun rc s' => rc = 0 /\ Inv D W X s' /\ exists m, s' = set_pool m s)
     (fun _ _ => False) s.
Proof.
  intros HI. unfold wp, spmFree, on_pool.
  destruct (pool_free_law (pool s) a) as (m' & -> & Hok & Hused).
  { apply HI. } { apply HI. by left. }
  split; [done|]. split; [|by eexists]. destruct HI. split; try done; cbn.
  - by apply NoDup_cons in inv_nodup0 as [_ ?].
  - intros b Hb. rewrite Hused. apply elem_of_difference. split.
    { apply inv_used0. by right. }
    intros ->%elem_of_singleton. by apply NoDup_cons in inv_nodup0 as [? _].
Qed.

Lemma wp_spmFree D W X a s :
  Inv D W (a :: X) s ->
  wp (spmFree a) (fun rc s' => rc = 0 /\ Inv D W X s' /\ mem_only s s') (fun _ _ => False) s.
Proof.
  intros HI. eapply wp_conseq; [by eapply wp_spmFree_pool| |done].
  by intros rc s' (? & ? & m & ->).
Qed.

Lemma wp_spmFree_null s :
  wp (spmFree 0) (fun rc s' => rc = 0 /\ s' = s) (fun _ _ => False) s.
Proof.
  unfold wp, spmFree, on_pool. rewrite pool_free_null. cbn. split; [done|]. by destruct s.
Qed.

Lemma wp_spmFree_opt D W X a s :
  Inv D W (opt_block a ++ X) s ->
  wp (spmFree a) (fun rc s' => rc = 0 /\ Inv D W X s' /\ mem_only s s') (fun _ _ => False) s.
Proof.
  unfold opt_block. destruct (Z.eqb_spec a 0) as [->|Ha]; cbn.
  - intros HI. eapply wp_conseq; [apply wp_spmFree_null| |done].
    by intros ?? [-> ->].
  - apply wp_spmFree.
Qed.

Lemma wp_spmAllocSub D W X sz s :
  Inv D W X s -> 16 <= sz -> sz mod 8 = 0 ->
  wp (spmAllocSub sz) (fun o s' => mem_only s s' /\
      match o with None => Inv D W X s' | Some a => Inv D W (a :: X) s' end) (fun _ _ => False) s.
Proof.
  intros HI Hsz Hm. unfold wp, spmAllocSub, on_pool.
  destruct (pool_alloc_law (pool s) sz) as (o & m' & -> & Hok & Hused); [apply HI|done|done|].
  split; [done|]. destruct HI. destruct o as [a|]; [destruct Hused as [Hna Hused]|];
    split; try done; cbn.
  - constructor; [|done]. intros Ha. by apply Hna, inv_used0.
  - intros b Hb. rewrite Hused. apply elem_of_cons in Hb as [->|Hb]; [set_solver|].
    apply elem_of_union_r, inv_used0, Hb.
  - by rewrite Hused.
Qed.

Lemma wp_spmFreeChildNotify D W X n s :
  Inv D W (cn_addr n :: X) s ->
  wp (spmFreeChildNotify n) (fun _ s' => Inv D W X s' /\ mem_only s s') (fun _ _ => False) s.
Proof.
  intros HI. split; [|done]. eapply Inv_change; [exact HI|..]; try done; [|apply HI].
  unfold owned. cbn. apply Permutation_submseteq. solve_Permutation.
Qed.

Lemma wp_spmFreeSignal D W X g s :
  Inv D W (sg_addr g :: X) s -> sg_pidSender g <> 0 ->
  wp (spmFreeSignal g) (fun _ s' => Inv D W X s' /\ mem_only s s') (fun _ _ => False) s.
Proof.
  intros HI Hg. unfold spmFreeSignal. zbool. wp_steps.
  - split; [|done]. destruct (inv_sigfree _ _ _ _ HI) as [Hn Hle]. breflect.
    eapply Inv_change; [exact HI|..]; try done; cbn.
    + unfold owned. cbn. apply Permutation_submseteq. solve_Permutation.
    + rewrite u32_small by lia. lia.
  - eapply wp_conseq; [by eapply wp_spmFree| |done]. by intros ?? (?&?&?).
Qed.

(** Lists of blocks are given back one by one. *)
Lemma wp_for_free {A} (addr : A -> Z) (ok : A -> Prop) (f : A -> M (spm P) unit) D W X l s :
  (forall x X s, Inv D W (addr x :: X) s -> ok x ->
     wp (f x) (fun _ s' => Inv D W X s' /\ mem_only s s') (fun _ _ => False) s) ->
  Forall ok l -> Inv D W ((addr <$> l) ++ X) s ->
  wp (mfor l f) (fun _ s' => Inv D W X s' /\ mem_only s s') (fun _ _ => False) s.
Proof.
  intros Hf Hok. revert s. induction Hok as [|x l Hx Hl IH]; intros s HI; cbn.
  { by apply wp_ret. }
  apply wp_bind. eapply wp_conseq; [by apply (Hf x ((addr <$> l) ++ X))| |done].
  intros _ s1 [HI1 Hm1]. eapply wp_conseq; [by apply IH| |done].
  intros _ s2 [HI2 Hm2]. split; [done|by etrans].
Qed.

(** ** Changing a process block *)

Definition upd p r s : spm P := set_procs (<[p := r]> (procs s)) s.

Lemma Inv_upd D W X X' s p r r' :
  Inv D W X s -> procs s !! p = Some r -> X' ++ blocks r' ⊆+ X ++ blocks r ->
  p ∈ D \/ enmState r' = enmState r -> p ∈ W \/ pwf r' -> Inv D W X' (upd p r' s).
Proof.
  intros HI Hp Hsub Hr' Hw.
  assert (Hown : X' ++ owned (upd p r' s) ⊆+ X ++ owned s).
  { unfold owned, upd. cbn.
    rewrite pblocks_insert, (pblocks_delete (procs s) p r Hp).
    set (T := (cn_addr <$> pChildNotifyFreeHead s) ++ (sg_addr <$> pSigFreeHead s)).
    transitivity ((X' ++ blocks r') ++ p :: pblocks (delete p (procs s)) ++ T).
    { apply Permutation_submseteq. solve_Permutation. }
    transitivity ((X ++ blocks r) ++ p :: pblocks (delete p (procs s)) ++ T).
    { by apply submseteq_skips_r. }
    apply Permutation_submseteq. solve_Permutation. }
  destruct HI. split; try done; unfold upd; cbn.
  - by eapply NoDup_sub.
  - intros a Ha. apply inv_used0. by eapply elem_of_submseteq.
  - intros st q Hq. destruct (inv_in0 st q Hq) as (rq & Hrq & Hst).
    destruct (decide (p = q)) as [<-|Hne]; [|by rewrite lookup_insert_ne; eauto].
    rewrite lookup_insert_eq. eexists; split; [done|]. simplify_eq.
    destruct Hr' as [HD| ->]; [|done]. exfalso.
    apply NoDup_app in inv_lists0 as (_ & Hd & _). apply (Hd p HD), elem_of_all_heads. eauto.
  - intros q rq. destruct (decide (p = q)) as [<-|Hne].
    + rewrite lookup_insert_eq. intros [= <-]. destruct Hr' as [HD| ->]; [by left|]. eauto.
    + rewrite lookup_insert_ne by done. eauto.
  - intros q Hq. apply inv_D0 in Hq. destruct (decide (p = q)) as [<-|Hne].
    + by rewrite lookup_insert_eq.
    + by rewrite lookup_insert_ne.
  - intros q rq. destruct (decide (p = q)) as [<-|Hne].
    + rewrite lookup_insert_eq. intros [= <-]. tauto.
    + rewrite lookup_insert_ne by done. eauto.
Qed.

Lemma Inv_link D W X s p r :
  Inv (p :: D) W X s -> procs s !! p = Some r ->
  Inv D W X (set_apHeads (set_head (enmState r) (p :: head_of (enmState r) (apHeads s)) (apHeads s)) s).
Proof.
  intros HI Hp. destruct HI. split; try done; cbn.
  - rewrite (all_heads_set (enmState r) [] (head_of (enmState r) (apHeads s))) in inv_lists0 by done.
    eapply NoDup_Permutation_proper; [|exact inv_lists0]. cbn.
    rewrite (all_heads_set (enmState r) [p] (head_of (enmState r) (apHeads s)))
      by (by rewrite set_head_same).
    destruct (enmState r), (apHeads s); cbn; solve_Permutation.
  - intros st q. rewrite head_set_head. case_decide as Hst; [|eauto].
    intros [->|Hq]%elem_of_cons; [by eauto|]. subst. eauto.
  - intros q rq Hq. rewrite head_set_head. apply inv_dom0 in Hq as Hd.
    destruct (decide (q = p)) as [->|Hne].
    + simplify_eq. right. rewrite decide_True by done. by left.
    + destruct Hd as [[->|?]%elem_of_cons|Hd]; [done|by left|]. right.
      case_decide as Hst; [|done]. right. by rewrite Hst.
  - intros q Hq. apply inv_D0. by right.
Qed.

(** Taking a block out of a list. *)
Lemma Inv_take D W X s p st l :
  Inv D W X s -> head_of st (apHeads s) ≡ₚ p :: l ->
  Inv (p :: D) W X (set_apHeads (set_head st l (apHeads s)) s).
Proof.
  intros HI Hl. pose proof (all_heads_set st [p] l (apHeads s) Hl) as Hall.
  destruct HI. split; try done; cbn.
  - rewrite Hall in inv_lists0. eapply NoDup_Permutation_proper; [|exact inv_lists0].
    cbn. solve_Permutation.
  - intros st' q. rewrite head_set_head. case_decide as Hst; [|eauto].
    intros Hq. subst. apply inv_in0. rewrite Hl. by right.
  - intros q rq Hq. rewrite head_set_head. destruct (decide (q = p)) as [->|Hne].
    { left. by left. }
    destruct (inv_dom0 _ _ Hq) as [?|Hin]; [left; by right|]. right.
    case_decide as Hst; [|done]. rewrite <-Hst, Hl in Hin. by apply elem_of_cons in Hin as [?|?].
  - intros q [->|Hq]%elem_of_cons; [|by apply inv_D0].
    destruct (inv_in0 st p) as (r & ? & _); [rewrite Hl; by left|by eauto].
Qed.

Lemma Inv_unlink D W X s p r :
  Inv D W X s -> procs s !! p = Some r -> p ∉ D ->
  p ∈ head_of (enmState r) (apHeads s) /\
  Inv (p :: D) W X (set_apHeads (set_head (enmState r)
       (list_difference (head_of (enmState r) (apHeads s)) [p]) (apHeads s)) s).
Proof.
  intros HI Hp HD.
  assert (Hin : p ∈ head_of (enmState r) (apHeads s)).
  { destruct (inv_dom _ _ _ _ HI _ _ Hp); [done|done]. }
  split; [done|]. apply Inv_take; [done|]. apply list_difference_perm; [|done].
  apply (inv_lists _ _ _ _) in HI as (_ & _ & Hnd)%NoDup_app. by apply NoDup_head.
Qed.

(** A block fresh from the pool becomes a process block. *)
Lemma Inv_new D W X s p r :
  Inv D W (p :: X) s -> blocks r = [] -> pwf r ->
  Inv (p :: D) W X (set_procs (<[p := r]> (procs s)) s) /\ procs s !! p = None.
Proof.
  intros HI Hbl Hwf.
  assert (Hnone : procs s !! p = None).
  { destruct (procs s !! p) as [r0|] eqn:Hp; [|done].
    apply inv_nodup, NoDup_cons in HI as [Hn _]. exfalso. apply Hn, elem_of_app. right.
    unfold owned. rewrite elem_of_app. left. eapply elem_of_pblocks; eauto. }
  split; [|done].
  assert (Hown : X ++ owned (set_procs (<[p := r]> (procs s)) s) ≡ₚ (p :: X) ++ owned s).
  { unfold owned. cbn. rewrite pblocks_insert, Hbl, delete_id by done. cbn. solve_Permutation. }
  destruct HI. split; try done; cbn.
  - by rewrite Hown.
  - intros a. rewrite Hown. apply inv_used0.
  - constructor; [|done]. intros Hp. apply elem_of_app in Hp as [Hp|Hp].
    + apply inv_D0 in Hp as [? ?]. congruence.
    + apply elem_of_all_heads in Hp as [st Hp]. apply inv_in0 in Hp as (? & ? & ?). congruence.
  - intros st q Hq. destruct (inv_in0 st q Hq) as (rq & Hrq & ?). exists rq.
    rewrite lookup_insert_ne; [done|]. intros ->. congruence.
  - intros q rq. destruct (decide (p = q)) as [<-|Hne]; [left; by left|].
    rewrite lookup_insert_ne by done. intros Hq.
    destruct (inv_dom0 _ _ Hq) as [?|?]; [left; by right|by right].
  - intros q [->|Hq]%elem_of_cons; [by rewrite lookup_insert_eq|].
    destruct (decide (p = q)) as [<-|Hne]; [by rewrite lookup_insert_eq|].
    rewrite lookup_insert_ne by done. by apply inv_D0.
  - intros q rq. destruct (decide (p = q)) as [<-|Hne].
    + rewrite lookup_insert_eq. intros [= <-]. by right.
    + rewrite lookup_insert_ne by done. eauto.
Qed.

Lemma wp_unlink D W X p r Q E s :
  Inv D W X s -> procs s !! p = Some r -> p ∉ D ->
  (forall s', s' = set_apHeads (set_head (enmState r)
        (list_difference (head_of (enmState r) (apHeads s)) [p]) (apHeads s)) s ->
     Inv (p :: D) W X s' -> Q () s') ->
  wp (unlink p) Q E s.
Proof.
  intros HI Hp HD HQ. destruct (Inv_unlink D W X s p r HI Hp HD) as [Hin HI'].
  unfold unlink. apply wp_bind. eapply wp_getp; [eassumption|].
  unfold gethead. wp_steps; breflect; [|done].
  unfold puthead. apply wp_mod. by eapply HQ.
Qed.

(** ** Freeing what hangs off a process block *)

Lemma Inv_weaken D W W' X s : Inv D W X s -> W ⊆ W' -> Inv D W' X s.
Proof. intros [] HW. split; try done. intros p r Hp. destruct (inv_pwf0 p r Hp); auto. Qed.

Lemma Inv_finish D W X s p r :
  Inv D (p :: W) X s -> procs s !! p = Some r -> pwf r -> Inv D W X s.
Proof.
  intros [] Hp Hwf. split; try done. intros q rq Hq.
  destruct (inv_pwf0 q rq Hq) as [[->|?]%elem_of_cons|?]; [|by left|by right].
  right. by simplify_eq.
Qed.

(** [s'] is [s] with the block at [p] replaced by [r'], up to memory
    management. *)
Definition mem_upd p r' s s' : Prop := mem_only (upd p r' s) s'.

Lemma mem_upd_lookup p r' s s' : mem_upd p r' s s' -> procs s' !! p = Some r'.
Proof. intros (_ & -> & _). unfold upd. cbn. by rewrite lookup_insert_eq. Qed.

Lemma mem_upd_trans p r1 r2 s s1 s2 :
  mem_upd p r1 s s1 -> mem_upd p r2 s1 s2 -> mem_upd p r2 s s2.
Proof.
  unfold mem_upd, mem_only, upd. cbn. intros (?&E1&?&?&?) (?&E2&?&?&?).
  split_and!; try congruence.
  by rewrite E2, E1, insert_insert_eq.
Qed.

Lemma mem_upd_only p r' s s1 s2 : mem_upd p r' s s1 -> mem_only s1 s2 -> mem_upd p r' s s2.
Proof. unfold mem_upd. intros. by etrans. Qed.

Lemma mem_upd_upd p r' s : mem_upd p r' s (upd p r' s).
Proof. done. Qed.

Lemma mem_upd_refl p r s : procs s !! p = Some r -> mem_upd p r s s.
Proof. intros Hp. split_and!; try done. unfold upd. cbn. by rewrite insert_id. Qed.

Definition no_inherit r : PROCESS := set_pInheritLocked 0 (set_pInherit 0 r).
(** What [spmFreeData] leaves. *)
Definition clean r : PROCESS := set_pChildNotifyHead [] (set_pSigHead [] (no_inherit r)).

Lemma blocks_no_inherit r :
  blocks (no_inherit r) =
  (sg_addr <$> pSigHead r) ++ (cn_addr <$> pChildNotifyHead r) ++ (cn_addr <$> option_list (pTerm r)).
Proof. done. Qed.

(** A change of a block that is being worked on. *)
Lemma wp_updp_work D W X X' p f r Q E s :
  Inv D W X s -> procs s !! p = Some r -> p ∈ W -> X' ++ blocks (f r) ⊆+ X ++ blocks r ->
  enmState (f r) = enmState r ->
  (Inv D W X' (upd p (f r) s) -> Q () (upd p (f r) s)) -> wp (updp p f) Q E s.
Proof.
  intros HI Hp HW Hsub Hst HQ. apply (wp_updp p f Q E s r Hp), HQ.
  eapply Inv_upd; eauto.
Qed.

Lemma wp_free_inherit D W X p r s :
  Inv D W X s -> procs s !! p = Some r -> p ∈ W ->
  let pv := if pInheritLocked r =? 0 then pInherit r else pInheritLocked r in
  wp (mwhen (negb (pv =? 0))
        (_ ← updp p (fun r => set_pInheritLocked 0 (set_pInherit 0 r));
         _ ← spmFree pv; mret ()))
     (fun _ s' => Inv D W X s' /\ mem_upd p (no_inherit r) s s') (fun _ _ => False) s.
Proof.
  intros HI Hp HW pv. wp_step; breflect.
  - apply wp_bind. eapply (wp_updp_work D W X (pv :: X)); try done.
    { fold (no_inherit r). rewrite blocks_no_inherit. unfold blocks, opt_block, pv in *.
      destruct (Z.eqb_spec (pInheritLocked r) 0); [rewrite (proj2 (Z.eqb_neq _ _)) by done|];
        [apply Permutation_submseteq; solve_Permutation|].
      set (O := if pInherit r =? 0 then [] else [pInherit r]).
      match goal with |- ?l ⊆+ _ => transitivity (O ++ l) end.
      - by apply submseteq_inserts_l.
      - apply Permutation_submseteq. solve_Permutation. }
    intros HI1. apply wp_bind. eapply wp_conseq; [by eapply wp_spmFree| |done].
    intros rc s2 (_ & HI2 & Hm). apply wp_ret. split; [done|].
    eapply mem_upd_only; [|exact Hm]. apply mem_upd_upd.
  - split; [done|]. unfold pv in *.
    destruct (Z.eqb_spec (pInheritLocked r) 0) as [HL|]; [|done].
    replace (no_inherit r) with r; [by apply mem_upd_refl|].
    destruct r; cbn in *; by subst.
Qed.

Lemma wp_spmFreeData D W X p r s :
  Inv D W X s -> procs s !! p = Some r -> Forall (fun g => sg_pidSender g <> 0) (pSigHead r) ->
  wp (spmFreeData p)
     (fun _ s' => Inv D (p :: W) X s' /\ mem_upd p (clean r) s s') (fun _ _ => False) s.
Proof.
  intros HI Hp Hg. apply (Inv_weaken _ _ (p :: W)) in HI; [|set_solver].
  unfold spmFreeData. apply wp_bind. eapply wp_getp; [eassumption|].
  apply wp_bind. eapply wp_conseq; [eapply wp_free_inherit; [done|done|by left]| |done].
  intros _ s1 [HI1 Hm1]. pose proof (mem_upd_lookup _ _ _ _ Hm1) as Hp1.
  apply wp_bind. eapply wp_getp; [eassumption|].
  apply wp_bind. eapply (wp_updp_work D _ X ((sg_addr <$> pSigHead r) ++ X)); try done; [by left| |].
  { apply Permutation_submseteq. rewrite blocks_no_inherit. unfold blocks. cbn. solve_Permutation. }
  intros HI2. apply wp_bind. eapply wp_conseq; [eapply (wp_for_free sg_addr); [|exact Hg|exact HI2]| |done].
  { intros. by apply wp_spmFreeSignal. }
  intros _ s3 [HI3 Hm3].
  assert (Hm3' : mem_upd p (set_pSigHead [] (no_inherit r)) s s3).
  { eapply mem_upd_trans; [exact Hm1|]. eapply mem_upd_only; [apply mem_upd_upd|exact Hm3]. }
  pose proof (mem_upd_lookup _ _ _ _ Hm3') as Hp3.
  apply wp_bind. eapply wp_getp; [eassumption|].
  apply wp_bind.
  eapply (wp_updp_work D _ X ((cn_addr <$> pChildNotifyHead r) ++ X)); try done; [by left| |].
  { apply Permutation_submseteq. unfold blocks. cbn. solve_Permutation. }
  intros HI4. eapply wp_conseq;
    [eapply (wp_for_free cn_addr (fun _ => True)); [|by apply Forall_true|exact HI4]| |done].
  { intros. by apply wp_spmFreeChildNotify. }
  intros _ s5 [HI5 Hm5]. split; [done|].
  eapply mem_upd_trans; [exact Hm3'|]. eapply mem_upd_only; [apply mem_upd_upd|exact Hm5].
Qed.

(** ** Moving a process block to another list *)

Definition move_head p st st' (h : procheads) : procheads :=
  let h1 := set_head st (list_difference (head_of st h) [p]) h in
  set_head st' (p :: head_of st' h1) h1.

(** [s'] is [s] with the block at [p], which held [r], turned into [r'] and
    moved to the list of its new state. *)
Definition moved p r r' s s' : Prop :=
  procs s' = <[p := r']> (procs s) /\
  apHeads s' = move_head p (enmState r) (enmState r') (apHeads s) /\
  cSigActive s' = cSigActive s /\ cSigMaxActive s' = cSigMaxActive s /\
  gpSPMSelf s' = gpSPMSelf s.

Lemma wp_link D W X p r st Q E s :
  Inv (p :: D) W X s -> procs s !! p = Some r -> enmState r = st ->
  (forall s', s' = set_apHeads (set_head st (p :: head_of st (apHeads s)) (apHeads s)) s ->
     Inv D W X s' -> Q () s') -> wp (link st p) Q E s.
Proof.
  intros HI Hp <- HQ. apply (Inv_link D W X s p r) in HI; [|done].
  unfold link, gethead, puthead. wp_steps. by eapply HQ.
Qed.

(** The three steps that follow the release of the data. *)
Lemma wp_move D W X p r st s :
  Inv D W X s -> procs s !! p = Some r -> p ∉ D -> p ∈ W ->
  wp (_ ← unlink p; _ ← updp p (set_enmState st); link st p)
     (fun _ s' => Inv D W X s' /\ moved p r (set_enmState st r) s s') (fun _ _ => False) s.
Proof.
  intros HI Hp HD HW. apply wp_bind. eapply wp_unlink; [done|done|done|].
  intros s1 -> HI1. apply wp_bind, (wp_updp _ _ _ _ _ r); [done|].
  eapply wp_link.
  - eapply Inv_upd; [exact HI1|done| |left; by left|by left].
    unfold blocks. cbn. done.
  - unfold upd. cbn. by rewrite lookup_insert_eq.
  - done.
  - intros s' -> HI'. by split.
Qed.

Definition freed r : PROCESS := set_enmState PROCSTATE_FREE (set_pTerm None (clean r)).
Definition zombied r : PROCESS := set_enmState PROCSTATE_ZOMBIE (clean r).

Lemma moved_upd p r r0 r' s s1 s2 :
  mem_upd p r0 s s1 -> enmState r0 = enmState r -> moved p r0 r' s1 s2 -> moved p r r' s s2.
Proof.
  unfold mem_upd, mem_only, moved, upd. cbn. intros (E1&E2&?&?&?) Hst (E3&E4&?&?&?).
  split_and!; try congruence.
  - by rewrite E3, E2, insert_insert_eq.
Qed.

Lemma wp_spmFreeProcess D W X p r s :
  Inv D W X s -> procs s !! p = Some r -> p ∉ D ->
  Forall (fun g => sg_pidSender g <> 0) (pSigHead r) ->
  wp (spmFreeProcess p)
     (fun _ s' => Inv D W X s' /\ moved p r (freed r) s s') (fun _ _ => False) s.
Proof.
  intros HI Hp HD Hg. unfold spmFreeProcess. apply wp_bind.
  eapply wp_conseq; [by eapply wp_spmFreeData| |done]. intros _ s1 [HI1 Hm1].
  pose proof (mem_upd_lookup _ _ _ _ Hm1) as Hp1.
  apply wp_bind. eapply wp_getp; [eassumption|]. apply wp_bind.
  apply (wp_conseq _ (fun _ s2 => Inv D (p :: W) X s2 /\ mem_upd p (set_pTerm None (clean r)) s s2)
           _ (fun _ _ => False)); [| |done].
  { cbn. destruct (pTerm r) as [n|] eqn:Hn.
    - (* the termination notice *)
      unfold spmFreeChildNotify. wp_steps.
      assert (HI2 : Inv D (p :: W) (cn_addr n :: X) (upd p (set_pTerm None (clean r)) s1)).
      { eapply Inv_upd; [exact HI1|done| |by right|left; by left].
        apply Permutation_submseteq. unfold blocks. cbn. rewrite Hn. cbn. solve_Permutation. }
      apply (wp_updp _ _ _ _ _ (clean r)); [done|]. split.
      + eapply Inv_change; [exact HI2|..]; try done; [|apply HI2].
        unfold owned. cbn. apply Permutation_submseteq. solve_Permutation.
      + eapply mem_upd_trans; [exact Hm1|]. split_and!; done.
    - split; [done|]. replace (set_pTerm None (clean r)) with (clean r); [done|].
      destruct r; cbn in *; by subst. }
  intros _ s2 [HI2 Hm2]. pose proof (mem_upd_lookup _ _ _ _ Hm2) as Hp2.
  apply wp_bind. eapply wp_getp; [eassumption|]. apply wp_bind. cbn.
  apply wp_bind. eapply wp_getp; [eassumption|]. apply wp_bind. cbn.
  eapply wp_conseq; [eapply wp_move; [done|done|done|by left]| |done].
  intros _ s3 [HI3 Hm3]. split.
  - eapply (Inv_finish _ _ _ _ p); [exact HI3| |].
    + destruct Hm3 as (-> & _). by rewrite lookup_insert_eq.
    + split; [by apply Forall_nil|done].
  - by eapply moved_upd; [exact Hm2| |].
Qed.

Lemma moved_lookup p r r' s s' : moved p r r' s s' -> procs s' !! p = Some r'.
Proof. intros (-> & _). by rewrite lookup_insert_eq. Qed.

(** The reference count [spmZombieOrFree] leaves, and what becomes of the
    block. *)
Definition dropped r : PROCESS :=
  if 0 <? cReferences r then set_cReferences (cReferences r - 1) r else r.
Definition zombie_or_free r : PROCESS :=
  if cReferences (dropped r) =? 0 then freed (dropped r) else zombied (dropped r).

Lemma dropped_same r :
  enmState (dropped r) = enmState r /\ blocks (dropped r) = blocks r /\
  pSigHead (dropped r) = pSigHead r /\ pwf r = pwf (dropped r).
Proof. unfold dropped. by destruct (0 <? cReferences r). Qed.

Lemma wp_spmZombieOrFree D W X p r s :
  Inv D W X s -> procs s !! p = Some r -> p ∉ D -> pwf r -> enmState r <> PROCSTATE_ZOMBIE ->
  wp (spmZombieOrFree p)
     (fun _ s' => Inv D W X s' /\ moved p r (zombie_or_free r) s s') (fun _ _ => False) s.
Proof.
  intros HI Hp HD Hwf Hnz. destruct (dropped_same r) as (Hst & Hbl & Hsig & Hwf').
  unfold spmZombieOrFree. apply wp_bind, (wp_updp _ _ _ _ _ r Hp). fold (dropped r).
  assert (HI1 : Inv D W X (upd p (dropped r) s)).
  { eapply Inv_upd; [done|done| |by right|right]; [by rewrite Hbl|by rewrite <-Hwf']. }
  assert (Hp1 : procs (upd p (dropped r) s) !! p = Some (dropped r)).
  { unfold upd. cbn. by rewrite lookup_insert_eq. }
  fold (upd p (dropped r) s). apply wp_bind. eapply wp_getp; [eassumption|]. unfold zombie_or_free.
  destruct (cReferences (dropped r) =? 0).
  - eapply wp_conseq; [eapply wp_spmFreeProcess; try done; by rewrite Hsig; apply Hwf| |done].
    intros _ s2 [HI2 Hm2]. split; [done|]. by eapply moved_upd; [apply mem_upd_upd| |].
  - rewrite bool_decide_eq_false_2 by congruence. cbn. apply wp_bind.
    eapply wp_conseq; [eapply wp_spmFreeData; try done; by rewrite Hsig; apply Hwf| |done].
    intros _ s2 [HI2 Hm2].
    eapply wp_conseq; [eapply wp_move; [done|by eapply mem_upd_lookup|done|by left]| |done].
    intros _ s3 [HI3 Hm3]. split.
    + eapply (Inv_finish _ _ _ _ p); [exact HI3|by eapply moved_lookup|].
      split; [by apply Forall_nil|done].
    + eapply moved_upd; [apply mem_upd_upd|done|].
      eapply moved_upd; [exact Hm2|done|exact Hm3].
Qed.
End Facts.
