(* ===== verification/SpmAlloc.v ===== *)
(** Allocation in the process manager: [spmAlloc] frees what it can when the
    pool has no room left, and disturbs no process that lives or that anyone
    refers to. *)

From S2P Require Import Prelude Creds Spm SpmFacts.

Section Alloc.
Context {P : Type} `{SpmPoolLaws P}.
Implicit Types (s : spm P) (D W X : list Z) (p : Z) (r : PROCESS).

(** ** What allocation may change *)

(** Inherit data may be taken away; nothing else of a process changes. *)
Definition same_proc r r' : Prop := r' = r \/ r' = set_pInherit 0 r.

#[export] Instance same_proc_refl : Reflexive same_proc.
Proof. by left. Qed.
#[export] Instance same_proc_trans : Transitive same_proc.
Proof. intros r1 r2 r3 [->| ->] [->| ->]; by (left + right). Qed.

Lemma same_proc_state r r' : same_proc r r' -> enmState r' = enmState r.
Proof. by intros [->| ->]. Qed.

(** The blocks that stay. *)
Definition kept D p r : Prop :=
  p ∈ D \/ enmState r = PROCSTATE_ALIVE \/ enmState r = PROCSTATE_ZOMBIE \/
  (enmState r = PROCSTATE_EMBRYO /\ cReferences r <> 0).

Record frame D s s' : Prop := mk_frame {
  fr_self : gpSPMSelf s' = gpSPMSelf s;
  fr_active : cSigActive s' = cSigActive s;
  fr_max : cSigMaxActive s' = cSigMaxActive s;
  fr_alive : hAlive (apHeads s') = hAlive (apHeads s);
  fr_zombie : hZombie (apHeads s') = hZombie (apHeads s);
  fr_keep : forall p r, procs s !! p = Some r -> kept D p r ->
    exists r', procs s' !! p = Some r' /\ same_proc r r';
  fr_new : forall p r', procs s' !! p = Some r' -> p ∈ D \/ enmState r' <> PROCSTATE_FREE ->
    exists r, procs s !! p = Some r /\ same_proc r r'
}.

Lemma kept_same D p r r' : same_proc r r' -> kept D p r -> kept D p r'.
Proof. by intros [->| ->]. Qed.

#[export] Instance frame_refl D : Reflexive (frame D).
Proof. intros s. split; try done; intros p r Hp _; by exists r. Qed.
#[export] Instance frame_trans D : Transitive (frame D).
Proof.
  intros s1 s2 s3 F1 F2. split; try (etrans; [apply F2|apply F1]).
  - intros p r Hp Hk. destruct (fr_keep _ _ _ F1 p r Hp Hk) as (r1 & Hp1 & E1).
    destruct (fr_keep _ _ _ F2 p r1 Hp1) as (r2 & Hp2 & E2); [by eapply kept_same|].
    exists r2. split; [done|by etrans].
  - intros p r' Hp Hk. destruct (fr_new _ _ _ F2 p r' Hp Hk) as (r1 & Hp1 & E1).
    destruct (fr_new _ _ _ F1 p r1 Hp1) as (r2 & Hp2 & E2).
    { by rewrite <-(same_proc_state _ _ E1). }
    exists r2. split; [done|by etrans].
Qed.

Lemma mem_only_frame D s s' : mem_only s s' -> frame D s s'.
Proof.
  intros (Hh & Hp & Ha & Hm & Hs). split; rewrite ?Hh; try done;
    intros p r Hr _; exists r; (split; [congruence|done]).
Qed.

(** [for (x in l) f(x)] over distinct elements that stay [live] until their
    turn. *)
Lemma wp_for_live {A T} (f : A -> M T unit) (live : A -> T -> Prop) (I : T -> Prop)
    (R : T -> T -> Prop) `{!Reflexive R, !Transitive R} l (t : T) :
  NoDup l -> (forall x, x ∈ l -> live x t) -> I t ->
  (forall x t, I t -> live x t -> wp (f x) (fun _ t' =>
     I t' /\ R t t' /\ forall y, y <> x -> live y t -> live y t') (fun _ _ => False) t) ->
  wp (mfor l f) (fun _ t' => I t' /\ R t t') (fun _ _ => False) t.
Proof.
  intros Hnd. revert t. induction Hnd as [|x l Hx Hnd IH]; intros t Hl HI Hf; cbn; [done|].
  apply wp_bind. eapply wp_conseq; [apply Hf; [done|apply Hl; by left]| |done].
  intros _ t1 (HI1 & HR1 & Hlive). eapply wp_conseq; [apply IH| |done]; try done.
  - intros y Hy. apply Hlive; [by intros ->|]. apply Hl. by right.
  - intros _ t2 [HI2 HR2]. split; [done|by etrans].
Qed.

(** ** Reaping *)

Definition is_embryo p s : Prop :=
  exists r, procs s !! p = Some r /\ enmState r = PROCSTATE_EMBRYO.

Lemma Inv_head_nodup D W X s st : Inv D W X s -> NoDup (head_of st (apHeads s)).
Proof. intros HI%inv_lists%NoDup_app. apply NoDup_head, HI. Qed.

Lemma Inv_head_D D W X s st p : Inv D W X s -> p ∈ head_of st (apHeads s) -> p ∉ D.
Proof.
  intros (_ & Hd & _)%inv_lists%NoDup_app Hp HD.
  apply (Hd p HD), elem_of_all_heads. eauto.
Qed.

Lemma Inv_embryo_D D W X s p : Inv D W X s -> p ∈ hEmbryo (apHeads s) -> is_embryo p s /\ p ∉ D.
Proof.
  intros HI Hp. split; [by apply (inv_in _ _ _ _ HI PROCSTATE_EMBRYO)|].
  by apply (Inv_head_D D W X s PROCSTATE_EMBRYO).
Qed.

(** Freeing an embryo that nobody refers to. *)
Lemma wp_free_embryo D X p r s :
  Inv D [] X s -> procs s !! p = Some r -> enmState r = PROCSTATE_EMBRYO -> p ∉ D ->
  cReferences r = 0 ->
  wp (spmFreeProcess p) (fun _ s' => Inv D [] X s' /\ frame D s s' /\
       forall q, q <> p -> is_embryo q s -> is_embryo q s') (fun _ _ => False) s.
Proof.
  intros HI Hp Hst HD Href.
  assert (Hwf : pwf r) by (destruct (inv_pwf _ _ _ _ HI _ _ Hp) as [[]%elem_of_nil|]; done).
  eapply wp_conseq; [eapply wp_spmFreeProcess; try done; apply Hwf| |done].
  intros _ s' [HI' (E1 & E2 & E3 & E4 & E5)]. split; [done|]. split; [split|]; try done.
  - rewrite E2, Hst. by destruct (apHeads s).
  - rewrite E2, Hst. by destruct (apHeads s).
  - intros q rq Hq Hk. exists rq. split; [|done]. rewrite E1.
    rewrite lookup_insert_ne; [done|]. intros <-. simplify_eq.
    destruct Hk as [?|[?|[?|[? ?]]]]; congruence.
  - intros q rq. rewrite E1. destruct (decide (p = q)) as [<-|Hne].
    + rewrite lookup_insert_eq. intros [= <-] [?|?]; done.
    + rewrite lookup_insert_ne by done. intros Hq _. by exists rq.
  - intros q Hne (rq & Hq & Hs). exists rq. by rewrite E1, lookup_insert_ne.
Qed.

(** The reaping loops: whatever their condition is, they only free embryos
    without references. *)
Lemma wp_reap_embryos D X s wake (cond : PROCESS -> M (spm P) bool) :
  Inv D [] X s ->
  (forall r s, wp (cond r) (fun b s' => s' = s /\ (b = true -> cReferences r = 0))
     (fun _ _ => False) s) ->
  wp (mfor (hEmbryo (apHeads s)) (reap_embryo wake cond))
     (fun _ s' => Inv D [] X s' /\ frame D s s') (fun _ _ => False) s.
Proof.
  intros HI Hc. apply (wp_for_live _ (fun p s => is_embryo p s /\ p ∉ D)).
  - apply _.
  - apply _.
  - by apply (Inv_head_nodup D [] X s PROCSTATE_EMBRYO).
  - intros p. by eapply Inv_embryo_D.
  - done.
  - clear s HI. intros p s HI ((r & Hp & Hst) & HD). unfold reap_embryo.
    apply wp_bind. eapply wp_getp; [exact Hp|]. apply wp_bind.
    eapply wp_conseq; [apply Hc| |done]. intros b s1 [-> Hb]. apply wp_when; intros ->.
    + apply wp_bind. eapply wp_conseq; [eapply wp_free_embryo; eauto| |done].
      intros _ s2 (HI2 & HF2 & Hl). apply wp_when; intros _; [apply wp_mod|].
      * split_and!; [by destruct HI2|by destruct HF2|].
        intros q Hne [Hq HqD]. split; [|done]. by apply Hl.
      * split_and!; [done|done|]. intros q Hne [Hq HqD]. split; [|done]. by apply Hl.
    + split_and!; [done|done|by intros q].
Qed.

(** The loop that gives the free process blocks back. *)
Lemma Inv_delete D X p r s l :
  Inv D [] X s -> hFree (apHeads s) = p :: l -> procs s !! p = Some r ->
  Inv D [] (p :: X) (set_procs (delete p (procs s)) (set_apHeads (set_head PROCSTATE_FREE l (apHeads s)) s)).
Proof.
  intros HI Hl Hp. pose proof (Inv_head_D D [] X s PROCSTATE_FREE p HI) as HD.
  cbn in HD. rewrite Hl in HD. specialize (HD ltac:(by left)).
  assert (Hst : enmState r = PROCSTATE_FREE).
  { destruct (inv_in _ _ _ _ HI PROCSTATE_FREE p) as (r' & ? & ?); [cbn; rewrite Hl; by left|].
    by simplify_eq. }
  assert (Hbl : blocks r = []).
  { destruct (inv_pwf _ _ _ _ HI _ _ Hp) as [[]%elem_of_nil|[_ Hwf]]. by rewrite Hst in Hwf. }
  assert (Hown : (p :: X) ++ owned (set_procs (delete p (procs s)) s) ≡ₚ X ++ owned s).
  { unfold owned. cbn. rewrite (pblocks_delete _ _ _ Hp), Hbl. cbn. solve_Permutation. }
  pose proof (all_heads_set PROCSTATE_FREE [p] l (apHeads s)) as Hperm.
  cbn in Hperm. rewrite Hl in Hperm. specialize (Hperm ltac:(done)).
  destruct HI as [Hok Hnd Hused Hli Hin Hdom HDs Hpwf Hsf]. split; try done; unfold owned in *; cbn.
  - by rewrite <-Hown in Hnd.
  - intros a Ha. apply Hused. by rewrite <-Hown.
  - rewrite Hperm in Hli. apply NoDup_app. apply NoDup_app in Hli as (HndD & Hd & Hh).
    split_and!; [done| |by apply NoDup_cons in Hh as [_ ?]].
    intros q Hq Hq2. apply (Hd q Hq). by right.
  - intros st q Hq. assert (Hq' : q ∈ head_of st (apHeads s)).
    { destruct st; try done. cbn. rewrite Hl. by right. }
    destruct (Hin st q Hq') as (rq & Hrq & ?). exists rq. split; [|done].
    rewrite lookup_delete_ne; [done|]. intros <-. simplify_eq. rewrite Hst in *.
    apply NoDup_app in Hli as (_ & _ & Hh). rewrite Hperm in Hh. apply NoDup_cons in Hh as [Hn _].
    apply Hn. unfold all_heads. cbn. apply elem_of_app. by left.
  - intros q rq [Hne Hq]%lookup_delete_Some. destruct (Hdom _ _ Hq) as [?|Hq']; [by left|]. right.
    destruct (enmState rq) eqn:Hsq; try done. cbn in Hq' |- *. rewrite Hl in Hq'.
    by apply elem_of_cons in Hq' as [->|?].
  - intros q Hq. rewrite lookup_delete_ne; [by apply HDs|]. by intros <-.
  - intros q rq [Hne Hq]%lookup_delete_Some. eauto.
Qed.

(** Every process block of a list exists. *)
Lemma Inv_head_lookup D W X s st p :
  Inv D W X s -> p ∈ head_of st (apHeads s) ->
  exists r, procs s !! p = Some r /\ enmState r = st /\ p ∉ D.
Proof.
  intros HI Hp. destruct (inv_in _ _ _ _ HI st p Hp) as (r & ? & ?).
  exists r. split_and!; [done|done|by eapply Inv_head_D].
Qed.

Lemma wp_reap_free D X s l :
  Inv D [] X s -> hFree (apHeads s) = l ->
  wp (mfor l (fun p =>
        l ← gethead PROCSTATE_FREE;
        _ ← puthead PROCSTATE_FREE (tail l);
        _ ← getp p;
        _ ← mmod (fun s => set_procs (delete p (procs s)) s);
        _ ← spmFree p; mret ()))
     (fun _ s' => Inv D [] X s' /\ frame D s s') (fun _ _ => False) s.
Proof.
  revert s. induction l as [|p l IH]; intros s HI Hl; cbn [mfor]; [by apply wp_ret|].
  destruct (Inv_head_lookup D [] X s PROCSTATE_FREE p HI) as (r & Hp & Hst & HD).
  { cbn. rewrite Hl. by left. }
  pose proof (Inv_delete D X p r s l HI Hl Hp) as HI1.
  unfold gethead, puthead. wp_steps. cbn [head_of]. rewrite Hl. cbn [tail].
  eapply wp_getp; [exact Hp|]. wp_steps.
  eapply wp_conseq; [by eapply wp_spmFree| |done]. intros _ s2 (_ & HI2 & Hm2). wp_steps.
  eapply wp_conseq; [apply IH; [done|]| |done].
  { destruct Hm2 as (-> & _). done. }
  intros _ s3 [HI3 HF3]. split; [done|]. etrans; [|exact HF3].
  etrans; [|by apply mem_only_frame]. split; try done; cbn.
  - intros q rq Hq Hk. exists rq. split; [|done]. rewrite lookup_delete_ne; [done|].
    intros <-. simplify_eq. destruct Hk as [?|[?|[?|[? ?]]]]; congruence.
  - intros q rq [Hne Hq]%lookup_delete_Some _. by exists rq.
Qed.

(** ** Preconditions of an allocation *)

(** The reaping of inherit data reads [gpSPMSelf]: it must be there, unless no
    living process has such data left. *)
Definition alloc_ok s : Prop :=
  (exists me m, gpSPMSelf s = Some me /\ procs s !! me = Some m /\ enmState m = PROCSTATE_ALIVE) \/
  (forall p r, procs s !! p = Some r -> enmState r = PROCSTATE_ALIVE -> pInherit r = 0).

Lemma alloc_ok_frame D s s' : frame D s s' -> alloc_ok s -> alloc_ok s'.
Proof.
  intros HF [(me & m & Hs & Hm & Hst)|Hno].
  - left. destruct (fr_keep _ _ _ HF me m Hm) as (m' & Hm' & Hsame); [right; by left|].
    exists me, m'. split_and!; [by rewrite (fr_self _ _ _ HF)|done|].
    by rewrite (same_proc_state _ _ Hsame).
  - right. intros p r' Hp Hst.
    destruct (fr_new _ _ _ HF p r' Hp) as (r & Hr & Hsame); [right; by rewrite Hst|].
    destruct Hsame as [->| ->]; [by eapply Hno|done].
Qed.

Lemma Inv_same D W X s s' :
  Inv D W X s -> pool s' = pool s -> apHeads s' = apHeads s -> procs s' = procs s ->
  pChildNotifyFreeHead s' = pChildNotifyFreeHead s -> pSigFreeHead s' = pSigFreeHead s ->
  cSigFree s' = cSigFree s -> Inv D W X s'.
Proof.
  intros HI Hpo Hh Hp Hn Hs Hc. eapply Inv_change; try done.
  - unfold owned. by rewrite Hp, Hn, Hs.
  - rewrite Hc, Hs. apply HI.
Qed.

Lemma wp_spmTimestamp D W X s :
  Inv D W X s ->
  wp spmTimestamp (fun _ s' => Inv D W X s' /\ mem_only s s') (fun _ _ => False) s.
Proof.
  intros HI. unfold spmTimestamp. wp_steps. destruct (os_times (os s)); [by apply wp_ret|].
  wp_steps. split; [|done]. by eapply Inv_same.
Qed.

Lemma pwf_no_inherit r : pwf r -> pwf (set_pInherit 0 r).
Proof.
  intros [Hg Hst]. split; [done|]. cbn. destruct (enmState r); try done.
  unfold blocks in *. cbn. by apply app_nil in Hst as [_ ?].
Qed.

Lemma wp_reap_inherit D X now n p r s :
  Inv D [] X s -> alloc_ok s -> procs s !! p = Some r -> enmState r = PROCSTATE_ALIVE ->
  wp (reap_inherit now n p) (fun _ s' => Inv D [] X s' /\ frame D s s') (fun _ _ => False) s.
Proof.
  intros HI Hok Hp Hst. unfold reap_inherit. apply wp_bind. eapply wp_getp; [exact Hp|].
  apply wp_when; intros Hb; [|done]. breflect.
  destruct Hok as [(me & m & Hs & Hm & Hmst)|Hno]; [|by rewrite (Hno p r) in H1].
  apply wp_bind. eapply wp_self; [exact Hs|]. wp_steps. eapply wp_getp; [exact Hm|]. wp_steps. apply (wp_updp _ _ _ _ _ m Hm). wp_steps.
  pose proof (inv_pwf _ _ _ _ HI _ _ Hm) as [[]%elem_of_nil|Hwf].
  assert (HI1 : Inv D [] (opt_block (pInherit m) ++ X) (upd me (set_pInherit 0 m) s)).
  { eapply Inv_upd; [exact HI|exact Hm| |by right|right; by apply pwf_no_inherit].
    unfold blocks. cbn. apply Permutation_submseteq. solve_Permutation. }
  eapply wp_conseq; [by eapply wp_spmFree_opt| |done]. intros _ s2 (_ & HI2 & Hm2). wp_steps.
  split; [done|]. etrans; [|by apply mem_only_frame]. split; try done; unfold upd; cbn.
  - intros q rq Hq _. destruct (decide (me = q)) as [<-|Hne].
    + rewrite lookup_insert_eq. simplify_eq. eexists; split; [done|by right].
    + rewrite lookup_insert_ne by done. by exists rq.
  - intros q rq. destruct (decide (me = q)) as [<-|Hne].
    + rewrite lookup_insert_eq. intros [= <-] _. exists m. split; [done|by right].
    + rewrite lookup_insert_ne by done. by exists rq.
Qed.

Lemma wp_reap_inherits D X now n s :
  Inv D [] X s -> alloc_ok s ->
  wp (mfor (hAlive (apHeads s)) (reap_inherit now n))
     (fun _ s' => Inv D [] X s' /\ frame D s s') (fun _ _ => False) s.
Proof.
  intros HI Hok.
  apply (wp_conseq _ (fun _ s' => (Inv D [] X s' /\ alloc_ok s') /\ frame D s s') _
           (fun _ _ => False)); [|by intros ?? [[? ?] ?]|done].
  apply (wp_for_live _ (fun p s => exists r, procs s !! p = Some r /\ enmState r = PROCSTATE_ALIVE)).
  - apply _.
  - apply _.
  - by apply (Inv_head_nodup D [] X s PROCSTATE_ALIVE).
  - intros p Hp. by apply (inv_in _ _ _ _ HI PROCSTATE_ALIVE).
  - done.
  - clear s HI Hok. intros p s [HI Hok] (r & Hp & Hst).
    eapply wp_conseq; [by eapply wp_reap_inherit| |done]. intros _ s' [HI' HF].
    split_and!; [done|by eapply alloc_ok_frame|done|].
    intros q _ (rq & Hq & Hsq). destruct (fr_keep _ _ _ HF q rq Hq) as (rq' & Hq' & Hsame).
    { right. by left. }
    exists rq'. split; [done|]. by rewrite (same_proc_state _ _ Hsame).
Qed.

(** The loop over the free notification blocks. *)
Lemma wp_reap_notes D X s l :
  Inv D [] X s -> pChildNotifyFreeHead s = l ->
  wp (mfor l (fun n =>
        _ ← mmod (fun s => set_pChildNotifyFreeHead (tail (pChildNotifyFreeHead s)) s);
        _ ← spmFree (cn_addr n); mret ()))
     (fun _ s' => Inv D [] X s' /\ mem_only s s') (fun _ _ => False) s.
Proof.
  revert s. induction l as [|n l IH]; intros s HI Hl; cbn [mfor]; [by apply wp_ret|].
  wp_steps. rewrite Hl. cbn [tail].
  assert (HI1 : Inv D [] (cn_addr n :: X) (set_pChildNotifyFreeHead l s)).
  { eapply Inv_change; [exact HI|..]; try done; [|apply HI].
    unfold owned. cbn. rewrite Hl. cbn. apply Permutation_submseteq. solve_Permutation. }
  eapply wp_conseq; [by eapply wp_spmFree_pool| |done]. intros _ s2 (_ & HI2 & m2 & ->). wp_steps.
  eapply wp_conseq; [by apply IH| |done].
  intros _ s3 [HI3 Hm3]. split; [done|]. by etrans; [|exact Hm3].
Qed.

(** The loop over the free signal blocks. *)
Lemma wp_reap_sigs D X s (l : list SPMSIGNAL) :
  Inv D [] X s ->
  wp (mfor l (fun _ =>
        s ← mget;
        match pSigFreeHead s with
        | g :: l =>
            mwhen (4 <? cSigFree s)
              (_ ← mput (set_cSigFree (u32 (cSigFree s - 1)) (set_pSigFreeHead l s));
               _ ← spmFree (sg_addr g); mret ())
        | [] => mret ()
        end))
     (fun _ s' => Inv D [] X s' /\ mem_only s s') (fun _ _ => False) s.
Proof.
  intros HI. apply (wp_for l _ (fun s' => Inv D [] X s' /\ mem_only s s')); [done|].
  clear HI. intros _ s1 _ [HI Hm]. apply wp_bind, wp_get.
  destruct (pSigFreeHead s1) as [|g l1] eqn:Hl; [by apply wp_ret|].
  apply wp_when; [intros _|done]. wp_steps.
  destruct (inv_sigfree _ _ _ _ HI) as [Hn Hle]. rewrite Hl in Hn. cbn in Hn.
  assert (HI1 : Inv D [] (sg_addr g :: X)
                  (set_cSigFree (u32 (cSigFree s1 - 1)) (set_pSigFreeHead l1 s1))).
  { eapply Inv_change; [exact HI|..]; try done; cbn.
    - unfold owned. cbn. rewrite Hl. cbn. apply Permutation_submseteq. solve_Permutation.
    - rewrite u32_small by lia. lia. }
  eapply wp_conseq; [by eapply wp_spmFree| |done]. intros _ s2 (_ & HI2 & Hm2). wp_steps.
  split; [done|]. etrans; [exact Hm|]. etrans; [|exact Hm2]. done.
Qed.

Definition reaped D X s (_ : unit) s' : Prop := Inv D [] X s' /\ frame D s s'.

Lemma wp_then {A B} (m : M (spm P) A) (k : A -> M (spm P) B) D X s Q E :
  wp m (fun _ s' => Inv D [] X s' /\ frame D s s') E s ->
  (forall a s', Inv D [] X s' -> frame D s s' -> wp (k a) Q E s') -> wp (m ≫= k) Q E s.
Proof.
  intros Hm Hk. apply wp_bind. eapply wp_conseq; [exact Hm| |done]. intros a s' [? ?]. by apply Hk.
Qed.

Lemma wp_mem {A} (m : M (spm P) A) D X s :
  wp m (fun _ s' => Inv D [] X s' /\ mem_only s s') (fun _ _ => False) s ->
  wp m (fun _ s' => Inv D [] X s' /\ frame D s s') (fun _ _ => False) s.
Proof.
  intros Hm. eapply wp_conseq; [exact Hm| |done]. intros _ s' [? ?].
  split; [done|by apply mem_only_frame].
Qed.

Lemma wp_spmReap1 D X s :
  Inv D [] X s -> alloc_ok s ->
  wp spmReap1 (fun _ s' => Inv D [] X s' /\ frame D s s') (fun _ _ => False) s.
Proof.
  intros HI Hok. unfold spmReap1.
  eapply wp_then; [by apply wp_mem, wp_spmTimestamp|]. intros now s1 HI1 HF1.
  apply wp_bind, wp_gethead.
  eapply wp_then.
  { eapply wp_reap_embryos; [done|]. clear. intros r s. unfold pid_gone. wp_steps; done || breflect; done. }
  intros _ s2 HI2 HF2. apply wp_bind, wp_gethead.
  eapply wp_then; [by eapply wp_reap_free|]. intros _ s3 HI3 HF3.
  apply wp_bind, wp_gethead.
  eapply wp_then.
  { apply wp_reap_inherits; [done|]. do 3 (eapply alloc_ok_frame; [eassumption|]). done. }
  intros _ s4 HI4 HF4. apply wp_bind, wp_gets.
  eapply wp_conseq; [by eapply wp_mem, wp_reap_notes| |done]. intros _ s5 [HI5 HF5].
  split; [done|]. do 4 (etrans; [eassumption|]). done.
Qed.

Lemma wp_spmReap2 D X s :
  Inv D [] X s -> alloc_ok s ->
  wp spmReap2 (fun _ s' => Inv D [] X s' /\ frame D s s') (fun _ _ => False) s.
Proof.
  intros HI Hok. unfold spmReap2.
  eapply wp_then; [by apply wp_mem, wp_spmTimestamp|]. intros now s1 HI1 HF1.
  apply wp_bind, wp_gethead.
  eapply wp_then.
  { eapply wp_reap_embryos; [done|]. clear. intros r s. wp_steps. split; [done|].
    intros Hb. by breflect. }
  intros _ s2 HI2 HF2. apply wp_bind, wp_gethead.
  eapply wp_then.
  { apply wp_reap_inherits; [done|]. do 2 (eapply alloc_ok_frame; [eassumption|]). done. }
  intros _ s3 HI3 HF3. apply wp_bind, wp_gets.
  eapply wp_conseq; [by eapply wp_mem, wp_reap_sigs| |done]. intros _ s4 [HI4 HF4].
  split; [done|]. do 3 (etrans; [eassumption|]). done.
Qed.

(** ** Allocation *)

Lemma SPM_POOL_ALIGN_ok sz :
  0 < sz <= 2 ^ 31 -> 0 < SPM_POOL_ALIGN sz /\ SPM_POOL_ALIGN sz mod 8 = 0 /\ sz <= SPM_POOL_ALIGN sz.
Proof.
  intros Hsz. unfold SPM_POOL_ALIGN. rewrite u32_small by lia.
  change 7 with (2 ^ 3 - 1). rewrite land_not_mask by lia. change (2 ^ 3) with 8.
  rewrite Z_mod_mult. pose proof (Z.div_mod (sz + (8 - 1)) 8 ltac:(lia)).
  pose proof (Z.mod_pos_bound (sz + (8 - 1)) 8 ltac:(lia)). split_and!; [|done|]; lia.
Qed.

(** What an allocating function leaves: the block in hand if there is one. *)
Definition allocated D X s (o : option Z) s' : Prop :=
  Inv D [] (option_list o ++ X) s' /\ frame D s s'.

Lemma wp_spmAlloc D X s sz :
  Inv D [] X s -> alloc_ok s -> 0 <= sz <= 2 ^ 31 ->
  wp (spmAlloc sz) (allocated D X s) (fun _ _ => False) s.
Proof.
  intros HI Hok Hsz. unfold spmAlloc. destruct (Z.eqb_spec sz 0); [by apply wp_ret|].
  set (a := if sz <=? _ then _ else _).
  assert (Ha : 16 <= a /\ a mod 8 = 0).
  { unfold a. change (SPM_POOL_ALIGN (20 - 8)) with 16. destruct (Z.leb_spec sz 16); [done|].
    destruct (SPM_POOL_ALIGN_ok sz) as (? & ? & ?); [lia|]. split; [lia|done]. }
  assert (Hsub : forall s1, Inv D [] X s1 -> wp (spmAllocSub a) (fun o s2 =>
            Inv D [] (option_list o ++ X) s2 /\ frame D s1 s2) (fun _ _ => False) s1).
  { intros s1 HI1. eapply wp_conseq; [apply wp_spmAllocSub; [exact HI1|apply Ha|apply Ha]| |done].
    intros o s2 [Hm Ho]. split; [by destruct o|by apply mem_only_frame]. }
  apply wp_bind. eapply wp_conseq; [by apply Hsub| |done]. intros o s1 [HI1 HF1].
  destruct o as [p|]; [by split|]. cbn in HI1.
  eapply wp_then; [apply wp_spmReap1; [done|by eapply alloc_ok_frame]|]. intros _ s2 HI2 HF2.
  apply wp_bind. eapply wp_conseq; [by apply Hsub| |done]. intros o s3 [HI3 HF3].
  assert (HF : frame D s s3) by (do 2 (etrans; [eassumption|]); done).
  destruct o as [p|]; [by split|]. cbn in HI3.
  eapply wp_then; [apply wp_spmReap2; [done|by eapply alloc_ok_frame]|]. intros _ s4 HI4 HF4.
  split; [done|by etrans].
Qed.

Lemma delete_perm {A B} (f : A -> B) l i x :
  l !! i = Some x -> f <$> l ≡ₚ f x :: (f <$> delete i l).
Proof. intros Hi. by rewrite (delete_Permutation l i x Hi) at 1. Qed.

Lemma wp_spmAllocChildNotify D X s :
  Inv D [] X s -> alloc_ok s ->
  wp spmAllocChildNotify (fun o s' => Inv D [] (option_list (cn_addr <$> o) ++ X) s' /\ frame D s s')
     (fun _ _ => False) s.
Proof.
  intros HI Hok. unfold spmAllocChildNotify. apply wp_bind, wp_gets.
  destruct (list_find _ _) as [[i n]|] eqn:Hf.
  - apply list_find_Some in Hf as (Hi & _ & _). wp_steps. split; [|by apply mem_only_frame].
    eapply Inv_change; [exact HI|..]; try done; [|apply HI].
    unfold owned. cbn. rewrite (delete_perm cn_addr _ _ _ Hi).
    apply Permutation_submseteq. solve_Permutation.
  - apply wp_bind. eapply wp_conseq; [by apply wp_spmAlloc| |done].
    intros o s1 [HI1 HF1]. apply wp_ret. split; [|done]. by destruct o.
Qed.

Lemma wp_spmAllocSignal D X s :
  Inv D [] X s -> alloc_ok s ->
  wp spmAllocSignal (fun o s' => Inv D [] (option_list (sg_addr <$> o) ++ X) s' /\ frame D s s')
     (fun _ _ => False) s.
Proof.
  intros HI Hok. unfold spmAllocSignal. apply wp_bind, wp_get.
  destruct (list_find _ _) as [[i g]|] eqn:Hf.
  - apply list_find_Some in Hf as (Hi & _ & _). wp_steps. split; [|by apply mem_only_frame].
    destruct (inv_sigfree _ _ _ _ HI) as [Hn Hle].
    pose proof (length_delete _ _ (mk_is_Some _ _ Hi)) as Hlen. apply lookup_lt_Some in Hi as Hlt.
    eapply Inv_change; [exact HI|..]; try done; cbn.
    + unfold owned. cbn. rewrite (delete_perm sg_addr _ _ _ Hi).
      apply Permutation_submseteq. solve_Permutation.
    + rewrite u32_small by lia. lia.
  - apply wp_bind. eapply wp_conseq; [by apply wp_spmAlloc| |done].
    intros o s1 [HI1 HF1]. apply wp_ret. split; [|done]. by destruct o.
Qed.

(** ** A new process block *)

Lemma pwf_zero : pwf zero_process.
Proof. split; [by apply Forall_nil|done]. Qed.

(** The block [spmAllocProcess] returns comes from the free list, from the
    pool, or, when there is no memory left, from the zombies. *)
Definition stolen p s : Prop := p ∈ hZombie (apHeads s).

(** What stays of the other blocks. *)
Record frame_off p s s' : Prop := mk_frame_off {
  fo_self : gpSPMSelf s' = gpSPMSelf s;
  fo_keep : forall q r, q <> p -> procs s !! q = Some r -> kept [] q r ->
    exists r', procs s' !! q = Some r' /\ same_proc r r';
  fo_new : forall q r', q <> p -> procs s' !! q = Some r' -> enmState r' <> PROCSTATE_FREE ->
    exists r, procs s !! q = Some r /\ same_proc r r'
}.

Lemma frame_frame_off D p s s' : frame D s s' -> frame_off p s s'.
Proof.
  intros HF. split; [apply HF|..].
  - intros q r _ Hq Hk. apply (fr_keep _ _ _ HF q r Hq). destruct Hk as [[]%elem_of_nil|?]. by right.
  - intros q r' _ Hq Hf. apply (fr_new _ _ _ HF q r' Hq). by right.
Qed.

#[export] Instance frame_off_trans p : Transitive (frame_off p).
Proof.
  intros s1 s2 s3 F1 F2. split; [etrans; [apply F2|apply F1]|..].
  - intros q r Hne Hq Hk. destruct (fo_keep _ _ _ F1 q r Hne Hq Hk) as (r1 & Hr1 & E1).
    destruct (fo_keep _ _ _ F2 q r1 Hne Hr1) as (r2 & Hr2 & E2); [by eapply kept_same|].
    exists r2. split; [done|by etrans].
  - intros q r' Hne Hq Hf. destruct (fo_new _ _ _ F2 q r' Hne Hq Hf) as (r1 & Hr1 & E1).
    destruct (fo_new _ _ _ F1 q r1 Hne Hr1) as (r2 & Hr2 & E2).
    { by rewrite <-(same_proc_state _ _ E1). }
    exists r2. split; [done|by etrans].
Qed.

(** A step that changes the block at [p] and the lists. *)
Lemma frame_off_upd p r' s s' :
  procs s' = <[p := r']> (procs s) -> gpSPMSelf s' = gpSPMSelf s -> frame_off p s s'.
Proof.
  intros Hp Hs. split; [done|..]; intros q r Hne Hq Hk.
  - exists r. by rewrite Hp, lookup_insert_ne.
  - exists r. rewrite Hp, lookup_insert_ne in Hq by done. done.
Qed.

Definition new_block X s (o : option Z) s' : Prop :=
  match o with
  | None => Inv [] [] X s' /\ frame [] s s'
  | Some p =>
      Inv [p] [] X s' /\ procs s' !! p = Some zero_process /\ alloc_ok s' /\
      frame_off p s s' /\
      (forall r, procs s !! p = Some r -> enmState r <> PROCSTATE_ALIVE) /\
      (stolen p s \/ (forall r, procs s !! p = Some r -> ~ kept [] p r))
  end.

Lemma Inv_zeroed X s p r :
  Inv [p] [] X s -> procs s !! p = Some r -> Inv [p] [] X (upd p zero_process s).
Proof.
  intros HI Hp. eapply Inv_upd; [exact HI|exact Hp| |left; by left|right; apply pwf_zero].
  cbn. rewrite app_nil_r. by apply submseteq_inserts_r.
Qed.

Lemma take_last_perm {A} (l : list A) x : last l = Some x -> l ≡ₚ x :: take (length l - 1) l.
Proof.
  intros [l' ->]%last_Some. rewrite length_app. cbn.
  rewrite take_app_le by lia. rewrite firstn_all2 by lia. by rewrite Permutation_app_comm.
Qed.

(** The regular outcome, from the frame. *)
Lemma new_block_frame X s p s' :
  Inv [p] [] X s' -> procs s' !! p = Some zero_process -> frame [] s s' -> alloc_ok s ->
  (forall r, procs s !! p = Some r -> ~ kept [] p r) -> new_block X s (Some p) s'.
Proof.
  intros HI Hp HF Hok Hnk. split_and!; try done.
  - by eapply alloc_ok_frame.
  - by eapply frame_frame_off.
  - intros r Hr Hst. apply (Hnk r Hr). right. by left.
  - by right.
Qed.

(** A change of one block that nobody relies on. *)
Lemma frame_zeroed s h p (o : option PROCESS) s' :
  procs s !! p = o -> (forall r0, o = Some r0 -> ~ kept [] p r0) ->
  s' = set_procs (<[p := zero_process]> (procs s)) (set_apHeads h s) ->
  hAlive h = hAlive (apHeads s) -> hZombie h = hZombie (apHeads s) -> frame [] s s'.
Proof.
  intros Hp Hnk -> Ha Hz. split; try done; cbn.
  - intros q rq Hq Hk. exists rq. split; [|done]. rewrite lookup_insert_ne; [done|].
    intros <-. apply (Hnk rq); [congruence|done].
  - intros q rq. destruct (decide (p = q)) as [<-|Hne].
    + rewrite lookup_insert_eq. intros [= <-] [[]%elem_of_nil|?]. done.
    + rewrite lookup_insert_ne by done. intros Hq _. by exists rq.
Qed.

Lemma wp_spmAllocProcess X s :
  Inv [] [] X s -> alloc_ok s -> wp spmAllocProcess (new_block X s) (fun _ _ => False) s.
Proof.
  intros HI Hok. unfold spmAllocProcess. apply wp_bind, wp_gethead. cbn [head_of].
  destruct (hFree (apHeads s)) as [|p l] eqn:Hl.
  - (* no free block *)
    apply wp_bind. eapply wp_conseq; [by apply (wp_spmAlloc [])| |done]. intros o s1 [HI1 HF1].
    destruct o as [p|]; cbn in HI1.
    + wp_steps. destruct (Inv_new [] [] X s1 p zero_process HI1 eq_refl pwf_zero) as [HI2 Hnone].
      apply new_block_frame; try done.
      * cbn. by rewrite lookup_insert_eq.
      * etrans; [exact HF1|]. eapply (frame_zeroed _ (apHeads s1) p None); [done|done| |done|done].
        by destruct s1.
      * intros r Hr Hk. destruct (fr_keep _ _ _ HF1 p r Hr Hk) as (r' & ? & _). congruence.
    + apply wp_bind, wp_gethead. cbn [head_of].
      destruct (last (hZombie (apHeads s1))) as [p|] eqn:Hlast; [|by apply wp_ret].
      pose proof (take_last_perm _ _ Hlast) as Hperm.
      destruct (Inv_head_lookup [] [] X s1 PROCSTATE_ZOMBIE p HI1) as (r & Hp & Hst & _).
      { cbn. rewrite Hperm. by left. }
      unfold puthead. wp_steps. eapply (wp_updp _ _ _ _ _ r); [done|]. wp_steps.
      pose proof (Inv_take [] [] X s1 p PROCSTATE_ZOMBIE _ HI1 Hperm) as HI2.
      pose proof HI2 as HI3. eapply Inv_zeroed in HI3; [|exact Hp].
      assert (Hother : forall q rq, procs s1 !! q = Some rq -> enmState rq = PROCSTATE_ALIVE ->
                q <> p) by (intros q rq Hq Hs ->; congruence).
      split_and!; [exact HI3|cbn; by rewrite lookup_insert_eq|..].
      * destruct (alloc_ok_frame _ _ _ HF1 Hok) as [(me & m & Hs & Hm & Hms)|Hno].
        -- left. exists me, m. split_and!; [done| |done]. cbn.
           rewrite lookup_insert_ne; [done|]. intros <-. by apply (Hother p m).
        -- right. intros q rq. cbn. destruct (decide (p = q)) as [<-|Hne].
           ++ rewrite lookup_insert_eq. by intros [= <-].
           ++ rewrite lookup_insert_ne by done. apply Hno.
      * etrans; [by eapply frame_frame_off|]. by eapply frame_off_upd.
      * intros rq Hq Hsq. destruct (fr_keep _ _ _ HF1 p rq Hq) as (rq' & Hq' & Hsame).
        { right. by left. }
        apply (Hother p rq' Hq'); [|done]. by rewrite (same_proc_state _ _ Hsame).
      * left. unfold stolen. rewrite <-(fr_zombie _ _ _ HF1), Hperm. by left.
  - (* the head of the free list *)
    destruct (Inv_head_lookup [] [] X s PROCSTATE_FREE p HI) as (r & Hp & Hst & _).
    { cbn. rewrite Hl. by left. }
    unfold puthead. wp_steps. eapply (wp_updp _ _ _ _ _ r); [done|]. wp_steps.
    assert (HI2 : Inv [p] [] X (set_apHeads (set_head PROCSTATE_FREE l (apHeads s)) s)).
    { apply Inv_take; [done|]. cbn. by rewrite Hl. }
    assert (Hnk : forall r0, procs s !! p = Some r0 -> ~ kept [] p r0).
    { intros r0 Hr0 [[]%elem_of_nil|[?|[?|[? ?]]]]; simplify_eq; congruence. }
    apply new_block_frame; try done.
    + by apply (Inv_zeroed X _ p r).
    + cbn. by rewrite lookup_insert_eq.
    + by eapply (frame_zeroed s _ p (procs s !! p)).
Qed.
End Alloc.
