(* ===== verification/SpmTable.v ===== *)
(** Who refers to which process block: the process table of the process
    manager against the pointers the running processes hold.

    A running process has its own block, [gpSPMSelf], and the blocks whose
    reference it has to give back with [__libc_spmRelease].  [TInv] says that
    [cReferences] counts at least these pointers, so that no block in use is
    free.  (It can count more: [__libc_spmQueryProcess] leaks references, and a
    process that dies does not give its references back.) *)

From S2P Require Import Prelude Creds Spm.
#[local] Open Scope Z_scope.

(** A running process: its id, [gpSPMSelf] and the references it holds. *)
Record inst := mk_inst { i_pid : Z; i_self : Z; i_holds : list Z }.

Definition irefs (i : inst) : list Z := i_self i :: i_holds i.
Definition refs (I : gmap nat inst) : list Z := map_to_list I ≫= (fun '(_, i) => irefs i).

(** Number of occurrences. *)
Definition cnt (p : Z) (l : list Z) : Z := Z.of_nat (length (filter (fun q => q = p) l)).

Lemma cnt_nil p : cnt p [] = 0.
Proof. done. Qed.
Lemma cnt_cons p q l : cnt p (q :: l) = (if decide (q = p) then 1 else 0) + cnt p l.
Proof. unfold cnt. rewrite filter_cons. case_decide; cbn; lia. Qed.
Lemma cnt_app p l k : cnt p (l ++ k) = cnt p l + cnt p k.
Proof. unfold cnt. rewrite filter_app, length_app. lia. Qed.
Lemma cnt_nonneg p l : 0 <= cnt p l.
Proof. unfold cnt. lia. Qed.
#[export] Instance cnt_perm p : Proper (Permutation ==> eq) (cnt p).
Proof. intros l k Hlk. unfold cnt. by rewrite Hlk. Qed.
Lemma cnt_pos p l : p ∈ l <-> 0 < cnt p l.
Proof.
  induction l as [|q l IH].
  - rewrite cnt_nil, elem_of_nil. lia.
  - rewrite cnt_cons, elem_of_cons, IH. pose proof (cnt_nonneg p l).
    case_decide; split; intros; (lia || naive_solver).
Qed.

Lemma refs_delete I k i : I !! k = Some i -> refs I ≡ₚ irefs i ++ refs (delete k I).
Proof. intros Hk. unfold refs. by rewrite <-(map_to_list_delete I k i Hk). Qed.
Lemma refs_insert I k i : refs (<[k := i]> I) ≡ₚ irefs i ++ refs (delete k I).
Proof.
  rewrite (refs_delete _ k i) by (by rewrite lookup_insert_eq). by rewrite delete_insert_eq.
Qed.
Lemma elem_of_refs I p : p ∈ refs I <-> exists k i, I !! k = Some i /\ p ∈ irefs i.
Proof.
  unfold refs. rewrite list_elem_of_bind. split.
  - intros ([k i] & Hp & Hk%elem_of_map_to_list). eauto.
  - intros (k & i & Hk & Hp). exists (k, i). by rewrite elem_of_map_to_list.
Qed.

Notation nonfree r := (enmState r <> PROCSTATE_FREE).

(** The blocks that nothing but their owner or a reference gives up. *)
Definition live (r : PROCESS) : Prop :=
  nonfree r /\ (enmState r = PROCSTATE_EMBRYO -> cReferences r <> 0).

Record TInv (n : Z) (m : gmap Z PROCESS) (I : gmap nat inst) : Prop := mk_TInv {
  t_refs : forall p r, m !! p = Some r -> nonfree r -> cnt p (refs I) <= cReferences r <= n;
  t_valid : forall p, p ∈ refs I -> exists r, m !! p = Some r /\ nonfree r;
  t_self : forall k i, I !! k = Some i ->
    0 < i_pid i /\ exists r, m !! i_self i = Some r /\ enmState r = PROCSTATE_ALIVE /\
      pid_of r = i_pid i;
  t_alive : forall p r, m !! p = Some r -> enmState r = PROCSTATE_ALIVE ->
    exists k i, I !! k = Some i /\ i_self i = p;
  t_pids : forall k k' i i', I !! k = Some i -> I !! k' = Some i' -> i_pid i = i_pid i' -> k = k';
  t_embryo : forall k i p r, I !! k = Some i -> p ∈ i_holds i -> m !! p = Some r ->
    enmState r = PROCSTATE_EMBRYO -> pidParent (p_ids r) = i_pid i
}.

(** ** Calls that move no block *)

(** What stays of a block; [d] new references at most. *)
Definition keeps (d : Z) (r r' : PROCESS) : Prop :=
  cReferences r <= cReferences r' <= cReferences r + d /\
  pidParent (p_ids r') = pidParent (p_ids r) /\
  (enmState r' = enmState r \/
   (enmState r = PROCSTATE_EMBRYO /\ enmState r' = PROCSTATE_ZOMBIE)) /\
  (enmState r = PROCSTATE_ALIVE -> pid_of r' = pid_of r).

Record quiet (d : Z) (m m' : gmap Z PROCESS) : Prop := mk_quiet {
  q_keep : forall p r, m !! p = Some r -> live r -> exists r', m' !! p = Some r' /\ keeps d r r';
  q_new : forall p r', m' !! p = Some r' -> nonfree r' ->
    exists r, m !! p = Some r /\ keeps d r r'
}.

Lemma keeps_proc_refl d r : 0 <= d -> keeps d r r.
Proof. intros. split_and!; (lia || auto). Qed.

Lemma keeps_nonfree d r r' : keeps d r r' -> nonfree r <-> nonfree r'.
Proof. intros (_ & _ & [->|[-> ->]] & _); done. Qed.

Lemma keeps_live d r r' : 0 <= cReferences r -> keeps d r r' -> live r -> live r'.
Proof.
  intros H0 K [Hf He]. split; [by rewrite <-(keeps_nonfree _ _ _ K)|].
  destruct K as (Hr & _ & [->|[_ ->]] & _); [|done]. intros E. specialize (He E). lia.
Qed.

Lemma keeps_proc_trans d1 d2 r1 r2 r3 :
  keeps d1 r1 r2 -> keeps d2 r2 r3 -> keeps (d1 + d2) r1 r3.
Proof.
  intros (A1 & A2 & A3 & A4) (B1 & B2 & B3 & B4). split_and!; [lia|lia|congruence| |].
  - destruct A3 as [E1|[E1 E1']], B3 as [E2|[E2 E2']].
    + left. congruence.
    + right. split; congruence.
    + right. split; congruence.
    + right. split; congruence.
  - intros Hs. rewrite B4, A4; [done|done|]. destruct A3 as [E1|[E1 _]]; congruence.
Qed.

Lemma quiet_refl d m : 0 <= d -> quiet d m m.
Proof. intros Hd. split; intros p r Hp _; exists r; (split; [done|by apply keeps_proc_refl]). Qed.

(** References are counts. *)
Definition refs_nonneg (m : gmap Z PROCESS) : Prop :=
  forall p r, m !! p = Some r -> nonfree r -> 0 <= cReferences r.

Lemma live_nonfree r : live r -> nonfree r.
Proof. by intros [? _]. Qed.

Lemma quiet_nonneg d m m' : refs_nonneg m -> quiet d m m' -> refs_nonneg m'.
Proof.
  intros Hn Hq p r' Hp Hf. destruct (q_new _ _ _ Hq p r' Hp Hf) as (r & Hr & Hk).
  specialize (Hn p r Hr). rewrite (keeps_nonfree _ _ _ Hk) in Hn. specialize (Hn Hf).
  destruct Hk as (? & _). lia.
Qed.

Lemma quiet_trans d1 d2 m1 m2 m3 :
  refs_nonneg m1 -> quiet d1 m1 m2 -> quiet d2 m2 m3 -> quiet (d1 + d2) m1 m3.
Proof.
  intros Hn Q1 Q2. split.
  - intros p r Hp Hl. destruct (q_keep _ _ _ Q1 p r Hp Hl) as (r2 & Hr2 & K1).
    destruct (q_keep _ _ _ Q2 p r2 Hr2) as (r3 & Hr3 & K2).
    { eapply keeps_live; [|exact K1|done]. eapply Hn; [done|by apply live_nonfree]. }
    exists r3. split; [done|by eapply keeps_proc_trans].
  - intros p r3 Hp Hf. destruct (q_new _ _ _ Q2 p r3 Hp Hf) as (r2 & Hr2 & K2).
    destruct (q_new _ _ _ Q1 p r2 Hr2) as (r1 & Hr1 & K1); [by rewrite (keeps_nonfree _ _ _ K2)|].
    exists r1. split; [done|by eapply keeps_proc_trans].
Qed.

Section TInv.
Context (n : Z) (m : gmap Z PROCESS) (I : gmap nat inst) (HT : TInv n m I).

Lemma TInv_nonneg : refs_nonneg m.
Proof. intros p r Hp Hf. pose proof (t_refs _ _ _ HT p r Hp Hf). pose proof (cnt_nonneg p (refs I)). lia. Qed.

(** A block somebody points to is live. *)
Lemma TInv_live p : p ∈ refs I -> exists r, m !! p = Some r /\ live r /\ 1 <= cReferences r.
Proof.
  intros Hp. destruct (t_valid _ _ _ HT p Hp) as (r & Hr & Hf).
  pose proof (t_refs _ _ _ HT p r Hr Hf). apply cnt_pos in Hp.
  exists r. split_and!; [done| |lia]. split; [done|]. intros _. lia.
Qed.

(** The blocks of the running processes differ. *)
Lemma TInv_self_inj k k' i i' :
  I !! k = Some i -> I !! k' = Some i' -> i_self i = i_self i' -> k = k'.
Proof.
  intros Hk Hk' Hs. destruct (t_self _ _ _ HT k i Hk) as (_ & r & Hr & _ & Hp).
  destruct (t_self _ _ _ HT k' i' Hk') as (_ & r' & Hr' & _ & Hp').
  apply (t_pids _ _ _ HT k k' i i'); [done|done|]. congruence.
Qed.

Lemma TInv_self_ref k i : I !! k = Some i -> i_self i ∈ refs I.
Proof. intros Hk. apply elem_of_refs. exists k, i. split; [done|]. by left. Qed.

Lemma TInv_hold_ref k i p : I !! k = Some i -> p ∈ i_holds i -> p ∈ refs I.
Proof. intros Hk Hp. apply elem_of_refs. exists k, i. split; [done|]. by right. Qed.

(** Calls that move no block keep the table, with the same pointers. *)
Lemma TInv_quiet_gen d m' :
  0 <= d -> quiet d m m' ->
  (forall p, p ∈ refs I -> exists r, m' !! p = Some r /\ nonfree r) /\
  (forall k i, I !! k = Some i ->
    0 < i_pid i /\ exists r, m' !! i_self i = Some r /\ enmState r = PROCSTATE_ALIVE /\
      pid_of r = i_pid i) /\
  (forall p r, m' !! p = Some r -> enmState r = PROCSTATE_ALIVE ->
    exists k i, I !! k = Some i /\ i_self i = p) /\
  (forall k i p r, I !! k = Some i -> p ∈ i_holds i -> m' !! p = Some r ->
    enmState r = PROCSTATE_EMBRYO -> pidParent (p_ids r) = i_pid i).
Proof.
  intros Hd Q. split_and!.
  - intros p Hp. destruct (TInv_live p Hp) as (r & Hr & Hl & _).
    destruct (q_keep _ _ _ Q p r Hr Hl) as (r' & Hr' & K). exists r'. split; [done|].
    rewrite <-(keeps_nonfree _ _ _ K). by apply live_nonfree.
  - intros k i Hk. destruct (t_self _ _ _ HT k i Hk) as (Hpos & r & Hr & Hs & Hpid).
    split; [done|]. destruct (TInv_live (i_self i)) as (r0 & Hr0 & Hl & _); [by eapply TInv_self_ref|].
    simplify_eq. destruct (q_keep _ _ _ Q _ r Hr Hl) as (r' & Hr' & _ & _ & K3 & K4).
    exists r'. split_and!; [done| |].
    + destruct K3 as [->|[E _]]; congruence.
    + by rewrite K4.
  - intros p r' Hp Hs. destruct (q_new _ _ _ Q p r' Hp) as (r & Hr & _ & _ & K3 & _); [by rewrite Hs|].
    eapply (t_alive _ _ _ HT p r Hr). destruct K3 as [E|[_ E]]; congruence.
  - intros k i p r' Hk Hh Hp Hs.
    destruct (q_new _ _ _ Q p r' Hp) as (r & Hr & _ & K2 & K3 & _); [by rewrite Hs|].
    rewrite K2. eapply (t_embryo _ _ _ HT k i p r); try done. destruct K3 as [E|[_ E]]; congruence.
Qed.

Lemma TInv_quiet d m' : 0 <= d -> quiet d m m' -> TInv (n + d) m' I.
Proof.
  intros Hd Q. destruct (TInv_quiet_gen d m' Hd Q) as (Hv & Hs & Ha & He).
  split; try done; [|apply HT].
  intros p r' Hp Hf. destruct (q_new _ _ _ Q p r' Hp Hf) as (r & Hr & K).
  pose proof (t_refs _ _ _ HT p r Hr). rewrite (keeps_nonfree _ _ _ K) in H.
  destruct K as (? & _). specialize (H Hf). lia.
Qed.

(** A call that hands out a reference to [p]. *)
Lemma TInv_hold d m' k i p r r' :
  0 <= d -> quiet d m m' -> I !! k = Some i ->
  m !! p = Some r -> m' !! p = Some r' -> nonfree r' -> cReferences r + 1 <= cReferences r' ->
  (enmState r' = PROCSTATE_EMBRYO -> pidParent (p_ids r') = i_pid i) ->
  TInv (n + d) m' (<[k := mk_inst (i_pid i) (i_self i) (p :: i_holds i)]> I).
Proof.
  intros Hd Q Hk Hp Hp' Hf Hinc Hemb. destruct (TInv_quiet_gen d m' Hd Q) as (Hv & Hs & Ha & He).
  set (i' := mk_inst _ _ _).
  assert (Hrefs : refs (<[k := i']> I) ≡ₚ p :: refs I).
  { rewrite refs_insert, (refs_delete I k i Hk). unfold irefs. cbn. solve_Permutation. }
  split.
  - intros q rq Hq Hfq. rewrite Hrefs, cnt_cons.
    destruct (q_new _ _ _ Q q rq Hq Hfq) as (rq0 & Hrq0 & K).
    pose proof (t_refs _ _ _ HT q rq0 Hrq0) as Hc. rewrite (keeps_nonfree _ _ _ K) in Hc.
    specialize (Hc Hfq). destruct K as (? & _). case_decide; simplify_eq; lia.
  - intros q. rewrite Hrefs. intros [->|Hq]%elem_of_cons; [by eauto|by apply Hv].
  - intros k' i0. destruct (decide (k = k')) as [<-|Hne].
    + rewrite lookup_insert_eq. intros [= <-]. by apply (Hs k i).
    + rewrite lookup_insert_ne by done. apply Hs.
  - intros q rq Hq Hsq. destruct (Ha q rq Hq Hsq) as (k' & i0 & Hk' & Hsf).
    destruct (decide (k = k')) as [<-|Hne].
    + exists k, i'. rewrite lookup_insert_eq. simplify_eq. done.
    + exists k', i0. by rewrite lookup_insert_ne.
  - intros k1 k2 i1 i2 H1 H2 Hpid.
    assert (Hget : forall k0 i0, <[k := i']> I !! k0 = Some i0 ->
              exists i00, I !! k0 = Some i00 /\ i_pid i00 = i_pid i0).
    { intros k0 i0. destruct (decide (k = k0)) as [<-|Hne].
      - rewrite lookup_insert_eq. intros [= <-]. by exists i.
      - rewrite lookup_insert_ne by done. by exists i0. }
    destruct (Hget _ _ H1) as (? & ? & ?), (Hget _ _ H2) as (? & ? & ?).
    eapply (t_pids _ _ _ HT); [done|done|congruence].
  - intros k' i0 q rq. destruct (decide (k = k')) as [<-|Hne].
    + rewrite lookup_insert_eq. intros [= <-]. cbn.
      intros [->|Hq]%elem_of_cons Hrq Hsq; [|by eapply He]. simplify_eq. by apply Hemb.
    + rewrite lookup_insert_ne by done. apply He.
Qed.
End TInv.

(** ** New blocks *)

Section New.
Context (n : Z) (m m1 m' : gmap Z PROCESS) (I : gmap nat inst) (p : Z).
Context (HT : TInv n m I) (Hn : 0 <= n) (Q : quiet 0 m m1).
Context (Hnl : forall r, m !! p = Some r -> ~ live r).
Context (Hother : forall q, q <> p -> m' !! q = m1 !! q).

(** Nobody points to the block. *)
Lemma new_unref : p ∉ refs I.
Proof.
  intros Hp. destruct (TInv_live n m I HT p Hp) as (r & Hr & Hl & _). by apply (Hnl r).
Qed.

Lemma new_cnt : cnt p (refs I) = 0.
Proof.
  pose proof (cnt_nonneg p (refs I)). destruct (decide (cnt p (refs I) = 0)) as [|Hne]; [done|].
  destruct new_unref. apply cnt_pos. lia.
Qed.

Lemma new_refs q r : q <> p -> m' !! q = Some r -> nonfree r -> cnt q (refs I) <= cReferences r <= n.
Proof.
  intros Hne Hq Hf. rewrite Hother in Hq by done.
  pose proof (TInv_quiet n m I HT 0 m1 ltac:(lia) Q) as HT1.
  pose proof (t_refs _ _ _ HT1 q r Hq Hf). lia.
Qed.

Lemma new_valid q : q ∈ refs I -> exists r, m' !! q = Some r /\ nonfree r.
Proof.
  intros Hq. destruct (TInv_quiet_gen n m I HT 0 m1 ltac:(lia) Q) as (Hv & _).
  rewrite Hother; [by apply Hv|]. intros ->. by apply new_unref.
Qed.

Lemma new_self k i :
  I !! k = Some i ->
  0 < i_pid i /\ exists r, m' !! i_self i = Some r /\ enmState r = PROCSTATE_ALIVE /\
    pid_of r = i_pid i.
Proof.
  intros Hk. destruct (TInv_quiet_gen n m I HT 0 m1 ltac:(lia) Q) as (_ & Hs & _).
  rewrite Hother; [by apply (Hs k)|]. intros E. apply new_unref. rewrite <-E.
  by eapply TInv_self_ref.
Qed.

Lemma new_alive q r :
  q <> p -> m' !! q = Some r -> enmState r = PROCSTATE_ALIVE ->
  exists k i, I !! k = Some i /\ i_self i = q.
Proof.
  intros Hne Hq. rewrite Hother in Hq by done.
  destruct (TInv_quiet_gen n m I HT 0 m1 ltac:(lia) Q) as (_ & _ & Ha & _). by apply Ha.
Qed.

Lemma new_embryo k i q r :
  I !! k = Some i -> q ∈ i_holds i -> m' !! q = Some r ->
  enmState r = PROCSTATE_EMBRYO -> pidParent (p_ids r) = i_pid i.
Proof.
  intros Hk Hq. rewrite Hother.
  - destruct (TInv_quiet_gen n m I HT 0 m1 ltac:(lia) Q) as (_ & _ & _ & He). by eapply He.
  - intros ->. apply new_unref. by eapply TInv_hold_ref.
Qed.

(** [__libc_spmCreateEmbryo] *)
Lemma TInv_new_embryo k i r' :
  I !! k = Some i -> m' !! p = Some r' -> enmState r' = PROCSTATE_EMBRYO ->
  cReferences r' = 1 -> pidParent (p_ids r') = i_pid i ->
  TInv (n + 1) m' (<[k := mk_inst (i_pid i) (i_self i) (p :: i_holds i)]> I).
Proof.
  intros Hk Hp Hs Hc Hpar. set (i' := mk_inst _ _ _).
  assert (Hrefs : refs (<[k := i']> I) ≡ₚ p :: refs I).
  { rewrite refs_insert, (refs_delete I k i Hk). unfold irefs. cbn. solve_Permutation. }
  split.
  - intros q rq Hq Hf. rewrite Hrefs, cnt_cons. case_decide as E.
    + subst q. rewrite new_cnt. simplify_eq. lia.
    + pose proof (new_refs q rq (not_eq_sym E) Hq Hf). lia.
  - intros q. rewrite Hrefs. intros [->|Hq]%elem_of_cons; [|by apply new_valid].
    exists r'. by rewrite Hs.
  - intros k' i0. destruct (decide (k = k')) as [<-|Hne].
    + rewrite lookup_insert_eq. intros [= <-]. by apply (new_self k i).
    + rewrite lookup_insert_ne by done. apply new_self.
  - intros q rq Hq Hsq. destruct (decide (q = p)) as [->|Hne]; [by simplify_eq; rewrite Hs in Hsq|].
    destruct (new_alive q rq Hne Hq Hsq) as (k' & i0 & Hk' & Hsf).
    destruct (decide (k = k')) as [<-|Hnk].
    + exists k, i'. rewrite lookup_insert_eq. simplify_eq. done.
    + exists k', i0. by rewrite lookup_insert_ne.
  - intros k1 k2 i1 i2 H1 H2 Hpid.
    assert (Hget : forall k0 i0, <[k := i']> I !! k0 = Some i0 ->
              exists i00, I !! k0 = Some i00 /\ i_pid i00 = i_pid i0).
    { intros k0 i0. destruct (decide (k = k0)) as [<-|Hne].
      - rewrite lookup_insert_eq. intros [= <-]. by exists i.
      - rewrite lookup_insert_ne by done. by exists i0. }
    destruct (Hget _ _ H1) as (? & ? & ?), (Hget _ _ H2) as (? & ? & ?).
    eapply (t_pids _ _ _ HT); [done|done|congruence].
  - intros k' i0 q rq. destruct (decide (k = k')) as [<-|Hne].
    + rewrite lookup_insert_eq. intros [= <-]. cbn.
      intros [->|Hq]%elem_of_cons Hrq Hsq; [by simplify_eq|by eapply new_embryo].
    + rewrite lookup_insert_ne by done. apply new_embryo.
Qed.
End New.

(** ** A process registers *)

Section Register.
Context (n : Z) (m' : gmap Z PROCESS) (I : gmap nat inst) (p : Z) (k : nat) (x : Z) (r' : PROCESS).
Context (Hk : I !! k = None) (Hx : 0 < x).
Context (Hpid : forall k' i, I !! k' = Some i -> i_pid i <> x).
Context (Hp : m' !! p = Some r') (Hst : enmState r' = PROCSTATE_ALIVE) (Hpx : pid_of r' = x).
Context (Href : cnt p (refs I) + 1 <= cReferences r' <= n + 1).

(** Its block is [p]; the other blocks are as good as they were. *)
Lemma TInv_register :
  (forall q r, q <> p -> m' !! q = Some r -> nonfree r -> cnt q (refs I) <= cReferences r <= n) ->
  (forall q, q <> p -> q ∈ refs I -> exists r, m' !! q = Some r /\ nonfree r) ->
  (forall k i, I !! k = Some i -> 0 < i_pid i /\
     exists r, m' !! i_self i = Some r /\ enmState r = PROCSTATE_ALIVE /\ pid_of r = i_pid i) ->
  (forall q r, q <> p -> m' !! q = Some r -> enmState r = PROCSTATE_ALIVE ->
     exists k i, I !! k = Some i /\ i_self i = q) ->
  (forall k k' i i', I !! k = Some i -> I !! k' = Some i' -> i_pid i = i_pid i' -> k = k') ->
  (forall k i q r, I !! k = Some i -> q ∈ i_holds i -> q <> p -> m' !! q = Some r ->
     enmState r = PROCSTATE_EMBRYO -> pidParent (p_ids r) = i_pid i) ->
  TInv (n + 1) m' (<[k := mk_inst x p []]> I).
Proof.
  intros Hr Hv Hs Ha Hpi He. set (i' := mk_inst _ _ _).
  assert (Hrefs : refs (<[k := i']> I) ≡ₚ p :: refs I) by (by rewrite refs_insert, delete_id).
  split.
  - intros q rq Hq Hf. rewrite Hrefs, cnt_cons. case_decide as E.
    + subst q. simplify_eq. lia.
    + pose proof (Hr q rq (not_eq_sym E) Hq Hf). lia.
  - intros q. rewrite Hrefs. destruct (decide (q = p)) as [->|Hne].
    + intros _. exists r'. by rewrite Hst.
    + intros [?|Hq]%elem_of_cons; [done|by apply Hv].
  - intros k' i0. destruct (decide (k = k')) as [<-|Hne].
    + rewrite lookup_insert_eq. intros [= <-]. cbn. split; [done|]. by exists r'.
    + rewrite lookup_insert_ne by done. apply Hs.
  - intros q rq Hq Hsq. destruct (decide (q = p)) as [->|Hne].
    + exists k, i'. by rewrite lookup_insert_eq.
    + destruct (Ha q rq Hne Hq Hsq) as (k' & i0 & Hk' & Hsf). exists k', i0.
      rewrite lookup_insert_ne; [done|]. intros ->. congruence.
  - intros k1 k2 i1 i2. destruct (decide (k = k1)) as [<-|H1], (decide (k = k2)) as [<-|H2]; [done|..].
    + rewrite lookup_insert_eq, lookup_insert_ne by done. intros [= <-] H E. cbn in E.
      by destruct (Hpid k2 i2 H).
    + rewrite lookup_insert_eq, lookup_insert_ne by done. intros H [= <-] E. cbn in E.
      by destruct (Hpid k1 i1 H).
    + rewrite !lookup_insert_ne by done. apply Hpi.
  - intros k' i0 q rq. destruct (decide (k = k')) as [<-|Hne].
    + rewrite lookup_insert_eq. intros [= <-]. cbn. by intros []%elem_of_nil.
    + rewrite lookup_insert_ne by done. intros Hk' Hq Hrq Hsq.
      destruct (decide (q = p)) as [->|Hnp]; [congruence|]. by eapply He.
Qed.
End Register.

(** The block of an embryo becomes that of the new process. *)
Lemma TInv_register_embryo n m I k x p r r' :
  TInv n m I -> I !! k = None -> 0 < x -> (forall k' i, I !! k' = Some i -> i_pid i <> x) ->
  m !! p = Some r -> enmState r = PROCSTATE_EMBRYO -> enmState r' = PROCSTATE_ALIVE ->
  pid_of r' = x -> cReferences r' = cReferences r + 1 ->
  TInv (n + 1) (<[p := r']> m) (<[k := mk_inst x p []]> I).
Proof.
  intros HT Hk Hx Hpid Hp Hs Hs' Hpx Hc.
  assert (Hns : forall k i, I !! k = Some i -> i_self i <> p).
  { intros k0 i Hk0 E. destruct (t_self _ _ _ HT k0 i Hk0) as (_ & r0 & Hr0 & Hs0 & _). congruence. }
  pose proof (t_refs _ _ _ HT p r Hp ltac:(by rewrite Hs)) as Hcp.
  apply (TInv_register n _ I p k x r'); try done.
  - by rewrite lookup_insert_eq.
  - lia.
  - intros q rq Hne. rewrite lookup_insert_ne by done. apply HT.
  - intros q Hne. rewrite lookup_insert_ne by done. apply HT.
  - intros k0 i Hk0. rewrite lookup_insert_ne; [by apply (t_self _ _ _ HT k0)|].
    intros E. by apply (Hns k0 i Hk0).
  - intros q rq Hne. rewrite lookup_insert_ne by done. apply HT.
  - apply HT.
  - intros k0 i q rq Hk0 Hq Hne. rewrite lookup_insert_ne by done. by eapply HT.
Qed.

(** A new block. *)
Lemma TInv_register_new n m m1 m' I k x p r' :
  TInv n m I -> 0 <= n -> quiet 0 m m1 -> (forall r, m !! p = Some r -> ~ live r) ->
  (forall q, q <> p -> m' !! q = m1 !! q) ->
  I !! k = None -> 0 < x -> (forall k' i, I !! k' = Some i -> i_pid i <> x) ->
  m' !! p = Some r' -> enmState r' = PROCSTATE_ALIVE -> pid_of r' = x -> cReferences r' = 1 ->
  TInv (n + 1) m' (<[k := mk_inst x p []]> I).
Proof.
  intros HT Hn Q Hnl Ho Hk Hx Hpid Hp Hs Hpx Hc.
  apply (TInv_register n _ I p k x r'); try done.
  - rewrite (new_cnt n m I p HT Hnl). lia.
  - intros. by eapply new_refs.
  - intros. by eapply (new_valid n m m1).
  - intros. by eapply (new_self n m m1).
  - intros. by eapply (new_alive n m m1).
  - apply HT.
  - intros. by eapply (new_embryo n m m1).
Qed.

(** ** A reference is given back *)

Lemma TInv_release n m I k i p holds r r' :
  TInv n m I -> I !! k = Some i -> i_holds i ≡ₚ p :: holds ->
  m !! p = Some r ->
  (cReferences r - 1 = 0 /\ enmState r' = PROCSTATE_FREE) \/
  (cReferences r' = cReferences r - 1 /\ enmState r' = enmState r /\ p_ids r' = p_ids r) ->
  TInv n (<[p := r']> m) (<[k := mk_inst (i_pid i) (i_self i) holds]> I).
Proof.
  intros HT Hk Hh Hp Hr'. set (i' := mk_inst _ _ _).
  assert (Hrefs : refs I ≡ₚ p :: refs (<[k := i']> I)).
  { rewrite refs_insert, (refs_delete I k i Hk). unfold irefs. rewrite Hh. cbn. solve_Permutation. }
  assert (Hf : nonfree r).
  { destruct (t_valid _ _ _ HT p) as (r0 & Hr0 & ?); [rewrite Hrefs; by left|]. by simplify_eq. }
  assert (Hcp : cnt p (refs (<[k := i']> I)) + 1 <= cReferences r <= n).
  { pose proof (t_refs _ _ _ HT p r Hp Hf) as Hc. rewrite Hrefs, cnt_cons, decide_True in Hc by done. lia. }
  assert (Hfree : p ∈ refs (<[k := i']> I) -> nonfree r').
  { intros Hin%cnt_pos. destruct Hr' as [[? ?]|(_ & -> & _)]; [lia|done]. }
  assert (Hself : forall k0 i0, I !! k0 = Some i0 -> i_self i0 = p -> nonfree r').
  { intros k0 i0 Hk0 E. apply Hfree, elem_of_refs. destruct (decide (k = k0)) as [<-|Hne].
    - exists k, i'. rewrite lookup_insert_eq. split; [done|].
      apply elem_of_cons. left. by simplify_eq.
    - exists k0, i0. rewrite lookup_insert_ne by done. split; [done|].
      apply elem_of_cons. by left. }
  split.
  - intros q rq. destruct (decide (p = q)) as [<-|Hne].
    + rewrite lookup_insert_eq. intros [= <-] Hf'. destruct Hr' as [[_ ?]|(-> & _)]; [done|lia].
    + rewrite lookup_insert_ne by done. intros Hq Hfq. pose proof (t_refs _ _ _ HT q rq Hq Hfq) as Hc.
      rewrite Hrefs, cnt_cons in Hc. case_decide; [done|lia].
  - intros q Hq. destruct (decide (p = q)) as [<-|Hne].
    + rewrite lookup_insert_eq. eauto.
    + rewrite lookup_insert_ne by done. apply (t_valid _ _ _ HT). rewrite Hrefs. by right.
  - intros k0 i0 Hk0.
    assert (Hi0 : exists i1, I !! k0 = Some i1 /\ i_self i1 = i_self i0 /\ i_pid i1 = i_pid i0).
    { destruct (decide (k = k0)) as [<-|Hne].
      - rewrite lookup_insert_eq in Hk0. simplify_eq. by exists i.
      - rewrite lookup_insert_ne in Hk0 by done. by exists i0. }
    destruct Hi0 as (i1 & Hi1 & <- & <-).
    destruct (t_self _ _ _ HT k0 i1 Hi1) as (? & r0 & Hr0 & Hs0 & Hp0). split; [done|].
    destruct (decide (p = i_self i1)) as [E|Hne].
    + rewrite <-E, lookup_insert_eq. exists r'. split; [done|].
      specialize (Hself k0 i1 Hi1 (eq_sym E)). rewrite E in Hp. simplify_eq.
      destruct Hr' as [[_ ?]|(_ & -> & E2)]; [done|]. unfold pid_of in *. by rewrite E2.
    + rewrite lookup_insert_ne by done. by exists r0.
  - intros q rq Hq Hsq.
    assert (Hq' : exists r0, m !! q = Some r0 /\ enmState r0 = PROCSTATE_ALIVE).
    { destruct (decide (p = q)) as [<-|Hne].
      - rewrite lookup_insert_eq in Hq. simplify_eq. exists r. split; [done|].
        destruct Hr' as [[_ ?]|(_ & ? & _)]; congruence.
      - rewrite lookup_insert_ne in Hq by done. by exists rq. }
    destruct Hq' as (r0 & Hr0 & Hs0). destruct (t_alive _ _ _ HT q r0 Hr0 Hs0) as (k0 & i0 & Hk0 & E).
    destruct (decide (k = k0)) as [<-|Hne].
    + exists k, i'. rewrite lookup_insert_eq. simplify_eq. done.
    + exists k0, i0. by rewrite lookup_insert_ne.
  - intros k1 k2 i1 i2 H1 H2 Hpid.
    assert (Hget : forall k0 i0, <[k := i']> I !! k0 = Some i0 ->
              exists i00, I !! k0 = Some i00 /\ i_pid i00 = i_pid i0).
    { intros k0 i0. destruct (decide (k = k0)) as [<-|Hne].
      - rewrite lookup_insert_eq. intros [= <-]. by exists i.
      - rewrite lookup_insert_ne by done. by exists i0. }
    destruct (Hget _ _ H1) as (? & ? & ?), (Hget _ _ H2) as (? & ? & ?).
    eapply (t_pids _ _ _ HT); [done|done|congruence].
  - intros k0 i0 q rq Hk0 Hq Hrq Hsq.
    assert (Hi0 : exists i1, I !! k0 = Some i1 /\ q ∈ i_holds i1 /\ i_pid i1 = i_pid i0).
    { destruct (decide (k = k0)) as [<-|Hne].
      - rewrite lookup_insert_eq in Hk0. simplify_eq. exists i. split_and!; [done| |done].
        rewrite Hh. by right.
      - rewrite lookup_insert_ne in Hk0 by done. by exists i0. }
    destruct Hi0 as (i1 & Hi1 & Hq1 & <-). destruct (decide (p = q)) as [<-|Hne].
    + rewrite lookup_insert_eq in Hrq. simplify_eq.
      destruct Hr' as [[_ ?]|(_ & E1 & ->)]; [congruence|].
      eapply (t_embryo _ _ _ HT k0 i1 p r); try done. congruence.
    + rewrite lookup_insert_ne in Hrq by done. by eapply (t_embryo _ _ _ HT k0 i1 q rq).
Qed.

(** ** A process ends *)

(** The blocks [spmCleanup] drops a reference of: the process itself and its
    unborn children. *)
Definition dies (x sp q : Z) (r : PROCESS) : Prop :=
  q = sp \/ (enmState r = PROCSTATE_EMBRYO /\ pidParent (p_ids r) = x).

Record exits (x sp : Z) (m m' : gmap Z PROCESS) : Prop := mk_exits {
  e_keep : forall q r, m !! q = Some r -> live r -> ~ dies x sp q r ->
    exists r', m' !! q = Some r' /\ keeps 0 r r';
  e_zombie : forall q r, m !! q = Some r -> nonfree r -> dies x sp q r -> 2 <= cReferences r ->
    exists r', m' !! q = Some r' /\ enmState r' = PROCSTATE_ZOMBIE;
  e_new : forall q r', m' !! q = Some r' -> nonfree r' ->
    exists r, m !! q = Some r /\ nonfree r /\
      ((~ dies x sp q r /\ keeps 0 r r') \/
       (dies x sp q r /\ enmState r' = PROCSTATE_ZOMBIE /\ cReferences r' = cReferences r - 1 /\
        0 <= cReferences r'))
}.

Lemma TInv_exit n m m' I k i :
  TInv n m I -> I !! k = Some i -> exits (i_pid i) (i_self i) m m' -> TInv n m' (delete k I).
Proof.
  intros HT Hk HE.
  assert (Hrefs : forall q, cnt q (refs I) = cnt q (irefs i) + cnt q (refs (delete k I))).
  { intros q. by rewrite (refs_delete I k i Hk), cnt_app. }
  assert (Hsub : forall q, q ∈ refs (delete k I) -> q ∈ refs I).
  { intros q Hq. rewrite (refs_delete I k i Hk). apply elem_of_app. by right. }
  (* nobody else points to an unborn child *)
  assert (Hemb : forall q r, m !! q = Some r -> enmState r = PROCSTATE_EMBRYO ->
            pidParent (p_ids r) = i_pid i -> q ∉ refs (delete k I)).
  { intros q r Hq Hs Hpar (k' & i' & [Hne Hk']%lookup_delete_Some & Hin)%elem_of_refs.
    unfold irefs in Hin. apply elem_of_cons in Hin as [->|Hin].
    - destruct (t_self _ _ _ HT k' i' Hk') as (_ & r0 & ? & ? & _). congruence.
    - pose proof (t_embryo _ _ _ HT k' i' q r Hk' Hin Hq Hs). apply Hne.
      apply (t_pids _ _ _ HT k k' i i' Hk Hk'). congruence. }
  assert (Hself : forall k' i', delete k I !! k' = Some i' -> i_self i' <> i_self i).
  { intros k' i' [Hne Hk']%lookup_delete_Some E. apply Hne. by eapply TInv_self_inj. }
  split.
  - intros q r' Hq Hf. destruct (e_new _ _ _ _ HE q r' Hq Hf) as (r & Hr & Hfr & Hc).
    pose proof (t_refs _ _ _ HT q r Hr Hfr) as Hcr. rewrite Hrefs in Hcr.
    pose proof (cnt_nonneg q (irefs i)). destruct Hc as [[_ (? & _)]|(Hd & _ & Hc & ?)]; [lia|].
    destruct Hd as [->|[Hs Hpar]].
    + unfold irefs in Hcr. rewrite cnt_cons, decide_True in Hcr by done.
      pose proof (cnt_nonneg (i_self i) (i_holds i)). lia.
    + pose proof (Hemb q r Hr Hs Hpar) as Hno. pose proof (cnt_nonneg q (refs (delete k I))).
      destruct (decide (cnt q (refs (delete k I)) = 0)) as [E0|]; [lia|destruct Hno; apply cnt_pos; lia].
  - intros q Hq. destruct (TInv_live n m I HT q (Hsub q Hq)) as (r & Hr & Hl & _).
    destruct (decide (q = i_self i)) as [->|Hne].
    + destruct (e_zombie _ _ _ _ HE _ r Hr) as (r' & Hr' & Hz);
        [by apply live_nonfree|by left| |exists r'; by rewrite Hz].
      pose proof (t_refs _ _ _ HT _ r Hr (live_nonfree r Hl)) as Hc.
      rewrite Hrefs in Hc. unfold irefs in Hc. rewrite cnt_cons, decide_True in Hc by done.
      apply cnt_pos in Hq. pose proof (cnt_nonneg (i_self i) (i_holds i)). lia.
    + destruct (e_keep _ _ _ _ HE q r Hr Hl) as (r' & Hr' & K).
      { intros [?|[Hs Hpar]]; [done|]. by apply (Hemb q r Hr Hs Hpar). }
      exists r'. split; [done|]. rewrite <-(keeps_nonfree _ _ _ K). by apply live_nonfree.
  - intros k' i' Hk'. pose proof (Hself k' i' Hk') as Hne. apply lookup_delete_Some in Hk' as [_ Hk'].
    destruct (t_self _ _ _ HT k' i' Hk') as (Hpos & r & Hr & Hs & Hp). split; [done|].
    destruct (TInv_live n m I HT (i_self i')) as (r0 & Hr0 & Hl & _); [by eapply TInv_self_ref|].
    simplify_eq. destruct (e_keep _ _ _ _ HE _ r Hr Hl) as (r' & Hr' & _ & _ & K3 & K4).
    { intros [?|[? _]]; congruence. }
    exists r'. split_and!; [done| |by rewrite K4]. destruct K3 as [->|[? _]]; congruence.
  - intros q r' Hq Hs. destruct (e_new _ _ _ _ HE q r' Hq) as (r & Hr & Hf & Hc); [by rewrite Hs|].
    destruct Hc as [[Hnd (_ & _ & K3 & _)]|(_ & Hz & _)]; [|congruence].
    destruct (t_alive _ _ _ HT q r Hr) as (k' & i' & Hk' & E).
    { destruct K3 as [?|[_ ?]]; congruence. }
    exists k', i'. split; [|done]. rewrite lookup_delete_ne; [done|].
    intros <-. simplify_eq. apply Hnd. by left.
  - intros k1 k2 i1 i2 [_ H1]%lookup_delete_Some [_ H2]%lookup_delete_Some. by apply HT.
  - intros k' i' q r' [_ Hk']%lookup_delete_Some Hh Hq Hs.
    destruct (e_new _ _ _ _ HE q r' Hq) as (r & Hr & Hf & Hc); [by rewrite Hs|].
    destruct Hc as [[Hnd (_ & K2 & K3 & _)]|(_ & Hz & _)]; [|congruence].
    rewrite K2. eapply (t_embryo _ _ _ HT k' i' q r); try done.
    destruct K3 as [?|[_ ?]]; congruence.
Qed.
