(* ===== verification/SpmCalls.v ===== *)
(** What each call of the process manager does to the table of processes:
    most of them move no block ([quiet]); the others create an embryo, turn one
    into a living process, give a reference back or end a process. *)

From S2P Require Import Prelude Creds Spm SpmFacts SpmAlloc SpmTable.
#[local] Open Scope Z_scope.

Section Calls.
Context {P : Type} `{SpmPoolLaws P}.
Implicit Types (s : spm P) (p : Z) (r : PROCESS) (T : list Z).

(** ** The state a call starts from *)

(** References in the table are counts, with room for some more. *)
Definition refs_below (b : Z) (m : gmap Z PROCESS) : Prop :=
  forall p r, m !! p = Some r -> nonfree r -> 0 <= cReferences r < b.
Definition refs_bound : gmap Z PROCESS -> Prop := refs_below (2 ^ 32 - 4).

(** [me] runs the call. *)
Record ready (me : Z) s : Prop := mk_ready {
  rd_inv : Inv [] [] [] s;
  rd_self : gpSPMSelf s = Some me;
  rd_me : exists m, procs s !! me = Some m /\ enmState m = PROCSTATE_ALIVE /\ 0 < pid_of m;
  rd_bound : refs_bound (procs s)
}.

(** What the other processes have sent: the signals and notices in the queues
    of a living process, and the notice its parent will get. *)
Definition same_mail r r' : Prop :=
  pSigHead r' = pSigHead r /\ pChildNotifyHead r' = pChildNotifyHead r /\ pTerm r' = pTerm r.

(** The mail of all living processes but those of [T] stays as it is. *)
Definition mail (T : list Z) (m m' : gmap Z PROCESS) : Prop :=
  forall p r r', p ∉ T -> m !! p = Some r -> enmState r = PROCSTATE_ALIVE ->
    m' !! p = Some r' -> enmState r' = PROCSTATE_ALIVE -> same_mail r r'.

(** The effect of a call that moves no block; only the mail of [T] changes. *)
Definition calm (d : Z) (T : list Z) s s' : Prop :=
  Inv [] [] [] s' /\ quiet d (procs s) (procs s') /\ gpSPMSelf s' = gpSPMSelf s /\
  mail T (procs s) (procs s').

Lemma mail_refl T m : mail T m m.
Proof. intros p r r' _ Hp _ Hp' _. by simplify_eq. Qed.

Lemma mail_trans d T m1 m2 m3 : quiet d m1 m2 -> mail T m1 m2 -> mail T m2 m3 -> mail T m1 m3.
Proof.
  intros Q M1 M2 p r r3 HT Hp Hs Hp3 Hs3.
  destruct (q_keep _ _ _ Q p r Hp) as (r2 & Hp2 & _ & _ & [E|[E _]] & _); [|..|congruence].
  { split; congruence. }
  rewrite Hs in E. destruct (M1 p r r2 HT Hp Hs Hp2 E) as (A1 & A2 & A3).
  destruct (M2 p r2 r3 HT Hp2 E Hp3 Hs3) as (B1 & B2 & B3). split_and!; congruence.
Qed.

Lemma mail_upd T m p r r' :
  m !! p = Some r -> p ∈ T \/ same_mail r r' \/ enmState r <> PROCSTATE_ALIVE ->
  mail T m (<[p := r']> m).
Proof.
  intros Hp Hm q rq rq' HT Hq Hs. destruct (decide (p = q)) as [<-|Hne].
  - rewrite lookup_insert_eq. intros [= <-] _. simplify_eq. destruct Hm as [?|[?|?]]; done.
  - rewrite lookup_insert_ne by done. intros Hq' _. by simplify_eq.
Qed.

Lemma calm_refl d T s : Inv [] [] [] s -> 0 <= d -> calm d T s s.
Proof. intros HI Hd. split_and!; [done|by apply quiet_refl|done|apply mail_refl]. Qed.

Lemma bound_nonneg b m : refs_below b m -> refs_nonneg m.
Proof. intros Hb p r Hp Hf. by destruct (Hb p r Hp Hf). Qed.

Lemma calm_trans d1 d2 T s1 s2 s3 :
  refs_bound (procs s1) -> calm d1 T s1 s2 -> calm d2 T s2 s3 -> calm (d1 + d2) T s1 s3.
Proof.
  intros Hb (I1 & Q1 & E1 & M1) (I2 & Q2 & E2 & M2). split_and!; [done| |congruence|].
  - eapply quiet_trans; [by eapply bound_nonneg|done|done].
  - by eapply mail_trans.
Qed.

Lemma quiet_below b d m m' : refs_below b m -> quiet d m m' -> refs_below (b + d) m'.
Proof.
  intros Hb Q p r' Hp Hf. destruct (q_new _ _ _ Q p r' Hp Hf) as (r & Hr & K).
  pose proof (Hb p r Hr) as Hc. rewrite (keeps_nonfree _ _ _ K) in Hc. specialize (Hc Hf).
  destruct K as (? & _). lia.
Qed.

Lemma bound_quiet d m m' : refs_bound m -> quiet d m m' -> d <= 3 -> refs_below (2 ^ 32 - 1) m'.
Proof.
  intros Hb Q Hd p r Hp Hf. destruct (quiet_below _ _ _ _ Hb Q p r Hp Hf). lia.
Qed.

Lemma ready_calm me T s s' : ready me s -> calm 0 T s s' -> ready me s'.
Proof.
  intros [HI Hs (m & Hm & Hst & Hpos) Hb] (HI' & Q & Hs' & _). split; [done|congruence| |].
  - destruct (q_keep _ _ _ Q me m Hm) as (m' & Hm' & _ & _ & [E|[? ?]] & Hp).
    { split; [by rewrite Hst|]. by rewrite Hst. }
    + exists m'. by rewrite E, Hp.
    + congruence.
  - unfold refs_bound in *. replace (2 ^ 32 - 4) with (2 ^ 32 - 4 + 0) by lia. by eapply quiet_below.
Qed.

Lemma ready_alloc_ok me s : ready me s -> alloc_ok s.
Proof. intros [? ? (m & ? & ? & _) ?]. left. by exists me, m. Qed.

Lemma Inv_pwf X s p r : Inv [] [] X s -> procs s !! p = Some r -> pwf r.
Proof. intros HI Hp. by destruct (inv_pwf _ _ _ _ HI p r Hp) as [[]%elem_of_nil|?]. Qed.

Lemma same_proc_keeps r r' : same_proc r r' -> keeps 0 r r'.
Proof. intros [->| ->]; split_and!; (cbn; lia || auto). Qed.

(** Allocation moves no block. *)
Lemma frame_quiet X s s' : Inv [] [] X s -> frame [] s s' -> quiet 0 (procs s) (procs s').
Proof.
  intros HI HF. split.
  - intros p r Hp [Hf He]. destruct (fr_keep _ _ _ HF p r Hp) as (r' & Hr' & Hs).
    + pose proof (Inv_pwf _ _ _ _ HI Hp) as [_ Hw]. unfold kept.
      destruct (enmState r); naive_solver.
    + exists r'. split; [done|by apply same_proc_keeps].
  - intros p r' Hp Hf. destruct (fr_new _ _ _ HF p r' Hp) as (r & Hr & Hs); [by right|].
    exists r. split; [done|by apply same_proc_keeps].
Qed.

Lemma frame_mail X T s s' : Inv [] [] X s -> frame [] s s' -> mail T (procs s) (procs s').
Proof.
  intros HI HF p r r' _ Hp Hs Hp' _. destruct (fr_keep _ _ _ HF p r Hp) as (r1 & Hr1 & Hsame).
  { right. by left. }
  simplify_eq. by destruct Hsame as [->| ->].
Qed.

Lemma mem_only_calm T s s' : Inv [] [] [] s' -> mem_only s s' -> calm 0 T s s'.
Proof.
  intros HI (_ & Hp & _ & _ & Hs). split_and!; [done| |done|]; rewrite Hp; [by apply quiet_refl|apply mail_refl].
Qed.

(** ** Changing one block in its place *)

Lemma quiet_upd d (m : gmap Z PROCESS) p r r' :
  0 <= d -> m !! p = Some r -> keeps d r r' -> quiet d m (<[p := r']> m).
Proof.
  intros Hd Hp K. split.
  - intros q rq Hq _. destruct (decide (p = q)) as [<-|Hne].
    + rewrite lookup_insert_eq. simplify_eq. by exists r'.
    + rewrite lookup_insert_ne by done. exists rq. split; [done|by apply keeps_proc_refl].
  - intros q rq. destruct (decide (p = q)) as [<-|Hne].
    + rewrite lookup_insert_eq. intros [= <-] _. by exists r.
    + rewrite lookup_insert_ne by done. intros Hq _. exists rq. split; [done|by apply keeps_proc_refl].
Qed.

(** The members the invariant looks at. *)
Definition plain r r' : Prop :=
  enmState r' = enmState r /\ pSigHead r' = pSigHead r /\
  pChildNotifyHead r' = pChildNotifyHead r /\ ppChildNotifyTail r' = ppChildNotifyTail r /\
  pTerm r' = pTerm r /\ pInherit r' = pInherit r /\ pInheritLocked r' = pInheritLocked r.

Lemma plain_pwf r r' : plain r r' -> pwf r -> pwf r'.
Proof.
  intros (E1 & E2 & E3 & E4 & E5 & E6 & E7). unfold pwf, blocks.
  by rewrite E1, E2, E3, E4, E5, E6, E7.
Qed.

Lemma plain_blocks r r' : plain r r' -> blocks r' = blocks r.
Proof. intros (_ & E2 & E3 & _ & E5 & E6 & E7). unfold blocks. by rewrite E2, E3, E5, E6, E7. Qed.

Lemma Inv_upd_plain X s p r r' :
  Inv [] [] X s -> procs s !! p = Some r -> plain r r' -> Inv [] [] X (upd p r' s).
Proof.
  intros HI Hp Hpl. eapply Inv_upd; [done|done| | |right].
  - by rewrite (plain_blocks _ _ Hpl).
  - right. apply Hpl.
  - eapply plain_pwf; [done|]. by eapply Inv_pwf.
Qed.

Lemma calm_upd_plain d T s p r r' :
  Inv [] [] [] s -> procs s !! p = Some r -> 0 <= d -> plain r r' -> keeps d r r' ->
  calm d T s (upd p r' s).
Proof.
  intros HI Hp Hd Hpl K. split_and!; [by eapply Inv_upd_plain|by eapply quiet_upd|done|].
  eapply mail_upd; [done|]. right. left. destruct Hpl as (_ & ? & ? & _ & ? & _). by split_and!.
Qed.

(** ** Searching a list *)

Lemma wp_find_proc (f : PROCESS -> bool) l s :
  (forall p, p ∈ l -> is_Some (procs s !! p)) ->
  wp (find_proc f l) (fun o s' => s' = s /\
       match o with
       | Some p => p ∈ l /\ exists r, procs s !! p = Some r /\ f r = true
       | None => forall p r, p ∈ l -> procs s !! p = Some r -> f r = false
       end) (fun _ _ => False) s.
Proof.
  induction l as [|p l IH]; intros Hl; cbn.
  - split; [done|]. by intros p r []%elem_of_nil.
  - destruct (Hl p) as [r Hr]; [by left|].
    apply wp_bind. eapply wp_getp; [exact Hr|]. destruct (f r) eqn:Hf.
    + split; [done|]. split; [by left|]. by exists r.
    + eapply wp_conseq; [apply IH; intros q Hq; apply Hl; by right| |done].
      intros o s' [-> Ho]. split; [done|]. destruct o as [q|].
      * destruct Ho as [Hq Hr']. split; [by right|done].
      * intros q rq [->|Hq]%elem_of_cons Hrq; [congruence|by eapply Ho].
Qed.

Lemma Inv_head_Some X s st p : Inv [] [] X s -> p ∈ head_of st (apHeads s) -> is_Some (procs s !! p).
Proof. intros HI Hp. destruct (inv_in _ _ _ _ HI st p Hp) as (r & ? & _). by exists r. Qed.

Lemma wp_query X s x st :
  Inv [] [] X s ->
  wp (spmQueryProcessInState x st) (fun o s' => s' = s /\
       match o with
       | Some p => exists r, procs s !! p = Some r /\ enmState r = st /\ pid_of r = x
       | None => forall p r, procs s !! p = Some r -> enmState r = st -> pid_of r <> x
       end) (fun _ _ => False) s.
Proof.
  intros HI. unfold spmQueryProcessInState. apply wp_bind, wp_gethead.
  eapply wp_conseq; [apply wp_find_proc; intros p; by eapply Inv_head_Some| |done].
  intros o s' [-> Ho]. split; [done|]. destruct o as [p|].
  - destruct Ho as (Hin & r & Hr & Hf). breflect. exists r. split_and!; [done| |done].
    destruct (inv_in _ _ _ _ HI st p Hin) as (? & ? & ?). congruence.
  - intros p r Hp Hst. specialize (Ho p r). rewrite <-Hst in Ho.
    destruct (inv_dom _ _ _ _ HI p r Hp) as [[]%elem_of_nil|Hin].
    specialize (Ho Hin Hp). by breflect.
Qed.

(** ** Calls of a process on itself *)

(** [m] returns, normally or with an error, and is calm. *)
Definition is_calm {A} (d : Z) (T : list Z) (m : M (spm P) A) s : Prop :=
  wp m (fun _ s' => calm d T s s') (fun _ s' => calm d T s s') s.

Lemma wp_mutex (Q : Z -> spm P -> Prop) E s : Q (os_mutex (os s)) s -> wp spmRequestMutex Q E s.
Proof. done. Qed.

Lemma wp_mutex_errno (Q : Z -> spm P -> Prop) (E : Z -> spm P -> Prop) s :
  Q 0 s -> (forall e, E e s) -> wp spmRequestMutexErrno Q E s.
Proof.
  intros HQ HE. unfold spmRequestMutexErrno. apply wp_bind, wp_mutex.
  destruct (_ =? _); [by apply wp_ret|apply wp_err, HE].
Qed.

Lemma wp_or_null {A} (m : M (spm P) (option A)) Q E s :
  wp m Q (fun _ s' => Q None s') s -> wp (or_null m) Q E s.
Proof. unfold wp, or_null. by destruct (m s). Qed.

Lemma wp_getself me m Q E s :
  gpSPMSelf s = Some me -> procs s !! me = Some m -> Q m s -> wp getself Q E s.
Proof.
  intros Hs Hm HQ. unfold getself. apply wp_bind. eapply wp_self; [done|]. by eapply wp_getp.
Qed.

(** A change of a block that keeps its blocks, list and references. *)
Lemma calm_upd d T s p r r' X :
  Inv [] [] X s -> procs s !! p = Some r -> 0 <= d -> keeps d r r' ->
  blocks r' ⊆+ X ++ blocks r -> enmState r' = enmState r -> pwf r' ->
  p ∈ T \/ same_mail r r' \/ enmState r <> PROCSTATE_ALIVE ->
  calm d T s (upd p r' s).
Proof.
  intros HI Hp Hd K Hb Hst Hw Hm. split_and!; [|by eapply quiet_upd|done|by eapply mail_upd].
  eapply Inv_upd; [exact HI|exact Hp|done|by right|by right].
Qed.

Lemma keeps0_same r r' :
  cReferences r' = cReferences r -> p_ids r' = p_ids r -> enmState r' = enmState r -> keeps 0 r r'.
Proof. intros Hc Hi Hs. unfold keeps, pid_of. rewrite Hc, Hi. split_and!; (lia || auto). Qed.

(** The exit code a process leaves; only the first one counts. *)
Definition term_set (reason code : Z) (t : option SPMCHILDNOTIFY) : option SPMCHILDNOTIFY :=
  match t with
  | Some n =>
      if cn_enmDeathReason n =? EXIT_REASON_NONE then
        Some (mk_SPMCHILDNOTIFY (cn_addr n) (cn_cb n) (cn_pid n) (cn_pgrp n) code reason)
      else Some n
  | None => None
  end.

Lemma wp_spmTerm me m s reason code :
  ready me s -> procs s !! me = Some m ->
  wp (spmTerm reason code) (fun _ s' => calm 0 [me] s s' /\
       (os_mutex (os s) = 0 -> exists m', procs s' !! me = Some m' /\
          pTerm m' = term_set reason code (pTerm m))) (fun _ _ => False) s.
Proof.
  intros [HI Hs (m0 & Hm0 & Hst & Hpos) Hb] Hm. assert (m0 = m) as -> by congruence. unfold spmTerm.
  apply wp_bind, wp_mutex.
  apply wp_when; intros Hmx; breflect; [|split; [by apply calm_refl|done]].
  apply wp_bind, wp_gets. rewrite Hs. apply wp_bind. eapply wp_getp; [exact Hm|].
  destruct (pTerm m) as [t|] eqn:Ht; cbn.
  2: { split; [by apply calm_refl|]. intros _. by exists m. }
  apply wp_when; intros Hn; rewrite Hn.
  2: { split; [by apply calm_refl|]. intros _. by exists m. }
  eapply wp_updp; [exact Hm|].
  pose proof (Inv_pwf _ _ _ _ HI Hm) as Hw. split.
  - eapply (calm_upd 0 [me] s me m _ []); [done|done|done|by apply keeps0_same| |done| |left; by left].
    + unfold blocks. cbn. by rewrite Ht.
    + destruct Hw as [Hg Hw]. rewrite Hst in Hw. split; [done|]. cbn. by rewrite Hst.
  - intros _. eexists. cbn. by rewrite lookup_insert_eq.
Qed.

Lemma calm_spmValidPGrp me s g b : ready me s -> is_calm 0 [] (spmValidPGrp g b) s.
Proof.
  intros [HI Hs (m & Hm & Hst & Hpos) Hb]. unfold is_calm, spmValidPGrp. apply wp_bind, wp_mutex.
  destruct (negb _); [by apply calm_refl|]. apply wp_bind.
  assert (Hx : forall (Q : Z -> spm P -> Prop) E (c : bool) (f : PROCESS -> Z) y, (forall z, Q z s) ->
            wp (if c then m ← getself; mret (f m) else mret y) Q E s).
  { intros Q E c f y HQ. destruct c; [|by apply wp_ret]. apply wp_bind.
    eapply wp_getself; [done|done|]. apply wp_ret, HQ. }
  apply Hx. intros x. apply wp_bind, (Hx _ _ _ (fun m => pgrp (p_ids m))). intros g'.
  apply wp_bind, wp_gethead, wp_bind.
  eapply wp_conseq; [apply wp_find_proc; intros p; by eapply (Inv_head_Some [])| |done].
  intros o s' [-> _]. by apply calm_refl.
Qed.

Lemma alive_pwf m m' :
  pwf m -> enmState m = PROCSTATE_ALIVE -> enmState m' = PROCSTATE_ALIVE ->
  pSigHead m' = pSigHead m -> pChildNotifyHead m' = pChildNotifyHead m ->
  ppChildNotifyTail m' = ppChildNotifyTail m -> pwf m'.
Proof.
  intros [Hg Hw] Hs Hs' E1 E2 E3. rewrite Hs in Hw. split; [by rewrite E1|]. by rewrite Hs', E2, E3.
Qed.

Lemma calm_spmInheritRequest me s : ready me s -> is_calm 0 [] spmInheritRequest s.
Proof.
  intros [HI Hs (m & Hm & Hst & Hpos) Hb]. unfold is_calm, spmInheritRequest. apply wp_bind, wp_mutex_errno.
  2: { intros _. by apply calm_refl. }
  apply wp_bind. eapply wp_self; [exact Hs|]. apply wp_bind. eapply wp_getp; [exact Hm|].
  destruct (negb (pInherit m =? 0)); [|destruct (negb (pInheritLocked m =? 0)); by apply calm_refl].
  apply wp_bind. eapply wp_updp; [exact Hm|]. apply wp_ret.
  eapply (calm_upd 0 [] s me m _ []); [done|done|done|by apply keeps0_same| |done| |right; by left].
  - unfold blocks. cbn. by apply submseteq_skips_l, submseteq_inserts_l.
  - by eapply alive_pwf; [by eapply Inv_pwf|..].
Qed.

Lemma calm_spmInheritRelease me s : ready me s -> is_calm 0 [] spmInheritRelease s.
Proof.
  intros [HI Hs (m & Hm & Hst & Hpos) Hb]. unfold is_calm, spmInheritRelease. apply wp_bind, wp_mutex.
  destruct (negb _); [by apply calm_refl|].
  apply wp_bind. eapply wp_self; [exact Hs|]. apply wp_bind. eapply wp_updp; [exact Hm|].
  apply wp_ret. eapply (calm_upd 0 [] s me m _ []); [done|done|done|by apply keeps0_same| |done| |right; by left].
  - unfold blocks. cbn. apply Permutation_submseteq. solve_Permutation.
  - by eapply alive_pwf; [by eapply Inv_pwf|..].
Qed.

(** After a change of one block memory is freed. *)
Lemma calm_then_mem d T s s1 s2 :
  quiet d (procs s) (procs s1) -> gpSPMSelf s1 = gpSPMSelf s -> mail T (procs s) (procs s1) ->
  Inv [] [] [] s2 -> mem_only s1 s2 -> calm d T s s2.
Proof.
  intros Q E M HI (_ & Hp & _ & _ & Hs). split_and!; [done|by rewrite Hp|congruence|by rewrite Hp].
Qed.

Lemma calm_spmInheritFree me s : ready me s -> is_calm 0 [] spmInheritFree s.
Proof.
  intros [HI Hs (m & Hm & Hst & Hpos) Hb]. unfold is_calm, spmInheritFree. apply wp_bind, wp_gets. rewrite Hs.
  apply wp_bind. eapply wp_getp; [exact Hm|]. apply wp_when; intros _; [|by apply calm_refl].
  apply wp_bind, wp_mutex. apply wp_when; intros _; [|by apply calm_refl]. apply wp_bind.
  apply wp_when; intros Hi; [|apply wp_mod; split_and!; [by eapply Inv_same|by apply quiet_refl|done|apply mail_refl]].
  breflect. set (m' := set_pInherit 0 m).
  assert (HI1 : Inv [] [] [pInherit m] (upd me m' s)).
  { eapply Inv_upd; [exact HI|exact Hm| |by right|right].
    - unfold blocks, opt_block, m'. cbn. by destruct (Z.eqb_spec (pInherit m) 0).
    - by eapply alive_pwf; [by eapply Inv_pwf|..]. }
  (* the block is freed before the pointer to it is cleared *)
  pose proof (wp_spmFree_pool _ _ _ _ _ HI1) as Hfree. revert Hfree. unfold wp, spmFree, on_pool.
  unfold mbind, M_bind, upd at 1. cbn [pool set_procs].
  destruct (pool_free (pInherit m) (pool s)) as [rc q|e q|f]; [|done|done].
  intros (_ & HI2 & q' & E). unfold updp, mbind, M_bind, getp. cbn. rewrite Hm. cbn.
  split_and!; [by eapply Inv_same; [exact HI2|..]| |done|].
  - eapply (quiet_upd 0 (procs s)); [done|done|by apply keeps0_same].
  - eapply (mail_upd [] (procs s)); [done|]. right. by left.
Qed.

Lemma calm_spmExeInited me s : ready me s -> is_calm 0 [] spmExeInited s.
Proof.
  intros [HI Hs (m & Hm & Hst & Hpos) Hb]. unfold is_calm, spmExeInited.
  apply wp_bind. eapply wp_self; [exact Hs|]. eapply wp_updp; [exact Hm|].
  eapply calm_upd_plain; [exact HI|exact Hm|done|by split_and!|by apply keeps0_same].
Qed.

(** ** Child notifications *)

(** Freeing an embryo without references. *)
Lemma calm_free_dead T s p r :
  Inv [] [] [] s -> procs s !! p = Some r -> ~ live r -> enmState r <> PROCSTATE_FREE ->
  wp (spmFreeProcess p) (fun _ s' => calm 0 T s s') (fun _ _ => False) s.
Proof.
  intros HI Hp Hl Hf. pose proof (Inv_pwf _ _ _ _ HI Hp) as Hw.
  eapply wp_conseq; [eapply wp_spmFreeProcess; try done; [apply not_elem_of_nil|apply Hw]| |done].
  intros _ s' [HI' (E1 & _ & _ & _ & Es)].
  assert (Hna : enmState r <> PROCSTATE_ALIVE) by (intros Hs; apply Hl; split; congruence).
  split_and!; [done| |done|]; rewrite E1; [|by eapply mail_upd; [|right; right]]. split.
  - intros q rq Hq Hlq. destruct (decide (p = q)) as [<-|Hne]; [by simplify_eq|].
    rewrite lookup_insert_ne by done. exists rq. split; [done|by apply keeps_proc_refl].
  - intros q rq. destruct (decide (p = q)) as [<-|Hne].
    + rewrite lookup_insert_eq. by intros [= <-].
    + rewrite lookup_insert_ne by done. intros Hq _. exists rq. split; [done|by apply keeps_proc_refl].
Qed.

(** The list of notifications without its element [i]. *)
Definition note_removed (i : nat) r : PROCESS :=
  set_ppChildNotifyTail (pred (length (pChildNotifyHead r)))
    (set_pChildNotifyHead (delete i (pChildNotifyHead r)) r).

(** Both ways [__libc_spmQueryChildNotification] unlinks an element do that,
    when the tail pointer is right. *)
Lemma wp_remove_note me m s i n (Q : unit -> spm P -> Prop) E :
  procs s !! me = Some m -> pChildNotifyHead m !! i = Some n ->
  ppChildNotifyTail m = length (pChildNotifyHead m) ->
  Q () (upd me (note_removed i m) s) ->
  wp (if (ppChildNotifyTail m =? S i)%nat then
        updp me (fun r => set_ppChildNotifyTail i
          (set_pChildNotifyHead (take i (pChildNotifyHead r)) r))
      else
        updp me (fun r => set_ppChildNotifyTail
          (if (S i <? ppChildNotifyTail r)%nat then pred (ppChildNotifyTail r)
           else ppChildNotifyTail r)
          (set_pChildNotifyHead (delete i (pChildNotifyHead r)) r))) Q E s.
Proof.
  intros Hm Hi Ht HQ. apply lookup_lt_Some in Hi as Hlt.
  destruct (Nat.eqb_spec (ppChildNotifyTail m) (S i)) as [Hl|Hl].
  - eapply wp_updp; [exact Hm|]. unfold upd, note_removed in HQ.
    rewrite Ht in Hl. rewrite Hl in HQ. cbn [pred] in HQ.
    rewrite delete_take_drop, drop_ge, app_nil_r in HQ by lia. exact HQ.
  - eapply wp_updp; [exact Hm|]. unfold upd, note_removed in HQ. rewrite Ht.
    by rewrite (proj2 (Nat.ltb_lt _ _)) by lia.
Qed.

Lemma note_removed_blocks i n r :
  pChildNotifyHead r !! i = Some n -> cn_addr n :: blocks (note_removed i r) ≡ₚ blocks r.
Proof.
  intros Hi. unfold blocks. cbn. rewrite (delete_perm cn_addr _ _ _ Hi). solve_Permutation.
Qed.

Lemma note_removed_pwf i n r :
  pwf r -> enmState r = PROCSTATE_ALIVE -> pChildNotifyHead r !! i = Some n ->
  pwf (note_removed i r).
Proof.
  intros [Hg Hw] Hs Hi. rewrite Hs in Hw. split; [done|]. cbn. rewrite Hs.
  by rewrite (length_delete _ _ (mk_is_Some _ _ Hi)), Nat.sub_1_r.
Qed.

(** An embryo that has no child to become any more. *)
Lemma calm_bury_embryo T s p r :
  Inv [] [] [] s -> procs s !! p = Some r -> enmState r = PROCSTATE_EMBRYO ->
  0 <= cReferences r < 2 ^ 32 - 1 ->
  wp (if cReferences r =? 0 then spmFreeProcess p
      else
        _ ← updp p (fun r => set_cReferences (u32 (cReferences r + 1)) r);
        spmZombieOrFree p) (fun _ s' => calm 0 T s s') (fun _ _ => False) s.
Proof.
  intros HI Hr Hs Hc. pose proof (Inv_pwf _ _ _ _ HI Hr) as Hw. case_match; breflect.
  - eapply calm_free_dead; [done|done| |by rewrite Hs]. intros [_ Hl]. by apply (Hl Hs).
  - apply wp_bind. eapply wp_updp; [exact Hr|]. rewrite u32_small by lia.
    set (r1 := set_cReferences _ r).
    assert (HI1 : Inv [] [] [] (upd p r1 s)) by (by eapply Inv_upd_plain; [done|exact Hr|]).
    eapply wp_conseq; [eapply (wp_spmZombieOrFree [] [] [] p r1)| |done]; try done.
    + unfold upd. cbn. by rewrite lookup_insert_eq.
    + apply not_elem_of_nil.
    + unfold r1. cbn. by rewrite Hs.
    + intros _ s' [HI' (E1 & _ & _ & _ & Es)].
      unfold upd in E1. cbn [procs set_procs] in E1. rewrite insert_insert_eq in E1.
      split_and!; [done| |done|]; rewrite E1; [|eapply mail_upd; [done|right; right; congruence]].
      eapply quiet_upd; [done|done|].
      assert (Hd : cReferences (dropped r1) = cReferences r).
      { unfold dropped, r1. cbn. zbool. cbn. lia. }
      unfold zombie_or_free. rewrite Hd, (proj2 (Z.eqb_neq _ _)) by done.
      unfold keeps. cbn. rewrite Hd.
      unfold dropped, r1. cbn. case_match; cbn; rewrite Hs; split_and!; (lia || auto || done).
Qed.

(** What the caller gets of its notices: the first one of the child, which
    leaves the list. *)
Definition note_query (x : Z) m (rc : Z) (n : SPMCHILDNOTIFY) m' : Prop :=
  (rc = 0 /\ exists i, list_find (fun n => cn_pid n = x) (pChildNotifyHead m) = Some (i, n) /\
     pChildNotifyHead m' = delete i (pChildNotifyHead m) /\
     pSigHead m' = pSigHead m /\ pTerm m' = pTerm m) \/
  (rc = - ESRCH /\ list_find (fun n => cn_pid n = x) (pChildNotifyHead m) = None /\
     same_mail m m').

Lemma wp_spmQueryChildNotification me m s x :
  ready me s -> procs s !! me = Some m ->
  wp (spmQueryChildNotification x) (fun out s' => calm 0 [me] s s' /\
       (os_mutex (os s) = 0 -> exists m', procs s' !! me = Some m' /\
          note_query x m (fst out) (snd out) m')) (fun _ _ => False) s.
Proof.
  intros [HI Hs (m0 & Hm0 & Hst & Hpos) Hb] Hm. assert (m0 = m) as -> by congruence. unfold spmQueryChildNotification.
  apply wp_bind, wp_mutex. destruct (Z.eqb_spec (os_mutex (os s)) 0) as [Hmx|Hmx]; cbn [negb].
  2: { split; [by apply calm_refl|done]. }
  apply wp_bind. eapply wp_self; [exact Hs|]. apply wp_bind. eapply wp_getp; [exact Hm|].
  pose proof (Inv_pwf _ _ _ _ HI Hm) as Hw.
  destruct (list_find _ _) as [[i nt]|] eqn:Hf.
  - apply list_find_Some in Hf as Hf'. destruct Hf' as (Hi & _ & _). apply wp_bind.
    apply (wp_remove_note me m s i nt); [done|done| |].
    { destruct Hw as [_ Hw]. by rewrite Hst in Hw. }
    assert (HI1 : Inv [] [] [cn_addr nt] (upd me (note_removed i m) s)).
    { eapply Inv_upd; [exact HI|exact Hm| |by right|right; by eapply note_removed_pwf].
      apply Permutation_submseteq. cbn. by apply note_removed_blocks. }
    apply wp_bind. eapply wp_conseq; [by apply wp_spmFreeChildNotify| |done].
    intros _ s2 [HI2 Hm2]. apply wp_ret. split.
    + eapply calm_then_mem; [| | |exact HI2|exact Hm2]; [|done|].
      * eapply (quiet_upd 0 (procs s)); [done|done|by apply keeps0_same].
      * eapply (mail_upd _ (procs s)); [done|]. left. by left.
    + intros _. destruct Hm2 as (_ & -> & _). exists (note_removed i m).
      unfold upd. cbn. rewrite lookup_insert_eq. split; [done|]. left. split; [done|]. by exists i.
  - apply wp_bind. eapply wp_conseq; [by eapply wp_query| |done].
    intros o s1 [-> Ho].
    assert (Hno : forall s', calm 0 [] s s' -> calm 0 [me] s s' /\
              (os_mutex (os s) = 0 -> exists m', procs s' !! me = Some m' /\
                 note_query x m (- ESRCH) zero_notify m')).
    { intros s' C. pose proof C as (HI' & Q & E & M). split.
      - split_and!; try done. intros q rq rq' _. apply (M q rq rq' (not_elem_of_nil q)).
      - intros _. destruct (q_keep _ _ _ Q me m Hm) as (m' & Hm' & _ & _ & [Es|[? ?]] & _);
          [by split; rewrite Hst| |congruence].
        exists m'. split; [done|]. right. split_and!; [done|done| |..];
          apply (M me m m' (not_elem_of_nil me)); congruence. }
    destruct o as [p|]; [|apply wp_ret, Hno; by apply calm_refl].
    destruct Ho as (r & Hr & Hsr & Hpr).
    apply wp_bind, wp_bind. eapply wp_getp; [exact Hr|].
    eapply wp_conseq; [apply (calm_bury_embryo [] s p r); try done| |done].
    + destruct (Hb p r Hr); [by rewrite Hsr|lia].
    + intros ? s' C. apply wp_ret. by apply Hno.
Qed.

(** ** The embryo a parent has created *)

Lemma Inv_nonfree_pwf r r' :
  nonfree r -> pwf r -> enmState r' = enmState r -> pSigHead r' = pSigHead r ->
  pChildNotifyHead r' = pChildNotifyHead r -> ppChildNotifyTail r' = ppChildNotifyTail r -> pwf r'.
Proof.
  intros Hf [Hg Hw] Hs E1 E2 E3. split; [by rewrite E1|]. rewrite Hs, E1, E2, E3.
  by destruct (enmState r).
Qed.

Lemma calm_spawn_inherit me s p r cb :
  ready me s -> procs s !! p = Some r -> live r -> 0 <= cb <= 2 ^ 31 ->
  is_calm 0 [] (spawn_inherit p cb) s.
Proof.
  intros Hrd Hp Hl Hcb. pose proof (rd_inv _ _ Hrd) as HI. unfold is_calm, spawn_inherit.
  assert (Halloc : wp (or_null (libc_spmAlloc cb)) (fun o s1 =>
            Inv [] [] (option_list o) s1 /\ frame [] s s1) (fun _ _ => False) s).
  { apply wp_or_null. unfold libc_spmAlloc. destruct (cb =? 0); [by split|].
    apply wp_bind, wp_mutex_errno; [|by split].
    eapply wp_conseq; [apply (wp_spmAlloc [] []); [done|by eapply ready_alloc_ok|done]| |done].
    intros o s1 [HI1 HF1]. rewrite app_nil_r in HI1. by split. }
  apply wp_bind. eapply wp_conseq; [exact Halloc| |done]. intros o s1 [HI1 HF1].
  pose proof (frame_quiet _ _ _ HI HF1) as Q1.
  destruct (q_keep _ _ _ Q1 p r Hp Hl) as (r1 & Hr1 & K).
  assert (Hf1 : nonfree r1) by (rewrite <-(keeps_nonfree _ _ _ K); by apply live_nonfree).
  pose proof (Inv_pwf _ _ _ _ HI1 Hr1) as Hw1.
  assert (Hres : forall a, opt_block a = option_list o -> calm 0 [] s (upd p (set_pInherit a r1) s1)).
  { intros a Ha. split_and!; [| |apply HF1|].
    - eapply Inv_upd; [exact HI1|exact Hr1| |by right|right; by eapply Inv_nonfree_pwf].
      unfold blocks. cbn. rewrite Ha. by apply submseteq_skips_l, submseteq_inserts_l.
    - change 0 with (0 + 0). eapply quiet_trans; [by eapply bound_nonneg, Hrd|exact Q1|].
      by eapply (quiet_upd 0 (procs s1)); [|exact Hr1|apply keeps0_same].
    - eapply mail_trans; [exact Q1|by eapply frame_mail|].
      eapply (mail_upd [] (procs s1)); [exact Hr1|]. right. by left. }
  destruct o as [a|]; apply wp_bind; (eapply wp_updp; [exact Hr1|]); apply Hres; [|done].
  unfold opt_block. destruct (Z.eqb_spec a 0) as [->|]; [|done].
  pose proof (Inv_nonnull _ _ _ _ 0 HI1). cbn in H1. specialize (H1 ltac:(by left)). lia.
Qed.

Lemma calm_spawn_set_pid me s p r x :
  ready me s -> procs s !! p = Some r -> (enmState r = PROCSTATE_ALIVE -> 0 < pid_of r) ->
  is_calm 0 [] (spawn_set_pid p x) s /\ is_calm 0 [] (fork_set_pid p x) s.
Proof.
  intros Hrd Hp Hpos. pose proof (rd_inv _ _ Hrd) as HI. unfold PID_NONE.
  split; unfold is_calm, spawn_set_pid, fork_set_pid, PID_NONE;
    (eapply wp_updp; [exact Hp|]);
    case_match; breflect;
    (eapply calm_upd_plain; [exact HI|exact Hp|done|by split_and!|]);
    try (by apply keeps0_same);
    unfold keeps; cbn; (split_and!; [lia|lia|done|by left|]);
    intros Hs; specialize (Hpos Hs); lia.
Qed.

Lemma calm_fork_set_handle me s p r h :
  ready me s -> procs s !! p = Some r -> is_calm 0 [] (fork_set_handle p h) s.
Proof.
  intros [HI _ _ _] Hp. unfold is_calm, fork_set_handle. eapply wp_updp; [exact Hp|].
  eapply calm_upd_plain; [exact HI|exact Hp|done|by split_and!|by apply keeps0_same].
Qed.

(** [Creds]: the ids of the process itself, its process id excepted. *)
Definition spmChangeIds (f : SPMPROCESS -> SPMPROCESS) : M (spm P) unit :=
  me ← self; updp me (fun r => set_p_ids (f (p_ids r)) r).

Lemma calm_spmChangeIds me s f :
  (forall i, pid (f i) = pid i /\ pidParent (f i) = pidParent i) ->
  ready me s -> is_calm 0 [] (spmChangeIds f) s.
Proof.
  intros Hf [HI Hs (m & Hm & Hst & Hpos) Hb]. unfold is_calm, spmChangeIds. apply wp_bind.
  eapply wp_self; [exact Hs|]. eapply wp_updp; [exact Hm|].
  eapply calm_upd_plain; [exact HI|exact Hm|done|by split_and!|].
  destruct (Hf (p_ids m)) as [E1 E2]. unfold keeps, pid_of. cbn.
  split_and!; [lia|lia|done|by left|done].
Qed.

(** ** Queries *)

(** What a search finds: the reference is counted. *)
Definition found s (x : Z) (st : SPMPROCSTAT) (o : option Z) s' : Prop :=
  match o with
  | None => True
  | Some p => exists r r', procs s !! p = Some r /\ enmState r = st /\ pid_of r = x /\
      procs s' !! p = Some r' /\ enmState r' = st /\ cReferences r' = cReferences r + 1
  end.

Lemma wp_search b x st s :
  Inv [] [] [] s -> refs_below b (procs s) -> b <= 2 ^ 32 - 1 -> st <> PROCSTATE_FREE ->
  wp (search x st) (fun o s' => calm 1 [] s s' /\ found s x st o s' /\
       (o = None -> s' = s) /\ (st = PROCSTATE_RESERVED -> o = None)) (fun _ _ => False) s.
Proof.
  intros HI Hb Hle Hst. unfold search. apply wp_bind, wp_gethead, wp_bind.
  eapply wp_conseq; [apply wp_find_proc; intros p; by eapply Inv_head_Some| |done].
  intros o s1 [-> Ho]. destruct o as [p|]; [|split_and!; [by apply calm_refl|done|done|done]].
  destruct Ho as (_ & r & Hr & Hf). breflect.
  pose proof (Inv_pwf _ _ _ _ HI Hr) as [_ Hw].
  assert (Hc : 0 <= cReferences r < b) by (apply (Hb p r Hr); congruence).
  apply wp_bind. eapply wp_updp; [exact Hr|]. apply wp_ret. rewrite u32_small by lia. split_and!.
  - eapply calm_upd_plain; [exact HI|exact Hr|done|by split_and!|].
    unfold keeps. cbn. split_and!; [lia|lia|done|by left|done].
  - exists r, (set_cReferences (cReferences r + 1) r). cbn. by rewrite lookup_insert_eq.
  - done.
  - intros ->. by match goal with Hs : enmState r = _ |- _ => rewrite Hs in Hw end.
Qed.

Lemma wp_is_me me m x Q E s :
  gpSPMSelf s = Some me -> procs s !! me = Some m ->
  (forall b : bool, (b = false -> pid_of m <> x) -> Q b s) -> wp (is_me x) Q E s.
Proof.
  intros Hs Hm HQ. unfold is_me. destruct (x =? 0); [by apply wp_ret, HQ|].
  apply wp_bind. eapply wp_getself; [done|done|]. apply wp_ret, HQ. intros Hb. by breflect.
Qed.

(** [__libc_spmQueryProcess] never returns another process. *)
Lemma wp_spmQueryProcess me s x :
  ready me s ->
  wp (spmQueryProcess x) (fun o s' => calm 3 [] s s' /\ (o = Some me \/ o = None))
     (fun _ s' => calm 3 [] s s') s.
Proof.
  intros [HI Hs (m & Hm & Hst & Hpos) Hb]. unfold spmQueryProcess.
  destruct (x <? 0); [by apply calm_refl|]. apply wp_bind.
  eapply wp_is_me; [done|done|]. intros [] Hne.
  { split; [by apply calm_refl|]. by left. }
  apply wp_bind, wp_mutex_errno; [|by intros; apply calm_refl]. clear Hne.
  assert (Hstep : forall st d s1, calm d [] s s1 -> 0 <= d <= 3 -> st <> PROCSTATE_FREE ->
     wp (search x st) (fun o s' => calm (d + 1) [] s s' /\ (st = PROCSTATE_RESERVED -> o = None))
       (fun _ _ => False) s1).
  { intros st d s1 Hc Hd Hf. pose proof Hc as (HI1 & Q1 & _ & _).
    eapply wp_conseq; [eapply (wp_search (2 ^ 32 - 1) x st s1 HI1)| |done]; try done.
    - eapply bound_quiet; [done|done|lia].
    - intros o s2 (Hc2 & _ & _ & Ho). split; [|done]. by eapply calm_trans. }
  apply wp_bind. eapply wp_conseq; [apply (Hstep _ 0); [by apply calm_refl|lia|done]| |done].
  intros _ s1 [C1 _]. apply wp_bind. eapply wp_conseq; [by apply (Hstep _ 1)| |done].
  intros _ s2 [C2 _]. apply wp_bind. eapply wp_conseq; [by apply (Hstep _ 2)| |done].
  intros _ s3 [C3 _]. pose proof C3 as (HI3 & Q3 & _ & _).
  eapply wp_conseq; [eapply (wp_search (2 ^ 32 - 1) x PROCSTATE_RESERVED s3 HI3)| |done]; try done.
  - by eapply bound_quiet.
  - intros o s4 (_ & _ & Hs4 & Ho). specialize (Ho eq_refl). rewrite Hs4 by done.
    split; [done|by right].
Qed.

Lemma wp_libc_spmQueryProcessInState me s x st :
  ready me s -> st <> PROCSTATE_FREE ->
  wp (libc_spmQueryProcessInState x st) (fun o s' => calm 1 [] s s' /\
        (o = Some me \/ (o <> Some me /\ found s x st o s')))
     (fun _ s' => calm 1 [] s s') s.
Proof.
  intros [HI Hs (m & Hm & Hst & Hpos) Hb] Hf. unfold libc_spmQueryProcessInState.
  destruct (x <? 0); [by apply calm_refl|]. apply wp_bind.
  eapply wp_is_me; [done|done|]. intros [] Hne.
  - apply wp_bind. eapply wp_getself; [done|done|].
    destruct (bool_decide _); (split; [by apply calm_refl|]); [by left|by right].
  - apply wp_bind, wp_mutex_errno; [|by intros; apply calm_refl].
    eapply wp_conseq; [eapply (wp_search _ x st s HI Hb)| |done]; [lia|done|].
    intros o s' (C & Hfd & _). split; [done|]. right. split; [|done].
    intros ->. destruct Hfd as (r & _ & Hr & _ & Hp & _). simplify_eq. by apply Hne.
Qed.
End Calls.
