(* ===== verification/SpmSigs.v ===== *)
(** The signal queues of the process manager: what queueing and dequeueing a
    signal does to the mail of the processes. *)

From S2P Require Import Prelude Creds Spm SpmFacts SpmAlloc SpmTable SpmCalls.
#[local] Open Scope Z_scope.

Section Sigs.
Context {P : Type} `{SpmPoolLaws P}.
Implicit Types (s : spm P) (p : Z) (r m : PROCESS) (g : SPMSIGNAL) (T : list Z).

(** ** Calls that leave the ids alone *)

(** What the choice of the receivers of a signal depends on. *)
Definition kin (t t' : gmap Z PROCESS) : Prop := forall p r r',
  t !! p = Some r -> enmState r = PROCSTATE_ALIVE -> t' !! p = Some r' ->
  p_ids r' = p_ids r /\ fExeInited r' = fExeInited r.

(** A calm call with no new references that changes no ids. *)
Definition still T s s' : Prop := calm 0 T s s' /\ kin (procs s) (procs s').

Lemma calm_weaken d T T' s s' : calm d T s s' -> T ⊆ T' -> calm d T' s s'.
Proof.
  intros (HI & Q & E & M) HT. split_and!; try done.
  intros p r r' Hp. apply (M p r r'). intros Hin. by apply Hp, HT.
Qed.

Lemma calm_alive d T s s' p r :
  calm d T s s' -> procs s !! p = Some r -> enmState r = PROCSTATE_ALIVE ->
  exists r', procs s' !! p = Some r' /\ enmState r' = PROCSTATE_ALIVE.
Proof.
  intros (_ & Q & _) Hp Hs.
  destruct (q_keep _ _ _ Q p r Hp) as (r' & Hr' & _ & _ & [E|[E _]] & _);
    [by split; rewrite Hs| |congruence].
  exists r'. split; [done|congruence].
Qed.

Lemma kin_refl t : kin t t.
Proof. intros p r r' Hp _ Hp'. by simplify_eq. Qed.

Lemma kin_upd t p r r' :
  t !! p = Some r -> p_ids r' = p_ids r -> fExeInited r' = fExeInited r -> kin t (<[p := r']> t).
Proof.
  intros Hp E1 E2 q rq rq' Hq _. destruct (decide (p = q)) as [<-|Hne].
  - rewrite lookup_insert_eq. intros [= <-]. by simplify_eq.
  - rewrite lookup_insert_ne by done. intros Hq'. by simplify_eq.
Qed.

Lemma still_weaken T T' s s' : still T s s' -> T ⊆ T' -> still T' s s'.
Proof. intros [C K] HT. split; [by eapply calm_weaken|done]. Qed.

Lemma still_refl T s : Inv [] [] [] s -> still T s s.
Proof. intros HI. split; [by apply calm_refl|apply kin_refl]. Qed.

Lemma still_trans T s1 s2 s3 :
  refs_nonneg (procs s1) -> still T s1 s2 -> still T s2 s3 -> still T s1 s3.
Proof.
  intros Hb [C1 K1] [C2 K2]. pose proof C1 as (_ & Q1 & E1 & M1). pose proof C2 as (I2 & Q2 & E2 & M2).
  split; [split_and!; [done| |congruence|by eapply mail_trans]|].
  - change 0 with (0 + 0). by eapply quiet_trans.
  - intros p r r3 Hp Hs Hp3. destruct (calm_alive _ _ _ _ p r C1 Hp Hs) as (r2 & Hp2 & Hs2).
    destruct (K1 p r r2 Hp Hs Hp2) as [A1 A2], (K2 p r2 r3 Hp2 Hs2 Hp3) as [B1 B2].
    split; congruence.
Qed.

(** A change outside of the process blocks. *)
Lemma still_hdr T s s1 s2 :
  still T s s1 -> pool s2 = pool s1 -> apHeads s2 = apHeads s1 -> procs s2 = procs s1 ->
  pChildNotifyFreeHead s2 = pChildNotifyFreeHead s1 -> pSigFreeHead s2 = pSigFreeHead s1 ->
  cSigFree s2 = cSigFree s1 -> gpSPMSelf s2 = gpSPMSelf s1 -> still T s s2.
Proof.
  intros [(HI & Q & E & M) K] E1 E2 E3 E4 E5 E6 E7. split; [split_and!|by rewrite E3].
  - by eapply Inv_same.
  - by rewrite E3.
  - congruence.
  - by rewrite E3.
Qed.

(** Allocation, with the block in hand. *)
Lemma frame_kin X s s' : Inv [] [] X s -> frame [] s s' -> kin (procs s) (procs s').
Proof.
  intros HI HF p r r' Hp Hs Hp'. destruct (fr_keep _ _ _ HF p r Hp) as (r1 & Hr1 & Hsame).
  { right. by left. }
  simplify_eq. by destruct Hsame as [->| ->].
Qed.

(** ** Queueing a signal *)

(** A signal has been put at the end of the queue. *)
Definition sig_appended m (fQueued : bool) (i : siginfo) r r' : Prop :=
  exists g, pSigHead r' = pSigHead r ++ [g] /\ sg_Info g = queued_info m fQueued i /\
    sg_pidSender g = pid_of m /\
    pChildNotifyHead r' = pChildNotifyHead r /\ pTerm r' = pTerm r.

(** A signal of the same number waits already, and the kind is not queued. *)
Definition sig_pending (i : siginfo) r : bool :=
  existsb (fun g => si_signo (sg_Info g) =? si_signo i) (pSigHead r).

(** What [spmSigQueueProcess] returns, and does. *)
Definition sig_effect (me p : Z) m r (no : Z) (o : option siginfo) (fQueued anyway : bool)
    (rc : Z) r' : Prop :=
  (rc = - EPERM /\ may_signal me p m r no = false /\ same_mail r r') \/
  (rc = 0 /\ may_signal me p m r no = true /\
     (o = None \/ no = 0 \/ exists i, o = Some i /\ fQueued = false /\ sig_pending i r = true) /\
     same_mail r r') \/
  (rc = 0 /\ may_signal me p m r no = true /\ no <> 0 /\
     exists i, o = Some i /\ (fQueued = false -> sig_pending i r = false) /\
       (anyway = true \/ cSigsSent m < _POSIX_SIGQUEUE_MAX \/ si_signo i = SIGCHLD) /\
       sig_appended m fQueued i r r') \/
  (rc = - EAGAIN /\ may_signal me p m r no = true /\ same_mail r r').

(** The signal block goes into the queue of [p]. *)
Definition with_signal g r : PROCESS := set_pSigHead (pSigHead r ++ [g]) r.

Lemma still_append_signal s p r g :
  Inv [] [] [sg_addr g] s -> procs s !! p = Some r -> enmState r = PROCSTATE_ALIVE ->
  sg_pidSender g <> 0 -> still [p] s (upd p (with_signal g r) s).
Proof.
  intros HI Hp Hst Hg. pose proof (Inv_pwf _ _ _ _ HI Hp) as [Hf Hw]. rewrite Hst in Hw.
  split; [|by eapply kin_upd].
  eapply calm_upd; [exact HI|exact Hp|done|by apply keeps0_same| |done| |left; by left].
  - apply Permutation_submseteq. unfold blocks. cbn. rewrite fmap_app. cbn. solve_Permutation.
  - split; [|cbn; by rewrite Hst]. apply Forall_app. split; [done|]. by apply Forall_singleton.
Qed.

(** The sender counts what it has sent. *)
Lemma wp_count_sent me p m s r' :
  Inv [] [] [] s -> procs s !! me = Some m -> enmState m = PROCSTATE_ALIVE ->
  procs s !! p = Some r' ->
  wp (mwhen (negb (p =? me)) (updp me (fun r => set_cSigsSent (u32 (cSigsSent r + 1)) r)))
     (fun _ s' => still [p] s s' /\ procs s' !! p = Some r') (fun _ _ => False) s.
Proof.
  intros HI Hm Hst Hp. apply wp_when; intros Hpm; [|split; [by apply still_refl|done]].
  assert (Hne : p <> me) by (by apply Z.eqb_neq, negb_true_iff).
  eapply wp_updp; [exact Hm|]. split; [split; [|by eapply kin_upd]|].
  - eapply calm_upd_plain; [exact HI|exact Hm|done|by split_and!|by apply keeps0_same].
  - cbn. by rewrite lookup_insert_ne.
Qed.

(** The second half of [spmSigQueueProcess], [g] being the new block. *)
Lemma wp_send me p m r g s fQueued i :
  Inv [] [] [sg_addr g] s -> refs_nonneg (procs s) ->
  procs s !! me = Some m -> enmState m = PROCSTATE_ALIVE -> 0 < pid_of m ->
  procs s !! p = Some r -> enmState r = PROCSTATE_ALIVE ->
  wp (m ← getp me;
      _ ← updp p (fun r => set_pSigHead (pSigHead r ++
            [mk_SPMSIGNAL (sg_addr g) (sg_cb g) (pid_of m) (queued_info m fQueued i)]) r);
      _ ← mwhen (negb (p =? me))
            (updp me (fun r => set_cSigsSent (u32 (cSigsSent r + 1)) r));
      _ ← mmod (fun s => set_cSigActive (u32 (cSigActive s + 1)) s);
      _ ← post_notify;
      mret 0)
     (fun rc s' => still [p] s s' /\ rc = 0 /\ exists r', procs s' !! p = Some r' /\
        enmState r' = PROCSTATE_ALIVE /\ sig_appended m fQueued i r r') (fun _ _ => False) s.
Proof.
  intros HI Hb Hm Hmst Hpos Hp Hst.
  apply wp_bind. eapply wp_getp; [exact Hm|]. apply wp_bind. eapply wp_updp; [exact Hp|].
  set (g' := mk_SPMSIGNAL _ _ _ _).
  assert (C1 : still [p] s (upd p (with_signal g' r) s)).
  { apply still_append_signal; [exact HI|exact Hp|done|]. cbn. lia. }
  change (set_procs _ s) with (upd p (with_signal g' r) s).
  set (s1 := upd p _ s) in *.
  assert (Hp1 : procs s1 !! p = Some (with_signal g' r)) by apply lookup_insert_eq.
  clearbody s1. pose proof C1 as [HC1 _].
  destruct (calm_alive _ _ _ _ me m HC1 Hm Hmst) as (m1 & Hm1 & Hmst1).
  apply wp_bind. eapply wp_conseq; [eapply wp_count_sent; [apply HC1|exact Hm1|done|exact Hp1]| |done].
  intros _ s2 [C2 Hp2]. apply wp_bind, wp_mod, wp_bind, wp_mod, wp_ret. split_and!; [|done|].
  - eapply still_hdr; [by eapply still_trans|..]; done.
  - exists (with_signal g' r). split_and!; [done|done|]. by exists g'.
Qed.

Lemma wp_spmSigQueueProcess me m s p r no o fQueued anyway :
  ready me s -> procs s !! me = Some m -> procs s !! p = Some r -> enmState r = PROCSTATE_ALIVE ->
  wp (spmSigQueueProcess p no o fQueued anyway)
     (fun rc s' => still [p] s s' /\
        exists r', procs s' !! p = Some r' /\ enmState r' = PROCSTATE_ALIVE /\
          sig_effect me p m r no o fQueued anyway rc r')
     (fun _ _ => False) s.
Proof.
  intros Hrd Hm Hp Hst. pose proof Hrd as [HI Hs (m0 & Hm0 & Hmst & Hpos) Hb].
  assert (m0 = m) as -> by congruence. unfold spmSigQueueProcess.
  apply wp_bind. eapply wp_self; [exact Hs|]. apply wp_bind. eapply wp_getp; [exact Hm|].
  apply wp_bind. eapply wp_getp; [exact Hp|].
  assert (Hstay : forall rc, sig_effect me p m r no o fQueued anyway rc r ->
            still [p] s s /\ exists r', procs s !! p = Some r' /\ enmState r' = PROCSTATE_ALIVE /\
              sig_effect me p m r no o fQueued anyway rc r').
  { intros rc He. split; [by apply still_refl|]. by exists r. }
  destruct (may_signal me p m r no) eqn:Hmay; cbn [negb]; [|apply wp_ret, Hstay; by left].
  destruct o as [i|]; [|apply wp_ret, Hstay; right; left; split_and!; auto; by split_and!].
  destruct (Z.eqb_spec no 0) as [Hno|Hno].
  { apply wp_ret, Hstay. right. left. split_and!; auto. by split_and!. }
  fold (sig_pending i r). destruct (negb fQueued && sig_pending i r) eqn:Hpend.
  { breflect. apply wp_ret, Hstay. right. left. split_and!; auto; [|by split_and!].
    right. right. by exists i. }
  apply wp_bind, wp_get. destruct (_ || _) eqn:Hlim; [|apply wp_ret, Hstay; right; right; right; by split_and!].
  apply wp_bind. eapply wp_conseq; [apply (wp_spmAllocSignal [] []); [done|by eapply ready_alloc_ok]| |done].
  intros og s1 [HI1 HF1].
  pose proof (frame_quiet _ _ _ HI HF1) as Q1. pose proof (frame_mail _ [] _ _ HI HF1) as M1.
  pose proof (frame_kin _ _ _ HI HF1) as K1. pose proof (bound_nonneg _ _ Hb) as Hnn.
  assert (Halive : forall q rq, procs s !! q = Some rq -> enmState rq = PROCSTATE_ALIVE ->
            exists rq', procs s1 !! q = Some rq' /\ enmState rq' = PROCSTATE_ALIVE /\ same_proc rq rq').
  { intros q rq Hq Hsq. destruct (fr_keep _ _ _ HF1 q rq Hq) as (rq' & Hq' & Hsame); [right; by left|].
    exists rq'. by rewrite (same_proc_state _ _ Hsame). }
  destruct (Halive p r Hp Hst) as (r1 & Hr1 & Hst1 & Hsame).
  destruct (Halive me m Hm Hmst) as (m1 & Hm1 & Hmst1 & Hsm).
  destruct og as [g|]; cbn in HI1.
  - eapply wp_conseq; [apply (wp_send me p m1 r1); try done| |done].
    + by eapply quiet_nonneg.
    + destruct Hsm as [->| ->]; done.
    + intros rc s2 ([C2 K2] & -> & r2 & Hr2 & Hst2 & g' & Hg').
      pose proof C2 as (I2 & Q2 & E2 & M2). split.
      * split; [split_and!|].
        -- done.
        -- change 0 with (0 + 0). by eapply quiet_trans.
        -- rewrite E2. apply HF1.
        -- eapply mail_trans; [exact Q1| |exact M2]. intros q rq rq' _. apply M1, not_elem_of_nil.
        -- intros q rq rq' Hq Hsq Hq'. destruct (Halive q rq Hq Hsq) as (rq1 & Hq1 & Hsq1 & _).
           destruct (K1 q rq rq1 Hq Hsq Hq1), (K2 q rq1 rq' Hq1 Hsq1 Hq'). split; congruence.
      * exists r2. split_and!; [done|done|]. right. right. left. split_and!; try done.
        exists i. split_and!; [done| | |].
        -- intros ->. by destruct (sig_pending i r).
        -- apply orb_true_iff in Hlim as [Hlim|?]; [|right; right; by apply Z.eqb_eq].
           apply orb_true_iff in Hlim as [Hlim|?]; [|by left].
           apply andb_true_iff in Hlim as [_ ?]. right. left. by apply Z.ltb_lt.
        -- exists g'. by destruct Hsame as [->| ->], Hsm as [->| ->].
  - apply wp_ret. split.
    + split; [split_and!; [done|done|apply HF1|]|done].
      intros q rq rq' _. apply M1, not_elem_of_nil.
    + exists r1. split_and!; [done|done|]. right. right. right. split_and!; [done|done|..];
        by destruct Hsame as [->| ->].
Qed.

Lemma ready_still me T s s' : ready me s -> still T s s' -> ready me s'.
Proof. intros Hrd [C _]. by eapply ready_calm. Qed.

Lemma same_mail_trans r1 r2 r3 : same_mail r1 r2 -> same_mail r2 r3 -> same_mail r1 r3.
Proof. intros (A1 & A2 & A3) (B1 & B2 & B3). split_and!; congruence. Qed.

(** ** Sending to a process *)

Definition sig_queued me m s no o x fQueued (rc : Z) s' : Prop :=
  (rc = - ESRCH /\ s' = s /\
     (forall p r, procs s !! p = Some r -> enmState r = PROCSTATE_ALIVE -> pid_of r <> x)) \/
  exists p r, procs s !! p = Some r /\ enmState r = PROCSTATE_ALIVE /\ pid_of r = x /\
    ((rc = - ESRCH /\ s' = s /\ fExeInited r = 0) \/
     (fExeInited r <> 0 /\ still [p] s s' /\
      exists r', procs s' !! p = Some r' /\ enmState r' = PROCSTATE_ALIVE /\
        sig_effect me p m r no o fQueued false rc r')).

Lemma wp_spmSigQueue me m s no o x fQueued :
  ready me s -> procs s !! me = Some m ->
  wp (spmSigQueue no o x fQueued)
     (fun rc s' =>
        if negb (sig_args_ok no o) then rc = - EINVAL /\ s' = s
        else if negb (os_mutex (os s) =? 0) then rc = os_mutex (os s) /\ s' = s
        else sig_queued me m s no o x fQueued rc s')
     (fun _ _ => False) s.
Proof.
  intros Hrd Hm. unfold spmSigQueue. destruct (negb (sig_args_ok no o)); [done|].
  apply wp_bind, wp_mutex. destruct (negb _); [done|].
  apply wp_bind. eapply wp_conseq; [eapply wp_query, Hrd| |done]. intros oq s1 [-> Hq].
  destruct oq as [p|]; [|apply wp_ret; by left].
  destruct Hq as (r & Hr & Hst & Hx). apply wp_bind. eapply wp_getp; [exact Hr|].
  destruct (Z.eqb_spec (fExeInited r) 0) as [Hf|Hf].
  { apply wp_ret. right. exists p, r. split_and!; try done. by left. }
  eapply wp_conseq; [by apply wp_spmSigQueueProcess| |done].
  intros rc s2 [C2 He]. right. exists p, r. split_and!; try done. by right.
Qed.

(** ** Sending to a process group *)

Definition to_group (gid : Z) r : bool := (pgrp (p_ids r) =? gid) && negb (fExeInited r =? 0).

(** The members of [l] that get the signal. *)
Definition receives s (gid p : Z) : bool :=
  match procs s !! p with Some r => to_group gid r | None => false end.
Definition receivers s (gid : Z) (l : list Z) : list Z := filter (fun p => receives s gid p = true) l.

(** The code a loop keeps: the first error. *)
Fixpoint first_err (rc : Z) (l : list Z) : Z :=
  match l with
  | [] => rc
  | e :: l => first_err (if rc =? 0 then e else rc) l
  end.

Lemma sig_effect_kin me p m m1 r r1 no o fQueued rc r' :
  p_ids m1 = p_ids m -> p_ids r1 = p_ids r -> same_mail r r1 ->
  sig_effect me p m1 r1 no o fQueued true rc r' -> sig_effect me p m r no o fQueued true rc r'.
Proof.
  intros Em Er Hmail He.
  assert (Hms : may_signal me p m1 r1 no = may_signal me p m r no) by (unfold may_signal; by rewrite Em, Er).
  assert (Hpe : forall i, sig_pending i r1 = sig_pending i r).
  { intros i. unfold sig_pending. destruct Hmail as (-> & _). done. }
  unfold sig_effect in *. rewrite Hms in He.
  destruct He as [(? & ? & ?)|[(? & ? & Ho & ?)|[(? & ? & ? & i & ? & Hq & _ & g & Hg)|(? & ? & ?)]]].
  - left. split_and!; [done|done|by eapply same_mail_trans].
  - right. left. split_and!; [done|done| |by eapply same_mail_trans].
    setoid_rewrite Hpe in Ho. done.
  - right. right. left. split_and!; [done|done|done|]. exists i. rewrite Hpe in Hq.
    split_and!; [done|done|by left|]. exists g.
    destruct Hmail as (E1 & E2 & E3), Hg as (G1 & G2 & G3 & G4 & G5).
    unfold queued_info, pid_of in *. rewrite Em in *. split_and!; congruence.
  - right. right. right. split_and!; [done|done|by eapply same_mail_trans].
Qed.

Lemma sig_effect_mail me p m r no o fQueued anyway rc r' r'' :
  sig_effect me p m r no o fQueued anyway rc r' -> same_mail r' r'' ->
  sig_effect me p m r no o fQueued anyway rc r''.
Proof.
  intros He Hmail. unfold sig_effect in *.
  destruct He as [(? & ? & ?)|[(? & ? & ? & ?)|[(? & ? & ? & i & ? & ? & ? & g & Hg)|(? & ? & ?)]]].
  - left. split_and!; [done|done|by eapply same_mail_trans].
  - right. left. split_and!; [done|done|done|by eapply same_mail_trans].
  - right. right. left. split_and!; [done|done|done|]. exists i. split_and!; [done|done|done|].
    exists g. destruct Hmail as (E1 & E2 & E3), Hg as (G1 & G2 & G3 & G4 & G5).
    split_and!; congruence.
  - right. right. right. split_and!; [done|done|by eapply same_mail_trans].
Qed.

(** What the loop has done to the receivers: [R] are the return codes of
    [spmSigQueueProcess], [E] the codes the loop looks at. *)
Definition group_signalled me m s no o fQueued (cb : option (Z -> PROCESS -> Z)) (T : list Z)
    (R E : Z -> Z) s' : Prop :=
  still T s s' /\
  (forall p r, p ∈ T -> procs s !! p = Some r ->
     exists r', procs s' !! p = Some r' /\ enmState r' = PROCSTATE_ALIVE /\
       sig_effect me p m r no o fQueued true (R p) r') /\
  (forall p, (R p <> 0 -> E p = R p) /\ (cb = None -> R p = 0 -> E p = 0)).

(** The ids decide who receives, and they stay. *)
Lemma receivers_still T gid l s s' :
  still T s s' ->
  (forall p, p ∈ l -> exists r, procs s !! p = Some r /\ enmState r = PROCSTATE_ALIVE) ->
  receivers s' gid l = receivers s gid l.
Proof.
  intros [C K]. induction l as [|p l IH]; intros Hl; [done|].
  destruct (Hl p) as (r & Hr & Hst); [by left|].
  destruct (calm_alive _ _ _ _ p r C Hr Hst) as (r' & Hr' & _).
  destruct (K p r r' Hr Hst Hr') as [E1 E2].
  assert (E : receives s' gid p = receives s gid p).
  { unfold receives, to_group. by rewrite Hr, Hr', E1, E2. }
  unfold receivers in *. rewrite !filter_cons, E, IH; [done|]. intros q Hq. apply Hl. by right.
Qed.

Definition set_at {A} (p : Z) (a : A) (f : Z -> A) (q : Z) : A := if decide (q = p) then a else f q.

Lemma set_at_eq {A} p (a : A) f : set_at p a f p = a.
Proof. unfold set_at. by rewrite decide_True. Qed.

Lemma fmap_set_at {A} p (a : A) f (l : list Z) : p ∉ l -> set_at p a f <$> l = f <$> l.
Proof.
  intros Hp. apply list_fmap_ext. intros i x Hx. unfold set_at. case_decide; [|done].
  subst. by apply list_elem_of_lookup_2 in Hx.
Qed.

Lemma cnt_set_at p (a : Z) f (l : list Z) :
  p ∉ l -> cnt 0 (set_at p a f <$> (p :: l)) = (if decide (a = 0) then 1 else 0) + cnt 0 (f <$> l).
Proof.
  intros Hp. by rewrite fmap_cons, set_at_eq, cnt_cons, fmap_set_at.
Qed.

(** One receiver, and then the rest. *)
Lemma group_signalled_cons me m m1 s s1 s' p r r1 no o fQueued cb T R E rc2 e :
  refs_nonneg (procs s) -> p ∉ T -> procs s !! me = Some m -> enmState m = PROCSTATE_ALIVE ->
  procs s !! p = Some r -> procs s1 !! me = Some m1 ->
  (forall q, q ∈ T -> exists rq, procs s !! q = Some rq /\ enmState rq = PROCSTATE_ALIVE) ->
  still [p] s s1 -> procs s1 !! p = Some r1 -> enmState r1 = PROCSTATE_ALIVE ->
  sig_effect me p m r no o fQueued true rc2 r1 ->
  (rc2 <> 0 -> e = rc2) -> (cb = None -> rc2 = 0 -> e = 0) ->
  group_signalled me m1 s1 no o fQueued cb T R E s' ->
  group_signalled me m s no o fQueued cb (p :: T) (set_at p rc2 R) (set_at p e E) s'.
Proof.
  intros Hnn Hp Hm Hmst Hr Hm1 Hal C1 Hr1 Hst1 He1 Hc1 Hc2 (C2 & He & Hc).
  pose proof C1 as [Ca1 K1]. pose proof C2 as [Ca2 K2].
  destruct (K1 me m m1 Hm Hmst Hm1) as [Em _]. split_and!.
  - eapply still_trans; [done|eapply still_weaken; [exact C1|set_solver]|].
    eapply still_weaken; [exact C2|set_solver].
  - intros q rq Hq Hrq. unfold set_at. destruct (decide (q = p)) as [->|Hne].
    + simplify_eq. destruct (calm_alive _ _ _ _ p r1 Ca2 Hr1 Hst1) as (r2 & Hr2 & Hst2).
      exists r2. split_and!; [done|done|]. eapply sig_effect_mail; [exact He1|].
      destruct Ca2 as (_ & _ & _ & M2). by apply (M2 p r1 r2).
    + apply elem_of_cons in Hq as [?|Hq]; [done|].
      destruct (Hal q Hq) as (rq0 & Hrq0 & Hsq). simplify_eq.
      destruct (calm_alive _ _ _ _ q rq Ca1 Hrq Hsq) as (rq1 & Hrq1 & Hsq1).
      destruct (He q rq1 Hq Hrq1) as (rq2 & Hrq2 & Hsq2 & Heq).
      exists rq2. split_and!; [done|done|].
      destruct (K1 q rq rq1 Hrq Hsq Hrq1) as [Eq _]. eapply sig_effect_kin; [exact Em|exact Eq| |exact Heq].
      destruct Ca1 as (_ & _ & _ & M1). apply (M1 q rq rq1); try done.
      by intros ->%list_elem_of_singleton.
  - intros q. unfold set_at. by destruct (decide (q = p)).
Qed.

Lemma wp_sig_pgrp_loop me no o gid fQueued cb l : forall m s rc c,
  ready me s -> procs s !! me = Some m -> NoDup l ->
  (forall p, p ∈ l -> exists r, procs s !! p = Some r /\ enmState r = PROCSTATE_ALIVE) ->
  wp (sig_pgrp_loop no o gid fQueued cb l rc c)
     (fun out s' => let T := receivers s gid l in
        exists R E, group_signalled me m s no o fQueued cb T R E s' /\
          out.1 = first_err rc (E <$> T) /\
          out.2 = c + cnt 0 (R <$> T))
     (fun _ _ => False) s.
Proof.
  induction l as [|p l IH]; intros m s rc c Hrd Hm Hnd Hl; cbn [sig_pgrp_loop].
  { apply wp_ret. exists (fun _ => 0), (fun _ => 0). split_and!; [|done|by rewrite cnt_nil, Z.add_0_r].
    split; [by apply still_refl, Hrd|]. split; [by intros p r []%elem_of_nil|done]. }
  apply NoDup_cons in Hnd as [Hpl Hnd]. destruct (Hl p) as (r & Hr & Hst); [by left|].
  assert (Hl' : forall q, q ∈ l -> exists rq, procs s !! q = Some rq /\ enmState rq = PROCSTATE_ALIVE).
  { intros q Hq. apply Hl. by right. }
  apply wp_bind. eapply wp_getp; [exact Hr|].
  assert (Hrec : receivers s gid (p :: l) = if to_group gid r then p :: receivers s gid l
                                            else receivers s gid l).
  { assert (E : receives s gid p = to_group gid r) by (unfold receives; by rewrite Hr).
    unfold receivers. rewrite filter_cons, E. by destruct (to_group gid r). }
  rewrite Hrec. fold (to_group gid r). destruct (to_group gid r); [|by apply IH]. clear Hrec.
  destruct (rd_me _ _ Hrd) as (m0 & Hm0 & Hmst & _). assert (m0 = m) as -> by congruence.
  apply wp_bind. eapply wp_conseq; [by apply (wp_spmSigQueueProcess me m)| |done].
  intros rc2 s1 (C1 & r1 & Hr1 & Hst1 & He1).
  destruct (calm_alive _ _ _ _ me m (proj1 C1) Hm Hmst) as (m1 & Hm1 & _).
  assert (Hp : p ∉ receivers s gid l) by (by intros [_ ?]%list_elem_of_filter).
  assert (Hgo : forall e c', (rc2 <> 0 -> e = rc2) -> (cb = None -> rc2 = 0 -> e = 0) ->
    c' = (if decide (rc2 = 0) then c + 1 else c) ->
    wp (sig_pgrp_loop no o gid fQueued cb l (if rc =? 0 then e else rc) c')
       (fun out s' => let T := p :: receivers s gid l in
          exists R E, group_signalled me m s no o fQueued cb T R E s' /\
            out.1 = first_err rc (E <$> T) /\ out.2 = c + cnt 0 (R <$> T))
       (fun _ _ => False) s1).
  { intros e c' Hc1 Hc2 ->. eapply wp_conseq; [eapply (IH m1); [by eapply ready_still|done|done|]| |done].
    { intros q Hq. destruct (Hl' q Hq) as (rq & Hrq & Hsq). by eapply calm_alive; [apply C1|..]. }
    rewrite (receivers_still [p] gid l s s1) by done.
    intros out s' (R & E & Hg & H1' & H2'). exists (set_at p rc2 R), (set_at p e E). split_and!.
    - eapply group_signalled_cons; try done; [by eapply bound_nonneg, Hrd|].
      intros q [_ Hq]%list_elem_of_filter. by apply Hl'.
    - by rewrite H1', fmap_cons, set_at_eq, fmap_set_at.
    - rewrite H2', cnt_set_at by done. case_decide; lia. }
  destruct (Z.eqb_spec rc2 0) as [Hz|Hz].
  - apply wp_bind. eapply wp_getp; [exact Hr1|]. cbv zeta. set (v := match cb with Some f => _ | None => 0 end).
    assert (E : (if (v <? 0) && (rc =? 0) then v else rc)
                = if rc =? 0 then (if v <? 0 then v else 0) else rc).
    { destruct (v <? 0), (Z.eqb_spec rc 0); cbn; congruence. }
    rewrite E. apply Hgo; [done| |by rewrite decide_True].
    intros Hcb _. unfold v. by rewrite Hcb.
  - apply Hgo; [done|done|by rewrite decide_False].
Qed.

(** What [__libc_spmSigQueuePGrp] makes of the loop's result. *)
Definition pgrp_result (rc cSent : Z) : Z :=
  if rc =? 0 then if cSent =? 0 then - ESRCH else rc
  else if (rc =? - EPERM) && (0 <? cSent) then 0 else rc.

Lemma wp_spmSigQueuePGrp me m s no o gid fQueued cb :
  ready me s -> procs s !! me = Some m ->
  wp (spmSigQueuePGrp no o gid fQueued cb)
     (fun rc s' =>
        if negb (sig_args_ok no o) then rc = - EINVAL /\ s' = s
        else if negb (os_mutex (os s) =? 0) then rc = os_mutex (os s) /\ s' = s
        else let T := receivers s (if gid =? 0 then pgrp (p_ids m) else gid) (hAlive (apHeads s)) in
          exists R E, group_signalled me m s no o fQueued cb T R E s' /\
            rc = pgrp_result (first_err 0 (E <$> T)) (cnt 0 (R <$> T)))
     (fun _ _ => False) s.
Proof.
  intros Hrd Hm. unfold spmSigQueuePGrp. destruct (negb (sig_args_ok no o)); [done|].
  apply wp_bind, wp_mutex. destruct (negb _); [done|].
  apply wp_bind. eapply wp_getself; [apply Hrd|done|]. apply wp_bind, wp_gethead, wp_bind.
  eapply wp_conseq; [apply (wp_sig_pgrp_loop me _ _ _ _ _ _ m); [done|done|..]| |done].
  - by eapply (Inv_head_nodup _ _ _ _ PROCSTATE_ALIVE), Hrd.
  - intros p Hp. by apply (inv_in _ _ _ _ (rd_inv _ _ Hrd) PROCSTATE_ALIVE).
  - intros [rc c] s' (R & E & Hg & H1' & H2'). cbn in H1', H2'. apply wp_ret.
    exists R, E. split; [done|]. by rewrite H1', H2'.
Qed.

(** ** Taking signals out of the queue *)

Lemma wp_spmSigPending me m s :
  ready me s -> procs s !! me = Some m ->
  wp spmSigPending (fun out s' => s' = s /\
       out = if os_mutex (os s) =? 0
             then (alen (pSigHead m), (fun g => si_signo (sg_Info g)) <$> pSigHead m)
             else (os_mutex (os s), [])) (fun _ _ => False) s.
Proof.
  intros Hrd Hm. unfold spmSigPending. apply wp_bind, wp_mutex.
  destruct (Z.eqb_spec (os_mutex (os s)) 0) as [E|E]; cbn [negb]; [|done].
  apply wp_bind. eapply wp_getself; [apply Hrd|done|]. apply wp_ret. by rewrite E.
Qed.

(** The first [n] signals of a number, and the queue without them. *)
Fixpoint dequeue (no : Z) (n : nat) (q : list SPMSIGNAL) : list SPMSIGNAL * list SPMSIGNAL :=
  match q, n with
  | [], _ | _, O => ([], q)
  | g :: q', S n' =>
      if si_signo (sg_Info g) =? no
      then let '(a, b) := dequeue no n' q' in (g :: a, b)
      else let '(a, b) := dequeue no n q' in (a, g :: b)
  end.

Lemma dequeue_taken no n q :
  (dequeue no n q).1 = take n (filter (fun g => si_signo (sg_Info g) = no) q).
Proof.
  revert n. induction q as [|g q IH]; intros n; [by destruct n|].
  rewrite filter_cons. cbn [dequeue]. destruct n as [|n]; [done|].
  destruct (Z.eqb_spec (si_signo (sg_Info g)) no) as [E|E].
  - rewrite decide_True by done. specialize (IH n). destruct (dequeue no n q). cbn in *. by rewrite IH.
  - rewrite decide_False by done. specialize (IH (S n)). destruct (dequeue no (S n) q). cbn in *. done.
Qed.

Lemma dequeue_rest no n q :
  (dequeue no n q).2 `sublist_of` q /\ (dequeue no n q).1 ++ (dequeue no n q).2 ≡ₚ q /\
  filter (fun g => si_signo (sg_Info g) <> no) (dequeue no n q).2
  = filter (fun g => si_signo (sg_Info g) <> no) q.
Proof.
  revert n. induction q as [|g q IH]; intros n; [by destruct n|].
  cbn [dequeue]. destruct n as [|n]; [done|].
  destruct (Z.eqb_spec (si_signo (sg_Info g)) no) as [E|E].
  - specialize (IH n). destruct (dequeue no n q). cbn [fst snd app] in *. destruct IH as (I1 & I2 & I3).
    split_and!; [by apply sublist_cons|by rewrite I2|]. rewrite filter_cons_False by tauto. done.
  - specialize (IH (S n)). destruct (dequeue no (S n) q) as [a b]. cbn [fst snd app] in *.
    destruct IH as (I1 & I2 & I3). split_and!; [by apply sublist_skip| |].
    + by rewrite <-Permutation_middle, I2.
    + rewrite !filter_cons_True by done. by rewrite I3.
Qed.

Definition with_queue (q : list SPMSIGNAL) r : PROCESS := set_pSigHead q r.

Lemma still_drop_signal me m s g kept q :
  Inv [] [] [] s -> procs s !! me = Some m -> enmState m = PROCSTATE_ALIVE ->
  pSigHead m = kept ++ g :: q ->
  wp (_ ← updp me (set_pSigHead (kept ++ q)); spmFreeSignal g)
     (fun _ s' => still [me] s s' /\ procs s' !! me = Some (with_queue (kept ++ q) m))
     (fun _ _ => False) s.
Proof.
  intros HI Hm Hst Hq. pose proof (Inv_pwf _ _ _ _ HI Hm) as [Hg Hw]. rewrite Hst in Hw.
  rewrite Hq in Hg. apply Forall_app in Hg as [Hg1 Hg2]. apply Forall_cons in Hg2 as [Hg0 Hg2].
  set (m' := with_queue (kept ++ q) m).
  assert (HI1 : Inv [] [] [sg_addr g] (upd me m' s)).
  { eapply Inv_upd; [exact HI|exact Hm| |by right|right].
    - apply Permutation_submseteq. unfold blocks. cbn. rewrite Hq, !fmap_app. cbn. solve_Permutation.
    - split; [by apply Forall_app|]. cbn. by rewrite Hst. }
  apply wp_bind. eapply wp_updp; [exact Hm|].
  eapply wp_conseq; [by apply wp_spmFreeSignal| |done]. intros _ s2 [HI2 Hm2].
  assert (Hp2 : procs s2 = <[me := m']> (procs s)) by (by destruct Hm2 as (_ & -> & _)).
  split; [split|].
  - eapply calm_then_mem; [| | |exact HI2|exact Hm2]; [|done|].
    + eapply (quiet_upd 0 (procs s)); [done|done|by apply keeps0_same].
    + eapply (mail_upd _ (procs s)); [done|]. left. by left.
  - rewrite Hp2. by eapply kin_upd.
  - rewrite Hp2. by rewrite lookup_insert_eq.
Qed.

Lemma wp_sig_dequeue_loop me no q : forall n kept m s,
  ready me s -> procs s !! me = Some m -> pSigHead m = kept ++ q ->
  wp (sig_dequeue_loop me no n kept q)
     (fun out s' => still [me] s s' /\ out = sg_Info <$> (dequeue no n q).1 /\
        procs s' !! me = Some (with_queue (kept ++ (dequeue no n q).2) m))
     (fun _ _ => False) s.
Proof.
  assert (Hid : forall m, with_queue (pSigHead m) m = m) by (by intros []).
  induction q as [|g q IH]; intros n kept m s Hrd Hm Hq; cbn [sig_dequeue_loop].
  { apply wp_ret. replace (dequeue no n []) with (@nil SPMSIGNAL, @nil SPMSIGNAL) by (by destruct n).
    cbn. rewrite <-Hq, Hid. split_and!; [by apply still_refl, Hrd|done|done]. }
  destruct n as [|n].
  { apply wp_ret. cbn. rewrite <-Hq, Hid. split_and!; [by apply still_refl, Hrd|done|done]. }
  cbn [dequeue]. destruct (si_signo (sg_Info g) =? no).
  - apply wp_bind, wp_mod. set (s1 := set_cSigActive _ s).
    destruct (rd_me _ _ Hrd) as (m0 & Hm0 & Hst & _). assert (m0 = m) as -> by congruence.
    assert (C1 : still [me] s s1) by (eapply still_hdr; [by apply still_refl, Hrd|done..]).
    assert (Hm1 : procs s1 !! me = Some m) by done.
    assert (Hd := still_drop_signal me m s1 g kept q (rd_inv _ _ (ready_still _ _ _ _ Hrd C1)) Hm1 Hst Hq).
    clearbody s1. revert Hd. unfold wp, mbind, M_bind. destruct (updp me _ s1) as [u s2|e s2|f]; [|done|done].
    destruct (spmFreeSignal g s2) as [u' s3|e s3|f]; [|done|done]. intros [C3 Hm3].
    assert (C13 : still [me] s s3) by (eapply still_trans; [by eapply bound_nonneg, Hrd|done|done]).
    pose proof (IH n kept _ s3 (ready_still _ _ _ _ Hrd C13) Hm3 eq_refl) as Hl. unfold wp in Hl.
    destruct (sig_dequeue_loop me no n kept q s3) as [out s4|e s4|f]; [|done|done].
    destruct Hl as (C4 & -> & Hm4). cbn. destruct (dequeue no n q) as [a b]. cbn in *.
    split_and!; [|done|done]. eapply still_trans; [by eapply bound_nonneg, Hrd|done|done].
  - eapply wp_conseq; [apply (IH (S n) (kept ++ [g]) m); try done; by rewrite <-app_assoc| |done].
    intros out s' (C & -> & Hm'). destruct (dequeue no (S n) q) as [a b]. cbn in *.
    by rewrite <-app_assoc in Hm'.
Qed.

Lemma wp_spmSigDequeue me m s no n cb :
  ready me s -> procs s !! me = Some m ->
  wp (spmSigDequeue no n cb)
     (fun out s' =>
        if cb <? sizeof_siginfo then out = (- EINVAL, []) /\ s' = s
        else if negb (os_mutex (os s) =? 0) then out = (os_mutex (os s), []) /\ s' = s
        else still [me] s s' /\ out = (alen (dequeue no n (pSigHead m)).1, sg_Info <$> (dequeue no n (pSigHead m)).1) /\
          procs s' !! me = Some (with_queue (dequeue no n (pSigHead m)).2 m))
     (fun _ _ => False) s.
Proof.
  intros Hrd Hm. unfold spmSigDequeue. destruct (cb <? sizeof_siginfo); [done|].
  apply wp_bind, wp_mutex. destruct (negb _); [done|].
  apply wp_bind. eapply wp_self; [apply Hrd|]. apply wp_bind. eapply wp_getp; [exact Hm|].
  apply wp_bind. eapply wp_conseq; [by apply (wp_sig_dequeue_loop me no (pSigHead m) n [] m)| |done].
  intros out s' (C & -> & Hm'). apply wp_ret. split_and!; [done| |done].
  unfold alen. by rewrite length_fmap.
Qed.
End Sigs.
