(* ===== verification/SpmMoves.v ===== *)
(** The calls of the process manager that move blocks: references are taken
    and given back, embryos are created and become processes, processes end. *)

From S2P Require Import Prelude Creds Spm SpmFacts SpmAlloc SpmTable SpmCalls.
#[local] Open Scope Z_scope.

Section Moves.
Context {P : Type} `{SpmPoolLaws P}.
Implicit Types (s : spm P) (p : Z) (r m : PROCESS) (T : list Z).

(** ** Giving a reference back *)

Definition released r r' : Prop :=
  (cReferences r - 1 = 0 /\ enmState r' = PROCSTATE_FREE) \/
  (cReferences r' = cReferences r - 1 /\ enmState r' = enmState r /\ p_ids r' = p_ids r /\
   same_mail r r').

Lemma wp_spmRelease me s p r :
  ready me s -> procs s !! p = Some r -> p <> me -> nonfree r -> 1 <= cReferences r ->
  wp (spmRelease p) (fun _ s' => Inv [] [] [] s' /\ gpSPMSelf s' = gpSPMSelf s /\
        exists r', procs s' = <[p := r']> (procs s) /\ released r r') (fun _ s' => s' = s) s.
Proof.
  intros Hrd Hp Hne Hf Hc. pose proof (rd_inv _ _ Hrd) as HI. unfold spmRelease.
  apply wp_bind, wp_gets. rewrite (rd_self _ _ Hrd), bool_decide_eq_false_2 by congruence.
  apply wp_bind, wp_mutex_errno; [|done]. apply wp_bind. eapply wp_updp; [exact Hp|].
  rewrite (proj2 (Z.ltb_lt _ _)) by lia. set (r1 := set_cReferences _ r).
  assert (HI1 : Inv [] [] [] (upd p r1 s)) by (by eapply Inv_upd_plain; [done|exact Hp|]).
  fold (upd p r1 s).
  assert (Hp1 : procs (upd p r1 s) !! p = Some r1) by apply lookup_insert_eq.
  apply wp_bind. eapply wp_getp; [exact Hp1|]. apply wp_bind, wp_when; intros Hb.
  - eapply wp_conseq; [eapply (wp_spmFreeProcess [] [] [] p r1); [done|done|apply not_elem_of_nil|]| |done].
    { by destruct (Inv_pwf _ _ _ _ HI Hp). }
    intros _ s2 [HI2 (E1 & _ & _ & _ & E5)]. apply wp_ret. split_and!; [done|rewrite E5; apply Hrd|].
    exists (freed r1). rewrite E1. unfold upd. cbn. rewrite insert_insert_eq. split; [done|].
    left. apply andb_true_iff in Hb as [Hb _]. apply Z.eqb_eq in Hb. done.
  - apply wp_ret. split_and!; [done|apply Hrd|]. exists r1. split; [done|]. right. by split_and!.
Qed.

(** ** Borrowing a reference for the time of a callback *)

Lemma quiet_borrow p r (t t2 : gmap Z PROCESS) r2 :
  t !! p = Some r -> enmState r = PROCSTATE_ALIVE ->
  quiet 0 (<[p := set_cReferences (cReferences r + 1) r]> t) t2 -> t2 !! p = Some r2 ->
  quiet 0 t (<[p := set_cReferences (cReferences r2 - 1) r2]> t2).
Proof.
  intros Hp Hst Q Hp2. set (r1 := set_cReferences _ r) in Q.
  assert (K : keeps 0 r (set_cReferences (cReferences r2 - 1) r2)).
  { destruct (q_keep _ _ _ Q p r1) as (r2' & Hr2' & K).
    { by rewrite lookup_insert_eq. } { split; cbn; by rewrite Hst. }
    simplify_eq. destruct K as (K1 & K2 & K3 & K4). cbn in *. split_and!; cbn; [lia|lia|done|done|done]. }
  split.
  - intros q rq Hq Hl. destruct (decide (p = q)) as [<-|Hne].
    + rewrite lookup_insert_eq. simplify_eq. eauto.
    + rewrite lookup_insert_ne by done. apply (q_keep _ _ _ Q q rq); [|done].
      by rewrite lookup_insert_ne.
  - intros q rq. destruct (decide (p = q)) as [<-|Hne].
    + rewrite lookup_insert_eq. intros [= <-] _. eauto.
    + rewrite lookup_insert_ne by done. intros Hq Hf.
      destruct (q_new _ _ _ Q q rq Hq Hf) as (r0 & Hr0 & K0). rewrite lookup_insert_ne in Hr0 by done. eauto.
Qed.

(** The bound that leaves room for a borrowed reference. *)
Record roomy (me : Z) s : Prop := mk_roomy {
  ro_ready : ready me s;
  ro_bound : refs_below (2 ^ 32 - 5) (procs s)
}.

Lemma roomy_calm me T s s' : roomy me s -> calm 0 T s s' -> roomy me s'.
Proof.
  intros [Hrd Hb] C. split; [by eapply ready_calm|]. pose proof C as (_ & Q & _).
  pose proof (quiet_below _ _ _ _ Hb Q). by rewrite Z.add_0_r in *.
Qed.

(** An enumeration with a callback that behaves. *)
Lemma wp_enum_procs me T f cb l : forall s rc,
  roomy me s -> (forall p, p ∈ l -> is_Some (procs s !! p)) ->
  (forall p s, ready me s -> is_Some (procs s !! p) ->
     wp (cb p) (fun _ s' => calm 0 T s s') (fun _ _ => False) s) ->
  (forall p r, p ∈ l -> procs s !! p = Some r -> enmState r = PROCSTATE_ALIVE) ->
  wp (enum_procs f cb l rc) (fun _ s' => calm 0 T s s') (fun _ _ => False) s.
Proof.
  induction l as [|p l IH]; intros s rc Hro Hl Hcb Hal; cbn [enum_procs];
    [apply wp_ret, calm_refl; [apply Hro|done]|].
  pose proof (ro_ready _ _ Hro) as Hrd. pose proof (rd_inv _ _ Hrd) as HI.
  destruct (Hl p) as [r Hr]; [by left|]. assert (Hst : enmState r = PROCSTATE_ALIVE) by (eapply Hal; [by left|done]).
  apply wp_bind. eapply wp_getp; [exact Hr|].
  assert (Hnext : forall s', calm 0 T s s' -> forall rc,
            wp (enum_procs f cb l rc) (fun _ s' => calm 0 T s s') (fun _ _ => False) s').
  { intros s' C rc'. pose proof C as (_ & Q & _ & _).
    assert (Hl' : forall q rq, q ∈ l -> procs s !! q = Some rq ->
              exists rq', procs s' !! q = Some rq' /\ enmState rq' = PROCSTATE_ALIVE).
    { intros q rq Hq Hrq. assert (Hsq : enmState rq = PROCSTATE_ALIVE) by (eapply Hal; [by right|done]).
      destruct (q_keep _ _ _ Q q rq Hrq) as (rq' & Hrq' & _ & _ & [E|[E _]] & _);
        [by split; rewrite Hsq|exists rq'; split; congruence|congruence]. }
    eapply wp_conseq; [apply IH; [by eapply roomy_calm| |done|]| |done].
    - intros q Hq. destruct (Hl q) as [rq Hrq]; [by right|].
      destruct (Hl' q rq Hq Hrq) as (? & ? & _). by eexists.
    - intros q rq' Hq Hrq'. destruct (Hl q) as [rq Hrq]; [by right|].
      destruct (Hl' q rq Hq Hrq) as (? & ? & ?). congruence.
    - intros ? s2 C2. change 0 with (0 + 0). eapply calm_trans; [apply Hrd|done|done]. }
  destruct (f r && _); [|apply Hnext, calm_refl; done].
  apply wp_bind. eapply wp_updp; [exact Hr|].
  assert (Hc : 0 <= cReferences r < 2 ^ 32 - 5) by (apply (ro_bound _ _ Hro p r Hr); congruence).
  rewrite u32_small by lia. set (r1 := set_cReferences _ r). fold (upd p r1 s).
  assert (Hp1 : procs (upd p r1 s) !! p = Some r1) by apply lookup_insert_eq.
  assert (C1 : calm 1 T s (upd p r1 s)).
  { eapply calm_upd_plain; [done|exact Hr|done|by split_and!|].
    unfold keeps. cbn. split_and!; [lia|lia|done|by left|done]. }
  apply wp_bind. eapply wp_conseq; [apply Hcb| |done].
  { destruct C1 as (HI1 & Q1 & E1 & _). destruct (rd_me _ _ Hrd) as (m & Hm & Hms & Hpos).
    destruct (q_keep _ _ _ Q1 me m Hm) as (m' & Hm' & _ & _ & [Es|[? ?]] & Hpid);
      [by split; rewrite Hms| |congruence].
    split; [done|rewrite E1; apply Hrd|exists m'; rewrite Hpid by done; split_and!; congruence|].
    pose proof (quiet_below _ _ _ _ (ro_bound _ _ Hro) Q1) as Hb. unfold refs_bound.
    by replace (2 ^ 32 - 4) with (2 ^ 32 - 5 + 1). }
  { by exists r1. }
  intros rc' s2 C2. pose proof C2 as (HI2 & Q2 & E2 & M2).
  destruct (q_keep _ _ _ Q2 p r1 Hp1) as (r2 & Hr2 & K2); [split; cbn; by rewrite Hst|].
  apply wp_bind. eapply wp_updp; [exact Hr2|].
  assert (Hc2 : cReferences r2 = cReferences r + 1) by (destruct K2 as (? & _); cbn in *; lia).
  rewrite u32_small by lia. fold (upd p (set_cReferences (cReferences r2 - 1) r2) s2).
  assert (C3 : calm 0 T s (upd p (set_cReferences (cReferences r2 - 1) r2) s2)).
  { split_and!.
    - by eapply Inv_upd_plain; [done|exact Hr2|].
    - eapply quiet_borrow; [exact Hr|done|exact Q2|exact Hr2].
    - exact E2.
    - eapply mail_trans; [apply C1|by destruct C1 as (_ & _ & _ & M1)|].
      intros q rq rq' HqT Hq Hsq Hq' Hsq'. destruct (decide (p = q)) as [<-|Hneq].
      + unfold upd in Hq'. cbn in Hq'. rewrite lookup_insert_eq in Hq'. injection Hq' as <-.
        apply (M2 p rq r2); done.
      + unfold upd in Hq'. cbn in Hq'. rewrite lookup_insert_ne in Hq' by done. by apply (M2 q rq rq'). }
  destruct (negb _); [by apply wp_ret|by apply Hnext].
Qed.

(** ** The child of a fork takes its own block *)

Lemma wp_spmForkChild1 par s p r x :
  ready par s -> os_mutex (os s) = 0 -> 0 < x ->
  procs s !! p = Some r -> enmState r = PROCSTATE_ALIVE -> pid_of r = x -> p <> par ->
  (forall q rq, procs s !! q = Some rq -> enmState rq = PROCSTATE_ALIVE -> pid_of rq = x -> q = p) ->
  wp (spmForkChild1 x) (fun rc s' => rc = 0 /\ Inv [] [] [] s' /\ quiet 0 (procs s) (procs s') /\
        mail [] (procs s) (procs s') /\ gpSPMSelf s' = Some p) (fun _ _ => False) s.
Proof.
  intros Hrd Hmx Hx Hp Hst Hpid Hne Huniq. unfold spmForkChild1. apply wp_bind, wp_or_null.
  unfold libc_spmQueryProcessInState. rewrite (proj2 (Z.ltb_ge _ _)) by lia.
  destruct (rd_me _ _ Hrd) as (m & Hm & Hms & _). pose proof (rd_inv _ _ Hrd) as HI.
  assert (Hnm : pid_of m <> x) by (intros E; apply Hne; symmetry; by eapply Huniq).
  apply wp_bind. unfold is_me. rewrite (proj2 (Z.eqb_neq x 0)) by lia. apply wp_bind.
  eapply wp_getself; [apply Hrd|done|]. apply wp_ret. rewrite (proj2 (Z.eqb_neq _ _)) by done.
  apply wp_bind. unfold spmRequestMutexErrno. apply wp_bind, wp_mutex. rewrite Hmx. apply wp_ret.
  unfold search. apply wp_bind, wp_gethead, wp_bind.
  eapply wp_conseq; [apply wp_find_proc; intros q; by eapply Inv_head_Some| |done].
  intros o s1 [-> Ho].
  assert (o = Some p) as ->.
  { destruct o as [q|].
    - destruct Ho as (_ & rq & Hrq & Hf). apply andb_true_iff in Hf as [Hf1 Hf2].
      apply Z.eqb_eq in Hf1. apply bool_decide_eq_true in Hf2. f_equal. by eapply Huniq.
    - destruct (inv_dom _ _ _ _ HI p r Hp) as [[]%elem_of_nil|Hin]. rewrite Hst in Hin.
      specialize (Ho p r Hin Hp). by rewrite bool_decide_eq_true_2, Hpid, Z.eqb_refl in Ho. }
  assert (Hc : 0 <= cReferences r < 2 ^ 32 - 4) by (apply (rd_bound _ _ Hrd p r Hp); congruence).
  apply wp_bind. eapply wp_updp; [exact Hp|]. apply wp_ret. apply wp_bind, wp_mod.
  apply wp_bind. eapply wp_self; [done|]. apply wp_bind.
  eapply wp_updp; [cbn; by rewrite lookup_insert_eq|]. apply wp_ret. cbn.
  rewrite insert_insert_eq, (u32_small (cReferences r + 1)) by lia.
  replace (u32 (cReferences r + 1 - 1)) with (cReferences r) by (rewrite u32_small; lia).
  replace (set_cReferences (cReferences r) _) with r by (by destruct r).
  rewrite insert_id by done. split_and!; [done| |by apply quiet_refl|apply mail_refl|done].
  by eapply Inv_same.
Qed.

(** ** New blocks *)

(** A block that is being filled in. *)
Lemma wp_updp_new p f r (Q : unit -> spm P -> Prop) E s :
  Inv [p] [] [] s -> procs s !! p = Some r -> blocks (f r) = blocks r -> pwf (f r) ->
  (Inv [p] [] [] (upd p (f r) s) -> procs (upd p (f r) s) !! p = Some (f r) ->
   frame_off p s (upd p (f r) s) -> Q () (upd p (f r) s)) -> wp (updp p f) Q E s.
Proof.
  intros HI Hp Hb Hw HQ. eapply wp_updp; [exact Hp|]. apply HQ.
  - eapply Inv_upd; [exact HI|exact Hp|by rewrite Hb|left; by left|by right].
  - apply lookup_insert_eq.
  - by eapply frame_off_upd.
Qed.

Lemma alloc_ok_off p s s' :
  frame_off p s s' -> alloc_ok s ->
  gpSPMSelf s <> Some p -> (forall r', procs s' !! p = Some r' -> pInherit r' = 0) -> alloc_ok s'.
Proof.
  intros HF [(me & m & Hs & Hm & Hst)|Hno] Hself Hi.
  - left. destruct (fo_keep _ _ _ HF me m) as (m' & Hm' & Hsame); [congruence|done|right; by left|].
    exists me, m'. split_and!; [by rewrite (fo_self _ _ _ HF)|done|].
    by rewrite (same_proc_state _ _ Hsame).
  - right. intros q r' Hq Hst. destruct (decide (q = p)) as [->|Hne]; [by apply Hi|].
    destruct (fo_new _ _ _ HF q r' Hne Hq) as (rq & Hrq & Hsame); [by rewrite Hst|].
    destruct Hsame as [->| ->]; [by eapply Hno|done].
Qed.

(** The notice the new process will leave. *)
Definition with_term (pidTerm : Z) r r' : Prop :=
  r' = r \/ exists a, r' = set_pTerm (Some (mk_SPMCHILDNOTIFY a sizeof_SPMCHILDNOTIFY pidTerm
                             (pgrp (p_ids r)) 0 EXIT_REASON_NONE)) r.

Lemma wp_spmNewTerm p x r s :
  Inv [p] [] [] s -> alloc_ok s -> procs s !! p = Some r -> pTerm r = None -> pInherit r = 0 ->
  (enmState r = PROCSTATE_EMBRYO \/ enmState r = PROCSTATE_ALIVE) ->
  wp (spmNewTerm p x) (fun _ s' => Inv [p] [] [] s' /\ frame_off p s s' /\
        exists r', procs s' !! p = Some r' /\ with_term x r r') (fun _ _ => False) s.
Proof.
  intros HI Hok Hp Ht Hi Hst. unfold spmNewTerm. apply wp_bind.
  eapply wp_conseq; [by apply (wp_spmAllocChildNotify [p] [])| |done]. intros o s1 [HI1 HF1].
  destruct (fr_keep _ _ _ HF1 p r Hp) as (r1 & Hr1 & Hsame); [left; by left|].
  assert (r1 = r) as ->.
  { destruct Hsame as [->| ->]; [done|]. rewrite <-Hi. by destruct r. }
  destruct o as [n|]; cbn in HI1.
  - apply wp_bind. eapply wp_getp; [exact Hr1|]. eapply wp_updp; [exact Hr1|].
    set (n' := mk_SPMCHILDNOTIFY _ _ _ _ _ _). split_and!.
    + destruct (inv_pwf _ _ _ _ HI1 p r Hr1) as [[]%elem_of_nil|[Hg Hw]].
      eapply Inv_upd; [exact HI1|exact Hr1| |left; by left|right; split; [done|]].
      * unfold blocks. cbn. rewrite Ht. cbn. apply Permutation_submseteq. solve_Permutation.
      * cbn. destruct Hst as [Hst|Hst]; by rewrite Hst in *.
    + etrans; [by eapply frame_frame_off|by eapply frame_off_upd].
    + cbn. rewrite lookup_insert_eq. eexists; split; [done|]. right. by eexists.
  - apply wp_ret. split_and!; [done|by eapply frame_frame_off|]. exists r. split; [done|by left].
Qed.

(** The new block, for the table. *)
Definition fresh p s : Prop := stolen p s \/ (forall r, procs s !! p = Some r -> ~ live r).

Lemma kept_live s p r : Inv [] [] [] s -> procs s !! p = Some r -> live r -> kept [] p r.
Proof.
  intros HI Hp [Hf He]. pose proof (Inv_pwf _ _ _ _ HI Hp) as [_ Hw]. unfold kept.
  destruct (enmState r); naive_solver.
Qed.

Lemma frame_off_quiet s p s' :
  Inv [] [] [] s -> frame_off p s s' -> (forall r, procs s !! p = Some r -> ~ live r) ->
  quiet 0 (procs s) (delete p (procs s')).
Proof.
  intros HI HF Hnl. split.
  - intros q r Hq Hl. assert (Hne : q <> p) by (intros ->; by apply (Hnl r)).
    destruct (fo_keep _ _ _ HF q r Hne Hq) as (r' & Hr' & Hs); [by eapply kept_live|].
    exists r'. rewrite lookup_delete_ne by done. split; [done|by apply same_proc_keeps].
  - intros q r' [Hne Hq]%lookup_delete_Some Hf.
    destruct (fo_new _ _ _ HF q r' (not_eq_sym Hne) Hq Hf) as (r & Hr & Hs).
    exists r. split; [done|by apply same_proc_keeps].
Qed.

Lemma frame_off_mail T s p s' :
  frame_off p s s' -> (forall r, procs s !! p = Some r -> enmState r <> PROCSTATE_ALIVE) ->
  mail T (procs s) (procs s').
Proof.
  intros HF Hna q r r' _ Hq Hs Hq' _. assert (Hne : q <> p) by (intros ->; by apply (Hna r)).
  destruct (fo_keep _ _ _ HF q r Hne Hq) as (r1 & Hr1 & Hsame); [right; by left|].
  simplify_eq. by destruct Hsame as [->| ->].
Qed.

Lemma wp_spmTimestamp_off p r s :
  Inv [p] [] [] s -> procs s !! p = Some r ->
  wp spmTimestamp (fun _ s' => Inv [p] [] [] s' /\ frame_off p s s' /\ procs s' !! p = Some r)
     (fun _ _ => False) s.
Proof.
  intros HI Hp. eapply wp_conseq; [by eapply wp_spmTimestamp| |done].
  intros _ s' [HI' Hm]. split_and!; [done|by eapply frame_frame_off, (mem_only_frame [])|].
  by destruct Hm as (_ & -> & _).
Qed.

Definition embryo_ids ppid m : SPMPROCESS :=
  let i := p_ids m in
  mk_SPMPROCESS PID_NONE ppid (sid i) (pgrp i) (uid i) (euid i) (svuid i) (gid i) (egid i)
    (svgid i) (agidGroups i).

(** A block that has just been filled in. *)
Definition newborn (st : SPMPROCSTAT) (i : SPMPROCESS) r : Prop :=
  enmState r = st /\ cReferences r = 1 /\ p_ids r = i /\ pSigHead r = [] /\
  pChildNotifyHead r = [] /\ pInherit r = 0.

(** From the zeroed block to the embryo. *)
Lemma wp_fill_embryo me m p ppid s :
  Inv [p] [] [] s -> procs s !! p = Some zero_process -> alloc_ok s -> me <> p ->
  gpSPMSelf s = Some me -> procs s !! me = Some m -> enmState m = PROCSTATE_ALIVE ->
  wp (m ← getp me;
      let i := p_ids m in
      _ ← updp p (fun r => set_cReferences 1 (set_enmState PROCSTATE_EMBRYO
            (set_p_ids (mk_SPMPROCESS PID_NONE ppid 0 0 (uid i) (euid i) (svuid i)
                          (gid i) (egid i) (svgid i) (agidGroups i)) r)));
      now ← spmTimestamp;
      _ ← updp p (fun r => set_fExeInited 1 (set_uTimestamp now
            (set_p_ids (mk_SPMPROCESS PID_NONE ppid (sid i) (pgrp i) (uid i) (euid i) (svuid i)
                          (gid i) (egid i) (svgid i) (agidGroups i)) r)));
      _ ← spmNewTerm p PID_NONE;
      m ← getp me;
      _ ← updp p (fun r => set_iNice (iNice m) (set_ppChildNotifyTail 0 r));
      _ ← link PROCSTATE_EMBRYO p;
      mret (Some p))
     (fun o s' => o = Some p /\ Inv [] [] [] s' /\ frame_off p s s' /\
        exists r', procs s' !! p = Some r' /\ newborn PROCSTATE_EMBRYO (embryo_ids ppid m) r')
     (fun _ _ => False) s.
Proof.
  intros HI Hp Hok Hne Hs Hm Hst. apply wp_bind. eapply wp_getp; [exact Hm|]. cbv zeta.
  apply wp_bind. eapply wp_updp_new; [exact HI|exact Hp|done|by split; [apply Forall_nil|]|].
  set (r1 := set_cReferences 1 _). intros HI1 Hp1 F1. set (s1 := upd p r1 s) in *. clearbody s1.
  apply wp_bind. eapply wp_conseq; [by apply (wp_spmTimestamp_off p r1)| |done].
  intros now s2 (HI2 & F2 & Hp2). apply wp_bind.
  eapply wp_updp_new; [exact HI2|exact Hp2|done|by split; [apply Forall_nil|]|].
  set (r3 := set_fExeInited 1 _). intros HI3 Hp3 F3. set (s3 := upd p r3 s2) in *. clearbody s3.
  assert (F03 : frame_off p s s3) by (do 2 (etrans; [eassumption|]); done).
  assert (Hok3 : alloc_ok s3).
  { eapply alloc_ok_off; [exact F03|done|congruence|]. intros r' Hr'. simplify_eq. done. }
  apply wp_bind. eapply wp_conseq; [apply (wp_spmNewTerm p PID_NONE r3); try done; by left| |done].
  intros _ s4 (HI4 & F4 & r4 & Hp4 & Ht).
  assert (F04 : frame_off p s s4) by (by etrans).
  destruct (fo_keep _ _ _ F04 me m Hne Hm) as (m4 & Hm4 & _); [right; by left|].
  apply wp_bind. eapply wp_getp; [exact Hm4|]. apply wp_bind.
  eapply wp_updp_new; [exact HI4|exact Hp4| |split|].
  { by destruct Ht as [->|[a ->]]. }
  { by destruct Ht as [->|[a ->]]; apply Forall_nil. }
  { by destruct Ht as [->|[a ->]]. }
  set (r5 := set_iNice _ _). intros HI5 Hp5 F5. set (s5 := upd p r5 s4) in *. clearbody s5.
  apply wp_bind. eapply wp_link; [exact HI5|exact Hp5|by destruct Ht as [->|[a ->]]|].
  intros s6 -> HI6. apply wp_ret. split_and!; [done|exact HI6|..].
  - etrans; [exact F04|]. by destruct F5.
  - exists r5. split; [done|]. destruct Ht as [->|[a ->]]; by split_and!.
Qed.

Definition embryo_made m ppid s (o : option Z) s' : Prop :=
  Inv [] [] [] s' /\
  match o with
  | None => frame [] s s'
  | Some p => frame_off p s s' /\ fresh p s /\
      (forall r, procs s !! p = Some r -> enmState r <> PROCSTATE_ALIVE) /\
      exists r', procs s' !! p = Some r' /\ newborn PROCSTATE_EMBRYO (embryo_ids ppid m) r'
  end.

(** A block is new for the state before a reaping, too. *)
Lemma fresh_frame s s1 p :
  Inv [] [] [] s -> frame [] s s1 ->
  (stolen p s1 \/ (forall r, procs s1 !! p = Some r -> ~ kept [] p r)) -> fresh p s.
Proof.
  intros HI HF [Hst|Hnk].
  - left. unfold stolen in *. by rewrite <-(fr_zombie _ _ _ HF).
  - right. intros r Hr Hl. pose proof (kept_live s p r HI Hr Hl) as Hk.
    destruct (fr_keep _ _ _ HF p r Hr Hk) as (r1 & Hr1 & Hsame).
    apply (Hnk r1 Hr1). by eapply kept_same.
Qed.

Lemma wp_spmCreateEmbryo me m s ppid :
  ready me s -> procs s !! me = Some m ->
  wp (spmCreateEmbryo ppid) (fun o s' => exists m1, embryo_made m1 ppid s o s' /\ p_ids m1 = p_ids m)
     (fun _ s' => s' = s) s.
Proof.
  intros Hrd Hm. pose proof Hrd as [HI Hs (m0 & Hm0 & Hst & Hpos) Hb].
  assert (m0 = m) as -> by congruence. unfold spmCreateEmbryo.
  apply wp_bind, wp_gets. rewrite Hs. apply wp_bind, wp_mutex_errno; [|done].
  apply wp_bind, wp_gethead, wp_bind.
  apply (wp_conseq _ (fun _ s1 => Inv [] [] [] s1 /\ frame [] s s1) _ (fun _ _ => False)); [| |done].
  { apply wp_when; intros _; [|done].
    apply wp_bind. eapply wp_conseq; [by eapply wp_spmTimestamp| |done]. intros now s1 [HI1 Hm1].
    change (head_of PROCSTATE_EMBRYO (apHeads s)) with (hEmbryo (apHeads s)).
    destruct Hm1 as (Hh & Hm1). rewrite <-Hh.
    eapply wp_conseq; [apply (wp_reap_embryos [] [] s1); [done|]| |done].
    - clear. intros r s. unfold pid_gone. wp_steps; (done || (split; [done|]; intros ?; by breflect)).
    - intros _ s2 [HI2 HF2]. split; [done|]. etrans; [|exact HF2]. by apply mem_only_frame. }
  intros _ s1 [HI1 HF1]. apply wp_bind.
  eapply wp_conseq; [apply (wp_spmAllocProcess [] s1); [done|]| |done].
  { eapply alloc_ok_frame; [done|by eapply ready_alloc_ok]. }
  intros o s2 Hn. destruct o as [p|]; cbn in Hn.
  2: { apply wp_ret. exists m. destruct Hn. split; [split; [done|by etrans]|done]. }
  destruct Hn as (HI2 & Hp2 & Hok2 & F2 & Hna & Hfr).
  destruct (fr_keep _ _ _ HF1 me m Hm) as (m1 & Hm1 & Hsm1); [right; by left|].
  assert (Hst1 : enmState m1 = PROCSTATE_ALIVE) by (by rewrite (same_proc_state _ _ Hsm1)).
  assert (Hne : me <> p) by (intros <-; by apply (Hna m1)).
  destruct (fo_keep _ _ _ F2 me m1 Hne Hm1) as (m2 & Hm2 & Hsm2); [right; by left|].
  eapply wp_conseq; [apply (wp_fill_embryo me m2 p ppid s2); try done| |done].
  { rewrite (fo_self _ _ _ F2), (fr_self _ _ _ HF1). done. }
  { by rewrite (same_proc_state _ _ Hsm2). }
  intros o s3 (-> & HI3 & F3 & r' & Hr' & Hnb). exists m2. split.
  - split; [done|]. split_and!.
    + etrans; [by eapply frame_frame_off|]. by etrans.
    + by eapply fresh_frame.
    + intros r Hr Hsr. destruct (fr_keep _ _ _ HF1 p r Hr) as (r1 & Hr1 & Hsame); [right; by left|].
      apply (Hna r1 Hr1). by rewrite (same_proc_state _ _ Hsame).
    + by exists r'.
  - destruct Hsm1 as [->| ->], Hsm2 as [->| ->]; done.
Qed.

(** ** A process registers *)

Definition child_of s (ppid p : Z) : bool :=
  match procs s !! p with Some r => pidParent (p_ids r) =? ppid | None => false end.
Definition child_with s (x ppid p : Z) : bool :=
  match procs s !! p with
  | Some r => (pidParent (p_ids r) =? ppid) && (pid_of r =? x)
  | None => false
  end.

(** The embryo a process with id [x] and parent [ppid] becomes: the one that
    has its id, else the first of its parent. *)
Definition embryo_for s (x ppid : Z) (best : option Z) (l : list Z) : option Z :=
  match head (filter (fun p => child_with s x ppid p = true) l) with
  | Some p => Some p
  | None => match best with
            | Some b => Some b
            | None => head (filter (fun p => child_of s ppid p = true) l)
            end
  end.

Lemma wp_find_embryo x ppid l s : forall best,
  (forall p, p ∈ l -> is_Some (procs s !! p)) ->
  wp (find_embryo x ppid best l) (fun o s' => s' = s /\ o = embryo_for s x ppid best l)
     (fun _ _ => False) s.
Proof.
  induction l as [|p l IH]; intros best Hl; cbn [find_embryo].
  { apply wp_ret. split; [done|]. unfold embryo_for. cbn. by destruct best. }
  destruct (Hl p) as [r Hr]; [by left|]. apply wp_bind. eapply wp_getp; [exact Hr|].
  assert (Hl' : forall q, q ∈ l -> is_Some (procs s !! q)) by (intros q Hq; apply Hl; by right).
  assert (E1 : child_of s ppid p = (pidParent (p_ids r) =? ppid)) by (unfold child_of; by rewrite Hr).
  assert (E2 : child_with s x ppid p = (pidParent (p_ids r) =? ppid) && (pid_of r =? x)).
  { unfold child_with. by rewrite Hr. }
  unfold embryo_for. rewrite !filter_cons, E1, E2.
  destruct (pidParent (p_ids r) =? ppid); cbn [andb]; [|by apply IH].
  destruct (pid_of r =? x); cbn; [by apply wp_ret|].
  eapply wp_conseq; [by apply IH| |done]. intros o s' [-> ->]. split; [done|].
  unfold embryo_for. by destruct (head _), best.
Qed.

Lemma embryo_for_Some s x ppid l p :
  embryo_for s x ppid None l = Some p -> p ∈ l /\ child_of s ppid p = true.
Proof.
  unfold embryo_for. destruct (head _) as [q|] eqn:Hq.
  - intros [= ->]. apply head_Some_elem_of, list_elem_of_filter in Hq as [Hq ?]. split; [done|].
    unfold child_of, child_with in *. destruct (procs s !! p); [|done].
    by apply andb_true_iff in Hq as [? _].
  - intros Hp. by apply head_Some_elem_of, list_elem_of_filter in Hp as [? ?].
Qed.

Lemma embryo_for_None s x ppid l p :
  embryo_for s x ppid None l = None -> p ∈ l -> child_of s ppid p = false.
Proof.
  unfold embryo_for. destruct (head _); [done|]. destruct (filter _ l) as [|q k] eqn:Hf; [|done].
  intros _ Hp. destruct (child_of s ppid p) eqn:Hc; [|done].
  assert (Hin : p ∈ filter (fun p => child_of s ppid p = true) l) by (by apply list_elem_of_filter).
  rewrite Hf in Hin. by apply elem_of_nil in Hin.
Qed.

(** What becomes of the embryo. *)
Definition born x sid' r : PROCESS :=
  set_enmState PROCSTATE_ALIVE (set_p_ids (set_sid sid' (set_pid x (p_ids r)))
    (set_cReferences (cReferences r + 1) r)).

Definition self_ids x ppid sid' : SPMPROCESS := mk_SPMPROCESS x ppid sid' x 0 0 0 0 0 0 (replicate 16 0).

(** The three outcomes of a registration. *)
Definition registered x ppid sid' s (o : option Z) s' : Prop :=
  Inv [] [] [] s' /\ gpSPMSelf s' = o /\
  match embryo_for s x ppid None (hEmbryo (apHeads s)) with
  | Some p => exists r, o = Some p /\ procs s !! p = Some r /\ enmState r = PROCSTATE_EMBRYO /\
      pidParent (p_ids r) = ppid /\ procs s' = <[p := born x sid' r]> (procs s)
  | None =>
      match o with
      | None => frame [] s s'
      | Some p => fresh p s /\ (forall r, procs s !! p = Some r -> enmState r <> PROCSTATE_ALIVE) /\
          frame_off p s (set_gpSPMSelf None s') /\
          exists r', procs s' !! p = Some r' /\ newborn PROCSTATE_ALIVE (self_ids x ppid sid') r'
      end
  end.

Lemma head_embryo s p : Inv [] [] [] s -> p ∈ hEmbryo (apHeads s) ->
  exists r, procs s !! p = Some r /\ enmState r = PROCSTATE_EMBRYO.
Proof. intros HI Hp. by apply (inv_in _ _ _ _ HI PROCSTATE_EMBRYO). Qed.

(** The embryo becomes the process. *)
Lemma wp_become x sid' p r s :
  Inv [] [] [] s -> procs s !! p = Some r -> enmState r = PROCSTATE_EMBRYO ->
  0 <= cReferences r < 2 ^ 32 - 1 ->
  wp (_ ← updp p (fun r => set_p_ids (set_sid sid' (set_pid x (p_ids r)))
                             (set_cReferences (u32 (cReferences r + 1)) r));
      _ ← unlink p;
      _ ← updp p (set_enmState PROCSTATE_ALIVE);
      _ ← link PROCSTATE_ALIVE p;
      _ ← mmod (set_gpSPMSelf (Some p));
      mret (Some p))
     (fun o s' => o = Some p /\ Inv [] [] [] s' /\ gpSPMSelf s' = Some p /\
        procs s' = <[p := born x sid' r]> (procs s)) (fun _ _ => False) s.
Proof.
  intros HI Hp Hst Hc. pose proof (Inv_pwf _ _ _ _ HI Hp) as [Hg Hw]. rewrite Hst in Hw.
  destruct Hw as [Hsig Htail].
  apply wp_bind. eapply wp_updp; [exact Hp|]. rewrite u32_small by lia. set (r1 := set_p_ids _ _).
  assert (HI1 : Inv [] [] [] (upd p r1 s)) by (by eapply Inv_upd_plain; [done|exact Hp|]).
  assert (Hp1 : procs (upd p r1 s) !! p = Some r1) by apply lookup_insert_eq.
  fold (upd p r1 s). apply wp_bind. eapply wp_unlink; [exact HI1|exact Hp1|apply not_elem_of_nil|].
  intros s2 -> HI2. apply wp_bind. eapply wp_updp; [exact Hp1|].
  apply wp_bind. eapply wp_link.
  - eapply (Inv_upd _ _ _ _ _ p r1 (set_enmState PROCSTATE_ALIVE r1)); [exact HI2|exact Hp1|done|left; by left|].
    right. by split.
  - apply lookup_insert_eq.
  - done.
  - intros s3 -> HI3. apply wp_bind, wp_mod, wp_ret. split_and!; [done| |done|].
    + by eapply Inv_same.
    + cbn. by rewrite insert_insert_eq.
Qed.

(** From the zeroed block to the process. *)
Lemma wp_fill_self x ppid sid' p s :
  Inv [p] [] [] s -> procs s !! p = Some zero_process -> alloc_ok s -> gpSPMSelf s = None ->
  wp (_ ← updp p (fun r => set_cReferences 1 (set_enmState PROCSTATE_ALIVE
            (set_p_ids (mk_SPMPROCESS x ppid 0 0 0 0 0 0 0 0 (agidGroups (p_ids r))) r)));
      now ← spmTimestamp;
      _ ← updp p (fun r => set_fExeInited 1 (set_uTimestamp now
            (set_p_ids (mk_SPMPROCESS x ppid sid' x 0 0 0 0 0 0 (agidGroups (p_ids r))) r)));
      _ ← spmNewTerm p x;
      _ ← updp p (set_ppChildNotifyTail 0);
      _ ← link PROCSTATE_ALIVE p;
      _ ← mmod (set_gpSPMSelf (Some p));
      mret (Some p))
     (fun o s' => o = Some p /\ Inv [] [] [] s' /\ gpSPMSelf s' = Some p /\
        frame_off p s (set_gpSPMSelf None s') /\
        exists r', procs s' !! p = Some r' /\ newborn PROCSTATE_ALIVE (self_ids x ppid sid') r')
     (fun _ _ => False) s.
Proof.
  intros HI Hp Hok Hs.
  apply wp_bind. eapply wp_updp_new; [exact HI|exact Hp|done|by split; [apply Forall_nil|]|].
  set (r1 := set_cReferences 1 _). intros HI1 Hp1 F1. set (s1 := upd p r1 s) in *. clearbody s1.
  apply wp_bind. eapply wp_conseq; [by apply (wp_spmTimestamp_off p r1)| |done].
  intros now s2 (HI2 & F2 & Hp2). apply wp_bind.
  eapply wp_updp_new; [exact HI2|exact Hp2|done|by split; [apply Forall_nil|]|].
  set (r3 := set_fExeInited 1 _). intros HI3 Hp3 F3. set (s3 := upd p r3 s2) in *. clearbody s3.
  assert (F03 : frame_off p s s3) by (do 2 (etrans; [eassumption|]); done).
  assert (Hok3 : alloc_ok s3).
  { eapply alloc_ok_off; [exact F03|done|congruence|]. intros r' Hr'. simplify_eq. done. }
  apply wp_bind. eapply wp_conseq; [apply (wp_spmNewTerm p x r3); try done; by right| |done].
  intros _ s4 (HI4 & F4 & r4 & Hp4 & Ht).
  assert (F04 : frame_off p s s4) by (by etrans). apply wp_bind.
  eapply wp_updp_new; [exact HI4|exact Hp4| |split|].
  { by destruct Ht as [->|[a ->]]. }
  { by destruct Ht as [->|[a ->]]; apply Forall_nil. }
  { by destruct Ht as [->|[a ->]]. }
  set (r5 := set_ppChildNotifyTail _ _). intros HI5 Hp5 F5. set (s5 := upd p r5 s4) in *. clearbody s5.
  assert (F05 : frame_off p s s5) by (by etrans).
  apply wp_bind. eapply wp_link; [exact HI5|exact Hp5|by destruct Ht as [->|[a ->]]|].
  intros s6 -> HI6. apply wp_bind, wp_mod, wp_ret. split_and!; [done|by eapply Inv_same|done| |].
  - split; [by rewrite Hs|..]; [apply (fo_keep _ _ _ F05)|apply (fo_new _ _ _ F05)].
  - exists r5. split; [done|]. destruct Ht as [->|[a ->]]; by split_and!.
Qed.

Lemma wp_spmRegisterSelf x ppid sid' s :
  Inv [] [] [] s -> gpSPMSelf s = None -> refs_bound (procs s) ->
  (forall p r, procs s !! p = Some r -> enmState r = PROCSTATE_ALIVE -> pid_of r <> x) ->
  alloc_ok s \/ (exists p, p ∈ hEmbryo (apHeads s) /\ child_of s ppid p = true) ->
  wp (spmRegisterSelf x ppid sid') (registered x ppid sid' s) (fun _ _ => False) s.
Proof.
  intros HI Hs Hb Hx Hok. unfold spmRegisterSelf. apply wp_bind, wp_gets. rewrite Hs.
  apply wp_bind, wp_gethead, wp_bind.
  eapply wp_conseq; [apply wp_find_embryo; intros p; by eapply Inv_head_Some| |done].
  intros best s1 [-> Hbest]. cbn [head_of] in Hbest. unfold registered.
  destruct (embryo_for s x ppid None (hEmbryo (apHeads s))) as [p|] eqn:He; subst best.
  - destruct (embryo_for_Some _ _ _ _ _ He) as [Hin Hc].
    destruct (head_embryo s p HI Hin) as (r & Hr & Hst).
    eapply wp_conseq; [apply (wp_become x sid' p r); try done| |done].
    { destruct (Hb p r Hr); [by rewrite Hst|lia]. }
    intros o s2 (-> & HI2 & Hs2 & Hp2). split_and!; [done|done|]. exists r. split_and!; try done.
    unfold child_of in Hc. rewrite Hr in Hc. by apply Z.eqb_eq.
  - apply wp_bind, wp_gethead, wp_bind.
    eapply wp_conseq; [apply wp_find_proc; intros p; by eapply Inv_head_Some| |done].
    intros o s2 [-> Ho]. destruct o as [p|].
    { destruct Ho as (Hin & r & Hr & Hf). apply andb_true_iff in Hf as [Hf _]. apply Z.eqb_eq in Hf.
      destruct (inv_in _ _ _ _ HI PROCSTATE_ALIVE p Hin) as (r' & Hr' & Hst). simplify_eq.
      by destruct (Hx p r Hr Hst). }
    clear Ho. destruct Hok as [Hok|(p & Hin & Hc)].
    2: { by rewrite (embryo_for_None _ _ _ _ p He Hin) in Hc. }
    apply wp_bind. eapply wp_conseq; [by apply (wp_spmAllocProcess [] s)| |done].
    intros o s2 Hn. destruct o as [p|]; cbn in Hn.
    2: { apply wp_ret. destruct Hn as [HI2 F2]. split_and!; [done|rewrite (fr_self _ _ _ F2); done|done]. }
    destruct Hn as (HI2 & Hp2 & Hok2 & F2 & Hna & Hfr).
    eapply wp_conseq; [apply (wp_fill_self x ppid sid' p s2); try done| |done].
    { by rewrite (fo_self _ _ _ F2). }
    intros o s3 (-> & HI3 & Hs3 & F3 & Hnb). split; [done|]. split; [done|].
    split_and!; [by eapply fresh_frame|done|by etrans|done].
Qed.

(** The end of [spmInit]. *)
Definition opened r : PROCESS := set_cSPMOpens (u32 (cSPMOpens r + 1)) r.

Definition inited x ppid sid' s s' : Prop := exists o s1, registered x ppid sid' s o s1 /\
  match o with
  | None => s' = s1
  | Some p => exists r, procs s1 !! p = Some r /\ Inv [] [] [] s' /\ gpSPMSelf s' = Some p /\
      procs s' = <[p := opened r]> (procs s1)
  end.

Lemma wp_spmInitRegister x ppid sid' s :
  Inv [] [] [] s -> gpSPMSelf s = None -> refs_bound (procs s) ->
  (forall p r, procs s !! p = Some r -> enmState r = PROCSTATE_ALIVE -> pid_of r <> x) ->
  alloc_ok s \/ (exists p, p ∈ hEmbryo (apHeads s) /\ child_of s ppid p = true) ->
  wp (spmInitRegister x ppid sid') (fun _ s' => inited x ppid sid' s s') (fun _ _ => False) s.
Proof.
  intros HI Hs Hb Hx Hok. unfold spmInitRegister. apply wp_bind.
  eapply wp_conseq; [by apply wp_spmRegisterSelf| |done]. intros o s1 Hreg. pose proof Hreg as (HI1 & Hs1 & Hm).
  apply wp_bind, wp_gets. rewrite Hs1. destruct o as [p|]; [|apply wp_ret; by exists None, s1].
  assert (Hp : exists r, procs s1 !! p = Some r).
  { destruct (embryo_for _ _ _ _ _).
    - destruct Hm as (r & [= ->] & _ & _ & _ & ->). rewrite lookup_insert_eq. by eexists.
    - destruct Hm as (_ & _ & _ & r & ? & _). by exists r. }
  destruct Hp as [r Hr]. apply wp_bind. eapply wp_updp; [exact Hr|]. apply wp_mod.
  exists (Some p), s1. split; [done|]. exists r. split_and!; [done| |done|done].
  eapply Inv_same; [by eapply (Inv_upd_plain [] s1 p r (opened r))|done..].
Qed.

(** ** A process ends *)

(** The unborn children of the process [x]. *)
Definition bury (x : Z) r : PROCESS :=
  if pidParent (p_ids r) =? x then zombie_or_free r else r.

Lemma wp_bury x l : forall s,
  Inv [] [] [] s -> NoDup l ->
  (forall p, p ∈ l -> exists r, procs s !! p = Some r /\ enmState r = PROCSTATE_EMBRYO) ->
  wp (mfor l (fun p => r ← getp p; mwhen (pidParent (p_ids r) =? x) (spmZombieOrFree p)))
     (fun _ s' => Inv [] [] [] s' /\ gpSPMSelf s' = gpSPMSelf s /\
        forall q, procs s' !! q = (if decide (q ∈ l) then bury x else id) <$> procs s !! q)
     (fun _ _ => False) s.
Proof.
  induction l as [|p l IH]; intros s HI Hnd Hl; cbn [mfor].
  { apply wp_ret. split_and!; [done|done|]. intros q. rewrite decide_False by apply not_elem_of_nil.
    by rewrite option_fmap_id. }
  apply NoDup_cons in Hnd as [Hpl Hnd]. destruct (Hl p) as (r & Hr & Hst); [by left|].
  apply wp_bind, wp_bind. eapply wp_getp; [exact Hr|].
  assert (Hgo : forall s1, Inv [] [] [] s1 -> gpSPMSelf s1 = gpSPMSelf s ->
            procs s1 = <[p := bury x r]> (procs s) ->
            wp (mfor l (fun p => r ← getp p; mwhen (pidParent (p_ids r) =? x) (spmZombieOrFree p)))
               (fun _ s' => Inv [] [] [] s' /\ gpSPMSelf s' = gpSPMSelf s /\
                  forall q, procs s' !! q = (if decide (q ∈ p :: l) then bury x else id) <$> procs s !! q)
               (fun _ _ => False) s1).
  { intros s1 HI1 Hs1 Hp1. eapply wp_conseq; [apply IH; [done|done|]| |done].
    - intros q Hq. rewrite Hp1, lookup_insert_ne by (by intros ->). apply Hl. by right.
    - intros _ s2 (HI2 & Hs2 & Hp2). split_and!; [done|congruence|]. intros q. rewrite Hp2, Hp1.
      destruct (decide (p = q)) as [<-|Hne].
      + rewrite lookup_insert_eq, Hr, decide_False, decide_True by (done || by left). done.
      + rewrite lookup_insert_ne by done. f_equal. apply decide_ext. rewrite elem_of_cons. naive_solver. }
  unfold bury in *. apply wp_when; intros Hx; rewrite Hx in Hgo.
  - eapply wp_conseq; [eapply (wp_spmZombieOrFree [] [] [] p r); try done| |done].
    + apply not_elem_of_nil.
    + by eapply Inv_pwf.
    + by rewrite Hst.
    + intros _ s1 [HI1 (E1 & _ & _ & _ & E5)]. by apply Hgo.
  - apply Hgo; [done|done|]. by rewrite insert_id.
Qed.

(** The notice of the death of a process, as its parent gets it. *)
Definition obituary r (n : SPMCHILDNOTIFY) : SPMCHILDNOTIFY :=
  mk_SPMCHILDNOTIFY (cn_addr n) (cn_cb n) (pid_of r) (pgrp (p_ids r)) (cn_iExitCode n)
    (cn_enmDeathReason n).

Definition with_notice (n : SPMCHILDNOTIFY) r : PROCESS :=
  set_ppChildNotifyTail (S (length (pChildNotifyHead r)))
    (set_pChildNotifyHead (pChildNotifyHead r ++ [n]) r).

Lemma wp_append_notify n p r (Q : unit -> spm P -> Prop) E s :
  procs s !! p = Some r -> ppChildNotifyTail r = length (pChildNotifyHead r) ->
  Q () (upd p (with_notice n r) s) -> wp (append_notify n p) Q E s.
Proof.
  intros Hp Ht HQ. unfold append_notify. apply wp_bind. eapply wp_getp; [exact Hp|].
  rewrite Ht, Nat.leb_refl. eapply wp_updp; [exact Hp|]. rewrite Ht, firstn_all. exact HQ.
Qed.

Lemma with_notice_blocks n r : blocks (with_notice n r) ≡ₚ cn_addr n :: blocks r.
Proof. unfold blocks. cbn. rewrite fmap_app. cbn. solve_Permutation. Qed.

Lemma with_notice_pwf n r : enmState r = PROCSTATE_ALIVE -> pwf r -> pwf (with_notice n r).
Proof.
  intros Hs [Hg Hw]. split; [done|]. cbn. rewrite Hs, length_app. cbn. lia.
Qed.

Definition no_term r : PROCESS := set_pTerm None r.

Lemma no_term_pwf r : enmState r = PROCSTATE_ALIVE -> pwf r -> pwf (no_term r).
Proof. intros Hs Hw. by eapply alive_pwf. Qed.

(** Where the notice goes. *)
Definition notified p r s s' : Prop :=
  match pTerm r with
  | None => procs s' = procs s
  | Some n =>
      (exists q rq, procs s !! q = Some rq /\ enmState rq = PROCSTATE_ALIVE /\
         pid_of rq = pidParent (p_ids r) /\ q <> p /\
         procs s' = <[p := no_term r]> (<[q := with_notice (obituary r n) rq]> (procs s))) \/
      (procs s' = <[p := no_term (with_notice (obituary r n) r)]> (procs s) /\
         pid_of r = pidParent (p_ids r)) \/
      (procs s' = <[p := no_term r]> (procs s) /\
         forall q rq, procs s !! q = Some rq -> enmState rq = PROCSTATE_ALIVE ->
           pid_of rq <> pidParent (p_ids r))
  end.

(** The pool, the lists and the free lists decide with the blocks whether the
    state is sound. *)
Lemma Inv_take_term p r n s :
  Inv [] [] [] s -> procs s !! p = Some r -> enmState r = PROCSTATE_ALIVE -> pTerm r = Some n ->
  Inv [] [] [cn_addr n] (upd p (no_term r) s).
Proof.
  intros HI Hp Hst Ht. eapply Inv_upd; [exact HI|exact Hp| |by right|right].
  - unfold blocks. cbn. rewrite Ht. cbn. apply Permutation_submseteq. solve_Permutation.
  - apply no_term_pwf; [done|by eapply Inv_pwf].
Qed.

Lemma wp_notify_parent p r s :
  Inv [] [] [] s -> procs s !! p = Some r -> enmState r = PROCSTATE_ALIVE ->
  wp (notify_parent p) (fun _ s' => Inv [] [] [] s' /\ gpSPMSelf s' = gpSPMSelf s /\ notified p r s s')
     (fun _ _ => False) s.
Proof.
  intros HI Hp Hst. pose proof (Inv_pwf _ _ _ _ HI Hp) as Hw. unfold notify_parent, notified.
  apply wp_bind. eapply wp_getp; [exact Hp|]. destruct (pTerm r) as [n|] eqn:Ht; [|by apply wp_ret].
  pose proof (Inv_take_term p r n s HI Hp Hst Ht) as HI1.
  apply wp_bind. eapply wp_conseq; [by eapply wp_query| |done]. intros o s1 [-> Ho].
  destruct o as [q|].
  - destruct Ho as (rq & Hq & Hsq & Hpq). pose proof (Inv_pwf _ _ _ _ HI Hq) as Hwq.
    fold (obituary r n). set (n' := obituary r n).
    apply wp_bind, wp_bind. eapply wp_append_notify; [exact Hq|destruct Hwq as [_ Hwq]; by rewrite Hsq in Hwq|].
    apply wp_mod. destruct (decide (q = p)) as [->|Hne].
    + simplify_eq. eapply wp_updp; [apply lookup_insert_eq|]. cbn. rewrite insert_insert_eq.
      split_and!; [|done|right; left; by split].
      assert (HI2 : Inv [] [] [] (upd p (no_term (with_notice n' r)) s)).
      { eapply Inv_upd; [exact HI|exact Hp| |by right|right].
        - unfold blocks, no_term. cbn. rewrite Ht, fmap_app. cbn. apply Permutation_submseteq. solve_Permutation.
        - apply no_term_pwf; [done|by apply with_notice_pwf]. }
      by eapply Inv_same.
    + eapply wp_updp; [cbn; by rewrite lookup_insert_ne|]. split_and!; [|done|left; exists q, rq; by split_and!].
      assert (HI2 : Inv [] [] [] (upd q (with_notice n' rq) (upd p (no_term r) s))).
      { eapply Inv_upd; [exact HI1|cbn; by rewrite lookup_insert_ne| |by right|right; by apply with_notice_pwf].
        apply Permutation_submseteq. cbn. by rewrite with_notice_blocks. }
      eapply Inv_same; [exact HI2|done|done| |done..]. cbn. by apply insert_insert_ne.
  - unfold spmFreeChildNotify. apply wp_bind, wp_mod. eapply wp_updp; [exact Hp|].
    split_and!; [|done|right; right; by split].
    pose proof (wp_spmFreeChildNotify [] [] [] n _ HI1) as [HI2 _].
    eapply Inv_same; [exact HI2|done..].
Qed.

(** What [spmCleanup] leaves. *)
Record ended (x me : Z) m s s' : Prop := mk_ended {
  en_inv : Inv [] [] [] s';
  en_self : gpSPMSelf s' = None;
  en_me : exists r2, procs s' !! me = Some (zombie_or_free r2) /\ cReferences r2 = cReferences m;
  en_embryo : forall q r, procs s !! q = Some r -> enmState r = PROCSTATE_EMBRYO ->
    pidParent (p_ids r) = x -> procs s' !! q = Some (zombie_or_free r);
  en_other : forall q r, q <> me -> procs s !! q = Some r ->
    ~ (enmState r = PROCSTATE_EMBRYO /\ pidParent (p_ids r) = x) ->
    exists r', procs s' !! q = Some r' /\
      (r' = r \/ exists n, pTerm m = Some n /\ enmState r = PROCSTATE_ALIVE /\
         pid_of r = pidParent (p_ids m) /\ r' = with_notice (obituary m n) r);
  en_new : forall q r', procs s' !! q = Some r' -> is_Some (procs s !! q);
  en_notice : forall n, pTerm m = Some n -> pid_of m <> pidParent (p_ids m) ->
    (exists q r, procs s !! q = Some r /\ enmState r = PROCSTATE_ALIVE /\
       pid_of r = pidParent (p_ids m)) ->
    exists q r, procs s !! q = Some r /\ enmState r = PROCSTATE_ALIVE /\
      pid_of r = pidParent (p_ids m) /\ procs s' !! q = Some (with_notice (obituary m n) r)
}.

Definition closed r : PROCESS := set_cSPMOpens (if cSPMOpens r <=? 1 then 0 else cSPMOpens r - 1) r.

(** The last two steps, seen from the state before the notice. *)
Lemma notified_lookup me m s s' :
  procs s !! me = Some m -> enmState m = PROCSTATE_ALIVE -> notified me m s s' ->
  (exists r2, procs s' !! me = Some r2 /\ cReferences r2 = cReferences m /\
     enmState r2 = PROCSTATE_ALIVE) /\
  (forall q, q <> me -> procs s' !! q = procs s !! q \/
     exists r n, procs s !! q = Some r /\ pTerm m = Some n /\ enmState r = PROCSTATE_ALIVE /\
         pid_of r = pidParent (p_ids m) /\ procs s' !! q = Some (with_notice (obituary m n) r)) /\
  (forall n, pTerm m = Some n -> pid_of m <> pidParent (p_ids m) ->
     (exists q r, procs s !! q = Some r /\ enmState r = PROCSTATE_ALIVE /\
        pid_of r = pidParent (p_ids m)) ->
     exists q r, q <> me /\ procs s !! q = Some r /\ enmState r = PROCSTATE_ALIVE /\
       pid_of r = pidParent (p_ids m) /\ procs s' !! q = Some (with_notice (obituary m n) r)).
Proof.
  intros Hm Hst Hn. unfold notified in Hn. destruct (pTerm m) as [n|] eqn:Ht.
  - destruct Hn as [(q & rq & Hq & Hsq & Hpq & Hne & E)|[[E Hp]|[E Hno]]]; rewrite E.
    + split_and!.
      * rewrite lookup_insert_eq. by eexists.
      * intros q' Hne'. rewrite lookup_insert_ne by done. destruct (decide (q = q')) as [<-|].
        -- right. exists rq, n. by rewrite lookup_insert_eq.
        -- left. by rewrite lookup_insert_ne.
      * intros n' [= <-] _ _. exists q, rq. rewrite lookup_insert_ne, lookup_insert_eq by done.
        by split_and!.
    + split_and!.
      * rewrite lookup_insert_eq. by eexists.
      * intros q' Hne'. left. by rewrite lookup_insert_ne.
      * by intros n' _ [].
    + split_and!.
      * rewrite lookup_insert_eq. by eexists.
      * intros q' Hne'. left. by rewrite lookup_insert_ne.
      * intros n' _ _ (q & rq & Hq & Hsq & Hpq). by destruct (Hno q rq).
  - rewrite Hn. split_and!; [by exists m|by left|done].
Qed.

(** The steps of [spmCleanup] one after the other: [s1] after the burial of
    the unborn children, [s2] with the block of the process closed, [s3] after
    the notice. *)
Section Ended.
Context (x me : Z) (m r3 : PROCESS) (s s1 s2 s3 s4 : spm P).
Context (HI : Inv [] [] [] s) (Hm : procs s !! me = Some m) (Hst : enmState m = PROCSTATE_ALIVE).
Context (E1 : forall q, procs s1 !! q
                = (if decide (q ∈ hEmbryo (apHeads s)) then bury x else id) <$> procs s !! q).
Context (E2 : procs s2 = <[me := closed m]> (procs s1)) (Hn : notified me (closed m) s2 s3).
Context (Hm3 : procs s3 !! me = Some r3) (E4 : procs s4 = <[me := zombie_or_free r3]> (procs s3)).

Lemma in_hEmbryo q r :
  procs s !! q = Some r -> q ∈ hEmbryo (apHeads s) <-> enmState r = PROCSTATE_EMBRYO.
Proof.
  intros Hq. split.
  - intros Hin. destruct (head_embryo s q HI Hin) as (? & ? & ?). congruence.
  - intros Hsq. destruct (inv_dom _ _ _ _ HI q r Hq) as [[]%elem_of_nil|Hin]. by rewrite Hsq in Hin.
Qed.

Lemma ended_s2 q : q <> me -> procs s2 !! q = procs s1 !! q.
Proof. intros Hne. by rewrite E2, lookup_insert_ne. Qed.

Lemma ended_same q r :
  q <> me -> procs s !! q = Some r ->
  ~ (enmState r = PROCSTATE_EMBRYO /\ pidParent (p_ids r) = x) -> procs s2 !! q = Some r.
Proof.
  intros Hne Hq Hnd. rewrite ended_s2, E1, Hq by done. case_decide as Hin; [|done].
  cbn. unfold bury. destruct (Z.eqb_spec (pidParent (p_ids r)) x); [|done].
  destruct Hnd. split; [by apply (in_hEmbryo q r Hq)|done].
Qed.

Lemma ended_alive q r :
  q <> me -> procs s2 !! q = Some r -> enmState r = PROCSTATE_ALIVE -> procs s !! q = Some r.
Proof.
  intros Hne Hq Hsq. rewrite ended_s2, E1 in Hq by done.
  destruct (procs s !! q) as [r0|] eqn:Hq0; [|done].
  case_decide as Hin; cbn in Hq; injection Hq as <-; [|done].
  apply (in_hEmbryo q r0 Hq0) in Hin. unfold bury, zombie_or_free in Hsq.
  destruct (_ =? x); [|congruence]. by destruct (_ =? 0).
Qed.

Lemma ended_intro : Inv [] [] [] s4 -> ended x me m s (set_gpSPMSelf None s4).
Proof.
  intros HI4. assert (Hm2 : procs s2 !! me = Some (closed m)) by (rewrite E2; apply lookup_insert_eq).
  destruct (notified_lookup me (closed m) s2 s3 Hm2 Hst Hn) as ((r3' & Hm3' & Hc3 & Hst3) & Hoth & Hnote).
  assert (r3' = r3) as -> by congruence.
  assert (H4 : forall q, q <> me -> procs s4 !! q = procs s3 !! q).
  { intros q Hne. by rewrite E4, lookup_insert_ne. }
  split; cbn [procs set_gpSPMSelf gpSPMSelf].
  - by eapply Inv_same.
  - done.
  - exists r3. by rewrite E4, lookup_insert_eq.
  - intros q r Hq Hsq Hpar. assert (Hne : q <> me) by congruence. rewrite H4 by done.
    assert (Hq2 : procs s2 !! q = Some (zombie_or_free r)).
    { rewrite ended_s2, E1, Hq, decide_True by (done || by apply (in_hEmbryo q r Hq)). cbn. unfold bury.
      by rewrite Hpar, Z.eqb_refl. }
    destruct (Hoth q Hne) as [->|(r0 & n & Hr0 & _ & Hs0 & _)]; [done|].
    unfold zombie_or_free in Hq2. simplify_eq. by destruct (_ =? 0).
  - intros q r Hne Hq Hnd. pose proof (ended_same q r Hne Hq Hnd) as Hq2. rewrite H4 by done.
    destruct (Hoth q Hne) as [->|(r0 & n & Hr0 & Hn0 & Hs0 & Hp0 & ->)]; [exists r; auto|].
    simplify_eq. eexists; split; [done|]. right. by exists n.
  - intros q r' Hq. destruct (decide (q = me)) as [->|Hne]; [by eexists|]. rewrite H4 in Hq by done.
    assert (Hq2 : is_Some (procs s2 !! q)).
    { destruct (Hoth q Hne) as [E|(r0 & n & Hr0 & _)]; [rewrite <-E; by eexists|by eexists]. }
    rewrite ended_s2, E1 in Hq2 by done. by apply fmap_is_Some in Hq2.
  - intros n Hterm Hpp (q & r & Hq & Hsq & Hpq).
    assert (Hqne : q <> me) by (intros ->; congruence).
    destruct (Hnote n Hterm Hpp) as (q' & r' & Hne' & Hq' & Hsq' & Hpq' & Hq3).
    { exists q, r. split_and!; [|done|done]. apply ended_same; [done|done|]. intros [? _]. congruence. }
    exists q', r'. split_and!; [by apply ended_alive|done|done|by rewrite H4].
Qed.
End Ended.

Lemma wp_spmCleanup x me m s :
  ready me s -> procs s !! me = Some m -> os_mutex (os s) = 0 ->
  wp (spmCleanup x) (fun _ s' => ended x me m s s') (fun _ _ => False) s.
Proof.
  intros Hrd Hm Hmx. pose proof Hrd as [HI Hs (m0 & Hm0 & Hst & Hpos) Hb].
  assert (m0 = m) as -> by congruence. unfold spmCleanup.
  apply wp_bind, wp_mutex. rewrite Hmx. apply wp_bind. cbn [Z.eqb]. apply wp_when; [intros _|done].
  apply wp_bind, wp_gethead, wp_bind. cbn [head_of].
  eapply wp_conseq; [apply wp_bury; [done| |]| |done].
  { by apply (Inv_head_nodup [] [] [] s PROCSTATE_EMBRYO). }
  { intros p. by apply head_embryo. }
  intros _ s1 (HI1 & Hs1 & E1).
  assert (Hm1 : procs s1 !! me = Some m).
  { rewrite E1, Hm, decide_False; [done|]. rewrite (in_hEmbryo s HI me m Hm). congruence. }
  apply wp_bind, wp_gets. rewrite Hs1, Hs. apply wp_bind, wp_mod.
  apply wp_bind. eapply wp_updp; [exact Hm1|]. fold (closed m). set (s2 := set_procs _ _).
  assert (HI2 : Inv [] [] [] s2).
  { eapply Inv_same; [by eapply (Inv_upd_plain [] s1 me m (closed m))|done..]. }
  assert (Hm2 : procs s2 !! me = Some (closed m)) by apply lookup_insert_eq.
  apply wp_bind. eapply wp_conseq; [by apply (wp_notify_parent me (closed m))| |done].
  intros _ s3 (HI3 & Hs3 & Hn).
  destruct (notified_lookup me (closed m) s2 s3 Hm2 Hst Hn) as ((r3 & Hm3 & Hc3 & Hst3) & _).
  eapply wp_conseq; [eapply (wp_spmZombieOrFree [] [] [] me r3)| |done]; try done.
  { apply not_elem_of_nil. } { by eapply Inv_pwf. } { by rewrite Hst3. }
  intros _ s4 [HI4 (E4 & _)]. apply wp_mod. by apply (ended_intro x me m r3 s s1 s2 s3 s4).
Qed.

Lemma dropped_refs r :
  0 <= cReferences r -> cReferences (dropped r) = if 0 <? cReferences r then cReferences r - 1 else 0.
Proof. intros Hr. unfold dropped. destruct (Z.ltb_spec 0 (cReferences r)); cbn; lia. Qed.

(** A block that survives the drop of a reference. *)
Lemma zombie_nonfree r :
  nonfree (zombie_or_free r) -> 0 <= cReferences r ->
  enmState (zombie_or_free r) = PROCSTATE_ZOMBIE /\
  cReferences (zombie_or_free r) = cReferences r - 1 /\ 0 <= cReferences r - 1.
Proof.
  intros Hf Hr. unfold zombie_or_free in *. rewrite (dropped_refs r Hr) in *.
  destruct (Z.ltb_spec 0 (cReferences r)); [|done].
  destruct (Z.eqb_spec (cReferences r - 1) 0); [done|]. split; [done|].
  change (cReferences (zombied (dropped r))) with (cReferences (dropped r)).
  rewrite (dropped_refs r Hr), (proj2 (Z.ltb_lt _ _)) by lia. lia.
Qed.

Lemma zombie_state r : 2 <= cReferences r -> enmState (zombie_or_free r) = PROCSTATE_ZOMBIE.
Proof.
  intros Hr. unfold zombie_or_free. rewrite dropped_refs by lia.
  by rewrite (proj2 (Z.ltb_lt _ _)), (proj2 (Z.eqb_neq _ _)) by lia.
Qed.

(** The death of a process, for the table. *)
Lemma ended_exits x me m s s' :
  refs_nonneg (procs s) -> procs s !! me = Some m -> enmState m = PROCSTATE_ALIVE ->
  1 <= cReferences m -> ended x me m s s' -> exits x me (procs s) (procs s').
Proof.
  intros Hnn Hm Hst Hc E.
  destruct (en_me _ _ _ _ _ E) as (r2 & Hr2 & Hc2).
  assert (Hme : forall q r, procs s !! q = Some r -> dies x me q r -> nonfree r ->
            exists r0, procs s' !! q = Some (zombie_or_free r0) /\ cReferences r0 = cReferences r).
  { intros q r Hq [->|[Hs Hp]] Hf; [exists r2; split; [done|congruence]|].
    exists r. split; [|done]. by apply (en_embryo _ _ _ _ _ E). }
  assert (Hother : forall q r, procs s !! q = Some r -> ~ dies x me q r ->
            exists r', procs s' !! q = Some r' /\ keeps 0 r r').
  { intros q r Hq Hnd. destruct (en_other _ _ _ _ _ E q r) as (r' & Hr' & Hk); [|done| |].
    - intros ->. apply Hnd. by left.
    - intros Hd'. apply Hnd. by right.
    - exists r'. split; [done|]. destruct Hk as [->|(n & _ & _ & _ & ->)]; [by apply keeps_proc_refl|by apply keeps0_same]. }
  split.
  - intros q r Hq _. by apply Hother.
  - intros q r Hq Hf Hdi Hr. destruct (Hme q r Hq Hdi Hf) as (r0 & Hr0 & Hc0).
    exists (zombie_or_free r0). split; [done|]. apply zombie_state. lia.
  - intros q r' Hq Hf.    destruct (en_new _ _ _ _ _ E q r' Hq) as [r Hr].
    assert (Hdec : dies x me q r \/ ~ dies x me q r).
    { unfold dies. destruct (decide (q = me)), (decide (enmState r = PROCSTATE_EMBRYO)),
        (decide (pidParent (p_ids r) = x)); tauto. }
    exists r. split; [done|]. destruct Hdec as [Hdi|Hnd].
    + assert (Hfr : nonfree r).
      { destruct Hdi as [->|[Hs _]]; [|congruence]. simplify_eq. congruence. }
      destruct (Hme q r Hr Hdi Hfr) as (r0 & Hr0 & Hc0). simplify_eq.
      specialize (Hnn q r Hr Hfr). destruct (zombie_nonfree r0 Hf ltac:(lia)) as (A & B & C).
      split; [done|]. right. split_and!; [done|done|lia|lia].
    + destruct (Hother q r Hr Hnd) as (r1 & Hr1 & K). simplify_eq.
      rewrite (keeps_nonfree _ _ _ K). split; [done|]. by left.
Qed.
End Moves.
