(* ===== verification/SpmSystem.v ===== *)
(** The process manager as a system: processes that register, call the
    process manager, create children and end, over one shared memory.

    A running process keeps its [gpSPMSelf] and the references it has been
    handed out.  A step is one call of one process, with any answers of the
    operating system; the calls run under the SPM mutex, one at a time. *)

From S2P Require Import Prelude Creds Spm SpmFacts SpmAlloc SpmTable SpmCalls SpmSigs SpmMoves.
#[local] Open Scope Z_scope.

(** ** Calls *)

(** The calls that move no block and hand out no reference. *)
Inductive call :=
  | CTerm (reason code : Z)
  | CQueryChildNotification (x : Z)
  | CValidPGrp (g : Z) (fOnlyChildren : bool)
  | CInheritRequest | CInheritRelease | CInheritFree
  | CExeInited
  | CSigQueue (no : Z) (o : option siginfo) (x : Z) (fQueued : bool)
  | CSigQueuePGrp (no : Z) (o : option siginfo) (g : Z) (fQueued : bool)
      (cb : option (Z -> PROCESS -> Z))
  | CSigPending
  | CSigDequeue (no : Z) (n : nat) (cb : Z)
  | CChangeIds (f : SPMPROCESS -> SPMPROCESS)
  | CEnumPGrp (g : Z) (nice : PROCESS -> Z)
  | CEnumUser (u : Z) (nice : PROCESS -> Z)
  | CSpawnInherit (p cb : Z)
  | CSpawnSetPid (p x : Z)
  | CForkSetHandle (p h : Z)
  | CForkSetPid (p x : Z).

(** The embryos a call works on. *)
Definition call_args (c : call) : list Z :=
  match c with
  | CSpawnInherit p _ | CSpawnSetPid p _ | CForkSetHandle p _ | CForkSetPid p _ => [p]
  | _ => []
  end.

(** What a caller has to see to. *)
Definition call_ok (c : call) : Prop :=
  match c with
  | CSpawnInherit _ cb => 0 <= cb <= 2 ^ 31
  | CChangeIds f => forall i, pid (f i) = pid i /\ pidParent (f i) = pidParent i
  | _ => True
  end.

Section System.
Context {P : Type} `{SpmPoolLaws P}.
Implicit Types (s : spm P) (p : Z) (r m : PROCESS) (i : inst) (I : gmap nat inst).

(** The callback of [getpriority] and [setpriority], which may write the nice
    value of the process. *)
Definition nice_callback (nice : PROCESS -> Z) (p : Z) : M (spm P) Z :=
  _ ← updp p (fun r => set_iNice (nice r) r); mret 0.

Definition run_call (c : call) : M (spm P) unit :=
  match c with
  | CTerm reason code => spmTerm reason code
  | CQueryChildNotification x => _ ← spmQueryChildNotification x; mret ()
  | CValidPGrp g b => _ ← spmValidPGrp g b; mret ()
  | CInheritRequest => _ ← spmInheritRequest; mret ()
  | CInheritRelease => _ ← spmInheritRelease; mret ()
  | CInheritFree => spmInheritFree
  | CExeInited => spmExeInited
  | CSigQueue no o x q => _ ← spmSigQueue no o x q; mret ()
  | CSigQueuePGrp no o g q cb => _ ← spmSigQueuePGrp no o g q cb; mret ()
  | CSigPending => _ ← spmSigPending; mret ()
  | CSigDequeue no n cb => _ ← spmSigDequeue no n cb; mret ()
  | CChangeIds f => spmChangeIds f
  | CEnumPGrp g nice => _ ← spmEnumProcessesByPGrp g (nice_callback nice); mret ()
  | CEnumUser u nice => _ ← spmEnumProcessesByUser u (nice_callback nice); mret ()
  | CSpawnInherit p cb => _ ← spawn_inherit p cb; mret ()
  | CSpawnSetPid p x => spawn_set_pid p x
  | CForkSetHandle p h => fork_set_handle p h
  | CForkSetPid p x => fork_set_pid p x
  end.

(** What a running process can do. *)
Inductive op :=
  | OCall (c : call)
  | OQuery (x : Z) (st : SPMPROCSTAT)
  | OQueryProcess (x : Z)
  | OCreateEmbryo
  | ORelease (p : Z)
  | OForkChild (par : Z)
  | OExit.

Definition run_op i (a : op) : M (spm P) (option Z) :=
  match a with
  | OCall c => _ ← run_call c; mret None
  | OQuery x st => libc_spmQueryProcessInState x st
  | OQueryProcess x => spmQueryProcess x
  | OCreateEmbryo => spmCreateEmbryo (i_pid i)
  | ORelease p => _ ← spmRelease p; mret None
  | OForkChild _ => _ ← spmForkChild1 (i_pid i); mret None
  | OExit => _ ← spmCleanup (i_pid i); mret None
  end.

(** [gpSPMSelf] when the operation starts: the child of a fork has the
    parent's. *)
Definition self_of i (a : op) : Z := match a with OForkChild par => par | _ => i_self i end.

(** When a process that uses the calls as they are meant makes them.  [O] are
    the answers of the operating system. *)
Definition op_ok I i (a : op) (O : osenv) : Prop :=
  match a with
  | OCall c => call_ok c /\ call_args c ⊆ i_holds i
  | OQuery _ st => st = PROCSTATE_ALIVE \/ st = PROCSTATE_ZOMBIE
  | OQueryProcess _ | OCreateEmbryo => True
  | ORelease p => p = i_self i \/ p ∈ i_holds i
  | OForkChild par => os_mutex O = 0 /\ exists k' i', I !! k' = Some i' /\ par = i_self i' /\ par <> i_self i
  | OExit => os_mutex O = 0
  end.

(** A process can register without [gpSPMSelf] when it finds its embryo, or
    when low memory cannot lead the process manager to the inherit data of
    others. *)
Definition register_ok (ppid : Z) s : Prop :=
  alloc_ok s \/ (exists p, p ∈ hEmbryo (apHeads s) /\ child_of s ppid p = true).

(** The references the process has after a call that returned [o]. *)
Fixpoint remove_one (p : Z) (l : list Z) : list Z :=
  match l with
  | [] => []
  | q :: l => if decide (q = p) then l else q :: remove_one p l
  end.

Definition with_holds (l : list Z) i : inst := mk_inst (i_pid i) (i_self i) l.

Definition after_op (a : op) (o : option Z) (k : nat) i I : gmap nat inst :=
  match a with
  | OQuery _ _ | OQueryProcess _ | OCreateEmbryo =>
      match o with
      | Some p => if decide (p = i_self i) then I else <[k := with_holds (p :: i_holds i) i]> I
      | None => I
      end
  | ORelease p =>
      if decide (p = i_self i) then I else <[k := with_holds (remove_one p (i_holds i)) i]> I
  | OExit => delete k I
  | _ => I
  end.

(** ** Steps *)

Definition sys : Type := spm P * gmap nat inst.

(** The shared memory as a process sees it, and back. *)
Definition enter (self : option Z) (O : osenv) s : spm P := set_os O (set_gpSPMSelf self s).
Definition leave s : spm P := set_gpSPMSelf None s.

(** No zombie had to give up its block for the new one. *)
Definition no_steal (o : option Z) s : Prop := forall p, o = Some p -> p ∉ hZombie (apHeads s).

Inductive step : sys -> sys -> Prop :=
  | step_done s I k i a O o s' :
      I !! k = Some i -> op_ok I i a O ->
      run_op i a (enter (Some (self_of i a)) O s) = Done o s' ->
      (a = OCreateEmbryo -> no_steal o s) ->
      step (s, I) (leave s', after_op a o k i I)
  | step_err s I k i a O e s' :
      I !! k = Some i -> op_ok I i a O ->
      run_op i a (enter (Some (self_of i a)) O s) = Err e s' ->
      step (s, I) (leave s', I)
  | step_register s I k x ppid sid O s' :
      I !! k = None -> 0 < x -> (forall k' i, I !! k' = Some i -> i_pid i <> x) ->
      register_ok ppid (enter None O s) ->
      spmInitRegister x ppid sid (enter None O s) = Done () s' -> no_steal (gpSPMSelf s') s ->
      step (s, I) (leave s', match gpSPMSelf s' with
                             | Some p => <[k := mk_inst x p []]> I
                             | None => I
                             end).

(** ** The invariant *)

Definition SInv (n : Z) (w : sys) : Prop := Inv [] [] [] w.1 /\ TInv n (procs w.1) w.2.

Lemma Inv_enter self O s : Inv [] [] [] s -> Inv [] [] [] (enter self O s).
Proof. intros HI. by eapply Inv_same. Qed.
Lemma Inv_leave s : Inv [] [] [] s -> Inv [] [] [] (leave s).
Proof. intros HI. by eapply Inv_same. Qed.

Lemma TInv_le n n' t I : n <= n' -> TInv n t I -> TInv n' t I.
Proof.
  intros Hn HT. split; try apply HT. intros p r Hp Hf. pose proof (t_refs _ _ _ HT p r Hp Hf). lia.
Qed.

Lemma TInv_bound n t I b : TInv n t I -> n < b -> refs_below b t.
Proof.
  intros HT Hn p r Hp Hf. pose proof (t_refs _ _ _ HT p r Hp Hf). pose proof (cnt_nonneg p (refs I)). lia.
Qed.

Lemma ready_enter n s I k i O :
  SInv n (s, I) -> n < 2 ^ 32 - 5 -> I !! k = Some i -> roomy (i_self i) (enter (Some (i_self i)) O s).
Proof.
  intros [HI HT] Hn Hk. cbn in HI, HT. destruct (t_self _ _ _ HT k i Hk) as (Hpos & m & Hm & Hst & Hp).
  split; [split|].
  - by apply Inv_enter.
  - done.
  - exists m. split_and!; [done|done|congruence].
  - eapply TInv_bound; [exact HT|lia].
  - eapply TInv_bound; [exact HT|lia].
Qed.

(** A block a call may be given. *)
Definition arg_ok s p : Prop :=
  exists r, procs s !! p = Some r /\ live r /\ (enmState r = PROCSTATE_ALIVE -> 0 < pid_of r).

Lemma wp_drop {A} (m : M (spm P) A) T s :
  is_calm 0 T m s -> is_calm 0 T (_ ← m; mret ()) s.
Proof. intros Hm. apply wp_bind. eapply wp_conseq; [exact Hm| |done]. intros a s' C. by apply wp_ret. Qed.

Lemma wp_then_calm {A} (m : M (spm P) A) T (R : A -> spm P -> Prop) s :
  wp m (fun a s' => calm 0 T s s' /\ R a s') (fun _ _ => False) s -> is_calm 0 T m s.
Proof. intros Hm. eapply wp_conseq; [exact Hm| |done]. by intros a s' [? _]. Qed.

Lemma calm_nice_callback T nice p s :
  Inv [] [] [] s -> is_Some (procs s !! p) ->
  wp (nice_callback nice p) (fun _ s' => calm 0 T s s') (fun _ _ => False) s.
Proof.
  intros HI [r Hr]. unfold nice_callback. apply wp_bind. eapply wp_updp; [exact Hr|]. apply wp_ret.
  eapply calm_upd_plain; [exact HI|exact Hr|done|by split_and!|by apply keeps0_same].
Qed.

(** The two enumerations, once they have the mutex. *)
Lemma calm_enum me nice f rc s :
  roomy me s ->
  wp (l ← gethead PROCSTATE_ALIVE; enum_procs f (nice_callback nice) l rc)
     (fun _ s' => calm 0 [] s s') (fun _ s' => calm 0 [] s s') s.
Proof.
  intros Hro. pose proof (rd_inv _ _ (ro_ready _ _ Hro)) as HI. apply wp_bind, wp_gethead.
  eapply wp_conseq; [apply (wp_enum_procs me []); [done|..]| |done].
  - intros p Hp. by eapply Inv_head_Some.
  - intros p s' Hrd Hp. apply calm_nice_callback; [apply Hrd|done].
  - intros p r Hp Hr. destruct (inv_in _ _ _ _ HI PROCSTATE_ALIVE p Hp) as (? & ? & ?). congruence.
  - done.
Qed.

Lemma wp_run_call c me s :
  roomy me s -> (forall p, p ∈ call_args c -> arg_ok s p) -> call_ok c ->
  exists T, is_calm 0 T (run_call c) s.
Proof.
  intros Hro Harg Hok. pose proof (ro_ready _ _ Hro) as Hrd.
  destruct (rd_me _ _ Hrd) as (m & Hm & Hst & Hpos). pose proof (rd_inv _ _ Hrd) as HI.
  assert (Href : forall T, calm 0 T s s) by (intros; by apply calm_refl).
  destruct c; cbn [run_call call_args call_ok] in *.
  - exists [me]. by eapply wp_then_calm, wp_spmTerm.
  - exists [me]. by eapply wp_drop, wp_then_calm, wp_spmQueryChildNotification.
  - exists []. by eapply wp_drop, calm_spmValidPGrp.
  - exists []. by eapply wp_drop, calm_spmInheritRequest.
  - exists []. by eapply wp_drop, calm_spmInheritRelease.
  - exists []. by eapply calm_spmInheritFree.
  - exists []. by eapply calm_spmExeInited.
  - exists (hAlive (apHeads s)). apply wp_drop. eapply wp_conseq; [by apply wp_spmSigQueue| |done].
    intros rc s' Hq. destruct (negb _); [by destruct Hq as [_ ->]|].
    destruct (negb _); [by destruct Hq as [_ ->]|].
    destruct Hq as [(_ & -> & _)|(p & r & Hp & Hsp & _ & [(_ & -> & _)|(_ & [C _] & _)])]; [done|done|].
    eapply calm_weaken; [exact C|]. intros q ->%list_elem_of_singleton.
    destruct (inv_dom _ _ _ _ HI p r Hp) as [[]%elem_of_nil|Hin]. by rewrite Hsp in Hin.
  - exists (hAlive (apHeads s)). apply wp_drop. eapply wp_conseq; [by apply wp_spmSigQueuePGrp| |done].
    intros rc s' Hq. destruct (negb _); [by destruct Hq as [_ ->]|].
    destruct (negb _); [by destruct Hq as [_ ->]|].
    destruct Hq as (R & E & ([C _] & _) & _). eapply calm_weaken; [exact C|].
    by intros q [_ Hq]%list_elem_of_filter.
  - exists []. apply wp_drop. eapply wp_conseq; [by eapply wp_spmSigPending| |done].
    by intros rc s' [-> _].
  - exists [me]. apply wp_drop. eapply wp_conseq; [by eapply wp_spmSigDequeue| |done].
    intros rc s' Hq. destruct (_ <? _); [by destruct Hq as [_ ->]|].
    destruct (negb _); [by destruct Hq as [_ ->]|]. by destruct Hq as ([C _] & _).
  - exists []. by eapply calm_spmChangeIds.
  - exists []. apply wp_drop. unfold spmEnumProcessesByPGrp, is_calm. destruct (g <? 0); [by apply Href|].
    apply wp_bind, wp_mutex. destruct (negb _); [by apply Href|]. apply wp_bind.
    destruct (g =? 0); [apply wp_bind; eapply wp_getself; [apply Hrd|done|]|]; apply wp_ret; by eapply calm_enum.
  - exists []. apply wp_drop. unfold spmEnumProcessesByUser, is_calm.
    apply wp_bind, wp_mutex. destruct (negb _); [by apply Href|]. by eapply calm_enum.
  - exists []. destruct (Harg p) as (r & Hr & Hl & _); [by left|]. by eapply wp_drop, calm_spawn_inherit.
  - exists []. destruct (Harg p) as (r & Hr & Hl & Hp); [by left|]. by eapply calm_spawn_set_pid.
  - exists []. destruct (Harg p) as (r & Hr & Hl & Hp); [by left|]. by eapply calm_fork_set_handle.
  - exists []. destruct (Harg p) as (r & Hr & Hl & Hp); [by left|]. by eapply calm_spawn_set_pid.
Qed.

(** ** Every operation keeps the invariant and does not fault *)

Section Ops.
Context (n : Z) (s : spm P) (I : gmap nat inst) (k : nat) (i : inst) (O : osenv).
Context (HS : SInv n (s, I)) (Hn : 0 <= n < 2 ^ 32 - 5) (Hk : I !! k = Some i).

Lemma SInv_calm self d T s' : calm d T (enter self O s) s' -> 0 <= d <= 3 -> SInv (n + 3) (leave s', I).
Proof.
  intros (HI' & Q & _) Hd. split; [by apply Inv_leave|].
  apply (TInv_le (n + d)); [lia|]. destruct HS as [_ HT].
  apply (TInv_quiet n (procs s) I HT d); [lia|exact Q].
Qed.

Lemma self_pid p r : procs s !! p = Some r -> enmState r = PROCSTATE_ALIVE -> 0 < pid_of r.
Proof.
  intros Hp Hs. destruct HS as [_ HT]. destruct (t_alive _ _ _ HT p r Hp Hs) as (k' & i' & Hk' & <-).
  destruct (t_self _ _ _ HT k' i' Hk') as (Hpos & r' & Hr' & _ & E). cbn in *. simplify_eq. congruence.
Qed.

Lemma op_call c :
  op_ok I i (OCall c) O ->
  wp (run_op i (OCall c)) (fun o s' => SInv (n + 3) (leave s', I))
     (fun _ s' => SInv (n + 3) (leave s', I)) (enter (Some (i_self i)) O s).
Proof.
  intros [Hok Harg]. pose proof (ready_enter n s I k i O HS ltac:(lia) Hk) as Hro.
  destruct (wp_run_call c (i_self i) _ Hro) as [T Hc]; [|done|].
  { intros p Hp. destruct HS as [_ HT].
    destruct (TInv_live n _ I HT p) as (r & Hr & Hl & _); [by eapply TInv_hold_ref, Harg|].
    exists r. split_and!; [done|done|]. by eapply self_pid. }
  cbn [run_op]. apply wp_bind. eapply wp_conseq; [exact Hc|..].
  - intros ? s' C. apply wp_ret. eapply SInv_calm; [exact C|lia].
  - intros ? s' C. eapply SInv_calm; [exact C|lia].
Qed.

Lemma op_query x st :
  op_ok I i (OQuery x st) O ->
  wp (run_op i (OQuery x st)) (fun o s' => SInv (n + 3) (leave s', after_op (OQuery x st) o k i I))
     (fun _ s' => SInv (n + 3) (leave s', I)) (enter (Some (i_self i)) O s).
Proof.
  intros Hst. pose proof (ready_enter n s I k i O HS ltac:(lia) Hk) as [Hrd _]. cbn in Hst.
  cbn [run_op]. eapply wp_conseq; [apply (wp_libc_spmQueryProcessInState _ _ _ _ Hrd)|..].
  - by destruct Hst as [->| ->].
  - intros o s' [C Ho]. cbn [after_op]. destruct o as [p|]; [|eapply SInv_calm; [exact C|lia]].
    destruct Ho as [[= ->]|[Hne (r & r' & Hr & Hs & _ & Hr' & Hs' & Hc)]].
    { rewrite decide_True by done. eapply SInv_calm; [exact C|lia]. }
    rewrite decide_False by congruence. destruct C as (HI' & Q & _). split; [by apply Inv_leave|].
    apply (TInv_le (n + 1)); [lia|]. destruct HS as [_ HT].
    eapply (TInv_hold n _ I HT 1 (procs s') k i p r r'); try done; [|lia|].
    + by destruct Hst as [->| ->]; rewrite Hs'.
    + by destruct Hst as [->| ->]; rewrite Hs'.
  - intros e s' C. eapply SInv_calm; [exact C|lia].
Qed.

Lemma op_query_process x :
  wp (run_op i (OQueryProcess x)) (fun o s' => SInv (n + 3) (leave s', after_op (OQueryProcess x) o k i I))
     (fun _ s' => SInv (n + 3) (leave s', I)) (enter (Some (i_self i)) O s).
Proof.
  pose proof (ready_enter n s I k i O HS ltac:(lia) Hk) as [Hrd _].
  cbn [run_op]. eapply wp_conseq; [apply (wp_spmQueryProcess _ _ _ Hrd)|..].
  - intros o s' [C [->| ->]]; cbn [after_op]; [rewrite decide_True by done|]; (eapply SInv_calm; [exact C|lia]).
  - intros e s' C. eapply SInv_calm; [exact C|lia].
Qed.

Lemma op_create_embryo :
  wp (run_op i OCreateEmbryo)
     (fun o s' => no_steal o s -> SInv (n + 3) (leave s', after_op OCreateEmbryo o k i I))
     (fun _ s' => SInv (n + 3) (leave s', I)) (enter (Some (i_self i)) O s).
Proof.
  pose proof (ready_enter n s I k i O HS ltac:(lia) Hk) as [Hrd _].
  destruct (rd_me _ _ Hrd) as (m & Hm & Hst & _). pose proof (rd_inv _ _ Hrd) as HI.
  cbn [run_op]. eapply wp_conseq; [apply (wp_spmCreateEmbryo _ _ _ (i_pid i) Hrd Hm)|..].
  - intros o s' (m1 & [HI' Ho] & _) Hsteal. cbn [after_op]. destruct o as [p|].
    + destruct Ho as (HF & Hfr & Hna & r' & Hr' & Hst' & Hc & Hid & _).
      assert (Hnl : forall r, procs s !! p = Some r -> ~ live r).
      { destruct Hfr as [Hz|Hnl]; [by destruct (Hsteal p)|done]. }
      rewrite decide_False.
      2: { intros ->. by apply (Hna m Hm). }
      split; [by apply Inv_leave|]. apply (TInv_le (n + 1)); [lia|]. destruct HS as [_ HT].
      eapply (TInv_new_embryo n (procs s) (delete p (procs s')) (procs s') I p HT ltac:(lia)); try done.
      * by apply (frame_off_quiet _ _ _ HI HF).
      * intros q Hne. by rewrite lookup_delete_ne.
      * by rewrite Hid.
    + eapply (SInv_calm _ 0 []); [|lia].
      split_and!; [done|by eapply frame_quiet|apply Ho|by eapply frame_mail].
  - intros e s' ->. eapply (SInv_calm _ 0 []); [by apply calm_refl|lia].
Qed.

Lemma remove_one_perm p l : p ∈ l -> l ≡ₚ p :: remove_one p l.
Proof.
  induction l as [|q l IH]; [by intros []%elem_of_nil|]. cbn.
  destruct (decide (q = p)) as [->|Hne]; [done|]. intros [?|Hp]%elem_of_cons; [done|].
  rewrite (IH Hp) at 1. by constructor.
Qed.

Lemma op_release p :
  op_ok I i (ORelease p) O ->
  wp (run_op i (ORelease p)) (fun o s' => SInv (n + 3) (leave s', after_op (ORelease p) o k i I))
     (fun _ s' => SInv (n + 3) (leave s', I)) (enter (Some (i_self i)) O s).
Proof.
  intros Hp. pose proof (ready_enter n s I k i O HS ltac:(lia) Hk) as [Hrd _].
  pose proof (rd_inv _ _ Hrd) as HI. cbn [run_op after_op]. cbn in Hp.
  assert (Hsame : SInv (n + 3) (leave (enter (Some (i_self i)) O s), I)).
  { eapply (SInv_calm _ 0 []); [by apply calm_refl|lia]. }
  destruct (decide (p = i_self i)) as [->|Hne].
  { apply wp_bind. unfold spmRelease. apply wp_bind, wp_gets. cbn [gpSPMSelf enter set_os set_gpSPMSelf].
    rewrite bool_decide_eq_true_2 by done. by apply wp_ret, wp_ret. }
  destruct Hp as [?|Hp]; [done|]. destruct HS as [HI0 HT]. cbn in HT.
  destruct (TInv_live n _ I HT p) as (r & Hr & Hl & Hc); [by eapply TInv_hold_ref|].
  apply wp_bind. eapply wp_conseq; [apply (wp_spmRelease _ _ _ r Hrd); try done; by apply live_nonfree|..].
  - intros _ s' (HI' & _ & r' & E & Hrel). apply wp_ret. split; [by apply Inv_leave|].
    apply (TInv_le n); [lia|]. cbn [procs leave set_gpSPMSelf fst snd]. rewrite E.
    eapply (TInv_release n _ I k i p); [done|done|by apply remove_one_perm|exact Hr|].
    destruct Hrel as [?|(? & ? & ? & _)]; [by left|right; by split_and!].
  - by intros e s' ->.
Qed.

Lemma op_fork_child par :
  op_ok I i (OForkChild par) O ->
  wp (run_op i (OForkChild par)) (fun o s' => SInv (n + 3) (leave s', I))
     (fun _ _ => False) (enter (Some par) O s).
Proof.
  intros (Hmx & k' & i' & Hk' & -> & Hne). destruct HS as [_ HT]. cbn in HT.
  pose proof (ready_enter n s I k' i' O HS ltac:(lia) Hk') as [Hrd _].
  destruct (t_self _ _ _ HT k i Hk) as (Hpos & r & Hr & Hst & Hp).
  cbn [run_op]. apply wp_bind.
  eapply wp_conseq; [apply (wp_spmForkChild1 _ _ (i_self i) r (i_pid i) Hrd); try done| |done].
  - intros q rq Hq Hsq Hpq. destruct (t_alive _ _ _ HT q rq Hq Hsq) as (k1 & i1 & Hk1 & <-).
    destruct (t_self _ _ _ HT k1 i1 Hk1) as (_ & r1 & Hr1 & _ & E1).
    assert (k1 = k) as ->.
    { eapply (t_pids _ _ _ HT); [done|done|]. cbn in *. congruence. }
    congruence.
  - intros _ s' (_ & HI' & Q & M & _). apply wp_ret. split; [by apply Inv_leave|].
    apply (TInv_le (n + 0)); [lia|]. by apply (TInv_quiet n (procs s) I HT 0).
Qed.

(** The table after the death of a process. *)
Lemma ended_SInv m s' :
  procs s !! i_self i = Some m ->
  ended (i_pid i) (i_self i) m (enter (Some (i_self i)) O s) s' -> SInv (n + 3) (leave s', delete k I).
Proof.
  intros Hm E. destruct HS as [_ HT]. cbn in HT.
  destruct (t_self _ _ _ HT k i Hk) as (_ & m' & Hm' & Hst & _). simplify_eq.
  split; [eapply Inv_leave, E|]. apply (TInv_le n); [lia|].
  eapply TInv_exit; [exact HT|done|]. cbn. eapply ended_exits in E; [exact E|..]; try done.
  - by eapply TInv_nonneg.
  - destruct (TInv_live n _ I HT (i_self i)) as (r & Hr & _ & Hc); [by eapply TInv_self_ref|]. by simplify_eq.
Qed.

Lemma op_exit :
  os_mutex O = 0 ->
  wp (run_op i OExit) (fun o s' => SInv (n + 3) (leave s', delete k I))
     (fun _ _ => False) (enter (Some (i_self i)) O s).
Proof.
  intros Hmx. pose proof (ready_enter n s I k i O HS ltac:(lia) Hk) as [Hrd _].
  destruct (rd_me _ _ Hrd) as (m & Hm & Hst & _). cbn [run_op]. apply wp_bind.
  eapply wp_conseq; [apply (wp_spmCleanup (i_pid i) _ m _ Hrd Hm); done| |done].
  intros ? s' E. apply wp_ret. by eapply ended_SInv.
Qed.
End Ops.

Section Registering.
Context (n : Z) (s : spm P) (I : gmap nat inst) (k : nat) (x ppid sid : Z) (O : osenv).
Context (HS : SInv n (s, I)) (Hn : 0 <= n < 2 ^ 32 - 5) (Hk : I !! k = None) (Hx : 0 < x).
Context (Hpid : forall k' i, I !! k' = Some i -> i_pid i <> x).

Lemma register_new_pid p r : procs s !! p = Some r -> enmState r = PROCSTATE_ALIVE -> pid_of r <> x.
Proof.
  intros Hp Hs E. destruct HS as [_ HT]. destruct (t_alive _ _ _ HT p r Hp Hs) as (k' & i & Hk' & <-).
  destruct (t_self _ _ _ HT k' i Hk') as (_ & r' & Hr' & _ & E'). cbn in Hr'. apply (Hpid k' i Hk'). congruence.
Qed.

(** The two ways to get a block. *)
Lemma registered_table o s1 s' r p :
  registered x ppid sid (enter None O s) o s1 -> o = Some p -> procs s1 !! p = Some r ->
  procs s' = <[p := opened r]> (procs s1) -> no_steal (Some p) s ->
  TInv (n + 1) (procs s') (<[k := mk_inst x p []]> I).
Proof.
  intros (HI1 & _ & Hreg) -> Hr E Hsteal. destruct HS as [HI HT]. cbn in HI, HT.
  destruct (embryo_for _ _ _ _ _).
  - destruct Hreg as (r0 & [= <-] & Hr0 & Hst & Hpar & E1). rewrite E1 in Hr, E.
    rewrite lookup_insert_eq in Hr. injection Hr as <-. rewrite insert_insert_eq in E. rewrite E.
    by eapply TInv_register_embryo.
  - destruct Hreg as (Hfr & Hna & HF & r0 & Hr0 & Hst & Hc & Hid & _). simplify_eq.
    assert (Hnl : forall r, procs s !! p = Some r -> ~ live r).
    { destruct Hfr as [Hz|Hnl]; [by destruct (Hsteal p)|done]. }
    eapply (TInv_register_new n (procs s) (delete p (procs s')) _ I k x p (opened r0)); try done; [lia|..].
    + pose proof (frame_off_quiet _ _ _ (Inv_enter None O s HI) HF Hnl) as Q.
      rewrite E, delete_insert_eq. exact Q.
    + intros q Hne. by rewrite lookup_delete_ne.
    + rewrite E. by rewrite lookup_insert_eq.
    + unfold pid_of. cbn. by rewrite Hid.
Qed.

Lemma op_register :
  register_ok ppid (enter None O s) ->
  wp (spmInitRegister x ppid sid)
     (fun _ s' => no_steal (gpSPMSelf s') s ->
        SInv (n + 3) (leave s', match gpSPMSelf s' with
                                | Some p => <[k := mk_inst x p []]> I
                                | None => I
                                end)) (fun _ _ => False) (enter None O s).
Proof.
  intros Hok. pose proof HS as [HI HT]. cbn in HI, HT. pose proof (Inv_enter None O s HI) as HIe.
  eapply wp_conseq; [apply wp_spmInitRegister; try done| |done].
  - eapply TInv_bound; [exact HT|lia].
  - apply register_new_pid.
  - intros ? s' (o & s1 & Hreg & Ho) Hsteal. pose proof Hreg as (HI1 & Hs1 & Hm). destruct o as [p|].
    + destruct Ho as (r & Hr & HI' & Hs' & E). rewrite Hs' in *. split; [by apply Inv_leave|].
      apply (TInv_le (n + 1)); [lia|]. by eapply registered_table.
    + subst s'. rewrite Hs1. destruct (embryo_for _ _ _ _ _); [by destruct Hm as (? & ? & _)|].
      eapply (SInv_calm n s I O HS None 0 []); [|lia].
      split_and!; [done|by eapply frame_quiet|apply Hm|by eapply frame_mail].
Qed.
End Registering.

(** ** The system is safe *)

Inductive steps : nat -> sys -> sys -> Prop :=
  | steps_0 w : steps 0 w w
  | steps_S N w1 w2 w3 : steps N w1 w2 -> step w2 w3 -> steps (S N) w1 w3.

(** An operation some process can start. *)
Definition enabled (w : sys) (k : nat) i (a : op) (O : osenv) : Prop :=
  w.2 !! k = Some i /\ op_ok w.2 i a O.

Lemma wp_op n s I k i a O :
  SInv n (s, I) -> 0 <= n < 2 ^ 32 - 5 -> I !! k = Some i -> op_ok I i a O ->
  wp (run_op i a)
     (fun o s' => (a = OCreateEmbryo -> no_steal o s) -> SInv (n + 3) (leave s', after_op a o k i I))
     (fun _ s' => SInv (n + 3) (leave s', I)) (enter (Some (self_of i a)) O s).
Proof.
  intros HS Hn Hk Hok. destruct a as [c|x st|x| |p|par|]; cbn [self_of].
  - eapply wp_conseq; [by apply (op_call n s I k)| |done]. by intros ? s' ? _.
  - eapply wp_conseq; [by apply (op_query n)| |done]. by intros ? s' ? _.
  - eapply wp_conseq; [by apply (op_query_process n)| |done]. by intros ? s' ? _.
  - eapply wp_conseq; [by apply (op_create_embryo n)| |done]. intros ? s' Hs Hst. by apply Hs, Hst.
  - eapply wp_conseq; [by apply (op_release n)| |done]. by intros ? s' ? _.
  - eapply wp_conseq; [by apply (op_fork_child n s I k)| |done]. by intros ? s' ? _.
  - eapply wp_conseq; [by apply (op_exit n s I k)| |done]. by intros ? s' ? _.
Qed.

Lemma step_SInv n w w' : SInv n w -> 0 <= n < 2 ^ 32 - 5 -> step w w' -> SInv (n + 3) w'.
Proof.
  intros HS Hn Hstep.
  destruct Hstep as [s I k i a O o s' Hk Hok Hrun Hst|s I k i a O e s' Hk Hok Hrun
                    |s I k x ppid sid O s' Hk Hx Hpid Hok Hrun Hst].
  - pose proof (wp_op n s I k i a O HS Hn Hk Hok) as Hw. unfold wp in Hw. rewrite Hrun in Hw. by apply Hw.
  - pose proof (wp_op n s I k i a O HS Hn Hk Hok) as Hw. unfold wp in Hw. by rewrite Hrun in Hw.
  - pose proof (op_register n s I k x ppid sid O HS Hn Hk Hx Hpid Hok) as Hw.
    unfold wp in Hw. rewrite Hrun in Hw. by apply Hw.
Qed.

Lemma steps_SInv n N w w' :
  SInv n w -> 0 <= n -> n + 3 * Z.of_nat N < 2 ^ 32 - 5 -> steps N w w' -> SInv (n + 3 * Z.of_nat N) w'.
Proof.
  intros HS Hn Hb Hst. revert HS. induction Hst as [|N w1 w2 w3 _ IH Hstep]; intros HS.
  { by rewrite Z.mul_0_r, Z.add_0_r. }
  replace (n + 3 * Z.of_nat (S N)) with (n + 3 * Z.of_nat N + 3) by lia.
  eapply step_SInv; [apply IH; [lia|done]|lia|done].
Qed.
End System.
