(* ===== verification/SpmPool.v ===== *)
(** The memory pool of the process manager: [spmAllocSub] and [spmFree] of
    [src/src/emx/src/lib/sys/sharedpm.c], and that they keep what [SpmPool]
    asks of them.

    The pool is cut into chunks of an 8 byte header and a block.  The chunks
    are in a list in the order of their addresses; the free ones are in a list
    of their own, with the size of their block, whose last element
    [pPoolFreeTail] points to.  Both lists are doubly linked in the code: here
    they are lists of addresses, a neighbour of a chunk is its neighbour in the
    list, and a pointer to the tail that is not in the list is [Ub] when it is
    followed.  [pPoolTail] is not represented: nothing reads it. *)

From S2P Require Import Prelude Creds Spm.
#[local] Open Scope Z_scope.

Record spmpool := mk_spmpool {
  hdr : Z;
  cb : Z;
  pPoolHead : list Z;
  pPoolFreeHead : list (Z * Z);
  pPoolFreeTail : option Z;
  cbFree : Z
}.

Definition set_pPoolHead (x : list Z) (s : spmpool) : spmpool :=
  mk_spmpool (hdr s) (cb s) x (pPoolFreeHead s) (pPoolFreeTail s) (cbFree s).
Definition set_pPoolFreeHead (x : list (Z * Z)) (s : spmpool) : spmpool :=
  mk_spmpool (hdr s) (cb s) (pPoolHead s) x (pPoolFreeTail s) (cbFree s).
Definition set_pPoolFreeTail (x : option Z) (s : spmpool) : spmpool :=
  mk_spmpool (hdr s) (cb s) (pPoolHead s) (pPoolFreeHead s) x (cbFree s).
Definition set_cbFree (x : Z) (s : spmpool) : spmpool :=
  mk_spmpool (hdr s) (cb s) (pPoolHead s) (pPoolFreeHead s) (pPoolFreeTail s) x.

Definition sizeof_POOLCHUNK : Z := 8.
Definition sizeof_POOLCHUNKFREE : Z := 20.

(** [core.pNext] and [core.pPrev]. *)
Fixpoint next_of (a : Z) (l : list Z) : option Z :=
  match l with
  | [] => None
  | x :: l => if x =? a then head l else next_of a l
  end.
Fixpoint prev_of (a : Z) (l : list Z) : option Z :=
  match l with
  | x :: ((y :: _) as l) => if y =? a then Some x else prev_of a l
  | _ => None
  end.
Fixpoint insert_after (a b : Z) (l : list Z) : list Z :=
  match l with
  | [] => []
  | x :: l => if x =? a then x :: b :: l else x :: insert_after a b l
  end.
Fixpoint remove_chunk (a : Z) (l : list Z) : list Z :=
  match l with
  | [] => []
  | x :: l => if x =? a then l else x :: remove_chunk a l
  end.

(** From the element [i] of the free list backwards, the first that satisfies
    [f]. *)
Fixpoint walk_back (f : Z * Z -> bool) (l : list (Z * Z)) (i : nat) : option nat :=
  match l !! i with
  | None => None
  | Some e => if f e then Some i else match i with O => None | S i => walk_back f l i end
  end.

(** [for (p = pPoolFreeTail; p; p = p->pPrev)] *)
Definition from_tail (f : Z * Z -> bool) : M spmpool (option nat) :=
  s ← mget;
  match pPoolFreeTail s with
  | None => mret None
  | Some t =>
      match list_find (fun e => e.1 = t) (pPoolFreeHead s) with
      | Some (i, _) => mret (walk_back f (pPoolFreeHead s) i)
      | None => mfail Ub
      end
  end.

(** [pPoolFreeTail = ..], when the chunk at [i] of the list [l] has no
    successor. *)
Definition fix_tail (i : nat) (l : list (Z * Z)) (t : option Z) : option Z :=
  match l !! S i with
  | Some _ => t
  | None => fst <$> l !! i
  end.

(** A free chunk leaves the free list as a whole. *)
Definition take_chunk (i : nat) (e : Z * Z) : M spmpool (option Z) :=
  s ← mget;
  let l := pPoolFreeHead s in
  _ ← mput (set_cbFree (u32 (cbFree s - e.2))
       (set_pPoolFreeTail (match l !! S i with
                           | Some _ => pPoolFreeTail s
                           | None => match i with O => None | S j => fst <$> l !! j end
                           end)
       (set_pPoolFreeHead (delete i l) s)));
  mret (Some (e.1 + sizeof_POOLCHUNK)).

Definition can_split (c cbSize : Z) : bool :=
  u32 (cbSize + SPM_POOL_ALIGN sizeof_POOLCHUNKFREE) <=? c.

(** All but process sized blocks: the first free chunk that is large enough,
    whose end stays free. *)
Definition alloc_head (cbSize : Z) : M spmpool (option Z) :=
  s ← mget;
  let l := pPoolFreeHead s in
  match list_find (fun e => cbSize <= e.2) l with
  | None => mret None
  | Some (i, (f, c)) =>
      if can_split c cbSize then
        let pNew := f + sizeof_POOLCHUNK + cbSize in
        let l' := <[i := (pNew, c - (pNew - f))]> l in
        _ ← mput (set_cbFree (u32 (cbFree s - (cbSize + sizeof_POOLCHUNK)))
             (set_pPoolFreeTail (fix_tail i l' (pPoolFreeTail s))
             (set_pPoolFreeHead l' (set_pPoolHead (insert_after f pNew (pPoolHead s)) s))));
        mret (Some (f + sizeof_POOLCHUNK))
      else take_chunk i (f, c)
  end.

(** Process sized blocks: the last free chunk that is large enough, whose
    beginning stays free. *)
Definition alloc_tail (cbSize : Z) : M spmpool (option Z) :=
  o ← from_tail (fun e => cbSize <=? e.2);
  s ← mget;
  let l := pPoolFreeHead s in
  match o with
  | None => mret None
  | Some i =>
      '(f, c) ← deref (l !! i);
      if can_split c cbSize then
        let c' := c - (cbSize + sizeof_POOLCHUNK) in
        let pNew := f + c' + sizeof_POOLCHUNK in
        _ ← mput (set_cbFree (u32 (cbFree s - (cbSize + sizeof_POOLCHUNK)))
             (set_pPoolFreeHead (<[i := (f, c')]> l)
             (set_pPoolHead (insert_after f pNew (pPoolHead s)) s)));
        mret (Some (pNew + sizeof_POOLCHUNK))
      else take_chunk i (f, c)
  end.

Definition pool_spmAllocSub (cbSize : Z) : M spmpool (option Z) :=
  if negb (cbSize =? SPM_PROCESS_SIZE) then alloc_head cbSize else alloc_tail cbSize.

(** [SPM_VALID_PTR] *)
Definition SPM_VALID_PTR (ptr : Z) (s : spmpool) : bool := u32 (ptr - hdr s) <? cb s.

(** The chunk [f] joins the free list, after the free chunk at [o]: merged with
    it, or as an element of its own.  The result is its index; its size is
    calculated later. *)
Definition free_insert (f : Z) (o : option nat) : M spmpool nat :=
  s ← mget;
  let l := pPoolFreeHead s in
  match o with
  | None =>
      _ ← mput (set_pPoolFreeHead ((f, 0) :: l) s);
      mret 0%nat
  | Some i =>
      '(a, c) ← deref (l !! i);
      if bool_decide (prev_of f (pPoolHead s) = Some a) then
        _ ← mput (set_cbFree (u32 (cbFree s - c))
                   (set_pPoolHead (remove_chunk f (pPoolHead s)) s));
        mret i
      else
        let l' := take (S i) l ++ (f, 0) :: drop (S i) l in
        _ ← mput (set_pPoolFreeTail (fix_tail (S i) l' (pPoolFreeTail s))
                   (set_pPoolFreeHead l' s));
        mret (S i)
  end.

(** The free chunk at [i] swallows its right neighbour, if that is free. *)
Definition free_merge (i : nat) : M spmpool unit :=
  s ← mget;
  let l := pPoolFreeHead s in
  '(f, _) ← deref (l !! i);
  match l !! S i with
  | Some (r, c) =>
      if bool_decide (next_of f (pPoolHead s) = Some r) then
        let l' := delete (S i) l in
        mput (set_cbFree (u32 (cbFree s - c))
               (set_pPoolFreeTail (fix_tail i l' (pPoolFreeTail s))
               (set_pPoolFreeHead l' (set_pPoolHead (remove_chunk r (pPoolHead s)) s))))
      else mret ()
  | None => mret ()
  end.

Definition chunk_end (s : spmpool) (f : Z) : Z := default (hdr s + cb s) (next_of f (pPoolHead s)).
Definition chunk_size (s : spmpool) (f : Z) : Z := chunk_end s f - (f + sizeof_POOLCHUNK).

Definition free_size (i : nat) : M spmpool unit :=
  s ← mget;
  '(f, _) ← deref (pPoolFreeHead s !! i);
  let c := chunk_size s f in
  mput (set_cbFree (u32 (cbFree s + c)) (set_pPoolFreeHead (<[i := (f, c)]> (pPoolFreeHead s)) s)).

(** A pointer that is no block of the pool is refused when it is outside of
    the shared memory or misaligned, and else [Ub]. *)
Definition pool_spmFree (pv : Z) : M spmpool Z :=
  if pv =? 0 then mret 0 else
  s ← mget;
  if negb (SPM_VALID_PTR pv s) || negb (SPM_POOL_ALIGN pv =? pv) then mret (-1) else
  let f := pv - sizeof_POOLCHUNK in
  if negb (bool_decide (f ∈ pPoolHead s)) then mfail Ub else
  o ← from_tail (fun e => e.1 <=? f);
  if bool_decide ((o ≫= fun i => fst <$> pPoolFreeHead s !! i) = Some f) then mret (-1) else
  i ← free_insert f o;
  _ ← free_merge i;
  _ ← free_size i;
  mret 0.

(** The pool [spmInit] creates in [cb] bytes at [hdr]. *)
Definition pool_init (hdr cb : Z) : spmpool :=
  let f := hdr + SPM_PROCESS_SIZE in
  let c := cb - sizeof_POOLCHUNK - SPM_PROCESS_SIZE in
  mk_spmpool hdr cb [f] [(f, c)] (Some f) c.

#[export] Instance SpmPool_spmpool : SpmPool spmpool := {|
  pool_alloc := pool_spmAllocSub;
  pool_free := pool_spmFree
|}.

