(* ===== verification/SpmPoolFacts.v ===== *)
(** The pool of the process manager keeps what it promises: the blocks are
    distinct, disjoint and large enough. *)

From S2P Require Import Prelude Creds Spm SpmPool.
#[local] Open Scope Z_scope.

(** ** Chunks that tile the memory from [lo] to [hi] *)

Fixpoint tiled (lo hi : Z) (l : list Z) : Prop :=
  match l with
  | [] => lo = hi
  | a :: l =>
      a = lo /\ let e := default hi (head l) in lo + 24 <= e /\ (e - lo) mod 8 = 0 /\ tiled e hi l
  end.

(** The end of a chunk. *)
Definition end_of (hi : Z) (l : list Z) (a : Z) : Z := default hi (next_of a l).

Lemma tiled_head lo hi l : tiled lo hi l -> default hi (head l) = lo.
Proof. destruct l; cbn; [done|]. by intros [-> _]. Qed.

Lemma tiled_le lo hi l : tiled lo hi l -> lo <= hi.
Proof.
  revert lo. induction l as [|a l IH]; intros lo; cbn; [lia|].
  intros (-> & ? & _ & Ht). apply IH in Ht. lia.
Qed.

Lemma tiled_in lo hi l a : tiled lo hi l -> a ∈ l -> lo <= a /\ a + 24 <= hi /\ (a - lo) mod 8 = 0.
Proof.
  revert lo. induction l as [|b l IH]; intros lo; cbn; [by intros _ []%elem_of_nil|].
  intros (-> & Hle & Hm & Ht) [->|Ha]%elem_of_cons.
  - apply tiled_le in Ht. rewrite Z.sub_diag. split_and!; [lia|lia|done].
  - destruct (IH _ Ht Ha) as (? & ? & Hm'). split_and!; [lia|lia|].
    replace (a - lo) with ((a - default hi (head l)) + (default hi (head l) - lo)) by lia.
    by rewrite Zplus_mod, Hm, Hm'.
Qed.

Lemma tiled_cons_lt lo hi a l b : tiled lo hi (a :: l) -> b ∈ l -> a + 24 <= b.
Proof. intros (-> & Hle & _ & Ht) Hb. destruct (tiled_in _ _ _ _ Ht Hb). lia. Qed.

Lemma tiled_tail lo hi a l : tiled lo hi (a :: l) -> tiled (default hi (head l)) hi l.
Proof. by intros (_ & _ & _ & ?). Qed.

Lemma tiled_nodup lo hi l : tiled lo hi l -> NoDup l.
Proof.
  revert lo. induction l as [|a l IH]; intros lo Ht; [constructor|].
  constructor; [|by eapply IH, tiled_tail]. intros Ha. pose proof (tiled_cons_lt _ _ _ _ _ Ht Ha). lia.
Qed.

Lemma next_of_cons a x l : next_of a (x :: l) = if x =? a then head l else next_of a l.
Proof. done. Qed.

Lemma head_in {A} (l : list A) x : head l = Some x -> x ∈ l.
Proof. destruct l; [done|]. intros [= ->]. by left. Qed.

Lemma next_of_in a b l : next_of a l = Some b -> b ∈ l.
Proof.
  induction l as [|x l IH]; [done|]. rewrite next_of_cons. destruct (x =? a); intros Hb; right; [by apply head_in|auto].
Qed.

Lemma tiled_end lo hi l a :
  tiled lo hi l -> a ∈ l -> a + 24 <= end_of hi l a <= hi /\ (end_of hi l a - a) mod 8 = 0.
Proof.
  unfold end_of. revert lo. induction l as [|x l IH]; intros lo Ht Ha; [by apply elem_of_nil in Ha|].
  pose proof (tiled_tail _ _ _ _ Ht) as Ht'. pose proof (tiled_cons_lt _ _ _ _ a Ht) as Hlt.
  rewrite next_of_cons. destruct Ht as (-> & Hle & Hm & _). apply elem_of_cons in Ha as [->|Ha].
  - rewrite Z.eqb_refl. pose proof (tiled_le _ _ _ Ht'). split; [lia|done].
  - specialize (Hlt Ha). destruct (Z.eqb_spec lo a); [lia|]. by eapply IH.
Qed.

(** Chunks do not overlap. *)
Lemma tiled_disjoint lo hi l a b : tiled lo hi l -> a ∈ l -> b ∈ l -> a < b -> end_of hi l a <= b.
Proof.
  unfold end_of. revert lo. induction l as [|x l IH]; intros lo Ht Ha Hb Hab; [by apply elem_of_nil in Ha|].
  pose proof (tiled_tail _ _ _ _ Ht) as Ht'. rewrite next_of_cons.
  apply elem_of_cons in Hb as [->|Hb].
  - apply elem_of_cons in Ha as [->|Ha]; [lia|]. pose proof (tiled_cons_lt _ _ _ _ a Ht Ha). lia.
  - destruct (Z.eqb_spec x a) as [->|Hne].
    + by destruct (tiled_in _ _ _ _ Ht' Hb).
    + apply elem_of_cons in Ha as [?|Ha]; [done|]. by eapply IH.
Qed.

Lemma head_insert_after a b l : head (insert_after a b l) = head l.
Proof. destruct l as [|x l]; cbn; [done|]. by destruct (x =? a). Qed.

Lemma elem_of_insert_after a b l x : a ∈ l -> x ∈ insert_after a b l <-> x ∈ l \/ x = b.
Proof.
  induction l as [|y l IH]; [by intros []%elem_of_nil|]. intros Ha. cbn.
  destruct (Z.eqb_spec y a) as [->|Hne].
  - rewrite !elem_of_cons. tauto.
  - apply elem_of_cons in Ha as [->|Ha]; [done|]. rewrite !elem_of_cons, (IH Ha). tauto.
Qed.

(** A chunk is split. *)
Lemma tiled_insert lo hi l a b :
  tiled lo hi l -> a ∈ l -> a + 24 <= b -> b + 24 <= end_of hi l a -> (b - a) mod 8 = 0 ->
  tiled lo hi (insert_after a b l) /\ b ∉ l /\
  next_of a (insert_after a b l) = Some b /\ next_of b (insert_after a b l) = next_of a l /\
  (forall c, c <> a -> c <> b -> next_of c (insert_after a b l) = next_of c l).
Proof.
  unfold end_of. revert lo. induction l as [|x l IH]; intros lo Ht Ha Hb1 Hb2 Hm; [by apply elem_of_nil in Ha|].
  pose proof (tiled_tail _ _ _ _ Ht) as Ht'. rewrite next_of_cons in *. cbn [insert_after].
  destruct (Z.eqb_spec x a) as [->|Hne].
  - destruct Ht as (-> & Hle & Hm' & _). split_and!.
    + cbn. split_and!; try done. replace (default hi (head l) - b) with ((default hi (head l) - lo) - (b - lo)) by lia.
      by rewrite Zminus_mod, Hm', Hm.
    + intros [->|Hin]%elem_of_cons; [lia|]. destruct (tiled_in _ _ _ _ Ht' Hin). lia.
    + cbn. by rewrite Z.eqb_refl.
    + cbn. rewrite (proj2 (Z.eqb_neq lo b)) by lia. by rewrite Z.eqb_refl.
    + intros c Hca Hcb. cbn. by rewrite (proj2 (Z.eqb_neq lo c)), (proj2 (Z.eqb_neq b c)) by done.
  - pose proof (tiled_cons_lt _ _ _ _ a Ht) as Hlt. apply elem_of_cons in Ha as [?|Ha]; [done|].
    specialize (Hlt Ha). destruct (IH _ Ht' Ha Hb1 Hb2 Hm) as (I1 & I2 & I3 & I4 & I5).
    destruct Ht as (-> & Hle & Hm' & _). split_and!.
    + cbn. rewrite head_insert_after. split_and!; done.
    + intros [->|?]%elem_of_cons; [lia|done].
    + cbn. by rewrite (proj2 (Z.eqb_neq lo a)).
    + cbn. rewrite (proj2 (Z.eqb_neq lo b)) by lia. done.
    + intros c Hca Hcb. cbn. rewrite head_insert_after. by rewrite I5.
Qed.

Lemma elem_of_remove_chunk b l x : NoDup l -> x ∈ remove_chunk b l <-> x ∈ l /\ x <> b.
Proof.
  induction 1 as [|y l Hy Hnd IH]; cbn; [by rewrite elem_of_nil; naive_solver|].
  destruct (Z.eqb_spec y b) as [->|Hne]; rewrite !elem_of_cons; [naive_solver|]. rewrite IH. naive_solver.
Qed.

(** A chunk is merged into the one before. *)
Lemma tiled_remove lo hi l a b :
  tiled lo hi l -> next_of a l = Some b ->
  tiled lo hi (remove_chunk b l) /\ a ∈ l /\ a <> b /\
  next_of a (remove_chunk b l) = next_of b l /\
  (forall c, c <> a -> c <> b -> next_of c (remove_chunk b l) = next_of c l).
Proof.
  revert lo. induction l as [|x l IH]; intros lo Ht Hn; [done|].
  pose proof (tiled_tail _ _ _ _ Ht) as Ht'. rewrite next_of_cons in Hn.
  destruct (Z.eqb_spec x a) as [->|Hne].
  - pose proof (tiled_cons_lt _ _ _ _ b Ht (head_in _ _ Hn)) as Hlt.
    destruct l as [|y l]; [done|]. injection Hn as ->. cbn [remove_chunk].
    rewrite (proj2 (Z.eqb_neq a b)), Z.eqb_refl by lia.
    destruct Ht as (-> & Hle & Hm & _). cbn [head default from_option] in *. pose proof (tiled_tail _ _ _ _ Ht') as Ht2.
    destruct Ht' as (_ & Hle' & Hm' & _). split_and!.
    + cbn. split_and!; [done|lia| |done].
      replace (default hi (head l) - lo) with ((default hi (head l) - b) + (b - lo)) by lia.
      unfold id in *. by rewrite Zplus_mod, Hm, Hm'.
    + by left.
    + lia.
    + cbn. rewrite Z.eqb_refl, (proj2 (Z.eqb_neq lo b)) by lia. by rewrite Z.eqb_refl.
    + intros c Hca Hcb. cbn. rewrite (proj2 (Z.eqb_neq lo c)) by done. by rewrite (proj2 (Z.eqb_neq b c)).
  - destruct (IH _ Ht' Hn) as (I1 & I2 & I3 & I4 & I5).
    assert (Hxb : x + 24 <= b) by (by eapply tiled_cons_lt, next_of_in).
    assert (Hh : head (remove_chunk b l) = head l).
    { destruct l as [|y l]; [done|]. cbn. destruct (Z.eqb_spec y b) as [->|]; [|done]. exfalso.
      destruct (tiled_end _ _ _ _ Ht' I2) as [Hend _]. unfold end_of in Hend. rewrite Hn in Hend. cbn in Hend.
      apply elem_of_cons in I2 as [?|I2]; [done|].
      pose proof (tiled_cons_lt _ _ _ _ a Ht' I2). unfold id in *. lia. }
    cbn [remove_chunk]. rewrite (proj2 (Z.eqb_neq x b)) by lia.
    destruct Ht as (-> & Hle & Hm & _). split_and!.
    + cbn. rewrite Hh. split_and!; done.
    + by right.
    + done.
    + cbn. by rewrite (proj2 (Z.eqb_neq lo a)), (proj2 (Z.eqb_neq lo b)) by lia.
    + intros c Hca Hcb. cbn. rewrite Hh. by rewrite I5.
Qed.

Lemma prev_next lo hi l a b : tiled lo hi l -> prev_of b l = Some a -> next_of a l = Some b.
Proof.
  revert lo. induction l as [|x l IH]; intros lo Ht; [done|].
  pose proof (tiled_tail _ _ _ _ Ht) as Ht'. cbn [prev_of]. rewrite next_of_cons.
  destruct l as [|y l]; [done|]. destruct (Z.eqb_spec y b) as [->|Hne].
  - intros [= ->]. by rewrite Z.eqb_refl.
  - intros Hp. specialize (IH _ Ht' Hp).
    destruct (tiled_remove _ _ _ _ _ Ht' IH) as (_ & Ha & _).
    pose proof (tiled_cons_lt _ _ _ _ a Ht Ha). by rewrite (proj2 (Z.eqb_neq x a)) by lia.
Qed.

(** ** The invariant *)

Fixpoint sum_free (l : list (Z * Z)) : Z :=
  match l with [] => 0 | e :: l => e.2 + sum_free l end.

Lemma sum_free_delete l i e : l !! i = Some e -> sum_free l = e.2 + sum_free (delete i l).
Proof.
  revert i. induction l as [|x l IH]; intros [|i] Hi; [done..| |].
  - cbn in *. by simplify_eq.
  - change (sum_free (x :: l)) with (x.2 + sum_free l).
    change (sum_free (delete (S i) (x :: l))) with (x.2 + sum_free (delete i l)).
    rewrite (IH i Hi). lia.
Qed.

Lemma delete_insert_same {A} (l : list A) i x : delete i (<[i := x]> l) = delete i l.
Proof. revert i. induction l as [|y l IH]; intros [|i]; cbn; [done..|by rewrite IH]. Qed.

Definition frees (s : spmpool) : list Z := fst <$> pPoolFreeHead s.
Definition in_use (s : spmpool) (f : Z) : Prop := f ∈ pPoolHead s /\ f ∉ frees s.
Definition pool_lo (s : spmpool) : Z := hdr s + SPM_PROCESS_SIZE.
Definition pool_hi (s : spmpool) : Z := hdr s + cb s.

(** What holds in the middle of [spmFree] as well, where the size of the free
    chunk at [i] is not known yet. *)
Record pool_wf_but (o : option nat) (s : spmpool) : Prop := mk_pool_wf_but {
  pw_hdr : 0 < hdr s /\ hdr s mod 8 = 0 /\ pool_hi s <= 2 ^ 32;
  pw_tiled : tiled (pool_lo s) (pool_hi s) (pPoolHead s);
  pw_nodup : NoDup (frees s);
  pw_free : forall i f c, pPoolFreeHead s !! i = Some (f, c) ->
    f ∈ pPoolHead s /\ (o <> Some i -> c = chunk_size s f);
  pw_tail : pPoolFreeTail s = None \/ pPoolFreeTail s = last (frees s);
  pw_cbFree : cbFree s = u32 (match o with
                              | None => sum_free (pPoolFreeHead s)
                              | Some i => sum_free (delete i (pPoolFreeHead s))
                              end)
}.
Definition pool_wf : spmpool -> Prop := pool_wf_but None.

Lemma chunk_end_eq s f : chunk_end s f = end_of (pool_hi s) (pPoolHead s) f.
Proof. done. Qed.

Lemma chunk_size_bounds o s f :
  pool_wf_but o s -> f ∈ pPoolHead s ->
  16 <= chunk_size s f /\ chunk_size s f mod 8 = 0 /\ pool_lo s <= f /\ f mod 8 = 0 /\
  f + 8 + chunk_size s f <= pool_hi s.
Proof.
  intros [(Hpos & Hmod & Hhi) Ht _ _ _ _] Hf. destruct (tiled_end _ _ _ _ Ht Hf) as [He Hm].
  destruct (tiled_in _ _ _ _ Ht Hf) as (Hlo & _ & Hma). unfold chunk_size, sizeof_POOLCHUNK.
  rewrite chunk_end_eq. set (e := end_of _ _ f) in *. unfold pool_lo, SPM_PROCESS_SIZE in *. split_and!; [lia| |lia| |lia].
  - replace (e - (f + 8)) with ((e - f) + (-1) * 8) by lia. by rewrite Z_mod_plus_full.
  - replace f with ((f - (hdr s + 256)) + hdr s + 32 * 8) by lia.
    by rewrite Z_mod_plus_full, Zplus_mod, Hma, Hmod.
Qed.

(** The invariant of a new pool. *)
Lemma pool_wf_init hdr cb :
  0 < hdr -> hdr mod 8 = 0 -> hdr + cb <= 2 ^ 32 -> cb mod 8 = 0 -> 280 <= cb ->
  pool_wf (pool_init hdr cb).
Proof.
  intros Hh Hm Hle Hc Hcb. unfold pool_init, SPM_PROCESS_SIZE, sizeof_POOLCHUNK. split; cbn.
  - by split_and!.
  - unfold pool_lo, pool_hi, SPM_PROCESS_SIZE. cbn. split_and!; [done|lia| |done].
    replace (hdr + cb - (hdr + 256)) with (cb + (-32) * 8) by lia. by rewrite Z_mod_plus_full.
  - apply NoDup_singleton.
  - intros [|i] f c; [|done]. intros [= <- <-]. split; [by left|]. intros _.
    unfold chunk_size, chunk_end, sizeof_POOLCHUNK. cbn. rewrite Z.eqb_refl. cbn. lia.
  - by right.
  - rewrite u32_small by lia. lia.
Qed.

(** ** Lists without duplicates *)

Lemma nodup_at {A} (l : list A) i x :
  NoDup l -> l !! i = Some x ->
  x ∉ delete i l /\ NoDup (delete i l) /\ (forall y, y ∈ l <-> y = x \/ y ∈ delete i l).
Proof.
  intros Hnd Hi. pose proof (delete_Permutation l i x Hi) as HP. rewrite HP in Hnd.
  apply NoDup_cons in Hnd as [? ?]. split_and!; [done|done|].
  intros y. rewrite HP at 1. by rewrite elem_of_cons.
Qed.

Lemma insert_perm {A} (l : list A) i x y : l !! i = Some x -> <[i := y]> l ≡ₚ y :: delete i l.
Proof.
  intros Hi. rewrite <-(delete_insert_same l i y). apply delete_Permutation.
  rewrite list_lookup_insert, decide_True; [done|]. split; [done|]. by apply lookup_lt_Some in Hi.
Qed.

Lemma last_delete_mid {A} (l : list A) i x : l !! S i = Some x -> last (delete i l) = last l.
Proof.
  intros Hi. rewrite delete_take_drop. rewrite <-(take_drop (S i) l) at 3. rewrite !last_app.
  destruct (last (drop (S i) l)) eqn:E; [done|]. apply last_None in E.
  apply (f_equal (fun k => k !! 0%nat)) in E. by rewrite lookup_drop, Nat.add_0_r, Hi in E.
Qed.

Lemma last_at {A} (l : list A) i x : l !! i = Some x -> l !! S i = None -> last l = Some x.
Proof.
  intros Hi Hn. rewrite last_lookup. apply lookup_lt_Some in Hi as ?. apply lookup_ge_None in Hn.
  by replace (pred (length l)) with i by lia.
Qed.

(** ** Walking the free list *)

Lemma walk_back_Some f l i j :
  walk_back f l i = Some j -> exists e, l !! j = Some e /\ f e = true.
Proof.
  induction i as [|i IH]; cbn [walk_back].
  - destruct (l !! 0%nat) as [e|] eqn:He; [|done]. destruct (f e) eqn:Hf; [|done].
    intros [= <-]. by exists e.
  - destruct (l !! S i) as [e|] eqn:He; [|done]. destruct (f e) eqn:Hf; [|done].
    intros [= <-]. by exists e.
Qed.

Lemma walk_back_None f l i j e :
  (i < length l)%nat -> walk_back f l i = None -> (j <= i)%nat -> l !! j = Some e -> f e = false.
Proof.
  induction i as [|i IH]; cbn [walk_back]; intros Hi Hw Hj He.
  - replace j with 0%nat in He by lia. rewrite He in Hw. by destruct (f e).
  - destruct (lookup_lt_is_Some_2 l (S i)) as [e' He']; [lia|]. rewrite He' in Hw.
    destruct (f e') eqn:Hf; [done|]. destruct (decide (j = S i)) as [->|]; [congruence|].
    apply (IH ltac:(lia) Hw); [lia|done].
Qed.

Lemma wp_from_tail o f s :
  pool_wf_but o s ->
  wp (from_tail f) (fun r s' => s' = s /\
       match r with
       | Some i => exists e, pPoolFreeHead s !! i = Some e /\ f e = true
       | None => pPoolFreeTail s = None \/ forall e, e ∈ pPoolFreeHead s -> f e = false
       end) (fun _ _ => False) s.
Proof.
  intros [_ _ Hnd _ Htail _]. unfold from_tail. apply wp_bind, wp_get.
  destruct (pPoolFreeTail s) as [t|] eqn:Ht; [|apply wp_ret; split; [done|by left]].
  destruct Htail as [|Htail]; [done|]. unfold frees in Htail. rewrite fmap_last in Htail.
  destruct (last (pPoolFreeHead s)) as [e|] eqn:He; [|done]. injection Htail as ->.
  destruct (list_find _ _) as [[i e']|] eqn:Hf.
  - apply list_find_Some in Hf as (Hi & He' & _). apply wp_ret. split; [done|].
    destruct (walk_back f (pPoolFreeHead s) i) as [j|] eqn:Hw; [by apply walk_back_Some in Hw|].
    right. intros e2 [j Hj]%list_elem_of_lookup.
    rewrite last_lookup in He.
    assert (i = pred (length (pPoolFreeHead s))) as ->.
    { eapply (NoDup_lookup (frees s)); [done|..]; unfold frees; rewrite list_lookup_fmap.
      - rewrite Hi. cbn. by rewrite He'.
      - by rewrite He. }
    apply lookup_lt_Some in Hj as ?. eapply walk_back_None; [|exact Hw| |exact Hj]; lia.
  - exfalso. apply list_find_None in Hf. rewrite Forall_forall in Hf. apply (Hf e); [|done].
    rewrite last_lookup in He. by eapply list_elem_of_lookup_2.
Qed.

Lemma u32_sub a c : u32 (u32 a - c) = u32 (a - c).
Proof. unfold u32. by rewrite Zminus_mod_idemp_l. Qed.
Lemma u32_add a c : u32 (u32 a + c) = u32 (a + c).
Proof. unfold u32. by rewrite Zplus_mod_idemp_l. Qed.

(** ** Allocation *)

(** The block is new and large enough; the other blocks stay where they are. *)
Definition alloc_result (sz : Z) s (r : option Z) s' : Prop :=
  pool_wf s' /\ hdr s' = hdr s /\ cb s' = cb s /\
  match r with
  | None => s' = s
  | Some a =>
      ~ in_use s (a - 8) /\ sz <= chunk_size s' (a - 8) /\
      (forall x, in_use s' x <-> in_use s x \/ x = a - 8) /\
      (forall x, in_use s x -> chunk_end s' x = chunk_end s x)
  end.

Lemma wp_take_chunk i f c sz s :
  pool_wf s -> pPoolFreeHead s !! i = Some (f, c) -> sz <= c ->
  wp (take_chunk i (f, c)) (fun r s' => r <> None /\ alloc_result sz s r s') (fun _ _ => False) s.
Proof.
  intros Hw Hi Hsz. pose proof Hw as [Hh Ht Hnd Hfree Htail Hcb].
  destruct (Hfree i f c Hi) as [Hf Hc]. specialize (Hc ltac:(done)).
  assert (Hfi : frees s !! i = Some f) by (unfold frees; by rewrite list_lookup_fmap, Hi).
  destruct (nodup_at _ _ _ Hnd Hfi) as (Hfd & Hndd & Hmem).
  unfold take_chunk. apply wp_bind, wp_get, wp_bind, wp_put, wp_ret. split; [done|].
  unfold alloc_result, sizeof_POOLCHUNK.
  cbn [fst snd]. replace (f + 8 - 8) with f by lia. split_and!; [|done|done|..].
  - split; cbn; try done.
    + unfold frees in *. cbn. by rewrite list_fmap_delete.
    + intros j g d Hj. apply list_elem_of_lookup_2 in Hj.
      assert (Hin : (g, d) ∈ pPoolFreeHead s).
      { rewrite (delete_Permutation _ _ _ Hi). by right. }
      apply list_elem_of_lookup in Hin as [j' Hj']. destruct (Hfree j' g d Hj') as [? Hd].
      split; [done|]. intros _. by apply Hd.
    + unfold frees in *. cbn. rewrite list_fmap_delete. set (k := fst <$> pPoolFreeHead s) in *.
      destruct (pPoolFreeHead s !! S i) as [e|] eqn:Hs.
      * rewrite (last_delete_mid k i e.1); [done|]. unfold k. by rewrite list_lookup_fmap, Hs.
      * right. rewrite delete_take_drop, drop_ge, app_nil_r.
        2: { unfold k. rewrite length_fmap. by apply lookup_ge_None. }
        destruct i as [|j]; [done|]. unfold k. rewrite <-fmap_take, fmap_last, last_lookup, length_take.
        apply lookup_lt_Some in Hi as ?. replace (pred _) with j by lia. by rewrite lookup_take_lt by lia.
    + rewrite Hcb, u32_sub, (sum_free_delete _ _ _ Hi). f_equal. cbn. lia.
  - unfold in_use. intros [_ Hn]. apply Hn, Hmem. by left.
  - change (sz <= chunk_size s f). lia.
  - intros x. unfold in_use, frees in *. cbn. rewrite list_fmap_delete, (Hmem x).
    destruct (decide (x = f)) as [->|]; naive_solver.
  - done.
Qed.

Lemma can_split_true o s f c sz :
  pool_wf_but o s -> f ∈ pPoolHead s -> c = chunk_size s f -> 16 <= sz -> sz <= c ->
  (if can_split c sz then sz + 24 <= c else c < sz + 24) /\ c < 2 ^ 32 - 264.
Proof.
  intros Hw Hf -> Hsz Hle. destruct (chunk_size_bounds o s f Hw Hf) as (_ & _ & Hlo & _ & Hhi).
  destruct Hw as [(Hpos & _ & Htop) _ _ _ _ _]. unfold can_split.
  change (SPM_POOL_ALIGN sizeof_POOLCHUNKFREE) with 24. unfold pool_lo, SPM_PROCESS_SIZE in *.
  rewrite u32_small by lia. split; [|lia]. destruct (Z.leb_spec (sz + 24) (chunk_size s f)); lia.
Qed.

Lemma sum_free_insert l i e e' :
  l !! i = Some e -> sum_free (<[i := e']> l) = sum_free l - e.2 + e'.2.
Proof.
  intros Hi. rewrite (sum_free_delete l i e Hi).
  rewrite (sum_free_delete (<[i := e']> l) i e'), delete_insert_same; [lia|].
  rewrite list_lookup_insert, decide_True; [done|]. split; [done|]. by apply lookup_lt_Some in Hi.
Qed.

Lemma fix_tail_last i (l : list (Z * Z)) t :
  is_Some (l !! i) -> (t = None \/ (is_Some (l !! S i) -> t = last (fst <$> l))) ->
  fix_tail i l t = None \/ fix_tail i l t = last (fst <$> l).
Proof.
  intros [e He] Ht. unfold fix_tail. destruct (l !! S i) as [e'|] eqn:Hs.
  - destruct Ht as [->|Ht]; [by left|]. right. by apply Ht.
  - right. rewrite He. symmetry. rewrite fmap_last, (last_at l i e He Hs). done.
Qed.

Lemma last_insert_before {A} (l : list A) i x y : l !! S i = Some y -> last (<[i := x]> l) = last l.
Proof.
  intros Hy. rewrite !last_lookup, length_insert. apply lookup_lt_Some in Hy as ?.
  rewrite list_lookup_insert_ne; [done|lia].
Qed.

(** What a split does to the chunks. *)
Section Split.
Context (s : spmpool) (f b : Z) (Hw : pool_wf s) (Hf : f ∈ pPoolHead s).
Context (Hb1 : f + 24 <= b) (Hb2 : b + 24 <= chunk_end s f) (Hbm : (b - f) mod 8 = 0).
Let l' := insert_after f b (pPoolHead s).

Lemma split_facts :
  tiled (pool_lo s) (pool_hi s) l' /\ b ∉ pPoolHead s /\ f <> b /\
  (forall x, x ∈ l' <-> x ∈ pPoolHead s \/ x = b) /\
  end_of (pool_hi s) l' f = b /\ end_of (pool_hi s) l' b = chunk_end s f /\
  (forall x, x <> f -> x <> b -> end_of (pool_hi s) l' x = chunk_end s x).
Proof.
  destruct Hw as [_ Ht _ _ _ _]. rewrite chunk_end_eq in Hb2.
  destruct (tiled_insert _ _ _ f b Ht Hf Hb1 Hb2 Hbm) as (I1 & I2 & I3 & I4 & I5).
  split_and!; [done|done|lia| |..].
  - intros x. by apply elem_of_insert_after.
  - unfold end_of, l'. by rewrite I3.
  - unfold end_of, l'. by rewrite I4.
  - intros x Hx Hxb. unfold end_of, l'. by rewrite I5.
Qed.
End Split.

Lemma wp_alloc_head sz s :
  pool_wf s -> 16 <= sz -> sz mod 8 = 0 ->
  wp (alloc_head sz) (fun r s' => alloc_result sz s r s' /\
       (r = None -> forall f c, (f, c) ∈ pPoolFreeHead s -> c < sz)) (fun _ _ => False) s.
Proof.
  intros Hw Hsz Hm. unfold alloc_head. apply wp_bind, wp_get.
  destruct (list_find _ _) as [[i [f c]]|] eqn:Hfind.
  2: { apply wp_ret. split; [by split_and!|]. intros _ f c Hin. apply list_find_None in Hfind.
       rewrite Forall_forall in Hfind. specialize (Hfind _ Hin). cbn in Hfind. lia. }
  apply list_find_Some in Hfind as (Hi & Hle & _). cbn in Hle.
  pose proof Hw as [Hh Ht Hnd Hfree Htail Hcb].
  destruct (Hfree i f c Hi) as [Hf Hc]. specialize (Hc ltac:(done)).
  destruct (can_split_true _ s f c sz Hw Hf Hc Hsz Hle) as [Hsp Hcb2]. destruct (can_split c sz).
  2: { eapply wp_conseq; [by apply (wp_take_chunk i f c sz)| |done]. by intros r s' [? Hr]. }
  unfold chunk_size, sizeof_POOLCHUNK in *.
  set (b := f + 8 + sz). replace (c - (b - f)) with (c - sz - 8) by lia.
  assert (Hb2 : b + 24 <= chunk_end s f) by lia.
  assert (Hbm : (b - f) mod 8 = 0).
  { replace (b - f) with (sz + 1 * 8) by lia. by rewrite Z_mod_plus_full. }
  destruct (split_facts s f b Hw Hf ltac:(lia) Hb2 Hbm) as (S1 & S2 & S3 & S4 & S5 & S6 & S7).
  apply wp_bind, wp_put, wp_ret. split; [|done].
  assert (Hfi : frees s !! i = Some f) by (unfold frees; by rewrite list_lookup_fmap, Hi).
  destruct (nodup_at _ _ _ Hnd Hfi) as (Hfd & Hndd & Hmem).
  assert (Hperm : <[i := b]> (frees s) ≡ₚ b :: delete i (frees s)) by (by eapply insert_perm).
  assert (Hlk : forall j g d, <[i := (b, c - sz - 8)]> (pPoolFreeHead s) !! j = Some (g, d) ->
            (j = i /\ g = b /\ d = c - sz - 8) \/
            (g <> f /\ g <> b /\ pPoolFreeHead s !! j = Some (g, d))).
  { intros j g d Hj. apply list_lookup_insert_Some in Hj as [(<- & E & _)|[Hne Hj]].
    - injection E as <- <-. by left.
    - right. split_and!; [|intros ->; by destruct (Hfree j b d Hj)|done]. intros ->. apply Hne.
      eapply (NoDup_lookup (frees s)); [done|exact Hfi|]. unfold frees. by rewrite list_lookup_fmap, Hj. }
  set (s' := set_cbFree _ _).
  assert (Hsz' : forall x, chunk_size s' x = end_of (pool_hi s) (insert_after f b (pPoolHead s)) x - (x + 8)) by done.
  assert (Hfr : frees s' ≡ₚ b :: delete i (frees s)).
  { unfold frees, s'. cbn. by rewrite list_fmap_insert. }
  split_and!; [|done|done|..]; cbn [fst snd]; replace (f + 8 - 8) with f by lia.
  - split; try done.
    + rewrite Hfr. apply NoDup_cons. split; [|done].
      intros Hin. apply S2. assert (Hb : b ∈ frees s) by (apply Hmem; by right).
      apply list_elem_of_fmap in Hb as ([g d] & E & [j Hj]%list_elem_of_lookup). cbn in E. subst g.
      by destruct (Hfree j b d Hj).
    + intros j g d Hj. destruct (Hlk j g d Hj) as [(_ & -> & ->)|(Hgf & Hgb & Hj')].
      * split; [apply S4; by right|]. intros _. rewrite Hsz', S6. lia.
      * destruct (Hfree j g d Hj') as [Hg Hd]. split; [apply S4; by left|]. intros _.
        rewrite Hsz', S7 by done. by apply Hd.
    + apply fix_tail_last; [rewrite list_lookup_insert, decide_True; [by eexists|by split; [|eapply lookup_lt_Some]]|].
      destruct Htail as [Htail|Htail]; [by left|]. right. intros [y Hy].
      rewrite list_lookup_insert_ne in Hy by lia. unfold frees in *.
      rewrite list_fmap_insert, (last_insert_before _ i _ y.1); [done|]. by rewrite list_lookup_fmap, Hy.
    + cbn. rewrite Hcb, u32_sub, (sum_free_insert _ _ _ _ Hi). f_equal. cbn. lia.
  - unfold in_use. intros [_ Hn]. apply Hn, Hmem. by left.
  - rewrite Hsz', S5. lia.
  - intros x. unfold in_use. rewrite Hfr, elem_of_cons, (Hmem x). change (pPoolHead s') with (insert_after f b (pPoolHead s)).
    rewrite S4. assert (x = b -> x ∉ pPoolHead s) by (by intros ->).
    assert (x = f -> x ∈ pPoolHead s /\ x <> b /\ x ∉ delete i (frees s)) by (by intros ->).
    destruct (decide (x = f)); tauto.
  - intros x [Hx Hnx]. change (end_of (pool_hi s) (insert_after f b (pPoolHead s)) x = chunk_end s x).
    apply S7; [intros ->; apply Hnx, Hmem; by left|by intros ->].
Qed.

Lemma wp_alloc_tail sz s :
  pool_wf s -> 16 <= sz -> sz mod 8 = 0 ->
  wp (alloc_tail sz) (fun r s' => alloc_result sz s r s' /\
       (r = None -> pPoolFreeTail s = None \/ forall f c, (f, c) ∈ pPoolFreeHead s -> c < sz))
     (fun _ _ => False) s.
Proof.
  intros Hw Hsz Hm. unfold alloc_tail. apply wp_bind.
  eapply wp_conseq; [by eapply wp_from_tail| |done]. intros o s1 [-> Ho]. apply wp_bind, wp_get.
  destruct o as [i|].
  2: { apply wp_ret. split; [by split_and!|]. intros _. destruct Ho as [?|Hno]; [by left|right].
       intros f c Hin. specialize (Hno _ Hin). cbn in Hno. by apply Z.leb_gt. }
  destruct Ho as ([f c] & Hi & Hle). cbn in Hle. apply Z.leb_le in Hle.
  pose proof Hw as [Hh Ht Hnd Hfree Htail Hcb].
  destruct (Hfree i f c Hi) as [Hf Hc]. specialize (Hc ltac:(done)).
  rewrite Hi. apply wp_bind, wp_ret. cbn beta iota.
  destruct (can_split_true _ s f c sz Hw Hf Hc Hsz Hle) as [Hsp Hcb2]. destruct (can_split c sz).
  2: { eapply wp_conseq; [by apply (wp_take_chunk i f c sz)| |done]. by intros r s' [? Hr]. }
  unfold chunk_size, sizeof_POOLCHUNK in *. set (c' := c - (sz + 8)). set (b := f + c' + 8).
  assert (Hb2 : b + 24 <= chunk_end s f) by lia.
  assert (Hbm : (b - f) mod 8 = 0).
  { destruct (chunk_size_bounds _ s f Hw Hf) as (_ & Hmc & _). unfold chunk_size, sizeof_POOLCHUNK in Hmc.
    replace (b - f) with (c - sz) by lia. rewrite Hc. by rewrite Zminus_mod, Hmc, Hm. }
  destruct (split_facts s f b Hw Hf ltac:(lia) Hb2 Hbm) as (S1 & S2 & S3 & S4 & S5 & S6 & S7).
  apply wp_bind, wp_put, wp_ret. split; [|done].
  assert (Hfi : frees s !! i = Some f) by (unfold frees; by rewrite list_lookup_fmap, Hi).
  set (s' := set_cbFree _ _).
  assert (Hsz' : forall x, chunk_size s' x = end_of (pool_hi s) (insert_after f b (pPoolHead s)) x - (x + 8)) by done.
  assert (Hfr : frees s' = frees s).
  { unfold frees, s'. cbn. rewrite list_fmap_insert. cbn. by apply list_insert_id. }
  assert (Hfin : forall x, x ∈ frees s -> x ∈ pPoolHead s).
  { intros x ([g d] & -> & [j Hj]%list_elem_of_lookup)%list_elem_of_fmap. by destruct (Hfree j g d Hj). }
  split_and!; [|done|done|..]; replace (b + 8 - 8) with b by lia.
  - split; try done.
    + by rewrite Hfr.
    + intros j g d Hj. apply list_lookup_insert_Some in Hj as [(<- & E & _)|[Hne Hj]].
      * injection E as <- <-. split; [apply S4; by left|]. intros _. rewrite Hsz', S5. lia.
      * destruct (Hfree j g d Hj) as [Hg Hd]. split; [apply S4; by left|]. intros _.
        rewrite Hsz', S7; [by apply Hd| |by intros ->].
        intros ->. apply Hne. eapply (NoDup_lookup (frees s)); [done|exact Hfi|].
        unfold frees. by rewrite list_lookup_fmap, Hj.
    + rewrite Hfr. exact Htail.
    + cbn. rewrite Hcb, u32_sub, (sum_free_insert _ _ _ _ Hi). f_equal. cbn. lia.
  - unfold in_use. by intros [Hin _].
  - rewrite Hsz', S6. lia.
  - intros x. unfold in_use. rewrite Hfr. change (pPoolHead s') with (insert_after f b (pPoolHead s)).
    rewrite S4. assert (x = b -> x ∉ frees s) by (intros ->; by intros ?%Hfin). tauto.
  - intros x [Hx Hnx]. change (end_of (pool_hi s) (insert_after f b (pPoolHead s)) x = chunk_end s x).
    apply S7; [intros ->; apply Hnx; by apply list_elem_of_lookup_2 in Hfi|by intros ->].
Qed.

Lemma wp_pool_spmAllocSub sz s :
  pool_wf s -> 16 <= sz -> sz mod 8 = 0 ->
  wp (pool_spmAllocSub sz) (alloc_result sz s) (fun _ _ => False) s.
Proof.
  intros Hw Hsz Hm. unfold pool_spmAllocSub. destruct (negb _).
  - eapply wp_conseq; [by apply wp_alloc_head| |done]. by intros r s' [? _].
  - eapply wp_conseq; [by apply wp_alloc_tail| |done]. by intros r s' [? _].
Qed.

(** ** Freeing *)

Lemma free_lookup o s j f c : pool_wf_but o s -> pPoolFreeHead s !! j = Some (f, c) -> frees s !! j = Some f.
Proof. intros _ Hj. unfold frees. by rewrite list_lookup_fmap, Hj. Qed.

Lemma free_in o s x : pool_wf_but o s -> x ∈ frees s -> x ∈ pPoolHead s.
Proof.
  intros Hw ([g d] & -> & [j Hj]%list_elem_of_lookup)%list_elem_of_fmap.
  by destruct (pw_free _ _ Hw j g d Hj).
Qed.

Lemma free_index o s j k f c d :
  pool_wf_but o s -> pPoolFreeHead s !! j = Some (f, c) -> pPoolFreeHead s !! k = Some (f, d) -> j = k.
Proof.
  intros Hw Hj Hk. eapply (NoDup_lookup (frees s)); [apply Hw|by eapply free_lookup|by eapply free_lookup].
Qed.

(** The blocks of [s'] are blocks of [s], in the same place. *)
Definition same_blocks (s s' : spmpool) : Prop :=
  hdr s' = hdr s /\ cb s' = cb s /\ (forall x, in_use s' x -> in_use s x /\ chunk_end s' x = chunk_end s x).

#[export] Instance same_blocks_trans : Transitive same_blocks.
Proof.
  intros s1 s2 s3 (A1 & A2 & A3) (B1 & B2 & B3). split_and!; [congruence|congruence|].
  intros x Hx. destruct (B3 x Hx) as [Hx2 E2], (A3 x Hx2) as [Hx1 E1]. split; [done|congruence].
Qed.

(** A free chunk, or one that becomes free, goes away. *)
Lemma remove_facts o s a b :
  pool_wf_but o s -> next_of a (pPoolHead s) = Some b ->
  tiled (pool_lo s) (pool_hi s) (remove_chunk b (pPoolHead s)) /\ a <> b /\
  (forall x, x ∈ remove_chunk b (pPoolHead s) <-> x ∈ pPoolHead s /\ x <> b) /\
  (forall x, x <> a -> x <> b ->
     end_of (pool_hi s) (remove_chunk b (pPoolHead s)) x = chunk_end s x).
Proof.
  intros [_ Ht _ _ _ _] Hn. destruct (tiled_remove _ _ _ _ _ Ht Hn) as (I1 & I2 & I3 & I4 & I5).
  split_and!; [done|done| |].
  - intros x. apply elem_of_remove_chunk. by eapply tiled_nodup.
  - intros x Hxa Hxb. unfold end_of. by rewrite I5.
Qed.

Definition inserted (f : Z) s (i : nat) s' : Prop :=
  pool_wf_but (Some i) s' /\ is_Some (pPoolFreeHead s' !! i) /\ same_blocks s s' /\
  (forall x, in_use s x -> x <> f -> in_use s' x) /\ ~ in_use s' f.

Lemma free_insert_new f l' i s :
  pool_wf s -> in_use s f -> l' !! i = Some (f, 0) -> delete i l' = pPoolFreeHead s ->
  forall t, t = None \/ t = last (fst <$> l') ->
  inserted f s i (set_pPoolFreeTail t (set_pPoolFreeHead l' s)).
Proof.
  intros Hw [Hf Hnf] Hi Hd t Ht. pose proof Hw as [Hh Hti Hnd Hfree _ Hcb].
  assert (Hperm : fst <$> l' ≡ₚ f :: frees s).
  { unfold frees. rewrite <-Hd. change (f :: (fst <$> delete i l')) with (fst <$> ((f, 0) :: delete i l')).
    by rewrite <-(delete_Permutation _ _ _ Hi). }
  split; [split; try done|split; [|split; [split_and!; [done|done|]|split]]]; cbn.
  - unfold frees. cbn. rewrite Hperm. by apply NoDup_cons.
  - intros j g d Hj. destruct (decide (j = i)) as [->|Hne]; [simplify_eq; by split|].
    assert (Hin : (g, d) ∈ pPoolFreeHead s).
    { rewrite <-Hd. destruct (decide (j < i)%nat).
      - apply (list_elem_of_lookup_2 _ j). by rewrite list_lookup_delete_lt.
      - apply (list_elem_of_lookup_2 _ (pred j)). rewrite list_lookup_delete_ge by lia.
        by replace (S (pred j)) with j by lia. }
    apply list_elem_of_lookup in Hin as [k Hk]. destruct (Hfree k g d Hk) as [? Hg].
    split; [done|]. intros _. by apply Hg.
  - by rewrite Hd.
  - by eexists.
  - intros x [Hx Hnx]. change (x ∉ fst <$> l') in Hnx. rewrite Hperm, elem_of_cons in Hnx.
    split; [split; [done|tauto]|done].
  - intros x [Hx Hnx] Hne. split; [done|]. unfold frees. cbn. rewrite Hperm, elem_of_cons. tauto.
  - intros [_ Hn]. apply Hn. unfold frees. cbn. rewrite Hperm. by left.
Qed.

Lemma wp_free_insert f o s :
  pool_wf s -> in_use s f ->
  match o with Some i => exists e, pPoolFreeHead s !! i = Some e /\ e.1 <= f | None => True end ->
  wp (free_insert f o) (fun i s' => inserted f s i s') (fun _ _ => False) s.
Proof.
  intros Hw Hu Ho. pose proof Hw as [Hh Hti Hnd Hfree Htail Hcb]. unfold free_insert. apply wp_bind, wp_get.
  destruct o as [i|].
  2: { apply wp_bind, wp_put, wp_ret.
       apply (free_insert_new f ((f, 0) :: pPoolFreeHead s) 0 s Hw Hu eq_refl eq_refl (pPoolFreeTail s)).
       destruct Htail as [->|Htail]; [by left|]. unfold frees in *.
       destruct (pPoolFreeHead s) as [|e l] eqn:El; [left; by rewrite Htail|]. right. by rewrite Htail. }
  destruct Ho as ([a c] & Hi & Hle). rewrite Hi. apply wp_bind, wp_ret. cbn beta iota.
  apply lookup_lt_Some in Hi as Hlt.
  case_bool_decide as Hp.
  - (* merge with the left neighbour *)
    pose proof (prev_next _ _ _ _ _ Hti Hp) as Hn.
    destruct (remove_facts _ s a f Hw Hn) as (R1 & R2 & R3 & R4). destruct Hu as [Hf Hnf].
    apply wp_bind, wp_put, wp_ret. set (s' := set_cbFree _ _).
    assert (Ha : a ∈ frees s) by (by eapply list_elem_of_lookup_2, free_lookup).
    split; [split; try done|split; [|split; [split_and!; [done|done|]|split]]].
    + intros j g d Hj. destruct (Hfree j g d Hj) as [Hg Hd].
      assert (Hgf : g <> f).
      { intros ->. apply Hnf. by eapply list_elem_of_lookup_2, free_lookup. }
      split; [by apply R3|]. intros Hne.
      assert (Hga : g <> a).
      { intros ->. apply Hne. f_equal. by eapply (free_index None s). }
      change (d = end_of (pool_hi s) (remove_chunk f (pPoolHead s)) g - (g + 8)).
      rewrite R4 by done. by apply Hd.
    + cbn. rewrite Hcb, u32_sub, (sum_free_delete _ _ _ Hi). f_equal. cbn. lia.
    + cbn. by eexists.
    + intros x [Hx Hnx]. apply R3 in Hx as [Hx Hxf]. split; [by split|]. apply R4; [|done]. by intros ->.
    + intros x [Hx Hnx] Hne. split; [by apply R3|done].
    + intros [Hin _]. by apply R3 in Hin as [_ ?].
  - (* a new element after the left neighbour *)
    apply wp_bind, wp_put, wp_ret.
    set (l' := take (S i) (pPoolFreeHead s) ++ (f, 0) :: drop (S i) (pPoolFreeHead s)).
    assert (Hlen : length (take (S i) (pPoolFreeHead s)) = S i) by (rewrite length_take; lia).
    assert (Hli : l' !! S i = Some (f, 0)).
    { unfold l'. rewrite lookup_app_r by lia. by rewrite Hlen, Nat.sub_diag. }
    apply (free_insert_new f l' (S i) s Hw Hu Hli).
    + unfold l'. rewrite <-Hlen at 1. by rewrite delete_middle, take_drop.
    + apply fix_tail_last; [by eexists|]. destruct Htail as [->|Htail]; [by left|]. right. intros [y Hy].
      rewrite Htail. unfold frees, l' in *. rewrite lookup_app_r, Hlen in Hy by lia.
      replace (S (S i) - S i)%nat with 1%nat in Hy by lia.
      rewrite !fmap_last. f_equal. rewrite <-(take_drop (S i) (pPoolFreeHead s)) at 1.
      destruct (drop (S i) (pPoolFreeHead s)) as [|z k]; [done|].
      rewrite !last_app_cons. done.
Qed.

Lemma delete_delete {A} (l : list A) i : delete i (delete i l) = delete i (delete (S i) l).
Proof. revert i. induction l as [|x l IH]; intros [|i]; cbn; [done..|by destruct l|by rewrite IH]. Qed.

(** What the rest of [spmFree] keeps. *)
Definition settled s (i : nat) s' : Prop :=
  is_Some (pPoolFreeHead s' !! i) /\ hdr s' = hdr s /\ cb s' = cb s /\
  (forall x, in_use s' x <-> in_use s x) /\
  (forall x, in_use s x -> chunk_end s' x = chunk_end s x).

Lemma wp_free_merge i s :
  pool_wf_but (Some i) s -> is_Some (pPoolFreeHead s !! i) ->
  wp (free_merge i) (fun _ s' => pool_wf_but (Some i) s' /\ settled s i s') (fun _ _ => False) s.
Proof.
  intros Hw [[f c0] Hi]. pose proof Hw as [Hh Hti Hnd Hfree Htail Hcb]. unfold free_merge.
  assert (Hsame : pool_wf_but (Some i) s /\ settled s i s) by (split; [done|by split_and!]).
  apply wp_bind, wp_get. rewrite Hi. apply wp_bind, wp_ret. cbn beta iota.
  destruct (pPoolFreeHead s !! S i) as [[r c]|] eqn:Hr; [|by apply wp_ret].
  case_bool_decide as Hn; [|by apply wp_ret].
  destruct (remove_facts _ s f r Hw Hn) as (R1 & R2 & R3 & R4).
  pose proof (free_lookup _ _ _ _ _ Hw Hi) as Hfi. pose proof (free_lookup _ _ _ _ _ Hw Hr) as Hri.
  destruct (nodup_at _ _ _ Hnd Hri) as (Hrd & Hndd & Hmem).
  apply wp_put. set (l' := delete (S i) (pPoolFreeHead s)).
  assert (Hl' : fst <$> l' = delete (S i) (frees s)) by (unfold l', frees; by rewrite list_fmap_delete).
  assert (Hi' : l' !! i = Some (f, c0)) by (unfold l'; rewrite list_lookup_delete_lt by lia; done).
  assert (Huse : forall x, x ∈ remove_chunk r (pPoolHead s) /\ x ∉ fst <$> l' <-> in_use s x).
  { intros x. rewrite Hl', R3. unfold in_use. rewrite (Hmem x). tauto. }
  split; [split; try done|split_and!; [by eexists|done|done|exact Huse|]].
  - unfold frees. cbn. by rewrite Hl'.
  - intros j g d Hj. change (l' !! j = Some (g, d)) in Hj.
    assert (Hin : (g, d) ∈ pPoolFreeHead s).
    { rewrite (delete_Permutation _ _ _ Hr). right. by eapply list_elem_of_lookup_2. }
    apply list_elem_of_lookup in Hin as [k Hk]. destruct (Hfree k g d Hk) as [Hg Hd].
    assert (Hgr : g <> r).
    { intros ->. apply Hrd. rewrite <-Hl'. apply (list_elem_of_lookup_2 _ j).
      by rewrite list_lookup_fmap, Hj. }
    split; [by apply R3|]. intros Hne.
    assert (Hgf : g <> f).
    { intros ->. apply Hne. f_equal.
      eapply (NoDup_lookup (fst <$> l')); [by rewrite Hl'|..]; rewrite list_lookup_fmap; [by rewrite Hi'|by rewrite Hj]. }
    change (d = end_of (pool_hi s) (remove_chunk r (pPoolHead s)) g - (g + 8)).
    rewrite R4 by done. apply Hd. intros [= ->]. apply Hgf. congruence.
  - apply fix_tail_last; [by eexists|]. destruct Htail as [->|Htail]; [by left|]. right. intros [y Hy].
    unfold l' in Hy. rewrite list_lookup_delete_ge in Hy by lia.
    rewrite Hl', (last_delete_mid _ _ y.1); [done|]. unfold frees. by rewrite list_lookup_fmap, Hy.
  - change (u32 (cbFree s - c) = u32 (sum_free (delete i l'))). rewrite Hcb, u32_sub. unfold l'.
    rewrite <-delete_delete.
    rewrite (sum_free_delete (delete i (pPoolFreeHead s)) i (r, c)).
    + f_equal. cbn [snd]. lia.
    + by rewrite list_lookup_delete_ge by lia.
  - intros x [Hx Hnx]. apply R4; intros ->; apply Hnx; by eapply list_elem_of_lookup_2.
Qed.

Lemma wp_free_size i s :
  pool_wf_but (Some i) s -> is_Some (pPoolFreeHead s !! i) ->
  wp (free_size i) (fun _ s' => pool_wf s' /\ settled s i s') (fun _ _ => False) s.
Proof.
  intros Hw [[f c0] Hi]. pose proof Hw as [Hh Hti Hnd Hfree Htail Hcb]. unfold free_size.
  apply wp_bind, wp_get. rewrite Hi. apply wp_bind, wp_ret. cbn beta iota. apply wp_put.
  set (l' := <[i := _]> (pPoolFreeHead s)). apply lookup_lt_Some in Hi as Hlt.
  assert (Hi' : l' !! i = Some (f, chunk_size s f)) by (unfold l'; rewrite list_lookup_insert, decide_True; done).
  assert (Hl' : fst <$> l' = frees s).
  { unfold l', frees. rewrite list_fmap_insert. apply list_insert_id. by rewrite list_lookup_fmap, Hi. }
  split; [split; try done|split_and!; [by eexists|done|done| |done]].
  - unfold frees. cbn. by rewrite Hl'.
  - intros j g d Hj. cbn in Hj. apply list_lookup_insert_Some in Hj as [(<- & E & _)|[Hne Hj]].
    + injection E as <- <-. split; [|done]. by apply (Hfree i f c0 Hi).
    + destruct (Hfree j g d Hj) as [Hg Hd]. split; [done|]. intros _. apply Hd. congruence.
  - unfold frees. cbn. by rewrite Hl'.
  - change (u32 (cbFree s + chunk_size s f) = u32 (sum_free l')). rewrite Hcb, u32_add.
    rewrite (sum_free_delete l' i _ Hi'). unfold l'. rewrite delete_insert_same. f_equal. cbn [snd]. lia.
  - intros x. unfold in_use, frees. cbn. fold l'. by rewrite Hl'.
Qed.

Definition free_result (f : Z) s (rc : Z) s' : Prop :=
  rc = 0 /\ pool_wf s' /\ hdr s' = hdr s /\ cb s' = cb s /\
  (forall x, in_use s' x <-> in_use s x /\ x <> f) /\
  (forall x, in_use s' x -> chunk_end s' x = chunk_end s x).

Lemma SPM_POOL_ALIGN_id a : 0 <= a < 2 ^ 32 - 7 -> a mod 8 = 0 -> SPM_POOL_ALIGN a = a.
Proof.
  intros Ha Hm. unfold SPM_POOL_ALIGN. rewrite u32_small by lia. change 7 with (2 ^ 3 - 1).
  rewrite land_not_mask by lia. change (2 ^ 3) with 8. apply Z.mod_divide in Hm as [q ->]; [|done].
  f_equal. symmetry. apply (Z.div_unique _ _ _ 7); lia.
Qed.

Lemma wp_pool_spmFree f s :
  pool_wf s -> in_use s f -> wp (pool_spmFree (f + 8)) (free_result f s) (fun _ _ => False) s.
Proof.
  intros Hw Hu. pose proof Hu as [Hf Hnf].
  destruct (chunk_size_bounds None s f Hw Hf) as (Hsz & _ & Hlo & Hmod & Hhi).
  pose proof (pw_hdr _ _ Hw) as (Hpos & Hhm & Htop). unfold pool_lo, pool_hi, SPM_PROCESS_SIZE in *.
  unfold pool_spmFree. rewrite (proj2 (Z.eqb_neq _ _)) by lia. apply wp_bind, wp_get.
  unfold SPM_VALID_PTR. rewrite u32_small, (proj2 (Z.ltb_lt _ _)) by lia.
  rewrite SPM_POOL_ALIGN_id, Z.eqb_refl; [|lia|replace (f + 8) with (f + 1 * 8) by lia; by rewrite Z_mod_plus_full].
  cbn [negb orb]. unfold sizeof_POOLCHUNK. replace (f + 8 - 8) with f by lia.
  rewrite bool_decide_eq_true_2 by done. cbn [negb]. apply wp_bind.
  eapply wp_conseq; [by eapply wp_from_tail| |done]. intros o s1 [-> Ho].
  assert (Ho' : match o with Some i => exists e, pPoolFreeHead s !! i = Some e /\ e.1 <= f | None => True end).
  { destruct o as [i|]; [|done]. destruct Ho as (e & He & Hle). exists e. split; [done|by apply Z.leb_le]. }
  rewrite bool_decide_eq_false_2.
  2: { destruct o as [i|]; [|done]. cbn. destruct Ho' as ([g d] & Hg & _). rewrite Hg. cbn. intros [= ->].
       apply Hnf. by eapply list_elem_of_lookup_2, free_lookup. }
  apply wp_bind. eapply wp_conseq; [by apply wp_free_insert| |done].
  intros i s1 (Hw1 & Hi1 & (H1a & H1b & H1c) & H1d & H1e). apply wp_bind.
  eapply wp_conseq; [by apply wp_free_merge| |done]. intros _ s2 (Hw2 & Hi2 & H2a & H2b & H2c & H2d).
  apply wp_bind. eapply wp_conseq; [by apply wp_free_size| |done].
  intros _ s3 (Hw3 & Hi3 & H3a & H3b & H3c & H3d). apply wp_ret.
  assert (Huse : forall x, in_use s3 x <-> in_use s1 x) by (intros x; by rewrite H3c, H2c).
  split_and!; [done|done|congruence|congruence|..].
  - intros x. rewrite Huse. split.
    + intros Hx. split; [by apply H1c|]. by intros ->.
    + intros [Hx Hne]. by apply H1d.
  - intros x Hx. apply Huse in Hx. destruct (H1c x Hx) as [_ <-].
    rewrite <-(H2d x Hx). apply H3d, H2c, Hx.
Qed.

(** ** The interface *)

Definition spm_pool_used (s : spmpool) : gset Z :=
  list_to_set ((fun f => f + 8) <$> filter (fun f => f ∉ frees s) (pPoolHead s)).

Lemma elem_of_spm_pool_used s a : a ∈ spm_pool_used s <-> in_use s (a - 8).
Proof.
  unfold spm_pool_used, in_use. rewrite elem_of_list_to_set, list_elem_of_fmap. split.
  - intros (f & -> & [Hn Hf]%list_elem_of_filter). by replace (f + 8 - 8) with f by lia.
  - intros [Hf Hn]. exists (a - 8). split; [lia|]. by apply list_elem_of_filter.
Qed.

#[export] Program Instance SpmPoolLaws_spmpool : SpmPoolLaws spmpool := {|
  pool_ok := pool_wf;
  pool_used := spm_pool_used
|}.
Next Obligation.
  intros s a Hw Ha%elem_of_spm_pool_used. destruct Ha as [Hf _].
  destruct (chunk_size_bounds None s _ Hw Hf) as (_ & _ & Hlo & _).
  destruct (pw_hdr _ _ Hw) as (Hpos & _). unfold pool_lo, SPM_PROCESS_SIZE in Hlo. lia.
Qed.
Next Obligation.
  intros s sz Hw Hsz Hm. pose proof (wp_pool_spmAllocSub sz s Hw Hsz Hm) as Hwp.
  unfold wp in Hwp. cbn. destruct (pool_spmAllocSub sz s) as [r s'|e s'|f]; [|done|done].
  destruct Hwp as (Hw' & _ & _ & Hr). exists r, s'. split; [done|]. split; [done|].
  destruct r as [a|]; [|by rewrite Hr]. destruct Hr as (Hn & _ & Hu & _). split.
  - by rewrite elem_of_spm_pool_used.
  - apply set_eq. intros x. rewrite elem_of_union, elem_of_singleton, !elem_of_spm_pool_used, Hu.
    split; intros [?|?]; [by right|left; lia|right; lia|by left].
Qed.
Next Obligation.
  intros s a Hw Ha%elem_of_spm_pool_used. pose proof (wp_pool_spmFree (a - 8) s Hw Ha) as Hwp.
  replace (a - 8 + 8) with a in Hwp by lia. unfold wp in Hwp. cbn.
  destruct (pool_spmFree a s) as [r s'|e s'|f]; [|done|done].
  destruct Hwp as (-> & Hw' & _ & _ & Hu & _). exists s'. split; [done|]. split; [done|].
  apply set_eq. intros x. rewrite elem_of_difference, elem_of_singleton, !elem_of_spm_pool_used, Hu.
  split; intros [? Hx]; (split; [done|lia]).
Qed.
Next Obligation. done. Qed.

(** ** The pool as a map *)

(** The blocks in use with their sizes. *)
Definition pool_abs (s : spmpool) : gmap Z Z :=
  list_to_map ((fun f => (f + 8, chunk_size s f)) <$> filter (fun f => f ∉ frees s) (pPoolHead s)).

Lemma pool_abs_lookup o s a n :
  pool_wf_but o s -> pool_abs s !! a = Some n <-> in_use s (a - 8) /\ n = chunk_size s (a - 8).
Proof.
  intros Hw. unfold pool_abs. rewrite <- elem_of_list_to_map.
  - rewrite list_elem_of_fmap. split.
    + intros (f & [= -> ->] & [? ?]%list_elem_of_filter). replace (f + 8 - 8) with f by lia. by split.
    + intros [[Hin Hf] ->]. exists (a - 8). split; [f_equal; lia|]. by apply list_elem_of_filter.
  - rewrite <- list_fmap_compose. apply NoDup_fmap_2_strong; [cbn; lia|].
    apply NoDup_filter. by eapply tiled_nodup, Hw.
Qed.

Lemma pool_abs_None o s a : pool_wf_but o s -> ~ in_use s (a - 8) -> pool_abs s !! a = None.
Proof.
  intros Hw Hn. destruct (pool_abs s !! a) as [n|] eqn:E; [|done].
  apply (pool_abs_lookup o) in E; [|done]. by destruct E.
Qed.

(** A block of the pool, for its user. *)
Lemma in_use_room o s f :
  pool_wf_but o s -> in_use s f ->
  (f + 8) mod 8 = 0 /\ pool_lo s <= f /\ f + 8 + chunk_size s f <= pool_hi s /\ 0 < chunk_size s f.
Proof.
  intros Hw [Hin _]. destruct (chunk_size_bounds _ _ _ Hw Hin) as (? & _ & ? & Hm & ?).
  split; [|lia]. rewrite <- Zplus_mod_idemp_l, Hm. done.
Qed.

Lemma in_use_disjoint o s f g :
  pool_wf_but o s -> in_use s f -> in_use s g -> f <> g ->
  f + 8 + chunk_size s f <= g \/ g + 8 + chunk_size s g <= f.
Proof.
  intros Hw [Hf _] [Hg _] Hne. unfold chunk_size. rewrite !chunk_end_eq. unfold sizeof_POOLCHUNK.
  destruct (Z.lt_trichotomy f g) as [Hlt|[?|Hlt]]; [left|done|right].
  - pose proof (tiled_disjoint _ _ _ f g (pw_tiled _ _ Hw) Hf Hg Hlt). lia.
  - pose proof (tiled_disjoint _ _ _ g f (pw_tiled _ _ Hw) Hg Hf Hlt). lia.
Qed.

Lemma pool_abs_alloc sz s a s' :
  pool_wf s -> alloc_result sz s (Some a) s' -> pool_abs s' = <[a := chunk_size s' (a - 8)]> (pool_abs s).
Proof.
  intros Hw (Hw' & _ & _ & _ & _ & Hu & Hend). apply map_eq. intros b. apply option_eq. intros n.
  rewrite (pool_abs_lookup None) by done. rewrite lookup_insert_Some, (pool_abs_lookup None) by done.
  rewrite Hu. destruct (decide (a = b)) as [->|Hne].
  - split; [by intros [_ ->]; left|]. intros [[_ <-]|[? _]]; [|done]. split; [by right|done].
  - split.
    + intros [[Hb|?] ->]; [|lia]. right. split; [done|]. split; [done|].
      unfold chunk_size. by rewrite (Hend _ Hb).
    + intros [[? _]|[_ [Hb ->]]]; [done|]. split; [by left|]. unfold chunk_size. by rewrite (Hend _ Hb).
Qed.

Lemma pool_abs_free f s rc s' :
  pool_wf s -> free_result f s rc s' -> pool_abs s' = delete (f + 8) (pool_abs s).
Proof.
  intros Hw (_ & Hw' & _ & _ & Hu & Hend). apply map_eq. intros b. apply option_eq. intros n.
  rewrite (pool_abs_lookup None) by done. rewrite lookup_delete_Some, (pool_abs_lookup None) by done.
  rewrite Hu. split.
  - intros [[Hb Hne] ->]. split; [lia|]. split; [done|]. unfold chunk_size. rewrite Hend; [done|]. by apply Hu.
  - intros [Hne [Hb ->]]. assert (Hb' : in_use s' (b - 8)) by (apply Hu; split; [done|lia]).
    split; [split; [done|lia]|]. unfold chunk_size. by rewrite (Hend _ Hb').
Qed.
