(* ===== verification/SpmInit.v ===== *)
(** The shared memory [spmInit] creates is sound. *)

From S2P Require Import Prelude Creds Spm SpmPool SpmPoolFacts SpmFacts SpmAlloc SpmTable.
#[local] Open Scope Z_scope.

(** A pool with one free chunk, of [c] bytes. *)
Definition one_free (c : Z) (q : spmpool) : Prop :=
  pool_wf q /\ exists f, pPoolFreeHead q = [(f, c)].

Lemma one_free_init hdr cb :
  0 < hdr -> hdr mod 8 = 0 -> hdr + cb <= 2 ^ 32 -> cb mod 8 = 0 -> 280 <= cb ->
  one_free (cb - 264) (pool_init hdr cb).
Proof.
  intros. split; [by apply pool_wf_init|]. eexists. unfold pool_init, SPM_PROCESS_SIZE, sizeof_POOLCHUNK. cbn.
  do 2 f_equal. lia.
Qed.

(** Allocation from such a pool. *)
Lemma one_free_alloc c q sz :
  one_free c q -> 16 <= sz -> sz mod 8 = 0 -> sz <> SPM_PROCESS_SIZE -> sz + 24 <= c ->
  exists a q', pool_spmAllocSub sz q = Done (Some a) q' /\ one_free (c - sz - 8) q' /\
    ~ in_use q (a - 8) /\ (forall x, in_use q' x <-> in_use q x \/ x = a - 8).
Proof.
  intros [Hw [f Hf]] Hsz Hm Hne Hc.
  pose proof (wp_pool_spmAllocSub sz q Hw Hsz Hm) as Hwp. unfold wp in Hwp.
  destruct (pw_free _ _ Hw 0%nat f c) as [Hin Hc']; [by rewrite Hf|]. specialize (Hc' ltac:(done)).
  destruct (can_split_true _ q f c sz Hw Hin Hc' Hsz ltac:(lia)) as [Hsp _].
  unfold pool_spmAllocSub in *. rewrite (proj2 (Z.eqb_neq _ _) Hne) in *. cbn [negb] in *.
  unfold alloc_head, mbind, M_bind, mget in *. rewrite Hf in *. cbn [list_find] in *.
  rewrite decide_True in * by (cbn; lia). cbn [fst snd] in *.
  destruct (can_split c sz); [|lia]. cbn in Hwp |- *.
  destruct Hwp as (Hw' & _ & _ & Hnu & _ & Hu & _). eexists _, _. split; [done|].
  split_and!; [|done|done]. split; [done|]. eexists. cbn. do 2 f_equal. unfold sizeof_POOLCHUNK. lia.
Qed.

Lemma spmAlloc_room c (s : spm spmpool) sz asz :
  one_free c (pool s) -> 0 < sz ->
  asz = (if sz <=? SPM_POOL_ALIGN (20 - 8) then SPM_POOL_ALIGN (20 - 8) else SPM_POOL_ALIGN sz) ->
  16 <= asz -> asz mod 8 = 0 -> asz <> SPM_PROCESS_SIZE -> asz + 24 <= c ->
  exists a q', spmAlloc sz s = Done (Some a) (set_pool q' s) /\ one_free (c - asz - 8) q' /\
    ~ in_use (pool s) (a - 8) /\ (forall x, in_use q' x <-> in_use (pool s) x \/ x = a - 8).
Proof.
  intros Ho Hsz -> H16 Hm Hne Hc. destruct (one_free_alloc _ _ _ Ho H16 Hm Hne Hc) as (a & q' & E & Ho' & Hu).
  exists a, q'. split; [|by split]. unfold spmAlloc, spmAllocSub, on_pool, mbind, M_bind.
  rewrite (proj2 (Z.eqb_neq _ _)) by lia. cbv zeta. unfold pool_alloc, SpmPool_spmpool. by rewrite E.
Qed.

(** The free signal blocks while they are made. *)
Definition sigs_ok (s : spm spmpool) : Prop :=
  NoDup (sg_addr <$> pSigFreeHead s) /\
  (forall a, a ∈ sg_addr <$> pSigFreeHead s -> in_use (pool s) (a - 8)).

Lemma wp_prealloc_signals (l : list nat) : forall c (s : spm spmpool),
  one_free c (pool s) -> 104 * Z.of_nat (length l) + 16 <= c -> sigs_ok s ->
  wp (mfor l (fun _ =>
        o ← spmAlloc sizeof_SPMSIGNAL;
        a ← deref o;
        mmod (fun s => set_pSigFreeHead
          (mk_SPMSIGNAL a sizeof_SPMSIGNAL 0 zero_siginfo :: pSigFreeHead s) s)))
     (fun _ s' => pool_wf (pool s') /\ sigs_ok s' /\
        length (pSigFreeHead s') = (length l + length (pSigFreeHead s))%nat /\
        s' = set_pSigFreeHead (pSigFreeHead s') (set_pool (pool s') s)) (fun _ _ => False) s.
Proof.
  induction l as [|x l IH]; intros c s Ho Hc [Hnd Hu]; cbn [mfor].
  { apply wp_ret. split; [by destruct Ho|]. split; [done|]. split; [done|]. by destruct s. }
  cbn [length] in Hc.
  destruct (spmAlloc_room c s sizeof_SPMSIGNAL 96 Ho) as (a & q' & E & Ho' & Hna & Hu'); try done; [lia|].
  apply wp_bind. eapply wp_run_bind; [exact E|]. apply wp_bind, wp_ret, wp_mod.
  match goal with |- wp _ _ _ ?s => set (s1 := s) end.
  eapply wp_conseq; [apply (IH (c - 96 - 8) s1 Ho')| |done].
  - lia.
  - split; cbn.
    + apply NoDup_cons. split; [|done]. intros Hin. by apply Hna, Hu.
    + intros b [->|Hb]%elem_of_cons; apply Hu'; [by right|left; by apply Hu].
  - intros _ s2 (Hw & Hs2 & Hlen & E2). split; [done|]. split; [done|]. split.
    + rewrite Hlen. cbn. lia.
    + rewrite E2 at 1. by destruct s.
Qed.

(** The new shared memory has no processes, and a free list of eight signals. *)
Lemma wp_spmInitCreate hdr cb :
  0 < hdr -> hdr mod 8 = 0 -> hdr + cb <= 2 ^ 32 -> cb mod 8 = 0 -> 67000 <= cb ->
  wp spmInitCreate (fun _ s => Inv [] [] [] s /\ procs s = ∅ /\ TInv 0 (procs s) ∅ /\
        length (pSigFreeHead s) = 8%nat) (fun _ _ => False) (zero_spm (pool_init hdr cb)).
Proof.
  intros Hh Hm Hle Hcm Hcb. unfold spmInitCreate. set (s0 := zero_spm _).
  assert (Ho : one_free (cb - 264) (pool s0)) by (apply one_free_init; (done || lia)).
  destruct (spmAlloc_room _ s0 sizeof_SPMTCPIP 65544 Ho) as (a & q1 & E & Ho1 & _ & _); try done; [lia|].
  eapply wp_run_bind; [exact E|]. apply wp_bind, wp_ret, wp_bind, wp_mod, wp_bind, wp_mod.
  match goal with |- wp _ _ _ ?s => set (s1 := s) end.
  eapply wp_conseq; [apply (wp_prealloc_signals (seq 0 8) _ s1 Ho1)| |done].
  - cbn. lia.
  - split; cbn; [constructor|by intros x []%elem_of_nil].
  - intros _ s2 (Hw & [Hnd Hu] & Hlen & E2).
    assert (Hp : procs s2 = ∅) by (by rewrite E2).
    assert (Ha : all_heads (apHeads s2) = []) by (by rewrite E2).
    assert (Hown : owned s2 = sg_addr <$> pSigFreeHead s2).
    { unfold owned. rewrite Hp, E2. done. }
    split_and!; [|done| |done].
    + split.
      * done.
      * by rewrite Hown.
      * rewrite Hown. intros x Hx. apply elem_of_spm_pool_used. by apply Hu.
      * rewrite Ha. constructor.
      * intros st p Hp'. assert (Hin : p ∈ all_heads (apHeads s2)) by (apply elem_of_all_heads; by exists st).
        rewrite Ha in Hin. by apply elem_of_nil in Hin.
      * rewrite Hp. by intros p r.
      * by intros p []%elem_of_nil.
      * rewrite Hp. by intros p r.
      * rewrite Hlen. split; [|by rewrite E2]. by rewrite E2.
    + rewrite Hp. split; [by intros p r|by intros p []%elem_of_nil|by intros k i|by intros p r|by intros k k' i i'|by intros k i p r].
Qed.
