(* ===== verification/SpmProps.v ===== *)
(** The properties of the process manager, on the pool it has ([spmpool]):
    a shared memory that [spmInit] has just made, and any processes that then
    register, call the process manager and end.

    The witnesses are about a shell, process 100, and the program it has
    started, process 101. *)

From S2P Require Import Prelude Creds Spm SpmFacts SpmAlloc SpmTable SpmCalls SpmSigs SpmMoves.
From S2P Require Import SpmSystem SpmPool SpmPoolFacts SpmInit.
#[local] Open Scope Z_scope.

(** ** A small system *)

(** The state after a call that does not fault. *)
Definition after {S A} (m : M S A) (s : S) : S :=
  match m s with Done _ s' | Err _ s' => s' | Fault _ => s end.
Definition value {S A} (m : M S A) (s : S) : option A :=
  match m s with Done a _ => Some a | _ => None end.

Definition os0 : osenv := mk_osenv 0 [] [].
Definition new_memory : spm spmpool := after spmInitCreate (zero_spm (pool_init 65536 524288)).

(** The shell registers, makes an embryo, writes the pid of the program into
    it, and the program registers. [shell] and [prog] are their blocks. *)
Definition shell_in : spm spmpool := leave (after (spmInitRegister 100 1 1) (enter None os0 new_memory)).
Definition shell : Z := 589568.
Definition embryo_in : spm spmpool := leave (after (spmCreateEmbryo 100) (enter (Some shell) os0 shell_in)).
Definition prog : Z := 589304.
Definition spawned : spm spmpool := leave (after (spawn_set_pid prog 101) (enter (Some shell) os0 embryo_in)).
Definition both_in : spm spmpool := leave (after (spmInitRegister 101 100 1) (enter None os0 spawned)).
Definition both : gmap nat inst :=
  <[1%nat := mk_inst 101 prog []]> {[0%nat := mk_inst 100 shell [prog]]}.

Lemma after_wp {S A} (m : M S A) (Q : S -> Prop) s :
  wp m (fun _ s' => Q s') (fun _ _ => False) s -> Q (after m s).
Proof. unfold wp, after. by destruct (m s). Qed.

Lemma new_memory_ok : Inv [] [] [] new_memory /\ procs new_memory = ∅.
Proof.
  unfold new_memory. apply after_wp. eapply wp_conseq; [apply wp_spmInitCreate; (done || lia)| |done].
  by intros _ s' (? & ? & _).
Qed.

Lemma run_value {S A} (m : M S A) s a : value m s = Some a -> m s = Done a (after m s).
Proof. unfold value, after. destruct (m s); congruence. Qed.

Lemma step_registers (s : spm spmpool) I k x ppid sid O p :
  I !! k = None -> 0 < x -> (forall k' i, I !! k' = Some i -> i_pid i <> x) ->
  register_ok ppid (enter None O s) -> value (spmInitRegister x ppid sid) (enter None O s) = Some () ->
  gpSPMSelf (after (spmInitRegister x ppid sid) (enter None O s)) = Some p ->
  hZombie (apHeads s) = [] ->
  step (s, I) (leave (after (spmInitRegister x ppid sid) (enter None O s)), <[k := mk_inst x p []]> I).
Proof.
  intros Hk Hx Hpid Hok Hrun%run_value Hp Hz.
  assert (Hst : no_steal (gpSPMSelf (after (spmInitRegister x ppid sid) (enter None O s))) s).
  { intros q _. rewrite Hz. apply not_elem_of_nil. }
  pose proof (step_register s I k x ppid sid O _ Hk Hx Hpid Hok Hrun Hst) as Hstep. by rewrite Hp in Hstep.
Qed.

Lemma step_does (s : spm spmpool) I k i a O o :
  I !! k = Some i -> op_ok I i a O -> value (run_op i a) (enter (Some (self_of i a)) O s) = Some o ->
  hZombie (apHeads s) = [] ->
  step (s, I) (leave (after (run_op i a) (enter (Some (self_of i a)) O s)), after_op a o k i I).
Proof.
  intros Hk Hok Hrun%run_value Hz. eapply step_done; [done..|]. intros _ q _. rewrite Hz. apply not_elem_of_nil.
Qed.

Lemma register_ok_empty (s : spm spmpool) ppid O : procs s = ∅ -> register_ok ppid (enter None O s).
Proof. intros Hs. left. right. intros p r Hp. cbn in Hp. by rewrite Hs in Hp. Qed.

Definition inst_shell : inst := mk_inst 100 shell [].
Definition inst_parent : inst := mk_inst 100 shell [prog].

Lemma both_step1 : step (new_memory, ∅) (shell_in, {[0%nat := inst_shell]}).
Proof.
  unfold shell_in, inst_shell. apply (step_registers new_memory ∅ 0%nat 100 1 1 os0 shell); [done|done|done| |by vm_compute..].
  apply register_ok_empty, new_memory_ok.
Qed.

Lemma step_embryo (s : spm spmpool) I k x me l O p :
  I !! k = Some (mk_inst x me l) -> value (spmCreateEmbryo x) (enter (Some me) O s) = Some (Some p) ->
  p <> me -> hZombie (apHeads s) = [] ->
  step (s, I) (leave (after (spmCreateEmbryo x) (enter (Some me) O s)), <[k := mk_inst x me (p :: l)]> I).
Proof.
  intros Hk Hrun Hne Hz. pose proof (step_does s I k _ OCreateEmbryo O (Some p) Hk Logic.I Hrun Hz) as Hs.
  cbn [after_op] in Hs. by rewrite decide_False in Hs.
Qed.

Lemma step_set_pid (s : spm spmpool) I k x me l O p y :
  I !! k = Some (mk_inst x me l) -> p ∈ l -> value (spawn_set_pid p y) (enter (Some me) O s) = Some () ->
  step (s, I) (leave (after (spawn_set_pid p y) (enter (Some me) O s)), I).
Proof.
  intros Hk Hp Hrun%run_value. apply (step_done s I k _ (OCall (CSpawnSetPid p y)) O None _ Hk); [| |done].
  - split; [done|]. by intros q ->%list_elem_of_singleton.
  - cbn [run_op run_call self_of i_self]. unfold mbind, M_bind. by rewrite Hrun.
Qed.

Lemma both_step2 : step (shell_in, {[0%nat := inst_shell]}) (embryo_in, {[0%nat := inst_parent]}).
Proof.
  unfold embryo_in, inst_shell, inst_parent.
  rewrite <- (insert_singleton_eq (M := gmap nat) 0%nat (mk_inst 100 shell [prog]) (mk_inst 100 shell [])).
  apply step_embryo; [apply lookup_singleton_eq|by vm_compute..].
Qed.

Lemma both_step3 : step (embryo_in, {[0%nat := inst_parent]}) (spawned, {[0%nat := inst_parent]}).
Proof.
  unfold spawned, inst_parent. eapply step_set_pid; [apply lookup_singleton_eq|left|by vm_compute].
Qed.

Lemma both_step4 : step (spawned, {[0%nat := inst_parent]}) (both_in, both).
Proof.
  apply (step_registers spawned {[0%nat := inst_parent]} 1%nat 101 100 1 os0 prog); [done|done| | |by vm_compute..].
  - intros k' i Hi. apply lookup_singleton_Some in Hi as [_ <-]. done.
  - right. exists prog. split; [vm_compute; left|by vm_compute].
Qed.

Lemma both_steps : steps 4 (new_memory, ∅) (both_in, both).
Proof.
  repeat eapply steps_S; [apply steps_0|exact both_step1|exact both_step2|exact both_step3|exact both_step4].
Qed.

Lemma new_memory_SInv : SInv 0 (new_memory, ∅).
Proof.
  pose proof new_memory_ok as [HI Hp]. split; [done|]. cbn. rewrite Hp.
  split; [by intros p r|by intros p []%elem_of_nil|by intros k i|by intros p r|by intros k k' i i'|by intros k i p r].
Qed.

Lemma both_SInv : SInv 12 (both_in, both).
Proof. apply (steps_SInv 0 4 _ _ new_memory_SInv); [done|done|exact both_steps]. Qed.

(** ** The system is safe *)

Definition no_fault {S A} (out : outcome S A) : Prop := match out with Fault _ => False | _ => True end.

Lemma wp_no_fault {S A} (m : M S A) Q E s : wp m Q E s -> no_fault (m s).
Proof. unfold wp, no_fault. by destruct (m s). Qed.

(** What the safety of a state means: every block of the memory has one owner,
    a block somebody points to is in use and counted, and whatever a process
    does next does not fault. *)
Record safe (s : spm spmpool) (I : gmap nat inst) : Prop := mk_safe {
  sf_owner : NoDup (owned s);
  sf_refs : forall k i p, I !! k = Some i -> p ∈ irefs i ->
    exists r, procs s !! p = Some r /\ nonfree r /\ 1 <= cnt p (refs I) <= cReferences r;
  sf_op : forall k i a O, I !! k = Some i -> op_ok I i a O ->
    no_fault (run_op i a (enter (Some (self_of i a)) O s));
  sf_register : forall k x ppid sid O, I !! k = None -> 0 < x ->
    (forall k' i, I !! k' = Some i -> i_pid i <> x) -> register_ok ppid (enter None O s) ->
    no_fault (spmInitRegister x ppid sid (enter None O s))
}.

Lemma SInv_safe n s I : SInv n (s, I) -> 0 <= n < 2 ^ 32 - 5 -> safe s I.
Proof.
  intros HS Hn. pose proof HS as [HI HT]. cbn in HI, HT. split.
  - apply (inv_nodup _ _ _ _ HI).
  - intros k i p Hk Hp. assert (Hin : p ∈ refs I) by (apply elem_of_refs; by exists k, i).
    destruct (t_valid _ _ _ HT p Hin) as (r & Hr & Hf). exists r. split; [done|]. split; [done|].
    apply cnt_pos in Hin. pose proof (t_refs _ _ _ HT p r Hr Hf). lia.
  - intros k i a O Hk Hok. eapply wp_no_fault, wp_op; done.
  - intros k x ppid sid O Hk Hx Hpid Hok. eapply wp_no_fault, (op_register n s I k); done.
Qed.

(** C4: in every state the processes reach from a new shared memory by the
    registrations, calls, forks and ends that [step] describes, every block of
    the pool has exactly one owner, a block that a process points to is in use
    and its reference count is at least the number of pointers, and no operation
    a process can start there faults: no freed block is used and none is freed
    twice. A step is a whole operation under the mutex. The steps leave out, and
    the theorem says nothing about: a new block that is taken from a zombie
    ([no_steal]); a process that registers without an embryo when memory is so
    low that the inherit data of others would be looked for ([register_ok]); the
    child's part of a fork and the end of a process without the mutex; queries
    for states other than alive and zombie; calls for blocks the process has no
    reference to; inherit data of more than 2^31 bytes ([op_ok]). There are fewer
    than 2^32 / 3 steps, so that no count of references wraps. *)
Theorem spm_system_safe hdr cb :
  0 < hdr -> hdr mod 8 = 0 -> hdr + cb <= 2 ^ 32 -> cb mod 8 = 0 -> 67000 <= cb ->
  exists s0, spmInitCreate (zero_spm (pool_init hdr cb)) = Done () s0 /\
    forall N s I, steps N (s0, ∅) (s, I) -> 3 * Z.of_nat N < 2 ^ 32 - 5 -> safe s I.
Proof.
  intros H1 H2 H3 H4 H5. pose proof (wp_spmInitCreate hdr cb H1 H2 H3 H4 H5) as Hw. unfold wp in Hw.
  destruct (spmInitCreate _) as [[] s0|e s0|f]; [|done|done]. exists s0. split; [done|].
  destruct Hw as (HI & _ & HT & _). intros N s I Hst HN.
  eapply (SInv_safe (0 + 3 * Z.of_nat N)); [eapply (steps_SInv 0 N (s0, ∅)); [by split|..]; (done || lia)|lia].
Qed.

Lemma spm_system_safe_witness :
  (exists s0, spmInitCreate (zero_spm (pool_init 65536 524288)) = Done () s0 /\
    forall N s I, steps N (s0, ∅) (s, I) -> 3 * Z.of_nat N < 2 ^ 32 - 5 -> safe s I) /\
  steps 4 (new_memory, ∅) (both_in, both).
Proof. split; [apply spm_system_safe; (reflexivity || lia)|exact both_steps]. Defined.

(** ** The pool is an allocator of disjoint blocks *)

Inductive pool_op := PAlloc (sz : Z) | PFree (a : Z).

(** [spmAllocSub], with 0 for [NULL], and [spmFree]. *)
Definition pool_do (o : pool_op) : M spmpool Z :=
  match o with
  | PAlloc sz => r ← pool_spmAllocSub sz; mret (default 0 r)
  | PFree a => pool_spmFree a
  end.

(** The specification: a map of addresses to sizes, between [lo] and [hi]. *)
Inductive alloc_step (lo hi : Z) (m : gmap Z Z) : pool_op -> Z -> gmap Z Z -> Prop :=
  | as_alloc sz a n :
      sz <= n -> a mod 8 = 0 -> lo <= a -> a + n <= hi ->
      (forall b k, m !! b = Some k -> a + n <= b \/ b + k <= a) ->
      m !! a = None -> alloc_step lo hi m (PAlloc sz) a (<[a := n]> m)
  | as_fail sz : alloc_step lo hi m (PAlloc sz) 0 m
  | as_free a : is_Some (m !! a) -> alloc_step lo hi m (PFree a) 0 (delete a m).

(** What a caller may ask: [spmAlloc] rounds the sizes up, and only blocks
    that are in use are freed. *)
Definition legal (held : gset Z) (o : pool_op) : Prop :=
  match o with
  | PAlloc sz => 16 <= sz /\ sz mod 8 = 0
  | PFree a => a ∈ held
  end.

(** The blocks the callers have after a trace of calls and results. *)
Fixpoint held_after (held : gset Z) (tr : list (pool_op * Z)) : gset Z :=
  match tr with
  | [] => held
  | (PAlloc _, a) :: tr => held_after (if a =? 0 then held else {[a]} ∪ held) tr
  | (PFree a, _) :: tr => held_after (held ∖ {[a]}) tr
  end.

Inductive pool_runs : spmpool -> gset Z -> list (pool_op * Z) -> spmpool -> Prop :=
  | pr_nil s held : pool_runs s held [] s
  | pr_cons s held o r s1 tr s' :
      legal held o -> pool_do o s = Done r s1 ->
      pool_runs s1 (held_after held [(o, r)]) tr s' -> pool_runs s held ((o, r) :: tr) s'.

Inductive alloc_runs (lo hi : Z) : gmap Z Z -> list (pool_op * Z) -> gmap Z Z -> Prop :=
  | ar_nil m : alloc_runs lo hi m [] m
  | ar_cons m o r m1 tr m' :
      alloc_step lo hi m o r m1 -> alloc_runs lo hi m1 tr m' -> alloc_runs lo hi m ((o, r) :: tr) m'.

(** One call. *)
Lemma pool_do_step s o :
  pool_wf s -> legal (dom (pool_abs s)) o ->
  wp (pool_do o) (fun r s' => pool_wf s' /\ hdr s' = hdr s /\ cb s' = cb s /\
       alloc_step (pool_lo s + 8) (pool_hi s) (pool_abs s) o r (pool_abs s') /\
       dom (pool_abs s') = held_after (dom (pool_abs s)) [(o, r)])
     (fun _ _ => False) s.
Proof.
  intros Hw Hl. destruct o as [sz|a]; cbn [pool_do legal] in *.
  - destruct Hl as [Hsz Hm]. apply wp_bind.
    eapply wp_conseq; [apply (wp_pool_spmAllocSub sz s Hw Hsz Hm)| |done].
    intros r s' Hr. apply wp_ret. pose proof Hr as (Hw' & Hh & Hc & Hr'). split; [done|].
    split; [done|]. split; [done|]. destruct r as [a|]; cbn [default].
    2: { subst s'. split; [apply as_fail|done]. }
    destruct Hr' as (Hnu & Hroom & Hu & Hend).
    assert (Ha : in_use s' (a - 8)) by (apply Hu; by right).
    destruct (in_use_room None s' _ Hw' Ha) as (Hma & Hlo & Hhi & Hpos).
    destruct (pw_hdr _ _ Hw) as (H0 & _). unfold pool_lo, pool_hi, SPM_PROCESS_SIZE in *. rewrite Hh, Hc in *.
    replace (a - 8 + 8) with a in * by lia. rewrite (pool_abs_alloc sz s a s' Hw Hr). split.
    + apply as_alloc; [lia|done|lia|lia| |by apply (pool_abs_None None)].
      intros b k [Hb ->]%(pool_abs_lookup None); [|done].
      pose proof (in_use_disjoint None s' (a - 8) (b - 8) Hw' Ha ltac:(apply Hu; by left)) as Hd.
      assert (Hne : a - 8 <> b - 8) by (intros E; by rewrite E in Hnu).
      assert (Hk : chunk_size s' (b - 8) = chunk_size s (b - 8)) by (unfold chunk_size; by rewrite (Hend _ Hb)).
      specialize (Hd Hne). lia.
    + cbn [held_after id]. rewrite (proj2 (Z.eqb_neq a 0)) by lia. by rewrite dom_insert_L.
  - apply elem_of_dom in Hl as [n Hn]. pose proof Hn as [Hu _]%(pool_abs_lookup None); [|done].
    pose proof (wp_pool_spmFree (a - 8) s Hw Hu) as Hf. replace (a - 8 + 8) with a in Hf by lia.
    eapply wp_conseq; [exact Hf| |done]. intros rc s' Hr. pose proof Hr as (-> & Hw' & Hh & Hc & _).
    split; [done|]. split; [done|]. split; [done|].
    pose proof (pool_abs_free (a - 8) s 0 s' Hw Hr) as E. replace (a - 8 + 8) with a in E by lia.
    rewrite E. split; [by apply as_free|]. cbn [held_after]. by rewrite dom_delete_L.
Qed.

Lemma pool_runs_refine s held tr s' :
  pool_runs s held tr s' -> pool_wf s -> held = dom (pool_abs s) ->
  pool_wf s' /\ hdr s' = hdr s /\ cb s' = cb s /\
  alloc_runs (pool_lo s + 8) (pool_hi s) (pool_abs s) tr (pool_abs s') /\
  dom (pool_abs s') = held_after held tr.
Proof.
  induction 1 as [s held|s held o r s1 tr s' Hl Hdo _ IH]; intros Hw ->.
  { do 3 (split; [done|]). split; [apply ar_nil|done]. }
  pose proof (pool_do_step s o Hw Hl) as Hs. unfold wp in Hs. rewrite Hdo in Hs.
  destruct Hs as (Hw1 & Hh & Hc & Hstep & Hd). destruct IH as (Hw' & Hh' & Hc' & Hr & Hd'); [done|done|].
  unfold pool_lo, pool_hi in *. rewrite Hh, Hc in *. do 3 (split; [congruence|]). split.
  - by eapply ar_cons.
  - rewrite Hd'. by destruct o.
Qed.

(** A refusal: the search for a free chunk that is large enough was in vain. *)
Lemma pool_refuses sz s s' :
  pool_wf s -> 16 <= sz -> sz mod 8 = 0 -> sz <> SPM_PROCESS_SIZE ->
  pool_do (PAlloc sz) s = Done 0 s' -> forall f c, (f, c) ∈ pPoolFreeHead s -> c < sz.
Proof.
  intros Hw Hsz Hm Hne Hdo. pose proof (wp_alloc_head sz s Hw Hsz Hm) as Hh. unfold wp in Hh.
  unfold pool_do, pool_spmAllocSub, mbind, M_bind in Hdo. rewrite (proj2 (Z.eqb_neq _ _) Hne) in Hdo.
  cbn [negb] in Hdo. destruct (alloc_head sz s) as [[a|] s1|e s1|f]; try done; [|by apply Hh].
  destruct Hh as [(Hw' & Hh' & _ & Hnu & _ & Hu & _) _]. exfalso.
  assert (a = 0) by (by injection Hdo). subst a.
  destruct (in_use_room None s1 (0 - 8) Hw') as (_ & Hlo & _); [apply Hu; by right|].
  destruct (pw_hdr _ _ Hw) as (H0 & _). unfold pool_lo, SPM_PROCESS_SIZE in Hlo. lia.
Qed.

Lemma pool_init_abs hdr cb : pool_abs (pool_init hdr cb) = ∅.
Proof.
  unfold pool_abs, frees, pool_init. cbn [pPoolFreeHead pPoolHead fmap list_fmap fst].
  rewrite filter_cons_False; [done|]. intros Hn. apply Hn. left.
Qed.

(** C5: the pool of the process manager refines an allocator of disjoint
    blocks: whatever sequence of allocations and of frees of blocks in use is
    made on a new pool, each result is one the specification allows (a new
    block of at least the size asked for, aligned, inside of the pool and apart
    from all blocks in use, or none), the blocks in use are exactly those handed
    out and not freed yet, and the next such call returns. A block of another
    size than a process block's is refused only if every free chunk is too
    small. *)
Theorem spm_pool_refines hdr cb tr s :
  0 < hdr -> hdr mod 8 = 0 -> hdr + cb <= 2 ^ 32 -> cb mod 8 = 0 -> 280 <= cb ->
  pool_runs (pool_init hdr cb) ∅ tr s ->
  alloc_runs (hdr + SPM_PROCESS_SIZE + 8) (hdr + cb) ∅ tr (pool_abs s) /\
  dom (pool_abs s) = held_after ∅ tr /\
  (forall o, legal (held_after ∅ tr) o -> exists r s', pool_do o s = Done r s') /\
  (forall sz s', 16 <= sz -> sz mod 8 = 0 -> sz <> SPM_PROCESS_SIZE ->
     pool_do (PAlloc sz) s = Done 0 s' -> forall f c, (f, c) ∈ pPoolFreeHead s -> c < sz).
Proof.
  intros H1 H2 H3 H4 H5 Hr. pose proof (pool_wf_init hdr cb H1 H2 H3 H4 H5) as Hw0.
  pose proof (pool_init_abs hdr cb) as H0.
  destruct (pool_runs_refine _ _ _ _ Hr Hw0) as (Hw & _ & _ & Ha & Hd); [by rewrite H0|].
  rewrite H0 in Ha. split; [exact Ha|]. split; [exact Hd|]. split.
  - intros o Hl. rewrite <- Hd in Hl. pose proof (pool_do_step s o Hw Hl) as Hs. unfold wp in Hs.
    destruct (pool_do o s) as [r s'|e s'|f]; [by exists r, s'|done|done].
  - intros sz s' Hsz Hm Hne Hdo. apply (pool_refuses sz s s' Hw Hsz Hm Hne Hdo).
Qed.

Definition small_pool : spmpool := pool_init 65536 4096.
Definition pool_two : spmpool := after (pool_do (PAlloc 256)) (after (pool_do (PAlloc 2000)) small_pool).
Definition pool_hole : spmpool := after (pool_do (PFree 65800)) pool_two.

Lemma spm_pool_refines_witness :
  pool_runs small_pool ∅ [(PAlloc 2000, 65800); (PAlloc 256, 69376); (PFree 65800, 0)] pool_hole /\
  dom (pool_abs pool_hole) = {[69376]}.
Proof.
  assert (Hr : pool_runs small_pool ∅ [(PAlloc 2000, 65800); (PAlloc 256, 69376); (PFree 65800, 0)] pool_hole).
  { eapply pr_cons; [by split|by apply run_value; vm_compute|].
    eapply pr_cons; [by split|by apply run_value; vm_compute|].
    eapply pr_cons; [cbn; set_solver|by apply run_value; vm_compute|]. apply pr_nil. }
  split; [exact Hr|].
  pose proof (spm_pool_refines 65536 4096 _ pool_hole eq_refl eq_refl ltac:(done) eq_refl ltac:(done) Hr) as (_ & Hd & _).
  rewrite Hd. cbn. set_solver.
Defined.

(** The second half of the refusals: when a block is freed while no chunk is
    free, [pPoolFreeTail] stays [NULL], and the search for a process block,
    which starts there, finds none. *)
Definition pool_full : spmpool := after (pool_do (PAlloc 1808)) (after (pool_do (PAlloc 2000)) small_pool).
Definition pool_no_tail : spmpool := after (pool_do (PFree 67808)) pool_full.

Lemma pool_tail_lost :
  pool_runs small_pool ∅ [(PAlloc 2000, 65800); (PAlloc 1808, 67808); (PFree 67808, 0)] pool_no_tail /\
  pPoolFreeHead pool_no_tail = [(67800, 1824)] /\
  pool_do (PAlloc SPM_PROCESS_SIZE) pool_no_tail = Done 0 pool_no_tail.
Proof.
  split; [|split].
  - eapply pr_cons; [by split|by apply run_value; vm_compute|].
    eapply pr_cons; [by split|by apply run_value; vm_compute|].
    eapply pr_cons; [cbn; set_solver|by apply run_value; vm_compute|]. apply pr_nil.
  - by vm_compute.
  - by vm_compute.
Qed.
