(* ===== verification/SpmMail.v ===== *)
(** What the process manager delivers: a parent learns how its child has died,
    and signals come out of the queue as they went in. *)

From S2P Require Import Prelude Creds Spm SpmFacts SpmAlloc SpmTable SpmCalls SpmSigs SpmMoves.
From S2P Require Import SpmSystem SpmPool SpmPoolFacts SpmInit SpmProps.
#[local] Open Scope Z_scope.

Lemma wp_done {S A} (m : M S A) Q s :
  wp m Q (fun _ _ => False) s -> exists a s', m s = Done a s' /\ Q a s'.
Proof. unfold wp. destruct (m s) as [a s'|e s'|f]; [by exists a, s'|done|done]. Qed.

(** The living process with an id. *)
Lemma alive_self {P} `{SpmPoolLaws P} n (s : spm P) I k i q r :
  SInv n (s, I) -> I !! k = Some i -> procs s !! q = Some r -> enmState r = PROCSTATE_ALIVE ->
  pid_of r = i_pid i -> q = i_self i.
Proof.
  intros [_ HT] Hk Hq Hst Hp. cbn in HT.
  destruct (t_alive _ _ _ HT q r Hq Hst) as (k' & i' & Hk' & <-).
  destruct (t_self _ _ _ HT k' i' Hk') as (_ & r' & Hr' & _ & E). simplify_eq.
  assert (k' = k) as -> by (eapply t_pids; [done|done|done|congruence]). congruence.
Qed.

(** ** The death of a child *)

Section Death.
Context {P : Type} `{SpmPoolLaws P}.
Context (n : Z) (s : spm P) (I : gmap nat inst) (k kp : nat) (i ip : inst) (m mp : PROCESS).
Context (HS : SInv n (s, I)) (Hn : 0 <= n < 2 ^ 32 - 8).
Context (Hk : I !! k = Some i) (Hkp : I !! kp = Some ip) (Hne : k <> kp).
Context (Hm : procs s !! i_self i = Some m) (Hmp : procs s !! i_self ip = Some mp).
Context (Hpar : pidParent (p_ids m) = i_pid ip).

Lemma selves_differ : i_self ip <> i_self i.
Proof. intros E. destruct HS as [_ HT]. apply Hne. by eapply TInv_self_inj. Qed.

Lemma self_facts : enmState m = PROCSTATE_ALIVE /\ pid_of m = i_pid i /\
  enmState mp = PROCSTATE_ALIVE /\ pid_of mp = i_pid ip /\ i_pid i <> i_pid ip.
Proof.
  destruct HS as [_ HT]. cbn in HT.
  destruct (t_self _ _ _ HT k i Hk) as (_ & r & Hr & ? & ?).
  destruct (t_self _ _ _ HT kp ip Hkp) as (_ & rp & Hrp & ? & ?). simplify_eq.
  split_and!; [done..|]. intros E. apply Hne. by eapply t_pids.
Qed.

(** The process ends: its parent has the notice. *)
Lemma end_notice O t :
  os_mutex O = 0 -> pTerm m = Some t ->
  exists s', spmCleanup (i_pid i) (enter (Some (i_self i)) O s) = Done () s' /\
    SInv (n + 3) (leave s', delete k I) /\
    procs s' !! i_self ip = Some (with_notice (obituary m t) mp).
Proof.
  intros Hmx Ht. destruct (ready_enter n s I k i O HS ltac:(lia) Hk) as [Hrd _].
  destruct (wp_done _ _ _ (wp_spmCleanup (i_pid i) _ m _ Hrd Hm Hmx)) as ([] & s' & Hrun & E).
  exists s'. split; [done|]. split; [by eapply ended_SInv|].
  destruct self_facts as (_ & Hpid & Hst & Hpp & Hdiff).
  destruct (en_notice _ _ _ _ _ E t Ht) as (q & r & Hq & Hsq & Hpq & Hs').
  - rewrite Hpid, Hpar. done.
  - exists (i_self ip), mp. split; [done|]. split; [done|]. congruence.
  - assert (q = i_self ip) as -> by (eapply alive_self; [exact HS|exact Hkp|exact Hq|done|congruence]).
    cbn in Hq. by simplify_eq.
Qed.
End Death.

(** The processes call [__libc_spmTerm] first. *)
Lemma term_notice {P} `{SpmPoolLaws P} n (s : spm P) I k kp i ip m mp O t reason code :
  SInv n (s, I) -> 0 <= n < 2 ^ 32 - 8 -> I !! k = Some i -> I !! kp = Some ip -> k <> kp ->
  procs s !! i_self i = Some m -> procs s !! i_self ip = Some mp -> os_mutex O = 0 ->
  pTerm m = Some t -> cn_enmDeathReason t = EXIT_REASON_NONE ->
  exists s' m' mp' t', spmTerm reason code (enter (Some (i_self i)) O s) = Done () s' /\
    SInv (n + 3) (leave s', I) /\
    procs s' !! i_self i = Some m' /\ pidParent (p_ids m') = pidParent (p_ids m) /\
    pTerm m' = Some t' /\ cn_iExitCode t' = code /\ cn_enmDeathReason t' = reason /\
    procs s' !! i_self ip = Some mp' /\ pChildNotifyHead mp' = pChildNotifyHead mp.
Proof.
  intros HS Hn Hk Hkp Hne Hm Hmp Hmx Ht Hr.
  destruct (ready_enter n s I k i O HS ltac:(lia) Hk) as [Hrd _].
  destruct (wp_done _ _ _ (wp_spmTerm _ m _ reason code Hrd Hm)) as ([] & s' & Hrun & C & Hm').
  destruct (Hm' Hmx) as (m' & Em & Et). pose proof C as (_ & Q & _ & Hmail).
  destruct (self_facts n s I k kp i ip m mp HS Hk Hkp Hne Hm Hmp) as (Hst & _ & Hstp & _ & _).
  pose proof (selves_differ n s I k kp i ip HS Hk Hkp Hne) as Hd.
  assert (Hal : forall r, enmState r = PROCSTATE_ALIVE -> live r).
  { intros r E. split; [by rewrite E|]. by rewrite E. }
  destruct (q_keep _ _ _ Q _ _ Hmp (Hal _ Hstp)) as (mp' & Hmp' & _ & _ & Hs & _).
  destruct (q_keep _ _ _ Q _ _ Hm (Hal _ Hst)) as (m'' & Hm'' & _ & Hpar & _). simplify_eq.
  assert (Halp : enmState mp' = PROCSTATE_ALIVE) by (destruct Hs as [E|[E _]]; congruence).
  destruct (Hmail (i_self ip) mp mp') as (_ & Hnotes & _); try done.
  { intros E%list_elem_of_singleton. done. }
  rewrite Ht in Et. cbn [term_set] in Et. rewrite Hr in Et. cbn in Et.
  exists s', m', mp'. eexists. split; [done|]. split; [eapply SInv_calm; [exact HS|exact C|lia]|].
  split_and!; try done.
Qed.

(** The parent asks. *)
Lemma list_find_app_last {A} (Q : A -> Prop) `{!forall x, Decision (Q x)} (l : list A) x :
  (forall y, y ∈ l -> ~ Q y) -> Q x -> list_find Q (l ++ [x]) = Some (length l, x).
Proof.
  intros Hl Hx. apply list_find_Some. split.
  - by rewrite lookup_app_r, Nat.sub_diag by lia.
  - split; [done|]. intros j y Hj Hlt. rewrite lookup_app_l in Hj by done. by eapply Hl, list_elem_of_lookup_2.
Qed.

Lemma query_notice {P} `{SpmPoolLaws P} n (s : spm P) I k i mp O x :
  SInv n (s, I) -> 0 <= n < 2 ^ 32 - 8 -> I !! k = Some i -> procs s !! i_self i = Some mp ->
  os_mutex O = 0 ->
  exists rc nt s' mp', spmQueryChildNotification x (enter (Some (i_self i)) O s) = Done (rc, nt) s' /\
    SInv (n + 3) (leave s', I) /\ procs s' !! i_self i = Some mp' /\ note_query x mp rc nt mp'.
Proof.
  intros HS Hn Hk Hmp Hmx. destruct (ready_enter n s I k i O HS ltac:(lia) Hk) as [Hrd _].
  destruct (wp_done _ _ _ (wp_spmQueryChildNotification _ mp _ x Hrd Hmp)) as ([rc nt] & s' & Hrun & C & Hq).
  destruct (Hq Hmx) as (mp' & ? & ?). exists rc, nt, s', mp'. split; [done|]. split; [|done].
  eapply SInv_calm; [exact HS|exact C|lia].
Qed.

(** C11: a child that ends after [__libc_spmTerm] leaves its parent a notice
    with its pid, exit code and reason of death: the parent's next
    [__libc_spmQueryChildNotification] for the pid returns it, and the one
    after that -ESRCH. The child has a notice block and has not called
    [__libc_spmTerm] before, the parent lives and has no older notice of that
    pid, and the mutex can be had. *)
Theorem death_notice_delivered {P} `{SpmPoolLaws P} n (s : spm P) I k kp i ip m mp t reason code
    (O1 O2 O3 O4 : osenv) :
  SInv n (s, I) -> 0 <= n < 2 ^ 32 - 20 -> I !! k = Some i -> I !! kp = Some ip -> k <> kp ->
  procs s !! i_self i = Some m -> procs s !! i_self ip = Some mp ->
  pidParent (p_ids m) = i_pid ip -> pTerm m = Some t -> cn_enmDeathReason t = EXIT_REASON_NONE ->
  (forall nt, nt ∈ pChildNotifyHead mp -> cn_pid nt <> i_pid i) ->
  Forall (fun O => os_mutex O = 0) [O1; O2; O3; O4] ->
  exists s1 s2 s3 s4 nt nt',
    spmTerm reason code (enter (Some (i_self i)) O1 s) = Done () s1 /\
    spmCleanup (i_pid i) (enter (Some (i_self i)) O2 s1) = Done () s2 /\
    spmQueryChildNotification (i_pid i) (enter (Some (i_self ip)) O3 s2) = Done (0, nt) s3 /\
    cn_pid nt = i_pid i /\ cn_iExitCode nt = code /\ cn_enmDeathReason nt = reason /\
    spmQueryChildNotification (i_pid i) (enter (Some (i_self ip)) O4 s3) = Done (- ESRCH, nt') s4.
Proof.
  intros HS Hn Hk Hkp Hne Hm Hmp Hpar Ht Hr Hold HO.
  apply Forall_cons in HO as [HO1 HO]. apply Forall_cons in HO as [HO2 HO].
  apply Forall_cons in HO as [HO3 HO]. apply Forall_cons in HO as [HO4 _].
  destruct (term_notice n s I k kp i ip m mp O1 t reason code HS ltac:(lia) Hk Hkp Hne Hm Hmp HO1 Ht Hr)
    as (s1 & m1 & mp1 & t1 & E1 & HS1 & Hm1 & Hpar1 & Ht1 & Hc & Hre & Hmp1 & Hn1).
  destruct (end_notice (n + 3) (leave s1) I k kp i ip m1 mp1 HS1 ltac:(lia) Hk Hkp Hne Hm1 Hmp1
              ltac:(congruence) O2 t1 HO2 Ht1) as (s2 & E2 & HS2 & Hp2).
  destruct (self_facts _ _ _ _ _ _ _ _ _ HS1 Hk Hkp Hne Hm1 Hmp1) as (_ & Hpid & _).
  assert (Hk2 : delete k I !! kp = Some ip) by (by rewrite lookup_delete_ne).
  destruct (query_notice _ (leave s2) _ kp ip _ O3 (i_pid i) HS2 ltac:(lia) Hk2 Hp2 HO3)
    as (rc & nt & s3 & mp3 & E3 & HS3 & Hp3 & Hq3).
  destruct (query_notice _ (leave s3) _ kp ip _ O4 (i_pid i) HS3 ltac:(lia) Hk2 Hp3 HO4)
    as (rc' & nt' & s4 & mp4 & E4 & _ & _ & Hq4).
  assert (Hold' : forall y, y ∈ pChildNotifyHead mp1 -> cn_pid y <> i_pid i) by (by rewrite Hn1).
  pose proof (list_find_app_last (fun nt => cn_pid nt = i_pid i) (pChildNotifyHead mp1) (obituary m1 t1)
                Hold' Hpid) as Hf.
  destruct Hq3 as [(-> & j & Hj & Hrest & _)|(_ & Hj & _)]; cbn [pChildNotifyHead with_notice] in Hj;
    cbn in Hj; rewrite Hf in Hj; [|done].
  injection Hj as <- <-. cbn in Hrest. rewrite delete_middle, app_nil_r in Hrest.
  destruct Hq4 as [(-> & j' & Hj' & _)|(-> & _)].
  - exfalso. rewrite Hrest in Hj'. apply list_find_Some in Hj' as (Hl & Hp & _).
    by eapply Hold', Hp; eapply list_elem_of_lookup_2.
  - by exists s1, s2, s3, s4, (obituary m1 t1), nt'.
Qed.

Definition shell_block : PROCESS := default zero_process (procs both_in !! shell).
Definition prog_block : PROCESS := default zero_process (procs both_in !! prog).

Lemma both_blocks : procs both_in !! shell = Some shell_block /\ procs both_in !! prog = Some prog_block.
Proof. split; by vm_compute. Qed.

Lemma death_notice_delivered_witness :
  exists s1 s2 s3 s4 nt nt',
    spmTerm 1 7 (enter (Some prog) os0 both_in) = Done () s1 /\
    spmCleanup 101 (enter (Some prog) os0 s1) = Done () s2 /\
    spmQueryChildNotification 101 (enter (Some shell) os0 s2) = Done (0, nt) s3 /\
    cn_pid nt = 101 /\ cn_iExitCode nt = 7 /\ cn_enmDeathReason nt = 1 /\
    spmQueryChildNotification 101 (enter (Some shell) os0 s3) = Done (- ESRCH, nt') s4.
Proof.
  refine (death_notice_delivered 12 both_in both 1%nat 0%nat (mk_inst 101 prog []) inst_parent prog_block
    shell_block (default zero_notify (pTerm prog_block)) 1 7 os0 os0 os0 os0 both_SInv _ _ _ _
    (proj2 both_blocks) (proj1 both_blocks) _ _ _ _ _).
  - lia.
  - reflexivity.
  - reflexivity.
  - discriminate.
  - by vm_compute.
  - by vm_compute.
  - by vm_compute.
  - intros nt Hnt. vm_compute in Hnt. by inversion Hnt.
  - repeat constructor.
Defined.

(** ** A signal from one process to another *)

Lemma SInv_still {P} `{SpmPoolLaws P} n (s : spm P) I self O T s' :
  SInv n (s, I) -> still T (enter self O s) s' -> SInv (n + 3) (leave s', I).
Proof. intros HS [C _]. eapply SInv_calm; [exact HS|exact C|lia]. Qed.

(** A successful call of [__libc_spmSigQueue]: the signal is at the end of the
    queue, or one of the number that is not to be queued twice waits there. *)
Lemma send_appends {P} `{SpmPoolLaws P} n (s : spm P) I k kp i ip m r O no inf fQueued s1 :
  SInv n (s, I) -> 0 <= n < 2 ^ 32 - 8 -> I !! k = Some i -> I !! kp = Some ip ->
  procs s !! i_self i = Some m -> procs s !! i_self ip = Some r -> os_mutex O = 0 -> no <> 0 ->
  spmSigQueue no (Some inf) (i_pid ip) fQueued (enter (Some (i_self i)) O s) = Done 0 s1 ->
  SInv (n + 3) (leave s1, I) /\ si_signo inf = no /\
  exists r', procs s1 !! i_self ip = Some r' /\
    ((fQueued = false -> sig_pending inf r = false) /\ sig_appended m fQueued inf r r' \/
     fQueued = false /\ sig_pending inf r = true /\ pSigHead r' = pSigHead r).
Proof.
  intros HS Hn Hk Hkp Hm Hr Hmx Hno Hrun. destruct (ready_enter n s I k i O HS ltac:(lia) Hk) as [Hrd _].
  pose proof (wp_spmSigQueue _ m _ no (Some inf) (i_pid ip) fQueued Hrd Hm) as Hw. unfold wp in Hw.
  rewrite Hrun in Hw. destruct (sig_args_ok no (Some inf)) eqn:Hargs; cbn [negb] in Hw; [|by destruct Hw].
  cbn [os enter set_os set_gpSPMSelf] in Hw. rewrite Hmx in Hw. cbn [Z.eqb negb] in Hw.
  destruct Hw as [(? & _)|(q & rq & Hq & Hsq & Hpq & Hw)]; [done|].
  assert (q = i_self ip) as -> by (eapply alive_self; [exact HS|exact Hkp|exact Hq|done|done]).
  cbn in Hq. simplify_eq. destruct Hw as [(? & _)|(_ & Hst & r' & Hr' & _ & Hw)]; [done|].
  split; [by eapply SInv_still|]. split.
  - unfold sig_args_ok in Hargs. apply andb_true_iff in Hargs as [_ Ha].
    apply andb_true_iff in Ha as [Ha _]. by apply Z.eqb_eq.
  - exists r'. split; [done|].
    destruct Hw as [(? & _)|[(_ & _ & Hw & Hsame)|[(_ & _ & _ & j & [= <-] & Hnp & _ & Hw)|(? & _)]]]; try done.
    + right. destruct Hw as [?|[?|(j & [= <-] & -> & Hpend)]]; [done|done|]. split_and!; [done|done|apply Hsame].
    + by left.
Qed.

(** The signal as its sender means it: the ids that are zero are filled in with
    those of the sender, and the lowest flag says that it is queued. *)
Record stamped m (fQueued : bool) (i j : siginfo) : Prop := {
  st_no : si_signo j = si_signo i;
  st_rest : si_data j = si_data i /\ si_reserved5 j = si_reserved5 i;
  st_pid : si_pid j = if decide (si_pid i = 0) then pid_of m else si_pid i;
  st_pgrp : si_pgrp j = if decide (si_pgrp i = 0) then pgrp (p_ids m) else si_pgrp i;
  st_uid : si_uid j = if decide (si_uid i = 0) then uid (p_ids m) else si_uid i;
  st_flag : Z.testbit (si_flags j) 0 = fQueued;
  st_flags : forall b, 0 < b < 32 -> Z.testbit (si_flags j) b = Z.testbit (si_flags i) b
}.

Lemma queued_stamped m fQueued i : stamped m fQueued i (queued_info m fQueued i).
Proof.
  assert (forall z x y : Z, (if z =? 0 then x else y) = if decide (z = 0) then x else y) as Hd.
  { intros z x y. by destruct (Z.eqb_spec z 0); case_decide. }
  split; cbn [queued_info si_signo si_flags si_pid si_pgrp si_uid si_reserved5 si_data]; [done|done|apply Hd|apply Hd|apply Hd| |].
  - destruct fQueued; [rewrite Z.lor_spec|rewrite Z.land_spec]; [apply orb_true_r|apply andb_false_r].
  - intros b Hb. destruct fQueued; [rewrite Z.lor_spec|rewrite Z.land_spec].
    + assert (Z.testbit SI_QUEUED b = false) as ->; [|apply orb_false_r].
      apply (Z.bits_above_log2 1 b); [done|]. change (Z.log2 1) with 0. lia.
    + assert (Z.testbit (not32 SI_QUEUED) b = true) as ->; [|apply andb_true_r].
      assert (forallb (Z.testbit (not32 SI_QUEUED)) (zrange 1 31) = true) as Hall by (by vm_compute).
      rewrite forallb_forall in Hall. apply Hall, list_elem_of_In, elem_of_zrange. lia.
Qed.

Lemma filter_infos (Q : siginfo -> Prop) `{!forall x, Decision (Q x)} (l : list SPMSIGNAL) :
  filter Q (sg_Info <$> l) = sg_Info <$> filter (fun g => Q (sg_Info g)) l.
Proof.
  induction l as [|g l IH]; [done|]. rewrite fmap_cons, !filter_cons, IH. by case_decide.
Qed.

Lemma sublist_fmap {A B} (f : A -> B) (l k : list A) : l `sublist_of` k -> f <$> l `sublist_of` f <$> k.
Proof. induction 1; cbn; by constructor. Qed.

Lemma dequeue_filter no n q :
  filter (fun g => si_signo (sg_Info g) = no) (dequeue no n q).2 = drop n (filter (fun g => si_signo (sg_Info g) = no) q).
Proof.
  revert n. induction q as [|g q IH]; intros n; [by destruct n|]. cbn [dequeue].
  destruct n as [|n]; [by rewrite drop_0|].
  destruct (Z.eqb_spec (si_signo (sg_Info g)) no) as [E|E].
  - rewrite (filter_cons_True _ g q) by done. specialize (IH n). by destruct (dequeue no n q).
  - rewrite (filter_cons_False _ g q) by done. specialize (IH (S n)). destruct (dequeue no (S n) q). cbn [snd] in *.
    by rewrite filter_cons_False.
Qed.

(** What the receiver takes from a queue, and what stays. *)
Lemma take_signals {P} `{SpmPoolLaws P} n (s : spm P) I k i m O no cnt :
  SInv n (s, I) -> 0 <= n < 2 ^ 32 - 5 -> I !! k = Some i -> procs s !! i_self i = Some m -> os_mutex O = 0 ->
  let queue := sg_Info <$> pSigHead m in
  let waiting := filter (fun j => si_signo j = no) queue in
  exists s2 m2,
    spmSigDequeue no cnt sizeof_siginfo (enter (Some (i_self i)) O s)
      = Done (alen (take cnt waiting), take cnt waiting) s2 /\
    procs s2 !! i_self i = Some m2 /\
    (sg_Info <$> pSigHead m2) `sublist_of` queue /\
    filter (fun j => si_signo j = no) (sg_Info <$> pSigHead m2) = drop cnt waiting /\
    filter (fun j => si_signo j <> no) (sg_Info <$> pSigHead m2) = filter (fun j => si_signo j <> no) queue.
Proof.
  intros HS Hn Hk Hm Hmx queue waiting. destruct (ready_enter n s I k i O HS ltac:(lia) Hk) as [Hrd _].
  destruct (wp_done _ _ _ (wp_spmSigDequeue _ m _ no cnt sizeof_siginfo Hrd Hm)) as (out & s2 & Hrun & Hw).
  cbn [os enter set_os set_gpSPMSelf] in Hw. rewrite Hmx, Z.ltb_irrefl in Hw. cbn [Z.eqb negb] in Hw.
  destruct Hw as (_ & Ho & Hm2). rewrite dequeue_taken, fmap_take in Ho.
  exists s2. eexists. split; [|split; [exact Hm2|]].
  - rewrite Hrun. subst waiting queue. rewrite filter_infos, Ho. unfold alen. do 2 f_equal.
    by rewrite !length_take, length_fmap.
  - cbn [pSigHead with_queue set_pSigHead]. destruct (dequeue_rest no cnt (pSigHead m)) as (Hsub & _ & Hrest).
    subst waiting queue. rewrite !filter_infos, dequeue_filter, fmap_drop, Hrest.
    split; [by apply sublist_fmap|done].
Qed.

(** C12: a queued signal arrives: after a successful [__libc_spmSigQueue] the
    receiver's [__libc_spmSigDequeue] of that number returns the signals of the
    number that were waiting, in the order they came, and then this one, as
    many as it asks for. The signal has its number and its data; the pid, the
    process group and the uid are those of the sender where the sender has put
    zero; its lowest flag says whether it is of a queued kind. A signal that is
    not is dropped if one of its number waits already. What the call does not
    take stays in the queue in the order it had: of the number what is behind
    those taken, of the other numbers everything. *)
Theorem signal_arrives {P} `{SpmPoolLaws P} n (s : spm P) I k kp i ip m r O1 O2 no inf fQueued cnt s1 :
  SInv n (s, I) -> 0 <= n < 2 ^ 32 - 8 -> I !! k = Some i -> I !! kp = Some ip ->
  procs s !! i_self i = Some m -> procs s !! i_self ip = Some r ->
  os_mutex O1 = 0 -> os_mutex O2 = 0 -> no <> 0 ->
  spmSigQueue no (Some inf) (i_pid ip) fQueued (enter (Some (i_self i)) O1 s) = Done 0 s1 ->
  let old := sg_Info <$> pSigHead r in
  exists new, (if decide (fQueued = false /\ Exists (fun g => si_signo g = no) old) then new = []
               else exists j, new = [j] /\ stamped m fQueued inf j) /\
  let waiting := filter (fun j => si_signo j = no) (old ++ new) in
  exists s2 r2,
    spmSigDequeue no cnt sizeof_siginfo (enter (Some (i_self ip)) O2 s1)
      = Done (alen (take cnt waiting), take cnt waiting) s2 /\
    procs s2 !! i_self ip = Some r2 /\
    (sg_Info <$> pSigHead r2) `sublist_of` old ++ new /\
    filter (fun j => si_signo j = no) (sg_Info <$> pSigHead r2) = drop cnt waiting /\
    filter (fun j => si_signo j <> no) (sg_Info <$> pSigHead r2) = filter (fun j => si_signo j <> no) (old ++ new).
Proof.
  intros HS Hn Hk Hkp Hm Hr HO1 HO2 Hno Hrun old.
  destruct (send_appends n s I k kp i ip m r O1 no inf fQueued s1 HS Hn Hk Hkp Hm Hr HO1 Hno Hrun)
    as (HS1 & Hsig & r' & Hr' & Hcase).
  assert (Hpend : sig_pending inf r = true <-> Exists (fun g => si_signo g = no) old).
  { unfold sig_pending, old. rewrite existsb_exists, Exists_fmap, Exists_exists, <-Hsig.
    setoid_rewrite list_elem_of_In. setoid_rewrite Z.eqb_eq. done. }
  assert (exists new, (if decide (fQueued = false /\ Exists (fun g => si_signo g = no) old) then new = []
               else exists j, new = [j] /\ stamped m fQueued inf j) /\
            sg_Info <$> pSigHead r' = old ++ new) as (new & Hnew & Hq).
  { destruct Hcase as [[Hnp (g & Hg & Hgi & _)]|(-> & Hp & Heq)].
    - exists [sg_Info g]. rewrite Hg, fmap_app. split; [|done]. case_decide as Hd.
      + destruct Hd as [Hf Hd]. apply Hpend in Hd. by rewrite (Hnp Hf) in Hd.
      + exists (sg_Info g). rewrite Hgi. split; [done|apply queued_stamped].
    - exists []. rewrite Heq, app_nil_r. split; [|done]. rewrite decide_True; [done|]. split; [done|by apply Hpend]. }
  exists new. split; [exact Hnew|]. rewrite <-Hq.
  exact (take_signals (n + 3) (leave s1) I kp ip r' O2 no cnt HS1 ltac:(lia) Hkp Hr' HO2).
Qed.

Definition usr1 : siginfo := mk_siginfo 30 0 0 0 0 0 [5].
Definition sent : spm spmpool := after (spmSigQueue 30 (Some usr1) 101 true) (enter (Some shell) os0 both_in).

Lemma sent_ok : spmSigQueue 30 (Some usr1) 101 true (enter (Some shell) os0 both_in) = Done 0 sent.
Proof. unfold sent. apply run_value. by vm_compute. Qed.

Lemma prog_queue : pSigHead prog_block = [].
Proof. by vm_compute. Qed.

Lemma signal_arrives_witness :
  exists j, stamped shell_block true usr1 j /\ exists s2 r2,
    spmSigDequeue 30 4 80 (enter (Some prog) os0 sent) = Done (1, [j]) s2 /\
    procs s2 !! prog = Some r2 /\ pSigHead r2 = [].
Proof.
  destruct (signal_arrives 12 both_in both 0%nat 1%nat inst_parent (mk_inst 101 prog []) shell_block prog_block
    os0 os0 30 usr1 true 4%nat sent both_SInv ltac:(lia) eq_refl eq_refl (proj1 both_blocks) (proj2 both_blocks)
    eq_refl eq_refl ltac:(done) sent_ok) as (new & Hnew & s2 & r2 & Hd & Hr & _ & Hno & Hother).
  rewrite decide_False in Hnew by (intros [? _]; done). destruct Hnew as (j & -> & Hj).
  rewrite prog_queue in Hd, Hno, Hother. cbn [fmap list_fmap app] in Hd, Hno, Hother.
  assert (si_signo j = 30) as Ej by apply (st_no _ _ _ _ Hj).
  rewrite (filter_cons_True _ j) in Hd, Hno by done. rewrite (filter_cons_False _ j) in Hother by tauto.
  cbn in Hd, Hno, Hother. exists j. split; [exact Hj|]. exists s2, r2. split; [exact Hd|]. split; [exact Hr|].
  destruct (pSigHead r2) as [|g q]; [done|]. exfalso. cbn in Hno, Hother.
  destruct (decide (si_signo (sg_Info g) = 30)); [discriminate Hno|]. destruct (decide _); [discriminate Hother|tauto].
Defined.

(** ** A signal to a process group *)

Lemma elem_of_receivers {P} `{SpmPoolLaws P} (s : spm P) gid p :
  Inv [] [] [] s ->
  p ∈ receivers s gid (hAlive (apHeads s)) <->
  exists r, procs s !! p = Some r /\ enmState r = PROCSTATE_ALIVE /\ pgrp (p_ids r) = gid /\ fExeInited r <> 0.
Proof.
  intros HI. unfold receivers, receives. rewrite list_elem_of_filter. split.
  - intros [Hr Hp]. destruct (inv_in _ _ _ _ HI PROCSTATE_ALIVE p Hp) as (r & E & Hs).
    rewrite E in Hr. unfold to_group in Hr. exists r. split; [done|]. split; [done|]. lia.
  - intros (r & E & Hs & Hg & He). rewrite E. unfold to_group. split; [lia|].
    destruct (inv_dom _ _ _ _ HI p r E) as [[]%elem_of_nil|Hin]. by rewrite Hs in Hin.
Qed.

Lemma fmap_same (R E : Z -> Z) (l : list Z) :
  (forall p, R p <> 0 -> E p = R p) -> (forall p, R p = 0 -> E p = 0) -> E <$> l = R <$> l.
Proof.
  intros H1 H2. apply list_fmap_ext. intros _ p _. destruct (decide (R p = 0)) as [E0|]; [|auto].
  rewrite E0. auto.
Qed.

Lemma first_err_0 (l : list Z) : first_err 0 l = 0 <-> Forall (fun e => e = 0) l.
Proof.
  assert (Hnz : forall e k, e <> 0 -> first_err e k = e).
  { intros e k He. induction k as [|x k IH]; [done|]. cbn. by rewrite (proj2 (Z.eqb_neq e 0) He). }
  induction l as [|x l IH]; [done|]. cbn. rewrite Forall_cons. destruct (decide (x = 0)) as [->|Hx].
  - rewrite IH. naive_solver.
  - rewrite Hnz by done. naive_solver.
Qed.

(** The result of the call in terms of the members' results. *)
Lemma pgrp_result_eq (R : Z -> Z) T :
  pgrp_result (first_err 0 (R <$> T)) (cnt 0 (R <$> T)) =
  match T with
  | [] => - ESRCH
  | _ => if forallb (fun p => R p =? 0) T then 0
         else if (first_err 0 (R <$> T) =? - EPERM) && existsb (fun p => R p =? 0) T then 0
         else first_err 0 (R <$> T)
  end.
Proof.
  destruct T as [|p T]; [done|]. set (l := p :: T). unfold pgrp_result.
  assert (Hall : (first_err 0 (R <$> l) =? 0) = forallb (fun p => R p =? 0) l).
  { apply eq_bool_prop_intro. rewrite !Is_true_true, Z.eqb_eq, first_err_0, forallb_forall, Forall_fmap, Forall_forall.
    split; intros Hl x Hx; [apply Z.eqb_eq|apply Z.eqb_eq]; apply Hl; by apply list_elem_of_In. }
  assert (Hsome : (0 <? cnt 0 (R <$> l)) = existsb (fun p => R p =? 0) l).
  { apply eq_bool_prop_intro. rewrite !Is_true_true, Z.ltb_lt, <- cnt_pos, list_elem_of_fmap, existsb_exists.
    split; intros (x & H1 & H2); exists x; rewrite <- list_elem_of_In in *; split; (done || lia). }
  rewrite Hall, Hsome. destruct (forallb _ l) eqn:Hf; [|done].
  assert (Hx : existsb (fun p => R p =? 0) l = true).
  { apply existsb_exists. exists p. split; [by left|]. rewrite forallb_forall in Hf. apply Hf. by left. }
  rewrite <- Hsome in Hx. pose proof (proj1 (Z.ltb_lt _ _) Hx).
  rewrite (proj2 (Z.eqb_neq (cnt 0 (R <$> l)) 0)) by lia. apply Z.eqb_eq, Hall.
Qed.

(** C24: [__libc_spmSigQueuePGrp] without a callback tries exactly the living,
    initialised members of the group, each once; every one of them ends with
    the effect of a single delivery and its result, the mail of all other
    processes stays as it is, and the call returns 0 when a member was reached
    and the first failure, if any, is EPERM, -ESRCH when there is no member,
    and the first failure otherwise. *)
Theorem group_signal_reaches {P} `{SpmPoolLaws P} n (s : spm P) I k i m O no o gid fQueued :
  SInv n (s, I) -> 0 <= n < 2 ^ 32 - 8 -> I !! k = Some i -> procs s !! i_self i = Some m ->
  os_mutex O = 0 -> sig_args_ok no o = true ->
  let group := if gid =? 0 then pgrp (p_ids m) else gid in
  exists T R rc s',
    spmSigQueuePGrp no o gid fQueued None (enter (Some (i_self i)) O s) = Done rc s' /\
    NoDup T /\
    (forall p, p ∈ T <-> exists r, procs s !! p = Some r /\ enmState r = PROCSTATE_ALIVE /\
                                   pgrp (p_ids r) = group /\ fExeInited r <> 0) /\
    (forall p r, p ∈ T -> procs s !! p = Some r -> exists r', procs s' !! p = Some r' /\
       sig_effect (i_self i) p m r no o fQueued true (R p) r') /\
    mail T (procs s) (procs s') /\ SInv (n + 3) (leave s', I) /\
    rc = match T with
         | [] => - ESRCH
         | _ => if forallb (fun p => R p =? 0) T then 0
                else if (first_err 0 (R <$> T) =? - EPERM) && existsb (fun p => R p =? 0) T then 0
                else first_err 0 (R <$> T)
         end.
Proof.
  intros HS Hn Hk Hm Hmx Hargs group. destruct (ready_enter n s I k i O HS ltac:(lia) Hk) as [Hrd _].
  destruct (wp_done _ _ _ (wp_spmSigQueuePGrp _ m _ no o gid fQueued None Hrd Hm)) as (rc & s' & Hrun & Hw).
  rewrite Hargs in Hw. cbn [negb os enter set_os set_gpSPMSelf apHeads] in Hw. rewrite Hmx in Hw.
  cbn [Z.eqb negb] in Hw. destruct Hw as (R & E & (Hst & Heff & HRE) & ->). fold group in Heff, Hst |- *.
  set (T := receivers _ group _) in *.
  assert (HI : Inv [] [] [] (enter (Some (i_self i)) O s)) by apply Hrd.
  exists T, R. eexists _, s'. split; [exact Hrun|]. split; [|split; [|split; [|split; [|split]]]].
  - apply NoDup_filter. apply (Inv_head_nodup _ _ _ _ PROCSTATE_ALIVE HI).
  - intros p. apply (elem_of_receivers _ _ _ HI).
  - intros p r Hp Hr. destruct (Heff p r Hp Hr) as (r' & ? & _ & ?). by exists r'.
  - apply Hst.
  - by eapply SInv_still.
  - rewrite (fmap_same R E); [|apply HRE|intros p; by apply HRE]. apply pgrp_result_eq.
Qed.

Lemma group_signal_reaches_witness :
  exists rc s', spmSigQueuePGrp 30 (Some usr1) 100 false None (enter (Some shell) os0 both_in) = Done rc s' /\
    SInv 15 (leave s', both).
Proof.
  destruct (group_signal_reaches 12 both_in both 0%nat inst_parent shell_block os0 30 (Some usr1) 100 false
    both_SInv ltac:(lia) eq_refl (proj1 both_blocks) eq_refl eq_refl)
    as (T & R & rc & s' & Hrun & _ & _ & _ & _ & HS & _).
  exists rc, s'. split; [exact Hrun|exact HS].
Defined.

(** ** The quota of sent signals *)

(** The shell sends the program a signal, which the program takes at once. *)
Definition send_and_take (s : spm spmpool) : spm spmpool :=
  leave (after (spmSigDequeue 30 1 80) (enter (Some prog) os0
    (leave (after (spmSigQueue 30 (Some usr1) 101 true) (enter (Some shell) os0 s))))).

(** After 32 signals that have all been taken, the next one is refused for ever:
    [spmFreeSignal] does not count [cSigsSent] of the sender down. *)
Lemma quota_never_refills :
  let s := Nat.iter 32 send_and_take both_in in
  value (spmSigQueue 30 (Some usr1) 101 true) (enter (Some shell) os0 s) = Some (- EAGAIN) /\
  pSigHead <$> procs s !! prog = Some [] /\ cSigActive s = 0.
Proof. by vm_compute. Qed.
