(* ===== verification/SpmLife.v ===== *)
(** The life of a process block: how a process comes by it, what a shortage of
    memory may do to it, and how it ends. *)

From S2P Require Import Prelude Creds Spm SpmFacts SpmAlloc SpmTable SpmCalls SpmSigs SpmMoves.
From S2P Require Import SpmSystem SpmPool SpmPoolFacts SpmInit SpmProps SpmMail.
#[local] Open Scope Z_scope.

(** ** Allocation *)

(** C22: [__libc_spmAlloc] gives a block that nobody else owns, or none, and
    whatever it has to free to get the memory, and whether it succeeds or not,
    it takes away nothing that is in use: every block a process points to, every
    living process and every zombie is still there with all its members, but for
    the inherit data; the lists of the living and of the zombies, and the mail,
    are the same. *)
Theorem alloc_disturbs_nobody {P} `{SpmPoolLaws P} n (s : spm P) I k i O sz :
  SInv n (s, I) -> 0 <= n < 2 ^ 32 - 8 -> I !! k = Some i -> os_mutex O = 0 -> 0 < sz <= 2 ^ 31 ->
  exists o s', libc_spmAlloc sz (enter (Some (i_self i)) O s) = Done o s' /\
    SInv (n + 3) (leave s', I) /\
    match o with Some a => a ∉ owned s' /\ a ∈ pool_used (pool s') | None => True end /\
    (forall p r, procs s !! p = Some r ->
       p ∈ refs I \/ enmState r = PROCSTATE_ALIVE \/ enmState r = PROCSTATE_ZOMBIE ->
       exists r', procs s' !! p = Some r' /\ (r' = r \/ r' = set_pInherit 0 r)) /\
    hAlive (apHeads s') = hAlive (apHeads s) /\ hZombie (apHeads s') = hZombie (apHeads s) /\
    mail [] (procs s) (procs s').
Proof.
  intros HS Hn Hk Hmx Hsz. destruct (ready_enter n s I k i O HS ltac:(lia) Hk) as [Hrd _].
  pose proof (rd_inv _ _ Hrd) as HI. pose proof (ready_alloc_ok _ _ Hrd) as Hok.
  assert (Hw : wp (libc_spmAlloc sz) (allocated [] [] (enter (Some (i_self i)) O s)) (fun _ _ => False)
                 (enter (Some (i_self i)) O s)).
  { unfold libc_spmAlloc. rewrite (proj2 (Z.eqb_neq sz 0)) by lia. apply wp_bind.
    unfold spmRequestMutexErrno. apply wp_bind, wp_mutex. cbn [os enter set_os set_gpSPMSelf].
    rewrite Hmx. cbn [Z.eqb]. apply wp_ret. apply wp_spmAlloc; [done|done|lia]. }
  destruct (wp_done _ _ _ Hw) as (o & s' & Hrun & HI' & HF).
  assert (HI0 : Inv [] [] [] s') by (destruct o as [a|]; [eapply Inv_forget; exact HI'|exact HI']).
  assert (HC : calm 0 [] (enter (Some (i_self i)) O s) s').
  { split; [done|]. split; [by eapply frame_quiet|]. split; [apply HF|]. by eapply frame_mail. }
  exists o, s'. split; [done|]. split; [eapply SInv_calm; [exact HS|exact HC|lia]|]. split.
  { destruct o as [a|]; [|done]. split.
    - pose proof (inv_nodup _ _ _ _ HI') as Hnd. cbn in Hnd. by apply NoDup_cons in Hnd as [? _].
    - apply (inv_used _ _ _ _ HI'). left. }
  split; [|split; [apply HF|split; [apply HF|apply HC]]].
  intros p r Hp Hcase. apply (fr_keep _ _ _ HF p r Hp).
  destruct Hcase as [Hin|[Hst|Hst]]; [|by right; left|by right; right; left].
  destruct (TInv_live n (procs s) I (proj2 HS) p Hin) as (r' & Hr' & Hl & _). simplify_eq.
  eapply (kept_live _ _ _ HI); [exact Hp|done].
Qed.

Lemma alloc_disturbs_nobody_witness :
  exists o s', libc_spmAlloc 600000 (enter (Some shell) os0 both_in) = Done o s' /\ SInv 15 (leave s', both) /\
    hAlive (apHeads s') = hAlive (apHeads both_in).
Proof.
  destruct (alloc_disturbs_nobody 12 both_in both 0%nat inst_parent os0 600000 both_SInv ltac:(lia) eq_refl
    eq_refl ltac:(lia)) as (o & s' & Hrun & HS & _ & _ & Ha & _).
  exists o, s'. split; [exact Hrun|]. split; [exact HS|exact Ha].
Defined.

(** ** A process starts *)

Lemma filter_head_all {A} (f : A -> bool) (l : list A) :
  head (filter (fun x => f x = true) l) = None -> forall x, x ∈ l -> f x = false.
Proof.
  intros Hh x Hx. destruct (f x) eqn:E; [|done].
  assert (Hin : x ∈ filter (fun x => f x = true) l) by (by apply list_elem_of_filter).
  destruct (filter _ l); [by apply elem_of_nil in Hin|done].
Qed.

(** The embryo a process takes has its pid, if one of its parent's embryos has. *)
Lemma embryo_for_pid (s : spm spmpool) x ppid l p q :
  embryo_for s x ppid None l = Some p -> q ∈ l -> child_with s x ppid q = true ->
  child_with s x ppid p = true.
Proof.
  unfold embryo_for. destruct (head (filter (fun p => child_with s x ppid p = true) l)) as [p'|] eqn:E.
  - intros [= <-] _ _. apply head_in in E. by apply list_elem_of_filter in E as [? _].
  - intros _ Hq Hc. by rewrite (filter_head_all _ _ E q Hq) in Hc.
Qed.

(** C23: a program that starts while its parent has embryos becomes one of them:
    the one its parent has written its pid into, if there is such an embryo. Its
    block is the embryo's, with the ids, the inherit data and the references it
    had, and one reference more; no other block changes, and [gpSPMSelf] is the
    block. *)
Theorem register_takes_embryo n (s : spm spmpool) I k x ppid sid' O q rq :
  SInv n (s, I) -> 0 <= n < 2 ^ 32 - 8 -> I !! k = None -> 0 < x ->
  (forall k' i, I !! k' = Some i -> i_pid i <> x) ->
  procs s !! q = Some rq -> enmState rq = PROCSTATE_EMBRYO -> pidParent (p_ids rq) = ppid ->
  exists p r s', spmInitRegister x ppid sid' (enter None O s) = Done () s' /\
    gpSPMSelf s' = Some p /\
    procs s !! p = Some r /\ enmState r = PROCSTATE_EMBRYO /\ pidParent (p_ids r) = ppid /\
    (pid_of rq = x -> pid_of r = x) /\
    procs s' = <[p := opened (born x sid' r)]> (procs s) /\
    SInv (n + 3) (leave s', <[k := mk_inst x p []]> I).
Proof.
  intros HS Hn Hk Hx Hpid Hq Hsq Hpq. pose proof HS as [HI HT]. cbn in HI, HT.
  set (e := enter None O s). assert (HIe : Inv [] [] [] e) by (by apply Inv_enter).
  assert (Hin : q ∈ hEmbryo (apHeads s)).
  { destruct (inv_dom _ _ _ _ HI q rq Hq) as [[]%elem_of_nil|Hin]. by rewrite Hsq in Hin. }
  assert (Hch : child_of e ppid q = true) by (unfold child_of; cbn; rewrite Hq; by apply Z.eqb_eq).
  assert (Hok : register_ok ppid e) by (right; by exists q).
  assert (Hal : forall p r, procs e !! p = Some r -> enmState r = PROCSTATE_ALIVE -> pid_of r <> x).
  { intros p r. by apply (register_new_pid n s I x HS Hpid). }
  destruct (wp_done _ _ _ (wp_spmInitRegister x ppid sid' e HIe eq_refl
              (TInv_bound n _ I (2 ^ 32 - 4) HT ltac:(lia)) Hal Hok)) as ([] & s' & Hrun & o & s1 & Hreg & Ho).
  pose proof (op_register n s I k x ppid sid' O HS ltac:(lia) Hk Hx Hpid Hok) as HS'.
  unfold wp in HS'. fold e in HS'. rewrite Hrun in HS'.
  destruct Hreg as (_ & _ & Hreg). destruct (embryo_for e x ppid None (hEmbryo (apHeads e))) as [p|] eqn:Ee.
  2: { pose proof (embryo_for_None _ _ _ _ _ Ee Hin). congruence. }
  destruct Hreg as (r & -> & Hr & Hsr & Hpr & E1). destruct Ho as (r1 & Hr1 & _ & Hself & E2).
  rewrite E1, lookup_insert_eq in Hr1. injection Hr1 as <-. rewrite E1, insert_insert_eq in E2.
  exists p, r, s'. do 5 (split; [done|]). split; [|split; [done|]].
  - intros Hpx. assert (Hc : child_with e x ppid q = true).
    { unfold child_with. cbn. rewrite Hq. apply andb_true_iff. split; by apply Z.eqb_eq. }
    pose proof (embryo_for_pid e x ppid _ p q Ee Hin Hc) as Hc'. unfold child_with in Hc'.
    rewrite Hr in Hc'. apply andb_true_iff in Hc' as [_ Hc']. by apply Z.eqb_eq.
  - rewrite Hself in HS'. apply HS'. intros p' [= <-] Hz.
    destruct (inv_in _ _ _ _ HI PROCSTATE_ZOMBIE p Hz) as (r' & Hr' & Hs'). cbn in Hr. congruence.
Qed.

Lemma spawned_SInv : SInv 9 (spawned, {[0%nat := inst_parent]}).
Proof.
  apply (steps_SInv 0 3 (new_memory, ∅) _ new_memory_SInv); [done|done|].
  repeat eapply steps_S; [apply steps_0|exact both_step1|exact both_step2|exact both_step3].
Qed.

Definition embryo_block : PROCESS := default zero_process (procs spawned !! prog).

Lemma register_takes_embryo_witness :
  exists p r s', spmInitRegister 101 100 1 (enter None os0 spawned) = Done () s' /\
    gpSPMSelf s' = Some p /\ procs spawned !! p = Some r /\ pid_of r = 101.
Proof.
  assert (Hq : procs spawned !! prog = Some embryo_block) by (by vm_compute).
  assert (Hs : enmState embryo_block = PROCSTATE_EMBRYO) by (by vm_compute).
  assert (Hp : pidParent (p_ids embryo_block) = 100) by (by vm_compute).
  assert (Hx : pid_of embryo_block = 101) by (by vm_compute).
  assert (Hpid : forall k' i, ({[0%nat := inst_parent]} : gmap nat inst) !! k' = Some i -> i_pid i <> 101).
  { intros k' i Hi. apply lookup_singleton_Some in Hi as [_ <-]. done. }
  destruct (register_takes_embryo 9 spawned {[0%nat := inst_parent]} 1%nat 101 100 1 os0 prog embryo_block
    spawned_SInv ltac:(lia) eq_refl ltac:(lia) Hpid Hq Hs Hp) as (p & r & s' & Hrun & Hself & Hr & _ & _ & Hpr & _).
  exists p, r, s'. split; [exact Hrun|]. split; [exact Hself|]. split; [exact Hr|exact (Hpr Hx)].
Defined.

(** ** A process ends *)

(** What is left of the block of a process that has ended, [c] being the
    references to it. *)
Definition remains (c : Z) (r : PROCESS) : Prop :=
  pSigHead r = [] /\ pChildNotifyHead r = [] /\ pInherit r = 0 /\ pInheritLocked r = 0 /\
  (0 <= c <= 1 -> enmState r = PROCSTATE_FREE) /\
  (2 <= c -> enmState r = PROCSTATE_ZOMBIE /\ cReferences r = c - 1).

Lemma remains_zombie_or_free r : 0 <= cReferences r -> remains (cReferences r) (zombie_or_free r).
Proof.
  intros Hc. unfold zombie_or_free, dropped. destruct (Z.ltb_spec 0 (cReferences r));
    cbn [cReferences set_cReferences]; destruct (_ =? 0) eqn:E; (do 4 (split; [done|])); split; cbn; lia || done.
Qed.

(** C13: when a process ends, its block and those of its unborn children lose
    their signals, notices and inherit data and one reference, if they have any,
    and become zombies, or free blocks if no reference is left; the blocks of all
    other processes stay as they are, but for the notice the parent gets. The
    mutex can be had. *)
Theorem process_ends n (s : spm spmpool) I k i m O :
  SInv n (s, I) -> 0 <= n < 2 ^ 32 - 8 -> I !! k = Some i -> procs s !! i_self i = Some m -> os_mutex O = 0 ->
  exists s', spmCleanup (i_pid i) (enter (Some (i_self i)) O s) = Done () s' /\
    SInv (n + 3) (leave s', delete k I) /\ gpSPMSelf s' = None /\
    (exists r', procs s' !! i_self i = Some r' /\ remains (cReferences m) r') /\
    (forall p r, procs s !! p = Some r -> enmState r = PROCSTATE_EMBRYO -> pidParent (p_ids r) = i_pid i ->
       exists r', procs s' !! p = Some r' /\ remains (cReferences r) r') /\
    (forall p r, procs s !! p = Some r -> p <> i_self i ->
       ~ (enmState r = PROCSTATE_EMBRYO /\ pidParent (p_ids r) = i_pid i) ->
       procs s' !! p = Some r \/
       exists t, pTerm m = Some t /\ pid_of r = pidParent (p_ids m) /\
         procs s' !! p = Some (with_notice (obituary m t) r)).
Proof.
  intros HS Hn Hk Hm Hmx. destruct (ready_enter n s I k i O HS ltac:(lia) Hk) as [Hrd _].
  destruct (wp_done _ _ _ (wp_spmCleanup (i_pid i) _ m _ Hrd Hm Hmx)) as ([] & s' & Hrun & E).
  exists s'. split; [done|]. split; [by eapply ended_SInv|]. split; [apply E|]. split; [|split].
  - destruct (en_me _ _ _ _ _ E) as (r2 & Hr2 & Hc). exists (zombie_or_free r2). split; [done|].
    rewrite <- Hc. apply remains_zombie_or_free. rewrite Hc.
    destruct (TInv_live n _ I (proj2 HS) (i_self i)) as (r & Hr & _ & ?); [by eapply TInv_self_ref|].
    cbn in Hr. simplify_eq. lia.
  - intros p r Hp Hst Hpar. exists (zombie_or_free r).
    split; [by eapply en_embryo|]. apply remains_zombie_or_free.
    eapply TInv_nonneg; [exact (proj2 HS)|exact Hp|]. by rewrite Hst.
  - intros p r Hp Hne Hno. destruct (en_other _ _ _ _ _ E p r Hne Hp Hno) as (r' & Hr' & [->|Hnote]); [by left|].
    destruct Hnote as (t & Ht & _ & Hpid & ->). right. by exists t.
Qed.

Lemma process_ends_witness :
  exists s' r', spmCleanup 101 (enter (Some prog) os0 both_in) = Done () s' /\
    procs s' !! prog = Some r' /\ enmState r' = PROCSTATE_ZOMBIE /\ cReferences r' = 1.
Proof.
  destruct (process_ends 12 both_in both 1%nat (mk_inst 101 prog []) prog_block os0 both_SInv ltac:(lia)
    eq_refl (proj2 both_blocks) eq_refl) as (s' & Hrun & _ & _ & (r' & Hr & Hrem) & _).
  assert (Hc : cReferences prog_block = 2) by (by vm_compute).
  destruct Hrem as (_ & _ & _ & _ & _ & Hz). rewrite Hc in Hz. destruct (Hz ltac:(lia)) as [H1 H2].
  exists s', r'. split; [exact Hrun|]. split; [exact Hr|]. split; [exact H1|]. rewrite H2. reflexivity.
Defined.

(** ** A query that finds nothing *)

(** [__libc_spmQueryProcess] for another process finds it, counts a reference,
    goes on with the next list and returns [NULL]: the reference is lost. *)
Lemma query_finds_nobody :
  let s := after (spmQueryProcess 101) (enter (Some shell) os0 both_in) in
  value (spmQueryProcess 101) (enter (Some shell) os0 both_in) = Some None /\
  cReferences <$> procs both_in !! prog = Some 2 /\ cReferences <$> procs s !! prog = Some 3.
Proof. by vm_compute. Qed.
