(* ===== verification/CStr.v ===== *)
(** C strings read through a moving pointer: a string is the list of its bytes
    from the pointer on, without the terminating zero. A read or a step behind
    the terminating zero is [None]. Shared by [Fnmatch] and [Printf]. *)

From S2P Require Import Prelude.
#[local] Open Scope Z_scope.

(** [*s], [s[1]] and [s + n] *)
Definition chr (s : list Z) : Z := match s with [] => 0 | c :: _ => c end.
Definition chr1 (s : list Z) : option Z := match s with [] => None | _ :: s => Some (chr s) end.
Definition adv (n : Z) (s : list Z) : option (list Z) :=
  if n <=? alen s then Some (drop (Z.to_nat n) s) else None.

Definition is_string (s : list Z) : Prop := Forall (fun c => c <> 0) s.

Lemma chr_zero s : is_string s -> chr s = 0 -> s = [].
Proof. by destruct 1. Qed.

Lemma is_string_tail s : is_string s -> is_string (tail s).
Proof. by destruct 1; [constructor|]. Qed.

Lemma adv_0 s : adv 0 s = Some s.
Proof. unfold adv. pose proof (alen_nonneg s). by zbool. Qed.

Lemma adv_S n c s : 0 <= n -> adv (n + 1) (c :: s) = adv n s.
Proof.
  intros Hn. unfold adv. rewrite alen_cons, Z2Nat.inj_add, Nat.add_1_r by lia.
  by destruct (Z.leb_spec n (alen s)); zbool.
Qed.

Lemma adv_1 c s : adv 1 (c :: s) = Some s.
Proof. rewrite (adv_S 0) by lia. apply adv_0. Qed.

Lemma adv_2 c d s : adv 2 (c :: d :: s) = Some s.
Proof. rewrite (adv_S 1) by lia. apply adv_1. Qed.

Lemma chr1_cons c s : chr1 (c :: s) = Some (chr s).
Proof. done. Qed.
