(* ===== verification/Fnmatch.v ===== *)
(** Matching of path names against wildcards
    ([src/src/emx/src/lib/misc/fnmatch.c]). Strings are those of [CStr.v];
    [None] is a pointer behind the terminating zero.
    [FnmatchFacts.v] has the theorems. *)

From S2P Require Import Prelude CStr.
#[local] Open Scope Z_scope.

(** ** Data *)

Definition FNM_MATCH : Z := 0.
Definition FNM_NOMATCH : Z := 1.
Definition FNM_ERR : Z := 2.
Definition FNM_STYLE_MASK : Z := 15.
Definition FNM_POSIX : Z := 0.
Definition FNM_OS2 : Z := 1.
Definition FNM_DOS : Z := 2.
Definition FNM_NOESCAPE : Z := 16.
Definition FNM_PATHNAME : Z := 32.
Definition FNM_PERIOD : Z := 64.
Definition FNM_IGNORECASE : Z := 128.
Definition FNM_PATHPREFIX : Z := 256.

Definition QUEST : Z := 63.
Definition STAR : Z := 42.
Definition DOT : Z := 46.
Definition SLASH : Z := 47.
Definition BACKSLASH : Z := 92.
Definition LBRACKET : Z := 91.
Definition RBRACKET : Z := 93.
Definition BANG : Z := 33.
Definition CARET : Z := 94.
Definition DASH : Z := 45.
Definition COLON : Z := 58.

(** What the functions use of the locale: the length of a multibyte character
    by its first byte, [tolower], [isalpha], and [memicmp], which asks the
    Unicode functions of the system in multibyte locales. *)
Record locale := mk_locale {
  lc_prefix : Z -> Z;
  lc_tolower : Z -> Z;
  lc_isalpha : Z -> bool;
  lc_memicmp : list Z -> list Z -> Z -> option bool
}.

Definition CHK_MBCS_PREFIX (L : locale) (c : Z) : bool := 1 <? lc_prefix L c.
Definition IS_MBCS_PREFIX (L : locale) (c : Z) : bool := negb (lc_prefix L c =? 1).

(** [if (CHK_MBCS_PREFIX(s[0]) && s[1] != 0) s += mbcl; else ++s;] *)
Definition next_char (L : locale) (s : list Z) : option (list Z) :=
  if CHK_MBCS_PREFIX L (chr s) then
    c1 ← chr1 s;
    adv (if c1 =? 0 then 1 else lc_prefix L (chr s)) s
  else adv 1 s.

Definition IS_OS2_COMP_SEP (c : Z) : bool := (c =? SLASH) || (c =? BACKSLASH).
Definition IS_OS2_COMP_END (c : Z) : bool := (c =? 0) || IS_OS2_COMP_SEP c.
Definition IS_UNIX_COMP_SEP (c : Z) : bool := c =? SLASH.

(** ** OS/2 and DOS styles *)

Fixpoint skip_loop (fuel : nat) (L : locale) (src : list Z) : option (list Z) :=
  match fuel with
  | O => None
  | S fuel =>
      if IS_OS2_COMP_END (chr src) then Some src
      else src ← next_char L src; skip_loop fuel L src
  end.
Definition skip_comp_os2 (L : locale) (src : list Z) : option (list Z) :=
  src ← skip_loop (S (length src)) L src;
  if negb (chr src =? 0) then adv 1 src else Some src.

Fixpoint has_colon_loop (fuel : nat) (L : locale) (p : list Z) : option bool :=
  match fuel with
  | O => None
  | S fuel =>
      if chr p =? 0 then Some false
      else if chr p =? COLON then Some true
      else p ← next_char L p; has_colon_loop fuel L p
  end.
Definition has_colon (L : locale) (p : list Z) : option bool := has_colon_loop (S (length p)) L p.

(** [do ++mask; while ( *mask == '*')] *)
Fixpoint skip_stars (mask : list Z) : list Z :=
  match mask with
  | c :: mask' => if c =? STAR then skip_stars mask' else mask
  | [] => mask
  end.

(** The loop over NAME behind an asterisk; [rest] is the recursive call with
    what follows the asterisk. *)
Fixpoint star_os2 (fuel : nat) (L : locale) (flags : Z) (rest : list Z -> option Z) (name : list Z)
    : option Z :=
  match fuel with
  | O => None
  | S fuel =>
      rc ← rest name;
      if negb (rc =? FNM_NOMATCH) then Some rc
      else if IS_OS2_COMP_END (chr name) then Some FNM_NOMATCH
      else if (chr name =? DOT) && (Z.land flags FNM_STYLE_MASK =? FNM_DOS) then Some FNM_NOMATCH
      else name ← next_char L name; star_os2 fuel L flags rest name
  end.

(** Two characters match. *)
Definition same_char (L : locale) (flags c d : Z) : bool :=
  if has_bits flags FNM_IGNORECASE then lc_tolower L c =? lc_tolower L d else c =? d.

Fixpoint match_comp_os2 (fuel : nat) (L : locale) (mask name : list Z) (flags : Z) (has_dot : bool)
    : option Z :=
  match fuel with
  | O => None
  | S fuel =>
      let c := chr mask in
      mb ← (if CHK_MBCS_PREFIX L c then c1 ← chr1 mask; Some (negb (c1 =? 0)) else Some false);
      if (mb : bool) then
        differ ← lc_memicmp L mask name (lc_prefix L c);
        if (differ : bool) then Some FNM_NOMATCH else
        mask ← adv (lc_prefix L c) mask; name ← adv (lc_prefix L c) name;
        match_comp_os2 fuel L mask name flags has_dot
      else if c =? 0 then
        if chr name =? 0 then Some FNM_MATCH
        else if has_bits flags FNM_PATHPREFIX && IS_OS2_COMP_SEP (chr name) then Some FNM_MATCH
        else Some FNM_NOMATCH
      else if IS_OS2_COMP_SEP c then
        if IS_OS2_COMP_SEP (chr name) then Some FNM_MATCH
        else
          c1 ← chr1 mask;
          if has_bits flags FNM_PATHPREFIX && (c1 =? 0) && (chr name =? 0) then Some FNM_MATCH
          else Some FNM_NOMATCH
      else if c =? QUEST then
        name ← (if negb (chr name =? DOT) && negb (IS_OS2_COMP_END (chr name))
                then next_char L name else Some name);
        mask ← adv 1 mask;
        match_comp_os2 fuel L mask name flags has_dot
      else if c =? STAR then
        star_os2 (S (length name)) L flags
          (fun name => match_comp_os2 fuel L (skip_stars mask) name flags has_dot) name
      else if c =? DOT then
        mask ← adv 1 mask;
        if chr name =? DOT then name ← adv 1 name; match_comp_os2 fuel L mask name flags has_dot
        else if has_dot || negb (IS_OS2_COMP_END (chr name)) then Some FNM_NOMATCH
        else match_comp_os2 fuel L mask name flags has_dot
      else if negb (same_char L flags c (chr name)) then Some FNM_NOMATCH
      else
        mask ← adv 1 mask; name ← adv 1 name;
        match_comp_os2 fuel L mask name flags has_dot
  end.

Fixpoint dot_loop (fuel : nat) (L : locale) (s : list Z) : option (list Z) :=
  match fuel with
  | O => None
  | S fuel =>
      if negb (IS_OS2_COMP_END (chr s)) && negb (chr s =? DOT)
      then s ← next_char L s; dot_loop fuel L s
      else Some s
  end.
Definition match_comp (L : locale) (mask name : list Z) (flags : Z) : option Z :=
  let style := Z.land flags FNM_STYLE_MASK in
  if (style =? FNM_OS2) || (style =? FNM_DOS) then
    s ← dot_loop (S (length name)) L name;
    match_comp_os2 (S (length mask)) L mask name flags (chr s =? DOT)
  else Some FNM_ERR.

(** ** Unix styles *)

Fixpoint star_unix (fuel : nat) (L : locale) (flags : Z) (rest : list Z -> option Z) (name : list Z)
    : option Z :=
  match fuel with
  | O => None
  | S fuel =>
      rc ← rest name;
      if negb (rc =? FNM_NOMATCH) then Some rc
      else if chr name =? 0 then Some FNM_NOMATCH
      else if has_bits flags FNM_PATHNAME && IS_UNIX_COMP_SEP (chr name) then Some FNM_NOMATCH
      else name ← next_char L name; star_unix fuel L flags rest name
  end.

(** The loop over the characters of a set; [start] is the length of the mask at
    its beginning. The result is the mask where the loop ends and [matched], or
    [None] inside for [_FNM_ERR]. *)
Fixpoint set_loop (fuel : nat) (L : locale) (flags start : Z) (n : Z) (mask : list Z) (matched : bool)
    : option (option (list Z * bool)) :=
  match fuel with
  | O => None
  | S fuel =>
      if (chr mask =? 0) || ((chr mask =? RBRACKET) && negb (alen mask =? start))
      then Some (Some (mask, matched))
      else
        let escape := negb (has_bits flags FNM_NOESCAPE) in
        let c1 := chr mask in
        mask ← adv 1 mask;
        if IS_MBCS_PREFIX L c1 then Some None else
        let quoted := escape && (c1 =? BACKSLASH) in
        if quoted && (chr mask =? 0) then Some (Some (mask, matched)) else
        let c1 := if quoted then chr mask else c1 in
        mask ← (if quoted then adv 1 mask else Some mask);
        range ← (if chr mask =? DASH then c ← chr1 mask; Some (negb (c =? RBRACKET)) else Some false);
        if (range : bool) then
          mask ← adv 1 mask;
          mask ← (if escape && (chr mask =? BACKSLASH) then adv 1 mask else Some mask);
          if chr mask =? 0 then Some (Some (mask, matched)) else
          let c2 := chr mask in
          mask ← adv 1 mask;
          if IS_MBCS_PREFIX L c2 then Some None else
          set_loop fuel L flags start n mask (matched || ((c1 <=? n) && (n <=? c2)))
        else set_loop fuel L flags start n mask (matched || ((c1 <=? n) && (n <=? c1)))
  end.

(** [name == comp], for two pointers into the same string. *)
Definition same_ptr (s t : list Z) : bool := alen s =? alen t.

Definition leading_dot (flags : Z) (name comp : list Z) : bool :=
  (chr name =? DOT) && has_bits flags FNM_PERIOD && same_ptr name comp.

Fixpoint match_unix (fuel : nat) (L : locale) (mask name : list Z) (flags : Z) (comp : list Z)
    : option Z :=
  match fuel with
  | O => None
  | S fuel =>
      let c := chr mask in
      let escape := negb (has_bits flags FNM_NOESCAPE) in
      if CHK_MBCS_PREFIX L c then
        differ ← lc_memicmp L mask name (lc_prefix L c);
        if (differ : bool) then Some FNM_NOMATCH else
        mask ← adv (lc_prefix L c) mask; name ← adv (lc_prefix L c) name;
        match_unix fuel L mask name flags comp
      else if c =? 0 then
        if chr name =? 0 then Some FNM_MATCH
        else if has_bits flags FNM_PATHPREFIX && IS_UNIX_COMP_SEP (chr name) then Some FNM_MATCH
        else Some FNM_NOMATCH
      else if c =? QUEST then
        if chr name =? 0 then Some FNM_NOMATCH
        else if has_bits flags FNM_PATHNAME && IS_UNIX_COMP_SEP (chr name) then Some FNM_NOMATCH
        else if leading_dot flags name comp then Some FNM_NOMATCH
        else
          mask ← adv 1 mask; name ← next_char L name;
          match_unix fuel L mask name flags comp
      else if c =? STAR then
        if leading_dot flags name comp then Some FNM_NOMATCH
        else star_unix (S (length name)) L flags
               (fun name => match_unix fuel L (skip_stars mask) name flags comp) name
      else if c =? SLASH then
        last ← (if has_bits flags FNM_PATHPREFIX && (chr name =? 0) then
                  c1 ← chr1 mask;
                  if c1 =? 0 then Some true
                  else if escape && (c1 =? BACKSLASH) then
                    mask1 ← adv 1 mask; c2 ← chr1 mask1; Some (c2 =? 0)
                  else Some false
                else Some false);
        if negb (IS_UNIX_COMP_SEP (chr name) || last) then Some FNM_NOMATCH
        else
          mask ← adv 1 mask;
          name ← (if negb (chr name =? 0) then adv 1 name else Some name);
          match_unix fuel L mask name flags (if has_bits flags FNM_PATHNAME then name else comp)
      else if c =? LBRACKET then
        if chr name =? 0 then Some FNM_NOMATCH
        else if has_bits flags FNM_PATHNAME && IS_UNIX_COMP_SEP (chr name) then Some FNM_NOMATCH
        else if leading_dot flags name comp then Some FNM_NOMATCH
        else
          mask ← adv 1 mask;
          let invert := (chr mask =? BANG) || (chr mask =? CARET) in
          if negb invert && IS_MBCS_PREFIX L (chr name) then Some FNM_NOMATCH else
          start ← (if invert then adv 1 mask else Some mask);
          r ← set_loop (S (length start)) L flags (alen start) (chr name) start false;
          match r with
          | None => Some FNM_ERR
          | Some (end_, matched) =>
              if chr end_ =? 0 then
                if negb (chr name =? LBRACKET) then Some FNM_NOMATCH
                else name ← adv 1 name; match_unix fuel L mask name flags comp
              else if negb (xorb invert matched) then Some FNM_NOMATCH
              else
                mask ← adv 1 end_;
                name ← (if negb (chr name =? 0) then next_char L name else Some name);
                match_unix fuel L mask name flags comp
          end
      else if c =? BACKSLASH then
        mask ← adv 1 mask;
        if negb escape then
          if negb (chr name =? BACKSLASH) then Some FNM_NOMATCH
          else name ← adv 1 name; match_unix fuel L mask name flags comp
        else if (chr mask =? STAR) || (chr mask =? QUEST) then
          if negb (chr mask =? chr name) then Some FNM_NOMATCH
          else mask ← adv 1 mask; name ← adv 1 name; match_unix fuel L mask name flags comp
        else match_unix fuel L mask name flags comp
      else if negb (same_char L flags c (chr name)) then Some FNM_NOMATCH
      else
        mask ← adv 1 mask; name ← adv 1 name;
        match_unix fuel L mask name flags comp
  end.

(** ** The whole path *)

Definition drive_of (L : locale) (s : list Z) : option Z :=
  if lc_isalpha L (chr s) then
    c1 ← chr1 s;
    Some (if c1 =? COLON then chr s else -1)
  else Some (-1).

(** The loop over the components. *)
Fixpoint comps_loop (fuel : nat) (L : locale) (mask name : list Z) (flags : Z) : option Z :=
  match fuel with
  | O => None
  | S fuel =>
      if (chr mask =? 0) && (chr name =? 0) then Some FNM_MATCH
      else if (chr mask =? 0) && has_bits flags FNM_PATHPREFIX then Some FNM_MATCH
      else
        rc ← match_comp L mask name flags;
        if negb (rc =? FNM_MATCH) then Some rc
        else
          mask ← skip_comp_os2 L mask; name ← skip_comp_os2 L name;
          comps_loop fuel L mask name flags
  end.

(** [for (i = 0; i < 2; ++i)]: the two slashes of a UNC name. *)
Fixpoint unc_slashes (i : nat) (mask : list Z) : option (option (list Z)) :=
  match i with
  | O => Some (Some mask)
  | S i =>
      if chr mask =? SLASH then mask ← adv 1 mask; unc_slashes i mask
      else if chr mask =? BACKSLASH then
        c1 ← chr1 mask;
        if c1 =? SLASH then mask ← adv 2 mask; unc_slashes i mask else Some None
      else Some None
  end.

(** [s[0]] and [s[1]] satisfy [f]. *)
Definition two (f : Z -> bool) (s : list Z) : option bool :=
  if f (chr s) then c1 ← chr1 s; Some (f c1) else Some false.

Definition fnmatch_unsigned (L : locale) (mask name : list Z) (flags : Z) : option Z :=
  m_drive ← drive_of L mask;
  n_drive ← drive_of L name;
  if negb (m_drive =? n_drive)
     && ((m_drive =? -1) || (n_drive =? -1) || negb (has_bits flags FNM_IGNORECASE)
         || negb (lc_tolower L m_drive =? lc_tolower L n_drive))
  then Some FNM_NOMATCH else
  mask ← (if m_drive =? -1 then Some mask else adv 2 mask);
  name ← (if n_drive =? -1 then Some name else adv 2 name);
  colon ← has_colon L mask;
  colon ← (if (colon : bool) then Some true else has_colon L name);
  if (colon : bool) then Some FNM_ERR else
  let style := Z.land flags FNM_STYLE_MASK in
  let comps mask name := comps_loop (S (length mask + length name)) L mask name flags in
  if (style =? FNM_OS2) || (style =? FNM_DOS) then
    unc ← two IS_OS2_COMP_SEP name;
    if (unc : bool) then
      munc ← two IS_OS2_COMP_SEP mask;
      if negb munc then Some FNM_NOMATCH
      else name ← adv 2 name; mask ← adv 2 mask; comps mask name
    else comps mask name
  else if style =? FNM_POSIX then
    unc ← two (fun c => c =? SLASH) name;
    if (unc : bool) then
      name ← adv 2 name;
      m ← unc_slashes 2 mask;
      match m with
      | None => Some FNM_NOMATCH
      | Some mask => match_unix (S (length mask)) L mask name flags name
      end
    else match_unix (S (length mask)) L mask name flags name
  else comps mask name.

Definition fnmatch : locale -> list Z -> list Z -> Z -> option Z := fnmatch_unsigned.
