(* ===== verification/FnmatchFacts.v ===== *)
(** What [fnmatch] means: the patterns of both styles as syntax with a matching
    relation, and the functions of [Fnmatch.v] as decision procedures for it.
    The theorems are about locales without multibyte characters. *)

From S2P Require Import Prelude CStr Fnmatch.
#[local] Open Scope Z_scope.

(** ** Patterns in Unix styles *)

(** One element of a pattern. [TSep last] is a slash; [last] says that it ends
    the pattern. [TChar exact c] is the character [c], of either case unless
    [exact] or the comparison is exact anyway. *)
Inductive tok :=
  | TAny
  | TStar
  | TSep (last : bool)
  | TSet (invert : bool) (items : list (Z * Z))
  | TChar (exact : bool) (c : Z).

(** A character of a set, after an optional backslash. *)
Definition set_char (escape : bool) (m : list Z) : option (Z * list Z) :=
  match m with
  | [] => None
  | c :: m =>
      if escape && (c =? BACKSLASH)
      then match m with [] => None | c :: m => Some (c, m) end
      else Some (c, m)
  end.

Definition set_high (escape : bool) (lo : Z) (m : list Z) : option (Z * list Z) :=
  if (chr m =? DASH) && negb (chr (tail m) =? RBRACKET)
  then set_char escape (tail m) else Some (lo, m).

(** The ranges up to the closing bracket, and what follows it. *)
Fixpoint set_items (fuel : nat) (escape first : bool) (m : list Z)
    : option (list (Z * Z) * list Z) :=
  match fuel, m with
  | O, _ | _, [] => None
  | S fuel, c :: m' =>
      if (c =? RBRACKET) && negb first then Some ([], m')
      else
        '(lo, m) ← set_char escape m;
        '(hi, m) ← set_high escape lo m;
        '(items, m) ← set_items fuel escape false m;
        Some ((lo, hi) :: items, m)
  end.
Definition in_items (items : list (Z * Z)) (n : Z) : bool :=
  existsb (fun '(lo, hi) => (lo <=? n) && (n <=? hi)) items.

(** A bracket that is not closed is a character; a backslash before a
    character other than an asterisk or a question mark disappears. *)
Fixpoint parse_loop (fuel : nat) (escape : bool) (mask : list Z) : list tok :=
  match fuel, mask with
  | O, _ | _, [] => []
  | S fuel, c :: m =>
      if c =? QUEST then TAny :: parse_loop fuel escape m
      else if c =? STAR then TStar :: parse_loop fuel escape (skip_stars m)
      else if c =? SLASH then
        TSep (bool_decide (m = [] \/ escape = true /\ m = [BACKSLASH])) :: parse_loop fuel escape m
      else if c =? LBRACKET then
        let invert := (chr m =? BANG) || (chr m =? CARET) in
        let body := if invert then tail m else m in
        match set_items (S (length body)) escape true body with
        | Some (items, m) => TSet invert items :: parse_loop fuel escape m
        | None => TChar true LBRACKET :: parse_loop fuel escape m
        end
      else if c =? BACKSLASH then
        if negb escape then TChar true BACKSLASH :: parse_loop fuel escape m
        else if (chr m =? STAR) || (chr m =? QUEST)
        then TChar true (chr m) :: parse_loop fuel escape (tail m)
        else parse_loop fuel escape m
      else TChar false c :: parse_loop fuel escape m
  end.
Definition parse (flags : Z) (mask : list Z) : list tok :=
  parse_loop (S (length mask)) (negb (has_bits flags FNM_NOESCAPE)) mask.

Section Matching.
Context (L : locale) (flags : Z).

(** A dot at the beginning of a component that must be matched as such. *)
Definition hidden (lead : bool) (c : Z) : Prop :=
  lead = true /\ c = DOT /\ has_bits flags FNM_PERIOD = true.

(** What a question mark or a set may match at all. *)
Definition plain (lead : bool) (c : Z) : Prop :=
  ~ (c = SLASH /\ has_bits flags FNM_PATHNAME = true) /\ ~ hidden lead c.

(** [lead] says that the name is at the beginning of a component. *)
Inductive fnm : bool -> list tok -> list Z -> Prop :=
  | fnm_end lead : fnm lead [] []
  | fnm_prefix lead name : has_bits flags FNM_PATHPREFIX = true -> fnm lead [] (SLASH :: name)
  | fnm_any lead ts c name : plain lead c -> fnm false ts name -> fnm lead (TAny :: ts) (c :: name)
  | fnm_star lead ts pre name :
      ~ hidden lead (chr (pre ++ name)) ->
      (has_bits flags FNM_PATHNAME = true -> SLASH ∉ pre) ->
      fnm (lead && bool_decide (pre = [])) ts name -> fnm lead (TStar :: ts) (pre ++ name)
  | fnm_sep lead last ts name :
      fnm (has_bits flags FNM_PATHNAME) ts name -> fnm lead (TSep last :: ts) (SLASH :: name)
  | fnm_last lead : has_bits flags FNM_PATHPREFIX = true -> fnm lead [TSep true] []
  | fnm_set lead invert items ts c name :
      plain lead c -> in_items items c <> invert -> fnm false ts name ->
      fnm lead (TSet invert items :: ts) (c :: name)
  | fnm_char lead (exact : bool) ts c d name :
      (if exact then c = d else same_char L flags c d = true) ->
      fnm false ts name -> fnm lead (TChar exact c :: ts) (d :: name).

(** ** Patterns in OS/2 and DOS styles: one component *)

(** [has_dot] says that the name has a dot; otherwise there is one behind it
    as often as the pattern asks. *)
Inductive os2 (has_dot : bool) : list Z -> list Z -> Prop :=
  | os2_end : os2 has_dot [] []
  | os2_any m c n : c <> DOT -> os2 has_dot m n -> os2 has_dot (QUEST :: m) (c :: n)
  | os2_none m n : n = [] \/ chr n = DOT -> os2 has_dot m n -> os2 has_dot (QUEST :: m) n
  | os2_star m pre n :
      (Z.land flags FNM_STYLE_MASK = FNM_DOS -> DOT ∉ pre) ->
      os2 has_dot m n -> os2 has_dot (STAR :: m) (pre ++ n)
  | os2_dot m n : os2 has_dot m n -> os2 has_dot (DOT :: m) (DOT :: n)
  | os2_implicit m : has_dot = false -> os2 has_dot m [] -> os2 has_dot (DOT :: m) []
  | os2_char m c d n :
      c <> QUEST -> c <> STAR -> c <> DOT -> same_char L flags c d = true ->
      os2 has_dot m n -> os2 has_dot (c :: m) (d :: n).

Definition comp_matches (m n : list Z) : Prop := os2 (bool_decide (DOT ∈ n)) m n.

(** Two lists of components. With [_FNM_PATHPREFIX] the name may have more of
    them, and a separator at the end of the pattern does not count. *)
Fixpoint trim (ms : list (list Z)) : list (list Z) :=
  match ms with
  | [] | [ [] ] => []
  | m :: ms => m :: trim ms
  end.
Definition comps_match (ms ns : list (list Z)) : Prop :=
  if has_bits flags FNM_PATHPREFIX
  then exists ns', ns' `prefix_of` ns /\ Forall2 comp_matches (trim ms) ns'
  else Forall2 comp_matches ms ns.
End Matching.

(** The components of a path. *)
Fixpoint comps_of (s : list Z) : list (list Z) :=
  match s with
  | [] => [ [] ]
  | c :: s =>
      if IS_OS2_COMP_SEP c then [] :: comps_of s
      else match comps_of s with [] => [ [c] ] | x :: xs => (c :: x) :: xs end
  end.

(** A function that returns whether [P] holds. *)
Definition decides (o : option Z) (P : Prop) : Prop :=
  o = Some FNM_MATCH /\ P \/ o = Some FNM_NOMATCH /\ ~ P.

(** Locales without multibyte characters, and what [tolower] leaves alone. *)
Definition single_byte (L : locale) : Prop := forall c, lc_prefix L c = 1.
Definition lower_ok (L : locale) : Prop :=
  forall c d, IS_OS2_COMP_END d = true -> lc_tolower L c = lc_tolower L d -> c = d.

(** ** Decisions, and single characters *)

Lemma decides_yes (P : Prop) : P -> decides (Some FNM_MATCH) P.
Proof. by left. Qed.

Lemma decides_no (P : Prop) : ~ P -> decides (Some FNM_NOMATCH) P.
Proof. by right. Qed.

Lemma decides_iff o (P Q : Prop) : decides o P -> (P <-> Q) -> decides o Q.
Proof. unfold decides. tauto. Qed.

Section SingleByte.
Context (L : locale) (single : single_byte L).

Lemma chk_single c : CHK_MBCS_PREFIX L c = false.
Proof. unfold CHK_MBCS_PREFIX. by rewrite single. Qed.

Lemma is_single c : IS_MBCS_PREFIX L c = false.
Proof. unfold IS_MBCS_PREFIX. by rewrite single. Qed.

Lemma next_single c s : next_char L (c :: s) = Some s.
Proof. unfold next_char. rewrite chk_single. apply adv_1. Qed.
End SingleByte.

(** Evaluates the steps of the functions over a string that is not empty. *)
Ltac str_step :=
  match goal with
  | H : single_byte ?L |- context [CHK_MBCS_PREFIX ?L _] => rewrite (chk_single L H)
  | H : single_byte ?L |- context [IS_MBCS_PREFIX ?L _] => rewrite (is_single L H)
  | H : single_byte ?L |- context [next_char ?L (_ :: _)] => rewrite (next_single L H)
  | |- context [adv 1 (_ :: _)] => rewrite adv_1
  | |- context [adv 2 (_ :: _ :: _)] => rewrite adv_2
  | |- context [mbind _ (Some _)] => cbn [mbind option_bind]
  | |- context [chr (_ :: _)] => cbn [chr]
  | |- context [chr1 (_ :: _)] => cbn [chr1]
  end.
Ltac str_steps := repeat (str_step; cbv beta iota; cbn [negb andb orb]).

(** ** Sets *)

Lemma set_char_tail escape m c m' :
  set_char escape m = Some (c, m') -> is_string m -> is_string m' /\ alen m' < alen m.
Proof.
  intros Heq Hs. unfold set_char in Heq.
  destruct Hs as [|d m Hd Hs]; [done|]. destruct (escape && _).
  - destruct Hs; simplify_eq/=. rewrite !alen_cons. auto with lia.
  - simplify_eq/=. rewrite !alen_cons. auto with lia.
Qed.

Lemma set_high_tail escape lo m c m' :
  set_high escape lo m = Some (c, m') -> is_string m -> is_string m' /\ alen m' <= alen m.
Proof.
  unfold set_high. intros Heq Hs. destruct (_ && _); [|by simplify_eq].
  apply set_char_tail in Heq as [Hm' Hl]; [|by destruct Hs].
  split; [done|]. destruct Hs; cbn [tail] in Hl; rewrite ?alen_cons; lia.
Qed.

Lemma set_items_tail fuel escape first m items m' :
  set_items fuel escape first m = Some (items, m') -> is_string m -> is_string m' /\ alen m' < alen m.
Proof.
  revert first m items m'. induction fuel as [|fuel IH]; intros first m items m'; [done|].
  destruct m as [|c m]; [done|]. cbn [set_items]. destruct (_ && negb first); intros Heq Hs.
  { simplify_eq. rewrite alen_cons. inversion Hs; subst. auto with lia. }
  destruct (set_char escape (c :: m)) as [[lo m1]|] eqn:Hlo; [|done].
  apply set_char_tail in Hlo as [Hm1 Hl1]; [|done]. cbn [mbind option_bind] in Heq.
  destruct (set_high escape lo m1) as [[hi m2]|] eqn:Hhi; [|done].
  apply set_high_tail in Hhi as [Hm2 Hl2]; [|done]. cbn [mbind option_bind] in Heq.
  destruct (set_items fuel escape false m2) as [[its m3]|] eqn:Hrec; [|done].
  apply IH in Hrec as [? ?]; [|done]. simplify_eq/=. auto with lia.
Qed.

(** The steps of the loop of the code, with [k] for the rest of the loop. *)
Lemma set_low_step {A} (escape : bool) c m (k : Z -> list Z -> option A) (e : list Z -> option A) :
  is_string m ->
  (if escape && (c =? BACKSLASH) && (chr m =? 0) then e m
   else mask ← (if escape && (c =? BACKSLASH) then adv 1 m else Some m);
        k (if escape && (c =? BACKSLASH) then chr m else c) mask)
  = match set_char escape (c :: m) with Some (c, m) => k c m | None => e [] end.
Proof.
  intros Hs. unfold set_char. destruct (escape && _); [|done].
  destruct Hs as [|d m Hd Hs]; [done|]. str_steps. by rewrite (proj2 (Z.eqb_neq d 0) Hd).
Qed.

Lemma set_high_step {A} L (single : single_byte L) (escape : bool) lo m
    (k : Z -> list Z -> option A) (e : list Z -> option A) (e' : option A) :
  is_string m ->
  (range ← (if chr m =? DASH then c ← chr1 m; Some (negb (c =? RBRACKET)) else Some false);
   if (range : bool) then
     mask ← adv 1 m;
     mask ← (if escape && (chr mask =? BACKSLASH) then adv 1 mask else Some mask);
     if chr mask =? 0 then e mask else
     let c2 := chr mask in
     mask ← adv 1 mask;
     if IS_MBCS_PREFIX L c2 then e' else k c2 mask
   else k lo m)
  = match set_high escape lo m with Some (c, m) => k c m | None => e [] end.
Proof.
  intros Hs. unfold set_high. destruct (chr m =? DASH) eqn:Hd; [|done].
  destruct Hs as [|d m _ Hs]; [done|]. str_steps. cbn [tail].
  destruct (chr m =? RBRACKET) eqn:Hr; cbn [negb]; [done|]. str_steps. unfold set_char.
  destruct Hs as [|c m Hc Hs]; [by destruct escape|]. str_steps.
  destruct (escape && _); str_steps.
  - destruct Hs as [|b m Hb Hs]; [done|]. str_steps. by rewrite (proj2 (Z.eqb_neq b 0) Hb).
  - by rewrite (proj2 (Z.eqb_neq c 0) Hc).
Qed.

(** One round of the loop. *)
Lemma set_loop_S L (single : single_byte L) flags start n fuel c m matched :
  c <> 0 -> is_string m ->
  let escape := negb (has_bits flags FNM_NOESCAPE) in
  let last := Some (Some ([], matched)) in
  set_loop (S fuel) L flags start n (c :: m) matched
  = if (c =? RBRACKET) && negb (alen (c :: m) =? start) then Some (Some (c :: m, matched))
    else match set_char escape (c :: m) with
         | Some (lo, m) =>
             match set_high escape lo m with
             | Some (hi, m) =>
                 set_loop fuel L flags start n m (matched || (lo <=? n) && (n <=? hi))
             | None => last
             end
         | None => last
         end.
Proof.
  intros Hc Hs escape last. cbn [set_loop]. str_steps. rewrite (proj2 (Z.eqb_neq c 0) Hc). cbn [orb].
  destruct ((c =? RBRACKET) && _); [done|]. str_steps. fold escape.
  pose (loop lo hi m := set_loop fuel L flags start n m (matched || (lo <=? n) && (n <=? hi))).
  pose (stop m := Some (Some (m : list Z, matched))).
  etransitivity.
  - exact (set_low_step escape c m (fun lo m =>
      range ← (if chr m =? DASH then c ← chr1 m; Some (negb (c =? RBRACKET)) else Some false);
      if (range : bool) then
        mask ← adv 1 m;
        mask ← (if escape && (chr mask =? BACKSLASH) then adv 1 mask else Some mask);
        if chr mask =? 0 then stop mask else
        let c2 := chr mask in
        mask ← adv 1 mask;
        if IS_MBCS_PREFIX L c2 then Some None else loop lo c2 mask
      else loop lo lo m) stop Hs).
  - destruct (set_char escape (c :: m)) as [[lo m']|] eqn:Hlo; [|done].
    apply set_char_tail in Hlo as [Hm' _]; [|by constructor].
    exact (set_high_step L single escape lo m' (loop lo) stop (Some None) Hm').
Qed.

(** The loop of the code reads the items of the set, and ends at the end of the
    string where there is no set. *)
Lemma set_loop_spec L flags start n (single : single_byte L) fuel mask matched :
  (length mask < fuel)%nat -> is_string mask -> alen mask <= start ->
  exists e matched', set_loop fuel L flags start n mask matched = Some (Some (e, matched'))
    /\ match set_items fuel (negb (has_bits flags FNM_NOESCAPE)) (alen mask =? start) mask with
       | Some (items, m) => e = RBRACKET :: m /\ matched' = matched || in_items items n
       | None => e = []
       end.
Proof.
  revert mask matched. induction fuel as [|fuel IH]; intros mask matched Hf Hs Hl; [lia|].
  destruct Hs as [|c m Hc Hs]; [by exists [], matched|].
  rewrite set_loop_S by done. cbn [set_items]. set (esc := negb (has_bits flags FNM_NOESCAPE)) in *.
  destruct ((c =? RBRACKET) && _) eqn:Hend.
  { breflect. subst c. exists (RBRACKET :: m), matched. by rewrite orb_false_r. }
  destruct (set_char esc (c :: m)) as [[lo m1]|] eqn:Hlo; [|by eexists _, _].
  apply set_char_tail in Hlo as [Hm1 Hl1]; [|by constructor]. cbn [mbind option_bind].
  destruct (set_high esc lo m1) as [[hi m2]|] eqn:Hhi; [|by eexists _, _].
  apply set_high_tail in Hhi as [Hm2 Hl2]; [|done]. cbn [mbind option_bind].
  destruct (IH m2 (matched || (lo <=? n) && (n <=? hi))) as (e & b & -> & He);
    [unfold alen in *; lia..|done|lia|].
  replace (alen m2 =? start) with false in He by (symmetry; apply Z.eqb_neq; lia).
  exists e, b. split; [done|]. destruct (set_items fuel esc false m2) as [[items m3]|]; [|done].
  destruct He as [-> ->]. cbn [mbind option_bind in_items existsb].
  by rewrite orb_assoc.
Qed.
