(* ===== verification/FnmatchUnix.v ===== *)
(** [match_unix] decides the matching relation of the Unix styles. *)

From S2P Require Import Prelude CStr Fnmatch FnmatchFacts.
#[local] Open Scope Z_scope.

Lemma skip_stars_tail m : is_string m -> is_string (skip_stars m) /\ (length (skip_stars m) <= length m)%nat.
Proof.
  induction 1 as [|c m Hc Hs [IHs IHl]]; cbn [skip_stars]; [by split; [constructor|]|].
  destruct (c =? STAR); cbn [length]; [auto with lia|]. split; [by constructor|done].
Qed.

(** Whether a suffix of the name begins where the component does. *)
Lemma same_ptr_app pre n comp :
  alen (pre ++ n) <= alen comp ->
  same_ptr n comp = same_ptr (pre ++ n) comp && bool_decide (pre = []).
Proof.
  intros Hl. unfold same_ptr. rewrite alen_app in *. pose proof (alen_nonneg pre).
  destruct pre as [|c pre]; [by rewrite Z.add_0_l, andb_true_r|].
  rewrite alen_cons in *. pose proof (alen_nonneg pre). rewrite bool_decide_false, andb_false_r by done.
  apply Z.eqb_neq. lia.
Qed.

Lemma same_ptr_tail c n comp : alen (c :: n) <= alen comp -> same_ptr n comp = false.
Proof. intros Hl. by rewrite (same_ptr_app [c]), andb_false_r. Qed.

Lemma leading_dot_spec flags name comp :
  leading_dot flags name comp = true <-> hidden flags (same_ptr name comp) (chr name).
Proof. unfold leading_dot, hidden. rewrite !andb_true_iff, Z.eqb_eq. tauto. Qed.

Section Unix.
Context (L : locale) (single : single_byte L) (lower : lower_ok L) (flags : Z).

(** What an asterisk can match: some characters of the component. *)
Lemma star_unix_spec fuel rest (R : list Z -> Prop) name :
  (length name < fuel)%nat -> is_string name ->
  (forall pre n, name = pre ++ n -> decides (rest n) (R n)) ->
  decides (star_unix fuel L flags rest name)
    (exists pre n, name = pre ++ n /\ (has_bits flags FNM_PATHNAME = true -> SLASH ∉ pre) /\ R n).
Proof.
  revert name. induction fuel as [|fuel IH]; intros name Hf Hs HR; [lia|]. cbn [star_unix].
  destruct (HR [] name eq_refl) as [[-> Hn]|[-> Hn]]; cbn [mbind option_bind];
    [change (negb (FNM_MATCH =? FNM_NOMATCH)) with true
    |change (negb (FNM_NOMATCH =? FNM_NOMATCH)) with false]; cbv iota.
  { apply decides_yes. exists [], name. repeat split; [|done]. intros _ []%elem_of_nil. }
  destruct Hs as [|c n Hc Hs].
  { apply decides_no. intros (pre & n & Heq & _ & Hn'). symmetry in Heq.
    by apply app_nil in Heq as [-> ->]. }
  rewrite (proj2 (Z.eqb_neq (chr (c :: n)) 0) Hc).
  destruct (has_bits flags FNM_PATHNAME && IS_UNIX_COMP_SEP (chr (c :: n))) eqn:Hsep.
  { apply andb_true_iff in Hsep as [Hpath Hc'%Z.eqb_eq]. cbn [chr] in Hc'. subst c.
    apply decides_no. intros (pre & n' & Heq & Hpre & Hn').
    destruct pre as [|x pre]; simplify_eq/=. destruct (Hpre Hpath). left. }
  str_steps. eapply decides_iff; [apply IH; [cbn in Hf; lia|done|]|].
  { intros pre n' ->. by apply (HR (c :: pre)). }
  split.
  - intros (pre & n' & -> & Hpre & Hn'). exists (c :: pre), n'. repeat split; [|done].
    intros Hpath [Heq|Hin]%elem_of_cons; [|by apply Hpre].
    by rewrite Hpath, <-Heq in Hsep.
  - intros (pre & n' & Heq & Hpre & Hn'). destruct pre as [|x pre]; simplify_eq/=.
    exists pre, n'. repeat split; [|done]. intros Hpath Hin. apply (Hpre Hpath). by right.
Qed.

(** The tests before a question mark or a set. *)
Lemma plain_guard name comp o (P : Prop) :
  is_string name ->
  (forall d n, name = d :: n -> is_string n -> plain flags (same_ptr name comp) d -> decides o P) ->
  (P -> exists d n, name = d :: n /\ plain flags (same_ptr name comp) d) ->
  decides (if chr name =? 0 then Some FNM_NOMATCH
           else if has_bits flags FNM_PATHNAME && IS_UNIX_COMP_SEP (chr name) then Some FNM_NOMATCH
           else if leading_dot flags name comp then Some FNM_NOMATCH
           else o) P.
Proof.
  intros Hs Ho HP. destruct (chr name =? 0) eqn:Hz.
  { breflect. apply chr_zero in Hz as ->; [|done]. apply decides_no.
    intros (d & n & ? & _)%HP. done. }
  destruct (_ && IS_UNIX_COMP_SEP _) eqn:Hsep.
  { apply decides_no. intros (d & n & -> & [Hd _])%HP. destruct Hd.
    apply andb_true_iff in Hsep as [? ?%Z.eqb_eq]. done. }
  destruct (leading_dot flags name comp) eqn:Hlead.
  { apply decides_no. intros (d & n & -> & [_ Hd])%HP. destruct Hd.
    by apply (proj1 (leading_dot_spec _ _ _)) in Hlead. }
  destruct Hs as [|d n Hd Hs]; [done|]. apply (Ho d n); [done..|]. split.
  - intros [-> Hpath]. by rewrite Hpath in Hsep.
  - intros Hh. by rewrite (proj2 (leading_dot_spec flags (d :: n) comp) Hh) in Hlead.
Qed.

(** ** The relation, by the first element of the pattern *)

Lemma fnm_nil_iff lead name :
  fnm L flags lead [] name
  <-> name = [] \/ exists n, name = SLASH :: n /\ has_bits flags FNM_PATHPREFIX = true.
Proof. split; [inversion 1; naive_solver|intros [->|(n & -> & ?)]; by constructor]. Qed.

Lemma fnm_any_iff lead ts name :
  fnm L flags lead (TAny :: ts) name
  <-> exists c n, name = c :: n /\ plain flags lead c /\ fnm L flags false ts n.
Proof. split; [inversion 1; naive_solver|intros (c & n & -> & ? & ?); by constructor]. Qed.

Lemma fnm_set_iff lead invert items ts name :
  fnm L flags lead (TSet invert items :: ts) name
  <-> exists c n, name = c :: n /\ plain flags lead c /\ in_items items c <> invert
        /\ fnm L flags false ts n.
Proof. split; [inversion 1; naive_solver|intros (c & n & -> & ? & ? & ?); by constructor]. Qed.

Lemma fnm_char_iff lead (exact : bool) c ts name :
  fnm L flags lead (TChar exact c :: ts) name
  <-> exists d n, name = d :: n /\ (if exact then c = d else same_char L flags c d = true)
        /\ fnm L flags false ts n.
Proof. split; [inversion 1; naive_solver|intros (d & n & -> & ? & ?); by constructor]. Qed.

Lemma fnm_sep_iff lead last ts name :
  fnm L flags lead (TSep last :: ts) name
  <-> (exists n, name = SLASH :: n /\ fnm L flags (has_bits flags FNM_PATHNAME) ts n)
      \/ name = [] /\ last = true /\ ts = [] /\ has_bits flags FNM_PATHPREFIX = true.
Proof.
  split; [inversion 1; naive_solver|].
  intros [(n & -> & ?)|(-> & -> & -> & ?)]; by constructor.
Qed.

Lemma fnm_star_iff lead ts name :
  fnm L flags lead (TStar :: ts) name
  <-> ~ hidden flags lead (chr name)
      /\ exists pre n, name = pre ++ n /\ (has_bits flags FNM_PATHNAME = true -> SLASH ∉ pre)
           /\ fnm L flags (lead && bool_decide (pre = [])) ts n.
Proof. split; [inversion 1; naive_solver|intros (? & pre & n & -> & ? & ?); by constructor]. Qed.

(** ** One round of the loop *)

Local Notation escape := (negb (has_bits flags FNM_NOESCAPE)).

(** [match_unix] with this fuel is right. *)
Definition solved (fuel : nat) : Prop := forall mask name comp,
  (length mask < fuel)%nat -> is_string mask -> is_string name -> alen name <= alen comp ->
  decides (match_unix fuel L mask name flags comp)
    (fnm L flags (same_ptr name comp) (parse_loop fuel escape mask) name).

Lemma solved_tail fuel mask c n comp :
  solved fuel -> (length mask < fuel)%nat -> is_string mask -> is_string n ->
  alen (c :: n) <= alen comp ->
  decides (match_unix fuel L mask n flags comp)
    (fnm L flags false (parse_loop fuel escape mask) n).
Proof.
  intros H Hf Hm Hn Hl. rewrite <-(same_ptr_tail c n comp) by done.
  apply H; [done..|]. rewrite alen_cons in Hl. lia.
Qed.

Lemma any_step fuel mask name comp :
  solved fuel -> (length mask < fuel)%nat -> is_string mask -> is_string name ->
  alen name <= alen comp ->
  decides (if chr name =? 0 then Some FNM_NOMATCH
           else if has_bits flags FNM_PATHNAME && IS_UNIX_COMP_SEP (chr name) then Some FNM_NOMATCH
           else if leading_dot flags name comp then Some FNM_NOMATCH
           else name ← next_char L name; match_unix fuel L mask name flags comp)
    (fnm L flags (same_ptr name comp) (TAny :: parse_loop fuel escape mask) name).
Proof.
  intros H Hf Hm Hn Hl. apply plain_guard; [done|..].
  - intros d n -> Hs Hp. str_steps. eapply decides_iff; [by eapply solved_tail|].
    rewrite fnm_any_iff. naive_solver.
  - rewrite fnm_any_iff. naive_solver.
Qed.

(** A character; [b] is the test of the code. *)
Lemma char_step (b exact : bool) c fuel mask name comp :
  solved fuel -> (length mask < fuel)%nat -> is_string mask -> is_string name ->
  alen name <= alen comp -> c <> 0 ->
  (b = true <-> if exact then c = chr name else same_char L flags c (chr name) = true) ->
  decides (if negb b then Some FNM_NOMATCH
           else name ← adv 1 name; match_unix fuel L mask name flags comp)
    (fnm L flags (same_ptr name comp) (TChar exact c :: parse_loop fuel escape mask) name).
Proof.
  intros H Hf Hm Hn Hl Hc Hb. destruct b; cbn [negb].
  - destruct Hn as [|d n Hd Hn].
    { exfalso. apply proj1 in Hb. specialize (Hb eq_refl). destruct exact; [done|].
      unfold same_char in Hb. destruct (has_bits _ _); apply Z.eqb_eq in Hb; [|done].
      by apply lower in Hb. }
    str_steps. eapply decides_iff; [by eapply solved_tail|]. rewrite fnm_char_iff.
    cbn [chr] in Hb. naive_solver.
  - apply decides_no. rewrite fnm_char_iff. intros (d & n & -> & Ht & _).
    by apply Hb in Ht.
Qed.

Lemma star_step fuel mask name comp :
  solved fuel -> (length mask < fuel)%nat -> is_string mask -> is_string name ->
  alen name <= alen comp ->
  decides (if leading_dot flags name comp then Some FNM_NOMATCH
           else star_unix (S (length name)) L flags
             (fun name => match_unix fuel L mask name flags comp) name)
    (fnm L flags (same_ptr name comp) (TStar :: parse_loop fuel escape mask) name).
Proof.
  intros H Hf Hm Hn Hl. destruct (leading_dot flags name comp) eqn:Hlead.
  { apply leading_dot_spec in Hlead. apply decides_no. rewrite fnm_star_iff. tauto. }
  eapply decides_iff.
  - apply (star_unix_spec _ _
      (fun n => fnm L flags (same_ptr n comp) (parse_loop fuel escape mask) n)); [lia|done|].
    intros pre n ->. apply Forall_app in Hn as [? ?]. rewrite alen_app in Hl.
    pose proof (alen_nonneg pre). apply H; [done..|lia].
  - rewrite fnm_star_iff. rewrite <-leading_dot_spec, Hlead.
    split.
    + intros (pre & n & -> & Hpre & Hn'). split; [done|]. exists pre, n.
      by rewrite <-same_ptr_app.
    + intros (_ & pre & n & -> & Hpre & Hn'). exists pre, n. by rewrite (same_ptr_app pre).
Qed.

(** The slash that ends the pattern. *)
Lemma last_slash m name :
  is_string m -> is_string name ->
  (if has_bits flags FNM_PATHPREFIX && (chr name =? 0) then
     c1 ← chr1 (SLASH :: m);
     if c1 =? 0 then Some true
     else if escape && (c1 =? BACKSLASH) then
       mask1 ← adv 1 (SLASH :: m); c2 ← chr1 mask1; Some (c2 =? 0)
     else Some false
   else Some false)
  = Some (has_bits flags FNM_PATHPREFIX && bool_decide (name = [])
          && bool_decide (m = [] \/ escape = true /\ m = [BACKSLASH])).
Proof.
  intros Hm Hn. destruct (has_bits flags FNM_PATHPREFIX); [|done].
  destruct Hn as [|d n Hd Hn]; cbn [chr].
  2: { rewrite (proj2 (Z.eqb_neq d 0) Hd), bool_decide_false by done. done. }
  rewrite (bool_decide_true ([] = [])) by done. cbn [Z.eqb andb]. str_steps.
  destruct Hm as [|c m Hc Hm]; [by rewrite bool_decide_true by auto|].
  str_steps. rewrite (proj2 (Z.eqb_neq c 0) Hc).
  destruct (escape && (c =? BACKSLASH)) eqn:Hb; str_steps.
  - apply andb_true_iff in Hb as [He ->%Z.eqb_eq]. f_equal.
    destruct Hm as [|e m Hx Hm]; [by rewrite bool_decide_true by auto|].
    rewrite bool_decide_false by naive_solver. by apply Z.eqb_neq.
  - f_equal. symmetry. apply bool_decide_eq_false. intros [?|[He ?]]; [done|]. simplify_eq.
    by rewrite He in Hb.
Qed.

Lemma parse_backslash fuel : parse_loop fuel true [BACKSLASH] = [].
Proof. destruct fuel as [|[|fuel]]; done. Qed.

Lemma sep_step fuel m name comp :
  solved fuel -> (length m < fuel)%nat -> is_string m -> is_string name ->
  alen name <= alen comp ->
  let last := bool_decide (m = [] \/ escape = true /\ m = [BACKSLASH]) in
  decides (if negb (IS_UNIX_COMP_SEP (chr name)
                    || has_bits flags FNM_PATHPREFIX && bool_decide (name = []) && last)
           then Some FNM_NOMATCH
           else
             name ← (if negb (chr name =? 0) then adv 1 name else Some name);
             match_unix fuel L m name flags (if has_bits flags FNM_PATHNAME then name else comp))
    (fnm L flags (same_ptr name comp) (TSep last :: parse_loop fuel escape m) name).
Proof.
  intros H Hf Hm Hn Hl last. destruct Hn as [|d n Hd Hn].
  - cbn [chr]. rewrite (bool_decide_true ([] = [])), andb_true_r by done. cbn [Z.eqb negb].
    destruct (has_bits flags FNM_PATHPREFIX && last) eqn:Hlast; cbn [mbind option_bind].
    2: { apply decides_no. rewrite fnm_sep_iff. intros [(? & ? & _)|(_ & Ht & _ & Hp)]; [done|].
         by rewrite Hp, Ht in Hlast. }
    apply andb_true_iff in Hlast as [Hp Hlast].
    assert (parse_loop fuel escape m = []) as Hnil.
    { apply bool_decide_eq_true in Hlast as [->|[-> ->]]; [by destruct fuel|apply parse_backslash]. }
    rewrite Hnil. eapply decides_iff; [apply H; [done|done|constructor|]|].
    { by destruct (has_bits flags FNM_PATHNAME). }
    rewrite Hnil, fnm_nil_iff, fnm_sep_iff, Hlast. naive_solver.
  - cbn [chr]. rewrite (bool_decide_false (d :: n = [])), andb_false_r, orb_false_r by done.
    destruct (IS_UNIX_COMP_SEP d) eqn:Hsep; cbn [negb].
    2: { apply decides_no. rewrite fnm_sep_iff. intros [(n' & ? & _)|(? & _)]; simplify_eq. }
    apply Z.eqb_eq in Hsep as ->. str_steps.
    eapply decides_iff; [apply H; try done|].
    { destruct (has_bits flags FNM_PATHNAME); [lia|]. rewrite alen_cons in Hl. lia. }
    rewrite fnm_sep_iff.
    replace (same_ptr n _) with (has_bits flags FNM_PATHNAME); [naive_solver|].
    destruct (has_bits flags FNM_PATHNAME); [by unfold same_ptr; rewrite Z.eqb_refl|].
    by rewrite (same_ptr_tail SLASH).
Qed.

Lemma set_step fuel m name comp :
  solved fuel -> (length m < fuel)%nat -> is_string m -> is_string name ->
  alen name <= alen comp ->
  let invert := (chr m =? BANG) || (chr m =? CARET) in
  let body := if invert then tail m else m in
  decides (if chr name =? 0 then Some FNM_NOMATCH
           else if has_bits flags FNM_PATHNAME && IS_UNIX_COMP_SEP (chr name) then Some FNM_NOMATCH
           else if leading_dot flags name comp then Some FNM_NOMATCH
           else if negb invert && IS_MBCS_PREFIX L (chr name) then Some FNM_NOMATCH
           else
             start ← (if invert then adv 1 m else Some m);
             r ← set_loop (S (length start)) L flags (alen start) (chr name) start false;
             match r with
             | None => Some FNM_ERR
             | Some (end_, matched) =>
                 if chr end_ =? 0 then
                   if negb (chr name =? LBRACKET) then Some FNM_NOMATCH
                   else name ← adv 1 name; match_unix fuel L m name flags comp
                 else if negb (xorb invert matched) then Some FNM_NOMATCH
                 else
                   mask ← adv 1 end_;
                   name ← (if negb (chr name =? 0) then next_char L name else Some name);
                   match_unix fuel L mask name flags comp
             end)
    (fnm L flags (same_ptr name comp)
       (match set_items (S (length body)) escape true body with
        | Some (items, m) => TSet invert items :: parse_loop fuel escape m
        | None => TChar true LBRACKET :: parse_loop fuel escape m
        end) name).
Proof.
  intros H Hf Hm Hn Hl invert body.
  assert (is_string body /\ (length body <= length m)%nat) as [Hb Hlb].
  { unfold body. destruct invert; [|done]. destruct Hm; cbn; [by repeat constructor|auto with lia]. }
  assert ((if invert then adv 1 m else Some m) = Some body) as ->.
  { unfold body. destruct invert eqn:Hi; [|done]. destruct Hm; [done|]. apply adv_1. }
  rewrite (is_single L single), andb_false_r. cbn [mbind option_bind].
  apply plain_guard; [done|..].
  - intros d n -> Hs Hp. cbn [chr].
    destruct (set_loop_spec L flags (alen body) d single (S (length body)) body false)
      as (e & b & -> & He); [lia|done..|]. rewrite Z.eqb_refl in He. cbn [mbind option_bind].
    destruct (set_items _ _ _ body) as [[items m']|] eqn:Hitems.
    + destruct He as [-> ->]. apply set_items_tail in Hitems as [Hm' Hl']; [|done]. cbn [chr orb].
      change (RBRACKET =? 0) with false. cbv iota.
      destruct (xorb invert (in_items items d)) eqn:Hx; cbn [negb].
      2: { apply decides_no. rewrite fnm_set_iff. intros (c & n' & ? & _ & Hin & _). simplify_eq.
           apply Hin. symmetry. by apply xorb_eq. }
      inversion Hn as [|? ? Hd _]; subst. rewrite (proj2 (Z.eqb_neq d 0) Hd). cbn [negb]. str_steps.
      eapply decides_iff; [eapply solved_tail; [done| |done..]; unfold alen in *; lia|].
      rewrite fnm_set_iff. split; [|naive_solver]. intros ?. exists d, n. repeat split; [by apply Hp..| |done].
      intros <-. by rewrite xorb_nilpotent in Hx.
    + subst e. cbn [chr Z.eqb].
      by apply (char_step (d =? LBRACKET) true LBRACKET fuel m (d :: n)); [..|rewrite Z.eqb_eq].
  - destruct (set_items _ _ _ body) as [[items m']|].
    + rewrite fnm_set_iff. naive_solver.
    + rewrite fnm_char_iff. intros (d & n & -> & <- & _). exists LBRACKET, n. split; [done|].
      split; [by intros []|]. by intros (_ & ? & _).
Qed.

Lemma backslash_step (b : bool) fuel m name comp :
  solved fuel -> (length m < fuel)%nat -> is_string m -> is_string name ->
  alen name <= alen comp ->
  decides (if negb b then
             if negb (chr name =? BACKSLASH) then Some FNM_NOMATCH
             else name ← adv 1 name; match_unix fuel L m name flags comp
           else if (chr m =? STAR) || (chr m =? QUEST) then
             if negb (chr m =? chr name) then Some FNM_NOMATCH
             else mask ← adv 1 m; name ← adv 1 name; match_unix fuel L mask name flags comp
           else match_unix fuel L m name flags comp)
    (fnm L flags (same_ptr name comp)
       (if negb b then TChar true BACKSLASH :: parse_loop fuel escape m
        else if (chr m =? STAR) || (chr m =? QUEST)
        then TChar true (chr m) :: parse_loop fuel escape (tail m)
        else parse_loop fuel escape m) name).
Proof.
  intros H Hf Hm Hn Hl. destruct b; cbn [negb].
  - destruct (_ || _) eqn:Hq; [|by apply H].
    destruct Hm as [|c m Hc Hm]; [done|]. cbn [chr tail]. cbn [length] in Hf. str_steps.
    apply char_step; [done|lia|done..|by rewrite Z.eqb_eq].
  - apply char_step; [done..|]. by rewrite Z.eqb_eq.
Qed.

(** [match_unix] with fuel for the mask ends, and decides the relation. *)
Lemma match_unix_spec fuel : solved fuel.
Proof.
  induction fuel as [|fuel IH]; intros mask name comp Hf Hm Hn Hl; [lia|].
  cbn [match_unix]. rewrite (chk_single L single). destruct Hm as [|c m Hc Hm].
  - cbn [chr parse_loop Z.eqb]. destruct (chr name =? 0) eqn:Hz.
    { breflect. apply chr_zero in Hz as ->; [|done]. apply decides_yes. constructor. }
    destruct (_ && _) eqn:Hp; [|].
    + apply andb_true_iff in Hp as [? Hp%Z.eqb_eq]. destruct name; simplify_eq/=.
      apply decides_yes. by constructor.
    + apply decides_no. rewrite fnm_nil_iff. intros [->|(n & -> & Hp')]; [done|]. by rewrite Hp' in Hp.
  - cbn [chr parse_loop]. cbn [length] in Hf. rewrite (proj2 (Z.eqb_neq c 0) Hc).
    assert (length m < fuel)%nat as Hf' by lia.
    destruct (c =? QUEST) eqn:E1; [str_steps; by apply any_step|].
    destruct (c =? STAR) eqn:E2.
    { destruct (skip_stars_tail m Hm) as [? ?]. cbn [skip_stars]. rewrite E2.
      apply star_step; [done|lia|done..]. }
    destruct (c =? SLASH) eqn:E3.
    { apply Z.eqb_eq in E3 as ->. rewrite last_slash by done. str_steps. by apply sep_step. }
    destruct (c =? LBRACKET) eqn:E4; [rewrite adv_1; by apply set_step|].
    destruct (c =? BACKSLASH) eqn:E5; [str_steps; by apply backslash_step|].
    str_steps. by apply char_step.
Qed.
End Unix.
