(* ===== verification/FnmatchComp.v ===== *)
(** The OS/2 and DOS styles of [fnmatch]: [match_comp_os2] decides whether one
    component matches, and the loop over the components compares paths. *)

From S2P Require Import Prelude CStr Fnmatch FnmatchFacts FnmatchUnix.
#[local] Open Scope Z_scope.

(** Characters of one component, and where a component ends. *)
Definition in_comp (s : list Z) : Prop := Forall (fun c => IS_OS2_COMP_END c = false) s.
Definition at_end (s : list Z) : Prop := IS_OS2_COMP_END (chr s) = true.

Section OS2.
Context (L : locale) (single : single_byte L) (lower : lower_ok L) (flags : Z).

(** What follows the two components lets them match. *)
Definition tails_ok (mt nt : list Z) : Prop :=
  match mt with
  | [] => nt = [] \/ has_bits flags FNM_PATHPREFIX = true
  | [_] => nt <> [] \/ has_bits flags FNM_PATHPREFIX = true
  | _ => nt <> []
  end.

(** ** The relation, by the first character of the pattern *)

Local Notation os2 := (os2 L flags).

Lemma os2_nil_iff hd n : os2 hd [] n <-> n = [].
Proof. split; [by inversion 1|intros ->; constructor]. Qed.

Lemma os2_quest_iff hd m n :
  os2 hd (QUEST :: m) n
  <-> (exists c n', n = c :: n' /\ c <> DOT /\ os2 hd m n') \/ (n = [] \/ chr n = DOT) /\ os2 hd m n.
Proof.
  split; [inversion 1; naive_solver|].
  intros [(c & n' & -> & ? & ?)|[? ?]]; by constructor.
Qed.

Lemma os2_star_iff hd m n :
  os2 hd (STAR :: m) n
  <-> exists pre n', n = pre ++ n' /\ (Z.land flags FNM_STYLE_MASK = FNM_DOS -> DOT ∉ pre)
        /\ os2 hd m n'.
Proof. split; [inversion 1; naive_solver|intros (pre & n' & -> & ? & ?); by constructor]. Qed.

Lemma os2_dot_iff hd m n :
  os2 hd (DOT :: m) n
  <-> (exists n', n = DOT :: n' /\ os2 hd m n') \/ n = [] /\ hd = false /\ os2 hd m [].
Proof.
  split; [inversion 1; naive_solver|].
  intros [(n' & -> & ?)|(-> & ? & ?)]; by constructor.
Qed.

Lemma os2_char_iff hd c m n :
  c <> QUEST -> c <> STAR -> c <> DOT ->
  os2 hd (c :: m) n <-> exists d n', n = d :: n' /\ same_char L flags c d = true /\ os2 hd m n'.
Proof.
  intros. split; [inversion 1; naive_solver|intros (d & n' & -> & ? & ?); by constructor].
Qed.

Lemma os2_skip_stars hd m n : os2 hd (STAR :: m) n <-> os2 hd (STAR :: skip_stars m) n.
Proof.
  revert n. induction m as [|c m IH]; intros n; cbn [skip_stars]; [done|].
  destruct (Z.eqb_spec c STAR) as [->|]; [|done]. rewrite <-IH, !os2_star_iff. split.
  - intros (p & x & -> & Hp & (q & y & -> & Hq & ?)%os2_star_iff). exists (p ++ q), y.
    rewrite <-app_assoc. repeat split; [|done]. rewrite elem_of_app. intuition.
  - intros (p & x & -> & Hp & ?). exists p, x. repeat split; [done|]. apply os2_star_iff.
    exists [], x. repeat split; [|done]. intros _ []%elem_of_nil.
Qed.

Lemma skip_stars_app m mt : at_end mt -> skip_stars (m ++ mt) = skip_stars m ++ mt.
Proof.
  intros Ht. induction m as [|c m IH]; cbn.
  - destruct mt as [|c mt]; [done|]. cbn. destruct (Z.eqb_spec c STAR) as [->|]; done.
  - by destruct (c =? STAR).
Qed.

Lemma skip_stars_comp m : in_comp m -> in_comp (skip_stars m) /\ (length (skip_stars m) <= length m)%nat.
Proof.
  induction 1 as [|c m Hc Hm [IHm IHl]]; cbn [skip_stars]; [by split; [constructor|]|].
  destruct (c =? STAR); cbn [length]; [auto with lia|]. split; [by constructor|done].
Qed.

(** ** The loop over the name behind an asterisk *)

Lemma star_os2_spec fuel rest (R : list Z -> Prop) n nt :
  (length n < fuel)%nat -> in_comp n -> at_end nt ->
  (forall pre n', n = pre ++ n' -> decides (rest (n' ++ nt)) (R n')) ->
  decides (star_os2 fuel L flags rest (n ++ nt))
    (exists pre n', n = pre ++ n' /\ (Z.land flags FNM_STYLE_MASK = FNM_DOS -> DOT ∉ pre) /\ R n').
Proof.
  intros Hf Hn Ht. revert fuel Hf. induction Hn as [|c n Hc Hn IH]; intros fuel Hf HR;
    (destruct fuel as [|fuel]; [lia|]); cbn [star_os2];
    (destruct (HR [] _ eq_refl) as [[-> Hr]|[-> Hr]]; cbn [mbind option_bind];
      [change (negb (FNM_MATCH =? FNM_NOMATCH)) with true
      |change (negb (FNM_NOMATCH =? FNM_NOMATCH)) with false]; cbv iota;
      [apply decides_yes; exists []; eexists; repeat split; [|exact Hr]; intros _ []%elem_of_nil|]).
  - cbn [app]. rewrite Ht. apply decides_no. intros (pre & n' & Heq & _ & Hn').
    symmetry in Heq. by apply app_nil in Heq as [-> ->].
  - cbn [app chr]. rewrite Hc. destruct (_ && _) eqn:Hdot.
    { apply andb_true_iff in Hdot as [->%Z.eqb_eq Hdos%Z.eqb_eq]. apply decides_no.
      intros (pre & n' & Heq & Hpre & Hn'). destruct pre as [|x pre]; simplify_eq/=; [done|].
      destruct (Hpre Hdos). left. }
    str_steps. eapply decides_iff; [apply IH; [cbn in Hf; lia|]|].
    { intros pre n' ->. by apply (HR (c :: pre)). }
    split.
    + intros (pre & n' & -> & Hpre & Hn'). exists (c :: pre), n'. repeat split; [|done].
      intros Hdos [Heq|Hin]%elem_of_cons; [|by apply Hpre].
      by rewrite <-Heq, Hdos in Hdot.
    + intros (pre & n' & Heq & Hpre & Hn'). destruct pre as [|x pre]; simplify_eq/=; [done|].
      exists pre, n'. repeat split; [|done]. intros Hdos Hin. apply (Hpre Hdos). by right.
Qed.

(** ** One round of the loop over the mask *)

(** [match_comp_os2] with this fuel is right. *)
Definition comp_solved (fuel : nat) : Prop := forall m mt n nt hd,
  (length m < fuel)%nat -> in_comp m -> in_comp n -> at_end mt -> at_end nt ->
  is_string mt -> is_string nt ->
  decides (match_comp_os2 fuel L (m ++ mt) (n ++ nt) flags hd) (os2 hd m n /\ tails_ok mt nt).

(** The first character of a component and what follows it is the end
    exactly when the component is empty. *)
Lemma end_app n nt : in_comp n -> at_end nt -> IS_OS2_COMP_END (chr (n ++ nt)) = bool_decide (n = []).
Proof. intros Hn Ht. destruct Hn as [|c n Hc Hn]; [done|]. by rewrite bool_decide_false. Qed.

Lemma sep_app n nt :
  in_comp n -> at_end nt -> is_string nt ->
  IS_OS2_COMP_SEP (chr (n ++ nt)) = bool_decide (n = [] /\ nt <> []).
Proof.
  intros Hn Ht Hs. destruct Hn as [|c n Hc Hn]; cbn [app chr].
  - destruct Hs as [|c nt Hc _]; [done|]. rewrite bool_decide_true by done.
    by apply orb_true_iff in Ht as [?%Z.eqb_eq|?].
  - rewrite bool_decide_false by naive_solver. by apply orb_false_iff in Hc as [_ ?].
Qed.

Lemma zero_app n nt :
  in_comp n -> is_string nt -> (chr (n ++ nt) =? 0) = bool_decide (n = [] /\ nt = []).
Proof.
  intros Hn Hs. destruct Hn as [|c n Hc Hn]; cbn [app chr].
  - destruct Hs as [|c nt Hc _]; [done|]. rewrite bool_decide_false by naive_solver. by apply Z.eqb_neq.
  - rewrite bool_decide_false by naive_solver. by apply orb_false_iff in Hc as [? _].
Qed.

(** The end of the component of the mask. *)
Lemma end_step mt n nt hd o :
  in_comp n -> at_end mt -> at_end nt -> is_string mt -> is_string nt ->
  decides (if chr mt =? 0 then
             if chr (n ++ nt) =? 0 then Some FNM_MATCH
             else if has_bits flags FNM_PATHPREFIX && IS_OS2_COMP_SEP (chr (n ++ nt))
             then Some FNM_MATCH else Some FNM_NOMATCH
           else if IS_OS2_COMP_SEP (chr mt) then
             if IS_OS2_COMP_SEP (chr (n ++ nt)) then Some FNM_MATCH
             else
               c1 ← chr1 mt;
               if has_bits flags FNM_PATHPREFIX && (c1 =? 0) && (chr (n ++ nt) =? 0)
               then Some FNM_MATCH else Some FNM_NOMATCH
           else o) (os2 hd [] n /\ tails_ok mt nt).
Proof.
  intros Hn Hm Ht Hsm Hsn. rewrite sep_app, zero_app by done.
  set (prefix := has_bits flags FNM_PATHPREFIX) in *.
  assert (forall b : bool, (b = true <-> os2 hd [] n /\ tails_ok mt nt) ->
    decides (if b then Some FNM_MATCH else Some FNM_NOMATCH) (os2 hd [] n /\ tails_ok mt nt)) as Hb.
  { intros b Hiff. destruct b; [apply decides_yes; by apply Hiff|apply decides_no; by intros ?%Hiff]. }
  destruct Hsm as [|c mt Hc Hsm]; cbn [chr].
  - cbn [Z.eqb tails_ok]. destruct (bool_decide_reflect (n = [] /\ nt = [])) as [[-> ->]|Hne].
    { apply decides_yes. split; [constructor|by left]. }
    apply Hb. rewrite os2_nil_iff, andb_true_iff, bool_decide_eq_true. fold prefix. naive_solver.
  - rewrite (proj2 (Z.eqb_neq c 0) Hc). apply orb_true_iff in Hm as [?%Z.eqb_eq|Hm]; [done|].
    cbn [chr] in Hm. rewrite Hm, chr1_cons. cbn [mbind option_bind].
    destruct (bool_decide_reflect (n = [] /\ nt <> [])) as [[-> Hne]|Hne].
    { apply decides_yes. split; [constructor|]. destruct mt; [by left|done]. }
    apply Hb. rewrite !andb_true_iff, bool_decide_eq_true, os2_nil_iff, Z.eqb_eq.
    assert (n = [] -> nt = []) as Hnil by (destruct nt; naive_solver).
    clear Hb Hne. destruct Hsm as [|d mt Hd Hsm]; cbn [chr tails_ok]; fold prefix; intuition.
Qed.

(** A question mark: the step of the code over the name. *)
Lemma quest_step fuel m mt n nt hd :
  comp_solved fuel -> (length m < fuel)%nat -> in_comp m -> in_comp n -> at_end mt -> at_end nt ->
  is_string mt -> is_string nt ->
  decides (name ← (if negb (chr (n ++ nt) =? DOT) && negb (IS_OS2_COMP_END (chr (n ++ nt)))
                   then next_char L (n ++ nt) else Some (n ++ nt));
           match_comp_os2 fuel L (m ++ mt) name flags hd)
    (os2 hd (QUEST :: m) n /\ tails_ok mt nt).
Proof.
  intros H Hf Hm Hn Hmt Hnt Hsm Hsn. rewrite end_app by done. destruct Hn as [|c n Hc Hn].
  - rewrite bool_decide_true, andb_false_r by done. str_steps.
    eapply decides_iff; [apply (H m mt []); [done|done|constructor|done..]|]. rewrite os2_quest_iff. naive_solver.
  - rewrite bool_decide_false by done. cbn [app chr].
    destruct (Z.eqb_spec c DOT) as [->|Hdot]; cbn [negb andb]; str_steps.
    + eapply decides_iff; [apply (H m mt (DOT :: n)); [done|done|by constructor|done..]|].
      rewrite os2_quest_iff. naive_solver.
    + eapply decides_iff; [by apply H|]. rewrite os2_quest_iff. naive_solver.
Qed.

Lemma dot_step fuel m mt n nt hd :
  comp_solved fuel -> (length m < fuel)%nat -> in_comp m -> in_comp n -> at_end mt -> at_end nt ->
  is_string mt -> is_string nt ->
  decides (if chr (n ++ nt) =? DOT
           then name ← adv 1 (n ++ nt); match_comp_os2 fuel L (m ++ mt) name flags hd
           else if hd || negb (IS_OS2_COMP_END (chr (n ++ nt))) then Some FNM_NOMATCH
           else match_comp_os2 fuel L (m ++ mt) (n ++ nt) flags hd)
    (os2 hd (DOT :: m) n /\ tails_ok mt nt).
Proof.
  intros H Hf Hm Hn Hmt Hnt Hsm Hsn. rewrite end_app by done. destruct Hn as [|c n Hc Hn].
  - rewrite bool_decide_true, orb_false_r by done. cbn [app].
    destruct (Z.eqb_spec (chr nt) DOT) as [Heq|_]; [by unfold at_end in Hnt; rewrite Heq in Hnt|].
    destruct hd; [apply decides_no; rewrite os2_dot_iff; naive_solver|].
    eapply decides_iff; [apply (H m mt []); [done|done|constructor|done..]|]. rewrite os2_dot_iff. naive_solver.
  - rewrite bool_decide_false, orb_true_r by done. cbn [app chr].
    destruct (Z.eqb_spec c DOT) as [->|Hdot]; str_steps.
    + eapply decides_iff; [by apply H|]. rewrite os2_dot_iff. naive_solver.
    + apply decides_no. rewrite os2_dot_iff. naive_solver.
Qed.

Lemma comp_char_step fuel c m mt n nt hd :
  comp_solved fuel -> (length m < fuel)%nat -> in_comp (c :: m) -> in_comp n ->
  at_end mt -> at_end nt -> is_string mt -> is_string nt ->
  c <> QUEST -> c <> STAR -> c <> DOT ->
  decides (if negb (same_char L flags c (chr (n ++ nt))) then Some FNM_NOMATCH
           else name ← adv 1 (n ++ nt); match_comp_os2 fuel L (m ++ mt) name flags hd)
    (os2 hd (c :: m) n /\ tails_ok mt nt).
Proof.
  intros H Hf [Hc Hm]%Forall_cons Hn Hmt Hnt Hsm Hsn H1 H2 H3. destruct Hn as [|d n Hd Hn].
  - cbn [app]. destruct (same_char L flags c (chr nt)) eqn:Hsame; cbn [negb].
    + exfalso. unfold same_char in Hsame. unfold at_end in Hnt.
      assert (c = chr nt) as ->; [|congruence].
      destruct (has_bits _ _); apply Z.eqb_eq in Hsame; [|done]. by apply lower.
    + apply decides_no. rewrite os2_char_iff by done. naive_solver.
  - cbn [app chr]. destruct (same_char L flags c d) eqn:Hsame; cbn [negb]; str_steps.
    + eapply decides_iff; [by apply H|]. rewrite os2_char_iff by done. naive_solver.
    + apply decides_no. rewrite os2_char_iff by done. intros [(x & y & Heq & Hs & _) _].
      simplify_eq. congruence.
Qed.

Lemma match_comp_os2_spec fuel : comp_solved fuel.
Proof.
  induction fuel as [|fuel IH]; intros m mt n nt hd Hf Hm Hn Hmt Hnt Hsm Hsn; [lia|].
  cbn [match_comp_os2]. rewrite (chk_single L single). cbn [mbind option_bind].
  destruct Hm as [|c m Hc Hm]; [|].
  { apply end_step; done. }
  pose proof Hc as [Hc0 Hcs]%orb_false_iff. cbn [app chr]. rewrite Hc0, Hcs.
  cbn [length] in Hf. assert (length m < fuel)%nat as Hf' by lia.
  destruct (Z.eqb_spec c QUEST) as [->|H1].
  { str_steps. by apply quest_step. }
  destruct (Z.eqb_spec c STAR) as [->|H2].
  { change (skip_stars (STAR :: m ++ mt)) with (skip_stars (m ++ mt)).
    rewrite skip_stars_app by done. destruct (skip_stars_comp m Hm) as [Hm' Hl]. eapply decides_iff.
    - apply (star_os2_spec _ _ (fun n => os2 hd (skip_stars m) n /\ tails_ok mt nt));
        [rewrite length_app; lia|done..|].
      intros pre n' ->. apply Forall_app in Hn as [_ Hn']. apply IH; [lia|done..].
    - rewrite os2_skip_stars, os2_star_iff. naive_solver. }
  destruct (Z.eqb_spec c DOT) as [->|H3]; str_steps; [by apply dot_step|].
  apply comp_char_step; [done|done|by constructor|done..].
Qed.

(** ** Lists of components *)

Local Notation comps_match := (comps_match L flags).
Local Notation comp_matches := (comp_matches L flags).
Local Notation prefix := (has_bits flags FNM_PATHPREFIX).

Lemma trim_cons m ms : ms <> [] -> trim (m :: ms) = m :: trim ms.
Proof. intros Hne. by destruct ms; [|destruct m]. Qed.

Lemma comps_match_end ns : prefix = true \/ ns = [ [] ] -> comps_match [ [] ] ns.
Proof.
  unfold comps_match. destruct prefix eqn:Hp; intros Hor.
  - exists []. split; [apply prefix_nil|constructor].
  - destruct Hor as [?| ->]; [done|]. repeat constructor.
Qed.

Lemma comps_match_last m n ns :
  m <> [] \/ prefix = false ->
  comps_match [m] (n :: ns) <-> comp_matches m n /\ (ns = [] \/ prefix = true).
Proof.
  intros Hm. unfold comps_match. destruct prefix.
  - destruct Hm as [Hm|?]; [|done]. destruct m as [|c m]; [done|]. cbn [trim]. split.
    + intros (ns' & [k Heq] & HF). apply Forall2_cons_inv_l in HF as (n' & l & ? & _ & ->).
      simplify_eq/=. auto.
    + intros [Hc _]. exists [n]. split; [by exists ns|by repeat constructor].
  - split.
    + intros HF. apply Forall2_cons in HF as [? HF%Forall2_nil_inv_l]. auto.
    + intros [? [->|?]]; [by repeat constructor|done].
Qed.

Lemma comps_match_cons m n ms ns :
  ms <> [] -> comps_match (m :: ms) (n :: ns) <-> comp_matches m n /\ comps_match ms ns.
Proof.
  intros Hne. unfold comps_match. rewrite trim_cons by done. destruct prefix; [|apply Forall2_cons].
  split.
  - intros (ns' & [k Heq] & HF). apply Forall2_cons_inv_l in HF as (n' & l & ? & ? & ->).
    simplify_eq/=. split; [done|]. exists l. split; [by exists k|done].
  - intros (? & ns' & [k ->] & HF). exists (n :: ns'). split; [by exists k|by constructor].
Qed.

Lemma comps_match_short m n ms :
  ms <> [] -> comps_match (m :: ms) [n] <-> comp_matches m n /\ ms = [ [] ] /\ prefix = true.
Proof.
  intros Hne. rewrite comps_match_cons by done. unfold comps_match. destruct prefix.
  - split; [|intros (? & -> & _); split; [done|]; exists []; split; [done|constructor]].
    intros (? & ns' & Hpre & HF). split; [done|]. apply prefix_nil_inv in Hpre as ->.
    destruct ms as [|[|c m'] ms]; [done| |by inversion HF].
    destruct ms; [done|]. by inversion HF.
  - split; [|naive_solver]. intros [_ HF]. by inversion HF.
Qed.

(** ** Paths as lists of components *)

Lemma comps_of_app n nt :
  in_comp n -> at_end nt -> is_string nt ->
  comps_of (n ++ nt) = n :: match nt with [] => [] | _ :: s => comps_of s end.
Proof.
  intros Hn Ht Hs. induction Hn as [|c n Hc Hn IH]; cbn [app comps_of].
  - destruct Hs as [|c s Hc _]; [done|]. cbn [comps_of].
    apply orb_true_iff in Ht as [?%Z.eqb_eq|Ht]; [done|]. cbn [chr] in Ht. by rewrite Ht.
  - apply orb_false_iff in Hc as [_ ->]. by rewrite IH.
Qed.

Lemma comps_of_ne s : comps_of s <> [].
Proof. destruct s as [|c s]; cbn [comps_of]; [done|]. destruct (IS_OS2_COMP_SEP c); [done|]. by destruct (comps_of s). Qed.

Lemma comps_of_empty s : comps_of s = [ [] ] -> s = [].
Proof.
  destruct s as [|c s]; [done|]. cbn [comps_of]. destruct (IS_OS2_COMP_SEP c).
  - intros [= ?]. by destruct (comps_of_ne s).
  - by destruct (comps_of s).
Qed.

Lemma split_comp s :
  is_string s -> exists n nt, s = n ++ nt /\ in_comp n /\ at_end nt /\ is_string nt.
Proof.
  induction 1 as [|c s Hc Hs (n & nt & -> & Hn & Ht & Hs')].
  - exists [], []. repeat split; [constructor..].
  - destruct (IS_OS2_COMP_END c) eqn:He.
    + exists [], (c :: n ++ nt). repeat split; [constructor|done|by constructor].
    + exists (c :: n), nt. repeat split; [by constructor|done..].
Qed.

(** ** The loop over the components *)

Context (style : Z.land flags FNM_STYLE_MASK = FNM_OS2 \/ Z.land flags FNM_STYLE_MASK = FNM_DOS).

Lemma skip_comp_os2_spec n nt :
  in_comp n -> at_end nt -> is_string nt -> skip_comp_os2 L (n ++ nt) = Some (tail nt).
Proof.
  intros Hn Ht Hs. unfold skip_comp_os2.
  assert (forall fuel, (length n < fuel)%nat -> skip_loop fuel L (n ++ nt) = Some nt) as Hloop.
  { induction Hn as [|c n Hc Hn IH]; intros [|fuel] Hf; cbn in Hf; try lia; cbn [app skip_loop].
    - by rewrite Ht.
    - cbn [chr]. rewrite Hc. str_steps. apply IH. lia. }
  rewrite Hloop by (rewrite length_app; lia). cbn [mbind option_bind].
  destruct Hs as [|c s Hc _]; [done|]. cbn [chr]. rewrite (proj2 (Z.eqb_neq c 0) Hc). apply adv_1.
Qed.

(** The search for a dot stays in the component. *)
Lemma dot_loop_spec fuel n nt :
  (length n < fuel)%nat -> in_comp n -> at_end nt ->
  exists s, dot_loop fuel L (n ++ nt) = Some s /\ (chr s =? DOT) = bool_decide (DOT ∈ n).
Proof.
  intros Hf Hn Ht. revert fuel Hf. induction Hn as [|c n Hc Hn IH]; intros [|fuel] Hf; cbn in Hf; try lia;
    cbn [app dot_loop chr].
  - rewrite Ht. exists nt. split; [done|]. rewrite bool_decide_false by apply not_elem_of_nil.
    apply Z.eqb_neq. intros Heq. unfold at_end in Ht. by rewrite Heq in Ht.
  - rewrite Hc. destruct (Z.eqb_spec c DOT) as [->|Hne]; cbn [negb andb].
    + exists (DOT :: n ++ nt). split; [done|]. by rewrite bool_decide_true by left.
    + str_steps. destruct (IH fuel) as (s & -> & Hs); [lia|]. exists s. split; [done|]. rewrite Hs.
      apply bool_decide_ext. rewrite elem_of_cons. intuition congruence.
Qed.

Lemma match_comp_spec m mt n nt :
  in_comp m -> in_comp n -> at_end mt -> at_end nt -> is_string mt -> is_string nt ->
  decides (match_comp L (m ++ mt) (n ++ nt) flags) (comp_matches m n /\ tails_ok mt nt).
Proof.
  intros. unfold match_comp.
  replace ((_ =? FNM_OS2) || _) with true
    by (symmetry; rewrite orb_true_iff, !Z.eqb_eq; exact style).
  destruct (dot_loop_spec (S (length (n ++ nt))) n nt) as (s & -> & Hdot);
    [rewrite length_app; lia|done..|].
  cbn [mbind option_bind]. rewrite Hdot. apply match_comp_os2_spec; [|done..]. rewrite length_app. lia.
Qed.

(** Whether two paths match, by the first component of each. *)
Lemma comps_match_app m mt n nt :
  in_comp m -> in_comp n -> at_end mt -> at_end nt -> is_string mt -> is_string nt ->
  prefix = false \/ m ++ mt <> [] ->
  comps_match (comps_of (m ++ mt)) (comps_of (n ++ nt))
  <-> (comp_matches m n /\ tails_ok mt nt)
      /\ match mt, nt with
         | _ :: mt, _ :: nt => comps_match (comps_of mt) (comps_of nt)
         | _, _ => True
         end.
Proof.
  intros Hm Hn Hmt Hnt Hsm Hsn Hne. rewrite !comps_of_app by done.
  destruct mt as [|c mt]; [|pose proof (comps_of_ne mt); destruct nt as [|d nt]].
  - rewrite app_nil_r in Hne. rewrite comps_match_last by tauto.
    pose proof (comps_of_ne (tail nt)). destruct nt; cbn [tails_ok]; naive_solver.
  - rewrite comps_match_short by done. pose proof (comps_of_empty mt).
    destruct mt; cbn [tails_ok]; naive_solver.
  - rewrite comps_match_cons by done. destruct mt; cbn [tails_ok]; naive_solver.
Qed.

Lemma comps_loop_spec fuel mask name :
  (length mask + length name < fuel)%nat -> is_string mask -> is_string name ->
  decides (comps_loop fuel L mask name flags) (comps_match (comps_of mask) (comps_of name)).
Proof.
  revert mask name. induction fuel as [|fuel IH]; intros mask name Hf Hm Hn; [lia|].
  cbn [comps_loop].
  destruct ((chr mask =? 0) && (chr name =? 0)) eqn:H1.
  { breflect. rewrite (chr_zero mask), (chr_zero name) by done. apply decides_yes.
    apply comps_match_end. by right. }
  destruct ((chr mask =? 0) && prefix) eqn:H2.
  { breflect. rewrite (chr_zero mask) by done. apply decides_yes. apply comps_match_end. by left. }
  destruct (split_comp mask Hm) as (m & mt & -> & Hm' & Hmt & Hsm).
  destruct (split_comp name Hn) as (n & nt & -> & Hn' & Hnt & Hsn).
  assert (prefix = false \/ m ++ mt <> []) as Hne.
  { destruct prefix; [|by left]. right. intros Heq. by rewrite Heq in H2. }
  eapply decides_iff; [|symmetry; by apply comps_match_app].
  destruct (match_comp_spec m mt n nt) as [[-> Hyes]|[-> Hno]]; [done..| |];
    cbn [mbind option_bind];
    [change (negb (FNM_MATCH =? FNM_MATCH)) with false
    |change (negb (FNM_NOMATCH =? FNM_MATCH)) with true]; cbv iota.
  2: { apply decides_no. tauto. }
  rewrite !skip_comp_os2_spec by done. cbn [mbind option_bind].
  assert (length (tail mt) + length (tail nt) < fuel)%nat as Hf'.
  { rewrite !length_app in Hf. destruct mt, nt; cbn in *; try lia. rewrite !app_nil_r in H1.
    destruct m, n; cbn in *; [done|lia..]. }
  eapply decides_iff; [apply IH; [done|by apply is_string_tail..]|].
  pose proof (comps_match_end (comps_of (tail nt))) as Hend. destruct Hyes as [Hc Ht].
  destruct mt as [|c mt]; [|destruct nt as [|d nt]]; cbn [tail comps_of] in *.
  - split; [done|]. intros _. apply Hend. destruct Ht as [->|?]; [by right|by left].
  - split; [done|]. intros _. destruct mt as [|? mt]; [|done]. apply Hend. by right.
  - naive_solver.
Qed.
End OS2.
