(* ===== verification/FnmatchProps.v ===== *)
(** [fnmatch] as a whole: drives, colons, UNC names, and the two styles of
    matching, for locales without multibyte characters. *)

From Stdlib Require String Ascii.
From S2P Require Import Prelude CStr Fnmatch FnmatchFacts FnmatchUnix FnmatchComp.
Import String.StringSyntax.
#[local] Open Scope Z_scope.

(** ** What the answers mean *)

(** Paths are strings of bytes. *)
Definition is_path (s : list Z) : Prop := Forall (fun c => 0 < c < 256) s.

Record plain_locale (L : locale) : Prop := {
  pl_single : single_byte L;
  pl_lower : lower_ok L;
  pl_alpha : lc_isalpha L 0 = false
}.

(** The drive letter of a path, and the path behind it. *)
Definition split_drive (L : locale) (s : list Z) : option Z * list Z :=
  match s with
  | c :: d :: s' => if lc_isalpha L c && (d =? COLON) then (Some c, s') else (None, s)
  | _ => (None, s)
  end.

Definition same_drive (L : locale) (flags : Z) (d e : option Z) : Prop :=
  match d, e with
  | None, None => True
  | Some c, Some d => same_char L flags c d = true
  | _, _ => False
  end.

(** The function answers "no" for different drives, reports a colon behind the
    drive as an error, and otherwise decides [P] of what follows the drives. *)
Definition answers (L : locale) (flags : Z) (mask name : list Z) (P : list Z -> list Z -> Prop)
    (o : option Z) : Prop :=
  let '(md, m) := split_drive L mask in
  let '(nd, n) := split_drive L name in
  (~ same_drive L flags md nd -> o = Some FNM_NOMATCH)
  /\ (same_drive L flags md nd -> COLON ∈ m \/ COLON ∈ n -> o = Some FNM_ERR)
  /\ (same_drive L flags md nd -> COLON ∉ m -> COLON ∉ n -> decides o (P m n)).

(** Two separators in front of a name, and a slash of the mask. *)
Definition is_unc (sep : Z -> bool) (s : list Z) : bool :=
  match s with c :: d :: _ => sep c && sep d | _ => false end.

Inductive slash : list Z -> list Z -> Prop :=
  | slash_plain m : slash (SLASH :: m) m
  | slash_quoted m : slash (BACKSLASH :: SLASH :: m) m.

Definition posix_path (L : locale) (flags : Z) (m n : list Z) : Prop :=
  if is_unc (fun c => c =? SLASH) n
  then exists m1 m2, slash m m1 /\ slash m1 m2 /\ fnm L flags true (parse flags m2) (drop 2 n)
  else fnm L flags true (parse flags m) n.

Definition os2_path (L : locale) (flags : Z) (m n : list Z) : Prop :=
  if is_unc IS_OS2_COMP_SEP n
  then is_unc IS_OS2_COMP_SEP m = true
       /\ comps_match L flags (comps_of (drop 2 m)) (comps_of (drop 2 n))
  else comps_match L flags (comps_of m) (comps_of n).

(** ** The steps before the matching *)

Lemma is_path_string s : is_path s -> is_string s.
Proof. intros Hs. eapply Forall_impl; [exact Hs|]. cbn. lia. Qed.

Section Top.
Context (L : locale) (HL : plain_locale L) (flags : Z).

Lemma has_colon_spec s : is_string s -> has_colon L s = Some (bool_decide (COLON ∈ s)).
Proof.
  intros Hs. unfold has_colon. remember (S (length s)) as fuel eqn:Hf.
  assert (length s < fuel)%nat as Hl by lia. clear Hf. revert s Hs Hl.
  induction fuel as [|fuel IH]; intros s Hs Hl; [lia|]. cbn [has_colon_loop].
  destruct Hs as [|c s Hc Hs]; [done|]. cbn [chr]. rewrite (proj2 (Z.eqb_neq c 0) Hc).
  destruct (Z.eqb_spec c COLON) as [->|Hne]; [by rewrite bool_decide_true by left|].
  rewrite (next_single L (pl_single _ HL)). cbn [mbind option_bind]. rewrite IH; [|done|cbn in Hl; lia].
  f_equal. apply bool_decide_ext. rewrite elem_of_cons. intuition congruence.
Qed.

(** [-1] stands for no drive. *)
Lemma drive_of_spec s :
  is_path s ->
  exists d, drive_of L s = Some d
    /\ (if d =? -1 then Some s else adv 2 s) = Some (split_drive L s).2
    /\ (split_drive L s).1 = (if d =? -1 then None else Some d)
    /\ is_path (split_drive L s).2.
Proof.
  intros Hs. unfold drive_of, split_drive. destruct Hs as [|c s Hc Hs]; cbn [chr].
  { rewrite (pl_alpha _ HL). exists (-1). repeat split. constructor. }
  destruct (lc_isalpha L c) eqn:Ha; cbn [andb].
  2: { exists (-1). split; [done|]. destruct s; repeat split; by constructor. }
  rewrite chr1_cons. cbn [mbind option_bind]. eexists. split; [done|].
  destruct Hs as [|d s Hd Hs]; cbn [chr]; [by repeat split; constructor|].
  destruct (d =? COLON).
  - rewrite (proj2 (Z.eqb_neq c (-1))) by lia. by rewrite adv_2.
  - split; [done|]. split; [done|]. constructor; [done|]. by constructor.
Qed.

(** The tests of the drives and the colons, with [o] for the rest. *)
Lemma answers_guard mask name (P : list Z -> list Z -> Prop) (o : list Z -> list Z -> option Z) :
  is_path mask -> is_path name ->
  (forall m n, is_path m -> is_path n -> decides (o m n) (P m n)) ->
  answers L flags mask name P
    (m_drive ← drive_of L mask;
     n_drive ← drive_of L name;
     if negb (m_drive =? n_drive)
        && ((m_drive =? -1) || (n_drive =? -1) || negb (has_bits flags FNM_IGNORECASE)
            || negb (lc_tolower L m_drive =? lc_tolower L n_drive))
     then Some FNM_NOMATCH else
     mask ← (if m_drive =? -1 then Some mask else adv 2 mask);
     name ← (if n_drive =? -1 then Some name else adv 2 name);
     colon ← has_colon L mask;
     colon ← (if (colon : bool) then Some true else has_colon L name);
     if (colon : bool) then Some FNM_ERR else o mask name).
Proof.
  intros Hm Hn Ho. unfold answers.
  destruct (drive_of_spec mask Hm) as (md & -> & Em & Emd & Hm').
  destruct (drive_of_spec name Hn) as (nd & -> & En & End & Hn').
  cbn [mbind option_bind]. rewrite Em, En. cbn [mbind option_bind].
  destruct (split_drive L mask) as [d m], (split_drive L name) as [e n]. cbn [fst snd] in *.
  rewrite !has_colon_spec by by apply is_path_string. cbn [mbind option_bind].
  set (differ := negb (md =? nd) && _).
  assert (same_drive L flags d e <-> differ = false) as Hd.
  { subst d e differ. unfold same_drive, same_char.
    destruct (Z.eqb_spec md (-1)) as [->|], (Z.eqb_spec nd (-1)) as [->|]; cbn [orb andb];
      rewrite ?andb_true_r; zbool; cbn [negb]; rewrite ?andb_true_r; try easy.
    destruct (Z.eqb_spec md nd) as [->|]; cbn [negb andb]; rewrite ?Z.eqb_refl;
      destruct (has_bits flags FNM_IGNORECASE); cbn [negb orb]; rewrite ?negb_false_iff; done. }
  clearbody differ. clear Em En Emd End. destruct differ.
  - assert (~ same_drive L flags d e) by (rewrite Hd; done). tauto.
  - assert (same_drive L flags d e) by (by apply Hd).
    split; [tauto|]. split; intros _.
    + intros Hc. destruct (bool_decide_reflect (COLON ∈ m)); cbn [mbind option_bind]; [done|].
      by rewrite bool_decide_true by tauto.
    + intros Hcm Hcn. rewrite !bool_decide_false by done. by apply Ho.
Qed.

(** The two slashes of a UNC name in a mask. *)
Lemma slash_det m m1 m2 : slash m m1 -> slash m m2 -> m1 = m2.
Proof. by do 2 inversion 1; simplify_eq. Qed.

Lemma unc_slashes_spec i m :
  is_path m ->
  (exists m1, slash m m1 /\ is_path m1 /\ unc_slashes (S i) m = unc_slashes i m1)
  \/ unc_slashes (S i) m = Some None /\ forall m1, ~ slash m m1.
Proof.
  intros Hm. cbn [unc_slashes]. destruct Hm as [|c m Hc Hm].
  { right. split; [done|]. by inversion 1. }
  cbn [chr]. destruct (Z.eqb_spec c SLASH) as [->|H1].
  { left. exists m. rewrite adv_1. split_and!; [constructor|done..]. }
  destruct (Z.eqb_spec c BACKSLASH) as [->|H2].
  2: { right. split; [done|]. by inversion 1. }
  rewrite chr1_cons. cbn [mbind option_bind]. destruct Hm as [|d m Hd Hm].
  { right. split; [done|]. by inversion 1. }
  cbn [chr]. destruct (Z.eqb_spec d SLASH) as [->|H3].
  - left. exists m. rewrite adv_2. split_and!; [constructor|done..].
  - right. split; [done|]. by inversion 1.
Qed.

Lemma two_spec f s : f 0 = false -> is_path s -> two f s = Some (is_unc f s).
Proof.
  intros Hf Hs. unfold two. destruct Hs as [|c s Hc Hs]; cbn [chr]; [by rewrite Hf|].
  destruct Hs as [|d s Hd Hs]; cbn; destruct (f c); try done. by rewrite Hf.
Qed.

Lemma is_path_drop k s : is_path s -> is_path (drop k s).
Proof. apply Forall_drop. Qed.

Lemma unc_adv f s : is_unc f s = true -> adv 2 s = Some (drop 2 s).
Proof. destruct s as [|c [|d s]]; [done..|]. intros _. by rewrite adv_2. Qed.
End Top.

(** ** The two styles *)

(** The path part of the POSIX style. *)
Lemma posix_path_spec L flags mask name :
  plain_locale L -> is_path mask -> is_path name ->
  decides
    (unc ← two (fun c => c =? SLASH) name;
     if (unc : bool) then
       name ← adv 2 name;
       m ← unc_slashes 2 mask;
       match m with
       | None => Some FNM_NOMATCH
       | Some mask => match_unix (S (length mask)) L mask name flags name
       end
     else match_unix (S (length mask)) L mask name flags name)
    (posix_path L flags mask name).
Proof.
  intros HL Hm Hn. rewrite two_spec by done. cbn [mbind option_bind]. unfold posix_path.
  assert (forall m n, is_path m -> is_path n ->
    decides (match_unix (S (length m)) L m n flags n) (fnm L flags true (parse flags m) n)) as Hpath.
  { intros m n ? ?. pose proof (match_unix_spec L (pl_single _ HL) (pl_lower _ HL) flags (S (length m)) m n n) as Hu.
    unfold same_ptr in Hu. rewrite Z.eqb_refl in Hu. apply Hu; [lia|by apply is_path_string..|done]. }
  destruct (is_unc _ name) eqn:Hunc; [|by apply Hpath].
  rewrite (unc_adv _ _ Hunc). cbn [mbind option_bind].
  destruct (unc_slashes_spec 1 mask Hm) as [(m1 & Hs1 & Hp1 & ->)|[-> Hno]].
  2: { apply decides_no. intros (m1 & m2 & ? & _). by eapply Hno. }
  destruct (unc_slashes_spec 0 m1 Hp1) as [(m2 & Hs2 & Hp2 & ->)|[-> Hno]].
  2: { apply decides_no. intros (m1' & m2 & Hs' & ? & _). rewrite (slash_det _ _ _ Hs1 Hs') in Hno.
       by eapply Hno. }
  cbn [unc_slashes mbind option_bind].
  eapply decides_iff; [by apply Hpath; [|apply is_path_drop]|]. split.
  - intros ?. by exists m1, m2.
  - intros (m1' & m2' & Hs1' & Hs2' & ?). rewrite (slash_det _ _ _ Hs1 Hs1') in Hs2.
    by rewrite (slash_det _ _ _ Hs2 Hs2').
Qed.

(** C29: in POSIX style [fnmatch] returns for every pair of strings, in locales
    without multibyte characters: "no" for different drives, an error for a
    colon behind the drive, and otherwise "yes" exactly when the pattern, read
    as a sequence of characters, wildcards and sets, matches the name, with the
    rules for slashes, leading dots, path prefixes and UNC names. These are the
    code's own rules, which are not POSIX.2 in all cases: a colon is an error, a
    bracket that is not closed is an ordinary character, a bracket knows single
    characters and ranges of them only ([posix_deviates]), and a backslash
    quotes only the star and the question mark ([backslash_does_not_quote]). *)
Theorem fnmatch_posix L mask name flags :
  plain_locale L -> is_path mask -> is_path name ->
  Z.land flags FNM_STYLE_MASK = FNM_POSIX ->
  answers L flags mask name (posix_path L flags) (fnmatch L mask name flags).
Proof.
  intros HL Hm Hn Hstyle. unfold fnmatch, fnmatch_unsigned. rewrite Hstyle.
  cbn [Z.eqb FNM_POSIX FNM_OS2 FNM_DOS orb].
  apply answers_guard; [done..|]. intros. by apply posix_path_spec.
Qed.

(** C30: in OS/2 and DOS styles [fnmatch] returns for every pair of strings, in
    locales without multibyte characters, and says "yes" exactly when the drives
    agree and the components match one by one, or with [_FNM_PATHPREFIX] the
    first ones; the star, the question mark and the dot match as [os2] says. The
    components are matched one by one for all flags: [FNM_PATHNAME] and
    [FNM_PERIOD] have no effect in these styles, against the documentation
    ([os2_ignores_pathname], [os2_ignores_period]). *)
Theorem fnmatch_os2 L mask name flags :
  plain_locale L -> is_path mask -> is_path name ->
  Z.land flags FNM_STYLE_MASK = FNM_OS2 \/ Z.land flags FNM_STYLE_MASK = FNM_DOS ->
  answers L flags mask name (os2_path L flags) (fnmatch L mask name flags).
Proof.
  intros HL Hm Hn Hstyle. unfold fnmatch, fnmatch_unsigned.
  replace ((_ =? FNM_OS2) || _) with true by (symmetry; by rewrite orb_true_iff, !Z.eqb_eq).
  apply answers_guard; [done..|]. clear mask name Hm Hn. intros mask name Hm Hn.
  assert (forall m n, is_path m -> is_path n ->
    decides (comps_loop (S (length m + length n)) L m n flags)
      (comps_match L flags (comps_of m) (comps_of n))) as Hpath.
  { intros m n ? ?. destruct HL. apply comps_loop_spec; [done..|lia| |]; by apply is_path_string. }
  rewrite !two_spec by done. cbn [mbind option_bind]. unfold os2_path.
  destruct (is_unc _ name) eqn:Hn2; [|by apply Hpath].
  destruct (is_unc _ mask) eqn:Hm2; cbn [negb]; [|apply decides_no; by intros []].
  rewrite (unc_adv _ _ Hn2), (unc_adv _ _ Hm2). cbn [mbind option_bind].
  eapply decides_iff; [by apply Hpath; apply is_path_drop|]. tauto.
Qed.

(** ** Examples, and what the code does not do *)

Section Examples.
(** The C locale. *)
Definition ascii_lower (c : Z) : Z := if (65 <=? c) && (c <=? 90) then c + 32 else c.
Definition ascii (prefix : Z -> Z) : locale :=
  mk_locale prefix ascii_lower
    (fun c => (97 <=? ascii_lower c) && (ascii_lower c <=? 122))
    (fun s t n => Some (negb (bool_decide (take (Z.to_nat n) (ascii_lower <$> s)
                                           = take (Z.to_nat n) (ascii_lower <$> t))))).
Definition C_locale : locale := ascii (fun _ => 1).

Lemma C_locale_plain : plain_locale C_locale.
Proof.
  split; [done| |done]. intros c d Hd Heq. cbn in Heq.
  assert (ascii_lower d = d) as Hsame.
  { apply orb_true_iff in Hd as [?%Z.eqb_eq|Hd]; [by subst|].
    by apply orb_true_iff in Hd as [?%Z.eqb_eq|?%Z.eqb_eq]; subst. }
  assert (~ (97 <= d <= 122)) as Hr.
  { intros ?. unfold IS_OS2_COMP_END, IS_OS2_COMP_SEP, SLASH, BACKSLASH in Hd. revert Hd. zbool. done. }
  rewrite Hsame in Heq. unfold ascii_lower in Heq.
  destruct ((65 <=? c) && (c <=? 90)) eqn:Ha; [breflect; lia|done].
Qed.

Fixpoint bytes (s : String.string) : list Z :=
  match s with
  | String.EmptyString => []
  | String.String c s => Z.of_N (Ascii.N_of_ascii c) :: bytes s
  end.

#[local] Arguments bytes s%_string_scope.

Lemma fnmatch_posix_witness :
  fnmatch C_locale (bytes "c:src/[!.]*\*.[ch]") (bytes "c:src/ab*.c") (FNM_PATHNAME + FNM_PERIOD)
    = Some FNM_MATCH
  /\ answers C_locale (FNM_PATHNAME + FNM_PERIOD) (bytes "c:src/[!.]*\*.[ch]") (bytes "c:src/ab*.c")
       (posix_path C_locale (FNM_PATHNAME + FNM_PERIOD)) (Some FNM_MATCH).
Proof.
  assert (fnmatch C_locale (bytes "c:src/[!.]*\*.[ch]") (bytes "c:src/ab*.c")
            (FNM_PATHNAME + FNM_PERIOD) = Some FNM_MATCH) as Heq by (vm_compute; reflexivity).
  split; [exact Heq|]. rewrite <-Heq. apply fnmatch_posix.
  - apply C_locale_plain.
  - repeat (constructor; [vm_compute; auto|]). constructor.
  - repeat (constructor; [vm_compute; auto|]). constructor.
  - reflexivity.
Defined.

Lemma fnmatch_os2_witness :
  fnmatch C_locale (bytes "D:\SRC/?*.") (bytes "d:/src\Makefile/x") (FNM_OS2 + FNM_IGNORECASE + FNM_PATHPREFIX)
    = Some FNM_MATCH
  /\ answers C_locale (FNM_OS2 + FNM_IGNORECASE + FNM_PATHPREFIX)
       (bytes "D:\SRC/?*.") (bytes "d:/src\Makefile/x")
       (os2_path C_locale (FNM_OS2 + FNM_IGNORECASE + FNM_PATHPREFIX)) (Some FNM_MATCH).
Proof.
  assert (fnmatch C_locale (bytes "D:\SRC/?*.") (bytes "d:/src\Makefile/x")
            (FNM_OS2 + FNM_IGNORECASE + FNM_PATHPREFIX) = Some FNM_MATCH) as Heq
    by (vm_compute; reflexivity).
  split; [exact Heq|]. rewrite <-Heq. apply fnmatch_os2.
  - apply C_locale_plain.
  - repeat (constructor; [vm_compute; auto|]). constructor.
  - repeat (constructor; [vm_compute; auto|]). constructor.
  - left. reflexivity.
Defined.

#[local] Open Scope string_scope.

(** The tests of libctests/glibc/posix/testfnm.c in the C locale: name, pattern,
    flags and whether it is to match. Four of them fail. *)
Definition testfnm : list (String.string * String.string * Z * bool) :=
  [("lib", "*LIB*", FNM_PERIOD, false);
   ("lib", "*LIB*", FNM_PERIOD + FNM_IGNORECASE, true);
   ("a/b", "a[/]b", 0, true);
   ("a/b", "a[/]b", FNM_PATHNAME, false);
   ("a/b", "[a-z]/[a-z]", 0, true);
   ("a/b", "*", FNM_PATHNAME, false);
   ("a/b", "*[/]b", FNM_PATHNAME, false);
   ("a/b", "*[b]", FNM_PATHNAME, false);
   ("a/b", "[*]/b", 0, false);
   ("*/b", "[*]/b", 0, true);
   ("a/b", "[?]/b", 0, false);
   ("?/b", "[?]/b", 0, true);
   ("a/b", "[[a]/b", 0, true);
   ("[/b", "[[a]/b", 0, true);
   ("a/b", "\*/b", 0, false);
   ("*/b", "\*/b", 0, true);
   ("a/b", "\?/b", 0, false);
   ("?/b", "\?/b", 0, true);
   ("[/b", "[/b", 0, false);
   ("[/b", "\[/b", 0, true);
   ("aa/b", "??/b", 0, true);
   ("aa/b", "???b", 0, true);
   ("aa/b", "???b", FNM_PATHNAME, false);
   (".a/b", "?a/b", FNM_PATHNAME + FNM_PERIOD, false);
   ("a/.b", "a/?b", FNM_PATHNAME + FNM_PERIOD, false);
   (".a/b", "*a/b", FNM_PATHNAME + FNM_PERIOD, false);
   ("a/.b", "a/*b", FNM_PATHNAME + FNM_PERIOD, false);
   (".a/b", "[.]a/b", FNM_PATHNAME + FNM_PERIOD, false);
   ("a/.b", "a/[.]b", FNM_PATHNAME + FNM_PERIOD, false);
   ("a/b", "*/?", FNM_PATHNAME + FNM_PERIOD, true);
   ("a/b", "?/*", FNM_PATHNAME + FNM_PERIOD, true);
   (".a/b", ".*/?", FNM_PATHNAME + FNM_PERIOD, true);
   ("a/.b", "*/.?", FNM_PATHNAME + FNM_PERIOD, true);
   ("a/.b", "*/*", FNM_PATHNAME + FNM_PERIOD, false);
   ("a/.b", "*?*/*", FNM_PERIOD, true);
   ("a./b", "*[.]/b", FNM_PATHNAME + FNM_PERIOD, true);
   ("a/b", "*[[:alpha:]]/*[[:alnum:]]", FNM_PATHNAME, true);
   ("a/b", "*[![:digit:]]*/[![:d-d]", FNM_PATHNAME, true);
   ("a/[", "*[![:digit:]]*/[[:d-d]", FNM_PATHNAME, true);
   ("a/[", "*[![:digit:]]*/[![:d-d]", FNM_PATHNAME, false);
   ("a.b", "a?b", FNM_PATHNAME + FNM_PERIOD, true);
   ("a.b", "a*b", FNM_PATHNAME + FNM_PERIOD, true);
   ("a.b", "a[.]b", FNM_PATHNAME + FNM_PERIOD, true);
   ("a/b", "*a*", FNM_PATHNAME + FNM_PATHPREFIX, true);
   ("ab/c", "*a?", FNM_PATHNAME + FNM_PATHPREFIX, true);
   ("ab/c", "a?", FNM_PATHNAME + FNM_PATHPREFIX, true);
   ("a/b", "?*/?", FNM_PATHNAME, true);
   ("/b", "*/?", FNM_PATHNAME, true);
   ("/b", "**/?", FNM_PATHNAME, true)].

Definition fails (x : String.string * String.string * Z * bool) : bool :=
  let '(name, pattern, flags, expected) := x in
  negb (bool_decide (((fun rc => rc =? FNM_MATCH) <$> fnmatch C_locale (bytes pattern) (bytes name) flags) = Some expected)).

Lemma testfnm_results :
  filter (fun x => fails x = true) testfnm =
  [("[/b", "[/b", 0, false);
    ("a/b", "*[[:alpha:]]/*[[:alnum:]]", FNM_PATHNAME, true);
    ("a/b", "*[![:digit:]]*/[![:d-d]", FNM_PATHNAME, true);
    ("a/[", "*[![:digit:]]*/[[:d-d]", FNM_PATHNAME, true)].
Proof. vm_compute. reflexivity. Qed.

(** Where POSIX style differs from POSIX.2 and from the repository's tests
    testfnm.c and tst-fnmatch.input: a bracket that is not closed, the colon,
    classes, collating symbols and equivalence classes of characters. *)
Lemma posix_deviates :
  fnmatch C_locale (bytes "[/b") (bytes "[/b") FNM_POSIX = Some FNM_MATCH
  /\ fnmatch C_locale (bytes ":;=@A") (bytes ":;=@A") FNM_POSIX = Some FNM_ERR
  /\ fnmatch C_locale (bytes "[[:alnum:]]") (bytes "a") FNM_POSIX = Some FNM_ERR
  /\ fnmatch C_locale (bytes "[[.-.]]") (bytes "-") FNM_POSIX = Some FNM_NOMATCH
  /\ fnmatch C_locale (bytes "[[=a=]b]") (bytes "b") FNM_POSIX = Some FNM_NOMATCH.
Proof. by vm_compute. Qed.

(** Sets are case-sensitive with [_FNM_IGNORECASE] too, and a circumflex
    inverts them like an exclamation mark; the documentation has neither. *)
Lemma sets_deviate :
  fnmatch C_locale (bytes "[a]") (bytes "A") (FNM_POSIX + FNM_IGNORECASE) = Some FNM_NOMATCH
  /\ fnmatch C_locale (bytes "a") (bytes "A") (FNM_POSIX + FNM_IGNORECASE) = Some FNM_MATCH
  /\ fnmatch C_locale (bytes "[^a]") (bytes "a") FNM_POSIX = Some FNM_NOMATCH
  /\ fnmatch C_locale (bytes "[^a]") (bytes "b") FNM_POSIX = Some FNM_MATCH.
Proof. by vm_compute. Qed.

(** A backslash does not quote a bracket or a backslash, as documented: it
    disappears. *)
Lemma backslash_does_not_quote :
  fnmatch C_locale (bytes "\[a]") (bytes "[a]") FNM_POSIX = Some FNM_NOMATCH
  /\ fnmatch C_locale (bytes "\[a]") (bytes "a") FNM_POSIX = Some FNM_MATCH
  /\ fnmatch C_locale (bytes "\\") (bytes "\") FNM_POSIX = Some FNM_NOMATCH
  /\ fnmatch C_locale (bytes "\\") (bytes "") FNM_POSIX = Some FNM_MATCH.
Proof. by vm_compute. Qed.

(** In OS/2 and DOS styles [FNM_PERIOD] has no effect. *)
Lemma os2_ignores_period :
  fnmatch C_locale (bytes "*") (bytes ".profile") (FNM_OS2 + FNM_PERIOD) = Some FNM_MATCH
  /\ fnmatch C_locale (bytes "*") (bytes ".profile") (FNM_POSIX + FNM_PERIOD) = Some FNM_NOMATCH.
Proof. by vm_compute. Qed.

(** In OS/2 and DOS styles a slash, or backslash, of the name is no ordinary
    character although [FNM_PATHNAME] is not set. *)
Lemma os2_ignores_pathname :
  fnmatch C_locale (bytes "*") (bytes "a/b") FNM_OS2 = Some FNM_NOMATCH
  /\ fnmatch C_locale (bytes "*") (bytes "a\b") FNM_DOS = Some FNM_NOMATCH
  /\ fnmatch C_locale (bytes "*") (bytes "a/b") FNM_POSIX = Some FNM_MATCH.
Proof. by vm_compute. Qed.

(** In UTF-8 a name that ends after the first two bytes of a character of
    three is read behind its end. *)
Definition utf8_locale : locale :=
  ascii (fun c => if c <? 192 then 1 else if c <? 224 then 2 else 3).
Lemma cut_character_overruns :
  has_colon utf8_locale [227; 129] = None
  /\ fnmatch utf8_locale (bytes "*") [227; 129] FNM_POSIX = None.
Proof. by vm_compute. Qed.
End Examples.
