(* ===== verification/Printf.v ===== *)
(** Formatted output ([src/src/emx/src/lib/io/_output.c] for [char], and the
    functions that call it, [sprintf.c], [vsprintf.c], [snprintf.c],
    [vsnprint.c]). A stream is what answers [_putc_inline] and
    [fwrite_unlocked], the class [Sink]. Strings and arrays of characters have
    their terminating zero, the format is a string of [CStr.v]. The argument
    list has typed arguments; a read with another type, a signed overflow and
    an access outside of an array are [Fault Ub]; [return -1] is [Err]. What
    the locale gives is the record [penv]; [long double] and
    [__legacy_dtoa] are the class [LDouble]. [PrintfSpec.v] says what is
    printed, [PrintfProps.v] has the theorems. *)

From S2P Require Import Prelude CStr Conv Stdio.
#[local] Open Scope Z_scope.

(** ** What is around *)

(** [_putc_inline] and [fwrite_unlocked (s, 1, n, stream)] on a stream. *)
Class Sink (S : Type) := {
  sk_putc : Z -> M S Z;
  sk_fwrite : list Z -> M S Z
}.

(** The results of [fpclassify]. *)
Inductive fpclass := FP_INFINITE | FP_NAN | FP_NORMAL | FP_SUBNORMAL | FP_ZERO.

(** [fp_dtoa x prec fmt dig] is [__legacy_dtoa]: the array [digits], the index
    of the pointer it returns, and the exponent. *)
Class LDouble (F : Type) := {
  fp_class : F -> fpclass;
  fp_signbit : F -> bool;
  fp_neg : F -> F;
  fp_is_zero : F -> bool;
  fp_dtoa : F -> Z -> Z -> Z -> list Z * Z * Z
}.

(** The lengths of multibyte characters, the decimal point, [toupper],
    [wcrtomb], and [strerror (errno)]. *)
Record penv := mk_penv {
  e_mbcl : Z -> Z;
  e_point : Z;
  e_toupper : Z -> Z;
  e_mbstate : Type;
  e_mbinit : e_mbstate;
  e_wcrtomb : e_mbstate -> Z -> option (list Z) * e_mbstate;
  e_strerror : list Z
}.

(** An argument: [int] or [long], [long long], a pointer to [char] or
    [wchar_t] with what can be read there, another pointer, [double] and
    [long double]. *)
Inductive arg (F : Type) :=
  | AInt (w : Z)
  | ALong (w : Z)
  | AStr (s : option (list Z))
  | AWstr (s : option (list Z))
  | APtr (a : Z)
  | ADouble (x : F)
  | ALongDouble (x : F).
Arguments AInt {F}. Arguments ALong {F}. Arguments AStr {F}. Arguments AWstr {F}.
Arguments APtr {F}. Arguments ADouble {F}. Arguments ALongDouble {F}.

(** [olocal] without [stream] and [count]. *)
Record olocal := mk_v {
  v_minus : bool; v_plus : bool; v_blank : bool; v_hash : bool;
  v_pad : Z; v_width : Z; v_prec : Z; v_dig : Z
}.
Definition set_minus (x : bool) (v : olocal) := mk_v x (v_plus v) (v_blank v) (v_hash v) (v_pad v) (v_width v) (v_prec v) (v_dig v).
Definition set_plus (x : bool) (v : olocal) := mk_v (v_minus v) x (v_blank v) (v_hash v) (v_pad v) (v_width v) (v_prec v) (v_dig v).
Definition set_blank (x : bool) (v : olocal) := mk_v (v_minus v) (v_plus v) x (v_hash v) (v_pad v) (v_width v) (v_prec v) (v_dig v).
Definition set_hash (x : bool) (v : olocal) := mk_v (v_minus v) (v_plus v) (v_blank v) x (v_pad v) (v_width v) (v_prec v) (v_dig v).
Definition set_pad (x : Z) (v : olocal) := mk_v (v_minus v) (v_plus v) (v_blank v) (v_hash v) x (v_width v) (v_prec v) (v_dig v).
Definition set_width (x : Z) (v : olocal) := mk_v (v_minus v) (v_plus v) (v_blank v) (v_hash v) (v_pad v) x (v_prec v) (v_dig v).
Definition set_prec (x : Z) (v : olocal) := mk_v (v_minus v) (v_plus v) (v_blank v) (v_hash v) (v_pad v) (v_width v) x (v_dig v).
Definition set_dig (x : Z) (v : olocal) := mk_v (v_minus v) (v_plus v) (v_blank v) (v_hash v) (v_pad v) (v_width v) (v_prec v) x.

(** The stream, the characters printed, the arguments left, and what the
    [n] conversions have stored (address, size, value). *)
Record ost (S F : Type) := mk_ost {
  o_stream : S; o_count : Z; o_args : list (arg F); o_stores : list (Z * Z * Z)
}.
Arguments mk_ost {S F}. Arguments o_stream {S F}. Arguments o_count {S F}.
Arguments o_args {S F}. Arguments o_stores {S F}.

Definition DECIMAL_DIG : Z := 21.
Definition DEFAULT_PREC : Z := 6.
Definition DBL_DIG : Z := 15.
Definition LDBL_DIG : Z := 18.
Definition DTOA_PRINTF_E : Z := 0.
Definition DTOA_PRINTF_F : Z := 1.
Definition DTOA_PRINTF_G : Z := 2.
Definition SIZE_HH : Z := Z.lor (Z.shiftl 104 8) 104.
Definition SIZE_LL : Z := Z.lor (Z.shiftl 108 8) 108.
Definition IS_SIZE_64BIT (size : Z) : bool :=
  (size =? 76) || (size =? SIZE_LL) || (size =? 113) || (size =? 106).
Definition IS_SIZE_16BIT (size : Z) : bool := size =? 104.
Definition IS_SIZE_8BIT (size : Z) : bool := size =? SIZE_HH.

Definition s8 (z : Z) : Z := (z + 128) mod 256 - 128.
Definition PERCENT : Z := 37.
Definition ZERO_CH : Z := 48.

(** [strlen] of an array. *)
Fixpoint strlen (s : list Z) : option Z :=
  match s with
  | [] => None
  | c :: s => if c =? 0 then Some 0 else n ← strlen s; Some (n + 1)
  end.

Section Printf.
Context {S F : Type} `{Sink S} `{LDouble F} (env : penv) (past : list Z).

Definition PM : Type -> Type := M (ost S F).

Definition lift {A} (m : M S A) : PM A := fun o =>
  match m (o_stream o) with
  | Done a s => Done a (mk_ost s (o_count o) (o_args o) (o_stores o))
  | Err e s => Err e (mk_ost s (o_count o) (o_args o) (o_stores o))
  | Fault f => Fault f
  end.

(** The result of an [int] operation. *)
Definition int (z : Z) : PM Z := if (- 2 ^ 31 <=? z) && (z <? 2 ^ 31) then mret z else mfail Ub.

Definition add_count (n : Z) : PM unit :=
  o ← mget; c ← int (o_count o + n);
  mput (mk_ost (o_stream o) c (o_args o) (o_stores o)).

(** [return -1] *)
Definition fail {A} : PM A := merr (-1).

(** [PUTC] *)
Definition PUTC (c : Z) : PM unit :=
  r ← lift (sk_putc c); if r =? EOF then fail else add_count 1.

(** The loop of [out_str] and of [out_pad]. *)
Fixpoint put_chars (n : nat) (s : list Z) : PM unit :=
  match n with
  | O => mret ()
  | Datatypes.S n => c ← deref (head s); _ ← PUTC c; put_chars n (tail s)
  end.

Definition out_str (s : list Z) (n : Z) : PM unit :=
  if n >=? 16 then
    d ← deref (if n <=? alen s then Some (take (Z.to_nat n) s) else None);
    r ← lift (sk_fwrite d); if negb (r =? n) then fail else add_count n
  else put_chars (Z.to_nat n) s.

(** Big paddings, 256 characters at a time. *)
Fixpoint pad_chunks (fuel : nat) (buf : list Z) (n : Z) : PM unit :=
  match fuel with
  | O => mfail Hang
  | Datatypes.S fuel =>
      if n >? 0 then
        let i := if 256 >? n then n else 256 in
        _ ← out_str buf i; pad_chunks fuel buf (n - i)
      else mret ()
  end.

Definition out_pad (c : Z) (n : Z) : PM unit :=
  if n >? 256 then pad_chunks (Datatypes.S (Z.to_nat n)) (replicate 256 c) n
  else if n >=? 16 then out_str (replicate (Z.to_nat n) c) n
  else put_chars (Z.to_nat n) (replicate (Z.to_nat n) c).

(** ** Strings *)

(** [memchr (s, 0, n)] *)
Fixpoint memchr0 (n : nat) (s : list Z) : option (option Z) :=
  match n with
  | O => Some None
  | Datatypes.S n =>
      match s with
      | [] => None
      | c :: s => if c =? 0 then Some (Some 0) else r ← memchr0 n s; Some (i ← r; Some (i + 1))
      end
  end.

Definition str_null : list Z := [40; 110; 117; 108; 108; 41; 0].

(** The pointer and the length that [cvt_str] and [cvt_wstr] print. *)
Definition str_start (v : olocal) (str : option (list Z)) (str_len : Z) : PM (list Z * Z) :=
  let str := match str with
             | Some s => s
             | None => if (v_prec v <? 0) || (v_prec v >=? 6) then str_null else [0]
             end in
  len ← (if str_len =? -1 then
           if v_prec v >=? 0 then
             r ← deref (memchr0 (Z.to_nat (v_prec v)) str);
             mret (match r with Some i => i | None => v_prec v end)
           else deref (strlen str)
         else mret (if (v_prec v >=? 0) && (v_prec v <? str_len) then v_prec v else str_len));
  mret (str, len).

Definition cvt_str (v : olocal) (str : option (list Z)) (str_len : Z) : PM unit :=
  '(str, str_len) ← str_start v str str_len;
  _ ← mwhen ((str_len <? v_width v) && negb (v_minus v)) (out_pad SPACE (v_width v - str_len));
  _ ← out_str str str_len;
  mwhen ((str_len <? v_width v) && v_minus v) (out_pad SPACE (v_width v - str_len)).

(** The loop over the wide characters. *)
Fixpoint put_wide (n : nat) (state : e_mbstate env) (str : list Z) : PM unit :=
  match n with
  | O => mret ()
  | Datatypes.S n =>
      wc ← deref (head str);
      match e_wcrtomb env state wc with
      | (None, _) => fail
      | (Some [], _) => mret ()
      | (Some mb, state) => _ ← out_str mb (alen mb); put_wide n state (tail str)
      end
  end.

Definition cvt_wstr (v : olocal) (str : option (list Z)) (str_len : Z) : PM unit :=
  '(str, str_len) ← str_start v str str_len;
  _ ← mwhen ((str_len <? v_width v) && negb (v_minus v)) (out_pad SPACE (v_width v - str_len));
  _ ← put_wide (Z.to_nat str_len) (e_mbinit env) str;
  mwhen ((str_len <? v_width v) && v_minus v) (out_pad SPACE (v_width v - str_len)).

(** ** Numbers *)

(** [SAFE_STRLEN], and a pointer that is read up to a length. *)
Definition safe_strlen (s : option (list Z)) : PM Z :=
  match s with None => mret 0 | Some s => deref (strlen s) end.
Definition text (s : option (list Z)) : list Z := default [] s.

Definition cvt_number (v : olocal) (pfx dot : option (list Z)) (str : list Z) (xps : option (list Z))
    (lpad0 rpad0 : Z) (is_signed is_neg : bool) : PM unit :=
  let sign := if negb is_signed then EOF else if is_neg then MINUS else if v_plus v then PLUS
              else if v_blank v then SPACE else EOF in
  pfx_len ← safe_strlen pfx;
  dot_len ← safe_strlen dot;
  str_len ← safe_strlen (Some str);
  xps_len ← safe_strlen xps;
  let lpad0 := if lpad0 <? 0 then 0 else lpad0 in
  let rpad0 := if rpad0 <? 0 then 0 else rpad0 in
  m ← int (lpad0 + pfx_len); m ← int (m + dot_len); m ← int (m + str_len);
  m ← int (m + rpad0); m ← int (m + xps_len);
  min_len ← (if negb (sign =? EOF) then int (m + 1) else mret m);
  let '(lpad1, min_len) :=
    if (v_pad v =? ZERO_CH) && (min_len <? v_width v) then (v_width v - min_len, v_width v)
    else (0, min_len) in
  let '(lpad1, lpad0) := if dot_len =? 0 then (lpad1 + lpad0, 0) else (lpad1, lpad0) in
  _ ← mwhen ((min_len <? v_width v) && negb (v_minus v)) (out_pad SPACE (v_width v - min_len));
  _ ← mwhen (negb (sign =? EOF)) (PUTC sign);
  _ ← out_str (text pfx) pfx_len;
  _ ← out_pad ZERO_CH lpad1;
  _ ← out_str (text dot) dot_len;
  _ ← out_pad ZERO_CH lpad0;
  _ ← out_str str str_len;
  _ ← out_pad ZERO_CH rpad0;
  _ ← out_str (text xps) xps_len;
  mwhen ((min_len <? v_width v) && v_minus v) (out_pad SPACE (v_width v - min_len)).

Definition cvt_integer (v : olocal) (pfx : option (list Z)) (str : list Z) (zero is_signed is_neg : bool)
    : PM unit :=
  if zero && (v_prec v =? 0) then mret ()
  else
    let v := if v_prec v >=? 0 then set_pad SPACE v else v in
    len ← deref (strlen str);
    lpad0 ← int (v_prec v - len);
    cvt_number v pfx None str None lpad0 0 is_signed is_neg.

(** [str_upper] *)
Fixpoint str_upper (s : list Z) : list Z :=
  match s with
  | [] => []
  | c :: s' => let u := e_toupper env c in if u =? 0 then u :: s' else u :: str_upper s'
  end.

(** An array of [size] bytes that a function has filled. *)
Definition buf (size : Z) (s : option (list Z)) : PM (list Z) :=
  s ← deref s; if alen s <=? size then mret s else mfail Ub.

Definition cvt_hex (v : olocal) (str : list Z) (x : Z) (zero : bool) : PM unit :=
  let str := if x =? 88 then str_upper str else str in
  cvt_integer v (if negb zero && v_hash v then Some (if x =? 88 then [48; 88; 0] else [48; 120; 0]) else None)
    str zero false false.
Definition cvt_hex_32 (v : olocal) (n x : Z) : PM unit := b ← buf 9 (ultoa n 16); cvt_hex v b x (n =? 0).
Definition cvt_hex_64 (v : olocal) (n x : Z) : PM unit := b ← buf 17 (ulltoa n 16); cvt_hex v b x (n =? 0).

Definition cvt_oct (v : olocal) (str : list Z) (zero : bool) : PM unit :=
  c ← deref (head str);
  v ← (if v_hash v && negb (c =? ZERO_CH) then
         len ← deref (strlen str);
         mret (if v_prec v <=? len then set_prec (len + 1) v else v)
       else mret v);
  cvt_integer v None str (zero && negb (v_hash v)) false false.
Definition cvt_oct_32 (v : olocal) (n : Z) : PM unit := b ← buf 12 (ultoa n 8); cvt_oct v b (n =? 0).
Definition cvt_oct_64 (v : olocal) (n : Z) : PM unit := b ← buf 23 (ulltoa n 8); cvt_oct v b (n =? 0).

Definition cvt_dec_32 (v : olocal) (n : Z) (is_signed is_neg : bool) : PM unit :=
  b ← buf 11 (ultoa n 10); cvt_integer v None b (n =? 0) is_signed is_neg.
Definition cvt_dec_64 (v : olocal) (n : Z) (is_signed is_neg : bool) : PM unit :=
  b ← buf 21 (ulltoa n 10); cvt_integer v None b (n =? 0) is_signed is_neg.

(** ** Floating point numbers *)

(** The array that [digits] points into, from there on: what [digits[i] = c]
    and [memmove] do to it. The array ends with its last character: an access
    behind it is a fault. The bytes [past] are those behind the array that may
    be accessed too; without any ([past] empty) these are the rules of C. *)
Definition arr_set (a : list Z) (i c : Z) : PM (list Z) :=
  if (0 <=? i) && (i <? alen a) then mret (aset a i c) else mfail Ub.
Definition arr_move (a : list Z) (dst src n : Z) : PM (list Z) :=
  if (0 <=? dst) && (0 <=? src) && (0 <=? n) && (dst + n <=? alen a) && (src + n <=? alen a)
  then mret (take (Z.to_nat dst) a ++ take (Z.to_nat n) (drop (Z.to_nat src) a)
             ++ drop (Z.to_nat (dst + n)) a)
  else mfail Ub.

Definition zdot : list Z := [48; e_point env; 0].

(** [__remove_zeros]: the index of the last character to keep. *)
Fixpoint last_digit (i : nat) (digits : list Z) (keep : Z) : option Z :=
  match i with
  | O => Some (-1)
  | Datatypes.S i' =>
      if Z.of_nat i' >=? keep then
        c ← aget digits (Z.of_nat i');
        if c =? ZERO_CH then last_digit i' digits keep else Some (Z.of_nat i')
      else Some (Z.of_nat i')
  end.
Definition remove_zeros (digits : list Z) (keep : Z) : PM (list Z) :=
  len ← deref (strlen digits);
  i ← deref (last_digit (Z.to_nat len) digits keep);
  arr_set digits (i + 1) 0.

Definition cvt_fixed_digits (v : olocal) (digits : list Z) (xp : Z) (is_neg is_auto : bool) : PM unit :=
  if xp <? 0 then
    let lpad0 := - xp - 1 in
    let lpad0 := if v_prec v <? lpad0 then v_prec v else lpad0 in
    let rpad0 := v_prec v - (lpad0 + DECIMAL_DIG) in
    let rpad0 := if rpad0 <? 0 then 0 else rpad0 in
    let len := v_prec v - lpad0 in
    digits ← (if (len >=? 0) && (len <? DECIMAL_DIG) then arr_set digits len 0 else mret digits);
    '(digits, rpad0) ← (if is_auto then d ← remove_zeros digits 0; mret (d, 0) else mret (digits, rpad0));
    c ← deref (head digits);
    let lpad0 := if is_auto && (c =? 0) then 0 else lpad0 in
    cvt_number v None
      (Some (if v_hash v || negb (c =? 0) || negb (lpad0 =? 0) then zdot else [48; 0]))
      digits None lpad0 rpad0 true is_neg
  else if xp <? DECIMAL_DIG then
    let frac := DECIMAL_DIG - xp - 1 in
    let rpad0 := v_prec v - frac in
    '(digits, rpad0) ← (if rpad0 <? 0 then d ← arr_set digits (DECIMAL_DIG + rpad0) 0; mret (d, 0)
                        else mret (digits, rpad0));
    '(digits, rpad0) ← (if is_auto then d ← remove_zeros digits (xp + 1); mret (d, 0)
                        else mret (digits, rpad0));
    c ← deref (aget digits (xp + 1));
    digits ← (if v_hash v || negb (c =? 0) || negb (rpad0 =? 0) then
                d ← arr_move digits (xp + 2) (xp + 1) (DECIMAL_DIG - xp);
                arr_set d (xp + 1) (e_point env)
              else mret digits);
    cvt_number v None None digits None 0 rpad0 true is_neg
  else
    let lpad0 := xp - DECIMAL_DIG + 1 in
    let rpad0 := if is_auto then 0 else v_prec v in
    cvt_number v None (Some digits) (if v_hash v || negb (rpad0 =? 0) then tail zdot else [0])
      None lpad0 rpad0 true is_neg.

(** The exponent: [xps_buf]. *)
Definition exponent (xp_char xp : Z) : list Z :=
  let '(sign, xp) := if xp <? 0 then (MINUS, - xp) else (PLUS, xp) in
  [xp_char; sign]
  ++ (if xp >=? 1000 then [xp / 1000 mod 10 + 48] else [])
  ++ (if xp >=? 100 then [xp / 100 mod 10 + 48] else [])
  ++ [xp / 10 mod 10 + 48; xp mod 10 + 48; 0].

Definition cvt_exp_digits (v : olocal) (digits : list Z) (xp : Z) (is_neg : bool) (xp_char : Z)
    (is_auto : bool) : PM unit :=
  let xps_buf := exponent xp_char xp in
  '(digits, rpad0) ←
    (if (v_prec v =? 0) && negb (v_hash v) then d ← arr_set digits 1 0; mret (d, 0)
     else
       digits ← arr_move digits 2 1 DECIMAL_DIG;
       digits ← arr_set digits 1 (e_point env);
       '(digits, rpad0) ← (if v_prec v >=? DECIMAL_DIG then n ← int (1 + v_prec v); mret (digits, n - DECIMAL_DIG)
                           else d ← arr_set digits (2 + v_prec v) 0; mret (d, 0));
       if is_auto then
         digits ← remove_zeros digits 2;
         c ← deref (aget digits 2);
         digits ← (if c =? 0 then arr_set digits 1 0 else mret digits);
         mret (digits, 0)
       else mret (digits, rpad0));
  cvt_number v None None digits (Some xps_buf) 0 rpad0 true is_neg.

(** [__legacy_dtoa (digits, &xp, x, ...)] into an array of
    [DECIMAL_DIG + 2] characters. *)
Definition dtoa (v : olocal) (x : F) (fmt : Z) : PM (list Z * Z) :=
  let '(a, p, xp) := fp_dtoa x (v_prec v) fmt (v_dig v) in
  if (alen a =? DECIMAL_DIG + 2) && (0 <=? p) && (p <? alen a)
  then mret (drop (Z.to_nat p) a ++ past, xp) else mfail Ub.

Definition cvt_fixed (v : olocal) (x : F) (is_neg : bool) : PM unit :=
  if fp_is_zero x then
    cvt_number v None None (if v_hash v || (v_prec v >? 0) then zdot else [48; 0]) None 0 (v_prec v) true is_neg
  else '(p, xp) ← dtoa v x DTOA_PRINTF_F; cvt_fixed_digits v p xp is_neg false.

Definition cvt_exp (v : olocal) (x : F) (is_neg : bool) (xp_char : Z) : PM unit :=
  if fp_is_zero x then
    cvt_number v None None (if v_hash v || (v_prec v >? 0) then zdot else [48; 0])
      (Some [xp_char; 43; 48; 48; 0]) 0 (v_prec v) true is_neg
  else '(p, xp) ← dtoa v x DTOA_PRINTF_E; cvt_exp_digits v p xp is_neg xp_char false.

Definition cvt_auto (v : olocal) (x : F) (is_neg : bool) (xp_char : Z) : PM unit :=
  let v := if v_prec v =? 0 then set_prec 1 v else v in
  if fp_is_zero x then
    cvt_number v None None (if v_hash v then zdot else [48; 0]) None 0
      (if v_hash v then v_prec v - 1 else 0) true is_neg
  else
    '(p, xp) ← dtoa v x DTOA_PRINTF_G;
    if (xp <? -4) || (xp >=? v_prec v) then
      cvt_exp_digits (set_prec (v_prec v - 1) v) p xp is_neg xp_char (negb (v_hash v))
    else
      prec ← int (v_prec v - (xp + 1));
      cvt_fixed_digits (set_prec (if prec <? 0 then 0 else prec) v) p xp is_neg (negb (v_hash v)).

Definition cvt_float (v : olocal) (x : F) (fmt : Z) : PM unit :=
  let lower := negb (Z.land fmt 0x20 =? 0) in
  match fp_class x with
  | FP_NAN => cvt_number (set_pad SPACE v) None None (if lower then [110; 97; 110; 0] else [78; 65; 78; 0])
                None 0 0 true false
  | FP_INFINITE => cvt_number (set_pad SPACE v) None None (if lower then [105; 110; 102; 0] else [73; 78; 70; 0])
                     None 0 0 true (fp_signbit x)
  | _ =>
      let is_neg := fp_signbit x in
      let v := if v_prec v <? 0 then set_prec DEFAULT_PREC v else v in
      let x := if is_neg then fp_neg x else x in
      if (fmt =? 102) || (fmt =? 70) then cvt_fixed v x is_neg
      else if fmt =? 103 then cvt_auto v x is_neg 101
      else if fmt =? 71 then cvt_auto v x is_neg 69
      else if fmt =? 101 then cvt_exp v x is_neg 101
      else if fmt =? 69 then cvt_exp v x is_neg 69
      else mfail Panic
  end.

(** ** Arguments *)

(** [va_arg (arg_ptr, ...)] *)
Definition next_arg : PM (arg F) :=
  o ← mget;
  match o_args o with
  | [] => mfail Ub
  | a :: l => _ ← mput (mk_ost (o_stream o) (o_count o) l (o_stores o)); mret a
  end.
Definition va_int : PM Z := a ← next_arg; match a with AInt w => mret w | _ => mfail Ub end.
Definition va_llong : PM Z := a ← next_arg; match a with ALong w => mret w | _ => mfail Ub end.
Definition va_ptr : PM Z := a ← next_arg; match a with APtr w => mret w | _ => mfail Ub end.
Definition va_str : PM (option (list Z)) := a ← next_arg; match a with AStr s => mret s | _ => mfail Ub end.
Definition va_wstr : PM (option (list Z)) := a ← next_arg; match a with AWstr s => mret s | _ => mfail Ub end.
Definition va_double : PM F := a ← next_arg; match a with ADouble x => mret x | _ => mfail Ub end.
Definition va_ldouble : PM F := a ← next_arg; match a with ALongDouble x => mret x | _ => mfail Ub end.

(** [*ptr = v.count], [bytes] wide *)
Definition store_count (bytes : Z) (conv : Z -> Z) : PM unit :=
  a ← va_ptr; o ← mget;
  mput (mk_ost (o_stream o) (o_count o) (o_args o) (o_stores o ++ [(a, bytes, conv (o_count o))])).

(** ** The format *)

(** [do { ++format; switch ( *format) ... } while (cont)] *)
Fixpoint flags_loop (fuel : nat) (v : olocal) (format : list Z) : PM (olocal * list Z) :=
  match fuel with
  | O => mfail Hang
  | Datatypes.S fuel =>
      format ← deref (adv 1 format);
      let c := chr format in
      if c =? 45 then flags_loop fuel (set_minus true v) format
      else if c =? 43 then flags_loop fuel (set_plus true v) format
      else if c =? 48 then flags_loop fuel (set_pad ZERO_CH v) format
      else if c =? 32 then flags_loop fuel (set_blank true v) format
      else if c =? 35 then flags_loop fuel (set_hash true v) format
      else mret (v, format)
  end.

Definition is_digit (c : Z) : bool := (48 <=? c) && (c <=? 57).

(** The digits of a width or a precision. *)
Fixpoint number_loop (fuel : nat) (n : Z) (format : list Z) : PM (Z * list Z) :=
  match fuel with
  | O => mfail Hang
  | Datatypes.S fuel =>
      if is_digit (chr format) then
        m ← int (n * 10); n ← int (m + (chr format - 48));
        format ← deref (adv 1 format);
        number_loop fuel n format
      else mret (n, format)
  end.

Definition STAR_CH : Z := 42.
Definition field_width (v : olocal) (format : list Z) : PM (olocal * list Z) :=
  if chr format =? STAR_CH then
    format ← deref (adv 1 format);
    w ← va_int;
    let w := s32 w in
    if w <? 0 then n ← int (- w); mret (set_minus true (set_width n v), format)
    else mret (set_width w v, format)
  else
    '(n, format) ← number_loop (Datatypes.S (length format)) (v_width v) format;
    mret (set_width n v, format).

Definition precision (v : olocal) (format : list Z) : PM (olocal * list Z) :=
  if chr format =? 46 then
    format ← deref (adv 1 format);
    if chr format =? STAR_CH then
      format ← deref (adv 1 format);
      p ← va_int;
      let p := s32 p in
      mret (set_prec (if p <? 0 then -1 else p) v, format)
    else
      '(n, format) ← number_loop (Datatypes.S (length format)) 0 format;
      mret (set_prec n v, format)
  else mret (v, format).

(** One of [hlLjztqZ], twice for [h] and [l]. *)
Definition is_size (c : Z) : bool :=
  (c =? 104) || (c =? 108) || (c =? 76) || (c =? 106) || (c =? 122) || (c =? 116) || (c =? 113) || (c =? 90).
Definition size_of (format : list Z) : PM (Z * list Z) :=
  if is_size (chr format) then
    let size := chr format in
    format ← deref (adv 1 format);
    if (size =? 108) && (chr format =? 108) then format ← deref (adv 1 format); mret (SIZE_LL, format)
    else if (size =? 104) && (chr format =? 104) then format ← deref (adv 1 format); mret (SIZE_HH, format)
    else mret (size, format)
  else mret (0, format).

(** ** Conversions *)

(** [-n] of the least number is left as it is (the code counts on the
    wrap-around of the processor there). *)
Definition cvt_signed (v : olocal) (size : Z) : PM unit :=
  if IS_SIZE_64BIT size then
    n ← va_llong;
    let n := s64 n in
    if n <? 0 then cvt_dec_64 v (u64 (- n)) true true else cvt_dec_64 v n true false
  else
    n ← va_int;
    let n := s32 n in
    let n := if size =? 104 then s16 n else if size =? SIZE_HH then s8 n else n in
    if n <? 0 then cvt_dec_32 v (u32 (- n)) true true else cvt_dec_32 v n true false.

(** The unsigned argument of the 32-bit conversions. *)
Definition va_unsigned (size : Z) : PM Z :=
  n ← va_int;
  let n := u32 n in
  mret (if size =? 104 then u16 n else if size =? SIZE_HH then uchar n else n).

Definition convert (v : olocal) (size : Z) (format : list Z) : PM unit :=
  let c := chr format in
  if c =? 110 then
    if IS_SIZE_64BIT size then store_count 8 (fun n => n)
    else if IS_SIZE_16BIT size then store_count 2 s16
    else if IS_SIZE_8BIT size then store_count 1 s8
    else store_count 4 (fun n => n)
  else if (c =? 99) && negb (size =? 108) && negb (size =? 76) then
    n ← va_int; cvt_str (set_prec 1 v) (Some [uchar n]) 1
  else if (c =? 99) || (c =? 67) then
    n ← va_int; cvt_wstr (set_prec 1 v) (Some [u16 n]) 1
  else if (c =? 115) && negb (size =? 108) && negb (size =? 76) then
    str ← va_str; cvt_str v str (-1)
  else if (c =? 115) || (c =? 83) then
    str ← va_wstr; cvt_wstr v str (-1)
  else if (c =? 100) || (c =? 105) then cvt_signed v size
  else if c =? 117 then
    if IS_SIZE_64BIT size then n ← va_llong; cvt_dec_64 v (u64 n) false false
    else n ← va_unsigned size; cvt_dec_32 v n false false
  else if c =? 112 then a ← va_ptr; cvt_hex_32 (set_hash true v) (u32 a) 120
  else if (c =? 120) || (c =? 88) then
    if IS_SIZE_64BIT size then n ← va_llong; cvt_hex_64 v (u64 n) c
    else n ← va_unsigned size; cvt_hex_32 v n c
  else if c =? 111 then
    if IS_SIZE_64BIT size then n ← va_llong; cvt_oct_64 v (u64 n)
    else n ← va_unsigned size; cvt_oct_32 v n
  else if (c =? 103) || (c =? 71) || (c =? 101) || (c =? 69) || (c =? 102) || (c =? 70) then
    if size =? 76 then x ← va_ldouble; cvt_float (set_dig LDBL_DIG v) x c
    else x ← va_double; cvt_float (set_dig DBL_DIG v) x c
  else if c =? 109 then cvt_str v (Some (e_strerror env)) (-1)
  else out_str format 1.

(** The bytes of one multibyte character. *)
Fixpoint put_char (mbn : nat) (format : list Z) : PM (list Z) :=
  match mbn with
  | O => mret format
  | Datatypes.S mbn => _ ← PUTC (chr format); format ← deref (adv 1 format); put_char mbn format
  end.

(** [_output]; what it returns normally. *)
Fixpoint output_loop (fuel : nat) (format : list Z) : PM Z :=
  match fuel with
  | O => mfail Hang
  | Datatypes.S fuel =>
      let c := chr format in
      if c =? 0 then gets o_count
      else if negb (c =? PERCENT) then
        let mbn := if 1 <? e_mbcl env c then e_mbcl env c else 1 in
        format ← put_char (Z.to_nat mbn) format; output_loop fuel format
      else
        c1 ← deref (chr1 format);
        if c1 =? PERCENT then
          _ ← PUTC PERCENT; format ← deref (adv 2 format); output_loop fuel format
        else
          '(v, format) ← flags_loop (Datatypes.S (length format))
                           (mk_v false false false false SPACE 0 (-1) 0) format;
          let v := if v_minus v then set_pad SPACE v else v in
          '(v, format) ← field_width v format;
          '(v, format) ← precision v format;
          '(size, format) ← size_of format;
          if chr format =? 0 then gets o_count
          else
            _ ← convert v size format;
            format ← deref (adv 1 format); output_loop fuel format
  end.

(** The state at the beginning; [-1] for [return -1]. *)
Definition output (stream : S) (format : list Z) (args : list (arg F)) : outcome (ost S F) Z :=
  match output_loop (Datatypes.S (length format)) format (mk_ost stream 0 args []) with
  | Err _ o => Done (-1) o
  | r => r
  end.
End Printf.

(** ** Streams that are strings *)

(** What [sprintf] and [snprintf] use of [FILE]: the bytes from [buffer] on,
    [_ptr] and [_wcount]. *)
Record trick := mk_trick { t_mem : list Z; t_ptr : Z; t_wcount : Z }.

(** The branches of [_putc_inline], [_flush] and [fwrite_unlocked] for
    [_IOSPECIAL]. *)
Definition trick_flush (c : Z) : M trick Z :=
  _ ← mmod (fun t => mk_trick (t_mem t) (t_ptr t) 0); mret (uchar c).
Definition trick_put (d : list Z) : M trick unit :=
  t ← mget;
  if t_ptr t + alen d <=? alen (t_mem t)
  then mput (mk_trick (take (Z.to_nat (t_ptr t)) (t_mem t) ++ d
                       ++ drop (Z.to_nat (t_ptr t + alen d)) (t_mem t))
               (t_ptr t) (t_wcount t))
  else mfail Ub.
Definition trick_store (d : list Z) : M trick unit :=
  _ ← trick_put d; mmod (fun t => mk_trick (t_mem t) (t_ptr t + alen d) (t_wcount t)).
Definition trick_putc (c : Z) : M trick Z :=
  t ← mget;
  _ ← mput (mk_trick (t_mem t) (t_ptr t) (t_wcount t - 1));
  if t_wcount t - 1 >=? 0 then _ ← trick_store [uchar c]; mret (uchar c) else trick_flush c.

Fixpoint trick_write (fuel : nat) (src : list Z) : M trick unit :=
  match src, fuel with
  | [], _ => mret ()
  | _, O => mfail Hang
  | c :: rest, Datatypes.S fuel =>
      t ← mget;
      if t_wcount t =? 0 then _ ← trick_flush c; trick_write fuel rest
      else
        let n := Z.min (alen src) (t_wcount t) in
        _ ← trick_store (take (Z.to_nat n) src);
        _ ← mmod (fun t => mk_trick (t_mem t) (t_ptr t) (t_wcount t - n));
        trick_write fuel (drop (Z.to_nat n) src)
  end.
Definition trick_fwrite (src : list Z) : M trick Z :=
  _ ← trick_write (length src) src; mret (alen src).

#[export] Instance trick_sink : Sink trick := { sk_putc := trick_putc; sk_fwrite := trick_fwrite }.

Section Sprintf.
Context {F : Type} `{LDouble F} (env : penv) (past : list Z).

(** [sprintf] and [vsprintf]: the memory from [buffer] on. *)
Definition sprintf (mem : list Z) (format : list Z) (args : list (arg F)) : outcome (ost trick F) Z :=
  match output env past (mk_trick mem 0 INT_MAX) format args with
  | Done result o =>
      match lift (trick_putc 0) o with
      | Done _ o => Done result o
      | Err e o => Err e o
      | Fault f => Fault f
      end
  | r => r
  end.

(** [snprintf] and [vsnprintf] *)
Definition snprintf (mem : list Z) (n : Z) (format : list Z) (args : list (arg F)) : outcome (ost trick F) Z :=
  if n >? INT_MAX then Done EOF (mk_ost (mk_trick mem 0 0) 0 args [])
  else
    match output env past (mk_trick mem 0 (if negb (n =? 0) then n - 1 else 0)) format args with
    | Done result o =>
        if negb (n =? 0) then
          match lift (trick_put [0]) o with
          | Done _ o' => Done result o'
          | Err e o => Err e o
          | Fault f => Fault f
          end
        else Done result o
    | r => r
    end.
End Sprintf.
