(* ===== verification/PrintfSpec.v ===== *)
(** What formatted output prints. A format is a list of directives with a
    concrete syntax ([unparse]); [render] gives the characters they stand for,
    as texts: numerals, strings and decimal fractions, laid out in fields. It
    is undefined where C leaves the behaviour open. The classes at the end say
    what a stream promises. *)

From S2P Require Import Prelude CStr Conv ConvFacts Stdio StdioSpec Printf.
#[local] Open Scope Z_scope.

(** ** Formats *)

Inductive flag := FMinus | FPlus | FZero | FBlank | FHash.
#[export] Instance flag_eq_dec : EqDecision flag.
Proof. solve_decision. Defined.

(** A width or a precision: an asterisk, or digits. *)
Inductive amount := Star | Num (ds : list Z).

Record cspec := mk_cspec {
  cs_flags : list flag; cs_width : option amount; cs_prec : option amount;
  cs_size : Z; cs_conv : Z
}.

Inductive directive := Plain (ch : list Z) | Percent | Conversion (c : cspec).

Definition flag_char (f : flag) : Z :=
  match f with FMinus => 45 | FPlus => 43 | FZero => 48 | FBlank => 32 | FHash => 35 end.
Definition unparse_amount (a : option amount) : list Z :=
  match a with None => [] | Some Star => [42] | Some (Num ds) => digit_char <$> ds end.
Definition unparse_size (size : Z) : list Z :=
  if size =? 0 then [] else if size =? SIZE_HH then [104; 104] else if size =? SIZE_LL then [108; 108] else [size].
Definition unparse_conv (c : cspec) : list Z :=
  (flag_char <$> cs_flags c) ++ unparse_amount (cs_width c)
  ++ (match cs_prec c with None => [] | Some a => 46 :: unparse_amount (Some a) end)
  ++ unparse_size (cs_size c) ++ [cs_conv c].
Definition unparse1 (d : directive) : list Z :=
  match d with Plain ch => ch | Percent => [37; 37] | Conversion c => 37 :: unparse_conv c end.
Definition unparse (ds : list directive) : list Z := ds ≫= unparse1.

(** The letters of the conversions, and of the sizes. *)
Definition conv_letters : list Z := [110; 99; 67; 115; 83; 100; 105; 117; 112; 120; 88; 111; 103; 71; 101; 69; 102; 70; 109].
Definition sizes : list Z := [0; 104; 108; 76; 106; 122; 116; 113; 90; SIZE_HH; SIZE_LL].
Definition digits_ok (ds : list Z) : Prop := Forall (fun d => 0 <= d < 10) ds.

(** A width does not begin with the digit zero, which is a flag. *)
Definition width_ok (a : option amount) : Prop :=
  match a with Some (Num ds) => digits_ok ds /\ ds <> [] /\ head ds <> Some 0 | _ => True end.
Definition prec_ok (a : option amount) : Prop :=
  match a with Some (Num ds) => digits_ok ds | _ => True end.
#[export] Instance width_ok_dec a : Decision (width_ok a).
Proof. destruct a as [[|ds]|]; unfold width_ok, digits_ok; apply _. Defined.
#[export] Instance prec_ok_dec a : Decision (prec_ok a).
Proof. destruct a as [[|ds]|]; unfold prec_ok, digits_ok; apply _. Defined.
Definition directive_ok (env : penv) (d : directive) : Prop :=
  match d with
  | Plain ch => exists c k, ch = c :: k /\ c <> 0 /\ c <> 37 /\ Forall byte ch
                  /\ alen ch = (if 1 <? e_mbcl env c then e_mbcl env c else 1)
  | Percent => True
  | Conversion c => width_ok (cs_width c) /\ prec_ok (cs_prec c) /\ cs_size c ∈ sizes /\ cs_conv c ∈ conv_letters
  end.

(** ** Fields *)

Record field := mk_field {
  f_minus : bool; f_plus : bool; f_blank : bool; f_hash : bool; f_zero : bool;
  f_width : Z; f_prec : option Z
}.

Definition rep (n c : Z) : list Z := replicate (Z.to_nat n) c.

(** A text in its field: filled with zeros behind sign and prefix, or with
    blanks at the right or at the left. *)
Definition lay (width : Z) (minus zero : bool) (sign prefix body : list Z) : list Z :=
  let text := sign ++ prefix ++ body in
  let fill := width - alen text in
  if zero then sign ++ prefix ++ rep fill 48 ++ body
  else if minus then text ++ rep fill 32
  else rep fill 32 ++ text.
Definition layout (f : field) (zeros : bool) : list Z -> list Z -> list Z -> list Z :=
  lay (f_width f) (f_minus f) (f_zero f && zeros).

Definition sign_of (f : field) (neg : bool) : list Z :=
  if neg then [45] else if f_plus f then [43] else if f_blank f then [32] else [].

(** The numeral of a number that is not negative. *)
Definition numeral (radix n : Z) : list Z :=
  match put_digits 64 n radix with Some ds => rev ds | None => [] end.

(** No digits at all for zero with precision zero, and no field either. *)
Definition int_text (f : field) (sign prefix : list Z) (n : Z) (ds : list Z) : list Z :=
  if (n =? 0) && bool_decide (f_prec f = Some 0) then []
  else layout f (bool_decide (f_prec f = None)) sign prefix (rep (default 0 (f_prec f) - alen ds) 48 ++ ds).

Definition dec_text (f : field) (signed : bool) (n : Z) : list Z :=
  int_text f (if signed then sign_of f (n <? 0) else []) [] n (numeral 10 (Z.abs n)).

Definition upper_case (c : Z) : Z := if (97 <=? c) && (c <=? 102) then c - 32 else c.
Definition hex_text (f : field) (upper : bool) (n : Z) : list Z :=
  let ds := numeral 16 n in
  int_text f [] (if f_hash f && negb (n =? 0) then [48; if upper then 88 else 120] else []) n
    (if upper then upper_case <$> ds else ds).

(** With [#] the first digit is a zero. *)
Definition oct_text (f : field) (n : Z) : list Z :=
  let ds := numeral 8 n in
  if f_hash f then
    let body := rep (default 0 (f_prec f) - alen ds) 48 ++ ds in
    layout f (bool_decide (f_prec f = None) && (n =? 0)) [] []
      (if bool_decide (head body = Some 48) then body else 48 :: body)
  else int_text f [] [] n ds.

(** ** Strings *)

Fixpoint until_zero (s : list Z) : list Z :=
  match s with [] => [] | c :: s => if c =? 0 then [] else c :: until_zero s end.

(** The characters printed of an array: at most [prec] of them, up to a zero
    that must be there if they are fewer. *)
Definition content (prec : option Z) (s : list Z) : option (list Z) :=
  let s := match prec with None => s | Some p => take (Z.to_nat p) s end in
  if bool_decide (0 ∈ s) || bool_decide (prec = Some (alen s)) then Some (until_zero s) else None.

Definition null_text (prec : option Z) : list Z :=
  if bool_decide (prec = None) || (6 <=? default 0 prec) then str_null else [0].

(** A text whose length counts as [len]. *)
Definition pad_text (f : field) (len : Z) (text : list Z) : list Z :=
  let fill := f_width f - len in
  if f_minus f then text ++ rep fill 32 else rep fill 32 ++ text.
Definition str_text (f : field) (s : option (list Z)) : option (list Z) :=
  t ← content (f_prec f) (match s with Some s => s | None => null_text (f_prec f) end);
  Some (pad_text f (alen t) t).

(** Wide characters: the field counts them before they are converted. *)
Fixpoint wide_bytes (env : penv) (state : e_mbstate env) (t : list Z) : option (list Z) :=
  match t with
  | [] => Some []
  | wc :: t =>
      match e_wcrtomb env state wc with
      | (Some mb, state) => r ← wide_bytes env state t; Some (mb ++ r)
      | (None, _) => None
      end
  end.
Definition wide_char_text (env : penv) (f : field) (wc : Z) : option (list Z) :=
  b ← wide_bytes env (e_mbinit env) [wc]; Some (pad_text f 1 b).
Definition wide_text (env : penv) (f : field) (s : option (list Z)) : option (list Z) :=
  t ← content (f_prec f) (match s with Some s => s | None => null_text (f_prec f) end);
  b ← wide_bytes env (e_mbinit env) t;
  Some (pad_text f (alen t) b).

(** ** Decimal fractions *)

(** The digit for [10 ^ k] of the number whose first digit [d] stands for
    [10 ^ xp]. *)
Definition digit_at (d : list Z) (xp k : Z) : Z :=
  if xp - k <? 0 then 48 else default 48 (aget d (xp - k)).
(** [n] digits from [10 ^ k] on downwards. *)
Definition digits_from (d : list Z) (xp k n : Z) : list Z :=
  (fun i => digit_at d xp (k - i)) <$> zrange 0 (Z.to_nat n).

Definition strip (l : list Z) : list Z := rev (drop_while (fun c => c =? 48) (rev l)).

(** The fraction part behind the point; [auto]: without trailing zeros. *)
Definition fraction (point : Z) (hash auto : bool) (l : list Z) : list Z :=
  let l := if auto then strip l else l in
  if hash || bool_decide (l <> []) then point :: l else [].

Definition fixed_body (point : Z) (hash auto : bool) (prec : Z) (d : list Z) (xp : Z) : list Z :=
  digits_from d xp (Z.max xp 0) (Z.max xp 0 + 1) ++ fraction point hash auto (digits_from d xp (-1) prec).
Definition exp_body (point : Z) (hash auto : bool) (prec : Z) (d : list Z) (xp : Z) (xp_char : Z) : list Z :=
  digits_from d xp xp 1 ++ fraction point hash auto (digits_from d xp (xp - 1) prec)
  ++ until_zero (exponent xp_char xp).

Section Float.
Context {F : Type} `{LDouble F} (env : penv).

(** The number of digits the conversion asks for. *)
Definition asked (prec fmt xp : Z) : Z :=
  if fmt =? DTOA_PRINTF_E then prec + 1 else if fmt =? DTOA_PRINTF_F then xp + 1 + prec else prec.

(** The digits of a number and its exponent. When rounding carries into a new
    digit there is one zero too many behind the digits, which is harmless if
    not all of them are asked for. *)
Definition decimal (x : F) (prec fmt dig : Z) : option (list Z * Z) :=
  let '(a, p, xp) := fp_dtoa x prec fmt dig in
  let d := take 21 (drop (Z.to_nat p) a) in
  if bool_decide (alen d = DECIMAL_DIG /\ Forall (fun c => 48 <= c < 58) d /\ -5000 <= xp <= 5000 /\
       (p = 1 /\ a = 48 :: d ++ [0] \/ p = 0 /\ a = d ++ [48; 0] /\ asked prec fmt xp < DECIMAL_DIG))
  then Some (d, xp) else None.

Definition float_body (hash : bool) (prec : Z) (x : F) (c dig : Z) : option (list Z) :=
  let p := e_point env in
  let e := if Z.land c 0x20 =? 0 then 69 else 101 in
  if fp_is_zero x then
    let d := [48] in
    Some (if (c =? 102) || (c =? 70) then fixed_body p hash false prec d 0
          else if (c =? 101) || (c =? 69) then exp_body p hash false prec d 0 e
          else fixed_body p hash (negb hash) ((if prec =? 0 then 1 else prec) - 1) d 0)
  else if (c =? 102) || (c =? 70) then
    '(d, xp) ← decimal x prec DTOA_PRINTF_F dig; Some (fixed_body p hash false prec d xp)
  else if (c =? 101) || (c =? 69) then
    '(d, xp) ← decimal x prec DTOA_PRINTF_E dig; Some (exp_body p hash false prec d xp e)
  else
    let prec := if prec =? 0 then 1 else prec in
    '(d, xp) ← decimal x prec DTOA_PRINTF_G dig;
    if (xp <? -4) || (xp >=? prec) then Some (exp_body p hash (negb hash) (prec - 1) d xp e)
    else if prec - (xp + 1) <=? INT_MAX then Some (fixed_body p hash (negb hash) (prec - (xp + 1)) d xp)
    else None.

Definition float_text (f : field) (x : F) (c dig : Z) : option (list Z) :=
  let lower := negb (Z.land c 0x20 =? 0) in
  match fp_class x with
  | FP_NAN => Some (layout f false (sign_of f false) [] (if lower then [110; 97; 110] else [78; 65; 78]))
  | FP_INFINITE =>
      Some (layout f false (sign_of f (fp_signbit x)) [] (if lower then [105; 110; 102] else [73; 78; 70]))
  | _ =>
      let neg := fp_signbit x in
      b ← float_body (f_hash f) (default DEFAULT_PREC (f_prec f)) (if neg then fp_neg x else x) c dig;
      Some (layout f true (sign_of f neg) [] b)
  end.

(** ** Conversions *)

Definition signed_value (size w : Z) : Z :=
  if size =? 104 then s16 (s32 w) else if size =? SIZE_HH then s8 (s32 w) else s32 w.
Definition unsigned_value (size w : Z) : Z :=
  if size =? 104 then u16 (u32 w) else if size =? SIZE_HH then uchar (u32 w) else u32 w.

(** The integer of a conversion, by the size. *)
Definition signed_arg (size : Z) (a : arg F) : option Z :=
  match a with
  | AInt w => if IS_SIZE_64BIT size then None else Some (signed_value size w)
  | ALong w => if IS_SIZE_64BIT size then Some (s64 w) else None
  | _ => None
  end.
Definition unsigned_arg (size : Z) (a : arg F) : option Z :=
  match a with
  | AInt w => if IS_SIZE_64BIT size then None else Some (unsigned_value size w)
  | ALong w => if IS_SIZE_64BIT size then Some (u64 w) else None
  | _ => None
  end.

Definition with_hash (f : field) : field :=
  mk_field (f_minus f) (f_plus f) (f_blank f) true (f_zero f) (f_width f) (f_prec f).

Definition is_wide (size : Z) : bool := (size =? 108) || (size =? 76).

(** The text of a conversion with an argument. *)
Definition arg_text (f : field) (size c : Z) (a : arg F) : option (list Z) :=
  if c =? 99 then
    match a with
    | AInt w => if is_wide size then wide_char_text env f (u16 w)
                else Some (pad_text f 1 [uchar w])
    | _ => None
    end
  else if c =? 67 then match a with AInt w => wide_char_text env f (u16 w) | _ => None end
  else if c =? 115 then
    match a with
    | AStr s => if is_wide size then None else str_text f s
    | AWstr s => if is_wide size then wide_text env f s else None
    | _ => None
    end
  else if c =? 83 then match a with AWstr s => wide_text env f s | _ => None end
  else if (c =? 100) || (c =? 105) then n ← signed_arg size a; Some (dec_text f true n)
  else if c =? 117 then n ← unsigned_arg size a; Some (dec_text f false n)
  else if c =? 112 then match a with APtr p => Some (hex_text (with_hash f) false (u32 p)) | _ => None end
  else if c =? 120 then n ← unsigned_arg size a; Some (hex_text f false n)
  else if c =? 88 then n ← unsigned_arg size a; Some (hex_text f true n)
  else if c =? 111 then n ← unsigned_arg size a; Some (oct_text f n)
  else
    match a with
    | ADouble x => if size =? 76 then None else float_text f x c DBL_DIG
    | ALongDouble x => if size =? 76 then float_text f x c LDBL_DIG else None
    | _ => None
    end.

(** What [n] stores. *)
Definition count_store (size n a : Z) : Z * Z * Z :=
  if IS_SIZE_64BIT size then (a, 8, n)
  else if IS_SIZE_16BIT size then (a, 2, s16 n)
  else if IS_SIZE_8BIT size then (a, 1, s8 n)
  else (a, 4, n).

(** ** Directives *)

Definition amount_value (a : amount) (args : list (arg F)) : option (Z * list (arg F)) :=
  match a with
  | Star => match args with AInt w :: args => Some (s32 w, args) | _ => None end
  | Num ds => let n := number 10 0 ds in if n <=? INT_MAX then Some (n, args) else None
  end.

(** A negative width given as an argument is a flag [-], which however does
    not override the flag [0]. *)
Definition field_of (c : cspec) (args : list (arg F)) : option (field * list (arg F)) :=
  let has x := bool_decide (x ∈ cs_flags c) in
  '(w, args) ← (match cs_width c with None => Some (0, args) | Some a => amount_value a args end);
  if w =? - 2 ^ 31 then None else
  '(p, args) ← (match cs_prec c with
                | None => Some (None, args)
                | Some a => '(p, args) ← amount_value a args; Some (if p <? 0 then None else Some p, args)
                end);
  Some (mk_field (has FMinus || (w <? 0)) (has FPlus) (has FBlank) (has FHash)
          (has FZero && negb (has FMinus)) (Z.abs w) p, args).

(** The characters and the stores, [n] characters into the output. *)
Fixpoint render (ds : list directive) (args : list (arg F)) (n : Z)
    : option (list Z * list (Z * Z * Z)) :=
  match ds with
  | [] => Some ([], [])
  | Plain ch :: ds => '(t, st) ← render ds args (n + alen ch); Some (ch ++ t, st)
  | Percent :: ds => '(t, st) ← render ds args (n + 1); Some (37 :: t, st)
  | Conversion c :: ds =>
      '(f, args) ← field_of c args;
      if cs_conv c =? 110 then
        match args with
        | APtr a :: args => '(t, st) ← render ds args n; Some (t, count_store (cs_size c) n a :: st)
        | _ => None
        end
      else if cs_conv c =? 109 then
        t0 ← str_text f (Some (e_strerror env));
        '(t, st) ← render ds args (n + alen t0); Some (t0 ++ t, st)
      else
        match args with
        | a :: args =>
            t0 ← arg_text f (cs_size c) (cs_conv c) a;
            '(t, st) ← render ds args (n + alen t0); Some (t0 ++ t, st)
        | [] => None
        end
  end.
End Float.

(** ** What is promised *)

(** A stream in order with room for [n] bytes, [sk_ok s n], takes bytes one by
    one or many at a time, or fails. *)
Class SinkSpec (S : Type) `{Sink S} := {
  sk_ok : S -> Z -> Prop;
  sk_wrote : S -> list Z -> S -> Prop;
  sk_failed : S -> Prop;
  sk_ok_le s n m : sk_ok s n -> 0 <= m <= n -> sk_ok s m;
  sk_wrote_ok s d s' n : sk_ok s (alen d + n) -> 0 <= n -> sk_wrote s d s' -> sk_ok s' n;
  sk_wrote_nil s : sk_ok s 0 -> sk_wrote s [] s;
  sk_wrote_app s d s' d' s2 : sk_ok s (alen d + alen d') -> sk_wrote s d s' -> sk_wrote s' d' s2 -> sk_wrote s (d ++ d') s2;
  sk_putc_law s c : sk_ok s 1 -> byte c ->
    wp (sk_putc c) (fun r s' => r = c /\ sk_wrote s [c] s' \/ r = EOF /\ sk_failed s') (fun _ _ => False) s;
  sk_fwrite_law s d : sk_ok s (alen d) -> Forall byte d -> d <> [] -> alen d <= INT_MAX ->
    wp (sk_fwrite d) (fun r s' => r = alen d /\ sk_wrote s d s' \/ r <> alen d /\ sk_failed s') (fun _ _ => False) s
}.

(** The parameters give bytes; [toupper] maps the letters of hexadecimal
    numbers; [wcrtomb] gives at least one byte. *)
Record penv_ok (env : penv) : Prop := {
  po_point : byte (e_point env) /\ e_point env <> 0;
  po_upper : forall c, 48 <= c < 58 \/ 97 <= c <= 102 -> e_toupper env c = upper_case c;
  po_upper_0 : e_toupper env 0 = 0;
  po_wide : forall st wc mb st', e_wcrtomb env st wc = (Some mb, st') -> mb <> [] /\ Forall byte mb;
  po_error : Forall byte (e_strerror env)
}.

(** Arguments point to bytes. *)
Definition arg_ok {F} (a : arg F) : Prop :=
  match a with AStr (Some s) => Forall byte s | _ => True end.
