(* ===== verification/PrintfFacts.v ===== *)
(** The output functions of [Printf.v]: each prints a text on every stream that
    keeps its promise; and [cvt_number]. *)

From S2P Require Import Prelude CStr Conv ConvFacts Stdio StdioSpec Printf PrintfSpec.
#[local] Open Scope Z_scope.

Section Prints.
Context {S F : Type} {HK : Sink S} {HP : SinkSpec S} {HF : LDouble F}.
Implicit Types (o : ost S F).

(** A state with room for [n] more characters in the counter. *)
Definition room (o : ost S F) (n : Z) : Prop :=
  sk_ok (o_stream o) n /\ 0 <= n /\ 0 <= o_count o /\ o_count o + n <= INT_MAX.

(** [o'] is [o] behind the text [t]. *)
Record after (o : ost S F) (t : list Z) (o' : ost S F) : Prop := {
  a_wrote : sk_wrote (o_stream o) t (o_stream o');
  a_count : o_count o' = o_count o + alen t;
  a_args : o_args o' = o_args o;
  a_stores : o_stores o' = o_stores o
}.

(** [return -1], after the stream has failed. *)
Definition gave_up (e : Z) (o : ost S F) : Prop := e = -1 /\ sk_failed (o_stream o).

(** The computation prints [t]. *)
Definition prints (m : PM unit) (t : list Z) : Prop := forall o (Q : unit -> ost S F -> Prop),
  room o (alen t) -> (forall o', after o t o' -> Q tt o') -> wp m Q gave_up o.

Lemma after_nil o n : room o n -> after o [] o.
Proof.
  intros (Hok & Hn & _). split; [apply sk_wrote_nil; by eapply sk_ok_le; [|split]| |done|done]. rewrite alen_nil. lia.
Qed.

Lemma after_app o t o1 u o2 : room o (alen t + alen u) -> after o t o1 -> after o1 u o2 -> after o (t ++ u) o2.
Proof.
  intros (Hok & _) [A2 A3 A4 A5] [B2 B3 B4 B5].
  split; [by eapply sk_wrote_app|rewrite alen_app; lia|congruence|congruence].
Qed.

Lemma after_room o t o' n : room o (alen t + n) -> 0 <= n -> after o t o' -> room o' n.
Proof.
  intros (Hok & ? & ? & ?) Hn [A2 A3 A4 A5]. pose proof (alen_nonneg t). split; [by eapply sk_wrote_ok|]. lia.
Qed.

Lemma room_le o n m : room o n -> 0 <= m <= n -> room o m.
Proof. intros (Hok & ? & ? & ?) Hm. split; [by eapply sk_ok_le|]. lia. Qed.

(** ** Sequences *)

Lemma prints_nil : prints (mret ()) [].
Proof. intros o Q Hr HQ. apply wp_ret, HQ. by eapply after_nil. Qed.

Lemma prints_seq m k t u : prints m t -> prints k u -> prints (_ ← m; k) (t ++ u).
Proof.
  intros Hm Hk o Q Hr HQ. rewrite alen_app in Hr. pose proof (alen_nonneg t). pose proof (alen_nonneg u).
  apply wp_bind, Hm; [eapply room_le; [done|lia]|]. intros o1 H1.
  apply Hk; [eapply after_room; [done|lia|done]|]. intros o2 H2.
  apply HQ. by eapply after_app.
Qed.

Lemma prints_when b m t : (b = true -> prints m t) -> prints (mwhen b m) (if b then t else []).
Proof. destruct b; cbn; [auto|intros _; apply prints_nil]. Qed.

Lemma prints_eq m t u : prints m t -> t = u -> prints m u.
Proof. by intros ? <-. Qed.

Lemma prints_deref {A} (x : option A) (k : A -> PM unit) a t :
  x = Some a -> prints (k a) t -> prints (y ← deref x; k y) t.
Proof. intros -> Hk o Q Hr HQ. apply wp_bind. cbn. by apply Hk. Qed.

Lemma prints_ret {A} (a : A) (k : A -> PM unit) t :
  prints (k a) t -> prints (y ← mret a; k y) t.
Proof. intros Hk o Q Hr HQ. apply wp_bind. cbn. by apply Hk. Qed.

Lemma int_ok (z : Z) : - 2 ^ 31 <= z < 2 ^ 31 -> int z = (mret z : PM (S := S) (F := F) Z).
Proof. intros Hz. unfold int. by zbool. Qed.

(** ** Characters *)

Lemma prints_add_count n o (Q : unit -> ost S F -> Prop) :
  0 <= o_count o -> 0 <= n -> o_count o + n <= INT_MAX ->
  Q tt (mk_ost (o_stream o) (o_count o + n) (o_args o) (o_stores o)) -> wp (add_count n) Q gave_up o.
Proof.
  intros ? ? ? HQ. unfold add_count. apply wp_bind, wp_get. cbn beta.
  rewrite int_ok by (unfold INT_MAX in *; lia). apply wp_bind, wp_ret, wp_put. exact HQ.
Qed.

Lemma wp_lift {A} (m : M S A) (Q : A -> ost S F -> Prop) (E : Z -> ost S F -> Prop) o :
  wp m (fun a s => Q a (mk_ost s (o_count o) (o_args o) (o_stores o))) (fun _ _ => False) (o_stream o) ->
  wp (lift m) Q E o.
Proof. unfold wp, lift. by destruct (m (o_stream o)). Qed.

Lemma byte_EOF c : byte c -> (c =? EOF) = false.
Proof. intros Hc. apply Z.eqb_neq. unfold byte, EOF in *. lia. Qed.

Lemma prints_PUTC c : byte c -> prints (PUTC c) [c].
Proof.
  intros Hc o Q (Hok & _ & Hpos & Hr) HQ. change (alen [c]) with 1 in *. unfold PUTC. apply wp_bind, wp_lift.
  eapply wp_conseq; [by apply sk_putc_law| |done]. cbn beta. intros r s' [(-> & Hw)|(-> & Hf)].
  - rewrite byte_EOF by done. apply prints_add_count; cbn; [lia..|]. by apply HQ.
  - rewrite Z.eqb_refl. apply wp_err. by split.
Qed.

Lemma prints_chars n s : (n <= length s)%nat -> Forall byte s -> prints (put_chars n s) (take n s).
Proof.
  revert s. induction n as [|n IH]; intros s Hn Hs; [apply prints_nil|]. cbn [put_chars].
  destruct Hs as [|c s Hc Hs]; [cbn in Hn; lia|]. cbn [head tail]. eapply prints_deref; [done|].
  apply (prints_seq _ _ [c]); [by apply prints_PUTC|]. apply IH; [cbn in Hn; lia|done].
Qed.

Lemma prints_out_str s n : 0 <= n <= alen s -> Forall byte s -> prints (out_str s n) (take (Z.to_nat n) s).
Proof.
  intros Hn Hs. unfold out_str. rewrite Z.geb_leb. destruct (Z.leb_spec 16 n).
  - zbool. eapply prints_deref; [done|]. set (d := take _ s).
    assert (alen d = n) as Hd by (unfold d, alen in *; rewrite length_take; lia).
    assert (Forall byte d) by (by apply Forall_take). assert (d <> []) by (intros Hnil; rewrite Hnil in Hd; change (alen []) with 0 in Hd; lia).
    intros o Q (Hok & _ & Hpos & Hr) HQ. rewrite Hd in Hok, Hr. apply wp_bind, wp_lift.
    eapply wp_conseq; [apply sk_fwrite_law; rewrite ?Hd; try done; lia| |done]. cbn beta. rewrite Hd.
    intros r s' [(-> & Hw)|(Hne & Hf)].
    + rewrite Z.eqb_refl. cbn [negb]. apply prints_add_count; cbn; [lia..|]. apply HQ. split; try done. cbn. by rewrite Hd.
    + rewrite (proj2 (Z.eqb_neq r n)) by done. apply wp_err. by split.
  - apply prints_chars; [unfold alen in *; lia|done].
Qed.

Lemma prints_str s : Forall byte s -> prints (out_str s (alen s)) s.
Proof.
  intros Hs. pose proof (alen_nonneg s). eapply prints_eq; [apply prints_out_str; [lia|done]|].
  apply take_ge. unfold alen. lia.
Qed.

(** A string with its zero, up to the zero. *)
Lemma prints_cstr t k : Forall byte t -> Forall byte k -> prints (out_str (t ++ k) (alen t)) t.
Proof.
  intros Ht Hk. pose proof (alen_nonneg t). eapply prints_eq; [apply prints_out_str|].
  - rewrite alen_app. pose proof (alen_nonneg k). lia.
  - by apply Forall_app.
  - unfold alen. rewrite Nat2Z.id. apply take_app_length.
Qed.

(** ** Padding *)

Lemma rep_len n c : 0 <= n -> alen (rep n c) = n.
Proof. apply alen_replicate. Qed.

Lemma rep_neg n c : n <= 0 -> rep n c = [].
Proof. intros Hn. unfold rep. by replace (Z.to_nat n) with 0%nat by lia. Qed.

Lemma rep_bytes n c : byte c -> Forall byte (rep n c).
Proof. intros Hc. by apply Forall_replicate. Qed.

Lemma rep_app n m c : 0 <= n -> 0 <= m -> rep n c ++ rep m c = rep (n + m) c.
Proof. intros. unfold rep. rewrite <-replicate_add. f_equal. lia. Qed.

Lemma prints_chunks fuel c n : byte c -> n <= Z.of_nat fuel ->
  prints (pad_chunks (Datatypes.S fuel) (replicate 256 c) n) (rep n c).
Proof.
  intros Hc. revert n. induction fuel as [|fuel IH]; intros n Hf; cbn [pad_chunks]; rewrite Z.gtb_ltb.
  { zbool. rewrite rep_neg by lia. apply prints_nil. }
  destruct (Z.ltb_spec 0 n) as [Hn|Hn]; [|rewrite rep_neg by lia; apply prints_nil]. cbv zeta.
  set (i := if 256 >? n then n else 256).
  assert (0 < i /\ i <= n /\ i <= 256) as (Hi & Hin & Hi256).
  { subst i. rewrite Z.gtb_ltb. destruct (Z.ltb_spec n 256); lia. }
  clearbody i. replace (rep n c) with (rep i c ++ rep (n - i) c) by (rewrite rep_app by lia; f_equal; lia).
  apply prints_seq; [|apply IH; lia].
  eapply prints_eq; [apply prints_out_str|].
  - rewrite (alen_replicate 256) by lia. lia.
  - by apply Forall_replicate.
  - unfold rep. rewrite take_replicate. f_equal. lia.
Qed.

Lemma prints_pad c n : byte c -> prints (out_pad c n) (rep n c).
Proof.
  intros Hc. unfold out_pad. rewrite Z.gtb_ltb, Z.geb_leb.
  destruct (Z.ltb_spec 256 n); [apply prints_chunks; [done|lia]|].
  destruct (Z.leb_spec 16 n).
  - eapply prints_eq; [apply prints_out_str; [|by apply rep_bytes]|].
    + pose proof (rep_len n c ltac:(lia)) as Hl. unfold rep in Hl. lia.
    + unfold rep. rewrite take_replicate. f_equal. lia.
  - eapply prints_eq; [apply prints_chars; [by rewrite length_replicate|by apply rep_bytes]|].
    unfold rep. rewrite take_replicate. f_equal. lia.
Qed.

(** ** Fields *)

(** Blanks in front of a text or behind it. *)
Lemma prints_field (minus : bool) width len m t :
  prints m t ->
  prints (_ ← mwhen ((len <? width) && negb minus) (out_pad SPACE (width - len));
          _ ← m;
          mwhen ((len <? width) && minus) (out_pad SPACE (width - len)))
    (if minus then t ++ rep (width - len) 32 else rep (width - len) 32 ++ t).
Proof.
  intros Hm. set (b1 := (len <? width) && negb minus). set (b2 := (len <? width) && minus).
  eapply prints_eq; [apply prints_seq; [apply (prints_when b1); intros _; apply prints_pad; by compute|];
    apply prints_seq; [exact Hm|]; apply (prints_when b2); intros _; apply prints_pad; by compute|].
  subst b1 b2. change SPACE with 32. destruct (Z.ltb_spec len width) as [Hl|Hl]; destruct minus; cbn [andb negb];
    rewrite ?app_nil_r, ?app_nil_l; try done; rewrite rep_neg by lia; by rewrite ?app_nil_r.
Qed.
End Prints.

(** ** Numbers *)

(** The array [s] holds the string [t]. *)
Definition holds (s t : list Z) : Prop :=
  exists k, s = t ++ 0 :: k /\ Forall (fun c => byte c /\ c <> 0) t /\ Forall byte k.
Definition oholds (s : option (list Z)) (t : list Z) : Prop :=
  match s with None => t = [] | Some s => holds s t end.

Lemma strlen_app t k : Forall (fun c => c <> 0) t -> strlen (t ++ 0 :: k) = Some (alen t).
Proof.
  induction 1 as [|c t Hc Ht IH]; [done|]. cbn [app strlen]. rewrite (proj2 (Z.eqb_neq c 0)) by done.
  rewrite IH. cbn [mbind option_bind]. by rewrite alen_cons.
Qed.

Lemma holds_strlen s t : holds s t -> strlen s = Some (alen t).
Proof. intros (k & -> & Ht & _). apply strlen_app. eapply Forall_impl; [done|]. by intros c []. Qed.

Lemma holds_lit t k : Forall (fun c => byte c /\ c <> 0) t -> Forall byte k -> holds (t ++ 0 :: k) t.
Proof. intros Ht Hk. by exists k. Qed.

Lemma holds_nil k : Forall byte k -> holds (0 :: k) [].
Proof. intros Hk. by apply (holds_lit []). Qed.

Section Number.
Context {S F : Type} {HK : Sink S} {HP : SinkSpec S} {HF : LDouble F}.
Local Notation prints := (prints (S := S) (F := F)).

(** A text that is too long for the counter is none of ours. *)
Lemma prints_short m t : (alen t <= INT_MAX -> prints m t) -> prints m t.
Proof. intros Hm o Q Hr. apply Hm; [destruct Hr; lia|done]. Qed.

Lemma prints_holds s t : holds s t -> prints (out_str s (alen t)) t.
Proof.
  intros (k & -> & Ht & Hk). apply prints_cstr.
  - eapply Forall_impl; [done|]. by intros c [].
  - constructor; [by compute|done].
Qed.

Lemma prints_oholds s t : oholds s t -> prints (out_str (text s) (alen t)) t.
Proof.
  destruct s as [s|]; cbn [oholds text default]; [apply prints_holds|]. intros ->. apply prints_nil.
Qed.

Lemma prints_strlen s t (k : Z -> PM unit) u :
  oholds s t -> prints (k (alen t)) u -> prints (n ← safe_strlen s; k n) u.
Proof.
  destruct s as [s|]; cbn [oholds safe_strlen].
  - intros Hs. by apply prints_deref, holds_strlen.
  - intros ->. apply prints_ret.
Qed.

Lemma prints_int (z : Z) (k : Z -> PM unit) u :
  - 2 ^ 31 <= z < 2 ^ 31 -> prints (k z) u -> prints (n ← int z; k n) u.
Proof. intros Hz. rewrite int_ok by done. apply prints_ret. Qed.

Definition sign_char (v : olocal) (is_signed is_neg : bool) : list Z :=
  if negb is_signed then [] else if is_neg then [45] else if v_plus v then [43] else if v_blank v then [32] else [].

Lemma sign_char_spec v (is_signed is_neg : bool) :
  let sign := if negb is_signed then EOF else if is_neg then MINUS else if v_plus v then PLUS
              else if v_blank v then SPACE else EOF in
  sign_char v is_signed is_neg = (if negb (sign =? EOF) then [sign] else []) /\ (sign = EOF \/ byte sign).
Proof. unfold sign_char. destruct is_signed, is_neg, (v_plus v), (v_blank v); split; auto; right; by compute. Qed.

(** Where the zeros and blanks go. *)
Lemma lay_len width minus zero sign pfx body :
  alen (lay width minus zero sign pfx body) = Z.max width (alen (sign ++ pfx ++ body)).
Proof.
  unfold lay. set (n := alen (sign ++ pfx ++ body)).
  assert (alen (rep (width - n) 48) = Z.max 0 (width - n) /\ alen (rep (width - n) 32) = Z.max 0 (width - n)) as [H1 H2].
  { unfold rep. split; unfold alen; rewrite length_replicate; lia. }
  assert (n = alen sign + alen pfx + alen body) as Hn by (unfold n; rewrite !alen_app; lia).
  destruct zero, minus; rewrite !alen_app; fold n; rewrite ?H1, ?H2; lia.
Qed.

(** The end of [cvt_number]: the pieces of the number in its field. *)
Lemma prints_pieces v pfx dot str xps sign l0 r0 n tp td ts tx :
  oholds pfx tp -> oholds dot td -> holds str ts -> oholds xps tx -> 0 <= l0 -> 0 <= r0 ->
  sign = EOF \/ byte sign ->
  n = alen ((if negb (sign =? EOF) then [sign] else []) ++ tp ++ td ++ rep l0 48 ++ ts ++ rep r0 48 ++ tx) ->
  prints
    (let '(lpad1, min_len) :=
       if (v_pad v =? ZERO_CH) && (n <? v_width v) then (v_width v - n, v_width v) else (0, n) in
     let '(lpad1, lpad0) := if alen td =? 0 then (lpad1 + l0, 0) else (lpad1, l0) in
     _ ← mwhen ((min_len <? v_width v) && negb (v_minus v)) (out_pad SPACE (v_width v - min_len));
     _ ← mwhen (negb (sign =? EOF)) (PUTC sign);
     _ ← out_str (text pfx) (alen tp);
     _ ← out_pad ZERO_CH lpad1;
     _ ← out_str (text dot) (alen td);
     _ ← out_pad ZERO_CH lpad0;
     _ ← out_str str (alen ts);
     _ ← out_pad ZERO_CH r0;
     _ ← out_str (text xps) (alen tx);
     mwhen ((min_len <? v_width v) && v_minus v) (out_pad SPACE (v_width v - min_len)))
    (lay (v_width v) (v_minus v) (v_pad v =? ZERO_CH) (if negb (sign =? EOF) then [sign] else []) tp
       (td ++ rep l0 48 ++ ts ++ rep r0 48 ++ tx)).
Proof.
  intros Hp Hd Hs Hx Hl Hr Hsign Hn. unfold lay. rewrite <-Hn.
  set (sg := if negb (sign =? EOF) then [sign] else []) in *.
  set (zero := v_pad v =? ZERO_CH). set (w := v_width v) in *.
  assert (forall min_len a b t, 
    (if (min_len <? w) && negb (v_minus v) then rep (w - min_len) 32 else [])
      ++ sg ++ tp ++ rep a 48 ++ td ++ rep b 48 ++ ts ++ rep r0 48 ++ tx
      ++ (if (min_len <? w) && v_minus v then rep (w - min_len) 32 else []) = t ->
    prints
      (_ ← mwhen ((min_len <? w) && negb (v_minus v)) (out_pad SPACE (w - min_len));
       _ ← mwhen (negb (sign =? EOF)) (PUTC sign);
       _ ← out_str (text pfx) (alen tp); _ ← out_pad ZERO_CH a;
       _ ← out_str (text dot) (alen td); _ ← out_pad ZERO_CH b;
       _ ← out_str str (alen ts); _ ← out_pad ZERO_CH r0;
       _ ← out_str (text xps) (alen tx);
       mwhen ((min_len <? w) && v_minus v) (out_pad SPACE (w - min_len))) t) as Hpieces.
  { assert (byte SPACE /\ byte ZERO_CH) as [Hsp Hze] by (by compute).
    intros min_len a b t <-.
    apply prints_seq; [apply prints_when; intros _; by apply prints_pad|].
    apply prints_seq; [apply prints_when; intros Hb; apply prints_PUTC; by destruct Hsign as [->|]|].
    apply prints_seq; [by apply prints_oholds|]. apply prints_seq; [by apply prints_pad|].
    apply prints_seq; [by apply prints_oholds|]. apply prints_seq; [by apply prints_pad|].
    apply prints_seq; [by apply prints_holds|]. apply prints_seq; [by apply prints_pad|].
    apply prints_seq; [by apply prints_oholds|]. apply prints_when; intros _; by apply prints_pad. }
  assert (alen td = 0 -> td = []) as Htd by (destruct td; [done|unfold alen; cbn; lia]).
  destruct (Z.ltb_spec n w) as [Hw|Hw]; destruct zero eqn:Hz; cbn [andb];
    (destruct (Z.eqb_spec (alen td) 0) as [Hd0|Hd0]; [rewrite (Htd Hd0) in *|]); apply Hpieces;
    rewrite ?Z.ltb_irrefl; zbool; cbn [andb app]; rewrite ?app_nil_r; try done;
    change (rep 0 48) with (@nil Z); rewrite ?Z.add_0_l; cbn [app];
    rewrite <-?rep_app by lia; rewrite ?(rep_neg (w - n)) by lia; destruct (v_minus v); cbn [negb app];
    rewrite <-?app_assoc, ?app_nil_r; done.
Qed.

Lemma prints_cvt_number v pfx dot str xps lpad0 rpad0 is_signed is_neg tp td ts tx :
  oholds pfx tp -> oholds dot td -> holds str ts -> oholds xps tx ->
  prints (cvt_number v pfx dot str xps lpad0 rpad0 is_signed is_neg)
    (lay (v_width v) (v_minus v) (v_pad v =? ZERO_CH) (sign_char v is_signed is_neg) tp
       (td ++ rep lpad0 48 ++ ts ++ rep rpad0 48 ++ tx)).
Proof.
  intros Hp Hd Hs Hx. apply prints_short. intros Hshort. rewrite lay_len in Hshort.
  unfold cvt_number. destruct (sign_char_spec v is_signed is_neg) as [Hsc Hsign]. rewrite Hsc in *. clear Hsc.
  set (sign := if negb is_signed then EOF else _) in *. clearbody sign.
  apply (prints_strlen _ tp); [done|]. apply (prints_strlen _ td); [done|].
  apply (prints_strlen (Some str) ts); [done|]. apply (prints_strlen _ tx); [done|].
  set (l0 := if lpad0 <? 0 then 0 else lpad0). set (r0 := if rpad0 <? 0 then 0 else rpad0).
  assert (0 <= l0 /\ rep lpad0 48 = rep l0 48) as [Hl0 El].
  { subst l0. destruct (Z.ltb_spec lpad0 0); [|done]. by rewrite !rep_neg by lia. }
  assert (0 <= r0 /\ rep rpad0 48 = rep r0 48) as [Hr0 Er].
  { subst r0. destruct (Z.ltb_spec rpad0 0); [|done]. by rewrite !rep_neg by lia. }
  rewrite El, Er in *. clearbody l0 r0. clear El Er.
  set (n := alen _) in Hshort. pose proof (alen_nonneg tp). pose proof (alen_nonneg td).
  pose proof (alen_nonneg ts). pose proof (alen_nonneg tx).
  assert (n = (if negb (sign =? EOF) then 1 else 0) + (l0 + alen tp + alen td + alen ts + r0 + alen tx)) as Hn.
  { unfold n. rewrite !alen_app, !rep_len by done.
    destruct (negb _); [change (alen [sign]) with 1|change (alen []) with 0]; lia. }
  assert (0 <= if negb (sign =? EOF) then 1 else 0) by (destruct (negb _); lia).
  unfold INT_MAX in Hshort. do 5 (apply prints_int; [lia|]).
  assert (n = l0 + alen tp + alen td + alen ts + r0 + alen tx + if negb (sign =? EOF) then 1 else 0) as Hn' by lia.
  pose proof (prints_pieces v pfx dot str xps sign l0 r0 n tp td ts tx Hp Hd Hs Hx Hl0 Hr0 Hsign eq_refl) as Hpr.
  destruct (negb (sign =? EOF)).
  - apply prints_int; [lia|]. rewrite <-Hn'. exact Hpr.
  - rewrite Z.add_0_r in Hn'. rewrite <-Hn'. apply prints_ret. exact Hpr.
Qed.
End Number.
