(* ===== verification/PrintfInt.v ===== *)
(** The conversions of integers, characters and strings print the texts of
    [PrintfSpec.v]. *)

From S2P Require Import Prelude CStr Conv ConvFacts Stdio StdioSpec Printf PrintfSpec PrintfFacts.
#[local] Open Scope Z_scope.

(** ** Numerals *)

Lemma put_digits_mono room room' v radix ds :
  (room <= room')%nat -> put_digits room v radix = Some ds -> put_digits room' v radix = Some ds.
Proof.
  revert room' v ds. induction room as [|room IH]; intros [|room'] v ds Hle; try done; [lia|].
  rewrite !put_digits_S. destruct (aget digits (v mod radix)) as [d|]; [|done]. cbn [mbind option_bind].
  destruct (v / radix =? 0); [done|].
  destruct (put_digits room (v / radix) radix) as [k|] eqn:Hk; [|done].
  by rewrite (IH room' _ k ltac:(lia) Hk).
Qed.

Section Numeral.
Context (radix n : Z).
Hypothesis Hr : 2 <= radix <= 36.

Lemma pow2_le (k : nat) : 2 ^ Z.of_nat k <= radix ^ Z.of_nat k.
Proof. apply Z.pow_le_mono_l. lia. Qed.

Lemma numeral_ok : 0 <= n < 2 ^ 64 ->
  exists ds, numeral radix n = digit_char <$> ds /\ Forall (fun d => 0 <= d < radix) ds /\ number radix 0 ds = n /\
    ds <> [] /\ forall k : nat, n < radix ^ Z.of_nat (S k) -> (length ds <= S k)%nat.
Proof.
  intros Hn. pose proof (pow2_le 64).
  destruct (put_digits_ok radix 63 n Hr ltac:(lia)) as (ds & Hput & Hds & Hnum & Hne & Hlen).
  exists (rev ds). unfold numeral. rewrite Hput, rev_fmap. split_and!; [done|by apply Forall_rev|done| |].
  - intros Hnil. apply Hne. by rewrite <-(rev_involutive ds), Hnil.
  - intros k Hk. rewrite length_rev. by apply Hlen.
Qed.

Lemma numeral_chars : 0 <= n < 2 ^ 64 -> Forall (fun c => byte c /\ c <> 0) (numeral radix n).
Proof.
  intros Hn. destruct (numeral_ok Hn) as (ds & -> & Hds & _). apply Forall_fmap. eapply Forall_impl; [done|].
  intros d Hd. cbn beta in Hd. unfold compose. destruct (digit_char_cases d ltac:(lia)) as [[? ->]|[? ->]]; unfold byte; lia.
Qed.

Lemma numeral_len (k : nat) : 0 <= n < 2 ^ 64 -> n < radix ^ Z.of_nat (S k) -> 0 < alen (numeral radix n) <= Z.of_nat k + 1.
Proof.
  intros Hn Hk. destruct (numeral_ok Hn) as (ds & -> & _ & _ & Hne & Hlen). specialize (Hlen k Hk).
  unfold alen. rewrite length_fmap. destruct ds; [done|cbn in *; lia].
Qed.

Lemma ulltoa_numeral : 0 <= n < 2 ^ 64 -> ulltoa n radix = Some (numeral radix n ++ [0]).
Proof.
  intros Hn. pose proof (pow2_le 64). unfold ulltoa, numeral. rewrite Z.gtb_ltb. zbool. cbn [orb].
  destruct (put_digits_ok radix 63 n Hr ltac:(lia)) as (ds & -> & _). done.
Qed.

Lemma ultoa_numeral : 0 <= n < 2 ^ 32 -> ultoa n radix = Some (numeral radix n ++ [0]).
Proof.
  intros Hn. pose proof (pow2_le 32). unfold ultoa, numeral. rewrite Z.gtb_ltb. zbool. cbn [orb].
  destruct (put_digits_ok radix 31 n Hr ltac:(lia)) as (ds & Hput & _).
  rewrite Hput, (put_digits_mono 32 64 _ _ _ ltac:(lia) Hput). done.
Qed.

(** No digit zero in front, but for zero. *)
Lemma put_digits_nil room v : put_digits room v radix <> Some [].
Proof.
  destruct room; [done|]. rewrite put_digits_S. destruct (aget _ _); [|done]. cbn [mbind option_bind].
  destruct (_ =? 0); [done|]. by destruct (put_digits _ _ _).
Qed.

Lemma put_digits_last room v ds : 0 <= v -> put_digits room v radix = Some ds -> last ds = Some 48 -> v = 0.
Proof.
  revert v ds. induction room as [|room IH]; intros v ds Hv; [done|]. rewrite put_digits_S.
  pose proof (Z.mod_pos_bound v radix ltac:(lia)). pose proof (Z.div_mod v radix ltac:(lia)).
  rewrite aget_digits by lia. cbn [mbind option_bind]. destruct (Z.eqb_spec (v / radix) 0) as [Hz|Hz].
  - intros [= <-] [= Hl]. destruct (digit_char_cases (v mod radix)); [lia|lia|lia].
  - destruct (put_digits room (v / radix) radix) as [k|] eqn:Hk; [|done]. intros [= <-] Hl. exfalso. apply Hz.
    apply (IH _ k); [by apply Z.div_pos; lia|done|]. destruct k; [|done]. by apply put_digits_nil in Hk.
Qed.

Lemma numeral_head : 0 <= n < 2 ^ 64 -> head (numeral radix n) = Some 48 <-> n = 0.
Proof.
  intros Hn. pose proof (pow2_le 64). unfold numeral.
  destruct (put_digits_ok radix 63 n Hr ltac:(lia)) as (ds & Hput & _). rewrite Hput. split.
  - intros Hh. apply (put_digits_last 64 n _ ltac:(lia) Hput). revert Hh. generalize (digit_char <$> ds).
    intros l. destruct l as [|c l _] using rev_ind; [done|]. rewrite rev_app_distr, last_snoc. done.
  - intros Hn0. subst n. rewrite put_digits_S, Z.div_0_l, Z.mod_0_l in Hput by lia. by injection Hput as <-.
Qed.
End Numeral.

(** ** Fields *)

(** The local variables of [_output] hold the field. *)
Record in_field (f : field) (v : olocal) : Prop := {
  if_minus : v_minus v = f_minus f;
  if_plus : v_plus v = f_plus f;
  if_blank : v_blank v = f_blank f;
  if_hash : v_hash v = f_hash f;
  if_zero : (v_pad v =? ZERO_CH) = f_zero f;
  if_width : v_width v = f_width f;
  if_prec : v_prec v = default (-1) (f_prec f);
  if_range : -1 <= v_prec v <= INT_MAX /\ (f_prec f <> None -> 0 <= v_prec v)
}.

Lemma in_field_prec f v : in_field f v -> f_prec f = if v_prec v <? 0 then None else Some (v_prec v).
Proof.
  intros [? ? ? ? ? ? Hp [? Hr]]. destruct (f_prec f) as [p|]; cbn in *; rewrite Hp in *; [|done].
  specialize (Hr ltac:(done)). by zbool.
Qed.

Lemma in_field_hash f v : in_field f v -> in_field (with_hash f) (set_hash true v).
Proof. by intros []; split. Qed.

Section Integers.
Context {S F : Type} {HK : Sink S} {HP : SinkSpec S} {HF : LDouble F} (env : penv) (Henv : penv_ok env).
Local Notation prints := (prints (S := S) (F := F)).

(** ** Integers *)

Lemma sign_char_of f v (signed neg : bool) :
  in_field f v -> sign_char v signed neg = if signed then sign_of f neg else [].
Proof. intros []. unfold sign_char, sign_of. destruct signed; [|done]. cbn [negb]. by rewrite if_plus0, if_blank0. Qed.

Lemma prints_cvt_integer f v pfx s tp ts (signed neg : bool) n :
  in_field f v -> oholds pfx tp -> holds s ts -> alen ts <= 64 ->
  prints (cvt_integer v pfx s (n =? 0) signed neg) (int_text f (if signed then sign_of f neg else []) tp n ts).
Proof.
  intros Hf Hp Hs Hlen. pose proof (alen_nonneg ts). unfold cvt_integer, int_text.
  destruct (if_range f v Hf) as [Hrange _]. pose proof (in_field_prec f v Hf) as Hfp. unfold INT_MAX in Hrange.
  replace (bool_decide (f_prec f = Some 0)) with (v_prec v =? 0)
    by (rewrite Hfp; destruct (Z.ltb_spec (v_prec v) 0), (Z.eqb_spec (v_prec v) 0); case_bool_decide; congruence || lia).
  destruct ((n =? 0) && (v_prec v =? 0)); [apply prints_nil|].
  apply (prints_deref _ _ (alen ts)); [by apply holds_strlen|].
  set (v' := if v_prec v >=? 0 then _ else _). apply prints_int; [subst v'; destruct (_ >=? _); cbn; lia|].
  eapply prints_eq; [by eapply (prints_cvt_number _ _ _ _ _ _ _ _ _ tp [] ts [])|].
  unfold layout. rewrite <-(sign_char_of f v) by done. cbn [app]. rewrite app_nil_r.
  replace (rep (v_prec v' - alen ts) 48) with (rep (default 0 (f_prec f) - alen ts) 48).
  2:{ rewrite Hfp. subst v'. destruct (Z.ltb_spec (v_prec v) 0); cbn [default]; zbool; [|done]. by rewrite !rep_neg by lia. }
  destruct Hf as [Hm _ _ _ Hz Hw _ _]. subst v'. rewrite Hfp, <-Hz, <-Hw, <-Hm. destruct (Z.ltb_spec (v_prec v) 0); zbool.
  - by rewrite bool_decide_true, andb_true_r by done.
  - by rewrite bool_decide_false, andb_false_r by done.
Qed.

Lemma prints_buf size t (k : list Z -> PM unit) u :
  alen t <= size -> prints (k t) u -> prints (s ← buf size (Some t); k s) u.
Proof.
  intros Hs Hk. unfold buf. intros o Q Hr HQ. do 2 apply wp_bind.
  apply wp_ret. cbn beta. zbool. apply wp_ret. by apply Hk.
Qed.

Lemma numeral_holds radix n : 2 <= radix <= 36 -> 0 <= n < 2 ^ 64 -> holds (numeral radix n ++ [0]) (numeral radix n).
Proof. intros Hr Hn. apply holds_lit; [by apply numeral_chars|by constructor]. Qed.

(** [prints_cvt_integer] on an array that [_ultoa] or [_ulltoa] has filled. *)
Lemma prints_numeral f v pfx tp radix n (signed neg : bool) :
  in_field f v -> oholds pfx tp -> 2 <= radix <= 36 -> 0 <= n < 2 ^ 64 ->
  prints (cvt_integer v pfx (numeral radix n ++ [0]) (n =? 0) signed neg)
    (int_text f (if signed then sign_of f neg else []) tp n (numeral radix n)).
Proof.
  intros Hf Hp Hr Hn. apply prints_cvt_integer; [done|done|by apply numeral_holds|].
  pose proof (numeral_len radix n Hr 63 Hn). pose proof (pow2_le radix Hr 64). lia.
Qed.

(** The sizes of the arrays are enough. *)
Lemma prints_ultoa radix n (k : nat) (m : list Z -> PM unit) t :
  2 <= radix <= 36 -> 0 <= n < 2 ^ 32 -> 2 ^ 32 <= radix ^ Z.of_nat (Datatypes.S k) ->
  prints (m (numeral radix n ++ [0])) t -> prints (b ← buf (Z.of_nat k + 2) (ultoa n radix); m b) t.
Proof.
  intros Hr Hn Hk. rewrite ultoa_numeral by done. apply prints_buf. rewrite alen_app. change (alen [0]) with 1.
  pose proof (numeral_len radix n Hr k). lia.
Qed.
Lemma prints_ulltoa radix n (k : nat) (m : list Z -> PM unit) t :
  2 <= radix <= 36 -> 0 <= n < 2 ^ 64 -> 2 ^ 64 <= radix ^ Z.of_nat (Datatypes.S k) ->
  prints (m (numeral radix n ++ [0])) t -> prints (b ← buf (Z.of_nat k + 2) (ulltoa n radix); m b) t.
Proof.
  intros Hr Hn Hk. rewrite ulltoa_numeral by done. apply prints_buf. rewrite alen_app. change (alen [0]) with 1.
  pose proof (numeral_len radix n Hr k). lia.
Qed.

Lemma prints_dec_32 f v n (signed neg : bool) : in_field f v -> 0 <= n < 2 ^ 32 ->
  prints (cvt_dec_32 v n signed neg) (int_text f (if signed then sign_of f neg else []) [] n (numeral 10 n)).
Proof. intros Hf Hn. apply (prints_ultoa 10 n 9); [lia|done|by compute|]. apply prints_numeral; (done || lia). Qed.

Lemma prints_dec_64 f v n (signed neg : bool) : in_field f v -> 0 <= n < 2 ^ 64 ->
  prints (cvt_dec_64 v n signed neg) (int_text f (if signed then sign_of f neg else []) [] n (numeral 10 n)).
Proof. intros Hf Hn. apply (prints_ulltoa 10 n 19); [lia|done|by compute|]. apply prints_numeral; (done || lia). Qed.

(** ** Hexadecimal and octal *)

Lemma hex_chars n : 0 <= n < 2 ^ 64 -> Forall (fun c => 48 <= c < 58 \/ 97 <= c <= 102) (numeral 16 n).
Proof.
  intros Hn. destruct (numeral_ok 16 n ltac:(lia) Hn) as (ds & -> & Hds & _). apply Forall_fmap. eapply Forall_impl; [done|].
  intros d Hd. cbn beta in Hd. unfold compose. destruct (digit_char_cases d ltac:(lia)) as [[? ->]|[? ->]]; lia.
Qed.

Lemma str_upper_ok t : Forall (fun c => 48 <= c < 58 \/ 97 <= c <= 102) t ->
  str_upper env (t ++ [0]) = (upper_case <$> t) ++ [0].
Proof.
  induction 1 as [|c t Hc Ht IH]; cbn [app str_upper fmap list_fmap].
  - by rewrite (po_upper_0 env Henv).
  - rewrite (po_upper env Henv) by done. rewrite (proj2 (Z.eqb_neq _ _)); [by rewrite IH|].
    unfold upper_case. destruct (Z.leb_spec 97 c), (Z.leb_spec c 102); cbn; lia.
Qed.

Lemma prints_cvt_hex f v n x : in_field f v -> x = 120 \/ x = 88 -> 0 <= n < 2 ^ 64 ->
  prints (cvt_hex env v (numeral 16 n ++ [0]) x (n =? 0)) (hex_text f (x =? 88) n).
Proof.
  intros Hf Hx Hn. pose proof (hex_chars n Hn) as Hch. unfold cvt_hex, hex_text. rewrite <-(if_hash f v Hf), andb_comm.
  eapply prints_eq; [eapply (prints_cvt_integer f v _ _
    (if v_hash v && negb (n =? 0) then [48; if x =? 88 then 88 else 120] else [])
    (if x =? 88 then upper_case <$> numeral 16 n else numeral 16 n) false false n Hf)|done].
  - destruct (v_hash v && negb (n =? 0)); [|done].
    destruct Hx as [-> | ->]; apply (holds_lit [_; _]); (by constructor) || (repeat constructor; by compute).
  - destruct Hx as [-> | ->]; cbn [Z.eqb Pos.eqb]; [apply numeral_holds; (done || lia)|].
    rewrite str_upper_ok by done. apply holds_lit; [|by constructor]. apply Forall_fmap. eapply Forall_impl; [done|].
    intros c Hc. cbn beta in Hc. unfold compose, upper_case, byte. destruct (Z.leb_spec 97 c), (Z.leb_spec c 102); cbn; lia.
  - assert (alen (numeral 16 n) <= 64) as Hl.
    { pose proof (numeral_len 16 n ltac:(lia) 63 Hn). pose proof (pow2_le 16 ltac:(lia) 64). lia. }
    destruct (x =? 88); [|done]. unfold alen in *. by rewrite length_fmap.
Qed.

Lemma prints_hex_32 f v n x : in_field f v -> x = 120 \/ x = 88 -> 0 <= n < 2 ^ 32 ->
  prints (cvt_hex_32 env v n x) (hex_text f (x =? 88) n).
Proof. intros Hf Hx Hn. apply (prints_ultoa 16 n 7); [lia|done|by compute|]. apply prints_cvt_hex; (done || lia). Qed.

Lemma prints_hex_64 f v n x : in_field f v -> x = 120 \/ x = 88 -> 0 <= n < 2 ^ 64 ->
  prints (cvt_hex_64 env v n x) (hex_text f (x =? 88) n).
Proof. intros Hf Hx Hn. apply (prints_ulltoa 16 n 15); [lia|done|by compute|]. by apply prints_cvt_hex. Qed.

Lemma head_rep n c t : head (rep n c ++ t) = if 0 <? n then Some c else head t.
Proof.
  unfold rep. destruct (Z.ltb_spec 0 n); [|by replace (Z.to_nat n) with 0%nat by lia].
  by replace (Z.to_nat n) with (Datatypes.S (Z.to_nat (n - 1))) by lia.
Qed.

(** With [#]: the number has no precision or a greater one. *)
Lemma oct_text_hash f n : 0 <= n < 2 ^ 64 -> f_hash f = true ->
  oct_text f n =
    let len := alen (numeral 8 n) in
    let p := if negb (n =? 0) && (default (-1) (f_prec f) <=? len) then Some (len + 1) else f_prec f in
    layout f (bool_decide (p = None)) [] [] (rep (default 0 p - len) 48 ++ numeral 8 n).
Proof.
  intros Hn Hh. unfold oct_text. rewrite Hh, head_rep. cbv zeta.
  pose proof (numeral_head 8 n ltac:(lia) Hn) as Hhead. set (ds := numeral 8 n) in *.
  assert (0 < alen ds) as Hlen.
  { apply (numeral_len 8 n ltac:(lia) 63); [lia|]. pose proof (pow2_le 8 ltac:(lia) 64). lia. }
  destruct (Z.eqb_spec n 0) as [Hz|Hz]; cbn [negb andb].
  - rewrite andb_true_r, (proj2 Hhead Hz).
    rewrite (bool_decide_true (_ = Some 48)) by (by destruct (_ <? _)). done.
  - assert (head ds <> Some 48) by tauto. rewrite andb_false_r.
    destruct (Z.leb_spec (default (-1) (f_prec f)) (alen ds)) as [Hle|Hgt].
    + assert (default 0 (f_prec f) <= alen ds) by (destruct (f_prec f); cbn in *; lia).
      rewrite (rep_neg (default 0 _ - _)) by lia. zbool. rewrite bool_decide_false by done. cbn [default app].
      unfold id. replace (alen ds + 1 - alen ds) with 1 by lia. by rewrite (bool_decide_false (Some _ = None)) by done.
    + destruct (f_prec f) as [p|]; cbn [default] in *; [|lia]. zbool. rewrite bool_decide_true by done.
      by rewrite bool_decide_false by done.
Qed.

Lemma prints_cvt_oct f v n : in_field f v -> 0 <= n < 2 ^ 64 ->
  prints (cvt_oct v (numeral 8 n ++ [0]) (n =? 0)) (oct_text f n).
Proof.
  intros Hf Hn. unfold cvt_oct. pose proof (numeral_holds 8 n ltac:(lia) Hn) as Hs. pose proof Hs as Hlen%holds_strlen.
  pose proof (numeral_head 8 n ltac:(lia) Hn) as Hhead.
  assert (0 < alen (numeral 8 n) <= 64) as Hl.
  { pose proof (numeral_len 8 n ltac:(lia) 63 Hn). pose proof (pow2_le 8 ltac:(lia) 64). lia. }
  destruct (numeral 8 n) as [|c k] eqn:Hds; [change (alen []) with 0 in Hl; lia|]. rewrite <-Hds in *.
  apply (prints_deref _ _ c); [by rewrite Hds|].
  assert ((c =? ZERO_CH) = (n =? 0)) as ->.
  { rewrite Hds in Hhead. cbn in Hhead. change ZERO_CH with 48.
    destruct (Z.eqb_spec c 48), (Z.eqb_spec n 0); try done; [subst c|]; tauto || (destruct Hhead as [_ Hh]; specialize (Hh ltac:(done)); congruence). }
  rewrite (if_hash f v Hf). destruct (f_hash f) eqn:Hh; cbn [andb negb].
  - rewrite oct_text_hash by done. cbv zeta. rewrite <-(if_prec f v Hf). set (len := alen _) in *.
    assert (forall v' p, in_field (mk_field (f_minus f) (f_plus f) (f_blank f) (f_hash f) (f_zero f) (f_width f) p) v' ->
      prints (cvt_integer v' None (numeral 8 n ++ [0]) ((n =? 0) && negb (v_hash v')) false false)
        (layout f (bool_decide (p = None)) [] [] (rep (default 0 p - len) 48 ++ numeral 8 n))) as Hint.
    { intros v' p Hf'. rewrite (if_hash _ _ Hf'). cbn [f_hash]. rewrite Hh, andb_false_r. eapply prints_eq; [apply (prints_cvt_integer _ v' None _ [] (numeral 8 n) false false 1 Hf'); [done|done|lia]|done]. }
    destruct (n =? 0); cbn [negb andb].
    + apply prints_ret. apply Hint. by destruct f.
    + intros o Q Hr HQ. apply wp_bind, wp_bind. rewrite Hlen. apply wp_ret. cbn beta. apply wp_ret. cbn beta.
      refine (Hint _ _ _ o Q Hr HQ). destruct (Z.leb_spec (v_prec v) len); [|by destruct f].
      destruct Hf. split; cbn; try done. unfold INT_MAX. split; [lia|]. lia.
  - apply prints_ret. rewrite (if_hash f v Hf), Hh, andb_true_r. unfold oct_text. rewrite Hh.
    eapply prints_eq; [apply (prints_cvt_integer f v None _ [] (numeral 8 n) false false n Hf); [done|done|lia]|done].
Qed.

Lemma prints_oct_32 f v n : in_field f v -> 0 <= n < 2 ^ 32 -> prints (cvt_oct_32 v n) (oct_text f n).
Proof. intros Hf Hn. apply (prints_ultoa 8 n 10); [lia|done|by compute|]. apply prints_cvt_oct; (done || lia). Qed.

Lemma prints_oct_64 f v n : in_field f v -> 0 <= n < 2 ^ 64 -> prints (cvt_oct_64 v n) (oct_text f n).
Proof. intros Hf Hn. apply (prints_ulltoa 8 n 21); [lia|done|by compute|]. by apply prints_cvt_oct. Qed.
End Integers.

(** ** Characters and strings *)

(** ** What is read of a string *)

Lemma until_zero_take s : take (length (until_zero s)) s = until_zero s.
Proof. induction s as [|c s IH]; [done|]. cbn [until_zero]. destruct (c =? 0); [done|]. cbn. by rewrite IH. Qed.

Lemma until_zero_le s : (length (until_zero s) <= length s)%nat.
Proof. induction s as [|c s IH]; [done|]. cbn [until_zero]. destruct (c =? 0); cbn; lia. Qed.

Lemma until_zero_all s : 0 ∉ s -> until_zero s = s.
Proof.
  induction s as [|c s IH]; [done|]. intros [Hc Hs]%not_elem_of_cons. cbn [until_zero].
  rewrite (proj2 (Z.eqb_neq c 0)) by done. by rewrite IH.
Qed.

Lemma strlen_until s : 0 ∈ s -> strlen s = Some (alen (until_zero s)).
Proof.
  induction s as [|c s IH]; [by intros ?%elem_of_nil|]. cbn [strlen until_zero].
  destruct (Z.eqb_spec c 0) as [Hc|Hc]; [done|]. intros [Hs|Hs]%elem_of_cons; [by subst c|].
  rewrite IH by done. cbn [mbind option_bind]. by rewrite alen_cons.
Qed.

Lemma memchr0_until n s : 0 ∈ take n s \/ (n <= length s)%nat ->
  memchr0 n s = Some (if bool_decide (0 ∈ take n s) then Some (alen (until_zero (take n s))) else None).
Proof.
  revert s. induction n as [|n IH]; intros s Hs; [done|].
  destruct s as [|c s]; [destruct Hs as [Hs%elem_of_nil|]; [done|cbn in *; lia]|]. cbn [memchr0 take until_zero].
  destruct (Z.eqb_spec c 0) as [->|Hc]; [by rewrite bool_decide_true by left|].
  rewrite IH. 2:{ destruct Hs as [[Hs|Hs]%elem_of_cons|Hs]; [by subst c|by left|right; cbn in Hs; lia]. }
  cbn [mbind option_bind]. destruct (decide (0 ∈ take n s)).
  - rewrite !bool_decide_true by (by repeat right) || done. cbn [mbind option_bind]. by rewrite alen_cons.
  - rewrite !bool_decide_false; [done| |done]. rewrite not_elem_of_cons. naive_solver.
Qed.

(** The text of a string is a part of it in front. *)
Lemma content_take prec s t : content prec s = Some t -> t = take (length t) s /\ (length t <= length s)%nat.
Proof.
  unfold content. destruct prec as [p|]; (destruct (_ || _); [|done]); intros [= <-].
  - pose proof (until_zero_take (take (Z.to_nat p) s)) as Ht. pose proof (until_zero_le (take (Z.to_nat p) s)) as Hl.
    rewrite take_take in Ht. rewrite length_take in Hl. split; [|lia]. rewrite <-Ht at 1. f_equal. lia.
  - split; [by rewrite until_zero_take|apply until_zero_le].
Qed.

Section Strings.
Context {S F : Type} {HK : Sink S} {HP : SinkSpec S} {HF : LDouble F} (env : penv) (Henv : penv_ok env).
Local Notation prints := (prints (S := S) (F := F)).

(** [str_start] finds the text. *)
Lemma prints_str_start f v s t (k : list Z * Z -> PM unit) u :
  in_field f v ->
  content (f_prec f) (match s with Some s => s | None => null_text (f_prec f) end) = Some t ->
  (forall str, str = match s with Some s => s | None => null_text (f_prec f) end -> prints (k (str, alen t)) u) ->
  prints (x ← str_start v s (-1); k x) u.
Proof.
  intros Hf Ht Hk o Q Hr HQ. apply wp_bind. unfold str_start. rewrite Z.eqb_refl.
  pose proof (in_field_prec f v Hf) as Hfp. apply wp_bind.
  replace (match s with Some s => s | None => if (v_prec v <? 0) || (v_prec v >=? 6) then str_null else [0] end)
    with (match s with Some s => s | None => null_text (f_prec f) end).
  2:{ destruct s; [done|]. unfold null_text. rewrite Hfp. rewrite Z.geb_leb. destruct (Z.ltb_spec (v_prec v) 0); cbn [default orb].
      - by rewrite bool_decide_true.
      - by rewrite bool_decide_false. }
  set (str := match s with Some s => s | None => _ end) in *.
  assert (wp (if v_prec v >=? 0 then r ← deref (memchr0 (Z.to_nat (v_prec v)) str);
                mret (match r with Some i => i | None => v_prec v end) else deref (strlen str))
    (fun len (o' : ost S F) => len = alen t /\ o' = o) gave_up o) as Hlen.
  { rewrite Hfp in Ht. unfold content in Ht. rewrite Z.geb_leb. destruct (Z.ltb_spec (v_prec v) 0); zbool.
    - destruct (bool_decide (0 ∈ str)) eqn:Hin.
      + injection Ht as <-. apply bool_decide_eq_true in Hin. rewrite strlen_until by done. by apply wp_ret.
      + cbn [orb] in Ht. by rewrite bool_decide_false in Ht.
    - destruct (_ || _) eqn:Hor in Ht; [|done]. injection Ht as <-. set (p := v_prec v) in *.
      apply wp_bind. rewrite memchr0_until.
      2:{ apply orb_true_iff in Hor as [H1|H1]; apply bool_decide_eq_true in H1; [by left|right].
          injection H1 as H1. unfold alen in H1. rewrite length_take in H1. lia. }
      apply wp_ret. cbn beta. apply wp_ret. split; [|done]. case_bool_decide as Hin; [done|].
      cbn [orb] in Hor. apply bool_decide_eq_true in Hor. injection Hor as Hor. by rewrite until_zero_all. }
  eapply wp_conseq; [exact Hlen| |done]. cbn beta. intros len o' [-> ->]. apply wp_ret. by apply (Hk str).
Qed.

Lemma prints_cvt_text f v n (m : PM unit) t :
  v_minus v = f_minus f -> v_width v = f_width f -> prints m t ->
  prints (_ ← mwhen ((n <? v_width v) && negb (v_minus v)) (out_pad SPACE (v_width v - n));
          _ ← m;
          mwhen ((n <? v_width v) && v_minus v) (out_pad SPACE (v_width v - n))) (pad_text f n t).
Proof. intros Hm Hw Hp. unfold pad_text. rewrite <-Hm, <-Hw. by apply prints_field. Qed.

Lemma prints_cvt_str f v s t : in_field f v ->
  Forall byte (match s with Some s => s | None => [] end) -> str_text f s = Some t -> prints (cvt_str v s (-1)) t.
Proof.
  intros Hf Hs Ht. unfold str_text in Ht. destruct (content _ _) as [t0|] eqn:Hc; [|done]. injection Ht as <-.
  unfold cvt_str. eapply prints_str_start; [done|done|]. intros str Hstr. cbn beta iota.
  apply prints_cvt_text; [apply Hf|apply Hf|]. destruct (content_take _ _ _ Hc) as [Htake Hle]. rewrite <-Hstr in *.
  eapply prints_eq; [apply prints_out_str|by unfold alen; rewrite Nat2Z.id].
  - unfold alen. lia.
  - subst str. destruct s; [done|]. unfold null_text. destruct (_ || _); repeat constructor; by compute.
Qed.

(** [c] and [lc]: a string of one character. *)
Lemma prints_start_1 v str (k : list Z * Z -> PM unit) u :
  prints (k (str, 1)) u -> prints (x ← str_start (set_prec 1 v) (Some str) 1; k x) u.
Proof. intros Hk. by apply prints_ret. Qed.

Lemma prints_cvt_char f v c : in_field f v -> byte c ->
  prints (cvt_str (set_prec 1 v) (Some [c]) 1) (pad_text f 1 [c]).
Proof.
  intros Hf Hc. unfold cvt_str. apply prints_start_1. cbn beta iota. apply prints_cvt_text; [apply Hf|apply Hf|].
  apply (prints_str [c]). by constructor.
Qed.

(** ** Wide characters *)

Lemma prints_put_wide n st s t : (n <= length s)%nat -> wide_bytes env st (take n s) = Some t ->
  prints (put_wide env n st s) t.
Proof.
  revert st s t. induction n as [|n IH]; intros st s t Hn; [intros [= <-]; apply prints_nil|].
  destruct s as [|wc s]; [cbn in Hn; lia|]. cbn [take wide_bytes put_wide head tail].
  destruct (e_wcrtomb env st wc) as [[mb|] st'] eqn:Hmb; [|done].
  destruct (wide_bytes env st' (take n s)) as [r|] eqn:Hr; [|done]. intros [= <-].
  apply (prints_deref _ _ wc); [done|]. rewrite Hmb. destruct (po_wide env Henv _ _ _ _ Hmb) as [Hne Hb].
  destruct mb as [|b mb]; [done|]. apply prints_seq; [by apply prints_str|]. apply IH; [cbn in Hn; lia|done].
Qed.

Lemma prints_cvt_wstr f v s t : in_field f v -> wide_text env f s = Some t -> prints (cvt_wstr env v s (-1)) t.
Proof.
  intros Hf Ht. unfold wide_text in Ht. destruct (content _ _) as [t0|] eqn:Hc; [|done]. cbn [mbind option_bind] in Ht.
  destruct (wide_bytes _ _ _) as [b|] eqn:Hb; [|done]. injection Ht as <-.
  unfold cvt_wstr. eapply prints_str_start; [done|done|]. intros str Hstr. cbn beta iota.
  apply prints_cvt_text; [apply Hf|apply Hf|]. destruct (content_take _ _ _ Hc) as [Htake Hle]. rewrite <-Hstr in *.
  unfold alen. rewrite Nat2Z.id. apply prints_put_wide; [done|]. by rewrite <-Htake.
Qed.

Lemma prints_cvt_wchar f v wc t : in_field f v -> wide_char_text env f wc = Some t ->
  prints (cvt_wstr env (set_prec 1 v) (Some [wc]) 1) t.
Proof.
  intros Hf Ht. unfold wide_char_text in Ht. destruct (wide_bytes _ _ _) as [b|] eqn:Hb; [|done]. injection Ht as <-.
  unfold cvt_wstr. apply prints_start_1. cbn beta iota. apply prints_cvt_text; [apply Hf|apply Hf|].
  by apply prints_put_wide.
Qed.
End Strings.
