(* ===== verification/PrintfDigits.v ===== *)
(** The decimal fractions of [PrintfSpec.v] as lists of digits and zeros, and
    what the changes of the array [digits] do to the string in it. *)

From S2P Require Import Prelude CStr Conv ConvFacts Stdio StdioSpec Printf PrintfSpec PrintfFacts PrintfInt.
#[local] Open Scope Z_scope.

(** ** Digits *)

Lemma zrange_shift {A} (f : Z -> A) lo n : f <$> zrange lo n = (fun i => f (lo + i)) <$> zrange 0 n.
Proof.
  revert lo f. induction n as [|n IH]; intros lo f; [done|]. rewrite !zrange_S, !fmap_cons.
  rewrite (IH (lo + 1)), (IH (0 + 1) (fun i => f (lo + i))). f_equal; [f_equal; lia|].
  apply list_fmap_ext. intros ? i _. f_equal. lia.
Qed.

Section Digits.
Context (d : list Z) (xp : Z).

Lemma digit_at_0 k : xp - k < 0 -> digit_at d xp k = 48.
Proof. intros Hk. unfold digit_at. by zbool. Qed.

(** From digit [j] on: what is left of the digits, and zeros. *)
Lemma digits_from_right j n : 0 <= j -> 0 <= n ->
  digits_from d xp (xp - j) n =
    take (Z.to_nat n) (drop (Z.to_nat j) d) ++ rep (n - alen (take (Z.to_nat n) (drop (Z.to_nat j) d))) 48.
Proof.
  intros Hj Hn. unfold digits_from. replace n with (Z.of_nat (Z.to_nat n)) by lia. generalize (Z.to_nat n) as m. clear Hn.
  intros m. rewrite Nat2Z.id. revert j Hj. induction m as [|m IH]; intros j Hj; [done|].
  rewrite zrange_S, fmap_cons, zrange_shift.
  replace ((fun i => digit_at d xp (xp - j - (0 + 1 + i))) <$> zrange 0 m)
    with ((fun i => digit_at d xp (xp - (j + 1) - i)) <$> zrange 0 m)
    by (apply list_fmap_ext; intros ? i _; f_equal; lia).
  rewrite IH by lia. unfold digit_at at 1. zbool. replace (xp - (xp - j - 0)) with j by lia.
  unfold aget. zbool. replace (Z.to_nat (j + 1)) with (S (Z.to_nat j)) by lia.
  destruct (d !! Z.to_nat j) as [c|] eqn:Hc; cbn [default].
  - rewrite (drop_S _ _ _ Hc). cbn [take app]. unfold id. do 3 f_equal. rewrite alen_cons. lia.
  - apply lookup_ge_None in Hc. rewrite !drop_ge, !take_nil by lia. cbn [app]. change (alen []) with 0.
    rewrite !Z.sub_0_r. unfold rep. rewrite !Nat2Z.id. done.
Qed.

(** In front of the digits: zeros. *)
Lemma digits_from_left j n : 0 <= j -> 0 <= n ->
  digits_from d xp (xp + j) n =
    rep (Z.min n j) 48 ++ take (Z.to_nat (n - Z.min n j)) d
    ++ rep (n - Z.min n j - alen (take (Z.to_nat (n - Z.min n j)) d)) 48.
Proof.
  intros Hj Hn. rewrite <-(Z2Nat.id j) by done. generalize (Z.to_nat j) as m. clear Hj. intros m. revert n Hn.
  induction m as [|m IH]; intros n Hn.
  - replace (Z.min n (Z.of_nat 0)) with 0 by lia. rewrite Z.add_0_r, Z.sub_0_r. cbn [app].
    pose proof (digits_from_right 0 n ltac:(lia) Hn) as Hr. by rewrite Z.sub_0_r in Hr.
  - destruct (decide (n = 0)) as [->|Hne]; [by rewrite (Z.min_l 0) by lia|].
    replace (Z.min n (Z.of_nat (S m))) with (Z.min (n - 1) (Z.of_nat m) + 1) by lia.
    specialize (IH (n - 1) ltac:(lia)). set (z := Z.min (n - 1) (Z.of_nat m)) in *.
    unfold digits_from in *. replace (Z.to_nat n) with (S (Z.to_nat (n - 1))) by lia.
    rewrite zrange_S, fmap_cons, zrange_shift, digit_at_0 by lia.
    rewrite <-(rep_app 1 z) || rewrite (Z.add_comm z 1), <-(rep_app 1 z) by lia.
    change (rep 1 48) with [48]. cbn [app]. f_equal. replace (n - (1 + z)) with (n - 1 - z) by lia.
    rewrite <-IH. apply list_fmap_ext. intros ? i _. f_equal. lia.
Qed.
End Digits.

(** ** Trailing zeros *)

Lemma drop_while_app p (l k : list Z) : Forall (fun c => p c = true) l -> drop_while p (l ++ k) = drop_while p k.
Proof. induction 1 as [|c l Hc Hl IH]; [done|]. cbn [app drop_while]. by rewrite Hc. Qed.

Lemma strip_snoc l c : strip (l ++ [c]) = if c =? 48 then strip l else l ++ [c].
Proof.
  unfold strip. rewrite rev_app_distr. cbn [rev app drop_while]. destruct (c =? 48); [done|].
  cbn [rev]. by rewrite rev_involutive.
Qed.

Lemma strip_rep l n : strip (l ++ rep n 48) = strip l.
Proof.
  unfold rep. generalize (Z.to_nat n) as m. induction m as [|m IH]; [by rewrite app_nil_r|].
  rewrite replicate_S_end, app_assoc, strip_snoc, Z.eqb_refl. exact IH.
Qed.

Lemma strip_zeros n : strip (rep n 48) = [].
Proof. apply (strip_rep []). Qed.

Lemma strip_app l k : strip (l ++ k) = if bool_decide (strip k = []) then strip l else l ++ strip k.
Proof.
  induction k as [|c k IH] using rev_ind; [by rewrite app_nil_r|]. rewrite app_assoc, !strip_snoc.
  destruct (c =? 48); [done|]. rewrite bool_decide_false by (by destruct k). by rewrite app_assoc.
Qed.

Lemma strip_split l : exists m, l = strip l ++ replicate m 48.
Proof.
  induction l as [|c l [m IH]] using rev_ind; [by exists 0%nat|]. rewrite strip_snoc.
  destruct (Z.eqb_spec c 48) as [->|]; [|exists 0%nat; by rewrite app_nil_r].
  exists (S m). by rewrite replicate_S_end, app_assoc, <-IH.
Qed.

Lemma strip_Forall (P : Z -> Prop) l : Forall P l -> Forall P (strip l).
Proof. intros Hl. destruct (strip_split l) as [m Hm]. rewrite Hm in Hl. by apply Forall_app in Hl as [? _]. Qed.


(** ** The array *)

Lemma aget_mid (h t : list Z) c : aget (h ++ c :: t) (alen h) = Some c.
Proof.
  unfold aget, alen. zbool. rewrite Nat2Z.id, lookup_app_r, Nat.sub_diag by lia. done.
Qed.

Lemma aset_mid (h t : list Z) c x : aset (h ++ c :: t) (alen h) x = h ++ x :: t.
Proof. unfold aset, alen. rewrite Nat2Z.id. rewrite insert_app_r_alt, Nat.sub_diag by lia. done. Qed.

Lemma last_digit_ok h t k : last_digit (length (h ++ t)) (h ++ t ++ k) (alen h) = Some (alen (h ++ strip t) - 1).
Proof.
  revert k. induction t as [|c t IH] using rev_ind; intros k.
  - rewrite !app_nil_r. cbn [app]. destruct h as [|c h]; [done|].
    unfold alen. cbn [length last_digit]. rewrite Z.geb_leb. zbool. f_equal. lia.
  - rewrite app_assoc. rewrite length_app, Nat.add_1_r. cbn [last_digit]. rewrite Z.geb_leb.
    pose proof (length_app h t). unfold alen. zbool. fold (alen h).
    rewrite <-(app_assoc t), (app_assoc h). fold (alen (h ++ t)). cbn [app].
    rewrite aget_mid. cbn [mbind option_bind]. rewrite strip_snoc. change ZERO_CH with 48.
    destruct (Z.eqb_spec c 48) as [->|]; [rewrite <-app_assoc; apply (IH (48 :: k))|].
    f_equal. unfold alen. rewrite !length_app. cbn. lia.
Qed.

Definition digit_chars (t : list Z) : Prop := Forall (fun c => 48 <= c < 58) t.

Lemma digit_chars_ok t : digit_chars t -> Forall (fun c => byte c /\ c <> 0) t.
Proof. intros Ht. eapply Forall_impl; [done|]. unfold byte. cbn. lia. Qed.

Lemma digit_chars_nz t : digit_chars t -> Forall (fun c => c <> 0) t.
Proof. intros Ht. eapply Forall_impl; [done|]. cbn. lia. Qed.

Lemma digit_chars_byte t : digit_chars t -> Forall byte t.
Proof. intros Ht. eapply Forall_impl; [done|]. unfold byte. cbn. lia. Qed.

Section Array.
Context {S F : Type} {HK : Sink S} {HP : SinkSpec S} {HF : LDouble F}.
Local Notation prints := (prints (S := S) (F := F)).
Local Notation PM := (PM (S := S) (F := F)).

(** The computation gives [a] and changes nothing. *)
Definition gives {A} (m : PM A) (a : A) : Prop := forall o, m o = Done a o.

Lemma gives_ret {A} (a : A) : gives (mret a) a.
Proof. done. Qed.

Lemma gives_bind {A B} (m : PM A) a (k : A -> PM B) b : gives m a -> gives (k a) b -> gives (x ← m; k x) b.
Proof. intros Hm Hk o. unfold mbind, M_bind. by rewrite Hm. Qed.

Lemma gives_bind2 {A B C} (m : PM A) (k : A -> PM B) b (l : B -> PM C) c :
  gives (x ← m; k x) b -> gives (l b) c -> gives (x ← m; y ← k x; l y) c.
Proof.
  intros Hm Hl o. specialize (Hm o). unfold mbind, M_bind in *. destruct (m o) as [x o1|e o1|ft]; [|done|done].
  rewrite Hm. apply Hl.
Qed.

Lemma gives_deref {A} (x : option A) a : x = Some a -> gives (deref x) a.
Proof. by intros ->. Qed.

Lemma prints_gives {A} (m : PM A) a (k : A -> PM unit) t : gives m a -> prints (k a) t -> prints (x ← m; k x) t.
Proof. intros Hm Hk o Q Hr HQ. apply wp_bind. unfold wp. rewrite Hm. by apply Hk. Qed.

Lemma gives_set h t c i x : i = alen h -> gives (arr_set (h ++ c :: t) i x) (h ++ x :: t).
Proof.
  intros ->. unfold arr_set. pose proof (alen_nonneg h). pose proof (alen_nonneg t).
  rewrite alen_app, alen_cons. zbool. by rewrite aset_mid.
Qed.

(** One byte is put in. *)
Lemma gives_insert h t k i x n : i = alen h -> n = alen t -> k <> [] ->
  gives (a ← arr_move (h ++ t ++ k) (i + 1) i n; arr_set a i x) (h ++ x :: t ++ tail k).
Proof.
  intros -> -> Hk. pose proof (alen_nonneg h). pose proof (alen_nonneg t). destruct k as [|c k]; [done|].
  pose proof (alen_nonneg k). eapply gives_bind.
  - unfold arr_move. rewrite !alen_app, alen_cons. zbool. apply gives_ret.
  - assert (exists y, take (Z.to_nat (alen h + 1)) (h ++ t ++ c :: k) = h ++ [y]) as [y Hy].
    { exists (default c (head t)). unfold alen. replace (Z.to_nat _) with (length h + 1)%nat by lia.
      rewrite take_app_add. by destruct t. }
    rewrite Hy. unfold alen. rewrite !Nat2Z.id, drop_app_length, take_app_length.
    replace (Z.to_nat _) with (length h + (length t + 1))%nat by lia. rewrite drop_app_add, drop_app_add.
    rewrite <-app_assoc. cbn [app tail drop]. rewrite drop_0. by apply gives_set.
Qed.

(** The same in front of the end of a string. *)
Lemma gives_point h u k i j x n : i = alen h -> j = i + 1 -> alen u + 1 <= n < alen u + 1 + alen k -> Forall byte k ->
  exists k', gives (a ← arr_move (h ++ u ++ 0 :: k) j i n; arr_set a i x) (h ++ x :: u ++ 0 :: k') /\ Forall byte k'.
Proof.
  intros Hi -> Hn Hk. pose proof (alen_nonneg u). set (m := Z.to_nat (n - alen u - 1)).
  exists (take m k ++ tail (drop m k)). split.
  - replace (u ++ 0 :: k) with ((u ++ 0 :: take m k) ++ drop m k) by (by rewrite <-app_assoc; cbn [app]; rewrite take_drop).
    replace (u ++ 0 :: take m k ++ tail (drop m k)) with ((u ++ 0 :: take m k) ++ tail (drop m k)) by (by rewrite <-app_assoc).
    assert (alen (drop m k) <> 0 /\ alen (take m k) = n - alen u - 1) as [Hd Ht].
    { unfold alen in *. rewrite length_drop, length_take. lia. }
    apply gives_insert; [done|rewrite alen_app, alen_cons; lia|by intros Hnil; rewrite Hnil in Hd].
  - apply Forall_app. split; [by apply Forall_take|]. assert (Forall byte (drop m k)) as Hd by (by apply Forall_drop).
    by destruct Hd.
Qed.

(** [__remove_zeros] *)
Lemma gives_remove_zeros h t k n : n = alen h -> Forall (fun c => c <> 0) (h ++ t) ->
  exists k', gives (remove_zeros (h ++ t ++ 0 :: k) n) (h ++ strip t ++ 0 :: k') /\
    alen (strip t ++ 0 :: k') = alen (t ++ 0 :: k) /\ (Forall byte k -> Forall byte k').
Proof.
  intros -> Hd. destruct (strip_split t) as [m Hm].
  assert (exists c k', t ++ 0 :: k = strip t ++ c :: k' /\ (Forall byte k -> Forall byte k')) as (c & k' & Hk & Hb).
  { assert (t ++ 0 :: k = strip t ++ replicate m 48 ++ 0 :: k) as -> by (by rewrite app_assoc, <-Hm).
    destruct m as [|m]; [by exists 0, k|]. eexists _, _. split; [done|].
    intros. apply Forall_app. split; [by apply Forall_replicate|by constructor]. }
  exists k'. split_and!; [|by rewrite Hk, !alen_app, !alen_cons|done].
  unfold remove_zeros. eapply gives_bind; [apply gives_deref|].
  { rewrite app_assoc. by apply strlen_app. }
  eapply gives_bind; [apply gives_deref; unfold alen at 1; rewrite Nat2Z.id; apply last_digit_ok|].
  rewrite Hk, !app_assoc. apply gives_set. lia.
Qed.
End Array.
