(* ===== verification/PrintfFloat.v ===== *)
(** The conversions of floating point numbers print the texts of
    [PrintfSpec.v]. *)

From S2P Require Import Prelude CStr Conv ConvFacts Stdio StdioSpec Printf PrintfSpec PrintfFacts PrintfInt PrintfDigits.
#[local] Open Scope Z_scope.

Lemma head_nonzero u k : digit_chars u ->
  exists c, head (u ++ 0 :: k) = Some c /\ (c =? 0) = bool_decide (u = []).
Proof.
  destruct 1 as [|c u Hc Hu]; [by exists 0|]. exists c. split; [done|].
  rewrite (bool_decide_false (_ = [])) by done. apply Z.eqb_neq. cbn in Hc. lia.
Qed.

Lemma alen_take_min (n : Z) (l : list Z) : 0 <= n -> alen (take (Z.to_nat n) l) = Z.min n (alen l).
Proof. intros Hn. unfold alen. rewrite length_take. lia. Qed.

Lemma strip_len t : alen (strip t) <= alen t.
Proof. destruct (strip_split t) as [m Hm]. rewrite Hm at 2. rewrite alen_app. pose proof (alen_nonneg (replicate m 48)). lia. Qed.

Lemma alen_0 (l : list Z) : alen l = 0 -> l = [].
Proof. destruct l; [done|]. unfold alen. cbn. lia. Qed.

Section Float.
Context {S F : Type} {HK : Sink S} {HP : SinkSpec S} {HF : LDouble F} (env : penv) (Henv : penv_ok env).
Local Notation prints := (prints (S := S) (F := F)).
Local Notation gives := (gives (S := S) (F := F)).

Lemma prints_laid f v (neg : bool) dot str xps lpad0 rpad0 td ts tx body :
  in_field f v -> oholds dot td -> holds str ts -> oholds xps tx ->
  td ++ rep lpad0 48 ++ ts ++ rep rpad0 48 ++ tx = body ->
  prints (cvt_number v None dot str xps lpad0 rpad0 true neg) (layout f true (sign_of f neg) [] body).
Proof.
  intros Hf Hd Hs Hx <-. eapply prints_eq; [by eapply (prints_cvt_number v None dot str xps _ _ true neg [] td ts tx)|].
  unfold layout. rewrite andb_true_r, (sign_char_of f v true neg Hf). by destruct Hf as [-> _ _ _ -> -> _ _].
Qed.

(** [digits[n] = 0], where it cuts something off. *)
Lemma cut_ok d z rest n N : alen d = N -> 0 <= n -> n < N \/ z = 0 -> Forall byte d -> byte z -> Forall byte rest ->
  exists k, (n <= N -> gives (arr_set (d ++ z :: rest) n 0) (take (Z.to_nat n) d ++ 0 :: k)) /\
    (N <= n -> d ++ z :: rest = take (Z.to_nat n) d ++ 0 :: k) /\
    alen (take (Z.to_nat n) d ++ 0 :: k) = N + 1 + alen rest /\ Forall byte k.
Proof.
  intros Hd Hn Hz Hc Hb Hr. destruct (Z_lt_ge_dec n N) as [Hlt|Hge].
  - destruct (drop (Z.to_nat n) d) as [|c k] eqn:Hk.
    { pose proof (length_drop d (Z.to_nat n)) as Hl. rewrite Hk in Hl. unfold alen in *. cbn in Hl. lia. }
    assert (d = take (Z.to_nat n) d ++ c :: k) as Hsplit by (by rewrite <-Hk, take_drop).
    exists (k ++ z :: rest). assert (d ++ z :: rest = take (Z.to_nat n) d ++ c :: k ++ z :: rest) as Hall.
    { rewrite Hsplit at 1. by rewrite <-app_assoc. }
    split_and!.
    + intros _. rewrite Hall. apply gives_set. rewrite alen_take_min; lia.
    + lia.
    + assert (alen (d ++ z :: rest) = N + 1 + alen rest) as Hl by (rewrite alen_app, alen_cons; lia).
      rewrite Hall, alen_app, alen_cons in Hl. by rewrite alen_app, alen_cons.
    + rewrite Hsplit in Hc. apply Forall_app in Hc as [_ Hc]. apply Forall_cons in Hc as [_ Hc].
      apply Forall_app. split; [done|by constructor].
  - exists rest. destruct Hz as [|Hz]; [lia|]. subst z. rewrite take_ge by (unfold alen in Hd; lia).
    split_and!; [|done|rewrite alen_app, alen_cons; lia|done]. intros Hle. apply gives_set. lia.
Qed.

(** The zeros that the [g] conversion leaves out. *)
Lemma auto_ok (auto : bool) h t k rpad0 n : n = alen h -> digit_chars (h ++ t) -> Forall byte k ->
  let u := if auto then strip t else t in
  exists k', gives (if auto then d ← remove_zeros (h ++ t ++ 0 :: k) n; mret (d, 0) else mret (h ++ t ++ 0 :: k, rpad0))
      (h ++ u ++ 0 :: k', if auto then 0 else rpad0) /\
    alen (u ++ 0 :: k') = alen (t ++ 0 :: k) /\ Forall byte k' /\ digit_chars u.
Proof.
  intros Hn Hd Hk. destruct auto; cbn zeta.
  - destruct (gives_remove_zeros (S := S) (F := F) h t k n Hn (digit_chars_nz _ Hd)) as (k' & Hg & Hl & Hb).
    exists k'. split_and!; [|done|by apply Hb|by apply Forall_app in Hd as [_ ?]; apply strip_Forall].
    eapply gives_bind; [exact Hg|done].
  - exists k. split_and!; try done. by apply Forall_app in Hd as [_ ?].
Qed.

(** ** The fraction part *)

Section Fraction.
Context (point : Z) (hash auto : bool) (d : list Z) (xp prec : Z).
Hypothesis Hprec : 0 <= prec.

Lemma bool_nonnil (l : list Z) : bool_decide (l <> []) = negb (bool_decide (l = [])).
Proof. by destruct l. Qed.

Lemma rep_nil n c : 0 <= n -> bool_decide (rep n c = []) = (n =? 0).
Proof.
  intros Hn. destruct (Z.eqb_spec n 0) as [->|Hne]; [done|]. apply bool_decide_eq_false_2. intros Hnil.
  pose proof (rep_len n c Hn) as Hl. rewrite Hnil in Hl. change (alen []) with 0 in Hl. lia.
Qed.

Lemma app_nil_dec (l k : list Z) : bool_decide (l ++ k = []) = bool_decide (l = []) && bool_decide (k = []).
Proof. by destruct l, k. Qed.

(** Digits that begin behind the first one. *)
Lemma fraction_right j : 0 <= j ->
  let t := take (Z.to_nat prec) (drop (Z.to_nat j) d) in
  let u := if auto then strip t else t in
  let r := if auto then 0 else prec - alen t in
  fraction point hash auto (digits_from d xp (xp - j) prec) =
    if hash || negb (bool_decide (u = [])) || negb (r =? 0) then point :: u ++ rep r 48 else [].
Proof.
  intros Hj t u r. unfold fraction. rewrite digits_from_right by done. fold t.
  assert (0 <= prec - alen t) as Ht by (unfold t; rewrite alen_take_min by done; lia).
  assert ((if auto then strip (t ++ rep (prec - alen t) 48) else t ++ rep (prec - alen t) 48) = u ++ rep r 48) as ->.
  { subst u r. destruct auto; [|done]. by rewrite strip_rep, app_nil_r. }
  rewrite bool_nonnil, app_nil_dec, negb_andb, rep_nil, orb_assoc by (subst r; destruct auto; lia). done.
Qed.

(** Digits behind zeros. *)
Lemma fraction_left j : 0 <= j -> 0 < alen d ->
  let l := Z.min prec j in
  let t := take (Z.to_nat (prec - l)) d in
  let u := if auto then strip t else t in
  let l' := if auto && bool_decide (u = []) then 0 else l in
  let r := if auto then 0 else prec - l - alen t in
  fraction point hash auto (digits_from d xp (xp + j) prec) =
    if hash || negb (bool_decide (u = [])) || negb (l' =? 0) then point :: rep l' 48 ++ u ++ rep r 48 else [].
Proof.
  intros Hj Hd l t u l' r. unfold fraction. rewrite digits_from_left by done. fold l t.
  assert (alen t = Z.min (prec - l) (alen d)) as Ht by (unfold t; apply alen_take_min; lia).
  assert ((if auto then strip (rep l 48 ++ t ++ rep (prec - l - alen t) 48) else rep l 48 ++ t ++ rep (prec - l - alen t) 48)
    = rep l' 48 ++ u ++ rep r 48) as ->.
  { subst u r l'. destruct auto; cbn [andb]; [|done]. rewrite app_assoc, strip_rep, strip_app, app_nil_r.
    case_bool_decide as Hs; [by rewrite strip_zeros, Hs|done]. }
  assert (0 <= l' /\ 0 <= r) as [? ?] by (subst l' r; destruct auto, (bool_decide _); cbn; lia).
  rewrite bool_nonnil, !app_nil_dec, !negb_andb, !rep_nil by done.
  assert (u = [] -> r = 0) as Hr.
  { subst u r. destruct auto; [done|]. intros Ht0. rewrite Ht0 in *. change (alen []) with 0 in *. lia. }
  case_bool_decide as Hu; [rewrite (Hr Hu)|]; by destruct hash, (l' =? 0).
Qed.
End Fraction.

(** ** The [f] conversion *)

Section Fixed.
Context (f : field) (v : olocal) (prec : Z) (d : list Z) (z : Z) (rest : list Z) (xp : Z) (neg auto : bool).
Hypothesis Hf : in_field f v.
Hypothesis Hprec : f_prec f = Some prec.
Hypothesis Hauto : auto = true -> f_hash f = false.
Hypothesis Hd : digit_chars d.
Hypothesis Hlen : alen d = 21.
Hypothesis Hz : byte z.
Hypothesis Hrest : Forall byte rest /\ rest <> [].

Lemma prec_nonneg : v_prec v = prec /\ 0 <= prec.
Proof.
  destruct Hf as [_ _ _ _ _ _ Hp [_ Hr]]. rewrite Hprec in *. cbn in Hp. split; [done|]. rewrite <-Hp. by apply Hr.
Qed.

Lemma point_string : holds [e_point env; 0] [e_point env].
Proof. destruct (po_point env Henv). apply (holds_lit [_] []); [by apply Forall_singleton|by constructor]. Qed.

Lemma zdot_string : holds (zdot env) [48; e_point env].
Proof. destruct (po_point env Henv). apply (holds_lit [_; _] []); [|by constructor]. constructor; [by compute|]. by apply Forall_singleton. Qed.

Lemma zero_string : holds [48; 0] [48].
Proof. apply (holds_lit [_] []); [|by constructor]. apply Forall_singleton. by compute. Qed.

Lemma digits_string t k : digit_chars t -> Forall byte k -> holds (t ++ 0 :: k) t.
Proof. intros Ht Hk. apply holds_lit; [by apply digit_chars_ok|done]. Qed.

Lemma digit_chars_take n : digit_chars (take n d).
Proof. by apply Forall_take. Qed.

(** Cases (1) to (4) *)
Lemma prints_fixed_small : xp < 0 -> z = 0 \/ xp + 1 + prec < 21 ->
  prints (cvt_fixed_digits env v (d ++ z :: rest) xp neg auto)
    (layout f true (sign_of f neg) [] (fixed_body (e_point env) (f_hash f) auto prec d xp)).
Proof.
  intros Hxp Hcut. destruct prec_nonneg as [Hvp Hp]. unfold cvt_fixed_digits. zbool. rewrite Hvp. change DECIMAL_DIG with 21.
  replace (if prec <? - xp - 1 then prec else - xp - 1) with (Z.min prec (- xp - 1))
    by (destruct (Z.ltb_spec prec (- xp - 1)); lia).
  unfold fixed_body. rewrite Z.max_r by lia.
  replace (digits_from d xp 0 (0 + 1)) with [48].
  2:{ change (digits_from d xp 0 (0 + 1)) with [digit_at d xp 0]. by rewrite digit_at_0 by lia. }
  pose proof (fraction_left (e_point env) (f_hash f) auto d xp prec Hp (- xp - 1) ltac:(lia) ltac:(lia)) as Hbody.
  replace (xp + (- xp - 1)) with (-1) in Hbody by lia. cbv zeta in Hbody. rewrite Hbody. clear Hbody.
  set (lpad := Z.min prec (- xp - 1)). set (n := prec - lpad).
  replace ((0 <=? n) && (n <? 21)) with (n <? 21) by (subst n; by zbool).
  destruct (cut_ok d z rest n 21 Hlen ltac:(lia) ltac:(lia) (digit_chars_byte d Hd) Hz (proj1 Hrest)) as (k & Hset & Hset' & Hl & Hk).
  apply (prints_gives _ (take (Z.to_nat n) d ++ 0 :: k)).
  { destruct (Z.ltb_spec n 21); [apply Hset; lia|rewrite Hset' by lia; apply gives_ret]. }
  set (t := take (Z.to_nat n) d) in *.
  replace (if prec - (lpad + 21) <? 0 then 0 else prec - (lpad + 21)) with (n - alen t).
  2:{ unfold t. rewrite alen_take_min, Hlen by lia. destruct (Z.ltb_spec (prec - (lpad + 21)) 0); lia. }
  destruct (auto_ok auto [] t k (n - alen t) 0 eq_refl (digit_chars_take _) Hk) as (k' & Hg & _ & Hk' & Hu).
  eapply prints_gives; [exact Hg|]. cbn beta iota zeta. set (u := if auto then strip t else t) in *.
  destruct (head_nonzero u k' Hu) as (c & Hc & Hc0). apply (prints_deref _ _ c); [done|]. rewrite Hc0, (if_hash f v Hf).
  set (l' := if auto && _ then 0 else lpad). set (r := if auto then 0 else n - alen t).
  destruct (f_hash f || _ || _) eqn:Hdot.
  - eapply (prints_laid f v neg _ _ _ _ _ [48; e_point env] u []); [done|apply zdot_string|by apply digits_string|done|].
    by rewrite app_nil_r.
  - apply orb_false_iff in Hdot as [[_ Hu0]%orb_false_iff Hl0]. apply negb_false_iff, bool_decide_eq_true in Hu0.
    apply negb_false_iff, Z.eqb_eq in Hl0.
    eapply (prints_laid f v neg _ _ _ _ _ [48] u []); [done|apply zero_string|by apply digits_string|done|].
    rewrite Hu0, Hl0. change (rep 0 48) with (@nil Z). cbn [app]. rewrite app_nil_r. f_equal.
    subst r u. destruct auto; [done|]. apply rep_neg. assert (alen t = 0) as Ht by (by rewrite Hu0).
    pose proof Ht as Hn0. unfold t in Hn0. rewrite alen_take_min, Hlen in Hn0 by lia. lia.
Qed.

(** Cases (5) to (8) *)
Lemma prints_fixed_middle : 0 <= xp < 21 -> z = 0 \/ xp + 1 + prec < 21 ->
  prints (cvt_fixed_digits env v (d ++ z :: rest) xp neg auto)
    (layout f true (sign_of f neg) [] (fixed_body (e_point env) (f_hash f) auto prec d xp)).
Proof.
  intros Hxp Hcut. destruct prec_nonneg as [Hvp Hp]. unfold cvt_fixed_digits. change DECIMAL_DIG with 21. zbool. rewrite Hvp.
  unfold fixed_body. rewrite Z.max_l by lia.
  pose proof (digits_from_right d xp 0 (xp + 1) ltac:(lia) ltac:(lia)) as Hh. rewrite Z.sub_0_r, drop_0 in Hh.
  rewrite alen_take_min, Hlen, (rep_neg (_ - _)), app_nil_r in Hh by lia. rewrite Hh. clear Hh.
  pose proof (fraction_right (e_point env) (f_hash f) auto d xp prec Hp (xp + 1) ltac:(lia)) as Hbody.
  replace (xp - (xp + 1)) with (-1) in Hbody by lia. cbv zeta in Hbody. rewrite Hbody. clear Hbody.
  set (h := take (Z.to_nat (xp + 1)) d). set (t := take (Z.to_nat prec) (drop (Z.to_nat (xp + 1)) d)).
  assert (alen h = xp + 1) as Hh by (unfold h; rewrite alen_take_min; lia).
  assert (alen (drop (Z.to_nat (xp + 1)) d) = 20 - xp) as Hdrop by (unfold alen in *; rewrite length_drop; lia).
  assert (alen t = Z.min prec (20 - xp)) as Ht by (unfold t; rewrite alen_take_min; lia).
  destruct (cut_ok d z rest (xp + 1 + prec) 21 Hlen ltac:(lia) ltac:(lia) (digit_chars_byte d Hd) Hz (proj1 Hrest))
    as (k & Hset & Hset' & Hl & Hk).
  assert (take (Z.to_nat (xp + 1 + prec)) d = h ++ t) as Hht.
  { unfold h, t. rewrite Z2Nat.inj_add by lia. by rewrite take_take_drop. }
  rewrite Hht, <-app_assoc in Hset, Hset', Hl.
  apply (prints_gives _ (h ++ t ++ 0 :: k, prec - alen t)).
  { replace (21 + (prec - (21 - xp - 1))) with (xp + 1 + prec) by lia.
    destruct (Z.ltb_spec (prec - (21 - xp - 1)) 0).
    - replace (prec - alen t) with 0 by lia. eapply gives_bind; [apply Hset; lia|done].
    - replace (prec - (21 - xp - 1)) with (prec - alen t) by lia. rewrite Hset' by lia. apply gives_ret. }
  assert (digit_chars (h ++ t)) as Hc by (rewrite <-Hht; apply digit_chars_take).
  destruct (auto_ok auto h t k (prec - alen t) (xp + 1) ltac:(lia) Hc Hk) as (k' & Hg & Hl' & Hk' & Hu).
  cbn beta iota. eapply prints_gives; [exact Hg|]. cbn beta iota zeta. set (u := if auto then strip t else t) in *.
  destruct (head_nonzero u k' Hu) as (c & Hc1 & Hc0). apply (prints_deref _ _ c).
  { rewrite <-Hh. destruct u; cbn [app head] in *; rewrite aget_mid; congruence. }
  rewrite Hc0, (if_hash f v Hf). set (r := if auto then 0 else prec - alen t).
  assert (digit_chars h) as Hhc by (by apply Forall_app in Hc as [? _]).
  assert (Forall (fun c => byte c /\ c <> 0) (h ++ e_point env :: u)) as Hall.
  { apply Forall_app. split; [by apply digit_chars_ok|]. constructor; [apply po_point, Henv|by apply digit_chars_ok]. }
  destruct (f_hash f || _ || _) eqn:Hdot.
  - destruct (gives_point (S := S) (F := F) h u k' (xp + 1) (xp + 2) (e_point env) (21 - xp)) as (k2 & Hins & Hk2); [lia|lia| |done|].
    { assert (alen u <= alen t) by (subst u; destruct auto; [apply strip_len|lia]). rewrite !alen_app, !alen_cons in *.
      destruct Hrest as [_ Hr0]. assert (alen rest <> 0) by (by intros ?%alen_0). pose proof (alen_nonneg rest). lia. }
    apply (prints_gives _ _ _ _ Hins).
    eapply (prints_laid f v neg None _ None _ _ [] (h ++ e_point env :: u) []); [done|done| |done|].
    + exists k2. split_and!; [by rewrite <-app_assoc|done|done].
    + cbn [app]. by rewrite app_nil_r, <-app_assoc.
  - apply orb_false_iff in Hdot as [[_ Hu0]%orb_false_iff Hr0]. apply negb_false_iff, bool_decide_eq_true in Hu0.
    apply negb_false_iff, Z.eqb_eq in Hr0. rewrite Hu0. cbn [app]. apply prints_ret.
    eapply (prints_laid f v neg None _ None _ _ [] h []); [done|done|by apply digits_string|done|].
    rewrite Hr0. change (rep 0 48) with (@nil Z). cbn [app]. by rewrite app_nil_r.
Qed.

(** Case (9) *)
Lemma prints_fixed_large : 21 <= xp -> z = 0 ->
  prints (cvt_fixed_digits env v (d ++ z :: rest) xp neg auto)
    (layout f true (sign_of f neg) [] (fixed_body (e_point env) (f_hash f) auto prec d xp)).
Proof.
  intros Hxp Hz0. destruct prec_nonneg as [Hvp Hp]. unfold cvt_fixed_digits. change DECIMAL_DIG with 21. zbool. rewrite Hvp.
  unfold fixed_body. rewrite Z.max_l by lia.
  pose proof (digits_from_right d xp 0 (xp + 1) ltac:(lia) ltac:(lia)) as Hh. rewrite Z.sub_0_r, drop_0 in Hh.
  rewrite take_ge in Hh by (unfold alen in *; lia). rewrite Hh, Hlen. clear Hh.
  pose proof (fraction_right (e_point env) (f_hash f) auto d xp prec Hp (xp + 1) ltac:(lia)) as Hbody.
  replace (xp - (xp + 1)) with (-1) in Hbody by lia. cbv zeta in Hbody. rewrite Hbody. clear Hbody.
  rewrite (drop_ge d), take_nil by (unfold alen in *; lia). change (alen []) with 0. rewrite Z.sub_0_r.
  replace (if auto then strip [] else []) with (@nil Z) by (by destruct auto). cbn [app].
  rewrite bool_decide_true by done. cbn [negb]. rewrite orb_false_r, (if_hash f v Hf).
  assert (holds (d ++ z :: rest) d) as Hstr by (rewrite Hz0; apply digits_string; [done|apply Hrest]).
  set (r := if auto then 0 else prec). replace (xp + 1 - 21) with (xp - 21 + 1) by lia.
  assert (forall str ts, holds str ts -> prints (cvt_number v None (Some (d ++ z :: rest)) str None (xp - 21 + 1) r true neg)
    (layout f true (sign_of f neg) [] ((d ++ rep (xp - 21 + 1) 48) ++ ts ++ rep r 48))) as Hpr.
  { intros str ts Hs. eapply (prints_laid f v neg _ _ _ _ _ d ts []); [done|done|done|done|]. by rewrite app_nil_r, <-app_assoc. }
  destruct (f_hash f || negb (r =? 0)) eqn:Hdot.
  - apply (Hpr _ [e_point env]), point_string.
  - apply orb_false_iff in Hdot as [_ Hr0]. apply negb_false_iff, Z.eqb_eq in Hr0.
    eapply prints_eq; [apply (Hpr _ []), holds_nil; by constructor|]. by rewrite Hr0.
Qed.

Lemma prints_fixed_digits : z = 0 \/ xp + 1 + prec < 21 ->
  prints (cvt_fixed_digits env v (d ++ z :: rest) xp neg auto)
    (layout f true (sign_of f neg) [] (fixed_body (e_point env) (f_hash f) auto prec d xp)).
Proof.
  intros Hcut. destruct prec_nonneg as [_ Hp]. destruct (Z_lt_ge_dec xp 0); [apply prints_fixed_small; [lia|done]|].
  destruct (Z_lt_ge_dec xp 21); [apply prints_fixed_middle; [lia|done]|apply prints_fixed_large; lia].
Qed.

(** ** The [e] conversion *)

Lemma exponent_string c : byte c -> c <> 0 ->
  exists t, exponent c xp = t ++ [0] /\ until_zero (exponent c xp) = t /\ Forall (fun c => byte c /\ c <> 0) t.
Proof.
  intros Hb Hc. assert (forall t, Forall (fun c => byte c /\ c <> 0) t ->
    exists t', t ++ [0] = t' ++ [0] /\ until_zero (t ++ [0]) = t' /\ Forall (fun c => byte c /\ c <> 0) t') as Hgen.
  { intros t Ht. exists t. split_and!; [done| |done]. induction Ht as [|x t [_ Hx] Ht IH]; [done|].
    cbn [app until_zero]. rewrite (proj2 (Z.eqb_neq x 0)) by done. by rewrite IH. }
  unfold exponent. set (s := if xp <? 0 then (MINUS, - xp) else (PLUS, xp)).
  assert (s.1 = MINUS \/ s.1 = PLUS) as Hs by (subst s; destruct (xp <? 0); auto). destruct s as [s e]. cbn in Hs.
  assert (forall x, byte (x mod 10 + 48) /\ x mod 10 + 48 <> 0) as Hdig.
  { intros x. pose proof (Z.mod_pos_bound x 10). unfold byte. lia. }
  assert (byte s /\ s <> 0) by (destruct Hs as [-> | ->]; by compute).
  set (a := if e >=? 1000 then _ else _). set (b := if e >=? 100 then _ else _).
  assert (Forall (fun c => byte c /\ c <> 0) a /\ Forall (fun c => byte c /\ c <> 0) b) as [Ha Hbb].
  { subst a b. split; destruct (_ >=? _); repeat constructor; apply Hdig. }
  replace ([c; s] ++ a ++ b ++ [e / 10 mod 10 + 48; e mod 10 + 48; 0])
    with (([c; s] ++ a ++ b ++ [e / 10 mod 10 + 48; e mod 10 + 48]) ++ [0]) by (by rewrite <-!app_assoc).
  apply Hgen. rewrite !Forall_app. split_and!; try done; constructor; auto; by constructor.
Qed.

(** The digits with the point, as [e] prints them. *)
Section ExpDigits.
Context (d0 : Z) (d' : list Z).
Hypothesis Hd0 : d = d0 :: d'.
Hypothesis Hcut : z = 0 \/ prec + 1 < 21.
Local Notation t := (take (Z.to_nat prec) d').
Local Notation u := (if auto then strip t else t).
Local Notation r := (if auto then 0 else prec - alen t).

Lemma exp_digits : digit_chars d' /\ alen d' = 20 /\ alen t = Z.min prec 20 /\ digit_chars t /\ byte d0 /\ d0 <> 0.
Proof.
  destruct prec_nonneg as [_ Hp]. pose proof Hlen as Hl. rewrite Hd0, alen_cons in Hl.
  pose proof Hd as Hdc. rewrite Hd0 in Hdc. apply Forall_cons in Hdc as [Hc Hc'].
  split_and!; [done|lia|rewrite alen_take_min; lia|by apply Forall_take|unfold byte; lia|lia].
Qed.

Lemma gives_exp_short : prec = 0 -> f_hash f = false -> exists k, Forall byte k /\
  gives (d ← arr_set (d ++ z :: rest) 1 0; mret (d, 0)) (d0 :: u ++ 0 :: k, r).
Proof.
  intros Hp0 Hh. destruct exp_digits as (Hc & Hl & Ht & _). assert (t = []) as -> by (apply alen_0; lia).
  destruct d' as [|d1 k] eqn:Hd1; [change (alen []) with 0 in Hl; lia|]. apply Forall_cons in Hc as [_ Hc].
  exists (k ++ z :: rest). split.
  - apply Forall_app. split; [by apply digit_chars_byte|by constructor; [|apply Hrest]].
  - eapply gives_bind; [rewrite Hd0; by apply (gives_set [d0])|]. rewrite Hp0. by destruct auto.
Qed.

Lemma gives_exp_point : prec < INT_MAX -> prec <> 0 \/ f_hash f = true -> exists k, Forall byte k /\
  gives
    (digits ← arr_move (d ++ z :: rest) 2 1 21;
     digits ← arr_set digits 1 (e_point env);
     '(digits, rpad0) ← (if prec >=? 21 then n ← int (1 + prec); mret (digits, n - 21)
                         else d ← arr_set digits (2 + prec) 0; mret (d, 0));
     if auto then
       digits ← remove_zeros digits 2;
       c ← deref (aget digits 2);
       digits ← (if c =? 0 then arr_set digits 1 0 else mret digits);
       mret (digits, 0)
     else mret (digits, rpad0))
    (d0 :: (if f_hash f || negb (bool_decide (u = [])) || negb (r =? 0) then e_point env :: u else []) ++ 0 :: k, r).
Proof.
  intros Hmax Hpoint. destruct exp_digits as (Hc & Hl & Ht & Htc & Hb0 & Hn0). destruct prec_nonneg as [_ Hp].
  destruct (po_point env Henv) as [Hpb Hpn]. set (p := e_point env) in *. destruct Hrest as [Hrb Hrn].
  (* the point is put in *)
  pose proof (gives_insert (S := S) (F := F) [d0] (d' ++ [z]) rest 1 p 21 eq_refl) as Hins.
  rewrite alen_app, Hl in Hins. specialize (Hins eq_refl Hrn). rewrite <-!app_assoc in Hins. cbn [app] in Hins.
  rewrite Hd0. cbn [app]. change (1 + 1) with 2 in Hins.
  (* the digits are cut off *)
  destruct (cut_ok (d0 :: p :: d') z (tail rest) (2 + prec) 22) as (k & Hset & Hset' & _ & Hk);
    [rewrite !alen_cons; lia|lia|lia|do 2 (constructor; [done|]); by apply digit_chars_byte|done|by destruct Hrb|].
  replace (take (Z.to_nat (2 + prec)) (d0 :: p :: d')) with ([d0; p] ++ t) in Hset, Hset'
    by (by replace (Z.to_nat (2 + prec)) with (Datatypes.S (Datatypes.S (Z.to_nat prec))) by lia).
  assert (gives (if prec >=? 21 then n ← int (1 + prec); mret (d0 :: p :: d' ++ z :: tail rest, n - 21)
                 else d ← arr_set (d0 :: p :: d' ++ z :: tail rest) (2 + prec) 0; mret (d, 0))
            ([d0; p] ++ t ++ 0 :: k, prec - alen t)) as Hcutd.
  { rewrite Z.geb_leb, app_assoc. destruct (Z.leb_spec 21 prec).
    - replace (prec - alen t) with (1 + prec - 21) by lia. cbn [app] in Hset'. rewrite Hset' by lia.
      unfold INT_MAX in Hmax. rewrite int_ok by lia. eapply gives_bind; apply gives_ret.
    - replace (prec - alen t) with 0 by lia. eapply gives_bind; [apply Hset; lia|done]. }
  (* the zeros behind it are removed *)
  destruct auto eqn:Ha.
  - rewrite (Hauto eq_refl). destruct (gives_remove_zeros (S := S) (F := F) [d0; p] t k 2 eq_refl) as (k' & Hg & _ & Hk').
    { do 2 (constructor; [done|]). by apply digit_chars_nz. }
    specialize (Hk' Hk). destruct (head_nonzero (strip t) k') as (c & Hc1 & Hcz); [by apply strip_Forall|].
    assert (aget ([d0; p] ++ strip t ++ 0 :: k') 2 = Some c) as Hc2.
    { destruct (strip t); cbn [head app] in Hc1; injection Hc1 as <-; done. }
    exists (if bool_decide (strip t = []) then 0 :: k' else k'). split; [destruct (bool_decide _); by try constructor|].
    eapply gives_bind2; [exact Hins|]. eapply gives_bind; [exact Hcutd|]. cbn beta iota. eapply gives_bind; [exact Hg|].
    eapply gives_bind; [by apply gives_deref|]. rewrite Hcz.
    case_bool_decide as Hu; [|by eapply gives_bind].
    rewrite Hu. cbn [app orb negb]. eapply gives_bind; [by apply (gives_set [d0])|done].
  - exists k. split; [done|]. eapply gives_bind2; [exact Hins|]. eapply gives_bind; [exact Hcutd|].
    replace (f_hash f || _ || _) with true; [done|]. symmetry. destruct Hpoint as [Hp0| ->]; [|done].
    destruct (f_hash f); [done|]. cbn [orb]. rewrite bool_decide_false; [done|]. intros Hnil.
    rewrite Hnil in Ht. change (alen []) with 0 in Ht. lia.
Qed.
End ExpDigits.

Lemma prints_exp_digits c : byte c -> c <> 0 -> prec < INT_MAX -> z = 0 \/ prec + 1 < 21 ->
  prints (cvt_exp_digits env v (d ++ z :: rest) xp neg c auto)
    (layout f true (sign_of f neg) [] (exp_body (e_point env) (f_hash f) auto prec d xp c)).
Proof.
  intros Hcb Hc Hmax Hcut. destruct prec_nonneg as [Hvp Hp]. unfold cvt_exp_digits. change DECIMAL_DIG with 21.
  rewrite Hvp, (if_hash f v Hf). destruct (exponent_string c Hcb Hc) as (tx & Hx & Hux & Htx).
  assert (exists d0 d', d = d0 :: d') as (d0 & d' & Hd0) by (destruct d; [change (alen []) with 0 in Hlen; lia|eauto]).
  destruct (exp_digits d0 d' Hd0) as (_ & _ & _ & Htc & Hb0 & Hn0).
  unfold exp_body. rewrite Hux.
  pose proof (fraction_right (e_point env) (f_hash f) auto d xp prec Hp 1 ltac:(lia)) as Hbody. cbv zeta in Hbody. rewrite Hbody. clear Hbody.
  pose proof (digits_from_right d xp 0 1 ltac:(lia) ltac:(lia)) as Hh. rewrite Z.sub_0_r in Hh. rewrite Hh. clear Hh.
  replace (take (Z.to_nat 1) (drop (Z.to_nat 0) d) ++ rep (1 - alen (take (Z.to_nat 1) (drop (Z.to_nat 0) d))) 48)
    with [d0] by (by rewrite Hd0).
  replace (drop (Z.to_nat 1) d) with d' by (by rewrite Hd0).
  set (u := if auto then strip _ else take (Z.to_nat prec) d'). set (r := if auto then 0 else prec - _).
  assert (digit_chars u) as Huc by (subst u; destruct auto; [by apply strip_Forall|done]).
  set (b := f_hash f || _ || _).
  assert (forall k, Forall byte k -> prints (cvt_number v None None (d0 :: (if b then e_point env :: u else []) ++ 0 :: k)
    (Some (exponent c xp)) 0 r true neg)
    (layout f true (sign_of f neg) [] ([d0] ++ (if b then e_point env :: u ++ rep r 48 else []) ++ tx))) as Hpr.
  { intros k Hk. eapply (prints_laid f v neg None _ _ _ _ [] (d0 :: (if b then e_point env :: u else [])) tx); [done|done| | |].
    - exists k. split_and!; [done| |done]. constructor; [done|].
      destruct b; [|by constructor]. constructor; [apply po_point, Henv|by apply digit_chars_ok].
    - exists []. split_and!; [done|done|by constructor].
    - change (rep 0 48) with (@nil Z). destruct b eqn:Hb; cbn [app]; [by rewrite <-app_assoc|].
      unfold b in Hb. apply orb_false_iff in Hb as [_ Hr0]. apply negb_false_iff, Z.eqb_eq in Hr0. by rewrite Hr0. }
  destruct ((prec =? 0) && negb (f_hash f)) eqn:Hs.
  2:{ destruct (gives_exp_point d0 d' Hd0 Hcut Hmax) as (k & Hk & Hg).
      { destruct (Z.eqb_spec prec 0), (f_hash f); auto. }
      eapply prints_gives; [exact Hg|]. by apply (Hpr k). }
  apply andb_true_iff in Hs as [Hp0%Z.eqb_eq Hh%negb_true_iff].
  destruct (gives_exp_short d0 d' Hd0 Hp0 Hh) as (k & Hk & Hg). eapply prints_gives; [exact Hg|]. cbn beta iota.
  fold u r. assert (u = [] /\ r = 0) as [Hu0 Hr0].
  { subst u r. replace (take (Z.to_nat prec) d') with (@nil Z) by (by rewrite Hp0). rewrite Hp0. by destruct auto. }
  specialize (Hpr k Hk). replace b with false in Hpr |- * by (unfold b; rewrite Hh, Hu0, Hr0; done).
  rewrite Hu0. exact Hpr.
Qed.
End Fixed.

(** ** Numbers *)

Context (past : list Z).
Hypothesis Hpast : Forall byte past /\ past <> [].

Lemma byte_digit c : 48 <= c < 58 -> byte c.
Proof. unfold byte. lia. Qed.

Lemma prints_dtoa v (x : F) fmt d xp (k : list Z * Z -> PM unit) u :
  decimal x (v_prec v) fmt (v_dig v) = Some (d, xp) ->
  (forall z rest, digit_chars d -> alen d = 21 -> byte z -> Forall byte rest /\ rest <> [] ->
     z = 0 \/ asked (v_prec v) fmt xp < 21 -> prints (k (d ++ z :: rest, xp)) u) ->
  prints (a ← dtoa past v x fmt; k a) u.
Proof.
  unfold decimal. destruct (fp_dtoa x (v_prec v) fmt (v_dig v)) as [[a p] xp'] eqn:Hx.
  set (d' := take 21 (drop (Z.to_nat p) a)). case_bool_decide as Hok; [|done]. intros [= Hd' ->] Hk. rewrite Hd' in *.
  change DECIMAL_DIG with 21 in *. destruct Hok as (Hl & Hd & _ & Ha).
  assert (exists z rest, drop (Z.to_nat p) a ++ past = d ++ z :: rest /\ byte z /\ (Forall byte rest /\ rest <> []) /\
    (z = 0 \/ asked (v_prec v) fmt xp < 21) /\ alen a = 23 /\ 0 <= p < 23) as (z & rest & Ha' & Hz & Hrest & Hcut & Hla & Hp).
  { clearbody d'. destruct Ha as [(-> & ->)|(-> & -> & Hlt)].
    - exists 0, past. change (drop (Z.to_nat 1) (48 :: d ++ [0])) with (d ++ [0]). rewrite <-app_assoc, alen_cons, alen_app, Hl.
      split_and!; first [done|apply Hpast|by left].
    - exists 48, (0 :: past). change (drop (Z.to_nat 0) (d ++ [48; 0])) with (d ++ [48; 0]). rewrite <-app_assoc, alen_app, Hl.
      split_and!; first [done|by constructor; [|apply Hpast]|by right]. }
  apply (prints_gives _ (d ++ z :: rest, xp)); [|by apply Hk].
  unfold dtoa. rewrite Hx. change (DECIMAL_DIG + 2) with 23. rewrite Hla. zbool. rewrite Ha'. apply gives_ret.
Qed.

(** Zero. *)
Lemma zero_fraction (hash auto : bool) prec : 0 <= prec ->
  let r := if auto then 0 else prec in
  fraction (e_point env) hash auto (digits_from [48] 0 (-1) prec) =
    if hash || negb (r =? 0) then e_point env :: rep r 48 else [].
Proof.
  intros Hp r. pose proof (fraction_right (e_point env) hash auto [48] 0 prec Hp 1 ltac:(lia)) as Hb.
  cbv zeta in Hb. change (0 - 1) with (-1) in Hb. change (drop (Z.to_nat 1) [48]) with (@nil Z) in Hb.
  rewrite take_nil in Hb. change (alen []) with 0 in Hb. rewrite Z.sub_0_r in Hb.
  replace (if auto then strip [] else []) with (@nil Z) in Hb by (by destruct auto).
  rewrite bool_decide_true, orb_false_r in Hb by done. exact Hb.
Qed.

Lemma prints_zero f v (neg b : bool) xps tx r : in_field f v -> oholds xps tx -> b = true \/ r <= 0 ->
  prints (cvt_number v None None (if b then zdot env else [48; 0]) xps 0 r true neg)
    (layout f true (sign_of f neg) [] ([48] ++ (if b then e_point env :: rep r 48 else []) ++ tx)).
Proof.
  intros Hf Hx Hb. destruct b.
  - by eapply (prints_laid f v neg None _ _ _ _ [] [48; e_point env] tx); [done|done|apply zdot_string|done|].
  - eapply (prints_laid f v neg None _ _ _ _ [] [48] tx); [done|done|apply zero_string|done|].
    rewrite (rep_neg r) by (destruct Hb; done). done.
Qed.

Lemma digits_from_len d xp k n : 0 <= n -> alen (digits_from d xp k n) = n.
Proof. intros Hn. unfold digits_from, alen. rewrite length_fmap, length_zrange. lia. Qed.

(** The counter bounds the precision of [e]. *)
Lemma exp_short f (sign : list Z) point (hash : bool) prec d xp c :
  alen (layout f true sign [] (exp_body point hash false prec d xp c)) <= INT_MAX -> prec < INT_MAX.
Proof.
  unfold layout. rewrite lay_len. cbn [app]. rewrite alen_app. unfold exp_body, fraction. rewrite !alen_app.
  pose proof (alen_nonneg sign). pose proof (alen_nonneg (until_zero (exponent c xp))). rewrite digits_from_len by lia.
  destruct (Z_lt_ge_dec 0 prec) as [Hp|Hp]; [|unfold INT_MAX; lia]. pose proof (digits_from_len d xp (xp - 1) prec ltac:(lia)) as Hl.
  rewrite bool_decide_true, orb_true_r by (intros Hnil; rewrite Hnil in Hl; change (alen []) with 0 in Hl; lia).
  rewrite alen_cons. lia.
Qed.

Section Body.
Context (f : field) (v : olocal) (prec : Z) (x : F) (neg : bool).
Hypothesis Hf : in_field f v.
Hypothesis Hprec : f_prec f = Some prec.
Local Notation p := (e_point env).

Lemma prints_cvt_fixed t :
  (if fp_is_zero x then Some (fixed_body p (f_hash f) false prec [48] 0)
   else '(d, xp) ← decimal x prec DTOA_PRINTF_F (v_dig v); Some (fixed_body p (f_hash f) false prec d xp)) = Some t ->
  prints (cvt_fixed env past v x neg) (layout f true (sign_of f neg) [] t).
Proof.
  destruct (prec_nonneg f v prec Hf Hprec) as [Hvp Hp]. unfold cvt_fixed. rewrite Hvp, (if_hash f v Hf).
  destruct (fp_is_zero x).
  - intros [= <-]. unfold fixed_body. rewrite zero_fraction by done. cbv zeta. rewrite Z.gtb_ltb.
    replace (0 <? prec) with (negb (prec =? 0)) by (destruct (Z.eqb_spec prec 0), (Z.ltb_spec 0 prec); cbn; lia).
    eapply prints_eq; [apply (prints_zero f v neg _ None [] prec Hf); [done|]|].
    + destruct (f_hash f); [by left|]. destruct (Z.eqb_spec prec 0); cbn; [right; lia|by left].
    + by rewrite app_nil_r.
  - destruct (decimal _ _ _ _) as [[d xp]|] eqn:Hd; [|done]. intros [= <-].
    eapply prints_dtoa; [by rewrite Hvp|]. intros z rest Hdc Hl Hz Hrest Hcut. cbn beta iota.
    apply prints_fixed_digits; try done. by rewrite Hvp in Hcut.
Qed.

Lemma prints_cvt_exp c t : byte c -> c <> 0 ->
  (if fp_is_zero x then Some (exp_body p (f_hash f) false prec [48] 0 c)
   else '(d, xp) ← decimal x prec DTOA_PRINTF_E (v_dig v); Some (exp_body p (f_hash f) false prec d xp c)) = Some t ->
  prints (cvt_exp env past v x neg c) (layout f true (sign_of f neg) [] t).
Proof.
  intros Hcb Hc. destruct (prec_nonneg f v prec Hf Hprec) as [Hvp Hp]. unfold cvt_exp. rewrite Hvp, (if_hash f v Hf).
  destruct (fp_is_zero x).
  - intros [= <-]. unfold exp_body. change (0 - 1) with (-1). rewrite zero_fraction by done. cbv zeta. rewrite Z.gtb_ltb.
    replace (0 <? prec) with (negb (prec =? 0)) by (destruct (Z.eqb_spec prec 0), (Z.ltb_spec 0 prec); cbn; lia).
    assert (until_zero (exponent c 0) = [c; 43; 48; 48]) as ->.
    { change (exponent c 0) with [c; 43; 48; 48; 0]. cbn [until_zero]. by rewrite (proj2 (Z.eqb_neq c 0)). }
    apply (prints_zero f v neg _ (Some [c; 43; 48; 48; 0]) [c; 43; 48; 48] prec Hf).
    + apply (holds_lit [_; _; _; _] []); [|by constructor]. constructor; [done|]. repeat constructor; by try compute.
    + destruct (f_hash f); [by left|]. destruct (Z.eqb_spec prec 0); cbn; [right; lia|by left].
  - destruct (decimal _ _ _ _) as [[d xp]|] eqn:Hd; [|done]. intros [= <-]. apply prints_short. intros Hshort.
    apply exp_short in Hshort. eapply prints_dtoa; [by rewrite Hvp|]. intros z rest Hdc Hl Hz Hrest Hcut. cbn beta iota.
    apply prints_exp_digits; try done. by rewrite Hvp in Hcut.
Qed.

(** The field with another precision. *)
Definition with_prec (q : Z) : field :=
  mk_field (f_minus f) (f_plus f) (f_blank f) (f_hash f) (f_zero f) (f_width f) (Some q).

Lemma in_field_prec_set q : 0 <= q <= INT_MAX -> in_field (with_prec q) (set_prec q v).
Proof. intros Hq. destruct Hf. split; cbn; try done. split; [lia|intros _; lia]. Qed.

(** The conversion [g]. *)
Lemma prints_cvt_auto c t : byte c -> c <> 0 ->
  (let prec := if prec =? 0 then 1 else prec in
   if fp_is_zero x then Some (fixed_body p (f_hash f) (negb (f_hash f)) (prec - 1) [48] 0)
   else '(d, xp) ← decimal x prec DTOA_PRINTF_G (v_dig v);
     if (xp <? -4) || (xp >=? prec) then Some (exp_body p (f_hash f) (negb (f_hash f)) (prec - 1) d xp c)
     else if prec - (xp + 1) <=? INT_MAX then Some (fixed_body p (f_hash f) (negb (f_hash f)) (prec - (xp + 1)) d xp)
     else None) = Some t ->
  prints (cvt_auto env past v x neg c) (layout f true (sign_of f neg) [] t).
Proof.
  intros Hcb Hc. destruct (prec_nonneg f v prec Hf Hprec) as [Hvp Hp]. unfold cvt_auto. rewrite Hvp. cbv zeta.
  assert (prec <= INT_MAX) as Hmax by (rewrite <-Hvp; apply Hf).
  set (P := if prec =? 0 then 1 else prec). set (v' := if prec =? 0 then set_prec 1 v else v).
  assert (0 < P <= INT_MAX) as HP0 by (unfold P, INT_MAX in *; destruct (Z.eqb_spec prec 0); lia).
  assert (v_prec v' = P /\ v_hash v' = f_hash f /\ v_dig v' = v_dig v) as (Hv1 & Hv2 & Hv3).
  { destruct Hf. unfold v', P. destruct (Z.eqb_spec prec 0); cbn; auto. }
  assert (forall q, 0 <= q <= INT_MAX -> in_field (with_prec q) (set_prec q v')) as Hin.
  { intros q Hq. pose proof (in_field_prec_set q Hq). unfold v'. by destruct (prec =? 0). }
  rewrite Hv1, Hv2. destruct (fp_is_zero x).
  - intros [= <-]. unfold fixed_body. rewrite zero_fraction by lia. cbv zeta.
    assert (in_field (with_prec P) v') as Hf'.
    { replace v' with (set_prec P v'); [apply Hin; lia|]. rewrite <-Hv1. by destruct v'. }
    eapply prints_eq; [apply (prints_zero (with_prec P) v' neg _ None [] _ Hf'); [done|]|].
    + destruct (f_hash f); [by left|right; lia].
    + change (layout (with_prec P)) with (layout f). rewrite app_nil_r. by destruct (f_hash f).
  - destruct (decimal _ _ _ _) as [[d xp]|] eqn:Hd; [|done]. cbn [mbind option_bind]. intros Ht.
    assert (negb (f_hash f) = true -> f_hash f = false) as Hauto by (by destruct (f_hash f)).
    eapply prints_dtoa; [by rewrite Hv1, Hv3|]. intros z rest Hdc Hl Hz Hrest Hcut. cbn beta iota. rewrite Hv1 in Hcut.
    change (asked P DTOA_PRINTF_G xp) with P in Hcut.
    destruct ((xp <? -4) || (xp >=? P)) eqn:Hexp.
    + injection Ht as <-. apply (prints_exp_digits (with_prec (P - 1)) _ (P - 1)); try done; [apply Hin; lia|lia|lia].
    + destruct (Z.leb_spec (P - (xp + 1)) INT_MAX) as [Hi|]; [|done]. injection Ht as <-.
      rewrite Z.geb_leb in Hexp. apply orb_false_iff in Hexp as [_ Hx%Z.leb_gt].
      apply prints_int; [unfold INT_MAX in *; lia|]. replace (P - (xp + 1) <? 0) with false by (symmetry; apply Z.ltb_ge; lia).
      apply (prints_fixed_digits (with_prec (P - (xp + 1))) _ (P - (xp + 1))); try done; [apply Hin; lia|lia].
Qed.
End Body.

(** Not a number, and infinity: no zeros in front. *)
Lemma prints_symbol f v str ts (neg : bool) : in_field f v -> holds str ts ->
  prints (cvt_number (set_pad SPACE v) None None str None 0 0 true neg) (layout f false (sign_of f neg) [] ts).
Proof.
  intros Hf Hs. eapply prints_eq; [by eapply (prints_cvt_number _ None None str None 0 0 true neg [] [] ts [])|].
  unfold layout. rewrite andb_false_r, <-(sign_char_of f v true neg Hf). cbn [app]. rewrite app_nil_r.
  by destruct Hf as [<- _ _ _ _ <- _ _].
Qed.

Lemma symbol_string a b c : byte a /\ a <> 0 -> byte b /\ b <> 0 -> byte c /\ c <> 0 -> holds [a; b; c; 0] [a; b; c].
Proof. intros. apply (holds_lit [_; _; _] []); [by repeat (constructor; [done|])|by constructor]. Qed.

Definition float_letter (c : Z) : Prop := c = 102 \/ c = 70 \/ c = 103 \/ c = 71 \/ c = 101 \/ c = 69.

(** The choice by the letter. *)
Lemma prints_float_body f v q y (neg : bool) c b : in_field f v -> f_prec f = Some q -> float_letter c ->
  float_body env (f_hash f) q y c (v_dig v) = Some b ->
  prints (if (c =? 102) || (c =? 70) then cvt_fixed env past v y neg
          else if c =? 103 then cvt_auto env past v y neg 101
          else if c =? 71 then cvt_auto env past v y neg 69
          else if c =? 101 then cvt_exp env past v y neg 101
          else if c =? 69 then cvt_exp env past v y neg 69
          else mfail Panic) (layout f true (sign_of f neg) [] b).
Proof.
  intros Hf Hq Hc Hb. unfold float_body in Hb.
  destruct Hc as [-> |[-> |[-> |[-> |[-> | ->]]]]]; cbn [Z.eqb Pos.eqb orb Z.land Pos.land] in *;
    lazymatch goal with
    | |- context [cvt_fixed] => apply (prints_cvt_fixed f v q y neg Hf Hq); exact Hb
    | |- context [cvt_auto] => apply (prints_cvt_auto f v q y neg Hf Hq); [by compute|done|exact Hb]
    | |- context [cvt_exp] => apply (prints_cvt_exp f v q y neg Hf Hq); [by compute|done|exact Hb]
    end.
Qed.

Lemma prints_cvt_float f v x c t : in_field f v -> float_letter c ->
  float_text env f x c (v_dig v) = Some t -> prints (cvt_float env past v x c) t.
Proof.
  intros Hf Hc Ht. unfold float_text in Ht. unfold cvt_float.
  set (q := default DEFAULT_PREC (f_prec f)) in *. set (v' := if v_prec v <? 0 then set_prec DEFAULT_PREC v else v).
  assert (in_field (with_prec f q) v' /\ v_dig v' = v_dig v) as (Hf' & Hdig).
  { unfold v', q. rewrite (in_field_prec f v Hf). pose proof (if_range f v Hf) as [Hr _].
    destruct (Z.ltb_spec (v_prec v) 0); cbn [default]; (split; [|done]).
    - by apply (in_field_prec_set f v Hf).
    - replace v with (set_prec (v_prec v) v) at 2 by (by destruct v). apply (in_field_prec_set f v Hf). unfold id. lia. }
  destruct (Z.land c 0x20 =? 0), (fp_class x); cbn [negb] in Ht |- *.
  all: try (injection Ht as <-; apply prints_symbol; [done|apply symbol_string; by compute]).
  all: destruct (float_body _ _ _ _ _ _) as [b|] eqn:Hb; [|done]; injection Ht as <-.
  all: change (layout f true) with (layout (with_prec f q) true); change (sign_of f) with (sign_of (with_prec f q)).
  all: apply (prints_float_body _ v' q); [done|done|done|]; rewrite Hdig; exact Hb.
Qed.
End Float.
