(* ===== verification/PrintfParse.v ===== *)
(** The format: the parser of [_output] reads back what [unparse] writes, and
    the local variables hold the field. *)

From S2P Require Import Prelude CStr Conv ConvFacts Stdio StdioSpec Printf PrintfSpec PrintfFacts PrintfInt PrintfDigits PrintfFloat.
#[local] Open Scope Z_scope.

(** ** Characters *)

Definition is_flag (c : Z) : bool := (c =? 45) || (c =? 43) || (c =? 48) || (c =? 32) || (c =? 35).

(** Something that does not begin with a character of [p]. *)
Definition starts (p : Z -> bool) (l : list Z) : Prop := exists c k, l = c :: k /\ p c = false.

Lemma starts_chr p l : starts p l -> p (chr l) = false.
Proof. by intros (c & k & -> & ?). Qed.

Lemma starts_cons p c k : p c = false -> starts p (c :: k).
Proof. intros Hc. by exists c, k. Qed.

(** ** The parts of a conversion *)

(** What is behind the flags, the width, the precision and the size. *)
Definition conv_end (c : cspec) (rest : list Z) : list Z := cs_conv c :: rest.
Definition size_end (c : cspec) (rest : list Z) : list Z := unparse_size (cs_size c) ++ conv_end c rest.
Definition prec_end (c : cspec) (rest : list Z) : list Z :=
  (match cs_prec c with None => [] | Some a => 46 :: unparse_amount (Some a) end) ++ size_end c rest.
Definition width_end (c : cspec) (rest : list Z) : list Z := unparse_amount (cs_width c) ++ prec_end c rest.

Lemma unparse_conv_end c rest : unparse_conv c ++ rest = (flag_char <$> cs_flags c) ++ width_end c rest.
Proof. unfold unparse_conv, width_end, prec_end, size_end, conv_end. by rewrite <-!app_assoc. Qed.

Section Ends.
Context (c : cspec) (rest : list Z).
Hypothesis Hsize : cs_size c ∈ sizes.
Hypothesis Hconv : cs_conv c ∈ conv_letters.

(** A property of all letters is checked on the list. *)
Lemma conv_check (p : Z -> bool) : forallb (fun x => negb (p x)) conv_letters = true -> p (cs_conv c) = false.
Proof. rewrite forallb_forall. intros H. apply negb_true_iff, H. by apply list_elem_of_In. Qed.

Lemma size_starts (p : Z -> bool) :
  forallb (fun x => negb (p x)) conv_letters = true -> forallb (fun x => negb (p x)) [104; 108; 76; 106; 122; 116; 113; 90] = true ->
  starts p (size_end c rest).
Proof.
  intros H1 H2. unfold size_end, conv_end. apply conv_check in H1. rewrite forallb_forall in H2.
  assert (forall x, x ∈ [104; 108; 76; 106; 122; 116; 113; 90] -> p x = false) as Hp.
  { intros x Hx. apply negb_true_iff, H2. by apply list_elem_of_In. }
  unfold sizes in Hsize. rewrite !elem_of_cons, elem_of_nil in Hsize.
  destruct Hsize as [-> |[-> |[-> |[-> |[-> |[-> |[-> |[-> |[-> |[-> |[-> |[]]]]]]]]]]]];
    cbn; apply starts_cons; first [done|apply Hp; by rewrite !elem_of_cons; tauto].
Qed.

Lemma prec_starts (p : Z -> bool) : p 46 = false ->
  forallb (fun x => negb (p x)) conv_letters = true -> forallb (fun x => negb (p x)) [104; 108; 76; 106; 122; 116; 113; 90] = true ->
  starts p (prec_end c rest).
Proof.
  intros Hp H1 H2. unfold prec_end. destruct (cs_prec c); [by apply starts_cons|]. by apply size_starts.
Qed.

Lemma digit_char_small d : 0 <= d < 10 -> digit_char d = 48 + d.
Proof. intros Hd. unfold digit_char. by zbool. Qed.

Lemma width_starts (p : Z -> bool) : width_ok (cs_width c) ->
  (forall x, 49 <= x < 58 -> p x = false) -> p 42 = false -> p 46 = false ->
  forallb (fun x => negb (p x)) conv_letters = true -> forallb (fun x => negb (p x)) [104; 108; 76; 106; 122; 116; 113; 90] = true ->
  starts p (width_end c rest).
Proof.
  intros Hw Hd Hs Hp H1 H2. unfold width_end. destruct (cs_width c) as [[|ds]|]; [by apply starts_cons| |by apply prec_starts].
  destruct Hw as (Hds & Hne & Hz). destruct Hds as [|d ds Hd0 Hds]; [done|]. cbn [unparse_amount fmap list_fmap app].
  cbn [head] in Hz. apply starts_cons. rewrite digit_char_small by done. apply Hd. assert (d <> 0) by congruence. lia.
Qed.
End Ends.

(** ** Flags *)

Definition apply_flag (v : olocal) (f : flag) : olocal :=
  match f with
  | FMinus => set_minus true v | FPlus => set_plus true v | FZero => set_pad ZERO_CH v
  | FBlank => set_blank true v | FHash => set_hash true v
  end.
Definition apply_flags : olocal -> list flag -> olocal := foldl apply_flag.

Lemma in_cons_dec (f g : flag) l : bool_decide (f ∈ g :: l) = bool_decide (f = g) || bool_decide (f ∈ l).
Proof. repeat case_bool_decide; set_solver. Qed.

Lemma apply_flags_spec fl v : let v' := apply_flags v fl in
  v_minus v' = v_minus v || bool_decide (FMinus ∈ fl) /\ v_plus v' = v_plus v || bool_decide (FPlus ∈ fl) /\
  v_blank v' = v_blank v || bool_decide (FBlank ∈ fl) /\ v_hash v' = v_hash v || bool_decide (FHash ∈ fl) /\
  v_pad v' = (if bool_decide (FZero ∈ fl) then ZERO_CH else v_pad v) /\
  v_width v' = v_width v /\ v_prec v' = v_prec v /\ v_dig v' = v_dig v.
Proof.
  revert v. induction fl as [|f fl IH]; intros v; cbn [apply_flags foldl].
  - rewrite !bool_decide_false by apply not_elem_of_nil. rewrite !orb_false_r. done.
  - destruct (IH (apply_flag v f)) as (H1 & H2 & H3 & H4 & H5 & H6 & H7 & H8). unfold apply_flags in *.
    rewrite H1, H2, H3, H4, H5, H6, H7, H8, !in_cons_dec.
    destruct f; cbn; rewrite ?orb_true_r; split_and!; try done; by destruct (bool_decide (FZero ∈ fl)).
Qed.

Section Parse.
Context {S F : Type} {HK : Sink S} {HP : SinkSpec S} {HF : LDouble F}.
Local Notation gives := (gives (S := S) (F := F)).
Implicit Types (o : ost S F).

Lemma gives_adv_1 x (l : list Z) : gives (deref (adv 1 (x :: l))) l.
Proof. rewrite adv_1. done. Qed.

Lemma gives_flags fl v x rest fuel : starts is_flag rest -> (length fl < fuel)%nat ->
  gives (flags_loop fuel v (x :: (flag_char <$> fl) ++ rest)) (apply_flags v fl, rest).
Proof.
  intros Hr. revert v x fuel. induction fl as [|f fl IH]; intros v x [|fuel] Hfuel; try (cbn in Hfuel; lia);
    cbn [flags_loop]; (eapply gives_bind; [apply gives_adv_1|]); cbv zeta.
  - change ((flag_char <$> []) ++ rest) with rest. apply starts_chr in Hr. unfold is_flag in Hr. apply orb_false_iff in Hr as [[[[-> ->]%orb_false_iff ->]%orb_false_iff ->]%orb_false_iff ->].
    done.
  - cbn [length] in Hfuel. specialize (IH (apply_flag v f) (flag_char f) fuel ltac:(lia)).
    cbn [fmap list_fmap app chr]. destruct f; cbn [flag_char Z.eqb Pos.eqb]; exact IH.
Qed.

(** ** Digits *)

Lemma number_ge_10 ds n : digits_ok ds -> 0 <= n -> n <= number 10 n ds.
Proof. intros Hd Hn. by apply (number_ge 10 n ds). Qed.

Lemma gives_number ds n rest fuel : digits_ok ds -> 0 <= n -> number 10 n ds <= INT_MAX ->
  starts is_digit rest -> (length ds < fuel)%nat ->
  gives (number_loop fuel n ((digit_char <$> ds) ++ rest)) (number 10 n ds, rest).
Proof.
  intros Hds. revert n fuel. induction Hds as [|d ds Hd Hds IH]; intros n [|fuel] Hn Hmax Hr Hfuel; try (cbn in Hfuel; lia);
    cbn [number_loop fmap list_fmap app number] in *.
  - by rewrite (starts_chr _ _ Hr).
  - cbn [chr]. rewrite digit_char_small by done. unfold is_digit. zbool. cbn [andb].
    pose proof (number_ge_10 ds (n * 10 + d) Hds ltac:(lia)) as Hge. unfold INT_MAX in Hmax.
    replace (48 + d - 48) with d by lia. rewrite (int_ok (n * 10)) by lia. eapply gives_bind; [apply gives_ret|].
    rewrite (int_ok (n * 10 + d)) by lia. eapply gives_bind; [apply gives_ret|].
    eapply gives_bind; [apply gives_adv_1|]. apply IH; [lia|done|done|cbn in Hfuel; lia].
Qed.

(** ** Width and precision *)

Definition with_args (o : ost S F) (l : list (arg F)) : ost S F := mk_ost (o_stream o) (o_count o) l (o_stores o).

Lemma with_args_same o : with_args o (o_args o) = o.
Proof. by destruct o. Qed.

Lemma run_bind_done {A B} (m : PM (S := S) (F := F) A) (k : A -> PM (S := S) (F := F) B) o a o' :
  m o = Done a o' -> (x ← m; k x) o = k a o'.
Proof. intros Hm. unfold mbind, M_bind. by rewrite Hm. Qed.

Lemma va_int_run o w l : o_args o = AInt w :: l -> va_int o = Done w (with_args o l).
Proof. intros Hl. unfold va_int, next_arg, mbind, M_bind, mget. cbn. by rewrite Hl. Qed.

Context (c : cspec) (rest : list Z).
Hypothesis Hsize : cs_size c ∈ sizes.
Hypothesis Hconv : cs_conv c ∈ conv_letters.

Definition set_amount (w : Z) (v : olocal) : olocal :=
  if w <? 0 then set_minus true (set_width (- w) v) else set_width w v.

Lemma width_run o v w args : width_ok (cs_width c) -> v_width v = 0 -> w <> - 2 ^ 31 ->
  match cs_width c with None => Some (0, o_args o) | Some a => amount_value a (o_args o) end = Some (w, args) ->
  field_width v (width_end c rest) o = Done (set_amount w v, prec_end c rest) (with_args o args).
Proof.
  intros Hok Hv Hw Ha. unfold field_width, width_end, STAR_CH.
  assert (starts is_digit (prec_end c rest)) as Hend by (by apply prec_starts).
  destruct (cs_width c) as [[|ds]|] eqn:Hc; cbn [unparse_amount app].
  - cbn [chr Z.eqb Pos.eqb]. cbn [amount_value] in Ha. destruct (o_args o) as [|[z| | | | | |] l] eqn:Hl; try done.
    injection Ha as <- <-. erewrite run_bind_done by apply gives_adv_1.
    erewrite run_bind_done by (by apply va_int_run). cbv zeta. unfold set_amount.
    pose proof (s32_range z). destruct (Z.ltb_spec (s32 z) 0); [|done].
    rewrite int_ok by lia. by erewrite run_bind_done by done.
  - destruct Hok as (Hds & Hne & Hz). cbn [amount_value] in Ha. cbv zeta in Ha.
    destruct (Z.leb_spec (number 10 0 ds) INT_MAX) as [Hle|]; [|done]. injection Ha as <- <-.
    rewrite with_args_same. replace (chr _ =? 42) with false.
    2:{ destruct Hds as [|d ds Hd Hds]; [done|]. cbn [fmap list_fmap app chr]. rewrite digit_char_small by done. symmetry.
        apply Z.eqb_neq. lia. }
    erewrite run_bind_done; [|rewrite Hv; apply gives_number; try done].
    2:{ rewrite length_app, length_fmap. lia. }
    pose proof (number_ge_10 ds 0 Hds ltac:(lia)). unfold set_amount. by replace (number 10 0 ds <? 0) with false by (symmetry; apply Z.ltb_ge; lia).
  - injection Ha as <- <-. rewrite with_args_same.
    assert (starts (fun x => x =? 42) (prec_end c rest)) as Hs by (by apply prec_starts).
    apply starts_chr in Hs. rewrite Hs.
    pose proof (gives_number [] 0 (prec_end c rest) (Datatypes.S (length (prec_end c rest)))) as Hg. cbn in Hg.
    rewrite Hv. erewrite run_bind_done; [|apply Hg; [by constructor|done|by compute|done|lia]]. done.
Qed.

(** The precision of a conversion, and its arguments. *)
Definition prec_value (args : list (arg F)) : option (option Z * list (arg F)) :=
  match cs_prec c with
  | None => Some (None, args)
  | Some a => '(p, args) ← amount_value a args; Some (if p <? 0 then None else Some p, args)
  end.

Lemma prec_run o v p args : prec_ok (cs_prec c) -> v_prec v = -1 -> prec_value (o_args o) = Some (p, args) ->
  precision v (prec_end c rest) o = Done (set_prec (default (-1) p) v, size_end c rest) (with_args o args) /\
  -1 <= default (-1) p <= INT_MAX /\ (p <> None -> 0 <= default (-1) p).
Proof.
  intros Hok Hv Ha. unfold precision, prec_end, prec_value, STAR_CH in *.
  destruct (cs_prec c) as [a|].
  - rewrite <-app_comm_cons. set (l := unparse_amount (Some a) ++ size_end c rest).
    change (chr (46 :: l) =? 46) with true. cbv iota.
    erewrite run_bind_done by apply gives_adv_1. subst l. destruct a as [|ds]; cbn [amount_value unparse_amount app] in *.
    + destruct (o_args o) as [|[z| | | | | |] l] eqn:Hl; try done. cbn [mbind option_bind] in Ha. injection Ha as <- <-.
      cbn [chr Z.eqb Pos.eqb]. erewrite run_bind_done by apply gives_adv_1.
      erewrite run_bind_done by (by apply va_int_run). cbv zeta. pose proof (s32_range z). unfold INT_MAX.
      destruct (Z.ltb_spec (s32 z) 0); cbn; unfold id; split_and!; first [done|lia|by intros []].
    + cbv zeta in Ha. destruct (Z.leb_spec (number 10 0 ds) INT_MAX) as [Hle|]; [|done]. cbn [mbind option_bind] in Ha.
      pose proof (number_ge_10 ds 0 Hok ltac:(lia)) as Hge. replace (number 10 0 ds <? 0) with false in Ha by (symmetry; apply Z.ltb_ge; lia).
      injection Ha as <- <-. rewrite with_args_same.
      assert (chr ((digit_char <$> ds) ++ size_end c rest) =? 42 = false) as ->.
      { destruct Hok as [|d ds Hd Hds]; [by apply (starts_chr (fun x => x =? 42)), size_starts|].
        cbn [fmap list_fmap app chr]. rewrite digit_char_small by done. apply Z.eqb_neq. lia. }
      erewrite run_bind_done; [|apply gives_number; try done; [by apply size_starts|rewrite length_app, length_fmap; lia]].
      cbn. unfold id. split_and!; first [done|lia].
  - injection Ha as <- <-. rewrite with_args_same.
    rewrite (starts_chr (fun x => x =? 46)) by (by apply size_starts). cbn. rewrite <-Hv. unfold INT_MAX. split_and!; first [lia|by intros []|by destruct v].
Qed.

(** The size. *)
Lemma gives_size : gives (size_of (size_end c rest)) (cs_size c, conv_end c rest).
Proof.
  pose proof (conv_check c Hconv is_size eq_refl) as Hn. pose proof (conv_check c Hconv (fun x => x =? 104) eq_refl) as Hh.
  pose proof (conv_check c Hconv (fun x => x =? 108) eq_refl) as Hl. cbn beta in Hh, Hl.
  unfold size_of, size_end, conv_end. unfold sizes in Hsize. rewrite !elem_of_cons, elem_of_nil in Hsize.
  destruct Hsize as [-> |[-> |[-> |[-> |[-> |[-> |[-> |[-> |[-> |[-> |[-> |[]]]]]]]]]]]].
  1: { cbn -[is_size]. by rewrite Hn. }
  1-8: cbn -[adv]; (eapply gives_bind; [apply gives_adv_1|]); cbn; rewrite ?Hl, ?Hh; done.
  all: cbn -[adv]; (eapply gives_bind; [apply gives_adv_1|]); cbn -[adv]; (eapply gives_bind; [apply gives_adv_1|]); done.
Qed.

(** ** The field *)

Definition has (x : flag) : bool := bool_decide (x ∈ cs_flags c).

(** The local variables after the flags. *)
Definition flag_vars : olocal :=
  let v := apply_flags (mk_v false false false false SPACE 0 (-1) 0) (cs_flags c) in if v_minus v then set_pad SPACE v else v.

Lemma field_run o f args : width_ok (cs_width c) -> prec_ok (cs_prec c) -> field_of c (o_args o) = Some (f, args) ->
  exists v1 o1 v, in_field f v /\
    field_width flag_vars (width_end c rest) o = Done (v1, prec_end c rest) o1 /\
    precision v1 (prec_end c rest) o1 = Done (v, size_end c rest) (with_args o args).
Proof.
  intros Hw Hp Hf. unfold field_of in Hf. fold (has FMinus) (has FPlus) (has FBlank) (has FHash) (has FZero) in Hf.
  destruct (match cs_width c with None => _ | Some a => _ end) as [[w args1]|] eqn:Hwv; [|done].
  cbn [mbind option_bind] in Hf. destruct (Z.eqb_spec w (- 2 ^ 31)) as [|Hne]; [done|].
  destruct (match cs_prec c with None => _ | Some a => _ end) as [[p args2]|] eqn:Hpv; [|done].
  cbn [mbind option_bind] in Hf. injection Hf as <- <-.
  destruct (apply_flags_spec (cs_flags c) (mk_v false false false false SPACE 0 (-1) 0)) as (H1 & H2 & H3 & H4 & H5 & H6 & H7 & _).
  set (v0 := apply_flags _ _) in *. cbn in H1, H2, H3, H4, H5, H6, H7.
  assert (v_width flag_vars = 0 /\ v_prec flag_vars = -1) as [Hv1 Hv2].
  { unfold flag_vars. fold v0. by destruct (v_minus v0). }
  exists (set_amount w flag_vars), (with_args o args1), (set_prec (default (-1) p) (set_amount w flag_vars)).
  destruct (prec_run (with_args o args1) (set_amount w flag_vars) p args2 Hp) as (Hrun & Hr1 & Hr2);
    [unfold set_amount; by destruct (w <? 0)|done|].
  split_and!; [|by apply width_run|exact Hrun].
  - split; try done.
    all: unfold set_amount, flag_vars; fold v0; destruct (Z.ltb_spec w 0), (v_minus v0) eqn:Hm; cbn; rewrite ?H2, ?H3, ?H4, ?H5;
      unfold has; rewrite <-?H1; try done; try lia; by destruct (bool_decide (FZero ∈ cs_flags c)).
Qed.
End Parse.
