(* ===== verification/PrintfOutput.v ===== *)
(** [_output] prints what [render] says: the conversions with their arguments,
    and the loop over the format. *)

From S2P Require Import Prelude CStr Conv ConvFacts Stdio StdioSpec Printf PrintfSpec PrintfFacts PrintfInt PrintfDigits PrintfFloat PrintfParse.
#[local] Open Scope Z_scope.

Lemma s8_range z : - 128 <= s8 z < 128.
Proof. unfold s8. pose proof (Z.mod_pos_bound (z + 128) 256). lia. Qed.

Lemma s64_range z : - 2 ^ 63 <= s64 z < 2 ^ 63.
Proof. unfold s64. pose proof (Z.mod_pos_bound (z + 2 ^ 63) (2 ^ 64)). lia. Qed.

Lemma u64_range z : 0 <= u64 z < 2 ^ 64.
Proof. unfold u64. apply Z.mod_pos_bound. lia. Qed.

Lemma uchar_range z : byte (uchar z).
Proof. unfold uchar, byte. pose proof (Z.mod_pos_bound z 256). lia. Qed.

Lemma int_text_abs f sign prefix n ds : int_text f sign prefix (Z.abs n) ds = int_text f sign prefix n ds.
Proof. unfold int_text. by replace (Z.abs n =? 0) with (n =? 0) by (destruct (Z.eqb_spec n 0), (Z.eqb_spec (Z.abs n) 0); lia). Qed.

(** The floating point conversions write a byte behind [digits]. *)
Definition overruns (d : directive) : Prop := match d with Conversion c => float_letter (cs_conv c) | _ => False end.
Definition past_ok (past : list Z) (ds : list directive) : Prop :=
  Forall byte past /\ (past = [] -> Forall (fun d => ~ overruns d) ds).

Lemma past_ok_each (past : list Z) ds : past_ok past ds -> Forall byte past /\ Forall (fun d => overruns d -> past <> []) ds.
Proof.
  intros [Hb Hno]. split; [done|]. destruct past; [|by apply Forall_true].
  eapply Forall_impl; [by apply Hno|]. done.
Qed.

Section Output.
Context {S F : Type} {HK : Sink S} {HP : SinkSpec S} {HF : LDouble F} (env : penv) (Henv : penv_ok env).
Context (past : list Z) (Hpast : Forall byte past).
Local Notation prints := (prints (S := S) (F := F)).
Local Notation PM := (PM (S := S) (F := F)).
Implicit Types (o : ost S F) (a : arg F).

(** ** Arguments *)

(** The computation consumes the argument [a], and prints [t]. *)
Definition uses a (m : PM unit) (t : list Z) : Prop := forall o l (Q : unit -> ost S F -> Prop),
  o_args o = a :: l -> room o (alen t) -> (forall o', after (with_args o l) t o' -> Q tt o') -> wp m Q gave_up o.

(** The computation gives the value of the argument. *)
Definition takes {A} (m : PM A) a (x : A) : Prop := forall o l, o_args o = a :: l -> m o = Done x (with_args o l).

Lemma uses_takes {A} (m : PM A) (k : A -> PM unit) a x t : takes m a x -> prints (k x) t -> uses a (y ← m; k y) t.
Proof.
  intros Hm Hk o l Q Hl Hr HQ. eapply wp_run_bind; [by apply Hm|]. by apply Hk.
Qed.

Ltac solve_takes := intros o l Hl; unfold va_int, va_llong, va_ptr, va_str, va_wstr, va_double, va_ldouble, next_arg, mbind, M_bind, mget; cbn; by rewrite Hl.
Lemma takes_int w : takes va_int (AInt w) w.
Proof. solve_takes. Qed.
Lemma takes_llong w : takes va_llong (ALong w) w.
Proof. solve_takes. Qed.
Lemma takes_ptr w : takes va_ptr (APtr w) w.
Proof. solve_takes. Qed.
Lemma takes_str w : takes va_str (AStr w) w.
Proof. solve_takes. Qed.
Lemma takes_wstr w : takes va_wstr (AWstr w) w.
Proof. solve_takes. Qed.
Lemma takes_double w : takes va_double (ADouble w) w.
Proof. solve_takes. Qed.
Lemma takes_ldouble w : takes va_ldouble (ALongDouble w) w.
Proof. solve_takes. Qed.

Lemma takes_unsigned size w : takes (va_unsigned size) (AInt w) (unsigned_value size w).
Proof.
  intros o l Hl. unfold va_unsigned. erewrite run_bind_done by (by apply takes_int).
  unfold unsigned_value. cbv zeta. by destruct (size =? 104), (size =? SIZE_HH).
Qed.

(** ** Integers *)

Lemma signed_value_range size w : - 2 ^ 31 <= signed_value size w < 2 ^ 31.
Proof.
  unfold signed_value. pose proof (s16_range (s32 w)). pose proof (s8_range (s32 w)). pose proof (s32_range w).
  destruct (size =? 104), (size =? SIZE_HH); lia.
Qed.

Lemma unsigned_value_range size w : 0 <= unsigned_value size w < 2 ^ 32.
Proof.
  unfold unsigned_value. pose proof (u16_range (u32 w)). pose proof (uchar_range (u32 w)) as Hc. pose proof (u32_range w).
  unfold byte in Hc. destruct (size =? 104), (size =? SIZE_HH); lia.
Qed.

Lemma uses_signed f v size a n : in_field f v -> signed_arg size a = Some n -> uses a (cvt_signed v size) (dec_text f true n).
Proof.
  intros Hf Ha. unfold cvt_signed, signed_arg in *. destruct a as [w|w| | | | |]; destruct (IS_SIZE_64BIT size) eqn:Hs; try done;
    injection Ha as <-; (eapply uses_takes; [apply takes_int || apply takes_llong|]); cbv zeta.
  - change (if size =? 104 then s16 (s32 w) else if size =? SIZE_HH then s8 (s32 w) else s32 w) with (signed_value size w).
    pose proof (signed_value_range size w). set (n := signed_value size w) in *.
    unfold dec_text. rewrite <-int_text_abs. destruct (Z.ltb_spec n 0).
    + rewrite Z.abs_neq, u32_small by lia. apply (prints_dec_32 f v (- n) true true Hf). lia.
    + rewrite Z.abs_eq by lia. apply (prints_dec_32 f v n true false Hf). lia.
  - pose proof (s64_range w). set (n := s64 w) in *.
    unfold dec_text. rewrite <-int_text_abs. destruct (Z.ltb_spec n 0).
    + rewrite Z.abs_neq, u64_small by lia. apply (prints_dec_64 f v (- n) true true Hf). lia.
    + rewrite Z.abs_eq by lia. apply (prints_dec_64 f v n true false Hf). lia.
Qed.

(** The conversions of unsigned numbers. *)
Lemma uses_unsigned size a n (m64 m32 : Z -> PM unit) t : unsigned_arg size a = Some n ->
  (0 <= n < 2 ^ 64 -> prints (m64 n) t) -> (0 <= n < 2 ^ 32 -> prints (m32 n) t) ->
  uses a (if IS_SIZE_64BIT size then n ← va_llong; m64 (u64 n) else n ← va_unsigned size; m32 n) t.
Proof.
  intros Ha H64 H32. unfold unsigned_arg in Ha. destruct a as [w|w| | | | |]; destruct (IS_SIZE_64BIT size); try done;
    injection Ha as <-.
  - eapply uses_takes; [apply takes_unsigned|]. apply H32, unsigned_value_range.
  - eapply uses_takes; [apply takes_llong|]. apply H64, u64_range.
Qed.

(** ** The conversions *)

Lemma wide_negb size : negb (size =? 108) && negb (size =? 76) = negb (is_wide size).
Proof. unfold is_wide. by rewrite negb_orb. Qed.

Lemma uses_float f v size c a t : in_field f v -> float_letter c -> past <> [] ->
  match a with
  | ADouble x => if size =? 76 then None else float_text env f x c DBL_DIG
  | ALongDouble x => if size =? 76 then float_text env f x c LDBL_DIG else None
  | _ => None
  end = Some t ->
  uses a (if size =? 76 then x ← va_ldouble; cvt_float env past (set_dig LDBL_DIG v) x c
          else x ← va_double; cvt_float env past (set_dig DBL_DIG v) x c) t.
Proof.
  intros Hf Hc Hne Ht. assert (forall d, in_field f (set_dig d v)) as Hd by (intros d; by destruct Hf).
  destruct a as [| | | | |x|x]; try done; destruct (size =? 76); try done.
  - eapply uses_takes; [apply takes_double|]. by apply (prints_cvt_float env Henv past (conj Hpast Hne) f).
  - eapply uses_takes; [apply takes_ldouble|]. by apply (prints_cvt_float env Henv past (conj Hpast Hne) f).
Qed.

Lemma uses_char f v a t (wide : bool) : in_field f v ->
  match a with AInt w => if wide then wide_char_text env f (u16 w) else Some (pad_text f 1 [uchar w]) | _ => None end = Some t ->
  uses a (if negb wide then n ← va_int; cvt_str (set_prec 1 v) (Some [uchar n]) 1
          else n ← va_int; cvt_wstr env (set_prec 1 v) (Some [u16 n]) 1) t.
Proof.
  intros Hf Ht. destruct a as [w| | | | | |]; try done. destruct wide; cbn [negb]; (eapply uses_takes; [apply takes_int|]).
  - by apply (prints_cvt_wchar env Henv f).
  - injection Ht as <-. apply prints_cvt_char; [done|apply uchar_range].
Qed.

Lemma uses_str f v a t : in_field f v -> arg_ok a ->
  match a with AStr s => str_text f s | _ => None end = Some t -> uses a (str ← va_str; cvt_str v str (-1)) t.
Proof.
  intros Hf Ha Ht. destruct a as [| |s| | | |]; try done. eapply uses_takes; [apply takes_str|].
  apply (prints_cvt_str f); [done|by destruct s|done].
Qed.

Lemma uses_wstr f v a t : in_field f v ->
  match a with AWstr s => wide_text env f s | _ => None end = Some t -> uses a (str ← va_wstr; cvt_wstr env v str (-1)) t.
Proof.
  intros Hf Ht. destruct a as [| | |s| | |]; try done. eapply uses_takes; [apply takes_wstr|].
  by apply (prints_cvt_wstr env Henv f).
Qed.

Lemma uses_convert f v size c rest a t :
  in_field f v -> c ∈ conv_letters -> c <> 110 -> c <> 109 -> (float_letter c -> past <> []) -> arg_ok a ->
  arg_text env f size c a = Some t ->
  uses a (convert env past v size (c :: rest)) t.
Proof.
  intros Hf Hc Hn Hm Hroom Ha Ht. unfold convert. change (chr (c :: rest)) with c. unfold conv_letters in Hc. rewrite !elem_of_cons, elem_of_nil in Hc.
  destruct Hc as [Hc|[-> |[-> |[-> |[-> |[-> |[-> |[-> |[-> |[-> |[-> |[-> |Hc]]]]]]]]]]]]; [done|..];
    unfold arg_text in Ht; rewrite <-?andb_assoc, ?wide_negb; cbn [Z.eqb Pos.eqb orb andb] in *.
  - by apply (uses_char f).
  - by apply (uses_char f v a t true).
  - destruct (is_wide size); cbn [negb].
    + apply (uses_wstr f); [done|by destruct a].
    + apply (uses_str f); [done|done|by destruct a].
  - by apply (uses_wstr f).
  - destruct (signed_arg size a) as [n|] eqn:Hn'; [|done]. injection Ht as <-. by apply uses_signed.
  - destruct (signed_arg size a) as [n|] eqn:Hn'; [|done]. injection Ht as <-. by apply uses_signed.
  - destruct (unsigned_arg size a) as [n|] eqn:Hn'; [|done]. injection Ht as <-.
    eapply (uses_unsigned size a n (fun n => cvt_dec_64 v n false false)); [done|..]; intros Hr; unfold dec_text;
      rewrite Z.abs_eq by lia; [by apply (prints_dec_64 f v n false false)|by apply (prints_dec_32 f v n false false)].
  - destruct a as [| | | |w| |]; try done. injection Ht as <-. eapply uses_takes; [apply takes_ptr|].
    apply (prints_hex_32 env Henv (with_hash f) _ _ 120); [by apply in_field_hash|by left|apply u32_range].
  - destruct (unsigned_arg size a) as [n|] eqn:Hn'; [|done]. injection Ht as <-.
    eapply (uses_unsigned size a n (fun n => cvt_hex_64 env v n 120)); [done|..]; intros Hr;
      [by apply (prints_hex_64 env Henv f v n 120); auto|by apply (prints_hex_32 env Henv f v n 120); auto].
  - destruct (unsigned_arg size a) as [n|] eqn:Hn'; [|done]. injection Ht as <-.
    eapply (uses_unsigned size a n (fun n => cvt_hex_64 env v n 88)); [done|..]; intros Hr;
      [by apply (prints_hex_64 env Henv f v n 88); auto|by apply (prints_hex_32 env Henv f v n 88); auto].
  - destruct (unsigned_arg size a) as [n|] eqn:Hn'; [|done]. injection Ht as <-.
    eapply (uses_unsigned size a n (fun n => cvt_oct_64 v n)); [done|..]; intros Hr;
      [by apply prints_oct_64|by apply prints_oct_32].
  - assert (float_letter c) as Hl by (unfold float_letter; destruct Hc as [?|[?|[?|[?|[?|[?|[?|[]]]]]]]]; tauto).
    specialize (Hroom Hl). destruct Hl as [-> |[-> |[-> |[-> |[-> | ->]]]]]; cbn [Z.eqb Pos.eqb orb andb] in *; apply (uses_float f); try done;
      unfold float_letter; tauto.
Qed.

(** ** The loop *)

(** [o'] is [o] behind the text [t] and the stores [st]. *)
Record ends o (t : list Z) (st : list (Z * Z * Z)) o' : Prop := {
  en_wrote : sk_wrote (o_stream o) t (o_stream o');
  en_count : o_count o' = o_count o + alen t;
  en_stores : o_stores o' = o_stores o ++ st
}.

Lemma ends_after o l t o1 u st o' : room o (alen t + alen u) -> after (with_args o l) t o1 -> ends o1 u st o' -> ends o (t ++ u) st o'.
Proof.
  intros (Hok & _) [A2 A3 A4 A5] [B2 B3 B4]. cbn in A2, A3, A4, A5.
  split; [by eapply sk_wrote_app|rewrite alen_app; lia|congruence].
Qed.

Lemma wp_put_char s rest o (Q : list Z -> ost S F -> Prop) : Forall byte s -> room o (alen s) ->
  (forall o', after o s o' -> Q rest o') -> wp (put_char (length s) (s ++ rest)) Q gave_up o.
Proof.
  intros Hs. revert o Q. induction Hs as [|c s Hc Hs IH]; intros o Q Hr HQ; cbn [length put_char app chr].
  - apply wp_ret, HQ. by eapply after_nil.
  - rewrite alen_cons in Hr. pose proof (alen_nonneg s). apply wp_bind, (prints_PUTC c Hc).
    { eapply room_le; [done|]. change (alen [c]) with 1. lia. }
    intros o1 H1. eapply wp_run_bind; [by apply gives_adv_1|]. apply IH.
    { eapply (after_room o [c]); [|done|done]. change (alen [c]) with 1. by rewrite Z.add_comm. }
    intros o2 H2. apply HQ. apply (after_app o [c] o1 s o2); [by rewrite Z.add_comm|done|done].
Qed.

Lemma store_count_run o bytes conv p l : o_args o = APtr p :: l ->
  store_count bytes conv o = Done tt (mk_ost (o_stream o) (o_count o) l (o_stores o ++ [(p, bytes, conv (o_count o))])).
Proof. intros Hl. unfold store_count. rewrite (run_bind_done va_ptr _ o p (with_args o l)); [done|by apply takes_ptr]. Qed.

Lemma store_run o size rest v p l : o_args o = APtr p :: l ->
  convert env past v size (110 :: rest) o =
    Done tt (mk_ost (o_stream o) (o_count o) l (o_stores o ++ [count_store size (o_count o) p])).
Proof.
  intros Hl. unfold convert. change (chr (110 :: rest) =? 110) with true. cbv iota zeta. unfold count_store.
  destruct (IS_SIZE_64BIT size); [|destruct (IS_SIZE_16BIT size); [|destruct (IS_SIZE_8BIT size)]];
    by apply store_count_run.
Qed.

(** The end of the loop's body for a conversion: where the format begins again. *)
Lemma chr1_conv c rest : width_ok (cs_width c) -> cs_size c ∈ sizes -> cs_conv c ∈ conv_letters ->
  exists x k, unparse_conv c ++ rest = x :: k /\ x <> 37.
Proof.
  intros Hw Hs Hc. rewrite unparse_conv_end. destruct (cs_flags c) as [|f fl].
  - destruct (width_starts c rest Hs Hc (fun x => x =? 37) Hw) as (x & k & Hx & Hp); try done.
    { intros x Hx. apply Z.eqb_neq. lia. }
    exists x, k. split; [done|by apply Z.eqb_neq].
  - eexists _, _. split; [done|]. by destruct f.
Qed.

Lemma field_of_args c args f args' : field_of c args = Some (f, args') -> Forall (arg_ok (F := F)) args -> Forall arg_ok args'.
Proof.
  assert (forall am l z l', amount_value am l = Some (z, l') -> Forall (arg_ok (F := F)) l -> Forall arg_ok l') as Ham.
  { intros [|ds] l z l'; cbn.
    - destruct l as [|[w| | | | | |] l]; try done. intros [= <- <-] Hl. by apply Forall_cons in Hl as [_ ?].
    - destruct (_ <=? _); [|done]. by intros [= <- <-]. }
  unfold field_of. intros Hf Hargs.
  destruct (match cs_width c with None => _ | Some a => _ end) as [[w args1]|] eqn:Hw; [|done].
  cbn [mbind option_bind] in Hf. destruct (w =? _); [done|].
  assert (Forall arg_ok args1) as Hargs1.
  { destruct (cs_width c) as [am|]; [by eapply Ham|by injection Hw as <- <-]. }
  destruct (cs_prec c) as [am|]; [|by injection Hf as <- <-].
  destruct (amount_value am args1) as [[p args2]|] eqn:Hp; [|done]. cbn [mbind option_bind] in Hf.
  injection Hf as <- <-. by eapply Ham.
Qed.

(** From the percent sign to the letter of the conversion. *)
Lemma wp_conversion c rest f args fuel o (Q : Z -> ost S F -> Prop) :
  width_ok (cs_width c) -> prec_ok (cs_prec c) -> cs_size c ∈ sizes -> cs_conv c ∈ conv_letters ->
  field_of c (o_args o) = Some (f, args) ->
  (forall v, in_field f v ->
     wp (_ ← convert env past v (cs_size c) (cs_conv c :: rest); output_loop env past fuel rest) Q gave_up (with_args o args)) ->
  wp (output_loop env past (Datatypes.S fuel) (37 :: unparse_conv c ++ rest)) Q gave_up o.
Proof.
  intros Hw Hp Hs Hc Hf Hk. cbn [output_loop]. change (chr (37 :: unparse_conv c ++ rest)) with 37.
  change (37 =? 0) with false. change (negb (37 =? PERCENT)) with false. cbv iota.
  destruct (chr1_conv c rest Hw Hs Hc) as (x & k & Hx & Hne). rewrite chr1_cons.
  eapply wp_run_bind; [by apply gives_ret|]. replace (chr (unparse_conv c ++ rest) =? PERCENT) with false
    by (rewrite Hx; symmetry; by apply Z.eqb_neq).
  rewrite unparse_conv_end. eapply wp_run_bind.
  { apply gives_flags; [apply width_starts; try done; intros y Hy; unfold is_flag; by zbool|]. cbn [length]. rewrite length_app, length_fmap. lia. }
  cbv beta iota zeta. fold (flag_vars c).
  destruct (field_run c rest Hs Hc o f args Hw Hp Hf) as (v1 & o1 & v & Hv & H1 & H2).
  eapply wp_run_bind; [exact H1|]. cbv beta iota. eapply wp_run_bind; [exact H2|]. cbv beta iota.
  eapply wp_run_bind; [by apply gives_size|]. cbv beta iota. unfold conv_end.
  change (chr (cs_conv c :: rest)) with (cs_conv c). rewrite (conv_check c Hc (fun x => x =? 0) eq_refl).
  apply wp_bind. eapply wp_conseq; [exact (wp_bind_inv _ _ _ _ _ (Hk v Hv))| |done].
  cbn beta. intros [] o2 Ho2. by eapply wp_run_bind; [apply gives_adv_1|].
Qed.

(** [_output] without [return -1]. *)
Lemma wp_output_loop ds : Forall (fun d => directive_ok env d /\ (overruns d -> past <> [])) ds -> forall fuel o t st (Q : Z -> ost S F -> Prop),
  Forall arg_ok (o_args o) -> render env ds (o_args o) (o_count o) = Some (t, st) -> room o (alen t) ->
  (length (unparse ds) < fuel)%nat -> (forall o', ends o t st o' -> Q (o_count o') o') ->
  wp (output_loop env past fuel (unparse ds)) Q gave_up o.
Proof.
  induction 1 as [|d ds [Hd Hroom] Hds IH]; intros [|fuel] o t st Q Hargs Ht Hr Hfuel HQ; try lia.
  { injection Ht as <- <-. apply wp_gets, HQ. split; [apply sk_wrote_nil, Hr|rewrite alen_nil; lia|by rewrite app_nil_r]. }
  change (unparse (d :: ds)) with (unparse1 d ++ unparse ds) in *. rewrite length_app in Hfuel.
  (* what follows a text *)
  assert (forall o1 l t0 t1 st1, after (with_args o l) t0 o1 -> Forall arg_ok (o_args o1) ->
    render env ds (o_args o1) (o_count o1) = Some (t1, st1) -> t = t0 ++ t1 -> st = st1 ->
    (length (unparse ds) < fuel)%nat -> wp (output_loop env past fuel (unparse ds)) Q gave_up o1) as Hnext.
  { intros o1 l t0 t1 st1 Ho1 Ha1 Hr1 -> -> Hf1. rewrite alen_app in Hr. apply (IH fuel o1 t1 st1); try done.
    - by eapply (after_room (with_args o l)); [exact Hr|apply alen_nonneg|].
    - intros o2 Ho2. apply HQ. by eapply ends_after. }
  destruct d as [ch| |c].
  - destruct Hd as (c & k & Hch & Hc0 & Hc37 & Hb & Hlen). cbn [render] in Ht.
    destruct (render env ds (o_args o) (o_count o + alen ch)) as [[t1 st1]|] eqn:Ht1; [|done]. injection Ht as Ht Hst.
    cbn [output_loop unparse1]. replace (chr (ch ++ unparse ds)) with c by (by rewrite Hch).
    rewrite (proj2 (Z.eqb_neq c 0)), (proj2 (Z.eqb_neq c PERCENT)) by done. cbv zeta. rewrite <-Hlen. cbn [negb].
    apply wp_bind. replace (Z.to_nat (alen ch)) with (length ch) by (unfold alen; lia).
    apply wp_put_char; [done|eapply room_le; [exact Hr|rewrite <-Ht, alen_app; pose proof (alen_nonneg t1); pose proof (alen_nonneg ch); lia]|].
    intros o1 Ho1. apply (Hnext o1 (o_args o) ch t1 st1); try done.
    + by rewrite with_args_same.
    + by rewrite (a_args _ _ _ Ho1).
    + by rewrite (a_args _ _ _ Ho1), (a_count _ _ _ Ho1).
    + cbn [unparse1] in Hfuel. rewrite Hch in Hfuel. cbn in Hfuel. lia.
  - cbn [render] in Ht. destruct (render env ds (o_args o) (o_count o + 1)) as [[t1 st1]|] eqn:Ht1; [|done].
    injection Ht as Ht Hst. cbn [output_loop unparse1 app]. change (chr (37 :: 37 :: unparse ds)) with 37.
    change (37 =? 0) with false. change (37 =? PERCENT) with true. cbn [negb]. rewrite chr1_cons.
    eapply wp_run_bind; [by apply gives_ret|]. change (chr (37 :: unparse ds) =? PERCENT) with true. cbv iota.
    apply wp_bind, (prints_PUTC PERCENT); [by compute|eapply room_le; [exact Hr|rewrite <-Ht; change (alen [PERCENT]) with 1; rewrite (alen_cons 37 t1); pose proof (alen_nonneg t1); lia]|].
    intros o1 Ho1. rewrite adv_2. eapply wp_run_bind; [by apply gives_ret|]. apply (Hnext o1 (o_args o) [PERCENT] t1 st1); try done.
    + by rewrite with_args_same.
    + by rewrite (a_args _ _ _ Ho1).
    + by rewrite (a_args _ _ _ Ho1), (a_count _ _ _ Ho1).
    + cbn [unparse1 length] in Hfuel. lia.
  - destruct Hd as (Hw & Hp & Hs & Hc). cbn [render] in Ht. cbn [unparse1 app].
    destruct (field_of c (o_args o)) as [[f args]|] eqn:Hf; [|done]. cbn [mbind option_bind] in Ht.
    pose proof (field_of_args _ _ _ _ Hf Hargs) as Hargs1.
    apply (wp_conversion c (unparse ds) f args fuel o Q Hw Hp Hs Hc Hf). intros v Hv. apply wp_bind.
    assert (length (unparse ds) < fuel)%nat as Hf1 by (cbn [unparse1 length] in Hfuel; lia).
    destruct (Z.eqb_spec (cs_conv c) 110) as [Hn|Hn]; [|destruct (Z.eqb_spec (cs_conv c) 109) as [Hm|Hm]].
    + destruct args as [|[| | | |p| |] args]; try done.
      destruct (render env ds args (o_count o)) as [[t1 st1]|] eqn:Ht1; [|done]. injection Ht as <- <-.
      rewrite Hn. unfold wp at 1. rewrite (store_run _ _ _ _ p args) by done. cbn beta iota.
      apply Forall_cons in Hargs1 as [_ Hargs1]. apply (IH fuel _ t1 st1); try done.
      intros o2 [B2 B3 B4]. apply HQ. split; try done. rewrite B4. cbn. by rewrite <-app_assoc.
    + destruct (str_text f (Some (e_strerror env))) as [t0|] eqn:Ht0; [|done]. cbn [mbind option_bind] in Ht.
      destruct (render env ds args (o_count o + alen t0)) as [[t1 st1]|] eqn:Ht1; [|done]. injection Ht as Ht Hst.
      rewrite Hm. change (convert env past v (cs_size c) (109 :: unparse ds)) with (cvt_str v (Some (e_strerror env)) (-1) : PM unit).
      apply (prints_cvt_str f v (Some (e_strerror env)) t0 Hv (po_error env Henv) Ht0).
      { eapply room_le; [exact Hr|rewrite <-Ht, alen_app; pose proof (alen_nonneg t1); pose proof (alen_nonneg t0); lia]. }
      intros o1 Ho1. pose proof Ho1 as [_ C3 C4 _]. apply (Hnext o1 args t0 t1 st1); try done; [by rewrite C4|by rewrite C4, C3].
    + destruct args as [|a args]; [done|].
      destruct (arg_text env f (cs_size c) (cs_conv c) a) as [t0|] eqn:Ht0; [|done]. cbn [mbind option_bind] in Ht.
      destruct (render env ds args (o_count o + alen t0)) as [[t1 st1]|] eqn:Ht1; [|done]. injection Ht as Ht Hst.
      apply Forall_cons in Hargs1 as [Ha Hargs1].
      apply (uses_convert f v _ _ _ a t0 Hv Hc Hn Hm Hroom Ha Ht0 _ args); [done| |].
      { eapply room_le; [exact Hr|rewrite <-Ht, alen_app; pose proof (alen_nonneg t1); pose proof (alen_nonneg t0); lia]. }
      intros o1 Ho1. pose proof Ho1 as [_ C3 C4 _]. apply (Hnext o1 args t0 t1 st1); try done; [by rewrite C4|by rewrite C4, C3].
Qed.
End Output.
