(* ===== verification/PrintfSinks.v ===== *)
(** The streams that [_output] prints on keep the promise of [SinkSpec]: the
    streams of [Stdio.v] on disk files, and those of [sprintf] and [snprintf]. *)

From S2P Require Import Prelude CStr Conv ConvFacts Stdio StdioSpec StdioRead StdioWrite Printf PrintfSpec PrintfFacts.
#[local] Open Scope Z_scope.

(** ** Streams on files *)

#[export] Instance stdio_sink {H : Type} `{Handle H} : Sink (stream H) := {
  sk_putc := putc;
  sk_fwrite d := fwrite_unlocked d 1 (alen d)
}.

Section OnFile.
Context {H : Type} `{HD : DiskFile H}.
Implicit Types s : stream H.

(** A stream in order, at a position where it can write. *)
Record writable s : Prop := {
  wr_inv : sinv s;
  wr_hist : hist s;
  wr_pos : 0 <= a_cur (view s);
  wr_mode : iolbf s = false \/ iorw s = false
}.

(** The bytes [d] are in the file, or in the buffer on their way to it. *)
Definition appended s (d : list Z) s' : Prop :=
  sinv s' /\ hist s' /\ keeps s s' /\ ioerr s' = ioerr s /\
  view s' = if bool_decide (d = []) then view s
            else mk_a (overwrite (a_data (view s)) (a_cur (view s)) d) (a_cur (view s) + alen d) [].

Lemma a_cur_mk l p : a_cur (mk_a l p []) = p.
Proof. unfold a_cur, a_tell. cbn [a_pos a_back]. rewrite alen_nil. destruct (_ =? _); lia. Qed.

Lemma appended_ok s d s' : writable s -> appended s d s' -> writable s'.
Proof.
  intros [Hs Hh Hp Hm] (Hs' & Hh' & [K1 K2 K3] & _ & Hv). split; [done|done| |].
  - rewrite Hv. case_bool_decide; [done|]. rewrite a_cur_mk. pose proof (alen_nonneg d). lia.
  - destruct Hm as [Hm|Hm]; [left; auto|right; congruence].
Qed.

Lemma appended_app s d s' d' s2 : writable s -> appended s d s' -> appended s' d' s2 -> appended s (d ++ d') s2.
Proof.
  intros [Hs Hh Hp Hm] (Hs' & Hh' & Hk & He & Hv) (Hs2 & Hh2 & Hk2 & He2 & Hv2).
  split_and!; [done|done|by eapply keeps_trans|congruence|].
  rewrite Hv2, Hv. destruct (decide (d = [])) as [->|Hd]; [by rewrite (bool_decide_true ([] = []))|].
  rewrite (bool_decide_false (d = [])) by done. rewrite (bool_decide_false (d ++ d' = [])) by (by destruct d).
  case_bool_decide as Hd'; [subst d'; by rewrite app_nil_r|].
  rewrite a_cur_mk. cbn [a_data]. rewrite overwrite_app, alen_app by done. f_equal. lia.
Qed.

Lemma a_write_appended s d r x r' s' : 0 <= a_cur (view s) -> d <> [] -> sinv s' -> hist s' -> keeps s s' -> ioerr s' = ioerr s ->
  a_write (view s) d r x r' (view s') -> r' = r /\ appended s d s'.
Proof.
  intros Hp Hd Hs Hh Hk He Hw. unfold a_write in Hw. rewrite (proj2 (Z.leb_le 0 _)) in Hw by done. destruct Hw as [-> Hv].
  split; [done|]. split_and!; try done. by rewrite bool_decide_false.
Qed.
End OnFile.

#[export] Program Instance stdio_sink_spec {H : Type} `{HD : DiskFile H} : SinkSpec (stream H) := {
  sk_ok s _ := writable s;
  sk_wrote := appended;
  sk_failed s := sinv s /\ hist s /\ ioerr s = true
}.
Next Obligation. done. Qed.
Next Obligation. intros H ? HD s d s' n. cbn beta. intros Hs _ Hd. by eapply appended_ok. Qed.
Next Obligation. intros H ? HD s [Hs Hh _ _]. by split_and!. Qed.
Next Obligation. intros H ? HD s d s' d' s2. apply appended_app. Qed.
Next Obligation.
  intros H ? HD s c [Hs Hh Hp Hm] Hc. apply wp_putc; [done|done| |].
  - intros r s' Hs' Hh' Hk He [_ Hw]. left. rewrite uchar_small in Hw by done. by eapply a_write_appended.
  - intros s' Hs' Hh' _ He. by right.
Qed.
Next Obligation.
  intros H ? HD s d [Hs Hh Hp Hm] Hb Hd Hmax. pose proof (alen_pos d Hd) as Hl. unfold INT_MAX in Hmax.
  apply wp_fwrite; try done; try lia.
  - intros r s' Hs' Hh' Hk He [_ Hw]. left. replace ((0 <? 1 * alen d) && (1 * alen d <? 2 ^ 32)) with true in Hw by lia.
    by eapply a_write_appended.
  - intros r s' Hr Hs' Hh' _ He. right. split; [|done]. specialize (Hr Hl). lia.
Qed.

(** ** Strings *)

(** [d] put into [m] at [p]. *)
Definition splice (m : list Z) (p : Z) (d : list Z) : list Z :=
  take (Z.to_nat p) m ++ d ++ drop (Z.to_nat (p + alen d)) m.

Lemma alen_drop (n : Z) (l : list Z) : 0 <= n <= alen l -> alen (drop (Z.to_nat n) l) = alen l - n.
Proof. intros Hn. unfold alen in *. rewrite length_drop. lia. Qed.

Lemma alen_take_le (n : Z) (l : list Z) : 0 <= n <= alen l -> alen (take (Z.to_nat n) l) = n.
Proof. intros Hn. unfold alen in *. rewrite length_take. lia. Qed.

Lemma alen_splice m p d : 0 <= p -> p + alen d <= alen m -> alen (splice m p d) = alen m.
Proof.
  intros Hp Hd. pose proof (alen_nonneg d). unfold splice. rewrite !alen_app, alen_take_le, alen_drop by lia. lia.
Qed.

Lemma splice_nil m p : splice m p [] = m.
Proof. unfold splice. rewrite alen_nil, Z.add_0_r. cbn [app]. apply take_drop. Qed.

Lemma splice_app m p d d' : 0 <= p -> p + alen d + alen d' <= alen m ->
  splice (splice m p d) (p + alen d) d' = splice m p (d ++ d').
Proof.
  intros Hp Hl. pose proof (alen_nonneg d). pose proof (alen_nonneg d'). unfold splice.
  set (a := take (Z.to_nat p) m). assert (alen a = p) as Ha by (apply alen_take_le; lia).
  set (b := drop (Z.to_nat (p + alen d)) m).
  assert (take (Z.to_nat (p + alen d)) (a ++ d ++ b) = a ++ d) as ->.
  { rewrite app_assoc. replace (Z.to_nat (p + alen d)) with (length (a ++ d)) by (rewrite length_app; unfold alen in *; lia).
    apply take_app_length. }
  assert (drop (Z.to_nat (p + alen d + alen d')) (a ++ d ++ b) = drop (Z.to_nat (alen d')) b) as ->.
  { rewrite app_assoc. replace (Z.to_nat (p + alen d + alen d')) with (length (a ++ d) + Z.to_nat (alen d'))%nat
      by (rewrite length_app; unfold alen in *; lia). apply drop_app_add. }
  rewrite <-!app_assoc. do 3 f_equal. subst b. rewrite drop_drop, alen_app. f_equal. lia.
Qed.

Lemma take_app_Z (n : Z) (d d' : list Z) : 0 <= n ->
  take (Z.to_nat n) (d ++ d') = take (Z.to_nat (Z.min (alen d) n)) d ++ take (Z.to_nat (n - Z.min (alen d) n)) d'.
Proof.
  intros Hn. rewrite take_app. unfold alen. f_equal; [|f_equal; lia].
  destruct (Z.leb_spec n (Z.of_nat (length d))); [f_equal; lia|]. rewrite !take_ge by lia. done.
Qed.

(** Room: what is stored stays in the memory. *)
Definition trick_ok (t : trick) (n : Z) : Prop :=
  0 <= n /\ 0 <= t_ptr t /\ 0 <= t_wcount t /\ t_ptr t + Z.min n (t_wcount t) <= alen (t_mem t).

(** As much of [d] as the count allows is stored. *)
Definition stored (t : trick) (d : list Z) : trick :=
  let w := Z.min (alen d) (t_wcount t) in
  mk_trick (splice (t_mem t) (t_ptr t) (take (Z.to_nat w) d)) (t_ptr t + w) (t_wcount t - w).

Lemma stored_nil t : 0 <= t_wcount t -> stored t [] = t.
Proof. intros Hw. unfold stored. rewrite alen_nil, Z.min_l, splice_nil, Z.add_0_r, Z.sub_0_r by lia. by destruct t. Qed.

Lemma stored_none t d : t_wcount t = 0 -> stored t d = t.
Proof.
  intros Hw. pose proof (alen_nonneg d). unfold stored. rewrite Hw, Z.min_r by lia. change (take (Z.to_nat 0) d) with (@nil Z).
  rewrite splice_nil, Z.add_0_r. destruct t. cbn in *. by subst.
Qed.

Lemma trick_stored_ok t d n : trick_ok t (alen d + n) -> 0 <= n -> trick_ok (stored t d) n.
Proof.
  intros (H1 & H2 & H3 & H4) Hn. pose proof (alen_nonneg d). unfold trick_ok, stored. cbn.
  assert (alen (take (Z.to_nat (Z.min (alen d) (t_wcount t))) d) = Z.min (alen d) (t_wcount t)) as Hl by (apply alen_take_le; lia).
  rewrite alen_splice by (rewrite ?Hl; lia). lia.
Qed.

Lemma stored_app t d d' : trick_ok t (alen d + alen d') -> stored (stored t d) d' = stored t (d ++ d').
Proof.
  intros (H1 & H2 & H3 & H4). pose proof (alen_nonneg d). pose proof (alen_nonneg d'). unfold stored. cbn [t_mem t_ptr t_wcount].
  set (w := Z.min (alen d) (t_wcount t)). set (w' := Z.min (alen d') (t_wcount t - w)). rewrite alen_app.
  replace (Z.min (alen d + alen d') (t_wcount t)) with (w + w') by lia.
  assert (alen (take (Z.to_nat w) d) = w) as Hw by (apply alen_take_le; lia).
  assert (alen (take (Z.to_nat w') d') = w') as Hw' by (apply alen_take_le; lia).
  rewrite take_app_Z by lia. replace (Z.min (alen d) (w + w')) with w by lia. replace (w + w' - w) with w' by lia.
  pose proof (splice_app (t_mem t) (t_ptr t) (take (Z.to_nat w) d) (take (Z.to_nat w') d') H2) as Hs.
  rewrite Hw, Hw' in Hs. rewrite Hs by lia. f_equal; lia.
Qed.

Lemma trick_store_run t d : t_ptr t + alen d <= alen (t_mem t) ->
  trick_store d t = Done tt (mk_trick (splice (t_mem t) (t_ptr t) d) (t_ptr t + alen d) (t_wcount t)).
Proof. intros Hd. unfold trick_store, trick_put, mbind, M_bind, mget. by rewrite (proj2 (Z.leb_le _ _)). Qed.

Lemma trick_putc_run t c : trick_ok t 1 -> byte c -> trick_putc c t = Done c (stored t [c]).
Proof.
  intros (_ & H2 & H3 & H4) Hc. unfold trick_putc, mbind, M_bind, mget, mput. cbn [t_mem t_ptr t_wcount].
  rewrite uchar_small by done. destruct (Z.leb_spec 1 (t_wcount t)) as [Hw|Hw].
  - rewrite Z.geb_leb, (proj2 (Z.leb_le 0 _)) by lia. rewrite trick_store_run by (cbn; change (alen [c]) with 1; lia).
    unfold stored. change (alen [c]) with 1. rewrite Z.min_l by lia. done.
  - rewrite Z.geb_leb, (proj2 (Z.leb_gt 0 _)) by lia. unfold trick_flush, mbind, M_bind, mmod. rewrite uchar_small by done.
    rewrite stored_none by lia. destruct t as [m p w]. cbn in *. by replace w with 0 by lia.
Qed.

Lemma trick_write_run fuel src t : (length src <= fuel)%nat -> Forall byte src -> trick_ok t (alen src) ->
  trick_write fuel src t = Done tt (stored t src).
Proof.
  revert src t. induction fuel as [|fuel IH]; intros src t Hf Hb Hok.
  { destruct src; [|cbn in Hf; lia]. destruct Hok as (_ & _ & ? & _). by rewrite stored_nil. }
  destruct src as [|c rest]; [destruct Hok as (_ & _ & ? & _); by rewrite stored_nil|].
  pose proof Hok as (_ & H2 & H3 & H4). cbn [trick_write]. unfold mbind at 1, M_bind at 1, mget at 1.
  destruct (Z.eqb_spec (t_wcount t) 0) as [Hw|Hw].
  - unfold mbind, M_bind, trick_flush, mbind, M_bind, mmod. apply Forall_cons in Hb as [Hc Hb]. cbn [length] in Hf.
    replace (mk_trick (t_mem t) (t_ptr t) 0) with t by (destruct t; cbn in *; by subst). unfold mret, M_ret. cbv iota beta.
    rewrite IH; [by rewrite !stored_none|lia|done|]. pose proof (alen_nonneg rest). rewrite alen_cons in H4. unfold trick_ok. lia.
  - pose proof (alen_cons c rest) as Hl. pose proof (alen_nonneg rest). set (src := c :: rest) in *.
    set (n := Z.min (alen src) (t_wcount t)). assert (alen (take (Z.to_nat n) src) = n) as Hn by (apply alen_take_le; lia).
    unfold mbind, M_bind at 1. rewrite trick_store_run by (rewrite Hn; lia). unfold M_bind, mmod. cbn [t_mem t_ptr t_wcount]. rewrite Hn.
    change (mk_trick _ _ _) with (stored t src). assert (alen (drop (Z.to_nat n) src) = alen src - n) as Hd by (apply alen_drop; lia).
    assert (trick_ok (stored t src) 0) as Hok' by (apply trick_stored_ok; [by rewrite Z.add_0_r|done]).
    rewrite IH; [| |by apply Forall_drop|].
    + f_equal. destruct (Z.leb_spec (alen src) (t_wcount t)).
      * rewrite drop_ge by (unfold n, alen in *; lia). apply stored_nil. apply Hok'.
      * apply stored_none. unfold stored. cbn. lia.
    + unfold alen in *. cbn [length] in *. lia.
    + destruct Hok' as (_ & K2 & K3 & K4). unfold trick_ok. split_and!; [lia|done|done|]. unfold stored in *. cbn in *. lia.
Qed.

#[export] Program Instance trick_sink_spec : SinkSpec trick := {
  sk_ok := trick_ok;
  sk_wrote t d t' := t' = stored t d;
  sk_failed _ := False
}.
Next Obligation. intros t n m (? & ? & ? & ?) Hm. unfold trick_ok. lia. Qed.
Next Obligation. intros t d t' n Hok Hn ->. by apply trick_stored_ok. Qed.
Next Obligation. intros t (_ & _ & Hw & _). by rewrite stored_nil. Qed.
Next Obligation. intros t d t' d' t2 Hok -> ->. by apply stored_app. Qed.
Next Obligation.
  intros t c Hok Hc. unfold wp. change (sk_putc c t) with (trick_putc c t). rewrite trick_putc_run by done. by left.
Qed.
Next Obligation.
  intros t d Hok Hb Hd Hl. unfold wp. change (sk_fwrite d t) with (trick_fwrite d t). unfold trick_fwrite, mbind, M_bind.
  rewrite trick_write_run by done. by left.
Qed.
