(* ===== verification/PrintfProps.v ===== *)
(** What formatted output promises: [_output] prints the text that [render]
    gives for the format, [snprintf] never leaves its buffer, and [strtoll]
    reads the numbers back that [sprintf] prints. *)

From S2P Require Import Prelude CStr Conv ConvFacts ConvProps Stdio StdioSpec StdioRead StdioWrite StdioProps Printf PrintfSpec PrintfFacts PrintfInt PrintfDigits PrintfFloat PrintfParse PrintfOutput PrintfSinks.
#[local] Open Scope Z_scope.

(** ** An example *)

(** Decimal fractions as floating point numbers: the sign, the digits and the
    exponent of the first of them. *)
Record decfrac := mk_dec { df_neg : bool; df_digits : list Z; df_xp : Z }.
#[export] Instance decfrac_ldouble : LDouble decfrac := {
  fp_class x := if bool_decide (df_digits x = []) then FP_ZERO else FP_NORMAL;
  fp_signbit := df_neg;
  fp_neg x := mk_dec (negb (df_neg x)) (df_digits x) (df_xp x);
  fp_is_zero x := bool_decide (df_digits x = []);
  fp_dtoa x _ _ _ := (48 :: take 21 (df_digits x ++ replicate 21 48) ++ [0], 1, df_xp x)
}.

(** The C locale. *)
Definition c_env : penv := {|
  e_mbcl := fun _ => 1;
  e_point := 46;
  e_toupper := fun c => if (97 <=? c) && (c <=? 122) then c - 32 else c;
  e_mbstate := unit;
  e_mbinit := tt;
  e_wcrtomb := fun _ wc => (if (0 <=? wc) && (wc <? 128) then Some [wc] else None, tt);
  e_strerror := [79; 75; 0]
|}.

Lemma c_env_ok : penv_ok c_env.
Proof.
  split; cbn.
  - by split; [by compute|].
  - intros c Hc. unfold upper_case. destruct (Z.leb_spec 97 c), (Z.leb_spec c 122), (Z.leb_spec c 102); cbn; lia.
  - done.
  - intros _ wc mb [] H. destruct (Z.leb_spec 0 wc), (Z.ltb_spec wc 128); cbn in H; try done. injection H as <-.
    split; [done|]. constructor; [|done]. unfold byte. lia.
  - repeat constructor; by compute.
Qed.

(** "%-6d|%#010x|%+.3e|%s%n%%", as directives and as a string. *)
Definition ex_format : list directive := [
  Conversion (mk_cspec [FMinus] (Some (Num [6])) None 0 100);
  Plain [124];
  Conversion (mk_cspec [FHash; FZero] (Some (Num [1; 0])) None 0 120);
  Plain [124];
  Conversion (mk_cspec [FPlus] None (Some (Num [3])) 0 101);
  Plain [124];
  Conversion (mk_cspec [] (Some Star) (Some (Num [2])) 0 115);
  Conversion (mk_cspec [] None None 104 110);
  Percent].
Definition ex_args : list (arg decfrac) :=
  [AInt (-42); AInt 48879; ADouble (mk_dec false [49; 50; 53] (-3)); AInt 4; AStr (Some [104; 105; 33]); APtr 4096].
(** "-42   |0x0000beef|+1.250e-03|  hi%" *)
Definition ex_text : list Z :=
  [45; 52; 50; 32; 32; 32; 124; 48; 120; 48; 48; 48; 48; 98; 101; 101; 102; 124;
   43; 49; 46; 50; 53; 48; 101; 45; 48; 51; 124; 32; 32; 104; 105; 37].

Example ex_format_string : unparse ex_format =
  [37; 45; 54; 100; 124; 37; 35; 48; 49; 48; 120; 124; 37; 43; 46; 51; 101; 124; 37; 42; 46; 50; 115; 37; 104; 110; 37; 37].
Proof. vm_compute. reflexivity. Qed.
Example ex_render : render c_env ex_format ex_args 0 = Some (ex_text, [(4096, 2, 33)]).
Proof. vm_compute. reflexivity. Qed.

(** ** Printing *)

Section Output.
Context {S F : Type} {HK : Sink S} {HP : SinkSpec S} {HF : LDouble F} (env : penv) (past : list Z).
Hypothesis Henv : penv_ok env.

(** The result of [_output] in the state it starts in. *)
Lemma output_ends (s : S) ds (args : list (arg F)) t st :
  past_ok past ds -> Forall (directive_ok env) ds -> Forall arg_ok args -> render env ds args 0 = Some (t, st) ->
  alen t <= INT_MAX -> sk_ok s (alen t) ->
  (exists o, output env past s (unparse ds) args = Done (alen t) o /\ sk_wrote s t (o_stream o) /\ o_stores o = st) \/
  (exists o, output env past s (unparse ds) args = Done (-1) o /\ sk_failed (o_stream o)).
Proof.
  intros [Hpast Hroom]%past_ok_each Hds Hargs Hr Hmax Hok. pose proof (alen_nonneg t).
  pose proof (wp_output_loop env Henv past Hpast ds (proj2 (Forall_and _ _) (conj Hds Hroom)) (Datatypes.S (length (unparse ds))) (mk_ost s 0 args []) t st
    (fun r o => r = o_count o /\ ends (mk_ost s 0 args []) t st o) Hargs Hr) as Hwp.
  unfold output. unfold wp in Hwp. destruct (output_loop _ _ _ _ _) as [r o|e o|f].
  - left. exists o. destruct Hwp as [Hc [H1 H2 H3]]; [split; [done|cbn; lia]|lia|intros o' Ho'; by split|].
    cbn in H1, H2, H3. subst r. rewrite H2. done.
  - right. exists o. split; [done|]. destruct Hwp as [_ Hf]; [split; [done|cbn; lia]|lia|intros o' Ho'; by split|done].
  - exfalso. apply Hwp; [split; [done|cbn; lia]|lia|intros o' Ho'; by split].
Qed.
End Output.


Lemma ex_directives : Forall (directive_ok c_env) ex_format.
Proof.
  assert (forall c : Z, c <> 0 -> c <> 37 -> byte c -> directive_ok c_env (Plain [c])) as Hplain.
  { intros c H0 H1 Hb. exists c, []. split_and!; try done. by constructor. }
  assert (forall c, bool_decide (width_ok (cs_width c) /\ prec_ok (cs_prec c) /\ cs_size c ∈ sizes /\ cs_conv c ∈ conv_letters) = true ->
    directive_ok c_env (Conversion c)) as Hconv by (intros c Hc; by apply bool_decide_eq_true in Hc).
  unfold ex_format. do 9 (apply Forall_cons; split; [first [apply Hplain; by compute | apply Hconv; vm_compute; reflexivity | exact I]|]).
  by apply Forall_nil.
Qed.


(** "%.3e" and "%.1f" with nothing behind [digits]. *)
Lemma float_overruns :
  let number (letter prec : Z) := Conversion (mk_cspec [] None (Some (Num [prec])) 0 letter) in
  let mem := replicate 40 7 in
  sprintf c_env [] mem (unparse [number 101 3]) [ADouble (mk_dec false [49; 50; 53] (-3))] = Fault Ub /\
  sprintf c_env [] mem (unparse [number 102 1]) [ADouble (mk_dec false [49; 50; 53] 1)] = Fault Ub.
Proof. by vm_compute. Qed.

(** ** Printing to strings *)

Section Strings.
Context {F : Type} {HF : LDouble F} (env : penv) (past : list Z).
Hypothesis Henv : penv_ok env.

Lemma output_string mem w ds (args : list (arg F)) t st :
  past_ok past ds -> Forall (directive_ok env) ds -> Forall arg_ok args -> render env ds args 0 = Some (t, st) ->
  alen t <= INT_MAX -> 0 <= w -> Z.min (alen t) w <= alen mem ->
  exists o, output env past (mk_trick mem 0 w) (unparse ds) args = Done (alen t) o /\
    o_stream o = stored (mk_trick mem 0 w) t /\ o_stores o = st.
Proof.
  intros Hpast Hds Hargs Hr Hmax Hw Hm. pose proof (alen_nonneg t).
  destruct (output_ends env past Henv (mk_trick mem 0 w) ds args t st Hpast Hds Hargs Hr Hmax) as [Ho|(o & _ & [])]; [|exact Ho].
  unfold sk_ok. cbn. unfold trick_ok. cbn. lia.
Qed.

Lemma stored_start mem w t : 0 <= w -> Z.min (alen t) w <= alen mem ->
  let k := Z.min (alen t) w in
  stored (mk_trick mem 0 w) t = mk_trick (splice mem 0 (take (Z.to_nat k) t)) k (w - k).
Proof. done. Qed.

(** The byte behind the text. *)
Lemma splice_end mem t k : 0 <= k -> k + 1 <= alen mem -> alen (take (Z.to_nat k) t) = k ->
  splice (splice mem 0 (take (Z.to_nat k) t)) k [0] = take (Z.to_nat k) t ++ 0 :: drop (Z.to_nat (k + 1)) mem.
Proof.
  intros Hk Hm Hl. pose proof (splice_app mem 0 (take (Z.to_nat k) t) [0] ltac:(lia)) as Hs. rewrite Hl in Hs.
  change (alen [0]) with 1 in Hs. rewrite Z.add_0_l in Hs. rewrite Hs by lia. unfold splice. change (take (Z.to_nat 0) mem) with (@nil Z).
  rewrite alen_app, Hl. change (alen [0]) with 1. cbn [app]. by rewrite <-app_assoc, Z.add_0_l.
Qed.

Lemma snprintf_run mem n ds (args : list (arg F)) t st :
  past_ok past ds -> Forall (directive_ok env) ds -> Forall arg_ok args -> render env ds args 0 = Some (t, st) ->
  alen t <= INT_MAX -> 0 <= n <= INT_MAX -> n <= alen mem ->
  exists o, snprintf env past mem n (unparse ds) args = Done (alen t) o /\ o_stores o = st /\
    t_mem (o_stream o) =
      if n =? 0 then mem
      else let k := Z.min (alen t) (n - 1) in take (Z.to_nat k) t ++ 0 :: drop (Z.to_nat (k + 1)) mem.
Proof.
  intros Hpast Hds Hargs Hr Hmax Hn Hmem. pose proof (alen_nonneg t). unfold snprintf.
  rewrite Z.gtb_ltb, (proj2 (Z.ltb_ge _ _)) by lia. set (w := if negb (n =? 0) then n - 1 else 0).
  assert (0 <= w /\ Z.min (alen t) w <= alen mem) as [Hw Hwm] by (subst w; destruct (Z.eqb_spec n 0); cbn; lia).
  destruct (output_string mem w ds args t st Hpast Hds Hargs Hr Hmax Hw Hwm) as (o & -> & Hs & Hst).
  destruct (Z.eqb_spec n 0) as [Hz|Hz]; cbn [negb] in *.
  - exists o. split_and!; [done|done|]. rewrite Hs, stored_none by done. done.
  - rewrite stored_start in Hs by done. set (k := Z.min (alen t) w) in *.
    assert (alen (take (Z.to_nat k) t) = k) as Hk by (apply alen_take_le; lia).
    unfold lift, trick_put, mbind, M_bind, mget. rewrite Hs. cbn [t_mem t_ptr t_wcount]. change (alen [0]) with 1.
    rewrite alen_splice by (rewrite ?Hk; lia). rewrite (proj2 (Z.leb_le _ _)) by lia. eexists. split; [done|]. split; [done|].
    cbn [o_stream t_mem]. apply (splice_end mem t k); [lia| |done]. subst k w. lia.
Qed.

Lemma sprintf_run mem ds (args : list (arg F)) t st :
  past_ok past ds -> Forall (directive_ok env) ds -> Forall arg_ok args -> render env ds args 0 = Some (t, st) ->
  alen t < INT_MAX -> alen t < alen mem ->
  exists o, sprintf env past mem (unparse ds) args = Done (alen t) o /\ o_stores o = st /\
    t_mem (o_stream o) = t ++ 0 :: drop (Z.to_nat (alen t + 1)) mem.
Proof.
  intros Hpast Hds Hargs Hr Hmax Hmem. pose proof (alen_nonneg t). unfold sprintf.
  destruct (output_string mem INT_MAX ds args t st Hpast Hds Hargs Hr) as (o & -> & Hs & Hst); [lia|done|lia|].
  rewrite stored_start in Hs by lia. rewrite Z.min_l in Hs by lia. cbv zeta in Hs.
  assert (alen (take (Z.to_nat (alen t)) t) = alen t) as Hk by (apply alen_take_le; lia).
  unfold lift. rewrite Hs, trick_putc_run; [|unfold trick_ok; cbn; rewrite alen_splice by (rewrite ?Hk; lia); lia|by compute].
  eexists. split; [done|]. split; [done|]. cbn [o_stream]. unfold stored. cbn [t_mem t_ptr t_wcount].
  change (alen [0]) with 1. rewrite Z.min_l by lia. change (take (Z.to_nat 1) [0]) with [0].
  rewrite splice_end by (done || lia). f_equal. apply take_ge. unfold alen. lia.
Qed.
End Strings.

(** C19: [snprintf] with a buffer of [n] bytes, for any format and arguments
    whose meaning C defines: it returns the number of characters of the whole
    text, the buffer holds as much of the text as fits and a terminating zero,
    and no byte behind the buffer changes; with [n] zero nothing is stored.
    (The [n] conversions store in any case; floating point conversions need
    bytes behind their own array of digits, as in C10.) *)
Theorem snprintf_bounded {F : Type} `{HF : LDouble F} (env : penv) (past mem : list Z) n ds (args : list (arg F)) t st :
  penv_ok env -> past_ok past ds -> Forall (directive_ok env) ds -> Forall arg_ok args ->
  render env ds args 0 = Some (t, st) -> alen t <= INT_MAX -> 0 <= n <= INT_MAX -> n <= alen mem ->
  exists o, snprintf env past mem n (unparse ds) args = Done (alen t) o /\ o_stores o = st /\
    drop (Z.to_nat n) (t_mem (o_stream o)) = drop (Z.to_nat n) mem /\
    take (Z.to_nat n) (t_mem (o_stream o)) =
      if n =? 0 then []
      else let k := Z.min (alen t) (n - 1) in take (Z.to_nat k) t ++ 0 :: sub mem (k + 1) (n - (k + 1)).
Proof.
  intros Henv Hpast Hds Hargs Hr Hmax Hn Hmem. pose proof (alen_nonneg t).
  destruct (snprintf_run env past Henv mem n ds args t st Hpast Hds Hargs Hr Hmax Hn Hmem) as (o & Ho & Hst & Hm).
  exists o. split_and!; [done|done| |]; rewrite Hm; destruct (Z.eqb_spec n 0) as [->|Hz]; try done; cbv zeta;
    set (k := Z.min (alen t) (n - 1)); assert (alen (take (Z.to_nat k) t) = k) as Hk by (apply alen_take_le; lia).
  - replace (Z.to_nat n) with (length (take (Z.to_nat k) t) + Datatypes.S (Z.to_nat (n - (k + 1))))%nat by (unfold alen in *; lia).
    rewrite drop_app_add. cbn [drop]. rewrite drop_drop. f_equal. unfold alen in *. lia.
  - replace (Z.to_nat n) with (length (take (Z.to_nat k) t) + Datatypes.S (Z.to_nat (n - (k + 1))))%nat by (unfold alen in *; lia).
    rewrite take_app_add. cbn [take]. done.
Qed.

(** The example in a buffer of ten bytes. *)
Lemma snprintf_bounded_witness :
  let mem := replicate 40 7 in
  exists o, snprintf c_env [0] mem 10 (unparse ex_format) ex_args = Done (alen ex_text) o /\ o_stores o = [(4096, 2, 33)] /\
    drop (Z.to_nat 10) (t_mem (o_stream o)) = drop (Z.to_nat 10) mem /\
    take (Z.to_nat 10) (t_mem (o_stream o)) = [45; 52; 50; 32; 32; 32; 124; 48; 120; 0].
Proof.
  apply (snprintf_bounded c_env [0] (replicate 40 7) 10 ex_format ex_args ex_text [(4096, 2, 33)]).
  - apply c_env_ok.
  - by split; [constructor|].
  - apply ex_directives.
  - repeat constructor; by compute.
  - apply ex_render.
  - vm_compute. done.
  - vm_compute. done.
  - vm_compute. done.
Defined.

(** Where the text is not that of the documentation in doc/emxlib.src, but that
    of C: the 0 flag of a floating point conversion with a precision, 0x for
    [p], 0X for [X], the exponent for [g]. *)
Lemma printf_documentation :
  let text fl w p c (a : arg decfrac) := render c_env [Conversion (mk_cspec fl w p 0 c)] [a] 0 in
  text [FZero] (Some (Num [1; 0])) (Some (Num [2])) 102 (ADouble (mk_dec false [49; 50; 53] 1))
    = Some ([48; 48; 48; 48; 48; 49; 50; 46; 53; 48], [])
  /\ text [] None None 112 (APtr 4096) = Some ([48; 120; 49; 48; 48; 48], [])
  /\ text [FHash] None None 88 (AInt 48879) = Some ([48; 88; 66; 69; 69; 70], [])
  /\ text [] None None 103 (ADouble (mk_dec false [49; 50; 53] 6)) = Some ([49; 46; 50; 53; 101; 43; 48; 54], []).
Proof. vm_compute. by split_and!. Qed.

(** ** Reading numbers back *)

Definition blank_ok (isspace : Z -> bool) : Prop :=
  isspace 32 = true /\ forall c, c ∈ [NUL; MINUS; PLUS] ++ digits -> isspace c = false.

(** A decimal numeral with blanks around it. *)
Record numeral_text (n : Z) (t : list Z) : Prop := mk_numeral_text {
  nt_pre : list Z; nt_sign : list Z; nt_digits : list Z; nt_post : list Z;
  nt_text : t = nt_pre ++ nt_sign ++ (digit_char <$> nt_digits) ++ nt_post;
  nt_blanks : Forall (eq 32) nt_pre /\ Forall (eq 32) nt_post;
  nt_sign_ok : nt_sign = (if n <? 0 then [MINUS] else []) \/ 0 <= n /\ nt_sign = [PLUS];
  nt_digits_ok : Forall (fun d => 0 <= d < 10) nt_digits /\ nt_digits <> [];
  nt_number : number 10 0 nt_digits = Z.abs n
}.

Lemma rep_blank n : Forall (eq 32) (rep n 32).
Proof. unfold rep. by apply Forall_replicate. Qed.

Lemma rep_zero n : rep n 48 = digit_char <$> replicate (Z.to_nat n) 0.
Proof. unfold rep. by rewrite fmap_replicate. Qed.

Lemma rep_rep a b c : rep a c ++ rep b c = rep (Z.max a 0 + Z.max b 0) c.
Proof. unfold rep. rewrite <-replicate_add. f_equal. lia. Qed.

Lemma number_zeros k ds : number 10 0 (replicate k 0 ++ ds) = number 10 0 ds.
Proof. induction k as [|k IH]; [done|exact IH]. Qed.

Lemma lay_numeral f (w : Z) minus zero n zeros :
  Z.abs n < 2 ^ 64 ->
  numeral_text n (lay w minus zero (sign_of f (n <? 0)) [] (rep zeros 48 ++ numeral 10 (Z.abs n))).
Proof.
  intros Hn. destruct (numeral_ok 10 (Z.abs n) ltac:(lia) ltac:(lia)) as (ds & -> & Hds & Hnum & Hne & _).
  assert (forall p k q, Forall (eq 32) p -> Forall (eq 32) q ->
    numeral_text n (p ++ sign_of f (n <? 0) ++ rep k 48 ++ (digit_char <$> ds) ++ q)) as Hshape.
  { intros p k q Hp Hq. rewrite rep_zero, (app_assoc (_ <$> _)), <-fmap_app.
    assert (Forall (fun d => 0 <= d < 10) (replicate (Z.to_nat k) 0 ++ ds) /\ replicate (Z.to_nat k) 0 ++ ds <> []) as Hall.
    { split; [|by intros [_ ?]%app_nil]. apply Forall_app. split; [|done]. apply Forall_replicate. lia. }
    unfold sign_of. destruct (Z.ltb_spec n 0) as [Hneg|Hpos]; [|destruct (f_plus f); [|destruct (f_blank f)]].
    - exists p [MINUS] (replicate (Z.to_nat k) 0 ++ ds) q; [done|done| |done|by rewrite number_zeros]. left. by zbool.
    - exists p [PLUS] (replicate (Z.to_nat k) 0 ++ ds) q; [done|done| |done|by rewrite number_zeros]. by right.
    - exists (p ++ [32]) [] (replicate (Z.to_nat k) 0 ++ ds) q; [by rewrite <-app_assoc| | |done|by rewrite number_zeros].
      + split; [|done]. apply Forall_app. split; [done|by constructor].
      + left. by zbool.
    - exists p [] (replicate (Z.to_nat k) 0 ++ ds) q; [done|done| |done|by rewrite number_zeros]. left. by zbool. }
  unfold lay. cbn [app]. destruct zero; [|destruct minus].
  - rewrite (app_assoc (rep _ _)), rep_rep. specialize (Hshape []). by rewrite <-(app_nil_r (digit_char <$> ds)); apply Hshape.
  - rewrite <-!app_assoc. by apply (Hshape []), rep_blank.
  - rewrite <-(app_nil_r (digit_char <$> ds)). by apply Hshape; [apply rep_blank|].
Qed.

(** What is printed for a decimal number: nothing for zero with the precision
    zero, or a numeral. *)
Lemma dec_text_numeral f n : Z.abs n < 2 ^ 64 -> dec_text f true n = [] /\ n = 0 \/ numeral_text n (dec_text f true n).
Proof.
  intros Hn. unfold dec_text, int_text. destruct ((n =? 0) && _) eqn:Hz; [left; split; [done|lia]|right]. by apply lay_numeral.
Qed.

Section Read.
Context (isspace : Z -> bool).
Hypothesis Hspace : blank_ok isspace.

Lemma drop_blanks p l : Forall (eq 32) p -> drop_while isspace (p ++ l) = drop_while isspace l.
Proof. intros Hp. induction Hp as [|c p <- _ IH]; [done|]. cbn [app drop_while]. by rewrite (proj1 Hspace). Qed.

Lemma digit_run_stop ds c r : Forall (fun d => 0 <= d < 10) ds -> digit_value c = None ->
  digit_run 10 ((digit_char <$> ds) ++ c :: r) = (ds, c :: r).
Proof.
  intros Hds Hc. induction Hds as [|d ds Hd _ IH]; cbn [fmap list_fmap app digit_run]; rewrite place_of_digit_value; [by rewrite Hc|].
  rewrite digit_value_char by lia. zbool. change (list_fmap Z Z digit_char ds) with (digit_char <$> ds). by rewrite IH.
Qed.

Lemma after_prefix_10 l : after_prefix 10 l = (false, 10, l).
Proof. by destruct l as [|c [|x l]]. Qed.

(** The sign and the digits behind blanks. *)
Lemma after_sign_digits (n : Z) sg ds q : Forall (fun d => 0 <= d < 10) ds -> ds <> [] ->
  (sg = (if n <? 0 then [MINUS] else []) \/ 0 <= n /\ sg = [PLUS]) ->
  after_sign (drop_while isspace (sg ++ (digit_char <$> ds) ++ q)) = (n <? 0, (digit_char <$> ds) ++ q).
Proof.
  destruct Hspace as [_ Hno]. intros Hds Hne Hsg. destruct Hds as [|d ds Hd _]; [done|]. cbn [fmap list_fmap app].
  destruct (digit_char_cases d ltac:(lia)) as [[? Hc]|]; [|lia].
  assert (isspace (digit_char d) = false) as Hdig.
  { apply digit_not_space; [|lia]. intros c Hin. apply Hno, elem_of_app. by right. }
  destruct Hsg as [->|[Hn ->]]; [destruct (Z.ltb_spec n 0)|]; cbn [app drop_while].
  - by rewrite Hno by set_solver.
  - rewrite Hdig. cbn [after_sign]. rewrite Hc. unfold MINUS, PLUS. by zbool.
  - rewrite Hno by set_solver. cbn [after_sign]. unfold MINUS, PLUS. by zbool.
Qed.

Lemma strtoll_numeral n t r : - 2 ^ 63 <= n < 2 ^ 63 -> numeral_text n t ->
  exists e, strtol isspace t_llong (t ++ 0 :: r) 10 = Some (mk_result n e None) /\ Forall (eq 32) (sub (t ++ 0 :: r) e (alen t - e)).
Proof.
  intros Hn [p sg ds q Ht [Hp Hq] Hsg [Hds Hne] Hnum].
  assert (isspace NUL = false) as Hnul by (apply (proj2 Hspace); set_solver).
  exists (alen p + alen sg + alen ds). rewrite strtol_ok; [|done|unfold ty_ok; cbn; by auto|by apply elem_of_app; right; left]. subst t. split.
  - f_equal. unfold strtol_ref. rewrite <-!app_assoc, (drop_blanks p) by done.
    rewrite (after_sign_digits n sg ds (q ++ 0 :: r)) by done. rewrite after_prefix_10.
    assert (exists c k, q ++ 0 :: r = c :: k /\ digit_value c = None) as (c & k & Hck & Hstop).
    { destruct Hq as [|x q <- _]; by eexists _, _. }
    rewrite Hck, digit_run_stop, Hnum, bool_decide_false by done. cbn [Z.ltb Z.gtb Z.compare orb Pos.compare Pos.compare_cont].
    assert (Z.abs n <=? limit t_llong (n <? 0) = true) as -> by (unfold limit; cbn; destruct (Z.ltb_spec n 0); lia).
    f_equal; [cbn; destruct (Z.ltb_spec n 0); lia|]. unfold alen. rewrite !length_app, length_fmap. lia.
  - unfold sub. replace ((p ++ sg ++ (digit_char <$> ds) ++ q) ++ 0 :: r) with ((p ++ sg ++ (digit_char <$> ds)) ++ q ++ 0 :: r)
      by (by rewrite <-!app_assoc). rewrite drop_app_length'.
    + rewrite take_app_length'; [done|]. unfold alen. rewrite !length_app, length_fmap. lia.
    + unfold alen. rewrite !length_app, length_fmap. lia.
Qed.

(** A number as [sprintf] leaves it in memory. *)
Lemma strtoll_dec f n r : - 2 ^ 63 <= n < 2 ^ 63 ->
  let t := dec_text f true n in
  exists e, strtol isspace t_llong (t ++ 0 :: r) 10 = Some (mk_result n e None) /\ Forall (eq 32) (sub (t ++ 0 :: r) e (alen t - e)).
Proof.
  intros Hn t. destruct (dec_text_numeral f n ltac:(lia)) as [[Ht ->]|Ht]; [|by apply strtoll_numeral].
  exists 0. subst t. rewrite Ht. split; [|done]. assert (isspace NUL = false) as Hnul by (apply (proj2 Hspace); set_solver).
  rewrite strtol_ok; [|done|unfold ty_ok; cbn; by auto|by left]. unfold strtol_ref. cbn [app drop_while].
  change (isspace 0) with (isspace NUL). rewrite Hnul. cbn [after_sign]. change (0 =? MINUS) with false.
  change (0 =? PLUS) with false. cbn iota. by rewrite after_prefix_10.
Qed.
End Read.

Lemma signed_arg_range {F} size (a : arg F) n : signed_arg size a = Some n -> - 2 ^ 63 <= n < 2 ^ 63.
Proof.
  destruct a as [w|w| | | | |]; cbn; try done; destruct (IS_SIZE_64BIT size); intros [= <-].
  - unfold signed_value, s16, s8, s32. destruct (size =? 104); [|destruct (size =? SIZE_HH)]; Z.div_mod_to_equations; lia.
  - unfold s64. Z.div_mod_to_equations. lia.
Qed.

Lemma render_decimal {F} `{HF : LDouble F} env c (args : list (arg F)) f a l n :
  cs_conv c ∈ [100; 105] -> field_of c args = Some (f, a :: l) -> signed_arg (cs_size c) a = Some n ->
  render env [Conversion c] args 0 = Some (dec_text f true n, []).
Proof.
  intros Hc Hf Hn. cbn [render]. rewrite Hf. cbn [mbind option_bind]. unfold arg_text.
  apply elem_of_cons in Hc as [->|Hc%list_elem_of_singleton]; [|rewrite Hc]; cbn [Z.eqb Pos.eqb orb];
    rewrite Hn; cbn [mbind option_bind]; by rewrite app_nil_r.
Qed.

(** C20: What [sprintf] prints for a decimal conversion, [strtoll] reads back:
    for all flags, widths, precisions and sizes, and every integer argument,
    the string in the buffer is read as the number that was passed (converted
    to the type the size names), without an error, and behind the end pointer
    the text has only the blanks of its field. *)
Theorem sprintf_strtoll {F : Type} `{HF : LDouble F} (env : penv) (isspace : Z -> bool) (past mem : list Z) c (args : list (arg F)) f a l n :
  penv_ok env -> Forall byte past -> blank_ok isspace -> directive_ok env (Conversion c) -> Forall arg_ok args ->
  cs_conv c ∈ [100; 105] -> field_of c args = Some (f, a :: l) -> signed_arg (cs_size c) a = Some n ->
  let t := dec_text f true n in
  alen t < INT_MAX -> alen t < alen mem ->
  exists o e, sprintf env past mem (unparse [Conversion c]) args = Done (alen t) o /\
    strtol isspace t_llong (t_mem (o_stream o)) 10 = Some (mk_result n e None) /\
    Forall (eq 32) (sub (t_mem (o_stream o)) e (alen t - e)).
Proof.
  intros Henv Hpast Hsp Hdir Hargs Hc Hf Hn t Hmax Hmem.
  destruct (sprintf_run env past Henv mem [Conversion c] args t []) as (o & Ho & _ & Hm); try done.
  - split; [done|]. intros _. constructor; [|done]. cbn. unfold float_letter.
    apply elem_of_cons in Hc as [->|Hc%list_elem_of_singleton]; [|rewrite Hc]; intros H; by destruct_or! H.
  - by constructor.
  - by apply (render_decimal env c args f a l n).
  - destruct (strtoll_dec isspace Hsp f n (drop (Z.to_nat (alen t + 1)) mem)) as (e & He & Hb); [by eapply signed_arg_range|].
    exists o, e. rewrite Hm. done.
Qed.

(** "%+010hd" with an argument that is too large for a [short]: "-000025536". *)
Lemma sprintf_strtoll_witness :
  let c := mk_cspec [FPlus; FZero] (Some (Num [1; 0])) None 104 100 in
  exists o e, sprintf c_env [] (replicate 20 7) (unparse [Conversion c]) [AInt (F := decfrac) 40000] = Done 10 o /\
    strtol c_isspace t_llong (t_mem (o_stream o)) 10 = Some (mk_result (-25536) e None) /\
    Forall (eq 32) (sub (t_mem (o_stream o)) e (10 - e)).
Proof.
  apply (sprintf_strtoll c_env c_isspace [] (replicate 20 7) (mk_cspec [FPlus; FZero] (Some (Num [1; 0])) None 104 100)
    [AInt (F := decfrac) 40000] (mk_field false true false false true 10 None) (AInt 40000) [] (-25536)).
  - apply c_env_ok.
  - by constructor.
  - split; [done|]. intros c Hc. cbn in Hc. repeat (apply elem_of_cons in Hc as [->|Hc]; [by compute|]). by apply elem_of_nil in Hc.
  - split_and!; [by repeat constructor|done|by compute_done|by compute_done].
  - by repeat constructor.
  - by left.
  - done.
  - done.
  - by vm_compute.
  - by vm_compute.
Defined.
